(* ===== verification/_CoqProject ===== *)
-Q . S2P
Prelude.v
WfsBitmap.v
WfsDisk.v
CString.v
WfsPath.v
WfsDir.v
WfsOps.v
WfsMkfs.v
WfsStore.v
WfsBlocks.v
WfsFree.v
WfsFrame.v
WfsIO.v
WfsSlots.v
WfsTree.v
WfsLookup.v
WfsSpec.v
WfsCreate.v
WfsRemove.v
WfsAttr.v
WfsInit.v
WfsTheorems.v
HashMap.v
DynArray.v
WshUtils.v
WshParse.v
Wsh.v
WshSafe.v
WshPipe.v
WshTheorems.v
Counting.v
RwLock.v
RwInv.v
RwLive.v
BoundedBuffer.v
BbInv.v
SyncTheorems.v
XvProc.v
XvInv.v
XvLife.v
XvReach.v
XvVm.v
XvFiles.v
XvPanic.v
XvFair.v
XvTheorems.v
XvCalls.v
XvLocks.v
XvKalloc.v
XvLog.v
XvBio.v
XvLogTheorems.v
XvSh.v
XvShParse.v
XvShRun.v
XvPipe.v
XvPage.v
XvPageInv.v
XvPageOps.v
XvPageUser.v
XvExec.v
XvExecInv.v
XvPageTheorems.v
XvFs.v
XvFsInv.v
XvFsInode.v
XvFsIo.v
XvFsCache.v
XvFsDir.v
XvFsCalls.v
XvFsRw.v
XvFsOps.v
XvFsLink.v
XvFsTree.v
XvFsSession.v
XvMkfs.v
XvFsTheorems.v
