(* ===== verification/Prelude.v ===== *)
(** * Verification of the systems-programming portfolio

    The repository has four C programs. Each is translated by hand into
    executable definitions, which keep the names of the C functions, and the
    theorems are about these definitions.

    ** The programs and the files that model them

    - [01-fuse-filesystem-wfs]: the FUSE file system WFS (wfs.c) and the program
      that makes its image (mkfs.c). The mapped image is a record with one field
      per region of the disk. Bitmaps: [WfsBitmap]. Image, inodes, block
      pointers and bytes: [WfsDisk]. Paths and colour tags: [CString],
      [WfsPath]. Directories: [WfsDir]. The FUSE operations: [WfsOps]. mkfs and
      mount: [WfsMkfs]. The storage invariant and the block layer under it:
      [WfsStore], [WfsBlocks], [WfsFree], [WfsFrame], [WfsIO]. Directories and
      the namespace: [WfsSlots], [WfsTree], [WfsLookup]. The
      operations against their specifications: [WfsSpec], [WfsCreate],
      [WfsRemove], [WfsAttr], [WfsInit]. The theorems: [WfsTheorems].
    - [02-unix-shell-wsh]: the shell wsh. Alias table (hash_map.c): [HashMap].
      History (dynamic_array.c): [DynArray]. Strings (utils.c): [WshUtils].
      Lexing (wsh.c): [WshParse]. Commands, pipelines and input loops (wsh.c):
      [Wsh], over an operating system that is a parameter; [WshSafe] and
      [WshPipe] prove them total and describe the descriptors of a pipeline.
      The theorems: [WshTheorems].
    - [03-xv6-stcf-scheduler]: the xv6 kernel with an STCF scheduler, threads
      and give_cpu, and its user programs. See below.
    - [04-threading-concurrency-primitives]: a writer-priority lock
      (readers_writers.c) and a bounded buffer (bounded_buffer.c), both with
      sync_utils.c, as interleavings of the statements of their threads:
      [RwLock], [RwInv], [RwLive], [BoundedBuffer], [BbInv], with sums over
      threads in [Counting]. The theorems: [SyncTheorems].

    ** The parts of xv6

    - Processes (proc.c, sysproc.c, trap.c, parts of vm.c, file.c and exec.c):
      [XvProc] has the kernel state as a record and one function per handler;
      an event runs kernel code up to the next point where another processor
      may enter. [XvInv], [XvLife], [XvReach],
      [XvVm], [XvFiles], [XvPanic] and [XvFair] prove what holds in
      every reachable state, and have runs that serve as examples; the
      theorems are in [XvTheorems] and [XvCalls].
    - Spin locks (spinlock.c): [XvLocks].
    - Page allocator (kalloc.c): [XvKalloc].
    - Block cache and sleep locks (bio.c, sleeplock.c, the request of ide.c):
      [XvBio].
    - Log (log.c): [XvLog], [XvLogTheorems], over the contents the
      block cache promises.
    - Page tables (vm.c): [XvPage] has the tables as words in pages, over an
      interface to the page allocator. [XvPageInv], [XvPageOps], [XvPageUser]
      prove each operation against an address space as a map from page
      numbers to pages.
    - Loading of programs (exec.c up to its commit, which is in [XvProc]):
      [XvExec], [XvExecInv]. The theorems on both, and the page allocator as
      an instance of the interface: [XvPageTheorems].
    - Pipes (pipe.c, sys_pipe): [XvPipe].
    - Inodes and directories (fs.c): [XvFs] has the disk, the locked buffers,
      the open transaction and the inode cache as a record, and one function
      per operation; the block cache and the log are as [XvBio] and
      [XvLogTheorems] show them. [XvFsInv], [XvFsInode], [XvFsIo], [XvFsCache]
      and [XvFsDir] prove each operation against a table of files and their
      blocks.
    - System calls on files (file.c, sysfile.c): [XvFsCalls]. [XvFsRw],
      [XvFsOps] and [XvFsLink] prove each call, [XvFsTree] that the
      directories stay a tree, [XvFsSession] sequences of calls.
    - The program that makes the image (mkfs.c): [XvMkfs]. The theorems on
      these three: [XvFsTheorems].
    - The user shell (sh.c): [XvSh], [XvShParse], [XvShRun].

    ** What the theorems show

    - WFS: from the image mkfs writes, every sequence of operations keeps the
      storage and the namespace invariant and never faults; reads return what
      was written, and each operation changes what it names and nothing else,
      or fails and changes nothing.
    - wsh: the alias table is a finite map, lexing follows its grammar and
      inverts printing, pipelines are wired as written, and the input loop
      returns on every input.
    - Threads: writers exclude everybody, the buffer is first in first out,
      trays have one owner, and the threads can always run to their ends.
    - xv6: the process table is consistent in every reachable state, resources
      are counted exactly, the kernel panics only when the first process ends
      or process numbers run out, both schedulers choose as they say, locks
      exclude, pages are handed out once, the block cache is one copy of the
      disk, and the log survives a power failure at any write.
    - xv6, continued: fork copies memory byte for byte into fresh pages, memory
      grows and shrinks without a leak, exec builds the image that file and
      arguments describe or leaves nothing behind, a pipe is a stream of bytes,
      the shell accepts exactly its grammar and wires programs as written.
    - xv6 file system: from the image mkfs makes, every sequence of calls that
      fits on the disk has the answers and the effects of a table of files,
      and leaves link counts and a bitmap that agree with the directories and
      the inodes; each call keeps to its share of the log. [fits] lists what
      is left out: a full disk and a full inode table, where the kernel
      panics; a link to the name [.], where it hangs; the removal of a
      directory in use; device files.

    ** Conventions

    C integers are [Z] with their wrap-around written out ([u32], [s32] and so
    on below). Code that can fault or panic returns [option]; [None] is the
    fault. Loops that are not structural take fuel. The fuel is computed from
    the data at the call (the bytes left to copy, the pages of a range, the
    length of a buffer), and the theorems say that the functions return, so
    running out of fuel is excluded with the other faults. Code outside the
    repository (the C library beyond string functions, FUSE, the file system
    under wsh, hardware) enters as parameters or as arguments of events, with
    what is relied on stated next to them.

    ** Not modelled

    - Entry points and printing: the [main] functions of the thread programs,
      usage messages and debugging output.
    - xv6 hardware: drivers for the timer, interrupt controllers, serial line
      and keyboard, the start of the machine, assembly. They read and write
      device registers and processor state, which nothing in the repository
      describes; the process model has their interrupts as events.
    - xv6 user programs other than the shell; the file that a path names is an
      argument of exec.
    - Concurrent calls into the xv6 file system: its calls run one after the
      other, where the log, the block cache, pipes and processes are modelled
      with all interleavings.
    - Console input of xv6: the process model lets a process inside it sleep,
      wake others and return.
    *)

From stdpp Require Import base option list numbers.
From coqutil Require Import Byte Word.LittleEndianList.
From Stdlib Require Strings.String.
From Stdlib Require Import Strings.Byte ZArith Lia.
Export Stdlib.Strings.String.StringSyntax.

Delimit Scope string_scope with string.
Bind Scope string_scope with String.string.

Global Arguments Nat.div : simpl never.
Global Arguments Nat.modulo : simpl never.
Global Arguments Z.div : simpl never.
Global Arguments Z.modulo : simpl never.
Global Arguments Z.mul : simpl never.
Global Arguments Z.add : simpl never.
Global Arguments Z.sub : simpl never.
Global Arguments Z.of_nat : simpl never.
Global Arguments Z.pow : simpl never.

(** * Lists *)

(** Elements replaced from position [off] on. *)
Definition patch {A} (off : nat) (b old : list A) : list A := take off old ++ b ++ drop (off + length b) old.

Lemma length_patch {A} off (b old : list A) : (off + length b ≤ length old)%nat → length (patch off b old) = length old.
Proof. intros Hl. unfold patch. rewrite !length_app, length_take, length_drop. lia. Qed.

Lemma lookup_patch {A} off (b old : list A) i :
  (off + length b ≤ length old)%nat → patch off b old !! i = if decide (off ≤ i < off + length b)%nat then b !! (i - off)%nat else old !! i.
Proof.
  intros Hl. unfold patch. destruct (decide (i < off)%nat) as [Hi|Hi].
  - rewrite decide_False by lia. rewrite lookup_app_l by (rewrite length_take; lia). by apply lookup_take_lt.
  - rewrite lookup_app_r by (rewrite length_take; lia). rewrite length_take, Nat.min_l by lia. case_decide.
    + by rewrite lookup_app_l by lia.
    + rewrite lookup_app_r, lookup_drop by lia. f_equal. lia.
Qed.

Lemma list_alter_insert {A} (f : A → A) i (l : list A) x : l !! i = Some x → alter f i l = <[i := f x]> l.
Proof.
  intros H. apply list_eq. intros j. rewrite list_lookup_alter. case_decide.
  - subst. rewrite H. symmetry. apply list_lookup_insert_eq. by eapply lookup_lt_Some.
  - by rewrite list_lookup_insert_ne.
Qed.

(** * C integers *)

Section c_integers.
Local Open Scope Z_scope.

(** Conversion to an unsigned or a two's-complement type of the given width. *)
Definition to_unsigned (w z : Z) : Z := z mod 2 ^ w.
Definition to_signed (w z : Z) : Z := (z + 2 ^ (w - 1)) mod 2 ^ w - 2 ^ (w - 1).

End c_integers.

Definition u8 : Z → Z := to_unsigned 8.
Definition u32 : Z → Z := to_unsigned 32.
Definition u64 : Z → Z := to_unsigned 64.
Definition s8 : Z → Z := to_signed 8.
Definition s32 : Z → Z := to_signed 32.
Definition s64 : Z → Z := to_signed 64.

Lemma to_unsigned_id w z : (0 ≤ z < 2 ^ w)%Z → to_unsigned w z = z.
Proof. intros. unfold to_unsigned. by rewrite Z.mod_small. Qed.

Lemma to_signed_id w z : (0 < w)%Z → (- 2 ^ (w - 1) ≤ z < 2 ^ (w - 1))%Z → to_signed w z = z.
Proof.
  intros Hw Hz. unfold to_signed.
  assert (2 ^ w = 2 * 2 ^ (w - 1))%Z as E.
  { rewrite <- Z.pow_succ_r by lia. f_equal; lia. }
  rewrite Z.mod_small by lia. lia.
Qed.

Lemma to_unsigned_range w z : (0 ≤ w)%Z → (0 ≤ to_unsigned w z < 2 ^ w)%Z.
Proof. intros. apply Z.mod_pos_bound. by apply Z.pow_pos_nonneg. Qed.

Lemma u32_id z : (0 ≤ z < 4294967296)%Z → u32 z = z.
Proof. apply (to_unsigned_id 32). Qed.
Lemma u64_id z : (0 ≤ z < 18446744073709551616)%Z → u64 z = z.
Proof. apply (to_unsigned_id 64). Qed.
Lemma s32_id z : (-2147483648 ≤ z < 2147483648)%Z → s32 z = z.
Proof. by apply (to_signed_id 32). Qed.
Lemma s64_id z : (-9223372036854775808 ≤ z < 9223372036854775808)%Z → s64 z = z.
Proof. by apply (to_signed_id 64). Qed.
Lemma s8_id z : (-128 ≤ z < 128)%Z → s8 z = z.
Proof. by apply (to_signed_id 8). Qed.

(** * Byte strings *)

(** A C string is the list of its bytes before the terminating NUL. *)
Definition cstr := list byte.
Definition cs (s : String.string) : cstr := String.list_byte_of_string s.

Global Instance byte_eq_decision : EqDecision byte := Byte.byte_eq_dec.

Definition NUL : byte := Corelib.Init.Byte.x00.

(** [strcmp (s, t) == 0]. *)
Definition streq (s t : cstr) : bool := bool_decide (s = t).

Lemma streq_true s t : streq s t = true ↔ s = t.
Proof. unfold streq. by rewrite bool_decide_eq_true. Qed.
Lemma streq_false s t : streq s t = false ↔ s ≠ t.
Proof. unfold streq. by rewrite bool_decide_eq_false. Qed.

(** The bytes up to the first NUL; [None] when the buffer has none. *)
Fixpoint until_nul (buf : list byte) : option cstr :=
  match buf with
  | [] => None
  | c :: rest => if decide (c = NUL) then Some [] else (c ::.) <$> until_nul rest
  end.

(** * State, faults and total specifications *)

(** A stateful computation; [None] is a memory access outside the region the
    program owns (undefined behaviour in C) or exhausted fuel. *)
Definition ST (S A : Type) : Type := S → option (A * S).

Global Instance ST_ret S : MRet (ST S) := λ A a s, Some (a, s).
Global Instance ST_bind S : MBind (ST S) := λ A B f m s,
  match m s with Some (a, s') => f a s' | None => None end.

Global Instance ST_fmap S : FMap (ST S) := λ A B f m s,
  match m s with Some (a, s') => Some (f a, s') | None => None end.

Definition get {S} : ST S S := λ s, Some (s, s).
Definition put {S} (s : S) : ST S () := λ _, Some ((), s).
Definition gets {S A} (f : S → A) : ST S A := λ s, Some (f s, s).
Definition modify {S} (f : S → S) : ST S () := λ s, Some ((), f s).
Definition lift {S A} (o : option A) : ST S A := λ s, (λ a, (a, s)) <$> o.
Definition fault {S A} : ST S A := λ _, None.

(** Running a sequence whose first step is known. *)
Lemma bind_run {S A B} (m : ST S A) (f : A → ST S B) s a s' :
  m s = Some (a, s') → (m ≫= f) s = f a s'.
Proof. unfold mbind, ST_bind. by intros ->. Qed.

Lemma fmap_run {S A B} (f : A → B) (m : ST S A) s a s' :
  m s = Some (a, s') → (f <$> m) s = Some (f a, s').
Proof. unfold fmap, ST_fmap. by intros ->. Qed.

(** [wp m Q s]: started in [s], [m] returns, and its result and final state
    satisfy [Q]. *)
Definition wp {S A} (m : ST S A) (Q : A → S → Prop) (s : S) : Prop :=
  match m s with Some (a, s') => Q a s' | None => False end.

Section wp.
Context {S : Type}.

Lemma wp_intro {A} (m : ST S A) Q s a s' : m s = Some (a, s') → Q a s' → wp m Q s.
Proof. unfold wp. by intros ->. Qed.

Lemma wp_elim {A} (m : ST S A) Q s : wp m Q s → ∃ a s', m s = Some (a, s') ∧ Q a s'.
Proof. unfold wp. destruct (m s) as [[a s']|]; [eauto|done]. Qed.

Lemma wp_mono {A} (m : ST S A) (P Q : A → S → Prop) s :
  wp m P s → (∀ a s', P a s' → Q a s') → wp m Q s.
Proof. unfold wp. destruct (m s) as [[a s']|]; eauto. Qed.

Lemma wp_ret {A} (a : A) (Q : A → S → Prop) s : Q a s → wp (mret a) Q s.
Proof. done. Qed.

Lemma wp_bind {A B} (m : ST S A) (f : A → ST S B) Q s :
  wp m (λ a, wp (f a) Q) s → wp (m ≫= f) Q s.
Proof.
  unfold wp, mbind, ST_bind. destruct (m s) as [[a s']|]; [|done].
  by destruct (f a s') as [[]|].
Qed.

Lemma wp_get (Q : S → S → Prop) s : Q s s → wp get Q s.
Proof. done. Qed.
Lemma wp_put (Q : () → S → Prop) s s' : Q () s' → wp (put s') Q s.
Proof. done. Qed.
Lemma wp_gets {A} (f : S → A) Q s : Q (f s) s → wp (gets f) Q s.
Proof. done. Qed.
Lemma wp_modify (f : S → S) (Q : () → S → Prop) s : Q () (f s) → wp (modify f) Q s.
Proof. done. Qed.
Lemma wp_lift {A} (o : option A) (a : A) (Q : A → S → Prop) s :
  o = Some a → Q a s → wp (lift o) Q s.
Proof. by intros ->. Qed.
End wp.

(** One step of symbolic execution. *)
Ltac wp_step :=
  lazymatch goal with
  | |- wp (_ ≫= _) _ _ => apply wp_bind
  | |- wp (mret _) _ _ => apply wp_ret
  | |- wp get _ _ => apply wp_get
  | |- wp (put _) _ _ => apply wp_put
  | |- wp (gets _) _ _ => apply wp_gets
  | |- wp (modify _) _ _ => apply wp_modify
  end.
Ltac wp_steps := repeat (wp_step; cbn beta).
