(* ===== verification/WfsBitmap.v ===== *)
(** The inode and data-block bitmaps of WFS: [bitmap_test], [free_bitmap] and
    the first-fit allocator [allocate_block] of wfs.c, over a bitmap that is
    the list of its 32-bit words.  [bit] is the abstract view (bit [p] of the
    bitmap as a boolean); each operation is specified by its effect on it. *)

From stdpp Require Import base option list numbers.
From Stdlib Require Import ZArith Lia.
From S2P Require Import Prelude.

Section code.
Local Open Scope Z_scope.

(** [(bitmap[position / 32] >> (position % 32)) & 0x1]; [None] is a read
    outside the bitmap. *)
Definition bitmap_test (position : Z) (bitmap : list Z) : option Z :=
  let idx := position / 32 in
  let bit := position mod 32 in
  w ← bitmap !! Z.to_nat idx;
  Some (Z.land (Z.shiftr w bit) 1).

(** [bitmap[idx] &= ~(1U << bit)]. *)
Definition free_bitmap (position : Z) (bitmap : list Z) : option (list Z) :=
  let idx := position / 32 in
  let bit := position mod 32 in
  w ← bitmap !! Z.to_nat idx;
  Some (<[Z.to_nat idx := Z.land w (u32 (Z.lnot (u32 (Z.shiftl 1 bit))))]> bitmap).

(** The inner loop of [allocate_block]: the first clear bit among [n] bits
    from [k]. *)
Fixpoint scan_word (bm_region : Z) (n : nat) (k : Z) : option Z :=
  match n with
  | O => None
  | S n' =>
      if Z.land (Z.shiftr bm_region k) 1 =? 0 then Some k
      else scan_word bm_region n' (k + 1)
  end.

(** The outer loop, with [n] words left to visit from index [i]. *)
Fixpoint allocate_block_loop (bitmap : list Z) (n : nat) (i : Z) : option (Z * list Z) :=
  match n with
  | O => Some (-1, bitmap)
  | S n' =>
      bm_region ← bitmap !! Z.to_nat i;
      if bm_region =? 0xFFFFFFFF then allocate_block_loop bitmap n' (i + 1)
      else
        match scan_word bm_region 32 0 with
        | Some k =>
            Some (u32 (32 * i + k),
                  <[Z.to_nat i := Z.lor bm_region (u32 (Z.shiftl 1 k))]> bitmap)
        | None => allocate_block_loop bitmap n' (i + 1)
        end
  end.

(** Scan for a clear bit, set it and return its index; [-1] when none is
    left among the first [len] words. *)
Definition allocate_block (bitmap : list Z) (len : Z) : option (Z * list Z) :=
  allocate_block_loop bitmap (Z.to_nat len) 0.

End code.

(** * Abstract view *)

(** Bit [p] of the bitmap. *)
Definition bit (bm : list Z) (p : nat) : bool :=
  Z.testbit (default 0%Z (bm !! (p / 32))) (Z.of_nat (p mod 32)).

(** Every word is a [uint32_t]. *)
Definition words_ok (bm : list Z) : Prop :=
  Forall (λ w, (0 ≤ w < 2 ^ 32)%Z) bm.

(** The number of clear bits among the first [n]. *)
Definition count_free (bm : list Z) (n : nat) : nat :=
  length (filter (λ p, bit bm p = false) (seq 0 n)).

Lemma words_ok_lookup bm i w : words_ok bm → bm !! i = Some w → (0 ≤ w < 2 ^ 32)%Z.
Proof. unfold words_ok. rewrite Forall_lookup. eauto. Qed.

Lemma testbit_land1 w k : (0 ≤ k)%Z → Z.land (Z.shiftr w k) 1 = Z.b2z (Z.testbit w k).
Proof.
  intros. rewrite Z.testbit_spec' by done. change 1%Z with (Z.ones 1).
  rewrite Z.land_ones, Z.shiftr_div_pow2 by done. done.
Qed.

Lemma of_nat_div_32 p : (Z.of_nat p / 32)%Z = Z.of_nat (p / 32).
Proof. by rewrite Nat2Z.inj_div. Qed.
Lemma of_nat_mod_32 p : (Z.of_nat p mod 32)%Z = Z.of_nat (p mod 32).
Proof. by rewrite Nat2Z.inj_mod. Qed.

Lemma div_32_lt p n : p < 32 * n → p / 32 < n.
Proof. intros. apply Nat.Div0.div_lt_upper_bound. lia. Qed.

Lemma bit_at bm p w : bm !! (p / 32) = Some w → bit bm p = Z.testbit w (Z.of_nat (p mod 32)).
Proof. unfold bit. by intros ->. Qed.

Lemma shiftl_1_u32 k : (0 ≤ k < 32)%Z → u32 (Z.shiftl 1 k) = Z.shiftl 1 k.
Proof.
  intros. apply u32_id. rewrite Z.shiftl_1_l. split.
  - by apply Z.pow_nonneg.
  - change 4294967296%Z with (2 ^ 32)%Z. apply Z.pow_lt_mono_r; lia.
Qed.

Lemma testbit_u32 z k : (0 ≤ k < 32)%Z → Z.testbit (u32 z) k = Z.testbit z k.
Proof. intros. unfold u32, to_unsigned. by rewrite Z.mod_pow2_bits_low by lia. Qed.

Lemma testbit_shiftl_1 j k : (0 ≤ j)%Z → (0 ≤ k)%Z → Z.testbit (Z.shiftl 1 j) k = bool_decide (j = k).
Proof.
  intros. rewrite Z.shiftl_1_l, Z.pow2_bits_eqb by done.
  destruct (Z.eqb_spec j k); by case_bool_decide.
Qed.

(** Updating one word. *)
Lemma bit_insert bm i w p :
  i < length bm →
  bit (<[i := w]> bm) p =
    if decide (p / 32 = i) then Z.testbit w (Z.of_nat (p mod 32)) else bit bm p.
Proof.
  intros Hi. unfold bit. case_decide as E.
  - subst i. by rewrite list_lookup_insert_eq.
  - by rewrite list_lookup_insert_ne.
Qed.

Lemma same_word p q : p / 32 = q / 32 → p mod 32 = q mod 32 → p = q.
Proof.
  intros H1 H2. rewrite (Nat.div_mod_eq p 32), (Nat.div_mod_eq q 32). congruence.
Qed.

Lemma bitmap_test_spec bm p :
  p < 32 * length bm → bitmap_test (Z.of_nat p) bm = Some (Z.b2z (bit bm p)).
Proof.
  intros Hp. unfold bitmap_test. rewrite of_nat_div_32, of_nat_mod_32, Nat2Z.id.
  destruct (lookup_lt_is_Some_2 bm (p / 32)) as [w Hw]; [by apply div_32_lt|].
  rewrite Hw; simpl. rewrite testbit_land1 by lia. by rewrite (bit_at _ _ _ Hw).
Qed.

Lemma free_bitmap_spec bm p :
  p < 32 * length bm → words_ok bm →
  ∃ bm', free_bitmap (Z.of_nat p) bm = Some bm' ∧ length bm' = length bm ∧ words_ok bm' ∧
    ∀ q, bit bm' q = if decide (q = p) then false else bit bm q.
Proof.
  intros Hp Hok. unfold free_bitmap. rewrite of_nat_div_32, of_nat_mod_32, Nat2Z.id.
  assert (p / 32 < length bm) as Hlt by (by apply div_32_lt).
  assert (p mod 32 < 32) as Hmod by (apply Nat.mod_upper_bound; lia).
  destruct (lookup_lt_is_Some_2 bm (p / 32)) as [w Hw]; [done|].
  rewrite Hw; simpl. eexists; split; [reflexivity|]. rewrite length_insert.
  pose proof (words_ok_lookup _ _ _ Hok Hw) as Hr.
  split; [done|]. split.
  - apply Forall_insert; [done|]. split; [apply Z.land_nonneg; lia|].
    apply Z.le_lt_trans with w; [|lia].
    apply Z.ldiff_le; [lia|]. apply Z.bits_inj'. intros k Hk.
    rewrite Z.ldiff_spec, Z.land_spec, Z.bits_0. destruct (Z.testbit w k); simpl; [by rewrite andb_false_r|done].
  - intros q. rewrite bit_insert by done. destruct (decide (q / 32 = p / 32)) as [E|E].
    + rewrite Z.land_spec, testbit_u32, Z.lnot_spec by (pose proof (Nat.mod_upper_bound q 32); lia).
      rewrite shiftl_1_u32, testbit_shiftl_1 by lia.
      rewrite (bit_at bm q w) by congruence. case_decide as D.
      * subst q. rewrite bool_decide_eq_true_2 by done. cbn [negb]. by rewrite andb_false_r.
      * rewrite bool_decide_eq_false_2; [cbn [negb]; by rewrite andb_true_r|].
        intros Heq. apply D, same_word; [done|lia].
    + rewrite decide_False; [done|]. by intros ->.
Qed.

Lemma scan_word_spec w n k :
  (0 ≤ k)%Z →
  match scan_word w n k with
  | Some j => (k ≤ j < k + Z.of_nat n)%Z ∧ Z.testbit w j = false ∧
      ∀ i, (k ≤ i < j)%Z → Z.testbit w i = true
  | None => ∀ i, (k ≤ i < k + Z.of_nat n)%Z → Z.testbit w i = true
  end.
Proof.
  revert k; induction n as [|n IH]; intros k Hk; cbn [scan_word]; [lia|].
  rewrite testbit_land1 by done. destruct (Z.testbit w k) eqn:E; simpl.
  - specialize (IH (k + 1)%Z ltac:(lia)). destruct (scan_word w n (k + 1)) as [j|].
    + destruct IH as (?&?&IH). split_and!; [lia|lia|done|]. intros i Hi.
      destruct (decide (i = k)); [by subst|apply IH; lia].
    + intros i Hi. destruct (decide (i = k)); [by subst|apply IH; lia].
  - split_and!; [lia|lia|done|lia].
Qed.

(** The word [0xFFFFFFFF] has no clear bit, so skipping it is sound. *)
Lemma full_word_bits k : (0 ≤ k < 32)%Z → Z.testbit 0xFFFFFFFF k = true.
Proof. intros. change 0xFFFFFFFF%Z with (Z.ones 32). apply Z.ones_spec_low. lia. Qed.

Lemma lor_u32_range w k : (0 ≤ w < 2 ^ 32)%Z → (0 ≤ k < 32)%Z → (0 ≤ Z.lor w (Z.shiftl 1 k) < 2 ^ 32)%Z.
Proof.
  intros Hw Hk. split; [apply Z.lor_nonneg; rewrite Z.shiftl_nonneg; lia|].
  destruct (decide (Z.lor w (Z.shiftl 1 k) = 0)%Z) as [->|Hnz]; [done|].
  apply Z.log2_lt_pow2.
  { assert (0 ≤ Z.lor w (Z.shiftl 1 k))%Z by (apply Z.lor_nonneg; rewrite Z.shiftl_nonneg; lia). lia. }
  rewrite Z.log2_lor by (try rewrite Z.shiftl_nonneg; lia).
  apply Z.max_lub_lt.
  - destruct (decide (w = 0%Z)) as [->|]; [done|]. apply Z.log2_lt_pow2; lia.
  - rewrite Z.shiftl_1_l, Z.log2_pow2; lia.
Qed.

Lemma allocate_block_loop_spec bm n i :
  words_ok bm → i + n ≤ length bm → (Z.of_nat (length bm) ≤ 67108864)%Z →
  ∃ r bm', allocate_block_loop bm n (Z.of_nat i) = Some (r, bm') ∧
    ((r = -1)%Z ∧ bm' = bm ∧ (∀ p, 32 * i ≤ p < 32 * (i + n) → bit bm p = true) ∨
     ∃ p, r = Z.of_nat p ∧ 32 * i ≤ p < 32 * (i + n) ∧ bit bm p = false ∧
       (∀ q, 32 * i ≤ q < p → bit bm q = true) ∧
       length bm' = length bm ∧ words_ok bm' ∧
       ∀ q, bit bm' q = if decide (q = p) then true else bit bm q).
Proof.
  intros Hok. revert i. induction n as [|n IH]; intros i Hi Hlen.
  { do 2 eexists; split; [reflexivity|]. left. split_and!; [done|done|lia]. }
  destruct (lookup_lt_is_Some_2 bm i) as [w Hw]; [lia|].
  pose proof (words_ok_lookup _ _ _ Hok Hw) as Hr.
  assert (∀ p, 32 * i ≤ p < 32 * (S i) → bit bm p = Z.testbit w (Z.of_nat p - 32 * Z.of_nat i)) as Hword.
  { intros p Hp. assert (p / 32 = i) as E.
    { symmetry. apply Nat.div_unique with (p - 32 * i); lia. }
    rewrite (bit_at bm p w) by congruence. f_equal.
    pose proof (Nat.div_mod_eq p 32). lia. }
  cbn [allocate_block_loop]. rewrite Nat2Z.id, Hw; cbn [mbind option_bind].
  replace (Z.of_nat i + 1)%Z with (Z.of_nat (S i)) by lia.
  destruct (IH (S i)) as (r&bm'&Hrec&Hres); [lia|lia|].
  assert (Hskip : (∀ k, (0 ≤ k < 32)%Z → Z.testbit w k = true) →
    ((r = -1)%Z ∧ bm' = bm ∧ (∀ p, 32 * i ≤ p < 32 * (i + S n) → bit bm p = true) ∨
     ∃ p, r = Z.of_nat p ∧ 32 * i ≤ p < 32 * (i + S n) ∧ bit bm p = false ∧
       (∀ q, 32 * i ≤ q < p → bit bm q = true) ∧
       length bm' = length bm ∧ words_ok bm' ∧
       ∀ q, bit bm' q = if decide (q = p) then true else bit bm q)).
  { intros Hfull.
    assert (∀ p, 32 * i ≤ p < 32 * S i → bit bm p = true) as Hb.
    { intros p Hp. rewrite Hword by done. apply Hfull. lia. }
    destruct Hres as [(?&?&Hall)|(p&?&?&?&Hlow&?&?&?)].
    - left. split_and!; [done|done|]. intros p Hp.
      destruct (decide (p < 32 * S i)); [apply Hb; lia|apply Hall; lia].
    - right. exists p. split_and!; [done|lia|lia|done| |done|done|done].
      intros q Hq. destruct (decide (q < 32 * S i)); [apply Hb; lia|apply Hlow; lia]. }
  case_match eqn:Efull.
  { apply Z.eqb_eq in Efull. subst w. exists r, bm'. split; [done|].
    apply Hskip, full_word_bits. }
  pose proof (scan_word_spec w 32 0 ltac:(lia)) as Hscan.
  destruct (scan_word w 32 0) as [k|].
  2: { exists r, bm'. split; [done|]. apply Hskip. intros k Hk. apply Hscan. lia. }
  destruct Hscan as (Hk&Hclear&Hlow).
  do 2 eexists; split; [reflexivity|]. right.
  exists (32 * i + Z.to_nat k).
  rewrite u32_id by lia. rewrite shiftl_1_u32 by lia. rewrite length_insert.
  split_and!; [lia|lia|lia| | |done| |].
  - rewrite Hword by lia. rewrite <- Hclear. f_equal. lia.
  - intros q Hq. rewrite Hword by lia. apply Hlow. lia.
  - apply Forall_insert; [done|]. apply lor_u32_range; lia.
  - intros q. rewrite bit_insert by lia. destruct (decide (q / 32 = i)) as [Eq|Eq].
    + pose proof (Nat.div_mod_eq q 32). pose proof (Nat.mod_upper_bound q 32 ltac:(lia)).
      rewrite Z.lor_spec, testbit_shiftl_1, <- (bit_at bm q w) by (congruence || lia).
      case_decide as D.
      * rewrite bool_decide_eq_true_2 by lia. by rewrite orb_true_r.
      * rewrite bool_decide_eq_false_2 by lia. by rewrite orb_false_r.
    + rewrite decide_False; [done|]. intros ->. apply Eq.
      symmetry. apply Nat.div_unique with (Z.to_nat k); lia.
Qed.

(** [allocate_block] over the whole bitmap: first fit, or [-1] on a full one. *)
Lemma allocate_block_cases bm :
  words_ok bm → (Z.of_nat (length bm) ≤ 67108864)%Z →
  ∃ r bm', allocate_block bm (Z.of_nat (length bm)) = Some (r, bm') ∧
    ((r = -1)%Z ∧ bm' = bm ∧ (∀ p, p < 32 * length bm → bit bm p = true) ∨
     ∃ p, r = Z.of_nat p ∧ p < 32 * length bm ∧ bit bm p = false ∧
       (∀ q, q < p → bit bm q = true) ∧
       length bm' = length bm ∧ words_ok bm' ∧
       ∀ q, bit bm' q = if decide (q = p) then true else bit bm q).
Proof.
  intros Hok Hlen. unfold allocate_block. rewrite Nat2Z.id.
  destruct (allocate_block_loop_spec bm (length bm) 0) as (r&bm'&E&H); [done|lia|done|].
  exists r, bm'. split; [done|].
  destruct H as [(?&?&H)|(p&?&?&?&H&?&?&?)].
  - left. split_and!; [done|done|]. intros; apply H; lia.
  - right. exists p. split_and!; [done|lia|done| |done|done|done]. intros; apply H; lia.
Qed.
