(* ===== verification/WfsDisk.v ===== *)
(** The mapped disk image of WFS and the inode and block layer of wfs.c.

    The image is kept by region, as the superblock lays it out: the two
    bitmaps as lists of 32-bit words, the inode table as a list of inodes (one
    per 512-byte slot), the data blocks as lists of 512 bytes.  An inode
    pointer is the index of its slot; a pointer into the data region, like
    every [off_t] stored on disk, is the byte offset from the start of the
    image, resolved by [mem_read] and [mem_write], which fault outside the
    data region or across the end of a block. *)

From stdpp Require Import base option list numbers.
From coqutil Require Import Byte Word.LittleEndianList.
From Stdlib Require Import ZArith Lia.
From S2P Require Import Prelude WfsBitmap.

Local Open Scope Z_scope.

Definition BLOCK_SIZE : Z := 512.
Definition MAX_NAME : Z := 28.
Definition D_BLOCK : Z := 6.
Definition IND_BLOCK : Z := D_BLOCK + 1.
Definition N_BLOCKS : Z := IND_BLOCK + 1.

(** [errno] values of the error paths. *)
Definition EPERM : Z := 1.
Definition ENOENT : Z := 2.
Definition ENOMEM : Z := 12.
Definition EBUSY : Z := 16.
Definition EEXIST : Z := 17.
Definition ENOTDIR : Z := 20.
Definition EISDIR : Z := 21.
Definition EINVAL : Z := 22.
Definition ENOSPC : Z := 28.
Definition ERANGE : Z := 34.
Definition ENAMETOOLONG : Z := 36.
Definition ENOTEMPTY : Z := 39.
Definition ENOTSUP : Z := 95.

(** File-type bits of [mode_t]. *)
Definition S_IFMT : Z := 0xF000.
Definition S_IFIFO : Z := 0x1000.
Definition S_IFDIR : Z := 0x4000.
Definition S_IFREG : Z := 0x8000.
Definition S_ISDIR (m : Z) : bool := Z.land m S_IFMT =? S_IFDIR.
Definition S_ISREG (m : Z) : bool := Z.land m S_IFMT =? S_IFREG.
Definition S_ISFIFO (m : Z) : bool := Z.land m S_IFMT =? S_IFIFO.

Record wfs_sb := mk_sb {
  num_inodes : Z;
  num_data_blocks : Z;
  i_bitmap_ptr : Z;
  d_bitmap_ptr : Z;
  i_blocks_ptr : Z;
  d_blocks_ptr : Z;
}.

Record wfs_inode := mk_inode {
  ino_num : Z;
  ino_mode : Z;
  ino_uid : Z;
  ino_gid : Z;
  ino_size : Z;
  ino_nlinks : Z;
  ino_atim : Z;
  ino_mtim : Z;
  ino_ctim : Z;
  ino_color : Z;
  ino_blocks : list Z;
}.

(** What the process takes from its environment: the clock, whether an
    allocation succeeds, the caller's ids.  The [n]-th call of the run asks
    for entry [n]. *)
Record environ := mk_env {
  env_time : nat → Z;
  env_malloc : nat → bool;
  env_uid : Z;
  env_gid : Z;
}.

(** The globals [mregion] and [wfs_error], the environment, and the number of
    environment calls made so far. *)
Record state := mk_state {
  sb : wfs_sb;
  ibm : list Z;
  dbm : list Z;
  inodes : list wfs_inode;
  data : list (list byte);
  wfs_error : Z;
  env : environ;
  calls : nat;
}.

Definition set_ibm (x : list Z) (s : state) : state :=
  mk_state (sb s) x (dbm s) (inodes s) (data s) (wfs_error s) (env s) (calls s).
Definition set_dbm (x : list Z) (s : state) : state :=
  mk_state (sb s) (ibm s) x (inodes s) (data s) (wfs_error s) (env s) (calls s).
Definition set_inodes (x : list wfs_inode) (s : state) : state :=
  mk_state (sb s) (ibm s) (dbm s) x (data s) (wfs_error s) (env s) (calls s).
Definition set_data (x : list (list byte)) (s : state) : state :=
  mk_state (sb s) (ibm s) (dbm s) (inodes s) x (wfs_error s) (env s) (calls s).
Definition set_error (x : Z) (s : state) : state :=
  mk_state (sb s) (ibm s) (dbm s) (inodes s) (data s) x (env s) (calls s).
Definition set_calls (x : nat) (s : state) : state :=
  mk_state (sb s) (ibm s) (dbm s) (inodes s) (data s) (wfs_error s) (env s) x.

Definition with_blocks (f : list Z → list Z) (i : wfs_inode) : wfs_inode :=
  mk_inode (ino_num i) (ino_mode i) (ino_uid i) (ino_gid i) (ino_size i) (ino_nlinks i)
    (ino_atim i) (ino_mtim i) (ino_ctim i) (ino_color i) (f (ino_blocks i)).
Definition with_size (x : Z) (i : wfs_inode) : wfs_inode :=
  mk_inode (ino_num i) (ino_mode i) (ino_uid i) (ino_gid i) x (ino_nlinks i)
    (ino_atim i) (ino_mtim i) (ino_ctim i) (ino_color i) (ino_blocks i).
Definition with_nlinks (x : Z) (i : wfs_inode) : wfs_inode :=
  mk_inode (ino_num i) (ino_mode i) (ino_uid i) (ino_gid i) (ino_size i) x
    (ino_atim i) (ino_mtim i) (ino_ctim i) (ino_color i) (ino_blocks i).
Definition with_color (x : Z) (i : wfs_inode) : wfs_inode :=
  mk_inode (ino_num i) (ino_mode i) (ino_uid i) (ino_gid i) (ino_size i) (ino_nlinks i)
    (ino_atim i) (ino_mtim i) (ino_ctim i) x (ino_blocks i).
Definition with_times (a m c : Z) (i : wfs_inode) : wfs_inode :=
  mk_inode (ino_num i) (ino_mode i) (ino_uid i) (ino_gid i) (ino_size i) (ino_nlinks i)
    a m c (ino_color i) (ino_blocks i).

(** The inode [memset] to zero. *)
Definition zero_inode : wfs_inode :=
  mk_inode 0 0 0 0 0 0 0 0 0 0 (replicate (Z.to_nat N_BLOCKS) 0).

Definition M := ST state.

(** * Environment calls *)

Definition time : M Z := λ s, Some (env_time (env s) (calls s), set_calls (S (calls s)) s).
Definition malloc_ok : M bool := λ s, Some (env_malloc (env s) (calls s), set_calls (S (calls s)) s).
Definition getuid : M Z := gets (λ s, env_uid (env s)).
Definition getgid : M Z := gets (λ s, env_gid (env s)).

(** * Memory *)

Definition iptr := nat.

Definition load_inode (p : iptr) : M wfs_inode := λ s, (λ i, (i, s)) <$> inodes s !! p.
Definition store_inode (p : iptr) (i : wfs_inode) : M () := λ s,
  if decide (p < length (inodes s))%nat then Some ((), set_inodes (<[p := i]> (inodes s)) s) else None.
Definition update_inode (p : iptr) (f : wfs_inode → wfs_inode) : M () :=
  i ← load_inode p; store_inode p (f i).

(** The block and the offset in it of [n] bytes at [ptr]. *)
Definition resolve (s : state) (ptr n : Z) : option (nat * nat) :=
  let rel := ptr - d_blocks_ptr (sb s) in
  let b := Z.to_nat (rel / BLOCK_SIZE) in
  if bool_decide (0 ≤ rel ∧ (b < length (data s))%nat ∧ 0 ≤ n ∧ rel mod BLOCK_SIZE + n ≤ BLOCK_SIZE)
  then Some (b, Z.to_nat (rel mod BLOCK_SIZE)) else None.

(** Overwrite [bs] in place from position [o]. *)
Definition splice (o : nat) (bs blk : list byte) : list byte :=
  take o blk ++ bs ++ drop (o + length bs)%nat blk.

Definition mem_read (ptr n : Z) : M (list byte) := λ s,
  '(b, o) ← resolve s ptr n;
  blk ← data s !! b;
  Some (take (Z.to_nat n) (drop o blk), s).

Definition mem_write (ptr : Z) (bs : list byte) : M () := λ s,
  '(b, o) ← resolve s ptr (Z.of_nat (length bs));
  Some ((), set_data (alter (splice o bs) b (data s)) s).

(** [memset (mregion + ptr, 0, n)]. *)
Definition memset0 (ptr n : Z) : M () := mem_write ptr (replicate (Z.to_nat n) NUL).

(** Loads and stores of a 64-bit [off_t] and a 32-bit [int]. *)
Definition load_off_t (ptr : Z) : M Z := bs ← mem_read ptr 8; mret (s64 (le_combine bs)).
Definition store_off_t (ptr x : Z) : M () := mem_write ptr (le_split 8 x).
Definition load_int (ptr : Z) : M Z := bs ← mem_read ptr 4; mret (s32 (le_combine bs)).
Definition store_int (ptr x : Z) : M () := mem_write ptr (le_split 4 x).

(** * Superblock and bitmap helpers *)

Definition valid_inum (inum : Z) : M bool := gets (λ s, (0 <=? inum) && (inum <? num_inodes (sb s))).

Definition inode_bitmap_len_words (b : wfs_sb) : Z := (num_inodes b + 31) / 32.
Definition data_bitmap_len_words (b : wfs_sb) : Z := (num_data_blocks b + 31) / 32.

(** * Time helpers *)

Definition wfs_update_times (inode : option iptr) (update_atime update_mtime update_ctime : bool) : M () :=
  match inode with
  | None => mret ()
  | Some p =>
      now ← time;
      update_inode p (λ i, with_times (if update_atime then now else ino_atim i)
                                      (if update_mtime then now else ino_mtim i)
                                      (if update_ctime then now else ino_ctim i) i)
  end.

(** * Inode and block helpers *)

Definition retrieve_inode (inum : Z) : M (option iptr) :=
  s ← get;
  if (inum <? 0) || (num_inodes (sb s) <=? inum) then mret None
  else
    t ← lift (bitmap_test (u32 inum) (ibm s));
    if t =? 0 then mret None else mret (Some (Z.to_nat inum)).

Definition allocate_inode : M (option iptr) :=
  s ← get;
  '(idx, bm) ← lift (allocate_block (ibm s) (inode_bitmap_len_words (sb s)));
  modify (set_ibm bm);;
  if (idx <? 0) || (num_inodes (sb s) <=? idx) then
    modify (set_error (- ENOSPC));; mret None
  else
    let p := Z.to_nat idx in
    store_inode p zero_inode;;
    update_inode p (λ i, mk_inode (s32 idx) (ino_mode i) (ino_uid i) (ino_gid i) (ino_size i)
      (ino_nlinks i) (ino_atim i) (ino_mtim i) (ino_ctim i) 0 (replicate (Z.to_nat N_BLOCKS) 0));;
    wfs_update_times (Some p) true true true;;
    mret (Some p).

(** Byte offset of a fresh zeroed block, or [0]. *)
Definition allocate_data_block : M Z :=
  s ← get;
  '(idx, bm) ← lift (allocate_block (dbm s) (data_bitmap_len_words (sb s)));
  modify (set_dbm bm);;
  if (idx <? 0) || (num_data_blocks (sb s) <=? idx) then
    modify (set_error (- ENOSPC));; mret 0
  else
    let blk_off := d_blocks_ptr (sb s) + idx * BLOCK_SIZE in
    memset0 blk_off BLOCK_SIZE;;
    mret blk_off.

Definition free_inode (inode : option iptr) : M () :=
  match inode with
  | None => mret ()
  | Some p =>
      i ← load_inode p;
      s ← get;
      bm ← lift (free_bitmap (u32 (ino_num i)) (ibm s));
      modify (set_ibm bm);;
      store_inode p zero_inode
  end.

Definition free_block (blk_offset : Z) : M () :=
  s ← get;
  if blk_offset <? d_blocks_ptr (sb s) then mret ()
  else
    let rel := blk_offset - d_blocks_ptr (sb s) in
    if (rel <? 0) || negb (Z.rem rel BLOCK_SIZE =? 0) then mret ()
    else
      let idx := u32 (Z.quot rel BLOCK_SIZE) in
      if num_data_blocks (sb s) <=? idx then mret ()
      else
        bm ← lift (free_bitmap idx (dbm s));
        modify (set_dbm bm);;
        memset0 blk_offset BLOCK_SIZE.

(** [blocks[k]] of an inode. *)
Definition block_ptr (p : iptr) (k : Z) : M Z :=
  i ← load_inode p; lift (ino_blocks i !! Z.to_nat k).
Definition set_block_ptr (p : iptr) (k x : Z) : M () :=
  update_inode p (with_blocks <[Z.to_nat k := x]>).

Definition indir_entries : Z := BLOCK_SIZE / 8.

(** The offset of the indirect block, allocated on demand; [None] is the
    early return when no block is free. *)
Definition indirect_block (p : iptr) (alloc : bool) : M (option Z) :=
  ind0 ← block_ptr p IND_BLOCK;
  if (ind0 =? 0) && alloc then
    new_ind ← allocate_data_block;
    if new_ind =? 0 then mret None
    else set_block_ptr p IND_BLOCK new_ind;; memset0 new_ind BLOCK_SIZE;; mret (Some new_ind)
  else mret (Some ind0).

(** Pointer to the byte of the file at [offset]; [None] is NULL. *)
Definition data_offset (inode : option iptr) (offset : Z) (alloc : bool) : M (option Z) :=
  match inode with
  | None => modify (set_error (- ENOENT));; mret None
  | Some p =>
    if offset <? 0 then modify (set_error (- ENOENT));; mret None
    else
      let block_index := Z.quot offset BLOCK_SIZE in
      let block_offset := Z.rem offset BLOCK_SIZE in
      let max_blocks := D_BLOCK + indir_entries in
      if max_blocks <=? block_index then modify (set_error (- ENOSPC));; mret None
      else
        let finish blk_off :=
          if blk_off =? 0 then mret None else mret (Some (blk_off + block_offset)) in
        if block_index <? D_BLOCK then
          b ← block_ptr p block_index;
          if (b =? 0) && alloc then
            new_blk ← allocate_data_block;
            if new_blk =? 0 then mret None
            else set_block_ptr p block_index new_blk;; blk_off ← block_ptr p block_index; finish blk_off
          else blk_off ← block_ptr p block_index; finish blk_off
        else
          r ← indirect_block p alloc;
          match r with
          | None => mret None
          | Some ind_off =>
            if ind_off =? 0 then
              (if alloc then modify (set_error (- ENOSPC)) else mret ());; mret None
            else
              let idx := block_index - D_BLOCK in
              if (idx <? 0) || (indir_entries <=? idx) then modify (set_error (- ENOSPC));; mret None
              else
                let entry := ind_off + 8 * idx in
                e ← load_off_t entry;
                if (e =? 0) && alloc then
                  new_blk ← allocate_data_block;
                  if new_blk =? 0 then mret None
                  else store_off_t entry new_blk;; blk_off ← load_off_t entry; finish blk_off
                else blk_off ← load_off_t entry; finish blk_off
          end
  end.
