(* ===== verification/CString.v ===== *)
(** The C library's string functions the programs use, on C strings as lists
    of their bytes: tokenizing, path splitting, bounded comparison and copy,
    case folding. *)

From stdpp Require Import base option list numbers.
From coqutil Require Import Byte.
From Stdlib Require Import Strings.Byte ZArith Lia.
From S2P Require Import Prelude.

Definition SLASH : byte := "/"%byte.
Definition SPACE : byte := " "%byte.
Definition NEWLINE : byte := Corelib.Init.Byte.x0a.
Definition ESC : byte := Corelib.Init.Byte.x1b.

Section while.
Context (P : byte → Prop) `{∀ c, Decision (P c)}.

Fixpoint take_while (s : cstr) : cstr :=
  match s with
  | [] => []
  | c :: s' => if decide (P c) then c :: take_while s' else []
  end.

Fixpoint drop_while (s : cstr) : cstr :=
  match s with
  | [] => []
  | c :: s' => if decide (P c) then drop_while s' else s
  end.

Lemma take_drop_while s : take_while s ++ drop_while s = s.
Proof. induction s as [|c s IH]; simpl; [done|]. case_decide; simpl; congruence. Qed.

Lemma take_while_all s : Forall P (take_while s).
Proof. induction s; simpl; [done|]. case_decide; by constructor. Qed.

Lemma drop_while_app s t : Forall P s → drop_while (s ++ t) = drop_while t.
Proof. induction 1; simpl; [done|]. by rewrite decide_True. Qed.

Lemma drop_while_head s c t : drop_while s = c :: t → ¬ P c.
Proof. induction s; simpl; [done|]. case_decide; naive_solver. Qed.

Lemma drop_while_id s : (∀ c t, s = c :: t → ¬ P c) → drop_while s = s.
Proof. destruct s; simpl; [done|]. intros. rewrite decide_False; naive_solver. Qed.

Lemma take_while_app_stop s c t : Forall P s → ¬ P c → take_while (s ++ c :: t) = s.
Proof. induction 1; simpl; intros; [by rewrite decide_False|]. rewrite decide_True by done. f_equal; auto. Qed.

Lemma take_while_id s : Forall P s → take_while s = s.
Proof. induction 1; simpl; [done|]. rewrite decide_True by done. congruence. Qed.
End while.

(** All tokens [strtok_r] yields for one delimiter: the maximal non-empty
    runs of other bytes. *)
Fixpoint tokens_aux (delim : byte) (s cur : cstr) : list cstr :=
  match s with
  | [] => match cur with [] => [] | _ => [reverse cur] end
  | c :: s' =>
      if decide (c = delim) then
        match cur with
        | [] => tokens_aux delim s' []
        | _ => reverse cur :: tokens_aux delim s' []
        end
      else tokens_aux delim s' (c :: cur)
  end.
Definition strtok_all (delim : byte) (s : cstr) : list cstr := tokens_aux delim s [].

(** [basename] and [dirname] of libgen.h. *)
Definition strip_trailing (s : cstr) : cstr := reverse (drop_while (.= SLASH) (reverse s)).

Definition basename (s : cstr) : cstr :=
  match s with
  | [] => cs "."
  | _ =>
      match strip_trailing s with
      | [] => [SLASH]
      | t => reverse (take_while (.≠ SLASH) (reverse t))
      end
  end.

(** A run of slashes as a directory: two slashes are kept, any other number
    is one. *)
Definition root_of (slashes : cstr) : cstr :=
  if decide (length slashes = 2) then [SLASH; SLASH] else [SLASH].

Definition dirname (s : cstr) : cstr :=
  match s with
  | [] => cs "."
  | _ =>
      match strip_trailing s with
      | [] => root_of s
      | t =>
          match reverse (drop_while (.≠ SLASH) (reverse t)) with
          | [] => cs "."
          | u => match strip_trailing u with [] => root_of u | v => v end
          end
      end
  end.

(** [strncmp (s, t, n) == 0] for buffers that are NUL-terminated or at least
    [n] bytes long. *)
Fixpoint strncmp_eq (s t : list byte) (n : nat) : bool :=
  match n with
  | O => true
  | S n' =>
      let a := hd NUL s in
      let b := hd NUL t in
      if decide (a = b) then if decide (a = NUL) then true else strncmp_eq (tl s) (tl t) n'
      else false
  end.

(** The [n] bytes [strncpy (_, s, n)] stores. *)
Definition strncpy_bytes (s : cstr) (n : nat) : list byte :=
  take n s ++ replicate (n - length s) NUL.

(** [tolower] in the C locale. *)
Definition tolower (c : byte) : byte :=
  let n := byte.unsigned c in
  if bool_decide (65 ≤ n ≤ 90)%Z then byte.of_Z (n + 32) else c.

(** A byte string without NUL: the bytes of a C string. *)
Definition no_nul (s : cstr) : Prop := NUL ∉ s.

Lemma length_strncpy_bytes s n : length (strncpy_bytes s n) = n.
Proof. unfold strncpy_bytes. rewrite length_app, length_take, length_replicate. lia. Qed.

Lemma tokens_aux_no_delim delim s cur :
  Forall (.≠ delim) cur → Forall (λ t, t ≠ [] ∧ Forall (.≠ delim) t) (tokens_aux delim s cur).
Proof.
  assert (∀ cur : cstr, cur ≠ [] → Forall (.≠ delim) cur →
    reverse cur ≠ [] ∧ Forall (.≠ delim) (reverse cur)) as Hrev.
  { intros l Hne Hl. split; [|by apply Forall_reverse].
    intros E. apply Hne. rewrite <- (reverse_involutive l), E. done. }
  revert cur. induction s as [|c s IH]; intros cur Hcur; simpl.
  - destruct cur; repeat constructor; apply Hrev; done.
  - case_decide as E; [destruct cur|].
    + by apply IH.
    + constructor; [by apply Hrev|by apply IH].
    + apply IH. by constructor.
Qed.

(** Every token is non-empty and free of the delimiter. *)
Lemma strtok_all_tokens delim s : Forall (λ t, t ≠ [] ∧ Forall (.≠ delim) t) (strtok_all delim s).
Proof. by apply tokens_aux_no_delim. Qed.

Lemma tokens_aux_run delim s cur rest :
  Forall (.≠ delim) s → tokens_aux delim (s ++ rest) cur = tokens_aux delim rest (reverse s ++ cur).
Proof.
  intros Hs. revert cur. induction Hs as [|c s Hc Hs IH]; intros cur; simpl; [done|].
  rewrite decide_False by done. rewrite IH, reverse_cons. by rewrite <- app_assoc.
Qed.

Lemma strtok_all_single delim s : s ≠ [] → Forall (.≠ delim) s → strtok_all delim s = [s].
Proof.
  intros Hne Hs. unfold strtok_all. rewrite <- (app_nil_r s) at 1.
  rewrite tokens_aux_run, app_nil_r by done. simpl.
  destruct (reverse s) as [|c t] eqn:E.
  - exfalso. apply Hne. by rewrite <- (reverse_involutive s), E.
  - by rewrite <- E, reverse_involutive.
Qed.

Lemma strtok_all_cons delim s t :
  s ≠ [] → Forall (.≠ delim) s → strtok_all delim (s ++ delim :: t) = s :: strtok_all delim t.
Proof.
  intros Hne Hs. unfold strtok_all. rewrite tokens_aux_run, app_nil_r by done. simpl.
  rewrite decide_True by done. destruct (reverse s) as [|c u] eqn:E.
  - exfalso. apply Hne. by rewrite <- (reverse_involutive s), E.
  - by rewrite <- E, reverse_involutive.
Qed.

Lemma strtok_all_delim delim t : strtok_all delim (delim :: t) = strtok_all delim t.
Proof. unfold strtok_all. simpl. by rewrite decide_True. Qed.

(** Against a string in a fixed-size buffer, [strncmp] decides equality. *)
Lemma strncmp_eq_spec buf s t n :
  until_nul buf = Some s → no_nul t → length s < n → strncmp_eq buf t n = bool_decide (s = t).
Proof.
  revert s t n. induction buf as [|c buf IH]; intros s t n Hs Ht Hn; [done|].
  destruct n as [|n]; [lia|]. simpl in Hs |- *.
  destruct (decide (c = NUL)) as [->|Hc].
  - injection Hs as <-. destruct t as [|d t]; [done|]. simpl.
    rewrite decide_False; [done|]. intros <-. apply Ht. by left.
  - destruct (until_nul buf) as [s'|]; [|done]. injection Hs as <-. simpl in Hn.
    destruct t as [|d t]; simpl; [by rewrite decide_False|].
    destruct (decide (c = d)) as [<-|]; [|by rewrite bool_decide_eq_false_2 by congruence].
    rewrite (IH s'); [|done| |lia].
    + apply bool_decide_ext. split; [by intros ->|by intros [=]].
    + intros H. apply Ht. by right.
Qed.

Lemma until_nul_some buf k :
  buf !! k = Some NUL → ∃ s, until_nul buf = Some s ∧ length s ≤ k ∧ no_nul s.
Proof.
  revert k. induction buf as [|c buf IH]; intros k Hk; [done|]. simpl.
  destruct (decide (c = NUL)) as [->|Hc].
  - exists []. split; [done|]. split; [simpl; lia|by intros ?%elem_of_nil].
  - destruct k as [|k]; [by injection Hk|]. destruct (IH k Hk) as (s&->&Hl&Hn).
    exists (c :: s). split; [done|]. split; [simpl; lia|].
    intros [?|?]%elem_of_cons; [congruence|by apply Hn].
Qed.

(** ** Splitting a path *)

Lemma strtok_all_app delim s t : strtok_all delim (s ++ delim :: t) = strtok_all delim s ++ strtok_all delim t.
Proof.
  unfold strtok_all. generalize (@nil byte) at 1 2. induction s as [|c s IH]; intros cur; simpl.
  - rewrite decide_True by done. by destruct cur.
  - case_decide; [|done]. destruct cur; simpl; by rewrite IH.
Qed.

Lemma strtok_all_delims delim s : Forall (.= delim) s → strtok_all delim s = [].
Proof. induction 1 as [|c s -> _ IH]; [done|]. by rewrite strtok_all_delim. Qed.

Lemma strtok_all_trailing delim s t : Forall (.= delim) t → strtok_all delim (s ++ t) = strtok_all delim s.
Proof.
  intros Ht. destruct Ht as [|c t -> Ht]; [by rewrite app_nil_r|].
  by rewrite strtok_all_app, (strtok_all_delims _ t), app_nil_r.
Qed.

(** A path without its trailing slashes. *)
Lemma strip_trailing_spec s :
  ∃ t, s = strip_trailing s ++ t ∧ Forall (.= SLASH) t ∧
    ∀ c u, strip_trailing s = u ++ [c] → c ≠ SLASH.
Proof.
  exists (reverse (take_while (.= SLASH) (reverse s))). unfold strip_trailing. split_and!.
  - rewrite <- reverse_app, take_drop_while. by rewrite reverse_involutive.
  - apply Forall_reverse, take_while_all.
  - intros c u E. apply (f_equal reverse) in E. rewrite reverse_involutive, reverse_app in E. simpl in E.
    by apply drop_while_head in E.
Qed.

Lemma last_segment t :
  t = reverse (drop_while (.≠ SLASH) (reverse t)) ++ reverse (take_while (.≠ SLASH) (reverse t)).
Proof. rewrite <- reverse_app, take_drop_while. by rewrite reverse_involutive. Qed.

Lemma last_segment_nonempty t c : c ≠ SLASH → reverse (take_while (.≠ SLASH) (reverse (t ++ [c]))) ≠ [].
Proof.
  intros Hc. rewrite reverse_app. simpl. rewrite decide_True by done. rewrite reverse_cons.
  by intros [_ ?]%app_eq_nil.
Qed.

(** The part before the last segment ends in a slash. *)
Lemma before_segment t :
  reverse (drop_while (.≠ SLASH) (reverse t)) = [] ∨ ∃ u, reverse (drop_while (.≠ SLASH) (reverse t)) = u ++ [SLASH].
Proof.
  destruct (drop_while (.≠ SLASH) (reverse t)) as [|c u] eqn:E; [by left|right].
  exists (reverse u). rewrite reverse_cons. apply drop_while_head, dec_stable in E. by subst.
Qed.

Lemma strtok_all_dir u : strtok_all SLASH (match strip_trailing u with [] => root_of u | v => v end) = strtok_all SLASH u.
Proof.
  destruct (strip_trailing_spec u) as (sl&E&Hsl&_). destruct (strip_trailing u) as [|c v].
  - simpl in E. subst u. rewrite (strtok_all_delims SLASH sl) by done. unfold root_of. by case_decide.
  - rewrite E. by rewrite strtok_all_trailing.
Qed.

(** The components of an absolute path are those of its [dirname], then its
    [basename]. *)
Lemma split_components p :
  head p = Some SLASH → strtok_all SLASH p ≠ [] →
  strtok_all SLASH p = strtok_all SLASH (dirname p) ++ [basename p].
Proof.
  intros Hh Hne. destruct p as [|c0 p0]; [done|]. simpl in Hh. injection Hh as ->.
  destruct (strip_trailing_spec (SLASH :: p0)) as (sl&Ep&Hsl&Hlast).
  unfold dirname, basename. remember (strip_trailing (SLASH :: p0)) as t eqn:Et. clear Et.
  rewrite Ep in Hne |- *. rewrite strtok_all_trailing in Hne |- * by done.
  destruct t as [|c t0]; [done|]. injection Ep as <- Ep.
  pose proof (last_segment (SLASH :: t0)) as El.
  assert (Hbne : reverse (take_while (.≠ SLASH) (reverse (SLASH :: t0))) ≠ []).
  { destruct (exists_last (l := SLASH :: t0)) as (w&c&Ew); [done|]. rewrite Ew.
    apply last_segment_nonempty. by apply (Hlast c w). }
  assert (Hb : Forall (.≠ SLASH) (reverse (take_while (.≠ SLASH) (reverse (SLASH :: t0))))).
  { apply Forall_reverse, take_while_all. }
  set (b := reverse (take_while _ _)) in *.
  destruct (before_segment (SLASH :: t0)) as [Eu|[u Eu]]; rewrite Eu in El |- *.
  { simpl in El. rewrite <- El in Hb. by inversion Hb. }
  assert (strtok_all SLASH (SLASH :: t0) = strtok_all SLASH u ++ [b]) as ->.
  { rewrite El, <- app_assoc. simpl. by rewrite strtok_all_app, (strtok_all_single SLASH b). }
  f_equal. destruct (u ++ [SLASH]) as [|c1 u1] eqn:Ec; [by destruct u|]. rewrite strtok_all_dir, <- Ec.
  symmetry. apply strtok_all_trailing. by constructor.
Qed.

Lemma no_nul_reverse s : no_nul (reverse s) ↔ no_nul s.
Proof. unfold no_nul. by rewrite elem_of_reverse. Qed.

Lemma strtok_all_no_nul delim s : no_nul s → Forall no_nul (strtok_all delim s).
Proof.
  unfold strtok_all. assert (no_nul []) as H0 by (by intros ?%elem_of_nil). revert H0.
  generalize (@nil byte). induction s as [|c s IH]; intros cur Hcur Hs; simpl.
  - destruct cur; [constructor|]. constructor; [|constructor]. by apply no_nul_reverse.
  - assert (no_nul s) by (intros ?; apply Hs; by right).
    assert (no_nul []) by (by intros ?%elem_of_nil).
    case_decide; [destruct cur; [by apply IH|constructor; [by apply no_nul_reverse|by apply IH]]|].
    apply IH; [|done]. intros [E|?]%elem_of_cons; [apply Hs; rewrite E; by left|by apply Hcur].
Qed.


Lemma no_nul_app s t : no_nul (s ++ t) ↔ no_nul s ∧ no_nul t.
Proof. unfold no_nul. rewrite elem_of_app. tauto. Qed.

Lemma no_nul_strip s : no_nul s → no_nul (strip_trailing s).
Proof. destruct (strip_trailing_spec s) as (t&E&_). rewrite E at 1. by intros [? _]%no_nul_app. Qed.

Global Instance no_nul_dec s : Decision (no_nul s).
Proof. unfold no_nul. apply _. Defined.

Lemma no_nul_cs s : bool_decide (NUL ∉ cs s) = true → no_nul (cs s).
Proof. apply bool_decide_eq_true_1. Qed.

Lemma no_nul_segments t : no_nul t →
  no_nul (reverse (drop_while (.≠ SLASH) (reverse t))) ∧ no_nul (reverse (take_while (.≠ SLASH) (reverse t))).
Proof. intros Ht. rewrite (last_segment t) in Ht. by apply no_nul_app in Ht. Qed.

Lemma no_nul_root_of s : no_nul (root_of s).
Proof. unfold root_of. case_decide; by apply (bool_decide_eq_true_1 (no_nul _)). Qed.

Lemma no_nul_dirname p : no_nul p → no_nul (dirname p).
Proof.
  intros Hp. unfold dirname. destruct p as [|c p]; [by apply no_nul_cs|].
  pose proof (no_nul_strip _ Hp) as Ht. destruct (strip_trailing (c :: p)); [apply no_nul_root_of|].
  destruct (no_nul_segments _ Ht) as [Hu _]. destruct (reverse (drop_while _ _)); [by apply no_nul_cs|].
  pose proof (no_nul_strip _ Hu) as Hv. destruct (strip_trailing _); [apply no_nul_root_of|done].
Qed.

Lemma no_nul_basename p : no_nul p → no_nul (basename p).
Proof.
  intros Hp. unfold basename. destruct p as [|c p]; [by apply no_nul_cs|].
  pose proof (no_nul_strip _ Hp) as Ht. destruct (strip_trailing (c :: p)).
  - by apply (bool_decide_eq_true_1 (no_nul _)).
  - by apply no_nul_segments.
Qed.

Lemma basename_nonempty p : basename p ≠ [].
Proof.
  unfold basename. destruct p as [|c p]; [done|]. destruct (strip_trailing_spec (c :: p)) as (_&_&_&Hl).
  destruct (strip_trailing (c :: p)) as [|x y] eqn:E; [done|].
  destruct (exists_last (l := x :: y)) as (w&d&Ew); [done|]. rewrite Ew in Hl |- *.
  apply last_segment_nonempty. by apply (Hl d w).
Qed.
