(* ===== verification/WfsPath.v ===== *)
(** Path and colour helpers of wfs.c: stripping ANSI escapes from a path,
    splitting it into parent and leaf, and the table of colour tags. *)

From stdpp Require Import base option list numbers.
From coqutil Require Import Byte.
From Stdlib Require Import Strings.Byte ZArith Lia.
From S2P Require Import Prelude CString WfsBitmap WfsDisk.

Definition PATH_MAX : nat := 4096.

(** The loop of [strip_ansi_codes]: [skipping] while inside an escape
    sequence (the inner [while]), [o] bytes written so far. *)
Fixpoint strip_loop (inp : cstr) (skipping : bool) (o out_len : nat) : cstr :=
  match inp with
  | [] => []
  | c :: rest =>
      if skipping then
        if decide (c = "m"%byte) then strip_loop rest false o out_len
        else strip_loop rest true o out_len
      else if decide (o + 1 < out_len) then
        match rest with
        | d :: rest' =>
            if decide (c = ESC ∧ d = "["%byte) then strip_loop rest' true o out_len
            else c :: strip_loop rest false (S o) out_len
        | [] => [c]
        end
      else []
  end.

Definition strip_ansi_codes (inp : cstr) (out_len : nat) : cstr := strip_loop inp false 0 out_len.

Definition clean_path (path : cstr) (len : nat) : cstr :=
  match strip_ansi_codes path len with
  | [] => [SLASH]
  | clean => clean
  end.

(** Parent and leaf of an absolute path, or a negative errno. *)
Definition split_path (path : cstr) : M (Z + cstr * cstr) :=
  if negb (bool_decide (head path = Some SLASH)) then mret (inl (- ENOENT)%Z)
  else if streq path [SLASH] then mret (inl (- EINVAL)%Z)
  else
    p1 ← malloc_ok;
    p2 ← malloc_ok;
    if negb p1 || negb p2 then mret (inl (- ENOMEM)%Z)
    else
      let dir := dirname path in
      let base := basename path in
      parent_out ← malloc_ok;
      name_out ← malloc_ok;
      if negb parent_out || negb name_out then mret (inl (- ENOMEM)%Z)
      else mret (inr (dir, base)).

(** * Colours *)

Definition WFS_COLOR_NONE : Z := 0.
Definition WFS_COLOR_RED : Z := 1.
Definition WFS_COLOR_GREEN : Z := 2.
Definition WFS_COLOR_BLUE : Z := 3.
Definition WFS_COLOR_YELLOW : Z := 4.
Definition WFS_COLOR_MAGENTA : Z := 5.
Definition WFS_COLOR_CYAN : Z := 6.
Definition WFS_COLOR_WHITE : Z := 7.
Definition WFS_COLOR_BLACK : Z := 8.
Definition WFS_COLOR_ORANGE : Z := 9.
Definition WFS_COLOR_PURPLE : Z := 10.
Definition WFS_COLOR_GRAY : Z := 11.
Definition WFS_COLOR_MAX : Z := 12.

Definition color_table : list (cstr * Z) := [
  (cs "none",    WFS_COLOR_NONE);
  (cs "red",     WFS_COLOR_RED);
  (cs "green",   WFS_COLOR_GREEN);
  (cs "blue",    WFS_COLOR_BLUE);
  (cs "yellow",  WFS_COLOR_YELLOW);
  (cs "magenta", WFS_COLOR_MAGENTA);
  (cs "cyan",    WFS_COLOR_CYAN);
  (cs "white",   WFS_COLOR_WHITE);
  (cs "black",   WFS_COLOR_BLACK);
  (cs "orange",  WFS_COLOR_ORANGE);
  (cs "purple",  WFS_COLOR_PURPLE);
  (cs "gray",    WFS_COLOR_GRAY)].

(** The scan over the table. *)
Fixpoint find_color (buf : cstr) (table : list (cstr * Z)) : option Z :=
  match table with
  | [] => None
  | (name, code) :: table' => if streq buf name then Some code else find_color buf table'
  end.

(** The code of a colour name in any case; at most 31 characters count. *)
Definition parse_color_name (s : cstr) : option Z :=
  find_color (tolower <$> take 31 s) color_table.

Record wfs_color_info := mk_info { info_ansi : cstr; info_name : cstr }.

Definition sgr (s : String.string) : cstr := ESC :: cs s.

Definition color_infos : list wfs_color_info := [
  mk_info []                 (cs "none");
  mk_info (sgr "[31m")       (cs "red");
  mk_info (sgr "[32m")       (cs "green");
  mk_info (sgr "[34m")       (cs "blue");
  mk_info (sgr "[33m")       (cs "yellow");
  mk_info (sgr "[35m")       (cs "magenta");
  mk_info (sgr "[36m")       (cs "cyan");
  mk_info (sgr "[37m")       (cs "white");
  mk_info (sgr "[30m")       (cs "black");
  mk_info (sgr "[38;5;208m") (cs "orange");
  mk_info (sgr "[35m")       (cs "purple");
  mk_info (sgr "[90m")       (cs "gray")].

Definition wfs_color_from_code (code : Z) : wfs_color_info :=
  let none := mk_info [] (cs "none") in
  if (code <? WFS_COLOR_MAX)%Z then default none (color_infos !! Z.to_nat code) else none.
