(* ===== verification/WfsDir.v ===== *)
(** Directory entries and path resolution of wfs.c.

    A directory is an inode whose direct blocks hold 32-byte [wfs_dentry]
    records: 28 bytes of name and a little-endian inode number. *)

From stdpp Require Import base option list numbers.
From coqutil Require Import Byte.
From Stdlib Require Import ZArith Lia.
From S2P Require Import Prelude CString WfsBitmap WfsDisk WfsPath.

Local Open Scope Z_scope.

Definition SIZEOF_DENTRY : Z := 32.
Definition entries_per_block : Z := BLOCK_SIZE / SIZEOF_DENTRY.

Record wfs_dentry := mk_dentry { d_name : list byte; d_num : Z }.

(** The record at [ptr]. *)
Definition load_dentry (ptr : Z) : M wfs_dentry :=
  name ← mem_read ptr MAX_NAME;
  num ← load_int (ptr + MAX_NAME);
  mret (mk_dentry name num).

(** [d->num == 0 || d->name[0] == '\0']. *)
Definition dentry_free (d : wfs_dentry) : bool :=
  (d_num d =? 0) || bool_decide (hd NUL (d_name d) = NUL).

Definition fillin_inode (inode : iptr) (mode : Z) : M () :=
  uid ← getuid;
  gid ← getgid;
  update_inode inode (λ i, mk_inode (ino_num i) mode uid gid 0 1
    (ino_atim i) (ino_mtim i) (ino_ctim i) WFS_COLOR_NONE (replicate (Z.to_nat N_BLOCKS) 0));;
  wfs_update_times (Some inode) true true true.

(** The loop of [dentry_to_num] from entry [idx], [n] entries before
    [max_entries]. *)
Fixpoint dentry_to_num_loop (name : cstr) (i : wfs_inode) (n : nat) (idx : Z) : M Z :=
  match n with
  | O => mret (- ENOENT)
  | S n' =>
      let blk_idx := idx / entries_per_block in
      let ent_idx := idx mod entries_per_block in
      if D_BLOCK <=? blk_idx then mret (- ENOENT)
      else
        blk_off ← lift (ino_blocks i !! Z.to_nat blk_idx);
        if blk_off =? 0 then dentry_to_num_loop name i n' (idx + 1)
        else
          d ← load_dentry (blk_off + ent_idx * SIZEOF_DENTRY);
          if dentry_free d then dentry_to_num_loop name i n' (idx + 1)
          else if strncmp_eq (d_name d) name (Z.to_nat MAX_NAME) then mret (d_num d)
          else dentry_to_num_loop name i n' (idx + 1)
  end.

Definition dir_max_entries (i : wfs_inode) : nat := Z.to_nat (u64 (ino_size i) / SIZEOF_DENTRY).

Definition dentry_to_num (name : cstr) (inode : option iptr) : M Z :=
  match inode with
  | None => mret (- ENOENT)
  | Some p =>
      i ← load_inode p;
      if negb (S_ISDIR (ino_mode i)) then mret (- ENOTDIR)
      else dentry_to_num_loop name i (dir_max_entries i) 0
  end.

(** The loop of [add_dentry] from entry [idx], [n] entries before the
    capacity of the direct blocks. *)
Fixpoint add_dentry_loop (parent : iptr) (num : Z) (name : cstr) (n : nat) (idx : Z) : M Z :=
  match n with
  | O => mret (- ENOSPC)
  | S n' =>
      let blk_idx := idx / entries_per_block in
      let ent_idx := idx mod entries_per_block in
      if D_BLOCK <=? blk_idx then mret (- ENOSPC)
      else
        b ← block_ptr parent blk_idx;
        ok ← (if b =? 0 then
                new_blk ← allocate_data_block;
                if new_blk =? 0 then mret false
                else set_block_ptr parent blk_idx new_blk;; memset0 new_blk BLOCK_SIZE;; mret true
              else mret true);
        if negb ok then
          e ← gets wfs_error; mret (if e =? 0 then - ENOSPC else e)
        else
          blk_off ← block_ptr parent blk_idx;
          let d_ptr := blk_off + ent_idx * SIZEOF_DENTRY in
          d ← load_dentry d_ptr;
          if dentry_free d then
            memset0 d_ptr MAX_NAME;;
            mem_write d_ptr (strncpy_bytes name (Z.to_nat (MAX_NAME - 1)));;
            store_int (d_ptr + MAX_NAME) num;;
            let needed_size := (idx + 1) * SIZEOF_DENTRY in
            pi ← load_inode parent;
            (if ino_size pi <? needed_size then update_inode parent (with_size needed_size) else mret ());;
            wfs_update_times (Some parent) false true true;;
            mret 0
          else add_dentry_loop parent num name n' (idx + 1)
  end.

Definition add_dentry (parent : option iptr) (num : Z) (name : cstr) : M Z :=
  match parent with
  | None => mret (- ENOENT)
  | Some p =>
      i ← load_inode p;
      if negb (S_ISDIR (ino_mode i)) then mret (- ENOTDIR)
      else
        dup ← dentry_to_num name parent;
        if 0 <=? dup then mret (- EEXIST)
        else
          let nlen := Z.min (Z.of_nat (length name)) MAX_NAME in
          if (nlen =? 0) || (MAX_NAME <=? nlen) then mret (- ENAMETOOLONG)
          else add_dentry_loop p num name (Z.to_nat (D_BLOCK * entries_per_block)) 0
  end.

Fixpoint remove_dentry_loop (dir : iptr) (inum : Z) (i : wfs_inode) (n : nat) (idx : Z) : M Z :=
  match n with
  | O => mret (- ENOENT)
  | S n' =>
      let blk_idx := idx / entries_per_block in
      let ent_idx := idx mod entries_per_block in
      if D_BLOCK <=? blk_idx then mret (- ENOENT)
      else
        blk_off ← lift (ino_blocks i !! Z.to_nat blk_idx);
        if blk_off =? 0 then remove_dentry_loop dir inum i n' (idx + 1)
        else
          let d_ptr := blk_off + ent_idx * SIZEOF_DENTRY in
          d ← load_dentry d_ptr;
          if (d_num d =? inum) && negb (d_num d =? 0) then
            store_int (d_ptr + MAX_NAME) 0;;
            (if bool_decide (hd NUL (d_name d) = NUL) then mret () else mem_write d_ptr [NUL]);;
            wfs_update_times (Some dir) false true true;;
            mret 0
          else remove_dentry_loop dir inum i n' (idx + 1)
  end.

Definition remove_dentry (dir : option iptr) (inum : Z) : M Z :=
  match dir with
  | None => mret (- ENOENT)
  | Some p =>
      i ← load_inode p;
      if negb (S_ISDIR (ino_mode i)) then mret (- ENOTDIR)
      else remove_dentry_loop p inum i (dir_max_entries i) 0
  end.

(** The [strtok_r] loop of [get_inode_from_path]. *)
Fixpoint walk (cur : iptr) (comps : list cstr) : M (Z + iptr) :=
  match comps with
  | [] => mret (inr cur)
  | comp :: rest =>
      child_inum ← dentry_to_num comp (Some cur);
      if child_inum <? 0 then mret (inl child_inum)
      else
        next ← retrieve_inode child_inum;
        match next with
        | None => mret (inl (- ENOENT))
        | Some next => walk next rest
        end
  end.

Definition get_inode_from_path (path : cstr) : M (Z + iptr) :=
  root ← retrieve_inode 0;
  match root with
  | None => mret (inl (- ENOENT))
  | Some cur =>
      if streq path [SLASH] then mret (inr cur)
      else
        tmp ← malloc_ok;
        if negb tmp then mret (inl (- ENOMEM))
        else
          let p := if bool_decide (head path = Some SLASH) then tl path else path in
          walk cur (strtok_all SLASH p)
  end.
