(* ===== verification/WfsOps.v ===== *)
(** The FUSE operations of wfs.c. *)

From stdpp Require Import base option list numbers.
From coqutil Require Import Byte.
From Stdlib Require Import Strings.Byte ZArith Lia.
From S2P Require Import Prelude CString WfsBitmap WfsDisk WfsPath WfsDir.

Local Open Scope Z_scope.

(** The fields of [struct stat] that [wfs_getattr] fills. *)
Record stat := mk_stat {
  st_mode : Z; st_nlink : Z; st_uid : Z; st_gid : Z; st_size : Z;
  st_blksize : Z; st_blocks : Z; st_atime : Z; st_mtime : Z; st_ctime : Z;
}.

Record statvfs := mk_statvfs {
  f_bsize : Z; f_frsize : Z; f_blocks : Z; f_bfree : Z; f_bavail : Z;
  f_files : Z; f_ffree : Z; f_favail : Z; f_namemax : Z;
}.

Definition wfs_getattr (path : cstr) : M (Z * option stat) :=
  r ← get_inode_from_path (clean_path path PATH_MAX);
  match r with
  | inl rc => mret (rc, None)
  | inr p =>
      i ← load_inode p;
      mret (0, Some (mk_stat (ino_mode i) (ino_nlinks i) (ino_uid i) (ino_gid i) (ino_size i)
        BLOCK_SIZE (Z.quot (ino_size i + BLOCK_SIZE - 1) BLOCK_SIZE)
        (ino_atim i) (ino_mtim i) (ino_ctim i)))
  end.

(** The error [wfs_error ? wfs_error : -ENOSPC]. *)
Definition error_or_nospc : M Z := e ← gets wfs_error; mret (if e =? 0 then - ENOSPC else e).

Definition wfs_mknod (path : cstr) (mode0 : Z) : M Z :=
  let mode := if negb (S_ISREG mode0) && negb (S_ISFIFO mode0)
              then Z.lor S_IFREG (Z.land mode0 0x1FF) else mode0 in
  sp ← split_path (clean_path path PATH_MAX);
  match sp with
  | inl rc => mret rc
  | inr (parent_path, name) =>
      r ← get_inode_from_path parent_path;
      match r with
      | inl rc => mret rc
      | inr parent =>
          pi ← load_inode parent;
          if negb (S_ISDIR (ino_mode pi)) then mret (- ENOTDIR)
          else
            n ← dentry_to_num name (Some parent);
            if 0 <=? n then mret (- EEXIST)
            else
              ip ← allocate_inode;
              match ip with
              | None => error_or_nospc
              | Some inode =>
                  fillin_inode inode (Z.lor S_IFREG (Z.land mode 0x1FF));;
                  i ← load_inode inode;
                  rc ← add_dentry (Some parent) (ino_num i) name;
                  if rc <? 0 then free_inode (Some inode);; mret rc
                  else mret 0
              end
      end
  end.

Definition wfs_mkdir (path : cstr) (mode : Z) : M Z :=
  sp ← split_path (clean_path path PATH_MAX);
  match sp with
  | inl rc => mret rc
  | inr (parent_path, name) =>
      r ← get_inode_from_path parent_path;
      match r with
      | inl rc => mret rc
      | inr parent =>
          pi ← load_inode parent;
          if negb (S_ISDIR (ino_mode pi)) then mret (- ENOTDIR)
          else
            n ← dentry_to_num name (Some parent);
            if 0 <=? n then mret (- EEXIST)
            else
              ip ← allocate_inode;
              match ip with
              | None => error_or_nospc
              | Some inode =>
                  fillin_inode inode (Z.lor S_IFDIR (Z.land mode 0x1FF));;
                  update_inode inode (with_nlinks 2);;
                  update_inode parent (λ i, with_nlinks (ino_nlinks i + 1) i);;
                  i ← load_inode inode;
                  rc ← add_dentry (Some parent) (ino_num i) name;
                  if rc <? 0 then
                    free_inode (Some inode);;
                    update_inode parent (λ i, with_nlinks (ino_nlinks i - 1) i);;
                    mret rc
                  else mret 0
              end
      end
  end.

(** The copy loop of [wfs_read]; [fuel] bounds the iterations, each of which
    copies at least one byte. *)
Fixpoint read_loop (fuel : nat) (inode : iptr) (off to_read done : Z) (buf : list byte) : M (list byte * Z) :=
  if done <? to_read then
    match fuel with
    | O => fault
    | S fuel' =>
        let cur_off := off + done in
        ptr ← data_offset (Some inode) cur_off false;
        let block_rem := BLOCK_SIZE - Z.rem cur_off BLOCK_SIZE in
        let chunk := Z.min (to_read - done) block_rem in
        bytes ← match ptr with
                | None => mret (replicate (Z.to_nat chunk) NUL)
                | Some p => mem_read p chunk
                end;
        read_loop fuel' inode off to_read (done + chunk) (buf ++ bytes)
    end
  else mret (buf, done).

(** Return code and the bytes stored in the caller's buffer. *)
Definition wfs_read (path : cstr) (len off : Z) : M (Z * list byte) :=
  r ← get_inode_from_path (clean_path path PATH_MAX);
  match r with
  | inl rc => mret (rc, [])
  | inr inode =>
      i ← load_inode inode;
      if S_ISDIR (ino_mode i) then mret (- EISDIR, [])
      else if ino_size i <=? off then mret (0, [])
      else
        let to_read := if ino_size i <? off + s64 len then u64 (ino_size i - off) else len in
        '(buf, done) ← read_loop (Z.to_nat to_read) inode off to_read 0 [];
        (if 0 <? done then wfs_update_times (Some inode) true false false else mret ());;
        mret (s32 done, buf)
  end.

(** The copy loop of [wfs_write]; [None] is the early return on an
    allocation failure. *)
Fixpoint write_loop (fuel : nat) (inode : iptr) (buf : list byte) (off len done : Z) : M (option Z) :=
  if done <? len then
    match fuel with
    | O => fault
    | S fuel' =>
        let cur_off := off + done in
        ptr ← data_offset (Some inode) cur_off true;
        match ptr with
        | None => mret None
        | Some p =>
            let block_rem := BLOCK_SIZE - Z.rem cur_off BLOCK_SIZE in
            let chunk := Z.min (len - done) block_rem in
            mem_write p (take (Z.to_nat chunk) (drop (Z.to_nat done) buf));;
            write_loop fuel' inode buf off len (done + chunk)
        end
    end
  else mret (Some done).

Definition wfs_write (path : cstr) (buf : list byte) (off : Z) : M Z :=
  let len := Z.of_nat (length buf) in
  r ← get_inode_from_path (clean_path path PATH_MAX);
  match r with
  | inl rc => mret rc
  | inr inode =>
      i ← load_inode inode;
      if S_ISDIR (ino_mode i) then mret (- EISDIR)
      else
        r ← write_loop (length buf) inode buf off len 0;
        match r with
        | None => error_or_nospc
        | Some done =>
            let new_end := off + done in
            i ← load_inode inode;
            (if ino_size i <? new_end then update_inode inode (with_size new_end) else mret ());;
            (if 0 <? done then wfs_update_times (Some inode) false true true else mret ());;
            mret (s32 done)
        end
  end.

(** The line [/proc/<pid>/comm] of the calling process, when it can be read,
    is [ls]. *)
Definition is_ls (comm : option (list byte)) : bool :=
  match comm with
  | Some line => streq (take_while (.≠ NEWLINE) line) (cs "ls")
  | None => false
  end.

(** [snprintf (decorated, MAX_NAME + 64, "%s%s\033[0m", ...)]. *)
Definition decorate (info : wfs_color_info) (name : cstr) : cstr :=
  take (Z.to_nat (MAX_NAME + 64 - 1)) (info_ansi info ++ name ++ sgr "[0m").

(** The loop of [wfs_readdir]: the names handed to [filler]. *)
Fixpoint readdir_loop (ls : bool) (i : wfs_inode) (n : nat) (idx : Z) : M (list cstr) :=
  match n with
  | O => mret []
  | S n' =>
      let blk_idx := idx / entries_per_block in
      let ent_idx := idx mod entries_per_block in
      if D_BLOCK <=? blk_idx then mret []
      else
        blk_off ← lift (ino_blocks i !! Z.to_nat blk_idx);
        if blk_off =? 0 then readdir_loop ls i n' (idx + 1)
        else
          d ← load_dentry (blk_off + ent_idx * SIZEOF_DENTRY);
          if dentry_free d then readdir_loop ls i n' (idx + 1)
          else
            child ← retrieve_inode (d_num d);
            name ← lift (until_nul (d_name d));
            to_send ← match child with
                      | Some c =>
                          ci ← load_inode c;
                          mret (if ls && negb (ino_color ci =? WFS_COLOR_NONE)
                                then decorate (wfs_color_from_code (u8 (ino_color ci))) name
                                else name)
                      | None => mret name
                      end;
            rest ← readdir_loop ls i n' (idx + 1);
            mret (to_send :: rest)
  end.

Definition wfs_readdir (path : cstr) (comm : option (list byte)) : M (Z * list cstr) :=
  r ← get_inode_from_path (clean_path path PATH_MAX);
  match r with
  | inl rc => mret (rc, [])
  | inr dir =>
      i ← load_inode dir;
      if negb (S_ISDIR (ino_mode i)) then mret (- ENOTDIR, [])
      else
        names ← readdir_loop (is_ls comm) i (dir_max_entries i) 0;
        wfs_update_times (Some dir) true false false;;
        mret (0, cs "." :: cs ".." :: names)
  end.

(** The loop freeing the direct blocks, shared by [wfs_unlink] and
    [wfs_rmdir]. *)
Fixpoint free_direct (inode : iptr) (n : nat) (i : Z) : M () :=
  match n with
  | O => mret ()
  | S n' =>
      b ← block_ptr inode i;
      (if b =? 0 then mret () else free_block b;; set_block_ptr inode i 0);;
      free_direct inode n' (i + 1)
  end.

(** The loop over the entries of the indirect block at [ind_off]. *)
Fixpoint free_indirect (ind_off : Z) (n : nat) (j : Z) : M () :=
  match n with
  | O => mret ()
  | S n' =>
      e ← load_off_t (ind_off + 8 * j);
      (if e =? 0 then mret () else free_block e;; store_off_t (ind_off + 8 * j) 0);;
      free_indirect ind_off n' (j + 1)
  end.

(** Free every data block of an inode, the indirect block last. *)
Definition free_blocks (inode : iptr) : M () :=
  free_direct inode (Z.to_nat D_BLOCK) 0;;
  ind_off ← block_ptr inode IND_BLOCK;
  if ind_off =? 0 then mret ()
  else
    free_indirect ind_off (Z.to_nat indir_entries) 0;;
    b ← block_ptr inode IND_BLOCK;
    free_block b;;
    set_block_ptr inode IND_BLOCK 0.

Definition wfs_unlink (path : cstr) : M Z :=
  sp ← split_path (clean_path path PATH_MAX);
  match sp with
  | inl rc => mret rc
  | inr (parent_path, name) =>
      if streq name (cs ".") || streq name (cs "..") then mret (- EPERM)
      else
        r ← get_inode_from_path parent_path;
        match r with
        | inl rc => mret rc
        | inr parent =>
            pi ← load_inode parent;
            if negb (S_ISDIR (ino_mode pi)) then mret (- ENOTDIR)
            else
              inum ← dentry_to_num name (Some parent);
              if inum <? 0 then mret inum
              else
                ip ← retrieve_inode inum;
                match ip with
                | None => mret (- ENOENT)
                | Some inode =>
                    i ← load_inode inode;
                    if S_ISDIR (ino_mode i) then mret (- EISDIR)
                    else
                      rc ← remove_dentry (Some parent) inum;
                      if rc <? 0 then mret rc
                      else
                        update_inode inode (λ i, with_nlinks (ino_nlinks i - 1) i);;
                        i ← load_inode inode;
                        (if ino_nlinks i <=? 0 then
                           free_blocks inode;; free_inode (Some inode)
                         else mret ());;
                        wfs_update_times (Some parent) false true true;;
                        mret 0
                end
        end
  end.

(** The emptiness check of [wfs_rmdir]. *)
Fixpoint dir_empty_loop (i : wfs_inode) (n : nat) (idx : Z) : M bool :=
  match n with
  | O => mret true
  | S n' =>
      let blk_idx := idx / entries_per_block in
      let ent_idx := idx mod entries_per_block in
      if D_BLOCK <=? blk_idx then mret true
      else
        blk_off ← lift (ino_blocks i !! Z.to_nat blk_idx);
        if blk_off =? 0 then dir_empty_loop i n' (idx + 1)
        else
          d ← load_dentry (blk_off + ent_idx * SIZEOF_DENTRY);
          if dentry_free d then dir_empty_loop i n' (idx + 1)
          else if strncmp_eq (d_name d) (cs ".") (Z.to_nat MAX_NAME) ||
                  strncmp_eq (d_name d) (cs "..") (Z.to_nat MAX_NAME)
          then dir_empty_loop i n' (idx + 1)
          else mret false
  end.

Definition wfs_rmdir (path : cstr) : M Z :=
  let clean := clean_path path PATH_MAX in
  if streq clean [SLASH] then mret (- EBUSY)
  else
    sp ← split_path clean;
    match sp with
    | inl rc => mret rc
    | inr (parent_path, name) =>
        r ← get_inode_from_path parent_path;
        match r with
        | inl rc => mret rc
        | inr parent =>
            pi ← load_inode parent;
            if negb (S_ISDIR (ino_mode pi)) then mret (- ENOTDIR)
            else
              inum ← dentry_to_num name (Some parent);
              if inum <? 0 then mret inum
              else
                dp ← retrieve_inode inum;
                match dp with
                | None => mret (- ENOENT)
                | Some dir =>
                    i ← load_inode dir;
                    if negb (S_ISDIR (ino_mode i)) then mret (- ENOTDIR)
                    else
                      empty ← dir_empty_loop i (dir_max_entries i) 0;
                      if negb empty then mret (- ENOTEMPTY)
                      else
                        rc ← remove_dentry (Some parent) inum;
                        if rc <? 0 then mret rc
                        else
                          update_inode parent (λ i, with_nlinks (ino_nlinks i - 1) i);;
                          free_blocks dir;;
                          free_inode (Some dir);;
                          wfs_update_times (Some parent) false true true;;
                          mret 0
                end
        end
    end.

(** The counting loop of [wfs_statfs]: the clear bits among [n] from [i]. *)
Fixpoint count_clear (bm : list Z) (n : nat) (i : Z) (free : Z) : option Z :=
  match n with
  | O => Some free
  | S n' =>
      t ← bitmap_test (u32 i) bm;
      count_clear bm n' (i + 1) (if t =? 0 then free + 1 else free)
  end.

Definition wfs_statfs : M (Z * statvfs) :=
  s ← get;
  free_inodes ← lift (count_clear (ibm s) (Z.to_nat (num_inodes (sb s))) 0 0);
  free_blocks ← lift (count_clear (dbm s) (Z.to_nat (num_data_blocks (sb s))) 0 0);
  mret (0, mk_statvfs BLOCK_SIZE BLOCK_SIZE (num_data_blocks (sb s)) free_blocks free_blocks
             (num_inodes (sb s)) free_inodes free_inodes MAX_NAME).

Definition XATTR_COLOR : cstr := cs "user.color".

(** [value] is [None] for a NULL pointer, otherwise its [size] bytes. *)
Definition wfs_setxattr (path name : cstr) (value : option (list byte)) (size : Z) : M Z :=
  if negb (streq name XATTR_COLOR) then mret (- ENOTSUP)
  else
    r ← get_inode_from_path (clean_path path PATH_MAX);
    match r with
    | inl rc => mret rc
    | inr inode =>
        i ← load_inode inode;
        v ← valid_inum (ino_num i);
        if negb v then mret (- EINVAL)
        else
          match value with
          | None => mret (- EINVAL)
          | Some bytes =>
              if size =? 0 then mret (- EINVAL)
              else if 32 <=? size then mret (- ERANGE)
              else
                buf ← lift (until_nul (take (Z.to_nat size) bytes ++ [NUL]));
                match parse_color_name buf with
                | None => mret (- EINVAL)
                | Some code =>
                    update_inode inode (with_color code);;
                    wfs_update_times (Some inode) false false true;;
                    mret 0
                end
          end
    end.

(** Return code and the bytes stored in [value]. *)
Definition wfs_getxattr (path name : cstr) (size : Z) : M (Z * list byte) :=
  if negb (streq name XATTR_COLOR) then mret (- ENOTSUP, [])
  else
    r ← get_inode_from_path (clean_path path PATH_MAX);
    match r with
    | inl rc => mret (rc, [])
    | inr inode =>
        i ← load_inode inode;
        v ← valid_inum (ino_num i);
        if negb v then mret (- EINVAL, [])
        else
          let cname := info_name (wfs_color_from_code (u8 (ino_color i))) in
          let needed := Z.of_nat (length cname) in
          if size =? 0 then mret (needed, [])
          else if size <? needed then mret (- ERANGE, [])
          else mret (needed, cname ++ (if needed <? size then [NUL] else []))
    end.

Definition wfs_removexattr (path name : cstr) : M Z :=
  if negb (streq name XATTR_COLOR) then mret (- ENOTSUP)
  else
    r ← get_inode_from_path (clean_path path PATH_MAX);
    match r with
    | inl rc => mret rc
    | inr inode =>
        i ← load_inode inode;
        v ← valid_inum (ino_num i);
        if negb v then mret (- EINVAL)
        else
          update_inode inode (with_color WFS_COLOR_NONE);;
          wfs_update_times (Some inode) false false true;;
          mret 0
    end.
