(* ===== verification/WfsMkfs.v ===== *)
(** mkfs.c: the superblock layout and the writes that build an empty file
    system on a zeroed disk image, and the image the daemon maps. *)

From stdpp Require Import base option list numbers.
From coqutil Require Import Byte.
From Stdlib Require Import ZArith Lia.
From S2P Require Import Prelude CString WfsBitmap WfsDisk WfsPath WfsDir.

Local Open Scope Z_scope.

Definition SIZEOF_SB : Z := 48.

(** [int roundup (int num, int factor)]. *)
Definition roundup (num factor : Z) : Z :=
  if Z.rem num factor =? 0 then num else s32 (num + (factor - Z.rem num factor)).

(** The superblock for [inodes] and [blocks], and whether the layout fits an
    image of [sz] bytes. *)
Definition setup_sb (inodes0 blocks0 sz : Z) : wfs_sb * bool :=
  let inodes := roundup inodes0 32 in
  let blocks := roundup blocks0 32 in
  let i_bitmap := SIZEOF_SB in
  let d_bitmap := i_bitmap + Z.quot inodes 8 in
  let i_blocks := d_bitmap + Z.quot blocks 8 in
  let d_blocks := i_blocks + s32 (inodes * BLOCK_SIZE) in
  let need := u64 (u64 i_blocks + u64 inodes * BLOCK_SIZE + u64 blocks * BLOCK_SIZE) in
  (mk_sb (u64 inodes) (u64 blocks) i_bitmap d_bitmap i_blocks d_blocks, need <? sz).

(** What [wfs_mkfs] writes, with the offset it seeks to. *)
Inductive write_req :=
| WSuper (off : Z) (b : wfs_sb)
| WWord (off : Z) (w : Z)
| WInode (off : Z) (i : wfs_inode).

(** The root inode. *)
Definition root_inode (uid gid now : Z) : wfs_inode :=
  mk_inode 0 (Z.lor S_IFDIR 0x1C0) uid gid 0 1 now now now WFS_COLOR_NONE
    (replicate (Z.to_nat N_BLOCKS) 0).

(** Run the system calls of [wfs_mkfs] in order: [io n] is whether the [n]-th
    of them succeeds; a failure stops with [-1]. *)
Definition wfs_mkfs (io : nat → bool) (st_size uid gid now inodes blocks : Z) : Z * list write_req :=
  if negb (io 0%nat) then (-1, [])                       (* open *)
  else if negb (io 1%nat) then (-1, [])                  (* fstat *)
  else
    let '(sb, ok) := setup_sb inodes blocks st_size in
    if negb ok then (-1, [])
    else if negb (io 2%nat) then (-1, [])                (* lseek superblock *)
    else if negb (io 3%nat) then (-1, [])                (* write superblock *)
    else
      let w1 := WSuper 0 sb in
      if negb (io 4%nat) then (-1, [w1])                 (* lseek inode bitmap *)
      else if negb (io 5%nat) then (-1, [w1])            (* write inode bitmap *)
      else
        let w2 := WWord (i_bitmap_ptr sb) 1 in
        if negb (io 6%nat) then (-1, [w1; w2])           (* lseek root inode *)
        else if negb (io 7%nat) then (-1, [w1; w2])      (* write root inode *)
        else
          let w3 := WInode (i_blocks_ptr sb) (root_inode uid gid now) in
          (0, [w1; w2; w3]).

(** The regions of a zeroed image laid out by [b]. *)
Definition zero_image (b : wfs_sb) (e : environ) : state :=
  mk_state b
    (replicate (Z.to_nat (inode_bitmap_len_words b)) 0)
    (replicate (Z.to_nat (data_bitmap_len_words b)) 0)
    (replicate (Z.to_nat (num_inodes b)) zero_inode)
    (replicate (Z.to_nat (num_data_blocks b)) (replicate (Z.to_nat BLOCK_SIZE) NUL))
    0 e 0.

(** Apply one write to the regions: a bitmap word or an inode slot. *)
Definition apply_write (s : state) (w : write_req) : state :=
  match w with
  | WSuper _ b => zero_image b (env s)
  | WWord off x => set_ibm (<[Z.to_nat ((off - i_bitmap_ptr (sb s)) / 4) := x]> (ibm s)) s
  | WInode off i => set_inodes (<[Z.to_nat ((off - i_blocks_ptr (sb s)) / BLOCK_SIZE) := i]> (inodes s)) s
  end.

(** The image mapped by the daemon ([main] of wfs.c) after the writes. *)
Definition mount (ws : list write_req) (e : environ) : state :=
  foldl apply_write (zero_image (mk_sb 0 0 0 0 0 0) e) ws.
