(* ===== verification/WfsStore.v ===== *)
(** The storage invariant of WFS and the block layer's behaviour under it.

    [ptr_at s i p] is the block pointer of inode [i] at position [p] (a direct
    slot, the indirect slot, or an entry of the indirect block); [byte_at s i
    o] is byte [o] of the file, with holes reading as zero.  The invariant
    [sinv] says that every pointer of an allocated inode is the offset of a
    block marked used, that no block has two owners, and that every used block
    has one: no dangling pointer, no sharing, no leak.  Each primitive update
    of the image (attach a block, write a leaf block, detach a block, allocate
    or free an inode) is a lemma about these observations. *)

From stdpp Require Import base option list numbers.
From coqutil Require Import Byte Word.LittleEndianList.
From Stdlib Require Import ZArith Lia.
From S2P Require Import Prelude CString WfsBitmap WfsDisk.

Ltac disk_unfold :=
  unfold indir_entries, N_BLOCKS, IND_BLOCK, D_BLOCK, BLOCK_SIZE, MAX_NAME in *;
  change (512 / 8)%Z with 64%Z in *.
Ltac disk_lia := disk_unfold; lia.

(** * Geometry *)

Record geom (s : state) : Prop := {
  g_inodes : num_inodes (sb s) = Z.of_nat (length (inodes s));
  g_ibm : length (inodes s) = 32 * length (ibm s);
  g_data : num_data_blocks (sb s) = Z.of_nat (length (data s));
  g_dbm : length (data s) = 32 * length (dbm s);
  g_ibm_ok : words_ok (ibm s);
  g_dbm_ok : words_ok (dbm s);
  g_ibm_small : (Z.of_nat (length (ibm s)) ≤ 67108863)%Z;
  g_dbm_small : (Z.of_nat (length (dbm s)) ≤ 67108863)%Z;
  g_blocks : Forall (λ b : list byte, length b = 512) (data s);
  g_start : (0 < d_blocks_ptr (sb s))%Z;
  g_end : (d_blocks_ptr (sb s) + 512 * Z.of_nat (length (data s)) < 2 ^ 63)%Z;
}.

(** Byte offset of block [b], and the block at an offset. *)
Definition off_of (s : state) (b : nat) : Z := (d_blocks_ptr (sb s) + 512 * Z.of_nat b)%Z.
Definition bidx (s : state) (off : Z) : nat := Z.to_nat ((off - d_blocks_ptr (sb s)) / 512).
Definition blk_at (s : state) (b : nat) : list byte := default [] (data s !! b).
Definition inode_at (s : state) (i : nat) : wfs_inode := default zero_inode (inodes s !! i).

Definition zeros (n : nat) : list byte := replicate n NUL.

Lemma length_zeros n : length (zeros n) = n.
Proof. apply length_replicate. Qed.

Lemma bidx_off s b : bidx s (off_of s b) = b.
Proof.
  unfold bidx, off_of. replace (_ - _)%Z with (Z.of_nat b * 512)%Z by lia.
  rewrite Z.div_mul by lia. lia.
Qed.

Lemma off_of_inj s b c : off_of s b = off_of s c → b = c.
Proof. unfold off_of. lia. Qed.

Lemma off_of_nonzero s b : geom s → off_of s b ≠ 0%Z.
Proof. intros []. unfold off_of. lia. Qed.

Lemma blk_at_length s b : geom s → b < length (data s) → length (blk_at s b) = 512.
Proof.
  intros G Hb. destruct (lookup_lt_is_Some_2 _ _ Hb) as [c Hc]. unfold blk_at. rewrite Hc. simpl.
  pose proof (g_blocks _ G) as F. rewrite Forall_lookup in F. eauto.
Qed.

Lemma lookup_blk_at s b : b < length (data s) → data s !! b = Some (blk_at s b).
Proof. intros Hb. destruct (lookup_lt_is_Some_2 _ _ Hb) as [c Hc]. unfold blk_at. by rewrite Hc. Qed.

Lemma lookup_inode_at s i : i < length (inodes s) → inodes s !! i = Some (inode_at s i).
Proof. intros Hi. destruct (lookup_lt_is_Some_2 _ _ Hi) as [c Hc]. unfold inode_at. by rewrite Hc. Qed.

(** * Memory *)

Lemma resolve_off s b o n :
  b < length (data s) → o + n ≤ 512 →
  resolve s (off_of s b + Z.of_nat o) (Z.of_nat n) = Some (b, o) ∨ (o = 512 ∧ n = 0).
Proof.
  intros Hb Ho. destruct (decide (o = 512)) as [->|Hne]; [right; lia|left].
  unfold resolve, off_of. disk_unfold.
  replace (_ - _)%Z with (Z.of_nat o + Z.of_nat b * 512)%Z by lia.
  rewrite Z.div_add, Z.mod_add by lia. rewrite Z.div_small, Z.mod_small by lia.
  rewrite Z.add_0_l, !Nat2Z.id.
  rewrite bool_decide_eq_true_2; [done|]. lia.
Qed.

Definition write_block (b : nat) (c : list byte) (s : state) : state :=
  set_data (<[b := c]> (data s)) s.

Lemma mem_read_run s b o n ptr len :
  b < length (data s) → o < 512 → o + n ≤ 512 →
  ptr = (off_of s b + Z.of_nat o)%Z → len = Z.of_nat n →
  mem_read ptr len s = Some (take n (drop o (blk_at s b)), s).
Proof.
  intros Hb Ho Hn -> ->. unfold mem_read.
  destruct (resolve_off s b o n) as [E|]; [done|done| |lia].
  rewrite E. cbn [mbind option_bind]. rewrite (lookup_blk_at s b) by done. simpl. by rewrite Nat2Z.id.
Qed.

Lemma mem_write_run s b o bs ptr :
  b < length (data s) → o < 512 → o + length bs ≤ 512 →
  ptr = (off_of s b + Z.of_nat o)%Z →
  mem_write ptr bs s = Some ((), write_block b (splice o bs (blk_at s b)) s).
Proof.
  intros Hb Ho Hn ->. unfold mem_write.
  destruct (resolve_off s b o (length bs)) as [E|]; [done|done| |lia].
  rewrite E. cbn [mbind option_bind]. unfold write_block. do 3 f_equal.
  apply list_eq. intros c. destruct (decide (c = b)) as [->|].
  - rewrite list_lookup_alter_eq, list_lookup_insert_eq by done.
    by rewrite (lookup_blk_at s b) by done.
  - by rewrite list_lookup_alter_ne, list_lookup_insert_ne by done.
Qed.

Lemma length_splice o bs blk : o + length bs ≤ length blk → length (splice o bs blk) = length blk.
Proof. intros. unfold splice. rewrite !length_app, length_take, length_drop. lia. Qed.

Lemma lookup_splice o bs blk k :
  o + length bs ≤ length blk →
  splice o bs blk !! k =
    if decide (o ≤ k < o + length bs) then bs !! (k - o) else blk !! k.
Proof.
  intros H. unfold splice. case_decide as D.
  - rewrite lookup_app_r by (rewrite length_take; lia). rewrite length_take.
    rewrite lookup_app_l by lia. f_equal. lia.
  - destruct (decide (k < o)).
    + rewrite lookup_app_l by (rewrite length_take; lia). by rewrite lookup_take_lt.
    + rewrite lookup_app_r by (rewrite length_take; lia). rewrite length_take.
      rewrite lookup_app_r by lia. rewrite lookup_drop. f_equal. lia.
Qed.

Lemma splice_full bs blk : length bs = length blk → splice 0 bs blk = bs.
Proof. intros H. unfold splice. simpl. rewrite H, drop_all. by rewrite app_nil_r. Qed.

Lemma memset0_block_run s b ptr :
  geom s → b < length (data s) → ptr = off_of s b →
  memset0 ptr BLOCK_SIZE s = Some ((), write_block b (zeros 512) s).
Proof.
  intros G Hb ->. unfold memset0.
  rewrite (mem_write_run s b 0); [|done|lia|rewrite length_replicate; disk_lia|lia].
  change (Z.to_nat BLOCK_SIZE) with 512. rewrite splice_full; [done|].
  by rewrite length_replicate, blk_at_length.
Qed.

(** * Inode access *)

Lemma load_inode_run s i : i < length (inodes s) → load_inode i s = Some (inode_at s i, s).
Proof. intros. unfold load_inode. by rewrite lookup_inode_at. Qed.

Definition write_inode (i : nat) (x : wfs_inode) (s : state) : state :=
  set_inodes (<[i := x]> (inodes s)) s.

Lemma store_inode_run s i x : i < length (inodes s) → store_inode i x s = Some ((), write_inode i x s).
Proof. intros. unfold store_inode. by rewrite decide_True. Qed.

Lemma update_inode_run s i f :
  i < length (inodes s) → update_inode i f s = Some ((), write_inode i (f (inode_at s i)) s).
Proof.
  intros. unfold update_inode, mbind, ST_bind. rewrite load_inode_run by done.
  by rewrite store_inode_run.
Qed.

Lemma inode_at_write s i x j :
  i < length (inodes s) → inode_at (write_inode i x s) j = if decide (j = i) then x else inode_at s j.
Proof.
  intros. unfold inode_at, write_inode. simpl. case_decide.
  - subst. by rewrite list_lookup_insert_eq.
  - by rewrite list_lookup_insert_ne.
Qed.

Lemma blk_at_write s b c k :
  b < length (data s) → blk_at (write_block b c s) k = if decide (k = b) then c else blk_at s k.
Proof.
  intros. unfold blk_at, write_block. simpl. case_decide.
  - subst. by rewrite list_lookup_insert_eq.
  - by rewrite list_lookup_insert_ne.
Qed.

Lemma geom_write_inode s i x : geom s → geom (write_inode i x s).
Proof. intros []. constructor; simpl; rewrite ?length_insert; auto. Qed.

Lemma geom_write_block s b c : geom s → length c = 512 → geom (write_block b c s).
Proof.
  intros [] Hc. constructor; simpl; rewrite ?length_insert; auto. by apply Forall_insert.
Qed.

Lemma geom_set_calls s n : geom s → geom (set_calls n s).
Proof. intros []. by constructor. Qed.
Lemma geom_set_error s n : geom s → geom (set_error n s).
Proof. intros []. by constructor. Qed.
Lemma geom_set_dbm s bm : geom s → length bm = length (dbm s) → words_ok bm → geom (set_dbm bm s).
Proof. intros [] E ?. constructor; simpl; rewrite ?E; auto. Qed.
Lemma geom_set_ibm s bm : geom s → length bm = length (ibm s) → words_ok bm → geom (set_ibm bm s).
Proof. intros [] E ?. constructor; simpl; rewrite ?E; auto. Qed.

(** * Block pointers *)

(** Where a block pointer of an inode is kept. *)
Inductive pos := PDir (k : nat) | PInd | PEnt (n : nat).

Global Instance pos_eq_dec : EqDecision pos.
Proof. solve_decision. Defined.

Definition pos_ok (p : pos) : Prop :=
  match p with PDir k => k < 6 | PInd => True | PEnt n => n < 64 end.

Definition dptr (s : state) (i k : nat) : Z := default 0%Z (ino_blocks (inode_at s i) !! k).

(** Entry [n] of the table of offsets in block [b]. *)
Definition ient (s : state) (b n : nat) : Z := s64 (le_combine (take 8 (drop (8 * n) (blk_at s b)))).

Definition ptr_at (s : state) (i : nat) (p : pos) : Z :=
  match p with
  | PDir k => dptr s i k
  | PInd => dptr s i 7
  | PEnt n => if decide (dptr s i 7 = 0%Z) then 0%Z else ient s (bidx s (dptr s i 7)) n
  end.

Definition allocated (s : state) (i : nat) : Prop := bit (ibm s) i = true.
Definition used (s : state) (b : nat) : Prop := bit (dbm s) b = true.

Global Instance used_dec s b : Decision (used s b).
Proof. unfold used. apply _. Defined.
Global Instance allocated_dec s i : Decision (allocated s i).
Proof. unfold allocated. apply _. Defined.

Lemma bit_range bm p : bit bm p = true → p < 32 * length bm.
Proof.
  unfold bit. intros H. destruct (bm !! (p / 32)) eqn:E; simpl in H; [|by rewrite Z.bits_0 in H].
  apply lookup_lt_Some in E. pose proof (Nat.div_mod_eq p 32).
  pose proof (Nat.mod_upper_bound p 32). lia.
Qed.

Lemma allocated_lt s i : geom s → allocated s i → i < length (inodes s).
Proof. intros G H%bit_range. rewrite (g_ibm _ G). done. Qed.
Lemma used_lt s b : geom s → used s b → b < length (data s).
Proof. intros G H%bit_range. rewrite (g_dbm _ G). done. Qed.

(** Shape of an allocated inode. *)
Definition inode_ok (i : nat) (x : wfs_inode) : Prop :=
  ino_num x = Z.of_nat i ∧ length (ino_blocks x) = 8 ∧ (0 ≤ ino_size x < 2 ^ 63)%Z.

Record sinv (s : state) : Prop := {
  si_geom : geom s;
  si_inode : ∀ i, allocated s i → inode_ok i (inode_at s i);
  si_ptr : ∀ i p, allocated s i → pos_ok p → ptr_at s i p ≠ 0%Z →
    ∃ b, used s b ∧ ptr_at s i p = off_of s b;
  si_inj : ∀ i p j q, allocated s i → allocated s j → pos_ok p → pos_ok q →
    ptr_at s i p ≠ 0%Z → ptr_at s i p = ptr_at s j q → i = j ∧ p = q;
  si_used : ∀ b, used s b → ∃ i p, allocated s i ∧ pos_ok p ∧ ptr_at s i p = off_of s b;
}.

(** ** Transport of the invariant along an update *)

Lemma off_of_same s s' b : sb s' = sb s → off_of s' b = off_of s b.
Proof. unfold off_of. by intros ->. Qed.

(** Same pointers, same bitmaps. *)
Lemma sinv_same s s' :
  sinv s → geom s' → sb s' = sb s →
  (∀ i, allocated s' i ↔ allocated s i) → (∀ b, used s' b ↔ used s b) →
  (∀ i, allocated s i → inode_ok i (inode_at s' i)) →
  (∀ i p, allocated s i → pos_ok p → ptr_at s' i p = ptr_at s i p) →
  sinv s'.
Proof.
  intros S G Esb Ea Eu Hi Hp. constructor; [done| | | |].
  - intros i Ha. apply Hi. by apply Ea.
  - intros i p Ha%Ea Hok. rewrite Hp by done. intros Hnz.
    destruct (si_ptr _ S i p Ha Hok Hnz) as (b&Hb&E). exists b. split; [by apply Eu|].
    by rewrite (off_of_same s s').
  - intros i p j q Hi'%Ea Hj'%Ea Hpo Hqo. rewrite !Hp by done. by apply si_inj.
  - intros b Hb%Eu. destruct (si_used _ S b Hb) as (i&p&Ha&Hok&E). exists i, p.
    split; [by apply Ea|]. split; [done|]. rewrite Hp by done. by rewrite (off_of_same s s').
Qed.

(** A free block [b] becomes the target of an empty position. *)
Lemma sinv_attach s s' i p b :
  sinv s → geom s' → sb s' = sb s →
  (∀ j, allocated s' j ↔ allocated s j) →
  (∀ c, bit (dbm s') c = if decide (c = b) then true else bit (dbm s) c) →
  (∀ j, allocated s j → inode_ok j (inode_at s' j)) →
  allocated s i → pos_ok p → ¬ used s b → ptr_at s i p = 0%Z →
  (∀ j q, allocated s j → pos_ok q →
     ptr_at s' j q = if decide (j = i ∧ q = p) then off_of s b else ptr_at s j q) →
  sinv s'.
Proof.
  intros S G Esb Ea Eu Hino Hi Hp Hb Hz Hptr.
  assert (Hused : ∀ c, used s' c ↔ c = b ∨ used s c).
  { intros c. unfold used. rewrite Eu. case_decide; [subst; tauto|]. split; [by right|by intros [->|]]. }
  assert (Hfresh : ∀ j q, allocated s j → pos_ok q → ptr_at s j q ≠ off_of s b).
  { intros j q Hj Hq E. destruct (si_ptr _ S j q Hj Hq) as (c&Hc&E').
    { rewrite E. apply off_of_nonzero, S. }
    rewrite E in E'. apply off_of_inj in E'. by subst. }
  constructor; [done| | | |].
  - intros j Hj%Ea. by apply Hino.
  - intros j q Hj%Ea Hq. rewrite Hptr by done. case_decide; intros Hnz.
    + exists b. rewrite Hused, (off_of_same s s') by done. auto.
    + destruct (si_ptr _ S j q Hj Hq Hnz) as (c&Hc&E). exists c.
      rewrite Hused, (off_of_same s s') by done. auto.
  - intros j q k r Hj%Ea Hk%Ea Hq Hr. rewrite !Hptr by done.
    destruct (decide (j = i ∧ q = p)) as [[-> ->]|], (decide (k = i ∧ r = p)) as [[-> ->]|].
    + done.
    + intros _ E. by destruct (Hfresh k r).
    + intros _ E. by destruct (Hfresh j q).
    + by apply si_inj.
  - intros c [->|Hc]%Hused.
    + exists i, p. rewrite Ea, Hptr, decide_True, (off_of_same s s') by done. done.
    + destruct (si_used _ S c Hc) as (j&q&Hj&Hq&E). exists j, q.
      rewrite Ea, Hptr, (off_of_same s s') by done. rewrite decide_False; [done|].
      intros [-> ->]. rewrite Hz in E. symmetry in E. by apply off_of_nonzero in E; [|apply S].
Qed.

(** The block at a position is released and the position cleared. *)
Lemma sinv_detach s s' i p b :
  sinv s → geom s' → sb s' = sb s →
  (∀ j, allocated s' j ↔ allocated s j) →
  (∀ c, bit (dbm s') c = if decide (c = b) then false else bit (dbm s) c) →
  (∀ j, allocated s j → inode_ok j (inode_at s' j)) →
  allocated s i → pos_ok p → ptr_at s i p = off_of s b →
  (∀ j q, allocated s j → pos_ok q →
     ptr_at s' j q = if decide (j = i ∧ q = p) then 0%Z else ptr_at s j q) →
  sinv s'.
Proof.
  intros S G Esb Ea Eu Hino Hi Hp Hb Hptr.
  assert (Hused : ∀ c, used s' c ↔ c ≠ b ∧ used s c).
  { intros c. unfold used. rewrite Eu. case_decide; [subst; split; [done|by intros []]|tauto]. }
  assert (Hnz : ptr_at s i p ≠ 0%Z) by (rewrite Hb; apply off_of_nonzero, S).
  constructor; [done| | | |].
  - intros j Hj%Ea. by apply Hino.
  - intros j q Hj%Ea Hq. rewrite Hptr by done. case_decide as D; [done|]. intros Hq0.
    destruct (si_ptr _ S j q Hj Hq Hq0) as (c&Hc&E). exists c.
    rewrite Hused, (off_of_same s s') by done. split_and!; [|done|done]. intros ->.
    destruct (si_inj _ S j q i p) as [-> ->]; [done..|congruence|]. by apply D.
  - intros j q k r Hj%Ea Hk%Ea Hq Hr. rewrite !Hptr by done.
    destruct (decide (j = i ∧ q = p)); [done|].
    destruct (decide (k = i ∧ r = p)); [done|]. by apply si_inj.
  - intros c [Hne Hc]%Hused. destruct (si_used _ S c Hc) as (j&q&Hj&Hq&E). exists j, q.
    rewrite Ea, Hptr, (off_of_same s s') by done. rewrite decide_False; [done|].
    intros [-> ->]. apply Hne. apply (off_of_inj s). congruence.
Qed.

(** A free inode without blocks becomes allocated. *)
Lemma sinv_alloc_inode s s' i :
  sinv s → geom s' → sb s' = sb s →
  (∀ j, bit (ibm s') j = if decide (j = i) then true else bit (ibm s) j) →
  (∀ b, used s' b ↔ used s b) → ¬ allocated s i →
  inode_ok i (inode_at s' i) → (∀ j, allocated s j → inode_ok j (inode_at s' j)) →
  (∀ q, pos_ok q → ptr_at s' i q = 0%Z) →
  (∀ j q, allocated s j → pos_ok q → ptr_at s' j q = ptr_at s j q) →
  sinv s'.
Proof.
  intros S G Esb Ea Eu Hnew Hi Hino Hz Hptr.
  assert (Hal : ∀ j, allocated s' j ↔ j = i ∨ allocated s j).
  { intros j. unfold allocated. rewrite Ea. case_decide; [subst; tauto|]. split; [by right|by intros [->|]]. }
  constructor; [done| | | |].
  - intros j [->|Hj]%Hal; auto.
  - intros j q [->|Hj]%Hal Hq; [by rewrite Hz|]. rewrite Hptr by done. intros Hq0.
    destruct (si_ptr _ S j q Hj Hq Hq0) as (c&Hc&E). exists c. by rewrite Eu, (off_of_same s s').
  - intros j q k r [->|Hj]%Hal [->|Hk]%Hal Hq Hr; rewrite ?(Hz q), ?(Hz r), ?Hptr by done; try done.
    by apply si_inj.
  - intros c Hc%Eu. destruct (si_used _ S c Hc) as (j&q&Hj&Hq&E). exists j, q.
    rewrite Hal, Hptr, (off_of_same s s') by done. auto.
Qed.

(** An allocated inode without blocks is released. *)
Lemma sinv_free_inode s s' i :
  sinv s → geom s' → sb s' = sb s →
  (∀ j, bit (ibm s') j = if decide (j = i) then false else bit (ibm s) j) →
  (∀ b, used s' b ↔ used s b) → allocated s i →
  (∀ j, allocated s j → j ≠ i → inode_ok j (inode_at s' j)) →
  (∀ q, pos_ok q → ptr_at s i q = 0%Z) →
  (∀ j q, allocated s j → j ≠ i → pos_ok q → ptr_at s' j q = ptr_at s j q) →
  sinv s'.
Proof.
  intros S G Esb Ea Eu Hi Hino Hz Hptr.
  assert (Hal : ∀ j, allocated s' j ↔ j ≠ i ∧ allocated s j).
  { intros j. unfold allocated. rewrite Ea. case_decide; [subst; split; [done|by intros []]|tauto]. }
  constructor; [done| | | |].
  - intros j [? ?]%Hal; auto.
  - intros j q [? Hj]%Hal Hq. rewrite Hptr by done. intros Hq0.
    destruct (si_ptr _ S j q Hj Hq Hq0) as (c&Hc&E). exists c. by rewrite Eu, (off_of_same s s').
  - intros j q k r [? Hj]%Hal [? Hk]%Hal Hq Hr. rewrite !Hptr by done. by apply si_inj.
  - intros c Hc%Eu. destruct (si_used _ S c Hc) as (j&q&Hj&Hq&E).
    destruct (decide (j = i)) as [->|].
    { rewrite Hz in E by done. symmetry in E. by apply off_of_nonzero in E; [|apply S]. }
    exists j, q. rewrite Hal, Hptr, (off_of_same s s') by done. auto.
Qed.

(** ** Pointers under the primitive writes *)

Lemma ptr_at_ind_block s i : sinv s → allocated s i → dptr s i 7 ≠ 0%Z →
  ∃ b, used s b ∧ dptr s i 7 = off_of s b ∧ bidx s (dptr s i 7) = b.
Proof.
  intros S Hi Hnz. destruct (si_ptr _ S i PInd Hi I Hnz) as (b&Hb&E). exists b.
  simpl in E. by rewrite E, bidx_off.
Qed.

(** [b] is not the indirect block of any file. *)
Definition not_indirect (s : state) (b : nat) : Prop :=
  ∀ i, allocated s i → dptr s i 7 ≠ off_of s b.

Lemma ptr_at_write_block s b c i p :
  sinv s → b < length (data s) → not_indirect s b → allocated s i →
  ptr_at (write_block b c s) i p = ptr_at s i p.
Proof.
  intros S Hb Hni Hi. destruct p as [k| |n]; try done. simpl.
  change (dptr (write_block b c s) i 7) with (dptr s i 7).
  change (bidx (write_block b c s)) with (bidx s).
  case_decide as D; [done|]. unfold ient.
  destruct (ptr_at_ind_block s i S Hi D) as (d&Hd&E&->).
  rewrite blk_at_write, decide_False; [done| |done]. intros ->. by apply (Hni i).
Qed.

Lemma dptr_write_inode s i x j k :
  i < length (inodes s) →
  dptr (write_inode i x s) j k =
    if decide (j = i) then default 0%Z (ino_blocks x !! k) else dptr s j k.
Proof. intros. unfold dptr. rewrite inode_at_write by done. by case_decide. Qed.

(** Writing an inode without touching its pointers. *)
Lemma ptr_at_write_inode_same s i x j p :
  i < length (inodes s) → ino_blocks x = ino_blocks (inode_at s i) →
  ptr_at (write_inode i x s) j p = ptr_at s j p.
Proof.
  intros Hi E.
  assert (∀ k, dptr (write_inode i x s) j k = dptr s j k) as Hd.
  { intros k. rewrite dptr_write_inode by done. case_decide; [|done]. subst. unfold dptr. by rewrite E. }
  destruct p; simpl; rewrite ?Hd; reflexivity.
Qed.

Lemma ptr_at_write_inode_other s i x j p :
  i < length (inodes s) → j ≠ i → ptr_at (write_inode i x s) j p = ptr_at s j p.
Proof.
  intros Hi E.
  assert (∀ k, dptr (write_inode i x s) j k = dptr s j k) as Hd.
  { intros k. by rewrite dptr_write_inode, decide_False. }
  destruct p; simpl; rewrite ?Hd; reflexivity.
Qed.

Lemma length_le_split' n z : length (le_split n z) = n.
Proof. apply length_le_split. Qed.

Lemma ient_range_roundtrip x : (- 2 ^ 63 ≤ x < 2 ^ 63)%Z → s64 (le_combine (le_split 8 x)) = x.
Proof.
  intros Hx. rewrite le_combine_split. unfold s64, to_signed.
  change (Z.of_nat 8 * 8)%Z with 64%Z. rewrite Zplus_mod_idemp_l.
  fold (to_signed 64 x). rewrite to_signed_id; [done|lia|]. change (2 ^ (64 - 1))%Z with (2 ^ 63)%Z. done.
Qed.

Lemma take_drop_splice o bs blk :
  o + length bs ≤ length blk → take (length bs) (drop o (splice o bs blk)) = bs.
Proof.
  intros H. apply list_eq. intros k. destruct (decide (k < length bs)).
  - rewrite lookup_take_lt, lookup_drop, lookup_splice, decide_True by lia. f_equal. lia.
  - rewrite lookup_take_ge by lia. symmetry. apply lookup_ge_None. lia.
Qed.

Lemma take_drop_splice_disjoint o bs blk o' n :
  o + length bs ≤ length blk → (o' + n ≤ o ∨ o + length bs ≤ o') →
  take n (drop o' (splice o bs blk)) = take n (drop o' blk).
Proof.
  intros H Hd. apply list_eq. intros k. destruct (decide (k < n)).
  - rewrite !lookup_take_lt, !lookup_drop, lookup_splice by done. rewrite decide_False; [done|lia].
  - rewrite !lookup_take_ge by lia. done.
Qed.

(** Writing one entry of the table of offsets in block [b]. *)
Lemma ient_write s b x n m :
  geom s → b < length (data s) → n < 64 → m < 64 → (- 2 ^ 63 ≤ x < 2 ^ 63)%Z →
  ient (write_block b (splice (8 * n) (le_split 8 x) (blk_at s b)) s) b m =
    if decide (m = n) then x else ient s b m.
Proof.
  intros G Hb Hn Hm Hx. unfold ient. rewrite blk_at_write, decide_True by done.
  pose proof (blk_at_length s b G Hb) as HL.
  case_decide as D.
  - subst m. rewrite <- (ient_range_roundtrip x) at 2 by done. do 2 f_equal.
    rewrite <- (length_le_split' 8 x) at 1. apply take_drop_splice. rewrite length_le_split'. lia.
  - rewrite take_drop_splice_disjoint; [done| |]; rewrite length_le_split'; lia.
Qed.

(** * File contents *)

(** The position of the [n]-th block of a file. *)
Definition leaf_pos (n : nat) : pos := if decide (n < 6) then PDir n else PEnt (n - 6).

(** Byte [o] of file [i]; a hole reads as zero. *)
Definition byte_at (s : state) (i o : nat) : byte :=
  if decide (o / 512 < 70) then
    let p := ptr_at s i (leaf_pos (o / 512)) in
    if decide (p = 0%Z) then NUL else default NUL (blk_at s (bidx s p) !! (o mod 512))
  else NUL.

Lemma leaf_pos_ok n : n < 70 → pos_ok (leaf_pos n).
Proof. unfold leaf_pos. intros. case_decide; simpl; lia. Qed.

Lemma leaf_pos_not_ind n : leaf_pos n ≠ PInd.
Proof. unfold leaf_pos. by case_decide. Qed.

Lemma leaf_pos_inj n m : leaf_pos n = leaf_pos m → n = m.
Proof. unfold leaf_pos. repeat case_decide; intros [=]; lia. Qed.

(** The block of a leaf is no indirect block. *)
Lemma leaf_not_indirect s i n b :
  sinv s → allocated s i → n < 70 → ptr_at s i (leaf_pos n) = off_of s b → not_indirect s b.
Proof.
  intros S Hi Hn E j Hj E'. destruct (si_inj _ S i (leaf_pos n) j PInd) as [_ Hp];
    [done|done|by apply leaf_pos_ok|done|..].
  - rewrite E. apply off_of_nonzero, S.
  - simpl. congruence.
  - by apply leaf_pos_not_ind in Hp.
Qed.

(** What [attach] changes: the invariant and all file contents are kept. *)
Lemma attach_obs s s' i p b :
  sinv s → geom s' → sb s' = sb s →
  (∀ j, allocated s' j ↔ allocated s j) →
  (∀ c, bit (dbm s') c = if decide (c = b) then true else bit (dbm s) c) →
  (∀ j, allocated s j → inode_ok j (inode_at s' j)) →
  allocated s i → pos_ok p → ¬ used s b → ptr_at s i p = 0%Z →
  (∀ j q, allocated s j → pos_ok q →
     ptr_at s' j q = if decide (j = i ∧ q = p) then off_of s b else ptr_at s j q) →
  blk_at s' b = zeros 512 →
  (∀ c, used s c → not_indirect s c → blk_at s' c = blk_at s c) →
  sinv s' ∧ ∀ j o, allocated s j → byte_at s' j o = byte_at s j o.
Proof.
  intros S G Esb Ea Eu Hino Hi Hp Hb Hz Hptr Hnew Hold.
  split; [by eapply sinv_attach|]. intros j o Hj. unfold byte_at.
  destruct (decide (o / 512 < 70)) as [Hn|]; [|done]. simpl.
  pose proof (leaf_pos_ok _ Hn) as Hq. rewrite Hptr by done.
  assert (Hbi : ∀ x, bidx s' x = bidx s x) by (intros; unfold bidx; by rewrite Esb).
  destruct (decide (j = i ∧ leaf_pos (o / 512) = p)) as [[-> <-]|].
  - rewrite Hz, (decide_True _ _ eq_refl), decide_False by (apply off_of_nonzero, S).
    rewrite Hbi, bidx_off, Hnew. destruct (zeros 512 !! (o mod 512)) eqn:E; [|done].
    apply lookup_replicate in E as [-> _]. done.
  - case_decide as D; [done|]. rewrite Hbi.
    destruct (si_ptr _ S j _ Hj Hq D) as (c&Hc&E). rewrite E, bidx_off, Hold; [done|done|].
    by eapply leaf_not_indirect.
Qed.

(** * Allocating a data block *)

Definition alloc_blk (b : nat) (bm : list Z) (s : state) : state :=
  write_block b (zeros 512) (set_dbm bm s).

(** [bm] marks [b], a free block of [s], and nothing else. *)
Definition marks (s : state) (b : nat) (bm : list Z) : Prop :=
  b < length (data s) ∧ ¬ used s b ∧ length bm = length (dbm s) ∧ words_ok bm ∧
  ∀ c, bit bm c = if decide (c = b) then true else bit (dbm s) c.

Lemma allocate_data_block_run s :
  geom s →
  (∀ b, b < length (data s) → used s b) ∧
    allocate_data_block s = Some (0%Z, set_error (- ENOSPC) s) ∨
  ∃ b bm, marks s b bm ∧ (∀ c, c < b → used s c) ∧
    allocate_data_block s = Some (off_of s b, alloc_blk b bm s).
Proof.
  intros G. pose proof (g_dbm_small _ G) as Hsmall.
  destruct (allocate_block_cases (dbm s)) as (r&bm&E&Hr); [apply G|lia|].
  assert (Hlen : data_bitmap_len_words (sb s) = Z.of_nat (length (dbm s))).
  { unfold data_bitmap_len_words. rewrite (g_data _ G), (g_dbm _ G).
    symmetry. apply Z.div_unique with 31%Z; lia. }
  unfold allocate_data_block, mbind, ST_bind, get, lift. rewrite Hlen, E. simpl.
  destruct Hr as [(->&->&Hfull)|(b&->&Hb&Hclear&Hlow&Hbm)].
  - left. split.
    { intros b Hb. apply Hfull. rewrite <- (g_dbm _ G). done. }
    by destruct s.
  - right. exists b, bm. split; [|split; [done|]].
    { unfold marks, used. rewrite Hclear, (g_dbm _ G). by split_and!; try apply Hbm. }
    rewrite (g_data _ G). assert (b < length (data s)) as Hb' by (rewrite (g_dbm _ G); done).
    assert ((Z.of_nat b <? 0)%Z || (Z.of_nat (length (data s)) <=? Z.of_nat b)%Z = false) as -> by lia.
    assert (geom (set_dbm bm s)) as G' by (apply geom_set_dbm; [done|apply Hbm..]).
    rewrite (memset0_block_run _ b); [|done|done|].
    + unfold off_of, mret, ST_ret. do 2 f_equal. disk_lia.
    + unfold off_of; simpl. disk_lia.
Qed.

Lemma marks_geom s b bm : geom s → marks s b bm → geom (alloc_blk b bm s).
Proof.
  intros G (?&?&?&?&?). apply geom_write_block; [by apply geom_set_dbm|apply length_zeros].
Qed.

Lemma unused_not_indirect s b : sinv s → ¬ used s b → not_indirect s b.
Proof.
  intros S Hb i Hi E. destruct (si_ptr _ S i PInd) as (c&Hc&E'); [done|done|simpl|].
  - rewrite E. apply off_of_nonzero, S.
  - simpl in E'. rewrite E in E'. apply off_of_inj in E' as ->. done.
Qed.

Lemma ptr_at_alloc_blk s b bm i p :
  sinv s → marks s b bm → allocated s i → ptr_at (alloc_blk b bm s) i p = ptr_at s i p.
Proof.
  intros S (?&?&?) Hi. change (ptr_at (alloc_blk b bm s) i p) with (ptr_at (write_block b (zeros 512) s) i p).
  apply ptr_at_write_block; [done..|by apply unused_not_indirect|done].
Qed.
