(* ===== verification/WfsBlocks.v ===== *)
(** The block layer of WFS under the storage invariant: attaching and
    detaching blocks, [data_offset], and the byte-level effect of writing into
    a file.  [grown] relates two states that differ in block pointers only. *)

From stdpp Require Import base option list numbers.
From coqutil Require Import Byte Word.LittleEndianList.
From Stdlib Require Import ZArith Lia.
From S2P Require Import Prelude CString WfsBitmap WfsDisk WfsStore.

Create HintDb wfs.

(** Refutes an equality of positions, or of a pair of an inode and a position. *)
Ltac pos_neq := first [lia | intros [? ?]; congruence | intros ?; congruence].

(** * Metadata *)

(** The inode without its block pointers. *)
Definition meta (x : wfs_inode) : wfs_inode := with_blocks (λ _, []) x.

(** [s'] differs from [s] in block pointers, data blocks, the data bitmap and
    [wfs_error] at most. *)
Record same_meta (s s' : state) : Prop := {
  sm_sb : sb s' = sb s;
  sm_ibm : ibm s' = ibm s;
  sm_env : env s' = env s;
  sm_calls : calls s' = calls s;
  sm_len : length (inodes s') = length (inodes s);
  sm_meta : ∀ i, meta (inode_at s' i) = meta (inode_at s i);
}.

Lemma same_meta_refl s : same_meta s s.
Proof. by constructor. Qed.
Lemma same_meta_trans s1 s2 s3 : same_meta s1 s2 → same_meta s2 s3 → same_meta s1 s3.
Proof. intros [] []. constructor; congruence. Qed.

Lemma same_meta_allocated s s' i : same_meta s s' → allocated s' i ↔ allocated s i.
Proof. intros []. unfold allocated. by rewrite sm_ibm0. Qed.
Lemma same_meta_size s s' i : same_meta s s' → ino_size (inode_at s' i) = ino_size (inode_at s i).
Proof. intros H. exact (f_equal ino_size (sm_meta _ _ H i)). Qed.
Lemma same_meta_mode s s' i : same_meta s s' → ino_mode (inode_at s' i) = ino_mode (inode_at s i).
Proof. intros H. exact (f_equal ino_mode (sm_meta _ _ H i)). Qed.
Lemma same_meta_num s s' i : same_meta s s' → ino_num (inode_at s' i) = ino_num (inode_at s i).
Proof. intros H. exact (f_equal ino_num (sm_meta _ _ H i)). Qed.

Lemma same_meta_write_block s b c : same_meta s (write_block b c s).
Proof. by constructor. Qed.
Lemma same_meta_alloc_blk s b bm : same_meta s (alloc_blk b bm s).
Proof. by constructor. Qed.
Lemma same_meta_set_error s e : same_meta s (set_error e s).
Proof. by constructor. Qed.

Lemma same_meta_write_inode s i x :
  i < length (inodes s) → meta x = meta (inode_at s i) → same_meta s (write_inode i x s).
Proof.
  intros Hi E. constructor; try done.
  - simpl. by rewrite length_insert.
  - intros j. rewrite inode_at_write by done. case_decide; by subst.
Qed.

Global Hint Resolve same_meta_refl same_meta_write_block same_meta_alloc_blk same_meta_set_error : wfs.

Definition same_bytes (s s' : state) : Prop :=
  ∀ j o, allocated s j → byte_at s' j o = byte_at s j o.

(** The block layer kept everything observable but block pointers. *)
Definition grown (s s' : state) : Prop := sinv s' ∧ same_meta s s' ∧ same_bytes s s'.

Lemma grown_refl s : sinv s → grown s s.
Proof. intros. split_and!; [done|apply same_meta_refl|by intros ??]. Qed.

Lemma grown_trans s1 s2 s3 : grown s1 s2 → grown s2 s3 → grown s1 s3.
Proof.
  intros (?&M1&B1) (?&M2&B2). split_and!; [done|by eapply same_meta_trans|].
  intros j o Hj. rewrite (B2 j o), (B1 j o); try done. by apply (same_meta_allocated s1 s2).
Qed.

Lemma inode_ok_with_blocks i x k v : inode_ok i x → inode_ok i (with_blocks <[k:=v]> x).
Proof. unfold inode_ok. simpl. by rewrite length_insert. Qed.

(** Block pointers of the files other than [i] are kept. *)
Definition ptrs_kept (i : nat) (s s' : state) : Prop :=
  ∀ j q, allocated s j → pos_ok q → j ≠ i → ptr_at s' j q = ptr_at s j q.

(** ** Attaching a fresh block *)

(** Position [PDir k] or [PInd]. *)
Definition slot_pos (k : nat) (p : pos) : Prop := k < 6 ∧ p = PDir k ∨ k = 7 ∧ p = PInd.

Lemma slot_pos_ok k p : slot_pos k p → pos_ok p.
Proof. intros [[? ->]|[? ->]]; done. Qed.

Lemma ptr_at_slot s i k p : slot_pos k p → ptr_at s i p = dptr s i k.
Proof. intros [[? ->]|[-> ->]]; done. Qed.

Lemma zero_block_entries n : n < 64 → s64 (le_combine (take 8 (drop (8 * n) (zeros 512)))) = 0%Z.
Proof.
  intros Hn. unfold zeros. rewrite drop_replicate, take_replicate, Nat.min_l by lia. reflexivity.
Qed.

Lemma attach_slot s i k p b bm :
  sinv s → allocated s i → slot_pos k p → marks s b bm → dptr s i k = 0%Z →
  let s1 := alloc_blk b bm s in
  let s2 := write_inode i (with_blocks <[k := off_of s b]> (inode_at s1 i)) s1 in
  grown s s2 ∧ ptr_at s2 i p = off_of s b ∧ ptrs_kept i s s2.
Proof.
  intros S Hi Hk Hm Hz s1 s2.
  pose proof (allocated_lt _ _ (si_geom _ S) Hi) as Hil.
  pose proof Hm as (Hb&Hfree&Hbmlen&Hbmok&Hbits).
  assert (Hd : ∀ j q, allocated s j → pos_ok q →
    ptr_at s2 j q = if decide (j = i ∧ q = p) then off_of s b else ptr_at s j q).
  { intros j q Hj Hq. destruct (decide (j = i)) as [->|Hne].
    2: { rewrite decide_False by tauto. unfold s2. rewrite ptr_at_write_inode_other by done.
         by apply ptr_at_alloc_blk. }
    assert (Hdp : ∀ m, dptr s2 i m = if decide (m = k) then off_of s b else dptr s i m).
    { intros m. unfold s2. rewrite dptr_write_inode, decide_True by done. simpl.
      destruct (si_inode _ S i Hi) as (_&HL&_). case_decide as D.
      - subst m. rewrite list_lookup_insert_eq; [done|].
        change (inode_at s1 i) with (inode_at s i). rewrite HL. destruct Hk as [[]|[]]; lia.
      - by rewrite list_lookup_insert_ne by done. }
    destruct Hk as [[Hk ->]|[-> ->]], q as [m| |n]; simpl; rewrite ?Hdp.
    - destruct (decide (m = k)) as [->|]; [by rewrite decide_True|by rewrite decide_False by pos_neq].
    - rewrite !decide_False by pos_neq. done.
    - rewrite (decide_False (P := 7 = k)) by lia. rewrite (decide_False (P := _ ∧ _)) by pos_neq.
      case_decide as D; [done|]. change (ient s2) with (ient s1). change (bidx s2) with (bidx s).
      pose proof (ptr_at_alloc_blk s b bm i (PEnt n) S Hm Hi) as E. simpl in E.
      change (dptr (alloc_blk b bm s) i 7) with (dptr s i 7) in E.
      by rewrite !decide_False in E by done.
    - simpl in Hq. rewrite !decide_False by pos_neq. done.
    - by rewrite !decide_True by done.
    - rewrite (decide_False (P := _ ∧ _)) by pos_neq. rewrite (decide_True (P := 7 = 7)) by done.
      rewrite Hz, (decide_True _ _ eq_refl), decide_False by (apply off_of_nonzero, S).
      change (bidx s2) with (bidx s). rewrite bidx_off. unfold ient.
      change (blk_at s2 b) with (blk_at s1 b). unfold s1, alloc_blk. rewrite blk_at_write by done.
      rewrite decide_True by done. by apply zero_block_entries. }
  assert (Hblk : ∀ c, blk_at s2 c = if decide (c = b) then zeros 512 else blk_at s c).
  { intros c. change (blk_at s2 c) with (blk_at s1 c). unfold s1, alloc_blk. by rewrite blk_at_write. }
  destruct (attach_obs s s2 i p b) as [S2 HB]; auto.
  - apply geom_write_inode, marks_geom; [apply S|done].
  - intros j Hj. unfold s2. rewrite inode_at_write by done.
    case_decide; [subst; by apply inode_ok_with_blocks, (si_inode _ S)|by apply (si_inode _ S)].
  - by eapply slot_pos_ok.
  - by rewrite (ptr_at_slot s i k).
  - rewrite Hblk. by rewrite decide_True.
  - intros c Hc _. rewrite Hblk, decide_False; [done|]. by intros ->.
  - split.
    + split_and!; [done| |done]. eapply same_meta_trans; [apply same_meta_alloc_blk|].
      by apply same_meta_write_inode.
    + split; [rewrite Hd by (done || by eapply slot_pos_ok); by rewrite decide_True|].
      intros j q Hj Hq Hne. rewrite Hd by done. by rewrite decide_False by tauto.
Qed.

(** Entry [n] of the indirect block. *)
Lemma attach_entry s i n b bm :
  sinv s → allocated s i → n < 64 → marks s b bm → dptr s i 7 ≠ 0%Z → ptr_at s i (PEnt n) = 0%Z →
  let s1 := alloc_blk b bm s in
  let ib := bidx s (dptr s i 7) in
  let s2 := write_block ib (splice (8 * n) (le_split 8 (off_of s b)) (blk_at s1 ib)) s1 in
  grown s s2 ∧ ptr_at s2 i (PEnt n) = off_of s b.
Proof.
  intros S Hi Hn Hm Hind Hz s1 ib s2.
  pose proof (marks_geom _ _ _ (si_geom _ S) Hm) as G1. fold s1 in G1.
  pose proof Hm as (Hb&Hfree&Hbmlen&Hbmok&Hbits).
  destruct (ptr_at_ind_block s i S Hi Hind) as (ib'&Hused&Eib&Eb). fold ib in Eb. subst ib'.
  assert (Hibl : ib < length (data s1)).
  { simpl. rewrite length_insert. by apply used_lt; [apply S|]. }
  assert (Hne : ib ≠ b) by (by intros ->).
  assert (Hrange : (- 2 ^ 63 ≤ off_of s b < 2 ^ 63)%Z).
  { pose proof (g_start _ (si_geom _ S)). pose proof (g_end _ (si_geom _ S)). unfold off_of. lia. }
  assert (HL : length (splice (8 * n) (le_split 8 (off_of s b)) (blk_at s1 ib)) = 512).
  { rewrite length_splice; rewrite ?length_le_split', blk_at_length; done || lia. }
  assert (Hblk : ∀ c, c ≠ ib → blk_at s2 c = if decide (c = b) then zeros 512 else blk_at s c).
  { intros c Hc. unfold s2. rewrite blk_at_write, decide_False by done. unfold s1, alloc_blk. by rewrite blk_at_write. }
  assert (Hd : ∀ j q, allocated s j → pos_ok q →
    ptr_at s2 j q = if decide (j = i ∧ q = PEnt n) then off_of s b else ptr_at s j q).
  { intros j q Hj Hq. rewrite <- (ptr_at_alloc_blk s b bm j q) by done. fold s1.
    destruct q as [m| |m]; [by rewrite decide_False by pos_neq..|]. simpl.
    change (dptr s2 j 7) with (dptr s j 7). change (dptr s1 j 7) with (dptr s j 7).
    change (bidx s2) with (bidx s). change (bidx s1) with (bidx s).
    destruct (decide (j = i)) as [->|Hji].
    - rewrite !(decide_False (P := dptr s i 7 = 0%Z)) by done. fold ib.
      unfold s2. rewrite ient_write by done.
      destruct (decide (m = n)) as [->|]; [by rewrite decide_True|by rewrite decide_False by pos_neq].
    - rewrite (decide_False (P := _ ∧ _)) by tauto. case_decide as D; [done|].
      unfold ient, s2. rewrite blk_at_write, decide_False; [done| |done]. intros E.
      destruct (ptr_at_ind_block s j S Hj D) as (c&_&Ec&Ec'). rewrite E in Ec'. subst c.
      destruct (si_inj _ S j PInd i PInd) as [? _]; [done..|simpl; congruence|done]. }
  destruct (attach_obs s s2 i (PEnt n) b) as [S2 HB]; auto.
  - by apply geom_write_block.
  - by apply (si_inode _ S).
  - rewrite Hblk by done. by rewrite decide_True.
  - intros c Hc Hni. rewrite Hblk; [rewrite decide_False; [done|by intros ->]|].
    intros ->. by apply (Hni i).
  - split; [|by rewrite Hd, decide_True]. split_and!; [done| |done].
    eapply same_meta_trans; [apply same_meta_alloc_blk|apply same_meta_write_block].
Qed.

(** * [data_offset] *)

Definition full (s : state) : Prop := ∀ b, b < length (data s) → used s b.

Lemma write_block_id s b : b < length (data s) → write_block b (blk_at s b) s = s.
Proof.
  intros Hb. unfold write_block. rewrite list_insert_id; [by destruct s|by apply lookup_blk_at].
Qed.

Lemma block_ptr_run s i k : sinv s → allocated s i → (0 ≤ k < 8)%Z →
  block_ptr i k s = Some (dptr s i (Z.to_nat k), s).
Proof.
  intros S Hi Hk. unfold block_ptr, mbind, ST_bind, lift.
  rewrite load_inode_run by (by apply allocated_lt; [apply S|]).
  destruct (si_inode _ S i Hi) as (_&HL&_). unfold dptr.
  destruct (lookup_lt_is_Some_2 (ino_blocks (inode_at s i)) (Z.to_nat k)) as [x Hx]; [lia|].
  by rewrite Hx.
Qed.

Lemma set_block_ptr_run s i k x : geom s → allocated s i →
  set_block_ptr i k x s =
    Some ((), write_inode i (with_blocks <[Z.to_nat k := x]> (inode_at s i)) s).
Proof. intros G Hi. unfold set_block_ptr. by rewrite update_inode_run by by apply allocated_lt. Qed.

Lemma alloc_blk_allocated s b bm i : allocated (alloc_blk b bm s) i ↔ allocated s i.
Proof. done. Qed.

Lemma load_off_t_run s b n ptr :
  b < length (data s) → n < 64 → ptr = (off_of s b + 8 * Z.of_nat n)%Z →
  load_off_t ptr s = Some (ient s b n, s).
Proof.
  intros Hb Hn ->. unfold load_off_t, mbind, ST_bind.
  by rewrite (mem_read_run s b (8 * n) 8) by (done || lia).
Qed.

Lemma store_off_t_run s b n ptr x :
  b < length (data s) → n < 64 → ptr = (off_of s b + 8 * Z.of_nat n)%Z →
  store_off_t ptr x s = Some ((), write_block b (splice (8 * n) (le_split 8 x) (blk_at s b)) s).
Proof.
  intros Hb Hn ->. unfold store_off_t. apply mem_write_run; rewrite ?length_le_split'; lia.
Qed.

(** What [data_offset] returns for byte [o] of file [i]: a pointer to it, in
    the block the file now has there, or NULL when the image is full. *)
Definition located (s s' : state) (i o : nat) (r : option Z) : Prop :=
  match r with
  | Some p => o / 512 < 70 ∧ wfs_error s' = wfs_error s ∧ ptr_at s' i (leaf_pos (o / 512)) ≠ 0%Z ∧
      p = (ptr_at s' i (leaf_pos (o / 512)) + Z.of_nat (o mod 512))%Z
  | None => wfs_error s' = (- ENOSPC)%Z ∧ (70 ≤ o / 512 ∨ full s')
  end.

Lemma full_set_error s e : full s → full (set_error e s).
Proof. done. Qed.

Lemma grown_set_error s e : sinv s → grown s (set_error e s).
Proof.
  intros S. split_and!; [|apply same_meta_set_error|intros ???; reflexivity].
  apply (sinv_same s); try done; [by apply geom_set_error, S|by apply si_inode].
Qed.

Lemma quot_rem_nat o :
  Z.quot (Z.of_nat o) BLOCK_SIZE = Z.of_nat (o / 512) ∧ Z.rem (Z.of_nat o) BLOCK_SIZE = Z.of_nat (o mod 512).
Proof.
  unfold BLOCK_SIZE. rewrite Z.quot_div_nonneg, Z.rem_mod_nonneg by lia.
  by rewrite (Nat2Z.inj_div o 512), (Nat2Z.inj_mod o 512).
Qed.

Ltac run_bind := unfold mbind, ST_bind, mret, ST_ret, modify in *.

Lemma wfs_error_alloc_blk s b bm : wfs_error (alloc_blk b bm s) = wfs_error s.
Proof. done. Qed.

Lemma data_offset_direct s i o :
  sinv s → allocated s i → o / 512 < 6 →
  ∃ r s', data_offset (Some i) (Z.of_nat o) true s = Some (r, s') ∧ grown s s' ∧ located s s' i o r.
Proof.
  intros S Hi Hk. destruct (quot_rem_nat o) as [Eq Er].
  unfold located. remember (o / 512) as k eqn:Ek. clear Ek.
  assert (Hslot : slot_pos k (PDir k)) by (left; done).
  assert (Elp : leaf_pos k = PDir k) by (unfold leaf_pos; by rewrite decide_True).
  unfold data_offset. rewrite (proj2 (Z.ltb_ge _ _)) by lia. rewrite Eq, Er. clear Eq Er.
  rewrite (proj2 (Z.leb_gt (D_BLOCK + indir_entries) _)) by disk_lia.
  rewrite (proj2 (Z.ltb_lt (Z.of_nat k) D_BLOCK)) by disk_lia.
  run_bind. rewrite block_ptr_run by (done || lia). rewrite Nat2Z.id.
  destruct (Z.eqb_spec (dptr s i k) 0) as [Hz|Hnz]; simpl.
  - destruct (allocate_data_block_run s) as [[Hfull E]|(b&bm&Hm&_&E)]; [apply S|..]; rewrite E; simpl.
    { exists None, (set_error (- ENOSPC) s). split; [done|]. split; [by apply grown_set_error|]. auto. }
    rewrite (proj2 (Z.eqb_neq _ _)) by (apply off_of_nonzero, S).
    rewrite set_block_ptr_run by (done || by apply marks_geom; [apply S|]). rewrite Nat2Z.id.
    destruct (attach_slot s i k (PDir k) b bm) as (HG&HP&_); try done.
    match type of HG with grown _ ?x => set (s2 := x) in * end.
    assert (allocated s2 i) as Hi2 by done.
    rewrite block_ptr_run by (done || lia || apply HG). rewrite Nat2Z.id.
    rewrite <- (ptr_at_slot s2 i k (PDir k)), HP by done.
    rewrite (proj2 (Z.eqb_neq _ _)) by (apply off_of_nonzero, S).
    eexists (Some _), s2. split; [done|]. split; [done|]. simpl. rewrite Elp, HP.
    split_and!; [lia|done|apply off_of_nonzero, S|done].
  - rewrite block_ptr_run by (done || lia). rewrite Nat2Z.id.
    rewrite (proj2 (Z.eqb_neq _ _)) by done.
    eexists (Some _), s. split; [done|]. split; [by apply grown_refl|]. simpl. rewrite Elp.
    split_and!; [lia|done|done|done].
Qed.

Lemma alloc_blk_zero s b bm : b < length (data s) → blk_at (alloc_blk b bm s) b = zeros 512.
Proof. intros. unfold alloc_blk. by rewrite blk_at_write, decide_True. Qed.

(** The indirect block, allocated on demand. *)
Lemma ensure_indirect s i :
  sinv s → allocated s i →
  ∃ r s1,
    indirect_block i true s = Some (r, s1) ∧ grown s s1 ∧
    match r with
    | Some x => x ≠ 0%Z ∧ dptr s1 i 7 = x ∧ wfs_error s1 = wfs_error s
    | None => wfs_error s1 = (- ENOSPC)%Z ∧ full s1
    end.
Proof.
  intros S Hi. unfold indirect_block. run_bind. rewrite block_ptr_run by (done || disk_lia).
  change (Z.to_nat IND_BLOCK) with 7. destruct (Z.eqb_spec (dptr s i 7) 0) as [Hz|Hnz]; simpl.
  2: { exists (Some (dptr s i 7)), s. split; [done|]. split; [by apply grown_refl|done]. }
  destruct (allocate_data_block_run s) as [[Hfull E]|(b&bm&Hm&_&E)]; [apply S|..]; rewrite E; simpl.
  { exists None, (set_error (- ENOSPC) s). split; [done|]. split; [by apply grown_set_error|done]. }
  rewrite (proj2 (Z.eqb_neq _ _)) by (apply off_of_nonzero, S).
  rewrite set_block_ptr_run by (done || by apply marks_geom; [apply S|]).
  destruct (attach_slot s i 7 PInd b bm) as (HG&HP&_); [try done; by right..|].
  change (Z.to_nat IND_BLOCK) with 7.
  match type of HG with grown _ ?x => set (s2 := x) in * end.
  pose proof Hm as (Hb&_).
  assert (Hb2 : b < length (data s2)) by (simpl; by rewrite length_insert).
  rewrite (memset0_block_run s2 b); [|apply HG|done|done].
  assert (blk_at s2 b = zeros 512) as <- by (by apply (alloc_blk_zero s b bm)).
  rewrite write_block_id by done.
  eexists (Some _), s2. split; [done|]. split; [done|].
  split; [apply off_of_nonzero, S|done].
Qed.

Lemma dptr_ient s i n : dptr s i 7 ≠ 0%Z → ptr_at s i (PEnt n) = ient s (bidx s (dptr s i 7)) n.
Proof. intros. simpl. by rewrite decide_False. Qed.

Lemma data_offset_indirect s i o :
  sinv s → allocated s i → 6 ≤ o / 512 < 70 →
  ∃ r s', data_offset (Some i) (Z.of_nat o) true s = Some (r, s') ∧ grown s s' ∧ located s s' i o r.
Proof.
  intros S Hi Hk. destruct (quot_rem_nat o) as [Eq Er].
  unfold located. remember (o / 512) as k eqn:Ek. clear Ek.
  assert (Elp : leaf_pos k = PEnt (k - 6)) by (unfold leaf_pos; by rewrite decide_False by lia).
  unfold data_offset. rewrite (proj2 (Z.ltb_ge _ _)) by lia. rewrite Eq, Er. clear Eq Er.
  rewrite (proj2 (Z.leb_gt (D_BLOCK + indir_entries) _)) by disk_lia.
  rewrite (proj2 (Z.ltb_ge (Z.of_nat k) D_BLOCK)) by disk_lia.
  destruct (ensure_indirect s i S Hi) as (r&s1&E&G1&Hr). run_bind.
  pose proof G1 as (S1&M1&_).
  rewrite E. clear E.
  destruct r as [x|]; [|exists None, s1; destruct Hr; auto].
  destruct Hr as (Hx&Ex&He). rewrite (proj2 (Z.eqb_neq _ _)) by done.
  assert ((Z.of_nat k - D_BLOCK)%Z = Z.of_nat (k - 6)) as -> by disk_lia.
  remember (k - 6) as n eqn:En. assert (Hn : n < 64) by lia.
  rewrite (proj2 (Z.ltb_ge (Z.of_nat n) 0)) by lia.
  rewrite (proj2 (Z.leb_gt indir_entries _)) by disk_lia. cbn [orb].
  assert (Hi1 : allocated s1 i) by (by apply (same_meta_allocated s s1)).
  destruct (ptr_at_ind_block s1 i S1 Hi1) as (ib&Hib&Eib&Ebi); [by rewrite Ex|].
  pose proof (used_lt _ _ (si_geom _ S1) Hib) as Hibl.
  assert (Hent : ptr_at s1 i (PEnt n) = ient s1 ib n) by (rewrite dptr_ient, Ebi; congruence).
  rewrite Ex in Eib. subst x.
  rewrite (load_off_t_run s1 ib n) by (done || congruence).
  destruct (Z.eqb_spec (ient s1 ib n) 0) as [Hz|Hnz]; simpl.
  - destruct (allocate_data_block_run s1) as [[Hfull E]|(b&bm&Hm&_&E)]; [apply S1|..]; rewrite E; simpl.
    { exists None, (set_error (- ENOSPC) s1). split; [done|]. split; [|auto].
      eapply grown_trans; [done|by apply grown_set_error]. }
    rewrite (proj2 (Z.eqb_neq _ _)) by (apply off_of_nonzero, S1).
    destruct (attach_entry s1 i n b bm) as [HG HP]; try done; [congruence..|].
    rewrite Ebi in HG, HP.
    rewrite (store_off_t_run _ ib n); [|simpl; by rewrite length_insert|done|by rewrite Eib].
    match type of HG with grown _ ?x => set (s2 := x) in * end.
    rewrite (load_off_t_run s2 ib n); [|simpl; by rewrite !length_insert|done|by rewrite Eib].
    assert (E2 : ient s2 ib n = off_of s1 b).
    { rewrite <- HP, dptr_ient by exact Hx. change (bidx s2) with (bidx s1).
      change (dptr s2 i 7) with (dptr s1 i 7). by rewrite Ebi. }
    rewrite E2, (proj2 (Z.eqb_neq _ _)) by (apply off_of_nonzero, S1).
    eexists (Some _), s2. split; [done|]. split; [by eapply grown_trans|]. simpl. rewrite Elp.
    split_and!; [lia|done|rewrite HP; apply off_of_nonzero, S1|by rewrite HP].
  - rewrite (load_off_t_run s1 ib n) by (done || congruence).
    rewrite (proj2 (Z.eqb_neq _ _)) by done.
    eexists (Some _), s1. split; [done|]. split; [done|]. simpl. rewrite Elp, Hent.
    split_and!; [lia|done|done|done].
Qed.

Lemma data_offset_alloc s i o :
  sinv s → allocated s i →
  ∃ r s', data_offset (Some i) (Z.of_nat o) true s = Some (r, s') ∧ grown s s' ∧ located s s' i o r.
Proof.
  intros S Hi. destruct (decide (o / 512 < 6)); [by apply data_offset_direct|].
  destruct (decide (o / 512 < 70)); [apply data_offset_indirect; done || lia|].
  exists None, (set_error (- ENOSPC) s). destruct (quot_rem_nat o) as [Eq _]. unfold data_offset.
  rewrite (proj2 (Z.ltb_ge _ _)) by lia. rewrite Eq.
  rewrite (proj2 (Z.leb_le (D_BLOCK + indir_entries) _)) by disk_lia.
  split; [done|]. split; [by apply grown_set_error|]. split; [done|left; lia].
Qed.

(** Without allocation the image is only read. *)
Lemma data_offset_look s i o :
  sinv s → allocated s i → o / 512 < 70 →
  let p := ptr_at s i (leaf_pos (o / 512)) in
  data_offset (Some i) (Z.of_nat o) false s =
    Some (if (p =? 0)%Z then None else Some (p + Z.of_nat (o mod 512))%Z, s).
Proof.
  intros S Hi Hk. destruct (quot_rem_nat o) as [Eq Er]. unfold data_offset.
  rewrite (proj2 (Z.ltb_ge _ _)) by lia. rewrite Eq, Er. clear Eq Er.
  remember (o / 512) as k eqn:Ek. clear Ek.
  rewrite (proj2 (Z.leb_gt (D_BLOCK + indir_entries) _)) by disk_lia. unfold leaf_pos.
  destruct (decide (k < 6)).
  - rewrite (proj2 (Z.ltb_lt (Z.of_nat k) D_BLOCK)) by disk_lia. run_bind.
    rewrite !block_ptr_run by (done || lia). rewrite Nat2Z.id, andb_false_r.
    rewrite block_ptr_run by (done || lia). rewrite Nat2Z.id. cbn [ptr_at]. by destruct (dptr s i k =? 0)%Z.
  - rewrite (proj2 (Z.ltb_ge (Z.of_nat k) D_BLOCK)) by disk_lia. unfold indirect_block. run_bind.
    rewrite block_ptr_run by (done || disk_lia). change (Z.to_nat IND_BLOCK) with 7. rewrite andb_false_r.
    cbn [ptr_at]. destruct (Z.eqb_spec (dptr s i 7) 0) as [Hz|Hnz]; [by rewrite decide_True|].
    rewrite decide_False by done.
    assert ((Z.of_nat k - D_BLOCK)%Z = Z.of_nat (k - 6)) as -> by disk_lia.
    rewrite (proj2 (Z.ltb_ge (Z.of_nat (k - 6)) 0)) by lia.
    rewrite (proj2 (Z.leb_gt indir_entries _)) by disk_lia. cbn [orb].
    destruct (ptr_at_ind_block s i S Hi Hnz) as (ib&Hib&Eib&->).
    pose proof (used_lt _ _ (si_geom _ S) Hib).
    rewrite (load_off_t_run s ib (k - 6)) by (done || lia). rewrite andb_false_r.
    rewrite (load_off_t_run s ib (k - 6)) by (done || lia).
    by destruct (ient s ib (k - 6) =? 0)%Z.
Qed.

(** * Reading and writing in place *)

Definition bytes_at (s : state) (i o n : nat) : list byte := byte_at s i <$> seq o n.

Lemma length_bytes_at s i o n : length (bytes_at s i o n) = n.
Proof. unfold bytes_at. by rewrite length_fmap, length_seq. Qed.

Lemma lookup_bytes_at s i o n k : k < n → bytes_at s i o n !! k = Some (byte_at s i (o + k)).
Proof. intros. unfold bytes_at. by rewrite list_lookup_fmap, lookup_seq_lt. Qed.

Lemma bytes_at_app s i o n m : bytes_at s i o (n + m) = bytes_at s i o n ++ bytes_at s i (o + n) m.
Proof. unfold bytes_at. by rewrite seq_app, fmap_app. Qed.

Lemma div_mod_in_block o k : o mod 512 + k < 512 → (o + k) / 512 = o / 512 ∧ (o + k) mod 512 = o mod 512 + k.
Proof.
  intros H. pose proof (Nat.div_mod_eq o 512) as E. split.
  - symmetry. apply Nat.div_unique with (o mod 512 + k); lia.
  - symmetry. apply Nat.mod_unique with (o / 512); lia.
Qed.

(** A mapped block of a file. *)
Lemma leaf_block s i n :
  sinv s → allocated s i → n < 70 → ptr_at s i (leaf_pos n) ≠ 0%Z →
  ∃ b, b < length (data s) ∧ ptr_at s i (leaf_pos n) = off_of s b ∧ not_indirect s b ∧ used s b.
Proof.
  intros S Hi Hn Hnz. destruct (si_ptr _ S i (leaf_pos n)) as (b&Hb&E); [done|by apply leaf_pos_ok|done|].
  exists b. split_and!; [by apply used_lt; [apply S|]|done|by eapply leaf_not_indirect|done].
Qed.

Lemma byte_at_mapped s i o b :
  geom s → o / 512 < 70 → ptr_at s i (leaf_pos (o / 512)) = off_of s b →
  byte_at s i o = default NUL (blk_at s b !! (o mod 512)).
Proof.
  intros G Ho E. unfold byte_at. rewrite decide_True, E, decide_False, bidx_off; [done| |done].
  by apply off_of_nonzero.
Qed.

Lemma byte_at_hole s i o : ptr_at s i (leaf_pos (o / 512)) = 0%Z → byte_at s i o = NUL.
Proof. intros E. unfold byte_at. by case_decide; [rewrite E|]. Qed.

Lemma mem_read_leaf s i o n ptr len :
  sinv s → allocated s i → o / 512 < 70 → o mod 512 + n ≤ 512 →
  ptr_at s i (leaf_pos (o / 512)) ≠ 0%Z →
  ptr = (ptr_at s i (leaf_pos (o / 512)) + Z.of_nat (o mod 512))%Z → len = Z.of_nat n →
  mem_read ptr len s = Some (bytes_at s i o n, s).
Proof.
  intros S Hi Ho Hn Hnz -> ->. destruct (leaf_block s i _ S Hi Ho Hnz) as (b&Hb&E&_&_).
  pose proof (Nat.mod_upper_bound o 512).
  rewrite (mem_read_run s b (o mod 512) n) by (done || lia || congruence).
  do 2 f_equal. pose proof (blk_at_length s b (si_geom _ S) Hb) as HL.
  apply list_eq. intros k. destruct (decide (k < n)).
  - rewrite lookup_bytes_at, lookup_take_lt, lookup_drop by done.
    destruct (div_mod_in_block o k) as [Ed Em]; [lia|].
    rewrite (byte_at_mapped s i (o + k) b), Em; [|apply S|by rewrite Ed|by rewrite Ed].
    destruct (lookup_lt_is_Some_2 (blk_at s b) (o mod 512 + k)) as [x Hx]; [lia|]. by rewrite Hx.
  - rewrite !(proj2 (lookup_ge_None _ _)); [done|rewrite length_bytes_at; lia|rewrite length_take; lia].
Qed.

(** [s'] is [s] with [bs] written at byte [o] of file [i]. *)
Definition wrote (s s' : state) (i o : nat) (bs : list byte) : Prop :=
  ∀ j q, allocated s j →
    byte_at s' j q =
      if decide (j = i ∧ o ≤ q < o + length bs) then default NUL (bs !! (q - o)) else byte_at s j q.

Lemma div_mod_same o q n :
  o / 512 = q / 512 → o mod 512 + n ≤ 512 → (o ≤ q < o + n ↔ o mod 512 ≤ q mod 512 < o mod 512 + n).
Proof. intros E H. pose proof (Nat.div_mod_eq o 512). pose proof (Nat.div_mod_eq q 512). lia. Qed.

Lemma div_same_of_range o q n : o mod 512 + n ≤ 512 → o ≤ q < o + n → o / 512 = q / 512.
Proof.
  intros H Hq. replace q with (o + (q - o)) by lia. symmetry. apply div_mod_in_block. lia.
Qed.

Lemma mem_write_leaf s i o bs ptr :
  sinv s → allocated s i → o / 512 < 70 → o mod 512 + length bs ≤ 512 →
  ptr_at s i (leaf_pos (o / 512)) ≠ 0%Z →
  ptr = (ptr_at s i (leaf_pos (o / 512)) + Z.of_nat (o mod 512))%Z →
  ∃ s', mem_write ptr bs s = Some ((), s') ∧ sinv s' ∧ same_meta s s' ∧ wrote s s' i o bs ∧
    wfs_error s' = wfs_error s ∧ (∀ j p, allocated s j → ptr_at s' j p = ptr_at s j p) ∧
    dbm s' = dbm s.
Proof.
  intros S Hi Ho Hn Hnz ->. destruct (leaf_block s i _ S Hi Ho Hnz) as (b&Hb&E&Hni&Hub).
  pose proof (Nat.mod_upper_bound o 512).
  rewrite (mem_write_run s b (o mod 512)) by (done || lia || congruence).
  pose proof (blk_at_length s b (si_geom _ S) Hb) as HL.
  set (s' := write_block _ _ _). exists s'.
  assert (Hptr : ∀ j p, allocated s j → ptr_at s' j p = ptr_at s j p).
  { intros. by apply ptr_at_write_block. }
  assert (G' : geom s') by (apply geom_write_block; [apply S|rewrite length_splice; lia]).
  split_and!; try done.
  - apply (sinv_same s); try done; [by apply si_inode|]. intros; by apply Hptr.
  - intros j q Hj. destruct (decide (q / 512 < 70)) as [Hq|Hq].
    2: { rewrite decide_False by (intros [-> ?%div_same_of_range]; lia).
         unfold byte_at. by rewrite !decide_False. }
    destruct (decide (ptr_at s j (leaf_pos (q / 512)) = 0%Z)) as [Hz|Hnz'].
    { rewrite decide_False by (intros [-> ?%div_same_of_range]; congruence).
      rewrite !byte_at_hole; rewrite ?Hptr; done. }
    destruct (leaf_block s j _ S Hj Hq Hnz') as (c&Hc&Ec&_&_).
    rewrite (byte_at_mapped s' j q c) by (done || by rewrite Hptr).
    rewrite (byte_at_mapped s j q c) by (done || apply S).
    unfold s'. rewrite blk_at_write by done. destruct (decide (c = b)) as [->|Hcb].
    + destruct (si_inj _ S j (leaf_pos (q / 512)) i (leaf_pos (o / 512))) as [-> El];
        [done|done|by apply leaf_pos_ok..|done|congruence|].
      apply leaf_pos_inj in El. rewrite lookup_splice by lia.
      pose proof (div_mod_same o q (length bs) (eq_sym El) Hn) as Hiff.
      destruct (decide (o ≤ q < o + length bs)) as [Hin|Hout].
      * rewrite !decide_True by tauto. do 2 f_equal.
        pose proof (Nat.div_mod_eq o 512). pose proof (Nat.div_mod_eq q 512). lia.
      * by rewrite !decide_False by tauto.
    + rewrite decide_False; [done|]. intros [-> Hr%div_same_of_range]; [|done].
      apply Hcb, (off_of_inj s). congruence.
Qed.
