(* ===== verification/WfsFree.v ===== *)
(** Releasing blocks and inodes: [free_block], [free_blocks], [free_inode] and
    [allocate_inode] under the storage invariant. *)

From stdpp Require Import base option list numbers.
From coqutil Require Import Byte Word.LittleEndianList.
From Stdlib Require Import ZArith Lia.
From S2P Require Import Prelude CString WfsBitmap WfsDisk WfsStore WfsBlocks WfsPath WfsDir WfsOps.

(** [bm] is the data bitmap of [s] with bit [b] cleared. *)
Definition unmarks (s : state) (b : nat) (bm : list Z) : Prop :=
  length bm = length (dbm s) ∧ words_ok bm ∧
  ∀ c, bit bm c = if decide (c = b) then false else bit (dbm s) c.

Lemma free_block_run s b :
  geom s → b < length (data s) →
  ∃ bm, unmarks s b bm ∧ free_block (off_of s b) s = Some ((), alloc_blk b bm s).
Proof.
  intros G Hb. pose proof (g_dbm_small _ G). pose proof (g_dbm _ G). pose proof (g_start _ G).
  assert (Er : (off_of s b - d_blocks_ptr (sb s))%Z = (Z.of_nat b * 512)%Z) by (unfold off_of; lia).
  assert (Eu : u32 (Z.of_nat b) = Z.of_nat b) by (apply u32_id; lia).
  destruct (free_bitmap_spec (dbm s) b) as (bm&E&Hbm); [lia|apply G|].
  exists bm. split; [done|].
  unfold free_block. run_bind. unfold get. rewrite Er.
  rewrite (proj2 (Z.ltb_ge _ _)) by (unfold off_of; lia).
  rewrite (proj2 (Z.ltb_ge _ 0)) by lia. unfold BLOCK_SIZE at 1 2 3.
  rewrite Z.rem_mul by lia. rewrite Z.eqb_refl. cbn [orb negb]. rewrite !Z.quot_mul, Eu by lia.
  rewrite (g_data _ G), (proj2 (Z.leb_gt _ _)) by lia. unfold lift. rewrite E. simpl.
  rewrite (memset0_block_run _ b); [done| |done|done]. apply geom_set_dbm; [done|apply Hbm..].
Qed.

(** [s'] keeps every file but [i]; of [i] only block pointers may change. *)
Definition shrunk (i : nat) (s s' : state) : Prop :=
  sinv s' ∧ same_meta s s' ∧ ∀ j o, allocated s j → j ≠ i → byte_at s' j o = byte_at s j o.

Lemma shrunk_refl i s : sinv s → shrunk i s s.
Proof. intros. split; [done|]. split; [apply same_meta_refl|done]. Qed.

Lemma shrunk_trans i s1 s2 s3 : shrunk i s1 s2 → shrunk i s2 s3 → shrunk i s1 s3.
Proof.
  intros (?&M1&B1) (?&M2&B2). split; [done|]. split; [by eapply same_meta_trans|].
  intros j o Hj Hne. rewrite (B2 j o), (B1 j o); try done. by apply (same_meta_allocated s1 s2).
Qed.

Lemma detach_obs s s' i p b :
  sinv s → geom s' → same_meta s s' →
  (∀ c, bit (dbm s') c = if decide (c = b) then false else bit (dbm s) c) →
  (∀ j, allocated s j → inode_ok j (inode_at s' j)) →
  allocated s i → pos_ok p → ptr_at s i p = off_of s b →
  (∀ j q, allocated s j → pos_ok q →
     ptr_at s' j q = if decide (j = i ∧ q = p) then 0%Z else ptr_at s j q) →
  (∀ c, used s c → c ≠ b → not_indirect s c → blk_at s' c = blk_at s c) →
  shrunk i s s'.
Proof.
  intros S G M Eu Hino Hi Hp Hb Hptr Hold.
  split; [|split; [done|]].
  { eapply sinv_detach; try done; [apply M|]. intros j. by apply same_meta_allocated. }
  intros j o Hj Hne. unfold byte_at. destruct (decide (o / 512 < 70)) as [Hn|]; [|done]. simpl.
  pose proof (leaf_pos_ok _ Hn) as Hq. rewrite Hptr by done. rewrite (decide_False (P := j = i ∧ _)) by tauto.
  case_decide as D; [done|]. assert (∀ x, bidx s' x = bidx s x) as -> by (intros; unfold bidx; by rewrite (sm_sb _ _ M)).
  destruct (si_ptr _ S j _ Hj Hq D) as (c&Hc&E). rewrite E, bidx_off, Hold; [done|done| |].
  - intros ->. destruct (si_inj _ S j (leaf_pos (o / 512)) i p) as [? _]; try done. congruence.
  - by eapply leaf_not_indirect.
Qed.

(** Freeing a direct block, or the indirect block once its entries are clear. *)
Lemma detach_slot s i k p b bm :
  sinv s → allocated s i → slot_pos k p → ptr_at s i p = off_of s b →
  (p = PInd → ∀ n, n < 64 → ptr_at s i (PEnt n) = 0%Z) → unmarks s b bm →
  let s2 := write_inode i (with_blocks <[k := 0%Z]> (inode_at s i)) (alloc_blk b bm s) in
  shrunk i s s2 ∧ ∀ q, pos_ok q → ptr_at s2 i q = if decide (q = p) then 0%Z else ptr_at s i q.
Proof.
  intros S Hi Hk Eb Hent Hum s2. pose proof (slot_pos_ok _ _ Hk) as Hp.
  pose proof (allocated_lt _ _ (si_geom _ S) Hi) as Hil.
  pose proof Hum as (Hbmlen&Hbmok&Hbits).
  assert (Hnz : ptr_at s i p ≠ 0%Z) by (rewrite Eb; apply off_of_nonzero, S).
  destruct (si_ptr _ S i p Hi Hp Hnz) as (b'&Hb'&E). rewrite Eb in E. apply off_of_inj in E as <-.
  pose proof (used_lt _ _ (si_geom _ S) Hb') as Hb.
  assert (Hother : ∀ j, allocated s j → dptr s j 7 ≠ 0%Z → (j, PInd) ≠ (i, p) →
    blk_at s2 (bidx s (dptr s j 7)) = blk_at s (bidx s (dptr s j 7))).
  { intros j Hj Hd Hne. destruct (ptr_at_ind_block s j S Hj Hd) as (c&_&Ec&->).
    change (blk_at s2 c) with (blk_at (write_block b (zeros 512) s) c).
    rewrite blk_at_write, decide_False; [done| |done]. intros ->.
    destruct (si_inj _ S j PInd i p) as [? ?]; try done; [simpl|]; congruence. }
  assert (Hd : ∀ j q, allocated s j → pos_ok q →
    ptr_at s2 j q = if decide (j = i ∧ q = p) then 0%Z else ptr_at s j q).
  { intros j q Hj Hq. destruct (decide (j = i)) as [->|Hne].
    2: { rewrite decide_False by tauto. unfold s2. rewrite ptr_at_write_inode_other by done.
         destruct q as [| |n]; [done..|]. simpl. change (dptr (alloc_blk b bm s) j 7) with (dptr s j 7).
         case_decide; [done|]. unfold ient. change (bidx (alloc_blk b bm s)) with (bidx s).
         change (blk_at (alloc_blk b bm s)) with (blk_at s2). rewrite Hother by (done || congruence). done. }
    assert (Hdp : ∀ m, dptr s2 i m = if decide (m = k) then 0%Z else dptr s i m).
    { intros m. unfold s2. rewrite dptr_write_inode, decide_True by done. simpl.
      destruct (si_inode _ S i Hi) as (_&HL&_). case_decide as D.
      - subst m. rewrite list_lookup_insert_eq; [done|]. destruct Hk as [[]|[]]; lia.
      - by rewrite list_lookup_insert_ne by done. }
    destruct Hk as [[Hk ->]|[-> ->]], q as [m| |n]; simpl; rewrite ?Hdp.
    - destruct (decide (m = k)) as [->|]; [by rewrite decide_True|by rewrite decide_False by pos_neq].
    - rewrite !decide_False by pos_neq. done.
    - rewrite (decide_False (P := 7 = k)) by lia. rewrite (decide_False (P := _ ∧ _)) by pos_neq.
      case_decide as D; [done|]. change (bidx s2) with (bidx s). unfold ient.
      by rewrite Hother by (done || congruence).
    - simpl in Hq. rewrite !decide_False by pos_neq. done.
    - by rewrite !decide_True by done.
    - rewrite (decide_False (P := _ ∧ _)) by pos_neq. rewrite (decide_True (P := 7 = 7)) by done.
      rewrite (decide_True _ _ eq_refl). symmetry. by apply Hent. }
  split.
  - eapply detach_obs with (p := p) (b := b); try done.
    + apply geom_write_inode, geom_write_block; [|apply length_zeros]. apply geom_set_dbm; [apply S|done..].
    + eapply same_meta_trans; [apply same_meta_alloc_blk|]. by apply same_meta_write_inode.
    + intros j Hj. unfold s2. rewrite inode_at_write by done.
      case_decide; [subst; by apply inode_ok_with_blocks, (si_inode _ S)|by apply (si_inode _ S)].
    + intros c Hc Hcb _. change (blk_at s2 c) with (blk_at (write_block b (zeros 512) s) c).
      by rewrite blk_at_write, decide_False.
  - intros q Hq. rewrite Hd by done. destruct (decide (q = p)); [by rewrite decide_True|].
    by rewrite decide_False by tauto.
Qed.

(** Freeing the block of entry [n] of the indirect block [ib]. *)
Lemma detach_entry s i n b bm ib :
  sinv s → allocated s i → n < 64 → ptr_at s i (PEnt n) = off_of s b → unmarks s b bm →
  dptr s i 7 = off_of s ib → ib < length (data s) →
  let s1 := alloc_blk b bm s in
  let s2 := write_block ib (splice (8 * n) (le_split 8 0) (blk_at s1 ib)) s1 in
  shrunk i s s2 ∧ ∀ q, pos_ok q → ptr_at s2 i q = if decide (q = PEnt n) then 0%Z else ptr_at s i q.
Proof.
  intros S Hi Hn Eb Hum Eib Hibl s1 s2. pose proof Hum as (Hbmlen&Hbmok&Hbits).
  assert (Hnz : ptr_at s i (PEnt n) ≠ 0%Z) by (rewrite Eb; apply off_of_nonzero, S).
  destruct (si_ptr _ S i (PEnt n) Hi Hn Hnz) as (b'&Hb'&E). rewrite Eb in E. apply off_of_inj in E as <-.
  pose proof (used_lt _ _ (si_geom _ S) Hb') as Hb.
  assert (Hni : not_indirect s b).
  { intros j Hj Ej. destruct (si_inj _ S i (PEnt n) j PInd) as [_ ?]; try done. rewrite Eb. symmetry. exact Ej. }
  assert (Hptr1 : ∀ j q, allocated s j → ptr_at s1 j q = ptr_at s j q).
  { intros j q Hj. by apply (ptr_at_write_block s b (zeros 512)). }
  assert (G1 : geom s1).
  { apply geom_write_block; [|apply length_zeros]. apply geom_set_dbm; [apply S|done..]. }
  assert (Hibl1 : ib < length (data s1)) by (simpl; by rewrite length_insert).
  assert (HL : length (splice (8 * n) (le_split 8 0) (blk_at s1 ib)) = 512).
  { rewrite length_splice; rewrite ?length_le_split', blk_at_length; done || lia. }
  assert (Hd : ∀ j q, allocated s j → pos_ok q →
    ptr_at s2 j q = if decide (j = i ∧ q = PEnt n) then 0%Z else ptr_at s j q).
  { intros j q Hj Hq. rewrite <- Hptr1 by done.
    destruct q as [m| |m]; [by rewrite decide_False by pos_neq..|]. simpl.
    change (dptr s2 j 7) with (dptr s j 7). change (dptr s1 j 7) with (dptr s j 7).
    change (bidx s2) with (bidx s). change (bidx s1) with (bidx s).
    destruct (decide (j = i)) as [->|Hji].
    - rewrite Eib, !(decide_False (P := off_of s ib = 0%Z)) by (apply off_of_nonzero, S). rewrite bidx_off.
      unfold s2. rewrite ient_write by (done || lia).
      destruct (decide (m = n)) as [->|]; [by rewrite decide_True|by rewrite decide_False by pos_neq].
    - rewrite (decide_False (P := _ ∧ _)) by tauto. case_decide as D; [done|].
      unfold ient, s2. rewrite blk_at_write, decide_False; [done| |done]. intros E.
      destruct (ptr_at_ind_block s j S Hj D) as (c&_&Ec&Ec'). rewrite E in Ec'. subst c.
      destruct (si_inj _ S j PInd i PInd) as [? _]; [done..|simpl; congruence|done]. }
  split.
  - eapply detach_obs with (p := PEnt n) (b := b); try done.
    + by apply geom_write_block.
    + by apply (si_inode _ S).
    + intros c Hc Hcb Hnc. unfold s2. rewrite blk_at_write, decide_False; [|intros ->; by apply (Hnc i)|done].
      change (blk_at s1 c) with (blk_at (write_block b (zeros 512) s) c). by rewrite blk_at_write, decide_False.
  - intros q Hq. rewrite Hd by done. destruct (decide (q = PEnt n)); [by rewrite decide_True|].
    by rewrite decide_False by tauto.
Qed.

(** ** The freeing loops *)

(** [s'] frees blocks of file [i], those at the positions [P] among them. *)
Definition cleared (P : pos → Prop) (i : nat) (s s' : state) : Prop :=
  shrunk i s s' ∧ ∀ q, pos_ok q → P q ∨ ptr_at s i q = 0%Z → ptr_at s' i q = 0%Z.

Lemma cleared_trans (P Q R : pos → Prop) i s1 s2 s3 :
  cleared P i s1 s2 → cleared Q i s2 s3 → (∀ q, pos_ok q → R q → P q ∨ Q q) → cleared R i s1 s3.
Proof.
  intros [H1 C1] [H2 C2] HR. split; [by eapply shrunk_trans|].
  intros q Hq Hz. apply C2; [done|]. destruct (decide (ptr_at s2 i q = 0%Z)) as [|Hn]; [by right|].
  destruct Hz as [Hr|Hz]; [|destruct Hn; auto]. destruct (HR _ Hq Hr) as [Hp|]; [destruct Hn; auto|by left].
Qed.

Lemma cleared_refl P i s :
  sinv s → (∀ q, pos_ok q → P q → ptr_at s i q = 0%Z) → cleared P i s s.
Proof. intros S HP. split; [by apply shrunk_refl|]. intros q Hq [|]; auto. Qed.

Lemma clear_direct s i k :
  sinv s → allocated s i → k < 6 →
  ∃ s', (if (dptr s i k =? 0)%Z then mret ()
         else free_block (dptr s i k);; set_block_ptr i (Z.of_nat k) 0) s = Some ((), s') ∧
    cleared (.= PDir k) i s s'.
Proof.
  intros S Hi Hk. destruct (Z.eqb_spec (dptr s i k) 0) as [Hz|Hnz].
  { exists s. split; [done|]. apply cleared_refl; [done|]. by intros q _ ->. }
  destruct (si_ptr _ S i (PDir k)) as (b&Hb&E); [done..|]. simpl in E. rewrite E.
  destruct (free_block_run s b) as (bm&Hum&Ef); [apply S|by apply used_lt; [apply S|]|].
  destruct (detach_slot s i k (PDir k) b bm) as [Hs Hp]; try done; [by left|].
  rewrite (bind_run _ _ _ _ _ Ef). unfold set_block_ptr.
  rewrite update_inode_run, Nat2Z.id by exact (allocated_lt s i (si_geom _ S) Hi).
  eexists. split; [done|]. split; [exact Hs|].
  intros q Hq Hz. rewrite Hp by done. case_decide; [done|]. by destruct Hz.
Qed.

Lemma shrunk_allocated i s s' j : shrunk i s s' → allocated s' j ↔ allocated s j.
Proof. intros (_&?&_). by apply same_meta_allocated. Qed.

Lemma cleared_allocated P i s s' j : cleared P i s s' → allocated s j → allocated s' j.
Proof. intros [? _]. by apply (shrunk_allocated i). Qed.

Lemma free_direct_run i n : ∀ k s,
  sinv s → allocated s i → k + n = 6 →
  ∃ s', free_direct i n (Z.of_nat k) s = Some ((), s') ∧
    cleared (λ q, ∃ m, k ≤ m < 6 ∧ q = PDir m) i s s'.
Proof.
  induction n as [|n IH]; intros k s S Hi Hk; cbn [free_direct].
  { exists s. split; [done|]. apply cleared_refl; [done|]. intros q _ (?&?&?). lia. }
  destruct (clear_direct s i k) as (s1&E1&C1); [done|done|lia|].
  rewrite (bind_run _ _ _ _ _ (block_ptr_run s i (Z.of_nat k) S Hi ltac:(lia))), Nat2Z.id, (bind_run _ _ _ _ _ E1).
  destruct (IH (k + 1) s1) as (s2&E2&C2); [apply C1|by apply (cleared_allocated _ _ _ _ _ C1)|lia|].
  replace (Z.of_nat k + 1)%Z with (Z.of_nat (k + 1)) by lia. exists s2. split; [done|].
  eapply cleared_trans; [done..|]. intros q _ (m&Hm&->).
  destruct (decide (m = k)) as [->|]; [by left|right]. exists m. split; [lia|done].
Qed.

Lemma clear_entry s i n ib :
  sinv s → allocated s i → n < 64 → dptr s i 7 = off_of s ib → ib < length (data s) →
  ∃ s', (if (ient s ib n =? 0)%Z then mret ()
         else free_block (ient s ib n);; store_off_t (off_of s ib + 8 * Z.of_nat n) 0) s = Some ((), s') ∧
    cleared (.= PEnt n) i s s' ∧ dptr s' i 7 = dptr s i 7 ∧ length (data s') = length (data s).
Proof.
  intros S Hi Hn Eib Hibl.
  assert (Ee : ptr_at s i (PEnt n) = ient s ib n).
  { rewrite dptr_ient, Eib, bidx_off; [done|]. rewrite Eib. apply off_of_nonzero, S. }
  destruct (Z.eqb_spec (ient s ib n) 0) as [Hz|Hnz].
  { exists s. split; [done|]. split; [|done]. apply cleared_refl; [done|]. intros q _ ->. congruence. }
  rewrite <- Ee in Hnz. destruct (si_ptr _ S i (PEnt n)) as (b&Hb&E); [done..|]. rewrite <- Ee, E.
  destruct (free_block_run s b) as (bm&Hum&Ef); [apply S|by apply used_lt; [apply S|]|].
  destruct (detach_entry s i n b bm ib) as [Hs Hp]; try done.
  rewrite (bind_run _ _ _ _ _ Ef).
  rewrite (store_off_t_run _ ib n); [|simpl; by rewrite length_insert|done|done].
  eexists. split; [done|]. split; [|split; [done|simpl; by rewrite !length_insert]]. split; [exact Hs|].
  intros q Hq Hz. rewrite Hp by done. case_decide; [done|]. by destruct Hz.
Qed.

Lemma free_indirect_run i ib n : ∀ k s,
  sinv s → allocated s i → k + n = 64 → dptr s i 7 = off_of s ib → ib < length (data s) →
  ∃ s', free_indirect (off_of s ib) n (Z.of_nat k) s = Some ((), s') ∧
    cleared (λ q, ∃ m, k ≤ m < 64 ∧ q = PEnt m) i s s' ∧ dptr s' i 7 = dptr s i 7 ∧
    length (data s') = length (data s).
Proof.
  induction n as [|n IH]; intros k s S Hi Hk Eib Hib; cbn [free_indirect].
  { exists s. split; [done|]. split; [|done]. apply cleared_refl; [done|]. intros q _ (?&?&?). lia. }
  destruct (clear_entry s i k ib) as (s1&E1&C1&D1&L1); [done|done|lia|done|done|].
  rewrite (bind_run _ _ _ _ _ (load_off_t_run s ib k _ Hib ltac:(lia) eq_refl)), (bind_run _ _ _ _ _ E1).
  assert (Eo : off_of s ib = off_of s1 ib).
  { symmetry. apply off_of_same. apply C1. }
  destruct (IH (k + 1) s1) as (s2&E2&C2&D2&L2);
    [apply C1|by apply (cleared_allocated _ _ _ _ _ C1)|lia|congruence|congruence|].
  replace (Z.of_nat k + 1)%Z with (Z.of_nat (k + 1)) by lia. rewrite Eo. exists s2. split; [done|].
  split; [|split; congruence].
  eapply cleared_trans; [done..|]. intros q _ (m&Hm&->).
  destruct (decide (m = k)) as [->|]; [by left|right]. exists m. split; [lia|done].
Qed.

(** [free_blocks] releases every block of the file and no other. *)
Lemma free_blocks_run s i :
  sinv s → allocated s i →
  ∃ s', free_blocks i s = Some ((), s') ∧ cleared (λ _, True) i s s'.
Proof.
  intros S Hi. unfold free_blocks.
  destruct (free_direct_run i 6 0 s) as (s1&E1&C1); [done..|].
  rewrite (bind_run _ _ _ _ _ E1).
  assert (S1 : sinv s1) by apply C1.
  assert (Hi1 : allocated s1 i) by (by apply (cleared_allocated _ _ _ _ _ C1)).
  rewrite (bind_run _ _ _ _ _ (block_ptr_run s1 i IND_BLOCK S1 Hi1 ltac:(disk_lia))).
  change (Z.to_nat IND_BLOCK) with 7.
  destruct (Z.eqb_spec (dptr s1 i 7) 0) as [Hz|Hnz].
  { exists s1. split; [done|].
    apply (cleared_trans _ (λ q, ∀ k, q ≠ PDir k) _ _ _ _ _ C1).
    - apply cleared_refl; [done|]. intros [k| |n] _ Hq; [by destruct (Hq k)|done|]. simpl. by rewrite decide_True.
    - intros [k| |n] Hk _; [left; exists k; split; [simpl in Hk; lia|done]|right; by intros..]. }
  destruct (ptr_at_ind_block s1 i S1 Hi1 Hnz) as (ib&Hib&Eib&_). rewrite Eib.
  pose proof (used_lt _ _ (si_geom _ S1) Hib) as Hibl.
  destruct (free_indirect_run i ib 64 0 s1) as (s2&E2&C2&D2&L2); [done..|].
  rewrite (bind_run _ _ _ _ _ E2).
  assert (S2 : sinv s2) by apply C2.
  assert (Hi2 : allocated s2 i) by (by apply (cleared_allocated _ _ _ _ _ C2)).
  rewrite (bind_run _ _ _ _ _ (block_ptr_run s2 i IND_BLOCK S2 Hi2 ltac:(disk_lia))).
  change (Z.to_nat IND_BLOCK) with 7. rewrite D2, Eib.
  assert (Eo : off_of s1 ib = off_of s2 ib) by (symmetry; apply off_of_same, C2). rewrite Eo.
  destruct (free_block_run s2 ib) as (bm&Hum&Ef); [apply S2|congruence|].
  rewrite (bind_run _ _ _ _ _ Ef). unfold set_block_ptr.
  rewrite update_inode_run by exact (allocated_lt s2 i (si_geom _ S2) Hi2).
  change (Z.to_nat IND_BLOCK) with 7.
  destruct (detach_slot s2 i 7 PInd ib bm) as [H3 P3]; try done; [by right|simpl; congruence| |].
  { intros _ n Hn. apply C2; [done|]. left. exists n. split; [lia|done]. }
  eexists. split; [done|]. eapply cleared_trans; [exact C1| |].
  - apply (cleared_trans _ (.= PInd) (λ q, ∀ k, q ≠ PDir k) _ _ _ _ C2).
    + split; [exact H3|]. intros q Hq Hz. rewrite P3 by done. case_decide; [done|]. by destruct Hz.
    + intros [k| |n] Hk Hq; [by destruct (Hq k)|by right|left; exists n; split; [simpl in Hk; lia|done]].
  - intros [k| |n] Hk _; [left; exists k; split; [simpl in Hk; lia|done]|right; by intros..].
Qed.
