(* ===== verification/WfsFrame.v ===== *)
(** Framing: which files a step of WFS may change.

    [frame X s s'] says that the step from [s] to [s'] keeps the storage
    invariant and every file outside [X]: its allocation, its bytes and its
    inode up to timestamps and block pointers.  Every routine below the FUSE
    operations is a frame with the facts it establishes about the files in
    [X]; operations compose them. *)

From stdpp Require Import base option list numbers.
From coqutil Require Import Byte Word.LittleEndianList.
From Stdlib Require Import ZArith Lia.
From S2P Require Import Prelude CString WfsBitmap WfsDisk WfsStore WfsBlocks WfsPath WfsDir WfsOps WfsFree.

(** The inode without block pointers and timestamps. *)
Definition core (x : wfs_inode) : wfs_inode := with_times 0 0 0 (meta x).

Definition same_file (s s' : state) (j : nat) : Prop :=
  core (inode_at s' j) = core (inode_at s j) ∧ ∀ o, byte_at s' j o = byte_at s j o.

Record frame (X : nat → Prop) (s s' : state) : Prop := {
  fr_sinv : sinv s';
  fr_sb : sb s' = sb s;
  fr_env : env s' = env s;
  fr_alloc : ∀ j, ¬ X j → allocated s' j ↔ allocated s j;
  fr_file : ∀ j, ¬ X j → allocated s j → same_file s s' j;
}.

Abbreviation none := (λ _ : nat, False).

Lemma frame_refl X s : sinv s → frame X s s.
Proof. intros. by constructor. Qed.

Lemma frame_trans X s1 s2 s3 : frame X s1 s2 → frame X s2 s3 → frame X s1 s3.
Proof.
  intros F1 F2. constructor.
  - apply F2.
  - rewrite (fr_sb _ _ _ F2). apply F1.
  - rewrite (fr_env _ _ _ F2). apply F1.
  - intros j Hj. rewrite (fr_alloc _ _ _ F2) by done. by apply F1.
  - intros j Hj Ha. destruct (fr_file _ _ _ F1 j Hj Ha) as [C1 B1].
    destruct (fr_file _ _ _ F2 j Hj) as [C2 B2]; [by apply F1|].
    split; [congruence|]. intros o. by rewrite B2, B1.
Qed.

Lemma frame_mono (X Y : nat → Prop) s s' : (∀ j, X j → Y j) → frame X s s' → frame Y s s'.
Proof. intros HXY []. constructor; auto. Qed.

Lemma frame_none X s s' : frame none s s' → frame X s s'.
Proof. by apply frame_mono. Qed.

Lemma frame_none_alloc s s' j : frame none s s' → allocated s j → allocated s' j.
Proof. intros F. apply (fr_alloc _ _ _ F). tauto. Qed.
Lemma frame_none_file s s' j : frame none s s' → allocated s j → same_file s s' j.
Proof. intros F. apply (fr_file _ _ _ F). tauto. Qed.

Lemma core_mode x y : core x = core y → ino_mode x = ino_mode y.
Proof. intros E. exact (f_equal ino_mode E). Qed.
Lemma core_size x y : core x = core y → ino_size x = ino_size y.
Proof. intros E. exact (f_equal ino_size E). Qed.
Lemma core_nlinks x y : core x = core y → ino_nlinks x = ino_nlinks y.
Proof. intros E. exact (f_equal ino_nlinks E). Qed.
Lemma core_num x y : core x = core y → ino_num x = ino_num y.
Proof. intros E. exact (f_equal ino_num E). Qed.
Lemma core_color x y : core x = core y → ino_color x = ino_color y.
Proof. intros E. exact (f_equal ino_color E). Qed.
Lemma core_of_meta x y : meta x = meta y → core x = core y.
Proof. unfold core. by intros ->. Qed.

Lemma same_meta_core s s' j : same_meta s s' → core (inode_at s' j) = core (inode_at s j).
Proof. intros M. apply core_of_meta, M. Qed.

Lemma frame_grown X s s' : grown s s' → frame X s s'.
Proof.
  intros (S&M&B). constructor; [done|apply M..| |].
  - intros. by apply same_meta_allocated.
  - intros j _ Ha. split; [by apply same_meta_core|]. intros o. by apply B.
Qed.

Lemma frame_shrunk i s s' : shrunk i s s' → frame (.= i) s s'.
Proof.
  intros (S&M&B). constructor; [done|apply M..| |].
  - intros. by apply same_meta_allocated.
  - intros j Hj Ha. split; [by apply same_meta_core|]. intros o. by apply B.
Qed.

(** ** Updating an inode *)

(** [f] keeps the inode number and the block pointers, and a valid size. *)
Definition keeps_blocks (f : wfs_inode → wfs_inode) (x : wfs_inode) : Prop :=
  ino_num (f x) = ino_num x ∧ ino_blocks (f x) = ino_blocks x ∧ (0 ≤ ino_size (f x) < 2 ^ 63)%Z.

Lemma sinv_set_calls s n : sinv s → sinv (set_calls n s).
Proof. intros S. apply (sinv_same s); try done; [by apply geom_set_calls, S|by apply si_inode]. Qed.

Lemma byte_at_ptrs s s' j o :
  (∀ p, ptr_at s' j p = ptr_at s j p) → (∀ x, blk_at s' (bidx s' x) = blk_at s (bidx s x)) →
  byte_at s' j o = byte_at s j o.
Proof. intros Hp Hb. unfold byte_at. rewrite Hp. case_decide; [|done]. simpl. by rewrite Hb. Qed.

Lemma write_inode_frame s i x :
  sinv s → allocated s i → ino_num x = Z.of_nat i → ino_blocks x = ino_blocks (inode_at s i) →
  (0 ≤ ino_size x < 2 ^ 63)%Z →
  frame (.= i) s (write_inode i x s) ∧ (∀ o, byte_at (write_inode i x s) i o = byte_at s i o).
Proof.
  intros S Hi En Eb Hsz. pose proof (allocated_lt _ _ (si_geom _ S) Hi) as Hil.
  assert (Hp : ∀ j p, ptr_at (write_inode i x s) j p = ptr_at s j p) by (intros; by apply ptr_at_write_inode_same).
  assert (Hby : ∀ j o, byte_at (write_inode i x s) j o = byte_at s j o) by (intros; by apply byte_at_ptrs).
  split; [|done]. constructor; try done.
  - apply (sinv_same s); try done; [by apply geom_write_inode, S|].
    intros j Hj. rewrite inode_at_write by done. case_decide; [|by apply si_inode].
    subst j. split; [done|]. rewrite Eb. split; [apply (si_inode _ S i Hi)|done].
  - intros j Hj Ha. split; [|done]. rewrite inode_at_write by done. by rewrite decide_False.
Qed.

(** [update_inode] with such an [f]. *)
Lemma update_meta_run s i f :
  sinv s → allocated s i → keeps_blocks f (inode_at s i) →
  ∃ s', update_inode i f s = Some ((), s') ∧ frame (.= i) s s' ∧ allocated s' i ∧
    inode_at s' i = f (inode_at s i) ∧ (∀ o, byte_at s' i o = byte_at s i o) ∧
    wfs_error s' = wfs_error s ∧ (∀ j p, ptr_at s' j p = ptr_at s j p).
Proof.
  intros S Hi (En&Eb&Hsz). pose proof (allocated_lt _ _ (si_geom _ S) Hi) as Hil.
  eexists. split; [by apply update_inode_run|].
  destruct (write_inode_frame s i (f (inode_at s i))) as [F B]; try done.
  { rewrite En. by apply (si_inode _ S). }
  split; [exact F|]. split_and!; try done; [by rewrite inode_at_write, decide_True|].
  intros j p. by apply ptr_at_write_inode_same.
Qed.

Lemma frame_within i s s' :
  frame (.= i) s s' → (allocated s' i ↔ allocated s i) → (allocated s i → same_file s s' i) → frame none s s'.
Proof.
  intros [] Ha Hf. constructor; try done.
  - intros j _. destruct (decide (j = i)) as [->|]; [done|by apply fr_alloc0].
  - intros j _ Hj. destruct (decide (j = i)) as [->|]; [by apply Hf|by apply fr_file0].
Qed.

Lemma touch_run s i a m c :
  sinv s → allocated s i →
  ∃ s', wfs_update_times (Some i) a m c s = Some ((), s') ∧ frame none s s' ∧ wfs_error s' = wfs_error s ∧
    (∀ j p, ptr_at s' j p = ptr_at s j p).
Proof.
  intros HS Hi. cbn [wfs_update_times]. rewrite (bind_run _ _ _ (env_time (env s) (calls s)) (set_calls (S (calls s)) s)) by done.
  set (s1 := set_calls _ s). assert (S1 : sinv s1) by (by apply sinv_set_calls).
  assert (Hi1 : allocated s1 i) by done.
  set (f := λ x : wfs_inode, _). destruct (update_meta_run s1 i f) as (s2&E&F&Ha&Ei&Hb&He&Hp); [done..| |].
  { split_and!; try done; apply (si_inode _ S1 i Hi1). }
  exists s2. split; [done|]. split; [|split; [done|]].
  - apply (frame_within i); [|done|].
    + destruct F. by constructor.
    + intros _. split; [|done]. by rewrite Ei.
  - intros j p. by rewrite Hp.
Qed.

(** Extending the size of a file. *)
Lemma extend_run s i new_end :
  sinv s → allocated s i → (0 ≤ new_end < 2 ^ 63)%Z →
  ∃ s', (if (ino_size (inode_at s i) <? new_end)%Z then update_inode i (with_size new_end) else mret ()) s =
      Some ((), s') ∧
    frame (.= i) s s' ∧ allocated s' i ∧ (∀ o, byte_at s' i o = byte_at s i o) ∧
    core (inode_at s' i) = core (with_size (Z.max (ino_size (inode_at s i)) new_end) (inode_at s i)).
Proof.
  intros HS Hi Hn. destruct (Z.ltb_spec (ino_size (inode_at s i)) new_end).
  - destruct (update_meta_run s i (with_size new_end)) as (s1&E&F&Ha&Ei&B&_); [done..|].
    exists s1. split_and!; try done. rewrite Ei, Z.max_r by lia. done.
  - exists s. split; [done|]. split; [by apply frame_refl|]. split_and!; try done.
    rewrite Z.max_l by lia. by destruct (inode_at s i).
Qed.

(** ** Releasing and allocating an inode *)

Lemma free_inode_run s i :
  sinv s → allocated s i → (∀ q, pos_ok q → ptr_at s i q = 0%Z) →
  ∃ s', free_inode (Some i) s = Some ((), s') ∧ frame (.= i) s s' ∧ ¬ allocated s' i ∧ dbm s' = dbm s.
Proof.
  intros S Hi Hz. pose proof (si_geom _ S) as G. pose proof (allocated_lt _ _ G Hi) as Hil.
  destruct (si_inode _ S i Hi) as (En&_&_). pose proof (g_ibm_small _ G). pose proof (g_ibm _ G).
  destruct (free_bitmap_spec (ibm s) i) as (bm&E&HL&Hok&Hbits); [lia|apply G|].
  cbn [free_inode]. rewrite (bind_run _ _ _ _ _ (load_inode_run s i Hil)), En.
  rewrite u32_id by lia. unfold lift. run_bind. unfold get. rewrite E. simpl.
  rewrite store_inode_run by done. set (s' := write_inode _ _ _). exists s'. split; [done|].
  assert (G' : geom s') by (by apply geom_write_inode, geom_set_ibm).
  assert (Hna : ¬ allocated s' i) by (unfold allocated; simpl; by rewrite Hbits, decide_True).
  assert (Hal : ∀ j, j ≠ i → allocated s' j ↔ allocated s j).
  { intros j Hj. unfold allocated. simpl. by rewrite Hbits, decide_False. }
  assert (Hp : ∀ j q, j ≠ i → ptr_at s' j q = ptr_at s j q).
  { intros j q Hj. unfold s'. by rewrite ptr_at_write_inode_other. }
  assert (Hin : ∀ j, j ≠ i → inode_at s' j = inode_at s j).
  { intros j Hj. unfold s'. rewrite inode_at_write by done. by rewrite decide_False. }
  split; [|done]. constructor; try done.
  - apply (sinv_free_inode s s' i); try done; [|intros j q _ Hj _; by apply Hp].
    intros j Hj Hne. rewrite Hin by done. by apply si_inode.
  - intros j Hj Ha. split; [by rewrite Hin|]. intros o. apply byte_at_ptrs; [|done].
    intros p. by apply Hp.
Qed.

(** A fresh inode: numbered, zeroed, without blocks. *)
Definition fresh_inode (i : nat) (x : wfs_inode) : Prop :=
  core x = core (mk_inode (Z.of_nat i) 0 0 0 0 0 0 0 0 0 []).

(** Marking inode [i] used and writing a block-less inode there. *)
Lemma claim_inode s i bm x :
  sinv s → i < length (inodes s) → ¬ allocated s i → length bm = length (ibm s) → words_ok bm →
  (∀ j, bit bm j = if decide (j = i) then true else bit (ibm s) j) →
  inode_ok i x → ino_blocks x = replicate 8 0%Z →
  let s' := write_inode i x (set_ibm bm s) in
  frame (.= i) s s' ∧ allocated s' i ∧ inode_at s' i = x ∧ ∀ q, pos_ok q → ptr_at s' i q = 0%Z.
Proof.
  intros HS Hil Hna HL Hok Hbits Hx Hbl s'.
  assert (Hil' : i < length (inodes (set_ibm bm s))) by done.
  assert (G' : geom s') by (apply geom_write_inode, geom_set_ibm; [apply HS|done..]).
  assert (Ein : ∀ j, inode_at s' j = if decide (j = i) then x else inode_at s j).
  { intros j. unfold s'. by rewrite inode_at_write. }
  assert (Hz : ∀ q, pos_ok q → ptr_at s' i q = 0%Z).
  { assert (∀ k, dptr s' i k = 0%Z) as Hd.
    { intros k. unfold dptr. rewrite Ein, decide_True, Hbl by done.
      destruct (replicate 8 0%Z !! k) eqn:E; [|done]. by apply lookup_replicate in E as [-> _]. }
    intros [k| |n] _; simpl; rewrite Hd; [done..|]. by rewrite decide_True. }
  assert (Hp : ∀ j q, j ≠ i → ptr_at s' j q = ptr_at s j q).
  { intros j q Hj. unfold s'. by rewrite ptr_at_write_inode_other. }
  assert (Hal : ∀ j, j ≠ i → allocated s' j ↔ allocated s j).
  { intros j Hj. unfold allocated. simpl. by rewrite Hbits, decide_False. }
  assert (Hne : ∀ j, allocated s j → j ≠ i) by (by intros j Hj ->).
  split; [|split_and!; [|by rewrite Ein, decide_True|done]].
  2: { unfold allocated. simpl. by rewrite Hbits, decide_True. }
  constructor; try done.
  - apply (sinv_alloc_inode s s' i); try done.
    + by rewrite Ein, decide_True.
    + intros j Hj. rewrite Ein, decide_False by auto. by apply si_inode.
    + intros j q Hj _. apply Hp. auto.
  - intros j Hj Ha. split; [by rewrite Ein, decide_False|]. intros o.
    apply byte_at_ptrs; [|done]. intros p. by apply Hp.
Qed.

Lemma write_inode_twice s i x y : write_inode i x (write_inode i y s) = write_inode i x s.
Proof. unfold write_inode. simpl. by rewrite list_insert_insert_eq. Qed.

Lemma allocate_inode_run s :
  sinv s →
  (∀ i, i < length (inodes s) → allocated s i) ∧
    allocate_inode s = Some (None, set_error (- ENOSPC) s) ∨
  ∃ i s', allocate_inode s = Some (Some i, s') ∧ i < length (inodes s) ∧ ¬ allocated s i ∧
    (∀ j, j < i → allocated s j) ∧ frame (.= i) s s' ∧ allocated s' i ∧
    fresh_inode i (inode_at s' i) ∧ (∀ q, pos_ok q → ptr_at s' i q = 0%Z) ∧ wfs_error s' = wfs_error s.
Proof.
  intros HS. pose proof (si_geom _ HS) as G. pose proof (g_ibm_small _ G) as Hsm. pose proof (g_ibm _ G) as HL.
  destruct (allocate_block_cases (ibm s)) as (r&bm&E&Hr); [apply G|lia|].
  assert (Hlen : inode_bitmap_len_words (sb s) = Z.of_nat (length (ibm s))).
  { unfold inode_bitmap_len_words. rewrite (g_inodes _ G), HL. symmetry. apply Z.div_unique with 31%Z; lia. }
  unfold allocate_inode. rewrite (bind_run _ _ _ s s) by done. rewrite Hlen.
  rewrite (bind_run _ _ _ (r, bm) s) by (unfold lift; by rewrite E). cbn beta iota.
  rewrite (bind_run _ _ _ () (set_ibm bm s)) by done.
  destruct Hr as [(->&->&Hfull)|(i&->&Hi&Hclear&Hlow&HbL&Hok&Hbits)].
  { left. split; [intros i Hi; apply Hfull; lia|]. by destruct s. }
  right. rewrite (g_inodes _ G). rewrite (proj2 (Z.ltb_ge _ 0)), (proj2 (Z.leb_gt _ _)) by lia. cbn [orb].
  rewrite Nat2Z.id. assert (Hil : i < length (inodes (set_ibm bm s))) by (simpl; lia).
  rewrite (bind_run _ _ _ _ _ (store_inode_run _ i zero_inode Hil)).
  rewrite (bind_run _ _ _ () (write_inode i (mk_inode (Z.of_nat i) 0 0 0 0 0 0 0 0 0 (replicate 8 0%Z)) (set_ibm bm s))).
  2: { rewrite update_inode_run by (simpl; by rewrite length_insert). rewrite write_inode_twice, inode_at_write by done.
       rewrite decide_True by done. simpl. by rewrite s32_id by lia. }
  destruct (claim_inode s i bm (mk_inode (Z.of_nat i) 0 0 0 0 0 0 0 0 0 (replicate 8 0%Z)))
    as (F1&A1&I1&P1); [done|lia|unfold allocated; by rewrite Hclear|done..|].
  destruct (touch_run _ i true true true (fr_sinv _ _ _ F1) A1) as (s'&Et&F2&He&Hpt).
  rewrite (bind_run _ _ _ _ _ Et). exists i, s'. split_and!; try done.
  - unfold allocated. by rewrite Hclear.
  - eapply frame_trans; [done|by apply frame_none].
  - by apply (frame_none_alloc _ _ _ F2).
  - destruct (frame_none_file _ _ _ F2 A1) as [C _]. unfold fresh_inode. by rewrite C, I1.
  - intros q Hq. rewrite Hpt. by apply P1.
Qed.
