(* ===== verification/WfsIO.v ===== *)
(** The copy loops of [wfs_read] and [wfs_write]. *)

From stdpp Require Import base option list numbers.
From coqutil Require Import Byte Word.LittleEndianList.
From Stdlib Require Import ZArith Lia.
From S2P Require Import Prelude CString WfsBitmap WfsDisk WfsStore WfsBlocks WfsPath WfsDir WfsOps WfsFree WfsFrame.

Lemma set_error_id s : set_error (wfs_error s) s = s.
Proof. by destruct s. Qed.

Lemma sinv_set_error s e : sinv s → sinv (set_error e s).
Proof. intros HS. by apply (grown_set_error s e). Qed.

(** The bytes [len] long from [o] when the file has no block there. *)
Lemma bytes_at_hole s i o n :
  o mod 512 + n ≤ 512 → ptr_at s i (leaf_pos (o / 512)) = 0%Z ∨ 70 ≤ o / 512 →
  bytes_at s i o n = replicate n NUL.
Proof.
  intros Hn Hz. apply list_eq. intros k. destruct (decide (k < n)).
  - rewrite lookup_bytes_at, lookup_replicate_2 by done. f_equal.
    destruct (div_mod_in_block o k) as [Ed _]; [lia|].
    destruct Hz as [Hz|Hz]; [apply byte_at_hole; by rewrite Ed|].
    unfold byte_at. by rewrite Ed, decide_False by lia.
  - rewrite !(proj2 (lookup_ge_None _ _)); [done|rewrite length_replicate; lia|rewrite length_bytes_at; lia].
Qed.

(** One lookup of [read_loop]: the chunk it copies. *)
Lemma read_chunk s i o n :
  sinv s → allocated s i → o mod 512 + n ≤ 512 →
  ∃ ptr e, data_offset (Some i) (Z.of_nat o) false s = Some (ptr, set_error e s) ∧
    match ptr with
    | None => mret (replicate n NUL)
    | Some p => mem_read p (Z.of_nat n)
    end (set_error e s) = Some (bytes_at s i o n, set_error e s).
Proof.
  intros HS Hi Hn. destruct (decide (o / 512 < 70)) as [Hk|Hk].
  - exists (if (ptr_at s i (leaf_pos (o / 512)) =? 0)%Z then None
            else Some (ptr_at s i (leaf_pos (o / 512)) + Z.of_nat (o mod 512))%Z), (wfs_error s).
    rewrite set_error_id. split; [by apply data_offset_look|].
    destruct (Z.eqb_spec (ptr_at s i (leaf_pos (o / 512))) 0).
    + unfold mret, ST_ret. by rewrite bytes_at_hole by auto.
    + by apply mem_read_leaf.
  - exists None, (- ENOSPC)%Z. destruct (quot_rem_nat o) as [Eq _]. split.
    + unfold data_offset. rewrite (proj2 (Z.ltb_ge _ _)) by lia. rewrite Eq.
      by rewrite (proj2 (Z.leb_le (D_BLOCK + indir_entries) _)) by disk_lia.
    + unfold mret, ST_ret. by rewrite bytes_at_hole by (auto with lia).
Qed.

(** Bytes of a block that remain from offset [o]. *)
Lemma chunk_bounds o m :
  0 < m → let c := Nat.min m (512 - o mod 512) in 0 < c ∧ c ≤ m ∧ o mod 512 + c ≤ 512.
Proof. intros Hm. pose proof (Nat.mod_upper_bound o 512). simpl. lia. Qed.

Lemma chunk_eq o d n :
  d ≤ n →
  Z.min (Z.of_nat n - Z.of_nat d) (BLOCK_SIZE - Z.rem (Z.of_nat o + Z.of_nat d) BLOCK_SIZE) =
    Z.of_nat (Nat.min (n - d) (512 - (o + d) mod 512)).
Proof.
  intros Hd. rewrite <- Nat2Z.inj_add. destruct (quot_rem_nat (o + d)) as [_ ->].
  pose proof (Nat.mod_upper_bound (o + d) 512). disk_lia.
Qed.

(** [read_loop] returns the bytes of the file, and fuel for one byte per
    iteration is enough. *)
Lemma read_loop_run i o n fuel : ∀ d buf s,
  sinv s → allocated s i → d ≤ n → n - d ≤ fuel →
  ∃ e, read_loop fuel i (Z.of_nat o) (Z.of_nat n) (Z.of_nat d) buf s =
    Some ((buf ++ bytes_at s i (o + d) (n - d), Z.of_nat n), set_error e s).
Proof.
  induction fuel as [|fuel IH]; intros d buf s HS Hi Hd Hf; cbn [read_loop].
  { exists (wfs_error s). rewrite set_error_id, (proj2 (Z.ltb_ge _ _)) by lia.
    replace (n - d) with 0 by lia. rewrite app_nil_r. by replace d with n by lia. }
  destruct (decide (d < n)) as [Hlt|].
  2: { exists (wfs_error s). rewrite set_error_id, (proj2 (Z.ltb_ge _ _)) by lia.
       replace (n - d) with 0 by lia. rewrite app_nil_r. by replace d with n by lia. }
  rewrite (proj2 (Z.ltb_lt _ _)) by lia. rewrite (chunk_eq o d n) by done. rewrite <- (Nat2Z.inj_add o d).
  destruct (chunk_bounds (o + d) (n - d)) as (Hc0&Hcle&Hcb); [lia|].
  set (c := Nat.min _ _) in *.
  destruct (read_chunk s i (o + d) c) as (ptr&e&E1&E2); [done..|].
  rewrite (bind_run _ _ _ _ _ E1), Nat2Z.id, (bind_run _ _ _ _ _ E2).
  rewrite <- (Nat2Z.inj_add d c).
  destruct (IH (d + c) (buf ++ bytes_at s i (o + d) c) (set_error e s)) as (e'&E);
    [by apply sinv_set_error|done|lia|lia|].
  exists e'. rewrite E. do 2 f_equal. f_equal. rewrite <- app_assoc. f_equal.
  change (bytes_at (set_error e s)) with (bytes_at s).
  replace (o + (d + c)) with (o + d + c) by lia. rewrite <- bytes_at_app. f_equal. lia.
Qed.

(** ** Writing *)

Lemma wrote_nil s s' i o : same_bytes s s' → wrote s s' i o [].
Proof. intros H j q Hj. rewrite decide_False by (simpl; lia). by apply H. Qed.

Lemma wrote_after_grown s s1 s2 i o bs : grown s s1 → wrote s1 s2 i o bs → wrote s s2 i o bs.
Proof.
  intros (_&M&B) W j q Hj. rewrite W by (by apply (same_meta_allocated s s1)).
  by rewrite B.
Qed.

Lemma wrote_app s s1 s2 i o bs1 bs2 :
  (∀ j, allocated s1 j ↔ allocated s j) →
  wrote s s1 i o bs1 → wrote s1 s2 i (o + length bs1) bs2 → wrote s s2 i o (bs1 ++ bs2).
Proof.
  intros A W1 W2 j q Hj. rewrite (W2 j q) by (by apply A). rewrite (W1 j q Hj), length_app.
  destruct (decide (j = i)) as [->|]; [|by rewrite !decide_False by tauto].
  destruct (decide (o ≤ q < o + (length bs1 + length bs2))) as [Hin|Hout].
  2: { by rewrite !decide_False by lia. }
  rewrite (decide_True (P := i = i ∧ o ≤ q < o + (length bs1 + length bs2))) by tauto.
  destruct (decide (q < o + length bs1)).
  - rewrite decide_False, decide_True by lia. by rewrite lookup_app_l by lia.
  - rewrite decide_True by lia. rewrite lookup_app_r by lia. do 2 f_equal. lia.
Qed.

(** What [write_loop] did to the [buf] it was given, from byte [d] on: all of
    it, or a prefix when the space ran out at byte [k]. *)
Definition write_done (s s' : state) (i o d : nat) (buf : list byte) (r : option Z) : Prop :=
  sinv s' ∧ same_meta s s' ∧
  match r with
  | Some x => x = Z.of_nat (length buf) ∧ wrote s s' i (o + d) (drop d buf) ∧
      wfs_error s' = wfs_error s ∧ (d = length buf ∨ o + length buf ≤ 70 * 512)
  | None => ∃ k, d ≤ k < length buf ∧ wrote s s' i (o + d) (take (k - d) (drop d buf)) ∧
      wfs_error s' = (- ENOSPC)%Z ∧ (70 ≤ (o + k) / 512 ∨ full s')
  end.

Lemma mem_write_same_full s s' : dbm s' = dbm s → length (data s') = length (data s) → full s → full s'.
Proof. unfold full, used. by intros -> ->. Qed.

(** One chunk: the block is located or allocated, then overwritten. *)
Lemma write_chunk s i o bs :
  sinv s → allocated s i → o mod 512 + length bs ≤ 512 →
  ∃ ptr s1, data_offset (Some i) (Z.of_nat o) true s = Some (ptr, s1) ∧
    match ptr with
    | None => grown s s1 ∧ wfs_error s1 = (- ENOSPC)%Z ∧ (70 ≤ o / 512 ∨ full s1)
    | Some p => ∃ s2, mem_write p bs s1 = Some ((), s2) ∧ sinv s2 ∧ same_meta s s2 ∧ wrote s s2 i o bs ∧
        wfs_error s2 = wfs_error s ∧ o / 512 < 70
    end.
Proof.
  intros HS Hi Hn. destruct (data_offset_alloc s i o HS Hi) as (ptr&s1&E&G&L). exists ptr, s1. split; [done|].
  destruct ptr as [p|]; [|by destruct L]. destruct L as (Ho&He&Hnz&Hp).
  assert (Hi1 : allocated s1 i) by (by apply (same_meta_allocated s s1); [apply G|]).
  destruct (mem_write_leaf s1 i o bs p) as (s2&E2&S2&M2&W2&He2&_&_); try done; [apply G|].
  exists s2. split_and!; try done; [|by eapply wrote_after_grown|congruence].
  eapply same_meta_trans; [apply G|done].
Qed.

Lemma div_512_bound o n : o mod 512 + n ≤ 512 → o / 512 < 70 → o + n ≤ 70 * 512.
Proof. intros. pose proof (Nat.div_mod_eq o 512). lia. Qed.

Lemma write_loop_run i o buf fuel : ∀ d s,
  sinv s → allocated s i → d ≤ length buf → length buf - d ≤ fuel →
  ∃ r s', write_loop fuel i buf (Z.of_nat o) (Z.of_nat (length buf)) (Z.of_nat d) s = Some (r, s') ∧
    write_done s s' i o d buf r.
Proof.
  induction fuel as [|fuel IH]; intros d s HS Hi Hd Hf; cbn [write_loop];
    (destruct (decide (d = length buf)) as [->|Hne];
      [rewrite (proj2 (Z.ltb_ge _ _)) by lia;
       exists (Some (Z.of_nat (length buf))), s; split; [done|];
       split; [done|]; split; [apply same_meta_refl|]; rewrite drop_all;
       split_and!; [done|by apply wrote_nil|done|by left] | ]); [lia|].
  rewrite (proj2 (Z.ltb_lt _ _)) by lia. rewrite chunk_eq by done. rewrite <- (Nat2Z.inj_add o d).
  destruct (chunk_bounds (o + d) (length buf - d)) as (Hc0&Hcle&Hcb); [lia|].
  set (c := Nat.min _ _) in *. set (bs := take c (drop d buf)).
  assert (Hbs : length bs = c) by (unfold bs; rewrite length_take, length_drop; lia).
  destruct (write_chunk s i (o + d) bs) as (ptr&s1&E1&H1); [done|done|lia|].
  rewrite (bind_run _ _ _ _ _ E1). destruct ptr as [p|].
  2: { destruct H1 as (G1&He&Hfull). exists None, s1. split; [done|]. split; [apply G1|]. split; [apply G1|].
       exists d. split; [lia|]. rewrite Nat.sub_diag. split; [|done]. apply wrote_nil, G1. }
  destruct H1 as (s2&E2&S2&M2&W2&He2&Ho). rewrite !Nat2Z.id. rewrite (bind_run _ _ _ _ _ E2).
  rewrite <- (Nat2Z.inj_add d c).
  assert (Ha2 : ∀ j, allocated s2 j ↔ allocated s j) by (intros; by apply same_meta_allocated).
  destruct (IH (d + c) s2) as (r&s'&E&S'&M'&Hr); [done|by apply Ha2|lia|lia|].
  exists r, s'. split; [done|]. split; [done|]. split; [by eapply same_meta_trans|].
  assert (Hdrop : drop d buf = bs ++ drop (d + c) buf) by (unfold bs; rewrite <- drop_drop; by rewrite take_drop).
  replace (o + (d + c)) with (o + d + length bs) in Hr by lia.
  destruct r as [x|].
  - destruct Hr as (->&W&He&Hlen). split_and!; [done| |congruence|].
    + rewrite Hdrop. by apply (wrote_app s s2).
    + right. pose proof (div_512_bound _ _ Hcb Ho). destruct Hlen; lia.
  - destruct Hr as (k&Hk&W&He&Hfull). exists k. split; [lia|]. split; [|done].
    replace (take (k - d) (drop d buf)) with (bs ++ take (k - (d + c)) (drop (d + c) buf)).
    + by apply (wrote_app s s2).
    + rewrite Hdrop, take_app_ge by lia. do 2 f_equal. lia.
Qed.
