(* ===== verification/WfsSlots.v ===== *)
(** Directories as sequences of slots.

    A directory file holds up to 96 records of 32 bytes in its six direct
    blocks.  [slot s d idx] is record [idx] of directory [d], read through
    [byte_at], so that records in unallocated blocks read as free.  The
    directory loops of wfs.c are characterised over slots. *)

From stdpp Require Import base option list numbers.
From coqutil Require Import Byte Word.LittleEndianList.
From Stdlib Require Import ZArith Lia.
From S2P Require Import Prelude CString WfsBitmap WfsDisk WfsStore WfsBlocks WfsPath WfsDir WfsOps WfsFree WfsFrame WfsIO.


Definition SLOTS : nat := 96.

Definition slot (s : state) (d idx : nat) : wfs_dentry :=
  mk_dentry (bytes_at s d (32 * idx) 28) (s32 (le_combine (bytes_at s d (32 * idx + 28) 4))).

Definition live (e : wfs_dentry) : bool := negb (dentry_free e).

Definition ename (e : wfs_dentry) : cstr := default [] (until_nul (d_name e)).

Lemma slot_same s s' d d' idx :
  (∀ k, k < 32 → byte_at s' d' (32 * idx + k) = byte_at s d (32 * idx + k)) → slot s' d' idx = slot s d idx.
Proof.
  intros H. unfold slot, bytes_at. f_equal.
  - apply list_fmap_ext. intros k o Ho. apply lookup_seq in Ho as [-> Hk]. apply H. lia.
  - do 2 f_equal. apply list_fmap_ext. intros k o Ho. apply lookup_seq in Ho as [-> Hk].
    replace (32 * idx + 28 + k) with (32 * idx + (28 + k)) by lia. apply H. lia.
Qed.

Lemma slot_offset idx : (32 * idx) / 512 = idx / 16 ∧ (32 * idx) mod 512 = 32 * (idx mod 16).
Proof.
  change 512 with (32 * 16). rewrite Nat.Div0.div_mul_cancel_l, Nat.Div0.mul_mod_distr_l by lia. done.
Qed.

Lemma slot_block idx : idx < SLOTS → idx / 16 < 6.
Proof. intros H. apply Nat.Div0.div_lt_upper_bound. unfold SLOTS in H. lia. Qed.

Lemma slot_leaf s d idx : idx < SLOTS → ptr_at s d (leaf_pos ((32 * idx) / 512)) = dptr s d (idx / 16).
Proof.
  intros H%slot_block. destruct (slot_offset idx) as [-> _]. unfold leaf_pos. by rewrite decide_True.
Qed.

Lemma slot_num_offset idx :
  (32 * idx + 28) / 512 = idx / 16 ∧ (32 * idx + 28) mod 512 = 32 * (idx mod 16) + 28.
Proof.
  destruct (slot_offset idx) as [Ed Em]. pose proof (Nat.mod_upper_bound idx 16).
  destruct (div_mod_in_block (32 * idx) 28) as [-> ->]; [lia|]. by rewrite Ed, Em.
Qed.

(** Address of slot [idx] in its block. *)
Definition slot_ptr (s : state) (d idx : nat) : Z := (dptr s d (idx / 16) + Z.of_nat (idx mod 16) * SIZEOF_DENTRY)%Z.

Lemma load_dentry_run s d idx :
  sinv s → allocated s d → idx < SLOTS → dptr s d (idx / 16) ≠ 0%Z →
  load_dentry (slot_ptr s d idx) s = Some (slot s d idx, s).
Proof.
  intros HS Hd Hidx Hnz. pose proof (slot_block _ Hidx) as Hb. pose proof (Nat.mod_upper_bound idx 16).
  destruct (slot_offset idx) as [Ed Em], (slot_num_offset idx) as [Ed' Em'].
  pose proof (slot_leaf s d idx Hidx) as El. unfold load_dentry, slot_ptr, SIZEOF_DENTRY.
  rewrite (bind_run _ _ _ (bytes_at s d (32 * idx) 28) s).
  2: { apply mem_read_leaf; try done; rewrite ?El, ?Ed, ?Em; try done; lia. }
  unfold load_int. rewrite (bind_run _ _ _ (s32 (le_combine (bytes_at s d (32 * idx + 28) 4))) s); [done|].
  rewrite (bind_run _ _ _ (bytes_at s d (32 * idx + 28) 4) s); [done|].
  rewrite Ed in El.
  apply mem_read_leaf; try done; rewrite ?Ed', ?El, ?Em'; try done; disk_lia.
Qed.

Definition free_dentry : wfs_dentry := mk_dentry (replicate 28 NUL) 0.

Lemma slot_hole s d idx : idx < SLOTS → dptr s d (idx / 16) = 0%Z → slot s d idx = free_dentry.
Proof.
  intros Hidx Hz. pose proof (Nat.mod_upper_bound idx 16).
  destruct (slot_offset idx) as [Ed Em], (slot_num_offset idx) as [Ed' Em'].
  pose proof (slot_leaf s d idx Hidx) as El. unfold slot.
  rewrite !bytes_at_hole; [done|lia|left; rewrite Ed' in *; congruence|lia|left; congruence].
Qed.

(** ** The invariant of a directory's records *)

(** Every name is NUL-terminated, and live records lie within the size. *)
Definition dir_ok (s : state) (d : nat) : Prop :=
  ∀ idx, idx < SLOTS →
    byte_at s d (32 * idx + 27) = NUL ∧
    (live (slot s d idx) = true → (Z.of_nat (32 * (idx + 1)) ≤ ino_size (inode_at s d))%Z).

Definition is_dir (s : state) (d : nat) : Prop := S_ISDIR (ino_mode (inode_at s d)) = true.

Lemma dir_ok_name s d idx :
  dir_ok s d → idx < SLOTS →
  until_nul (d_name (slot s d idx)) = Some (ename (slot s d idx)) ∧
  length (ename (slot s d idx)) < 28 ∧ no_nul (ename (slot s d idx)).
Proof.
  intros Hd Hidx. destruct (Hd idx Hidx) as [Hn _].
  destruct (until_nul_some (d_name (slot s d idx)) 27) as (nm&E&HL&Hnn).
  { unfold slot. cbn [d_name]. by rewrite lookup_bytes_at, Hn by lia. }
  unfold ename. rewrite E. simpl. split_and!; [done|lia|done].
Qed.

(** Slot [idx] of [d] is a live record called [name]. *)
Definition entry (s : state) (d : nat) (name : cstr) (idx : nat) : Prop :=
  idx < SLOTS ∧ live (slot s d idx) = true ∧ ename (slot s d idx) = name.

Global Instance entry_dec s d name idx : Decision (entry s d name idx).
Proof. unfold entry. apply _. Defined.

Lemma slot_ptr_eq s d idx :
  Z.to_nat (Z.of_nat idx / entries_per_block) = idx / 16 ∧
  (dptr s d (idx / 16) + Z.of_nat idx mod entries_per_block * SIZEOF_DENTRY)%Z = slot_ptr s d idx.
Proof.
  unfold slot_ptr. change entries_per_block with (Z.of_nat 16).
  by rewrite <- (Nat2Z.inj_div idx 16), <- (Nat2Z.inj_mod idx 16), Nat2Z.id.
Qed.

Lemma slot_in_range idx : (D_BLOCK <=? Z.of_nat idx / entries_per_block)%Z = negb (bool_decide (idx < SLOTS)).
Proof.
  change entries_per_block with (Z.of_nat 16). rewrite <- (Nat2Z.inj_div idx 16).
  destruct (decide (idx < SLOTS)) as [H|H].
  - rewrite bool_decide_eq_true_2 by done. apply slot_block in H. apply Z.leb_gt. disk_lia.
  - rewrite bool_decide_eq_false_2 by done. apply Z.leb_le. unfold SLOTS in H.
    assert (6 ≤ idx / 16) by (apply Nat.div_le_lower_bound; lia). disk_lia.
Qed.

Lemma lift_dptr_run s d k : sinv s → allocated s d → k < 8 →
  lift (ino_blocks (inode_at s d) !! k) s = Some (dptr s d k, s).
Proof.
  intros HS Hd Hk. destruct (si_inode _ HS d Hd) as (_&HL&_). unfold lift, dptr.
  destruct (lookup_lt_is_Some_2 (ino_blocks (inode_at s d)) k) as [x ->]; [lia|done].
Qed.

(** The body shared by the directory loops: fetch the block, skip it when
    absent, load the record. *)
Lemma slot_visit {A} s d idx (skip : M A) (k : Z → wfs_dentry → M A) :
  sinv s → allocated s d → idx < SLOTS →
  (blk_off ← lift (ino_blocks (inode_at s d) !! Z.to_nat (Z.of_nat idx / entries_per_block));
   if (blk_off =? 0)%Z then skip
   else e ← load_dentry (blk_off + Z.of_nat idx mod entries_per_block * SIZEOF_DENTRY); k blk_off e) s =
  if decide (dptr s d (idx / 16) = 0%Z) then skip s else k (dptr s d (idx / 16)) (slot s d idx) s.
Proof.
  intros HS Hd Hidx. destruct (slot_ptr_eq s d idx) as [-> Ep]. pose proof (slot_block _ Hidx) as Hb.
  assert (Hb8 : idx / 16 < 8) by lia. rewrite (bind_run _ _ _ _ _ (lift_dptr_run s d _ HS Hd Hb8)).
  destruct (Z.eqb_spec (dptr s d (idx / 16)) 0) as [Hz|Hnz]; [by rewrite decide_True|].
  rewrite decide_False, Ep by done. by rewrite (bind_run _ _ _ _ _ (load_dentry_run s d idx HS Hd Hidx Hnz)).
Qed.

(** The loops that skip free records. *)
Lemma slot_visit_live {A} s d idx (skip : M A) (k : wfs_dentry → M A) :
  sinv s → allocated s d → idx < SLOTS →
  (blk_off ← lift (ino_blocks (inode_at s d) !! Z.to_nat (Z.of_nat idx / entries_per_block));
   if (blk_off =? 0)%Z then skip
   else e ← load_dentry (blk_off + Z.of_nat idx mod entries_per_block * SIZEOF_DENTRY);
        if dentry_free e then skip else k e) s =
  if live (slot s d idx) then k (slot s d idx) s else skip s.
Proof.
  intros HS Hd Hidx. rewrite (slot_visit s d idx skip (λ _ e, if dentry_free e then skip else k e)) by done.
  unfold live. case_decide as Hz; [|by destruct (dentry_free _)]. by rewrite slot_hole.
Qed.

(** ** Lookup *)

Lemma dentry_to_num_loop_run s d name n : ∀ idx,
  sinv s → allocated s d → dir_ok s d → no_nul name → 
  ∃ r, dentry_to_num_loop name (inode_at s d) n (Z.of_nat idx) s = Some (r, s) ∧
    ((∃ k, idx ≤ k < idx + n ∧ entry s d name k ∧ r = d_num (slot s d k) ∧
        ∀ m, idx ≤ m < k → ¬ entry s d name m) ∨
     r = (- ENOENT)%Z ∧ ∀ k, idx ≤ k < idx + n → ¬ entry s d name k).
Proof.
  induction n as [|n IH]; intros idx HS Hd Hok Hnm; cbn [dentry_to_num_loop].
  { eexists; split; [done|]. right. split; [done|]. lia. }
  rewrite slot_in_range. destruct (decide (idx < SLOTS)) as [Hidx|Hidx].
  2: { rewrite bool_decide_eq_false_2 by done. simpl. eexists; split; [done|]. right. split; [done|].
       intros k Hk (?&_). lia. }
  rewrite bool_decide_eq_true_2 by done. cbn [negb].
  rewrite (slot_visit_live s d idx) by done.
  replace (Z.of_nat idx + 1)%Z with (Z.of_nat (idx + 1)) by lia.
  destruct (IH (idx + 1)) as (r&E&Hr); [done..|].
  assert (Hstep : ¬ entry s d name idx → 
    ((∃ k, idx ≤ k < idx + S n ∧ entry s d name k ∧ r = d_num (slot s d k) ∧
        ∀ m, idx ≤ m < k → ¬ entry s d name m) ∨
     r = (- ENOENT)%Z ∧ ∀ k, idx ≤ k < idx + S n → ¬ entry s d name k)).
  { intros Hno. destruct Hr as [(k&Hk&He&->&Hm)|[-> Hk]]; [left; exists k|right].
    - split_and!; [lia|lia|done|done|]. intros m Hm'. destruct (decide (m = idx)) as [->|]; [done|apply Hm; lia].
    - split; [done|]. intros k Hk'. destruct (decide (k = idx)) as [->|]; [done|apply Hk; lia]. }
  destruct (dir_ok_name s d idx Hok Hidx) as (Eu&HL&_).
  destruct (live (slot s d idx)) eqn:Elive.
  2: { exists r. split; [done|]. apply Hstep. intros (_&?&_). congruence. }
  rewrite (strncmp_eq_spec _ (ename (slot s d idx))) by done.
  case_bool_decide as En.
  - eexists; split; [done|]. left. exists idx. split_and!; [lia|lia|done|done|lia].
  - exists r. split; [done|]. apply Hstep. intros (_&_&?). congruence.
Qed.

Lemma dir_max_entries_eq s d :
  sinv s → allocated s d → dir_max_entries (inode_at s d) = Z.to_nat (ino_size (inode_at s d) / 32).
Proof.
  intros HS Hd. destruct (si_inode _ HS d Hd) as (_&_&Hsz). unfold dir_max_entries.
  rewrite u64_id by lia. done.
Qed.

Lemma entry_below_max s d name k :
  sinv s → allocated s d → dir_ok s d → entry s d name k → k < dir_max_entries (inode_at s d).
Proof.
  intros HS Hd Hok (Hk&Hl&_). destruct (Hok k Hk) as [_ Hsz]. specialize (Hsz Hl).
  rewrite dir_max_entries_eq by done.
  assert (Z.of_nat (k + 1) ≤ ino_size (inode_at s d) / 32)%Z; [|lia].
  apply Z.div_le_lower_bound; lia.
Qed.

(** [dentry_to_num] finds the first live record with the name. *)
Lemma dentry_to_num_run s d name :
  sinv s → allocated s d → is_dir s d → dir_ok s d → no_nul name →
  ∃ r, dentry_to_num name (Some d) s = Some (r, s) ∧
    ((∃ k, entry s d name k ∧ r = d_num (slot s d k) ∧ ∀ m, m < k → ¬ entry s d name m) ∨
     r = (- ENOENT)%Z ∧ ∀ k, ¬ entry s d name k).
Proof.
  intros HS Hd Hdir Hok Hnm. cbn [dentry_to_num].
  rewrite (bind_run _ _ _ _ _ (load_inode_run s d (allocated_lt _ _ (si_geom _ HS) Hd))), Hdir. cbn [negb].
  destruct (dentry_to_num_loop_run s d name (dir_max_entries (inode_at s d)) 0) as (r&E&Hr); [done..|].
  exists r. split; [done|]. destruct Hr as [(k&_&He&->&Hm)|[-> Hno]]; [left; exists k|right].
  - split_and!; [done|done|]. intros m Hlt. apply Hm. lia.
  - split; [done|]. intros k He. apply (Hno k); [|done]. pose proof (entry_below_max s d name k HS Hd Hok He). lia.
Qed.

(** ** Writing into a slot *)

Lemma bytes_at_wrote s s' i o bs : allocated s i → wrote s s' i o bs → bytes_at s' i o (length bs) = bs.
Proof.
  intros Hi W. apply list_eq. intros k. destruct (decide (k < length bs)).
  - rewrite lookup_bytes_at, (W i _ Hi), decide_True by lia. replace (o + k - o) with k by lia.
    destruct (lookup_lt_is_Some_2 bs k) as [x ->]; [done|]. done.
  - rewrite !(proj2 (lookup_ge_None _ _)); [done|lia|rewrite length_bytes_at; lia].
Qed.

Lemma bytes_at_wrote_disjoint s s' i o bs o' n :
  allocated s i → wrote s s' i o bs → o' + n ≤ o ∨ o + length bs ≤ o' → bytes_at s' i o' n = bytes_at s i o' n.
Proof.
  intros Hi W Hd. apply list_fmap_ext. intros k q Hq. apply lookup_seq in Hq as [-> Hk].
  rewrite (W i _ Hi), decide_False; [done|]. lia.
Qed.

Lemma slot_wrote_other s s' i o bs k idx :
  allocated s i → wrote s s' i o bs → 32 * k ≤ o → o + length bs ≤ 32 * (k + 1) → idx ≠ k →
  slot s' i idx = slot s i idx.
Proof.
  intros Hi W Hlo Hhi Hne. unfold slot.
  rewrite !(bytes_at_wrote_disjoint s s' i o bs) by (done || lia). done.
Qed.

(** A write inside slot [idx]. *)
Lemma slot_write s d idx o bs ptr :
  sinv s → allocated s d → idx < SLOTS → dptr s d (idx / 16) ≠ 0%Z → o < 32 → o + length bs ≤ 32 →
  ptr = (slot_ptr s d idx + Z.of_nat o)%Z →
  ∃ s', mem_write ptr bs s = Some ((), s') ∧ sinv s' ∧ same_meta s s' ∧ wrote s s' d (32 * idx + o) bs ∧
    wfs_error s' = wfs_error s ∧ (∀ k, dptr s' d k = dptr s d k).
Proof.
  intros HS Hd Hidx Hnz Ho Hlen ->. pose proof (slot_block _ Hidx) as Hb. pose proof (Nat.mod_upper_bound idx 16).
  destruct (slot_offset idx) as [Ed Em]. pose proof (slot_leaf s d idx Hidx) as El.
  destruct (div_mod_in_block (32 * idx) o) as [Ed' Em']; [lia|].
  destruct (mem_write_leaf s d (32 * idx + o) bs (slot_ptr s d idx + Z.of_nat o))
    as (s'&E&HS'&M&W&He&Hp&_); try done; rewrite ?Ed', ?Em', ?Ed, ?Em; try lia.
  - rewrite <- Ed, El. done.
  - rewrite <- Ed, El. unfold slot_ptr, SIZEOF_DENTRY. lia.
  - exists s'. split_and!; try done. intros k. by apply (Hp d (PDir k)).
Qed.

Lemma slot_ptr_dptr s s' d idx : (∀ k, dptr s' d k = dptr s d k) → slot_ptr s' d idx = slot_ptr s d idx.
Proof. intros H. unfold slot_ptr. by rewrite H. Qed.

(** The outcome of writing into slot [k] of directory [d]: the other slots,
    and everything outside [d], are as before. *)
Record slot_update (s s' : state) (d k : nat) : Prop := {
  su_sinv : sinv s';
  su_meta : same_meta s s';
  su_other : ∀ idx, idx ≠ k → slot s' d idx = slot s d idx;
  su_nul : ∀ idx, idx ≠ k → byte_at s' d (32 * idx + 27) = byte_at s d (32 * idx + 27);
  su_file : ∀ j o, allocated s j → j ≠ d → byte_at s' j o = byte_at s j o;
  su_error : wfs_error s' = wfs_error s;
  su_dptr : ∀ j, dptr s' d j = dptr s d j;
}.

Lemma slot_update_refl s d k : sinv s → slot_update s s d k.
Proof. intros. constructor; try done. Qed.

Lemma slot_update_trans s1 s2 s3 d k : slot_update s1 s2 d k → slot_update s2 s3 d k → slot_update s1 s3 d k.
Proof.
  intros U1 U2. constructor.
  - apply U2.
  - eapply same_meta_trans; [apply U1|apply U2].
  - intros. by rewrite (su_other _ _ _ _ U2), (su_other _ _ _ _ U1).
  - intros. by rewrite (su_nul _ _ _ _ U2), (su_nul _ _ _ _ U1).
  - intros j o Hj Hne. rewrite (su_file _ _ _ _ U2), (su_file _ _ _ _ U1); try done.
    by apply (same_meta_allocated s1 s2); [apply U1|].
  - rewrite (su_error _ _ _ _ U2). apply U1.
  - intros. by rewrite (su_dptr _ _ _ _ U2), (su_dptr _ _ _ _ U1).
Qed.

Lemma slot_update_frame s s' d k : slot_update s s' d k → frame (.= d) s s'.
Proof.
  intros U. pose proof (su_meta _ _ _ _ U) as Hm. constructor; [apply U|apply Hm..| |].
  - intros. by apply same_meta_allocated.
  - intros j Hj Ha. split; [by apply same_meta_core|]. intros o. by apply U.
Qed.

Lemma slot_write_update s d idx o bs ptr :
  sinv s → allocated s d → idx < SLOTS → dptr s d (idx / 16) ≠ 0%Z → o < 32 → o + length bs ≤ 32 →
  ptr = (slot_ptr s d idx + Z.of_nat o)%Z →
  ∃ s', mem_write ptr bs s = Some ((), s') ∧ slot_update s s' d idx ∧ wrote s s' d (32 * idx + o) bs.
Proof.
  intros HS Hd Hidx Hnz Ho Hlen Hp.
  destruct (slot_write s d idx o bs ptr) as (s'&E&HS'&M&W&He&Hdp); try done.
  exists s'. split; [done|]. split; [|done]. constructor; try done.
  - intros k Hk. apply (slot_wrote_other s s' d (32 * idx + o) bs idx); done || lia.
  - intros k Hk. rewrite (W d _ Hd), decide_False; [done|lia].
  - intros j q Hj Hne. rewrite (W j q Hj), decide_False; [done|tauto].
Qed.

(** [s'] differs from [s] in slot [k] of directory [d] only, and in the size
    of [d]. *)
Record dir_update (s s' : state) (d k : nat) : Prop := {
  du_frame : frame (.= d) s s';
  du_alloc : allocated s' d;
  du_mode : ino_mode (inode_at s' d) = ino_mode (inode_at s d);
  du_nlinks : ino_nlinks (inode_at s' d) = ino_nlinks (inode_at s d);
  du_other : ∀ idx, idx ≠ k → slot s' d idx = slot s d idx;
  du_nul : ∀ idx, idx ≠ k → byte_at s' d (32 * idx + 27) = byte_at s d (32 * idx + 27);
}.

Lemma same_file_slot s s' d idx : same_file s s' d → slot s' d idx = slot s d idx.
Proof. intros [_ B]. apply slot_same. intros. apply B. Qed.

Lemma slot_update_touch s s1 s2 d k :
  allocated s d → slot_update s s1 d k → frame none s1 s2 → dir_update s s2 d k.
Proof.
  intros Hd U F. pose proof (su_meta _ _ _ _ U) as Hm.
  assert (Hd1 : allocated s1 d) by (by apply (same_meta_allocated s s1)).
  destruct (frame_none_file _ _ _ F Hd1) as [C B]. constructor.
  - eapply frame_trans; [by eapply slot_update_frame|by apply frame_none].
  - by apply (frame_none_alloc _ _ _ F).
  - rewrite (core_mode _ _ C). by apply same_meta_mode.
  - rewrite (core_nlinks _ _ C). exact (f_equal ino_nlinks (sm_meta _ _ Hm d)).
  - intros idx Hne. rewrite (same_file_slot s1 s2 d idx) by (by split). by apply U.
  - intros idx Hne. rewrite B. by apply U.
Qed.

(** ** Removal *)

Lemma remove_slot s d k :
  sinv s → allocated s d → k < SLOTS → d_num (slot s d k) ≠ 0%Z →
  ∃ s', (store_int (slot_ptr s d k + MAX_NAME) 0;;
         (if bool_decide (hd NUL (d_name (slot s d k)) = NUL) then mret ()
          else mem_write (slot_ptr s d k) [NUL]);;
         wfs_update_times (Some d) false true true;;
         mret 0%Z) s = Some (0%Z, s') ∧
    dir_update s s' d k ∧ d_num (slot s' d k) = 0%Z ∧
    byte_at s' d (32 * k + 27) = byte_at s d (32 * k + 27) ∧
    core (inode_at s' d) = core (inode_at s d).
Proof.
  intros HS Hd Hk Hnum.
  assert (Hnz : dptr s d (k / 16) ≠ 0%Z) by (intros Hz; apply Hnum; by rewrite slot_hole).
  destruct (slot_write_update s d k 28 (le_split 4 0) (slot_ptr s d k + MAX_NAME)) as (s1&E1&U1&W1);
    rewrite ?length_le_split'; try done; try lia.
  unfold store_int. rewrite (bind_run _ _ _ _ _ E1).
  assert (Hd1 : allocated s1 d) by (by apply (same_meta_allocated s s1); [apply U1|]).
  assert (H2 : ∃ s2, (if bool_decide (hd NUL (d_name (slot s d k)) = NUL) then mret ()
          else mem_write (slot_ptr s d k) [NUL]) s1 = Some ((), s2) ∧ slot_update s s2 d k ∧
          bytes_at s2 d (32 * k + 28) 4 = le_split 4 0 ∧ byte_at s2 d (32 * k + 27) = byte_at s d (32 * k + 27)).
  { assert (B1 : bytes_at s1 d (32 * k + 28) 4 = le_split 4 0) by exact (bytes_at_wrote s s1 d _ _ Hd W1).
    assert (N1 : byte_at s1 d (32 * k + 27) = byte_at s d (32 * k + 27)).
    { rewrite (W1 d _ Hd), decide_False; [done|lia]. }
    case_bool_decide; [by exists s1|].
    destruct (slot_write_update s1 d k 0 [NUL] (slot_ptr s d k)) as (s2&E2&U2&W2); try done.
    - apply U1.
    - by rewrite (su_dptr _ _ _ _ U1).
    - lia.
    - simpl. lia.
    - rewrite (slot_ptr_dptr s s1) by apply U1. lia.
    - exists s2. split; [done|]. split; [by eapply slot_update_trans|]. split.
      + rewrite (bytes_at_wrote_disjoint s1 s2 d (32 * k + 0) [NUL]); [done..|simpl; lia].
      + rewrite (W2 d _ Hd1), decide_False; [done|simpl; lia]. }
  destruct H2 as (s2&E2&U2&B2&N2). rewrite (bind_run _ _ _ _ _ E2).
  assert (Hd2 : allocated s2 d) by (by apply (same_meta_allocated s s2); [apply U2|]).
  destruct (touch_run s2 d false true true (su_sinv _ _ _ _ U2) Hd2) as (s3&E3&F3&_).
  rewrite (bind_run _ _ _ _ _ E3). exists s3. split; [done|].
  destruct (frame_none_file _ _ _ F3 Hd2) as [C3 B3].
  split; [by eapply slot_update_touch|]. split_and!.
  - rewrite (same_file_slot s2 s3) by (by split). unfold slot. cbn [d_num]. by rewrite B2.
  - by rewrite B3.
  - rewrite C3. apply same_meta_core, U2.
Qed.

Lemma remove_dentry_loop_run s d inum n : ∀ idx,
  sinv s → allocated s d → inum ≠ 0%Z →
  (∃ k s', idx ≤ k < idx + n ∧ k < SLOTS ∧ d_num (slot s d k) = inum ∧
     (∀ m, idx ≤ m < k → d_num (slot s d m) ≠ inum) ∧
     remove_dentry_loop d inum (inode_at s d) n (Z.of_nat idx) s = Some (0%Z, s') ∧
     dir_update s s' d k ∧ d_num (slot s' d k) = 0%Z ∧
     byte_at s' d (32 * k + 27) = byte_at s d (32 * k + 27) ∧
     core (inode_at s' d) = core (inode_at s d)) ∨
  remove_dentry_loop d inum (inode_at s d) n (Z.of_nat idx) s = Some ((- ENOENT)%Z, s) ∧
    ∀ k, idx ≤ k < idx + n → k < SLOTS → d_num (slot s d k) ≠ inum.
Proof.
  induction n as [|n IH]; intros idx HS Hd Hinum; cbn [remove_dentry_loop].
  { right. split; [done|]. lia. }
  rewrite slot_in_range. destruct (decide (idx < SLOTS)) as [Hidx|Hidx].
  2: { rewrite bool_decide_eq_false_2 by done. right. split; [done|]. lia. }
  rewrite bool_decide_eq_true_2 by done. cbn [negb].
  rewrite (slot_visit s d idx _ (λ blk_off e, if (d_num e =? inum)%Z && negb (d_num e =? 0)%Z then _ else _)) by done.
  cbn beta. destruct (slot_ptr_eq s d idx) as [_ ->].
  replace (Z.of_nat idx + 1)%Z with (Z.of_nat (idx + 1)) by lia.
  destruct (decide (d_num (slot s d idx) = inum)) as [He|Hne].
  - left. destruct (remove_slot s d idx) as (s'&E&Hrest); [done..|congruence|].
    exists idx, s'. split_and!; try done; try lia; try apply Hrest.
    rewrite decide_False by (intros Hz; rewrite slot_hole in He by done; by destruct Hinum).
    rewrite He, Z.eqb_refl, (proj2 (Z.eqb_neq _ _)) by done. cbn [negb andb]. exact E.
  - assert (∀ x y : M Z, (if decide (dptr s d (idx / 16) = 0%Z) then y s
      else (if (d_num (slot s d idx) =? inum)%Z && negb (d_num (slot s d idx) =? 0)%Z then x else y) s) = y s) as ->.
    { intros x y. rewrite (proj2 (Z.eqb_neq _ _)) by done. by case_decide. }
    destruct (IH (idx + 1)) as [(k&s'&Hk&Hks&Hn&Hm&E&Hrest)|[E Hno]]; [done..| |].
    + left. exists k, s'. split_and!; try done; try lia; try apply Hrest.
      intros m Hm'. destruct (decide (m = idx)) as [->|]; [done|apply Hm; lia].
    + right. split; [done|]. intros k Hk Hks. destruct (decide (k = idx)) as [->|]; [done|apply Hno; lia].
Qed.

(** [add_dentry]: the first free record of a directory takes the new name,
    in a block allocated on demand. *)

(** The directory block [k], allocated and zeroed on demand. *)
Lemma ensure_dir_block s d k :
  sinv s → allocated s d → k < 6 →
  ∃ ok s1,
    (if (dptr s d k =? 0)%Z then
       new_blk ← allocate_data_block;
       if (new_blk =? 0)%Z then mret false
       else set_block_ptr d (Z.of_nat k) new_blk;; memset0 new_blk BLOCK_SIZE;; mret true
     else mret true) s = Some (ok, s1) ∧ grown s s1 ∧ ptrs_kept d s s1 ∧
    if ok then dptr s1 d k ≠ 0%Z ∧ wfs_error s1 = wfs_error s else wfs_error s1 = (- ENOSPC)%Z.
Proof.
  intros HS Hd Hk. destruct (Z.eqb_spec (dptr s d k) 0) as [Hz|Hnz].
  2: { exists true, s. split; [done|]. split; [by apply grown_refl|]. done. }
  destruct (allocate_data_block_run s) as [[Hfull E]|(b&bm&Hm&_&E)]; [apply HS|..];
    rewrite (bind_run _ _ _ _ _ E).
  { exists false, (set_error (- ENOSPC) s). split; [done|]. split; [by apply grown_set_error|]. done. }
  rewrite (proj2 (Z.eqb_neq _ _)) by (apply off_of_nonzero, HS).
  assert (Hd1 : allocated (alloc_blk b bm s) d) by done.
  rewrite (bind_run _ _ _ _ _ (set_block_ptr_run _ d _ _ (marks_geom _ _ _ (si_geom _ HS) Hm) Hd1)), Nat2Z.id.
  destruct (attach_slot s d k (PDir k) b bm) as (HG&HP&HK); try done; [by left|].
  match type of HG with grown _ ?x => set (s2 := x) in * end.
  pose proof Hm as (Hb&_).
  assert (Hb2 : b < length (data s2)) by (simpl; by rewrite length_insert).
  assert (Eb : blk_at s2 b = zeros 512) by (by apply (alloc_blk_zero s b bm)).
  exists true, s2. split; [|split; [done|split; [done|]]].
  - rewrite (bind_run _ _ _ () s2); [done|].
    rewrite (memset0_block_run s2 b); [|apply HG|done|done]. by rewrite <- Eb, write_block_id.
  - split; [|done]. simpl in HP. rewrite HP. apply off_of_nonzero, HS.
Qed.

(** The name field [strncpy] leaves. *)
Definition name_field (name : cstr) : list byte := strncpy_bytes name 27 ++ [NUL].

Lemma until_nul_app_nul s rest : no_nul s → until_nul (s ++ NUL :: rest) = Some s.
Proof.
  induction s as [|c s IH]; intros Hs; simpl; [done|].
  rewrite decide_False by (intros ->; apply Hs; by left). rewrite IH; [done|].
  intros ?. apply Hs. by right.
Qed.

Lemma until_nul_name_field name : no_nul name → length name < 28 → until_nul (name_field name) = Some name.
Proof.
  intros Hn HL. unfold name_field, strncpy_bytes. rewrite take_ge, <- app_assoc by lia.
  destruct (27 - length name) as [|m]; simpl; by apply until_nul_app_nul.
Qed.

Lemma hd_name_field name : no_nul name → name ≠ [] → hd NUL (name_field name) ≠ NUL.
Proof.
  intros Hn Hne. destruct name as [|c name]; [done|]. simpl. intros ->. apply Hn. by left.
Qed.

(** Writing a record in a mapped slot. *)
Lemma fill_slot s d k num name :
  sinv s → allocated s d → k < SLOTS → dptr s d (k / 16) ≠ 0%Z → (- 2 ^ 31 ≤ num < 2 ^ 31)%Z →
  ∃ s', (memset0 (slot_ptr s d k) MAX_NAME;;
         mem_write (slot_ptr s d k) (strncpy_bytes name (Z.to_nat (MAX_NAME - 1)));;
         store_int (slot_ptr s d k + MAX_NAME) num) s = Some ((), s') ∧
    slot_update s s' d k ∧ slot s' d k = mk_dentry (name_field name) num.
Proof.
  intros HS Hd Hk Hnz Hnum. unfold memset0. change (Z.to_nat MAX_NAME) with 28.
  change (Z.to_nat (MAX_NAME - 1)) with 27.
  destruct (slot_write_update s d k 0 (replicate 28 NUL) (slot_ptr s d k)) as (s1&E1&U1&W1);
    rewrite ?length_replicate; try done; try lia.
  rewrite (bind_run _ _ _ _ _ E1).
  assert (Hd1 : allocated s1 d) by (by apply (same_meta_allocated s s1); [apply U1|]).
  destruct (slot_write_update s1 d k 0 (strncpy_bytes name 27) (slot_ptr s d k)) as (s2&E2&U2&W2);
    rewrite ?length_strncpy_bytes; try done; try lia; [apply U1|by rewrite (su_dptr _ _ _ _ U1)
      |rewrite (slot_ptr_dptr s s1) by apply U1; lia|].
  rewrite (bind_run _ _ _ _ _ E2).
  assert (Hd2 : allocated s2 d) by (by apply (same_meta_allocated s1 s2); [apply U2|]).
  assert (Hdp : ∀ j, dptr s2 d j = dptr s d j) by (intros; by rewrite (su_dptr _ _ _ _ U2), (su_dptr _ _ _ _ U1)).
  destruct (slot_write_update s2 d k 28 (le_split 4 num) (slot_ptr s d k + MAX_NAME)) as (s3&E3&U3&W3);
    rewrite ?length_le_split'; try done; try lia; [apply U2|by rewrite Hdp|rewrite (slot_ptr_dptr s s2) by done; disk_lia|].
  unfold store_int. exists s3. split; [done|]. split.
  { eapply slot_update_trans; [done|]. by eapply slot_update_trans. }
  replace (32 * k + 0) with (32 * k) in W1, W2 by lia.
  assert (Enum : bytes_at s3 d (32 * k + 28) 4 = le_split 4 num).
  { pose proof (bytes_at_wrote _ _ _ _ _ Hd2 W3) as E. by rewrite length_le_split' in E. }
  assert (Ename : bytes_at s3 d (32 * k) 28 = name_field name).
  { rewrite (bytes_at_wrote_disjoint s2 s3 d (32 * k + 28) (le_split 4 num)); [|done|done|left; lia].
    unfold name_field. rewrite (bytes_at_app s2 d (32 * k) 27 1 : bytes_at s2 d (32 * k) 28 = _). f_equal.
    - pose proof (bytes_at_wrote _ _ _ _ _ Hd1 W2) as E. by rewrite length_strncpy_bytes in E.
    - rewrite (bytes_at_wrote_disjoint s1 s2 d (32 * k) (strncpy_bytes name 27));
        [|done|done|right; rewrite length_strncpy_bytes; lia].
      unfold bytes_at. simpl. rewrite (W1 d _ Hd), length_replicate, decide_True by lia.
      by rewrite lookup_replicate_2 by lia. }
  unfold slot. rewrite Enum, Ename. f_equal. unfold s32, to_signed. rewrite le_combine_split.
  change (Z.of_nat 4 * 8)%Z with 32%Z. rewrite Zplus_mod_idemp_l. fold (to_signed 32 num). apply s32_id. lia.
Qed.

Lemma seq3_run {S A} (m1 m2 m3 : ST S ()) (k : ST S A) s s' :
  (m1;; m2;; m3) s = Some ((), s') → (m1;; m2;; m3;; k) s = k s'.
Proof.
  unfold mbind, ST_bind. destruct (m1 s) as [[[] s1]|]; [|done]. destruct (m2 s1) as [[[] s2]|]; [|done].
  by intros ->.
Qed.

Lemma grow_dir s d needed :
  sinv s → allocated s d → (0 ≤ needed < 2 ^ 63)%Z →
  ∃ s', ((if (ino_size (inode_at s d) <? needed)%Z then update_inode d (with_size needed) else mret ());;
         wfs_update_times (Some d) false true true;; mret 0%Z) s = Some (0%Z, s') ∧
    frame (.= d) s s' ∧ allocated s' d ∧ (∀ o, byte_at s' d o = byte_at s d o) ∧
    core (inode_at s' d) = core (with_size (Z.max (ino_size (inode_at s d)) needed) (inode_at s d)).
Proof.
  intros HS Hd Hn.
  destruct (extend_run s d needed HS Hd Hn) as (s1&E1&F1&A1&B1&C1). rewrite (bind_run _ _ _ _ _ E1).
  destruct (touch_run s1 d false true true (fr_sinv _ _ _ F1) A1) as (s2&E2&F2&_).
  rewrite (bind_run _ _ _ _ _ E2). exists s2. split; [done|].
  destruct (frame_none_file _ _ _ F2 A1) as [C2 B2].
  split; [eapply frame_trans; [done|by apply frame_none]|]. split_and!.
  - by apply (frame_none_alloc _ _ _ F2).
  - intros o. by rewrite B2.
  - by rewrite C2.
Qed.

(** Slot [k] of [d] received the record. *)
Definition added (s s' : state) (d k : nat) (num : Z) (name : cstr) : Prop :=
  dir_update s s' d k ∧ slot s' d k = mk_dentry (name_field name) num ∧
  ino_size (inode_at s' d) = Z.max (ino_size (inode_at s d)) (Z.of_nat (32 * (k + 1))).

Lemma added_grown s s1 s' d k num name :
  allocated s d → grown s s1 → added s1 s' d k num name → added s s' d k num name.
Proof.
  intros Hd G (U&Hs&Hz). pose proof (frame_grown none _ _ G) as F.
  destruct (frame_none_file _ _ _ F Hd) as [C B]. split; [|split; [done|]].
  - constructor.
    + exact (frame_trans _ _ _ _ (frame_none _ _ _ F) (du_frame _ _ _ _ U)).
    + exact (du_alloc _ _ _ _ U).
    + rewrite (du_mode _ _ _ _ U). by apply core_mode.
    + rewrite (du_nlinks _ _ _ _ U). by apply core_nlinks.
    + intros idx Hne. rewrite (du_other _ _ _ _ U) by done. by apply same_file_slot.
    + intros idx Hne. rewrite (du_nul _ _ _ _ U) by done. by apply B.
  - rewrite Hz. by rewrite (core_size _ _ C).
Qed.

Lemma fill_grow s d k num name :
  sinv s → allocated s d → k < SLOTS → dptr s d (k / 16) ≠ 0%Z → (- 2 ^ 31 ≤ num < 2 ^ 31)%Z →
  ∃ s',
    (memset0 (slot_ptr s d k) MAX_NAME;;
     mem_write (slot_ptr s d k) (strncpy_bytes name (Z.to_nat (MAX_NAME - 1)));;
     store_int (slot_ptr s d k + MAX_NAME) num;;
     pi ← load_inode d;
     (if (ino_size pi <? (Z.of_nat k + 1) * SIZEOF_DENTRY)%Z
      then update_inode d (with_size ((Z.of_nat k + 1) * SIZEOF_DENTRY)) else mret ());;
     wfs_update_times (Some d) false true true;; mret 0%Z) s = Some (0%Z, s') ∧ added s s' d k num name.
Proof.
  intros HS Hd Hk Hnz Hnum. destruct (fill_slot s d k num name) as (s1&E1&U1&Hs1); [done..|].
  rewrite (seq3_run _ _ _ _ _ _ E1). pose proof (su_meta _ _ _ _ U1) as Hm.
  assert (Hd1 : allocated s1 d) by (by apply (same_meta_allocated s s1)).
  rewrite (bind_run _ _ _ _ _ (load_inode_run s1 d (allocated_lt _ _ (si_geom _ (su_sinv _ _ _ _ U1)) Hd1))).
  assert (((Z.of_nat k + 1) * SIZEOF_DENTRY)%Z = Z.of_nat (32 * (k + 1))) as -> by (unfold SIZEOF_DENTRY; lia).
  destruct (grow_dir s1 d (Z.of_nat (32 * (k + 1)))) as (s2&E2&F2&A2&B2&C2); [apply U1|done|unfold SLOTS in Hk; lia|].
  exists s2. split; [done|]. split; [|split].
  - constructor; try done.
    + eapply frame_trans; [by eapply slot_update_frame|done].
    + rewrite (core_mode _ _ C2). by apply same_meta_mode.
    + rewrite (core_nlinks _ _ C2). exact (f_equal ino_nlinks (sm_meta _ _ Hm d)).
    + intros idx Hne. rewrite (slot_same s1 s2 d d) by (intros; apply B2). by apply U1.
    + intros idx Hne. rewrite B2. by apply U1.
  - by rewrite (slot_same s1 s2 d d) by (intros; apply B2).
  - rewrite (core_size _ _ C2). simpl. by rewrite (same_meta_size _ _ d Hm).
Qed.

Lemma add_dentry_loop_run d num name n : ∀ idx s,
  sinv s → allocated s d → (- 2 ^ 31 ≤ num < 2 ^ 31)%Z → idx + n = SLOTS →
  ∃ r s', add_dentry_loop d num name n (Z.of_nat idx) s = Some (r, s') ∧
    ((r = 0%Z ∧ ∃ k, idx ≤ k < SLOTS ∧ live (slot s d k) = false ∧
        (∀ m, idx ≤ m < k → live (slot s d m) = true) ∧ added s s' d k num name) ∨
     (r = - ENOSPC)%Z ∧ frame none s s' ∧ ptrs_kept d s s').
Proof.
  induction n as [|n IH]; intros idx s HS Hd Hnum Hn; cbn [add_dentry_loop].
  { eexists _, s. split; [done|]. right. split; [done|]. split; [by apply frame_refl|done]. }
  assert (Hidx : idx < SLOTS) by lia. pose proof (slot_block _ Hidx) as Hblk.
  rewrite slot_in_range, bool_decide_eq_true_2 by done. cbn [negb].
  assert ((Z.of_nat idx / entries_per_block)%Z = Z.of_nat (idx / 16)) as ->.
  { change entries_per_block with (Z.of_nat 16). by rewrite Nat2Z.inj_div. }
  assert (Hr : (0 ≤ Z.of_nat (idx / 16) < 8)%Z) by lia.
  rewrite (bind_run _ _ _ _ _ (block_ptr_run s d _ HS Hd Hr)), Nat2Z.id.
  destruct (ensure_dir_block s d (idx / 16)) as (ok&s1&E1&G1&K1&Hok); [done..|].
  rewrite (bind_run _ _ _ _ _ E1). pose proof G1 as (S1&M1&_).
  destruct ok; cbn [negb].
  2: { eexists _, s1. split; [by rewrite (bind_run _ _ _ (- ENOSPC)%Z s1) by (unfold gets; by rewrite Hok)|].
       right. split; [done|]. split; [by apply frame_grown|done]. }
  destruct Hok as [Hnz _].
  assert (Hd1 : allocated s1 d) by (by apply (same_meta_allocated s s1)).
  rewrite (bind_run _ _ _ _ _ (block_ptr_run s1 d _ S1 Hd1 Hr)), Nat2Z.id.
  destruct (slot_ptr_eq s1 d idx) as [_ ->].
  rewrite (bind_run _ _ _ _ _ (load_dentry_run s1 d idx S1 Hd1 Hidx Hnz)).
  assert (Hslot : ∀ m, slot s1 d m = slot s d m).
  { intros m. apply same_file_slot. apply (fr_file none s s1); [by apply frame_grown|tauto|done]. }
  rewrite Hslot. destruct (dentry_free (slot s d idx)) eqn:Efree.
  - destruct (fill_grow s1 d idx num name) as (s2&E2&A2); [done..|].
    exists 0%Z, s2. split; [exact E2|]. left. split; [done|]. exists idx.
    split_and!; [lia|done|unfold live; by rewrite Efree|lia|by eapply added_grown].
  - replace (Z.of_nat idx + 1)%Z with (Z.of_nat (idx + 1)) by lia.
    destruct (IH (idx + 1) s1) as (r&s2&E2&H2); [done..|lia|]. exists r, s2. split; [done|].
    destruct H2 as [(->&k&Hk&Hfree&Hlive&A)|(->&F&K2)].
    + left. split; [done|]. exists k. rewrite Hslot in Hfree. split_and!; [lia|lia|done| |by eapply added_grown].
      intros m Hm. destruct (decide (m = idx)) as [->|]; [unfold live; by rewrite Efree|].
      rewrite <- Hslot. apply Hlive. lia.
    + right. split; [done|]. split; [eapply frame_trans; [by apply frame_grown|done]|].
      intros j q Hj Hq Hne. rewrite K2, K1; try done. by apply (same_meta_allocated s s1).
Qed.
