(* ===== verification/WfsTree.v ===== *)
(** The namespace invariant of WFS.

    [wf] is what every operation relies on: the storage invariant, a root
    directory, and well-formed directory records.  [tree] adds that the
    directories form a namespace: every record names an allocated inode, every
    inode but the root is named by exactly one record, names are unique in
    their directory and never the dots, and the link count of a file is one.
    Creation and removal of a file are lemmas over these. *)

From stdpp Require Import base option list numbers.
From coqutil Require Import Byte Word.LittleEndianList.
From Stdlib Require Import ZArith Lia.
From S2P Require Import Prelude CString WfsBitmap WfsDisk WfsStore WfsBlocks WfsPath WfsDir WfsOps WfsFree WfsFrame WfsIO WfsSlots.

Definition dot_name (name : cstr) : Prop := name = cs "." ∨ name = cs "..".

Record wf (s : state) : Prop := {
  wf_sinv : sinv s;
  wf_root : allocated s 0;
  wf_root_dir : is_dir s 0;
  wf_dir : ∀ d, allocated s d → is_dir s d → dir_ok s d;
}.

(** Record [k] of directory [d] refers to inode [i]. *)
Definition link (s : state) (d k i : nat) : Prop :=
  allocated s d ∧ is_dir s d ∧ k < SLOTS ∧ d_num (slot s d k) = Z.of_nat i ∧ i ≠ 0.

Record tree (s : state) : Prop := {
  t_wf : wf s;
  t_num : ∀ d k, allocated s d → is_dir s d → k < SLOTS → d_num (slot s d k) ≠ 0%Z →
    live (slot s d k) = true ∧ ∃ i, d_num (slot s d k) = Z.of_nat i ∧ allocated s i;
  t_unique : ∀ d k d' k' i, link s d k i → link s d' k' i → d = d' ∧ k = k';
  t_names : ∀ d k k' name, allocated s d → is_dir s d → entry s d name k → entry s d name k' → k = k';
  t_dots : ∀ d k name, allocated s d → is_dir s d → entry s d name k → ¬ dot_name name;
  t_linked : ∀ i, allocated s i → i ≠ 0 → ∃ d k, link s d k i;
  t_nlink : ∀ i, allocated s i → ¬ is_dir s i → ino_nlinks (inode_at s i) = 1%Z;
}.

Lemma t_sinv s : tree s → sinv s.
Proof. intros T. apply T. Qed.

Lemma live_num s d k : live (slot s d k) = true → d_num (slot s d k) ≠ 0%Z.
Proof. unfold live, dentry_free. intros H E. by rewrite E in H. Qed.

(** ** Files that keep their contents keep the invariant *)

Lemma same_file_dir s s' d : same_file s s' d → is_dir s' d ↔ is_dir s d.
Proof. intros [C _]. unfold is_dir. by rewrite (core_mode _ _ C). Qed.

(** The records of directory [d] are the same. *)
Definition same_dir (s s' : state) (d : nat) : Prop :=
  ino_size (inode_at s' d) = ino_size (inode_at s d) ∧ ∀ o, byte_at s' d o = byte_at s d o.

Lemma same_file_same_dir s s' d : same_file s s' d → same_dir s s' d.
Proof. intros [C B]. split; [by apply core_size|done]. Qed.

Lemma same_dir_slot s s' d k : same_dir s s' d → slot s' d k = slot s d k.
Proof. intros [_ B]. apply slot_same. intros. apply B. Qed.

Lemma same_dir_ok s s' d : same_dir s s' d → dir_ok s d → dir_ok s' d.
Proof.
  intros F Hd idx Hidx. rewrite (same_dir_slot s s') by done. destruct F as [C B].
  rewrite B, C. by apply Hd.
Qed.

Lemma same_file_dir_ok s s' d : same_file s s' d → dir_ok s d → dir_ok s' d.
Proof. intros F. by apply same_dir_ok, same_file_same_dir. Qed.

Lemma same_dir_entry s s' d name k : same_dir s s' d → entry s' d name k ↔ entry s d name k.
Proof. intros F. unfold entry. by rewrite (same_dir_slot s s'). Qed.

(** A step that changes neither the set of inodes nor any directory. *)
Record dirs_kept (s s' : state) : Prop := {
  dk_sinv : sinv s';
  dk_alloc : ∀ j, allocated s' j ↔ allocated s j;
  dk_dir : ∀ j, allocated s j → is_dir s' j ↔ is_dir s j;
  dk_file : ∀ d, allocated s d → is_dir s d → same_dir s s' d;
  dk_nlink : ∀ j, allocated s j → ¬ is_dir s j → ino_nlinks (inode_at s' j) = ino_nlinks (inode_at s j);
}.

Lemma dirs_kept_link s s' d k i : dirs_kept s s' → link s' d k i ↔ link s d k i.
Proof.
  intros K. unfold link. rewrite (dk_alloc _ _ K). split.
  - intros (Ha&Hd&?&?&?). apply (dk_dir _ _ K) in Hd; [|done].
    rewrite (same_dir_slot s s') in * by (by apply K). done.
  - intros (Ha&Hd&?&?&?). rewrite (same_dir_slot s s') by (by apply K).
    split_and!; try done. by apply (dk_dir _ _ K).
Qed.

Lemma tree_dirs_kept s s' : tree s → dirs_kept s s' → tree s'.
Proof.
  intros T K. pose proof (t_wf _ T) as W.
  assert (HF : ∀ d, allocated s' d → is_dir s' d → allocated s d ∧ is_dir s d ∧ same_dir s s' d).
  { intros d Ha%(dk_alloc _ _ K) Hd%(dk_dir _ _ K); [|done]. split_and!; [done..|by apply K]. }
  constructor.
  - constructor.
    + apply K.
    + apply (dk_alloc _ _ K), W.
    + apply (dk_dir _ _ K); apply W.
    + intros d Ha Hd. destruct (HF d Ha Hd) as (?&?&?). eapply same_dir_ok; [done|]. by apply W.
  - intros d k Ha Hd Hk. destruct (HF d Ha Hd) as (?&?&?). rewrite (same_dir_slot s s') by done. intros Hn.
    destruct (t_num _ T d k) as (?&i&?&?); [done..|]. split; [done|]. exists i. by rewrite (dk_alloc _ _ K).
  - intros d k d' k' i H1 H2. apply (t_unique _ T d k d' k' i); by apply (dirs_kept_link s s').
  - intros d k k' name Ha Hd. destruct (HF d Ha Hd) as (?&?&?). rewrite !(same_dir_entry s s') by done.
    by apply T.
  - intros d k name Ha Hd. destruct (HF d Ha Hd) as (?&?&?). rewrite !(same_dir_entry s s') by done.
    by apply T.
  - intros i Ha Hi. destruct (t_linked _ T i) as (d&k&Hl); [by apply K|done|]. exists d, k. by apply (dirs_kept_link s s').
  - intros i Ha%(dk_alloc _ _ K) Hd. assert (¬ is_dir s i) by (by rewrite <- (dk_dir _ _ K)).
    rewrite (dk_nlink _ _ K) by done. by apply T.
Qed.

Lemma frame_none_dirs_kept s s' : frame none s s' → dirs_kept s s'.
Proof.
  intros F. constructor.
  - apply F.
  - intros. apply (fr_alloc _ _ _ F). tauto.
  - intros j Hj. by apply same_file_dir, (frame_none_file _ _ _ F).
  - intros d Hd _. by apply same_file_same_dir, (frame_none_file _ _ _ F).
  - intros j Hj _. apply core_nlinks. by apply (frame_none_file _ _ _ F).
Qed.

(** A step that changes one regular file. *)
Lemma frame_file_dirs_kept s s' i :
  frame (.= i) s s' → allocated s i → allocated s' i → ¬ is_dir s i →
  ino_mode (inode_at s' i) = ino_mode (inode_at s i) → ino_nlinks (inode_at s' i) = ino_nlinks (inode_at s i) →
  dirs_kept s s'.
Proof.
  intros F Hi Hi' Hnd Hm Hn. constructor.
  - apply F.
  - intros j. destruct (decide (j = i)) as [->|]; [done|by apply F].
  - intros j Hj. destruct (decide (j = i)) as [->|]; [unfold is_dir; by rewrite Hm|by apply same_file_dir, F].
  - intros d Hd Hdir. apply same_file_same_dir, F; [|done]. by intros ->.
  - intros j Hj _. destruct (decide (j = i)) as [->|]; [done|]. apply core_nlinks. by apply F.
Qed.

(** A step that changes attributes of one inode other than mode, size and
    link count. *)
Lemma frame_attr_dirs_kept s s' i :
  frame (.= i) s s' → allocated s i → allocated s' i → (∀ o, byte_at s' i o = byte_at s i o) →
  ino_mode (inode_at s' i) = ino_mode (inode_at s i) → ino_size (inode_at s' i) = ino_size (inode_at s i) →
  ino_nlinks (inode_at s' i) = ino_nlinks (inode_at s i) → dirs_kept s s'.
Proof.
  intros F Hi Hi' HB Hm Hz Hn. constructor.
  - apply F.
  - intros j. destruct (decide (j = i)) as [->|]; [done|by apply F].
  - intros j Hj. destruct (decide (j = i)) as [->|]; [unfold is_dir; by rewrite Hm|by apply same_file_dir, F].
  - intros d Hd Hdir. destruct (decide (d = i)) as [->|]; [done|by apply same_file_same_dir, F].
  - intros j Hj _. destruct (decide (j = i)) as [->|]; [done|]. apply core_nlinks. by apply F.
Qed.

(** ** Creation *)

(** Inode [i] is new, and record [k] of [d] names it. *)
Record creates (s s' : state) (d k i : nat) (name : cstr) : Prop := {
  cr_frame : frame (λ j, j = i ∨ j = d) s s';
  cr_parent : allocated s d ∧ is_dir s d;
  cr_parent' : allocated s' d ∧ is_dir s' d;
  cr_fresh : ¬ allocated s i;
  cr_alloc : allocated s' i;
  cr_slot : k < SLOTS ∧ live (slot s d k) = false ∧ slot s' d k = mk_dentry (name_field name) (Z.of_nat i);
  cr_other : ∀ idx, idx ≠ k → slot s' d idx = slot s d idx;
  cr_nul : ∀ idx, idx ≠ k → byte_at s' d (32 * idx + 27) = byte_at s d (32 * idx + 27);
  cr_size : ino_size (inode_at s' d) = Z.max (ino_size (inode_at s d)) (Z.of_nat (32 * (k + 1)));
  cr_bytes : ∀ o, byte_at s' i o = NUL;
  cr_nlink : ¬ is_dir s' i → ino_nlinks (inode_at s' i) = 1%Z;
}.

Definition good_name (name : cstr) : Prop := no_nul name ∧ name ≠ [] ∧ length name < 28.

Lemma bytes_at_zero s d o n : (∀ q, byte_at s d q = NUL) → bytes_at s d o n = replicate n NUL.
Proof.
  intros H. revert o. unfold bytes_at. induction n as [|n IH]; intros o; simpl; [done|]. by rewrite H, IH.
Qed.

Lemma zero_slot s d idx : (∀ o, byte_at s d o = NUL) → slot s d idx = free_dentry.
Proof. intros H. unfold slot. by rewrite !bytes_at_zero. Qed.

Lemma record_live name i : good_name name → i ≠ 0 →
  live (mk_dentry (name_field name) (Z.of_nat i)) = true ∧ ename (mk_dentry (name_field name) (Z.of_nat i)) = name.
Proof.
  intros (Hn&Hne&HL) Hi. unfold live, dentry_free, ename. simpl.
  rewrite (proj2 (Z.eqb_neq _ _)) by lia.
  rewrite bool_decide_eq_false_2 by (by apply hd_name_field).
  by rewrite until_nul_name_field.
Qed.

Section creation.
Context (s s' : state) (d k i : nat) (name : cstr).
Hypothesis T : tree s.
Hypothesis C : creates s s' d k i name.
Hypothesis Hname : good_name name.
Hypothesis Hdot : ¬ dot_name name.
Hypothesis Hnew : ∀ m, ¬ entry s d name m.

Let W : wf s := t_wf s T.

Lemma create_ne : d ≠ i ∧ i ≠ 0.
Proof.
  split.
  - intros E. destruct (cr_parent _ _ _ _ _ _ C). apply (cr_fresh _ _ _ _ _ _ C). by rewrite <- E.
  - intros E. apply (cr_fresh _ _ _ _ _ _ C). rewrite E. apply W.
Qed.

Lemma create_alloc j : allocated s' j ↔ j = i ∨ allocated s j.
Proof.
  destruct create_ne as [Hdi _]. destruct (cr_parent _ _ _ _ _ _ C), (cr_parent' _ _ _ _ _ _ C).
  destruct (decide (j = i)) as [->|Hji]; [split; [by left|intros _; exact (cr_alloc _ _ _ _ _ _ C)]|].
  destruct (decide (j = d)) as [->|Hjd]; [split; [by right|done]|].
  rewrite (fr_alloc _ _ _ (cr_frame _ _ _ _ _ _ C)) by tauto. split; [by right|by intros [->|]].
Qed.

(** Directories of [s'] and their records. *)
Lemma create_dir j : allocated s' j → is_dir s' j →
  (j = i ∧ ∀ idx, slot s' j idx = free_dentry) ∨
  (allocated s j ∧ is_dir s j ∧ j ≠ i ∧
   ∀ idx, slot s' j idx = if decide (j = d ∧ idx = k) then mk_dentry (name_field name) (Z.of_nat i) else slot s j idx).
Proof.
  intros Ha Hd. destruct create_ne as [Hdi _].
  destruct (decide (j = i)) as [->|Hji].
  { left. split; [done|]. intros idx. exact (zero_slot _ _ _ (cr_bytes _ _ _ _ _ _ C)). }
  right. destruct (decide (j = d)) as [->|Hjd].
  - destruct (cr_parent _ _ _ _ _ _ C). split_and!; try done. intros idx.
    destruct (decide (idx = k)) as [->|]; [rewrite decide_True by done; apply (cr_slot _ _ _ _ _ _ C)|].
    rewrite decide_False by tauto. by apply (cr_other _ _ _ _ _ _ C).
  - assert (Hj : allocated s j) by (apply create_alloc in Ha as [?|]; done).
    pose proof (fr_file _ _ _ (cr_frame _ _ _ _ _ _ C) j ltac:(tauto) Hj) as Hf.
    split_and!; [done|by apply (same_file_dir s s')|done|]. intros idx. rewrite decide_False by tauto.
    by apply same_file_slot.
Qed.

Lemma create_keeps_dir j : allocated s j → is_dir s j → is_dir s' j.
Proof.
  intros Ha Hd. destruct (decide (j = d)) as [->|Hjd]; [apply (cr_parent' _ _ _ _ _ _ C)|].
  assert (j ≠ i) by (intros ->; by apply (cr_fresh _ _ _ _ _ _ C)).
  apply (same_file_dir s s'); [|done]. apply (cr_frame _ _ _ _ _ _ C); tauto.
Qed.

Lemma create_free_slot : d_num (slot s d k) = 0%Z.
Proof.
  destruct (cr_slot _ _ _ _ _ _ C) as (Hk&Hl&_). destruct (cr_parent _ _ _ _ _ _ C) as [Ha Hd].
  destruct (decide (d_num (slot s d k) = 0%Z)) as [|Hn]; [done|].
  destruct (t_num _ T d k Ha Hd Hk Hn). congruence.
Qed.

Lemma create_link a b c : link s' a b c ↔ link s a b c ∨ (a = d ∧ b = k ∧ c = i).
Proof.
  destruct create_ne as [Hdi Hi0]. destruct (cr_slot _ _ _ _ _ _ C) as (Hk&Hl&Hs). split.
  - intros (Ha&Hd&Hb&Hn&Hc). destruct (create_dir a Ha Hd) as [[-> Hz]|(Ha'&Hd'&Hne&Hsl)].
    + rewrite Hz in Hn. simpl in Hn. lia.
    + rewrite Hsl in Hn. case_decide as D; [right|by left].
      destruct D as [-> ->]. simpl in Hn. split_and!; try done. lia.
  - intros [(Ha&Hd&Hb&Hn&Hc)|(->&->&->)].
    + assert (Ha' : allocated s' a) by (apply create_alloc; by right).
      assert (Hd' : is_dir s' a) by (by apply create_keeps_dir).
      split_and!; try done. destruct (create_dir a Ha' Hd') as [[-> _]|(_&_&_&Hsl)].
      { by destruct (cr_fresh _ _ _ _ _ _ C). }
      rewrite Hsl, decide_False; [done|]. intros [-> ->]. rewrite create_free_slot in Hn. lia.
    + destruct (cr_parent' _ _ _ _ _ _ C). unfold link. by rewrite Hs.
Qed.

Lemma create_entry a b nm : allocated s' a → is_dir s' a → entry s' a nm b →
  (a = d ∧ b = k ∧ nm = name) ∨ (allocated s a ∧ is_dir s a ∧ (a, b) ≠ (d, k) ∧ entry s a nm b).
Proof.
  intros Ha Hd (Hb&Hl&He). destruct create_ne as [_ Hi0].
  destruct (create_dir a Ha Hd) as [[-> Hz]|(Ha'&Hd'&Hne&Hsl)].
  { by rewrite Hz in Hl. }
  rewrite Hsl in Hl, He. case_decide as D.
  - left. destruct D as [-> ->]. split_and!; try done. rewrite <- He. by apply record_live.
  - right. split_and!; try done. intros [= -> ->]. by apply D.
Qed.

Lemma create_dir_ok j : allocated s' j → is_dir s' j → dir_ok s' j.
Proof.
  intros Ha Hd idx Hidx. destruct create_ne as [Hdi Hi0].
  destruct (decide (j = i)) as [->|Hji].
  { split; [apply (cr_bytes _ _ _ _ _ _ C)|]. by rewrite zero_slot by apply (cr_bytes _ _ _ _ _ _ C). }
  destruct (decide (j = d)) as [->|Hjd].
  - destruct (cr_parent _ _ _ _ _ _ C) as [Ha0 Hd0]. destruct (wf_dir _ W d Ha0 Hd0 idx Hidx) as [Hn Hsz].
    rewrite (cr_size _ _ _ _ _ _ C). destruct (cr_slot _ _ _ _ _ _ C) as (_&_&Hs).
    destruct (decide (idx = k)) as [->|Hne].
    + split; [|lia].
      assert (E : d_name (slot s' d k) !! 27 = Some NUL).
      { rewrite Hs. simpl. unfold name_field. rewrite lookup_app_r; rewrite length_strncpy_bytes; [done|lia]. }
      unfold slot in E. cbn [d_name] in E. rewrite lookup_bytes_at in E by lia. by injection E.
    + rewrite (cr_nul _ _ _ _ _ _ C), (cr_other _ _ _ _ _ _ C) by done. split; [done|]. intros Hl. specialize (Hsz Hl). lia.
  - assert (Hj : allocated s j) by (apply create_alloc in Ha as [?|]; done).
    pose proof (fr_file _ _ _ (cr_frame _ _ _ _ _ _ C) j ltac:(tauto) Hj) as Hf.
    apply (same_file_dir_ok s s' j Hf); [|done]. apply W; [done|]. by apply (same_file_dir s s').
Qed.

Lemma tree_create : tree s'.
Proof.
  destruct create_ne as [Hdi Hi0]. destruct (cr_slot _ _ _ _ _ _ C) as (Hk&Hl&Hs).
  constructor.
  - constructor; [apply (cr_frame _ _ _ _ _ _ C)|apply create_alloc; right; apply W| |by apply create_dir_ok].
    apply create_keeps_dir; apply W.
  - intros a b Ha Hd Hb Hn. destruct (create_dir a Ha Hd) as [[-> Hz]|(Ha'&Hd'&Hne&Hsl)].
    { by rewrite Hz in Hn. }
    rewrite Hsl in Hn |- *. case_decide as D.
    + split; [by apply record_live|]. exists i. split; [done|apply (cr_alloc _ _ _ _ _ _ C)].
    + destruct (t_num _ T a b) as (?&c&?&?); [done..|]. split; [done|]. exists c. split; [done|].
      apply create_alloc. by right.
  - intros a b a' b' c [H1|(->&->&->)]%create_link [H2|(->&->&E)]%create_link; try done.
    + by apply (t_unique _ T a b a' b' c).
    + subst. destruct H1 as (Ha&Hd&Hb&Hn&Hc). destruct (t_num _ T a b) as (_&x&Ex&Hx); [done..|lia|].
      assert (x = i) as -> by lia. by destruct (cr_fresh _ _ _ _ _ _ C).
    + destruct H2 as (Ha&Hd&Hb&Hn&Hc). destruct (t_num _ T a' b') as (_&x&Ex&Hx); [done..|lia|].
      assert (x = i) as -> by lia. by destruct (cr_fresh _ _ _ _ _ _ C).
  - intros a b b' nm Ha Hd H1%create_entry H2%create_entry; [|done..].
    destruct H1 as [(->&->&->)|(Ha1&Hd1&_&E1)], H2 as [(E&->&E2)|(Ha2&Hd2&_&E2)].
    + done.
    + by destruct (Hnew b').
    + subst. by destruct (Hnew b).
    + by apply (t_names _ T a b b' nm).
  - intros a b nm Ha Hd H1%create_entry; [|done..].
    destruct H1 as [(->&->&->)|(Ha1&Hd1&_&E1)]; [done|]. by apply (t_dots _ T a b nm).
  - intros j Hj Hj0. apply create_alloc in Hj as [->|Hj].
    + exists d, k. apply create_link. by right.
    + destruct (t_linked _ T j Hj Hj0) as (a&b&Hab). exists a, b. apply create_link. by left.
  - intros j Hj Hnd. destruct (decide (j = i)) as [->|Hji]; [by apply (cr_nlink _ _ _ _ _ _ C)|].
    apply create_alloc in Hj as [?|Hj]; [done|].
    destruct (decide (j = d)) as [->|Hjd]; [destruct Hnd; apply (cr_parent' _ _ _ _ _ _ C)|].
    pose proof (fr_file _ _ _ (cr_frame _ _ _ _ _ _ C) j ltac:(tauto) Hj) as Hf.
    rewrite (core_nlinks _ _ (proj1 Hf)). apply T; [done|]. by rewrite <- (same_file_dir s s').
Qed.
End creation.

(** ** Removal *)

(** Record [k] of [d], which named inode [i], is cleared and [i] released. *)
Record removes (s s' : state) (d k i : nat) : Prop := {
  rm_frame : frame (λ j, j = i ∨ j = d) s s';
  rm_link : link s d k i;
  rm_parent : allocated s' d ∧ is_dir s' d;
  rm_gone : ¬ allocated s' i;
  rm_slot : d_num (slot s' d k) = 0%Z;
  rm_other : ∀ idx, idx ≠ k → slot s' d idx = slot s d idx;
  rm_nul : ∀ idx, idx < SLOTS → byte_at s' d (32 * idx + 27) = byte_at s d (32 * idx + 27);
  rm_size : ino_size (inode_at s' d) = ino_size (inode_at s d);
  rm_empty : is_dir s i → ∀ idx, idx < SLOTS → live (slot s i idx) = false;
}.

Section removal.
Context (s s' : state) (d k i : nat).
Hypothesis T : tree s.
Hypothesis R : removes s s' d k i.

Let W : wf s := t_wf s T.

Lemma remove_ne : d ≠ i ∧ i ≠ 0.
Proof.
  pose proof (rm_link _ _ _ _ _ R) as (Ha&Hd&Hk&Hn&Hi). split; [|done]. intros ->.
  destruct (t_num _ T i k Ha Hd Hk) as [Hl _]; [lia|]. by rewrite (rm_empty _ _ _ _ _ R) in Hl.
Qed.

Lemma remove_alloc j : allocated s' j ↔ j ≠ i ∧ allocated s j.
Proof.
  destruct (decide (j = i)) as [->|Hji]; [split; [|tauto]; by intros ?%(rm_gone _ _ _ _ _ R)|].
  destruct (decide (j = d)) as [->|Hjd].
  - destruct (rm_parent _ _ _ _ _ R), (rm_link _ _ _ _ _ R). by split.
  - rewrite (fr_alloc _ _ _ (rm_frame _ _ _ _ _ R)) by tauto. tauto.
Qed.

Lemma remove_file j : allocated s' j → j ≠ d → same_file s s' j.
Proof.
  intros Ha Hjd. apply remove_alloc in Ha as [Hne Ha].
  apply (fr_file _ _ _ (rm_frame _ _ _ _ _ R)); tauto.
Qed.

Lemma remove_dir j : allocated s' j → is_dir s' j ↔ is_dir s j.
Proof.
  intros Ha. destruct (decide (j = d)) as [->|Hjd]; [|by apply same_file_dir, remove_file].
  destruct (rm_parent _ _ _ _ _ R), (rm_link _ _ _ _ _ R) as (?&?&_). by split.
Qed.

Lemma remove_slots j idx : allocated s' j → (j, idx) ≠ (d, k) → slot s' j idx = slot s j idx.
Proof.
  intros Ha Hne. destruct (decide (j = d)) as [->|Hjd]; [|by apply same_file_slot, remove_file].
  apply (rm_other _ _ _ _ _ R). by intros ->.
Qed.

Lemma remove_entry a b nm : allocated s' a → entry s' a nm b → (a, b) ≠ (d, k) ∧ entry s a nm b.
Proof.
  intros Ha (Hb&Hl&He). assert (Hne : (a, b) ≠ (d, k)).
  { intros [= -> ->]. apply live_num in Hl. by rewrite (rm_slot _ _ _ _ _ R) in Hl. }
  rewrite remove_slots in Hl, He by done. done.
Qed.

Lemma remove_link a b c : link s' a b c ↔ link s a b c ∧ a ≠ i ∧ (a, b) ≠ (d, k).
Proof.
  split.
  - intros (Ha&Hd&Hb&Hn&Hc). assert (Hne : (a, b) ≠ (d, k)).
    { intros [= -> ->]. rewrite (rm_slot _ _ _ _ _ R) in Hn. lia. }
    rewrite remove_slots in Hn by done. apply remove_dir in Hd; [|done]. apply remove_alloc in Ha as [? ?]. done.
  - intros ((Ha&Hd&Hb&Hn&Hc)&Hai&Hne). assert (Ha' : allocated s' a) by (by apply remove_alloc).
    unfold link. by rewrite remove_dir, remove_slots.
Qed.

Lemma remove_dir_ok j : allocated s' j → is_dir s' j → dir_ok s' j.
Proof.
  intros Ha Hd. pose proof (proj1 (remove_dir j Ha) Hd) as Hd0.
  pose proof (proj1 (remove_alloc j) Ha) as [Hji Ha0]. pose proof (wf_dir _ W j Ha0 Hd0) as Hok.
  destruct (decide (j = d)) as [->|Hjd]; [|by eapply same_file_dir_ok; [apply remove_file|]].
  intros idx Hidx. destruct (Hok idx Hidx) as [Hn Hsz].
  rewrite (rm_nul _ _ _ _ _ R), (rm_size _ _ _ _ _ R) by done. split; [done|].
  destruct (decide (idx = k)) as [->|Hne]; [|by rewrite (rm_other _ _ _ _ _ R)].
  intros Hl%live_num. by rewrite (rm_slot _ _ _ _ _ R) in Hl.
Qed.

Lemma tree_remove : tree s'.
Proof.
  destruct remove_ne as [Hdi Hi0]. pose proof (rm_link _ _ _ _ _ R) as HL.
  constructor.
  - constructor; [apply (rm_frame _ _ _ _ _ R)| | |by apply remove_dir_ok].
    + apply remove_alloc. split; [lia|apply W].
    + apply remove_dir; [apply remove_alloc; split; [lia|apply W]|apply W].
  - intros a b Ha Hd Hb Hn. destruct (decide ((a, b) = (d, k))) as [[= -> ->]|Hne].
    { by rewrite (rm_slot _ _ _ _ _ R) in Hn. }
    rewrite remove_slots in Hn |- * by done.
    pose proof (proj1 (remove_dir a Ha) Hd) as Hd0. pose proof (proj1 (remove_alloc a) Ha) as [Hai Ha0].
    destruct (t_num _ T a b) as (?&c&Ec&Hc); [done..|]. split; [done|]. exists c. split; [done|].
    apply remove_alloc. split; [|done]. intros ->.
    assert (link s a b i) as Hl by (unfold link; by split_and!).
    destruct (t_unique _ T a b d k i Hl HL) as [-> ->]. done.
  - intros a b a' b' c [H1 _]%remove_link [H2 _]%remove_link. by apply (t_unique _ T a b a' b' c).
  - intros a b b' nm Ha Hd [_ H1]%remove_entry [_ H2]%remove_entry; [|done..].
    apply (t_names _ T a b b' nm); [|by apply remove_dir|done..]. by apply remove_alloc.
  - intros a b nm Ha Hd [_ H1]%remove_entry; [|done].
    apply (t_dots _ T a b nm); [|by apply remove_dir|done]. by apply remove_alloc.
  - intros j [Hji Hj]%remove_alloc Hj0. destruct (t_linked _ T j Hj Hj0) as (a&b&Hab). exists a, b.
    apply remove_link. split; [done|]. pose proof Hab as (Ha&Hd&Hb&Hn&_). split.
    + intros ->. destruct (t_num _ T i b Ha Hd Hb) as [Hl _]; [lia|]. by rewrite (rm_empty _ _ _ _ _ R) in Hl.
    + intros [= -> ->]. destruct HL as (_&_&_&E&_). rewrite E in Hn. lia.
  - intros j Hj Hnd. pose proof Hj as [Hji Hj0]%remove_alloc.
    destruct (decide (j = d)) as [->|Hjd]; [by destruct (rm_parent _ _ _ _ _ R)|].
    rewrite (core_nlinks _ _ (proj1 (remove_file j Hj Hjd))). apply T; [done|]. by rewrite <- remove_dir.
Qed.
End removal.
