(* ===== verification/WfsLookup.v ===== *)
(** Path resolution: [get_inode_from_path] against the naming relation.

    [child s d name i]: directory [d] has a record called [name] for inode
    [i].  [resolves s cur comps i]: following the components from [cur] leads
    to [i].  Under the namespace invariant resolution is a function, and
    [get_inode_from_path] computes it. *)

From stdpp Require Import base option list numbers.
From coqutil Require Import Byte Word.LittleEndianList.
From Stdlib Require Import ZArith Lia.
From S2P Require Import Prelude CString WfsBitmap WfsDisk WfsStore WfsBlocks WfsPath WfsDir WfsOps WfsFree WfsFrame WfsIO WfsSlots WfsTree.

Definition child (s : state) (d : nat) (name : cstr) (i : nat) : Prop :=
  is_dir s d ∧ ∃ k, entry s d name k ∧ d_num (slot s d k) = Z.of_nat i.

Inductive resolves (s : state) : nat → list cstr → nat → Prop :=
  | resolves_nil i : resolves s i [] i
  | resolves_cons d name i rest j : child s d name i → resolves s i rest j → resolves s d (name :: rest) j.

Lemma child_det s d name i j : tree s → allocated s d → child s d name i → child s d name j → i = j.
Proof.
  intros T Ha [Hd (k&Hk&Ek)] [_ (k'&Hk'&Ek')]. rewrite (t_names _ T d k k' name) in Ek by done. lia.
Qed.

Lemma child_allocated s d name i : tree s → allocated s d → child s d name i → allocated s i ∧ i ≠ 0.
Proof.
  intros T Ha [Hd (k&(Hk&Hl&_)&Ek)]. apply live_num in Hl.
  destruct (t_num _ T d k) as (_&x&Ex&Hx); [done..|]. assert (x = i) as -> by lia. split; [done|]. lia.
Qed.

Lemma resolves_det s d comps i j :
  tree s → allocated s d → resolves s d comps i → resolves s d comps j → i = j.
Proof.
  intros T Ha H1. revert j. induction H1 as [i|d name i rest j Hc H1 IH]; intros j' H2; inversion H2; subst; [done|].
  match goal with H : child s d name _ |- _ => rewrite <- (child_det _ _ _ _ _ T Ha Hc H) in * end.
  apply IH; [|done]. by eapply child_allocated.
Qed.

Lemma resolves_allocated s d comps i : tree s → allocated s d → resolves s d comps i → allocated s i.
Proof.
  intros T Ha H. induction H as [|d name i rest j Hc H IH]; [done|]. apply IH. by eapply child_allocated.
Qed.

Lemma resolves_app s d xs ys j :
  resolves s d (xs ++ ys) j ↔ ∃ i, resolves s d xs i ∧ resolves s i ys j.
Proof.
  revert d. induction xs as [|x xs IH]; intros d; simpl.
  - split; [intros H; exists d; split; [constructor|done]|]. intros (i&H1&H2). by inversion H1; subst.
  - split.
    + intros H. inversion H; subst. match goal with H : resolves _ _ (xs ++ ys) _ |- _ => apply IH in H as (i'&?&?) end.
      exists i'. split; [by econstructor|done].
    + intros (i&H1&H2). inversion H1; subst. econstructor; [done|]. apply IH. eauto.
Qed.

Lemma resolves_one s d name j : resolves s d [name] j ↔ child s d name j.
Proof.
  split.
  - intros H. inversion H as [|? ? ? ? ? Hc Hr]; subst. by inversion Hr; subst.
  - intros H. econstructor; [done|constructor].
Qed.

(** Resolution looks at directories only. *)
Lemma child_same s s' d name i :
  same_dir s s' d → (is_dir s' d ↔ is_dir s d) → child s' d name i ↔ child s d name i.
Proof.
  intros F Hd. unfold child. rewrite Hd.
  assert (∀ k, slot s' d k = slot s d k) as E by (intros; by apply same_dir_slot).
  unfold entry. setoid_rewrite E. done.
Qed.

Lemma resolves_dirs_kept s s' d comps i :
  tree s → dirs_kept s s' → allocated s d → resolves s' d comps i ↔ resolves s d comps i.
Proof.
  intros T K. revert d. induction comps as [|name comps IH]; intros d Ha.
  { split; intros H; inversion H; subst; constructor. }
  assert (Hc : ∀ j, child s' d name j ↔ child s d name j).
  { intros j. split; intros [Hd H].
    - apply (dk_dir _ _ K) in Hd as Hd'; [|done]. apply (child_same s s'); [by apply K|by apply K|]. by split.
    - apply (child_same s s'); [by apply K|by apply K|]. by split. }
  split; intros H; inversion H as [|? ? j ? ? Hcj Hr]; subst; econstructor.
  - by apply Hc.
  - apply IH; [|done]. apply Hc in Hcj. by eapply child_allocated.
  - by apply Hc.
  - apply IH; [|done]. by eapply child_allocated.
Qed.

(** ** The lookup routines *)

Lemma retrieve_inode_run s i : sinv s → allocated s i → retrieve_inode (Z.of_nat i) s = Some (Some i, s).
Proof.
  intros HS Hi. pose proof (si_geom _ HS) as G. pose proof (allocated_lt _ _ G Hi) as Hil.
  pose proof (g_ibm_small _ G). pose proof (g_ibm _ G).
  unfold retrieve_inode. rewrite (bind_run _ _ _ s s) by done. rewrite (g_inodes _ G).
  rewrite (proj2 (Z.ltb_ge _ _)), (proj2 (Z.leb_gt _ _)) by lia. cbn [orb]. rewrite u32_id by lia.
  rewrite (bind_run _ _ _ 1%Z s).
  - by rewrite Nat2Z.id.
  - unfold lift. rewrite bitmap_test_spec by (apply G || lia). unfold allocated in Hi. by rewrite Hi.
Qed.

Lemma dentry_to_num_child s d name :
  tree s → allocated s d → no_nul name →
  ∃ r, dentry_to_num name (Some d) s = Some (r, s) ∧
    ((∃ i, r = Z.of_nat i ∧ child s d name i) ∨
     (r = - ENOENT ∧ is_dir s d ∨ r = - ENOTDIR ∧ ¬ is_dir s d)%Z ∧ ∀ i, ¬ child s d name i).
Proof.
  intros T Ha Hnm. pose proof (t_sinv _ T) as HS. destruct (S_ISDIR (ino_mode (inode_at s d))) eqn:Hd.
  - destruct (dentry_to_num_run s d name) as (r&E&Hr); [done..|by apply T|done|].
    exists r. split; [done|]. destruct Hr as [(k&Hk&->&_)|[-> Hno]]; [left|right].
    + destruct (t_num _ T d k) as (_&i&Ei&_); [done|done|apply Hk|apply live_num, Hk|].
      exists i. split; [done|]. split; [done|]. by exists k.
    + split; [by left|]. intros i [_ (k&Hk&_)]. by apply (Hno k).
  - exists (- ENOTDIR)%Z. cbn [dentry_to_num].
    rewrite (bind_run _ _ _ _ _ (load_inode_run s d (allocated_lt _ _ (si_geom _ HS) Ha))), Hd.
    split; [done|]. right. unfold is_dir, child, is_dir. rewrite Hd. split; [right; done|]. by intros i [? _].
Qed.

(** The errors of a failed resolution. *)
Definition lookup_failed (s : state) (cur : nat) (comps : list cstr) (e : Z) : Prop :=
  (e = - ENOENT ∨ e = - ENOTDIR)%Z ∧ ∀ i, ¬ resolves s cur comps i.

Lemma walk_run s comps : ∀ cur,
  tree s → allocated s cur → Forall no_nul comps →
  ∃ r, walk cur comps s = Some (r, s) ∧
    match r with inr i => resolves s cur comps i | inl e => lookup_failed s cur comps e end.
Proof.
  induction comps as [|name comps IH]; intros cur T Ha Hn; cbn [walk].
  { exists (inr cur). split; [done|constructor]. }
  apply Forall_cons_1 in Hn as [Hnm Hn].
  destruct (dentry_to_num_child s cur name) as (r&E&Hr); [done..|].
  rewrite (bind_run _ _ _ _ _ E). destruct Hr as [(i&->&Hc)|[He Hno]].
  - rewrite (proj2 (Z.ltb_ge _ _)) by lia. destruct (child_allocated _ _ _ _ T Ha Hc) as [Hi _].
    rewrite (bind_run _ _ _ _ _ (retrieve_inode_run s i (t_sinv _ T) Hi)).
    destruct (IH i) as (r&E2&Hr); [done..|]. exists r. split; [done|]. destruct r as [e|j].
    + destruct Hr as [He Hno]. split; [exact He|]. intros j H. inversion H as [|? ? i' ? ? Hc' Hr']; subst.
      rewrite <- (child_det _ _ _ _ _ T Ha Hc Hc') in Hr'. by apply (Hno j).
    + by econstructor.
  - exists (inl r). rewrite (proj2 (Z.ltb_lt _ _)).
    + split; [done|]. split; [tauto|]. intros j H. inversion H; subst. by eapply Hno.
    + unfold ENOENT, ENOTDIR in *. lia.
Qed.

Definition comps (path : cstr) : list cstr := strtok_all SLASH path.

(** What a path lookup returns: the inode the path names, or an error. *)
Definition lookup_result (s : state) (path : cstr) (r : Z + nat) : Prop :=
  match r with
  | inr i => resolves s 0 (comps path) i
  | inl e => (e = - ENOMEM)%Z ∨ lookup_failed s 0 (comps path) e
  end.

Lemma comps_strip path : strtok_all SLASH (if bool_decide (head path = Some SLASH) then tl path else path) = comps path.
Proof.
  case_bool_decide as H; [|done]. destruct path as [|c path]; [done|]. simpl in H. injection H as ->.
  unfold comps. by rewrite strtok_all_delim.
Qed.

Lemma tree_set_calls s n : tree s → tree (set_calls n s).
Proof.
  intros T. apply (tree_dirs_kept s); [done|]. constructor; try done. by apply sinv_set_calls, T.
Qed.

Lemma get_inode_from_path_run s path :
  tree s → no_nul path →
  ∃ r n, get_inode_from_path path s = Some (r, set_calls n s) ∧ lookup_result s path r.
Proof.
  intros T Hn. pose proof (t_wf _ T) as W. unfold get_inode_from_path.
  assert (E0 : retrieve_inode 0 s = Some (Some 0, s)) by (apply (retrieve_inode_run s 0); apply W).
  rewrite (bind_run _ _ _ _ _ E0).
  destruct (streq path [SLASH]) eqn:Eq.
  { apply streq_true in Eq as ->. exists (inr 0), (calls s). split; [by destruct s|]. constructor. }
  rewrite (bind_run _ _ _ (env_malloc (env s) (calls s)) (set_calls (S (calls s)) s)) by done.
  destruct (env_malloc (env s) (calls s)); cbn [negb].
  2: { eexists (inl _), _. split; [done|]. by left. }
  rewrite comps_strip.
  destruct (walk_run (set_calls (S (calls s)) s) (comps path) 0) as (r&E&Hr);
    [by apply tree_set_calls|apply W|by apply strtok_all_no_nul|].
  assert (K : ∀ cur i, allocated s cur → resolves (set_calls (S (calls s)) s) cur (comps path) i ↔ resolves s cur (comps path) i).
  { intros cur i Hc. apply resolves_dirs_kept; [done| |done]. constructor; try done. by apply sinv_set_calls, T. }
  exists r, (S (calls s)). split; [done|]. destruct r as [e|i].
  - right. destruct Hr as [? Hno]. split; [done|]. intros i Hi. apply (Hno i). apply K; [apply W|done].
  - apply K in Hr; [done|apply W].
Qed.

(** Why [split_path] refuses a path. *)
Definition split_error (path : cstr) (e : Z) : Prop :=
  (e = - ENOENT ∧ head path ≠ Some SLASH ∨ e = - EINVAL ∧ path = [SLASH] ∨ e = - ENOMEM)%Z.

(** [split_path]: parent and leaf of an absolute path other than the root. *)
Lemma split_path_run s path :
  ∃ r n, split_path path s = Some (r, set_calls n s) ∧
    match r with
    | inl e => split_error path e
    | inr (dir, base) => dir = dirname path ∧ base = basename path ∧ head path = Some SLASH ∧ path ≠ [SLASH]
    end.
Proof.
  unfold split_path. case_bool_decide as Hh; cbn [negb].
  2: { exists (inl (- ENOENT)%Z), (calls s). split; [by destruct s|]. by left. }
  destruct (streq path [SLASH]) eqn:Eq.
  { apply streq_true in Eq. exists (inl (- EINVAL)%Z), (calls s). split; [by destruct s|]. by right; left. }
  apply streq_false in Eq. unfold split_error. run_bind. unfold malloc_ok. simpl.
  destruct (negb _ || negb _).
  { eexists (inl _), _. split; [done|]. by right; right. }
  simpl. destruct (negb _ || negb _).
  { eexists (inl _), _. split; [done|]. by right; right. }
  eexists (inr (_, _)), _. done.
Qed.
