(* ===== verification/WfsSpec.v ===== *)
(** Specifications of the FUSE operations over a namespace that satisfies
    [tree]: each returns, keeps the invariant, and has the stated effect.
    [target s path] is the inode the operations on [path] work on. *)

From stdpp Require Import base option list numbers.
From coqutil Require Import Byte Word.LittleEndianList.
From Stdlib Require Import ZArith Lia.
From S2P Require Import Prelude CString WfsBitmap WfsDisk WfsStore WfsBlocks WfsPath WfsDir WfsOps WfsFree WfsFrame WfsIO WfsSlots WfsTree WfsLookup.

(** [path], with escape sequences stripped, names inode [i]. *)
Definition target (s : state) (path : cstr) (i : nat) : Prop :=
  resolves s 0 (comps (clean_path path PATH_MAX)) i.

(** Why an operation could not look [path] up. *)
Definition lookup_error (s : state) (path : cstr) (e : Z) : Prop :=
  (e = - ENOMEM)%Z ∨ lookup_failed s 0 (comps (clean_path path PATH_MAX)) e.

Lemma strip_loop_sub b inp : ∀ sk o n, b ∈ strip_loop inp sk o n → b ∈ inp.
Proof.
  assert (H : ∀ m inp, length inp ≤ m → ∀ sk o n, b ∈ strip_loop inp sk o n → b ∈ inp).
  2: { intros. by eapply (H (length inp)). }
  intros m. induction m as [|m IH]; intros [|c rest] Hm sk o n; simpl in *; try done; [lia|].
  destruct sk.
  { case_decide; intros Hb%IH; (lia || by right). }
  case_decide; [|by intros ?%elem_of_nil]. destruct rest as [|d rest]; [done|].
  case_decide.
  - intros Hb%IH; [do 2 right; done|simpl in *; lia].
  - intros [->|Hb%IH]%elem_of_cons; [by left|by right|lia].
Qed.

Lemma no_nul_clean_path path n : no_nul path → no_nul (clean_path path n).
Proof.
  intros Hp. unfold clean_path. destruct (strip_ansi_codes path n) as [|c t] eqn:E.
  - by apply (bool_decide_eq_true_1 (no_nul _)).
  - intros H. apply Hp. rewrite <- E in H. by apply strip_loop_sub in H.
Qed.

Lemma frame_set_calls s n : sinv s → frame none s (set_calls n s).
Proof. intros HS. constructor; try done. by apply sinv_set_calls. Qed.

Lemma resolves_frame_none s s' d cs i :
  tree s → frame none s s' → allocated s d → resolves s' d cs i ↔ resolves s d cs i.
Proof. intros T F. apply resolves_dirs_kept; [done|]. by apply frame_none_dirs_kept. Qed.

(** The lookup every operation on an existing file starts with. *)
Lemma target_run s path :
  tree s → no_nul path →
  ∃ r n, get_inode_from_path (clean_path path PATH_MAX) s = Some (r, set_calls n s) ∧
    match r with inr i => target s path i ∧ allocated s i | inl e => lookup_error s path e end.
Proof.
  intros T Hp. destruct (get_inode_from_path_run s (clean_path path PATH_MAX)) as (r&n&E&Hr);
    [done|by apply no_nul_clean_path|].
  exists r, n. split; [done|]. destruct r as [e|i]; [done|]. split; [done|].
  eapply resolves_allocated; [done|apply T|done].
Qed.

(** ** Reading *)

Definition read_len (s : state) (i o n : nat) : nat := Nat.min n (Z.to_nat (ino_size (inode_at s i)) - o).

Lemma wfs_read_run s path o n :
  tree s → no_nul path → (Z.of_nat n < 2 ^ 31)%Z → (Z.of_nat o + Z.of_nat n < 2 ^ 63)%Z →
  ∃ r buf s', wfs_read path (Z.of_nat n) (Z.of_nat o) s = Some ((r, buf), s') ∧ frame none s s' ∧
    ((∃ i, target s path i ∧ allocated s i ∧
        if S_ISDIR (ino_mode (inode_at s i)) then r = (- EISDIR)%Z ∧ buf = []
        else r = Z.of_nat (length buf) ∧ buf = bytes_at s i o (read_len s i o n)) ∨
     lookup_error s path r ∧ buf = []).
Proof.
  intros T Hp Hn Hov. destruct (target_run s path T Hp) as (r&c&E&Hr). unfold wfs_read.
  rewrite (bind_run _ _ _ _ _ E). pose proof (t_sinv _ T) as HS. set (s1 := set_calls c s).
  pose proof (frame_set_calls s c HS) as F1. fold s1 in F1.
  destruct r as [e|i]; [by eexists _, _, s1; split; [done|]; auto|]. destruct Hr as [Ht Ha].
  assert (Hl : i < length (inodes s1)) by (apply (allocated_lt s); [apply HS|done]).
  rewrite (bind_run _ _ _ _ _ (load_inode_run s1 i Hl)). change (inode_at s1 i) with (inode_at s i).
  destruct (si_inode _ HS i Ha) as (_&_&Hsz).
  destruct (S_ISDIR (ino_mode (inode_at s i))) eqn:Hdir.
  { eexists _, _, s1. split; [done|]. split; [done|]. left. exists i. by rewrite Hdir. }
  destruct (Z.leb_spec (ino_size (inode_at s i)) (Z.of_nat o)).
  { eexists _, _, s1. split; [done|]. split; [done|]. left. exists i. rewrite Hdir. split_and!; try done.
    unfold read_len. by replace (_ - o) with 0 by lia; rewrite Nat.min_0_r. }
  assert (Etr : (if (ino_size (inode_at s i) <? Z.of_nat o + s64 (Z.of_nat n))%Z
    then u64 (ino_size (inode_at s i) - Z.of_nat o) else Z.of_nat n) = Z.of_nat (read_len s i o n)).
  { rewrite s64_id by lia. unfold read_len. destruct (Z.ltb_spec (ino_size (inode_at s i)) (Z.of_nat o + Z.of_nat n)).
    - rewrite u64_id by lia. lia.
    - lia. }
  rewrite Etr. set (m := read_len s i o n) in *. rewrite Nat2Z.id.
  assert (HS1 : sinv s1) by apply F1.
  destruct (read_loop_run i o m m 0 [] s1) as (e&El); [done..|lia|lia|].
  rewrite (bind_run _ _ _ _ _ El). cbn beta iota. rewrite Nat.add_0_r, Nat.sub_0_r. simpl app.
  change (bytes_at s1) with (bytes_at s).
  assert (Fe : frame none s (set_error e s1)).
  { eapply frame_trans; [exact F1|]. apply frame_grown. by apply grown_set_error. }
  assert (H2 : ∃ s2, (if (0 <? Z.of_nat m)%Z then wfs_update_times (Some i) true false false else mret ())
    (set_error e s1) = Some ((), s2) ∧ frame none s s2).
  { destruct (0 <? Z.of_nat m)%Z; [|by eexists].
    destruct (touch_run (set_error e s1) i true false false) as (s2&E2&F2&_); [apply Fe|done|].
    exists s2. split; [done|]. by eapply frame_trans. }
  destruct H2 as (s2&E2&F2). rewrite (bind_run _ _ _ _ _ E2).
  eexists _, _, s2. split; [done|]. split; [done|]. left. exists i. rewrite Hdir. split_and!; try done.
  rewrite length_bytes_at, s32_id; [done|]. unfold m, read_len. lia.
Qed.

(** ** Writing *)

Lemma frame_wrote s s' i o bs : sinv s' → same_meta s s' → wrote s s' i o bs → frame (.= i) s s'.
Proof.
  intros HS M W. constructor; [done|apply M..| |].
  - intros. by apply same_meta_allocated.
  - intros j Hj Ha. split; [by apply same_meta_core|]. intros q. rewrite (W j q Ha), decide_False; tauto.
Qed.

(** The end of a successful write: size and timestamps. *)
Lemma write_finish s i new_end done_ :
  sinv s → allocated s i → (0 ≤ new_end < 2 ^ 63)%Z →
  ∃ s', (i0 ← load_inode i;
         (if (ino_size i0 <? new_end)%Z then update_inode i (with_size new_end) else mret ());;
         (if (0 <? done_)%Z then wfs_update_times (Some i) false true true else mret ());;
         mret (s32 done_)) s = Some (s32 done_, s') ∧
    frame (.= i) s s' ∧ allocated s' i ∧ (∀ o, byte_at s' i o = byte_at s i o) ∧
    core (inode_at s' i) = core (with_size (Z.max (ino_size (inode_at s i)) new_end) (inode_at s i)).
Proof.
  intros HS Hi Hn. rewrite (bind_run _ _ _ _ _ (load_inode_run s i (allocated_lt _ _ (si_geom _ HS) Hi))).
  destruct (extend_run s i new_end HS Hi Hn) as (s1&E1&F1&A1&B1&C1). rewrite (bind_run _ _ _ _ _ E1).
  destruct (0 <? done_)%Z.
  2: { exists s1. split_and!; done. }
  destruct (touch_run s1 i false true true (fr_sinv _ _ _ F1) A1) as (s2&E2&F2&_).
  rewrite (bind_run _ _ _ _ _ E2). exists s2. split; [done|].
  destruct (frame_none_file _ _ _ F2 A1) as [C2 B2].
  split; [eapply frame_trans; [done|by apply frame_none]|]. split_and!.
  - by apply (frame_none_alloc _ _ _ F2).
  - intros o. by rewrite B2.
  - by rewrite C2.
Qed.

(** Outcome of a write of [buf] at [o] to regular file [i]. *)
Definition written (s s' : state) (i o : nat) (buf : list byte) (r : Z) : Prop :=
  (r = Z.of_nat (length buf) ∧ wrote s s' i o buf ∧
   core (inode_at s' i) =
     core (with_size (Z.max (ino_size (inode_at s i)) (Z.of_nat (o + length buf))) (inode_at s i)) ∧
   (buf = [] ∨ o + length buf ≤ 70 * 512)) ∨
  (r = (- ENOSPC)%Z ∧ ∃ k, k < length buf ∧ wrote s s' i o (take k buf) ∧
   core (inode_at s' i) = core (inode_at s i) ∧ (70 ≤ (o + k) / 512 ∨ full s')).

Lemma wrote_set_calls s c s' i o bs : wrote (set_calls c s) s' i o bs → wrote s s' i o bs.
Proof. done. Qed.

Lemma write_body s i o buf :
  sinv s → allocated s i → (Z.of_nat (length buf) < 2 ^ 31)%Z → (Z.of_nat (o + length buf) < 2 ^ 63)%Z →
  ∃ r s', (r ← write_loop (length buf) i buf (Z.of_nat o) (Z.of_nat (length buf)) 0;
           match r with
           | None => error_or_nospc
           | Some done =>
               let new_end := (Z.of_nat o + done)%Z in
               i0 ← load_inode i;
               (if (ino_size i0 <? new_end)%Z then update_inode i (with_size new_end) else mret ());;
               (if (0 <? done)%Z then wfs_update_times (Some i) false true true else mret ());;
               mret (s32 done)
           end) s = Some (r, s') ∧
    frame (.= i) s s' ∧ allocated s' i ∧ written s s' i o buf r.
Proof.
  intros HS Hi Hn Hov.
  destruct (write_loop_run i o buf (length buf) 0 s) as (r&s1&E&HS1&M1&Hr); [done|done|lia|lia|].
  change 0%Z with (Z.of_nat 0). rewrite (bind_run _ _ _ _ _ E). rewrite Nat.add_0_r in Hr.
  assert (Hi1 : allocated s1 i) by (by apply (same_meta_allocated s s1)).
  destruct r as [x|].
  - destruct Hr as (->&W&_&Hlen). rewrite drop_0 in W.
    destruct (write_finish s1 i (Z.of_nat o + Z.of_nat (length buf)) (Z.of_nat (length buf)))
      as (s2&E2&F2&A2&B2&C2); [done|done|lia|].
    eexists _, s2. split; [exact E2|]. split; [|split; [done|]].
    + eapply frame_trans; [by eapply frame_wrote|done].
    + left. split; [apply s32_id; lia|]. split_and!.
      * intros j q Hj. rewrite <- (W j q Hj). destruct (decide (j = i)) as [->|]; [by rewrite B2|].
        destruct (fr_file _ _ _ F2 j) as [_ B]; [done|by apply (same_meta_allocated s s1)|]. by rewrite B.
      * rewrite C2, (same_meta_size _ _ i M1), Nat2Z.inj_add.
        pose proof (sm_meta _ _ M1 i) as Em. destruct (inode_at s1 i), (inode_at s i).
        unfold meta, with_blocks in Em. simpl in Em. injection Em as -> -> -> -> -> -> -> -> -> ->. done.
      * destruct Hlen as [Hl|]; [left; by apply nil_length_inv|by right].
  - destruct Hr as (k&Hk&W&He&Hfull). rewrite Nat.sub_0_r, drop_0 in W.
    exists (- ENOSPC)%Z, s1. split; [|split; [by eapply frame_wrote|split; [done|]]].
    + unfold error_or_nospc, gets. run_bind. by rewrite He.
    + right. split; [done|]. exists k. split_and!; [lia|done|by apply same_meta_core|done].
Qed.

Lemma wfs_write_run s path buf o :
  tree s → no_nul path → (Z.of_nat (length buf) < 2 ^ 31)%Z → (Z.of_nat (o + length buf) < 2 ^ 63)%Z →
  ∃ r s', wfs_write path buf (Z.of_nat o) s = Some (r, s') ∧ tree s' ∧ dirs_kept s s' ∧
    ((∃ i, target s path i ∧ allocated s i ∧ ¬ is_dir s i ∧ frame (.= i) s s' ∧ written s s' i o buf r) ∨
     (∃ i, target s path i ∧ is_dir s i ∧ r = (- EISDIR)%Z ∧ frame none s s') ∨
     lookup_error s path r ∧ frame none s s').
Proof.
  intros T Hp Hn Hov. destruct (target_run s path T Hp) as (r&c&E&Hr). unfold wfs_write.
  rewrite (bind_run _ _ _ _ _ E). pose proof (t_sinv _ T) as HS. set (s1 := set_calls c s).
  pose proof (frame_set_calls s c HS) as F1. fold s1 in F1.
  assert (Tn : ∀ s2, frame none s s2 → tree s2 ∧ dirs_kept s s2).
  { intros s2 F. pose proof (frame_none_dirs_kept _ _ F). split; [by eapply tree_dirs_kept|done]. }
  destruct r as [e|i].
  { exists e, s1. destruct (Tn s1 F1). split_and!; try done. right; right. done. }
  destruct Hr as [Ht Ha]. assert (Hl : i < length (inodes s1)) by (apply (allocated_lt s); [apply HS|done]).
  rewrite (bind_run _ _ _ _ _ (load_inode_run s1 i Hl)). change (inode_at s1 i) with (inode_at s i).
  destruct (S_ISDIR (ino_mode (inode_at s i))) eqn:Hdir.
  { exists (- EISDIR)%Z, s1. destruct (Tn s1 F1). split_and!; try done. right; left. by exists i. }
  destruct (write_body s1 i o buf) as (r&s2&E2&F2&A2&W2); [apply F1|done..|].
  exists r, s2. split; [exact E2|].
  assert (F : frame (.= i) s s2) by (eapply frame_trans; [by apply frame_none|done]).
  assert (Hnd : ¬ is_dir s i) by (unfold is_dir; by rewrite Hdir).
  assert (Hcore : ino_mode (inode_at s2 i) = ino_mode (inode_at s i) ∧
                  ino_nlinks (inode_at s2 i) = ino_nlinks (inode_at s i)).
  { destruct W2 as [(_&_&C&_)|(_&k&_&_&C&_)]; by rewrite (core_mode _ _ C), (core_nlinks _ _ C). }
  assert (K : dirs_kept s s2) by (apply (frame_file_dirs_kept s s2 i); try done; apply Hcore).
  split; [by eapply tree_dirs_kept|]. split; [done|]. left. exists i. split_and!; try done.
Qed.
