(* ===== verification/WfsCreate.v ===== *)
(** Creation: [wfs_mknod] and [wfs_mkdir] over a namespace that satisfies
    [tree]. *)

From stdpp Require Import base option list numbers.
From coqutil Require Import Byte Word.LittleEndianList.
From Stdlib Require Import ZArith Lia.
From S2P Require Import Prelude CString WfsBitmap WfsDisk WfsStore WfsBlocks WfsPath WfsDir WfsOps WfsFree WfsFrame WfsIO WfsSlots WfsTree WfsLookup WfsSpec.

Definition no_blocks (s : state) (i : nat) : Prop := ∀ q, pos_ok q → ptr_at s i q = 0%Z.

Lemma no_blocks_bytes s i o : no_blocks s i → byte_at s i o = NUL.
Proof.
  intros H. unfold byte_at. destruct (decide (o / 512 < 70)) as [Hk|]; [|done]. simpl.
  by rewrite H by (by apply leaf_pos_ok).
Qed.

(** Rewriting an inode that has no blocks. *)
Lemma rewrite_empty s i x :
  sinv s → allocated s i → no_blocks s i → inode_ok i x → ino_blocks x = replicate 8 0%Z →
  let s' := write_inode i x s in
  frame (.= i) s s' ∧ allocated s' i ∧ no_blocks s' i ∧ inode_at s' i = x.
Proof.
  intros HS Hi Hz Hx Hbl s'. pose proof (allocated_lt _ _ (si_geom _ HS) Hi) as Hil.
  assert (Ein : ∀ j, inode_at s' j = if decide (j = i) then x else inode_at s j).
  { intros j. unfold s'. by rewrite inode_at_write. }
  assert (Hz' : no_blocks s' i).
  { assert (∀ k, dptr s' i k = 0%Z) as Hd.
    { intros k. unfold dptr. rewrite Ein, decide_True, Hbl by done.
      destruct (replicate 8 0%Z !! k) eqn:E; [|done]. by apply lookup_replicate in E as [-> _]. }
    intros [k| |n] _; simpl; rewrite Hd; [done..|]. by rewrite decide_True. }
  assert (Hp : ∀ j q, j ≠ i → ptr_at s' j q = ptr_at s j q) by (intros; by apply ptr_at_write_inode_other).
  split; [|split_and!; [done|done|by rewrite Ein, decide_True]]. constructor; try done.
  - apply (sinv_same s); try done; [apply geom_write_inode, HS| |].
    + intros j Hj. rewrite Ein. case_decide; [by subst|by apply si_inode].
    + intros j q Hj Hq. destruct (decide (j = i)) as [->|]; [by rewrite Hz', Hz|by apply Hp].
  - intros j Hj Ha. split; [by rewrite Ein, decide_False|]. intros o. apply byte_at_ptrs; [|done].
    intros p. by apply Hp.
Qed.

Lemma fillin_inode_run s i mode :
  sinv s → allocated s i → no_blocks s i →
  ∃ s', fillin_inode i mode s = Some ((), s') ∧ frame (.= i) s s' ∧ allocated s' i ∧ no_blocks s' i ∧
    core (inode_at s' i) =
      core (mk_inode (Z.of_nat i) mode (env_uid (env s)) (env_gid (env s)) 0 1 0 0 0 WFS_COLOR_NONE []).
Proof.
  intros HS Hi Hz. destruct (si_inode _ HS i Hi) as (En&_&_). unfold fillin_inode.
  rewrite (bind_run _ _ _ (env_uid (env s)) s) by done. rewrite (bind_run _ _ _ (env_gid (env s)) s) by done.
  rewrite (bind_run _ _ _ _ _ (update_inode_run s i _ (allocated_lt _ _ (si_geom _ HS) Hi))).
  match goal with |- context [write_inode i ?x s] => set (x0 := x) end.
  destruct (rewrite_empty s i x0) as (F1&A1&Z1&I1); try done.
  destruct (touch_run _ i true true true (fr_sinv _ _ _ F1) A1) as (s2&E2&F2&_&Hp2).
  exists s2. split; [done|]. destruct (frame_none_file _ _ _ F2 A1) as [C2 _]. split_and!.
  - eapply frame_trans; [done|by apply frame_none].
  - by apply (frame_none_alloc _ _ _ F2).
  - intros q Hq. rewrite Hp2. by apply Z1.
  - rewrite C2, I1. unfold x0. by rewrite En.
Qed.

(** A name that is not in the directory is added to it, unless it is too
    long or there is no room. *)
Lemma add_dentry_run s d num name :
  sinv s → allocated s d → is_dir s d → dir_ok s d → no_nul name → name ≠ [] →
  (∀ k, ¬ entry s d name k) → (- 2 ^ 31 ≤ num < 2 ^ 31)%Z →
  ∃ r s', add_dentry (Some d) num name s = Some (r, s') ∧
    ((r = 0%Z ∧ length name < 28 ∧ ∃ k, k < SLOTS ∧ live (slot s d k) = false ∧
        (∀ m, m < k → live (slot s d m) = true) ∧ added s s' d k num name) ∨
     (r = - ENOSPC ∨ r = - ENAMETOOLONG)%Z ∧ frame none s s' ∧ ptrs_kept d s s').
Proof.
  intros HS Hd Hdir Hok Hnm Hne Hno Hnum. cbn [add_dentry].
  rewrite (bind_run _ _ _ _ _ (load_inode_run s d (allocated_lt _ _ (si_geom _ HS) Hd))), Hdir. cbn [negb].
  destruct (dentry_to_num_run s d name) as (r&E&Hr); [done..|].
  destruct Hr as [(k&Hk&_)|[-> _]]; [by apply Hno in Hk|].
  rewrite (bind_run _ _ _ _ _ E). change (0 <=? - ENOENT)%Z with false. cbn iota.
  assert (Hlen : 0 < length name) by (by destruct name; simpl; [|lia]).
  rewrite (proj2 (Z.eqb_neq _ 0)) by disk_lia. cbn [orb].
  destruct (Z.leb_spec MAX_NAME (Z.min (Z.of_nat (length name)) MAX_NAME)).
  { eexists _, s. split; [done|]. right. split; [by right|]. split; [by apply frame_refl|done]. }
  destruct (add_dentry_loop_run d num name 96 0 s) as (r&s'&E2&H2); [done..|].
  exists r, s'. split; [exact E2|]. destruct H2 as [(->&k&Hk&Hf&Hm&A)|(->&F&K)].
  - left. split; [done|]. split; [disk_lia|]. exists k. split_and!; [lia|done| |done]. intros m Hm'. apply Hm. lia.
  - right. split; [by left|done].
Qed.

(** ** Composing a creation *)

Lemma frame_restore i d s s' :
  frame (λ j, j = i ∨ j = d) s s' → ¬ allocated s i → ¬ allocated s' i →
  allocated s d → allocated s' d → same_file s s' d → frame none s s'.
Proof.
  intros F Hi Hi' Hd Hd' Hf. constructor; try apply F.
  - intros j _. destruct (decide (j = i)) as [->|]; [done|]. destruct (decide (j = d)) as [->|]; [done|].
    apply F. tauto.
  - intros j _ Hj. destruct (decide (j = d)) as [->|]; [done|]. apply F; [|done]. intros [->| ->]; done.
Qed.

Lemma frame_or_l (X Y : nat → Prop) s s' : frame X s s' → frame (λ j, X j ∨ Y j) s s'.
Proof. apply frame_mono. tauto. Qed.
Lemma frame_or_r (X Y : nat → Prop) s s' : frame Y s s' → frame (λ j, X j ∨ Y j) s s'.
Proof. apply frame_mono. tauto. Qed.

(** [s'] has a new inode [i], not yet named, and differs from [s] otherwise
    in the link count of [d] at most. *)
Record prepared (s s' : state) (d i : nat) : Prop := {
  pr_frame : frame (λ j, j = i ∨ j = d) s s';
  pr_fresh : ¬ allocated s i;
  pr_alloc : allocated s' i;
  pr_blocks : no_blocks s' i;
  pr_parent : allocated s' d;
  pr_mode : ino_mode (inode_at s' d) = ino_mode (inode_at s d);
  pr_size : ino_size (inode_at s' d) = ino_size (inode_at s d);
  pr_bytes : ∀ o, byte_at s' d o = byte_at s d o;
  pr_nlink : ¬ is_dir s' i → ino_nlinks (inode_at s' i) = 1%Z;
  pr_small : i < length (inodes s);
}.

Section prepared.
Context (s s3 : state) (d i : nat) (name : cstr).
Hypothesis T : tree s.
Hypothesis Hd : allocated s d.
Hypothesis Hdir : is_dir s d.
Hypothesis P : prepared s s3 d i.

Lemma prepared_ne : d ≠ i.
Proof. intros ->. by destruct (pr_fresh _ _ _ _ P). Qed.

Lemma prepared_slot k : slot s3 d k = slot s d k.
Proof. apply slot_same. intros. apply (pr_bytes _ _ _ _ P). Qed.

Lemma prepared_dir : is_dir s3 d.
Proof. unfold is_dir. by rewrite (pr_mode _ _ _ _ P). Qed.

Lemma prepared_dir_ok : dir_ok s3 d.
Proof.
  intros idx Hidx. rewrite prepared_slot, (pr_bytes _ _ _ _ P), (pr_size _ _ _ _ P).
  by apply (wf_dir _ (t_wf _ T)).
Qed.

Lemma prepared_entry k : entry s3 d name k ↔ entry s d name k.
Proof. unfold entry. by rewrite prepared_slot. Qed.

Lemma prepared_creates s4 k :
  k < SLOTS → live (slot s d k) = false → added s3 s4 d k (Z.of_nat i) name → creates s s4 d k i name.
Proof.
  intros Hk Hl (U&Hs&Hz). pose proof prepared_ne as Hne. pose proof (du_frame _ _ _ _ U) as F.
  destruct (fr_file _ _ _ F i) as [Ci Bi]; [done|apply (pr_alloc _ _ _ _ P)|].
  constructor.
  - eapply frame_trans; [apply (pr_frame _ _ _ _ P)|]. by apply frame_or_r.
  - done.
  - split; [apply (du_alloc _ _ _ _ U)|]. unfold is_dir. rewrite (du_mode _ _ _ _ U). apply prepared_dir.
  - apply (pr_fresh _ _ _ _ P).
  - apply (fr_alloc _ _ _ F); [done|apply (pr_alloc _ _ _ _ P)].
  - done.
  - intros idx Hi. rewrite (du_other _ _ _ _ U) by done. apply prepared_slot.
  - intros idx Hi. rewrite (du_nul _ _ _ _ U) by done. apply (pr_bytes _ _ _ _ P).
  - by rewrite Hz, (pr_size _ _ _ _ P).
  - intros o. rewrite Bi. apply no_blocks_bytes, (pr_blocks _ _ _ _ P).
  - intros Hnd. rewrite (core_nlinks _ _ Ci). apply (pr_nlink _ _ _ _ P).
    intros H. apply Hnd. unfold is_dir in *. by rewrite (core_mode _ _ Ci).
Qed.
End prepared.

(** The inode [fillin_inode] sets up. *)
Definition new_inode (s : state) (i : nat) (mode nlinks : Z) : wfs_inode :=
  mk_inode (Z.of_nat i) mode (env_uid (env s)) (env_gid (env s)) 0 nlinks 0 0 0 WFS_COLOR_NONE [].

(** Outcome of creating [name] in directory [d]. *)
Definition create_outcome (s s' : state) (d : nat) (name : cstr) (mode nlinks r : Z) : Prop :=
  (r = 0%Z ∧ length name < 28 ∧ ∃ k i, creates s s' d k i name ∧
     core (inode_at s' i) = core (new_inode s i mode nlinks)) ∨
  (r = - ENOSPC ∨ r = - ENAMETOOLONG)%Z ∧ frame none s s'.

Lemma inode_num_range s i : geom s → i < length (inodes s) → (- 2 ^ 31 ≤ Z.of_nat i < 2 ^ 31)%Z.
Proof. intros G Hi. pose proof (g_ibm_small _ G). pose proof (g_ibm _ G). lia. Qed.

Lemma alloc_failed s e :
  sinv s → (e = - ENOSPC)%Z →
  error_or_nospc (set_error e s) = Some (e, set_error e s) ∧ frame none s (set_error e s).
Proof.
  intros HS ->. split; [done|]. apply frame_grown. by apply grown_set_error.
Qed.

Lemma not_allocated_again s s' i d : frame (.= d) s s' → i ≠ d → ¬ allocated s i → ¬ allocated s' i.
Proof. intros F Hne H. by rewrite (fr_alloc _ _ _ F). Qed.

Lemma mknod_tail s d name mode :
  tree s → allocated s d → is_dir s d → no_nul name → name ≠ [] → (∀ k, ¬ entry s d name k) →
  S_ISDIR mode = false →
  ∃ r s',
    (ip ← allocate_inode;
     match ip with
     | None => error_or_nospc
     | Some inode =>
         fillin_inode inode mode;;
         i ← load_inode inode;
         rc ← add_dentry (Some d) (ino_num i) name;
         if (rc <? 0)%Z then free_inode (Some inode);; mret rc else mret 0%Z
     end) s = Some (r, s') ∧ create_outcome s s' d name mode 1 r.
Proof.
  intros T Hd Hdir Hnm Hne Hno Hm. pose proof (t_sinv _ T) as HS.
  destruct (allocate_inode_run s HS) as [[_ E]|(i&s2&E&Hi&Hfresh&_&F2&A2&_&Z2&_)]; rewrite (bind_run _ _ _ _ _ E).
  { destruct (alloc_failed s (- ENOSPC)%Z HS eq_refl) as [Ee F]. eexists _, _. split; [exact Ee|]. right. by split; [left|]. }
  destruct (fillin_inode_run s2 i mode (fr_sinv _ _ _ F2) A2 Z2) as (s3&E3&F3&A3&Z3&C3).
  rewrite (bind_run _ _ _ _ _ E3). rewrite (fr_env _ _ _ F2) in C3.
  pose proof (frame_trans _ _ _ _ F2 F3) as F. pose proof (fr_sinv _ _ _ F) as HS3.
  assert (Hdi : d ≠ i) by (by intros ->). destruct (fr_file _ _ _ F d Hdi Hd) as [Cd Bd].
  assert (P : prepared s s3 d i).
  { constructor; try done; [by apply frame_or_l|by apply (fr_alloc _ _ _ F)|by apply core_mode|by apply core_size|].
    intros _. by rewrite (core_nlinks _ _ C3). }
  rewrite (bind_run _ _ _ _ _ (load_inode_run s3 i (allocated_lt _ _ (si_geom _ HS3) A3))).
  rewrite (core_num _ _ C3). simpl ino_num.
  destruct (add_dentry_run s3 d (Z.of_nat i) name) as (r&s4&E4&H4); try done.
  { apply (pr_parent _ _ _ _ P). } { by apply (prepared_dir s s3 d i). } { by apply (prepared_dir_ok s s3 d i). }
  { intros k. by rewrite (prepared_entry s s3 d i). } { by apply (inode_num_range s); [apply HS|]. }
  rewrite (bind_run _ _ _ _ _ E4).
  destruct H4 as [(->&HL&k&Hk&Hl&_&A)|(Hr&F4&K4)].
  - exists 0%Z, s4. split; [done|]. left. split; [done|]. split; [done|]. exists k, i.
    rewrite (prepared_slot s s3 d i) in Hl by done. split; [by eapply prepared_creates|].
    destruct A as (U&_). destruct (fr_file _ _ _ (du_frame _ _ _ _ U) i) as [C4 _]; [done|done|]. by rewrite C4.
  - rewrite (proj2 (Z.ltb_lt _ _)) by (unfold ENOSPC, ENAMETOOLONG in Hr; lia).
    assert (A4 : allocated s4 i) by (by apply (frame_none_alloc _ _ _ F4)).
    destruct (free_inode_run s4 i) as (s5&E5&F5&N5&_); [apply F4|done| |].
    { intros q Hq. rewrite K4 by done. by apply Z3. }
    rewrite (bind_run _ _ _ _ _ E5). exists r, s5. split; [done|]. right. split; [done|].
    assert (F05 : frame (.= i) s s5).
    { eapply frame_trans; [exact F|]. eapply frame_trans; [by apply frame_none|exact F5]. }
    apply (frame_within i); [done|split; done|done].
Qed.

Lemma core_nlinks_congr x y f :
  core x = core y → core (with_nlinks (f (ino_nlinks x)) x) = core (with_nlinks (f (ino_nlinks y)) y).
Proof.
  destruct x, y. unfold core, meta, with_blocks, with_times, with_nlinks. simpl.
  intros [= -> -> -> -> -> -> ->]. done.
Qed.

(** Changing the link count of an inode. *)
Lemma nlinks_run s i f :
  sinv s → allocated s i →
  ∃ s', update_inode i (λ x, with_nlinks (f (ino_nlinks x)) x) s = Some ((), s') ∧ frame (.= i) s s' ∧
    allocated s' i ∧ inode_at s' i = with_nlinks (f (ino_nlinks (inode_at s i))) (inode_at s i) ∧
    (∀ o, byte_at s' i o = byte_at s i o) ∧ (∀ j p, ptr_at s' j p = ptr_at s j p).
Proof.
  intros HS Hi. destruct (update_meta_run s i (λ x, with_nlinks (f (ino_nlinks x)) x)) as (s'&E&F&A&Ei&B&_&Hp); [done..| |].
  - split_and!; try done; apply (si_inode _ HS i Hi).
  - exists s'. split_and!; done.
Qed.

Lemma mkdir_prepare s d mode i s2 :
  tree s → allocated s d → is_dir s d → S_ISDIR mode = true →
  i < length (inodes s) → ¬ allocated s i → frame (.= i) s s2 → allocated s2 i → no_blocks s2 i →
  ∃ s3, (fillin_inode i mode;; update_inode i (with_nlinks 2);;
         update_inode d (λ i, with_nlinks (ino_nlinks i + 1) i)) s2 = Some ((), s3) ∧
    prepared s s3 d i ∧ core (inode_at s3 i) = core (new_inode s i mode 2) ∧
    core (inode_at s3 d) = core (with_nlinks (ino_nlinks (inode_at s d) + 1) (inode_at s d)).
Proof.
  intros T Hd Hdir Hm Hi Hfresh F2 A2 Z2.
  destruct (fillin_inode_run s2 i mode (fr_sinv _ _ _ F2) A2 Z2) as (s3&E3&F3&A3&Z3&C3).
  rewrite (bind_run _ _ _ _ _ E3). rewrite (fr_env _ _ _ F2) in C3.
  destruct (nlinks_run s3 i (λ _, 2%Z) (fr_sinv _ _ _ F3) A3) as (s4&E4&F4&A4&I4&B4&P4).
  rewrite (bind_run _ _ _ _ _ E4).
  assert (F04 : frame (.= i) s s4) by (eapply frame_trans; [exact F2|]; by eapply frame_trans).
  assert (Hdi : d ≠ i) by (by intros ->).
  assert (Hd4 : allocated s4 d) by (by apply (fr_alloc _ _ _ F04)).
  destruct (fr_file _ _ _ F04 d Hdi Hd) as [Cd Bd].
  destruct (nlinks_run s4 d (λ n, n + 1)%Z (fr_sinv _ _ _ F4) Hd4) as (s5&E5&F5&A5&I5&B5&P5).
  destruct (fr_file _ _ _ F5 i) as [Ci Bi]; [done|done|].
  assert (Ci' : core (inode_at s5 i) = core (new_inode s i mode 2)).
  { rewrite Ci, I4. exact (core_nlinks_congr _ _ (λ _, 2%Z) C3). }
  exists s5. split; [exact E5|]. split; [|split; [done|]].
  - constructor; try done.
    + eapply frame_trans; [apply frame_or_l; exact F04|]. by apply frame_or_r.
    + by apply (fr_alloc _ _ _ F5).
    + intros q Hq. rewrite P5, P4. by apply Z3.
    + rewrite I5. simpl. by apply core_mode.
    + rewrite I5. simpl. by apply core_size.
    + intros o. by rewrite B5.
    + intros Hnd. destruct Hnd. unfold is_dir. by rewrite (core_mode _ _ Ci').
  - rewrite I5. exact (core_nlinks_congr _ _ (λ n, n + 1)%Z Cd).
Qed.

Lemma mkdir_tail s d name mode :
  tree s → allocated s d → is_dir s d → no_nul name → name ≠ [] → (∀ k, ¬ entry s d name k) →
  S_ISDIR mode = true →
  ∃ r s',
    (ip ← allocate_inode;
     match ip with
     | None => error_or_nospc
     | Some inode =>
         fillin_inode inode mode;;
         update_inode inode (with_nlinks 2);;
         update_inode d (λ i, with_nlinks (ino_nlinks i + 1) i);;
         i ← load_inode inode;
         rc ← add_dentry (Some d) (ino_num i) name;
         if (rc <? 0)%Z then
           free_inode (Some inode);;
           update_inode d (λ i, with_nlinks (ino_nlinks i - 1) i);;
           mret rc
         else mret 0%Z
     end) s = Some (r, s') ∧ create_outcome s s' d name mode 2 r.
Proof.
  intros T Hd Hdir Hnm Hne Hno Hm. pose proof (t_sinv _ T) as HS.
  destruct (allocate_inode_run s HS) as [[_ E]|(i&s2&E&Hi&Hfresh&_&F2&A2&_&Z2&_)]; rewrite (bind_run _ _ _ _ _ E).
  { destruct (alloc_failed s (- ENOSPC)%Z HS eq_refl) as [Ee F]. eexists _, _. split; [exact Ee|]. right. by split; [left|]. }
  destruct (mkdir_prepare s d mode i s2) as (s3&E3&P&C3&Cd3); try done.
  rewrite (seq3_run _ _ _ _ _ _ E3).
  pose proof (pr_frame _ _ _ _ P) as F. pose proof (fr_sinv _ _ _ F) as HS3. pose proof (pr_alloc _ _ _ _ P) as A3.
  assert (Hdi : d ≠ i) by (by intros ->).
  rewrite (bind_run _ _ _ _ _ (load_inode_run s3 i (allocated_lt _ _ (si_geom _ HS3) A3))).
  rewrite (core_num _ _ C3). simpl ino_num.
  destruct (add_dentry_run s3 d (Z.of_nat i) name) as (r&s4&E4&H4); try done.
  { apply (pr_parent _ _ _ _ P). } { by apply (prepared_dir s s3 d i). } { by apply (prepared_dir_ok s s3 d i). }
  { intros k. by rewrite (prepared_entry s s3 d i). } { by apply (inode_num_range s); [apply HS|]. }
  rewrite (bind_run _ _ _ _ _ E4).
  destruct H4 as [(->&HL&k&Hk&Hl&_&A)|(Hr&F4&K4)].
  - exists 0%Z, s4. split; [done|]. left. split; [done|]. split; [done|]. exists k, i.
    rewrite (prepared_slot s s3 d i) in Hl by done. split; [by eapply prepared_creates|].
    destruct A as (U&_). destruct (fr_file _ _ _ (du_frame _ _ _ _ U) i) as [C4 _]; [done|done|]. by rewrite C4.
  - rewrite (proj2 (Z.ltb_lt _ _)) by (unfold ENOSPC, ENAMETOOLONG in Hr; lia).
    assert (A4 : allocated s4 i) by (by apply (frame_none_alloc _ _ _ F4)).
    destruct (free_inode_run s4 i) as (s5&E5&F5&N5&_); [apply F4|done| |].
    { intros q Hq. rewrite K4 by done. by apply (pr_blocks _ _ _ _ P). }
    rewrite (bind_run _ _ _ _ _ E5).
    assert (Hd3 : allocated s3 d) by apply (pr_parent _ _ _ _ P).
    assert (Hd5 : allocated s5 d) by (apply (fr_alloc _ _ _ F5); [done|]; by apply (frame_none_alloc _ _ _ F4)).
    destruct (nlinks_run s5 d (λ n, n - 1)%Z (fr_sinv _ _ _ F5) Hd5) as (s6&E6&F6&A6&I6&B6&_).
    rewrite (bind_run _ _ _ _ _ E6). exists r, s6. split; [done|]. right. split; [done|].
    destruct (frame_none_file _ _ _ F4 Hd3) as [C4 B4].
    destruct (fr_file _ _ _ F5 d Hdi) as [C5 B5]; [by apply (frame_none_alloc _ _ _ F4)|].
    apply (frame_restore i d); try done.
    + eapply frame_trans; [exact F|]. eapply frame_trans; [by apply frame_none|].
      eapply frame_trans; [by apply frame_or_l|by apply frame_or_r].
    + apply (not_allocated_again s5 s6 i d); auto.
    + split; [|intros o; by rewrite B6, B5, B4, (pr_bytes _ _ _ _ P)].
      rewrite I6. pose proof (eq_trans C5 (eq_trans C4 Cd3)) as Cd.
      rewrite (core_nlinks_congr _ _ (λ n, n - 1)%Z Cd). simpl. rewrite Z.add_simpl_r. by destruct (inode_at s d).
Qed.

(** ** The operations *)

Definition leaf (path : cstr) : cstr := basename (clean_path path PATH_MAX).
Definition parent_path (path : cstr) : cstr := dirname (clean_path path PATH_MAX).
Definition parent (s : state) (path : cstr) (d : nat) : Prop := resolves s 0 (comps (parent_path path)) d.

(** Why an operation could not find the parent directory of [path]. *)
Definition parent_error (s : state) (path : cstr) (e : Z) : Prop :=
  split_error (clean_path path PATH_MAX) e ∨ lookup_failed s 0 (comps (parent_path path)) e.

Lemma parent_error_neg s path e : parent_error s path e → (e < 0)%Z.
Proof. unfold parent_error, split_error, lookup_failed, ENOENT, EINVAL, ENOMEM, ENOTDIR. lia. Qed.

(** The start of the operations that edit a directory: [stop] is the guard
    [wfs_unlink] has on the name.  The state moves by environment calls only. *)
Lemma parent_run {A} s path (stop : cstr → bool) (err : Z → M A) (stopped : M A) (ok : cstr → nat → M A) :
  tree s → no_nul path →
  let op :=
    (sp ← split_path (clean_path path PATH_MAX);
     match sp with
     | inl rc => err rc
     | inr (pp, name) =>
         if stop name then stopped
         else
           r ← get_inode_from_path pp;
           match r with inl rc => err rc | inr p => ok name p end
     end) in
  ∃ n, (∃ e, parent_error s path e ∧ op s = err e (set_calls n s)) ∨
    (stop (leaf path) = true ∧ op s = stopped (set_calls n s)) ∨
    ∃ d, stop (leaf path) = false ∧ parent s path d ∧ allocated s d ∧ op s = ok (leaf path) d (set_calls n s).
Proof.
  intros T Hp op. destruct (split_path_run s (clean_path path PATH_MAX)) as (r&n&E&Hr).
  destruct r as [e|[pp name]].
  { exists n. left. exists e. unfold op. rewrite (bind_run _ _ _ _ _ E). split; [by left|done]. }
  destruct Hr as (->&->&_&_). pose proof (tree_set_calls s n T) as T1.
  destruct (stop (leaf path)) eqn:Estop.
  { exists n. right; left. split; [done|]. unfold op. rewrite (bind_run _ _ _ _ _ E). unfold leaf in Estop. by rewrite Estop. }
  destruct (get_inode_from_path_run (set_calls n s) (parent_path path)) as (r&m&E2&Hr);
    [done|by apply no_nul_dirname, no_nul_clean_path|].
  assert (K : ∀ i, resolves (set_calls n s) 0 (comps (parent_path path)) i ↔ resolves s 0 (comps (parent_path path)) i).
  { intros i. apply resolves_frame_none; [done|apply frame_set_calls, T|apply T]. }
  assert (Eop : op s = (match r with inl rc => err rc | inr p => ok (leaf path) p end) (set_calls m s)).
  { unfold op. rewrite (bind_run _ _ _ _ _ E). unfold leaf in Estop. rewrite Estop. by rewrite (bind_run _ _ _ _ _ E2). }
  exists m. rewrite Eop. destruct r as [e|d].
  - left. exists e. split; [|done].
    destruct Hr as [->|[He Hno]]; [by left; right; right|right]. split; [done|]. intros i Hi. apply (Hno i). by apply K.
  - right; right. exists d. assert (parent s path d) by (by apply K). split_and!; try done.
    eapply resolves_allocated; [done|apply T|done].
Qed.

(** Outcome of [wfs_mknod] and [wfs_mkdir]. *)
Definition creation (s s' : state) (path : cstr) (mode nlinks r : Z) : Prop :=
  (∃ d, parent s path d ∧ is_dir s d ∧ (∀ j, ¬ child s d (leaf path) j) ∧
     create_outcome s s' d (leaf path) mode nlinks r) ∨
  (∃ d j, parent s path d ∧ child s d (leaf path) j ∧ r = (- EEXIST)%Z ∧ frame none s s') ∨
  (∃ d, parent s path d ∧ ¬ is_dir s d ∧ r = (- ENOTDIR)%Z ∧ frame none s s') ∨
  parent_error s path r ∧ frame none s s'.

(** A step that changes no file may come first. *)
Lemma frame_none_back s s1 j : frame none s s1 → allocated s1 j → allocated s j ∧ same_file s s1 j.
Proof.
  intros F Ha. assert (allocated s j) by (apply (fr_alloc _ _ _ F); tauto).
  split; [done|]. by apply (frame_none_file _ _ _ F).
Qed.

Lemma creates_after s s1 s' d k i name : frame none s s1 → creates s1 s' d k i name → creates s s' d k i name.
Proof.
  intros F C. destruct (cr_parent _ _ _ _ _ _ C) as [Ha Hd].
  destruct (frame_none_back s s1 d F Ha) as [Ha0 Hf]. constructor.
  - exact (frame_trans _ _ _ _ (frame_none _ _ _ F) (cr_frame _ _ _ _ _ _ C)).
  - split; [exact Ha0|]. by apply (same_file_dir s s1).
  - exact (cr_parent' _ _ _ _ _ _ C).
  - intros H. apply (cr_fresh _ _ _ _ _ _ C). by apply (frame_none_alloc _ _ _ F).
  - exact (cr_alloc _ _ _ _ _ _ C).
  - rewrite <- (same_file_slot s s1 d k Hf). exact (cr_slot _ _ _ _ _ _ C).
  - intros idx Hi. rewrite <- (same_file_slot s s1 d idx Hf). by apply (cr_other _ _ _ _ _ _ C).
  - intros idx Hi. rewrite (cr_nul _ _ _ _ _ _ C) by exact Hi. apply Hf.
  - rewrite (cr_size _ _ _ _ _ _ C). by rewrite (core_size _ _ (proj1 Hf)).
  - exact (cr_bytes _ _ _ _ _ _ C).
  - exact (cr_nlink _ _ _ _ _ _ C).
Qed.

Lemma create_outcome_after s s1 s' d name mode nl r :
  frame none s s1 → create_outcome s1 s' d name mode nl r → create_outcome s s' d name mode nl r.
Proof.
  intros F1 [(->&HL&k&i&C&Hc)|[Hr F]].
  - left. split; [done|]. split; [exact HL|]. exists k, i. split; [by eapply creates_after|].
    rewrite Hc. unfold new_inode. by rewrite (fr_env _ _ _ F1).
  - right. split; [exact Hr|]. exact (frame_trans _ _ _ _ F1 F).
Qed.

Lemma child_after s s1 d name i : frame none s s1 → allocated s d → child s1 d name i ↔ child s d name i.
Proof.
  intros F Ha. pose proof (frame_none_file _ _ _ F Ha) as Hf.
  apply child_same; [by apply same_file_same_dir|by apply same_file_dir].
Qed.

Lemma tree_create_outcome s s' d name mode nl r :
  tree s → no_nul name → name ≠ [] → ¬ dot_name name → (∀ k, ¬ entry s d name k) →
  create_outcome s s' d name mode nl r → tree s'.
Proof.
  intros T Hn Hne Hdot Hno [(_&HL&k&i&C&_)|[_ F]].
  - by apply (tree_create s s' d k i name).
  - by eapply tree_dirs_kept; [|apply frame_none_dirs_kept].
Qed.

(** The body shared by [wfs_mknod] and [wfs_mkdir]; they differ in [tail]. *)
Lemma creation_run s path (tail : nat → cstr → M Z) mode nl :
  (∀ s d name, tree s → allocated s d → is_dir s d → no_nul name → name ≠ [] → (∀ k, ¬ entry s d name k) →
     ∃ r s', tail d name s = Some (r, s') ∧ create_outcome s s' d name mode nl r) →
  tree s → no_nul path → ¬ dot_name (leaf path) →
  ∃ r s',
    (sp ← split_path (clean_path path PATH_MAX);
     match sp with
     | inl rc => mret rc
     | inr (pp, name) =>
         r ← get_inode_from_path pp;
         match r with
         | inl rc => mret rc
         | inr p =>
             pi ← load_inode p;
             if negb (S_ISDIR (ino_mode pi)) then mret (- ENOTDIR)%Z
             else
               n ← dentry_to_num name (Some p);
               if (0 <=? n)%Z then mret (- EEXIST)%Z else tail p name
         end
     end) s = Some (r, s') ∧ tree s' ∧ creation s s' path mode nl r.
Proof.
  intros Htail T Hp Hdot. pose proof (t_sinv _ T) as HS.
  assert (Tn : ∀ s2, frame none s s2 → tree s2) by (intros s2 F; eapply tree_dirs_kept; [done|by apply frame_none_dirs_kept]).
  destruct (parent_run s path (λ _, false) (λ rc, mret rc) (mret 0%Z) (λ name p,
    pi ← load_inode p;
    if negb (S_ISDIR (ino_mode pi)) then mret (- ENOTDIR)%Z
    else n ← dentry_to_num name (Some p); if (0 <=? n)%Z then mret (- EEXIST)%Z else tail p name)) as (n&H); [done..|].
  set (s1 := set_calls n s) in *. pose proof (frame_set_calls s n HS : frame none s s1) as F1.
  assert (T1 : tree s1) by auto.
  destruct H as [(e&He&E0)|[[? _]|(d&_&Hpar&Ha&E0)]]; [|done|]; cbn iota zeta in E0; rewrite E0; clear E0.
  { exists e, s1. split; [done|]. split; [done|]. right; right; right. done. }
  rewrite (bind_run _ _ _ _ _ (load_inode_run s1 d (allocated_lt _ _ (si_geom _ HS) Ha))).
  change (inode_at s1 d) with (inode_at s d).
  destruct (S_ISDIR (ino_mode (inode_at s d))) eqn:Hdir; cbn [negb].
  2: { exists (- ENOTDIR)%Z, s1. split; [done|]. split; [done|]. right; right; left. exists d.
       unfold is_dir. by rewrite Hdir. }
  assert (Hnm : no_nul (leaf path)) by (by apply no_nul_basename, no_nul_clean_path).
  destruct (dentry_to_num_child s1 d (leaf path)) as (r&E&Hr); [done..|]. rewrite (bind_run _ _ _ _ _ E).
  destruct Hr as [(j&->&Hc)|[He Hno]].
  { rewrite (proj2 (Z.leb_le _ _)) by lia. exists (- EEXIST)%Z, s1. split; [done|]. split; [done|].
    right; left. exists d, j. split; [exact Hpar|]. split; [exact (proj1 (child_after s s1 d _ j F1 Ha) Hc)|by split]. }
  rewrite (proj2 (Z.leb_gt _ _)) by (unfold ENOENT, ENOTDIR in *; lia).
  assert (Hent : ∀ k, ¬ entry s1 d (leaf path) k).
  { intros k Hk. destruct (t_num _ T1 d k) as (_&j&Ej&_); [done|done|apply Hk|apply live_num, Hk|].
    apply (Hno j). split; [done|]. by exists k. }
  destruct (Htail s1 d (leaf path)) as (r'&s'&E'&Ho); [done|done|done|done|apply basename_nonempty|done|].
  exists r', s'. split; [done|]. split; [eapply (tree_create_outcome s1); try done; apply basename_nonempty|].
  left. exists d. split; [exact Hpar|]. split; [exact Hdir|]. split; [|by eapply create_outcome_after].
  intros j Hj. exact (Hno j (proj2 (child_after s s1 d _ j F1 Ha) Hj)).
Qed.

Lemma file_type_kept t m : Z.land t S_IFMT = t → Z.land (Z.lor t (Z.land m 0x1FF)) S_IFMT = t.
Proof.
  intros Ht. rewrite Z.land_lor_distr_l, Ht, <- Z.land_assoc. change (Z.land 0x1FF S_IFMT) with 0%Z.
  by rewrite Z.land_0_r, Z.lor_0_r.
Qed.

Lemma regular_mode m : S_ISDIR (Z.lor S_IFREG (Z.land m 0x1FF)) = false.
Proof. unfold S_ISDIR. by rewrite file_type_kept. Qed.
Lemma directory_mode m : S_ISDIR (Z.lor S_IFDIR (Z.land m 0x1FF)) = true.
Proof. unfold S_ISDIR. by rewrite file_type_kept. Qed.

Lemma perm_bits m : Z.land (Z.lor S_IFREG (Z.land m 0x1FF)) 0x1FF = Z.land m 0x1FF.
Proof.
  rewrite Z.land_lor_distr_l, <- Z.land_assoc. by change (Z.land S_IFREG 0x1FF) with 0%Z.
Qed.

Lemma wfs_mknod_run s path mode :
  tree s → no_nul path → ¬ dot_name (leaf path) →
  ∃ r s', wfs_mknod path mode s = Some (r, s') ∧ tree s' ∧
    creation s s' path (Z.lor S_IFREG (Z.land mode 0x1FF)) 1 r.
Proof.
  intros T Hp Hdot. unfold wfs_mknod.
  set (m := if negb (S_ISREG mode) && _ then _ else _).
  assert (Z.lor S_IFREG (Z.land m 0x1FF) = Z.lor S_IFREG (Z.land mode 0x1FF)) as <-.
  { unfold m. destruct (_ && _); [|done]. by rewrite perm_bits. }
  refine (creation_run s path (λ d name, ip ← allocate_inode; _) _ 1 _ T Hp Hdot).
  intros. by apply mknod_tail; [..|apply regular_mode].
Qed.

Lemma wfs_mkdir_run s path mode :
  tree s → no_nul path → ¬ dot_name (leaf path) →
  ∃ r s', wfs_mkdir path mode s = Some (r, s') ∧ tree s' ∧
    creation s s' path (Z.lor S_IFDIR (Z.land mode 0x1FF)) 2 r.
Proof.
  intros T Hp Hdot. unfold wfs_mkdir.
  refine (creation_run s path (λ d name, ip ← allocate_inode; _) _ 2 _ T Hp Hdot).
  intros. by apply mkdir_tail; [..|apply directory_mode].
Qed.

(** ** Names after a creation *)

Lemma creates_child s s' d k i name a nm b :
  tree s → creates s s' d k i name → good_name name → ¬ dot_name name → (∀ m, ¬ entry s d name m) →
  allocated s a → child s a nm b → child s' a nm b.
Proof.
  intros T C Hg Hdot Hno Ha [Hd (m&(Hm&Hl&He)&En)].
  assert (Ha' : allocated s' a) by (apply (create_alloc s s' d k i name); auto).
  assert (Hd' : is_dir s' a) by (by apply (create_keeps_dir s s' d k i name)).
  split; [done|]. exists m.
  destruct (create_dir s s' d k i name T C a Ha' Hd') as [[-> _]|(_&_&_&Hsl)].
  { by destruct (cr_fresh _ _ _ _ _ _ C). }
  assert (Hne : ¬ (a = d ∧ m = k)).
  { intros [-> ->]. destruct (cr_slot _ _ _ _ _ _ C) as (_&Hl'&_). congruence. }
  unfold entry. by rewrite Hsl, decide_False.
Qed.

Lemma creates_resolves s s' d k i name a cs b :
  tree s → creates s s' d k i name → good_name name → ¬ dot_name name → (∀ m, ¬ entry s d name m) →
  allocated s a → resolves s a cs b → resolves s' a cs b.
Proof.
  intros T C Hg Hdot Hno Ha H. induction H as [|a nm b rest c Hc H IH]; [constructor|].
  econstructor; [by eapply creates_child|]. apply IH. by eapply child_allocated.
Qed.

Lemma creates_new_child s s' d k i name :
  tree s → creates s s' d k i name → good_name name → child s' d name i.
Proof.
  intros T C Hg. destruct (cr_slot _ _ _ _ _ _ C) as (Hk&_&Hs). destruct (create_ne s s' d k i name T C) as [_ Hi].
  split; [apply (cr_parent' _ _ _ _ _ _ C)|]. exists k. unfold entry. rewrite Hs.
  destruct (record_live name i Hg Hi). done.
Qed.

Lemma target_split s path d i :
  head (clean_path path PATH_MAX) = Some SLASH → comps (clean_path path PATH_MAX) ≠ [] →
  parent s path d → child s d (leaf path) i → target s path i.
Proof.
  intros Hh Hne Hp Hc. unfold target, comps. rewrite split_components by done.
  apply resolves_app. exists d. split; [done|]. by apply resolves_one.
Qed.
