(* ===== verification/WfsRemove.v ===== *)
(** Removal: [wfs_unlink] and [wfs_rmdir] over a namespace that satisfies
    [tree]. *)

From stdpp Require Import base option list numbers.
From coqutil Require Import Byte Word.LittleEndianList.
From Stdlib Require Import ZArith Lia.
From S2P Require Import Prelude CString WfsBitmap WfsDisk WfsStore WfsBlocks WfsPath WfsDir WfsOps WfsFree WfsFrame WfsIO WfsSlots WfsTree WfsLookup WfsSpec WfsCreate.

Lemma seq2_run {S A} (m1 m2 : ST S ()) (k : ST S A) s s' :
  (m1;; m2) s = Some ((), s') → (m1;; m2;; k) s = k s'.
Proof. unfold mbind, ST_bind. destruct (m1 s) as [[[] s1]|]; [|done]. by intros ->. Qed.

(** All blocks of a file, then its inode. *)
Lemma release_run s i :
  sinv s → allocated s i →
  ∃ s', (free_blocks i;; free_inode (Some i)) s = Some ((), s') ∧ frame (.= i) s s' ∧ ¬ allocated s' i.
Proof.
  intros HS Hi. destruct (free_blocks_run s i HS Hi) as (s1&E1&H1&Hz). rewrite (bind_run _ _ _ _ _ E1).
  destruct (free_inode_run s1 i) as (s2&E2&F2&N2&_).
  - apply H1.
  - by apply (shrunk_allocated i s s1).
  - intros q Hq. apply Hz; [done|by left].
  - exists s2. split; [done|]. split; [|done]. eapply frame_trans; [by apply frame_shrunk|done].
Qed.

(** The record of a linked inode is found and cleared. *)
Lemma remove_dentry_run s d k i :
  tree s → link s d k i →
  ∃ s', remove_dentry (Some d) (Z.of_nat i) s = Some (0%Z, s') ∧ dir_update s s' d k ∧
    d_num (slot s' d k) = 0%Z ∧ byte_at s' d (32 * k + 27) = byte_at s d (32 * k + 27) ∧
    core (inode_at s' d) = core (inode_at s d).
Proof.
  intros T HL. pose proof HL as (Ha&Hd&Hk&Hn&Hi). pose proof (t_sinv _ T) as HS.
  cbn [remove_dentry].
  rewrite (bind_run _ _ _ _ _ (load_inode_run s d (allocated_lt _ _ (si_geom _ HS) Ha))), Hd. cbn [negb].
  destruct (t_num _ T d k Ha Hd Hk) as (Hl&_); [lia|].
  assert (Hmax : k < dir_max_entries (inode_at s d)).
  { apply (entry_below_max s d (ename (slot s d k))); [done|done|by apply T|done]. }
  destruct (remove_dentry_loop_run s d (Z.of_nat i) (dir_max_entries (inode_at s d)) 0) as [H|[_ Hno]]; [done|done|lia| |].
  - destruct H as (m&s'&Hm&Hms&Hmn&_&E&Hrest). assert (link s d m i) as HL' by (by split_and!).
    destruct (t_unique _ T d m d k i HL' HL) as [_ ->]. by exists s'.
  - by destruct (Hno k); [lia|done|].
Qed.

(** Clearing the record and releasing the inode remove the file. *)
Lemma removes_intro s s1 s2 s3 d k i :
  link s d k i → d ≠ i →
  dir_update s s1 d k → d_num (slot s1 d k) = 0%Z → byte_at s1 d (32 * k + 27) = byte_at s d (32 * k + 27) →
  core (inode_at s1 d) = core (inode_at s d) →
  frame (λ j, j = i ∨ j = d) s1 s2 → allocated s2 d →
  (∀ o, byte_at s2 d o = byte_at s1 d o) → ino_mode (inode_at s2 d) = ino_mode (inode_at s1 d) →
  ino_size (inode_at s2 d) = ino_size (inode_at s1 d) → ¬ allocated s2 i →
  frame none s2 s3 → (is_dir s i → ∀ idx, idx < SLOTS → live (slot s i idx) = false) →
  removes s s3 d k i.
Proof.
  intros HL Hne U1 Hz Hnul C1 F2 A2 B2 Hmode Hsize N2 F3 Hemp.
  destruct (frame_none_file _ _ _ F3 A2) as [C3 B3].
  assert (Hsl : ∀ idx, slot s3 d idx = slot s1 d idx) by (intros; apply slot_same; intros; by rewrite B3, B2).
  assert (A3 : allocated s3 d) by (by apply (frame_none_alloc _ _ _ F3)).
  constructor; try done.
  - eapply frame_trans; [apply frame_or_r, (du_frame _ _ _ _ U1)|].
    eapply frame_trans; [exact F2|by apply frame_none].
  - split; [done|]. unfold is_dir. rewrite (core_mode _ _ C3), Hmode, (core_mode _ _ C1). apply HL.
  - rewrite (fr_alloc _ _ _ F3); tauto.
  - by rewrite Hsl.
  - intros idx Hidx. rewrite Hsl. by apply (du_other _ _ _ _ U1).
  - intros idx Hidx. rewrite B3, B2. destruct (decide (idx = k)) as [->|]; [done|by apply (du_nul _ _ _ _ U1)].
  - by rewrite (core_size _ _ C3), Hsize, (core_size _ _ C1).
Qed.

(** ** Unlink *)

Definition unlink_outcome (s s' : state) (d : nat) (name : cstr) (r : Z) : Prop :=
  (∃ k i, r = 0%Z ∧ link s d k i ∧ child s d name i ∧ ¬ is_dir s i ∧ removes s s' d k i) ∨
  (∃ i, r = (- EISDIR)%Z ∧ child s d name i ∧ is_dir s i ∧ frame none s s') ∨
  (r = (- ENOENT)%Z ∧ (∀ i, ¬ child s d name i) ∧ frame none s s').

Lemma child_link s d name i :
  tree s → allocated s d → child s d name i → ∃ k, entry s d name k ∧ link s d k i.
Proof.
  intros T Ha Hc. destruct (child_allocated _ _ _ _ T Ha Hc) as [_ Hi].
  destruct Hc as [Hd (k&Hk&En)]. exists k. split; [done|]. split_and!; try done. apply Hk.
Qed.

Lemma unlink_tail s d name :
  tree s → allocated s d → is_dir s d → no_nul name →
  ∃ r s',
    (inum ← dentry_to_num name (Some d);
     if (inum <? 0)%Z then mret inum
     else
       ip ← retrieve_inode inum;
       match ip with
       | None => mret (- ENOENT)%Z
       | Some inode =>
           i ← load_inode inode;
           if S_ISDIR (ino_mode i) then mret (- EISDIR)%Z
           else
             rc ← remove_dentry (Some d) inum;
             if (rc <? 0)%Z then mret rc
             else
               update_inode inode (λ i, with_nlinks (ino_nlinks i - 1) i);;
               i ← load_inode inode;
               (if (ino_nlinks i <=? 0)%Z then free_blocks inode;; free_inode (Some inode) else mret ());;
               wfs_update_times (Some d) false true true;;
               mret 0%Z
       end) s = Some (r, s') ∧ tree s' ∧ unlink_outcome s s' d name r.
Proof.
  intros T Ha Hd Hnm. pose proof (t_sinv _ T) as HS.
  destruct (dentry_to_num_child s d name) as (r&E&Hr); [done..|]. rewrite (bind_run _ _ _ _ _ E).
  destruct Hr as [(i&->&Hc)|[He Hno]].
  2: { exists r, s. rewrite (proj2 (Z.ltb_lt _ _)) by (unfold ENOENT, ENOTDIR in *; lia). split; [done|]. split; [done|].
       right; right. destruct He as [[-> _]|[_ ?]]; [|done]. split_and!; [done|done|by apply frame_refl]. }
  rewrite (proj2 (Z.ltb_ge _ _)) by lia. destruct (child_allocated _ _ _ _ T Ha Hc) as [Hi Hi0].
  rewrite (bind_run _ _ _ _ _ (retrieve_inode_run s i HS Hi)).
  rewrite (bind_run _ _ _ _ _ (load_inode_run s i (allocated_lt _ _ (si_geom _ HS) Hi))).
  destruct (S_ISDIR (ino_mode (inode_at s i))) eqn:Hdir.
  { exists (- EISDIR)%Z, s. split; [done|]. split; [done|]. right; left. exists i.
    split_and!; [done|done|done|by apply frame_refl]. }
  assert (Hnd : ¬ is_dir s i) by (unfold is_dir; by rewrite Hdir).
  destruct (child_link s d name i T Ha Hc) as (k&_&HL).
  destruct (remove_dentry_run s d k i T HL) as (s1&E1&U1&Hz&Hnul&C1).
  rewrite (bind_run _ _ _ _ _ E1). cbn [Z.ltb Z.compare]. pose proof (du_frame _ _ _ _ U1) as F1.
  assert (Hne : i ≠ d) by (by intros ->).
  assert (A1 : allocated s1 i) by (by apply (fr_alloc _ _ _ F1)).
  destruct (fr_file _ _ _ F1 i Hne Hi) as [Ci _].
  destruct (nlinks_run s1 i (λ n, n - 1)%Z (fr_sinv _ _ _ F1) A1) as (s2&E2&F2&A2&I2&_).
  rewrite (bind_run _ _ _ _ _ E2). pose proof (fr_sinv _ _ _ F2) as HS2.
  rewrite (bind_run _ _ _ _ _ (load_inode_run s2 i (allocated_lt _ _ (si_geom _ HS2) A2))).
  assert (ino_nlinks (inode_at s2 i) = 0%Z) as ->.
  { rewrite I2. simpl. by rewrite (core_nlinks _ _ Ci), (t_nlink _ T i Hi Hnd). }
  cbn [Z.leb Z.compare]. destruct (release_run s2 i HS2 A2) as (s3&E3&F3&N3).
  rewrite (bind_run _ _ _ _ _ E3). pose proof (frame_trans _ _ _ _ F2 F3) as F23.
  assert (A3 : allocated s3 d) by (apply (fr_alloc _ _ _ F23); [auto|apply (du_alloc _ _ _ _ U1)]).
  destruct (touch_run s3 d false true true (fr_sinv _ _ _ F3) A3) as (s4&E4&F4&_).
  rewrite (bind_run _ _ _ _ _ E4). exists 0%Z, s4. split; [done|].
  destruct (fr_file _ _ _ F23 d) as [Cd Bd]; [auto|apply (du_alloc _ _ _ _ U1)|].
  assert (R : removes s s4 d k i).
  { apply (removes_intro s s1 s3 s4); try done; [by apply frame_or_l|by apply core_mode|by apply core_size]. }
  split; [by eapply tree_remove|]. left. exists k, i. done.
Qed.

(** ** Rmdir *)

Lemma dir_empty_loop_run s d n : ∀ idx,
  tree s → allocated s d → is_dir s d →
  ∃ b, dir_empty_loop (inode_at s d) n (Z.of_nat idx) s = Some (b, s) ∧
    (b = true ↔ ∀ k, idx ≤ k < idx + n → k < SLOTS → live (slot s d k) = false).
Proof.
  induction n as [|n IH]; intros idx T Ha Hd; cbn [dir_empty_loop].
  { exists true. split; [done|]. split; [lia|done]. }
  rewrite slot_in_range. destruct (decide (idx < SLOTS)) as [Hidx|Hidx].
  2: { rewrite bool_decide_eq_false_2 by done. exists true. split; [done|]. split; [lia|done]. }
  rewrite bool_decide_eq_true_2 by done. cbn [negb].
  rewrite (slot_visit_live s d idx) by (done || apply T).
  replace (Z.of_nat idx + 1)%Z with (Z.of_nat (idx + 1)) by lia.
  destruct (live (slot s d idx)) eqn:El.
  - destruct (dir_ok_name s d idx) as (Eu&HL&Hnn); [by apply T|done|].
    assert (Hdot : ¬ dot_name (ename (slot s d idx))) by (by apply (t_dots _ T d idx)).
    rewrite !(strncmp_eq_spec _ (ename (slot s d idx))) by (done || by apply no_nul_cs).
    rewrite !bool_decide_eq_false_2 by (intros E; apply Hdot; unfold dot_name; auto). cbn [orb].
    exists false. split; [done|]. split; [done|]. intros H. specialize (H idx ltac:(lia) Hidx). congruence.
  - destruct (IH (idx + 1)) as (b&E&Hb); [done..|]. exists b. split; [done|]. rewrite Hb. split.
    + intros H k Hk Hks. destruct (decide (k = idx)) as [->|]; [done|]. apply H; [lia|done].
    + intros H k Hk Hks. apply H; [lia|done].
Qed.

Definition empty_dir (s : state) (d : nat) : Prop := ∀ k, k < SLOTS → live (slot s d k) = false.

Lemma dir_empty_run s d :
  tree s → allocated s d → is_dir s d →
  ∃ b, dir_empty_loop (inode_at s d) (dir_max_entries (inode_at s d)) 0 s = Some (b, s) ∧
    (b = true ↔ empty_dir s d).
Proof.
  intros T Ha Hd. destruct (dir_empty_loop_run s d (dir_max_entries (inode_at s d)) 0) as (b&E&Hb); [done..|].
  exists b. split; [done|]. rewrite Hb. split; intros H k Hk; [|auto].
  destruct (live (slot s d k)) eqn:El; [|done].
  assert (k < dir_max_entries (inode_at s d)).
  { apply (entry_below_max s d (ename (slot s d k))); [by apply T|done|by apply T|done]. }
  rewrite <- El. apply H; [lia|done].
Qed.

Definition rmdir_outcome (s s' : state) (d : nat) (name : cstr) (r : Z) : Prop :=
  (∃ k i, r = 0%Z ∧ link s d k i ∧ child s d name i ∧ is_dir s i ∧ empty_dir s i ∧ removes s s' d k i) ∨
  (∃ i, r = (- ENOTEMPTY)%Z ∧ child s d name i ∧ is_dir s i ∧ ¬ empty_dir s i ∧ frame none s s') ∨
  (∃ i, r = (- ENOTDIR)%Z ∧ child s d name i ∧ ¬ is_dir s i ∧ frame none s s') ∨
  (r = (- ENOENT)%Z ∧ (∀ i, ¬ child s d name i) ∧ frame none s s').

Lemma rmdir_tail s d name :
  tree s → allocated s d → is_dir s d → no_nul name →
  ∃ r s',
    (inum ← dentry_to_num name (Some d);
     if (inum <? 0)%Z then mret inum
     else
       dp ← retrieve_inode inum;
       match dp with
       | None => mret (- ENOENT)%Z
       | Some dir =>
           i ← load_inode dir;
           if negb (S_ISDIR (ino_mode i)) then mret (- ENOTDIR)%Z
           else
             empty ← dir_empty_loop i (dir_max_entries i) 0;
             if negb empty then mret (- ENOTEMPTY)%Z
             else
               rc ← remove_dentry (Some d) inum;
               if (rc <? 0)%Z then mret rc
               else
                 update_inode d (λ i, with_nlinks (ino_nlinks i - 1) i);;
                 free_blocks dir;;
                 free_inode (Some dir);;
                 wfs_update_times (Some d) false true true;;
                 mret 0%Z
       end) s = Some (r, s') ∧ tree s' ∧ rmdir_outcome s s' d name r.
Proof.
  intros T Ha Hd Hnm. pose proof (t_sinv _ T) as HS.
  destruct (dentry_to_num_child s d name) as (r&E&Hr); [done..|]. rewrite (bind_run _ _ _ _ _ E).
  destruct Hr as [(i&->&Hc)|[He Hno]].
  2: { exists r, s. rewrite (proj2 (Z.ltb_lt _ _)) by (unfold ENOENT, ENOTDIR in *; lia). split; [done|]. split; [done|].
       right; right; right. destruct He as [[-> _]|[_ ?]]; [|done]. split_and!; [done|done|by apply frame_refl]. }
  rewrite (proj2 (Z.ltb_ge _ _)) by lia. destruct (child_allocated _ _ _ _ T Ha Hc) as [Hi Hi0].
  rewrite (bind_run _ _ _ _ _ (retrieve_inode_run s i HS Hi)).
  rewrite (bind_run _ _ _ _ _ (load_inode_run s i (allocated_lt _ _ (si_geom _ HS) Hi))).
  destruct (S_ISDIR (ino_mode (inode_at s i))) eqn:Hdir; cbn [negb].
  2: { exists (- ENOTDIR)%Z, s. split; [done|]. split; [done|]. right; right; left. exists i.
       unfold is_dir. rewrite Hdir. split_and!; [done|done|done|by apply frame_refl]. }
  destruct (dir_empty_run s i T Hi Hdir) as (b&Eb&Hb). rewrite (bind_run _ _ _ _ _ Eb).
  destruct b; cbn [negb].
  2: { exists (- ENOTEMPTY)%Z, s. split; [done|]. split; [done|]. right; left. exists i.
       split_and!; [done|done|done| |by apply frame_refl]. intros He. by apply Hb in He. }
  assert (Hemp : empty_dir s i) by (by apply Hb).
  destruct (child_link s d name i T Ha Hc) as (k&(Hk&Hl&_)&HL).
  destruct (remove_dentry_run s d k i T HL) as (s1&E1&U1&Hz&Hnul&C1).
  rewrite (bind_run _ _ _ _ _ E1). cbn [Z.ltb Z.compare]. pose proof (du_frame _ _ _ _ U1) as F1.
  assert (Hne : i ≠ d). { intros ->. rewrite (Hemp k Hk) in Hl. done. }
  assert (A1 : allocated s1 i) by (by apply (fr_alloc _ _ _ F1)).
  destruct (nlinks_run s1 d (λ n, n - 1)%Z (fr_sinv _ _ _ F1) (du_alloc _ _ _ _ U1)) as (s2&E2&F2&A2&I2&B2&_).
  rewrite (bind_run _ _ _ _ _ E2). pose proof (fr_sinv _ _ _ F2) as HS2.
  assert (A2i : allocated s2 i) by (by apply (fr_alloc _ _ _ F2)).
  destruct (release_run s2 i HS2 A2i) as (s3&E3&F3&N3). rewrite (seq2_run _ _ _ _ _ E3).
  assert (A3 : allocated s3 d) by (apply (fr_alloc _ _ _ F3); auto).
  destruct (touch_run s3 d false true true (fr_sinv _ _ _ F3) A3) as (s4&E4&F4&_).
  rewrite (bind_run _ _ _ _ _ E4). exists 0%Z, s4. split; [done|].
  destruct (fr_file _ _ _ F3 d) as [Cd Bd]; [auto|done|].
  assert (R : removes s s4 d k i).
  { apply (removes_intro s s1 s3 s4); try done.
    - eapply frame_trans; [apply frame_or_r; exact F2|by apply frame_or_l].
    - intros o. by rewrite Bd, B2.
    - by rewrite (core_mode _ _ Cd), I2.
    - by rewrite (core_size _ _ Cd), I2. }
  split; [by eapply tree_remove|]. left. exists k, i. done.
Qed.

(** ** The operations *)

(** The body shared by [wfs_unlink] and [wfs_rmdir]. *)
Lemma removal_run s path (stop : cstr → bool) (tail : cstr → nat → M Z)
    (outcome : state → state → nat → cstr → Z → Prop) :
  (∀ s d name, tree s → allocated s d → is_dir s d → no_nul name →
     ∃ r s', tail name d s = Some (r, s') ∧ tree s' ∧ outcome s s' d name r) →
  tree s → no_nul path →
  ∃ r s' n,
    (sp ← split_path (clean_path path PATH_MAX);
     match sp with
     | inl rc => mret rc
     | inr (pp, name) =>
         if stop name then mret (- EPERM)%Z
         else
           r ← get_inode_from_path pp;
           match r with
           | inl rc => mret rc
           | inr p =>
               pi ← load_inode p;
               if negb (S_ISDIR (ino_mode pi)) then mret (- ENOTDIR)%Z else tail name p
           end
     end) s = Some (r, s') ∧ tree s' ∧
    ((∃ d, parent s path d ∧ allocated s d ∧ is_dir s d ∧ outcome (set_calls n s) s' d (leaf path) r) ∨
     (stop (leaf path) = true ∧ r = (- EPERM)%Z ∧ frame none s s') ∨
     (∃ d, parent s path d ∧ ¬ is_dir s d ∧ r = (- ENOTDIR)%Z ∧ frame none s s') ∨
     parent_error s path r ∧ frame none s s').
Proof.
  intros Htail T Hp. pose proof (t_sinv _ T) as HS.
  destruct (parent_run s path stop (λ rc, mret rc) (mret (- EPERM)%Z) (λ name p,
    pi ← load_inode p;
    if negb (S_ISDIR (ino_mode pi)) then mret (- ENOTDIR)%Z else tail name p)) as (n&H); [done..|].
  set (s1 := set_calls n s) in *. pose proof (frame_set_calls s n HS : frame none s s1) as F1.
  assert (T1 : tree s1) by (by apply tree_set_calls).
  destruct H as [(e&He&E0)|[[Hs E0]|(d&Hs&Hpar&Ha&E0)]]; rewrite E0; clear E0.
  { exists e, s1, n. split; [done|]. split; [done|]. auto. }
  { exists (- EPERM)%Z, s1, n. split; [done|]. split; [done|]. auto. }
  rewrite (bind_run _ _ _ _ _ (load_inode_run s1 d (allocated_lt _ _ (si_geom _ HS) Ha))).
  change (inode_at s1 d) with (inode_at s d).
  destruct (S_ISDIR (ino_mode (inode_at s d))) eqn:Hdir; cbn [negb].
  2: { exists (- ENOTDIR)%Z, s1, n. split; [done|]. split; [done|]. right; right; left. exists d.
       unfold is_dir. by rewrite Hdir. }
  destruct (Htail s1 d (leaf path)) as (r&s'&E&T'&Ho); [done|done|done|by apply no_nul_basename, no_nul_clean_path|].
  exists r, s', n. split; [done|]. split; [done|]. left. exists d. done.
Qed.

Lemma link_after s s1 d k i : frame none s s1 → link s1 d k i → link s d k i.
Proof.
  intros F (Ha&Hd&Hk&Hn&Hi). destruct (frame_none_back s s1 d F Ha) as [Ha0 Hf].
  rewrite (same_file_slot s s1 d k Hf) in Hn. split_and!; try assumption. by apply (same_file_dir s s1).
Qed.

Lemma removes_after s s1 s' d k i : frame none s s1 → allocated s i → removes s1 s' d k i → removes s s' d k i.
Proof.
  intros F Hi R. pose proof (rm_link _ _ _ _ _ R) as HL. pose proof HL as (Ha&Hd&Hk&_).
  destruct (frame_none_back s s1 d F Ha) as [Ha0 Hf]. pose proof (frame_none_file _ _ _ F Hi) as Hfi. constructor.
  - exact (frame_trans _ _ _ _ (frame_none _ _ _ F) (rm_frame _ _ _ _ _ R)).
  - by apply (link_after s s1).
  - exact (rm_parent _ _ _ _ _ R).
  - exact (rm_gone _ _ _ _ _ R).
  - exact (rm_slot _ _ _ _ _ R).
  - intros idx Hidx. rewrite <- (same_file_slot s s1 d idx Hf). by apply (rm_other _ _ _ _ _ R).
  - intros idx Hidx. rewrite (rm_nul _ _ _ _ _ R) by exact Hidx. apply Hf.
  - rewrite (rm_size _ _ _ _ _ R). by rewrite (core_size _ _ (proj1 Hf)).
  - intros Hdi idx Hidx. rewrite <- (same_file_slot s s1 i idx Hfi). apply (rm_empty _ _ _ _ _ R); [|exact Hidx].
    by apply (same_file_dir s s1).
Qed.

Lemma child_back s s1 d name :
  tree s → frame none s s1 → allocated s d →
  ∀ i, child s1 d name i → child s d name i ∧ allocated s i ∧ same_file s s1 i.
Proof.
  intros T F Ha i Hi. assert (H0 : child s d name i) by (by apply (child_after s s1)).
  destruct (child_allocated _ _ _ _ T Ha H0) as [Hai _]. split; [exact H0|]. split; [exact Hai|].
  exact (frame_none_file _ _ _ F Hai).
Qed.

Lemma unlink_outcome_after s s1 s' d name r :
  tree s → frame none s s1 → allocated s d → unlink_outcome s1 s' d name r → unlink_outcome s s' d name r.
Proof.
  intros T F Ha Ho. pose proof (child_back s s1 d name T F Ha) as Hc.
  destruct Ho as [(k&i&Hr&HL&Hch&Hnd&R)|[(i&Hr&Hch&Hd&F2)|(Hr&Hno&F2)]].
  - destruct (Hc i Hch) as (Hc0&Hai&Hf). left. exists k, i. split; [exact Hr|]. split; [by apply (link_after s s1)|].
    split; [exact Hc0|]. split; [by rewrite <- (same_file_dir s s1 i Hf)|by apply (removes_after s s1)].
  - destruct (Hc i Hch) as (Hc0&Hai&Hf). right; left. exists i. split; [exact Hr|]. split; [exact Hc0|].
    split; [by apply (same_file_dir s s1)|exact (frame_trans _ _ _ _ F F2)].
  - right; right. split; [exact Hr|]. split; [|exact (frame_trans _ _ _ _ F F2)].
    intros i Hi. exact (Hno i (proj2 (child_after s s1 d _ i F Ha) Hi)).
Qed.

Lemma empty_dir_after s s1 d : same_file s s1 d → empty_dir s1 d ↔ empty_dir s d.
Proof.
  intros Hf. unfold empty_dir. split; intros H k Hk; specialize (H k Hk);
    [rewrite <- (same_file_slot s s1 d k Hf)|rewrite (same_file_slot s s1 d k Hf)]; exact H.
Qed.

Lemma rmdir_outcome_after s s1 s' d name r :
  tree s → frame none s s1 → allocated s d → rmdir_outcome s1 s' d name r → rmdir_outcome s s' d name r.
Proof.
  intros T F Ha Ho. pose proof (child_back s s1 d name T F Ha) as Hc.
  destruct Ho as [(k&i&Hr&HL&Hch&Hd&He&R)|[(i&Hr&Hch&Hd&He&F2)|[(i&Hr&Hch&Hd&F2)|(Hr&Hno&F2)]]].
  - destruct (Hc i Hch) as (Hc0&Hai&Hf). left. exists k, i. split; [exact Hr|]. split; [by apply (link_after s s1)|].
    split; [exact Hc0|]. split; [by apply (same_file_dir s s1)|]. split; [exact (proj1 (empty_dir_after s s1 i Hf) He)|].
    by apply (removes_after s s1).
  - destruct (Hc i Hch) as (Hc0&Hai&Hf). right; left. exists i. split; [exact Hr|]. split; [exact Hc0|].
    split; [by apply (same_file_dir s s1)|]. split; [by rewrite <- (empty_dir_after s s1 i Hf)|].
    exact (frame_trans _ _ _ _ F F2).
  - destruct (Hc i Hch) as (Hc0&Hai&Hf). right; right; left. exists i. split; [exact Hr|]. split; [exact Hc0|].
    split; [by rewrite <- (same_file_dir s s1 i Hf)|exact (frame_trans _ _ _ _ F F2)].
  - right; right; right. split; [exact Hr|]. split; [|exact (frame_trans _ _ _ _ F F2)].
    intros i Hi. exact (Hno i (proj2 (child_after s s1 d _ i F Ha) Hi)).
Qed.

Lemma wfs_unlink_run s path :
  tree s → no_nul path →
  ∃ r s', wfs_unlink path s = Some (r, s') ∧ tree s' ∧
    ((∃ d, parent s path d ∧ allocated s d ∧ is_dir s d ∧ unlink_outcome s s' d (leaf path) r) ∨
     (dot_name (leaf path) ∧ r = (- EPERM)%Z ∧ frame none s s') ∨
     (∃ d, parent s path d ∧ ¬ is_dir s d ∧ r = (- ENOTDIR)%Z ∧ frame none s s') ∨
     parent_error s path r ∧ frame none s s').
Proof.
  intros T Hp. pose proof (t_sinv _ T) as HS. unfold wfs_unlink.
  destruct (removal_run s path (λ name, streq name (cs ".") || streq name (cs ".."))
    _ unlink_outcome (λ s d name, unlink_tail s d name) T Hp) as (r&s'&n&E&T'&H).
  exists r, s'. split; [exact E|]. split; [done|].
  destruct H as [(d&Hpar&Ha&Hd&Ho)|[(Hs&?)|H]]; [left|right; left|by right; right].
  - exists d. split; [exact Hpar|]. split; [exact Ha|]. split; [exact Hd|].
    exact (unlink_outcome_after _ _ _ _ _ _ T (frame_set_calls s n HS) Ha Ho).
  - split; [|done]. apply orb_prop in Hs as [Hs|Hs]; apply streq_true in Hs; [by left|by right].
Qed.

Lemma wfs_rmdir_run s path :
  tree s → no_nul path →
  ∃ r s', wfs_rmdir path s = Some (r, s') ∧ tree s' ∧
    ((∃ d, parent s path d ∧ allocated s d ∧ is_dir s d ∧ rmdir_outcome s s' d (leaf path) r) ∨
     (clean_path path PATH_MAX = [SLASH] ∧ r = (- EBUSY)%Z ∧ frame none s s') ∨
     (∃ d, parent s path d ∧ ¬ is_dir s d ∧ r = (- ENOTDIR)%Z ∧ frame none s s') ∨
     parent_error s path r ∧ frame none s s').
Proof.
  intros T Hp. pose proof (t_sinv _ T) as HS. unfold wfs_rmdir.
  destruct (streq (clean_path path PATH_MAX) [SLASH]) eqn:Eroot.
  { apply streq_true in Eroot. exists (- EBUSY)%Z, s. split; [done|]. split; [done|]. right; left.
    split_and!; [done|done|by apply frame_refl]. }
  destruct (removal_run s path (λ _, false) _ rmdir_outcome (λ s d name, rmdir_tail s d name) T Hp)
    as (r&s'&n&E&T'&H).
  exists r, s'. split; [exact E|]. split; [done|].
  destruct H as [(d&Hpar&Ha&Hd&Ho)|[(Hs&?)|H]]; [left|done|by right; right].
  exists d. split; [exact Hpar|]. split; [exact Ha|]. split; [exact Hd|].
  exact (rmdir_outcome_after _ _ _ _ _ _ T (frame_set_calls s n HS) Ha Ho).
Qed.
