(* ===== verification/WfsAttr.v ===== *)
(** The operations that do not change the namespace: [wfs_getattr],
    [wfs_readdir], [wfs_statfs] and the colour attribute. *)

From stdpp Require Import base option list numbers.
From coqutil Require Import Byte Word.LittleEndianList.
From Stdlib Require Import ZArith Lia.
From S2P Require Import Prelude CString WfsBitmap WfsDisk WfsStore WfsBlocks WfsPath WfsDir WfsOps WfsFree WfsFrame WfsIO WfsSlots WfsTree WfsLookup WfsSpec.

(** ** Attributes *)

Lemma load_target s c i : sinv s → allocated s i → load_inode i (set_calls c s) = Some (inode_at s i, set_calls c s).
Proof. intros HS Ha. by rewrite load_inode_run by exact (allocated_lt _ _ (si_geom _ HS) Ha). Qed.

Definition attributes (x : wfs_inode) : stat :=
  mk_stat (ino_mode x) (ino_nlinks x) (ino_uid x) (ino_gid x) (ino_size x) BLOCK_SIZE
    (Z.quot (ino_size x + BLOCK_SIZE - 1) BLOCK_SIZE) (ino_atim x) (ino_mtim x) (ino_ctim x).

Lemma wfs_getattr_run s path :
  tree s → no_nul path →
  ∃ r st s', wfs_getattr path s = Some ((r, st), s') ∧ frame none s s' ∧
    ((∃ i, target s path i ∧ allocated s i ∧ r = 0%Z ∧ st = Some (attributes (inode_at s i))) ∨
     lookup_error s path r ∧ st = None).
Proof.
  intros T Hp. pose proof (t_sinv _ T) as HS. destruct (target_run s path T Hp) as (r&c&E&Hr). unfold wfs_getattr.
  rewrite (bind_run _ _ _ _ _ E). pose proof (frame_set_calls s c HS) as F1.
  destruct r as [e|i]; [eexists _, _, _; split; [done|]; auto|]. destruct Hr as [Ht Ha].
  rewrite (bind_run _ _ _ _ _ (load_target s c i HS Ha)).
  eexists _, _, _. split; [done|]. split; [done|]. left. by exists i.
Qed.

(** The colour of a new inode, or of the attribute named. *)
Definition colored (s s' : state) (i : nat) (code : Z) : Prop :=
  frame (.= i) s s' ∧ allocated s' i ∧ (∀ o, byte_at s' i o = byte_at s i o) ∧
  core (inode_at s' i) = core (with_color code (inode_at s i)).

Lemma colored_dirs_kept s s' i code : allocated s i → colored s s' i code → dirs_kept s s'.
Proof.
  intros Hi (F&Ha&B&C). apply (frame_attr_dirs_kept s s' i); try done.
  - by rewrite (core_mode _ _ C).
  - by rewrite (core_size _ _ C).
  - by rewrite (core_nlinks _ _ C).
Qed.

Lemma color_run s i code :
  sinv s → allocated s i →
  ∃ s', (update_inode i (with_color code);; wfs_update_times (Some i) false false true;; mret 0%Z) s =
      Some (0%Z, s') ∧ colored s s' i code.
Proof.
  intros HS Hi. destruct (update_meta_run s i (with_color code)) as (s1&E1&F1&A1&I1&B1&_); [done|done| |].
  { split_and!; try done; apply (si_inode _ HS i Hi). }
  rewrite (bind_run _ _ _ _ _ E1).
  destruct (touch_run s1 i false false true (fr_sinv _ _ _ F1) A1) as (s2&E2&F2&_).
  rewrite (bind_run _ _ _ _ _ E2). exists s2. split; [done|].
  destruct (frame_none_file _ _ _ F2 A1) as [C2 B2]. split_and!.
  - eapply frame_trans; [done|by apply frame_none].
  - by apply (frame_none_alloc _ _ _ F2).
  - intros o. by rewrite B2.
  - by rewrite C2, I1.
Qed.

Lemma colored_set_calls s c s' i code : sinv s → colored (set_calls c s) s' i code → colored s s' i code.
Proof.
  intros HS (F&?&?&?). split_and!; try done. eapply frame_trans; [apply frame_none, (frame_set_calls s c HS)|done].
Qed.

Lemma valid_inum_run s c i : sinv s → allocated s i →
  valid_inum (ino_num (inode_at s i)) (set_calls c s) = Some (true, set_calls c s).
Proof.
  intros HS Ha. pose proof (allocated_lt _ _ (si_geom _ HS) Ha). destruct (si_inode _ HS i Ha) as (->&_&_).
  unfold valid_inum, gets. simpl. rewrite (g_inodes _ (si_geom _ HS)).
  rewrite (proj2 (Z.leb_le _ _)), (proj2 (Z.ltb_lt _ _)) by lia. done.
Qed.

Lemma until_nul_terminated bytes : ∃ t, until_nul (bytes ++ [NUL]) = Some t.
Proof.
  induction bytes as [|c bytes [t IH]]; simpl; [by exists []|]. case_decide; [by exists []|]. rewrite IH. by eexists.
Qed.

(** The name a value of [setxattr] spells: its bytes up to a NUL. *)
Definition value_name (bytes : list byte) (size : Z) : cstr :=
  default [] (until_nul (take (Z.to_nat size) bytes ++ [NUL])).

Lemma wfs_setxattr_run s path name value size :
  tree s → no_nul path →
  ∃ r s', wfs_setxattr path name value size s = Some (r, s') ∧ tree s' ∧
    ((∃ i bytes code, target s path i ∧ allocated s i ∧ name = XATTR_COLOR ∧ value = Some bytes ∧
        (size ≠ 0 ∧ size < 32)%Z ∧ parse_color_name (value_name bytes size) = Some code ∧ r = 0%Z ∧
        colored s s' i code) ∨
     (r < 0)%Z ∧ frame none s s').
Proof.
  intros T Hp. pose proof (t_sinv _ T) as HS. unfold wfs_setxattr.
  assert (Tn : ∀ s2, frame none s s2 → tree s2) by (intros s2 F; eapply tree_dirs_kept; [done|by apply frame_none_dirs_kept]).
  destruct (streq name XATTR_COLOR) eqn:En; cbn [negb].
  2: { eexists _, s. split; [done|]. split; [done|]. right. split; [done|by apply frame_refl]. }
  apply streq_true in En. destruct (target_run s path T Hp) as (r&c&E&Hr). rewrite (bind_run _ _ _ _ _ E).
  pose proof (frame_set_calls s c HS) as F1. assert (Herr : ∀ e, (e < 0)%Z → ∃ r s', Some (e, set_calls c s) = Some (r, s') ∧ tree s' ∧
    ((∃ i bytes code, target s path i ∧ allocated s i ∧ name = XATTR_COLOR ∧ value = Some bytes ∧
        (size ≠ 0 ∧ size < 32)%Z ∧ parse_color_name (value_name bytes size) = Some code ∧ r = 0%Z ∧
        colored s s' i code) ∨ (r < 0)%Z ∧ frame none s s')).
  { intros e He. eexists _, _. split; [done|]. split; [by apply Tn|]. by right. }
  destruct r as [e|i].
  { apply Herr. unfold lookup_error, lookup_failed, ENOMEM, ENOENT, ENOTDIR in Hr. lia. }
  destruct Hr as [Ht Ha]. rewrite (bind_run _ _ _ _ _ (load_target s c i HS Ha)).
  rewrite (bind_run _ _ _ _ _ (valid_inum_run s c i HS Ha)). cbn [negb].
  destruct value as [bytes|]; [|by apply Herr].
  destruct (Z.eqb_spec size 0); [by apply Herr|]. destruct (Z.leb_spec 32 size); [by apply Herr|].
  destruct (until_nul_terminated (take (Z.to_nat size) bytes)) as [t Et].
  rewrite (bind_run _ _ _ t (set_calls c s)) by (unfold lift; by rewrite Et).
  destruct (parse_color_name t) as [code|] eqn:Ec; [|by apply Herr].
  destruct (color_run (set_calls c s) i code) as (s2&E2&C2); [apply F1|done|].
  exists 0%Z, s2. split; [exact E2|]. apply colored_set_calls in C2; [|done].
  split; [by eapply tree_dirs_kept; [|eapply colored_dirs_kept]|]. left. exists i, bytes, code.
  unfold value_name. rewrite Et. split_and!; done.
Qed.

Lemma wfs_removexattr_run s path name :
  tree s → no_nul path →
  ∃ r s', wfs_removexattr path name s = Some (r, s') ∧ tree s' ∧
    ((∃ i, target s path i ∧ allocated s i ∧ name = XATTR_COLOR ∧ r = 0%Z ∧ colored s s' i WFS_COLOR_NONE) ∨
     (r < 0)%Z ∧ frame none s s').
Proof.
  intros T Hp. pose proof (t_sinv _ T) as HS. unfold wfs_removexattr.
  destruct (streq name XATTR_COLOR) eqn:En; cbn [negb].
  2: { eexists _, s. split; [done|]. split; [done|]. right. split; [done|by apply frame_refl]. }
  apply streq_true in En. destruct (target_run s path T Hp) as (r&c&E&Hr). rewrite (bind_run _ _ _ _ _ E).
  pose proof (frame_set_calls s c HS) as F1. destruct r as [e|i].
  { eexists _, _. split; [done|]. split; [by apply tree_set_calls|]. right. split; [|done].
    unfold lookup_error, lookup_failed, ENOMEM, ENOENT, ENOTDIR in Hr. lia. }
  destruct Hr as [Ht Ha]. rewrite (bind_run _ _ _ _ _ (load_target s c i HS Ha)).
  rewrite (bind_run _ _ _ _ _ (valid_inum_run s c i HS Ha)). cbn [negb].
  destruct (color_run (set_calls c s) i WFS_COLOR_NONE) as (s2&E2&C2); [apply F1|done|].
  exists 0%Z, s2. split; [exact E2|]. apply colored_set_calls in C2; [|done].
  split; [by eapply tree_dirs_kept; [|eapply colored_dirs_kept]|]. left. exists i. done.
Qed.

(** The name of the colour of [i]. *)
Definition color_name (s : state) (i : nat) : cstr :=
  info_name (wfs_color_from_code (u8 (ino_color (inode_at s i)))).

Lemma wfs_getxattr_run s path name size :
  tree s → no_nul path →
  ∃ r out s', wfs_getxattr path name size s = Some ((r, out), s') ∧ frame none s s' ∧
    ((∃ i, target s path i ∧ allocated s i ∧ name = XATTR_COLOR ∧ 
        let len := Z.of_nat (length (color_name s i)) in
        if (size =? 0)%Z then r = len ∧ out = []
        else if (size <? len)%Z then r = (- ERANGE)%Z ∧ out = []
        else r = len ∧ out = color_name s i ++ (if (len <? size)%Z then [NUL] else [])) ∨
     (name ≠ XATTR_COLOR ∧ r = (- ENOTSUP)%Z ∨ lookup_error s path r) ∧ out = []).
Proof.
  intros T Hp. pose proof (t_sinv _ T) as HS. unfold wfs_getxattr.
  destruct (streq name XATTR_COLOR) eqn:En; cbn [negb].
  2: { eexists _, _, s. split; [done|]. split; [by apply frame_refl|]. apply streq_false in En. auto. }
  apply streq_true in En. destruct (target_run s path T Hp) as (r&c&E&Hr). rewrite (bind_run _ _ _ _ _ E).
  pose proof (frame_set_calls s c HS) as F1. destruct r as [e|i]; [eexists _, _, _; split; [done|]; auto|].
  destruct Hr as [Ht Ha]. rewrite (bind_run _ _ _ _ _ (load_target s c i HS Ha)).
  rewrite (bind_run _ _ _ _ _ (valid_inum_run s c i HS Ha)). cbn [negb]. fold (color_name s i).
  destruct (size =? 0)%Z; [eexists _, _, _; split; [done|]; split; [done|]; left; by exists i|].
  destruct (size <? Z.of_nat (length (color_name s i)))%Z eqn:E1; eexists _, _, _;
    (split; [done|]; split; [done|]; left; exists i; rewrite E1; done).
Qed.

(** ** Listing a directory *)

(** What [wfs_readdir] sends for a live record. *)
Definition display (ls : bool) (s : state) (e : wfs_dentry) : cstr :=
  let color := ino_color (inode_at s (Z.to_nat (d_num e))) in
  if ls && negb (color =? WFS_COLOR_NONE)%Z then decorate (wfs_color_from_code (u8 color)) (ename e) else ename e.

Definition listing (ls : bool) (s : state) (d : nat) : list cstr :=
  display ls s <$> filter (λ e, live e = true) (slot s d <$> seq 0 SLOTS).

Lemma readdir_loop_run s d ls n : ∀ idx,
  tree s → allocated s d → is_dir s d →
  readdir_loop ls (inode_at s d) n (Z.of_nat idx) s =
    Some (display ls s <$> filter (λ e, live e = true) (slot s d <$> seq idx (Nat.min n (SLOTS - idx))), s).
Proof.
  induction n as [|n IH]; intros idx T Ha Hd; cbn [readdir_loop]; [done|].
  rewrite slot_in_range. destruct (decide (idx < SLOTS)) as [Hidx|Hidx].
  2: { rewrite bool_decide_eq_false_2 by done. by replace (SLOTS - idx) with 0 by lia. }
  rewrite bool_decide_eq_true_2 by done. cbn [negb].
  rewrite (slot_visit_live s d idx) by (done || apply T).
  replace (Z.of_nat idx + 1)%Z with (Z.of_nat (idx + 1)) by lia.
  replace (Nat.min (S n) (SLOTS - idx)) with (S (Nat.min n (SLOTS - (idx + 1)))) by lia.
  cbn [seq fmap list_fmap]. rewrite filter_cons. replace (S idx) with (idx + 1) by lia.
  destruct (live (slot s d idx)) eqn:El.
  2: { rewrite decide_False by done. by apply IH. }
  rewrite decide_True by done.
  destruct (t_num _ T d idx Ha Hd Hidx) as (_&j&Ej&Hj); [by apply live_num|]. rewrite Ej.
  rewrite (bind_run _ _ _ _ _ (retrieve_inode_run s j (t_sinv _ T) Hj)).
  destruct (dir_ok_name s d idx) as (Eu&_); [by apply T|done|].
  rewrite (bind_run _ _ _ (ename (slot s d idx)) s) by (unfold lift; by rewrite Eu).
  rewrite (bind_run _ _ _ (display ls s (slot s d idx)) s).
  - rewrite (bind_run _ _ _ _ _ (IH (idx + 1) T Ha Hd)). done.
  - rewrite (bind_run _ _ _ _ _ (load_inode_run s j (allocated_lt _ _ (si_geom _ (t_sinv _ T)) Hj))).
    unfold display. by rewrite Ej, Nat2Z.id.
Qed.

Lemma filter_none {A} (P : A → Prop) `{∀ x, Decision (P x)} l : Forall (λ x, ¬ P x) l → filter P l = [].
Proof. induction 1; [done|]. by rewrite filter_cons_False. Qed.

Lemma listing_within s d n :
  (∀ k, n ≤ k < SLOTS → live (slot s d k) = false) →
  filter (λ e, live e = true) (slot s d <$> seq 0 (Nat.min n SLOTS)) =
  filter (λ e, live e = true) (slot s d <$> seq 0 SLOTS).
Proof.
  intros H. destruct (decide (n < SLOTS)); [|by rewrite Nat.min_r by lia].
  rewrite Nat.min_l by lia. replace SLOTS with (n + (SLOTS - n)) at 1 by lia.
  rewrite seq_app, fmap_app, list.filter_app.
  rewrite (filter_none _ (slot s d <$> seq (0 + n) (SLOTS - n))); [by rewrite app_nil_r|].
  apply Forall_fmap, Forall_seq. intros k Hk. simpl. rewrite H by lia. done.
Qed.

Lemma wfs_readdir_run s path comm :
  tree s → no_nul path →
  ∃ r names s', wfs_readdir path comm s = Some ((r, names), s') ∧ frame none s s' ∧
    ((∃ d, target s path d ∧ allocated s d ∧ is_dir s d ∧ r = 0%Z ∧
        names = cs "." :: cs ".." :: listing (is_ls comm) s d) ∨
     ((∃ d, target s path d ∧ ¬ is_dir s d ∧ r = (- ENOTDIR)%Z) ∨ lookup_error s path r) ∧ names = []).
Proof.
  intros T Hp. pose proof (t_sinv _ T) as HS. destruct (target_run s path T Hp) as (r&c&E&Hr). unfold wfs_readdir.
  rewrite (bind_run _ _ _ _ _ E). pose proof (frame_set_calls s c HS) as F1.
  destruct r as [e|d]; [eexists _, _, _; split; [done|]; auto|]. destruct Hr as [Ht Ha].
  rewrite (bind_run _ _ _ _ _ (load_target s c d HS Ha)).
  destruct (S_ISDIR (ino_mode (inode_at s d))) eqn:Hd; cbn [negb].
  2: { eexists _, _, _. split; [done|]. split; [done|]. right. split; [|done]. left. exists d.
       unfold is_dir. by rewrite Hd. }
  pose proof (readdir_loop_run (set_calls c s) d (is_ls comm) (dir_max_entries (inode_at s d)) 0
    (tree_set_calls s c T) Ha Hd) as El. change (inode_at (set_calls c s) d) with (inode_at s d) in El.
  change (Z.of_nat 0) with 0%Z in El. rewrite (bind_run _ _ _ _ _ El).
  destruct (touch_run (set_calls c s) d true false false (fr_sinv _ _ _ F1) Ha) as (s2&E2&F2&_).
  rewrite (bind_run _ _ _ _ _ E2). eexists _, _, _. split; [done|]. split; [by eapply frame_trans|].
  left. exists d. split_and!; try done. do 2 f_equal. unfold listing.
  rewrite Nat.sub_0_r. change (slot (set_calls c s) d) with (slot s d).
  rewrite listing_within; [done|]. intros k Hk. destruct (live (slot s d k)) eqn:El'; [|done].
  assert (k < dir_max_entries (inode_at s d)); [|lia].
  apply (entry_below_max s d (ename (slot s d k))); [done|done|by apply T|]. split_and!; [lia|done|done].
Qed.

(** ** File-system statistics *)

Lemma count_clear_spec bm n : ∀ i free,
  i + n ≤ 32 * length bm → (Z.of_nat (32 * length bm) ≤ 2 ^ 32)%Z →
  count_clear bm n (Z.of_nat i) free =
    Some (free + Z.of_nat (length (filter (λ p, bit bm p = false) (seq i n))))%Z.
Proof.
  induction n as [|n IH]; intros i free Hi Hb; cbn [count_clear]; [by rewrite Z.add_0_r|].
  rewrite u32_id by lia. rewrite bitmap_test_spec by lia. cbn [mbind option_bind].
  replace (Z.of_nat i + 1)%Z with (Z.of_nat (S i)) by lia. rewrite IH by lia. f_equal.
  cbn [seq]. rewrite filter_cons. destruct (bit bm i); simpl; [done|]. lia.
Qed.

(** Number of clear bits. *)
Definition clear_bits (bm : list Z) : nat := length (filter (λ p, bit bm p = false) (seq 0 (32 * length bm))).

Lemma wfs_statfs_run s :
  geom s →
  wfs_statfs s = Some ((0%Z,
    mk_statvfs BLOCK_SIZE BLOCK_SIZE (Z.of_nat (length (data s)))
      (Z.of_nat (clear_bits (dbm s))) (Z.of_nat (clear_bits (dbm s)))
      (Z.of_nat (length (inodes s))) (Z.of_nat (clear_bits (ibm s))) (Z.of_nat (clear_bits (ibm s))) MAX_NAME), s).
Proof.
  intros G. pose proof (g_ibm_small _ G). pose proof (g_dbm_small _ G).
  unfold wfs_statfs. rewrite (bind_run _ _ _ s s) by done. rewrite (g_inodes _ G), (g_data _ G), !Nat2Z.id.
  rewrite (g_ibm _ G), (g_dbm _ G).
  pose proof (count_clear_spec (ibm s) (32 * length (ibm s)) 0 0 ltac:(lia) ltac:(lia)) as E1.
  pose proof (count_clear_spec (dbm s) (32 * length (dbm s)) 0 0 ltac:(lia) ltac:(lia)) as E2.
  change (Z.of_nat 0) with 0%Z in *. rewrite Z.add_0_l in E1, E2.
  rewrite (bind_run _ _ _ _ _ (f_equal (λ x, lift x s) E1)).
  rewrite (bind_run _ _ _ _ _ (f_equal (λ x, lift x s) E2)). done.
Qed.
