(* ===== verification/WfsInit.v ===== *)
(** The image [wfs_mkfs] builds: its layout, and that it satisfies the
    namespace invariant. *)

From stdpp Require Import base option list numbers.
From coqutil Require Import Byte Word.LittleEndianList.
From Stdlib Require Import ZArith Lia.
From S2P Require Import Prelude CString WfsBitmap WfsDisk WfsStore WfsBlocks WfsPath WfsDir WfsOps WfsMkfs WfsFree WfsFrame WfsIO WfsSlots WfsTree WfsCreate.

Local Open Scope Z_scope.

Lemma roundup_32 n :
  0 ≤ n ≤ 2 ^ 31 - 32 → ∃ m, 0 ≤ m ∧ roundup n 32 = 32 * m ∧ n ≤ 32 * m < n + 32.
Proof.
  intros Hn. exists ((n + 31) / 32). unfold roundup. rewrite Z.rem_mod_nonneg by lia.
  pose proof (Z.div_mod n 32 ltac:(lia)) as E. pose proof (Z.mod_pos_bound n 32 ltac:(lia)) as Hm.
  set (q := n / 32) in *. set (r := n mod 32) in *.
  assert (Hq : (n + 31) / 32 = if r =? 0 then q else q + 1).
  { destruct (Z.eqb_spec r 0); symmetry; [apply Z.div_unique with 31|apply Z.div_unique with (r - 1)]; lia. }
  rewrite Hq. destruct (Z.eqb_spec r 0).
  - split_and!; lia.
  - rewrite s32_id by lia. split_and!; lia.
Qed.

(** The region boundaries of a superblock, as the header file draws them. *)
Record layout (b : wfs_sb) (sz : Z) : Prop := {
  ly_sb : SIZEOF_SB ≤ i_bitmap_ptr b;
  ly_ibm : i_bitmap_ptr b + 4 * inode_bitmap_len_words b = d_bitmap_ptr b;
  ly_dbm : d_bitmap_ptr b + 4 * data_bitmap_len_words b = i_blocks_ptr b;
  ly_inodes : i_blocks_ptr b + BLOCK_SIZE * num_inodes b = d_blocks_ptr b;
  ly_data : d_blocks_ptr b + BLOCK_SIZE * num_data_blocks b < sz;
  ly_mult : num_inodes b mod 32 = 0 ∧ num_data_blocks b mod 32 = 0;
}.

(** Sizes [setup_sb] computes without overflow: [inodes * BLOCK_SIZE] is an
    [int]. *)
Definition mkfs_args (inodes blocks : Z) : Prop :=
  0 < inodes ≤ 4194272 ∧ 0 ≤ blocks ≤ 2 ^ 31 - 32.

Lemma setup_sb_run inodes blocks sz :
  mkfs_args inodes blocks →
  ∃ m n, 0 < m ∧ 0 ≤ n ∧ inodes ≤ 32 * m < inodes + 32 ∧ blocks ≤ 32 * n < blocks + 32 ∧
    setup_sb inodes blocks sz =
      (mk_sb (32 * m) (32 * n) 48 (48 + 4 * m) (48 + 4 * m + 4 * n) (48 + 4 * m + 4 * n + 32 * m * 512),
       48 + 4 * m + 4 * n + 32 * m * 512 + 32 * n * 512 <? sz).
Proof.
  intros [Hi Hb]. destruct (roundup_32 inodes) as (m&Hm&Em&Hmb); [lia|].
  destruct (roundup_32 blocks) as (n&Hn&En&Hnb); [lia|]. exists m, n.
  split_and!; try lia. unfold setup_sb. rewrite Em, En. unfold SIZEOF_SB, BLOCK_SIZE.
  rewrite !Z.quot_div_nonneg by lia.
  assert (32 * m / 8 = 4 * m) as -> by (symmetry; apply Z.div_unique with 0; lia).
  assert (32 * n / 8 = 4 * n) as -> by (symmetry; apply Z.div_unique with 0; lia).
  rewrite s32_id by lia. rewrite (u64_id (32 * m)), (u64_id (32 * n)), (u64_id (48 + _ + _)) by lia.
  rewrite u64_id by lia. done.
Qed.

(** The mapped image after a successful [wfs_mkfs]. *)
Definition fresh_image (m n : nat) (b : wfs_sb) (uid gid now : Z) (e : environ) : state :=
  mk_state b (1 :: replicate (m - 1) 0) (replicate n 0)
    (root_inode uid gid now :: replicate (32 * m - 1) zero_inode)
    (replicate (32 * n) (replicate 512 NUL)) 0 e 0.

Lemma insert_0_replicate {A} (x y : A) n : (0 < n)%nat → <[0%nat := x]> (replicate n y) = x :: replicate (n - 1) y.
Proof. intros Hn. destruct n; [lia|]. simpl. by rewrite Nat.sub_0_r. Qed.

Lemma words_of m : (32 * m + 31) / 32 = m.
Proof. symmetry. apply Z.div_unique with 31; lia. Qed.

Lemma mount_run (m n : nat) uid gid now e dp :
  (0 < m)%nat →
  let b := mk_sb (32 * Z.of_nat m) (32 * Z.of_nat n) 48 (48 + 4 * Z.of_nat m)
             (48 + 4 * Z.of_nat m + 4 * Z.of_nat n) dp in
  mount [WSuper 0 b; WWord (i_bitmap_ptr b) 1; WInode (i_blocks_ptr b) (root_inode uid gid now)] e =
    fresh_image m n b uid gid now e.
Proof.
  intros Hm b. unfold mount, zero_image, fresh_image. cbn [foldl apply_write]. unfold set_inodes, set_ibm.
  cbn [sb ibm dbm inodes data wfs_error env calls].
  rewrite !Z.sub_diag. change (Z.to_nat (0 / 4)) with 0%nat. change (Z.to_nat (0 / BLOCK_SIZE)) with 0%nat.
  unfold zero_image. cbn [num_inodes num_data_blocks b sb ibm dbm inodes data wfs_error env calls].
  assert (inode_bitmap_len_words b = Z.of_nat m) as -> by (apply words_of).
  assert (data_bitmap_len_words b = Z.of_nat n) as -> by (apply words_of). rewrite !Nat2Z.id.
  replace (Z.to_nat (32 * Z.of_nat m)) with (32 * m)%nat by lia.
  replace (Z.to_nat (32 * Z.of_nat n)) with (32 * n)%nat by lia.
  by rewrite !insert_0_replicate by lia.
Qed.

(** Bits of the inode bitmap: only the root is allocated. *)
Lemma root_bit m i : bit (1 :: replicate m 0) i = true ↔ i = 0%nat.
Proof.
  unfold bit. destruct (decide (i < 32)%nat) as [Hi|Hi].
  - rewrite Nat.div_small, Nat.mod_small by done. simpl.
    split; [|by intros ->]. intros H. destruct i; [done|]. exfalso. revert H.
    rewrite Z.testbit_odd, Z.shiftr_div_pow2 by lia. rewrite Z.div_small; [done|].
    split; [lia|]. apply Z.pow_gt_1; lia.
  - split; [|intros ->; lia]. intros H. exfalso.
    destruct (i / 32)%nat as [|q] eqn:E; [apply Nat.div_small_iff in E; lia|]. simpl in H.
    destruct (replicate m 0 !! q) as [x|] eqn:Ex; simpl in H; [|by rewrite Z.bits_0 in H].
    apply lookup_replicate in Ex as [-> _]. by rewrite Z.bits_0 in H.
Qed.

Lemma zero_bit n b : bit (replicate n 0) b = false.
Proof.
  unfold bit. destruct (replicate n 0 !! (b / 32)%nat) as [x|] eqn:Ex; simpl; [|by rewrite Z.bits_0].
  apply lookup_replicate in Ex as [-> _]. by rewrite Z.bits_0.
Qed.

Section fresh.
Context (m n : nat) (b : wfs_sb) (uid gid now : Z) (e : environ).
Hypothesis Hm : (0 < m)%nat.
Hypothesis Hms : Z.of_nat m ≤ 67108863.
Hypothesis Hns : Z.of_nat n ≤ 67108863.
Hypothesis Hni : num_inodes b = 32 * Z.of_nat m.
Hypothesis Hnd : num_data_blocks b = 32 * Z.of_nat n.
Hypothesis Hdp : 0 < d_blocks_ptr b ∧ d_blocks_ptr b + 512 * (32 * Z.of_nat n) < 2 ^ 63.

Let s := fresh_image m n b uid gid now e.

Lemma fresh_geom : geom s.
Proof.
  constructor; unfold s, fresh_image; cbn [sb ibm dbm inodes data];
    rewrite ?length_cons, ?length_replicate; try lia.
  - constructor; [lia|]. apply Forall_replicate. lia.
  - apply Forall_replicate. lia.
  - by apply Forall_replicate.
Qed.

Lemma fresh_allocated i : allocated s i ↔ i = 0%nat.
Proof. apply root_bit. Qed.

Lemma fresh_no_blocks : no_blocks s 0.
Proof.
  assert (∀ k, dptr s 0 k = 0) as Hd.
  { intros k. unfold dptr. change (ino_blocks (inode_at s 0)) with (replicate 8 0).
    destruct (replicate 8 0 !! k) eqn:E; [|done]. by apply lookup_replicate in E as [-> _]. }
  intros [k| |q] _; cbn [ptr_at]; rewrite Hd; [done..|]. by rewrite decide_True.
Qed.

Lemma fresh_sinv : sinv s.
Proof.
  constructor.
  - apply fresh_geom.
  - intros i ->%fresh_allocated. split_and!; simpl; lia.
  - intros i p ->%fresh_allocated Hp. by rewrite fresh_no_blocks.
  - intros i p j q ->%fresh_allocated _ Hp. by rewrite fresh_no_blocks.
  - intros c Hc. unfold used in Hc. change (dbm s) with (replicate n 0) in Hc. by rewrite zero_bit in Hc.
Qed.

Lemma fresh_slot k : slot s 0 k = free_dentry.
Proof. apply zero_slot. intros o. apply no_blocks_bytes, fresh_no_blocks. Qed.

Lemma fresh_tree : tree s.
Proof.
  constructor.
  - constructor; [apply fresh_sinv|by apply fresh_allocated|done|].
    intros d ->%fresh_allocated _ idx Hidx. rewrite fresh_slot. split; [|done].
    apply no_blocks_bytes, fresh_no_blocks.
  - intros d k ->%fresh_allocated _ _. by rewrite fresh_slot.
  - intros d k d' k' i (->%fresh_allocated&_&_&E&Hi). rewrite fresh_slot in E. simpl in E. lia.
  - intros d k k' nm ->%fresh_allocated _ (_&E&_). by rewrite fresh_slot in E.
  - intros d k nm ->%fresh_allocated _ (_&E&_). by rewrite fresh_slot in E.
  - intros i ->%fresh_allocated. done.
  - intros i ->%fresh_allocated Hd. done.
Qed.
End fresh.
