(* ===== verification/WfsTheorems.v ===== *)
(** The correctness theorems of WFS. *)

From stdpp Require Import base option list numbers.
From coqutil Require Import Byte Word.LittleEndianList.
From Stdlib Require Import Strings.Byte ZArith Lia.
From S2P Require Import Prelude CString WfsBitmap WfsDisk WfsStore WfsBlocks WfsPath WfsDir WfsOps WfsMkfs WfsFree WfsFrame WfsIO WfsSlots WfsTree WfsLookup WfsSpec WfsCreate WfsRemove WfsAttr WfsInit.

(** * Sessions *)

(** A request the daemon serves, with its arguments. *)
Inductive fuse_op :=
| OpGetattr (path : cstr)
| OpMknod (path : cstr) (mode : Z)
| OpMkdir (path : cstr) (mode : Z)
| OpRead (path : cstr) (len off : nat)
| OpWrite (path : cstr) (buf : list byte) (off : nat)
| OpReaddir (path : cstr) (comm : option (list byte))
| OpUnlink (path : cstr)
| OpRmdir (path : cstr)
| OpStatfs
| OpSetxattr (path name : cstr) (value : option (list byte)) (size : Z)
| OpGetxattr (path name : cstr) (size : Z)
| OpRemovexattr (path name : cstr).

(** The handler of a request, for its return code. *)
Definition run_op (o : fuse_op) : M Z :=
  match o with
  | OpGetattr p => fst <$> wfs_getattr p
  | OpMknod p m => wfs_mknod p m
  | OpMkdir p m => wfs_mkdir p m
  | OpRead p n off => fst <$> wfs_read p (Z.of_nat n) (Z.of_nat off)
  | OpWrite p buf off => wfs_write p buf (Z.of_nat off)
  | OpReaddir p c => fst <$> wfs_readdir p c
  | OpUnlink p => wfs_unlink p
  | OpRmdir p => wfs_rmdir p
  | OpStatfs => fst <$> wfs_statfs
  | OpSetxattr p n v z => wfs_setxattr p n v z
  | OpGetxattr p n z => fst <$> wfs_getxattr p n z
  | OpRemovexattr p n => wfs_removexattr p n
  end.

(** What the kernel guarantees of a request: paths are C strings, a name to
    create is not a dot, transfers fit an [int] and offsets an [off_t]. *)
Definition op_ok (o : fuse_op) : Prop :=
  match o with
  | OpMknod p _ | OpMkdir p _ => no_nul p ∧ ¬ dot_name (leaf p)
  | OpRead p n off => no_nul p ∧ (Z.of_nat n < 2 ^ 31)%Z ∧ (Z.of_nat off + Z.of_nat n < 2 ^ 63)%Z
  | OpWrite p buf off =>
      no_nul p ∧ (Z.of_nat (length buf) < 2 ^ 31)%Z ∧ (Z.of_nat (off + length buf) < 2 ^ 63)%Z
  | OpStatfs => True
  | OpGetattr p | OpReaddir p _ | OpUnlink p | OpRmdir p
  | OpSetxattr p _ _ _ | OpGetxattr p _ _ | OpRemovexattr p _ => no_nul p
  end.

Fixpoint run_ops (ops : list fuse_op) : M (list Z) :=
  match ops with
  | [] => mret []
  | o :: ops' => r ← run_op o; rs ← run_ops ops'; mret (r :: rs)
  end.

Lemma frame_none_tree s s' : tree s → frame none s s' → tree s'.
Proof. intros T F. eapply tree_dirs_kept; [exact T|]. by apply frame_none_dirs_kept. Qed.

Lemma run_op_safe o s : tree s → op_ok o → ∃ r s', run_op o s = Some (r, s') ∧ tree s'.
Proof.
  intros T Hok. destruct o; simpl in Hok |- *.
  - destruct (wfs_getattr_run s path T Hok) as (r&st&s'&E&F&_). eexists _, s'.
    split; [exact (fmap_run _ _ _ _ _ E)|by eapply frame_none_tree].
  - destruct Hok as [Hp Hd]. destruct (wfs_mknod_run s path mode T Hp Hd) as (r&s'&E&T'&_). by exists r, s'.
  - destruct Hok as [Hp Hd]. destruct (wfs_mkdir_run s path mode T Hp Hd) as (r&s'&E&T'&_). by exists r, s'.
  - destruct Hok as (Hp&Hn&Ho). destruct (wfs_read_run s path off len T Hp Hn Ho) as (r&buf&s'&E&F&_).
    eexists _, s'. split; [exact (fmap_run _ _ _ _ _ E)|by eapply frame_none_tree].
  - destruct Hok as (Hp&Hn&Ho). destruct (wfs_write_run s path buf off T Hp Hn Ho) as (r&s'&E&T'&_). by exists r, s'.
  - destruct (wfs_readdir_run s path comm T Hok) as (r&st&s'&E&F&_). eexists _, s'.
    split; [exact (fmap_run _ _ _ _ _ E)|by eapply frame_none_tree].
  - destruct (wfs_unlink_run s path T Hok) as (r&s'&E&T'&_). by exists r, s'.
  - destruct (wfs_rmdir_run s path T Hok) as (r&s'&E&T'&_). by exists r, s'.
  - eexists _, s. split; [|exact T]. exact (fmap_run _ _ _ _ _ (wfs_statfs_run s (si_geom _ (t_sinv _ T)))).
  - destruct (wfs_setxattr_run s path name value size T Hok) as (r&s'&E&T'&_). by exists r, s'.
  - destruct (wfs_getxattr_run s path name size T Hok) as (r&st&s'&E&F&_). eexists _, s'.
    split; [exact (fmap_run _ _ _ _ _ E)|by eapply frame_none_tree].
  - destruct (wfs_removexattr_run s path name T Hok) as (r&s'&E&T'&_). by exists r, s'.
Qed.

Lemma run_ops_safe ops : ∀ s, tree s → Forall op_ok ops →
  ∃ rs s', run_ops ops s = Some (rs, s') ∧ tree s' ∧ length rs = length ops.
Proof.
  induction ops as [|o ops IH]; intros s T Hok; cbn [run_ops]; [by exists [], s|].
  apply Forall_cons_1 in Hok as [Ho Hops]. destruct (run_op_safe o s T Ho) as (r&s1&E1&T1).
  rewrite (bind_run _ _ _ _ _ E1). destruct (IH s1 T1 Hops) as (rs&s2&E2&T2&HL).
  rewrite (bind_run _ _ _ _ _ E2). exists (r :: rs), s2. split; [done|]. split; [done|]. simpl. by rewrite HL.
Qed.

(** The image of a successful [wfs_mkfs] satisfies the invariant. *)
Lemma mkfs_tree io st_size uid gid now inodes blocks e ws :
  mkfs_args inodes blocks → wfs_mkfs io st_size uid gid now inodes blocks = (0%Z, ws) → tree (mount ws e).
Proof.
  intros Ha E. destruct (setup_sb_run inodes blocks st_size Ha) as (m&n&Hm&Hn&Hmb&Hnb&Es).
  destruct Ha as [Hi Hb]. unfold wfs_mkfs in E. rewrite Es in E.
  do 8 (match type of E with context [if ?c then _ else _] => destruct c; [done|] end).
  repeat (match type of E with context [if ?c then _ else _] => destruct c; [done|] end).
  injection E as <-. rewrite <- (Z2Nat.id m), <- (Z2Nat.id n) by lia.
  rewrite mount_run by lia. apply fresh_tree; cbn [num_inodes num_data_blocks d_blocks_ptr]; lia.
Qed.


(** ** Reading and writing *)

Lemma target_det s path i j : tree s → target s path i → target s path j → i = j.
Proof. intros T. apply resolves_det; [done|apply T]. Qed.

Lemma target_kept s s' path i : tree s → dirs_kept s s' → target s' path i ↔ target s path i.
Proof. intros T K. apply resolves_dirs_kept; [done|done|apply T]. Qed.

(** A negative code of a failed lookup. *)
Lemma lookup_error_neg s path e : lookup_error s path e → (e < 0)%Z.
Proof. unfold lookup_error, lookup_failed, ENOMEM, ENOENT, ENOTDIR. lia. Qed.

Lemma lookup_error_target s path e i : target s path i → lookup_error s path e → e = (- ENOMEM)%Z.
Proof. intros Ht [->|[_ Hno]]; [done|]. by destruct (Hno i). Qed.

(** A write that reports success. *)
Lemma write_success s path buf o r s1 :
  tree s → no_nul path → (Z.of_nat (length buf) < 2 ^ 31)%Z → (Z.of_nat (o + length buf) < 2 ^ 63)%Z →
  wfs_write path buf (Z.of_nat o) s = Some (r, s1) → (0 ≤ r)%Z →
  tree s1 ∧ dirs_kept s s1 ∧ ∃ i, target s path i ∧ allocated s i ∧ ¬ is_dir s i ∧
    r = Z.of_nat (length buf) ∧ wrote s s1 i o buf ∧
    core (inode_at s1 i) =
      core (with_size (Z.max (ino_size (inode_at s i)) (Z.of_nat (o + length buf))) (inode_at s i)).
Proof.
  intros T Hp Hn Ho E Hr. destruct (wfs_write_run s path buf o T Hp Hn Ho) as (r'&s'&E'&T'&K&H).
  rewrite E' in E. injection E as -> ->. split; [done|]. split; [done|].
  destruct H as [(i&Ht&Ha&Hd&_&W)|[(i&_&_&->&_)|[He _]]].
  - exists i. destruct W as [(->&W&C&_)|(->&_)]; [by split_and!|]. exfalso. revert Hr. by compute.
  - exfalso. revert Hr. by compute.
  - apply lookup_error_neg in He. lia.
Qed.

(** C26: what was written is read back: after a write that reports success, a
    read of the same range of the same path returns exactly the bytes written,
    unless the lookup runs out of memory. *)
Theorem wfs_write_read s path buf o r s1 :
  tree s → no_nul path → (Z.of_nat (length buf) < 2 ^ 31)%Z → (Z.of_nat (o + length buf) < 2 ^ 63)%Z →
  wfs_write path buf (Z.of_nat o) s = Some (r, s1) → (0 ≤ r)%Z →
  ∃ r2 out s2, wfs_read path (Z.of_nat (length buf)) (Z.of_nat o) s1 = Some ((r2, out), s2) ∧
    (r2 = Z.of_nat (length buf) ∧ out = buf ∨ r2 = (- ENOMEM)%Z ∧ out = []).
Proof.
  intros T Hp Hn Ho E Hr. destruct (write_success s path buf o r s1) as (T1&K&i&Ht&Ha&Hd&->&W&C); try done.
  destruct (wfs_read_run s1 path o (length buf) T1 Hp Hn) as (r2&out&s2&E2&_&H); [lia|].
  exists r2, out, s2. split; [done|]. assert (Ht1 : target s1 path i) by (by apply (target_kept s s1)).
  destruct H as [(j&Hj&_&H)|[He ->]].
  - rewrite (target_det s1 path j i T1 Hj Ht1) in H. left.
    assert (Hd1 : S_ISDIR (ino_mode (inode_at s1 i)) = false).
    { rewrite (core_mode _ _ C). apply not_true_iff_false. exact Hd. }
    rewrite Hd1 in H. destruct H as [-> ->].
    assert (read_len s1 i o (length buf) = length buf) as ->.
    { unfold read_len. rewrite (core_size _ _ C). simpl. lia. }
    by rewrite length_bytes_at, (bytes_at_wrote s).
  - right. split; [|done]. by apply (lookup_error_target s1 path r2 i).
Qed.

(** a write changes no byte outside its range: every byte of every other
    file, and every byte of the file itself outside the range, is as before,
    whether the write succeeds or fails. *)
Theorem wfs_write_frame s path buf o r s1 :
  tree s → no_nul path → (Z.of_nat (length buf) < 2 ^ 31)%Z → (Z.of_nat (o + length buf) < 2 ^ 63)%Z →
  wfs_write path buf (Z.of_nat o) s = Some (r, s1) →
  ∀ j q, allocated s j → (target s path j → ¬ o ≤ q < o + length buf) → byte_at s1 j q = byte_at s j q.
Proof.
  intros T Hp Hn Ho E j q Hj Hout. destruct (wfs_write_run s path buf o T Hp Hn Ho) as (r'&s'&E'&T'&K&H).
  rewrite E' in E. injection E as -> ->.
  destruct H as [(i&Ht&Ha&Hd&_&W)|[(i&_&_&_&F)|[_ F]]]; [|apply (proj2 (frame_none_file _ _ _ F Hj))..].
  destruct W as [(_&W&_)|(_&k&Hk&W&_)]; rewrite (W j q Hj), decide_False; [done| |done|];
    intros [-> Hq]; apply (Hout Ht); [lia|]. rewrite length_take in Hq. lia.
Qed.

(** a read of a regular file returns the bytes of the file from the
    offset, clipped to its size, holes as zeros; no file changes. *)
Theorem wfs_read_contents s path i o n :
  tree s → no_nul path → target s path i → ¬ is_dir s i →
  (Z.of_nat n < 2 ^ 31)%Z → (Z.of_nat o + Z.of_nat n < 2 ^ 63)%Z →
  ∃ r out s', wfs_read path (Z.of_nat n) (Z.of_nat o) s = Some ((r, out), s') ∧ frame none s s' ∧
    (r = (- ENOMEM)%Z ∨
     r = Z.of_nat (length out) ∧ length out = Nat.min n (Z.to_nat (ino_size (inode_at s i)) - o) ∧
     ∀ k, k < length out → out !! k = Some (byte_at s i (o + k))).
Proof.
  intros T Hp Ht Hd Hn Ho. destruct (wfs_read_run s path o n T Hp Hn Ho) as (r&out&s'&E&F&H).
  exists r, out, s'. split; [done|]. split; [done|]. destruct H as [(j&Hj&_&H)|[He _]].
  - rewrite (target_det s path j i T Hj Ht) in H. rewrite (proj1 (not_true_iff_false _) Hd) in H.
    right. destruct H as [-> ->]. rewrite length_bytes_at. split_and!; try done.
    intros k Hk. by apply lookup_bytes_at.
  - left. by eapply lookup_error_target.
Qed.

(** when space runs out a write reports [-ENOSPC] and leaves the size
    unchanged, but the part of the buffer before the first block that could
    not be had is already stored. *)
Theorem wfs_write_nospace s path i buf o s1 :
  tree s → no_nul path → target s path i → ¬ is_dir s i →
  (Z.of_nat (length buf) < 2 ^ 31)%Z → (Z.of_nat (o + length buf) < 2 ^ 63)%Z →
  wfs_write path buf (Z.of_nat o) s = Some ((- ENOSPC)%Z, s1) →
  tree s1 ∧ ino_size (inode_at s1 i) = ino_size (inode_at s i) ∧
  ∃ k, k < length buf ∧ bytes_at s1 i o k = take k buf ∧
    (70 * 512 ≤ o + k ∨ full s1).
Proof.
  intros T Hp Ht Hd Hn Ho E. destruct (wfs_write_run s path buf o T Hp Hn Ho) as (r'&s'&E'&T'&K&H).
  rewrite E' in E. injection E as -> ->. split; [done|].
  destruct H as [(j&Hj&Ha&_&_&W)|[(j&Hj&Hdj&Hr&_)|[He _]]].
  - rewrite (target_det s path j i T Hj Ht) in *. destruct W as [(Hr&_)|(_&k&Hk&W&C&Hfull)]; [by unfold ENOSPC in Hr; lia|].
    split; [by apply core_size|]. exists k. split; [done|]. split.
    + pose proof (bytes_at_wrote _ _ _ _ _ Ha W) as Eb. by rewrite length_take, Nat.min_l in Eb by lia.
    + destruct Hfull as [H70|]; [left|by right]. pose proof (Nat.div_mod_eq (o + k) 512). lia.
  - by rewrite (target_det s path j i T Hj Ht) in Hdj.
  - apply (lookup_error_target s path _ i Ht) in He. done.
Qed.

(** ** Creation *)

(** a successful [wfs_mknod] makes [path] name a new, empty regular file
    with the permission bits asked for, owned by the caller; every other file
    keeps its contents and attributes, and the parent directory every name it
    had. *)
Theorem wfs_mknod_creates s path mode s1 :
  tree s → no_nul path → ¬ dot_name (leaf path) → head (clean_path path PATH_MAX) = Some SLASH →
  comps (clean_path path PATH_MAX) ≠ [] →
  wfs_mknod path mode s = Some (0%Z, s1) →
  ∃ d i, parent s path d ∧ ¬ allocated s i ∧ target s1 path i ∧ allocated s1 i ∧
    core (inode_at s1 i) = core (new_inode s i (Z.lor S_IFREG (Z.land mode 0x1FF)) 1) ∧
    (∀ o, byte_at s1 i o = NUL) ∧
    (∀ j, allocated s j → j ≠ d → allocated s1 j ∧ same_file s s1 j) ∧
    (∀ nm j, child s d nm j → child s1 d nm j).
Proof.
  intros T Hp Hdot Hh Hne E. destruct (wfs_mknod_run s path mode T Hp Hdot) as (r&s'&E'&T'&H).
  rewrite E' in E. injection E as -> ->.
  destruct H as [(d&Hpar&Hd&Hno&Ho)|[(d&j&_&_&Hr&_)|[(d&_&_&Hr&_)|[Hr _]]]]; [|done|done|].
  2: { by apply parent_error_neg in Hr. }
  destruct Ho as [(_&HL&k&i&C&Hc)|[Hr _]]; [|by destruct Hr].
  assert (Hg : good_name (leaf path)).
  { split_and!; [by apply no_nul_basename, no_nul_clean_path|apply basename_nonempty|done]. }
  destruct (cr_parent _ _ _ _ _ _ C) as [Ha _].
  assert (Hent : ∀ m, ¬ entry s d (leaf path) m).
  { intros m Hm. destruct (t_num _ T d m) as (_&j&Ej&_); [done|done|apply Hm|apply live_num, Hm|].
    apply (Hno j). split; [done|]. by exists m. }
  destruct (create_ne s s1 d k i (leaf path) T C) as [Hdi _].
  exists d, i. split; [done|]. split; [apply (cr_fresh _ _ _ _ _ _ C)|]. split_and!.
  - apply (target_split s1 path d); [done|done| |exact (creates_new_child s s1 d k i _ T C Hg)].
    exact (creates_resolves s s1 d k i _ _ _ _ T C Hg Hdot Hent (wf_root _ (t_wf _ T)) Hpar).
  - apply (cr_alloc _ _ _ _ _ _ C).
  - exact Hc.
  - apply (cr_bytes _ _ _ _ _ _ C).
  - intros j Hj Hjd. assert (Hji : j ≠ i) by (intros ->; by apply (cr_fresh _ _ _ _ _ _ C)).
    split; [apply (fr_alloc _ _ _ (cr_frame _ _ _ _ _ _ C)); tauto|].
    apply (fr_file _ _ _ (cr_frame _ _ _ _ _ _ C)); tauto.
  - intros nm j Hj. exact (creates_child s s1 d k i _ d nm j T C Hg Hdot Hent Ha Hj).
Qed.

(** C27: a creation that fails leaves every file and directory as it was: no
    inode, no name and no link count of the attempt remains. *)
Theorem wfs_create_atomic s path mode (mkdir : bool) r s1 :
  tree s → no_nul path → ¬ dot_name (leaf path) →
  (if mkdir then wfs_mkdir path mode else wfs_mknod path mode) s = Some (r, s1) → r ≠ 0%Z →
  (r < 0)%Z ∧ frame none s s1.
Proof.
  intros T Hp Hdot E Hr.
  assert (H : ∃ md nl, creation s s1 path md nl r).
  { destruct mkdir.
    - destruct (wfs_mkdir_run s path mode T Hp Hdot) as (r'&s'&E'&_&H). rewrite E' in E. injection E as -> ->. eauto.
    - destruct (wfs_mknod_run s path mode T Hp Hdot) as (r'&s'&E'&_&H). rewrite E' in E. injection E as -> ->. eauto. }
  destruct H as (md&nl&[(d&_&_&_&Ho)|[(d&j&_&_&->&F)|[(d&_&_&->&F)|[He F]]]]); try by split.
  - destruct Ho as [(->&_)|[He F]]; [done|]. split; [|exact F]. unfold ENOSPC, ENAMETOOLONG in He. lia.
  - split; [|exact F]. by eapply parent_error_neg.
Qed.

(** ** Removal *)

Lemma removes_child s s1 d k i a nm b :
  tree s → removes s s1 d k i → allocated s1 a → child s1 a nm b → child s a nm b ∧ b ≠ i.
Proof.
  intros T R Ha Hc. pose proof (tree_remove s s1 d k i T R) as T1.
  destruct (child_allocated _ _ _ _ T1 Ha Hc) as [Hb _]. destruct Hc as [Hd (m&Hm&En)].
  destruct (remove_entry s s1 d k i R a m nm Ha Hm) as [Hne He].
  rewrite (remove_slots s s1 d k i R a m Ha Hne) in En. split.
  - split; [by apply (remove_dir s s1 d k i R a Ha)|]. by exists m.
  - intros ->. by apply (rm_gone _ _ _ _ _ R).
Qed.

Lemma removes_resolves s s1 d k i a cs b :
  tree s → removes s s1 d k i → allocated s1 a → resolves s1 a cs b → resolves s a cs b.
Proof.
  intros T R Ha H. pose proof (tree_remove s s1 d k i T R) as T1.
  induction H as [|a nm b rest c Hc H IH]; [constructor|].
  destruct (removes_child s s1 d k i a nm b T R Ha Hc) as [Hc' _]. econstructor; [exact Hc'|].
  apply IH. by eapply child_allocated.
Qed.

(** A path whose leaf was removed resolves no more. *)
Lemma removes_target s s1 path d k i :
  tree s → removes s s1 d k i → parent s path d → child s d (leaf path) i → allocated s d →
  head (clean_path path PATH_MAX) = Some SLASH → comps (clean_path path PATH_MAX) ≠ [] →
  ∀ j, ¬ target s1 path j.
Proof.
  intros T R Hp Hc Ha Hh Hne j Ht. pose proof (tree_remove s s1 d k i T R) as T1.
  unfold target, comps in Ht. rewrite split_components in Ht by done.
  apply resolves_app in Ht as (d'&Hd'&Hj). apply resolves_one in Hj.
  assert (Ha' : allocated s1 d') by (eapply resolves_allocated; [exact T1|apply T1|exact Hd']).
  assert (d' = d) as ->.
  { apply (resolves_det s 0 (comps (parent_path path)) d' d T); [apply T| |exact Hp].
    exact (removes_resolves s s1 d k i _ _ _ T R (wf_root _ (t_wf _ T1)) Hd'). }
  destruct (removes_child s s1 d k i d _ j T R Ha' Hj) as [Hj0 Hne']. apply Hne'.
  exact (child_det s d _ j i T Ha Hj0 Hc).
Qed.

(** C28: a successful [wfs_unlink] removes the file: [path] names nothing any
    more, the inode is released (and with it, by the invariant, its blocks),
    and every file but the parent directory is untouched. *)
Theorem wfs_unlink_removes s path s1 :
  tree s → no_nul path → head (clean_path path PATH_MAX) = Some SLASH → comps (clean_path path PATH_MAX) ≠ [] →
  wfs_unlink path s = Some (0%Z, s1) →
  tree s1 ∧ ∃ d i, parent s path d ∧ target s path i ∧ ¬ is_dir s i ∧ allocated s i ∧ ¬ allocated s1 i ∧
    (∀ j, ¬ target s1 path j) ∧
    (∀ j, j ≠ i → j ≠ d → (allocated s1 j ↔ allocated s j) ∧ (allocated s j → same_file s s1 j)).
Proof.
  intros T Hp Hh Hne E. destruct (wfs_unlink_run s path T Hp) as (r&s'&E'&T'&H).
  rewrite E' in E. injection E as -> ->. split; [done|].
  destruct H as [(d&Hpar&Ha&Hd&Ho)|[(_&Hr&_)|[(d&_&_&Hr&_)|[Hr _]]]]; [|done|done|].
  2: { by apply parent_error_neg in Hr. }
  destruct Ho as [(k&i&_&HL&Hc&Hnd&R)|[(i&Hr&_)|(Hr&_)]]; [|done|done].
  destruct (child_allocated s d _ i T Ha Hc) as [Hi _].
  exists d, i. split; [done|]. split; [by eapply target_split|]. split; [done|]. split; [done|].
  split; [apply (rm_gone _ _ _ _ _ R)|].
  split; [exact (removes_target s s1 path d k i T R Hpar Hc Ha Hh Hne)|].
  intros j Hji Hjd. pose proof (rm_frame _ _ _ _ _ R) as F. split; [apply F; tauto|].
  intros Hj. apply F; tauto.
Qed.

Lemma nonempty_child s d : tree s → allocated s d → is_dir s d → ¬ empty_dir s d → ∃ nm j, child s d nm j.
Proof.
  intros T Ha Hd Hne. destruct (decide (Forall (λ k, live (slot s d k) = false) (seq 0 SLOTS))) as [HF|HF].
  - destruct Hne. intros k Hk. rewrite Forall_seq in HF. apply HF. lia.
  - apply not_Forall_Exists in HF; [|apply _]. apply Exists_exists in HF as (k&Hk&Hl).
    apply List.in_seq in Hk. apply not_false_iff_true in Hl.
    destruct (t_num _ T d k Ha Hd) as (_&j&Ej&_); [lia|by apply live_num|].
    exists (ename (slot s d k)), j. split; [done|]. exists k. split; [|done]. split_and!; [lia|done|done].
Qed.

(** [wfs_rmdir] removes an empty directory and nothing else; a directory
    that still has entries is refused with [-ENOTEMPTY] and no file changes. *)
Theorem wfs_rmdir_empty s path i :
  tree s → no_nul path → head (clean_path path PATH_MAX) = Some SLASH → comps (clean_path path PATH_MAX) ≠ [] →
  target s path i → is_dir s i →
  ∃ r s1, wfs_rmdir path s = Some (r, s1) ∧ tree s1 ∧
    (r = (- ENOMEM)%Z ∧ frame none s s1 ∨
     (∃ nm j, child s i nm j) ∧ r = (- ENOTEMPTY)%Z ∧ frame none s s1 ∨
     (∀ nm j, ¬ child s i nm j) ∧ r = 0%Z ∧ ¬ allocated s1 i ∧ (∀ j, ¬ target s1 path j)).
Proof.
  intros T Hp Hh Hne Ht Hdi. destruct (wfs_rmdir_run s path T Hp) as (r&s1&E&T1&H).
  exists r, s1. split; [done|]. split; [done|].
  pose proof Ht as Ht'. unfold target, comps in Ht'. rewrite split_components in Ht' by done.
  apply resolves_app in Ht' as (d0&Hd0&Hi). apply resolves_one in Hi.
  assert (Hpd : ∀ d, parent s path d → d = d0) by (intros d Hd; eapply resolves_det; [exact T|apply T|exact Hd|exact Hd0]).
  assert (Ha0 : allocated s d0) by (eapply resolves_allocated; [exact T|apply T|exact Hd0]).
  assert (Hch : ∀ j, child s d0 (leaf path) j → j = i) by (intros j Hj; exact (child_det s d0 _ j i T Ha0 Hj Hi)).
  assert (Hia : allocated s i) by (by eapply child_allocated).
  destruct H as [(d&Hpar&Ha&Hd&Ho)|[(Hr&_)|[(d&Hpar&Hnd&_&_)|[He F]]]].
  - rewrite (Hpd d Hpar) in *. right. destruct Ho as [(k&j&->&HL&Hc&Hj&Hemp&R)|[(j&->&Hc&_&Hemp&F)|[(j&_&Hc&Hj&_)|(_&Hno&_)]]].
    + rewrite (Hch j Hc) in *. right. split; [|split; [done|split; [apply (rm_gone _ _ _ _ _ R)|]]].
      2: { exact (removes_target s s1 path d0 k i T R Hd0 Hi Ha0 Hh Hne). }
      intros nm m [_ (q&(Hq&Hl&_)&_)]. by rewrite (Hemp q Hq) in Hl.
    + rewrite (Hch j Hc) in *. left. split; [|done]. by apply nonempty_child.
    + by rewrite (Hch j Hc) in Hj.
    + by destruct (Hno i).
  - by rewrite Hr in Hne.
  - rewrite (Hpd d Hpar) in Hnd. destruct Hi as [? _]. done.
  - left. split; [|done]. destruct He as [[(_&Hh')|[(_&Hr)|He]]|[_ Hno]]; [done| |done|by destruct (Hno d0)].
    by rewrite Hr in Hne.
Qed.

(** ** Listing and statistics *)

Lemma elem_of_listing s d nm :
  tree s → allocated s d → is_dir s d → nm ∈ listing false s d ↔ ∃ j, child s d nm j.
Proof.
  intros T Ha Hd. unfold listing. rewrite list_elem_of_fmap. split.
  - intros (e&->&He). apply list_elem_of_filter in He as [Hl He]. apply list_elem_of_fmap in He as (k&->&Hk).
    apply elem_of_seq in Hk. destruct (t_num _ T d k Ha Hd) as (_&j&Ej&_); [lia|by apply live_num|].
    exists j. split; [done|]. exists k. split; [|done]. split_and!; [lia|done|done].
  - intros (j&_&k&(Hk&Hl&<-)&_). exists (slot s d k). split; [done|].
    apply list_elem_of_filter. split; [done|]. apply list_elem_of_fmap. exists k. split; [done|].
    apply elem_of_seq. lia.
Qed.

Lemma listing_nodup s d : tree s → allocated s d → is_dir s d → NoDup (listing false s d).
Proof.
  intros T Ha Hd. unfold listing.
  assert (H : ∀ n idx, idx + n ≤ SLOTS → NoDup (display false s <$> filter (λ e, live e = true) (slot s d <$> seq idx n))).
  { induction n as [|n IH]; intros idx Hn; [constructor|]. cbn [seq fmap list_fmap]. rewrite filter_cons.
    case_decide as Hl; [|apply IH; lia]. cbn [fmap list_fmap]. constructor; [|apply IH; lia].
    intros Hin. apply list_elem_of_fmap in Hin as (e&En&He). apply list_elem_of_filter in He as [Hl' He].
    apply list_elem_of_fmap in He as (k&->&Hk). apply elem_of_seq in Hk.
    assert (idx = k); [|lia]. apply (t_names _ T d idx k (ename (slot s d k)) Ha Hd); (split_and!; [lia|done|done]). }
  apply H. lia.
Qed.

(** [wfs_readdir] lists the dots and then every name of the directory,
    each once and nothing else. *)
Theorem wfs_readdir_lists s path d comm :
  tree s → no_nul path → target s path d → is_dir s d → is_ls comm = false →
  ∃ r names s', wfs_readdir path comm s = Some ((r, names), s') ∧ frame none s s' ∧
    (r = (- ENOMEM)%Z ∨
     r = 0%Z ∧ ∃ l, names = cs "." :: cs ".." :: l ∧ NoDup l ∧ ∀ nm, nm ∈ l ↔ ∃ j, child s d nm j).
Proof.
  intros T Hp Ht Hd Hls. destruct (wfs_readdir_run s path comm T Hp) as (r&names&s'&E&F&H).
  exists r, names, s'. split; [done|]. split; [done|]. rewrite Hls in H.
  destruct H as [(j&Hj&Ha&Hdj&->&->)|[[(j&Hj&Hnd&_)|He] _]].
  - rewrite (target_det s path j d T Hj Ht) in *. right. split; [done|]. eexists. split; [done|].
    split; [by apply listing_nodup|]. intros nm. by apply elem_of_listing.
  - by rewrite (target_det s path j d T Hj Ht) in Hnd.
  - left. by eapply lookup_error_target.
Qed.

(** [wfs_statfs] reports the capacity of the image and as free exactly
    the inodes and blocks whose bitmap bit is clear. *)
Theorem wfs_statfs_counts s :
  tree s →
  ∃ v, wfs_statfs s = Some ((0%Z, v), s) ∧
    f_blocks v = Z.of_nat (length (data s)) ∧ f_files v = Z.of_nat (length (inodes s)) ∧
    f_bfree v = Z.of_nat (length (filter (λ b, ¬ used s b) (seq 0 (length (data s))))) ∧
    f_ffree v = Z.of_nat (length (filter (λ i, ¬ allocated s i) (seq 0 (length (inodes s))))) ∧
    f_bavail v = f_bfree v ∧ f_favail v = f_ffree v.
Proof.
  intros T. pose proof (si_geom _ (t_sinv _ T)) as G. eexists. split; [by apply wfs_statfs_run|].
  cbn [f_blocks f_files f_bfree f_ffree f_bavail f_favail]. unfold clear_bits.
  rewrite <- (g_dbm _ G), <- (g_ibm _ G). split_and!; try done; do 2 f_equal; apply list_filter_iff;
    intros x; unfold used, allocated; by rewrite not_true_iff_false.
Qed.

(** ** Colours *)

Lemma parse_color_info t code :
  parse_color_name t = Some code → info_name (wfs_color_from_code (u8 code)) = tolower <$> take 31 t.
Proof.
  unfold parse_color_name. generalize (tolower <$> take 31 t). intros buf. cbn [find_color color_table].
  repeat (destruct (streq buf _) eqn:E; [apply streq_true in E as ->; by intros [= <-]|clear E]). done.
Qed.

Lemma color_name_colored s s1 i code t :
  parse_color_name t = Some code → colored s s1 i code → color_name s1 i = tolower <$> take 31 t.
Proof.
  intros Hc (_&_&_&C). unfold color_name. rewrite (core_color _ _ C). by apply parse_color_info.
Qed.

(** the colour set through [user.color] is the colour read back, in lower
    case, whatever the case it was given in. *)
Theorem wfs_color_roundtrip s path name bytes size s1 :
  tree s → no_nul path → wfs_setxattr path name (Some bytes) size s = Some (0%Z, s1) →
  let color := tolower <$> take 31 (value_name bytes size) in
  ∃ r out s2, wfs_getxattr path name 64 s1 = Some ((r, out), s2) ∧
    (r = (- ENOMEM)%Z ∨ r = Z.of_nat (length color) ∧ out = color ++ [NUL]).
Proof.
  intros T Hp E color. destruct (wfs_setxattr_run s path name (Some bytes) size T Hp) as (r&s'&E'&T'&H).
  rewrite E' in E. injection E as -> ->. destruct H as [H|[? _]]; [|lia].
  destruct H as (i&b&code&Ht&Ha&->&[= <-]&_&Hc&_&Hcol).
  pose proof (colored_dirs_kept s s1 i code Ha Hcol) as K.
  destruct (wfs_getxattr_run s1 path XATTR_COLOR 64 T' Hp) as (r2&out&s2&E2&_&H2).
  exists r2, out, s2. split; [done|]. assert (Ht1 : target s1 path i) by (by apply (target_kept s s1)).
  destruct H2 as [(j&Hj&_&_&H2)|[[[? _]|He] _]]; [|done|left; exact (lookup_error_target s1 path r2 i Ht1 He)].
  rewrite (target_det s1 path j i T' Hj Ht1) in H2. rewrite (color_name_colored s s1 i code _ Hc Hcol) in H2.
  fold color in H2. assert (HL : length color ≤ 31) by (unfold color; rewrite length_fmap, length_take; lia).
  cbn zeta in H2. change (64 =? 0)%Z with false in H2. cbn iota in H2.
  rewrite (proj2 (Z.ltb_ge 64 _)), (proj2 (Z.ltb_lt _ 64)) in H2 by lia. right. exact H2.
Qed.

Lemma strip_plain s t o n :
  Forall (.≠ ESC) s → o + length s < n → strip_loop (s ++ t) false o n = s ++ strip_loop t false (o + length s) n.
Proof.
  intros Hs. revert o. induction Hs as [|c s Hc Hs IH]; intros o Ho; simpl in *; [by rewrite Nat.add_0_r|].
  rewrite decide_True by lia. replace (o + S (length s)) with (S o + length s) by lia.
  rewrite <- IH by lia. destruct (s ++ t) as [|d rest] eqn:E; simpl; [done|]. by rewrite decide_False by tauto.
Qed.

Lemma strip_skip body t o n :
  Forall (.≠ "m"%byte) body → strip_loop (body ++ "m"%byte :: t) true o n = strip_loop t false o n.
Proof.
  induction 1 as [|c body Hc _ IH]; simpl; [done|]. by rewrite decide_False.
Qed.

Lemma strip_escape body t o n :
  Forall (.≠ "m"%byte) body → o + 1 < n →
  strip_loop (ESC :: "["%byte :: body ++ "m"%byte :: t) false o n = strip_loop t false o n.
Proof.
  intros Hb Ho. simpl. rewrite decide_True by done. by apply strip_skip.
Qed.

(** Every escape sequence of the table is stripped. *)
Lemma strip_color code t o n :
  o + 1 < n → strip_loop (info_ansi (wfs_color_from_code code) ++ t) false o n = strip_loop t false o n.
Proof.
  intros Ho. unfold wfs_color_from_code. destruct (code <? WFS_COLOR_MAX)%Z; [|done].
  destruct (color_infos !! Z.to_nat code) as [info|] eqn:E; [|done]. simpl.
  apply list_elem_of_lookup_2 in E. unfold color_infos in E.
  repeat (apply elem_of_cons in E as [->|E];
    [first [done | match goal with |- strip_loop (info_ansi (mk_info (sgr ?x) _) ++ t) _ _ _ = _ =>
       let b := eval vm_compute in (removelast (tail (cs x))) in exact (strip_escape b t o n ltac:(repeat constructor; done) Ho) end]|]).
  by apply elem_of_nil in E.
Qed.

Lemma length_color_ansi code : length (info_ansi (wfs_color_from_code code)) ≤ 11.
Proof.
  unfold wfs_color_from_code. destruct (code <? WFS_COLOR_MAX)%Z; [|simpl; lia].
  destruct (color_infos !! Z.to_nat code) as [info|] eqn:E; [|simpl; lia]. simpl.
  assert (HF : Forall (λ i, length (info_ansi i) ≤ 11) color_infos) by (repeat constructor; simpl; lia).
  exact (Forall_lookup_1 _ _ _ _ HF E).
Qed.

(** a coloured name that [wfs_readdir] hands to [ls] still names the
    file: as the leaf of a path it is cleaned back to the plain name. *)
Theorem decorated_name_cleans pre code name :
  Forall (.≠ ESC) pre → Forall (.≠ ESC) name → name ≠ [] → length name < 28 →
  length pre + length name + 1 < PATH_MAX →
  clean_path (pre ++ decorate (wfs_color_from_code code) name) PATH_MAX = pre ++ name.
Proof.
  intros Hpre Hname Hne HL Hmax. unfold clean_path, strip_ansi_codes, decorate.
  pose proof (length_color_ansi code). rewrite take_ge.
  2: { rewrite !length_app. change (length (sgr "[0m")) with 4. disk_lia. }
  rewrite strip_plain, strip_color, strip_plain by (done || lia).
  assert (strip_loop (sgr "[0m") false (0 + length pre + length name) PATH_MAX = []) as ->.
  { apply (strip_escape ["0"%byte] []); [by repeat constructor|lia]. }
  rewrite app_nil_r. destruct (pre ++ name) eqn:E; [|done]. apply app_eq_nil in E as [_ ->]. done.
Qed.

(** ** Layout *)

(** [setup_sb] lays the regions out one after the other, without
    overlap, in whole bitmap words, and accepts them only if they end inside
    the image. *)
Theorem setup_sb_layout inodes blocks sz b :
  mkfs_args inodes blocks → setup_sb inodes blocks sz = (b, true) →
  layout b sz ∧ (inodes ≤ num_inodes b < inodes + 32)%Z ∧ (blocks ≤ num_data_blocks b < blocks + 32)%Z.
Proof.
  intros Ha E. destruct (setup_sb_run inodes blocks sz Ha) as (m&n&Hm&Hn&Hmb&Hnb&Es).
  rewrite Es in E. injection E as <- Hsz. apply Z.ltb_lt in Hsz.
  split; [|split; simpl; lia]. constructor; unfold SIZEOF_SB, inode_bitmap_len_words, data_bitmap_len_words, BLOCK_SIZE;
    cbn [num_inodes num_data_blocks i_bitmap_ptr d_bitmap_ptr i_blocks_ptr d_blocks_ptr]; rewrite ?words_of; try lia.
  rewrite !(Z.mul_comm 32), !Z.mod_mul by lia. done.
Qed.

(** * A concrete image *)

Definition demo_env : environ := mk_env Z.of_nat (λ _, true) 1000 1000.
Definition demo_writes : list write_req := (wfs_mkfs (λ _, true) 100000 1000 1000 7 32 64).2.
Definition demo : state := mount demo_writes demo_env.

Definition after {A} (m : M A) (s : state) : state := match m s with Some (_, s') => s' | None => s end.

Definition path_a : cstr := cs "/a".
(** A file, 700 bytes of it, a directory. *)
Definition demo_file : state := after (wfs_mknod path_a 0x1A4) demo.
Definition demo_bytes : list byte := replicate 700 "x"%byte.
Definition demo_data : state := after (wfs_write path_a demo_bytes 10) demo_file.
Definition demo_dir : state := after (wfs_mkdir (cs "/d") 0x1ED) demo_file.

Lemma demo_args : mkfs_args 32 64.
Proof. unfold mkfs_args. lia. Qed.

Lemma demo_tree : tree demo.
Proof. by apply (mkfs_tree (λ _, true) 100000 1000 1000 7 32 64); [exact demo_args|vm_compute]. Qed.

Lemma demo_path_a : no_nul path_a ∧ ¬ dot_name (leaf path_a) ∧
  head (clean_path path_a PATH_MAX) = Some SLASH ∧ comps (clean_path path_a PATH_MAX) = [cs "a"].
Proof.
  split; [by apply no_nul_cs|]. split; [|split; vm_compute; reflexivity].
  intros [H|H]; vm_compute in H; discriminate.
Qed.

Lemma demo_file_tree : tree demo_file.
Proof.
  destruct demo_path_a as (Hp&Hd&_). destruct (wfs_mknod_run demo path_a 0x1A4 demo_tree Hp Hd) as (r&s'&E&T&_).
  unfold demo_file, after. rewrite E. exact T.
Qed.

Lemma demo_file_target : target demo_file path_a 1 ∧ ¬ is_dir demo_file 1.
Proof.
  destruct demo_path_a as (_&_&_&Ec). unfold target. rewrite Ec. split.
  - apply resolves_one. split; [vm_compute; reflexivity|]. exists 0. split; [|vm_compute; reflexivity].
    split; [vm_compute; lia|]. split; vm_compute; reflexivity.
  - intros H. vm_compute in H. discriminate.
Qed.


Lemma wfs_write_read_witness :
  ∃ r2 out s2, wfs_read path_a 700 10 demo_data = Some ((r2, out), s2) ∧
    (r2 = 700%Z ∧ out = demo_bytes ∨ r2 = (- ENOMEM)%Z ∧ out = []).
Proof.
  apply (wfs_write_read demo_file path_a demo_bytes 10 700 demo_data demo_file_tree (proj1 demo_path_a)).
  - unfold demo_bytes. rewrite length_replicate. lia.
  - unfold demo_bytes. rewrite length_replicate. lia.
  - vm_compute. reflexivity.
  - lia.
Defined.

Lemma wfs_write_frame_witness : byte_at demo_data 1 5 = byte_at demo_file 1 5.
Proof.
  refine (wfs_write_frame demo_file path_a demo_bytes 10 700 demo_data demo_file_tree (proj1 demo_path_a) _ _ _ 1 5 _ _).
  - unfold demo_bytes. rewrite length_replicate. lia.
  - unfold demo_bytes. rewrite length_replicate. lia.
  - vm_compute. reflexivity.
  - vm_compute. reflexivity.
  - lia.
Defined.

Lemma wfs_read_contents_witness :
  ∃ r out s', wfs_read path_a (Z.of_nat 16) (Z.of_nat 0) demo_file = Some ((r, out), s') ∧ frame none demo_file s' ∧
    (r = (- ENOMEM)%Z ∨
     r = Z.of_nat (length out) ∧ length out = Nat.min 16 (Z.to_nat (ino_size (inode_at demo_file 1)) - 0) ∧
     ∀ k, k < length out → out !! k = Some (byte_at demo_file 1 (0 + k))).
Proof.
  destruct demo_file_target as [Ht Hd].
  apply (wfs_read_contents demo_file path_a 1 0 16 demo_file_tree (proj1 demo_path_a) Ht Hd); lia.
Defined.

Definition demo_nospace : state := after (wfs_write path_a ["x"%byte] 35840) demo_file.

Lemma wfs_write_nospace_witness : tree demo_nospace ∧ ino_size (inode_at demo_nospace 1) = ino_size (inode_at demo_file 1).
Proof.
  destruct demo_file_target as [Ht Hd].
  destruct (wfs_write_nospace demo_file path_a 1 ["x"%byte] (Z.to_nat 35840) demo_nospace demo_file_tree
    (proj1 demo_path_a) Ht Hd) as (T&Hs&_).
  - simpl. lia.
  - simpl length. lia.
  - vm_compute. reflexivity.
  - exact (conj T Hs).
Defined.

Lemma wfs_mknod_creates_witness :
  ∃ d i, parent demo path_a d ∧ ¬ allocated demo i ∧ target demo_file path_a i ∧ allocated demo_file i.
Proof.
  destruct demo_path_a as (Hp&Hd&Hh&Hc).
  destruct (wfs_mknod_creates demo path_a 0x1A4 demo_file demo_tree Hp Hd Hh) as (d&i&H1&H2&H3&H4&_).
  - rewrite Hc. discriminate.
  - vm_compute. reflexivity.
  - exists d, i. exact (conj H1 (conj H2 (conj H3 H4))).
Defined.

Lemma wfs_create_atomic_witness :
  (- EEXIST < 0)%Z ∧ frame none demo_file (after (wfs_mkdir path_a 0x1ED) demo_file).
Proof.
  destruct demo_path_a as (Hp&Hd&_).
  apply (wfs_create_atomic demo_file path_a 0x1ED true (- EEXIST)%Z); [exact demo_file_tree|exact Hp|exact Hd| |].
  - vm_compute. reflexivity.
  - discriminate.
Defined.

Definition demo_unlinked : state := after (wfs_unlink path_a) demo_file.

Lemma wfs_unlink_removes_witness : tree demo_unlinked ∧ ∀ j, ¬ target demo_unlinked path_a j.
Proof.
  destruct demo_path_a as (Hp&_&Hh&Hc).
  destruct (wfs_unlink_removes demo_file path_a demo_unlinked demo_file_tree Hp Hh)
    as (T&d&i&_&_&_&_&_&Hno&_).
  - rewrite Hc. discriminate.
  - vm_compute. reflexivity.
  - exact (conj T Hno).
Defined.

Lemma demo_dir_tree : tree demo_dir.
Proof.
  destruct (wfs_mkdir_run demo_file (cs "/d") 0x1ED demo_file_tree) as (r&s'&E&T&_).
  - by apply no_nul_cs.
  - intros [H|H]; vm_compute in H; discriminate.
  - unfold demo_dir, after. rewrite E. exact T.
Qed.

Lemma wfs_rmdir_empty_witness : ∃ r s1, wfs_rmdir (cs "/d") demo_dir = Some (r, s1) ∧ tree s1.
Proof.
  destruct (wfs_rmdir_empty demo_dir (cs "/d") 2 demo_dir_tree) as (r&s1&E&T&_).
  - by apply no_nul_cs.
  - vm_compute. reflexivity.
  - vm_compute. discriminate.
  - unfold target. replace (comps (clean_path (cs "/d") PATH_MAX)) with [cs "d"] by (vm_compute; reflexivity).
    apply resolves_one. split; [vm_compute; reflexivity|]. exists 1. split; [|vm_compute; reflexivity].
    split; [vm_compute; lia|]. split; vm_compute; reflexivity.
  - vm_compute. reflexivity.
  - exists r, s1. exact (conj E T).
Defined.

Lemma wfs_readdir_lists_witness :
  ∃ r names s', wfs_readdir (cs "/") None demo_file = Some ((r, names), s') ∧ frame none demo_file s'.
Proof.
  destruct (wfs_readdir_lists demo_file (cs "/") 0 None demo_file_tree) as (r&names&s'&E&F&_).
  - by apply no_nul_cs.
  - unfold target. replace (comps (clean_path (cs "/") PATH_MAX)) with (@nil cstr) by (vm_compute; reflexivity). constructor.
  - vm_compute. reflexivity.
  - reflexivity.
  - exists r, names, s'. exact (conj E F).
Defined.

Lemma wfs_statfs_counts_witness : ∃ v, wfs_statfs demo_file = Some ((0%Z, v), demo_file) ∧ f_files v = 32%Z.
Proof.
  destruct (wfs_statfs_counts demo_file demo_file_tree) as (v&E&_&Hf&_). exists v. split; [exact E|].
  rewrite Hf. vm_compute. reflexivity.
Defined.

Definition demo_red : state := after (wfs_setxattr path_a XATTR_COLOR (Some (cs "ReD")) 3) demo_file.

Lemma wfs_color_roundtrip_witness :
  ∃ r out s2, wfs_getxattr path_a XATTR_COLOR 64 demo_red = Some ((r, out), s2) ∧
    (r = (- ENOMEM)%Z ∨ r = 3%Z ∧ out = cs "red" ++ [NUL]).
Proof.
  exact (wfs_color_roundtrip demo_file path_a XATTR_COLOR (cs "ReD") 3 demo_red demo_file_tree (proj1 demo_path_a)
    ltac:(vm_compute; reflexivity)).
Defined.

Lemma decorated_name_cleans_witness :
  clean_path (cs "/d/" ++ decorate (wfs_color_from_code WFS_COLOR_ORANGE) (cs "file")) PATH_MAX = cs "/d/file".
Proof.
  apply (decorated_name_cleans (cs "/d/") WFS_COLOR_ORANGE (cs "file")).
  - repeat constructor; discriminate.
  - repeat constructor; discriminate.
  - discriminate.
  - simpl. lia.
  - apply Nat.ltb_lt. vm_compute. reflexivity.
Defined.

Lemma setup_sb_layout_witness : layout (mk_sb 32 64 48 52 60 16444) 100000.
Proof.
  apply (setup_sb_layout 32 64 100000 (mk_sb 32 64 48 52 60 16444) demo_args). vm_compute. reflexivity.
Defined.
