(* ===== verification/HashMap.v ===== *)
(** The alias table of the shell (hash_map.c): a chained hash table of 101
    buckets with the djb2 hash, its operations, and the proof that it
    implements a finite map from C strings to C strings. *)

From stdpp Require Import base option list numbers gmap sorting.
From coqutil Require Import Byte.
From Stdlib Require Import Strings.Byte ZArith Lia.
From S2P Require Import Prelude CString.

(** * Model *)

Definition TABLE_SIZE : Z := 101.

Record Entry := mk_entry { key : cstr; value : cstr }.

(** A bucket is the chain of its entries, the head first. *)
Abbreviation HashMap := (list (list Entry)).

(** A [char] is signed, the accumulator is a 64-bit [unsigned long]. *)
Fixpoint hash_loop (h : Z) (key : cstr) : Z :=
  match key with
  | [] => h
  | c :: key' => hash_loop (u64 (u64 (u64 (Z.shiftl h 5) + h) + s8 (byte.unsigned c))) key'
  end.
Definition hash (key : cstr) : Z := hash_loop 5381 key mod TABLE_SIZE.

Definition hm_create : HashMap := replicate (Z.to_nat TABLE_SIZE) [].

Definition bucket (hm : HashMap) (idx : Z) : list Entry := default [] (hm !! Z.to_nat idx).
Definition set_bucket (hm : HashMap) (idx : Z) (chain : list Entry) : HashMap :=
  <[Z.to_nat idx := chain]> hm.

(** The update loop of [hm_put]: [None] when no entry has the key. *)
Fixpoint chain_update (k v : cstr) (chain : list Entry) : option (list Entry) :=
  match chain with
  | [] => None
  | e :: rest =>
      if streq (key e) k then Some (mk_entry (key e) v :: rest)
      else (e ::.) <$> chain_update k v rest
  end.

Definition hm_put (hm : HashMap) (k v : cstr) : HashMap :=
  let idx := hash k in
  match chain_update k v (bucket hm idx) with
  | Some chain => set_bucket hm idx chain
  | None => set_bucket hm idx (mk_entry k v :: bucket hm idx)
  end.

Fixpoint chain_get (k : cstr) (chain : list Entry) : option cstr :=
  match chain with
  | [] => None
  | e :: rest => if streq (key e) k then Some (value e) else chain_get k rest
  end.
Definition hm_get (hm : HashMap) (k : cstr) : option cstr := chain_get k (bucket hm (hash k)).

Fixpoint chain_delete (k : cstr) (chain : list Entry) : list Entry :=
  match chain with
  | [] => []
  | e :: rest => if streq (key e) k then rest else e :: chain_delete k rest
  end.
Definition hm_delete (hm : HashMap) (k : cstr) : HashMap :=
  set_bucket hm (hash k) (chain_delete k (bucket hm (hash k))).

(** [printf("%s = '%s'\n", key, value)]. *)
Definition print_entry (k v : cstr) : cstr := k ++ cs " = '" ++ v ++ cs "'" ++ [NEWLINE].

Definition hm_print (hm : HashMap) : cstr :=
  concat ((λ chain, concat ((λ e, print_entry (key e) (value e)) <$> chain)) <$> hm).

(** [strcmp]: bytes compare as [unsigned char]; only the sign of the result is
    specified. *)
Fixpoint strcmp (s t : cstr) : Z :=
  match s, t with
  | [], [] => 0
  | [], _ :: _ => -1
  | _ :: _, [] => 1
  | c :: s', d :: t' =>
      if decide (c = d) then strcmp s' t' else byte.unsigned c - byte.unsigned d
  end.

Definition cmp_keys (ka kb : cstr) : Z := strcmp ka kb.

(** The order [qsort] sorts by. *)
Definition keys_le (ka kb : cstr) : Prop := (cmp_keys ka kb ≤ 0)%Z.
Global Instance keys_le_dec ka kb : Decision (keys_le ka kb) := Z.le_dec _ _.

Definition count_entries (hm : HashMap) : nat := foldl (λ n chain, n + length chain) 0 hm.
Definition collect_keys (hm : HashMap) : list cstr :=
  foldl (λ keys chain, keys ++ (key <$> chain)) [] hm.

(** [None] would be a [NULL] passed to [%s]. *)
Definition hm_print_sorted (hm : HashMap) : option cstr :=
  if decide (count_entries hm = 0) then Some []
  else @concat byte <$> mapM (λ k, print_entry k <$> hm_get hm k) (merge_sort keys_le (collect_keys hm)).

(** * Well-formedness and abstraction *)

Global Instance byte_countable : Countable byte.
Proof.
  refine (inj_countable Byte.to_N Byte.of_N _). apply Byte.of_to_N.
Defined.

Definition entries (hm : HashMap) : list (cstr * cstr) :=
  (λ e, (key e, value e)) <$> concat hm.

(** The finite map the table stands for. *)
Definition hm_map (hm : HashMap) : gmap cstr cstr := list_to_map (entries hm).

(** Every entry is in the bucket of its hash, and a bucket has no key twice. *)
Record hm_ok (hm : HashMap) : Prop := {
  ok_length : length hm = Z.to_nat TABLE_SIZE;
  ok_hash : ∀ i chain e, hm !! i = Some chain → e ∈ chain → Z.of_nat i = hash (key e);
  ok_nodup : ∀ i chain, hm !! i = Some chain → NoDup (key <$> chain);
}.

Lemma hash_range k : (0 ≤ hash k < TABLE_SIZE)%Z.
Proof. unfold hash. by apply Z.mod_pos_bound. Qed.

Lemma chain_get_spec k chain v :
  NoDup (key <$> chain) → chain_get k chain = Some v ↔ mk_entry k v ∈ chain.
Proof.
  induction chain as [|[k' v'] chain IH]; simpl; intros Hnd.
  { split; [done|]. by intros ?%elem_of_nil. }
  apply NoDup_cons in Hnd as [Hk Hnd]. rewrite elem_of_cons. destruct (streq k' k) eqn:E.
  - apply streq_true in E as ->. split; [intros [= ->]; by left|]. intros [[= ->]|Hin]; [done|].
    destruct Hk. apply list_elem_of_fmap. by eexists (mk_entry k v).
  - apply streq_false in E. rewrite (IH Hnd). split; [by right|]. intros [[=]|]; [congruence|done].
Qed.

Lemma chain_get_none k chain : chain_get k chain = None ↔ k ∉ (key <$> chain).
Proof.
  induction chain as [|[k' v'] chain IH]; simpl.
  { split; [intros _ ?%elem_of_nil; done|done]. }
  rewrite elem_of_cons. destruct (streq k' k) eqn:E.
  - apply streq_true in E as ->. split; [done|]. intros H. destruct H. by left.
  - apply streq_false in E. rewrite IH. split; [intros H [?|?]; [congruence|done]|tauto].
Qed.

Lemma bucket_some hm idx : hm_ok hm → (0 ≤ idx < TABLE_SIZE)%Z → hm !! Z.to_nat idx = Some (bucket hm idx).
Proof.
  intros [Hl _ _] Hi. unfold bucket. destruct (lookup_lt_is_Some_2 hm (Z.to_nat idx)) as [c Hc]; [|by rewrite Hc].
  rewrite Hl. lia.
Qed.

Lemma hash_bucket hm k : hm_ok hm → hm !! Z.to_nat (hash k) = Some (bucket hm (hash k)).
Proof. intros H. apply bucket_some; [done|apply hash_range]. Qed.

Lemma elem_of_entries hm k v : hm_ok hm → (k, v) ∈ entries hm ↔ mk_entry k v ∈ bucket hm (hash k).
Proof.
  intros H. unfold entries. rewrite list_elem_of_fmap. split.
  - intros ([k' v']&[= <- <-]&Hin). apply list_elem_of_In, in_concat in Hin as (chain&Hc&Hin).
    apply list_elem_of_In, list_elem_of_lookup in Hc as [i Hi]. apply list_elem_of_In in Hin.
    pose proof (ok_hash _ H _ _ _ Hi Hin) as Eh. simpl in Eh. rewrite <- Eh. unfold bucket.
    by rewrite Nat2Z.id, Hi.
  - intros Hin. exists (mk_entry k v). split; [done|]. apply list_elem_of_In, in_concat.
    exists (bucket hm (hash k)). split; apply list_elem_of_In; [|done].
    by eapply list_elem_of_lookup_2, hash_bucket.
Qed.

(** The table answers a lookup from any permutation of its entries. *)
Lemma entries_nodup hm : hm_ok hm → NoDup (entries hm).*1.
Proof.
  intros H. unfold entries. rewrite <- list_fmap_compose.
  assert (∀ n h, (∀ i chain e, h !! i = Some chain → e ∈ chain → Z.of_nat (n + i) = hash (key e)) →
    (∀ i chain, h !! i = Some chain → NoDup (key <$> chain)) → NoDup (key <$> concat h)) as Hgen.
  { intros n h. revert n. induction h as [|c h IH]; intros n Hh Hn; simpl; [constructor|].
    rewrite fmap_app. apply NoDup_app. split_and!.
    - by apply (Hn 0).
    - intros k (e&->&He)%list_elem_of_fmap (e'&Ek&He')%list_elem_of_fmap.
      apply list_elem_of_In, in_concat in He' as (c'&Hc'&He').
      apply list_elem_of_In, list_elem_of_lookup in Hc' as [i Hi].
      pose proof (Hh 0 c e eq_refl He) as E0.
      pose proof (Hh (S i) c' e' Hi (proj2 (list_elem_of_In _ _) He')) as E1. rewrite <- Ek in E1. lia.
    - apply (IH (S n)); intros i chain.
      + intros e Hi He. rewrite <- (Hh (S i) chain e Hi He). lia.
      + intros Hi. by apply (Hn (S i)). }
  apply (Hgen 0); [apply (ok_hash _ H)|apply (ok_nodup _ H)].
Qed.

(** A lookup of the table is a lookup of the map. *)
Lemma hm_get_map hm k : hm_ok hm → hm_get hm k = hm_map hm !! k.
Proof.
  intros H. unfold hm_get, hm_map. pose proof (ok_nodup _ H _ _ (hash_bucket hm k H)) as Hnd.
  apply option_eq. intros v. rewrite (chain_get_spec k _ v Hnd), <- elem_of_entries by done.
  apply elem_of_list_to_map, entries_nodup, H.
Qed.

(** * The operations preserve well-formedness and implement the map *)

(** A table changed in one bucket. *)
Lemma set_bucket_ok hm idx chain :
  hm_ok hm → (∀ e, e ∈ chain → hash (key e) = idx) → NoDup (key <$> chain) → hm_ok (set_bucket hm idx chain).
Proof.
  intros [Hl Hh Hn] He Hnd. unfold set_bucket. split.
  - by rewrite length_insert.
  - intros i c e [(<-&<-&_)|[_ Hi]]%list_lookup_insert_Some Hin; [|by eapply Hh].
    rewrite <- (He e Hin). pose proof (hash_range (key e)). lia.
  - intros i c [(<-&<-&_)|[_ Hi]]%list_lookup_insert_Some; [done|by eapply Hn].
Qed.

Lemma bucket_set_bucket hm k k' chain :
  hm_ok hm →
  bucket (set_bucket hm (hash k) chain) (hash k') = if decide (hash k = hash k') then chain else bucket hm (hash k').
Proof.
  intros H. unfold bucket, set_bucket. case_decide as E.
  - rewrite <- E, list_lookup_insert_eq; [done|]. eapply lookup_lt_Some, hash_bucket, H.
  - rewrite list_lookup_insert_ne; [done|]. pose proof (hash_range k). pose proof (hash_range k'). lia.
Qed.

Lemma bucket_hash hm k e : hm_ok hm → e ∈ bucket hm (hash k) → hash (key e) = hash k.
Proof.
  intros H Hin. rewrite <- (ok_hash _ H _ _ _ (hash_bucket hm k H) Hin).
  pose proof (hash_range k). lia.
Qed.

Lemma bucket_nodup hm k : hm_ok hm → NoDup (key <$> bucket hm (hash k)).
Proof. intros H. by eapply ok_nodup, hash_bucket. Qed.

Lemma chain_update_keys k v chain chain' :
  chain_update k v chain = Some chain' → key <$> chain' = key <$> chain.
Proof.
  revert chain'. induction chain as [|e chain IH]; simpl; intros chain' E; [done|].
  destruct (streq (key e) k); [by injection E as <-|].
  apply fmap_Some in E as (c&Ec&->). rewrite !fmap_cons. by rewrite (IH c).
Qed.

Lemma chain_update_none k v chain : chain_update k v chain = None ↔ k ∉ (key <$> chain).
Proof.
  induction chain as [|e chain IH]; simpl.
  { split; [intros _ ?%elem_of_nil; done|done]. }
  rewrite elem_of_cons. destruct (streq (key e) k) eqn:E.
  - apply streq_true in E as <-. split; [done|]. intros H. destruct H. by left.
  - apply streq_false in E. rewrite fmap_None, IH. split; [intros H [?|?]; [congruence|done]|tauto].
Qed.

Lemma chain_get_update k v chain chain' k' :
  chain_update k v chain = Some chain' →
  chain_get k' chain' = if decide (k = k') then Some v else chain_get k' chain.
Proof.
  revert chain'. induction chain as [|e chain IH]; simpl; intros chain' E; [done|].
  destruct (streq (key e) k) eqn:Ek.
  - injection E as <-. simpl. apply streq_true in Ek as <-. case_decide as Hk.
    + by rewrite (proj2 (streq_true _ _) Hk).
    + by rewrite (proj2 (streq_false _ _) Hk).
  - apply streq_false in Ek. apply fmap_Some in E as (c&Ec&->). simpl. rewrite (IH c Ec).
    case_decide as Hk; [subst|done]. by rewrite (proj2 (streq_false _ _) Ek).
Qed.

Lemma chain_delete_sublist k chain : sublist (chain_delete k chain) chain.
Proof. induction chain; simpl; [done|]. case_match; by constructor. Qed.

Lemma chain_get_delete k chain k' :
  NoDup (key <$> chain) →
  chain_get k' (chain_delete k chain) = if decide (k = k') then None else chain_get k' chain.
Proof.
  induction chain as [|e chain IH]; simpl; intros Hnd; [by case_decide|].
  apply NoDup_cons in Hnd as [Hk Hnd]. destruct (streq (key e) k) eqn:Ek.
  - apply streq_true in Ek as <-. case_decide as E; [|by rewrite (proj2 (streq_false _ _) E)].
    rewrite <- E. by apply chain_get_none.
  - simpl. apply streq_false in Ek. rewrite (IH Hnd). case_decide as E; [subst|done].
    by rewrite (proj2 (streq_false _ _) Ek).
Qed.

Lemma hm_create_ok : hm_ok hm_create.
Proof.
  unfold hm_create. split; [by rewrite length_replicate| |].
  - intros i c e [-> _]%lookup_replicate_1 ?%elem_of_nil. done.
  - intros i c [-> _]%lookup_replicate_1. constructor.
Qed.

Lemma hm_put_ok hm k v : hm_ok hm → hm_ok (hm_put hm k v).
Proof.
  intros H. unfold hm_put. pose proof (bucket_nodup hm k H) as Hnd.
  destruct (chain_update k v (bucket hm (hash k))) as [c|] eqn:E; apply set_bucket_ok; try done.
  - intros e He. assert (key e ∈ key <$> bucket hm (hash k)) as Hk.
    { rewrite <- (chain_update_keys _ _ _ _ E). apply list_elem_of_fmap. eauto. }
    apply list_elem_of_fmap in Hk as (e'&->&He'). by eapply bucket_hash.
  - by rewrite (chain_update_keys _ _ _ _ E).
  - intros e [->|He]%elem_of_cons; [done|]. by eapply bucket_hash.
  - simpl. constructor; [|done]. by apply chain_update_none in E.
Qed.

Lemma hm_delete_ok hm k : hm_ok hm → hm_ok (hm_delete hm k).
Proof.
  intros H. pose proof (chain_delete_sublist k (bucket hm (hash k))) as Hs.
  apply set_bucket_ok; [done| |].
  - intros e He. apply (bucket_hash hm k); [done|]. by eapply elem_of_sublist.
  - eapply sublist_NoDup; [by apply (bucket_nodup hm k)|]. by apply fmap_sublist.
Qed.

Lemma hm_map_create : hm_map hm_create = ∅.
Proof. done. Qed.

Lemma hm_map_put hm k v : hm_ok hm → hm_map (hm_put hm k v) = <[k := v]> (hm_map hm).
Proof.
  intros H. apply map_eq. intros k'. pose proof (hm_put_ok hm k v H) as H'.
  rewrite lookup_insert, <- !hm_get_map by done. unfold hm_get, hm_put.
  destruct (chain_update k v (bucket hm (hash k))) as [c|] eqn:E; rewrite bucket_set_bucket by done.
  - destruct (decide (hash k = hash k')) as [Eh|Eh].
    + rewrite (chain_get_update _ _ _ _ k' E). case_decide; [done|]. by rewrite Eh.
    + rewrite decide_False; [done|congruence].
  - destruct (decide (hash k = hash k')) as [Eh|Eh]; simpl.
    + case_decide as Hk.
      * by rewrite (proj2 (streq_true _ _) Hk).
      * rewrite (proj2 (streq_false _ _) Hk). by rewrite Eh.
    + rewrite decide_False; [done|congruence].
Qed.

Lemma hm_map_delete hm k : hm_ok hm → hm_map (hm_delete hm k) = delete k (hm_map hm).
Proof.
  intros H. apply map_eq. intros k'. pose proof (hm_delete_ok hm k H) as H'.
  rewrite lookup_delete, <- !hm_get_map by done. unfold hm_get, hm_delete.
  rewrite bucket_set_bucket by done. destruct (decide (hash k = hash k')) as [Eh|Eh].
  - rewrite chain_get_delete by (by apply bucket_nodup). case_decide; [done|]. by rewrite Eh.
  - rewrite decide_False; [done|congruence].
Qed.

(** * Printing in key order *)

Lemma strcmp_refl s : strcmp s s = 0%Z.
Proof. induction s; simpl; [done|]. by rewrite decide_True. Qed.

Lemma byte_unsigned_inj c d : byte.unsigned c = byte.unsigned d → c = d.
Proof. intros E. rewrite <- (byte.of_Z_unsigned c), E. apply byte.of_Z_unsigned. Qed.

Lemma strcmp_opp s t : (strcmp t s = - strcmp s t)%Z.
Proof.
  revert t. induction s as [|c s IH]; intros [|d t]; simpl; try lia.
  destruct (decide (c = d)) as [<-|E].
  - rewrite decide_True by done. apply IH.
  - rewrite decide_False by congruence. lia.
Qed.

Lemma strcmp_eq s t : strcmp s t = 0%Z → s = t.
Proof.
  revert t. induction s as [|c s IH]; intros [|d t]; simpl; intros E; try done.
  destruct (decide (c = d)) as [<-|Hn]; [f_equal; by apply IH|].
  destruct Hn. apply byte_unsigned_inj. lia.
Qed.

Lemma strcmp_trans s t u : (strcmp s t ≤ 0 → strcmp t u ≤ 0 → strcmp s u ≤ 0)%Z.
Proof.
  revert t u. induction s as [|c s IH]; intros [|d t] [|e u]; simpl; try lia.
  destruct (decide (c = d)) as [<-|Hcd], (decide (c = e)) as [<-|Hce].
  - apply IH.
  - lia.
  - rewrite decide_False by congruence. intros ??. destruct Hcd. apply byte_unsigned_inj. lia.
  - destruct (decide (d = e)) as [<-|?]; lia.
Qed.

Global Instance keys_le_trans : Transitive keys_le.
Proof. intros s t u. apply strcmp_trans. Qed.
Global Instance keys_le_total : Total keys_le.
Proof. intros s t. unfold keys_le, cmp_keys. rewrite (strcmp_opp s t). lia. Qed.
Global Instance keys_le_antisymm : AntiSymm (=) keys_le.
Proof.
  intros s t. unfold keys_le, cmp_keys. rewrite (strcmp_opp s t). intros. apply strcmp_eq. lia.
Qed.

Lemma collect_keys_entries hm : collect_keys hm = (entries hm).*1.
Proof.
  unfold collect_keys, entries. rewrite <- list_fmap_compose. 
  assert (∀ acc, foldl (λ keys chain, keys ++ (key <$> chain)) acc hm = acc ++ (key <$> concat hm)) as ->; [|done].
  induction hm as [|c hm IH]; intros acc; simpl; [by rewrite app_nil_r|].
  by rewrite IH, fmap_app, app_assoc.
Qed.

Lemma count_entries_length hm : count_entries hm = length (entries hm).
Proof.
  unfold count_entries, entries. rewrite length_fmap.
  assert (∀ n, foldl (λ n chain, n + length chain) n hm = n + length (concat hm)) as ->; [|done].
  induction hm as [|c hm IH]; intros n; simpl; [lia|]. rewrite IH, length_app. lia.
Qed.

Lemma map_to_list_hm_map hm : hm_ok hm → map_to_list (hm_map hm) ≡ₚ entries hm.
Proof. intros H. by apply map_to_list_to_map, entries_nodup. Qed.

(** The listing has one line for each binding of the map, in key order. *)
Lemma hm_print_sorted_map hm :
  hm_ok hm →
  ∃ l, l ≡ₚ map_to_list (hm_map hm) ∧ StronglySorted keys_le l.*1 ∧
    hm_print_sorted hm = Some (concat ((λ b, print_entry b.1 b.2) <$> l)).
Proof.
  intros H. pose proof (map_to_list_hm_map hm H) as Hm. unfold hm_print_sorted.
  rewrite count_entries_length, collect_keys_entries. case_decide as E.
  { apply length_zero_iff_nil in E. rewrite E in Hm. exists []. split; [by symmetry|]. split; [constructor|done]. }
  clear E. set (ks := merge_sort keys_le (entries hm).*1).
  assert (ks ≡ₚ (entries hm).*1) as Hp by apply merge_sort_Permutation.
  assert (StronglySorted keys_le ks) as Hs by (apply StronglySorted_merge_sort; apply _).
  clearbody ks. destruct (Permutation_map_inv _ _ Hp) as (l&->&Hl). exists l. symmetry in Hl.
  split_and!; [by rewrite Hm|done|]. replace (mapM _ _) with (Some ((λ b, print_entry b.1 b.2) <$> l)); [done|].
  symmetry. apply mapM_Some. apply Forall2_fmap_2.
  apply Forall_Forall2_diag, Forall_forall. intros [k v] Hin. simpl.
  rewrite hm_get_map by done. replace (hm_map hm !! k) with (Some v); [done|]. symmetry.
  apply elem_of_list_to_map; [by apply entries_nodup|]. by rewrite Hl in Hin.
Qed.
