(* ===== verification/DynArray.v ===== *)
(** The growable array of strings behind the shell's history
    (dynamic_array.c), at the level of its buffer: [data] has one cell for
    each pointer allocated, [None] while it is uninitialised, and an access
    outside the buffer or of an uninitialised cell is a fault.  The results of
    the allocation calls are arguments. *)

From stdpp Require Import base option list numbers.
From coqutil Require Import Byte.
From Stdlib Require Import Strings.Byte ZArith Lia.
From S2P Require Import Prelude CString.

(** * Model *)

Record DynamicArray := mk_da {
  data : list (option (option cstr));  (* cells; a stored value may be NULL *)
  size : Z;                            (* size_t *)
  capacity : Z;                        (* size_t *)
}.

Definition sizeof_ptr : Z := 8.

(** [realloc(data, bytes)]: the common prefix is kept, the rest is
    uninitialised. *)
Definition realloc_cells (d : list (option (option cstr))) (bytes : Z) : list (option (option cstr)) :=
  let n := Z.to_nat (bytes / sizeof_ptr) in take n d ++ replicate (n - length d) None.

Definition da_ensure_capacity (alloc : bool) (da : DynamicArray) : bool * DynamicArray :=
  if bool_decide (size da < capacity da)%Z then (true, da)
  else
    let new_cap := if bool_decide (capacity da = 0)%Z then 8%Z else u64 (capacity da * 2) in
    if alloc
    then (true, mk_da (realloc_cells (data da) (u64 (new_cap * sizeof_ptr))) (size da) new_cap)
    else (false, da).

(** [None] is the NULL result. *)
Definition da_create (alloc_da alloc_data : bool) (init_capacity : Z) : option DynamicArray :=
  if alloc_da then
    let init_capacity := if bool_decide (init_capacity = 0)%Z then 8%Z else init_capacity in
    if alloc_data
    then Some (mk_da (realloc_cells [] (u64 (init_capacity * sizeof_ptr))) 0 init_capacity)
    else None
  else None.

(** A store into a cell, and a load of a pointer from one. *)
Definition store (d : list (option (option cstr))) (i : Z) (v : option cstr) :
  option (list (option (option cstr))) :=
  if bool_decide (Z.to_nat i < length d) then Some (<[Z.to_nat i := Some v]> d) else None.
Definition load (d : list (option (option cstr))) (i : Z) : option (option cstr) :=
  mjoin (d !! Z.to_nat i).

Definition da_put (alloc_data alloc_copy : bool) (da : DynamicArray) (val : option cstr) :
  option DynamicArray :=
  let '(ok, da) := da_ensure_capacity alloc_data da in
  if ok then
    if bool_decide (is_Some val) && negb alloc_copy then Some da
    else d ← store (data da) (size da) val; Some (mk_da d (u64 (size da + 1)) (capacity da))
  else Some da.

Definition da_get (da : DynamicArray) (ind : Z) : option (option cstr) :=
  if bool_decide (ind >= size da)%Z then Some None else load (data da) ind.

(** The shift loop of [da_delete]; [n] bounds the remaining iterations. *)
Fixpoint shift_left (n : nat) (d : list (option (option cstr))) (i sz : Z) :
  option (list (option (option cstr))) :=
  if bool_decide (i < sz)%Z then
    match n with
    | O => None
    | S n' => v ← load d i; d' ← store d (i - 1) v; shift_left n' d' (i + 1) sz
    end
  else Some d.

Definition da_delete (da : DynamicArray) (ind : Z) : option DynamicArray :=
  if bool_decide (ind >= size da)%Z then Some da
  else
    _ ← load (data da) ind;
    d ← shift_left (Z.to_nat (size da)) (data da) (ind + 1) (size da);
    Some (mk_da d (size da - 1) (capacity da)).

Fixpoint print_cells (n : nat) (d : list (option (option cstr))) (i : Z) : option cstr :=
  match n with
  | O => Some []
  | S n' => v ← load d i; rest ← print_cells n' d (i + 1); Some (default [] v ++ [NEWLINE] ++ rest)
  end.
Definition da_print (da : DynamicArray) : option cstr := print_cells (Z.to_nat (size da)) (data da) 0.

(** The blocks [da_free] hands to [free], the strings first. *)
Fixpoint free_cells (n : nat) (d : list (option (option cstr))) (i : Z) : option (list (option cstr)) :=
  match n with
  | O => Some []
  | S n' => v ← load d i; rest ← free_cells n' d (i + 1); Some (v :: rest)
  end.
Definition da_free (da : DynamicArray) : option (list (option cstr)) :=
  free_cells (Z.to_nat (size da)) (data da) 0.

(** * The array as a list *)

(** [da_rep da l]: the array holds the strings [l], in order. *)
Record da_rep (da : DynamicArray) (l : list (option cstr)) : Prop := {
  rep_data : ∃ rest, data da = (Some <$> l) ++ rest;
  rep_size : size da = Z.of_nat (length l);
  rep_capacity : capacity da = Z.of_nat (length (data da));
  rep_bound : (capacity da < 2 ^ 60)%Z;
}.

Lemma length_realloc_cells d n :
  (0 ≤ n)%Z → length (realloc_cells d (n * sizeof_ptr)) = Z.to_nat n.
Proof.
  intros Hn. unfold realloc_cells. rewrite Z.div_mul by done.
  rewrite length_app, length_take, length_replicate. lia.
Qed.

Lemma realloc_cells_grow d n :
  (Z.of_nat (length d) ≤ n)%Z → ∃ rest, realloc_cells d (n * sizeof_ptr) = d ++ rest.
Proof.
  intros Hn. unfold realloc_cells. rewrite Z.div_mul by done. rewrite take_ge by lia. eauto.
Qed.

Lemma da_create_rep n :
  (0 ≤ n < 2 ^ 60)%Z → ∃ da, da_create true true n = Some da ∧ da_rep da [].
Proof.
  intros Hn. unfold da_create. set (c := if bool_decide (n = 0)%Z then 8%Z else n).
  assert (0 < c < 2 ^ 60)%Z as Hc. { unfold c. case_bool_decide; lia. }
  clearbody c. rewrite u64_id by (unfold sizeof_ptr; lia). eexists. split; [done|]. split; simpl; [eauto|done| |lia].
  rewrite length_realloc_cells by lia. lia.
Qed.

(** Growth keeps the contents and makes room for one more element. *)
Lemma da_ensure_capacity_rep da l :
  da_rep da l → (Z.of_nat (length l) < 2 ^ 58)%Z →
  ∃ da', da_ensure_capacity true da = (true, da') ∧ da_rep da' l ∧ (size da' < capacity da')%Z.
Proof.
  intros [[rest Hd] Hs Hc Hb] Hl. unfold da_ensure_capacity. case_bool_decide as Hlt.
  { exists da. split; [done|]. split; [|done]. split; eauto. }
  assert (length (data da) = length l + length rest) as Hlen by (rewrite Hd, length_app, length_fmap; lia).
  set (c := if bool_decide _ then _ else _).
  assert (c = if bool_decide (capacity da = 0)%Z then 8%Z else (capacity da * 2)%Z) as Ec.
  { unfold c. case_bool_decide; [done|]. apply u64_id. lia. }
  assert (capacity da < c < 2 ^ 60)%Z as Hcr by (rewrite Ec; case_bool_decide; lia).
  clearbody c. rewrite u64_id by (unfold sizeof_ptr; lia). eexists. split; [done|].
  destruct (realloc_cells_grow (data da) c) as [rest' Hr]; [lia|].
  split; [split; simpl|simpl; lia].
  - rewrite Hr, Hd, <- app_assoc. eauto.
  - done.
  - rewrite length_realloc_cells; lia.
  - lia.
Qed.

Lemma da_put_rep da l v :
  da_rep da l → (Z.of_nat (length l) < 2 ^ 58)%Z →
  ∃ da', da_put true true da v = Some da' ∧ da_rep da' (l ++ [v]).
Proof.
  intros H Hl. destruct (da_ensure_capacity_rep da l H Hl) as (da1&E&[[rest Hd] Hs Hc Hb]&Hlt).
  unfold da_put. rewrite E. rewrite andb_false_r. unfold store.
  assert (length (data da1) = length l + length rest) as Hlen by (rewrite Hd, length_app, length_fmap; lia).
  rewrite bool_decide_eq_true_2 by lia. simpl. eexists. split; [done|].
  destruct rest as [|x rest]; [simpl in *; lia|].
  assert (<[Z.to_nat (size da1) := Some v]> (data da1) = (Some <$> l ++ [v]) ++ rest) as Ei.
  { rewrite Hd, Hs, Nat2Z.id, fmap_app, <- app_assoc. simpl.
    by rewrite insert_app_r_alt, length_fmap, Nat.sub_diag by (rewrite length_fmap; lia). }
  split; simpl.
  - eauto.
  - rewrite length_app. simpl. rewrite u64_id; lia.
  - by rewrite length_insert.
  - done.
Qed.

Lemma load_rep da l i :
  da_rep da l → (0 ≤ i)%Z → (i < size da)%Z → load (data da) i = l !! Z.to_nat i.
Proof.
  intros [[rest Hd] Hs _ _] H0 Hi. unfold load. rewrite Hd, lookup_app_l, list_lookup_fmap by (rewrite length_fmap; lia).
  by destruct (l !! Z.to_nat i).
Qed.

Lemma da_get_rep da l i : da_rep da l → (0 ≤ i)%Z → da_get da i = Some (mjoin (l !! Z.to_nat i)).
Proof.
  intros H Hi. unfold da_get. pose proof (rep_size _ _ H) as Hs. case_bool_decide.
  - rewrite lookup_ge_None_2 by lia. done.
  - rewrite (load_rep da l) by (done || lia).
    destruct (lookup_lt_is_Some_2 l (Z.to_nat i)) as [x ->]; [lia|done].
Qed.

(** The loop closes the gap at the end of [a]. *)
Lemma shift_left_spec b : ∀ a y rest n,
  length b ≤ n →
  ∃ z, shift_left n ((Some <$> a) ++ Some y :: (Some <$> b) ++ rest)
         (Z.of_nat (length a) + 1) (Z.of_nat (length a + 1 + length b)) =
       Some ((Some <$> a ++ b) ++ z :: rest).
Proof.
  induction b as [|x b IH]; intros a y rest n Hn.
  { exists (Some y). destruct n; simpl; (rewrite bool_decide_eq_false_2 by (simpl; lia)); by rewrite app_nil_r. }
  destruct n as [|n]; [simpl in Hn; lia|]. simpl. rewrite bool_decide_eq_true_2 by lia.
  unfold load at 1. replace (Z.to_nat (Z.of_nat (length a) + 1)) with (length (Some <$> a) + 1) by (rewrite length_fmap; lia).
  rewrite lookup_app_r, Nat.add_sub' by lia. simpl. unfold store.
  replace (Z.to_nat (Z.of_nat (length a) + 1 - 1)) with (length (Some <$> a)) by (rewrite length_fmap; lia).
  rewrite bool_decide_eq_true_2 by (rewrite length_app; simpl; lia). simpl.
  rewrite insert_app_r_alt, Nat.sub_diag by lia. simpl.
  destruct (IH (a ++ [x]) x rest n) as [z Hz]; [simpl in Hn; lia|]. exists z.
  rewrite fmap_app, length_app, <- !app_assoc in Hz. simpl in Hz. rewrite <- Hz. f_equal; lia.
Qed.

Lemma da_delete_rep da l i :
  da_rep da l → (0 ≤ i)%Z → ∃ da', da_delete da i = Some da' ∧ da_rep da' (delete (Z.to_nat i) l).
Proof.
  intros H Hi. pose proof (rep_size _ _ H) as Hs. unfold da_delete. case_bool_decide.
  { exists da. split; [done|]. by rewrite delete_take_drop, take_ge, drop_ge, app_nil_r by lia. }
  rewrite (load_rep da l) by (done || lia).
  destruct (lookup_lt_is_Some_2 l (Z.to_nat i)) as [x Hx]; [lia|]. rewrite Hx. simpl.
  pose proof (take_drop_middle l _ x Hx) as El. set (a := take (Z.to_nat i) l) in *. set (b := drop (S (Z.to_nat i)) l) in *.
  assert (Z.of_nat (length a) = i) as Ha by (unfold a; rewrite length_take; lia).
  destruct H as [[rest Hd] _ Hc Hb]. rewrite <- El, fmap_app, fmap_cons, <- app_assoc, <- app_comm_cons in Hd.
  destruct (shift_left_spec b a x rest (Z.to_nat (size da))) as [z Hz].
  { unfold b. rewrite length_drop. lia. }
  assert (Z.of_nat (length a + 1 + length b) = size da) as Hsz.
  { rewrite Hs, <- El, length_app. simpl. lia. }
  rewrite Ha, Hsz in Hz. rewrite Hd, Hz. simpl. eexists. split; [done|].
  assert (delete (Z.to_nat i) l = a ++ b) as -> by (apply delete_take_drop).
  split; simpl; [eauto| | |done].
  - rewrite length_app. lia.
  - rewrite Hc, Hd. rewrite !length_app, !length_cons, !length_app, !length_fmap, !length_app. lia.
Qed.

Lemma load_cells da l n i :
  da_rep da l → (Z.of_nat i + Z.of_nat n ≤ size da)%Z →
  free_cells n (data da) (Z.of_nat i) = Some (take n (drop i l)).
Proof.
  intros H. revert i. induction n as [|n IH]; intros i Hi; simpl; [by rewrite take_0|].
  rewrite (load_rep da l) by (done || lia). rewrite Nat2Z.id. pose proof (rep_size _ _ H).
  destruct (lookup_lt_is_Some_2 l i) as [x Hx]; [lia|]. rewrite Hx. simpl.
  replace (Z.of_nat i + 1)%Z with (Z.of_nat (S i)) by lia. rewrite IH by lia. simpl.
  by rewrite (drop_S l x i Hx).
Qed.

Lemma print_cells_free n d i : print_cells n d i =
  (λ vs, concat ((λ v, default [] v ++ [NEWLINE]) <$> vs)) <$> free_cells n d i.
Proof.
  revert i. induction n as [|n IH]; intros i; simpl; [done|]. destruct (load d i); simpl; [|done].
  rewrite IH. destruct (free_cells n d (i + 1)); simpl; [|done]. by rewrite <- app_assoc.
Qed.

Lemma da_free_rep da l : da_rep da l → da_free da = Some l.
Proof.
  intros H. pose proof (rep_size _ _ H) as Hs. unfold da_free. rewrite (load_cells da l _ 0 H) by lia.
  rewrite drop_0, take_ge by lia. done.
Qed.

Lemma da_print_rep da l :
  da_rep da l → da_print da = Some (concat ((λ v, default [] v ++ [NEWLINE]) <$> l)).
Proof.
  intros H. unfold da_print. rewrite print_cells_free. pose proof (da_free_rep da l H) as E.
  unfold da_free in E. by rewrite E.
Qed.
