(* ===== verification/WshUtils.v ===== *)
(** String replacement and concatenation (utils.c) over byte buffers: a fresh
    buffer is uninitialised, and a copy outside a buffer or out of
    uninitialised memory is a fault ([None]).  Allocation succeeds, except in
    [append] where its failure is a value. *)

From stdpp Require Import base option list numbers.
From coqutil Require Import Byte.
From Stdlib Require Import Strings.Byte ZArith Lia.
From S2P Require Import Prelude CString.

(** * Model *)

(** [None] is an uninitialised byte. *)
Definition buffer : Type := list (option byte).

Definition malloc_buf (n : nat) : buffer := replicate n None.

(** A C string in memory, with its terminator. *)
Definition in_memory (s : cstr) : list byte := s ++ [NUL].

(** [memcpy(dst + off, src, n)]. *)
Definition memcpy (dst : buffer) (off : nat) (src : list byte) (n : nat) : option buffer :=
  if bool_decide (off + n ≤ length dst) && bool_decide (n ≤ length src)
  then Some (take off dst ++ (Some <$> take n src) ++ drop (off + n) dst) else None.

(** The string stored in a buffer: its initialised bytes up to the first NUL. *)
Fixpoint string_of (b : buffer) : option cstr :=
  match b with
  | [] | None :: _ => None
  | Some c :: b' => if decide (c = NUL) then Some [] else (c ::.) <$> string_of b'
  end.

(** [strlen(s + i)], where [s + i] must point into the string or at its NUL. *)
Definition strlen_at (s : cstr) (i : nat) : option nat := length <$> until_nul (drop i (in_memory s)).

Definition replaceAt (command : cstr) (i n : nat) (value : cstr) : option cstr :=
  let prefixLength := i in
  let valueLength := length value in
  suffixLength ← strlen_at command (i + n);
  let newResultLength := prefixLength + valueLength + suffixLength + 1 in
  b ← memcpy (malloc_buf newResultLength) 0 (in_memory command) prefixLength;
  b ← memcpy b prefixLength (in_memory value) valueLength;
  b ← memcpy b (prefixLength + valueLength) (drop (i + n) (in_memory command)) (suffixLength + 1);
  string_of b.

Fixpoint is_prefix (p s : cstr) : bool :=
  match p, s with
  | [], _ => true
  | _ :: _, [] => false
  | c :: p', d :: s' => bool_decide (c = d) && is_prefix p' s'
  end.

(** The offset [strstr] finds. *)
Fixpoint strstr (s needle : cstr) : option nat :=
  if is_prefix needle s then Some 0
  else match s with [] => None | _ :: s' => S <$> strstr s' needle end.

Definition replaceKey (command key value : cstr) : option cstr :=
  match strstr command key with
  | None => Some command
  | Some found => replaceAt command found (length key) value
  end.

(** The outer option is a fault, the inner one a NULL pointer. *)
Definition append (alloc : bool) (dest src : option cstr) : option (option cstr) :=
  match src with
  | None => Some dest
  | Some src =>
      let dest_len := length (default [] dest) in
      let src_len := length src in
      if alloc then
        (* realloc keeps the bytes of [dest], its terminator included *)
        let old := match dest with Some d => Some <$> in_memory d | None => [] end in
        let n := dest_len + src_len + 1 in
        let b := take n old ++ replicate (n - length old) None in
        b ← memcpy b dest_len (in_memory src) (src_len + 1);
        Some <$> string_of b
      else Some None
  end.

(** * Buffers *)

Lemma until_nul_in_memory s : no_nul s → until_nul (in_memory s) = Some s.
Proof.
  unfold in_memory. induction s as [|c s IH]; intros Hs; simpl; [done|].
  rewrite decide_False; [|intros ->; apply Hs; by left].
  rewrite IH; [done|]. intros ?. apply Hs. by right.
Qed.

Lemma string_of_memory s rest : no_nul s → string_of ((Some <$> in_memory s) ++ rest) = Some s.
Proof.
  unfold in_memory. induction s as [|c s IH]; intros Hs; csimpl; [done|].
  rewrite decide_False; [|intros ->; apply Hs; by left].
  rewrite IH; [done|]. intros ?. apply Hs. by right.
Qed.

Lemma no_nul_drop n s : no_nul s → no_nul (drop n s).
Proof. rewrite <- (take_drop n s) at 1. by intros [_ ?]%no_nul_app. Qed.
Lemma no_nul_take n s : no_nul s → no_nul (take n s).
Proof. rewrite <- (take_drop n s) at 1. by intros [? _]%no_nul_app. Qed.

Lemma drop_in_memory n s : n ≤ length s → drop n (in_memory s) = in_memory (drop n s).
Proof. intros. unfold in_memory. by rewrite drop_app_le. Qed.

Lemma length_in_memory s : length (in_memory s) = length s + 1.
Proof. unfold in_memory. by rewrite length_app. Qed.

Lemma strlen_at_spec s i : no_nul s → i ≤ length s → strlen_at s i = Some (length s - i).
Proof.
  intros Hs Hi. unfold strlen_at. rewrite drop_in_memory by done.
  rewrite until_nul_in_memory by (by apply no_nul_drop). simpl. by rewrite length_drop.
Qed.

(** Filling a buffer from left to right. *)
Lemma memcpy_fill done off src n rest :
  off = length done → n ≤ length src → n ≤ length rest →
  memcpy ((Some <$> done) ++ rest) off src n = Some ((Some <$> done ++ take n src) ++ drop n rest).
Proof.
  intros -> Hs Hr. unfold memcpy. rewrite length_app, length_fmap.
  rewrite !bool_decide_eq_true_2 by lia. simpl. f_equal.
  rewrite take_app_le, take_ge by (rewrite length_fmap; lia).
  rewrite fmap_app, <- app_assoc. f_equal. f_equal.
  rewrite drop_app_ge by (rewrite length_fmap; lia). rewrite length_fmap. f_equal. lia.
Qed.

Lemma replaceAt_spec command i n value :
  no_nul command → no_nul value → i + n ≤ length command →
  replaceAt command i n value = Some (take i command ++ value ++ drop (i + n) command).
Proof.
  intros Hc Hv Hi. unfold replaceAt. rewrite strlen_at_spec by done. simpl.
  set (tot := i + length value + (length command - (i + n)) + 1). unfold malloc_buf.
  change (replicate tot None) with ((Some <$> ([] : list byte)) ++ replicate tot (@None byte)).
  rewrite (memcpy_fill [] 0 _ i); [|done|rewrite length_in_memory; lia|rewrite length_replicate; lia]. simpl.
  assert (take i (in_memory command) = take i command) as E1.
  { unfold in_memory. by rewrite take_app_le by lia. }
  rewrite E1. assert (length (take i command) = i) as L1 by (rewrite length_take; lia).
  rewrite memcpy_fill; [|done|rewrite length_in_memory; lia|rewrite length_drop, length_replicate; lia].
  simpl. assert (take (length value) (in_memory value) = value) as E2.
  { unfold in_memory. by rewrite take_app_le, take_ge by lia. }
  rewrite E2.
  rewrite drop_in_memory by done. rewrite memcpy_fill; [|by rewrite length_app, L1| |].
  - simpl. rewrite (take_ge (in_memory _)) by (rewrite length_in_memory, length_drop; lia).
    unfold in_memory. rewrite !app_assoc. apply string_of_memory.
    rewrite !no_nul_app. split_and!; [by apply no_nul_take|done|by apply no_nul_drop].
  - rewrite length_in_memory, length_drop. lia.
  - rewrite !length_drop, length_replicate. lia.
Qed.

Lemma is_prefix_spec p s : is_prefix p s = true ↔ ∃ t, s = p ++ t.
Proof.
  revert s. induction p as [|c p IH]; intros s; simpl; [by split; eauto|].
  destruct s as [|d s]; [split; [done|by intros [t ?]]|].
  rewrite andb_true_iff, bool_decide_eq_true, IH. split.
  - intros [<- [t ->]]. eauto.
  - intros [t [= <- ->]]. eauto.
Qed.

(** The offset found is an occurrence, and none starts before it. *)
Lemma strstr_spec s p :
  match strstr s p with
  | Some i => (∃ t, s = take i s ++ p ++ t) ∧ i + length p ≤ length s ∧
              ∀ a t, s = a ++ p ++ t → i ≤ length a
  | None => ∀ a t, s ≠ a ++ p ++ t
  end.
Proof.
  induction s as [|c s IH]; simpl.
  - destruct (is_prefix p []) eqn:E.
    + apply is_prefix_spec in E as [t E]. destruct p; [|done]. split_and!; [by exists []|simpl; lia|intros; lia].
    + intros a t Et. assert (is_prefix p [] = true) as E'; [|congruence].
      apply is_prefix_spec. destruct a; [|done]. simpl in Et. eauto.
  - destruct (is_prefix p (c :: s)) eqn:E.
    + apply is_prefix_spec in E as [t E]. split_and!; [exists t; done| |intros; lia].
      apply (f_equal length) in E. rewrite length_app in E. simpl in E. lia.
    + assert (∀ t, c :: s ≠ p ++ t) as Hn.
      { intros t Et. assert (is_prefix p (c :: s) = true); [|congruence]. apply is_prefix_spec. eauto. }
      destruct (strstr s p) as [i|]; simpl.
      * destruct IH as ([t Ht]&Hl&Hf). split_and!; [exists t; by f_equal|lia|].
        intros [|d a] u Eu; [by destruct (Hn u)|]. injection Eu as _ Eu. simpl. specialize (Hf _ _ Eu). lia.
      * intros [|d a] u Eu; [by destruct (Hn u)|]. injection Eu as _ Eu. by destruct (IH a u).
Qed.

Lemma append_spec dest src :
  no_nul dest → no_nul src → append true (Some dest) (Some src) = Some (Some (dest ++ src)).
Proof.
  intros Hd Hs. unfold append. simpl. set (n := length dest + length src + 1).
  replace (take n (Some <$> in_memory dest) ++ _) with
    ((Some <$> dest) ++ (Some NUL :: replicate (length src) None)).
  2:{ rewrite take_ge by (rewrite length_fmap, length_in_memory; lia). unfold in_memory.
      rewrite fmap_app, <- app_assoc, length_app, !length_fmap. simpl. do 3 f_equal. lia. }
  rewrite memcpy_fill; [|done|rewrite length_in_memory; lia|simpl; rewrite length_replicate; lia].
  simpl. rewrite (take_ge (in_memory _)) by (rewrite length_in_memory; lia). unfold in_memory. rewrite !app_assoc.
  change ((dest ++ src) ++ [NUL]) with (in_memory (dest ++ src)). rewrite string_of_memory; [done|]. by rewrite no_nul_app.
Qed.
