(* ===== verification/WshParse.v ===== *)
(** The shell's lexical analysis (wsh.c): splitting a command into arguments
    with single quotes, and a line into pipeline segments.  The buffer a
    pointer walks over is the list of bytes from the pointer on.  The argument
    vector has [MAX_ARGS + 1] slots; a store beyond it is a fault. *)

From stdpp Require Import base option list numbers.
From coqutil Require Import Byte.
From Stdlib Require Import Strings.Byte ZArith Lia.
From S2P Require Import Prelude CString.

(** * Model *)

Definition MAX_LINE : nat := 1024.
Definition MAX_ARGS : nat := 128.
Definition MAX_SEGS : nat := 128.

Definition QUOTE : byte := "'"%byte.
Definition PIPE : byte := "|"%byte.

(** [strchr(p, c)]: the bytes before the occurrence found, and those after it. *)
Fixpoint strchr (c : byte) (p : cstr) : option (cstr * cstr) :=
  match p with
  | [] => None
  | d :: p' =>
      if decide (d = c) then Some ([], p')
      else '(before, after) ← strchr c p'; Some (d :: before, after)
  end.

(** The outcome of a parse: the argument vector, or a missing closing quote. *)
Inductive parsed := Args (argv : list cstr) | Missing_quote.

(** The buffer parsed: a trailing newline becomes a space, else one is added. *)
Definition parse_buffer (cmdline : cstr) : cstr :=
  if bool_decide (list.last cmdline = Some NEWLINE)
  then take (length cmdline - 1) cmdline ++ [SPACE] else cmdline ++ [SPACE].

Definition skip_spaces (p : cstr) : cstr := drop_while (.= SPACE) p.

(** [argv[count] = tok]. *)
Definition push_arg (argv : list cstr) (tok : cstr) : option (list cstr) :=
  if bool_decide (length argv < MAX_ARGS + 1) then Some (argv ++ [tok]) else None.

(** [argv[count] = NULL; *argc = count]. *)
Definition finish_args (argv : list cstr) : option parsed :=
  if bool_decide (length argv < MAX_ARGS + 1) then Some (Args argv) else None.

Fixpoint parse_loop (fuel : nat) (p : cstr) (argv : list cstr) : option parsed :=
  match fuel with
  | O => None
  | S fuel' =>
      match p with
      | [] => finish_args argv
      | c :: p' =>
          if decide (c = QUOTE) then
            match strchr QUOTE p' with
            | None => Some Missing_quote
            | Some (tok, rest) => argv' ← push_arg argv tok; parse_loop fuel' (skip_spaces rest) argv'
            end
          else
            match strchr SPACE p with
            | None => finish_args argv
            | Some (tok, rest) => argv' ← push_arg argv tok; parse_loop fuel' (skip_spaces rest) argv'
            end
      end
  end.

Definition parseline_no_subst (cmdline : option cstr) : option parsed :=
  match cmdline with
  | None => Some (Args [])
  | Some cmdline =>
      let buf := parse_buffer cmdline in
      parse_loop (S (length buf)) (skip_spaces buf) []
  end.

(** [segs[nseg++] = seg] when there is room. *)
Definition push_seg (max_segs : nat) (segs : list cstr) (seg : cstr) : option (list cstr) :=
  if bool_decide (length segs < max_segs) then Some (segs ++ [seg]) else None.

(** [cur] is the text from [start] to [p]; [None] is the result -1. *)
Fixpoint split_loop (max_segs : nat) (p cur : cstr) (in_single : bool) (segs : list cstr) :
  option (list cstr) :=
  match p with
  | [] => push_seg max_segs segs cur
  | c :: p' =>
      if decide (c = QUOTE) then split_loop max_segs p' (cur ++ [c]) (negb in_single) segs
      else if bool_decide (c = PIPE) && negb in_single then
        segs' ← push_seg max_segs segs cur; split_loop max_segs p' [] in_single segs'
      else split_loop max_segs p' (cur ++ [c]) in_single segs
  end.
Definition split_pipeline (line : cstr) (max_segs : nat) : option (list cstr) :=
  split_loop max_segs line [] false [].

(** * The grammar of arguments *)

(** [lexes s argv]: the buffer [s] consists of the arguments [argv]. *)
Inductive lexes : cstr → list cstr → Prop :=
  | lex_nil : lexes [] []
  | lex_space s argv : lexes s argv → lexes (SPACE :: s) argv
  | lex_quoted t s argv :
      QUOTE ∉ t → lexes s argv → lexes (QUOTE :: t ++ QUOTE :: s) (t :: argv)
  | lex_word c t s argv :
      c ≠ QUOTE → SPACE ∉ c :: t → lexes s argv → lexes (c :: t ++ SPACE :: s) ((c :: t) :: argv).

(** [unclosed s n]: after [n] arguments, the buffer [s] has an opening quote that
    is never closed. *)
Inductive unclosed : cstr → nat → Prop :=
  | open_here t : QUOTE ∉ t → unclosed (QUOTE :: t) 0
  | open_space s n : unclosed s n → unclosed (SPACE :: s) n
  | open_quoted t s n : QUOTE ∉ t → unclosed s n → unclosed (QUOTE :: t ++ QUOTE :: s) (S n)
  | open_word c t s n :
      c ≠ QUOTE → SPACE ∉ c :: t → unclosed s n → unclosed (c :: t ++ SPACE :: s) (S n).

Lemma strchr_some c p t s : c ∉ t → p = t ++ c :: s → strchr c p = Some (t, s).
Proof.
  intros Ht ->. induction t as [|d t IH]; simpl; [by rewrite decide_True|].
  apply not_elem_of_cons in Ht as [Hd Ht]. rewrite decide_False by congruence. by rewrite IH.
Qed.

Lemma strchr_inv c p : match strchr c p with
  | Some (t, s) => p = t ++ c :: s ∧ c ∉ t
  | None => c ∉ p
  end.
Proof.
  induction p as [|d p IH]; simpl; [by intros ?%elem_of_nil|].
  case_decide as E; [subst; split; [done|by intros ?%elem_of_nil]|].
  destruct (strchr c p) as [[t s]|]; simpl.
  - destruct IH as [-> Ht]. split; [done|]. apply not_elem_of_cons. split; [congruence|done].
  - apply not_elem_of_cons. split; [congruence|done].
Qed.

Lemma lexes_skip s argv : lexes (skip_spaces s) argv ↔ lexes s argv.
Proof.
  unfold skip_spaces. induction s as [|c s IH]; simpl; [done|]. case_decide as E; [|done]. subst.
  rewrite IH. split; [by constructor|]. inversion 1; subst; [done|].
  match goal with H : SPACE ∉ SPACE :: _ |- _ => destruct H; by left end.
Qed.

Lemma unclosed_skip s n : unclosed (skip_spaces s) n ↔ unclosed s n.
Proof.
  unfold skip_spaces. induction s as [|c s IH]; simpl; [done|]. case_decide as E; [|done]. subst.
  rewrite IH. split; [by constructor|]. inversion 1; subst; [done|].
  match goal with H : SPACE ∉ SPACE :: _ |- _ => destruct H; by left end.
Qed.

Lemma length_skip_spaces s : length (skip_spaces s) ≤ length s.
Proof. unfold skip_spaces. rewrite <- (take_drop_while (.= SPACE) s) at 2. rewrite length_app. lia. Qed.

(** A buffer in which every word is followed by a space. *)
Definition spaced (p : cstr) : Prop := p = [] ∨ list.last p = Some SPACE.

Lemma spaced_suffix a p : spaced (a ++ p) → spaced p.
Proof.
  intros [[_ E]%app_eq_nil|E]; [by left|]. destruct p as [|c p]; [by left|]. right.
  by rewrite last_app_cons in E.
Qed.

Lemma spaced_skip p : spaced p → spaced (skip_spaces p).
Proof. unfold skip_spaces. rewrite <- (take_drop_while (.= SPACE) p) at 1. apply spaced_suffix. Qed.

Lemma parse_buffer_spaced s : spaced (parse_buffer s).
Proof. unfold parse_buffer. right. case_bool_decide; by rewrite last_snoc. Qed.

Lemma skip_spaces_word c s : c ≠ SPACE → skip_spaces (c :: s) = c :: s.
Proof. intros. unfold skip_spaces. simpl. by rewrite decide_False. Qed.

(** The loop reads exactly the arguments of the grammar. *)
Lemma parse_loop_lexes s l : lexes s l → ∀ fuel argv,
  length s < fuel →
  parse_loop fuel (skip_spaces s) argv =
    if bool_decide (length argv + length l ≤ MAX_ARGS) then Some (Args (argv ++ l)) else None.
Proof.
  assert (∀ argv tok l (f : list cstr → option parsed),
    (∀ argv', f argv' = if bool_decide (length argv' + length l ≤ MAX_ARGS) then Some (Args (argv' ++ l)) else None) →
    push_arg argv tok ≫= f =
    if bool_decide (length argv + length (tok :: l) ≤ MAX_ARGS) then Some (Args (argv ++ tok :: l)) else None) as Hpush.
  { intros argv tok m f Hf. unfold push_arg. case_bool_decide; simpl.
    - rewrite Hf, length_app, <- app_assoc. simpl. by rewrite <- Nat.add_assoc.
    - rewrite bool_decide_eq_false_2; [done|lia]. }
  induction 1 as [|s l _ IH|t s l Ht _ IH|c t s l Hc Ht _ IH]; intros fuel argv Hf;
    (destruct fuel as [|fuel]; [simpl in Hf; lia|]).
  - simpl. unfold finish_args. rewrite app_nil_r. simpl. unfold MAX_ARGS. repeat case_bool_decide; simpl in *; (done || lia).
  - apply IH. simpl in Hf. lia.
  - simpl. rewrite (strchr_some QUOTE _ t s) by done.
    apply Hpush. intros argv'. apply IH. rewrite length_cons, length_app in Hf. simpl in Hf. lia.
  - assert (c ≠ SPACE) as Hsp by (intros ->; apply Ht; by left).
    rewrite skip_spaces_word by done. cbn [parse_loop]. rewrite decide_False by done.
    rewrite (strchr_some SPACE _ (c :: t) s) by done.
    apply Hpush. intros argv'. apply IH. simpl in Hf. rewrite length_app in Hf. simpl in Hf. lia.
Qed.

(** An unclosed quote is reported, unless the arguments before it overflow the
    vector. *)
Lemma parse_loop_unclosed s n : unclosed s n → ∀ fuel argv,
  length s < fuel → length argv ≤ MAX_ARGS + 1 →
  parse_loop fuel (skip_spaces s) argv =
    if bool_decide (length argv + n ≤ MAX_ARGS + 1) then Some Missing_quote else None.
Proof.
  assert (∀ argv tok n (f : list cstr → option parsed),
    (∀ argv', length argv' ≤ MAX_ARGS + 1 →
       f argv' = if bool_decide (length argv' + n ≤ MAX_ARGS + 1) then Some Missing_quote else None) →
    push_arg argv tok ≫= f =
    if bool_decide (length argv + S n ≤ MAX_ARGS + 1) then Some Missing_quote else None) as Hpush.
  { intros argv tok m f Hf. unfold push_arg, MAX_ARGS in *. case_bool_decide; simpl.
    - rewrite Hf; rewrite length_app; simpl; [|lia]. by rewrite <- Nat.add_assoc.
    - rewrite bool_decide_eq_false_2; [done|lia]. }
  induction 1 as [t Ht|s n _ IH|t s n Ht _ IH|c t s n Hc Ht _ IH]; intros fuel argv Hf Ha;
    (destruct fuel as [|fuel]; [simpl in Hf; lia|]).
  - rewrite bool_decide_eq_true_2 by lia. simpl. pose proof (strchr_inv QUOTE t) as Hs.
    destruct (strchr QUOTE t) as [[a b]|]; [|done]. destruct Hs as [-> _]. destruct Ht.
    apply elem_of_app. right. by left.
  - apply IH; [simpl in Hf; lia|done].
  - simpl. rewrite (strchr_some QUOTE _ t s) by done.
    apply Hpush. intros argv'. apply IH. rewrite length_cons, length_app in Hf. simpl in Hf. lia.
  - assert (c ≠ SPACE) as Hsp by (intros ->; apply Ht; by left).
    rewrite skip_spaces_word by done. cbn [parse_loop]. rewrite decide_False by done.
    rewrite (strchr_some SPACE _ (c :: t) s) by done.
    apply Hpush. intros argv'. apply IH. simpl in Hf. rewrite length_app in Hf. simpl in Hf. lia.
Qed.

(** Every buffer the parser builds is one or the other. *)
Lemma lex_total p : spaced p → (∃ l, lexes p l) ∨ (∃ n, unclosed p n).
Proof.
  induction p as [p IH] using (induction_ltof1 _ (@length byte)). unfold ltof in IH. intros Hp.
  destruct p as [|c p]; [left; exists []; constructor|].
  destruct (decide (c = SPACE)) as [->|Hsp].
  { destruct (IH p) as [[l ?]|[n ?]]; [simpl; lia|by apply (spaced_suffix [SPACE])|left|right]; eexists; by constructor. }
  destruct (decide (c = QUOTE)) as [->|Hq].
  - pose proof (strchr_inv QUOTE p) as Hs. destruct (strchr QUOTE p) as [[t s]|].
    + destruct Hs as [-> Ht]. destruct (IH s) as [[l ?]|[n ?]].
      * simpl. rewrite length_app. simpl. lia.
      * apply (spaced_suffix (QUOTE :: t ++ [QUOTE])). simpl. by rewrite <- app_assoc.
      * left. eexists. by apply lex_quoted.
      * right. eexists. by apply open_quoted.
    + right. exists 0. by constructor.
  - pose proof (strchr_inv SPACE (c :: p)) as Hs. destruct (strchr SPACE (c :: p)) as [[t s]|].
    + destruct Hs as [E Ht]. destruct t as [|d t]; [by injection E|]. injection E as -> ->.
      destruct (IH s) as [[l ?]|[n ?]].
      * simpl. rewrite length_app. simpl. lia.
      * apply (spaced_suffix (d :: t ++ [SPACE])). simpl. by rewrite <- app_assoc.
      * left. eexists. by apply lex_word.
      * right. eexists. by apply open_word.
    + destruct Hp as [?|E]; [done|]. apply last_Some in E as [l E]. destruct Hs. rewrite E.
      apply elem_of_app. right. by left.
Qed.

(** A buffer is never both, and its arguments are unique. *)
Lemma parseline_lexes cmdline l :
  lexes (parse_buffer cmdline) l →
  parseline_no_subst (Some cmdline) = if bool_decide (length l ≤ MAX_ARGS) then Some (Args l) else None.
Proof. intros H. unfold parseline_no_subst. by rewrite (parse_loop_lexes _ _ H) by lia. Qed.

Lemma parseline_unclosed cmdline n :
  unclosed (parse_buffer cmdline) n →
  parseline_no_subst (Some cmdline) = if bool_decide (n ≤ MAX_ARGS + 1) then Some Missing_quote else None.
Proof. intros H. unfold parseline_no_subst. rewrite (parse_loop_unclosed _ _ H); [done| |]; simpl; lia. Qed.

(** ** Printing arguments *)

Definition quote_arg (a : cstr) : cstr := QUOTE :: a ++ [QUOTE].

(** Arguments as a shell user writes them: quoted, separated by spaces. *)
Definition print_args (argv : list cstr) : cstr := concat ((λ a, quote_arg a ++ [SPACE]) <$> argv).

Lemma lexes_print_args argv rest l :
  Forall (λ a, QUOTE ∉ a) argv → lexes rest l → lexes (print_args argv ++ rest) (argv ++ l).
Proof.
  intros Ha Hr. induction Ha as [|a argv Hq _ IH]; [done|]. simpl. rewrite <- !app_assoc. simpl.
  apply lex_quoted; [done|]. by constructor.
Qed.

(** * Pipeline segments *)

(** Whether a scan that starts outside quotes ends inside them. *)
Definition quote_state (b : bool) (s : cstr) : bool :=
  foldl (λ b c, if decide (c = QUOTE) then negb b else b) b s.

(** A ['|'] outside quotes, when the scan starts in state [b]. *)
Fixpoint bare_pipe (b : bool) (s : cstr) : bool :=
  match s with
  | [] => false
  | c :: s' => (bool_decide (c = PIPE) && negb b) || bare_pipe (if decide (c = QUOTE) then negb b else b) s'
  end.

(** How a line is meant to be cut: no segment has a bare pipe, and a cut is
    outside quotes. *)
Inductive segments : cstr → list cstr → Prop :=
  | seg_last s : bare_pipe false s = false → segments s [s]
  | seg_cut s line segs :
      bare_pipe false s = false → quote_state false s = false → segments line segs →
      segments (s ++ PIPE :: line) (s :: segs).

Lemma quote_state_app b s t : quote_state b (s ++ t) = quote_state (quote_state b s) t.
Proof. apply foldl_app. Qed.

Lemma bare_pipe_app b s t : bare_pipe b (s ++ t) = bare_pipe b s || bare_pipe (quote_state b s) t.
Proof.
  revert b. induction s as [|c s IH]; intros b; simpl; [done|]. rewrite IH. by rewrite orb_assoc.
Qed.

Lemma QUOTE_PIPE : QUOTE ≠ PIPE.
Proof. done. Qed.

(** From any point of the scan, the loop cuts the rest of the line as meant. *)
Lemma split_loop_spec max line : ∀ cur,
  bare_pipe false cur = false →
  ∃ more, segments (cur ++ line) more ∧ ∀ segs,
    split_loop max line cur (quote_state false cur) segs =
      if bool_decide (length segs + length more ≤ max) then Some (segs ++ more) else None.
Proof.
  induction line as [|c line IH]; intros cur Hcur; simpl.
  { exists [cur]. rewrite app_nil_r. split; [by constructor|]. intros segs. unfold push_seg. simpl.
    repeat case_bool_decide; (done || lia). }
  destruct (decide (c = QUOTE)) as [->|Hq].
  - destruct (IH (cur ++ [QUOTE])) as (more&Hm&E); [by rewrite bare_pipe_app, Hcur|].
    exists more. rewrite <- app_assoc in Hm. split; [done|]. intros segs. rewrite <- E, quote_state_app. done.
  - destruct (bool_decide (c = PIPE) && negb (quote_state false cur)) eqn:Ep.
    + apply andb_true_iff in Ep as [->%bool_decide_eq_true Hs%negb_true_iff].
      destruct (IH []) as (more&Hm&E); [done|]. exists (cur :: more).
      split; [by constructor|]. intros segs. rewrite Hs. unfold push_seg.
      case_bool_decide; simpl; [|rewrite bool_decide_eq_false_2; [done|lia]].
      rewrite E, length_app, <- app_assoc. simpl. by rewrite <- Nat.add_assoc.
    + assert (quote_state false (cur ++ [c]) = quote_state false cur) as Eq.
      { rewrite quote_state_app. simpl. by rewrite decide_False. }
      destruct (IH (cur ++ [c])) as (more&Hm&E); [by rewrite bare_pipe_app, Hcur; simpl; rewrite Ep|].
      exists more. rewrite <- app_assoc in Hm. split; [done|]. intros segs. by rewrite <- E, Eq.
Qed.

(** A cut cannot be inside a segment without bare pipes. *)
Lemma cut_first a b x y :
  bare_pipe false b = false → quote_state false a = false → length a < length b →
  a ++ PIPE :: x ≠ b ++ PIPE :: y.
Proof.
  intros Hb Hqa Hl E. assert (b = a ++ drop (length a) b) as Eb.
  { rewrite <- (take_drop (length a) b) at 1. f_equal.
    apply (f_equal (take (length a))) in E. by rewrite take_app_length, take_app_le in E by lia. }
  rewrite Eb, <- app_assoc in E. apply app_inv_head in E. destruct (drop (length a) b) as [|d u] eqn:Ed.
  { apply (f_equal length) in Ed. rewrite length_drop in Ed. simpl in Ed. lia. }
  injection E as <- _. rewrite Eb, bare_pipe_app, Hqa in Hb. simpl in Hb. by rewrite orb_true_r in Hb.
Qed.

(** The cuts determine the segments. *)
Lemma segments_unique line segs segs' : segments line segs → segments line segs' → segs = segs'.
Proof.
  intros H. revert segs'. induction H as [s Hs|s line segs Hs Hq _ IH]; intros segs' H'.
  - inversion H' as [? Hs'|s' line' segs2 Hs' Hq' H2]; subst; [done|].
    rewrite bare_pipe_app, Hq' in Hs. simpl in Hs. by rewrite orb_true_r in Hs.
  - inversion H' as [? Hs'|s' line' segs2 Hs' Hq' H2 E]; subst.
    + rewrite bare_pipe_app, Hq in Hs'. simpl in Hs'. by rewrite orb_true_r in Hs'.
    + assert (s = s' ∧ line = line') as [-> ->]; [|f_equal; by apply IH].
      destruct (lt_eq_lt_dec (length s) (length s')) as [[Hl|Hl]|Hl].
      * by destruct (cut_first s s' line line').
      * by apply app_inj_1 in E as [-> [= ->]].
      * by destruct (cut_first s' s line' line).
Qed.
