(* ===== verification/Wsh.v ===== *)
(** The shell (wsh.c): built-in commands, alias expansion, command lookup,
    external commands, pipelines and the two input loops, as stateful
    functions over the shell's globals.  The operating system is a parameter
    ([OS]); descriptor tables are explicit, so that the plumbing of a pipeline
    can be stated.  Memory allocation succeeds. *)

From stdpp Require Import base option list numbers gmap.
From coqutil Require Import Byte.
From Stdlib Require Import Strings.Byte ZArith Lia.
From S2P Require Import Prelude CString HashMap DynArray WshParse.

(** * The system interface *)

(** What a file descriptor refers to: a file open when the shell started, or an
    end of one of the pipes of the current pipeline. *)
Inductive file := Inherited (fd : nat) | Pipe_read (pipe : nat) | Pipe_write (pipe : nat).
Global Instance file_eq_dec : EqDecision file.
Proof. solve_decision. Defined.

Abbreviation fdtable := (gmap nat file).
Abbreviation environment := (gmap cstr cstr).

(** A diagnostic on stderr: text, or [perror] with its prefix. *)
Inductive message := Text (s : cstr) | Perror (prefix : cstr).

(** How the code of a forked child ends: it becomes another program (exiting
    with [on_error] when [execv] fails), exits, or is killed by a fault. *)
Inductive child_end :=
  | Exec (path : cstr) (argv : list cstr) (on_error : Z)
  | Exits (code : Z)
  | Crashes.

(** A forked child: its descriptors, its environment, and what it does given
    the state of the system when it runs. *)
Record child (W : Type) := mk_child {
  ch_fds : fdtable;
  ch_env : environment;
  ch_main : W → cstr * list message * child_end;
}.
Global Arguments mk_child {W}.
Global Arguments ch_fds {W}.
Global Arguments ch_env {W}.
Global Arguments ch_main {W}.

(** The system calls of the shell, over an abstract state of the system. *)
Class OS (W : Type) := {
  access_x : W → cstr → bool;                      (* access(path, X_OK) == 0 *)
  chdir : W → cstr → option W;                     (* None: error *)
  open_max : W → nat;                              (* descriptors are below it *)
  fork : W → child W → option Z * W;               (* the child's pid; None: error *)
  waitpid : W → Z → option Z * W;                  (* the wait status; None: error *)
}.

Definition WIFEXITED (status : Z) : bool := bool_decide (Z.land status 0x7f = 0)%Z.
Definition WEXITSTATUS (status : Z) : Z := Z.shiftr (Z.land status 0xff00) 8.

Definition EXIT_SUCCESS : Z := 0.
Definition EXIT_FAILURE : Z := 1.

(** * The state *)

Record shell (W : Type) := mk_shell {
  rc : Z;
  alias_hm : HashMap;
  history_da : option DynamicArray;
  env : environment;
  out : cstr;                  (* bytes written to stdout *)
  err : list message;          (* messages written to stderr *)
  fds : fdtable;
  world : W;
}.
Global Arguments mk_shell {W}.
Global Arguments rc {W}.
Global Arguments alias_hm {W}.
Global Arguments history_da {W}.
Global Arguments env {W}.
Global Arguments out {W}.
Global Arguments err {W}.
Global Arguments fds {W}.
Global Arguments world {W}.

Section wsh.
Context {W : Type} `{OS W}.
Implicit Types (s : shell W) (w : W).

Definition set_rc (r : Z) : ST (shell W) () :=
  modify (λ s, mk_shell r (alias_hm s) (history_da s) (env s) (out s) (err s) (fds s) (world s)).
Definition set_alias (hm : HashMap) : ST (shell W) () :=
  modify (λ s, mk_shell (rc s) hm (history_da s) (env s) (out s) (err s) (fds s) (world s)).
Definition set_history (da : option DynamicArray) : ST (shell W) () :=
  modify (λ s, mk_shell (rc s) (alias_hm s) da (env s) (out s) (err s) (fds s) (world s)).
Definition setenv (name v : cstr) : ST (shell W) () :=
  modify (λ s, mk_shell (rc s) (alias_hm s) (history_da s) (<[name := v]> (env s)) (out s) (err s) (fds s) (world s)).
Definition printf (text : cstr) : ST (shell W) () :=
  modify (λ s, mk_shell (rc s) (alias_hm s) (history_da s) (env s) (out s ++ text) (err s) (fds s) (world s)).
Definition eprint (m : message) : ST (shell W) () :=
  modify (λ s, mk_shell (rc s) (alias_hm s) (history_da s) (env s) (out s) (err s ++ [m]) (fds s) (world s)).
Definition set_fds (f : fdtable) : ST (shell W) () :=
  modify (λ s, mk_shell (rc s) (alias_hm s) (history_da s) (env s) (out s) (err s) f (world s)).
Definition set_world (w : W) : ST (shell W) () :=
  modify (λ s, mk_shell (rc s) (alias_hm s) (history_da s) (env s) (out s) (err s) (fds s) w).
Definition getenv (name : cstr) : ST (shell W) (option cstr) := gets (λ s, env s !! name).

Definition perror (prefix : cstr) : ST (shell W) () := eprint (Perror prefix).

(** * Helpers *)

Definition wsh_warn (msg : cstr) : ST (shell W) () := eprint (Text msg);; set_rc EXIT_FAILURE.

Definition line_of (msg : cstr) : cstr := msg ++ [NEWLINE].
Definition CMD_NOT_FOUND (cmd : cstr) : cstr := line_of (cs "Command not found or not an executable: " ++ cmd).
Definition EMPTY_PIPE_SEGMENT : cstr := line_of (cs "Empty command segment in pipeline").
Definition EMPTY_PATH : cstr := line_of (cs "PATH empty or not set").
Definition MISSING_CLOSING_QUOTE : cstr := line_of (cs "Missing Closing Quote").
Definition INVALID_WSH_USE : cstr := line_of (cs "Invalid usage of wsh. Correct format: wsh | wsh batch_file").
Definition INVALID_PATH_USE : cstr := line_of (cs "Incorrect usage of path. Correct format: path dir1:dir2:...:dirN").
Definition INVALID_EXIT_USE : cstr := line_of (cs "Incorrect usage of exit. Too many arguments").
Definition INVALID_ALIAS_USE : cstr := line_of (cs "Incorrect usage of alias. Correct format: alias | alias name = 'command'").
Definition INVALID_UNALIAS_USE : cstr := line_of (cs "Incorrect usage of unalias. Correct format: unalias name").
Definition INVALID_WHICH_USE : cstr := line_of (cs "Incorrect usage of which. Correct format: which name").
Definition INVALID_CD_USE : cstr := line_of (cs "Incorrect usage of cd. Correct format: cd | cd directory").
Definition INVALID_HISTORY_USE : cstr := line_of (cs "Incorrect usage of history. Correct format: history | history n").
Definition WHICH_ALIAS (name v : cstr) : cstr := line_of (name ++ cs ": aliased to '" ++ v ++ cs "'").
Definition WHICH_BUILTIN (name : cstr) : cstr := line_of (name ++ cs ": wsh builtin").
Definition WHICH_EXTERNAL (name path : cstr) : cstr := line_of (name ++ cs ": found at " ++ path).
Definition WHICH_NOT_FOUND (name : cstr) : cstr := line_of (name ++ cs ": not found").
Definition CD_NO_HOME : cstr := line_of (cs "cd: HOME not set").
Definition HISTORY_INVALID_ARG : cstr := line_of (cs "Invalid argument passed to history").
Definition PROMPT : cstr := cs "wsh> ".

(** [parseline_no_subst] with its diagnostic: the argument vector. *)
Definition parse_args (cmdline : cstr) : ST (shell W) (list cstr) :=
  r ← lift (parseline_no_subst (Some cmdline));
  match r with
  | Args argv => mret argv
  | Missing_quote => wsh_warn MISSING_CLOSING_QUOTE;; mret []
  end.

Definition chomp (line : cstr) : cstr :=
  if bool_decide (list.last line = Some NEWLINE) then take (length line - 1) line else line.

Definition add_history_after_exec (line_raw : cstr) : ST (shell W) () :=
  h ← gets history_da;
  da ← lift (match h with Some da => Some da | None => da_create true true 8 end);
  da' ← lift (da_put true true da (Some (chomp line_raw)));
  set_history (Some da').

(** * Finding an executable *)

Definition path_join (dir cmd : cstr) : cstr := dir ++ [SLASH] ++ cmd.

(** The loop over the directories of PATH. *)
Fixpoint search_path (w : W) (dirs : list cstr) (cmd : cstr) : option cstr :=
  match dirs with
  | [] => None
  | [] :: rest => search_path w rest cmd
  | dir :: rest =>
      if access_x w (path_join dir cmd) then Some (path_join dir cmd) else search_path w rest cmd
  end.

Definition COLON : byte := ":"%byte.

(** [cmd[0] == '/' || cmd[0] == '.']. *)
Definition is_path (cmd : cstr) : bool :=
  match cmd with [] => false | c :: _ => bool_decide (c = SLASH) || bool_decide (c = "."%byte) end.

Definition resolve_exec_path (cmd : cstr) : ST (shell W) (option cstr) :=
  w ← gets world;
  if is_path cmd then
    if access_x w cmd then mret (Some cmd) else wsh_warn (CMD_NOT_FOUND cmd);; mret None
  else
    P ← getenv (cs "PATH");
    match P with
    | None | Some [] => wsh_warn EMPTY_PATH;; mret None
    | Some P =>
        match search_path w (strtok_all COLON P) cmd with
        | Some full => mret (Some full)
        | None => wsh_warn (CMD_NOT_FOUND cmd);; mret None
        end
    end.

(** * Built-in commands *)

Definition is_builtin (name : option cstr) : bool :=
  match name with
  | None => false
  | Some name =>
      streq name (cs "exit") || streq name (cs "alias") || streq name (cs "unalias")
      || streq name (cs "which") || streq name (cs "path") || streq name (cs "cd")
      || streq name (cs "history")
  end.

Definition bi_path (argv : list cstr) : ST (shell W) Z :=
  match argv with
  | [_] => p ← getenv (cs "PATH"); printf (line_of (default [] p));; mret EXIT_SUCCESS
  | [_; dirs] => setenv (cs "PATH") dirs;; mret EXIT_SUCCESS
  | _ => wsh_warn INVALID_PATH_USE;; mret EXIT_FAILURE
  end.

Definition bi_alias (argv : list cstr) : ST (shell W) Z :=
  hm ← gets alias_hm;
  match argv with
  | [_] => text ← lift (hm_print_sorted hm); printf text;; mret EXIT_SUCCESS
  | _ :: name :: eq :: rest =>
      if streq eq (cs "=") then
        match rest with
        | [] => set_alias (hm_put hm name []);; mret EXIT_SUCCESS
        | [v] => set_alias (hm_put hm name v);; mret EXIT_SUCCESS
        | _ => wsh_warn INVALID_ALIAS_USE;; mret EXIT_FAILURE
        end
      else wsh_warn INVALID_ALIAS_USE;; mret EXIT_FAILURE
  | _ => wsh_warn INVALID_ALIAS_USE;; mret EXIT_FAILURE
  end.

Definition bi_unalias (argv : list cstr) : ST (shell W) Z :=
  match argv with
  | [_; name] => hm ← gets alias_hm; set_alias (hm_delete hm name);; mret EXIT_SUCCESS
  | _ => wsh_warn INVALID_UNALIAS_USE;; mret EXIT_FAILURE
  end.

(** [chdir(dir)], with [perror("cd")] on failure. *)
Definition change_dir (dir : cstr) : ST (shell W) Z :=
  w ← gets world;
  match chdir w dir with
  | Some w' => set_world w';; mret EXIT_SUCCESS
  | None => perror (cs "cd");; mret EXIT_FAILURE
  end.

Definition bi_cd (argv : list cstr) : ST (shell W) Z :=
  match argv with
  | [_] =>
      h ← getenv (cs "HOME");
      match h with
      | None | Some [] => eprint (Text CD_NO_HOME);; mret EXIT_FAILURE
      | Some h => change_dir h
      end
  | [_; dir] => change_dir dir
  | _ => wsh_warn INVALID_CD_USE;; mret EXIT_FAILURE
  end.

Definition bi_which (argv : list cstr) : ST (shell W) Z :=
  match argv with
  | [_; name] =>
      hm ← gets alias_hm;
      w ← gets world;
      match hm_get hm name with
      | Some av => printf (WHICH_ALIAS name av);; mret EXIT_SUCCESS
      | None =>
          if is_builtin (Some name) then printf (WHICH_BUILTIN name);; mret EXIT_SUCCESS
          else if is_path name then
            if access_x w name then printf (WHICH_EXTERNAL name name);; mret EXIT_SUCCESS
            else printf (WHICH_NOT_FOUND name);; mret EXIT_FAILURE
          else
            P ← getenv (cs "PATH");
            match P with
            | None | Some [] => printf (WHICH_NOT_FOUND name);; mret EXIT_FAILURE
            | Some P =>
                match search_path w (strtok_all COLON P) name with
                | Some full => printf (WHICH_EXTERNAL name full);; mret EXIT_SUCCESS
                | None => printf (WHICH_NOT_FOUND name);; mret EXIT_FAILURE
                end
            end
      end
  | _ => wsh_warn INVALID_WHICH_USE;; mret EXIT_FAILURE
  end.

(** [strtol(s, &endp, 10)]: the value and the rest of the string at [endp]. *)
Definition is_space (c : byte) : Prop :=
  c = SPACE ∨ (9 ≤ byte.unsigned c ≤ 13)%Z.
Global Instance is_space_dec c : Decision (is_space c).
Proof. unfold is_space. apply _. Defined.
Definition is_digit (c : byte) : Prop := (48 ≤ byte.unsigned c ≤ 57)%Z.
Global Instance is_digit_dec c : Decision (is_digit c).
Proof. unfold is_digit. apply _. Defined.

Definition LONG_MAX : Z := 2 ^ 63 - 1.
Definition LONG_MIN : Z := - 2 ^ 63.
Definition digits_value (ds : cstr) : Z :=
  foldl (λ v c, 10 * v + (byte.unsigned c - 48))%Z 0%Z ds.

Definition strtol (s : cstr) : Z * cstr :=
  let t := drop_while is_space s in
  let '(neg, t) :=
    match t with
    | c :: t' => if bool_decide (c = "-"%byte) then (true, t')
                 else if bool_decide (c = "+"%byte) then (false, t') else (false, t)
    | [] => (false, t)
    end in
  match take_while is_digit t with
  | [] => (0%Z, s)
  | ds =>
      let v := digits_value ds in
      ((if neg : bool then Z.max LONG_MIN (- v) else Z.min LONG_MAX v)%Z, drop_while is_digit t)
  end.

Fixpoint print_history (n : nat) (i : Z) (da : DynamicArray) : ST (shell W) () :=
  match n with
  | O => mret tt
  | S n' =>
      e ← lift (da_get da i);
      match e with Some e => printf (line_of e) | None => mret tt end;;
      print_history n' (i + 1) da
  end.

Definition bi_history (argv : list cstr) : ST (shell W) Z :=
  h ← gets history_da;
  match h with
  | None => mret EXIT_SUCCESS
  | Some da =>
      match argv with
      | [_] => print_history (Z.to_nat (size da)) 0 da;; mret EXIT_SUCCESS
      | [_; arg] =>
          let '(v, endp) := strtol arg in
          if bool_decide (arg = []) || negb (bool_decide (endp = [])) || bool_decide (v < 1)%Z
             || bool_decide (size da < v)%Z
          then eprint (Text HISTORY_INVALID_ARG);; mret EXIT_FAILURE
          else
            e ← lift (da_get da (v - 1));
            match e with
            | Some e => printf (line_of e);; mret EXIT_SUCCESS
            | None => mret EXIT_FAILURE
            end
      | _ => wsh_warn INVALID_HISTORY_USE;; mret EXIT_FAILURE
      end
  end.

(** The outcome of [try_run_builtin]: it returns 1 or 0, or ends the shell. *)
Inductive builtin_result := Ran | Not_builtin | Exit_shell (code : Z).

(** [rc = bi(argc, argv); return 1]. *)
Definition run_builtin (bi : list cstr → ST (shell W) Z) (argv : list cstr) : ST (shell W) builtin_result :=
  r ← bi argv; set_rc r;; mret Ran.

Definition try_run_builtin (argv : list cstr) : ST (shell W) builtin_result :=
  match argv with
  | [] => mret Ran
  | name :: args =>
      if streq name (cs "exit") then
        match args with
        | [] => r ← gets rc; mret (Exit_shell r)
        | _ => wsh_warn INVALID_EXIT_USE;; mret Ran
        end
      else if streq name (cs "alias") then run_builtin bi_alias argv
      else if streq name (cs "unalias") then run_builtin bi_unalias argv
      else if streq name (cs "which") then run_builtin bi_which argv
      else if streq name (cs "path") then run_builtin bi_path argv
      else if streq name (cs "cd") then run_builtin bi_cd argv
      else if streq name (cs "history") then run_builtin bi_history argv
      else mret Not_builtin
  end.

(** * Running commands *)

Definition expand_alias_first_token (argv : list cstr) : ST (shell W) (list cstr) :=
  hm ← gets alias_hm;
  name ← lift (head argv);
  match hm_get hm name with
  | None => mret argv
  | Some alias_cmd => a_argv ← parse_args alias_cmd; mret (a_argv ++ tail argv)
  end.

(** The result a wait status stands for. *)
Definition status_rc (status : Z) : Z :=
  if WIFEXITED status && bool_decide (WEXITSTATUS status = 0)%Z then EXIT_SUCCESS else EXIT_FAILURE.

Definition run_external (argv : list cstr) : ST (shell W) () :=
  name ← lift (head argv);
  p ← resolve_exec_path name;
  match p with
  | None => mret tt
  | Some path =>
      s ← get;
      let '(pid, w) := fork (world s) (mk_child (fds s) (env s) (λ _, ([], [], Exec path argv 1))) in
      set_world w;;
      match pid with
      | None => perror (cs "fork");; set_rc EXIT_FAILURE
      | Some pid =>
          let '(st, w) := waitpid w pid in
          set_world w;;
          match st with
          | None => perror (cs "waitpid");; set_rc EXIT_FAILURE
          | Some status => set_rc (status_rc status)
          end
      end
  end.

(** ** Pipelines *)

(** The lowest descriptor not in use. *)
Definition lowest_free (limit : nat) (f : fdtable) : option nat :=
  head (filter (λ fd, f !! fd = None) (seq 0 limit)).

(** [pipe(pipes[i])]: the read end, then the write end. *)
Definition pipe (limit : nat) (i : nat) (f : fdtable) : option (nat * nat * fdtable) :=
  r ← lowest_free limit f;
  let f := <[r := Pipe_read i]> f in
  w ← lowest_free limit f;
  Some (r, w, <[w := Pipe_write i]> f).

(** The loop that creates pipes [i .. i + n - 1]; the descriptors made so far
    and the table are returned also when a call fails. *)
Fixpoint make_pipes (limit n i : nat) (f : fdtable) : bool * list (nat * nat) * fdtable :=
  match n with
  | O => (true, [], f)
  | S n' =>
      match pipe limit i f with
      | None => (false, [], f)
      | Some (r, w, f') =>
          let '(ok, pipes, f'') := make_pipes limit n' (S i) f' in (ok, (r, w) :: pipes, f'')
      end
  end.

Definition dup2 (f : fdtable) (oldfd newfd : nat) : option fdtable :=
  o ← f !! oldfd; Some (<[newfd := o]> f).

Fixpoint close_pipes (pipes : list (nat * nat)) (f : fdtable) : fdtable :=
  match pipes with
  | [] => f
  | (r, w) :: rest => close_pipes rest (delete w (delete r f))
  end.

Definition STDIN_FILENO : nat := 0.
Definition STDOUT_FILENO : nat := 1.

(** The descriptors of the child of stage [i]; [None] when a [dup2] fails. *)
Definition child_fds (pipes : list (nat * nat)) (nseg i : nat) (f : fdtable) : option fdtable :=
  f ← (if bool_decide (0 < i) then p ← pipes !! (i - 1); dup2 f p.1 STDIN_FILENO else Some f);
  f ← (if bool_decide (i < nseg - 1) then p ← pipes !! i; dup2 f p.2 STDOUT_FILENO else Some f);
  Some (close_pipes pipes f).

(** The copy of the shell in a child, with nothing buffered for output. *)
Definition forked (s : shell W) (f : fdtable) (w : W) : shell W :=
  mk_shell (rc s) (alias_hm s) (history_da s) (env s) [] [] f w.

(** What the child of a stage does once its descriptors are set up. *)
Definition stage_main (s : shell W) (f : fdtable) (argv : list cstr) (w : W) : cstr * list message * child_end :=
  if is_builtin (head argv) then
    match try_run_builtin argv (forked s f w) with
    | None => ([], [], Crashes)
    | Some (Exit_shell code, s') => (out s', err s', Exits code)
    | Some (_, s') => (out s', err s', Exits (if bool_decide (rc s' = EXIT_SUCCESS) then 0 else 1)%Z)
    end
  else
    match head argv with
    | None => ([], [], Crashes)
    | Some name =>
        match resolve_exec_path name (forked s f w) with
        | None => ([], [], Crashes)
        | Some (None, s') => (out s', err s', Exits 1)
        | Some (Some path, s') => (out s', err s', Exec path argv 1)
        end
    end.

Definition stage_child (s : shell W) (pipes : list (nat * nat)) (nseg i : nat) (argv : list cstr) : child W :=
  match child_fds pipes nseg i (fds s) with
  | None => mk_child (fds s) (env s) (λ _, ([], [Perror (cs "dup2")], Exits 1))
  | Some f => mk_child f (env s) (stage_main s f argv)
  end.

(** The fork loop: the pids of the stages from [i] on, [None] where the slot of
    [pids] stays uninitialised. *)
Fixpoint fork_stages (pipes : list (nat * nat)) (nseg i : nat) (segarv : list (list cstr)) :
  ST (shell W) (list (option Z)) :=
  match segarv with
  | [] => mret []
  | argv :: rest =>
      s ← get;
      let '(pid, w) := fork (world s) (stage_child s pipes nseg i argv) in
      set_world w;;
      match pid with
      | None => perror (cs "fork");; set_rc EXIT_FAILURE
      | Some _ => mret tt
      end;;
      pids ← fork_stages pipes nseg (S i) rest;
      mret (pid :: pids)
  end.

(** The wait loop; a wait for an uninitialised pid is a fault. *)
Fixpoint wait_stages (pids : list (option Z)) (last_pid status_last : Z) : ST (shell W) Z :=
  match pids with
  | [] => mret status_last
  | pid :: rest =>
      pid ← lift pid;
      w ← gets world;
      let '(st, w) := waitpid w pid in
      set_world w;;
      match st with None => perror (cs "waitpid") | Some _ => mret tt end;;
      let st := default 0%Z st in
      wait_stages rest last_pid (if bool_decide (pid = last_pid)%Z then st else status_last)
  end.

Definition run_pipeline (segarv : list (list cstr)) : ST (shell W) () :=
  let nseg := length segarv in
  s ← get;
  let '(ok, pipes, f) := make_pipes (open_max (world s)) (nseg - 1) 0 (fds s) in
  set_fds f;;
  if ok : bool then
    pids ← fork_stages pipes nseg 0 segarv;
    let last_pid := default (-1)%Z (mjoin (list.last pids)) in
    f ← gets fds;
    set_fds (close_pipes pipes f);;
    status_last ← wait_stages pids last_pid 1;
    set_rc (status_rc status_last)
  else perror (cs "pipe");; set_rc EXIT_FAILURE.

(** ** One input line *)

(** The loop that parses and expands the segments of a pipeline. *)
Fixpoint parse_segments (segs : list cstr) : ST (shell W) (bool * list (list cstr)) :=
  match segs with
  | [] => mret (true, [])
  | seg :: rest =>
      tmpv ← parse_args seg;
      match tmpv with
      | [] =>
          wsh_warn EMPTY_PIPE_SEGMENT;;
          '(_, segarv) ← parse_segments rest; mret (false, [] :: segarv)
      | _ =>
          ex_argv ← expand_alias_first_token tmpv;
          '(good, segarv) ← parse_segments rest; mret (good, ex_argv :: segarv)
      end
  end.

(** A simple command; [Some code] when it ended the shell. *)
Definition run_single (line_raw seg : cstr) : ST (shell W) (option Z) :=
  argv0 ← parse_args seg;
  match argv0 with
  | [] => add_history_after_exec line_raw;; mret None
  | _ =>
      ex_argv ← expand_alias_first_token argv0;
      if is_builtin (head ex_argv) then
        r ← try_run_builtin ex_argv;
        match r with
        | Exit_shell code => mret (Some code)
        | _ => add_history_after_exec line_raw;; mret None
        end
      else run_external ex_argv;; add_history_after_exec line_raw;; mret None
  end.

(** A pipeline of several segments. *)
Definition run_segments (line_raw : cstr) (segs : list cstr) : ST (shell W) (option Z) :=
  '(good, segarv) ← parse_segments segs;
  (if good : bool then run_pipeline segarv else set_rc EXIT_FAILURE);;
  add_history_after_exec line_raw;; mret None.

Definition run_line (line_raw : cstr) : ST (shell W) (option Z) :=
  match split_pipeline line_raw MAX_SEGS with
  | None => set_rc EXIT_FAILURE;; add_history_after_exec line_raw;; mret None
  | Some [seg] => run_single line_raw seg
  | Some segs => run_segments line_raw segs
  end.

(** * Modes of execution *)

(** An input stream: its bytes, and whether reading ends in an error. *)
Record stream := mk_stream { bytes : list byte; read_error : bool }.

(** [fgets(line, n, _)]: at most [n - 1] bytes, up to and including a newline;
    the line as a C string ends at its first NUL byte. *)
Fixpoint fgets_loop (n : nat) (b : list byte) : list byte * list byte :=
  match n, b with
  | O, _ | _, [] => ([], b)
  | S n', c :: b' =>
      if decide (c = NEWLINE) then ([c], b')
      else let '(line, rest) := fgets_loop n' b' in (c :: line, rest)
  end.
Definition fgets (n : nat) (b : list byte) : option (cstr * list byte) :=
  match b with
  | [] => None
  | _ => let '(line, rest) := fgets_loop (n - 1) b in Some (take_while (.≠ NUL) line, rest)
  end.

(** The interactive loop; [fuel] bounds the number of lines. *)
Fixpoint interactive_loop (fuel : nat) (input : stream) : ST (shell W) (option Z) :=
  match fuel with
  | O => fault
  | S fuel' =>
      printf PROMPT;;
      match fgets MAX_LINE (bytes input) with
      | None => (if read_error input then eprint (Text (line_of (cs "fgets error"))) else mret tt);; mret None
      | Some (line, rest) =>
          r ← run_line line;
          match r with
          | Some code => mret (Some code)
          | None => interactive_loop fuel' (mk_stream rest (read_error input))
          end
      end
  end.
Definition interactive_main (input : stream) : ST (shell W) (option Z) :=
  interactive_loop (S (length (bytes input))) input.

Fixpoint batch_loop (fuel : nat) (b : list byte) : ST (shell W) (option Z) :=
  match fuel with
  | O => fault
  | S fuel' =>
      match fgets MAX_LINE b with
      | None => mret None
      | Some (line, rest) =>
          r ← run_line line;
          match r with Some code => mret (Some code) | None => batch_loop fuel' rest end
      end
  end.

(** [inr code] when [exit] ended the shell, [inl r] when [r] is returned. *)
Definition batch_main (script : option stream) : ST (shell W) (Z + Z) :=
  match script with
  | None => perror (cs "fopen");; mret (inl EXIT_FAILURE)
  | Some fp =>
      r ← batch_loop (S (length (bytes fp))) (bytes fp);
      match r with
      | Some code => mret (inr code)
      | None => if read_error fp then mret (inl EXIT_FAILURE) else r ← gets rc; mret (inl r)
      end
  end.

(** The exit status of the shell started with [argc] arguments. *)
Definition main (argc : nat) (input : stream) (script : option stream) : ST (shell W) Z :=
  set_alias hm_create;;
  setenv (cs "PATH") (cs "/bin");;
  if bool_decide (2 < argc) then wsh_warn INVALID_WSH_USE;; mret EXIT_FAILURE
  else if bool_decide (argc = 1) then
    r ← interactive_main input;
    match r with Some code => mret code | None => gets rc end
  else if bool_decide (argc = 2) then
    r ← batch_main script;
    match r with inr code => mret code | inl r => set_rc r;; gets rc end
  else gets rc.

End wsh.
