(* ===== verification/WshSafe.v ===== *)
(** Total correctness of the shell's code: the invariant of its globals, a
    small program logic for it ([safe]), and the fact that every function of
    the shell returns and keeps the invariant. *)

From stdpp Require Import base option list numbers gmap.
From coqutil Require Import Byte.
From Stdlib Require Import Strings.Byte ZArith Lia.
From S2P Require Import Prelude CString HashMap DynArray WshParse Wsh.

Create HintDb wsh.

Section safe.
Context {W : Type} `{OS W}.
Implicit Types (s : shell W).

(** The history as a list of strings. *)
Definition history_is (h : option DynamicArray) (hist : list cstr) : Prop :=
  match h with None => hist = [] | Some da => da_rep da (Some <$> hist) end.

Definition zero_or_one (r : Z) : Prop := r = 0%Z ∨ r = 1%Z.

(** The alias table is well-formed, the history holds [hist], and the last
    status is an exit status. *)
Record shell_ok (hist : list cstr) (s : shell W) : Prop := {
  ok_alias : hm_ok (alias_hm s);
  ok_history : history_is (history_da s) hist;
  ok_rc : zero_or_one (rc s);
}.

(** [safe hist m Q]: with history [hist], [m] returns a value that satisfies
    [Q] and keeps the invariant and the history. *)
Definition safe {A} (hist : list cstr) (m : ST (shell W) A) (Q : A → Prop) : Prop :=
  ∀ s, shell_ok hist s → wp m (λ a s', Q a ∧ shell_ok hist s') s.

Lemma safe_bind {A B} hist (m : ST (shell W) A) (f : A → ST (shell W) B) P Q :
  safe hist m P → (∀ a, P a → safe hist (f a) Q) → safe hist (m ≫= f) Q.
Proof.
  intros Hm Hf s Hs. apply wp_bind. eapply wp_mono; [by apply Hm|].
  intros a s' [Ha Hs']. by apply Hf.
Qed.

Lemma safe_ret {A} hist (a : A) (Q : A → Prop) : Q a → safe hist (mret a) Q.
Proof. intros Ha s Hs. by apply wp_ret. Qed.

Lemma safe_lift {A} hist (o : option A) (Q : A → Prop) : (∃ a, o = Some a ∧ Q a) → safe hist (lift o) Q.
Proof. intros (a&->&Ha) s Hs. by eapply wp_lift. Qed.

Lemma safe_gets {A} hist (f : shell W → A) (Q : A → Prop) :
  (∀ s, shell_ok hist s → Q (f s)) → safe hist (gets f) Q.
Proof. intros Hf s Hs. apply wp_gets. eauto. Qed.

Lemma safe_mono {A} hist (m : ST (shell W) A) (P Q : A → Prop) :
  safe hist m P → (∀ a, P a → Q a) → safe hist m Q.
Proof. intros Hm HPQ s Hs. eapply wp_mono; [by apply Hm|]. intros a s' []. eauto. Qed.

Abbreviation any := (λ _, True).

Lemma safe_set_rc hist r : zero_or_one r → safe hist (set_rc r) any.
Proof. intros Hr s [Ha Hh _]. split; [done|by split]. Qed.
Lemma safe_set_alias hist hm : hm_ok hm → safe hist (set_alias hm) any.
Proof. intros Hm s [_ Hh Hr]. split; [done|by split]. Qed.
Lemma safe_setenv hist n v : safe hist (setenv n v) any.
Proof. intros s [Ha Hh Hr]. split; [done|by split]. Qed.
Lemma safe_printf hist t : safe hist (printf t) any.
Proof. intros s [Ha Hh Hr]. split; [done|by split]. Qed.
Lemma safe_eprint hist m : safe hist (eprint m) any.
Proof. intros s [Ha Hh Hr]. split; [done|by split]. Qed.
Lemma safe_set_fds hist f : safe hist (set_fds f) any.
Proof. intros s [Ha Hh Hr]. split; [done|by split]. Qed.
Lemma safe_set_world hist w : safe hist (set_world w) any.
Proof. intros s [Ha Hh Hr]. split; [done|by split]. Qed.
Lemma safe_get hist : safe hist get any.
Proof. intros s Hs. by split. Qed.
Lemma safe_fget {A} hist (f : shell W → A) : safe hist (gets f) any.
Proof. by apply safe_gets. Qed.
Lemma safe_getenv hist n : safe hist (getenv n) any.
Proof. apply safe_fget. Qed.
Lemma safe_perror hist p : safe hist (perror p) any.
Proof. apply safe_eprint. Qed.
Lemma zero_or_one_failure : zero_or_one EXIT_FAILURE.
Proof. by right. Qed.
Lemma zero_or_one_success : zero_or_one EXIT_SUCCESS.
Proof. by left. Qed.
Lemma safe_wsh_warn hist m : safe hist (wsh_warn m) any.
Proof.
  eapply safe_bind; [apply safe_eprint|]. intros _ _. apply safe_set_rc, zero_or_one_failure.
Qed.
End safe.

Abbreviation any := (λ _, True).

#[export] Hint Resolve safe_set_rc safe_set_alias safe_setenv safe_printf safe_eprint safe_set_fds
  safe_set_world safe_get safe_fget safe_getenv safe_perror safe_wsh_warn safe_ret
  zero_or_one_failure zero_or_one_success : wsh.

(** One step of a proof of [safe]: the head of a sequence by the hints, case
    analysis on a match. *)
Ltac safe_step :=
  first
    [ solve [eauto 3 with wsh]
    | eapply safe_bind; [solve [eauto 3 with wsh]|intros ? ?]
    | lazymatch goal with |- safe _ (match ?x with _ => _ end) _ => destruct x eqn:? end ].
Ltac safe_steps := repeat safe_step.

Section builtins.
Context {W : Type} `{OS W}.
Implicit Types (s : shell W).
Abbreviation safe := (safe (W := W)).

Lemma safe_alias hist : safe hist (gets alias_hm) hm_ok.
Proof. apply safe_gets. intros s Hs. apply (ok_alias _ _ Hs). Qed.

Lemma safe_history hist : safe hist (gets history_da) (λ h, history_is h hist).
Proof. apply safe_gets. intros s Hs. apply (ok_history _ _ Hs). Qed.

Lemma safe_parse_args hist cmdline :
  is_Some (parseline_no_subst (Some cmdline)) →
  safe hist (parse_args cmdline) (λ argv, ∀ a, parseline_no_subst (Some cmdline) = Some (Args a) → argv = a).
Proof.
  intros [r Hr]. unfold parse_args. eapply (safe_bind _ _ _ (λ r', r' = r)); [by apply safe_lift; eauto|].
  intros ? ->. rewrite Hr. destruct r; [by apply safe_ret; congruence|].
  eapply safe_bind; [apply safe_wsh_warn|]. intros _ _. apply safe_ret. by intros ? [=].
Qed.

Lemma safe_resolve hist cmd : safe hist (resolve_exec_path cmd) any.
Proof. unfold resolve_exec_path. safe_steps. Qed.

Lemma safe_bi_path hist argv : safe hist (bi_path argv) zero_or_one.
Proof. unfold bi_path. safe_steps. Qed.

Lemma safe_bi_alias hist argv : safe hist (bi_alias argv) zero_or_one.
Proof.
  unfold bi_alias. eapply safe_bind; [apply safe_alias|]. intros hm Hm.
  pose proof (λ k v, hm_put_ok hm k v Hm).
  destruct argv as [|name [|a rest]]; [by safe_steps| |by safe_steps].
  eapply (safe_bind _ _ _ any); [|by intros; safe_steps].
  apply safe_lift. destruct (hm_print_sorted_map hm Hm) as (l&_&_&E). eauto.
Qed.

Lemma safe_bi_unalias hist argv : safe hist (bi_unalias argv) zero_or_one.
Proof.
  unfold bi_unalias. destruct argv as [|a [|b [|c argv]]]; try by safe_steps.
  eapply safe_bind; [apply safe_alias|]. intros hm Hm. pose proof (hm_delete_ok hm b Hm). safe_steps.
Qed.

Lemma safe_change_dir hist d : safe hist (change_dir d) zero_or_one.
Proof. unfold change_dir. safe_steps. Qed.
Hint Resolve safe_change_dir : wsh.

Lemma safe_bi_cd hist argv : safe hist (bi_cd argv) zero_or_one.
Proof. unfold bi_cd. safe_steps. Qed.

Lemma safe_bi_which hist argv : safe hist (bi_which argv) zero_or_one.
Proof. unfold bi_which. safe_steps. Qed.

Lemma safe_print_history hist da l n i :
  da_rep da l → (0 ≤ i)%Z → safe hist (print_history n i da) any.
Proof.
  intros Hda. revert i. induction n as [|n IH]; intros i Hi; simpl; [by safe_steps|].
  eapply (safe_bind _ _ _ any); [apply safe_lift; rewrite (da_get_rep da l) by done; eauto|].
  intros e _. eapply (safe_bind _ _ _ any); [by safe_steps|]. intros _ _. apply IH. lia.
Qed.

Lemma safe_bi_history hist argv : safe hist (bi_history argv) zero_or_one.
Proof.
  unfold bi_history. eapply safe_bind; [apply safe_history|]. intros [da|] Hda; [|by safe_steps].
  destruct argv as [|a [|b [|c argv]]]; try by safe_steps.
  - eapply safe_bind; [by eapply safe_print_history|]. intros _ _. by safe_steps.
  - destruct (strtol b) as [v endp]. destruct (_ || _) eqn:E; [by safe_steps|].
    eapply (safe_bind _ _ _ any); [|intros e _; safe_steps].
    apply safe_lift. repeat (apply orb_false_iff in E as [E ?%bool_decide_eq_false]).
    rewrite (da_get_rep da (Some <$> hist)); [eauto|done|lia].
Qed.

Lemma safe_run_builtin hist bi argv :
  safe hist (bi argv) zero_or_one → safe hist (run_builtin bi argv) (λ r, r = Ran).
Proof. intros Hbi. unfold run_builtin. eapply safe_bind; [done|]. intros r Hr. safe_steps. Qed.

Lemma safe_try_run_builtin hist argv :
  safe hist (try_run_builtin argv) (λ r, ∀ code, r = Exit_shell code → zero_or_one code).
Proof.
  unfold try_run_builtin. destruct argv as [|name args]; [by apply safe_ret|].
  destruct (streq name (cs "exit")).
  { destruct args.
    - eapply (safe_bind _ _ _ zero_or_one); [by apply safe_gets; intros s []|].
      intros r Hr. apply safe_ret. by intros ? [= <-].
    - eapply safe_bind; [apply safe_wsh_warn|]. intros _ _. by apply safe_ret. }
  repeat (match goal with |- safe _ (if ?b then _ else _) _ => destruct b end;
    [eapply safe_mono; [apply safe_run_builtin|by intros ? ->]|]);
    eauto using safe_bi_alias, safe_bi_unalias, safe_bi_which, safe_bi_path, safe_bi_cd, safe_bi_history.
  by apply safe_ret.
Qed.

(** * Commands *)

(** [s'] differs from [s] only in the last status and in diagnostics. *)
Record quiet (s s' : shell W) : Prop := {
  quiet_alias : alias_hm s' = alias_hm s;
  quiet_history : history_da s' = history_da s;
  quiet_env : env s' = env s;
  quiet_out : out s' = out s;
  quiet_fds : fds s' = fds s;
  quiet_world : world s' = world s;
  quiet_rc : rc s' = rc s ∨ rc s' = EXIT_FAILURE;
}.

Global Instance quiet_preorder : PreOrder quiet.
Proof.
  split; [by split; auto|]. intros s1 s2 s3 [] []. split; try congruence.
  destruct quiet_rc1 as [E|]; [rewrite E|]; auto.
Qed.

Lemma quiet_ok hist s s' : quiet s s' → shell_ok hist s → shell_ok hist s'.
Proof.
  intros Hq [Ha Hh Hr]. split.
  - by rewrite (quiet_alias _ _ Hq).
  - by rewrite (quiet_history _ _ Hq).
  - destruct (quiet_rc _ _ Hq) as [->| ->]; [done|apply zero_or_one_failure].
Qed.

Lemma wsh_warn_quiet m s : ∃ s', wsh_warn m s = Some (tt, s') ∧ quiet s s'.
Proof. eexists. split; [done|]. by split; auto. Qed.

(** The argument vector a parse leaves. *)
Definition args_of (r : parsed) : list cstr := match r with Args a => a | Missing_quote => [] end.

Lemma parse_args_run c r s :
  parseline_no_subst (Some c) = Some r → ∃ s', parse_args c s = Some (args_of r, s') ∧ quiet s s'.
Proof.
  intros E. unfold parse_args. rewrite (bind_run (lift _) _ s r s) by (unfold lift; by rewrite E).
  destruct r; [by eexists|]. destruct (wsh_warn_quiet MISSING_CLOSING_QUOTE s) as (s'&Ew&Hq).
  rewrite (bind_run _ _ _ _ _ Ew). by eexists.
Qed.

(** The alias of a word, if it has one, stands for at least one argument and at
    most [MAX_ARGS]. *)
Definition alias_fits (hm : HashMap) (name : cstr) : Prop :=
  ∀ v, hm_get hm name = Some v → ∃ a, a ≠ [] ∧ parseline_no_subst (Some v) = Some (Args a).

(** The vector alias expansion makes: the words of the alias replace the first
    word, and are not expanded again. *)
Definition expanded (hm : HashMap) (argv : list cstr) : list cstr :=
  match argv with
  | [] => []
  | name :: args =>
      match hm_get hm name with
      | None => argv
      | Some v =>
          match parseline_no_subst (Some v) with Some r => args_of r ++ args | None => args end
      end
  end.

Lemma expand_none name args s :
  hm_get (alias_hm s) name = None →
  expand_alias_first_token (name :: args) s = Some (name :: args, s).
Proof.
  intros E. unfold expand_alias_first_token.
  rewrite (bind_run (gets alias_hm) _ s (alias_hm s) s), (bind_run (lift _) _ s name s) by done. by rewrite E.
Qed.

Lemma expand_some name args v a s :
  hm_get (alias_hm s) name = Some v → parseline_no_subst (Some v) = Some (Args a) →
  expand_alias_first_token (name :: args) s = Some (a ++ args, s).
Proof.
  intros E Ep. unfold expand_alias_first_token.
  rewrite (bind_run (gets alias_hm) _ s (alias_hm s) s), (bind_run (lift _) _ s name s) by done. rewrite E.
  assert (parse_args v s = Some (a, s)) as E1 by (unfold parse_args, lift, mbind, ST_bind; by rewrite Ep).
  by rewrite (bind_run _ _ _ _ _ E1).
Qed.

Lemma expand_run name args s :
  alias_fits (alias_hm s) name →
  expand_alias_first_token (name :: args) s = Some (expanded (alias_hm s) (name :: args), s) ∧
  expanded (alias_hm s) (name :: args) ≠ [].
Proof.
  intros Hf. unfold expanded. destruct (hm_get (alias_hm s) name) as [v|] eqn:Ev; [|by rewrite expand_none].
  destruct (Hf v Ev) as (a&Ha&Ep). rewrite (expand_some name args v a s Ev Ep), Ep.
  split; [done|by destruct a].
Qed.

Lemma zero_or_one_status st : zero_or_one (status_rc st).
Proof. unfold status_rc. destruct (_ && _); [by left|by right]. Qed.
Hint Resolve zero_or_one_status : wsh.

Lemma safe_run_external hist argv : argv ≠ [] → safe hist (run_external argv) any.
Proof.
  intros Hne. unfold run_external. destruct argv as [|name args]; [done|].
  eapply (safe_bind _ _ _ any); [by apply safe_lift; eauto|]. intros n _.
  eapply safe_bind; [apply safe_resolve|]. intros p _. safe_steps.
Qed.

Lemma add_history_run hist line s :
  shell_ok hist s → (Z.of_nat (length hist) < 2 ^ 58)%Z →
  ∃ s', add_history_after_exec line s = Some (tt, s') ∧ shell_ok (hist ++ [chomp line]) s' ∧
    alias_hm s' = alias_hm s ∧ rc s' = rc s ∧ fds s' = fds s.
Proof.
  intros [Ha Hh Hr] Hl. unfold add_history_after_exec.
  rewrite (bind_run (gets history_da) _ s (history_da s) s) by done.
  assert (∃ da, match history_da s with Some da => Some da | None => da_create true true 8 end = Some da ∧
    da_rep da (Some <$> hist)) as (da&Ed&Hda).
  { destruct (history_da s) as [da|]; simpl in Hh; [by eexists|]. subst hist.
    destruct (da_create_rep 8) as (da&E&Hd); [lia|]. by exists da. }
  rewrite Ed, (bind_run (lift (Some da)) _ s da s) by done.
  destruct (da_put_rep da (Some <$> hist) (Some (chomp line)) Hda) as (da'&Ep&Hp); [by rewrite length_fmap|].
  rewrite Ep, (bind_run (lift (Some da')) _ s da' s) by done.
  eexists. split; [done|]. split_and!; [|done..]. split; [done| |done]. simpl. by rewrite fmap_app.
Qed.

(** * Pipelines *)

(** A fork loop in which no fork fails. *)
Lemma fork_stages_run pipes nseg segarv : (∀ w c, is_Some (fork w c).1) → ∀ i hist,
  safe hist (fork_stages pipes nseg i segarv) (λ pids, ∃ l, pids = Some <$> l ∧ length l = length segarv).
Proof.
  intros Hf. induction segarv as [|argv rest IH]; intros i hist; simpl; [apply safe_ret; by exists []|].
  eapply safe_bind; [apply safe_get|]. intros s _. destruct (fork _ _) as [pid w] eqn:E.
  pose proof (Hf (world s) (stage_child s pipes nseg i argv)) as [p Hp]. rewrite E in Hp. simpl in Hp. subst pid.
  eapply safe_bind; [apply safe_set_world|]. intros _ _.
  eapply (safe_bind _ _ _ any); [by apply safe_ret|]. intros _ _.
  eapply safe_bind; [apply IH|]. intros ? (l&->&Hl). apply safe_ret. exists (p :: l). simpl. by rewrite Hl.
Qed.

Lemma safe_wait_stages hist pids last st : safe hist (wait_stages (Some <$> pids) last st) any.
Proof.
  revert st. induction pids as [|pid pids IH]; intros st; simpl; [by apply safe_ret|].
  eapply (safe_bind _ _ _ (λ p, p = pid)); [by apply safe_lift; eauto|]. intros ? ->.
  eapply (safe_bind _ _ _ any); [by apply safe_fget|]. intros w _. destruct (waitpid w pid) as [o w'].
  eapply safe_bind; [apply safe_set_world|]. intros _ _.
  eapply (safe_bind _ _ _ any); [destruct o; safe_steps|]. intros _ _. apply IH.
Qed.

Lemma safe_run_pipeline hist segarv :
  (∀ w c, is_Some (fork w c).1) → safe hist (run_pipeline segarv) any.
Proof.
  intros Hf. unfold run_pipeline. eapply safe_bind; [apply safe_get|]. intros s _.
  destruct (make_pipes _ _ _ _) as [[ok pipes] f]. eapply safe_bind; [apply safe_set_fds|]. intros _ _.
  destruct ok; [|by safe_steps]. eapply safe_bind; [by apply fork_stages_run|]. intros ? (pids&->&_).
  eapply (safe_bind _ _ _ any); [by apply safe_fget|]. intros f' _.
  eapply safe_bind; [apply safe_set_fds|]. intros _ _.
  eapply safe_bind; [apply safe_wait_stages|]. intros st _. safe_steps.
Qed.

(** * Lines *)

(** The words of a segment. *)
Definition words (seg : cstr) : list cstr :=
  match parseline_no_subst (Some seg) with Some r => args_of r | None => [] end.

(** The segment fits in the argument vectors it is parsed into. *)
Definition seg_fits (hm : HashMap) (seg : cstr) : Prop :=
  is_Some (parseline_no_subst (Some seg)) ∧ ∀ name args, words seg = name :: args → alias_fits hm name.

Definition line_fits (hm : HashMap) (line : cstr) : Prop :=
  ∀ segs, split_pipeline line MAX_SEGS = Some segs → Forall (seg_fits hm) segs.

Lemma parse_seg_run seg s :
  is_Some (parseline_no_subst (Some seg)) → ∃ s', parse_args seg s = Some (words seg, s') ∧ quiet s s'.
Proof. intros [r E]. unfold words. rewrite E. by apply parse_args_run. Qed.

Lemma parse_segments_run segs s :
  Forall (seg_fits (alias_hm s)) segs →
  ∃ s', parse_segments segs s =
      Some (forallb (λ seg, bool_decide (words seg ≠ [])) segs, expanded (alias_hm s) ∘ words <$> segs, s') ∧
    quiet s s'.
Proof.
  intros Hs. remember (alias_hm s) as hm eqn:Ehm. revert s Ehm.
  induction Hs as [|seg rest [Hp Ha] _ IH]; intros s ->; simpl; [by exists s|].
  destruct (parse_seg_run seg s Hp) as (s1&E1&Q1). rewrite (bind_run _ _ _ _ _ E1).
  pose proof (quiet_alias _ _ Q1) as Ea. destruct (words seg) as [|name args] eqn:Ew.
  - destruct (wsh_warn_quiet EMPTY_PIPE_SEGMENT s1) as (s2&E2&Q2). rewrite (bind_run _ _ _ _ _ E2).
    destruct (IH s2) as (s3&E3&Q3); [by rewrite (quiet_alias _ _ Q2)|].
    rewrite (bind_run _ _ _ _ _ E3). exists s3. split; [done|]. by rewrite Q1, Q2.
  - rewrite <- Ea. destruct (expand_run name args s1) as [E2 _]; [rewrite Ea; by apply (Ha name args)|].
    rewrite (bind_run _ _ _ _ _ E2). destruct (IH s1) as (s3&E3&Q3); [done|].
    rewrite (bind_run _ _ _ _ _ E3). exists s3. split; [|by rewrite Q1]. by rewrite Ea.
Qed.

(** The end of a line: it is in the history, or it ended the shell with an exit
    status. *)
Definition line_done (hist : list cstr) (line : cstr) (r : option Z) (s' : shell W) : Prop :=
  match r with
  | None => shell_ok (hist ++ [chomp line]) s'
  | Some code => zero_or_one code ∧ shell_ok hist s'
  end.

Section line.
Context (hist : list cstr) (line : cstr) (Hlen : (Z.of_nat (length hist) < 2 ^ 58)%Z).

Lemma history_done s :
  shell_ok hist s → wp (add_history_after_exec line;; mret None) (line_done hist line) s.
Proof.
  intros Hs. destruct (add_history_run hist line s Hs Hlen) as (s'&E&H'&_).
  apply (wp_intro _ _ _ None s'); [|exact H']. by rewrite (bind_run _ _ _ _ _ E).
Qed.

Lemma then_history (m : ST (shell W) ()) s :
  safe hist m any → shell_ok hist s →
  wp (m;; add_history_after_exec line;; mret None) (line_done hist line) s.
Proof.
  intros Hm Hs. apply wp_bind. eapply wp_mono; [by apply Hm|]. intros _ s' [_ Hs']. by apply history_done.
Qed.

Lemma run_single_wp seg s :
  shell_ok hist s → seg_fits (alias_hm s) seg → wp (run_single line seg) (line_done hist line) s.
Proof.
  intros Hok [Hp Ha]. unfold run_single. destruct (parse_seg_run seg s Hp) as (s1&E1&Q1).
  apply wp_bind, (wp_intro _ _ _ _ _ E1).
  pose proof (quiet_ok hist _ _ Q1 Hok) as Hok1. pose proof (quiet_alias _ _ Q1) as Ea.
  destruct (words seg) as [|name args] eqn:Ew; [by apply history_done|].
  destruct (expand_run name args s1) as [E2 Hne]; [rewrite Ea; by apply (Ha name args)|].
  apply wp_bind, (wp_intro _ _ _ _ _ E2). destruct (is_builtin _).
  - apply wp_bind. eapply wp_mono; [by apply safe_try_run_builtin|]. intros r s2 [Hr H2].
    destruct r as [| |code]; [by apply history_done..|]. split; [by apply Hr|done].
  - apply then_history; [by apply safe_run_external|done].
Qed.

Lemma run_segments_wp segs s :
  (∀ w c, is_Some (fork w c).1) → shell_ok hist s → Forall (seg_fits (alias_hm s)) segs →
  wp (run_segments line segs) (line_done hist line) s.
Proof.
  intros Hf Hok Hfit. unfold run_segments. destruct (parse_segments_run segs s Hfit) as (s1&E1&Q1).
  apply wp_bind, (wp_intro _ _ _ _ _ E1). pose proof (quiet_ok hist _ _ Q1 Hok) as Hok1.
  apply then_history; [|done]. destruct (forallb _ _); [by apply safe_run_pipeline|].
  apply safe_set_rc, zero_or_one_failure.
Qed.

Lemma run_line_wp s :
  (∀ w c, is_Some (fork w c).1) → shell_ok hist s → line_fits (alias_hm s) line →
  wp (run_line line) (line_done hist line) s.
Proof.
  intros Hf Hok Hfit. unfold run_line, line_fits in *.
  destruct (split_pipeline line MAX_SEGS) as [segs|].
  - specialize (Hfit segs eq_refl). destruct segs as [|seg [|seg2 segs]]; [by apply run_segments_wp| |by apply run_segments_wp].
    apply run_single_wp; [done|]. by apply (Forall_singleton (seg_fits (alias_hm s)) seg).
  - apply then_history; [|done]. apply safe_set_rc, zero_or_one_failure.
Qed.
End line.
End builtins.
