(* ===== verification/WshPipe.v ===== *)
(** The plumbing of a pipeline: which descriptors the processes of a pipeline
    and the shell are left with, and where the status of a pipeline comes
    from. *)

From stdpp Require Import base option list numbers gmap.
From coqutil Require Import Byte.
From Stdlib Require Import Strings.Byte ZArith Lia.
From S2P Require Import Prelude CString HashMap DynArray WshParse Wsh.

(** * Descriptors *)

Lemma lowest_free_spec limit f fd : lowest_free limit f = Some fd → f !! fd = None.
Proof.
  unfold lowest_free. intros E. apply head_Some_elem_of, list_elem_of_filter in E as [E _]. done.
Qed.

Lemma close_pipes_delete pipes f fd : close_pipes pipes (delete fd f) = delete fd (close_pipes pipes f).
Proof.
  revert f. induction pipes as [|[r w] pipes IH]; intros f; simpl; [done|].
  rewrite <- IH. f_equal. apply map_eq. intros k. rewrite !lookup_delete. by repeat case_decide.
Qed.

(** A descriptor that is not an end of one of the pipes stays open. *)
Lemma close_pipes_insert pipes f fd o :
  (∀ r w, (r, w) ∈ pipes → r ≠ fd ∧ w ≠ fd) →
  close_pipes pipes (<[fd := o]> f) = <[fd := o]> (close_pipes pipes f).
Proof.
  revert f. induction pipes as [|[r w] pipes IH]; intros f Hn; simpl; [done|].
  destruct (Hn r w) as [Hr Hw]; [by left|].
  rewrite <- IH by (intros; apply Hn; by right).
  by rewrite !delete_insert_ne by congruence.
Qed.

(** The pipes made: each pair is the two ends of its pipe, unused before, and
    closing them all gives the table back. *)
Lemma make_pipes_spec limit n : ∀ i f pipes f',
  make_pipes limit n i f = (true, pipes, f') →
  length pipes = n ∧ close_pipes pipes f' = f ∧ f ⊆ f' ∧
  ∀ k r w, pipes !! k = Some (r, w) →
    f' !! r = Some (Pipe_read (i + k)) ∧ f' !! w = Some (Pipe_write (i + k)) ∧ f !! r = None ∧ f !! w = None.
Proof.
  induction n as [|n IH]; intros i f pipes f' E; simpl in E.
  { injection E as <- <-. split_and!; [done..|]. by intros k r w ?. }
  unfold pipe in E. destruct (lowest_free limit f) as [r|] eqn:Er; [|done]. simpl in E.
  destruct (lowest_free limit (<[r:=Pipe_read i]> f)) as [w|] eqn:Ew; [|done]. simpl in E.
  destruct (make_pipes limit n (S i) _) as [[ok ps] f2] eqn:Em. injection E as -> <- <-.
  apply lowest_free_spec in Er, Ew.
  assert (r ≠ w) as Hrw by (intros ->; by rewrite lookup_insert_eq in Ew).
  rewrite lookup_insert_ne in Ew by done.
  destruct (IH _ _ _ _ Em) as (Hl&Hc&Hs&Hk). split_and!.
  - simpl. lia.
  - simpl. rewrite !close_pipes_delete, Hc. apply map_eq. intros j.
    rewrite !lookup_delete. repeat case_decide; subst; [done..|]. by rewrite !lookup_insert_ne.
  - etransitivity; [|exact Hs]. etransitivity; apply insert_subseteq; [done|by rewrite lookup_insert_ne].
  - intros [|k] r' w' Ek; simpl in Ek.
    + injection Ek as <- <-. rewrite Nat.add_0_r. split_and!; [| |done..]; eapply lookup_weaken, Hs.
      * by rewrite lookup_insert_ne, lookup_insert_eq.
      * by rewrite lookup_insert_eq.
    + destruct (Hk k r' w' Ek) as (H1&H2&H3&H4). rewrite Nat.add_succ_r.
      apply lookup_insert_None in H3 as [[H3 _]%lookup_insert_None _], H4 as [[H4 _]%lookup_insert_None _]. done.
Qed.

(** The descriptors of the process of stage [i]: those of the shell, with
    standard input from the previous pipe and standard output into the next. *)
Definition stage_fds (nseg i : nat) (f : fdtable) : fdtable :=
  let f := if bool_decide (0 < i) then <[STDIN_FILENO := Pipe_read (i - 1)]> f else f in
  if bool_decide (i < nseg - 1) then <[STDOUT_FILENO := Pipe_write i]> f else f.

Lemma child_fds_spec limit nseg f pipes f' i :
  make_pipes limit (nseg - 1) 0 f = (true, pipes, f') → i < nseg →
  is_Some (f !! STDIN_FILENO) → is_Some (f !! STDOUT_FILENO) →
  child_fds pipes nseg i f' = Some (stage_fds nseg i f).
Proof.
  intros Em Hi [o0 H0] [o1 H1]. destruct (make_pipes_spec _ _ _ _ _ _ Em) as (Hl&Hc&_&Hk).
  assert (∀ fd o g, f !! fd = Some o → ∀ o', close_pipes pipes (<[fd := o']> g) = <[fd := o']> (close_pipes pipes g)) as Hins.
  { intros fd o g Hfd o'. apply close_pipes_insert. intros r w [k Hrw]%list_elem_of_lookup.
    destruct (Hk k r w Hrw) as (_&_&Hr&Hw). split; congruence. }
  assert (∃ g, (if bool_decide (0 < i) then p ← pipes !! (i - 1); dup2 f' p.1 STDIN_FILENO else Some f') = Some g ∧
    close_pipes pipes g = (if bool_decide (0 < i) then <[STDIN_FILENO := Pipe_read (i - 1)]> f else f) ∧
    (∀ fd, fd ≠ STDIN_FILENO → g !! fd = f' !! fd)) as (g&Eg&Hg&Hsame).
  { case_bool_decide; [|by exists f'].
    destruct (lookup_lt_is_Some_2 pipes (i - 1)) as [[r w] Hrw]; [lia|].
    destruct (Hk _ _ _ Hrw) as (Hr&_). rewrite Hrw. simpl. unfold dup2. rewrite Hr. simpl.
    eexists. split; [done|]. split; [by rewrite (Hins STDIN_FILENO o0), Hc|].
    intros fd Hfd. by rewrite lookup_insert_ne. }
  unfold child_fds, stage_fds. rewrite Eg, <- Hg. simpl. destruct (bool_decide (i < nseg - 1)) eqn:Hlast; [|done].
  apply bool_decide_eq_true in Hlast.
  destruct (lookup_lt_is_Some_2 pipes i) as [[r w] Hrw]; [lia|].
  destruct (Hk _ _ _ Hrw) as (_&Hw&_&Hw0). rewrite Hrw. simpl. unfold dup2.
  rewrite Hsame by (intros ->; congruence). rewrite Hw. simpl. by rewrite (Hins STDOUT_FILENO o1).
Qed.

(** * The status of a pipeline *)

Section status.
Context {W : Type} `{OS W}.
Implicit Types (s : shell W) (w : W).

(** [fork] of each child, and [waitpid] for each pid, in order. *)
Fixpoint fork_all (w : W) (children : list (child W)) : list (option Z) * W :=
  match children with
  | [] => ([], w)
  | c :: rest => let '(p, w') := fork w c in let '(l, w'') := fork_all w' rest in (p :: l, w'')
  end.

Fixpoint wait_all (w : W) (pids : list Z) : list (option Z) * W :=
  match pids with
  | [] => ([], w)
  | p :: rest => let '(o, w') := waitpid w p in let '(l, w'') := wait_all w' rest in (o :: l, w'')
  end.

Definition with_world (s : shell W) (w : W) : shell W :=
  mk_shell (rc s) (alias_hm s) (history_da s) (env s) (out s) (err s) (fds s) w.

Lemma fork_stages_all pipes nseg segarv : ∀ i s pids w1,
  fork_all (world s) (imap (λ k, stage_child s pipes nseg (i + k)) segarv) = (Some <$> pids, w1) →
  fork_stages pipes nseg i segarv s = Some (Some <$> pids, with_world s w1).
Proof.
  induction segarv as [|argv rest IH]; intros i s pids w1 E; simpl in E.
  { injection E as E <-. destruct pids; [|done]. by destruct s. }
  simpl. rewrite (bind_run get _ s s s) by done. rewrite Nat.add_0_r in E.
  destruct (fork (world s) (stage_child s pipes nseg i argv)) as [pid w] eqn:Ef.
  destruct (fork_all w _) as [l w2] eqn:Ea. injection E as E <-.
  destruct pids as [|p pids]; [done|]. injection E as -> ->.
  rewrite (bind_run (set_world w) _ s tt (with_world s w)), (bind_run (mret tt) _ _ tt (with_world s w)) by done.
  erewrite (bind_run (fork_stages pipes nseg (S i) rest)); [done|].
  apply (IH (S i) (with_world s w)). simpl. etransitivity; [|exact Ea]. f_equal. apply imap_ext. intros k x _. simpl.
  by rewrite Nat.add_succ_r.
Qed.

(** The status kept is the one of the last pid, when no other stage has it. *)
Lemma wait_stages_last p pids : p ∉ pids → ∀ s st,
  ∃ s', wait_stages (Some <$> pids ++ [p]) p st s =
      Some (default 0%Z (mjoin (list.last (wait_all (world s) (pids ++ [p])).1)), s') ∧
    fds s' = fds s ∧ alias_hm s' = alias_hm s ∧ history_da s' = history_da s ∧ env s' = env s ∧ out s' = out s.
Proof.
  intros Hp s. revert s. induction pids as [|q pids IH]; intros s st; simpl.
  - rewrite (bind_run (lift _) _ s p s), (bind_run (gets world) _ s (world s) s) by done.
    destruct (waitpid (world s) p) as [o w]. rewrite (bind_run (set_world w) _ s tt (with_world s w)) by done.
    rewrite bool_decide_eq_true_2 by done. destruct o; eexists; (split; [done|]); done.
  - apply not_elem_of_cons in Hp as [Hq Hp].
    rewrite (bind_run (lift _) _ s q s), (bind_run (gets world) _ s (world s) s) by done.
    destruct (waitpid (world s) q) as [o w]. rewrite (bind_run (set_world w) _ s tt (with_world s w)) by done.
    rewrite bool_decide_eq_false_2 by congruence.
    assert (∃ s1, (match o with Some _ => mret () | None => perror (cs "waitpid") end) (with_world s w) = Some (tt, s1) ∧
      world s1 = w ∧ fds s1 = fds s ∧ alias_hm s1 = alias_hm s ∧ history_da s1 = history_da s ∧ env s1 = env s ∧ out s1 = out s)
      as (s1&E1&Hw&Hf&Ha&Hh&He&Ho).
    { destruct o; eexists; (split; [done|]); done. }
    rewrite (bind_run _ _ _ _ _ E1). destruct (IH Hp s1 st) as (s2&E2&Hf2&Ha2&Hh2&He2&Ho2).
    exists s2. split; [|split_and!; congruence]. etransitivity; [exact E2|]. do 2 f_equal. rewrite Hw.
    destruct (wait_all w (pids ++ [p])) as [l w''] eqn:El. simpl.
    assert (l ≠ []) as Hl by (destruct pids; simpl in El; repeat case_match; congruence).
    by destruct l.
Qed.
End status.
