(* ===== verification/WshTheorems.v ===== *)
(** The properties of the shell: its containers, its parser, its built-ins, its
    pipelines and its main loop. *)

From stdpp Require Import base option list numbers gmap sorting.
From coqutil Require Import Byte.
From Stdlib Require Import Strings.Byte ZArith Lia.
From S2P Require Import Prelude CString HashMap DynArray WshUtils WshParse Wsh WshSafe WshPipe.

(** * The alias table *)

(** A sequence of updates of a table, and of a finite map. *)
Inductive hm_op := Op_put (k v : cstr) | Op_delete (k : cstr).

Definition hm_run (ops : list hm_op) : HashMap :=
  foldl (λ hm o, match o with Op_put k v => hm_put hm k v | Op_delete k => hm_delete hm k end) hm_create ops.
Definition map_run (ops : list hm_op) : gmap cstr cstr :=
  foldl (λ m o, match o with Op_put k v => <[k := v]> m | Op_delete k => delete k m end) ∅ ops.

Lemma hm_run_ok ops : hm_ok (hm_run ops) ∧ hm_map (hm_run ops) = map_run ops.
Proof.
  unfold hm_run, map_run. rewrite <- hm_map_create. generalize hm_create_ok. generalize hm_create.
  induction ops as [|[k v|k] ops IH]; intros hm Hm; simpl; [done| |].
  - rewrite <- hm_map_put by done. by apply IH, hm_put_ok.
  - rewrite <- hm_map_delete by done. by apply IH, hm_delete_ok.
Qed.

(** C29: The alias table implements a finite map: after any sequence of [hm_put]
    and [hm_delete] on a fresh table, [hm_get] of any key gives what the same
    updates of a finite map give, every entry is in the bucket of its hash, no
    key is stored twice, and [hm_print_sorted] writes one line for each
    binding, in the order of [strcmp]. *)
Theorem hm_refines_map ops :
  hm_ok (hm_run ops) ∧ (∀ k, hm_get (hm_run ops) k = map_run ops !! k) ∧
  ∃ l, l ≡ₚ map_to_list (map_run ops) ∧ StronglySorted keys_le l.*1 ∧
    hm_print_sorted (hm_run ops) = Some (concat ((λ b, print_entry b.1 b.2) <$> l)).
Proof.
  destruct (hm_run_ok ops) as [Hok Hm]. rewrite <- Hm. split; [done|].
  split; [by intros k; apply hm_get_map|by apply hm_print_sorted_map].
Qed.

(** * The history array *)

Inductive da_op := Op_append (v : option cstr) | Op_remove (i : Z).

Fixpoint da_run (ops : list da_op) (da : DynamicArray) : option DynamicArray :=
  match ops with
  | [] => Some da
  | Op_append v :: rest => da_put true true da v ≫= da_run rest
  | Op_remove i :: rest => da_delete da i ≫= da_run rest
  end.
Definition list_run (ops : list da_op) (l : list (option cstr)) : list (option cstr) :=
  foldl (λ l o, match o with Op_append v => l ++ [v] | Op_remove i => delete (Z.to_nat i) l end) l ops.

(** The index of a removal is a [size_t]. *)
Definition da_op_ok (o : da_op) : Prop := match o with Op_append _ => True | Op_remove i => (0 ≤ i)%Z end.

Lemma length_delete_le {A} i (l : list A) : length (delete i l) ≤ length l.
Proof. rewrite delete_take_drop, length_app, length_take, length_drop. lia. Qed.

Lemma da_run_rep ops : ∀ da l,
  Forall da_op_ok ops → da_rep da l → (Z.of_nat (length l + length ops) < 2 ^ 58)%Z →
  ∃ da', da_run ops da = Some da' ∧ da_rep da' (list_run ops l).
Proof.
  induction ops as [|[v|i] ops IH]; intros da l Hops Hda Hl; [by exists da| |]; simpl in Hl;
    apply Forall_cons in Hops as [Hop Hops]; simpl.
  - destruct (da_put_rep da l v Hda) as (da1&->&H1); [lia|].
    apply IH; [done|done|]. rewrite length_app. simpl. lia.
  - destruct (da_delete_rep da l i Hda Hop) as (da1&->&H1).
    apply IH; [done|done|]. pose proof (length_delete_le (Z.to_nat i) l). lia.
Qed.

(** The history array implements a list: any sequence of [da_put] and
    [da_delete] on a fresh array runs without an access outside the buffer or
    to an uninitialised cell, [da_get] at any index then gives the element of
    the list (NULL past the end), [da_print] prints the elements in order and
    [da_free] releases each of them once. *)
Theorem da_refines_list (ops : list da_op) (cap : Z)
  (Hops : Forall da_op_ok ops) (Hlen : (Z.of_nat (length ops) < 2 ^ 58)%Z) (Hcap : (0 ≤ cap < 2 ^ 60)%Z) :
  ∃ da0 da, da_create true true cap = Some da0 ∧ da_run ops da0 = Some da ∧
    (∀ i, (0 ≤ i)%Z → da_get da i = Some (mjoin (list_run ops [] !! Z.to_nat i))) ∧
    da_print da = Some (concat ((λ v, default [] v ++ [NEWLINE]) <$> list_run ops [])) ∧
    da_free da = Some (list_run ops []).
Proof.
  destruct (da_create_rep cap Hcap) as (da0&E0&H0).
  destruct (da_run_rep ops da0 [] Hops H0 Hlen) as (da&E&Hda). exists da0, da. split_and!; try done.
  - intros i Hi. by apply da_get_rep.
  - by apply da_print_rep.
  - by apply da_free_rep.
Qed.

Lemma da_refines_list_witness :
  ∃ da0 da, da_create true true 0 = Some da0 ∧
    da_run [Op_append (Some (cs "a")); Op_append (Some (cs "b")); Op_remove 0] da0 = Some da ∧
    (∀ i, (0 ≤ i)%Z → da_get da i = Some (mjoin ([Some (cs "b")] !! Z.to_nat i))) ∧
    da_print da = Some (cs "b" ++ [NEWLINE]) ∧ da_free da = Some [Some (cs "b")].
Proof.
  apply (da_refines_list [Op_append (Some (cs "a")); Op_append (Some (cs "b")); Op_remove 0] 0).
  - repeat constructor; done.
  - simpl. lia.
  - lia.
Defined.

(** * String replacement *)

(** [replaceKey] replaces the first occurrence of the key and nothing else,
    with every copy inside the buffer it allocates, and returns the command
    unchanged exactly when the key does not occur in it. *)
Theorem replaceKey_first (command key value : cstr) (Hc : no_nul command) (Hv : no_nul value) :
  ∃ r, replaceKey command key value = Some r ∧
    ((r = command ∧ ∀ a t, command ≠ a ++ key ++ t) ∨
     ∃ a t, command = a ++ key ++ t ∧ r = a ++ value ++ t ∧
       ∀ a' t', command = a' ++ key ++ t' → length a ≤ length a').
Proof.
  unfold replaceKey. pose proof (strstr_spec command key) as Hs. destruct (strstr command key) as [i|].
  - destruct Hs as ([t Ht]&Hl&Hf). rewrite replaceAt_spec by done. eexists. split; [done|]. right.
    exists (take i command), t. assert (length (take i command) = i) as Hi by (rewrite length_take; lia).
    split_and!; [done| |intros a' t' E; rewrite Hi; by eapply Hf].
    do 2 f_equal. rewrite Ht at 1. rewrite app_assoc, drop_app_length'; [done|]. rewrite length_app. lia.
  - eexists. split; [done|]. by left.
Qed.

Lemma replaceKey_first_witness :
  ∃ r, replaceKey (cs "echo $X $X") (cs "$X") (cs "one") = Some r ∧
    ((r = cs "echo $X $X" ∧ ∀ a t, cs "echo $X $X" ≠ a ++ cs "$X" ++ t) ∨
     ∃ a t, cs "echo $X $X" = a ++ cs "$X" ++ t ∧ r = a ++ cs "one" ++ t ∧
       ∀ a' t', cs "echo $X $X" = a' ++ cs "$X" ++ t' → length a ≤ length a').
Proof. apply replaceKey_first; by apply no_nul_cs. Defined.

(** * Parsing *)

(** C30: The parser implements the grammar of arguments: either the buffer
    consists of arguments, and the parser returns exactly these, or it has a
    quote that is never closed, and the parser reports it; it stores outside
    the argument vector exactly when there are too many arguments for it
    (more than [MAX_ARGS], or [MAX_ARGS + 1] before the open quote). *)
Theorem parseline_grammar (cmdline : cstr) :
  (∃ l, lexes (parse_buffer cmdline) l ∧
     parseline_no_subst (Some cmdline) = if bool_decide (length l ≤ MAX_ARGS) then Some (Args l) else None) ∨
  (∃ n, unclosed (parse_buffer cmdline) n ∧
     parseline_no_subst (Some cmdline) = if bool_decide (n ≤ MAX_ARGS + 1) then Some Missing_quote else None).
Proof.
  destruct (lex_total _ (parse_buffer_spaced cmdline)) as [[l Hl]|[n Hn]]; [left; exists l|right; exists n].
  - split; [done|]. by apply parseline_lexes.
  - split; [done|]. by apply parseline_unclosed.
Qed.

Lemma print_args_snoc argv a : print_args (argv ++ [a]) = (print_args argv ++ quote_arg a) ++ [SPACE].
Proof. unfold print_args. rewrite fmap_app, concat_app, <- app_assoc. f_equal. apply app_nil_r. Qed.

(** Parsing undoes printing: arguments written in single quotes, separated
    by spaces, are read back as they were, whatever bytes other than quotes
    they contain. *)
Theorem parse_print_roundtrip (argv : list cstr)
  (Hq : Forall (λ a, QUOTE ∉ a) argv) (Hn : length argv ≤ MAX_ARGS) :
  parseline_no_subst (Some (print_args argv)) = Some (Args argv).
Proof.
  rewrite (parseline_lexes _ argv); [by rewrite bool_decide_eq_true_2|].
  assert (parse_buffer (print_args argv) = print_args argv ++ [SPACE]) as ->.
  { unfold parse_buffer. rewrite bool_decide_eq_false_2; [done|]. intros E.
    destruct argv as [|a argv] using rev_ind; [done|]. by rewrite print_args_snoc, last_snoc in E. }
  rewrite <- (app_nil_r argv) at 2. apply lexes_print_args; [done|]. repeat constructor.
Qed.

Lemma parse_print_roundtrip_witness :
  parseline_no_subst (Some (print_args [cs "echo"; cs "a  b"; []])) = Some (Args [cs "echo"; cs "a  b"; []]).
Proof.
  apply parse_print_roundtrip.
  - repeat constructor; apply (bool_decide_eq_true_1 (_ ∉ _)); vm_compute; reflexivity.
  - unfold MAX_ARGS. simpl. lia.
Defined.

(** A line is cut into pipeline segments exactly at its pipe characters
    outside quotes: the segments are the only way to write the line as
    segments without bare pipes joined by pipes, and the result is -1 exactly
    when there are more than the given number. *)
Theorem split_pipeline_cuts (line : cstr) (max : nat) :
  ∃ segs, segments line segs ∧ (∀ segs', segments line segs' → segs' = segs) ∧
    split_pipeline line max = if bool_decide (length segs ≤ max) then Some segs else None.
Proof.
  destruct (split_loop_spec max line []) as (segs&Hs&E); [done|]. exists segs. split; [done|].
  split; [intros segs' H'; by eapply segments_unique|]. apply (E []).
Qed.

(** * Decimal numbers *)

Definition digit (d : Z) : byte := byte.of_Z (48 + d).

(** The decimal digits of [n]; [fuel] bounds their number. *)
Fixpoint decimal_aux (fuel : nat) (n : Z) : cstr :=
  match fuel with
  | O => []
  | S fuel' =>
      if bool_decide (n < 10)%Z then [digit n] else decimal_aux fuel' (n / 10) ++ [digit (n mod 10)]
  end.
Definition decimal (n : Z) : cstr := decimal_aux (S (Z.to_nat n)) n.

Lemma digit_unsigned d : (0 ≤ d < 10)%Z → byte.unsigned (digit d) = (48 + d)%Z.
Proof. intros. unfold digit. rewrite byte.unsigned_of_Z. unfold byte.wrap. by rewrite Z.mod_small by lia. Qed.

Lemma decimal_aux_spec fuel : ∀ n, (0 ≤ n)%Z → (Z.to_nat n < fuel)%nat →
  decimal_aux fuel n ≠ [] ∧ Forall is_digit (decimal_aux fuel n) ∧ digits_value (decimal_aux fuel n) = n.
Proof.
  induction fuel as [|fuel IH]; intros n Hn Hf; [lia|]. simpl. case_bool_decide as Hlt.
  - split; [done|]. split.
    + constructor; [|constructor]. unfold is_digit. rewrite digit_unsigned; lia.
    + unfold digits_value. simpl. rewrite digit_unsigned; lia.
  - pose proof (Z.mod_pos_bound n 10). pose proof (Z.div_mod n 10).
    destruct (IH (n / 10)%Z) as (Hne&Hd&Hv); [lia|lia|].
    split; [by destruct (decimal_aux fuel (n / 10))|]. split.
    + apply Forall_app. split; [done|]. constructor; [|constructor]. unfold is_digit. rewrite digit_unsigned; lia.
    + unfold digits_value in *. rewrite foldl_app, Hv. simpl. rewrite digit_unsigned; lia.
Qed.

(** [strtol] reads back the decimal digits of a number. *)
Lemma strtol_decimal n : (0 ≤ n ≤ LONG_MAX)%Z → strtol (decimal n) = (n, []) ∧ decimal n ≠ [].
Proof.
  intros [Hn Hmax]. destruct (decimal_aux_spec (S (Z.to_nat n)) n Hn) as (Hne&Hd&Hv); [lia|].
  fold (decimal n) in *. split; [|done]. unfold strtol. destruct (decimal n) as [|c ds]; [done|].
  pose proof (Forall_inv Hd) as Hc. unfold is_digit in Hc.
  assert (¬ is_space c) as Hs. { intros [->|?]; [vm_compute in Hc; intuition lia|lia]. }
  assert (drop_while is_space (c :: ds) = c :: ds) as -> by (simpl; by rewrite decide_False).
  rewrite !bool_decide_eq_false_2 by (intros ->; vm_compute in Hc; intuition lia).
  rewrite take_while_id by done. rewrite Hv, Z.min_r by lia. f_equal.
  rewrite <- (app_nil_r (c :: ds)). by rewrite drop_while_app.
Qed.

(** * Built-in commands *)

Section shell.
Context {W : Type} `{OS W}.
Implicit Types (s : shell W).

(** [which] tells the truth: for a word that is neither an alias nor a
    built-in it prints the path at which running the word would find its
    executable, and succeeds, or prints that there is none, and fails. *)
Theorem which_agrees (name : cstr) (s : shell W)
  (Ha : hm_get (alias_hm s) name = None) (Hb : is_builtin (Some name) = false) :
  ∃ p r s1 s2, resolve_exec_path name s = Some (p, s2) ∧ bi_which [cs "which"; name] s = Some (r, s1) ∧
    match p with
    | Some path => r = EXIT_SUCCESS ∧ out s1 = out s ++ WHICH_EXTERNAL name path
    | None => r = EXIT_FAILURE ∧ out s1 = out s ++ WHICH_NOT_FOUND name
    end.
Proof.
  unfold resolve_exec_path, bi_which. rewrite !(bind_run (gets world) _ s (world s) s) by done.
  rewrite (bind_run (gets alias_hm) _ s (alias_hm s) s), (bind_run (gets world) _ s (world s) s) by done.
  rewrite Ha, Hb. destruct (is_path name); [by destruct (access_x (world s) name); eexists _, _, _, _|].
  rewrite !(bind_run (getenv (cs "PATH")) _ s (env s !! cs "PATH") s) by done.
  destruct (env s !! cs "PATH") as [[|c P]|]; [by eexists _, _, _, _| |by eexists _, _, _, _].
  by destruct (search_path (world s) (strtok_all COLON (c :: P)) name); eexists _, _, _, _.
Qed.

(** [alias] and [unalias] do what they say: after [alias name = v] a command
    that starts with the name is run with the words of [v] in its place and
    its own arguments after them, every other word expands as before, and
    [unalias] takes it back. *)
Theorem alias_expands (name v : cstr) (a : list cstr) (s : shell W)
  (Hok : hm_ok (alias_hm s)) (Hv : parseline_no_subst (Some v) = Some (Args a)) (Hne : a ≠ []) :
  ∃ s1 s2, try_run_builtin [cs "alias"; name; cs "="; v] s = Some (Ran, s1) ∧ rc s1 = EXIT_SUCCESS ∧
    (∀ args, expand_alias_first_token (name :: args) s1 = Some (a ++ args, s1)) ∧
    (∀ other args, other ≠ name →
       expanded (alias_hm s1) (other :: args) = expanded (alias_hm s) (other :: args)) ∧
    try_run_builtin [cs "unalias"; name] s1 = Some (Ran, s2) ∧
    (∀ args, expand_alias_first_token (name :: args) s2 = Some (name :: args, s2)).
Proof.
  eexists _, _. split; [reflexivity|]. split; [done|].
  pose proof (hm_put_ok _ name v Hok) as Hok1.
  assert (∀ k, hm_get (hm_put (alias_hm s) name v) k = if decide (name = k) then Some v else hm_get (alias_hm s) k) as Hget.
  { intros k. rewrite !hm_get_map, hm_map_put by done. apply lookup_insert. }
  split_and!; [| |reflexivity|].
  - intros args. match goal with |- _ _ ?s1 = _ => destruct (expand_run name args s1) as [-> _] end.
    + intros v' E. simpl in E. rewrite Hget, decide_True in E by done. injection E as <-. eauto.
    + unfold expanded. cbn [alias_hm]. by rewrite Hget, decide_True, Hv.
  - intros other args Ho. unfold expanded. simpl. rewrite Hget, decide_False by congruence. done.
  - intros args. assert (hm_get (hm_delete (hm_put (alias_hm s) name v) name) name = None) as E.
    { rewrite hm_get_map, hm_map_delete by (try apply hm_delete_ok; done). apply lookup_delete_eq. }
    unfold expand_alias_first_token, mbind, ST_bind. simpl. by rewrite E.
Qed.

(** [history n] prints the [n]-th line that was run, and refuses a number
    outside the history without printing anything. *)
Theorem history_nth (hist : list cstr) (k : nat) (s : shell W)
  (Hok : shell_ok hist s) (Hne : hist ≠ []) (Hk : (Z.of_nat k < LONG_MAX)%Z) :
  ∃ s', try_run_builtin [cs "history"; decimal (Z.of_nat k + 1)] s = Some (Ran, s') ∧
    match hist !! k with
    | Some line => rc s' = EXIT_SUCCESS ∧ out s' = out s ++ line ++ [NEWLINE]
    | None => rc s' = EXIT_FAILURE ∧ out s' = out s
    end.
Proof.
  destruct (strtol_decimal (Z.of_nat k + 1)) as [Es Hd]; [lia|].
  set (arg := decimal _) in *. clearbody arg.
  destruct Hok as [_ Hh _]. destruct (history_da s) as [da|] eqn:Eh; simpl in Hh; [|done].
  pose proof (rep_size _ _ Hh) as Hsz. rewrite length_fmap in Hsz.
  change (try_run_builtin [cs "history"; arg] s) with (run_builtin bi_history [cs "history"; arg] s).
  assert (∃ r s1, bi_history [cs "history"; arg] s = Some (r, s1) ∧
    match hist !! k with
    | Some line => r = EXIT_SUCCESS ∧ out s1 = out s ++ line ++ [NEWLINE]
    | None => r = EXIT_FAILURE ∧ out s1 = out s
    end) as (r&s1&E1&H1).
  { unfold bi_history. rewrite (bind_run (gets history_da) _ s (Some da) s) by (unfold gets; by rewrite Eh).
    rewrite Es. destruct (hist !! k) as [line|] eqn:Ek.
    - assert (k < length hist) as Hlt by (by eapply lookup_lt_Some).
      rewrite (bool_decide_eq_false_2 (arg = [])) by done.
      rewrite (bool_decide_eq_false_2 (Z.of_nat k + 1 < 1)%Z) by lia.
      rewrite (bool_decide_eq_false_2 (size da < Z.of_nat k + 1)%Z) by lia.
      rewrite bool_decide_eq_true_2 by done. cbn [orb negb].
      rewrite (bind_run (lift _) _ s (Some line) s); [by eexists _, _|].
      unfold lift. rewrite (da_get_rep da (Some <$> hist)) by (done || lia).
      replace (Z.to_nat (Z.of_nat k + 1 - 1)) with k by lia. rewrite list_lookup_fmap. unfold cstr in *. by rewrite Ek.
    - assert (length hist ≤ k) by (by apply lookup_ge_None). rewrite (bool_decide_eq_true_2 (size da < _)%Z) by lia.
      rewrite !orb_true_r. by eexists _, _. }
  unfold run_builtin. rewrite (bind_run _ _ _ _ _ E1). eexists. split; [reflexivity|].
  destruct (hist !! k); by destruct H1.
Qed.

(** * Lines, pipelines and scripts *)

(** Every line is run to its end: if its segments fit in the argument
    vectors and no fork fails, [run_line] returns without a memory fault, the
    alias table stays well-formed, the status is 0 or 1, and the line, without
    its newline, is appended to the history, unless it ended the shell. *)
Theorem run_line_total (hist : list cstr) (line : cstr) (s : shell W)
  (Hfork : ∀ w c, is_Some (fork w c).1) (Hok : shell_ok hist s) (Hfit : line_fits (alias_hm s) line)
  (Hlen : (Z.of_nat (length hist) < 2 ^ 58)%Z) :
  ∃ r s', run_line line s = Some (r, s') ∧
    match r with
    | None => shell_ok (hist ++ [chomp line]) s'
    | Some code => zero_or_one code ∧ shell_ok hist s'
    end.
Proof. by apply (wp_elim _ (line_done hist line)), run_line_wp. Qed.

(** C31: A pipeline is wired as written: the process of stage [i] gets the
    descriptors of the shell with its standard input replaced by the read end
    of pipe [i - 1] and its standard output by the write end of pipe [i]
    (except at the two ends of the pipeline) and no other pipe end; afterwards
    the shell has the descriptors it had before, its aliases, history and
    environment are unchanged, and the status is the one of the last stage. *)
Theorem run_pipeline_wiring (segarv : list (list cstr)) (s : shell W) (pipes : list (nat * nat)) (f : fdtable)
  (pids : list Z) (p : Z) (w1 : W)
  (H0 : is_Some (fds s !! STDIN_FILENO)) (H1 : is_Some (fds s !! STDOUT_FILENO))
  (Hpipes : make_pipes (open_max (world s)) (length segarv - 1) 0 (fds s) = (true, pipes, f))
  (children := imap (stage_child (mk_shell (rc s) (alias_hm s) (history_da s) (env s) (out s) (err s) f (world s))
                       pipes (length segarv)) segarv)
  (Hfork : fork_all (world s) children = (Some <$> pids ++ [p], w1)) (Hp : p ∉ pids) :
  (∀ i c, children !! i = Some c → ch_fds c = stage_fds (length segarv) i (fds s)) ∧
  ∃ s', run_pipeline segarv s = Some (tt, s') ∧ fds s' = fds s ∧
    alias_hm s' = alias_hm s ∧ history_da s' = history_da s ∧ env s' = env s ∧
    rc s' = status_rc (default 0%Z (mjoin (list.last (wait_all w1 (pids ++ [p])).1))).
Proof.
  set (s1 := mk_shell _ _ _ _ _ _ f (world s)) in *. split.
  - intros i c Hc. unfold children in Hc. rewrite list_lookup_imap in Hc.
    apply fmap_Some in Hc as (argv&Hi&->). unfold stage_child. simpl.
    rewrite (child_fds_spec _ _ _ _ _ i Hpipes) by (done || by eapply lookup_lt_Some). done.
  - unfold run_pipeline. rewrite (bind_run get _ s s s) by done. rewrite Hpipes.
    rewrite (bind_run (set_fds f) _ s tt s1) by done.
    rewrite (bind_run _ _ _ _ _ (fork_stages_all pipes (length segarv) segarv 0 s1 _ w1 Hfork)).
    rewrite (bind_run (gets fds) _ _ f (with_world s1 w1)) by done.
    destruct (make_pipes_spec _ _ _ _ _ _ Hpipes) as (_&Hc&_). rewrite Hc.
    set (s2 := mk_shell (rc s) (alias_hm s) (history_da s) (env s) (out s) (err s) (fds s) w1).
    rewrite (bind_run (set_fds (fds s)) _ _ tt s2) by done.
    rewrite fmap_app, last_app. simpl. destruct (wait_stages_last p pids Hp s2 1) as (s3&E3&Hf3&Ha3&Hh3&He3&_).
    rewrite fmap_app in E3. rewrite (bind_run _ _ _ _ _ E3). eexists. split; [reflexivity|]. done.
Qed.

(** The lines a script is read as. *)
Fixpoint lines_of (fuel : nat) (b : list byte) : list cstr :=
  match fuel with
  | O => []
  | S fuel' => match fgets MAX_LINE b with None => [] | Some (line, rest) => line :: lines_of fuel' rest end
  end.

(** Every line of the script fits at the time it is run. *)
Fixpoint script_fits (fuel : nat) (b : list byte) (s : shell W) : Prop :=
  match fuel with
  | O => True
  | S fuel' =>
      match fgets MAX_LINE b with
      | None => True
      | Some (line, rest) =>
          line_fits (alias_hm s) line ∧ ∀ s', run_line line s = Some (None, s') → script_fits fuel' rest s'
      end
  end.

Lemma fgets_loop_length n b : length (fgets_loop n b).2 ≤ length b.
Proof.
  revert b. induction n as [|n IH]; intros [|c b]; simpl; [lia..|]. case_decide; simpl; [lia|].
  specialize (IH b). destruct (fgets_loop n b). simpl in *. lia.
Qed.

Lemma fgets_loop_cons n c b : length (fgets_loop (S n) (c :: b)).2 ≤ length b.
Proof.
  simpl. case_decide; [done|]. pose proof (fgets_loop_length n b) as Hl.
  by destruct (fgets_loop n b).
Qed.

(** Every line read consumes input. *)
Lemma fgets_shorter b line rest : fgets MAX_LINE b = Some (line, rest) → length rest < length b.
Proof.
  unfold fgets. destruct b as [|c b]; [done|]. pose proof (fgets_loop_cons (MAX_LINE - 2) c b) as Hl.
  change (S (MAX_LINE - 2)) with (MAX_LINE - 1) in Hl. revert Hl.
  destruct (fgets_loop (MAX_LINE - 1) (c :: b)) as [l r]. intros Hl [= _ <-]. simpl in *. lia.
Qed.

Lemma batch_loop_run n : ∀ b hist s,
  (∀ w c, is_Some (fork w c).1) → shell_ok hist s → length b < n → script_fits n b s →
  (Z.of_nat (length hist + length b) < 2 ^ 58)%Z →
  ∃ r s', batch_loop n b s = Some (r, s') ∧
    match r with
    | None => shell_ok (hist ++ (chomp <$> lines_of n b)) s'
    | Some code => zero_or_one code
    end.
Proof.
  induction n as [|n IH]; intros b hist s Hf Hok Hb Hfit Hl; [lia|]. simpl in Hfit |- *.
  destruct (fgets MAX_LINE b) as [[line rest]|] eqn:E.
  2: { eexists None, s. split; [done|]. simpl. by rewrite app_nil_r. }
  pose proof (fgets_shorter _ _ _ E) as Hr. destruct Hfit as [Hfit Hnext].
  destruct (wp_elim _ _ _ (run_line_wp hist line ltac:(lia) s Hf Hok Hfit)) as (r&s1&E1&H1).
  rewrite (bind_run _ _ _ _ _ E1). destruct r as [code|].
  { eexists (Some code), s1. split; [done|]. apply H1. }
  destruct (IH rest (hist ++ [chomp line]) s1) as (r&s2&E2&H2); [done|done|lia|by apply Hnext| |].
  { rewrite length_app. simpl. lia. }
  exists r, s2. split; [done|]. destruct r; [done|]. by rewrite <- app_assoc in H2.
Qed.

(** A script is run to its end: [batch_main] terminates, reading the file
    in lines of at most [MAX_LINE - 1] bytes, and returns the last status (1
    after a read error) with all of its lines in the history, or the status
    the script exited with. *)
Theorem batch_main_total (hist : list cstr) (fp : stream) (s : shell W)
  (Hfork : ∀ w c, is_Some (fork w c).1) (Hok : shell_ok hist s)
  (Hfit : script_fits (S (length (bytes fp))) (bytes fp) s)
  (Hlen : (Z.of_nat (length hist + length (bytes fp)) < 2 ^ 58)%Z) :
  ∃ r s', batch_main (Some fp) s = Some (r, s') ∧
    match r with
    | inl r => shell_ok (hist ++ (chomp <$> lines_of (S (length (bytes fp))) (bytes fp))) s' ∧
               r = if read_error fp then EXIT_FAILURE else rc s'
    | inr code => zero_or_one code
    end.
Proof.
  destruct (batch_loop_run (S (length (bytes fp))) (bytes fp) hist s) as (r&s1&E1&H1); [done|done|lia|done|done|].
  unfold batch_main. rewrite (bind_run _ _ _ _ _ E1). destruct r as [code|]; [by eexists (inr code), s1|].
  destruct (read_error fp); [by eexists (inl _), s1|].
  eexists (inl _), s1. split; [reflexivity|done].
Qed.

(** An alias with an empty value is a trap: after [alias e =], which is
    accepted, the line [e] makes the shell dereference a null pointer. *)
Theorem empty_alias_faults (hist : list cstr) (s : shell W) (Hok : shell_ok hist s)
  (Hlen : (Z.of_nat (length hist) < 2 ^ 58)%Z) (Ha : hm_get (alias_hm s) (cs "alias") = None) :
  ∃ s1, run_line (cs "alias e =") s = Some (None, s1) ∧ run_line (cs "e") s1 = None.
Proof.
  pose (s0 := mk_shell EXIT_SUCCESS (hm_put (alias_hm s) (cs "e") []) (history_da s) (env s) (out s) (err s) (fds s) (world s)).
  assert (shell_ok hist s0) as Hok0.
  { destruct Hok. split; [by apply hm_put_ok|done|apply zero_or_one_success]. }
  destruct (add_history_run hist (cs "alias e =") s0 Hok0 Hlen) as (s1&E1&Hok1&Ha1&_&_).
  exists s1. split.
  - change (run_line (cs "alias e =")) with (run_single (cs "alias e =") (cs "alias e =")). unfold run_single.
    rewrite (bind_run (parse_args _) _ s [cs "alias"; cs "e"; cs "="] s) by reflexivity.
    rewrite (bind_run _ _ _ _ _ (expand_none _ _ s Ha)).
    change (is_builtin _) with true. cbv iota.
    rewrite (bind_run (try_run_builtin _) _ s Ran s0) by reflexivity. by rewrite (bind_run _ _ _ _ _ E1).
  - assert (hm_get (alias_hm s1) (cs "e") = Some []) as Ee.
    { rewrite Ha1. simpl. rewrite hm_get_map by (by apply hm_put_ok; destruct Hok).
      rewrite hm_map_put by (by destruct Hok). by rewrite lookup_insert_eq. }
    change (run_line (cs "e")) with (run_single (cs "e") (cs "e")). unfold run_single.
    rewrite (bind_run (parse_args _) _ s1 [cs "e"] s1) by reflexivity.
    rewrite (bind_run _ _ _ _ _ (expand_some _ [] _ [] s1 Ee eq_refl)). reflexivity.
Qed.

End shell.

(** * A system to run the shell on *)

(** One executable, every directory change and fork succeeds, every command
    exits with status 0; the state numbers the processes. *)
Definition demo_os : OS nat := {|
  access_x := λ _ p, streq p (cs "/bin/ls");
  chdir := λ w _, Some w;
  open_max := λ _, 64;
  fork := λ w _, (Some (Z.of_nat w), S w);
  waitpid := λ w _, (Some 0%Z, w);
|}.

Definition demo_fds : fdtable := <[0 := Inherited 0]> (<[1 := Inherited 1]> (<[2 := Inherited 2]> ∅)).
Definition demo_shell : shell nat :=
  mk_shell 0 hm_create None (<[cs "PATH" := cs "/bin"]> ∅) [] [] demo_fds 100.

Lemma demo_shell_ok : shell_ok [] demo_shell.
Proof. split; [apply hm_create_ok|done|by left]. Qed.

Lemma which_agrees_witness :
  ∃ p r s1 s2, resolve_exec_path (H := demo_os) (cs "ls") demo_shell = Some (p, s2) ∧
    bi_which (H := demo_os) [cs "which"; cs "ls"] demo_shell = Some (r, s1) ∧
    match p with
    | Some path => r = EXIT_SUCCESS ∧ out s1 = out demo_shell ++ WHICH_EXTERNAL (cs "ls") path
    | None => r = EXIT_FAILURE ∧ out s1 = out demo_shell ++ WHICH_NOT_FOUND (cs "ls")
    end.
Proof. by apply (which_agrees (H := demo_os) (cs "ls") demo_shell). Defined.

Lemma alias_expands_witness :
  ∃ s1 s2, try_run_builtin (H := demo_os) [cs "alias"; cs "ll"; cs "="; cs "ls -l"] demo_shell = Some (Ran, s1) ∧
    rc s1 = EXIT_SUCCESS ∧
    (∀ args, expand_alias_first_token (cs "ll" :: args) s1 = Some ([cs "ls"; cs "-l"] ++ args, s1)) ∧
    (∀ other args, other ≠ cs "ll" →
       expanded (alias_hm s1) (other :: args) = expanded (alias_hm demo_shell) (other :: args)) ∧
    try_run_builtin (H := demo_os) [cs "unalias"; cs "ll"] s1 = Some (Ran, s2) ∧
    (∀ args, expand_alias_first_token (cs "ll" :: args) s2 = Some (cs "ll" :: args, s2)).
Proof. apply (alias_expands (H := demo_os)); [apply hm_create_ok|by vm_compute|done]. Defined.

(** A shell that has run one line. *)
Definition demo_shell_ls : shell nat :=
  mk_shell 0 hm_create (Some (mk_da (Some (Some (cs "ls")) :: replicate 7 None) 1 8)) ∅ [] [] demo_fds 100.

Lemma demo_shell_ls_ok : shell_ok [cs "ls"] demo_shell_ls.
Proof.
  split; [apply hm_create_ok| |by left]. split; simpl; [by exists (replicate 7 None)|done|done|done].
Qed.

Lemma history_nth_witness :
  ∃ s', try_run_builtin (H := demo_os) [cs "history"; decimal (Z.of_nat 0 + 1)] demo_shell_ls = Some (Ran, s') ∧
    rc s' = EXIT_SUCCESS ∧ out s' = out demo_shell_ls ++ cs "ls" ++ [NEWLINE].
Proof. by apply (history_nth (H := demo_os) [cs "ls"] 0 _ demo_shell_ls_ok). Defined.

Lemma demo_forks : ∀ w c, is_Some (@fork nat demo_os w c).1.
Proof. intros. eexists. reflexivity. Qed.

Definition demo_line : cstr := cs "ls 'a b' | ls" ++ [NEWLINE].

(** With no aliases, a line fits when its segments can be parsed. *)
Lemma fits_fresh line :
  match split_pipeline line MAX_SEGS with
  | Some segs => forallb (λ seg, bool_decide (is_Some (parseline_no_subst (Some seg)))) segs
  | None => true
  end = true → line_fits hm_create line.
Proof.
  intros E segs Es. rewrite Es in E. apply Forall_forall. intros seg Hseg. split.
  - apply (bool_decide_eq_true_1 (is_Some _)). rewrite forallb_forall in E. by apply E, list_elem_of_In.
  - intros name args _ v Hv. by rewrite hm_get_map in Hv by apply hm_create_ok.
Qed.

Lemma demo_line_fits : line_fits hm_create demo_line.
Proof. apply fits_fresh. vm_compute. reflexivity. Qed.

Lemma run_line_total_witness :
  ∃ r s', run_line (H := demo_os) demo_line demo_shell = Some (r, s') ∧
    match r with
    | None => shell_ok ([] ++ [chomp demo_line]) s'
    | Some code => zero_or_one code ∧ shell_ok [] s'
    end.
Proof.
  apply (run_line_total (H := demo_os)); [apply demo_forks|apply demo_shell_ok|apply demo_line_fits|done].
Defined.

Lemma run_pipeline_wiring_witness :
  ∃ children : list (child nat), length children = 3 ∧
  (∀ i c, children !! i = Some c → ch_fds c = stage_fds 3 i demo_fds) ∧
  ∃ s', run_pipeline (H := demo_os) [[cs "ls"]; [cs "ls"]; [cs "ls"]] demo_shell = Some (tt, s') ∧ fds s' = demo_fds ∧
    alias_hm s' = hm_create ∧ history_da s' = None ∧ env s' = env demo_shell ∧ rc s' = EXIT_SUCCESS.
Proof.
  eexists. split; [|apply (run_pipeline_wiring (H := demo_os) [[cs "ls"]; [cs "ls"]; [cs "ls"]] demo_shell
    [(3, 4); (5, 6)] (<[6 := Pipe_write 1]> (<[5 := Pipe_read 1]> (<[4 := Pipe_write 0]> (<[3 := Pipe_read 0]> demo_fds))))
    [100; 101]%Z 102%Z 103)].
  - reflexivity.
  - eexists. reflexivity.
  - eexists. reflexivity.
  - reflexivity.
  - reflexivity.
  - apply (bool_decide_eq_true_1 (_ ∉ _)). reflexivity.
Defined.

Definition demo_script : stream := mk_stream (cs "ls" ++ [NEWLINE] ++ cs "cd /tmp") false.

(** Running the first line leaves the table empty. *)
Lemma demo_script_first s' :
  run_line (H := demo_os) (cs "ls" ++ [NEWLINE]) demo_shell = Some (None, s') → alias_hm s' = hm_create.
Proof.
  intros E. assert (alias_hm <$> (snd <$> run_line (H := demo_os) (cs "ls" ++ [NEWLINE]) demo_shell) = Some hm_create) as E'
    by (vm_compute; reflexivity).
  rewrite E in E'. by injection E'.
Qed.

Lemma script_fits_line n b line rest s :
  fgets MAX_LINE b = Some (line, rest) → line_fits (alias_hm s) line →
  (∀ s', run_line (H := demo_os) line s = Some (None, s') → script_fits (H := demo_os) n rest s') →
  script_fits (H := demo_os) (S n) b s.
Proof. intros E. simpl. by rewrite E. Qed.

Lemma demo_script_fits : script_fits (H := demo_os) (S (length (bytes demo_script))) (bytes demo_script) demo_shell.
Proof.
  apply (script_fits_line _ _ (cs "ls" ++ [NEWLINE]) (cs "cd /tmp")); [vm_compute; reflexivity| |].
  { apply fits_fresh. vm_compute. reflexivity. }
  intros s' E. apply (script_fits_line _ _ (cs "cd /tmp") []); [vm_compute; reflexivity| |].
  { rewrite (demo_script_first s' E). apply fits_fresh. vm_compute. reflexivity. }
  intros s'' _. done.
Qed.

Lemma batch_main_total_witness :
  ∃ r s', batch_main (H := demo_os) (Some demo_script) demo_shell = Some (r, s') ∧
    match r with
    | inl r => shell_ok ([] ++ (chomp <$> lines_of (S (length (bytes demo_script))) (bytes demo_script))) s' ∧
               r = if read_error demo_script then EXIT_FAILURE else rc s'
    | inr code => zero_or_one code
    end.
Proof.
  apply (batch_main_total (H := demo_os)); [apply demo_forks|apply demo_shell_ok|apply demo_script_fits|].
  vm_compute. reflexivity.
Defined.

Lemma empty_alias_faults_witness :
  ∃ s1, run_line (H := demo_os) (cs "alias e =") demo_shell = Some (None, s1) ∧
    run_line (H := demo_os) (cs "e") s1 = None.
Proof. by apply (empty_alias_faults (H := demo_os) [] demo_shell demo_shell_ok). Defined.
