(* ===== verification/Counting.v ===== *)
(** Sums over the threads of a system, and how one step changes them. *)

From stdpp Require Import base option list numbers.
From Stdlib Require Import ZArith Lia.
Local Open Scope Z_scope.

Section total.
Context {A : Type}.
Implicit Types (f g : A → Z) (ts : list A) (t u : A).

Definition total (f : A → Z) (ts : list A) : Z := foldr (λ t n, f t + n) 0 ts.

Lemma total_insert f ts i t t' : ts !! i = Some t → total f (<[i := t']> ts) = total f ts - f t + f t'.
Proof.
  revert i. induction ts as [|u ts IH]; intros [|i] Hi; simpl in *; [done|done| |].
  - injection Hi as ->. lia.
  - rewrite (IH i Hi). lia.
Qed.

Lemma total_nonneg f ts : (∀ t, 0 ≤ f t) → 0 ≤ total f ts.
Proof. intros H. induction ts as [|t ts IH]; simpl; [lia|]. specialize (H t). lia. Qed.

Lemma total_mono f g ts : (∀ t, f t ≤ g t) → total f ts ≤ total g ts.
Proof. intros H. induction ts as [|t ts IH]; simpl; [lia|]. specialize (H t). lia. Qed.

Lemma total_delete f ts i t : ts !! i = Some t → total f ts = f t + total f (delete i ts).
Proof.
  revert i. induction ts as [|u ts IH]; intros [|i] Hi; simpl in *; [done|done| |].
  - by injection Hi as ->.
  - rewrite (IH i Hi). lia.
Qed.

Lemma total_lookup f ts i t : (∀ t, 0 ≤ f t) → ts !! i = Some t → f t ≤ total f ts.
Proof. intros H Hi. pose proof (total_nonneg f (delete i ts) H). rewrite (total_delete f ts i t Hi). lia. Qed.

Lemma total_lookup_2 f ts i j t u :
  (∀ t, 0 ≤ f t) → i ≠ j → ts !! i = Some t → ts !! j = Some u → f t + f u ≤ total f ts.
Proof.
  intros H. revert i j. induction ts as [|v ts IH]; intros [|i] [|j] Hij Hi Hj; simpl in *; try done.
  - injection Hi as ->. pose proof (total_lookup f ts j u H Hj). lia.
  - injection Hj as ->. pose proof (total_lookup f ts i t H Hi). lia.
  - pose proof (H v). assert (f t + f u ≤ total f ts); [|lia]. apply (IH i j); [congruence|done|done].
Qed.

Lemma total_replicate f n t : total f (replicate n t) = Z.of_nat n * f t.
Proof. induction n as [|n IH]; simpl; lia. Qed.

Lemma total_app f ts us : total f (ts ++ us) = total f ts + total f us.
Proof. induction ts as [|t ts IH]; simpl; [done|]. lia. Qed.

End total.

Lemma b2z_range b : 0 ≤ Z.b2z b ≤ 1.
Proof. destruct b; simpl; lia. Qed.
