(* ===== verification/RwLock.v ===== *)
(** The writer-priority reader-writer lock (readers_writers.c, sync_utils.c) and
    the threads that use it, as an interleaving of their statements: every step
    runs one statement of one thread, and a thread that waits for a mutex or
    the semaphore has no step.  The number of threads and of their iterations
    is a parameter. *)

From stdpp Require Import base option list numbers.
From Stdlib Require Import ZArith Lia.
From S2P Require Import Prelude.

(** * Program points *)

(** The statement a thread runs next. *)
Inductive pc :=
  (* reader (): the loop head, the body around rw_rlock and rw_runlock *)
  | R_loop | R_count_lock | R_count | R_count_check | R_count_unlock | R_read
  | R_uncount_lock | R_uncount | R_uncount_unlock
  (* rw_rlock *)
  | RL_lock | RL_check | RL_enter | RL_enter_unlock | RL_back_unlock | RL_sleep
  (* rw_runlock *)
  | RU_lock | RU_dec | RU_test | RU_post | RU_unlock
  (* writer (): the loop head, the body around rw_wlock and rw_wunlock *)
  | W_loop | W_count_lock | W_count | W_count_check | W_count_unlock | W_load | W_store
  | W_uncount_lock | W_uncount | W_uncount_unlock
  (* rw_wlock *)
  | WL_lock | WL_announce | WL_test | WL_release | WL_wait | WL_relock | WL_retire | WL_take | WL_unlock
  (* rw_wunlock *)
  | WU_lock | WU_clear | WU_test | WU_post | WU_unlock
  (* the thread has returned *)
  | R_done | W_done.

Record thread := mk_thread {
  at_pc : pc;
  iter : Z;      (* the loop counter k *)
  local : Z;     (* the value loaded by schedule_version++ or read by a reader *)
}.

Record state := mk_state {
  (* rwlock_t *)
  m : bool;                (* the mutex is held *)
  wlock : Z;               (* the value of the semaphore *)
  readers : Z;
  writers_waiting : Z;
  writer_active : bool;
  (* the globals of the module *)
  instrumentation_mutex : bool;
  readers_in_cs : Z;
  writers_in_cs : Z;
  violation_count : Z;
  schedule_version : Z;
  threads : list thread;
}.

Definition READER_ROUNDS : Z := 5.
Definition WRITER_ROUNDS : Z := 3.

(** * Statements *)

(** The shared part of a state, and the thread that takes the step. *)
Definition goto (t : thread) (p : pc) : thread := mk_thread p (iter t) (local t).

Section updates.
Context (s : state) (i : nat).

(** The state after thread [i] becomes [t]. *)
Definition with_thread (t : thread) : state :=
  mk_state (m s) (wlock s) (readers s) (writers_waiting s) (writer_active s) (instrumentation_mutex s)
    (readers_in_cs s) (writers_in_cs s) (violation_count s) (schedule_version s) (<[i := t]> (threads s)).
Definition set_m (b : bool) : state :=
  mk_state b (wlock s) (readers s) (writers_waiting s) (writer_active s) (instrumentation_mutex s)
    (readers_in_cs s) (writers_in_cs s) (violation_count s) (schedule_version s) (threads s).
Definition set_wlock (v : Z) : state :=
  mk_state (m s) v (readers s) (writers_waiting s) (writer_active s) (instrumentation_mutex s)
    (readers_in_cs s) (writers_in_cs s) (violation_count s) (schedule_version s) (threads s).
Definition set_readers (v : Z) : state :=
  mk_state (m s) (wlock s) v (writers_waiting s) (writer_active s) (instrumentation_mutex s)
    (readers_in_cs s) (writers_in_cs s) (violation_count s) (schedule_version s) (threads s).
Definition set_waiting (v : Z) : state :=
  mk_state (m s) (wlock s) (readers s) v (writer_active s) (instrumentation_mutex s)
    (readers_in_cs s) (writers_in_cs s) (violation_count s) (schedule_version s) (threads s).
Definition set_active (b : bool) : state :=
  mk_state (m s) (wlock s) (readers s) (writers_waiting s) b (instrumentation_mutex s)
    (readers_in_cs s) (writers_in_cs s) (violation_count s) (schedule_version s) (threads s).
Definition set_inst (b : bool) : state :=
  mk_state (m s) (wlock s) (readers s) (writers_waiting s) (writer_active s) b
    (readers_in_cs s) (writers_in_cs s) (violation_count s) (schedule_version s) (threads s).
Definition set_counts (r w v : Z) : state :=
  mk_state (m s) (wlock s) (readers s) (writers_waiting s) (writer_active s) (instrumentation_mutex s)
    r w v (schedule_version s) (threads s).
Definition set_version (v : Z) : state :=
  mk_state (m s) (wlock s) (readers s) (writers_waiting s) (writer_active s) (instrumentation_mutex s)
    (readers_in_cs s) (writers_in_cs s) (violation_count s) v (threads s).
End updates.

(** [pthread_mutex_lock] has a step only when the mutex is free. *)
Definition lock_m (s : state) : option state := if m s then None else Some (set_m s true).
Definition lock_inst (s : state) : option state :=
  if instrumentation_mutex s then None else Some (set_inst s true).
(** [sem_wait] has a step only when the value is positive. *)
Definition sem_wait (s : state) : option state :=
  if bool_decide (0 < wlock s)%Z then Some (set_wlock s (wlock s - 1)) else None.
Definition sem_post (s : state) : state := set_wlock s (wlock s + 1).

Definition reader_step (s : state) (t : thread) : option (state * thread) :=
  let next s p := Some (s, goto t p) in
  match at_pc t with
  | R_loop => if bool_decide (iter t < READER_ROUNDS)%Z then next s RL_lock else next s R_done
  | R_count_lock => s ← lock_inst s; next s R_count
  | R_count => next (set_counts s (readers_in_cs s + 1) (writers_in_cs s) (violation_count s)) R_count_check
  | R_count_check =>
      let v := if bool_decide (0 < writers_in_cs s)%Z then (violation_count s + 1)%Z else violation_count s in
      next (set_counts s (readers_in_cs s) (writers_in_cs s) v) R_count_unlock
  | R_count_unlock => next (set_inst s false) R_read
  | R_read => Some (s, mk_thread R_uncount_lock (iter t) (schedule_version s))
  | R_uncount_lock => s ← lock_inst s; next s R_uncount
  | R_uncount => next (set_counts s (readers_in_cs s - 1) (writers_in_cs s) (violation_count s)) R_uncount_unlock
  | R_uncount_unlock => next (set_inst s false) RU_lock
  | _ => None
  end.

Definition rw_rlock (s : state) (t : thread) : option (state * thread) :=
  let next s p := Some (s, goto t p) in
  match at_pc t with
  | RL_lock => s ← lock_m s; next s RL_check
  | RL_check =>
      if negb (writer_active s) && bool_decide (writers_waiting s = 0)%Z
      then next s RL_enter else next s RL_back_unlock
  | RL_enter => next (set_readers s (readers s + 1)) RL_enter_unlock
  | RL_enter_unlock => next (set_m s false) R_count_lock
  | RL_back_unlock => next (set_m s false) RL_sleep
  | RL_sleep => next s RL_lock
  | _ => None
  end.

Definition rw_runlock (s : state) (t : thread) : option (state * thread) :=
  let next s p := Some (s, goto t p) in
  match at_pc t with
  | RU_lock => s ← lock_m s; next s RU_dec
  | RU_dec => next (set_readers s (readers s - 1)) RU_test
  | RU_test =>
      if bool_decide (readers s = 0)%Z && bool_decide (0 < writers_waiting s)%Z
      then next s RU_post else next s RU_unlock
  | RU_post => next (sem_post s) RU_unlock
  | RU_unlock => Some (set_m s false, mk_thread R_loop (iter t + 1) (local t))
  | _ => None
  end.

Definition writer_step (s : state) (t : thread) : option (state * thread) :=
  let next s p := Some (s, goto t p) in
  match at_pc t with
  | W_loop => if bool_decide (iter t < WRITER_ROUNDS)%Z then next s WL_lock else next s W_done
  | W_count_lock => s ← lock_inst s; next s W_count
  | W_count => next (set_counts s (readers_in_cs s) (writers_in_cs s + 1) (violation_count s)) W_count_check
  | W_count_check =>
      let v := if bool_decide (1 < writers_in_cs s)%Z || bool_decide (0 < readers_in_cs s)%Z
               then (violation_count s + 1)%Z else violation_count s in
      next (set_counts s (readers_in_cs s) (writers_in_cs s) v) W_count_unlock
  | W_count_unlock => next (set_inst s false) W_load
  | W_load => Some (s, mk_thread W_store (iter t) (schedule_version s))
  | W_store => next (set_version s (local t + 1)) W_uncount_lock
  | W_uncount_lock => s ← lock_inst s; next s W_uncount
  | W_uncount => next (set_counts s (readers_in_cs s) (writers_in_cs s - 1) (violation_count s)) W_uncount_unlock
  | W_uncount_unlock => next (set_inst s false) WU_lock
  | _ => None
  end.

Definition rw_wlock (s : state) (t : thread) : option (state * thread) :=
  let next s p := Some (s, goto t p) in
  match at_pc t with
  | WL_lock => s ← lock_m s; next s WL_announce
  | WL_announce => next (set_waiting s (writers_waiting s + 1)) WL_test
  | WL_test =>
      if writer_active s || bool_decide (0 < readers s)%Z then next s WL_release else next s WL_retire
  | WL_release => next (set_m s false) WL_wait
  | WL_wait => s ← sem_wait s; next s WL_relock
  | WL_relock => s ← lock_m s; next s WL_test
  | WL_retire => next (set_waiting s (writers_waiting s - 1)) WL_take
  | WL_take => next (set_active s true) WL_unlock
  | WL_unlock => next (set_m s false) W_count_lock
  | _ => None
  end.

Definition rw_wunlock (s : state) (t : thread) : option (state * thread) :=
  let next s p := Some (s, goto t p) in
  match at_pc t with
  | WU_lock => s ← lock_m s; next s WU_clear
  | WU_clear => next (set_active s false) WU_test
  | WU_test => if bool_decide (0 < writers_waiting s)%Z then next s WU_post else next s WU_unlock
  | WU_post => next (sem_post s) WU_unlock
  | WU_unlock => Some (set_m s false, mk_thread W_loop (iter t + 1) (local t))
  | _ => None
  end.

(** The function a program point belongs to. *)
Definition thread_step (s : state) (t : thread) : option (state * thread) :=
  match at_pc t with
  | R_loop | R_count_lock | R_count | R_count_check | R_count_unlock | R_read
  | R_uncount_lock | R_uncount | R_uncount_unlock => reader_step s t
  | RL_lock | RL_check | RL_enter | RL_enter_unlock | RL_back_unlock | RL_sleep => rw_rlock s t
  | RU_lock | RU_dec | RU_test | RU_post | RU_unlock => rw_runlock s t
  | W_loop | W_count_lock | W_count | W_count_check | W_count_unlock | W_load | W_store
  | W_uncount_lock | W_uncount | W_uncount_unlock => writer_step s t
  | WL_lock | WL_announce | WL_test | WL_release | WL_wait | WL_relock | WL_retire | WL_take | WL_unlock =>
      rw_wlock s t
  | WU_lock | WU_clear | WU_test | WU_post | WU_unlock => rw_wunlock s t
  | R_done | W_done => None
  end.

(** One step of thread [i]; [None] when it is blocked or has returned. *)
Definition step (i : nat) (s : state) : option state :=
  t ← threads s !! i; '(s', t') ← thread_step s t; Some (with_thread s' i t').

(** The globals before the module runs. *)
Definition board : state := mk_state false 0 0 0 false false 0 0 0 0 [].

(** [rw_init], given whether its two initialisations succeed. *)
Definition rw_init (mutex_ok sem_ok : bool) (s : state) : Z * state :=
  if mutex_ok && sem_ok
  then (0%Z, mk_state false 0 0 0 false (instrumentation_mutex s) (readers_in_cs s) (writers_in_cs s)
               (violation_count s) (schedule_version s) (threads s))
  else ((-1)%Z, s).

(** [schedule_run] up to its joins: the lock is initialised and the threads are
    spawned.  The joins return when every thread has returned. *)
Definition schedule_run (n_readers n_writers : nat) : state :=
  let s := (rw_init true true board).2 in
  mk_state (m s) (wlock s) (readers s) (writers_waiting s) (writer_active s) (instrumentation_mutex s)
    (readers_in_cs s) (writers_in_cs s) (violation_count s) (schedule_version s)
    (replicate n_readers (mk_thread R_loop 0 0) ++ replicate n_writers (mk_thread W_loop 0 0)).

(** The states an execution with any schedule passes through. *)
Inductive reachable (n_readers n_writers : nat) : state → Prop :=
  | reach_init : reachable n_readers n_writers (schedule_run n_readers n_writers)
  | reach_step i s s' :
      reachable n_readers n_writers s → step i s = Some s' → reachable n_readers n_writers s'.

(** Running a schedule: the threads that take the steps, in order. *)
Fixpoint run_schedule (sched : list nat) (s : state) : option state :=
  match sched with [] => Some s | i :: rest => step i s ≫= run_schedule rest end.
