(* ===== verification/RwInv.v ===== *)
(** The invariant of the reader-writer lock: its counters count the threads at
    the corresponding program points, a writer excludes everybody else, and a
    writer asleep on the semaphore is never forgotten. *)

From stdpp Require Import base option list numbers.
From Stdlib Require Import ZArith Lia.
From S2P Require Import Prelude Counting RwLock.
Local Open Scope Z_scope.

(** * Counting threads *)

Definition at_point (P : pc → bool) (t : thread) : Z := Z.b2z (P (at_pc t)).
(** The number of threads at the program points [P]. *)
Definition count (P : pc → bool) (s : state) : Z := total (at_point P) (threads s).

Lemma at_point_nonneg P t : 0 ≤ at_point P t.
Proof. unfold at_point. destruct (P _); simpl; lia. Qed.

Lemma count_nonneg P s : 0 ≤ count P s.
Proof. apply total_nonneg, at_point_nonneg. Qed.

Lemma count_mono P Q s : (∀ p, P p = true → Q p = true) → count P s ≤ count Q s.
Proof.
  intros H. apply total_mono. intros t. unfold at_point. specialize (H (at_pc t)).
  destruct (P _), (Q _); simpl in *; try lia; by specialize (H eq_refl).
Qed.

(** * Groups of program points *)

(** A thread that holds the mutex of the lock, or the instrumentation mutex. *)
Definition holds_m (p : pc) : bool :=
  match p with
  | RL_check | RL_enter | RL_enter_unlock | RL_back_unlock | RU_dec | RU_test | RU_post | RU_unlock
  | WL_announce | WL_test | WL_release | WL_retire | WL_take | WL_unlock
  | WU_clear | WU_test | WU_post | WU_unlock => true
  | _ => false
  end.
Definition holds_inst (p : pc) : bool :=
  match p with
  | R_count | R_count_check | R_count_unlock | R_uncount | R_uncount_unlock
  | W_count | W_count_check | W_count_unlock | W_uncount | W_uncount_unlock => true
  | _ => false
  end.
(** A reader that has entered and not left. *)
Definition reading (p : pc) : bool :=
  match p with
  | RL_enter_unlock | R_count_lock | R_count | R_count_check | R_count_unlock | R_read
  | R_uncount_lock | R_uncount | R_uncount_unlock | RU_lock | RU_dec => true
  | _ => false
  end.
(** A reader about to enter. *)
Definition entering (p : pc) : bool := match p with RL_enter => true | _ => false end.
(** A writer that has announced itself and has not got the lock. *)
Definition waiting (p : pc) : bool :=
  match p with WL_test | WL_release | WL_wait | WL_relock | WL_retire => true | _ => false end.
(** A writer that has found the lock free and is taking it. *)
Definition taking (p : pc) : bool := match p with WL_retire | WL_take => true | _ => false end.
(** A writer that has found the lock taken, and one that sleeps for it. *)
Definition releasing (p : pc) : bool := match p with WL_release => true | _ => false end.
Definition asleep (p : pc) : bool := match p with WL_wait => true | _ => false end.
(** A writer that has the lock. *)
Definition writing (p : pc) : bool :=
  match p with
  | WL_unlock | W_count_lock | W_count | W_count_check | W_count_unlock | W_load | W_store
  | W_uncount_lock | W_uncount | W_uncount_unlock | WU_lock | WU_clear => true
  | _ => false
  end.
(** A thread that is about to test whether to wake or to take the lock. *)
Definition attending (p : pc) : bool :=
  match p with
  | WL_relock | WL_test | WL_retire | WL_take | RU_test | RU_post | WU_test | WU_post => true
  | _ => false
  end.
(** The threads the instrumentation counts. *)
Definition counted_reader (p : pc) : bool :=
  match p with R_count_check | R_count_unlock | R_read | R_uncount_lock | R_uncount => true | _ => false end.
Definition counted_writer (p : pc) : bool :=
  match p with
  | W_count_check | W_count_unlock | W_load | W_store | W_uncount_lock | W_uncount => true | _ => false end.

(** A thread that holds the mutex for another reason than these. *)
Definition holds_other (p : pc) : bool := holds_m p && negb (taking p || entering p || releasing p).

Lemma count_holds_m s :
  count holds_m s = count taking s + count entering s + count releasing s + count holds_other s.
Proof.
  unfold count. induction (threads s) as [|[p k l] ts IH]; simpl; [done|]. rewrite IH. unfold at_point. simpl.
  destruct p; simpl; lia.
Qed.

(** * The invariant *)

Record lock_inv (s : state) : Prop := {
  inv_m : Z.b2z (m s) = count holds_m s;
  inv_readers : readers s = count reading s;
  inv_waiting : writers_waiting s = count waiting s;
  inv_active : Z.b2z (writer_active s) = count writing s;
  inv_taking : 0 < count taking s → readers s = 0 ∧ Z.b2z (writer_active s) = 0;
  inv_entering : 0 < count entering s → writers_waiting s = 0 ∧ Z.b2z (writer_active s) = 0;
  inv_excludes : 0 < Z.b2z (writer_active s) → readers s = 0;
  inv_releasing : 0 < count releasing s → 0 < Z.b2z (writer_active s) ∨ 0 < readers s;
  inv_wakeup : Z.b2z (writer_active s) = 0 → readers s = 0 → 0 < count asleep s →
    1 ≤ wlock s + count attending s;
  inv_wlock : 0 ≤ wlock s;
}.

(** The thread that takes a step, and the counts around the step. *)
Lemma count_with_thread P s s1 i t t' :
  threads s !! i = Some t → threads s1 = threads s →
  count P (with_thread s1 i t') = count P s - at_point P t + at_point P t'.
Proof. intros Hi E. unfold count. simpl. rewrite E. by apply total_insert. Qed.

Lemma count_lookup P s i t : threads s !! i = Some t → at_point P t ≤ count P s.
Proof. apply total_lookup, at_point_nonneg. Qed.

(** The facts about a group of program points that a step can use. *)
Ltac count_facts P s Hi :=
  pose proof (count_nonneg P s); pose proof (count_lookup P s _ _ Hi).

Lemma step_inv i s s' : step i s = Some s' → ∃ t s1 t',
  threads s !! i = Some t ∧ thread_step s t = Some (s1, t') ∧ s' = with_thread s1 i t'.
Proof.
  unfold step. destruct (threads s !! i) as [t|] eqn:Hi; [|done]. simpl. intros E.
  destruct (thread_step s t) as [[s1 t']|] eqn:Et; [|done]. injection E as <-. eauto 6.
Qed.

(** The statement of a thread at a known program point. *)
Tactic Notation "unfold_step" :=
  cbv [thread_step reader_step rw_rlock rw_runlock writer_step rw_wlock rw_wunlock at_pc iter local
    lock_m lock_inst sem_wait goto].
Tactic Notation "unfold_step" "in" hyp(E) :=
  cbv [thread_step reader_step rw_rlock rw_runlock writer_step rw_wlock rw_wunlock at_pc iter local
    lock_m lock_inst sem_wait goto] in E.

(** All ways a thread can take a step: the program point is known, the guards
    are hypotheses, the next state and thread are computed. *)
Ltac step_cases E t :=
  let p := fresh "p" in let k := fresh "k" in let l := fresh "l" in
  destruct t as [p k l]; destruct p; unfold_step in E; try discriminate E;
  repeat (match type of E with context[if ?b then _ else _] => destruct b eqn:? end;
          cbn [mbind option_bind] in E; try discriminate E);
  injection E as <- <-.

(** Guards as arithmetic facts. *)
Ltac guards :=
  repeat match goal with
  | H : _ && _ = true |- _ => apply andb_true_iff in H as [? ?]
  | H : _ && _ = false |- _ => apply andb_false_iff in H
  | H : _ || _ = true |- _ => apply orb_true_iff in H
  | H : _ || _ = false |- _ => apply orb_false_iff in H as [? ?]
  | H : negb _ = true |- _ => apply negb_true_iff in H
  | H : negb _ = false |- _ => apply negb_false_iff in H
  | H : bool_decide _ = true |- _ => apply bool_decide_eq_true in H
  | H : bool_decide _ = false |- _ => apply bool_decide_eq_false in H
  | H : _ ∨ _ |- _ => destruct H
  | H : m _ = _ |- _ => apply (f_equal Z.b2z) in H; simpl in H
  | H : writer_active _ = _ |- _ => apply (f_equal Z.b2z) in H; simpl in H
  | H : instrumentation_mutex _ = _ |- _ => apply (f_equal Z.b2z) in H; simpl in H
  end.

(** The contribution of a thread at a known program point. *)
Ltac eval_points :=
  repeat match goal with
  | H : context [at_point ?P ?t] |- _ =>
      let v := eval vm_compute in (at_point P t) in change (at_point P t) with v in H
  end.

Lemma lock_inv_step i s s' : lock_inv s → step i s = Some s' → lock_inv s'.
Proof.
  intros [Im Ir Iw Ia It Ie Ix Il Iu I0] (t&s1&t'&Hi&E&->)%step_inv.
  count_facts holds_m s Hi. count_facts reading s Hi. count_facts waiting s Hi. count_facts writing s Hi.
  count_facts taking s Hi. count_facts entering s Hi. count_facts releasing s Hi. count_facts asleep s Hi.
  count_facts attending s Hi. count_facts holds_other s Hi. pose proof (count_holds_m s).
  pose proof (b2z_range (m s)). pose proof (b2z_range (writer_active s)).
  assert (count asleep s ≤ count waiting s) by (apply count_mono; by intros []).
  pose proof (λ P, count_with_thread P s s1 i t t' Hi) as Hc. clear Hi.
  step_cases E t; guards;
    pose proof (Hc holds_m eq_refl); pose proof (Hc reading eq_refl); pose proof (Hc waiting eq_refl);
    pose proof (Hc writing eq_refl); pose proof (Hc taking eq_refl); pose proof (Hc entering eq_refl);
    pose proof (Hc releasing eq_refl); pose proof (Hc asleep eq_refl); pose proof (Hc attending eq_refl);
    clear Hc; eval_points.
  all: cbn [Z.b2z] in *; split; simpl; lia.
Qed.

(** * The instrumentation and the schedule *)

(** A writer of this round that has stored the new version. *)
Definition stored (p : pc) : bool :=
  match p with
  | W_uncount_lock | W_uncount | W_uncount_unlock | WU_lock | WU_clear | WU_test | WU_post | WU_unlock => true
  | _ => false
  end.
Definition is_writer (p : pc) : bool :=
  match p with
  | W_loop | W_count_lock | W_count | W_count_check | W_count_unlock | W_load | W_store
  | W_uncount_lock | W_uncount | W_uncount_unlock
  | WL_lock | WL_announce | WL_test | WL_release | WL_wait | WL_relock | WL_retire | WL_take | WL_unlock
  | WU_lock | WU_clear | WU_test | WU_post | WU_unlock | W_done => true
  | _ => false
  end.

(** The updates a thread has made. *)
Definition updates (t : thread) : Z := if is_writer (at_pc t) then iter t + at_point stored t else 0.

Definition rounds (t : thread) : Z := if is_writer (at_pc t) then WRITER_ROUNDS else READER_ROUNDS.
(** The loop counter of a thread is in the range of its loop. *)
Definition iter_ok (t : thread) : Prop :=
  match at_pc t with
  | R_loop | W_loop => 0 ≤ iter t ≤ rounds t
  | R_done | W_done => iter t = rounds t
  | _ => 0 ≤ iter t < rounds t
  end.

Record use_inv (s : state) : Prop := {
  inv_inst : Z.b2z (instrumentation_mutex s) = count holds_inst s;
  inv_readers_in : readers_in_cs s = count counted_reader s;
  inv_writers_in : writers_in_cs s = count counted_writer s;
  inv_violation : violation_count s = 0;
  inv_version : schedule_version s = total updates (threads s);
  inv_store : ∀ i t, threads s !! i = Some t → at_pc t = W_store → local t = schedule_version s;
  inv_iter : Forall iter_ok (threads s);
}.

(** Only one thread has the lock while a writer has it. *)
Lemma writer_alone i j t u s :
  lock_inv s → i ≠ j → threads s !! i = Some t → threads s !! j = Some u →
  writing (at_pc t) = true → writing (at_pc u) = false ∧ reading (at_pc u) = false.
Proof.
  intros I Hij Hi Hj Ht.
  pose proof (total_lookup_2 (at_point writing) _ _ _ _ _ (at_point_nonneg _) Hij Hi Hj) as H2.
  change (total (at_point writing) (threads s)) with (count writing s) in H2.
  unfold at_point in H2. rewrite Ht in H2.
  pose proof (inv_active _ I). pose proof (b2z_range (writer_active s)).
  pose proof (inv_excludes _ I). pose proof (inv_readers _ I).
  pose proof (count_lookup reading s j u Hj) as Hr. unfold at_point in Hr.
  destruct (writing (at_pc u)), (reading (at_pc u)); simpl in *; try done; lia.
Qed.

Lemma use_inv_counts i s s' :
  lock_inv s → use_inv s → step i s = Some s' →
  Z.b2z (instrumentation_mutex s') = count holds_inst s' ∧ readers_in_cs s' = count counted_reader s' ∧
  writers_in_cs s' = count counted_writer s' ∧ violation_count s' = 0.
Proof.
  intros I [Hn Hr Hw Hv _ _ _] (t&s1&t'&Hi&E&->)%step_inv.
  pose proof (inv_active _ I). pose proof (inv_readers _ I). pose proof (inv_excludes _ I). clear I.
  count_facts holds_inst s Hi. count_facts counted_reader s Hi. count_facts counted_writer s Hi.
  count_facts reading s Hi. count_facts writing s Hi.
  pose proof (b2z_range (instrumentation_mutex s)). pose proof (b2z_range (writer_active s)).
  assert (count counted_reader s ≤ count reading s) by (apply count_mono; by intros []).
  assert (count counted_writer s ≤ count writing s) by (apply count_mono; by intros []).
  pose proof (λ P, count_with_thread P s s1 i t t' Hi) as Hc. clear Hi.
  step_cases E t; guards; pose proof (Hc holds_inst eq_refl); pose proof (Hc counted_reader eq_refl);
    pose proof (Hc counted_writer eq_refl); clear Hc; eval_points.
  all: cbn [Z.b2z] in *; split_and!; simpl; lia.
Qed.

Lemma thread_step_threads s t s1 t' : thread_step s t = Some (s1, t') → threads s1 = threads s.
Proof. intros E. by step_cases E t. Qed.

Lemma iter_ok_step s t s1 t' : thread_step s t = Some (s1, t') → iter_ok t → iter_ok t'.
Proof.
  intros E. step_cases E t; guards; unfold iter_ok, rounds, READER_ROUNDS, WRITER_ROUNDS in *; simpl; lia.
Qed.

Lemma version_step s t s1 t' :
  thread_step s t = Some (s1, t') → (at_pc t = W_store → local t = schedule_version s) →
  schedule_version s1 - schedule_version s = updates t' - updates t.
Proof.
  intros E. step_cases E t; intros Hl; unfold updates, at_point; simpl in *; try lia.
  rewrite Hl by done. lia.
Qed.

Lemma version_store s t s1 t' :
  thread_step s t = Some (s1, t') →
  (at_pc t' = W_store → local t' = schedule_version s1) ∧
  (at_pc t = W_store ∨ schedule_version s1 = schedule_version s).
Proof. intros E. step_cases E t; simpl; (split; [done|first [by left|by right]]). Qed.

Lemma use_inv_step i s s' : lock_inv s → use_inv s → step i s = Some s' → use_inv s'.
Proof.
  intros I U E. destruct (use_inv_counts i s s' I U E) as (?&?&?&?).
  apply step_inv in E as (t&s1&t'&Hi&E&->). destruct U as [_ _ _ _ Hv Hs Hk].
  pose proof (thread_step_threads _ _ _ _ E) as Et. split; try done; simpl; rewrite Et.
  - rewrite (total_insert _ _ _ _ _ Hi). pose proof (version_step _ _ _ _ E (Hs i t Hi)). lia.
  - intros j u [(<-&<-&_)|[Hij Hj]]%list_lookup_insert_Some Hu; [by apply (version_store _ _ _ _ E)|].
    destruct (version_store _ _ _ _ E) as [_ [Ht| ->]]; [|by apply (Hs j)].
    destruct (writer_alone i j t u s) as [Hw _]; [done|done|done|done|by rewrite Ht|by rewrite Hu in Hw].
  - apply Forall_insert; [done|]. eapply iter_ok_step; [exact E|]. by eapply Forall_lookup_1.
Qed.

(** * Reachable states *)

Lemma count_start P nr nw :
  count P (schedule_run nr nw) = Z.of_nat nr * Z.b2z (P R_loop) + Z.of_nat nw * Z.b2z (P W_loop).
Proof. unfold count. simpl. by rewrite total_app, !total_replicate. Qed.

Lemma reachable_inv nr nw s : reachable nr nw s → lock_inv s ∧ use_inv s.
Proof.
  induction 1 as [|i s s' _ [I U] E].
  - split; split; rewrite ?count_start; simpl; try lia.
    + rewrite total_app, !total_replicate. unfold updates, at_point. simpl. lia.
    + intros i t [Hi|[_ Hi]]%lookup_app_Some; by apply lookup_replicate in Hi as [-> _].
    + apply Forall_app. split; apply Forall_replicate; unfold iter_ok, rounds, READER_ROUNDS, WRITER_ROUNDS; simpl; lia.
  - split; [by eapply lock_inv_step|by eapply use_inv_step].
Qed.

(** The kinds of the threads never change. *)
Lemma reachable_writers nr nw s :
  reachable nr nw s → count is_writer s = Z.of_nat nw ∧ Z.of_nat (length (threads s)) = Z.of_nat nr + Z.of_nat nw.
Proof.
  induction 1 as [|i s s' _ [Hw Hl] E].
  - rewrite count_start. simpl. rewrite length_app, !length_replicate. lia.
  - apply step_inv in E as (t&s1&t'&Hi&E&->). pose proof (thread_step_threads _ _ _ _ E) as Et.
    rewrite (count_with_thread _ s s1 i t t' Hi Et). simpl. rewrite length_insert, Et.
    assert (at_point is_writer t' = at_point is_writer t) by (by step_cases E t). lia.
Qed.
