(* ===== verification/RwLive.v ===== *)
(** Liveness of the reader-writer lock: a measure that decreases in every step
    except in the back-off loop of a reader, and the fact that from every
    reachable state the threads can run to their ends. *)

From stdpp Require Import base option list numbers.
From Stdlib Require Import ZArith Lia.
From S2P Require Import Prelude Counting RwLock RwInv.
Local Open Scope Z_scope.

(** * The measure *)

(** A bound on the work left in the current round; constant in the back-off loop
    of a reader. *)
Definition left_in_round (p : pc) : Z :=
  match p with
  | R_loop => 99 | RL_lock | RL_check | RL_back_unlock | RL_sleep => 98 | RL_enter => 97 | RL_enter_unlock => 96
  | R_count_lock => 95 | R_count => 94 | R_count_check => 93 | R_count_unlock => 92 | R_read => 91
  | R_uncount_lock => 90 | R_uncount => 89 | R_uncount_unlock => 88
  | RU_lock => 87 | RU_dec => 86 | RU_test => 85 | RU_post => 84 | RU_unlock => 70
  | W_loop => 99 | WL_lock => 98 | WL_announce => 97 | WL_relock => 96 | WL_test => 95 | WL_release => 94
  | WL_wait => 93 | WL_retire => 92 | WL_take => 91 | WL_unlock => 90
  | W_count_lock => 89 | W_count => 88 | W_count_check => 87 | W_count_unlock => 86 | W_load => 85 | W_store => 84
  | W_uncount_lock => 83 | W_uncount => 82 | W_uncount_unlock => 81
  | WU_lock => 80 | WU_clear => 79 | WU_test => 78 | WU_post => 77 | WU_unlock => 70
  | R_done | W_done => 0
  end.
Definition left_of (t : thread) : Z := 100 * (rounds t - iter t) + left_in_round (at_pc t).

(** A wake-up that has been posted lets a writer test the lock once more. *)
Definition measure (s : state) : Z := total left_of (threads s) + 5 * wlock s.

(** The back-off loop. *)
Definition spinning (p : pc) : bool :=
  match p with RL_lock | RL_check | RL_back_unlock | RL_sleep => true | _ => false end.

Definition returned (p : pc) : bool := match p with R_done | W_done => true | _ => false end.
Definition all_returned (s : state) : Prop := Forall (λ t, returned (at_pc t) = true) (threads s).

Lemma left_of_nonneg t : iter_ok t → 0 ≤ left_of t.
Proof. unfold iter_ok, left_of. destruct t as [[] k l]; simpl; lia. Qed.

Lemma measure_nonneg s : lock_inv s → use_inv s → 0 ≤ measure s.
Proof.
  intros I U. unfold measure. pose proof (inv_wlock _ I). pose proof (inv_iter _ U) as Hk.
  assert (0 ≤ total left_of (threads s)); [|lia].
  induction Hk as [|t ts Ht _ IH]; simpl; [lia|]. pose proof (left_of_nonneg t Ht). lia.
Qed.

(** Every step decreases the measure or is one of the back-off loop. *)
Lemma thread_step_measure s t s1 t' :
  thread_step s t = Some (s1, t') →
  left_of t' + 5 * wlock s1 < left_of t + 5 * wlock s ∨
  (spinning (at_pc t) = true ∧ spinning (at_pc t') = true ∧ left_of t' = left_of t ∧ wlock s1 = wlock s).
Proof.
  intros E. step_cases E t; unfold left_of, rounds; simpl; first [by right|left; lia].
Qed.

Lemma step_measure i s s' :
  step i s = Some s' → measure s' < measure s ∨
  (measure s' = measure s ∧ ∃ t, threads s !! i = Some t ∧ spinning (at_pc t) = true).
Proof.
  intros (t&s1&t'&Hi&E&->)%step_inv. unfold measure. simpl.
  rewrite (thread_step_threads _ _ _ _ E), (total_insert _ _ _ _ _ Hi).
  destruct (thread_step_measure _ _ _ _ E) as [?|(?&_&->&->)]; [left; lia|right; split; [lia|eauto]].
Qed.

(** * Progress *)

Lemma count_pos P s : 0 < count P s → ∃ i t, threads s !! i = Some t ∧ P (at_pc t) = true.
Proof.
  unfold count. induction (threads s) as [|t ts IH]; simpl; [lia|]. intros H.
  destruct (P (at_pc t)) eqn:E; [by exists 0%nat, t|].
  unfold at_point in H at 1. rewrite E in H. simpl in H. destruct IH as (i&u&Hi&Hu); [lia|].
  by exists (S i), u.
Qed.

Lemma count_zero P s : count P s = 0 → ∀ i t, threads s !! i = Some t → P (at_pc t) = false.
Proof.
  intros H i t Hi. pose proof (count_lookup P s i t Hi) as Hl. unfold at_point in Hl.
  destruct (P (at_pc t)); [simpl in Hl; lia|done].
Qed.

(** The threads that can always take a step when both mutexes are free. *)
Definition blocked_free (p : pc) : bool :=
  match p with WL_wait | R_done | W_done => true | _ => false end.

Lemma holder_steps s t : holds_m (at_pc t) = true ∨ holds_inst (at_pc t) = true → is_Some (thread_step s t).
Proof.
  destruct t as [[] k l]; intros [H|H]; try discriminate H;
    unfold_step; repeat case_match; eauto.
Qed.

Lemma free_steps s t :
  m s = false → instrumentation_mutex s = false → blocked_free (at_pc t) = false → is_Some (thread_step s t).
Proof.
  intros Hm Hn. destruct t as [[] k l]; intros H; try discriminate H;
    unfold_step; rewrite ?Hm, ?Hn; repeat case_match; simpl; eauto.
Qed.

Lemma thread_steps i s t : threads s !! i = Some t → is_Some (thread_step s t) → is_Some (step i s).
Proof. intros Hi [[s1 t'] E]. unfold step. rewrite Hi. simpl. rewrite E. simpl. eauto. Qed.

(** A schedule that ends in a smaller state. *)
Definition shrinks (s : state) : Prop := ∃ sched s', run_schedule sched s = Some s' ∧ measure s' < measure s.

Lemma shrinks_step i s s' : step i s = Some s' → measure s' ≤ measure s → shrinks s' → shrinks s.
Proof.
  intros E Hm (sched&s2&Er&Hl). exists (i :: sched), s2. simpl. rewrite E. split; [done|lia].
Qed.

Lemma step_shrinks i s t :
  threads s !! i = Some t → spinning (at_pc t) = false → is_Some (step i s) → shrinks s.
Proof.
  intros Hi Hp [s' E]. exists [i], s'. simpl. rewrite E. split; [done|].
  destruct (step_measure i s s' E) as [?|(_&u&Hu&Hq)]; [done|]. rewrite Hi in Hu. injection Hu as <-. congruence.
Qed.

Definition inv (s : state) : Prop := lock_inv s ∧ use_inv s.

Lemma inv_step i s s' : inv s → step i s = Some s' → inv s'.
Proof. intros [I U] E. split; [by eapply lock_inv_step|by eapply use_inv_step]. Qed.

Lemma not_returned i t s : threads s !! i = Some t → returned (at_pc t) = false → ¬ all_returned s.
Proof. intros Hi Ht H. rewrite (Forall_lookup_1 _ _ _ _ H Hi) in Ht. done. Qed.

(** A reader that finds no writer enters. *)
Lemma rlock_shrinks i s t :
  threads s !! i = Some t → at_pc t = RL_lock → m s = false → writer_active s = false → writers_waiting s = 0 →
  shrinks s.
Proof.
  intros Hi Hp Hm Ha Hw. destruct t as [p k l]. simpl in Hp. subst p.
  set (t1 := mk_thread RL_check k l). set (t2 := mk_thread RL_enter k l).
  set (s1 := with_thread (set_m s true) i t1).
  assert (threads s1 !! i = Some t1) as H1 by (eapply list_lookup_insert_eq, lookup_lt_Some, Hi).
  assert (step i s = Some s1) as E1 .
  { unfold step. rewrite Hi. cbn [mbind option_bind]. unfold_step. by rewrite Hm. }
  assert (step i s1 = Some (with_thread s1 i t2)) as E2.
  { unfold step. rewrite H1. cbn [mbind option_bind]. subst t1. unfold_step. simpl.
    rewrite Ha. by rewrite bool_decide_eq_true_2. }
  exists [i; i], (with_thread s1 i t2). simpl. rewrite E1. simpl. rewrite E2. split; [done|].
  unfold measure, with_thread at 1. simpl threads. rewrite (total_insert _ (threads s1) i t1 t2 H1). simpl.
  rewrite (total_insert _ _ _ _ _ Hi). unfold left_of, rounds, t1, t2. simpl. lia.
Qed.

(** The threads left when nothing else can be done: asleep, backing off, or
    returned. *)
Definition idle (p : pc) : bool := blocked_free p || spinning p.

Lemma idle_quiet s P :
  lock_inv s → m s = false → Forall (λ t, idle (at_pc t) = true) (threads s) →
  (∀ p, P p = true → idle p = true → holds_m p = true) → count P s = 0.
Proof.
  intros I Hm Hidle HP. pose proof (count_nonneg P s). destruct (decide (0 < count P s)) as [H1|]; [|lia].
  apply count_pos in H1 as (i&t&Hi&Ht). pose proof (Forall_lookup_1 _ _ _ _ Hidle Hi) as Hd. simpl in Hd.
  pose proof (count_zero holds_m s) as Hz. rewrite <- (inv_m _ I), Hm in Hz. simpl in Hz.
  specialize (Hz eq_refl i t Hi). by rewrite (HP _ Ht Hd) in Hz.
Qed.

Lemma idle_shrinks s :
  lock_inv s → m s = false → Forall (λ t, idle (at_pc t) = true) (threads s) → ¬ all_returned s → shrinks s.
Proof.
  intros I Hm Hidle Hr.
  assert (readers s = 0) as Hrd by (rewrite (inv_readers _ I); apply idle_quiet; try done; by intros []).
  assert (Z.b2z (writer_active s) = 0) as Ha by (rewrite (inv_active _ I); apply idle_quiet; try done; by intros []).
  assert (count attending s = 0) as Hat by (apply idle_quiet; try done; by intros []).
  destruct (decide (0 < count asleep s)) as [Hs|Hs].
  - pose proof (inv_wakeup _ I Ha Hrd Hs). apply count_pos in Hs as (i&t&Hi&Ht).
    apply (step_shrinks i s t Hi); [by destruct t as [[] ? ?]|]. apply (thread_steps i s t Hi).
    destruct t as [[] k l]; try discriminate Ht. unfold_step.
    rewrite bool_decide_eq_true_2 by lia. simpl. eauto.
  - assert (count asleep s = 0) as Hz by (pose proof (count_nonneg asleep s); lia).
    assert (writers_waiting s = 0) as Hw.
    { rewrite (inv_waiting _ I). pose proof (count_nonneg waiting s).
      destruct (decide (0 < count waiting s)) as [H1|]; [|lia]. apply count_pos in H1 as (i&t&Hi&Ht).
      pose proof (count_zero _ _ Hz i t Hi). pose proof (Forall_lookup_1 _ _ _ _ Hidle Hi).
      by destruct t as [[] ? ?]. }
    assert (writer_active s = false) as Ha' by (by destruct (writer_active s)).
    apply not_Forall_Exists in Hr; [|apply _]. apply Exists_exists in Hr as (t&Hin&Ht).
    apply list_elem_of_In, list_elem_of_lookup in Hin as [i Hi].
    pose proof (Forall_lookup_1 _ _ _ _ Hidle Hi) as Hd. pose proof (count_zero _ _ Hz i t Hi) as Has.
    pose proof (count_zero holds_m s) as Hh. rewrite <- (inv_m _ I), Hm in Hh. specialize (Hh eq_refl i t Hi).
    destruct t as [p k l]. destruct p; try discriminate; try done.
    + by apply (rlock_shrinks i s (mk_thread RL_lock k l)).
    + set (s1 := with_thread s i (mk_thread RL_lock k l)).
      assert (step i s = Some s1) as E by (unfold step; by rewrite Hi).
      apply (shrinks_step i s s1 E); [destruct (step_measure i s s1 E) as [?|[? _]]; lia|].
      apply (rlock_shrinks i s1 (mk_thread RL_lock k l)); try done.
      eapply list_lookup_insert_eq, lookup_lt_Some, Hi.
Qed.

Lemma free_shrinks s : inv s → m s = false → ¬ all_returned s → shrinks s.
Proof.
  intros [I U] Hm Hr. destruct (instrumentation_mutex s) eqn:Hn.
  - pose proof (inv_inst _ U) as Hc. rewrite Hn in Hc. simpl in Hc.
    destruct (count_pos holds_inst s) as (i&t&Hi&Ht); [lia|].
    apply (step_shrinks i s t Hi); [by destruct t as [[] ? ?]|].
    apply (thread_steps i s t Hi), holder_steps. by right.
  - destruct (decide (Forall (λ t, idle (at_pc t) = true) (threads s))) as [Hd|Hd]; [by apply idle_shrinks|].
    apply not_Forall_Exists in Hd; [|apply _]. apply Exists_exists in Hd as (t&Hin&Ht).
    apply list_elem_of_In, list_elem_of_lookup in Hin as [i Hi]. unfold idle in Ht.
    apply not_true_is_false, orb_false_iff in Ht as [Hb Hs].
    apply (step_shrinks i s t Hi Hs), (thread_steps i s t Hi). by apply free_steps.
Qed.

Lemma back_shrinks i s t :
  inv s → threads s !! i = Some t → at_pc t = RL_back_unlock → shrinks s.
Proof.
  intros I Hi Hp. destruct t as [p k l]. simpl in Hp. subst p.
  set (s1 := with_thread (set_m s false) i (mk_thread RL_sleep k l)).
  assert (step i s = Some s1) as E by (unfold step; by rewrite Hi).
  apply (shrinks_step i s s1 E); [destruct (step_measure i s s1 E) as [?|[? _]]; lia|].
  apply free_shrinks; [by eapply inv_step|done|].
  apply (not_returned i (mk_thread RL_sleep k l)); [|done]. eapply list_lookup_insert_eq, lookup_lt_Some, Hi.
Qed.

(** In every state some schedule makes progress. *)
Lemma can_shrink s : inv s → ¬ all_returned s → shrinks s.
Proof.
  intros I Hr. destruct (m s) eqn:Hm; [|by apply free_shrinks].
  pose proof (inv_m _ (proj1 I)) as Hc. rewrite Hm in Hc. simpl in Hc.
  destruct (count_pos holds_m s) as (i&t&Hi&Ht); [lia|].
  destruct (thread_steps i s t Hi) as [s' E]; [apply holder_steps; by left|].
  destruct (step_measure i s s' E) as [Hlt|[Heq _]]; [exists [i], s'; simpl; by rewrite E|].
  destruct t as [p k l]. destruct p; try discriminate Ht; try (by apply (step_shrinks i s _ Hi)).
  - apply (shrinks_step i s s' E); [lia|]. pose proof (inv_step i s s' I E) as I'.
    apply step_inv in E as (t&s1&t'&Hi'&E&->). rewrite Hi in Hi'. injection Hi' as <-. unfold_step in E.
    destruct (negb _ && _); injection E as <- <-.
    + exfalso. unfold measure in Heq. simpl in Heq. rewrite (total_insert _ _ _ _ _ Hi) in Heq.
      unfold left_of, rounds in Heq. simpl in Heq. lia.
    + apply (back_shrinks i _ (mk_thread RL_back_unlock k l)); [done| |done].
      eapply list_lookup_insert_eq, lookup_lt_Some, Hi.
  - by eapply back_shrinks.
Qed.

Lemma run_schedule_app a b s : run_schedule (a ++ b) s = run_schedule a s ≫= run_schedule b.
Proof. revert s. induction a as [|i a IH]; intros s; simpl; [done|]. destruct (step i s); simpl; [apply IH|done]. Qed.

Lemma run_schedule_inv sched s s' : inv s → run_schedule sched s = Some s' → inv s'.
Proof.
  revert s. induction sched as [|i sched IH]; intros s I E; simpl in E; [by injection E as <-|].
  destruct (step i s) as [s1|] eqn:E1; [|done]. simpl in E. eapply IH; [|done]. by eapply inv_step.
Qed.

Lemma can_finish s : inv s → ∃ sched s', run_schedule sched s = Some s' ∧ all_returned s'.
Proof.
  intros I. remember (Z.to_nat (measure s)) as n eqn:En. revert s I En.
  induction (lt_wf n) as [n _ IH]. intros s I ->.
  destruct (decide (all_returned s)) as [Hd|Hd]; [by exists [], s|].
  destruct (can_shrink s I Hd) as (sched&s1&E1&Hl). pose proof (run_schedule_inv _ _ _ I E1) as I1.
  pose proof (measure_nonneg s1 (proj1 I1) (proj2 I1)).
  destruct (IH (Z.to_nat (measure s1))) with (s := s1) as (sched2&s2&E2&H2); [lia|done|done|].
  exists (sched ++ sched2), s2. rewrite run_schedule_app, E1. done.
Qed.
