(* ===== verification/BoundedBuffer.v ===== *)
(** The bounded buffer (sync_utils.c) and the producers and consumers that use
    it (bounded_buffer.c), as an interleaving of their statements.  A step of a
    thread runs one statement; it is blocked at a mutex or a semaphore it
    cannot take, and it is a fault to use the buffer after it was destroyed or
    a tray after it was freed.  [put_log] and [take_log] are auxiliary: they
    record the order in which trays enter and leave the buffer. *)

From stdpp Require Import base option list numbers.
From Stdlib Require Import ZArith Lia.
From S2P Require Import Prelude.
Local Open Scope Z_scope.

(** * Data *)

(** A tray pointer is an index of the heap, where a freed tray is [None]. *)
Record food_tray_t := mk_tray { tray_id : Z; food_name : cstr; prepared_by : Z }.

Record bb_t := mk_bb {
  buf : option (list (option nat));   (* None: the array does not exist *)
  cap : Z;
  head : Z;
  tail : Z;
  empty : Z;                          (* semaphore values *)
  full : Z;
  bb_m : bool;                        (* the mutex is held *)
}.

(** The statement a thread runs next. *)
Inductive bpc :=
  (* cook (): the loop head, the tray counter, the new tray *)
  | C_loop | C_lock | C_count | C_unlock | C_create
  (* bb_put *)
  | P_wait | P_lock | P_store | P_advance | P_unlock | P_post
  (* attendee (): the loop head, the log line, the release of the tray *)
  | A_loop | A_log | A_free | A_done
  (* bb_take *)
  | T_wait | T_lock | T_load | T_advance | T_unlock | T_post.

Global Instance bpc_eq_dec : EqDecision bpc.
Proof. solve_decision. Defined.

Record person := mk_person {
  p_pc : bpc;
  p_id : Z;
  p_round : Z;              (* the loop counter k of an attendee *)
  p_tray_id : Z;            (* the local tray_id of a cook *)
  p_tray : option nat;      (* the local tray *)
}.

Record snacks := mk_snacks {
  snack_queue : bb_t;
  tray_counter : Z;
  tray_counter_mutex : bool;
  heap : list (option food_tray_t);
  people : list person;
  put_log : list nat;
  take_log : list nat;
}.

(** What a step of a thread gives. *)
Inductive outcome (A : Type) := Blocked | Fault | Next (a : A).
Global Arguments Blocked {A}.
Global Arguments Fault {A}.
Global Arguments Next {A}.

(** * The buffer *)

(** [bb_init], given whether the allocation, the mutex and the two semaphores
    can be made; a failed call leaves the rest of [q] as it was. *)
Definition bb_init (alloc_ok mutex_ok empty_ok full_ok : bool) (q : bb_t) (capacity : Z) : Z * bb_t :=
  if bool_decide (capacity <= 0) then (-1, q)
  else if negb alloc_ok then (-1, mk_bb None (cap q) (head q) (tail q) (empty q) (full q) (bb_m q))
  else if negb mutex_ok then (-1, mk_bb None capacity 0 0 (empty q) (full q) (bb_m q))
  else if negb empty_ok then (-1, mk_bb None capacity 0 0 (empty q) (full q) false)
  else if negb full_ok then (-1, mk_bb None capacity 0 0 capacity (full q) false)
  else (0, mk_bb (Some (replicate (Z.to_nat capacity) None)) capacity 0 0 capacity 0 false).

Definition bb_destroy (q : bb_t) : bb_t := mk_bb None 0 0 0 (empty q) (full q) (bb_m q).

Definition set_queue (s : snacks) (q : bb_t) : snacks :=
  mk_snacks q (tray_counter s) (tray_counter_mutex s) (heap s) (people s) (put_log s) (take_log s).

Definition at_p (t : person) (p : bpc) : person := mk_person p (p_id t) (p_round t) (p_tray_id t) (p_tray t).

(** [sem_wait] and [pthread_mutex_lock] block when they cannot be taken. *)
Definition wait_empty (q : bb_t) : outcome bb_t :=
  if bool_decide (0 < empty q) then Next (mk_bb (buf q) (cap q) (head q) (tail q) (empty q - 1) (full q) (bb_m q))
  else Blocked.
Definition wait_full (q : bb_t) : outcome bb_t :=
  if bool_decide (0 < full q) then Next (mk_bb (buf q) (cap q) (head q) (tail q) (empty q) (full q - 1) (bb_m q))
  else Blocked.
Definition lock_bb (q : bb_t) : outcome bb_t :=
  if bb_m q then Blocked else Next (mk_bb (buf q) (cap q) (head q) (tail q) (empty q) (full q) true).
Definition unlock_bb (q : bb_t) : bb_t := mk_bb (buf q) (cap q) (head q) (tail q) (empty q) (full q) false.
Definition post_empty (q : bb_t) : bb_t := mk_bb (buf q) (cap q) (head q) (tail q) (empty q + 1) (full q) (bb_m q).
Definition post_full (q : bb_t) : bb_t := mk_bb (buf q) (cap q) (head q) (tail q) (empty q) (full q + 1) (bb_m q).

(** [q->buf[i] = tray] and [q->buf[i]]. *)
Definition store_slot (q : bb_t) (i : Z) (tray : option nat) : outcome bb_t :=
  match buf q with
  | Some b =>
      if bool_decide (0 <= i < Z.of_nat (length b))
      then Next (mk_bb (Some (<[Z.to_nat i := tray]> b)) (cap q) (head q) (tail q) (empty q) (full q) (bb_m q))
      else Fault
  | None => Fault
  end.
Definition load_slot (q : bb_t) (i : Z) : outcome (option nat) :=
  match buf q with
  | Some b =>
      if bool_decide (i < 0) then Fault
      else match b !! Z.to_nat i with Some tray => Next tray | None => Fault end
  | None => Fault
  end.

(** [q->tail = (q->tail + 1) % q->cap]; the remainder by zero is a fault. *)
Definition advance_tail (q : bb_t) : outcome bb_t :=
  if bool_decide (cap q = 0) then Fault
  else Next (mk_bb (buf q) (cap q) (head q) (Z.rem (tail q + 1) (cap q)) (empty q) (full q) (bb_m q)).
Definition advance_head (q : bb_t) : outcome bb_t :=
  if bool_decide (cap q = 0) then Fault
  else Next (mk_bb (buf q) (cap q) (Z.rem (head q + 1) (cap q)) (tail q) (empty q) (full q) (bb_m q)).

Definition obind {A B} (o : outcome A) (f : A → outcome B) : outcome B :=
  match o with Blocked => Blocked | Fault => Fault | Next a => f a end.

(** [bb_put (&snack_queue, tray)]; after its last statement the thread is at
    [ret]. *)
Definition bb_put (ret : bpc) (s : snacks) (t : person) : outcome (snacks * person) :=
  let q := snack_queue s in
  match p_pc t with
  | P_wait => obind (wait_empty q) (λ q, Next (set_queue s q, at_p t P_lock))
  | P_lock => obind (lock_bb q) (λ q, Next (set_queue s q, at_p t P_store))
  | P_store => obind (store_slot q (tail q) (p_tray t)) (λ q, Next (set_queue s q, at_p t P_advance))
  | P_advance =>
      obind (advance_tail q) (λ q,
        let s := set_queue s q in
        Next (mk_snacks (snack_queue s) (tray_counter s) (tray_counter_mutex s) (heap s) (people s)
                (put_log s ++ option_list (p_tray t)) (take_log s), at_p t P_unlock))
  | P_unlock => Next (set_queue s (unlock_bb q), at_p t P_post)
  | P_post => Next (set_queue s (post_full q), mk_person ret (p_id t) (p_round t) (p_tray_id t) None)
  | _ => Blocked
  end.

(** [bb_take (&snack_queue)], with its result in the local tray. *)
Definition bb_take (ret : bpc) (s : snacks) (t : person) : outcome (snacks * person) :=
  let q := snack_queue s in
  match p_pc t with
  | T_wait => obind (wait_full q) (λ q, Next (set_queue s q, at_p t T_lock))
  | T_lock => obind (lock_bb q) (λ q, Next (set_queue s q, at_p t T_load))
  | T_load =>
      obind (load_slot q (head q)) (λ tray,
        Next (s, mk_person T_advance (p_id t) (p_round t) (p_tray_id t) tray))
  | T_advance =>
      obind (advance_head q) (λ q,
        let s := set_queue s q in
        Next (mk_snacks (snack_queue s) (tray_counter s) (tray_counter_mutex s) (heap s) (people s)
                (put_log s) (take_log s ++ option_list (p_tray t)), at_p t T_unlock))
  | T_unlock => Next (set_queue s (unlock_bb q), at_p t T_post)
  | T_post => Next (set_queue s (post_empty q), at_p t ret)
  | _ => Blocked
  end.

(** * The threads *)

Definition NUM_ATTENDEES : nat := 40.
Definition NUM_COOKS : nat := 2.
Definition BUF_C : Z := 8.
Definition SNACKS_PER_ATTENDEE : Z := 1.

Definition food_names : list cstr :=
  [cs "Pizza Slice"; cs "Sandwich"; cs "Salad Bowl"; cs "Fruit Plate";
   cs "Pasta Bowl"; cs "Burger"; cs "Wrap"; cs "Sushi Roll"].
Definition num_food_types : Z := 8.

(** The new tray, at the end of the heap. *)
Definition create_food_tray (s : snacks) (id : Z) (name : cstr) (cook_id : Z) : nat * snacks :=
  (length (heap s),
   mk_snacks (snack_queue s) (tray_counter s) (tray_counter_mutex s)
     (heap s ++ [Some (mk_tray id name cook_id)]) (people s) (put_log s) (take_log s)).

(** [free] of a tray that is not allocated is a fault. *)
Definition free_food_tray (s : snacks) (tray : option nat) : outcome snacks :=
  match tray with
  | None => Next s
  | Some p =>
      match heap s !! p with
      | Some (Some _) =>
          Next (mk_snacks (snack_queue s) (tray_counter s) (tray_counter_mutex s) (<[p := None]> (heap s))
                  (people s) (put_log s) (take_log s))
      | _ => Fault
      end
  end.

Definition set_counter (s : snacks) (n : Z) (b : bool) : snacks :=
  mk_snacks (snack_queue s) n b (heap s) (people s) (put_log s) (take_log s).

(** One statement of a cook; [r] is the value [rand] returns. *)
Definition cook (r : Z) (s : snacks) (t : person) : outcome (snacks * person) :=
  match p_pc t with
  | C_loop => Next (s, at_p t C_lock)
  | C_lock => if tray_counter_mutex s then Blocked else Next (set_counter s (tray_counter s) true, at_p t C_count)
  | C_count =>
      Next (set_counter s (tray_counter s + 1) (tray_counter_mutex s),
            mk_person C_unlock (p_id t) (p_round t) (tray_counter s) (p_tray t))
  | C_unlock => Next (set_counter s (tray_counter s) false, at_p t C_create)
  | C_create =>
      match food_names !! Z.to_nat (Z.rem r num_food_types) with
      | Some food =>
          let '(p, s) := create_food_tray s (p_tray_id t) food (p_id t) in
          Next (s, mk_person P_wait (p_id t) (p_round t) (p_tray_id t) (Some p))
      | None => Fault
      end
  | _ => bb_put C_loop s t
  end.

(** One statement of an attendee; the log line reads the fields of the tray. *)
Definition attendee (s : snacks) (t : person) : outcome (snacks * person) :=
  match p_pc t with
  | A_loop =>
      if bool_decide (p_round t < SNACKS_PER_ATTENDEE) then Next (s, at_p t T_wait) else Next (s, at_p t A_done)
  | A_log =>
      match p_tray t with
      | Some p => match heap s !! p with Some (Some _) => Next (s, at_p t A_free) | _ => Fault end
      | None => Fault
      end
  | A_free =>
      obind (free_food_tray s (p_tray t)) (λ s,
        Next (s, mk_person A_loop (p_id t) (p_round t + 1) (p_tray_id t) None))
  | A_done => Blocked
  | _ => bb_take A_log s t
  end.

Definition is_attendee (p : bpc) : bool :=
  match p with
  | A_loop | A_log | A_free | A_done | T_wait | T_lock | T_load | T_advance | T_unlock | T_post => true
  | _ => false
  end.

Definition person_step (r : Z) (s : snacks) (t : person) : outcome (snacks * person) :=
  if is_attendee (p_pc t) then attendee s t else cook r s t.

Definition set_person (s : snacks) (i : nat) (t : person) : snacks :=
  mk_snacks (snack_queue s) (tray_counter s) (tray_counter_mutex s) (heap s) (<[i := t]> (people s))
    (put_log s) (take_log s).

(** One step of thread [i]. *)
Definition bb_step (r : Z) (i : nat) (s : snacks) : outcome snacks :=
  match people s !! i with
  | None => Blocked
  | Some t => obind (person_step r s t) (λ '(s', t'), Next (set_person s' i t'))
  end.

(** The globals before [snacks_run]. *)
Definition snacks_zero : snacks := mk_snacks (mk_bb None 0 0 0 0 0 false) 0 false [] [] [] [].

(** [snacks_run] up to its joins: the buffer is made and the threads are
    spawned. *)
Definition snacks_start (capacity : Z) (n_cooks n_attendees : nat) : snacks :=
  let q := (bb_init true true true true (snack_queue snacks_zero) capacity).2 in
  mk_snacks q 0 false []
    (((λ i, mk_person C_loop (Z.of_nat i) 0 0 None) <$> seq 0 n_cooks) ++
     ((λ i, mk_person A_loop (Z.of_nat i) 0 0 None) <$> seq 0 n_attendees)) [] [].

(** The end of [snacks_run]: when the attendees have been joined the buffer is
    destroyed; the cooks are not joined. *)
Definition snacks_end (s : snacks) : outcome snacks :=
  if forallb (λ t, negb (is_attendee (p_pc t)) || match p_pc t with A_done => true | _ => false end) (people s)
  then Next (set_queue s (bb_destroy (snack_queue s))) else Blocked.

(** The states before the buffer is destroyed. *)
Inductive serving (capacity : Z) (n_cooks n_attendees : nat) : snacks → Prop :=
  | serve_start : serving capacity n_cooks n_attendees (snacks_start capacity n_cooks n_attendees)
  | serve_step r i s s' :
      serving capacity n_cooks n_attendees s → 0 <= r → bb_step r i s = Next s' →
      serving capacity n_cooks n_attendees s'.

(** A schedule: the values of [rand] and the threads that take the steps. *)
Fixpoint bb_run (sched : list (Z * nat)) (s : snacks) : outcome snacks :=
  match sched with [] => Next s | (r, i) :: rest => obind (bb_step r i s) (bb_run rest) end.
