(* ===== verification/BbInv.v ===== *)
(** The invariant of the bounded buffer: the slots between head and tail hold
    the trays put and not yet taken, the semaphores count the free and the used
    slots, and every tray has exactly one owner. *)

From stdpp Require Import base option list numbers.
From Stdlib Require Import ZArith Lia.
From S2P Require Import Prelude Counting BoundedBuffer.
Local Open Scope Z_scope.

(** * Groups of program points *)

Definition in_group (P : bpc → bool) (t : person) : Z := Z.b2z (P (p_pc t)).
Definition cnt (P : bpc → bool) (s : snacks) : Z := total (in_group P) (people s).

(** A thread that holds the mutex of the buffer. *)
Definition holds_bb (p : bpc) : bool :=
  match p with P_store | P_advance | P_unlock | T_load | T_advance | T_unlock => true | _ => false end.
(** A producer that has a free slot, and one that has filled it and not said so. *)
Definition reserved (p : bpc) : bool := match p with P_lock | P_store | P_advance => true | _ => false end.
Definition unposted (p : bpc) : bool := match p with P_unlock | P_post => true | _ => false end.
(** A consumer that has a tray coming, and one that has it and has not given the
    slot back. *)
Definition claimed (p : bpc) : bool := match p with T_lock | T_load | T_advance => true | _ => false end.
Definition unreturned (p : bpc) : bool := match p with T_unlock | T_post => true | _ => false end.

Lemma in_group_nonneg P t : 0 ≤ in_group P t.
Proof. unfold in_group. destruct (P _); simpl; lia. Qed.
Lemma cnt_nonneg P s : 0 ≤ cnt P s.
Proof. apply total_nonneg, in_group_nonneg. Qed.
Lemma cnt_lookup P s i t : people s !! i = Some t → in_group P t ≤ cnt P s.
Proof. apply total_lookup, in_group_nonneg. Qed.
Lemma cnt_set_person P s s1 i t t' :
  people s !! i = Some t → people s1 = people s →
  cnt P (set_person s1 i t') = cnt P s - in_group P t + in_group P t'.
Proof. intros Hi E. unfold cnt. simpl. rewrite E. by apply total_insert. Qed.

(** * The invariant *)

(** The trays put and not yet taken, the oldest first. *)
Definition queue (s : snacks) : list nat := drop (length (take_log s)) (put_log s).
Definition n_items (s : snacks) : Z := Z.of_nat (length (queue s)).

(** The slot of the [j]-th tray of the queue. *)
Definition slot_of (q : bb_t) (j : Z) : nat := Z.to_nat ((head q + j) mod cap q).

(** What a thread knows about the buffer while it holds its mutex. *)
Definition person_ok (s : snacks) (b : list (option nat)) (t : person) : Prop :=
  match p_pc t with
  | P_wait | P_lock | P_store => is_Some (p_tray t)
  | P_advance => is_Some (p_tray t) ∧ b !! Z.to_nat (tail (snack_queue s)) = Some (p_tray t)
  | T_advance => is_Some (p_tray t) ∧ list.head (queue s) = p_tray t
  | T_unlock | T_post | A_log | A_free => is_Some (p_tray t)
  | _ => True
  end.

Record bb_inv (capacity : Z) (s : snacks) (b : list (option nat)) : Prop := {
  i_cap : 0 < capacity ∧ cap (snack_queue s) = capacity;
  i_buf : buf (snack_queue s) = Some b ∧ Z.of_nat (length b) = capacity;
  i_head : 0 ≤ head (snack_queue s) < capacity;
  i_tail : tail (snack_queue s) = (head (snack_queue s) + n_items s) mod capacity;
  i_log : put_log s = take_log s ++ queue s;
  i_slots : ∀ j p, queue s !! j = Some p → b !! slot_of (snack_queue s) (Z.of_nat j) = Some (Some p);
  i_mutex : Z.b2z (bb_m (snack_queue s)) = cnt holds_bb s;
  i_empty : empty (snack_queue s) + cnt reserved s + n_items s + cnt unreturned s = capacity;
  i_full : full (snack_queue s) + cnt claimed s + cnt unposted s = n_items s;
  i_sems : 0 ≤ empty (snack_queue s) ∧ 0 ≤ full (snack_queue s);
  i_people : Forall (person_ok s b) (people s);
}.

Definition served (capacity : Z) (s : snacks) : Prop := ∃ b, bb_inv capacity s b.

Lemma bb_step_inv r i s s' : bb_step r i s = Next s' → ∃ t s1 t',
  people s !! i = Some t ∧ person_step r s t = Next (s1, t') ∧ s' = set_person s1 i t'.
Proof.
  unfold bb_step. destruct (people s !! i) as [t|]; [|done].
  destruct (person_step r s t) as [| |[s1 t']] eqn:E; simpl; try done. intros [= <-]. eauto 6.
Qed.

(** The statement of a thread at a known program point. *)
Tactic Notation "unfold_bb" "in" hyp(E) :=
  cbv [person_step is_attendee attendee cook bb_put bb_take p_pc p_id p_round p_tray_id p_tray at_p
    wait_empty wait_full lock_bb obind create_food_tray] in E.

(** The ways a thread can take a step that leaves the trays where they are. *)
Ltac bb_cases E t :=
  let p := fresh "p" in let id := fresh "id" in let k := fresh "k" in let n := fresh "n" in let tr := fresh "tr" in
  destruct t as [p id k n tr]; destruct p; unfold_bb in E; try discriminate E.

Lemma person_step_people r s t s1 t' : person_step r s t = Next (s1, t') → people s1 = people s.
Proof.
  intros E. bb_cases E t; repeat case_match; try discriminate E; simplify_eq; try done.
  all: unfold free_food_tray in *; repeat case_match; by simplify_eq.
Qed.

(** ** Steps that leave the slots alone *)

Definition moves_slots (p : bpc) : bool := match p with P_store | P_advance | T_advance => true | _ => false end.

(** The part of the state that only a holder of the mutex changes. *)
Definition same_slots (s s1 : snacks) : Prop :=
  buf (snack_queue s1) = buf (snack_queue s) ∧ cap (snack_queue s1) = cap (snack_queue s) ∧
  head (snack_queue s1) = head (snack_queue s) ∧ tail (snack_queue s1) = tail (snack_queue s) ∧
  put_log s1 = put_log s ∧ take_log s1 = take_log s.

Lemma free_food_tray_same s tr s1 : free_food_tray s tr = Next s1 →
  snack_queue s1 = snack_queue s ∧ put_log s1 = put_log s ∧ take_log s1 = take_log s ∧ people s1 = people s.
Proof. unfold free_food_tray. repeat case_match; by intros [= <-]. Qed.

Lemma step_same_slots r s t s1 t' :
  person_step r s t = Next (s1, t') → moves_slots (p_pc t) = false → same_slots s s1.
Proof.
  intros E. bb_cases E t; simpl; intros Hp; try discriminate Hp; repeat case_match; try discriminate E;
    simplify_eq; try done.
  match goal with H : free_food_tray _ _ = _ |- _ => apply free_food_tray_same in H as (Eq&?&?&_) end.
  unfold same_slots. by rewrite Eq.
Qed.

Lemma same_slots_queue s s1 : same_slots s s1 → queue s1 = queue s.
Proof. unfold queue. by intros (_&_&_&_&->&->). Qed.

Ltac cnt_facts P s Hi := pose proof (cnt_nonneg P s); pose proof (cnt_lookup P s _ _ Hi).

Ltac eval_groups :=
  repeat match goal with
  | H : context [in_group ?P ?t] |- _ =>
      let v := eval vm_compute in (in_group P t) in change (in_group P t) with v in H
  end.

Ltac bb_guards :=
  repeat match goal with
  | H : bool_decide _ = true |- _ => apply bool_decide_eq_true in H
  | H : bool_decide _ = false |- _ => apply bool_decide_eq_false in H
  | H : bb_m _ = _ |- _ => apply (f_equal Z.b2z) in H; simpl in H
  end.

(** The semaphores and the mutex around a step that leaves the slots alone. *)
Lemma neutral_counts capacity r i s b t s1 t' :
  bb_inv capacity s b → people s !! i = Some t → person_step r s t = Next (s1, t') →
  moves_slots (p_pc t) = false →
  Z.b2z (bb_m (snack_queue s1)) = cnt holds_bb (set_person s1 i t') ∧
  empty (snack_queue s1) + cnt reserved (set_person s1 i t') + n_items s + cnt unreturned (set_person s1 i t') = capacity ∧
  full (snack_queue s1) + cnt claimed (set_person s1 i t') + cnt unposted (set_person s1 i t') = n_items s ∧
  0 ≤ empty (snack_queue s1) ∧ 0 ≤ full (snack_queue s1).
Proof.
  intros I Hi E Hp. destruct I as [_ _ _ _ _ _ Im Ie If [I0 I1] _].
  pose proof (λ P, cnt_set_person P s s1 i t t' Hi (person_step_people _ _ _ _ _ E)) as Hc.
  cnt_facts holds_bb s Hi. cnt_facts reserved s Hi. cnt_facts unreturned s Hi. cnt_facts claimed s Hi.
  cnt_facts unposted s Hi. pose proof (b2z_range (bb_m (snack_queue s))). clear Hi.
  rewrite !Hc. clear Hc.
  bb_cases E t; try discriminate Hp; repeat case_match; try discriminate E; simplify_eq; bb_guards;
    try match goal with H : free_food_tray _ _ = _ |- _ => apply free_food_tray_same in H as (->&?&?&_) end;
    unfold in_group in *; simpl in *; lia.
Qed.

Lemma person_ok_same s s1 b t : same_slots s s1 → person_ok s b t → person_ok s1 b t.
Proof.
  intros Hs. unfold person_ok. rewrite (same_slots_queue _ _ Hs).
  destruct Hs as (_&_&_&->&_). done.
Qed.

(** The oldest tray is at the head. *)
Lemma head_slot capacity s b p : bb_inv capacity s b → list.head (queue s) = Some p →
  b !! Z.to_nat (head (snack_queue s)) = Some (Some p).
Proof.
  intros I Hq. pose proof (i_slots _ _ _ I 0%nat p) as Hs. unfold slot_of in Hs.
  destruct (i_cap _ _ _ I) as [Hc Ec]. pose proof (i_head _ _ _ I).
  rewrite Z.add_0_r, Ec, Z.mod_small in Hs by lia. apply Hs. by destruct (queue s).
Qed.

(** A consumer that has claimed a tray finds one. *)
Lemma claimed_head capacity s b i t :
  bb_inv capacity s b → people s !! i = Some t → claimed (p_pc t) = true → is_Some (list.head (queue s)).
Proof.
  intros I Hi Ht. pose proof (i_full _ _ _ I) as Hf. pose proof (i_sems _ _ _ I).
  pose proof (cnt_lookup claimed s i t Hi) as Hc. unfold in_group in Hc. rewrite Ht in Hc. simpl in Hc.
  pose proof (cnt_nonneg unposted s). unfold n_items in Hf. destruct (queue s); simpl in *; [lia|eauto].
Qed.

Lemma neutral_self capacity r i s b t s1 t' :
  bb_inv capacity s b → people s !! i = Some t → person_step r s t = Next (s1, t') →
  moves_slots (p_pc t) = false → person_ok s b t → person_ok s b t'.
Proof.
  intros I Hi E Hp Hok. pose proof (claimed_head _ _ _ _ _ I Hi) as Hcl.
  bb_cases E t; try discriminate Hp; repeat case_match; try discriminate E; simplify_eq; try done;
    unfold person_ok in *; simpl in *; try done.
  unfold load_slot in *. destruct (i_buf _ _ _ I) as [Eb _]. rewrite Eb in *.
  destruct (Hcl eq_refl) as [p Hq]. pose proof (head_slot _ _ _ _ I Hq) as Hb.
  repeat case_match; simplify_eq. by rewrite Hq.
Qed.

Lemma neutral_step capacity r i s b t s1 t' :
  bb_inv capacity s b → people s !! i = Some t → person_step r s t = Next (s1, t') →
  moves_slots (p_pc t) = false → bb_inv capacity (set_person s1 i t') b.
Proof.
  intros I Hi E Hp. pose proof (step_same_slots _ _ _ _ _ E Hp) as Hs.
  pose proof (same_slots_queue _ _ Hs) as Hq.
  destruct (neutral_counts _ _ _ _ _ _ _ _ I Hi E Hp) as (?&?&?&?&?).
  assert (Forall (person_ok s1 b) (people (set_person s1 i t'))) as Hpeople.
  { simpl. rewrite (person_step_people _ _ _ _ _ E). apply Forall_insert.
    - eapply Forall_impl; [intros u; exact (person_ok_same s s1 b u Hs)|exact (i_people _ _ _ I)].
    - apply (person_ok_same s s1 b t' Hs). eapply neutral_self; [done..|].
      by eapply Forall_lookup_1; [exact (i_people _ _ _ I)|]. }
  destruct I as [Ic Ib Ih It Il Is _ _ _ _ _]. destruct Hs as (Eb&Ec&Eh&Et&Ep&Ek).
  split; simpl; unfold n_items, slot_of; change (queue (set_person s1 i t')) with (queue s1); rewrite ?Hq, ?Eb, ?Ec, ?Eh, ?Et, ?Ep, ?Ek; done.
Qed.

(** ** Positions *)

(** Positions less than a lap apart are in different slots. *)
Lemma mod_inj a j k n : 0 < n → 0 ≤ j < n → 0 ≤ k < n → (a + j) mod n = (a + k) mod n → j = k.
Proof.
  intros Hn Hj Hk E. pose proof (Z.div_mod (a + j) n). pose proof (Z.div_mod (a + k) n).
  assert (j - k = n * ((a + j) / n - (a + k) / n)) as Ed by lia.
  assert ((a + j) / n - (a + k) / n = 0); nia.
Qed.

(** The mutex has one holder. *)
Lemma holder_unique capacity s b i j t u :
  bb_inv capacity s b → i ≠ j → people s !! i = Some t → people s !! j = Some u →
  holds_bb (p_pc t) = true → holds_bb (p_pc u) = false.
Proof.
  intros I Hij Hi Hj Ht. pose proof (i_mutex _ _ _ I). pose proof (b2z_range (bb_m (snack_queue s))).
  pose proof (total_lookup_2 (in_group holds_bb) _ _ _ _ _ (in_group_nonneg _) Hij Hi Hj) as H2.
  change (total (in_group holds_bb) (people s)) with (cnt holds_bb s) in H2.
  unfold in_group in H2. rewrite Ht in H2. destruct (holds_bb (p_pc u)); simpl in *; [lia|done].
Qed.

(** What a thread without the mutex knows does not depend on the slots. *)
Lemma person_ok_other s b s1 b1 t : holds_bb (p_pc t) = false → person_ok s b t → person_ok s1 b1 t.
Proof. unfold person_ok. by destruct (p_pc t). Qed.

(** The people after a step of a holder. *)
Lemma holder_people capacity s b s1 b1 i t t' :
  bb_inv capacity s b → people s !! i = Some t → holds_bb (p_pc t) = true → people s1 = people s →
  person_ok s1 b1 t' → Forall (person_ok s1 b1) (people (set_person s1 i t')).
Proof.
  intros I Hi Ht Ep Hok. simpl. rewrite Ep. apply Forall_lookup. intros j u.
  intros [(<-&<-&_)|[Hij Hj]]%list_lookup_insert_Some; [done|].
  apply (person_ok_other s b); [by eapply holder_unique|].
  by eapply Forall_lookup_1; [exact (i_people _ _ _ I)|].
Qed.

(** ** Steps that move the slots *)

(** The counts after a step between two given program points. *)
Lemma cnt_move P s s1 i t t' p p' :
  people s !! i = Some t → people s1 = people s → p_pc t = p → p_pc t' = p' →
  cnt P (set_person s1 i t') = cnt P s - Z.b2z (P p) + Z.b2z (P p').
Proof. intros Hi Ep <- <-. by apply cnt_set_person. Qed.

(** While a producer has reserved a slot the queue is not full. *)
Lemma reserved_room capacity s b i t :
  bb_inv capacity s b → people s !! i = Some t → reserved (p_pc t) = true → n_items s < capacity.
Proof.
  intros I Hi Ht. pose proof (i_empty _ _ _ I). pose proof (i_sems _ _ _ I).
  pose proof (cnt_lookup reserved s i t Hi) as Hc. unfold in_group in Hc. rewrite Ht in Hc. simpl in Hc.
  pose proof (cnt_nonneg unreturned s). lia.
Qed.

Lemma queue_length_lookup s j p : queue s !! j = Some p → Z.of_nat j < n_items s.
Proof. intros Hj. apply lookup_lt_Some in Hj. unfold n_items. lia. Qed.

Lemma tail_range capacity s b : bb_inv capacity s b → 0 ≤ tail (snack_queue s) < capacity.
Proof. intros I. rewrite (i_tail _ _ _ I). apply Z.mod_pos_bound, (i_cap _ _ _ I). Qed.

(** The slot at the tail is not one of the queue. *)
Lemma tail_free capacity s b j p :
  bb_inv capacity s b → n_items s < capacity → queue s !! j = Some p →
  slot_of (snack_queue s) (Z.of_nat j) ≠ Z.to_nat (tail (snack_queue s)).
Proof.
  intros I Hn Hj. destruct (i_cap _ _ _ I) as [Hc Ec]. pose proof (queue_length_lookup _ _ _ Hj) as Hl.
  pose proof (tail_range _ _ _ I). unfold slot_of. rewrite Ec.
  pose proof (Z.mod_pos_bound (head (snack_queue s) + Z.of_nat j) capacity Hc).
  rewrite (i_tail _ _ _ I) in *. intros E. apply Z2Nat.inj in E; [|lia..].
  apply mod_inj in E; lia.
Qed.

Lemma store_step capacity i s b t s1 t' :
  bb_inv capacity s b → people s !! i = Some t → p_pc t = P_store → bb_put C_loop s t = Next (s1, t') →
  served capacity (set_person s1 i t').
Proof.
  intros I Hi Hp E. pose proof (Forall_lookup_1 _ _ _ _ (i_people _ _ _ I) Hi) as Hok.
  pose proof (reserved_room _ _ _ _ _ I Hi) as Hroom. rewrite Hp in Hroom. specialize (Hroom eq_refl).
  destruct (i_buf _ _ _ I) as [Eb Hlen]. pose proof (tail_range _ _ _ I) as Ht.
  unfold bb_put in E. rewrite Hp in E. unfold store_slot in E. rewrite Eb in E.
  rewrite bool_decide_eq_true_2 in E by lia. simpl in E. injection E as <- <-.
  set (b1 := <[_ := p_tray t]> b). exists b1.
  assert (b1 !! Z.to_nat (tail (snack_queue s)) = Some (p_tray t)) as Hb1.
  { apply list_lookup_insert_eq. lia. }
  match goal with |- bb_inv _ (set_person ?s1 i ?t') _ =>
    pose proof (λ P, cnt_move P s s1 i t t' P_store P_advance Hi eq_refl Hp eq_refl) as Hc;
    assert (Forall (person_ok s1 b1) (people (set_person s1 i t'))) as Hpeople
  end.
  { eapply holder_people; [exact I|exact Hi|by rewrite Hp|done|].
    unfold person_ok in *. rewrite Hp in Hok. simpl. done. }
  pose proof (λ j p, tail_free capacity s b j p I Hroom) as Hfree.
  destruct I as [Ic _ Ih It Il Is Im Ie If I0 _]. split; try done; simpl; rewrite ?Hc; simpl; try done; try lia.
  - split; [done|]. unfold b1. by rewrite length_insert.
  - intros j p Hj. unfold b1. rewrite list_lookup_insert_ne; [by apply Is|].
    intros Ej. by apply (Hfree j p Hj).
  - unfold n_items, queue in *. simpl. lia.
  - unfold n_items, queue in *. simpl. lia.
Qed.

Lemma rem_mod a n : 0 ≤ a → 0 < n → Z.rem a n = a mod n.
Proof. intros. by apply Z.rem_mod_nonneg. Qed.

Lemma succ_mod a k n : 0 < n → ((a + k) mod n + 1) mod n = (a + (k + 1)) mod n.
Proof. intros Hn. rewrite Z.add_mod_idemp_l by lia. f_equal. lia. Qed.

Lemma log_put (tl pl : list nat) p : pl = tl ++ drop (length tl) pl → drop (length tl) (pl ++ [p]) = drop (length tl) pl ++ [p].
Proof.
  intros E. apply drop_app_le. apply (f_equal length) in E. rewrite length_app in E.
  pose proof (length_drop pl (length tl)). lia.
Qed.

Lemma put_step capacity i s b t s1 t' :
  bb_inv capacity s b → people s !! i = Some t → p_pc t = P_advance → bb_put C_loop s t = Next (s1, t') →
  served capacity (set_person s1 i t').
Proof.
  intros I Hi Hp E. pose proof (Forall_lookup_1 _ _ _ _ (i_people _ _ _ I) Hi) as Hok.
  unfold person_ok in Hok. rewrite Hp in Hok. destruct Hok as [[p Etr] Hb]. rewrite Etr in Hb.
  pose proof (reserved_room _ _ _ _ _ I Hi) as Hroom. rewrite Hp in Hroom. specialize (Hroom eq_refl).
  destruct (i_cap _ _ _ I) as [Hc0 Ec]. pose proof (tail_range _ _ _ I) as Ht.
  unfold bb_put in E. rewrite Hp, Etr in E. unfold advance_tail in E.
  rewrite bool_decide_eq_false_2 in E by lia. simpl in E. injection E as <- <-. exists b.
  match goal with |- bb_inv _ (set_person ?s1 i ?t') _ =>
    pose proof (λ P, cnt_move P s s1 i t t' P_advance P_unlock Hi eq_refl Hp eq_refl) as Hc;
    assert (queue (set_person s1 i t') = queue s ++ [p]) as Hq by (apply log_put, (i_log _ _ _ I));
    assert (Forall (person_ok s1 b) (people (set_person s1 i t'))) as Hpeople
      by (eapply holder_people; [exact I|exact Hi|by rewrite Hp|done|done])
  end.
  assert (∀ s', queue s' = queue s ++ [p] → n_items s' = n_items s + 1) as Hn.
  { intros s' Es. unfold n_items. rewrite Es, length_app. simpl. lia. }
  destruct I as [Ic Ib Ih It Il Is Im Ie If I0 _].
  split; try done; simpl; rewrite ?Hc, ?(Hn _ Hq); simpl; try done; try lia.
  - rewrite rem_mod, Ec, It by lia. by apply succ_mod.
  - rewrite Hq, app_assoc. by f_equal.
  - intros j x. rewrite Hq. intros [Hj|[Hj Hx]]%lookup_app_Some; [by apply Is|].
    apply list_lookup_singleton_Some in Hx as [Hj' ->]. unfold slot_of. simpl.
    replace (Z.of_nat j) with (n_items s) by (unfold n_items; lia). rewrite Ec, <- It. done.
Qed.

Lemma take_step capacity i s b t s1 t' :
  bb_inv capacity s b → people s !! i = Some t → p_pc t = T_advance → bb_take A_log s t = Next (s1, t') →
  served capacity (set_person s1 i t').
Proof.
  intros I Hi Hp E. pose proof (Forall_lookup_1 _ _ _ _ (i_people _ _ _ I) Hi) as Hok.
  unfold person_ok in Hok. rewrite Hp in Hok. destruct Hok as [[p Etr] Hhd]. rewrite Etr in Hhd.
  destruct (queue s) as [|x rest] eqn:Eq; [done|]. simpl in Hhd. injection Hhd as ->.
  destruct (i_cap _ _ _ I) as [Hc0 Ec]. pose proof (i_head _ _ _ I) as Hh.
  unfold bb_take in E. rewrite Hp, Etr in E. unfold advance_head in E.
  rewrite bool_decide_eq_false_2 in E by lia. simpl in E. injection E as <- <-. exists b.
  match goal with |- bb_inv _ (set_person ?s1 i ?t') _ =>
    pose proof (λ P, cnt_move P s s1 i t t' T_advance T_unlock Hi eq_refl Hp eq_refl) as Hc;
    assert (queue (set_person s1 i t') = rest) as Hq;
    [|assert (Forall (person_ok s1 b) (people (set_person s1 i t'))) as Hpeople
      by (eapply holder_people; [exact I|exact Hi|by rewrite Hp|done|simpl; unfold person_ok; simpl; eauto])]
  end.
  { unfold queue in *. simpl. rewrite length_app, <- drop_drop, Eq. done. }
  assert (n_items s = Z.of_nat (length rest) + 1) as Hns by (unfold n_items; rewrite Eq; simpl; lia).
  assert (∀ s', queue s' = rest → n_items s' = Z.of_nat (length rest)) as Hn by (intros s' Es; unfold n_items; by rewrite Es).
  destruct I as [Ic Ib Ih It Il Is Im Ie If I0 _].
  split; try done; simpl; rewrite ?Hc, ?(Hn _ Hq); simpl; try done; try lia.
  - rewrite rem_mod by lia. rewrite Ec. apply Z.mod_pos_bound. lia.
  - rewrite rem_mod by lia. rewrite It, Hns, Ec, Z.add_mod_idemp_l by lia. f_equal. lia.
  - rewrite Hq, <- app_assoc. simpl. by rewrite <- Eq.
  - intros j y. rewrite Hq. intros Hj. specialize (Is (S j) y). rewrite Eq in Is. specialize (Is Hj).
    unfold slot_of in *. simpl. rewrite rem_mod by lia. rewrite Ec in *. rewrite Z.add_mod_idemp_l by lia.
    rewrite <- Is. do 2 f_equal. f_equal. lia.
Qed.

Lemma served_step capacity r i s s' : served capacity s → bb_step r i s = Next s' → served capacity s'.
Proof.
  intros [b I] (t&s1&t'&Hi&E&->)%bb_step_inv. destruct (moves_slots (p_pc t)) eqn:Hm.
  - destruct (p_pc t) eqn:Hp; try discriminate Hm; unfold person_step in E; rewrite Hp in E; simpl in E;
      unfold cook, attendee in E; rewrite Hp in E;
      [by eapply store_step|by eapply put_step|by eapply take_step].
  - exists b. by eapply neutral_step.
Qed.

(** * Ownership of the trays *)

(** The tray a thread is responsible for. *)
Definition owner (t : person) : list nat :=
  match p_pc t with
  | P_wait | P_lock | P_store | P_advance | T_unlock | T_post | A_log | A_free => option_list (p_tray t)
  | _ => []
  end.
Definition owned (s : snacks) : list nat := concat (owner <$> people s) ++ queue s.

Definition live (s : snacks) (p : nat) : Prop := ∃ tray, heap s !! p = Some (Some tray).

(** Every allocated tray has one owner: a thread or the queue. *)
Record own_inv (s : snacks) : Prop := {
  o_nodup : NoDup (owned s);
  o_live : ∀ p, p ∈ owned s ↔ live s p;
}.

Lemma concat_insert {A B} (f : A → list B) ts i t t' :
  ts !! i = Some t → concat (f <$> <[i := t']> ts) ++ f t ≡ₚ concat (f <$> ts) ++ f t'.
Proof.
  revert i. induction ts as [|u ts IH]; intros [|i] Hi; simpl in *; [done|done| |].
  - injection Hi as ->. rewrite <- !app_assoc. rewrite (Permutation_app_comm (f t')), (Permutation_app_comm (f t)).
    rewrite <- !app_assoc. apply Permutation_app_head. apply Permutation_app_comm.
  - rewrite <- !app_assoc. apply Permutation_app_head. by apply IH.
Qed.

(** The owners after a step that gives the tray list [mine] of the thread for
    [mine'] and the queue [q] for [q']. *)
Lemma owned_step s s1 i t t' :
  people s !! i = Some t → people s1 = people s →
  owner t' ++ queue s1 ≡ₚ owner t ++ queue s → owned (set_person s1 i t') ≡ₚ owned s.
Proof.
  intros Hi Ep Hq. unfold owned. change (queue (set_person s1 i t')) with (queue s1). simpl. rewrite Ep.
  pose proof (concat_insert owner _ _ _ t' Hi) as Hc.
  apply (Permutation_app_inv_l (owner t)).
  etransitivity; [apply Permutation_app_swap_app|]. etransitivity; [|apply Permutation_app_swap_app].
  etransitivity; [|apply Permutation_app_head, Hq]. rewrite !app_assoc. by apply Permutation_app_tail.
Qed.

Lemma own_inv_perm s s' : owned s' ≡ₚ owned s → heap s' = heap s → own_inv s → own_inv s'.
Proof.
  intros Hp Hh [Hn Hl]. split; [by rewrite Hp|]. intros p. rewrite Hp, Hl. unfold live. by rewrite Hh.
Qed.

(** The steps that create or free a tray. *)
Definition changes_heap (p : bpc) : bool := match p with C_create | A_free => true | _ => false end.

Lemma step_owner capacity r i s b t s1 t' :
  bb_inv capacity s b → people s !! i = Some t → person_step r s t = Next (s1, t') →
  changes_heap (p_pc t) = false → owner t' ++ queue s1 ≡ₚ owner t ++ queue s ∧ heap s1 = heap s.
Proof.
  intros I Hi E Hh. destruct (moves_slots (p_pc t)) eqn:Hm.
  - pose proof (Forall_lookup_1 _ _ _ _ (i_people _ _ _ I) Hi) as Hok. pose proof (i_log _ _ _ I) as Hl.
    clear Hi I. bb_cases E t; try discriminate Hm; unfold person_ok in Hok; simpl in Hok.
    + unfold store_slot in E. repeat case_match; by simplify_eq.
    + destruct Hok as [[p ->] _]. unfold advance_tail in E. destruct (bool_decide _); simplify_eq. split; [|done].
      unfold queue at 1, owner. simpl. rewrite log_put by done. apply (Permutation_app_comm (queue s) [p]).
    + destruct Hok as [[p ->] Hq]. unfold advance_head in E. destruct (bool_decide _); simplify_eq. split; [|done].
      unfold queue in *. simpl. rewrite length_app, <- drop_drop. destruct (drop _ (put_log s)); [done|].
      simpl in *. by simplify_eq.
  - rewrite (same_slots_queue _ _ (step_same_slots _ _ _ _ _ E Hm)). clear I Hi.
    bb_cases E t; try discriminate Hm; try discriminate Hh; repeat case_match; try discriminate E; by simplify_eq.
Qed.

Lemma owned_change s s1 i t t' :
  people s !! i = Some t → people s1 = people s → queue s1 = queue s →
  owner t ++ owned (set_person s1 i t') ≡ₚ owner t' ++ owned s.
Proof.
  intros Hi Ep Hq. unfold owned. change (queue (set_person s1 i t')) with (queue s1). simpl. rewrite Ep, Hq, !app_assoc.
  apply Permutation_app_tail. etransitivity; [apply Permutation_app_comm|].
  etransitivity; [by apply concat_insert|]. apply Permutation_app_comm.
Qed.

Lemma own_create s s1 i t t' tray :
  own_inv s → people s !! i = Some t → people s1 = people s → queue s1 = queue s →
  heap s1 = heap s ++ [Some tray] → owner t = [] → owner t' = [length (heap s)] →
  own_inv (set_person s1 i t').
Proof.
  intros [Hn Hl] Hi Ep Hq Hh Ho Ho'. pose proof (owned_change s s1 i t t' Hi Ep Hq) as Hc.
  rewrite Ho, Ho' in Hc. simpl in Hc. split.
  - rewrite Hc. constructor; [|done]. intros (x&Hx)%Hl. apply lookup_lt_Some in Hx. lia.
  - intros p. rewrite Hc, elem_of_cons, Hl. unfold live. simpl. rewrite Hh. split.
    + intros [->|[x Hx]]; [exists tray; apply list_lookup_middle; done|]. exists x. by apply lookup_app_l_Some.
    + intros [x [Hx|[Hp Hx]]%lookup_app_Some]; [right; eauto|left].
      apply list_lookup_singleton_Some in Hx as [Hx _]. lia.
Qed.

Lemma own_free s s1 i t t' p :
  own_inv s → people s !! i = Some t → people s1 = people s → queue s1 = queue s →
  heap s1 = <[p := None]> (heap s) → owner t = [p] → owner t' = [] → own_inv (set_person s1 i t').
Proof.
  intros [Hn Hl] Hi Ep Hq Hh Ho Ho'. pose proof (owned_change s s1 i t t' Hi Ep Hq) as Hc.
  rewrite Ho, Ho' in Hc. simpl in Hc. rewrite <- Hc in Hn. apply list.NoDup_cons in Hn as [Hp Hn].
  split; [done|]. intros x. unfold live. simpl. rewrite Hh. split.
  - intros Hx. assert (live s x) as [tr Htr] by (apply Hl; rewrite <- Hc; by right).
    exists tr. rewrite list_lookup_insert_ne; [done|]. by intros <-.
  - intros [tr [(_&?&_)|[Hne Htr]]%list_lookup_insert_Some]; [done|].
    assert (x ∈ owned s) as Hx by (apply Hl; by eexists). rewrite <- Hc in Hx.
    apply elem_of_cons in Hx as [->|Hx]; done.
Qed.

Lemma own_inv_step capacity r i s s' :
  served capacity s → own_inv s → bb_step r i s = Next s' → own_inv s'.
Proof.
  intros [b I] O (t&s1&t'&Hi&E&->)%bb_step_inv. pose proof (person_step_people _ _ _ _ _ E) as Ep.
  destruct (changes_heap (p_pc t)) eqn:Hh.
  - assert (queue s1 = queue s) as Hq.
    { apply same_slots_queue, (step_same_slots _ _ _ _ _ E). by destruct (p_pc t). }
    pose proof (Forall_lookup_1 _ _ _ _ (i_people _ _ _ I) Hi) as Hok.
    bb_cases E t; try discriminate Hh.
    + destruct (food_names !! _) as [food|]; [|done]. simplify_eq. by eapply own_create.
    + unfold person_ok in Hok. simpl in Hok. destruct Hok as [p ->]. unfold free_food_tray in E.
      destruct (heap s !! p) as [[tray|]|] eqn:Ex; try discriminate E. simplify_eq. by eapply own_free.
  - destruct (step_owner _ _ _ _ _ _ _ _ I Hi E Hh) as [Hperm Eh].
    eapply own_inv_perm; [by eapply owned_step|done|done].
Qed.

(** The owner of a tray can use it. *)
Lemma owner_live s i t p : own_inv s → people s !! i = Some t → owner t = [p] → live s p.
Proof.
  intros [_ Hl] Hi Ho. apply Hl. unfold owned. apply elem_of_app. left.
  apply list_elem_of_In, in_concat. exists [p]. split; [|by left].
  apply list_elem_of_In, list_elem_of_fmap. exists t. split; [done|]. by eapply list_elem_of_lookup_2.
Qed.

(** No thread faults before the buffer is destroyed. *)
Lemma served_no_fault capacity r i s :
  served capacity s → own_inv s → 0 ≤ r → bb_step r i s ≠ Fault.
Proof.
  intros [b I] O Hr. unfold bb_step. destruct (people s !! i) as [t|] eqn:Hi; [|done].
  assert (person_step r s t ≠ Fault) as Hnf; [|by destruct (person_step r s t) as [| |[]]].
  pose proof (Forall_lookup_1 _ _ _ _ (i_people _ _ _ I) Hi) as Hok.
  destruct (i_buf _ _ _ I) as [Eb Hlen]. destruct (i_cap _ _ _ I) as [Hc0 Ec].
  pose proof (tail_range _ _ _ I) as Ht. pose proof (i_head _ _ _ I) as Hh.
  pose proof (λ p, owner_live s i t p O Hi) as Hlive.
  intros E. bb_cases E t; unfold person_ok in Hok; simpl in Hok, Hlive; 
    try (match type of E with context [if ?b then _ else _] => destruct b end; discriminate E).
  - destruct (lookup_lt_is_Some_2 food_names (Z.to_nat (Z.rem r num_food_types))) as [f Hf]; [|by rewrite Hf in E].
    pose proof (Z.rem_bound_pos r num_food_types Hr). unfold num_food_types in *. simpl. lia.
  - unfold store_slot in E. rewrite Eb in E. rewrite bool_decide_eq_true_2 in E by lia. done.
  - unfold advance_tail in E. rewrite bool_decide_eq_false_2 in E by lia. done.
  - destruct Hok as [p ->]. destruct (Hlive p eq_refl) as [x Hx]. by rewrite Hx in E.
  - destruct Hok as [p ->]. destruct (Hlive p eq_refl) as [x Hx]. unfold free_food_tray in E. by rewrite Hx in E.
  - unfold load_slot in E. rewrite Eb, bool_decide_eq_false_2 in E by lia.
    destruct (lookup_lt_is_Some_2 b (Z.to_nat (head (snack_queue s)))) as [x Hx]; [lia|]. by rewrite Hx in E.
  - unfold advance_head in E. rewrite bool_decide_eq_false_2 in E by lia. done.
Qed.

(** * Tray identifiers *)

(** The identifier a cook has drawn and not yet put on a tray. *)
Definition pending (t : person) : list Z :=
  match p_pc t with C_unlock | C_create => [p_tray_id t] | _ => [] end.
Definition tray_ids (h : list (option food_tray_t)) : list Z := tray_id <$> omap id h.
Definition ids (s : snacks) : list Z := concat (pending <$> people s) ++ tray_ids (heap s).

Record id_inv (s : snacks) : Prop := {
  id_nodup : NoDup (ids s);
  id_bound : ∀ x, x ∈ ids s → x < tray_counter s;
}.

Lemma tray_ids_free h p : sublist (tray_ids (<[p := None]> h)) (tray_ids h).
Proof.
  unfold tray_ids. apply fmap_sublist. revert p. induction h as [|[x|] h IH]; intros [|p]; simpl; try done.
  - by apply sublist_cons.
  - by apply sublist_skip.
Qed.

Lemma ids_change s s1 i t t' :
  people s !! i = Some t → people s1 = people s →
  pending t ++ ids (set_person s1 i t') ≡ₚ pending t' ++ concat (pending <$> people s) ++ tray_ids (heap s1).
Proof.
  intros Hi Ep. unfold ids. simpl. rewrite Ep, !app_assoc. apply Permutation_app_tail.
  etransitivity; [apply Permutation_app_comm|]. etransitivity; [by apply concat_insert|]. apply Permutation_app_comm.
Qed.

Lemma id_inv_perm s s' : ids s' ≡ₚ ids s → tray_counter s' = tray_counter s → id_inv s → id_inv s'.
Proof.
  intros Hp Hc [Hn Hb]. split; [by rewrite Hp|]. intros x. rewrite Hp, Hc. apply Hb.
Qed.

Lemma id_inv_step r i s s' : id_inv s → bb_step r i s = Next s' → id_inv s'.
Proof.
  intros I (t&s1&t'&Hi&E&->)%bb_step_inv. pose proof (person_step_people _ _ _ _ _ E) as Ep.
  pose proof (ids_change s s1 i t t' Hi Ep) as Hc. fold (ids s) in Hc.
  destruct (decide (p_pc t = C_count)) as [Hp|Hp]; [|destruct (decide (p_pc t = C_create)) as [Hp'|Hp'];
    [|destruct (decide (p_pc t = A_free)) as [Hp''|Hp'']]].
  - destruct t as [p id k n tr]. simpl in Hp. subst p. unfold_bb in E. simplify_eq. simpl in Hc.
    destruct I as [Hn Hb]. split.
    + rewrite Hc. constructor; [|done]. intros Hx%Hb. lia.
    + intros x. rewrite Hc. intros [->|Hx%Hb]%elem_of_cons; simpl; lia.
  - destruct t as [p id k n tr]. simpl in Hp'. subst p. unfold_bb in E.
    destruct (food_names !! _) as [f|]; [|done]. simplify_eq. apply (id_inv_perm s); [|done|done].
    apply (Permutation_app_inv_l [n]). etransitivity; [exact Hc|]. unfold ids, tray_ids. simpl.
    rewrite omap_app, fmap_app. simpl. rewrite app_assoc. apply Permutation_app_comm.
  - destruct t as [p id k n tr]. simpl in Hp''. subst p. unfold_bb in E.
    destruct (free_food_tray s tr) as [| |s2] eqn:Ef; simplify_eq. simpl in Hc.
    assert (tray_counter s1 = tray_counter s ∧ sublist (tray_ids (heap s1)) (tray_ids (heap s))) as [Et Hs].
    { unfold free_food_tray in Ef. repeat case_match; simplify_eq; [split; [done|apply tray_ids_free]|done]. }
    assert (sublist (concat (pending <$> people s) ++ tray_ids (heap s1)) (ids s)) as Hsub by (by apply sublist_app).
    destruct I as [Hn Hb]. split.
    + rewrite Hc. by eapply sublist_NoDup.
    + intros x. rewrite Hc. simpl. rewrite Et. intros Hx. eapply Hb, elem_of_sublist; done.
  - assert (pending t' = pending t ∧ heap s1 = heap s ∧ tray_counter s1 = tray_counter s) as (E1&E2&E3).
    { clear Hc Hi. bb_cases E t; try done; unfold store_slot, load_slot, advance_tail, advance_head in E;
        repeat case_match; try discriminate E; by simplify_eq. }
    rewrite E1, E2 in Hc. apply Permutation_app_inv_l in Hc. by eapply id_inv_perm.
Qed.

(** * The states before the buffer is destroyed *)

Definition at_start (t : person) : Prop := p_pc t = C_loop ∨ p_pc t = A_loop.

Lemma start_people capacity nc na : Forall at_start (people (snacks_start capacity nc na)).
Proof.
  simpl. apply Forall_app. split; apply Forall_fmap, Forall_forall; intros i _; [by left|by right].
Qed.

Lemma start_total f ts : Forall at_start ts → (∀ t, at_start t → f t = 0) → total f ts = 0.
Proof. intros Hs Hf. induction Hs as [|t ts Ht _ IH]; simpl; [done|]. rewrite (Hf t Ht). lia. Qed.

Lemma start_concat {A} (f : person → list A) ts :
  Forall at_start ts → (∀ t, at_start t → f t = []) → concat (f <$> ts) = [].
Proof. intros Hs Hf. induction Hs as [|t ts Ht _ IH]; simpl; [done|]. by rewrite (Hf t Ht). Qed.

Lemma start_served capacity nc na : 0 < capacity → served capacity (snacks_start capacity nc na).
Proof.
  intros Hc. pose proof (start_people capacity nc na) as Hs.
  assert (∀ P, P C_loop = false → P A_loop = false → cnt P (snacks_start capacity nc na) = 0) as H0.
  { intros P H1 H2. apply start_total; [done|]. intros t Ht. unfold in_group. by destruct Ht as [-> | ->]; rewrite ?H1, ?H2. }
  exists (replicate (Z.to_nat capacity) None).
  assert (snack_queue (snacks_start capacity nc na) =
    mk_bb (Some (replicate (Z.to_nat capacity) None)) capacity 0 0 capacity 0 false) as Eq.
  { unfold snacks_start, bb_init. simpl. by rewrite bool_decide_eq_false_2 by lia. }
  split; rewrite ?Eq, ?(H0 holds_bb), ?(H0 reserved), ?(H0 unreturned), ?(H0 claimed), ?(H0 unposted) by done;
    unfold n_items, queue; simpl; try done; try lia.
  - split; [done|]. rewrite length_replicate. lia.
  - eapply Forall_impl; [|exact Hs]. intros t Ht. unfold person_ok. by destruct Ht as [-> | ->].
Qed.

Lemma serving_inv capacity nc na s :
  0 < capacity → serving capacity nc na s → served capacity s ∧ own_inv s ∧ id_inv s.
Proof.
  intros Hc. induction 1 as [|r i s s' _ (I&O&D) Hr E].
  - pose proof (start_people capacity nc na) as Hs. split; [by apply start_served|].
    assert (owned (snacks_start capacity nc na) = []) as Ho.
    { unfold owned. rewrite start_concat; [done|done|]. intros t Ht. unfold owner. by destruct Ht as [-> | ->]. }
    assert (ids (snacks_start capacity nc na) = []) as Hi.
    { unfold ids. rewrite start_concat; [done|done|]. intros t Ht. unfold pending. by destruct Ht as [-> | ->]. }
    split; split; rewrite ?Ho, ?Hi; try constructor.
    + by intros ?%elem_of_nil.
    + intros [x Hx]. done.
    + by intros x ?%elem_of_nil.
  - split_and!; [by eapply served_step|by eapply own_inv_step|by eapply id_inv_step].
Qed.
