(* ===== verification/SyncTheorems.v ===== *)
(** The properties of the synchronisation library: the reader-writer lock and
    the bounded buffer under every interleaving of their threads. *)

From stdpp Require Import base option list numbers.
From Stdlib Require Import ZArith Lia.
From S2P Require Import Prelude Counting RwLock RwInv RwLive BoundedBuffer BbInv.
Local Open Scope Z_scope.

(** * The reader-writer lock *)

(** Schedules stay within the reachable states. *)
Lemma reachable_run nr nw sched s s' :
  reachable nr nw s → run_schedule sched s = Some s' → reachable nr nw s'.
Proof.
  revert s. induction sched as [|i sched IH]; intros s R E; simpl in E; [by injection E as <-|].
  destruct (step i s) as [s1|] eqn:E1; [|done]. simpl in E. eapply IH; [|done]. by eapply reach_step.
Qed.

(** A reader enters only when no writer waits. *)
Lemma step_readers i s s' : lock_inv s → step i s = Some s' → readers s < readers s' → writers_waiting s = 0.
Proof.
  intros I (t&s1&t'&Hi&E&->)%step_inv. pose proof (count_lookup entering s i t Hi) as He.
  pose proof (inv_entering _ I). clear Hi. step_cases E t; simpl; try lia.
  unfold at_point in He. simpl in He. lia.
Qed.


(** Two readers are in and a writer waits for them. *)
Definition demo_schedule : list nat :=
  [0; 0; 0; 0; 0; 1; 1; 1; 1; 1; 2; 2; 2; 2; 2]%nat.
Definition demo_state : state := default board (run_schedule demo_schedule (schedule_run 2 1)).

Lemma demo_reachable : reachable 2 1 demo_state.
Proof. apply (reachable_run 2 1 demo_schedule (schedule_run 2 1) _ (reach_init 2 1)). vm_compute. reflexivity. Qed.


(** No wake-up is lost: in every reachable state in which the lock is free,
    its mutex too, and a writer sleeps on the semaphore, some writer that waits
    can take a step towards the lock. *)
Theorem rw_no_lost_wakeup (n_readers n_writers : nat) (s : state) (R : reachable n_readers n_writers s)
  (Hm : m s = false) (Ha : writer_active s = false) (Hr : readers s = 0) (Hs : 0 < count asleep s) :
  ∃ i t s', threads s !! i = Some t ∧ step i s = Some s' ∧ (at_pc t = WL_wait ∨ at_pc t = WL_relock).
Proof.
  destruct (reachable_inv _ _ _ R) as [I _].
  pose proof (inv_wakeup _ I) as Hw. rewrite Ha in Hw. specialize (Hw eq_refl Hr Hs).
  destruct (decide (0 < count attending s)) as [Hat|Hat].
  - apply count_pos in Hat as (i&t&Hi&Ht).
    pose proof (count_zero holds_m s) as Hz. rewrite <- (inv_m _ I), Hm in Hz. specialize (Hz eq_refl i t Hi).
    destruct t as [[] k l]; try discriminate.
    eexists i, _, _. split; [exact Hi|]. split; [|by right].
    unfold step. rewrite Hi. cbn [mbind option_bind]. unfold_step. by rewrite Hm.
  - pose proof (count_nonneg attending s). apply count_pos in Hs as (i&t&Hi&Ht).
    destruct t as [[] k l]; try discriminate. eexists i, _, _. split; [exact Hi|]. split; [|by left].
    unfold step. rewrite Hi. cbn [mbind option_bind]. unfold_step. by rewrite bool_decide_eq_true_2 by lia.
Qed.

(** A writer sleeps while another leaves: the wake-up is in the semaphore. *)
Definition wakeup_schedule : list nat :=
  replicate 7 0%nat ++ replicate 5 1%nat ++ replicate 15 0%nat.
Definition wakeup_state : state := default board (run_schedule wakeup_schedule (schedule_run 0 2)).

Lemma wakeup_reachable : reachable 0 2 wakeup_state.
Proof. apply (reachable_run 0 2 wakeup_schedule (schedule_run 0 2) _ (reach_init 0 2)). vm_compute. reflexivity. Qed.

Lemma rw_no_lost_wakeup_witness :
  0 < count asleep wakeup_state ∧
  ∃ i t s', threads wakeup_state !! i = Some t ∧ step i wakeup_state = Some s' ∧
    (at_pc t = WL_wait ∨ at_pc t = WL_relock).
Proof.
  split; [vm_compute; reflexivity|].
  apply (rw_no_lost_wakeup 0 2 wakeup_state wakeup_reachable); vm_compute; reflexivity.
Defined.

(** The updates of the threads when all have returned. *)
Lemma returned_updates ts :
  Forall (λ t, returned (at_pc t) = true) ts → Forall iter_ok ts →
  total updates ts = WRITER_ROUNDS * total (at_point is_writer) ts.
Proof.
  induction 1 as [|t ts Ht _ IH]; intros Hk; simpl; [done|]. apply Forall_cons_1 in Hk as [Hk Hks].
  rewrite (IH Hks). destruct t as [[] k l]; try discriminate Ht; unfold iter_ok, rounds in Hk; simpl in Hk;
    unfold updates, at_point; simpl; lia.
Qed.

(** C11: The schedule board can always be finished, with the right result: from
    every reachable state some schedule lets all threads return, and whenever
    they have returned the version has counted every update (three for each
    writer) and there was no violation. *)
Theorem schedule_run_completes (n_readers n_writers : nat) (s : state) (R : reachable n_readers n_writers s) :
  (∃ sched s', run_schedule sched s = Some s' ∧ all_returned s') ∧
  (all_returned s → schedule_version s = WRITER_ROUNDS * Z.of_nat n_writers ∧ violation_count s = 0).
Proof.
  destruct (reachable_inv _ _ _ R) as [I U]. split; [by apply can_finish|]. intros Hd.
  destruct (reachable_writers _ _ _ R) as [<- _]. split; [|apply U].
  rewrite (inv_version _ U). apply returned_updates; [done|apply U].
Qed.

Lemma schedule_run_completes_witness :
  (∃ sched s', run_schedule sched wakeup_state = Some s' ∧ all_returned s') ∧
  (all_returned wakeup_state → schedule_version wakeup_state = WRITER_ROUNDS * 2 ∧ violation_count wakeup_state = 0).
Proof. apply (schedule_run_completes 0 2 wakeup_state wakeup_reachable). Defined.

(** The semaphore is not binary: a writer that barges in ahead of the one that was
    woken posts a second time. *)
Theorem wlock_exceeds_one :
  ∃ sched s, run_schedule sched (schedule_run 0 3) = Some s ∧ wlock s = 2.
Proof.
  exists (replicate 7 0%nat ++ replicate 5 1%nat ++ replicate 15 0%nat ++ replicate 22 2%nat).
  eexists. split; [vm_compute; reflexivity|reflexivity].
Qed.

(** * The bounded buffer *)

(** C8: The buffer is a first-in first-out queue of bounded size: in every state
    before it is destroyed, the trays taken are the first of the trays put, in
    order; the others are in the slots from head on, in order, up to the tail;
    there are never more than the capacity; and when no call is in progress the
    semaphores count exactly the used and the free slots, so that a thread
    blocks only when it must. *)
Theorem bb_fifo (capacity : Z) (n_cooks n_attendees : nat) (s : snacks)
  (Hc : 0 < capacity) (S : serving capacity n_cooks n_attendees s) :
  ∃ waiting_trays b,
    put_log s = take_log s ++ waiting_trays ∧ buf (snack_queue s) = Some b ∧
    Z.of_nat (length waiting_trays) ≤ capacity ∧
    tail (snack_queue s) = (head (snack_queue s) + Z.of_nat (length waiting_trays)) mod capacity ∧
    (∀ j p, waiting_trays !! j = Some p →
       b !! Z.to_nat ((head (snack_queue s) + Z.of_nat j) mod capacity) = Some (Some p)) ∧
    (cnt reserved s = 0 → cnt unposted s = 0 → cnt claimed s = 0 → cnt unreturned s = 0 →
       full (snack_queue s) = Z.of_nat (length waiting_trays) ∧
       empty (snack_queue s) = capacity - Z.of_nat (length waiting_trays)).
Proof.
  destruct (serving_inv _ _ _ _ Hc S) as ([b I]&_&_). exists (queue s), b.
  pose proof (i_empty _ _ _ I) as He. pose proof (i_full _ _ _ I) as Hf. unfold n_items in *.
  pose proof (cnt_nonneg reserved s). pose proof (cnt_nonneg unreturned s). pose proof (i_sems _ _ _ I).
  destruct (i_cap _ _ _ I) as [_ Ec]. split_and!.
  - apply (i_log _ _ _ I).
  - apply (i_buf _ _ _ I).
  - lia.
  - apply (i_tail _ _ _ I).
  - intros j p Hj. pose proof (i_slots _ _ _ I j p Hj) as Hs. unfold slot_of in Hs. by rewrite Ec in Hs.
  - lia.
Qed.

(** One cook puts a tray, and starts on the next. *)
Definition bb_demo_schedule : list (Z * nat) := replicate 14 (5, 0%nat).
Definition bb_demo_state : snacks :=
  match bb_run bb_demo_schedule (snacks_start 2 1 1) with Next s => s | _ => snacks_zero end.

Lemma bb_run_serving capacity nc na sched s s' :
  serving capacity nc na s → Forall (λ x, 0 ≤ x.1) sched → bb_run sched s = Next s' → serving capacity nc na s'.
Proof.
  intros Hs Hr. revert s Hs. induction Hr as [|[r i] sched Hr _ IH]; intros s Hs E; simpl in E; [by injection E as <-|].
  destruct (bb_step r i s) as [| |s1] eqn:E1; simpl in E; try done. eapply IH; [|done]. by eapply serve_step.
Qed.

Lemma bb_demo_serving : serving 2 1 1 bb_demo_state.
Proof.
  apply (bb_run_serving 2 1 1 bb_demo_schedule (snacks_start 2 1 1)); [apply serve_start| |vm_compute; reflexivity].
  by apply Forall_replicate.
Qed.

Lemma bb_fifo_witness :
  put_log bb_demo_state = [0%nat] ∧
  ∃ waiting_trays b,
    put_log bb_demo_state = take_log bb_demo_state ++ waiting_trays ∧ buf (snack_queue bb_demo_state) = Some b ∧
    Z.of_nat (length waiting_trays) ≤ 2 ∧
    tail (snack_queue bb_demo_state) = (head (snack_queue bb_demo_state) + Z.of_nat (length waiting_trays)) mod 2 ∧
    (∀ j p, waiting_trays !! j = Some p →
       b !! Z.to_nat ((head (snack_queue bb_demo_state) + Z.of_nat j) mod 2) = Some (Some p)) ∧
    (cnt reserved bb_demo_state = 0 → cnt unposted bb_demo_state = 0 → cnt claimed bb_demo_state = 0 →
     cnt unreturned bb_demo_state = 0 →
       full (snack_queue bb_demo_state) = Z.of_nat (length waiting_trays) ∧
       empty (snack_queue bb_demo_state) = 2 - Z.of_nat (length waiting_trays)).
Proof.
  split; [vm_compute; reflexivity|]. apply (bb_fifo 2 1 1 bb_demo_state); [lia|apply bb_demo_serving].
Defined.

(** C32: Trays are neither lost nor used after they are freed: before the buffer
    is destroyed no step of any thread faults, every allocated tray belongs to
    exactly one thread or is in the buffer, and the identifiers of the
    allocated trays are distinct. *)
Theorem bb_trays_owned (capacity : Z) (n_cooks n_attendees : nat) (s : snacks)
  (Hc : 0 < capacity) (S : serving capacity n_cooks n_attendees s) :
  (∀ r i, 0 ≤ r → bb_step r i s ≠ Fault) ∧
  NoDup (owned s) ∧ (∀ p, p ∈ owned s ↔ ∃ tray, heap s !! p = Some (Some tray)) ∧
  NoDup (tray_ids (heap s)).
Proof.
  destruct (serving_inv _ _ _ _ Hc S) as (I&O&D). split_and!.
  - intros r i Hr. by eapply served_no_fault.
  - apply O.
  - apply O.
  - pose proof (id_nodup _ D) as Hn. apply list.NoDup_app in Hn as (_&_&Hn). done.
Qed.

Lemma bb_trays_owned_witness :
  owned bb_demo_state = [0%nat] ∧
  (∀ r i, 0 ≤ r → bb_step r i bb_demo_state ≠ Fault) ∧
  NoDup (owned bb_demo_state) ∧
  (∀ p, p ∈ owned bb_demo_state ↔ ∃ tray, heap bb_demo_state !! p = Some (Some tray)) ∧
  NoDup (tray_ids (heap bb_demo_state)).
Proof.
  split; [vm_compute; reflexivity|]. apply (bb_trays_owned 2 1 1); [lia|apply bb_demo_serving].
Defined.

(** A run of the whole module: the first cook serves the attendees one by one,
    and is about to store the next tray when the last attendee leaves. *)
Definition snacks_schedule : list (Z * nat) :=
  concat ((λ a, replicate 11 (0, 0%nat) ++ replicate 10 (0, (NUM_COOKS + a)%nat)) <$> seq 0 NUM_ATTENDEES)
  ++ replicate 7 (0, 0%nat).

(** The module destroys the buffer under its cooks: in a run of [snacks_run]
    with its own constants all attendees are served and joined, the buffer is
    destroyed, and the next statement of a cook stores into the freed array. *)
Theorem snacks_use_after_destroy :
  ∃ s s', bb_run snacks_schedule (snacks_start BUF_C NUM_COOKS NUM_ATTENDEES) = Next s ∧
    snacks_end s = Next s' ∧ bb_step 0 0 s' = Fault.
Proof.
  destruct (bb_run snacks_schedule (snacks_start BUF_C NUM_COOKS NUM_ATTENDEES)) as [| |s] eqn:E;
    [vm_compute in E; discriminate E..|].
  exists s. vm_compute in E. injection E as <-. eexists. split; [reflexivity|]. split; reflexivity.
Qed.
