(* ===== verification/XvProc.v ===== *)
(** The process table of xv6 and its scheduler (proc.c, sysproc.c, the timer
    interrupt of trap.c, the reference counts of vm.c, the file table of
    file.c).  An event runs a piece of kernel code of one processor up to the
    next point where another processor can take a lock or where the processor
    switches to another process; the rest of the code is the [kpoint] of the
    process, which stands for its kernel stack.  [None] is a panic or a double
    free.  The results of the memory allocator and of the program loader are
    arguments of the events; [services_ok] states what is relied on. *)

From stdpp Require Import base option list numbers gmap.
From coqutil Require Import Byte Datatypes.RecordSettersUsingExistingGetters.
From Stdlib Require Import Strings.Byte ZArith Lia.
From S2P Require Import Prelude.
Local Open Scope Z_scope.

Global Arguments set {R E} getter {Setter} fieldUpdater r /.
Global Arguments tset {R E} t {Setter} _ /.
Global Arguments const {E} newValue _ /.

(** * Data *)

Definition NPROC : nat := 64.
Definition NOFILE : nat := 16.
Definition NFILE : nat := 100.
Definition MAXPROCNAMELEN : nat := 16.
Definition PGSIZE : Z := 4096.
Global Arguments NPROC : simpl never.
Global Arguments NOFILE : simpl never.
Global Arguments NFILE : simpl never.
Definition STCF_INIT_REMAIN : Z := 2147483647.

Inductive procstate := UNUSED | EMBRYO | SLEEPING | RUNNABLE | RUNNING | ZOMBIE.
Global Instance procstate_eq_dec : EqDecision procstate.
Proof. solve_decision. Defined.

(** The addresses processes sleep on: a slot of the process table, the tick
    counter, and the objects of the rest of the kernel. *)
Inductive channel := ch_proc (i : nat) | ch_ticks | ch_addr (a : Z).
Global Instance channel_eq_dec : EqDecision channel.
Proof. solve_decision. Defined.

(** Where the kernel code of a process continues. *)
Inductive kpoint :=
  | K_user                                  (* in user code *)
  | K_trapret                               (* trap, after its yield, on the way to user code *)
  | K_forkret                               (* a new process, in forkret *)
  | K_ret (v : Z)                           (* the system call returns v *)
  | K_yield (next : kpoint)                 (* before a call of yield *)
  | K_woken (next : kpoint)                 (* sleep, after sched *)
  | K_fork (np : nat)                       (* fork, after allocproc *)
  | K_clone (np : nat) (fn stack arg : Z)   (* clone, after allocproc *)
  | K_wait                                  (* wait, at the head of its loop *)
  | K_sleep (ticks0 n : Z)                  (* sys_sleep, at the head of its loop *)
  | K_exec                                  (* before a call of exec *)
  | K_exit                                  (* exit, with the files closed *)
  | K_kernel.                               (* other kernel code *)

(** The registers of a trap frame that the code changes. *)
Record trapframe := mk_tf { tf_eax : Z; tf_esp : Z; tf_eip : Z }.

Record proc := mk_proc {
  sz : Z;
  pgdir : Z;                     (* an address; 0 is the null pointer *)
  kstack : Z;
  state : procstate;
  pid : Z;
  parent : option nat;           (* a slot of the table *)
  tf : trapframe;
  kctx : kpoint;
  chan : option channel;
  killed : bool;
  ofile : list (option nat);     (* slots of the file table *)
  cwd : option nat;
  name : cstr;
  nclone : Z;
  sleepticks : Z;
  t_remain : Z;
  t_last_scheduled : Z;
  skip_once : bool;
}.

Record uvmdesc := mk_uvm { uvm_pgdir : Z; refcount : Z }.

Inductive ftype := FD_NONE | FD_PIPE | FD_INODE.
Global Instance ftype_eq_dec : EqDecision ftype.
Proof. solve_decision. Defined.
Record file := mk_file { f_type : ftype; ref : Z; readable : bool; writable : bool; f_obj : nat; f_off : Z }.

(** A processor: the process it runs, and the position of the loop of the
    round-robin scheduler. *)
Record cpu := mk_cpu { cpu_proc : option nat; rr_next : nat }.

Record kernel := mk_kernel {
  ptable : list proc;
  cpus : list cpu;
  initproc : option nat;
  nextpid : Z;
  skip_target : option nat;
  ticks : Z;
  uvmrefcount : list uvmdesc;
  vms : gset Z;                  (* the page directories that are allocated *)
  ftable : list file;
}.

(** * Access *)

Definition upd (i : nat) (f : proc → proc) (s : kernel) : kernel := { s with ptable ::= alter f i }.
Definition set_cpu (c : nat) (f : cpu → cpu) (s : kernel) : kernel := { s with cpus ::= alter f c }.
Definition goto (k : kpoint) (p : proc) : proc := { p with kctx := k }.

Definition myproc (c : nat) (s : kernel) : option nat := cpus s !! c ≫= cpu_proc.

Definition ticks_now (s : kernel) : Z := ticks s.

(** * Accounting and switching *)

Definition stcf_account_before_switch (now : Z) (p : proc) : proc :=
  if bool_decide (0 ≤ t_last_scheduled p)
  then let elapsed := s32 (u32 (now - u32 (t_last_scheduled p))) in
       { p with t_remain := s32 (t_remain p - elapsed) }
  else p.

(** [sched]: back to the scheduler of the processor. *)
Definition sched (c : nat) : kernel → kernel := set_cpu c (λ x, { x with cpu_proc := None }).

(** [yield], called by process [i] of processor [c], which goes on at [next]. *)
Definition yield (c i : nat) (next : kpoint) (s : kernel) : kernel :=
  sched c (upd i (λ p, { stcf_account_before_switch (ticks_now s) p with state := RUNNABLE; kctx := next }) s).

(** [sleep] up to its switch; the caller goes on at [next]. *)
Definition sleep (c i : nat) (ch : channel) (next : kpoint) (s : kernel) : kernel :=
  sched c (upd i (λ p, { stcf_account_before_switch (ticks_now s) ({ p with chan := Some ch }) with state := SLEEPING; kctx := K_woken next }) s).

Definition wake (ch : option channel) (p : proc) : proc :=
  if bool_decide (state p = SLEEPING) && bool_decide (chan p = ch) then { p with state := RUNNABLE } else p.
Definition wakeup1 (ch : option channel) (s : kernel) : kernel := { s with ptable ::= fmap (wake ch) }.
Definition wakeup (ch : channel) : kernel → kernel := wakeup1 (Some ch).

Definition notify (p : proc) : proc :=
  if bool_decide (state p = SLEEPING) && bool_decide (chan p = Some ch_ticks)
  then if bool_decide (sleepticks p = 0) then { p with state := RUNNABLE } else { p with sleepticks := s32 (sleepticks p - 1) }
  else p.
Definition sleep_proc_notify (s : kernel) : kernel := { s with ptable ::= fmap notify }.

(** * The scheduler *)

(** The comparison of the two passes of the STCF scheduler. *)
Definition better (p best : proc) : bool :=
  bool_decide (t_remain p < t_remain best) ||
  (bool_decide (t_remain p = t_remain best) && bool_decide (pid best < pid p)).

(** One pass over the table from slot [i] on, over the candidates of the pass. *)
Fixpoint pick (candidate : nat → proc → bool) (i : nat) (l : list proc) (best : option (nat * proc)) : option (nat * proc) :=
  match l with
  | [] => best
  | p :: l =>
      let best :=
        if negb (bool_decide (state p = RUNNABLE)) then best
        else if negb (candidate i p) then best
        else match best with
             | None => Some (i, p)
             | Some (_, b) => if better p b then Some (i, p) else best
             end in
      pick candidate (S i) l best
  end.

Definition pass1 (skip : option nat) (i : nat) (p : proc) : bool :=
  negb (skip_once p) && negb (bool_decide (skip = Some i)).

Definition stcf_pick (s : kernel) : option nat :=
  match pick (pass1 (skip_target s)) 0 (ptable s) None with
  | Some (i, _) => Some i
  | None => fst <$> pick (λ _ _, true) 0 (ptable s) None
  end.

(** [switchuvm] panics without a kernel stack or a page directory. *)
Definition switchuvm (i : nat) (s : kernel) : option kernel :=
  p ← ptable s !! i;
  if bool_decide (kstack p = 0) || bool_decide (pgdir p = 0) then None else Some s.

(** One turn of the loop of the STCF scheduler, up to the switch to a process. *)
Definition scheduler_stcf (c : nat) (s : kernel) : option kernel :=
  match stcf_pick s with
  | None => Some s
  | Some best =>
      let s1 := match skip_target s with
                | Some t => if bool_decide (best ≠ t)
                            then { upd t (λ p, { p with skip_once := false }) s with skip_target := None } else s
                | None => s
                end in
      s2 ← switchuvm best (set_cpu c (λ x, { x with cpu_proc := Some best }) s1);
      Some (upd best (λ p, { p with state := RUNNING; t_last_scheduled := s32 (ticks_now s2) }) s2)
  end.

(** The loop of the round-robin scheduler from its position on, up to the next
    switch or to the end of the table. *)
Fixpoint next_runnable (i : nat) (l : list proc) : option nat :=
  match l with
  | [] => None
  | p :: l => if bool_decide (state p = RUNNABLE) then Some i else next_runnable (S i) l
  end.
Definition scheduler_rr (c : nat) (s : kernel) : option kernel :=
  x ← cpus s !! c;
  match next_runnable (rr_next x) (drop (rr_next x) (ptable s)) with
  | None => Some (set_cpu c (λ x, { x with rr_next := 0%nat }) s)
  | Some i =>
      s1 ← switchuvm i (set_cpu c (λ _, mk_cpu (Some i) (S i)) s);
      Some (upd i (λ p, { p with state := RUNNING }) s1)
  end.

(** The scheduler of the configuration the kernel is built with. *)
Definition scheduler (stcf : bool) (c : nat) (s : kernel) : option kernel :=
  if stcf then scheduler_stcf c s else scheduler_rr c s.

(** * Shared address spaces *)

Definition uses_uvm (pd : Z) (u : uvmdesc) : bool :=
  negb (bool_decide (refcount u = -1)) && bool_decide (uvm_pgdir u = pd).

Definition locate_uvmrefcount (pd : Z) (s : kernel) : option nat :=
  fst <$> list_find (uses_uvm pd) (uvmrefcount s).

Definition allocate_uvmrefcount (pd n : Z) (s : kernel) : kernel :=
  match list_find (λ u, refcount u = -1) (uvmrefcount s) with
  | Some (j, _) => { s with uvmrefcount ::= <[j := mk_uvm pd n]> }
  | None => s
  end.

(** The part of [freevm] after the test of the reference count. *)
Definition release_vm (pd : Z) (s : kernel) : option kernel :=
  if bool_decide (pd = 0) then None
  else if bool_decide (pd ∈ vms s) then Some ({ s with vms ::= λ v, v ∖ {[pd]} }) else None.

Definition freevm (pd : Z) (s : kernel) : option kernel :=
  match locate_uvmrefcount pd s with
  | None => release_vm pd s
  | Some j =>
      u ← uvmrefcount s !! j;
      if bool_decide (refcount u < 1) then None
      else if bool_decide (refcount u - 1 ≠ 0)
      then Some ({ s with uvmrefcount ::= <[j := mk_uvm (uvm_pgdir u) (refcount u - 1)]> })
      else release_vm pd ({ s with uvmrefcount ::= <[j := mk_uvm (uvm_pgdir u) (-1)]> })
  end.

(** * Open files *)

Definition filealloc (t : list file) : option (nat * list file) :=
  match list_find (λ f, ref f = 0) t with
  | Some (j, f) => Some (j, <[j := { f with ref := 1 }]> t)
  | None => None
  end.

Definition filedup (j : nat) (t : list file) : option (list file) :=
  f ← t !! j;
  if bool_decide (ref f < 1) then None else Some (<[j := { f with ref ::= Z.add 1 }]> t).

(** [fileclose]: the second result is the file to be closed when this was its
    last reference. *)
Definition fileclose (j : nat) (t : list file) : option (list file * option file) :=
  f ← t !! j;
  if bool_decide (ref f < 1) then None
  else if bool_decide (0 < ref f - 1) then Some (<[j := { f with ref ::= Z.pred }]> t, None)
  else Some (<[j := { f with ref := 0; f_type := FD_NONE }]> t, Some f).

(** The loop of [fork] and [clone] over the open files: [from] is the table of
    the caller, [to] the one of the new process. *)
Fixpoint dup_files (from to : list (option nat)) (t : list file) : option (list (option nat) * list file) :=
  match from, to with
  | Some j :: from, _ :: to =>
      t ← filedup j t; '(l, t) ← dup_files from to t; Some (Some j :: l, t)
  | None :: from, o :: to => '(l, t) ← dup_files from to t; Some (o :: l, t)
  | _, _ => Some ([], t)
  end.

(** The loop of [exit]. *)
Fixpoint close_files (l : list (option nat)) (t : list file) : option (list file) :=
  match l with
  | [] => Some t
  | Some j :: l => '(t, _) ← fileclose j t; close_files l t
  | None :: l => close_files l t
  end.

(** [fdalloc], with the descriptor and the changed table. *)
Definition fdalloc (j : nat) (l : list (option nat)) : option (nat * list (option nat)) :=
  match list_find (λ o, o = None) l with
  | Some (fd, _) => Some (fd, <[fd := Some j]> l)
  | None => None
  end.

(** * Creating processes *)

(** The contents of a page that was just allocated: [kfree] fills it with ones. *)
Definition junk : Z := 16843009.

(** [allocproc] given the result of [kalloc]; the increment of [nextpid] must
    not overflow. *)
Definition allocproc (stack : Z) (s : kernel) : option (option nat * kernel) :=
  match list_find (λ p, state p = UNUSED) (ptable s) with
  | None => Some (None, s)
  | Some (np, _) =>
      if bool_decide (nextpid s = 2147483647) then None
      else
        let s := { upd np (λ p, { p with state := EMBRYO; pid := nextpid s; nclone := 0; sleepticks := -1; chan := None }) s with nextpid ::= Z.add 1 } in
        if bool_decide (stack = 0) then Some (None, upd np (λ p, { p with kstack := 0; state := UNUSED }) s)
        else
          Some (Some np,
                upd np (λ p, { p with kstack := stack; tf := mk_tf junk junk junk; kctx := K_forkret;
                                  t_remain := STCF_INIT_REMAIN; t_last_scheduled := -1; skip_once := false }) s)
  end.

(** [safestrcpy] of a string into a buffer of [n] bytes. *)
Definition safestrcpy (n : nat) (t : cstr) : cstr := take (n - 1) t.

(** [userinit], given the results of [allocproc]'s [kalloc], of [setupkvm] and
    of [namei]. *)
Definition userinit (stack pd : Z) (root : nat) (s : kernel) : option kernel :=
  '(op, s) ← allocproc stack s;
  p ← op;
  if bool_decide (pd = 0) then None
  else
    Some (upd p (λ x, { x with pgdir := pd; sz := PGSIZE; tf := mk_tf 0 PGSIZE 0;
                           name := safestrcpy MAXPROCNAMELEN (cs "initcode"); cwd := Some root; state := RUNNABLE;
                           t_remain := STCF_INIT_REMAIN; t_last_scheduled := -1; skip_once := false })
              ({ s with initproc := Some p; vms ::= λ v, {[pd]} ∪ v })).

(** [fork] from its second call on: [pd] is the result of [copyuvm]. *)
Definition fork (i np : nat) (pd : Z) (s : kernel) : option kernel :=
  cur ← ptable s !! i; child ← ptable s !! np;
  if bool_decide (pd = 0)
  then Some (upd i (goto (K_ret (-1))) (upd np (λ p, { p with pgdir := 0; kstack := 0; state := UNUSED }) s))
  else
    '(files, t) ← dup_files (ofile cur) (ofile child) (ftable s);
    let s1 := upd np (λ p, { p with pgdir := pd; sz := sz cur; parent := Some i; tf := { tf cur with tf_eax := 0 };
                               ofile := files; cwd := cwd cur; name := safestrcpy MAXPROCNAMELEN (name cur);
                               t_remain := t_remain cur; t_last_scheduled := -1; skip_once := false;
                               state := RUNNABLE })
                  ({ s with ftable := t; vms ::= λ v, {[pd]} ∪ v }) in
    Some (upd i (goto (K_yield (K_ret (pid child)))) s1).

(** The digits [clone] writes after a name of length [i]: the number of the
    thread, its last digit first, as long as the buffer has room.  Every turn
    uses one byte of the buffer, which bounds [fuel]. *)
Fixpoint thread_suffix (fuel i : nat) (threadnum : Z) : cstr :=
  match fuel with
  | O => []
  | S fuel =>
      if bool_decide (threadnum ≠ 0) && bool_decide (i < MAXPROCNAMELEN - 1)%nat
      then byte.of_Z (48 + Z.rem threadnum 10) :: thread_suffix fuel (S i) (Z.quot threadnum 10)
      else []
  end.
Definition thread_name (n : cstr) (threadnum : Z) : cstr :=
  let n := safestrcpy MAXPROCNAMELEN n in n ++ thread_suffix MAXPROCNAMELEN (length n) threadnum.

(** The new thread shares the address space of the caller. *)
Definition share_vm (pd : Z) (s : kernel) : kernel :=
  match locate_uvmrefcount pd s with
  | Some j => { s with uvmrefcount ::= alter (λ u, { u with refcount ::= Z.add 1 }) j }
  | None => allocate_uvmrefcount pd 2 s
  end.

(** [clone] from its second call on. *)
Definition clone (i np : nat) (fn stack arg : Z) (s : kernel) : option kernel :=
  cur ← ptable s !! i; child ← ptable s !! np;
  let s1 := share_vm (pgdir cur) s in
  '(files, t) ← dup_files (ofile cur) (ofile child) (ftable s);
  let s2 := upd np (λ p, { p with pgdir := pgdir cur; chan := None; sz := sz cur; parent := Some i;
                             tf := { tf cur with tf_eax := 0; tf_esp := u32 (stack - 8); tf_eip := fn };
                             ofile := files; cwd := cwd cur; name := thread_name (name cur) (nclone cur + 1);
                             nclone ::= Z.add 1; state := RUNNABLE })
                ({ s1 with ftable := t }) in
  Some (upd i (λ p, { p with nclone ::= Z.add 1; kctx := K_ret (pid child) }) s2).

(** * Ending processes *)

(** [exit] up to its critical section.  The kernel calls made for the last
    reference of a file or of the current directory are not followed. *)
Definition exit (i : nat) (s : kernel) : option kernel :=
  p ← ptable s !! i;
  if bool_decide (initproc s = Some i) then None
  else
    t ← close_files (ofile p) (ftable s);
    Some (upd i (λ p, { p with ofile := (λ _, None) <$> ofile p; cwd := None; kctx := K_exit }) ({ s with ftable := t })).

Definition set_parent (x : option nat) (p : proc) : proc := { p with parent := x }.

(** One turn of the loop of [exit] over the table: slot [j] is handed to the
    first process when its parent is [i]. *)
Definition reparent (i : nat) (s : kernel) (j : nat) : kernel :=
  match ptable s !! j with
  | Some p =>
      if bool_decide (parent p = Some i)
      then let s := upd j (set_parent (initproc s)) s in
           if bool_decide (state p = ZOMBIE) then wakeup1 (ch_proc <$> initproc s) s else s
      else s
  | None => s
  end.

(** The critical section of [exit]. *)
Definition exit_zombie (c i : nat) (s : kernel) : option kernel :=
  p ← ptable s !! i;
  let s := wakeup1 (ch_proc <$> parent p) s in
  let s := foldl (reparent i) s (seq 0 NPROC) in
  Some (sched c (upd i (λ p, { stcf_account_before_switch (ticks_now s) p with state := ZOMBIE }) s)).

(** The scan of [wait]: whether there are children, and the first zombie. *)
Fixpoint wait_scan (i : nat) (j : nat) (l : list proc) (havekids : bool) : bool * option nat :=
  match l with
  | [] => (havekids, None)
  | p :: l =>
      if bool_decide (parent p ≠ Some i) then wait_scan i (S j) l havekids
      else if bool_decide (state p = ZOMBIE) then (true, Some j)
      else wait_scan i (S j) l true
  end.

(** The slot of a child that has been collected. *)
Definition reap (p : proc) : proc :=
  { p with kstack := 0; pid := 0; parent := None; name := []; killed := false; state := UNUSED }.

(** One turn of the loop of [wait]. *)
Definition wait (c i : nat) (s : kernel) : option kernel :=
  cur ← ptable s !! i;
  match wait_scan i 0 (ptable s) false with
  | (_, Some j) =>
      p ← ptable s !! j;
      s ← freevm (pgdir p) s;
      let s := upd j reap s in
      Some (upd i (goto (K_ret (pid p))) s)
  | (havekids, None) =>
      if negb havekids || killed cur then Some (upd i (goto (K_ret (-1))) s)
      else Some (sleep c i (ch_proc i) K_wait s)
  end.

(** [kill], with its result. *)
Definition kill (n : Z) (s : kernel) : Z * kernel :=
  match list_find (λ p, pid p = n) (ptable s) with
  | Some (j, _) =>
      (0, upd j (λ p, { p with killed := true; state := if bool_decide (state p = SLEEPING) then RUNNABLE else state p }) s)
  | None => (-1, s)
  end.

(** * Programs *)

(** What the loading part of [exec] builds: the new address space, its size,
    the entry point, the stack pointer, and the last component of the path. *)
Record image := mk_image { im_pgdir : Z; im_sz : Z; im_entry : Z; im_sp : Z; im_last : cstr }.

(** [exec] from the commit on; without an image it has failed before. *)
Definition exec (i : nat) (im : option image) (s : kernel) : option kernel :=
  p ← ptable s !! i;
  match im with
  | None => Some (upd i (goto (K_ret (-1))) s)
  | Some im =>
      let s := upd i (λ p, { p with name := safestrcpy MAXPROCNAMELEN (im_last im); pgdir := im_pgdir im; sz := im_sz im;
                               tf := { tf p with tf_eip := im_entry im; tf_esp := im_sp im } })
                   ({ s with vms ::= λ v, {[im_pgdir im]} ∪ v }) in
      s ← switchuvm i s;
      s ← freevm (pgdir p) s;
      Some (upd i (goto (K_ret 0)) s)
  end.

(** [growproc], given the result of [allocuvm] or [deallocuvm]. *)
Definition growproc (i : nat) (n newsz : Z) (s : kernel) : option (Z * kernel) :=
  if bool_decide (n ≠ 0) && bool_decide (newsz = 0) then Some (-1, s)
  else
    let s := if bool_decide (n = 0) then s else upd i (λ p, { p with sz := newsz }) s in
    s ← switchuvm i s; Some (0, s).

(** * System calls *)

(** A system call with its arguments; [None] is an argument that cannot be
    fetched.  The calls that create a process carry the result of [kalloc];
    [S_sbrk] carries the one of [allocuvm]. *)
Inductive call :=
  | S_fork (stack : Z)
  | S_clone (stack : Z) (fn ustack arg : Z)
  | S_exit
  | S_wait
  | S_kill (n : option Z)
  | S_getpid
  | S_sbrk (n : option Z) (newsz : Z)
  | S_sleep (n : option Z)
  | S_uptime
  | S_remain (new_time : option Z)
  | S_exec (args_ok : bool)
  | S_exec2 (time_to_complete : option Z) (args_ok : bool)
  | S_give_cpu
  | S_dup (fd : option Z)
  | S_close (fd : option Z)
  | S_open (ip : nat) (omode : Z)
  | S_other.

Section system_calls.
Context (c i : nat).

Definition return_value (v : Z) (s : kernel) : option kernel := Some (upd i (goto (K_ret v)) s).

Definition sys_fork (stack : Z) (s : kernel) : option kernel :=
  '(np, s) ← allocproc stack s;
  match np with
  | None => return_value (-1) s
  | Some np => Some (upd i (goto (K_fork np)) s)
  end.

Definition sys_clone (stack fn ustack arg : Z) (s : kernel) : option kernel :=
  '(np, s) ← allocproc stack s;
  match np with
  | None => return_value (-1) s
  | Some np => Some (upd i (goto (K_clone np fn ustack arg)) s)
  end.

Definition sys_kill (n : option Z) (s : kernel) : option kernel :=
  match n with
  | None => return_value (-1) s
  | Some n => let '(r, s) := kill n s in return_value r s
  end.

Definition sys_getpid (s : kernel) : option kernel := p ← ptable s !! i; return_value (pid p) s.

Definition sys_sbrk (n : option Z) (newsz : Z) (s : kernel) : option kernel :=
  p ← ptable s !! i;
  match n with
  | None => return_value (-1) s
  | Some n =>
      '(r, s) ← growproc i n newsz s;
      if bool_decide (r < 0) then return_value (-1) s else return_value (sz p) s
  end.

(** The loop of [sys_sleep], from its condition on. *)
Definition sleep_loop (ticks0 n : Z) (s : kernel) : option kernel :=
  p ← ptable s !! i;
  if bool_decide (u32 (ticks s - ticks0) < u32 n)
  then if killed p then return_value (-1) s else Some (sleep c i ch_ticks (K_sleep ticks0 n) s)
  else return_value 0 (upd i (λ p, { p with sleepticks := -1 }) s).

Definition sys_sleep (n : option Z) (s : kernel) : option kernel :=
  match n with
  | None => return_value (-1) s
  | Some n =>
      if bool_decide (n = 0) then Some (upd i (goto (K_yield (K_ret 0))) s)
      else sleep_loop (ticks s) n (upd i (λ p, { p with sleepticks := n }) s)
  end.

Definition sys_uptime (s : kernel) : option kernel := return_value (ticks s) s.

Definition sys_remain (new_time : option Z) (s : kernel) : option kernel :=
  p ← ptable s !! i;
  match new_time with
  | None => return_value (-1) s
  | Some new_time =>
      if bool_decide (new_time ≤ 0) then return_value (-1) s
      else
        let s := upd i (λ p, { p with t_remain := new_time }) s in
        if bool_decide (t_remain p < new_time) then Some (upd i (goto (K_yield (K_ret 0))) s) else return_value 0 s
  end.

(** [args_ok] tells whether the path and the argument vector can be fetched. *)
Definition sys_exec (args_ok : bool) (s : kernel) : option kernel :=
  if args_ok then Some (upd i (goto K_exec) s) else return_value (-1) s.

Definition sys_exec2 (time_to_complete : option Z) (args_ok : bool) (s : kernel) : option kernel :=
  p ← ptable s !! i;
  match time_to_complete with
  | None => return_value (-1) s
  | Some t =>
      if bool_decide (t ≤ 0) then return_value (-1) s
      else if negb args_ok then return_value (-1) s
      else
        let s := upd i (λ p, { p with t_remain := t }) s in
        if bool_decide (t_remain p < t) then Some (upd i (goto (K_yield K_exec)) s) else Some (upd i (goto K_exec) s)
  end.

Definition sys_give_cpu (s : kernel) : option kernel :=
  Some (upd i (λ p, { p with skip_once := true; kctx := K_yield (K_ret 0) }) ({ s with skip_target := Some i })).

(** [argfd]: the descriptor and its file. *)
Definition argfd (fd : option Z) (s : kernel) : option (nat * nat) :=
  p ← ptable s !! i; fd ← fd;
  if bool_decide (fd < 0) || bool_decide (Z.of_nat NOFILE ≤ fd) then None
  else j ← mjoin (ofile p !! Z.to_nat fd); Some (Z.to_nat fd, j).

Definition sys_dup (fd : option Z) (s : kernel) : option kernel :=
  p ← ptable s !! i;
  match argfd fd s with
  | None => return_value (-1) s
  | Some (_, j) =>
      match fdalloc j (ofile p) with
      | None => return_value (-1) s
      | Some (fd', l) =>
          t ← filedup j (ftable s);
          return_value (Z.of_nat fd') ({ upd i (λ p, { p with ofile := l }) s with ftable := t })
      end
  end.

Definition sys_close (fd : option Z) (s : kernel) : option kernel :=
  match argfd fd s with
  | None => return_value (-1) s
  | Some (fd, j) =>
      '(t, _) ← fileclose j (ftable s);
      return_value 0 ({ upd i (λ p, { p with ofile ::= <[fd := None]> }) s with ftable := t })
  end.

(** [sys_open] once the inode [ip] is found. *)
Definition sys_open (ip : nat) (omode : Z) (s : kernel) : option kernel :=
  p ← ptable s !! i;
  match filealloc (ftable s) with
  | None => return_value (-1) s
  | Some (j, t) =>
      match fdalloc j (ofile p) with
      | None => '(t, _) ← fileclose j t; return_value (-1) ({ s with ftable := t })
      | Some (fd, l) =>
          let rd := bool_decide (Z.land omode 1 = 0) in
          let wr := bool_decide (Z.land omode 1 ≠ 0) || bool_decide (Z.land omode 2 ≠ 0) in
          let t := alter (λ f, { f with f_type := FD_INODE; f_obj := ip; f_off := 0; readable := rd; writable := wr }) j t in
          return_value (Z.of_nat fd) ({ upd i (λ p, { p with ofile := l }) s with ftable := t })
      end
  end.

Definition syscall (k : call) (s : kernel) : option kernel :=
  match k with
  | S_fork stack => sys_fork stack s
  | S_clone stack fn ustack arg => sys_clone stack fn ustack arg s
  | S_exit => exit i s
  | S_wait => wait c i s
  | S_kill n => sys_kill n s
  | S_getpid => sys_getpid s
  | S_sbrk n newsz => sys_sbrk n newsz s
  | S_sleep n => sys_sleep n s
  | S_uptime => sys_uptime s
  | S_remain t => sys_remain t s
  | S_exec ok => sys_exec ok s
  | S_exec2 t ok => sys_exec2 t ok s
  | S_give_cpu => sys_give_cpu s
  | S_dup fd => sys_dup fd s
  | S_close fd => sys_close fd s
  | S_open ip omode => sys_open ip omode s
  | S_other => Some (upd i (goto K_kernel) s)
  end.

End system_calls.

(** * Events *)

(** What kernel code that is not modelled does: it sleeps, wakes the sleepers of
    a channel, and returns. *)
Inductive action := A_sleep (a : Z) | A_wakeup (a : Z) | A_return (v : Z).

Inductive event :=
  | E_schedule                   (* the scheduler of an idle processor *)
  | E_timer                      (* a timer interrupt *)
  | E_syscall (k : call)         (* user code makes a system call *)
  | E_fault                      (* user code causes an exception *)
  | E_continue (pd : Z)          (* kernel code runs on; pd is the result of copyuvm *)
  | E_exec (im : option image)   (* exec runs; im is what it could load *)
  | E_kernel (a : action).       (* kernel code that is not modelled runs on *)

(** The end of [trap] for a system call with result [v]. *)
Definition trap_return (i : nat) (v : Z) (s : kernel) : option kernel :=
  p ← ptable s !! i;
  let s := upd i (λ p, { p with tf := { tf p with tf_eax := v }; kctx := K_user }) s in
  if killed p then exit i s else Some s.

(** The end of [trap] for an interrupt of user code. *)
Definition trap_check (i : nat) (s : kernel) : option kernel :=
  p ← ptable s !! i;
  if killed p then exit i s else Some (upd i (goto K_user) s).

(** The case of [trap] for the timer, on processor [c]. *)
Definition timer_tick (c : nat) (s : kernel) : kernel :=
  if bool_decide (c = 0%nat) then sleep_proc_notify ({ s with ticks := u32 (ticks s + 1) }) else s.

(** A timer interrupt of process [i]; the interrupted code is kernel code unless
    the process is in user code.  A process that yields in kernel code goes on
    where it was. *)
Definition timer (stcf : bool) (c i : nat) (s : kernel) : option kernel :=
  let s := timer_tick c s in
  p ← ptable s !! i;
  match kctx p with
  | K_user =>
      if killed p then exit i s
      else if stcf then Some s
      else Some (yield c i K_trapret s)
  | k => if stcf then Some s else Some (yield c i k s)
  end.

(** Kernel code of process [i] runs up to its next point. *)
Definition continue (c i : nat) (pd : Z) (s : kernel) : option kernel :=
  p ← ptable s !! i;
  match kctx p with
  | K_trapret => trap_check i s
  | K_forkret => Some (upd i (goto K_user) s)
  | K_ret v => trap_return i v s
  | K_yield next => Some (yield c i next s)
  | K_woken next => Some (upd i (λ p, { p with chan := None; kctx := next }) s)
  | K_fork np => fork i np pd s
  | K_clone np fn stack arg => clone i np fn stack arg s
  | K_wait => wait c i s
  | K_sleep ticks0 n => sleep_loop c i ticks0 n s
  | K_exit => exit_zombie c i s
  | K_user | K_exec | K_kernel => Some s
  end.

Definition kernel_code (c i : nat) (a : action) (s : kernel) : kernel :=
  match a with
  | A_sleep a => sleep c i (ch_addr a) K_kernel s
  | A_wakeup a => wakeup (ch_addr a) s
  | A_return v => upd i (goto (K_ret v)) s
  end.

(** Whether an event can happen on processor [c]. *)
Definition enabled (c : nat) (e : event) (s : kernel) : bool :=
  match cpus s !! c with
  | None => false
  | Some x =>
      match e, cpu_proc x with
      | E_schedule, None => true
      | E_timer, _ => true
      | _, None => false
      | e, Some i =>
          match e, kctx <$> ptable s !! i with
          | E_syscall _, Some K_user => true
          | E_fault, Some K_user => true
          | E_exec _, Some K_exec => true
          | E_kernel _, Some K_kernel => true
          | E_continue _, Some (K_user | K_exec | K_kernel) => false
          | E_continue _, Some _ => true
          | _, _ => false
          end
      end
  end.

(** The effect of an event of processor [c]. *)
Definition handle (stcf : bool) (c : nat) (e : event) (s : kernel) : option kernel :=
  match e, myproc c s with
  | E_schedule, _ => scheduler stcf c s
  | E_timer, None => Some (timer_tick c s)
  | E_timer, Some i => timer stcf c i s
  | E_syscall k, Some i =>
      p ← ptable s !! i; if killed p then exit i s else syscall c i k s
  | E_fault, Some i => exit i (upd i (λ p, { p with killed := true }) s)
  | E_continue pd, Some i => continue c i pd s
  | E_exec im, Some i => exec i im s
  | E_kernel a, Some i => Some (kernel_code c i a s)
  | _, None => Some s
  end.

(** What the allocator and the loader promise: a page they return is not in
    use. *)
Definition services_ok (e : event) (s : kernel) : Prop :=
  match e with
  | E_continue pd => pd ∉ vms s
  | E_exec (Some im) => im_pgdir im ≠ 0 ∧ im_pgdir im ∉ vms s
  | _ => True
  end.

(** The kernel before the first process: all slots are free. *)
Definition no_proc : proc :=
  mk_proc 0 0 0 UNUSED 0 None (mk_tf 0 0 0) K_user None false (replicate NOFILE None) None [] 0 0 0 0 false.
Definition pinit (ncpu : nat) : kernel :=
  mk_kernel (replicate NPROC no_proc) (replicate ncpu (mk_cpu None 0)) None 1 None 0
    (replicate NPROC (mk_uvm 0 (-1))) ∅ (replicate NFILE (mk_file FD_NONE 0 false false 0 0)).

(** The states of an execution on [ncpu] processors. *)
Inductive reachable (stcf : bool) (ncpu : nat) : kernel → Prop :=
  | reach_boot stack pd root s :
      userinit stack pd root (pinit ncpu) = Some s → reachable stcf ncpu s
  | reach_event c e s s' :
      reachable stcf ncpu s → enabled c e s = true → services_ok e s →
      handle stcf c e s = Some s' → reachable stcf ncpu s'.

#[global] Instance services_ok_dec e s : Decision (services_ok e s).
Proof. destruct e as [| | | | |[]|]; apply _. Defined.

(** Running a list of events. *)
Fixpoint run (stcf : bool) (l : list (nat * event)) (s : kernel) : option kernel :=
  match l with
  | [] => Some s
  | (c, e) :: l => if enabled c e s && bool_decide (services_ok e s) then handle stcf c e s ≫= run stcf l else None
  end.
