(* ===== verification/XvInv.v ===== *)
(** The choice of the STCF scheduler, whose two passes over the process table find
    a least process of their candidates for the order of the code; and the
    invariant of the process table. *)

From stdpp Require Import base option list numbers gmap.
From coqutil Require Import Datatypes.RecordSettersUsingExistingGetters.
From Stdlib Require Import ZArith Lia.
From S2P Require Import Prelude XvProc.
Local Open Scope Z_scope.

(** * The order *)

Lemma better_spec p q :
  better p q = true ↔ t_remain p < t_remain q ∨ (t_remain p = t_remain q ∧ pid q < pid p).
Proof. unfold better. rewrite orb_true_iff, andb_true_iff, !bool_decide_eq_true. done. Qed.

Lemma better_false p q :
  better p q = false ↔ t_remain q < t_remain p ∨ (t_remain q = t_remain p ∧ pid p ≤ pid q).
Proof. rewrite <-not_true_iff_false, better_spec. lia. Qed.

Lemma better_irrefl p : better p p = false.
Proof. apply better_false. lia. Qed.

(** * One pass *)

(** The processes a pass considers, by slot. *)
Definition considered (candidate : nat → proc → bool) (l : list proc) (i : nat) (p : proc) : Prop :=
  l !! i = Some p ∧ state p = RUNNABLE ∧ candidate i p = true.

(** A best candidate. *)
Definition least (candidate : nat → proc → bool) (l : list proc) (i : nat) (p : proc) : Prop :=
  considered candidate l i p ∧ ∀ j q, considered candidate l j q → better q p = false.

Lemma considered_snoc candidate l p j q :
  considered candidate (l ++ [p]) j q ↔
  considered candidate l j q ∨ (j = length l ∧ q = p ∧ state p = RUNNABLE ∧ candidate j p = true).
Proof.
  unfold considered. split.
  - intros (Hj&Hs&Hc). apply lookup_app_Some in Hj as [Hj|[Hl Hj]]; [by left|right].
    apply list_lookup_singleton_Some in Hj as [Hj <-]. assert (j = length l) as -> by lia. done.
  - intros [(Hj&?&?)|(->&->&?&?)]; split_and!; try done.
    + by apply lookup_app_l_Some.
    + rewrite lookup_app_r by lia. by rewrite Nat.sub_diag.
Qed.

Lemma pick_aux candidate done l best :
  (match best with
   | Some (i, p) => least candidate done i p
   | None => ∀ j q, ¬ considered candidate done j q
   end) →
  match pick candidate (length done) l best with
  | Some (i, p) => least candidate (done ++ l) i p
  | None => ∀ j q, ¬ considered candidate (done ++ l) j q
  end.
Proof.
  revert done best. induction l as [|p l IH]; intros seen best Hb; [by rewrite app_nil_r|].
  cbn [pick]. rewrite (cons_middle p seen l), app_assoc.
  replace (S (length seen)) with (length (seen ++ [p])) by (rewrite length_app; simpl; lia).
  apply IH. destruct (decide (state p = RUNNABLE)) as [Hs|Hs];
    [rewrite bool_decide_eq_true_2 by done|rewrite bool_decide_eq_false_2 by done]; cbn [negb].
  2:{ destruct best as [[i b]|]; unfold least in *; setoid_rewrite considered_snoc.
      - destruct Hb. split; [by left|]. intros j q [?|(->&_&?&?)]; [eauto|congruence].
      - intros j q [?|(->&_&?&?)]; [by eapply Hb|congruence]. }
  destruct (candidate (length seen) p) eqn:Hc; cbn [negb].
  2:{ destruct best as [[i b]|]; unfold least in *; setoid_rewrite considered_snoc.
      - destruct Hb. split; [by left|]. intros j q [?|(->&_&?&?)]; [eauto|congruence].
      - intros j q [?|(->&_&?&?)]; [by eapply Hb|congruence]. }
  destruct best as [[i b]|]; [destruct (better p b) eqn:E; destruct Hb as [Hi Hb]|];
    unfold least; setoid_rewrite considered_snoc.
  - split; [by right|]. intros j q [Hq|(_&->&_)]; [|apply better_irrefl].
    pose proof (Hb _ _ Hq). apply better_spec in E. rewrite better_false in *. lia.
  - split; [by left|]. intros j q [?|(_&->&_)]; [by eapply Hb|done].
  - split; [by right|]. intros j q [Hq|(_&->&_)]; [by destruct (Hb j q)|apply better_irrefl].
Qed.

(** A pass finds a least candidate if there is one. *)
Lemma pick_least candidate l :
  match pick candidate 0 l None with
  | Some (i, p) => least candidate l i p
  | None => ∀ j q, ¬ considered candidate l j q
  end.
Proof. apply (pick_aux candidate [] l None). intros j q [Hj _]. by rewrite lookup_nil in Hj. Qed.

(** * The two passes *)

Definition everyone (i : nat) (p : proc) : bool := true.

Lemma stcf_pick_spec s :
  match stcf_pick s with
  | Some i => ∃ p,
      least (pass1 (skip_target s)) (ptable s) i p ∨
      ((∀ j q, ¬ considered (pass1 (skip_target s)) (ptable s) j q) ∧ least everyone (ptable s) i p)
  | None => ∀ j q, ptable s !! j = Some q → state q ≠ RUNNABLE
  end.
Proof.
  unfold stcf_pick. pose proof (pick_least (pass1 (skip_target s)) (ptable s)) as H1.
  destruct (pick (pass1 _) _ _ _) as [[i p]|]; [by exists p; left|].
  pose proof (pick_least everyone (ptable s)) as H2.   change (λ _ _, true) with everyone.
  destruct (pick everyone _ _ _) as [[i p]|]; simpl.
  - exists p. by right.
  - intros j q Hj Hs. by apply (H2 j q).
Qed.

Lemma stcf_pick_runnable s i : stcf_pick s = Some i → ∃ p, ptable s !! i = Some p ∧ state p = RUNNABLE.
Proof.
  intros E. pose proof (stcf_pick_spec s) as H. rewrite E in H.
  destruct H as (p&[[H _]|[_ [H _]]]); exists p; destruct H as (?&?&_); done.
Qed.

(** The invariant of the process table: the slots and the processors agree, the
    identifiers are distinct, every process but the first has a living parent,
    a process asleep in [wait] has no child to collect, and every slot that is
    being filled belongs to one call of [fork] or [clone]. *)

(** * Definitions *)

Definition live (p : proc) : Prop := state p = SLEEPING ∨ state p = RUNNABLE ∨ state p = RUNNING.
Definition used (p : proc) : Prop := live p ∨ state p = ZOMBIE.

(** The slot a process is filling. *)
Definition creates (k : kpoint) : option nat :=
  match k with K_fork np => Some np | K_clone np _ _ _ => Some np | _ => None end.

(** What may follow a call of [yield] and a call of [sleep] on a channel. *)
Definition after_yield (k : kpoint) : bool := match k with K_ret _ | K_exec => true | _ => false end.
Definition after_sleep (i : nat) (ch : option channel) (k : kpoint) : Prop :=
  match k with
  | K_wait => ch = Some (ch_proc i)
  | K_sleep _ _ => ch = Some ch_ticks
  | K_kernel => ∃ a, ch = Some (ch_addr a)
  | _ => False
  end.
Definition kpoint_ok (i : nat) (p : proc) : Prop :=
  match kctx p with
  | K_yield k => after_yield k = true
  | K_woken k => after_sleep i (chan p) k
  | _ => True
  end.

Definition waiting (p : proc) : Prop := state p = SLEEPING ∧ kctx p = K_woken K_wait.

(** What a slot satisfies by itself. *)
Record local_ok (next : Z) (i : nat) (p : proc) : Prop := {
  l_pid : state p ≠ UNUSED → 0 < pid p < next;
  l_free : state p = UNUSED ∨ state p = EMBRYO → parent p = None;
  l_stack : state p ≠ UNUSED → kstack p ≠ 0;
  l_vm : used p → pgdir p ≠ 0;
  l_asleep : state p = SLEEPING → ∃ k, kctx p = K_woken k;
  l_point : live p → kpoint_ok i p;
  l_wait : waiting p → killed p = false;
  l_files : length (ofile p) = NOFILE;
  l_self : parent p ≠ Some i;
  l_embryo : state p = EMBRYO → kctx p = K_forkret;
}.

Record table_inv (s : kernel) : Prop := {
  t_len : length (ptable s) = NPROC;
  t_loc : ∀ i p, ptable s !! i = Some p → local_ok (nextpid s) i p;
  t_pid : ∀ i j p q, ptable s !! i = Some p → ptable s !! j = Some q →
    state p ≠ UNUSED → state q ≠ UNUSED → pid p = pid q → i = j;
  t_init : ∃ ip p, initproc s = Some ip ∧ ptable s !! ip = Some p ∧ live p ∧ parent p = None ∧ kctx p ≠ K_exit;
  t_parent : ∀ i p, ptable s !! i = Some p → used p → initproc s ≠ Some i →
    ∃ j q, parent p = Some j ∧ ptable s !! j = Some q ∧ live q;
  t_wait : ∀ i p j q, ptable s !! i = Some p → waiting p →
    ptable s !! j = Some q → parent q = Some i → state q ≠ ZOMBIE;
}.

(** A slot that a process is filling is kept for it alone. *)
Record claim_inv (s : kernel) : Prop := {
  n_new : ∀ i p np, ptable s !! i = Some p → creates (kctx p) = Some np →
    live p ∧ ∃ q, ptable s !! np = Some q ∧ state q = EMBRYO;
  n_one : ∀ i j p q np, ptable s !! i = Some p → ptable s !! j = Some q →
    creates (kctx p) = Some np → creates (kctx q) = Some np → i = j;
}.

(** The processors run the running processes, each on one processor. *)
Definition running (s : kernel) (i : nat) : Prop := ∃ p, ptable s !! i = Some p ∧ state p = RUNNING.

Record cpu_inv (s : kernel) : Prop := {
  c_run : ∀ c i, myproc c s = Some i → running s i;
  c_cpu : ∀ i, running s i → ∃ c, myproc c s = Some i;
  c_one : ∀ c c' i, myproc c s = Some i → myproc c' s = Some i → c = c';
}.

(** * Changes of slots *)

(** A change of slot [i] that neither makes nor ends a process. *)
Record slot_core (s : kernel) (i : nat) (p p' : proc) : Prop := {
  w_state : live p ∧ live p' ∨ state p' = state p;
  w_pid : pid p' = pid p;
  w_parent : parent p' = parent p;
  w_local : local_ok (nextpid s) i p → local_ok (nextpid s) i p';
  w_exit : kctx p' = K_exit → kctx p = K_exit ∨ initproc s ≠ Some i;
  w_wait : waiting p' → waiting p ∨ ∀ j q, ptable s !! j = Some q → parent q = Some i → state q ≠ ZOMBIE;
}.

(** It claims no other slot. *)
Definition slot_step (s : kernel) (i : nat) (p p' : proc) : Prop :=
  slot_core s i p p' ∧ (creates (kctx p') = None ∨ creates (kctx p') = creates (kctx p)).

Lemma live_used p : live p → used p.
Proof. by left. Qed.
Lemma live_cases p : live p → state p ≠ UNUSED ∧ state p ≠ EMBRYO ∧ state p ≠ ZOMBIE.
Proof. unfold live. destruct (state p); intuition discriminate. Qed.
Lemma used_cases p : used p ↔ state p ≠ UNUSED ∧ state p ≠ EMBRYO.
Proof. unfold used, live. destruct (state p); intuition discriminate. Qed.
Lemma live_state p q : state p = state q → live p → live q.
Proof. unfold live. by intros ->. Qed.

Lemma slot_refl s i p : slot_step s i p p.
Proof. split; [split|]; auto. Qed.

Definition related (R : kernel → nat → proc → proc → Prop) (s s' : kernel) : Prop :=
  length (ptable s') = length (ptable s) ∧ nextpid s' = nextpid s ∧ initproc s' = initproc s ∧
  ∀ i p, ptable s !! i = Some p → ∃ p', ptable s' !! i = Some p' ∧ R s i p p'.

Lemma related_core s s' : related slot_step s s' → related slot_core s s'.
Proof. intros (?&?&?&F). split_and!; try done. intros i p Hp. destruct (F _ _ Hp) as (p'&?&?&_). eauto. Qed.

Lemma related_back R s s' i p' :
  related R s s' → ptable s' !! i = Some p' → ∃ p, ptable s !! i = Some p ∧ R s i p p'.
Proof.
  intros (Hl&_&_&H) Hi. assert (i < length (ptable s))%nat as Hlt by (rewrite <- Hl; by eapply lookup_lt_Some).
  apply lookup_lt_is_Some_2 in Hlt as [p Hp]. exists p. split; [done|].
  destruct (H _ _ Hp) as (p''&Hi'&?). rewrite Hi in Hi'. by simplify_eq.
Qed.

(** What such a change keeps. *)
Lemma step_keeps s i p p' :
  slot_core s i p p' →
  (live p → live p') ∧ (live p' → live p) ∧ (used p' → used p) ∧
  (state p' = ZOMBIE → state p = ZOMBIE) ∧ (state p' ≠ UNUSED → state p ≠ UNUSED) ∧
  (state p = EMBRYO → state p' = EMBRYO).
Proof.
  intros V. destruct (w_state _ _ _ _ V) as [[L L']|E].
  - destruct (live_cases _ L) as (?&?&?), (live_cases _ L') as (?&?&?). split_and!; auto using live_used; congruence.
  - unfold used, live. rewrite E. by split_and!.
Qed.

Lemma table_inv_related s s' : table_inv s → related slot_core s s' → table_inv s'.
Proof.
  intros I R. pose proof R as (El&En&Ei&F). split.
  - rewrite El. apply I.
  - intros i p' Hi. destruct (related_back _ _ _ _ _ R Hi) as (p&Hp&V). rewrite En. by apply V, I.
  - intros i j p' q' Hi Hj Hsp Hsq E. destruct (related_back _ _ _ _ _ R Hi) as (p&Hp&Vp).
    destruct (related_back _ _ _ _ _ R Hj) as (q&Hq&Vq).
    destruct (step_keeps _ _ _ _ Vp) as (_&_&_&_&N1&_), (step_keeps _ _ _ _ Vq) as (_&_&_&_&N2&_).
    apply (t_pid _ I i j p q); auto. rewrite <- (w_pid _ _ _ _ Vp), <- (w_pid _ _ _ _ Vq). done.
  - destruct (t_init _ I) as (ip&p&Hip&Hp&L&Pp&K). destruct (F _ _ Hp) as (p'&Hp'&V).
    exists ip, p'. rewrite Ei, (w_parent _ _ _ _ V). destruct (step_keeps _ _ _ _ V) as (La&_).
    split_and!; auto. intros E. by destruct (w_exit _ _ _ _ V E).
  - intros i p' Hi U Ni. destruct (related_back _ _ _ _ _ R Hi) as (p&Hp&V). rewrite Ei in Ni.
    destruct (step_keeps _ _ _ _ V) as (_&_&Hu&_). destruct (t_parent _ I i p Hp) as (j&q&Ej&Hj&L); auto.
    destruct (F _ _ Hj) as (q'&Hj'&Vq). exists j, q'. destruct (step_keeps _ _ _ _ Vq) as (La&_).
    rewrite (w_parent _ _ _ _ V). auto.
  - intros i p' j q' Hi W Hj Ep Z. destruct (related_back _ _ _ _ _ R Hi) as (p&Hp&V).
    destruct (related_back _ _ _ _ _ R Hj) as (q&Hq&Vq). rewrite (w_parent _ _ _ _ Vq) in Ep.
    apply (step_keeps _ _ _ _ Vq) in Z.
    destruct (w_wait _ _ _ _ V W) as [W'|N]; [exact (t_wait _ I i p j q Hp W' Hq Ep Z)|exact (N j q Hq Ep Z)].
Qed.

Lemma claim_inv_related s s' : claim_inv s → related slot_step s s' → claim_inv s'.
Proof.
  intros I R. pose proof R as (El&En&Ei&F). split.
  - intros i p' np Hi C. destruct (related_back _ _ _ _ _ R Hi) as (p&Hp&V&[E|E]); [congruence|]. rewrite E in C.
    destruct (n_new _ I _ _ _ Hp C) as (L&q&Hq&Sq). destruct (F _ _ Hq) as (q'&Hq'&Vq&_).
    split; [by apply (step_keeps _ _ _ _ V)|]. exists q'. split; [done|]. by apply (step_keeps _ _ _ _ Vq).
  - intros i j p' q' np Hi Hj C1 C2. destruct (related_back _ _ _ _ _ R Hi) as (p&Hp&_&V1).
    destruct (related_back _ _ _ _ _ R Hj) as (q&Hq&_&V2). apply (n_one _ I i j p q np); intuition congruence.
Qed.

Lemma alter_none {A} (f : A → A) i (l : list A) : l !! i = None → alter f i l = l.
Proof. intros H. apply list_eq. intros j. rewrite list_lookup_alter. case_decide; [|done]. subst. by rewrite H. Qed.

(** * Ways to build them *)

Lemma related_frame s s' :
  ptable s' = ptable s → nextpid s' = nextpid s → initproc s' = initproc s → related slot_step s s'.
Proof. intros E1 E2 E3. split_and!; [by rewrite E1|done|done|]. intros i p. rewrite E1. exists p. auto using slot_refl. Qed.

Lemma related_upd (R : kernel → nat → proc → proc → Prop) s s' i p f :
  (∀ j q, R s j q q) → ptable s !! i = Some p → R s i p (f p) →
  ptable s' = alter f i (ptable s) → nextpid s' = nextpid s → initproc s' = initproc s → related R s s'.
Proof.
  intros Hr Hi V E1 E2 E3. split_and!; [by rewrite E1, length_alter|done|done|]. intros j q Hj. rewrite E1.
  destruct (decide (j = i)) as [->|Hne].
  - rewrite list_lookup_alter_eq, Hj. simplify_eq. eexists. split; done.
  - rewrite list_lookup_alter_ne by done. exists q. auto.
Qed.

Lemma related_fmap s s' f :
  (∀ i p, ptable s !! i = Some p → slot_step s i p (f p)) →
  ptable s' = f <$> ptable s → nextpid s' = nextpid s → initproc s' = initproc s → related slot_step s s'.
Proof.
  intros V E1 E2 E3. split_and!; [by rewrite E1, length_fmap|done|done|]. intros j q Hj. rewrite E1, list_lookup_fmap, Hj.
  eexists. split; [done|]. by apply V.
Qed.

(** The process is and stays awake, or is woken. *)
Lemma awake_core s i p p' :
  live p → state p' = RUNNABLE ∨ state p' = RUNNING →
  pid p' = pid p → parent p' = parent p → kstack p' = kstack p → pgdir p' ≠ 0 → length (ofile p') = length (ofile p) →
  kpoint_ok i p' → (kctx p' = K_exit → kctx p = K_exit ∨ initproc s ≠ Some i) → slot_core s i p p'.
Proof.
  intros L A E1 E2 E3 Hvm E5 K X.
  assert (live p') as L' by (unfold live; tauto). assert (state p' ≠ SLEEPING) as N by (destruct A as [-> | ->]; done).
  destruct (live_cases _ L) as (?&?&?), (live_cases _ L') as (?&?&?). split; auto.
  - intros [Hp _ Hs _ _ _ _ Hf Hself _]. split; try tauto; try congruence.
    + rewrite E1. auto.
    + rewrite E3. auto.
    + intros [W _]. by destruct (N W).
  - intros [W _]. by destruct (N W).
Qed.

Lemma awake_step s i p p' :
  live p → state p' = RUNNABLE ∨ state p' = RUNNING →
  pid p' = pid p → parent p' = parent p → kstack p' = kstack p → pgdir p' ≠ 0 → length (ofile p') = length (ofile p) →
  kpoint_ok i p' → (creates (kctx p') = None ∨ creates (kctx p') = creates (kctx p)) →
  (kctx p' = K_exit → kctx p = K_exit ∨ initproc s ≠ Some i) → slot_step s i p p'.
Proof. intros. split; [by apply awake_core|done]. Qed.

(** A change of the fields the invariant does not read. *)
Lemma quiet_step s i p p' :
  state p' = state p → pid p' = pid p → parent p' = parent p → kstack p' = kstack p → pgdir p' = pgdir p →
  kctx p' = kctx p → chan p' = chan p → ofile p' = ofile p → killed p' = killed p ∨ state p ≠ SLEEPING →
  slot_step s i p p'.
Proof.
  intros E1 E2 E3 E4 E5 E6 E7 E8 E9. split; [split|]; auto.
  - intros [H1 H2 H3 H4 H5 H6 H7 H8 H9 H10].
    unfold kpoint_ok, waiting, used, live in *. split; unfold kpoint_ok, waiting, used, live; rewrite ?E1, ?E2, ?E3, ?E4, ?E5, ?E6, ?E7, ?E8; auto.
    intros W. destruct E9 as [->|N]; [auto|by destruct W].
  - rewrite E6. auto.
  - unfold waiting. rewrite E1, E6. auto.
  - rewrite E6. auto.
Qed.

(** * Processors *)

Lemma cpu_inv_same s s' :
  (∀ c, myproc c s' = myproc c s) → (∀ i, running s' i ↔ running s i) → cpu_inv s → cpu_inv s'.
Proof.
  intros Em Er [H1 H2 H3]. split.
  - intros c i. rewrite Em, Er. apply H1.
  - intros i. rewrite Er. setoid_rewrite Em. apply H2.
  - intros c c' i. rewrite !Em. apply H3.
Qed.

Lemma cpu_inv_leave s s' c i :
  myproc c s = Some i → (∀ c', myproc c' s' = if decide (c' = c) then None else myproc c' s) →
  (∀ j, running s' j ↔ running s j ∧ j ≠ i) → cpu_inv s → cpu_inv s'.
Proof.
  intros Hc Em Er [H1 H2 H3]. split.
  - intros c' j. rewrite Em, Er. case_decide as Hd; [done|]. intros Hj. split; [by eapply H1|].
    intros ->. by destruct Hd, (H3 c c' i).
  - intros j. rewrite Er. intros [Hr Hne]. destruct (H2 _ Hr) as [c' Hc']. exists c'. rewrite Em.
    case_decide as Hd; [|done]. subst. congruence.
  - intros c1 c2 j. rewrite !Em. repeat case_decide; try done. apply H3.
Qed.

Lemma cpu_inv_enter s s' c i :
  myproc c s = None → (∀ c', myproc c' s' = if decide (c' = c) then Some i else myproc c' s) →
  ¬ running s i → (∀ j, running s' j ↔ running s j ∨ j = i) → cpu_inv s → cpu_inv s'.
Proof.
  intros Hc Em Hi Er [H1 H2 H3]. split.
  - intros c' j. rewrite Em, Er. case_decide as Hd; intros Hj; [right; congruence|left; by eapply H1].
  - intros j. rewrite Er. intros [Hr| ->].
    + destruct (H2 _ Hr) as [c' Hc']. exists c'. rewrite Em. case_decide as Hd; [congruence|done].
    + exists c. rewrite Em. by rewrite decide_True.
  - intros c1 c2 j. rewrite !Em. repeat case_decide; try congruence; intros; simplify_eq.
    + destruct Hi. by eapply H1.
    + destruct Hi. by eapply H1.
    + by eapply H3.
Qed.

Lemma myproc_set_cpu c f s c' :
  myproc c' (set_cpu c f s) = if decide (c' = c) then (cpus s !! c ≫= λ x, cpu_proc (f x)) else myproc c' s.
Proof.
  unfold myproc, set_cpu. simpl. case_decide as Hd.
  - subst. rewrite list_lookup_alter_eq.
    by destruct (cpus s !! c).
  - by rewrite list_lookup_alter_ne by done.
Qed.

Lemma myproc_sched c s c' : myproc c' (sched c s) = if decide (c' = c) then None else myproc c' s.
Proof. unfold sched. rewrite myproc_set_cpu. case_decide; [|done]. by destruct (cpus s !! c). Qed.

Lemma running_alter s s' i p f j :
  ptable s !! i = Some p → ptable s' = alter f i (ptable s) →
  running s' j ↔ if decide (j = i) then state (f p) = RUNNING else running s j.
Proof.
  intros Hi E. unfold running. rewrite E. case_decide as Hd.
  - subst. rewrite list_lookup_alter_eq, Hi. simpl. split; [by intros (?&[= <-]&?)|by eexists].
  - by rewrite list_lookup_alter_ne by done.
Qed.

Lemma running_fmap s s' f j :
  (∀ i p, ptable s !! i = Some p → state (f p) = RUNNING ↔ state p = RUNNING) →
  ptable s' = f <$> ptable s → running s' j ↔ running s j.
Proof.
  intros Hf E. unfold running. rewrite E, list_lookup_fmap. destruct (ptable s !! j) as [p|] eqn:Hj; simpl; [|by split; intros (?&?&?)].
  split; intros (q&[= <-]&Hs); eexists; (split; [done|]); by apply (Hf _ _ Hj).
Qed.

(** Every event keeps the invariant of the process table. *)

Record kinv (s : kernel) : Prop := { k_table : table_inv s; k_claim : claim_inv s; k_cpu : cpu_inv s }.

Lemma kinv_related s s' : kinv s → related slot_step s s' → cpu_inv s' → kinv s'.
Proof. intros [I N _] R C. split; [eapply table_inv_related|eapply claim_inv_related|]; eauto using related_core. Qed.

Lemma related_upd_step s s' i p f :
  ptable s !! i = Some p → slot_step s i p (f p) →
  ptable s' = alter f i (ptable s) → nextpid s' = nextpid s → initproc s' = initproc s → related slot_step s s'.
Proof. apply related_upd. apply slot_refl. Qed.

(** Process [i] runs on processor [c]. *)
Definition runs (s : kernel) (c i : nat) (p : proc) : Prop :=
  myproc c s = Some i ∧ ptable s !! i = Some p ∧ state p = RUNNING.

Lemma runs_intro s c i : kinv s → myproc c s = Some i → ∃ p, runs s c i p.
Proof. intros [_ _ C] Hc. destruct (c_run _ C _ _ Hc) as (p&Hp&Hs). by exists p. Qed.

Lemma runs_live s c i p : runs s c i p → live p.
Proof. intros (_&_&E). unfold live. auto. Qed.

Lemma runs_local s c i p : kinv s → runs s c i p → local_ok (nextpid s) i p.
Proof. intros [I _ _] (_&Hp&_). by apply (t_loc _ I). Qed.

(** ** Frames *)

Lemma kinv_frame s s' :
  ptable s' = ptable s → nextpid s' = nextpid s → initproc s' = initproc s → (∀ c, myproc c s' = myproc c s) →
  kinv s → kinv s'.
Proof.
  intros E1 E2 E3 E4 K. eapply kinv_related; [done|by apply related_frame|].
  eapply cpu_inv_same; [done| |apply K]. intros i. unfold running. by rewrite E1.
Qed.

(** ** A change of the running process *)

(** What a change of the running process must keep. *)
Record run_step (s : kernel) (i : nat) (p p' : proc) : Prop := {
  r_state : state p' = RUNNING;
  r_pid : pid p' = pid p;
  r_parent : parent p' = parent p;
  r_kstack : kstack p' = kstack p;
  r_pgdir : pgdir p' ≠ 0;
  r_ofile : length (ofile p') = length (ofile p);
  r_point : kpoint_ok i p';
  r_creates : creates (kctx p') = None ∨ creates (kctx p') = creates (kctx p);
  r_exit : kctx p' = K_exit → kctx p = K_exit ∨ initproc s ≠ Some i;
}.

Lemma run_step_slot s c i p p' : runs s c i p → run_step s i p p' → slot_step s i p p'.
Proof. intros R [? ? ? ? ? ? ? ? ?]. apply runs_live in R. apply awake_step; auto. Qed.

Lemma kinv_run s s' c i p f :
  ptable s' = alter f i (ptable s) → kinv s → runs s c i p → run_step s i p (f p) → nextpid s' = nextpid s → initproc s' = initproc s → cpus s' = cpus s →
  kinv s' ∧ runs s' c i (f p).
Proof.
  intros E1 K R V E2 E3 E4. pose proof R as (Hc&Hp&Hs). assert (∀ c, myproc c s' = myproc c s) as Em by (intros; unfold myproc; by rewrite E4).
  split.
  - eapply kinv_related; [done|eapply related_upd_step; eauto using run_step_slot|].
    eapply cpu_inv_same; [done| |apply K]. intros j. rewrite (running_alter s s' i p f) by done.
    case_decide; [|done]. subst. split; intros _; [by exists p|apply V].
  - unfold runs. rewrite Em, E1, list_lookup_alter_eq, Hp. split_and!; [done|done|apply V].
Qed.

Lemma runs_vm s c i p : kinv s → runs s c i p → pgdir p ≠ 0 ∧ kstack p ≠ 0.
Proof.
  intros K R. pose proof (runs_local _ _ _ _ K R) as L. pose proof (runs_live _ _ _ _ R) as Hl.
  split; [by apply (l_vm _ _ _ L), live_used|]. apply (l_stack _ _ _ L). by apply live_cases in Hl as (?&_).
Qed.

(** [run_ok K R] proves [run_step] for a change of fields the invariant does not
    read, up to the conditions on the point the process continues at. *)
Ltac run_ok K R :=
  let Hv := fresh in let Hs := fresh in let Hk := fresh in
  pose proof (runs_vm _ _ _ _ K R) as [Hv _]; pose proof R as (_&_&Hs);
  pose proof (l_point _ _ _ (runs_local _ _ _ _ K R) (runs_live _ _ _ _ R)) as Hk;
  split; simpl; rewrite ?length_fmap, ?length_insert; auto; try done; try exact Hk.

Lemma kinv_goto s c i p k :
  kinv s → runs s c i p → kpoint_ok i (goto k p) → creates k = None → (k = K_exit → initproc s ≠ Some i) →
  kinv (upd i (goto k) s) ∧ runs (upd i (goto k) s) c i (goto k p).
Proof. intros K R Hk Hc Hx. eapply kinv_run; try done. run_ok K R. Qed.

(** The rest of a system call that returns. *)
Lemma kinv_return s c i p v : kinv s → runs s c i p → kinv (upd i (goto (K_ret v)) s).
Proof. intros K R. by eapply kinv_goto. Qed.

Lemma return_inv s s' c i p v : kinv s → runs s c i p → return_value i v s = Some s' → kinv s'.
Proof. intros K R [= <-]. by eapply kinv_return. Qed.

(** ** Giving up the processor *)

Lemma account_fields now p :
  let p' := stcf_account_before_switch now p in
  state p' = state p ∧ pid p' = pid p ∧ parent p' = parent p ∧ kstack p' = kstack p ∧ pgdir p' = pgdir p ∧
  kctx p' = kctx p ∧ chan p' = chan p ∧ killed p' = killed p ∧ ofile p' = ofile p.
Proof. simpl. unfold stcf_account_before_switch. case_bool_decide; simpl; by split_and!. Qed.

(** The process leaves the processor and is not running any more. *)
Lemma kinv_leave s c i p f :
  kinv s → runs s c i p → state (f p) ≠ RUNNING → slot_step s i p (f p) → kinv (sched c (upd i f s)).
Proof.
  intros K (Hc&Hp&Hs) Hf V. eapply kinv_related; [done|by eapply related_upd_step|]. eapply (cpu_inv_leave s _ c i); [done|intros c'; by rewrite myproc_sched| |apply K].
  intros j. rewrite (running_alter s _ i p f) by done. case_decide; [|by intuition]. split; [done|intros [_ ?]; done].
Qed.

Lemma kinv_yield s c i p next :
  kinv s → runs s c i p → next = kctx p ∨ (kpoint_ok i (goto next p) ∧ creates next = None ∧ next ≠ K_exit) →
  kinv (yield c i next s).
Proof.
  intros K R Hn. apply (kinv_leave s c i p); [done..|].
  pose proof (account_fields (ticks_now s) p) as (_&E1&E2&E3&E4&_&E6&_&E8). pose proof (runs_vm _ _ _ _ K R) as [Hv _].
  pose proof (runs_local _ _ _ _ K R) as L. destruct R as (?&Hp&Hs). apply awake_step; simpl; auto; try congruence.
  - unfold live. auto.
  - destruct Hn as [->|[Hn _]]; [pose proof (l_point _ _ _ L ltac:(unfold live; auto)) as Hn|]; unfold kpoint_ok in *; simpl in *; by rewrite E6.
  - destruct Hn as [->|(_&Hn&_)]; auto.
  - destruct Hn as [->|(_&_&Hn)]; auto.
Qed.

Lemma kinv_sleep s c i p ch k :
  kinv s → runs s c i p → after_sleep i (Some ch) k →
  (k = K_wait → killed p = false ∧ ∀ j q, ptable s !! j = Some q → parent q = Some i → state q ≠ ZOMBIE) →
  kinv (sleep c i ch k s).
Proof.
  intros K R Hk Hw. apply (kinv_leave s c i p); [done..|].
  pose proof (account_fields (ticks_now s) { p with chan := Some ch }) as (_&E1&E2&E3&E4&_&E6&E7&E8).
  simpl in E1, E2, E3, E4, E6, E7, E8. pose proof (runs_vm _ _ _ _ K R) as [Hv _]. pose proof (runs_local _ _ _ _ K R) as L. pose proof (runs_live _ _ _ _ R) as Hl.
  destruct (live_cases _ Hl) as (N1&N2&N3). destruct R as (?&Hp&Hs).
  split; [|by left]. split; simpl; auto; try done.
  - left. split; [done|by left].
  - intros [Hpid Hfree Hst _ _ _ _ Hof Hself _]. split; simpl; unfold waiting, used, live; simpl; rewrite ?E1, ?E2, ?E3, ?E4, ?E8; auto; try (by intros [?|?]); try discriminate.
    + eauto.
    + intros _. unfold kpoint_ok. simpl. by rewrite E6.
    + intros [_ [= ->]]. rewrite E7. by apply Hw.
  - intros [_ [= ->]]. right. by apply Hw.
Qed.

(** ** Waking *)

(** A step of which the invariant sees only that the process is awake. *)
Lemma woken_step s i p p' :
  local_ok (nextpid s) i p → live p → state p' = RUNNABLE ∨ state p' = RUNNING → pid p' = pid p → parent p' = parent p →
  kstack p' = kstack p → pgdir p' = pgdir p → kctx p' = kctx p → chan p' = chan p → ofile p' = ofile p →
  slot_step s i p p'.
Proof.
  intros L Hl Hs' E1 E2 E3 E4 E5 E6 E7. apply awake_step; try congruence; auto.
  - rewrite E4. by apply (l_vm _ _ _ L), live_used.
  - pose proof (l_point _ _ _ L Hl) as Hk. unfold kpoint_ok in *. by rewrite E5, E6.
  - rewrite E5. auto.
  - rewrite E5. auto.
Qed.

Lemma kinv_fmap s s' f :
  kinv s → (∀ i p, ptable s !! i = Some p → slot_step s i p (f p) ∧ (state (f p) = RUNNING ↔ state p = RUNNING)) →
  ptable s' = f <$> ptable s → nextpid s' = nextpid s → initproc s' = initproc s → cpus s' = cpus s → kinv s'.
Proof.
  intros K V E1 E2 E3 E4. eapply kinv_related; [done|eapply related_fmap; try done; intros; by apply V|].
  eapply cpu_inv_same; [|intros j; eapply running_fmap; [|done]|apply K].
  - intros c. unfold myproc. by rewrite E4.
  - intros i p Hp. apply (V _ _ Hp).
Qed.

Lemma kinv_wakeup1 s ch : kinv s → kinv (wakeup1 ch s).
Proof.
  intros K. eapply (kinv_fmap s _ (wake ch)); try done. intros i p Hp. unfold wake.
  destruct (bool_decide (state p = SLEEPING) && _) eqn:E; [|split; [apply slot_refl|done]].
  apply andb_true_iff in E as [E _]. apply bool_decide_eq_true in E. split; [|simpl; by rewrite E].
  apply woken_step; try done; [by apply (t_loc _ (k_table _ K))|by left|by left].
Qed.

Lemma kinv_notify s : kinv s → kinv (sleep_proc_notify s).
Proof.
  intros K. eapply (kinv_fmap s _ notify); try done. intros i p Hp. unfold notify.
  destruct (bool_decide (state p = SLEEPING) && _) eqn:E; [|split; [apply slot_refl|done]].
  apply andb_true_iff in E as [E _]. apply bool_decide_eq_true in E. case_bool_decide.
  - split; [|simpl; by rewrite E]. apply woken_step; try done; [by apply (t_loc _ (k_table _ K))|by left|by left].
  - split; [|done]. apply quiet_step; auto.
Qed.

Lemma kinv_tick s c : kinv s → kinv (timer_tick c s).
Proof. intros K. unfold timer_tick. case_bool_decide; [|done]. apply kinv_notify. by eapply kinv_frame; [..|exact K]. Qed.

(** One slot changes, and no process starts or stops running. *)
Lemma kinv_slot s s' j q f :
  ptable s' = alter f j (ptable s) →
  kinv s → ptable s !! j = Some q → slot_step s j q (f q) → (state (f q) = RUNNING ↔ state q = RUNNING) → nextpid s' = nextpid s → initproc s' = initproc s → cpus s' = cpus s → kinv s'.
Proof.
  intros E1 K Hq V Hr E2 E3 E4. eapply kinv_related; [done|by eapply related_upd_step|].
  eapply cpu_inv_same; [intros c; unfold myproc; by rewrite E4| |apply K].
  intros i. rewrite (running_alter s s' j q f) by done. case_decide; [|done]. subst. rewrite Hr.
  unfold running. rewrite Hq. split; [by eexists|by intros (?&[= <-]&?)].
Qed.

Lemma kinv_kill s n r s' : kinv s → kill n s = (r, s') → kinv s'.
Proof.
  intros K E. unfold kill in E. destruct (list_find _ _) as [[j q]|] eqn:Ef; simplify_eq; [|done].
  apply list_find_Some in Ef as (Hj&_&_). eapply (kinv_slot s _ j q); try done; simpl; case_bool_decide as Hs.
  - apply woken_step; try done; [by apply (t_loc _ (k_table _ K))|by left|by left].
  - apply quiet_step; auto.
  - by rewrite Hs.
  - done.
Qed.

(** ** The scheduler *)

Lemma kinv_dispatch s s1 c i p f :
  ptable s1 = alter f i (ptable s) →
  kinv s → myproc c s = None → ptable s !! i = Some p → state p = RUNNABLE →
  slot_step s i p (f p) → state (f p) = RUNNING →
  nextpid s1 = nextpid s → initproc s1 = initproc s →
  (∀ c', myproc c' s1 = if decide (c' = c) then Some i else myproc c' s) → kinv s1.
Proof.
  intros E1 K Hc Hp Hs V Hr E2 E3 E4. eapply kinv_related; [done|by eapply related_upd_step|].
  eapply (cpu_inv_enter s s1 c i); try done; [..|apply K].
  - intros (q&Hq&?). congruence.
  - intros j. rewrite (running_alter s s1 i p f) by done. case_decide; subst; intuition.
Qed.

Lemma next_runnable_drop n l i :
  next_runnable n (drop n l) = Some i → ∃ p, l !! i = Some p ∧ state p = RUNNABLE ∧ (n ≤ i)%nat ∧
  ∀ j q, (n ≤ j < i)%nat → l !! j = Some q → state q ≠ RUNNABLE.
Proof.
  remember (drop n l) as k eqn:Ek. revert n Ek. induction k as [|p k IH]; intros n Ek E; simpl in E; [done|].
  assert (l !! n = Some p) as Hn by (by rewrite <- (Nat.add_0_r n), <- lookup_drop, <- Ek).
  case_bool_decide as Hs.
  - injection E as <-. exists p. split_and!; try done. lia.
  - destruct (IH (S n)) as (q&Hq&Hsq&Hle&Hb); [|done|].
    { by rewrite <- Nat.add_1_r, <- drop_drop, <- Ek. }
    exists q. split_and!; try done; [lia|]. intros j r Hj Hr. destruct (decide (j = n)) as [->|].
    + congruence.
    + apply (Hb j r); [lia|done].
Qed.

(** Clearing the mark of [give_cpu]. *)
Definition clear_skip (best : nat) (s : kernel) : kernel :=
  match skip_target s with
  | Some t => if bool_decide (best ≠ t)
              then { upd t (λ p, { p with skip_once := false }) s with skip_target := None } else s
  | None => s
  end.

Lemma clear_skip_cpus best s : cpus (clear_skip best s) = cpus s.
Proof. unfold clear_skip. destruct (skip_target s); [case_bool_decide|]; done. Qed.

Lemma clear_skip_best best s : ptable (clear_skip best s) !! best = ptable s !! best.
Proof.
  unfold clear_skip. destruct (skip_target s); [case_bool_decide|]; try done. simpl.
  by rewrite list_lookup_alter_ne.
Qed.

Lemma kinv_clear_skip best s : kinv s → kinv (clear_skip best s).
Proof.
  intros K. unfold clear_skip. destruct (skip_target s) as [t|]; [case_bool_decide|]; try done.
  destruct (ptable s !! t) as [q|] eqn:Hq.
  - eapply (kinv_slot s _ t q); try done.
    by apply quiet_step; auto.
  - eapply kinv_frame; [| | | |exact K]; try done. simpl. by apply alter_none.
Qed.

Lemma switchuvm_some s i s' :
  switchuvm i s = Some s' → s' = s ∧ ∃ p, ptable s !! i = Some p ∧ kstack p ≠ 0 ∧ pgdir p ≠ 0.
Proof.
  unfold switchuvm. destruct (ptable s !! i) as [p|]; simpl; [|done].
  repeat case_bool_decide; simpl; try done. intros [= <-]. eauto.
Qed.

Lemma kinv_scheduler stcf c s s' :
  kinv s → myproc c s = None → is_Some (cpus s !! c) → scheduler stcf c s = Some s' → kinv s'.
Proof.
  intros K Hc [x Hx] E. unfold scheduler, scheduler_stcf, scheduler_rr in E. destruct stcf.
  - destruct (stcf_pick s) as [best|] eqn:Eb; [|by simplify_eq].
    apply stcf_pick_runnable in Eb as (p&Hp&Hs). fold (clear_skip best s) in E.
    destruct (switchuvm _ _) as [s2|] eqn:E2; simpl in E; [|done]. apply switchuvm_some in E2 as [-> _].
    injection E as <-. pose proof (kinv_clear_skip best s K) as K1. rewrite <- (clear_skip_best best) in Hp.
    eapply (kinv_dispatch (clear_skip best s) _ c best p); try done.
    + unfold myproc in *. by rewrite clear_skip_cpus.
    + apply woken_step; try done; [by apply (t_loc _ (k_table _ K1))|unfold live; auto|by right].
    + intros c'. simpl. etransitivity; [apply (myproc_set_cpu c)|]. by rewrite clear_skip_cpus, Hx.
  - rewrite Hx in E. simpl in E. destruct (next_runnable _ _) as [i|] eqn:En.
    + destruct (switchuvm _ _) as [s2|] eqn:E2; simpl in E; [|done]. apply switchuvm_some in E2 as [-> _].
      injection E as <-. apply next_runnable_drop in En as (p&Hp&Hs&_).
      eapply (kinv_dispatch s _ c i p); try done.
      * apply woken_step; try done; [by apply (t_loc _ (k_table _ K))|unfold live; auto|by right].
      * intros c'. simpl. etransitivity; [apply (myproc_set_cpu c)|]. by rewrite Hx.
    + injection E as <-. eapply kinv_frame; [..|exact K]; try done. intros c'. rewrite myproc_set_cpu.
      case_decide; [|done]. subst. rewrite Hx. unfold myproc. by rewrite Hx.
Qed.
