(* ===== verification/XvLife.v ===== *)
(** Processes begin and end: [allocproc], the second half of [fork] and [clone],
    [exit] and [wait] keep the invariant of the process table. *)

From stdpp Require Import base option list numbers gmap.
From coqutil Require Import Datatypes.RecordSettersUsingExistingGetters.
From Stdlib Require Import ZArith Lia.
From S2P Require Import Prelude XvProc XvInv.
Local Open Scope Z_scope.

(** * One slot changes *)

(** The look of the table after slot [j] has become [q']. *)
Definition replaced (s s' : kernel) (j : nat) (q' : proc) : Prop :=
  ptable s' = <[j := q']> (ptable s) ∧ initproc s' = initproc s ∧ (∀ c, myproc c s' = myproc c s).

Lemma replaced_lookup s s' j q q' i p :
  replaced s s' j q' → ptable s !! j = Some q → ptable s' !! i = Some p →
  (i = j ∧ p = q') ∨ (i ≠ j ∧ ptable s !! i = Some p).
Proof.
  intros (E&_&_) Hj Hi. rewrite E in Hi. apply list_lookup_insert_Some in Hi as [(->&->&_)|[? ?]]; auto.
Qed.

Lemma replaced_new s s' j q q' : replaced s s' j q' → ptable s !! j = Some q → ptable s' !! j = Some q'.
Proof. intros (E&_&_) Hj. rewrite E. apply list_lookup_insert_eq. by eapply lookup_lt_Some. Qed.

Lemma replaced_old s s' j q' i : replaced s s' j q' → i ≠ j → ptable s' !! i = ptable s !! i.
Proof. intros (E&_&_) Hne. rewrite E. by apply list_lookup_insert_ne. Qed.

Lemma upd_lookup s j q f k r :
  ptable s !! j = Some q → ptable (upd j f s) !! k = Some r → k = j ∧ r = f q ∨ k ≠ j ∧ ptable s !! k = Some r.
Proof.
  intros Hq Hk. simpl in Hk. rewrite (list_alter_insert _ _ _ q Hq) in Hk.
  apply list_lookup_insert_Some in Hk as [(->&<-&_)|[? ?]]; auto.
Qed.

Lemma alter_commute {A} (f g : A → A) i j (l : list A) : i ≠ j → alter f i (alter g j l) = alter g j (alter f i l).
Proof.
  intros H. apply list_eq. intros k. rewrite !list_lookup_alter. repeat case_decide; subst; try done.
Qed.

Lemma replaced_cpu s s' j q q' :
  replaced s s' j q' → ptable s !! j = Some q → state q ≠ RUNNING → state q' ≠ RUNNING → cpu_inv s → cpu_inv s'.
Proof.
  intros R Hj N N'. eapply cpu_inv_same; [apply R|]. intros i. unfold running. destruct (decide (i = j)) as [->|].
  - rewrite (replaced_new s s' j q q'), Hj by done. split; intros (?&[= <-]&?); done.
  - by rewrite (replaced_old s s' j q').
Qed.

(** ** The table *)

(** A slot changes that is no living process before, and that has no children
    after. *)
Record renewed (s s' : kernel) (j : nat) (q q' : proc) : Prop := {
  e_old : ptable s !! j = Some q;
  e_new : replaced s s' j q';
  e_next : nextpid s ≤ nextpid s';
  e_local : local_ok (nextpid s') j q';
  e_dead : ¬ live q;
  e_pid : state q' ≠ UNUSED → ∀ i p, i ≠ j → ptable s !! i = Some p → state p ≠ UNUSED → pid p ≠ pid q';
  e_zombie : state q' ≠ ZOMBIE;
  e_wait : ¬ waiting q';
  e_parent : used q' → ∃ i p, i ≠ j ∧ parent q' = Some i ∧ ptable s !! i = Some p ∧ live p;
}.

Lemma table_inv_renewed s s' j q q' : table_inv s → renewed s s' j q q' → table_inv s'.
Proof.
  intros I [Hj R Hn L Nq Hpid Nz Nw Hpar]. pose proof R as (R1&R2&R3).
  assert (∀ i p, ptable s !! i = Some p → live p → ptable s' !! i = Some p) as Hkeep.
  { intros i p Hp Hl. rewrite (replaced_old s s' j q'); [done|done|]. intros ->. apply Nq. congruence. }
  assert (∀ i p, ptable s' !! i = Some p → (i = j ∧ p = q') ∨ (i ≠ j ∧ ptable s !! i = Some p)) as Hl.
  { intros i p. by apply (replaced_lookup s s' j q q'). }
  split.
  - rewrite R1, length_insert. apply I.
  - intros i p Hi. destruct (Hl _ _ Hi) as [[-> ->]|[_ Hi']]; [done|].
    destruct (t_loc _ I _ _ Hi') as [H1 ? ? ? ? ? ? ? ? ?]. split; try done. intros Hu. specialize (H1 Hu). lia.
  - intros i1 i2 p1 p2 H1 H2 U1 U2 E. destruct (Hl _ _ H1) as [[-> ->]|[N1 H1']], (Hl _ _ H2) as [[-> ->]|[N2 H2']].
    + done.
    + by destruct (Hpid U1 i2 p2).
    + by destruct (Hpid U2 i1 p1).
    + by eapply (t_pid _ I).
  - destruct (t_init _ I) as (ip&p&Hip&Hp&?&?&?). exists ip, p. rewrite R2. auto.
  - intros i p Hi U Ni. rewrite R2 in Ni. destruct (Hl _ _ Hi) as [[-> ->]|[N1 H1']].
    + destruct (Hpar U) as (k&r&Hk&Ek&Hr&Lr). exists k, r. auto.
    + destruct (t_parent _ I i p) as (k&r&?&?&?); try done. exists k, r. auto.
  - intros i p k r Hi W Hk Ep Z. destruct (Hl _ _ Hi) as [[-> ->]|[N1 H1']]; [done|].
    destruct (Hl _ _ Hk) as [[-> ->]|[N2 H2']]; [done|]. by eapply (t_wait _ I i p k r).
Qed.

Definition unclaimed (s : kernel) (np : nat) : Prop :=
  ∀ i p, ptable s !! i = Some p → creates (kctx p) ≠ Some np.

Lemma unclaimed_state s np q : claim_inv s → ptable s !! np = Some q → state q ≠ EMBRYO → unclaimed s np.
Proof. intros N Hq Hs i p Hp C. destruct (n_new _ N _ _ _ Hp C) as (_&r&Hr&?). congruence. Qed.

Lemma claim_inv_renewed s s' j q q' :
  claim_inv s → replaced s s' j q' → ptable s !! j = Some q → creates (kctx q') = None → unclaimed s j →
  claim_inv s' ∧ unclaimed s' j.
Proof.
  intros N R Hj Cq U.
  assert (∀ i p np, ptable s' !! i = Some p → creates (kctx p) = Some np → ptable s !! i = Some p) as Hl.
  { intros i p np Hi Cp. destruct (replaced_lookup s s' j q q' i p R Hj Hi) as [[-> ->]|[_ ?]]; [congruence|done]. }
  split; [split|].
  - intros i p np Hi C. pose proof (Hl _ _ _ Hi C) as Hi'. destruct (n_new _ N _ _ _ Hi' C) as (L&r&Hr&Sr).
    split; [done|]. exists r. rewrite (replaced_old s s' j q'); [done|done|]. intros ->. by destruct (U _ _ Hi').
  - intros i1 i2 p1 p2 np H1 H2 C1 C2. eapply (n_one _ N); eauto.
  - intros i p Hi C. exact (U i p (Hl _ _ _ Hi C) C).
Qed.

Lemma kinv_renewed s s' j q q' :
  kinv s → renewed s s' j q q' → creates (kctx q') = None → unclaimed s j → state q' ≠ RUNNING →
  kinv s' ∧ unclaimed s' j.
Proof.
  intros [I N C] E Cq U Nr. pose proof (claim_inv_renewed s s' j q q' N (e_new _ _ _ _ _ E) (e_old _ _ _ _ _ E) Cq U) as [N' U'].
  split; [|done]. split; [by eapply table_inv_renewed|done|].
  eapply (replaced_cpu s s' j q q'); [apply E|apply E| |done|done].
  intros Hr. apply (e_dead _ _ _ _ _ E). unfold live. auto.
Qed.

(** * Beginning *)

(** A call of [fork] takes a new slot. *)
Lemma kinv_claim s c i p np q k :
  kinv s → runs s c i p → ptable s !! np = Some q → state q = EMBRYO → unclaimed s np → creates k = Some np →
  kinv (upd i (goto k) s) ∧ runs (upd i (goto k) s) c i (goto k p).
Proof.
  intros K R Hq Sq U Ck. assert (i ≠ np) as Hne by (destruct R as (?&?&?); intros ->; congruence).
  pose proof R as (Hc&Hp&Hs). pose proof K as [I N C].
  assert (∀ j r, ptable (upd i (goto k) s) !! j = Some r → j = i ∧ r = goto k p ∨ j ≠ i ∧ ptable s !! j = Some r) as Hl.
  { intros j r. by apply upd_lookup. }
  split; [split|].
  - eapply table_inv_related; [done|]. eapply related_upd; try done; [intros; apply slot_refl|].
    apply awake_core; simpl; auto.
    + by eapply runs_live.
    + by apply (runs_vm _ _ _ _ K R).
    + by destruct k.
    + by destruct k.
  - split.
    + intros j r n Hj Cr. destruct (Hl _ _ Hj) as [[-> ->]|[_ Hr]].
      * simpl in Cr. assert (n = np) as -> by congruence. split; [unfold live; auto|]. exists q. simpl.
        by rewrite list_lookup_alter_ne.
      * destruct (n_new _ N _ _ _ Hr Cr) as (?&x&Hx&Sx). split; [done|]. exists x. simpl.
        rewrite list_lookup_alter_ne; [done|]. intros ->. congruence.
    + intros j1 j2 p1 p2 n H1 H2 C1 C2. destruct (Hl _ _ H1) as [[-> ->]|[_ H1']], (Hl _ _ H2) as [[-> ->]|[_ H2']];
        simpl in *; [done| | |by eapply (n_one _ N)].
      * destruct (U _ _ H2'). congruence.
      * destruct (U _ _ H1'). congruence.
  - eapply (cpu_inv_same s); [done| |done]. intros j. rewrite (running_alter s _ i p (goto k)) by done.
    case_decide; [|done]. subst. split; [by exists p|done].
  - split_and!; [done| |done]. simpl. by rewrite list_lookup_alter_eq, Hp.
Qed.

(** What [allocproc] does to the slot it takes. *)
Record took_slot (s s' : kernel) (r : option nat) (np : nat) (q q' : proc) : Prop := {
  a_old : ptable s !! np = Some q;
  a_free : state q = UNUSED;
  a_new : replaced s s' np q';
  a_next : nextpid s' = nextpid s + 1;
  a_frame : cpus s' = cpus s ∧ vms s' = vms s ∧ uvmrefcount s' = uvmrefcount s ∧ ftable s' = ftable s;
  a_pid : pid q' = nextpid s;
  a_keep : parent q' = parent q ∧ ofile q' = ofile q ∧ pgdir q' = pgdir q;
  a_result : r = None ∧ state q' = UNUSED ∧ kctx q' = kctx q ∧ chan q' = None ∨
             r = Some np ∧ state q' = EMBRYO ∧ kstack q' ≠ 0 ∧ kctx q' = K_forkret;
}.

Lemma allocproc_cases s stack r s' :
  allocproc stack s = Some (r, s') → (r = None ∧ s' = s) ∨ ∃ np q q', took_slot s s' r np q q'.
Proof.
  intros E. unfold allocproc in E. destruct (list_find _ _) as [[np q]|] eqn:Ef; [|simplify_eq; by left].
  apply list_find_Some in Ef as (Hq&Sq&_). case_bool_decide; [done|]. right.
  set (f := λ p, { p with state := EMBRYO; pid := nextpid s; nclone := 0; sleepticks := -1; chan := None }) in *.
  assert (∀ g, replaced s (upd np g { upd np f s with nextpid ::= Z.add 1 }) np (g (f q))) as Hr.
  { intros g. split_and!; [|done|done]. simpl. rewrite (list_alter_insert f np (ptable s) q Hq).
    rewrite (list_alter_insert g np _ (f q)); [apply list_insert_insert_eq|]. apply list_lookup_insert_eq. by eapply lookup_lt_Some. }
  exists np, q. case_bool_decide as Hst; injection E as <- <-; eexists.
  - split; [done|done|apply Hr|simpl; lia|done|done|done|]. by left.
  - split; [done|done|apply Hr|simpl; lia|done|done|done|]. by right.
Qed.

Lemma allocproc_inv s stack r s' :
  kinv s → allocproc stack s = Some (r, s') →
  kinv s' ∧ initproc s' = initproc s ∧ cpus s' = cpus s ∧
  (∀ i p, ptable s !! i = Some p → state p ≠ UNUSED → ptable s' !! i = Some p) ∧
  match r with
  | Some np => unclaimed s' np ∧ ∃ q, ptable s' !! np = Some q ∧ state q = EMBRYO
  | None => True
  end.
Proof.
  intros K E. destruct (allocproc_cases _ _ _ _ E) as [[-> ->]|(np&q&q'&T)]; [done|].
  destruct T as [Hq Sq R Hn (Hc&_) Hpid (Hpar&Hof&_) Hres].
  pose proof (unclaimed_state s np q (k_claim _ K) Hq) as U. rewrite Sq in U. specialize (U ltac:(done)).
  pose proof (t_loc _ (k_table _ K) _ _ Hq) as [_ Hfree _ _ _ Hpt _ Hfl Hself _].
  assert (∀ i p, ptable s !! i = Some p → state p ≠ UNUSED → 0 < pid p < nextpid s) as Hlt.
  { intros i p Hp Hu. by apply (t_loc _ (k_table _ K) _ _ Hp). }
  assert (0 < nextpid s) as Hpos.
  { destruct (t_init _ (k_table _ K)) as (ip&p&_&Hp&Lp&_). destruct (live_cases _ Lp) as (Hu&_). specialize (Hlt _ _ Hp Hu). lia. }
  assert (creates (kctx q') = None ∧ (state q' = UNUSED ∨ state q' = EMBRYO) ∧
          (state q' ≠ UNUSED → kstack q' ≠ 0) ∧ (state q' = EMBRYO → kctx q' = K_forkret)) as (Cq&Sq'&Stq&Eq).
  { destruct Hres as [(_&Hs&Hk&_)|(_&Hs&?&Hk)]; rewrite ?Hs, Hk; split_and!; auto; try done.
    destruct (creates (kctx q)) as [n|] eqn:Cq; [|done]. destruct (n_new _ (k_claim _ K) _ _ _ Hq Cq) as [Lq _].
    apply live_cases in Lq as (?&_). congruence. }
  assert (¬ live q' ∧ ¬ used q') as [Nl Nu] by (rewrite used_cases; unfold live; destruct Sq' as [-> | ->]; intuition discriminate).
  destruct (kinv_renewed s s' np q q') as [K' U']; [done| |done|done|by destruct Sq' as [-> | ->]|].
  { split; [done|done|lia| | | |by destruct Sq' as [-> | ->]|intros [W _]; by destruct Sq'; congruence|done].
    - split; try done; try (rewrite ?Hof, ?Hpar; by auto); [lia|by intros W; destruct Sq'; congruence|].
      intros [W _]; by destruct Sq'; congruence.
    - unfold live. rewrite Sq. intuition discriminate.
    - intros _ i p _ Hp Hu. specialize (Hlt _ _ Hp Hu). lia. }
  split_and!; [done|apply R|done| |].
  - intros i p Hp Hu. rewrite (replaced_old s s' np q'); [done|done|]. intros ->. congruence.
  - destruct Hres as [[-> _]|(->&Hs&_)]; [done|]. split; [done|]. exists q'. split; [by eapply replaced_new|done].
Qed.

(** What [fork] and [clone] make of the slot they took: a new child of [i], or a
    free slot again. *)
Definition filled (i : nat) (q q' : proc) : Prop :=
  state q' = RUNNABLE ∧ parent q' = Some i ∧ pid q' = pid q ∧ kstack q' = kstack q ∧ pgdir q' ≠ 0 ∧
    length (ofile q') = length (ofile q) ∧ kctx q' = kctx q ∨
  state q' = UNUSED ∧ parent q' = parent q ∧ ofile q' = ofile q ∧ kctx q' = kctx q.

(** The states in the hypotheses contradict each other. *)
Ltac absurd_state :=
  intros; try match goal with |- _ ≠ _ => intro | |- ¬ _ => intro end;
  repeat match goal with H : _ ∧ _ |- _ => destruct H | H : _ ∨ _ |- _ => destruct H end; exfalso; congruence.

Lemma filled_local s i np q q' :
  local_ok (nextpid s) np q → state q = EMBRYO → i ≠ np → filled i q q' → local_ok (nextpid s) np q' ∧ kctx q' = K_forkret.
Proof.
  intros [Hpid Hpar Hst _ _ _ _ Hof _ Hk] Sq Hne F. rewrite Sq in *. specialize (Hk eq_refl). specialize (Hpar (or_intror eq_refl)).
  destruct F as [(S&P&E1&E2&E3&E4&E5)|(S&P&E1&E2)]; (split; [|congruence]).
  - split; unfold used, live, waiting, kpoint_ok; rewrite ?S, ?P, ?E1, ?E2, ?E4, ?E5, ?Hk; auto; absurd_state.
  - split; unfold used, live, waiting, kpoint_ok; rewrite ?S, ?P, ?E1, ?E2, ?Hk, ?Hpar; auto; absurd_state.
Qed.

Lemma kinv_fill s s' c i p g np q f :
  ptable s' = alter g i (alter f np (ptable s)) →
  kinv s → runs s c i p → creates (kctx p) = Some np → ptable s !! np = Some q →
  run_step s i p (g p) → creates (kctx (g p)) = None → filled i q (f q) →
  nextpid s' = nextpid s → initproc s' = initproc s → cpus s' = cpus s → kinv s'.
Proof.
  intros E1 K R Cp Hq V Cg F E2 E3 E4. pose proof R as (Hc&Hp&Hs).
  destruct (n_new _ (k_claim _ K) _ _ _ Hp Cp) as (_&q0&Hq0&Sq). assert (q0 = q) as -> by congruence.
  assert (i ≠ np) as Hne by (intros ->; congruence).
  destruct (kinv_run s (upd i g s) c i p g) as [K1 R1]; try done. set (s1 := upd i g s) in *.
  assert (ptable s1 !! np = Some q) as Hq1 by (simpl; by rewrite list_lookup_alter_ne).
  assert (unclaimed s1 np) as U.
  { intros j r Hj Cr. destruct (upd_lookup _ _ _ _ _ _ Hp Hj) as [[-> ->]|[Hji Hj']]; [congruence|].
    destruct Hji. by eapply (n_one _ (k_claim _ K) j i r p np). }
  destruct (filled_local s i np q (f q) (t_loc _ (k_table _ K) _ _ Hq) Sq Hne F) as [L Hk].
  eapply (kinv_renewed s1 s' np q (f q)); [done| |by rewrite Hk|done|by destruct F as [[-> _]|[-> _]]].
  split; [done| |simpl; lia|by rewrite E2|..].
  - split_and!; [|done|intros c'; unfold myproc; by rewrite E4]. rewrite E1, alter_commute by done. simpl. by apply list_alter_insert.
  - unfold live. rewrite Sq. intuition discriminate.
  - intros Hu j r Hj Hr Ur E. destruct Hj. eapply (t_pid _ (k_table _ K1) j np r q); try done; [congruence|].
    destruct F as [(_&_&Hpid&_)|[? _]]; congruence.
  - by destruct F as [[-> _]|[-> _]].
  - intros [W _]. destruct F as [[? _]|[? _]]; congruence.
  - intros U'. destruct F as [(_&P&_)|[Su _]]; [|apply used_cases in U' as [? _]; congruence].
    exists i, (g p). split_and!; [done|done|apply R1|by eapply runs_live].
Qed.

Lemma dup_files_length from to t l t' : length from = length to → dup_files from to t = Some (l, t') → length l = length to.
Proof.
  revert to t l t'. induction from as [|[j|] from IH]; intros [|o to] t l t' Hl E; simpl in *; try lia; [by simplify_eq| |].
  - destruct (filedup j t); simpl in E; [|done]. destruct (dup_files from to _) as [[l1 t1]|] eqn:Ed; simpl in E; [|done].
    injection E as <- <-. simpl. f_equal. eapply IH; [|done]. lia.
  - destruct (dup_files from to _) as [[l1 t1]|] eqn:Ed; simpl in E; [|done]. injection E as <- <-. simpl. f_equal.
    eapply IH; [|done]. lia.
Qed.

Lemma kinv_fork s c i p np pd s' :
  kinv s → runs s c i p → kctx p = K_fork np → fork i np pd s = Some s' → kinv s'.
Proof.
  intros K R Hk E. unfold fork in E. pose proof R as (?&Hp&Hs). rewrite Hp in E. simpl in E.
  destruct (ptable s !! np) as [q|] eqn:Hq; simpl in E; [|done]. case_bool_decide as Hpd.
  - injection E as <-. eapply (kinv_fill s _ c i p); try done; [by rewrite Hk|run_ok K R|]. by right.
  - destruct (dup_files _ _ _) as [[l t]|] eqn:Ed; simpl in E; [|done]. injection E as <-.
    eapply (kinv_fill s _ c i p); try done; [by rewrite Hk|run_ok K R|]. left. simpl. split_and!; try done.
    eapply dup_files_length; [|done]. pose proof (t_loc _ (k_table _ K)) as L.
    by rewrite (l_files _ _ _ (L _ _ Hp)), (l_files _ _ _ (L _ _ Hq)).
Qed.

Lemma share_vm_frame pd s :
  ptable (share_vm pd s) = ptable s ∧ nextpid (share_vm pd s) = nextpid s ∧
  initproc (share_vm pd s) = initproc s ∧ cpus (share_vm pd s) = cpus s.
Proof.
  unfold share_vm, allocate_uvmrefcount. destruct (locate_uvmrefcount _ _); [done|]. by destruct (list_find _ _) as [[? ?]|].
Qed.

Lemma kinv_clone s c i p np fn stack arg s' :
  kinv s → runs s c i p → kctx p = K_clone np fn stack arg → clone i np fn stack arg s = Some s' → kinv s'.
Proof.
  intros K R Hk E. unfold clone in E. pose proof R as (?&Hp&Hs). rewrite Hp in E. simpl in E.
  destruct (ptable s !! np) as [q|] eqn:Hq; simpl in E; [|done].
  destruct (dup_files _ _ _) as [[l t]|] eqn:Ed; simpl in E; [|done]. injection E as <-.
  destruct (share_vm_frame (pgdir p) s) as (F1&F2&F3&F4).
  eapply (kinv_fill s _ c i p); simpl; rewrite ?F1; try done; [by rewrite Hk|run_ok K R|]. left. simpl. split_and!; try done.
  - by apply (runs_vm _ _ _ _ K R).
  - eapply dup_files_length; [|done]. pose proof (t_loc _ (k_table _ K)) as L.
    by rewrite (l_files _ _ _ (L _ _ Hp)), (l_files _ _ _ (L _ _ Hq)).
Qed.

(** * Ending *)

Definition child_of (i : nat) (q : proc) : Prop := parent q = Some i.
Definition adopt (ip : nat) : proc → proc := set_parent (Some ip).

(** A child is handed to the first process. *)
Lemma kinv_adopt s i ip j q :
  kinv s → initproc s = Some ip → ptable s !! j = Some q → child_of i q →
  (state q = ZOMBIE → ∀ r, ptable s !! ip = Some r → ¬ waiting r) → kinv (upd j (adopt ip) s).
Proof.
  intros K Hip Hq Hc Hz. pose proof K as [I N C]. unfold child_of in Hc.
  destruct (t_init _ I) as (ip0&pi&E&Hpi&Lpi&Ppi&Kpi). assert (ip0 = ip) as -> by congruence.
  assert (j ≠ ip) as Hne by (intros ->; congruence).
  assert (∀ k r, ptable (upd j (adopt ip) s) !! k = Some r →
    k = j ∧ r = adopt ip q ∨ k ≠ j ∧ ptable s !! k = Some r) as Hl.
  { intros k r. by apply upd_lookup. }
  assert (∀ k r, ptable s !! k = Some r → ∃ r', ptable (upd j (adopt ip) s) !! k = Some r' ∧ state r' = state r) as Hb.
  { intros k r Hk. simpl. rewrite list_lookup_alter. case_decide; [subst; rewrite Hk|]; eauto. }
  split; [split|split|].
  - simpl. rewrite length_alter. apply I.
  - intros k r Hk. destruct (Hl _ _ Hk) as [[-> ->]|[_ Hr]]; [|by apply (t_loc _ I)].
    destruct (t_loc _ I _ _ Hq) as [H1 H2 ? ? ? ? ? ? ? ?]. split; try done; simpl; [|congruence].
    intros Hf. specialize (H2 Hf). congruence.
  - intros j1 j2 p1 p2 H1 H2. destruct (Hl _ _ H1) as [[-> ->]|[_ H1']], (Hl _ _ H2) as [[-> ->]|[_ H2']];
      simpl; intros; first [done|by eapply (t_pid _ I)].
  - exists ip, pi. simpl. rewrite list_lookup_alter_ne by done. auto.
  - intros k r Hk Ur Ni. destruct (Hl _ _ Hk) as [[-> ->]|[Hkj Hr]].
    + exists ip, pi. simpl. rewrite list_lookup_alter_ne by done. auto.
    + destruct (t_parent _ I k r Hr Ur Ni) as (m&x&Em&Hm&Lm). destruct (Hb _ _ Hm) as (x'&Hx'&Sx).
      exists m, x'. eauto using live_state.
  - intros w r k x Hw W Hk Ep Z.
    assert (∃ r0, ptable s !! w = Some r0 ∧ waiting r0) as (r0&Hr0&W0) by (destruct (Hl _ _ Hw) as [[-> ->]|[_ ?]]; eauto).
    destruct (Hl _ _ Hk) as [[-> ->]|[_ Hx]]; [|by eapply (t_wait _ I w r0 k x)].
    simpl in Ep. simplify_eq. by eapply Hz.
  - intros k r n Hk Cr. assert (ptable s !! k = Some r ∨ r = adopt ip q ∧ k = j) as Hr by (destruct (Hl _ _ Hk) as [[-> ->]|[_ ?]]; auto).
    destruct Hr as [Hr|[-> ->]].
    + destruct (n_new _ N _ _ _ Hr Cr) as (?&x&Hx&Sx). destruct (Hb _ _ Hx) as (x'&?&?). split; [done|]. exists x'. split; congruence.
    + destruct (n_new _ N _ _ _ Hq Cr) as (?&x&Hx&Sx). destruct (Hb _ _ Hx) as (x'&?&?). split; [done|]. exists x'. split; congruence.
  - intros j1 j2 p1 p2 n H1 H2. destruct (Hl _ _ H1) as [[-> ->]|[_ H1']], (Hl _ _ H2) as [[-> ->]|[_ H2']];
      simpl; intros; first [done|by eapply (n_one _ N)].
  - eapply (cpu_inv_same s); [done| |done]. intros k. rewrite (running_alter s _ j q (adopt ip)) by done.
    case_decide; [|done]. subst. unfold running. rewrite Hq. split; [by eexists|by intros (?&[= <-]&?)].
Qed.

(** What the loop of [exit] keeps. *)
Record exit_frame (i : nat) (s s' : kernel) : Prop := {
  x_init : initproc s' = initproc s;
  x_next : nextpid s' = nextpid s;
  x_cpus : cpus s' = cpus s;
  x_slots : ∀ j p', ptable s' !! j = Some p' → ∃ p, ptable s !! j = Some p ∧
    (parent p' = parent p ∨ child_of i p ∧ parent p' = initproc s) ∧ (waiting p' → waiting p) ∧
    (state p ≠ SLEEPING → p' = { p with parent := parent p' });
}.

Lemma exit_frame_refl i s : exit_frame i s s.
Proof. split; try done. intros j p Hp. exists p. split_and!; auto. intros _. by destruct p. Qed.

Lemma exit_frame_trans i s1 s2 s3 : exit_frame i s1 s2 → exit_frame i s2 s3 → exit_frame i s1 s3.
Proof.
  intros [A1 A2 A3 A4] [B1 B2 B3 B4]. split; try congruence. intros j p3 H3.
  destruct (B4 _ _ H3) as (p2&H2&P2&W2&E2). destruct (A4 _ _ H2) as (p1&H1&P1&W1&E1). exists p1.
  split_and!; [done|unfold child_of in *; intuition congruence|auto|]. intros Hs. specialize (E1 Hs).
  assert (state p2 ≠ SLEEPING) as Hs2 by (by rewrite E1). rewrite (E2 Hs2), E1. done.
Qed.

Lemma wake_waiting ch p : waiting (wake ch p) → waiting p ∧ wake ch p = p ∧ chan p ≠ ch.
Proof.
  unfold wake. destruct (_ && _) eqn:E; [by intros []|]. intros W. split_and!; [done|done|]. intros Hch.
  rewrite !bool_decide_eq_true_2 in E by (done || apply W). done.
Qed.

Lemma exit_frame_wakeup i ch s : exit_frame i s (wakeup1 ch s).
Proof.
  split; try done. intros j p' Hj. simpl in Hj. rewrite list_lookup_fmap in Hj. apply fmap_Some in Hj as (p&Hp&->).
  exists p. split_and!; [done|left; by unfold wake; case_match|intros W; by apply wake_waiting in W as [? _]|].
  intros Hs. unfold wake. rewrite bool_decide_eq_false_2 by done. by destruct p.
Qed.

Lemma wakeup_adopt ch j ip s : wakeup1 ch (upd j (adopt ip) s) = upd j (adopt ip) (wakeup1 ch s).
Proof.
  unfold wakeup1, upd. simpl. f_equal. apply list_eq. intros k.
  rewrite list_lookup_fmap, !list_lookup_alter, !list_lookup_fmap. case_decide; [|done]. subst.
  destruct (ptable s !! k) as [p|]; simpl; [|done]. f_equal. unfold wake, adopt. simpl. by case_match.
Qed.

Lemma wakeup_not_waiting ch s j p : ptable (wakeup1 ch s) !! j = Some p → chan p = ch → ¬ waiting p.
Proof.
  simpl. rewrite list_lookup_fmap. intros (q&Hq&->)%fmap_Some Hch W. apply wake_waiting in W as (?&E&?). congruence.
Qed.

Lemma exit_frame_adopt i j q ip s :
  ptable s !! j = Some q → child_of i q → initproc s = Some ip → exit_frame i s (upd j (adopt ip) s).
Proof.
  intros Hq Hc Hip. split; try done. intros k p' Hk. simpl in Hk. rewrite list_lookup_alter in Hk. case_decide; [subst|].
  - apply fmap_Some in Hk as (p&Hp&->). exists p. rewrite Hip. split_and!; auto. right. split; [congruence|done].
  - exists p'. split_and!; auto. intros _. by destruct p'.
Qed.

Lemma wake_child i ch q : child_of i q → child_of i (wake ch q).
Proof. unfold child_of, wake. by case_match. Qed.

(** One turn of the loop. *)
Lemma reparent_inv s i ip j :
  kinv s → initproc s = Some ip → i ≠ ip → kinv (reparent i s j) ∧ exit_frame i s (reparent i s j) ∧
  (∀ q, ptable (reparent i s j) !! j = Some q → ¬ child_of i q).
Proof.
  intros K Hip Hne. unfold reparent. destruct (ptable s !! j) as [q|] eqn:Hq.
  2:{ split_and!; [done|apply exit_frame_refl|congruence]. }
  case_bool_decide as Hc; [|split_and!; [done|apply exit_frame_refl|congruence]].
  cbn zeta. change (initproc (upd j (set_parent (initproc s)) s)) with (initproc s). rewrite !Hip. fold (adopt ip). cbn [fmap option_fmap option_map].
  assert (∀ s0 r, ptable (upd j (adopt ip) s0) !! j = Some r → ¬ child_of i r) as Hnot.
  { intros s0 r. simpl. rewrite list_lookup_alter_eq. intros (p&_&->)%fmap_Some. unfold child_of. simpl. congruence. }
  case_bool_decide as Hz.
  - rewrite wakeup_adopt. pose proof (kinv_wakeup1 s (Some (ch_proc ip)) K) as K1. split_and!; [|..|apply Hnot].
    + eapply (kinv_adopt _ i ip j (wake (Some (ch_proc ip)) q)); try done.
      * simpl. by rewrite list_lookup_fmap, Hq.
      * by apply wake_child.
      * intros _ r Hr W. eapply wakeup_not_waiting; [exact Hr| |exact W].
        destruct (t_loc _ (k_table _ K1) _ _ Hr) as [_ _ _ _ _ Hpt _ _ _ _]. destruct W as [Hs Hk].
        specialize (Hpt ltac:(by left)). unfold kpoint_ok in Hpt. by rewrite Hk in Hpt.
    + eapply exit_frame_trans; [apply exit_frame_wakeup|]. eapply exit_frame_adopt; [|by apply wake_child|done].
      simpl. by rewrite list_lookup_fmap, Hq.
  - split_and!; [|by eapply exit_frame_adopt|apply Hnot]. by eapply (kinv_adopt _ i ip j q).
Qed.

(** The loop. *)
Lemma reparent_all s i ip n :
  kinv s → initproc s = Some ip → i ≠ ip →
  let s' := foldl (reparent i) s (seq 0 n) in
  kinv s' ∧ exit_frame i s s' ∧ (∀ j q, (j < n)%nat → ptable s' !! j = Some q → ¬ child_of i q).
Proof.
  intros K Hip Hne s'. subst s'. induction n as [|n (K1&F1&C1)]; [split_and!; [done|apply exit_frame_refl|lia]|].
  rewrite seq_S, foldl_app. simpl. set (s1 := foldl (reparent i) s (seq 0 n)) in *.
  destruct (reparent_inv s1 i ip n K1) as (K2&F2&C2); [by rewrite (x_init _ _ _ F1)|done|].
  split_and!; [done|by eapply exit_frame_trans|]. intros j q Hj Hq. destruct (decide (j = n)) as [->|]; [by apply C2|].
  destruct (x_slots _ _ _ F2 _ _ Hq) as (p&Hp&[E|[_ E]]&_); unfold child_of; rewrite E; [by apply (C1 j p); [lia|]|].
  rewrite (x_init _ _ _ F1), Hip. congruence.
Qed.

(** A process without children, whose parent is not asleep in [wait], ends. *)
Lemma kinv_zombie s c i p f :
  kinv s → runs s c i p → initproc s ≠ Some i → kctx p = K_exit →
  (∀ j q, ptable s !! j = Some q → ¬ child_of i q) →
  (∀ w r, parent p = Some w → ptable s !! w = Some r → ¬ waiting r) →
  state (f p) = ZOMBIE → (let q := f p in pid q = pid p ∧ parent q = parent p ∧ kstack q = kstack p ∧
    pgdir q = pgdir p ∧ kctx q = kctx p ∧ ofile q = ofile p) →
  kinv (sched c (upd i f s)).
Proof.
  intros K R Ni Hk Hch Hw Sz (E1&E2&E3&E4&E5&E6).
  pose proof R as (Hc&Hp&Hs). pose proof K as [I N C].
  assert (∀ j r, ptable (sched c (upd i f s)) !! j = Some r → j = i ∧ r = f p ∨ j ≠ i ∧ ptable s !! j = Some r) as Hl.
  { intros j r. by apply upd_lookup. }
  assert (∀ j r, ptable s !! j = Some r → j ≠ i → ptable (sched c (upd i f s)) !! j = Some r) as Hb.
  { intros j r Hj Hji. simpl. by rewrite list_lookup_alter_ne. }
  destruct (t_loc _ I _ _ Hp) as [H1 H2 H3 H4 H5 H6 H7 H8 H9 H10]. rewrite Hs in *.
  split; [split|split|].
  - simpl. rewrite length_alter. apply I.
  - intros j r Hj. destruct (Hl _ _ Hj) as [[-> ->]|[_ Hr]]; [|by apply (t_loc _ I)].
    split; unfold used, live, waiting; rewrite ?E1, ?E2, ?E3, ?E4, ?E5, ?E6, ?Sz; auto; try absurd_state.
    intros _. apply H4. left. unfold live. auto.
  - intros j1 j2 p1 p2 G1 G2. destruct (Hl _ _ G1) as [[-> ->]|[_ G1']], (Hl _ _ G2) as [[-> ->]|[_ G2']];
      rewrite ?E1, ?E2; intros; first [done|eapply (t_pid _ I); eauto; congruence].
  - destruct (t_init _ I) as (ip&q&Hip&Hq&?). exists ip, q. split; [done|]. split; [|done]. apply Hb; congruence.
  - intros j r Hj U Nj. assert (∃ r0, ptable s !! j = Some r0 ∧ used r0 ∧ parent r0 = parent r) as (r0&Hr0&U0&E0).
    { destruct (Hl _ _ Hj) as [[-> ->]|[_ Hr]]; [|eauto]. exists p. split_and!; [done|left; unfold live; auto|congruence]. }
    destruct (t_parent _ I j r0 Hr0 U0 Nj) as (m&x&Em&Hm&Lm). exists m, x. split_and!; [congruence| |done].
    apply Hb; [done|]. intros ->. by destruct (Hch j r0).
  - intros w r j x Gw W Gj Ep Z. destruct (Hl _ _ Gw) as [[-> ->]|[_ Gw']]; [destruct W; congruence|].
    destruct (Hl _ _ Gj) as [[-> ->]|[_ Gj']]; [|by eapply (t_wait _ I w r j x)]. eapply Hw; eauto. congruence.
  - intros j r n Hj Cr. destruct (Hl _ _ Hj) as [[-> ->]|[_ Hr]]; [by rewrite E5, Hk in Cr|].
    destruct (n_new _ N _ _ _ Hr Cr) as (?&x&Hx&Sx). split; [done|]. exists x. split; [|done]. apply Hb; congruence.
  - intros j1 j2 p1 p2 n G1 G2. destruct (Hl _ _ G1) as [[-> ->]|[_ G1']]; [by rewrite E5, Hk|].
    destruct (Hl _ _ G2) as [[-> ->]|[_ G2']]; [by rewrite E5, Hk|]. intros. by eapply (n_one _ N).
  - eapply (cpu_inv_leave s _ c i); [done|intros c'; by rewrite myproc_sched| |done].
    intros j. rewrite (running_alter s _ i p f) by done. case_decide; [|by intuition]. split; [congruence|intros [_ ?]; done].
Qed.

Lemma kinv_exit s c i p s' :
  kinv s → runs s c i p → kctx p = K_exit → exit_zombie c i s = Some s' → kinv s'.
Proof.
  intros K R Hk E. unfold exit_zombie in E. pose proof R as (Hc&Hp&Hs). rewrite Hp in E. cbn [mbind option_bind] in E.
  apply (inj Some) in E. rewrite <- E. clear E s'.
  destruct (t_init _ (k_table _ K)) as (ip&pi&Hip&Hpi&_&_&Kpi). assert (i ≠ ip) as Hne by (intros ->; congruence).
  pose proof (kinv_wakeup1 s (ch_proc <$> parent p) K) as K1. set (s1 := wakeup1 _ s) in *.
  destruct (reparent_all s1 i ip NPROC K1 Hip Hne) as (K2&F2&C2).
  set (s2 := foldl _ _ _) in *. clearbody s2.
  pose proof (exit_frame_trans _ _ _ _ (exit_frame_wakeup i (ch_proc <$> parent p) s) F2) as F.
  assert (∃ p2, ptable s2 !! i = Some p2) as [p2 Hp2].
  { apply lookup_lt_is_Some_2. rewrite (t_len _ (k_table _ K2)), <- (t_len _ (k_table _ K)). by eapply lookup_lt_Some. }
  destruct (x_slots _ _ _ F _ _ Hp2) as (p0&Hp0&Hpar&_&E2). assert (p0 = p) as -> by congruence.
  specialize (E2 ltac:(by rewrite Hs)).
  assert (parent p2 = parent p) as Epar by (destruct Hpar as [|[Hch _]]; [done|destruct (l_self _ _ _ (t_loc _ (k_table _ K) _ _ Hp) Hch)]).
  assert (runs s2 c i p2) as R2 by (split_and!; [unfold myproc; by rewrite (x_cpus _ _ _ F)|done|by rewrite E2]).
  eapply (kinv_zombie s2 c i p2); try done.
  - rewrite (x_init _ _ _ F). congruence.
  - by rewrite E2.
  - intros j q Hq. apply (C2 j q); [|done]. apply lookup_lt_Some in Hq. by rewrite (t_len _ (k_table _ K2)) in Hq.
  - intros w r Ew Hr W. rewrite Epar in Ew. destruct (x_slots _ _ _ F2 _ _ Hr) as (r1&Hr1&_&W1&_). specialize (W1 W).
    eapply wakeup_not_waiting; [exact Hr1| |done]. rewrite Ew. destruct W1 as [Ws Wk].
    pose proof (l_point _ _ _ (t_loc _ (k_table _ K1) _ _ Hr1) ltac:(by left)) as Hpt. unfold kpoint_ok in Hpt. by rewrite Wk in Hpt.
  - destruct (account_fields (ticks_now s2) p2) as (_&?&?&?&?&?&_&_&?). simpl. by split_and!.
Qed.

Lemma wait_scan_found i j l hk b k :
  wait_scan i j l hk = (b, Some k) → ∃ q, (j ≤ k)%nat ∧ l !! (k - j)%nat = Some q ∧ child_of i q ∧ state q = ZOMBIE.
Proof.
  revert j hk. induction l as [|p l IH]; intros j hk E; simpl in E; [done|].
  assert (∀ hk, wait_scan i (S j) l hk = (b, Some k) →
    ∃ q, (j ≤ k)%nat ∧ (p :: l) !! (k - j)%nat = Some q ∧ child_of i q ∧ state q = ZOMBIE) as Hrec.
  { intros hk' E'. destruct (IH _ _ E') as (q&Hle&Hq&?&?). exists q. split_and!; [lia| |done..].
    replace (k - j)%nat with (S (k - S j)) by lia. done. }
  case_bool_decide as Hc; [by eapply Hrec|]. case_bool_decide as Hz; [|by eapply Hrec].
  injection E as <- <-. exists p. rewrite Nat.sub_diag. split_and!; [lia|done..].
Qed.

Lemma wait_scan_none i j l hk b :
  wait_scan i j l hk = (b, None) →
  (∀ k q, l !! k = Some q → child_of i q → state q ≠ ZOMBIE) ∧
  (b = true ↔ hk = true ∨ ∃ k q, l !! k = Some q ∧ child_of i q).
Proof.
  revert j hk. induction l as [|p l IH]; intros j hk E; simpl in E.
  - injection E as <-. split; [done|]. split; [auto|]. intros [|(?&?&?&?)]; [done|]. done.
  - assert (∀ P : proc → Prop, (∃ k q, (p :: l) !! k = Some q ∧ P q) ↔ P p ∨ ∃ k q, l !! k = Some q ∧ P q) as Hex.
    { intros P. split; [intros ([|k]&q&Hk&?); [left; by simplify_eq/=|right; by exists k, q]|].
      intros [?|(k&q&?&?)]; [by exists 0%nat, p|by exists (S k), q]. }
    rewrite Hex. case_bool_decide as Hc; [|case_bool_decide as Hz; [done|]].
    + destruct (IH _ _ E) as [H1 H2]. split; [|rewrite H2; unfold child_of; intuition].
      intros [|k] q Hk Hq; [|by eapply H1]. unfold child_of in Hq. by simplify_eq/=.
    + destruct (IH _ _ E) as [H1 H2]. split; [|rewrite H2; unfold child_of; intuition].
      intros [|k] q Hk Hq; [|by eapply H1]. by simplify_eq/=.
Qed.

Lemma release_vm_frame pd s s' :
  release_vm pd s = Some s' →
  ptable s' = ptable s ∧ nextpid s' = nextpid s ∧ initproc s' = initproc s ∧ cpus s' = cpus s ∧ ftable s' = ftable s.
Proof. unfold release_vm. repeat case_bool_decide; [done| |done]. by intros [= <-]. Qed.

Lemma freevm_frame pd s s' :
  freevm pd s = Some s' →
  ptable s' = ptable s ∧ nextpid s' = nextpid s ∧ initproc s' = initproc s ∧ cpus s' = cpus s ∧ ftable s' = ftable s.
Proof.
  unfold freevm. destruct (locate_uvmrefcount _ _) as [j|]; [|apply release_vm_frame].
  destruct (_ !! j) as [u|]; simpl; [|done]. repeat case_bool_decide; try done;
    first [by intros [= <-]|intros E; by apply release_vm_frame in E].
Qed.

Lemma kinv_freevm pd s s' : freevm pd s = Some s' → kinv s → kinv s'.
Proof.
  intros (E1&E2&E3&E4&_)%freevm_frame K. eapply (kinv_frame s); try done. intros c. unfold myproc. by rewrite E4.
Qed.

Lemma reap_local n i q : local_ok n i q → local_ok n i (reap q).
Proof.
  intros [_ _ _ _ _ _ _ Hof _ _]. split; unfold used, live, waiting; simpl; auto; absurd_state.
Qed.

Lemma kinv_wait s c i p s' : kinv s → runs s c i p → wait c i s = Some s' → kinv s'.
Proof.
  intros K R E. unfold wait in E. pose proof R as (Hc&Hp&Hs). rewrite Hp in E. cbn [mbind option_bind] in E.
  destruct (wait_scan _ _ _ _) as [b [k|]] eqn:Ew.
  - apply wait_scan_found in Ew as (q&_&Hq&Hch&Hz). rewrite Nat.sub_0_r in Hq. rewrite Hq in E. cbn [mbind option_bind] in E.
    destruct (freevm _ _) as [s1|] eqn:Ef; simpl in E; [|done]. injection E as <-.
    pose proof (kinv_freevm _ _ _ Ef K) as K1. destruct (freevm_frame _ _ _ Ef) as (F1&F2&F3&F4&_).
    rewrite <- F1 in Hq. assert (i ≠ k) as Hne by (intros ->; congruence).
    assert (¬ live q) as Nl by (unfold live; rewrite Hz; absurd_state).
    assert (creates (kctx q) = None) as Cq.
    { destruct (creates (kctx q)) as [n|] eqn:Cq; [|done]. by destruct (n_new _ (k_claim _ K1) _ _ _ Hq Cq). }
    destruct (kinv_renewed s1 (upd k reap s1) k q (reap q)) as [K2 _]; try done.
    { split; try done.
      - split_and!; [|done|done]. simpl. by apply list_alter_insert.
      - eapply reap_local, (t_loc _ (k_table _ K1) _ _ Hq).
      - by intros [].
      - by intros [[|[|]]|]. }
    { eapply unclaimed_state; [apply K1|done|]. congruence. }
    eapply (kinv_return _ c i p); [done|]. split_and!; [unfold myproc; simpl; by rewrite F4| |done].
    simpl. by rewrite list_lookup_alter_ne, F1.
  - apply wait_scan_none in Ew as [Hnz _]. destruct (negb b || killed p) eqn:Eb; injection E as <-; [by eapply kinv_return|].
    apply orb_false_iff in Eb as [_ Hkl]. eapply (kinv_sleep s c i p); try done.
Qed.
