(* ===== verification/XvReach.v ===== *)
(** The invariant of the process table holds in every reachable state. *)

From stdpp Require Import base option list numbers gmap.
From coqutil Require Import Datatypes.RecordSettersUsingExistingGetters.
From Stdlib Require Import ZArith Lia.
From S2P Require Import Prelude XvProc XvInv XvLife.
Local Open Scope Z_scope.

(** * System calls *)

Lemma exit_start_inv s c i p s' : kinv s → runs s c i p → exit i s = Some s' → kinv s'.
Proof.
  intros K R E. unfold exit in E. pose proof R as (_&Hp&_). rewrite Hp in E. simpl in E.
  case_bool_decide as Hi; [done|]. destruct (close_files _ _); simpl in E; [|done]. injection E as <-.
  eapply (kinv_run s _ c i p); try done. run_ok K R.
Qed.

(** A change of the running process that the invariant does not see, before the
    call goes on. *)
Lemma runs_change s c i p f :
  kinv s → runs s c i p → run_step s i p (f p) → kinv (upd i f s) ∧ runs (upd i f s) c i (f p).
Proof. intros K R V. by eapply (kinv_run s). Qed.

Lemma create_inv s c i p stack s' (k : nat → kpoint) :
  kinv s → runs s c i p → (∀ np, creates (k np) = Some np) →
  ('(np, s) ← allocproc stack s;
   match np with None => return_value i (-1) s | Some np => Some (upd i (goto (k np)) s) end) = Some s' → kinv s'.
Proof.
  intros K R Hk E. destruct (allocproc stack s) as [[r s1]|] eqn:Ea; simpl in E; [|done].
  destruct (allocproc_inv _ _ _ _ K Ea) as (K1&_&Hc&Hkeep&Hr). pose proof R as (Hm&Hp&Hs).
  assert (runs s1 c i p) as R1 by (split_and!; [unfold myproc; by rewrite Hc|apply Hkeep; [done|congruence]|done]).
  destruct r as [np|]; [|by eapply return_inv]. destruct Hr as (U&q&Hq&Sq). injection E as <-.
  by eapply (kinv_claim s1 c i p np q).
Qed.

Lemma sleep_loop_inv s c i p ticks0 n s' : kinv s → runs s c i p → sleep_loop c i ticks0 n s = Some s' → kinv s'.
Proof.
  intros K R E. unfold sleep_loop in E. pose proof R as (_&Hp&_). rewrite Hp in E. simpl in E. case_bool_decide.
  - destruct (killed p); [by eapply return_inv|]. injection E as <-. by eapply (kinv_sleep s c i p).
  - edestruct (runs_change s c i p (λ p, { p with sleepticks := -1 }) K R) as [K1 R1]; [run_ok K R|by eapply return_inv].
Qed.

Lemma kill_runs s c i p n r s1 : kinv s → runs s c i p → kill n s = (r, s1) → kinv s1 ∧ ∃ p1, runs s1 c i p1.
Proof.
  intros K R E. split; [by eapply kinv_kill|]. unfold kill in E. destruct (list_find _ _) as [[j q]|] eqn:Ef; [|simplify_eq; by exists p].
  injection E as <- <-. destruct R as (Hc&Hp&Hs). unfold runs. simpl. rewrite list_lookup_alter. case_decide; [subst|by exists p].
  rewrite Hp. simpl. eexists. split_and!; [done|done|]. simpl. by rewrite bool_decide_eq_false_2 by congruence.
Qed.

Section calls.
Context (s : kernel) (c i : nat) (p : proc) (K : kinv s) (R : runs s c i p).

Lemma set_then_goto f k s' :
  run_step s i p (f p) → kpoint_ok i (goto k (f p)) → creates k = None → k ≠ K_exit →
  Some (upd i (goto k) (upd i f s)) = Some s' → kinv s'.
Proof. intros V Hk Hc Hx [= <-]. destruct (runs_change s c i p f K R V) as [K1 R1]. by eapply (kinv_goto _ c i (f p)). Qed.

Lemma sbrk_inv n newsz s' : sys_sbrk i n newsz s = Some s' → kinv s'.
Proof.
  unfold sys_sbrk. pose proof R as (_&Hp&_). rewrite Hp. simpl. destruct n as [n|]; [|intros E; by eapply return_inv].
  unfold growproc. destruct (bool_decide (n ≠ 0) && _); simpl.
  { intros E. eapply return_inv; [exact K|exact R|exact E]. }
  destruct (switchuvm _ _) as [s1|] eqn:E1; simpl; [|done]. apply switchuvm_some in E1 as [-> _]. case_bool_decide.
  - intros E. by eapply return_inv.
  - edestruct (runs_change s c i p (λ p, { p with sz := newsz }) K R) as [K1 R1]; [run_ok K R|]. intros E. by eapply return_inv.
Qed.

Lemma remain_inv t s' : sys_remain i t s = Some s' → kinv s'.
Proof.
  unfold sys_remain. pose proof R as (_&Hp&_). rewrite Hp. simpl. destruct t as [t|]; [|intros E; by eapply return_inv].
  case_bool_decide; [intros E; by eapply return_inv|]. case_bool_decide; intros E; (eapply set_then_goto; [|..|exact E]); try done; run_ok K R.
Qed.

Lemma exec2_inv t ok s' : sys_exec2 i t ok s = Some s' → kinv s'.
Proof.
  unfold sys_exec2. pose proof R as (_&Hp&_). rewrite Hp. simpl. destruct t as [t|]; [|intros E; by eapply return_inv].
  case_bool_decide; [intros E; by eapply return_inv|]. destruct ok; simpl; [|intros E; by eapply return_inv].
  case_bool_decide; intros E; (eapply set_then_goto; [|..|exact E]); try done; run_ok K R.
Qed.

Lemma sys_sleep_inv n s' : sys_sleep c i n s = Some s' → kinv s'.
Proof.
  unfold sys_sleep. destruct n as [n|]; [|intros E; by eapply return_inv]. case_bool_decide.
  - intros [= <-]. by eapply kinv_goto.
  - edestruct (runs_change s c i p (λ p, { p with sleepticks := n }) K R) as [K1 R1]; [run_ok K R|].
    intros E. by eapply sleep_loop_inv.
Qed.

(** A call that changes the file table, a descriptor table, and returns. *)
Lemma files_inv f t v s' :
  run_step s i p (f p) →
  return_value i v { upd i f s with ftable := t } = Some s' → kinv s'.
Proof.
  intros V E. destruct (kinv_run s { upd i f s with ftable := t } c i p f) as [K1 R1]; try done. by eapply return_inv.
Qed.

Lemma fdalloc_length j l fd l' : fdalloc j l = Some (fd, l') → length l' = length l.
Proof. unfold fdalloc. destruct (list_find _ _) as [[k o]|]; [|done]. intros [= _ <-]. apply length_insert. Qed.

Lemma files_call_inv k s' :
  syscall c i k s = Some s' → match k with S_dup _ | S_close _ | S_open _ _ => True | _ => False end → kinv s'.
Proof.
  pose proof R as (_&Hp&_). destruct k; try done; intros E _; revert E; unfold syscall, sys_dup, sys_close, sys_open; rewrite ?Hp; simpl.
  - destruct (argfd _ _ _) as [[fd' j]|]; [|intros E; by eapply return_inv].
    destruct (fdalloc _ _) as [[fd'' l]|] eqn:Ef; [|intros E; by eapply return_inv].
    destruct (filedup _ _) as [t|]; simpl; [|done]. intros E.
    eapply (files_inv (λ p, { p with ofile := l })); [|exact E]. run_ok K R. by eapply fdalloc_length.
  - destruct (argfd _ _ _) as [[fd' j]|]; [|intros E; by eapply return_inv].
    destruct (fileclose _ _) as [[t ?]|]; simpl; [|done]. intros E.
    eapply (files_inv (λ p, { p with ofile ::= <[fd' := None]> })); [|exact E]. run_ok K R.
  - destruct (filealloc _) as [[j t]|]; [|intros E; by eapply return_inv].
    destruct (fdalloc _ _) as [[fd'' l]|] eqn:Ef; simpl.
    + intros E. eapply (files_inv (λ p, { p with ofile := l })); [|exact E]. run_ok K R. by eapply fdalloc_length.
    + destruct (fileclose _ _) as [[t' ?]|]; simpl; [|done]. intros E.
      eapply (return_inv { s with ftable := t' } _ c i p); [by eapply (kinv_frame s)|done|exact E].
Qed.

End calls.

Lemma syscall_inv s c i p k s' : kinv s → runs s c i p → syscall c i k s = Some s' → kinv s'.
Proof.
  intros K R E. destruct k; try exact (files_call_inv s c i p K R _ s' E I); simpl in E.
  - by eapply (create_inv s c i p stack s' K_fork).
  - by eapply (create_inv s c i p stack s' (λ np, K_clone np fn ustack arg)).
  - by eapply exit_start_inv.
  - by eapply kinv_wait.
  - unfold sys_kill in E. destruct n as [n|]; [|by eapply return_inv]. destruct (kill n s) as [r s1] eqn:Ek.
    destruct (kill_runs s c i p n r s1 K R Ek) as (K1&p1&R1). by eapply return_inv.
  - unfold sys_getpid in E. destruct (ptable s !! i); simpl in E; [|done]. by eapply return_inv.
  - by eapply sbrk_inv.
  - by eapply sys_sleep_inv.
  - by eapply return_inv.
  - by eapply remain_inv.
  - unfold sys_exec in E. destruct args_ok; [|by eapply return_inv]. injection E as <-. by eapply kinv_goto.
  - by eapply exec2_inv.
  - unfold sys_give_cpu in E. injection E as <-. eapply (kinv_run s _ c i p); try done. run_ok K R.
  - injection E as <-. by eapply kinv_goto.
Qed.

(** * Events *)

Lemma exec_inv s c i p im s' :
  kinv s → runs s c i p → match im with Some im => im_pgdir im ≠ 0 | None => True end → exec i im s = Some s' → kinv s'.
Proof.
  intros K R Hd E. unfold exec in E. pose proof R as (_&Hp&_). rewrite Hp in E. simpl in E.
  destruct im as [im|]; [|injection E as <-; by eapply kinv_return].
  set (f := λ p, { p with name := safestrcpy MAXPROCNAMELEN (im_last im); pgdir := im_pgdir im; sz := im_sz im;
                         tf := { tf p with tf_eip := im_entry im; tf_esp := im_sp im } }).
  destruct (kinv_run s (upd i f { s with vms ::= λ v, {[im_pgdir im]} ∪ v }) c i p f) as [K1 R1]; try done; [run_ok K R|].
  destruct (switchuvm _ _) as [s1|] eqn:E1; simpl in E; [|done]. apply switchuvm_some in E1 as [-> _].
  destruct (freevm _ _) as [s2|] eqn:E2; simpl in E; [|done]. injection E as <-.
  pose proof (kinv_freevm _ _ _ E2 K1) as K2. destruct (freevm_frame _ _ _ E2) as (F1&_&_&F4&_).
  eapply (kinv_return _ c i (f p)); [done|]. destruct R1 as (?&?&?). split_and!; [unfold myproc in *; by rewrite F4|by rewrite F1|done].
Qed.

Lemma continue_inv s c i p pd s' : kinv s → runs s c i p → continue c i pd s = Some s' → kinv s'.
Proof.
  intros K R E. unfold continue in E. pose proof R as (_&Hp&Hs). rewrite Hp in E. simpl in E.
  pose proof (runs_local _ _ _ _ K R) as L. pose proof (l_point _ _ _ L (runs_live _ _ _ _ R)) as Hpt. unfold kpoint_ok in Hpt.
  destruct (kctx p) as [| | |v|k|k|np|np fn stack arg| |t0 n| | |] eqn:Hk; try (injection E as <-); try done.
  - unfold trap_check in E. rewrite Hp in E. simpl in E. destruct (killed p); [by eapply exit_start_inv|].
    injection E as <-. by eapply kinv_goto.
  - by eapply kinv_goto.
  - unfold trap_return in E. rewrite Hp in E. simpl in E.
    destruct (runs_change s c i p (λ p, { p with tf := { tf p with tf_eax := v }; kctx := K_user }) K R) as [K1 R1]; [run_ok K R|].
    destruct (killed p); [by eapply exit_start_inv|]. injection E as <-. done.
  - eapply kinv_yield; try done. right. by destruct k.
  - eapply (kinv_run s _ c i p); try done. by destruct k; run_ok K R.
  - by eapply kinv_fork.
  - by eapply kinv_clone.
  - by eapply kinv_wait.
  - by eapply sleep_loop_inv.
  - by eapply kinv_exit.
Qed.

Lemma timer_runs s c i p : kinv s → runs s c i p → ∃ p', runs (timer_tick c s) c i p' ∧ killed p' = killed p ∧ kctx p' = kctx p.
Proof.
  intros K (Hc&Hp&Hs). unfold timer_tick. case_bool_decide; [|by exists p]. exists p. split; [|done]. split_and!; [done| |done].
  simpl. rewrite list_lookup_fmap, Hp. simpl. f_equal. unfold notify. by rewrite bool_decide_eq_false_2 by congruence.
Qed.

Lemma timer_inv stcf s c i p s' : kinv s → runs s c i p → timer stcf c i s = Some s' → kinv s'.
Proof.
  intros K R E. unfold timer in E. destruct (timer_runs s c i p K R) as (p'&R'&_). pose proof (kinv_tick s c K) as K'.
  pose proof R' as (_&Hp&Hs). rewrite Hp in E. simpl in E.
  destruct (kctx p') eqn:Hk; try (destruct stcf; injection E as <-; [done|]; eapply kinv_yield; [done|done|by left]).
  destruct (killed p'); [by eapply exit_start_inv|]. destruct stcf; injection E as <-; [done|].
  eapply kinv_yield; try done. by right.
Qed.

Lemma kernel_code_inv s c i p a : kinv s → runs s c i p → kinv (kernel_code c i a s).
Proof.
  intros K R. destruct a as [a|a|v]; simpl.
  - eapply (kinv_sleep s c i p); try done. simpl. eauto.
  - by apply kinv_wakeup1.
  - by eapply kinv_return.
Qed.

Lemma handle_inv stcf c e s s' :
  kinv s → enabled c e s = true → services_ok e s → handle stcf c e s = Some s' → kinv s'.
Proof.
  intros K He Hok E. unfold enabled in He. destruct (cpus s !! c) as [x|] eqn:Hx; [|done].
  assert (myproc c s = cpu_proc x) as Hm by (unfold myproc; by rewrite Hx).
  unfold handle in E. rewrite Hm in E. destruct (cpu_proc x) as [i|] eqn:Hi.
  - destruct (runs_intro s c i K Hm) as [p R]. pose proof R as (_&Hp&_). destruct e; try done; rewrite ?Hp in E; simpl in E.
    + by eapply timer_inv.
    + destruct (killed p); [by eapply exit_start_inv|by eapply syscall_inv].
    + destruct (runs_change s c i p (λ p, { p with killed := true }) K R) as [K1 R1]; [run_ok K R|by eapply exit_start_inv].
    + by eapply continue_inv.
    + eapply exec_inv; [exact K|exact R| |exact E]. destruct im; [apply Hok|done].
    + injection E as <-. by eapply kernel_code_inv.
  - destruct e; try done; [by eapply kinv_scheduler|]. injection E as <-. by apply kinv_tick.
Qed.

(** * The first process *)

Lemma no_proc_local n i : local_ok n i no_proc.
Proof. split; unfold used, live, waiting; simpl; try done; absurd_state. Qed.

(** The table after [userinit]: one runnable process in slot [np]. *)
Lemma userinit_cases stack pd root ncpu s :
  userinit stack pd root (pinit ncpu) = Some s →
  ∃ np p, (np < NPROC)%nat ∧ ptable s = <[np := p]> (replicate NPROC no_proc) ∧ initproc s = Some np ∧ nextpid s = 2 ∧
    cpus s = replicate ncpu (mk_cpu None 0) ∧ vms s = {[pd]} ∧ pd ≠ 0 ∧ pgdir p = pd ∧
    uvmrefcount s = replicate NPROC (mk_uvm 0 (-1)) ∧ ftable s = replicate NFILE (mk_file FD_NONE 0 false false 0 0) ∧
    state p = RUNNABLE ∧ pid p = 1 ∧ parent p = None ∧ kstack p ≠ 0 ∧ kctx p = K_forkret ∧ ofile p = replicate NOFILE None ∧ killed p = false.
Proof.
  unfold userinit, allocproc. intros E.
  assert (list_find (λ p, state p = UNUSED) (ptable (pinit ncpu)) = Some (0%nat, no_proc)) as Ef by reflexivity.
  rewrite Ef in E. rewrite (bool_decide_eq_false_2 (nextpid (pinit ncpu) = 2147483647)) in E by done.
  destruct (decide (stack = 0)); [rewrite (bool_decide_eq_true_2 (stack = 0)) in E by done; done|]. rewrite (bool_decide_eq_false_2 (stack = 0)) in E by done.
  simpl in E. case_bool_decide as H3; [done|]. injection E as <-. eexists 0%nat, _. split; [unfold NPROC; lia|]. split; [reflexivity|]. simpl.
  split_and!; try done. by rewrite (right_id_L ∅ (∪)).
Qed.

Lemma boot_inv stack pd root ncpu s : userinit stack pd root (pinit ncpu) = Some s → kinv s.
Proof.
  intros (np&p&Hlt&Ht&Hip&Hn&Hc&_&Hpd&Hpg&_&_&Hs&Hpid&Hpar&Hst&Hk&Hof&_)%userinit_cases.
  assert (∀ i q, ptable s !! i = Some q → i = np ∧ q = p ∨ q = no_proc) as Hl.
  { intros i q. rewrite Ht, list_lookup_insert_Some. intros [(->&->&_)|[_ H]]; [auto|]. apply lookup_replicate in H. tauto. }
  assert (ptable s !! np = Some p) as Hp by (rewrite Ht; apply list_lookup_insert_eq; by rewrite length_replicate).
  assert (live p) as Lp by (unfold live; auto). split; [split|split|].
  - by rewrite Ht, length_insert, length_replicate.
  - intros i q Hi. destruct (Hl _ _ Hi) as [[-> ->]| ->]; [|apply no_proc_local]. rewrite Hn.
    split; unfold waiting, kpoint_ok; rewrite ?Hs, ?Hk, ?Hof, ?Hpar, ?Hpid, ?Hpg; auto; try absurd_state; lia.
  - intros i j q r Hi Hj Uq Ur. destruct (Hl _ _ Hi) as [[-> ->]| ->]; [|done]. by destruct (Hl _ _ Hj) as [[-> ->]| ->].
  - exists np, p. rewrite Hk. by split_and!.
  - intros i q Hi U Ni. destruct (Hl _ _ Hi) as [[-> ->]| ->]; [by rewrite Hip in Ni|]. by destruct U as [[|[|]]|].
  - intros i q j r Hi [W _]. destruct (Hl _ _ Hi) as [[-> ->]| ->]; [congruence|done].
  - intros i q n Hi. destruct (Hl _ _ Hi) as [[-> ->]| ->]; [by rewrite Hk|done].
  - intros i j q r n Hi _. destruct (Hl _ _ Hi) as [[-> ->]| ->]; [by rewrite Hk|done].
  - assert (∀ c, myproc c s = None) as Hm.
    { intros c. unfold myproc. rewrite Hc. destruct (_ !! c) as [x|] eqn:Hx; [|done]. apply lookup_replicate in Hx as [-> _]. done. }
    split; intros *; rewrite ?Hm; try done. intros (q&Hq&Sq). destruct (Hl _ _ Hq) as [[-> ->]| ->]; [congruence|done].
Qed.

Theorem reachable_kinv stcf ncpu s : reachable stcf ncpu s → kinv s.
Proof. induction 1; [by eapply boot_inv|by eapply handle_inv]. Qed.

(** The resources of processes: which kernel code changes the address spaces and
    the open files. *)

(** * What a slot holds *)

(** The slot has an address space. *)
Definition has_vm (p : proc) : bool := match state p with UNUSED | EMBRYO => false | _ => true end.
(** The process can have open files: it lives and is not past the loop of
    [exit] that closes them. *)
Definition may_open (p : proc) : bool :=
  match state p with
  | SLEEPING | RUNNABLE | RUNNING => match kctx p with K_exit => false | _ => true end
  | _ => false
  end.

Definition view (p : proc) : option Z * bool * list (option nat) :=
  (if has_vm p then Some (pgdir p) else None, may_open p, ofile p).

Record same_res (s s' : kernel) : Prop := {
  r_view : view <$> ptable s' = view <$> ptable s;
  r_uvm : uvmrefcount s' = uvmrefcount s;
  r_vms : vms s' = vms s;
  r_ftable : ftable s' = ftable s;
}.

Lemma same_res_refl s : same_res s s.
Proof. by split. Qed.
Lemma same_res_trans s1 s2 s3 : same_res s1 s2 → same_res s2 s3 → same_res s1 s3.
Proof. intros [] []. split; congruence. Qed.

Lemma same_res_fields s s' :
  ptable s' = ptable s → uvmrefcount s' = uvmrefcount s → vms s' = vms s → ftable s' = ftable s → same_res s s'.
Proof. intros E1 E2 E3 E4. split; congruence. Qed.

Lemma view_alter (f : proc → proc) (i : nat) (l : list proc) :
  (∀ p, l !! i = Some p → view (f p) = view p) → view <$> alter f i l = view <$> l.
Proof.
  intros H. apply list_eq. intros j. rewrite !list_lookup_fmap, list_lookup_alter. case_decide; [|done]. subst.
  destruct (l !! j) as [p|] eqn:Hp; simpl; [|done]. f_equal. by apply H.
Qed.

Lemma same_res_upd s i f : (∀ p, ptable s !! i = Some p → view (f p) = view p) → same_res s (upd i f s).
Proof. intros H. split; try done. simpl. by apply view_alter. Qed.

Lemma same_res_fmap s f : (∀ p, view (f p) = view p) → same_res s { s with ptable ::= fmap f }.
Proof. intros H. split; try done. simpl. apply list_eq. intros j. rewrite !list_lookup_fmap.
  destruct (_ !! j); simpl; [by f_equal|done]. Qed.

Lemma same_res_sched s c : same_res s (sched c s).
Proof. by apply same_res_fields. Qed.

(** * The kernel code that changes none of them *)

Lemma view_awake p p' :
  (state p = SLEEPING ∨ state p = RUNNABLE ∨ state p = RUNNING) →
  (state p' = SLEEPING ∨ state p' = RUNNABLE ∨ state p' = RUNNING) →
  pgdir p' = pgdir p → ofile p' = ofile p → (kctx p' = kctx p ∨ (kctx p ≠ K_exit ∧ kctx p' ≠ K_exit)) → view p' = view p.
Proof.
  intros S S' E1 E2 E3. unfold view, has_vm, may_open. rewrite E1, E2.
  destruct S as [-> |[-> | ->]], S' as [-> |[-> | ->]]; (destruct E3 as [-> |[N N']]; [done|]);
    destruct (kctx p); try done; by destruct (kctx p').
Qed.

Lemma view_wake ch p : view (wake ch p) = view p.
Proof.
  unfold wake. destruct (_ && _) eqn:E; [|done]. apply andb_true_iff in E as [E%bool_decide_eq_true _].
  apply view_awake; simpl; auto.
Qed.

Lemma same_res_wakeup1 ch s : same_res s (wakeup1 ch s).
Proof. apply same_res_fmap, view_wake. Qed.

Lemma same_res_tick c s : same_res s (timer_tick c s).
Proof.
  unfold timer_tick. case_bool_decide; [|apply same_res_refl]. apply (same_res_trans _ { s with ticks := u32 (ticks s + 1) }); [by apply same_res_fields|].
  apply same_res_fmap. intros p. unfold notify. destruct (_ && _) eqn:E; [|done]. apply andb_true_iff in E as [E%bool_decide_eq_true _].
  case_bool_decide; apply view_awake; simpl; auto.
Qed.

Section running.
Context (s : kernel) (c i : nat) (p : proc) (R : runs s c i p) (Hx : kctx p ≠ K_exit).

(** The process changes and stays alive. *)
Lemma same_res_run f :
  state (f p) = SLEEPING ∨ state (f p) = RUNNABLE ∨ state (f p) = RUNNING →
  pgdir (f p) = pgdir p → ofile (f p) = ofile p → kctx (f p) ≠ K_exit → same_res s (upd i f s).
Proof.
  intros. apply same_res_upd. intros q Hq. destruct R as (_&Hp&Hs). simplify_eq. apply view_awake; auto.
Qed.

Lemma same_res_goto k : k ≠ K_exit → same_res s (upd i (goto k) s).
Proof. intros Hk. apply same_res_run; try done. destruct R as (_&_&?). simpl. auto. Qed.

Lemma same_res_return v s' : return_value i v s = Some s' → same_res s s'.
Proof. intros [= <-]. by apply same_res_goto. Qed.

Lemma same_res_sleep ch k : same_res s (sleep c i ch k s).
Proof.
  unfold sleep. eapply same_res_trans; [|apply same_res_sched].
  pose proof (account_fields (ticks_now s) { p with chan := Some ch }) as (_&_&_&_&E4&_&_&_&E8).
  apply same_res_run; simpl; auto.
Qed.
End running.

Lemma same_res_yield s c i p next :
  runs s c i p → next = kctx p ∨ (kctx p ≠ K_exit ∧ next ≠ K_exit) → same_res s (yield c i next s).
Proof.
  intros R Hn. unfold yield. eapply same_res_trans; [|apply same_res_sched]. apply same_res_upd. intros q Hq.
  destruct R as (_&Hp&Hs). simplify_eq. pose proof (account_fields (ticks_now s) p) as (_&_&_&_&E4&_&_&_&E8).
  apply view_awake; simpl; auto.
Qed.

Lemma same_res_allocproc s stack r s' : allocproc stack s = Some (r, s') → same_res s s'.
Proof.
  intros [[_ ->]|(np&q&q'&T)]%allocproc_cases; [apply same_res_refl|].
  destruct T as [Hq Sq (Ht&_&_) _ (_&Hv&Hu&Hf) _ (_&Ho&_) Hr]. split; try done. rewrite Ht, list_fmap_insert.
  apply list_insert_id. rewrite list_lookup_fmap, Hq. simpl. f_equal. unfold view, has_vm, may_open. rewrite Sq, Ho.
  by destruct Hr as [(_&->&_)|(_&->&_)].
Qed.

Lemma same_res_reparent i s j : same_res s (reparent i s j).
Proof.
  unfold reparent. destruct (ptable s !! j) as [p|]; [|apply same_res_refl]. case_bool_decide; [|apply same_res_refl].
  assert (same_res s (upd j (set_parent (initproc s)) s)) as H1 by (by apply same_res_upd).
  case_bool_decide; [|done]. eapply same_res_trans; [exact H1|apply same_res_wakeup1].
Qed.

Lemma same_res_fold i s l : same_res s (foldl (reparent i) s l).
Proof.
  revert s. induction l as [|j l IH]; intros s; simpl; [apply same_res_refl|].
  eapply same_res_trans; [apply same_res_reparent|apply IH].
Qed.

Lemma same_res_clear_skip best s : same_res s (clear_skip best s).
Proof.
  unfold clear_skip. destruct (skip_target s) as [t|]; [|apply same_res_refl]. case_bool_decide; [|apply same_res_refl].
  split; try done. simpl. by apply view_alter.
Qed.

Lemma same_res_scheduler stcf c s s' : scheduler stcf c s = Some s' → same_res s s'.
Proof.
  intros E. unfold scheduler, scheduler_stcf, scheduler_rr in E. destruct stcf.
  - destruct (stcf_pick s) as [best|] eqn:Eb; [|simplify_eq; apply same_res_refl].
    apply stcf_pick_runnable in Eb as (p&Hp&Hs). fold (clear_skip best s) in E.
    destruct (switchuvm _ _) as [s2|] eqn:E2; simpl in E; [|done]. apply switchuvm_some in E2 as [-> _]. injection E as <-.
    eapply same_res_trans; [apply (same_res_clear_skip best)|]. split; try done. simpl. apply view_alter. intros q Hq.
    rewrite clear_skip_best in Hq. simplify_eq. apply view_awake; simpl; auto.
  - destruct (cpus s !! c) as [x|]; simpl in E; [|done]. destruct (next_runnable _ _) as [i|] eqn:En; [|injection E as <-; by apply same_res_fields].
    destruct (switchuvm _ _) as [s2|] eqn:E2; simpl in E; [|done]. apply switchuvm_some in E2 as [-> _]. injection E as <-.
    apply next_runnable_drop in En as (p&Hp&Hs&_). split; try done. simpl. apply view_alter. intros q Hq. simplify_eq.
    apply view_awake; simpl; auto.
Qed.

Lemma same_res_kill n s r s' : kill n s = (r, s') → same_res s s'.
Proof.
  unfold kill. destruct (list_find _ _) as [[j q]|]; intros [= <- <-]; [|apply same_res_refl].
  apply same_res_upd. intros p Hp. case_bool_decide as Hs; [|done]. apply view_awake; simpl; auto.
Qed.

Lemma same_res_exit c i p s s' :
  runs s c i p → kctx p = K_exit → exit_zombie c i s = Some s' → same_res s s'.
Proof.
  intros R Hk E. unfold exit_zombie in E. pose proof R as (_&Hp&Hs). rewrite Hp in E. cbn [mbind option_bind] in E.
  apply (inj Some) in E. rewrite <- E. clear E s'. set (s1 := wakeup1 _ s).
  assert (same_res s (foldl (reparent i) s1 (seq 0 NPROC))) as H2.
  { eapply same_res_trans; [apply same_res_wakeup1|apply same_res_fold]. }
  set (s2 := foldl _ _ _) in *. clearbody s2. eapply same_res_trans; [exact H2|].
  eapply same_res_trans; [|apply same_res_sched]. apply same_res_upd. intros q Hq.
  assert (view q = view p) as Hv.
  { pose proof (f_equal (lookup i) (r_view _ _ H2)) as Hv. rewrite !list_lookup_fmap, Hq, Hp in Hv. by apply (inj Some) in Hv. }
  rewrite Hv. pose proof (account_fields (ticks_now s2) q) as (_&_&_&_&E4&_&_&_&E8).
  unfold view, has_vm, may_open in *. simpl. rewrite Hs, Hk in *. rewrite E4, E8. destruct (state q); simplify_eq; congruence.
Qed.

Lemma same_res_timer stcf s c i p s' :
  kinv s → runs s c i p → killed p = false ∨ kctx p ≠ K_user → timer stcf c i s = Some s' → same_res s s'.
Proof.
  intros K R Hkl E. unfold timer in E. destruct (timer_runs s c i p K R) as (p'&R'&Ek&Ec). rewrite <- Ek, <- Ec in Hkl.
  pose proof R' as (_&Hp&_). rewrite Hp in E. simpl in E. eapply same_res_trans; [apply same_res_tick|].
  destruct stcf.
  - destruct (kctx p'); try (injection E as <-; apply same_res_refl). destruct (killed p'); [by destruct Hkl|]. injection E as <-. apply same_res_refl.
  - destruct (kctx p') eqn:Hk; try (injection E as <-; eapply same_res_yield; [done|by left]).
    destruct (killed p'); [by destruct Hkl|]. injection E as <-. eapply same_res_yield; [done|]. right. by rewrite Hk.
Qed.

Lemma same_res_kernel s c i p a : runs s c i p → kctx p ≠ K_exit → same_res s (kernel_code c i a s).
Proof.
  intros R Hx. destruct a; simpl; [by eapply same_res_sleep|apply same_res_wakeup1|by eapply same_res_goto].
Qed.

Lemma same_res_loop s c i p ticks0 n s' :
  runs s c i p → kctx p ≠ K_exit → sleep_loop c i ticks0 n s = Some s' → same_res s s'.
Proof.
  intros R Hx E. unfold sleep_loop in E. pose proof R as (_&Hp&Hs). rewrite Hp in E. simpl in E. case_bool_decide.
  - destruct (killed p); [by eapply same_res_return|]. injection E as <-. by eapply same_res_sleep.
  - injection E as <-. split; try done. simpl. rewrite !view_alter; [done|done|].
    intros q. rewrite list_lookup_alter_eq, Hp. intros [= <-]. apply view_awake; simpl; auto.
Qed.

(** System calls that change neither address spaces nor open files. *)
Definition plain_call (k : call) : bool :=
  match k with S_exit | S_wait | S_dup _ | S_close _ | S_open _ _ => false | _ => true end.

Section plain.
Context (s : kernel) (c i : nat) (p : proc) (R : runs s c i p) (Hx : kctx p ≠ K_exit).

(** Two changes of the running process. *)
Lemma same_res_run2 f g :
  (∀ q, state (f q) = state q ∧ pgdir (f q) = pgdir q ∧ ofile (f q) = ofile q ∧ kctx (f q) = kctx q) →
  (∀ q, state (g q) = state q ∧ pgdir (g q) = pgdir q ∧ ofile (g q) = ofile q ∧ kctx (g q) ≠ K_exit) →
  same_res s (upd i g (upd i f s)).
Proof.
  intros Hf Hg. destruct R as (_&Hp&Hs). split; try done. simpl. rewrite !view_alter; [done|..].
  - intros q Hq. destruct (Hf q) as (E1&E2&E3&E4). unfold view, has_vm, may_open. by rewrite E1, E2, E3, E4.
  - intros q. rewrite list_lookup_alter_eq, Hp. intros [= <-]. destruct (Hf p) as (F1&F2&F3&F4), (Hg (f p)) as (G1&G2&G3&G4).
    apply view_awake; rewrite ?G1, ?F1, ?Hs; auto; try congruence. right. split; congruence.
Qed.

Lemma same_res_create stack (k : nat → kpoint) s' :
  (∀ np, k np ≠ K_exit) →
  ('(np, s) ← allocproc stack s;
   match np with None => return_value i (-1) s | Some np => Some (upd i (goto (k np)) s) end) = Some s' → same_res s s'.
Proof.
  intros Hk E. destruct (allocproc stack s) as [[r s1]|] eqn:Ea; simpl in E; [|done].
  pose proof (same_res_allocproc _ _ _ _ Ea) as H1. eapply same_res_trans; [exact H1|].
  destruct R as (_&Hp&Hs). apply allocproc_cases in Ea as [[-> ->]|(np&q&q'&T)].
  - injection E as <-. apply same_res_upd. intros x Hx'. simplify_eq. apply view_awake; simpl; auto.
  - assert (ptable s1 !! i = Some p) as Hp1.
    { rewrite (replaced_old s s1 np q'); [done|apply T|]. intros ->. pose proof (a_old _ _ _ _ _ _ T). pose proof (a_free _ _ _ _ _ _ T). congruence. }
    destruct r as [n|]; injection E as <-; apply same_res_upd; intros x Hx'; simplify_eq; apply view_awake; simpl; auto.
Qed.

Lemma plain_call_res k s' : syscall c i k s = Some s' → plain_call k = true → same_res s s'.
Proof.
  intros E Hk. pose proof R as (_&Hp&Hs). destruct k; try done; simpl in E; clear Hk.
  - by eapply (same_res_create stack K_fork).
  - by eapply (same_res_create stack (λ np, K_clone np fn ustack arg)).
  - unfold sys_kill in E. destruct n as [n|]; [|by eapply same_res_return]. destruct (kill n s) as [r s1] eqn:Ek.
    eapply same_res_trans; [by eapply same_res_kill|]. injection E as <-. apply same_res_upd. intros q Hq.
    unfold kill in Ek. destruct (list_find _ _) as [[j x]|]; injection Ek as <- <-; [|simplify_eq; apply view_awake; simpl; auto].
    simpl in Hq. rewrite list_lookup_alter in Hq. case_decide; [subst; rewrite Hp in Hq; injection Hq as <-|simplify_eq];
      apply view_awake; simpl; rewrite ?Hs; auto.
  - unfold sys_getpid in E. rewrite Hp in E. by eapply same_res_return.
  - unfold sys_sbrk, growproc in E. rewrite Hp in E. simpl in E. destruct n as [n|]; [|by eapply same_res_return].
    destruct (bool_decide (n ≠ 0) && _); simpl in E; [eapply same_res_return; [exact R|exact Hx|exact E]|].
    destruct (switchuvm _ _) as [s1|] eqn:E1; simpl in E; [|done]. apply switchuvm_some in E1 as [-> _].
    case_bool_decide; injection E as <-; [by eapply same_res_goto|]. by apply same_res_run2.
  - unfold sys_sleep in E. destruct n as [n|]; [|by eapply same_res_return]. case_bool_decide; [injection E as <-; by eapply same_res_goto|].
    unfold sleep_loop in E. simpl in E. rewrite list_lookup_alter_eq, Hp in E. simpl in E.
    assert (same_res s (upd i (λ p, { p with sleepticks := n }) s)) as H1 by (eapply (same_res_run s c i p R); simpl; auto).
    eapply same_res_trans; [exact H1|]. eapply (same_res_loop _ c i { p with sleepticks := n }).
    + destruct R as (?&_&_). split_and!; [done| |done]. simpl. by rewrite list_lookup_alter_eq, Hp.
    + done.
    + unfold sleep_loop. simpl. rewrite list_lookup_alter_eq, Hp. exact E.
  - by eapply same_res_return.
  - unfold sys_remain in E. rewrite Hp in E. simpl in E. destruct new_time as [t|]; [|by eapply same_res_return].
    case_bool_decide; [by eapply same_res_return|]. case_bool_decide; injection E as <-; by apply same_res_run2.
  - unfold sys_exec in E. destruct args_ok; [|by eapply same_res_return]. injection E as <-. by eapply same_res_goto.
  - unfold sys_exec2 in E. rewrite Hp in E. simpl in E. destruct time_to_complete as [t|]; [|by eapply same_res_return].
    case_bool_decide; [by eapply same_res_return|]. destruct args_ok; simpl in E; [|by eapply same_res_return].
    case_bool_decide; injection E as <-; by apply same_res_run2.
  - unfold sys_give_cpu in E. injection E as <-. split; try done. simpl. apply view_alter. intros q Hq. simplify_eq.
    apply view_awake; simpl; auto.
  - injection E as <-. by eapply same_res_goto.
Qed.

End plain.
