(* ===== verification/XvVm.v ===== *)
(** The reference counts of shared address spaces: an address space exists as
    long as a process uses it, and it is released exactly when the last process
    that shares it is collected or runs another program. *)

From stdpp Require Import base option list numbers gmap.
From coqutil Require Import Datatypes.RecordSettersUsingExistingGetters.
From Stdlib Require Import ZArith Lia.
From S2P Require Import Prelude Counting XvProc XvInv XvLife XvReach.
Local Open Scope Z_scope.

(** * Counting users *)

Definition vm_of (p : proc) : option Z := if has_vm p then Some (pgdir p) else None.
Definition uses (pd : Z) (p : proc) : Z := Z.b2z (bool_decide (vm_of p = Some pd)).
Definition users (s : kernel) (pd : Z) : Z := total (uses pd) (ptable s).

Lemma users_nonneg s pd : 0 ≤ users s pd.
Proof. apply total_nonneg. intros p. apply b2z_range. Qed.

Lemma users_lookup s i p pd : ptable s !! i = Some p → vm_of p = Some pd → 0 < users s pd.
Proof.
  intros Hp Hv. pose proof (total_lookup (uses pd) (ptable s) i p (λ t, proj1 (b2z_range _)) Hp) as H.
  unfold uses in H at 1. rewrite bool_decide_eq_true_2 in H by done. unfold users. simpl in H. lia.
Qed.

Lemma users_pos s pd : 0 < users s pd → ∃ i p, ptable s !! i = Some p ∧ vm_of p = Some pd.
Proof.
  unfold users. induction (ptable s) as [|p l IH]; simpl; [lia|]. unfold uses at 1. case_bool_decide as H; [by exists 0%nat, p|].
  intros (i&q&?&?)%IH. by exists (S i), q.
Qed.

Lemma users_insert s s' i p p' pd :
  ptable s' = <[i := p']> (ptable s) → ptable s !! i = Some p → users s' pd = users s pd - uses pd p + uses pd p'.
Proof. intros E Hp. unfold users. rewrite E. by apply total_insert. Qed.

Lemma total_view {A B} (f : A → B) (g : B → Z) l : total (λ x, g (f x)) l = total g (f <$> l).
Proof. induction l as [|x l IH]; [done|]. rewrite fmap_cons. simpl. by rewrite IH. Qed.

Lemma total_ext {A} (f g : A → Z) l : (∀ x, f x = g x) → total f l = total g l.
Proof. intros H. induction l as [|x l IH]; [done|]. simpl. by rewrite H, IH. Qed.

Lemma users_view s s' pd : view <$> ptable s' = view <$> ptable s → users s' pd = users s pd.
Proof.
  intros E. pose (g := λ v : option Z * bool * list (option nat), Z.b2z (bool_decide (v.1.1 = Some pd))).
  assert (∀ l, total (uses pd) l = total g (view <$> l)) as Hg.
  { intros l. rewrite <- total_view. apply total_ext. intros p. reflexivity. }
  unfold users. by rewrite !Hg, E.
Qed.

(** * The reference counts *)

Definition counted (uvm : list uvmdesc) (j : nat) (u : uvmdesc) : Prop := uvm !! j = Some u ∧ refcount u ≠ -1.

Record vm_ok (U : Z → Z) (uvm : list uvmdesc) (vs : gset Z) : Prop := {
  v_live : ∀ pd, pd ∈ vs ↔ 0 < U pd;
  v_null : U 0 = 0;
  v_entry : ∀ j u, counted uvm j u → refcount u = U (uvm_pgdir u) ∧ 1 ≤ refcount u;
  v_one : ∀ j k u v, counted uvm j u → counted uvm k v → uvm_pgdir u = uvm_pgdir v → j = k;
  v_single : ∀ pd, 1 < U pd → ∃ j u, counted uvm j u ∧ uvm_pgdir u = pd;
}.

Record vm_inv (s : kernel) : Prop := {
  vi_ok : vm_ok (users s) (uvmrefcount s) (vms s);
  vi_len : length (uvmrefcount s) = NPROC;
}.

Lemma vm_ok_ext U U' uvm vs : (∀ pd, U' pd = U pd) → vm_ok U uvm vs → vm_ok U' uvm vs.
Proof.
  intros E [H1 H2 H3 H4 H5].
  split; [intros x; rewrite E; apply H1|by rewrite E|intros j u Hj; rewrite E; by apply (H3 j)|done|intros x; rewrite E; apply H5].
Qed.

Lemma locate_some pd s j :
  locate_uvmrefcount pd s = Some j → ∃ u, counted (uvmrefcount s) j u ∧ uvm_pgdir u = pd.
Proof.
  unfold locate_uvmrefcount. destruct (list_find _ _) as [[k u]|] eqn:E; simpl; [|done]. intros [= <-].
  apply list_find_Some in E as (Hk&Hu&_). unfold uses_uvm in Hu. apply Is_true_true, andb_true_iff in Hu as [H1 H2].
  apply negb_true_iff, bool_decide_eq_false in H1. apply bool_decide_eq_true in H2. by exists u.
Qed.

Lemma locate_none pd s : locate_uvmrefcount pd s = None → ∀ j u, counted (uvmrefcount s) j u → uvm_pgdir u ≠ pd.
Proof.
  unfold locate_uvmrefcount. destruct (list_find _ _) as [[k u]|] eqn:E; simpl; [done|]. intros _ j u [Hj Hr] Hp.
  apply list_find_None in E. eapply Forall_lookup_1 in E; [|exact Hj]. apply E. unfold uses_uvm.
  rewrite bool_decide_eq_false_2, bool_decide_eq_true_2 by done. done.
Qed.

Lemma counted_insert uvm i x u :
  uvm !! i = Some x → ∀ j v, counted (<[i := u]> uvm) j v ↔ (j = i ∧ v = u ∧ refcount u ≠ -1) ∨ (j ≠ i ∧ counted uvm j v).
Proof.
  intros Hi j v. unfold counted. rewrite list_lookup_insert_Some. apply lookup_lt_Some in Hi. split.
  - intros [[(->&->&_)|[? ?]] ?]; auto.
  - intros [(->&->&?)|(?&?&?)]; auto.
Qed.

(** A new address space. *)
Lemma vm_ok_new U uvm vs pd :
  vm_ok U uvm vs → pd ∉ vs → pd ≠ 0 → U pd = 0 →
  vm_ok (λ x, if bool_decide (x = pd) then 1 else U x) uvm ({[pd]} ∪ vs).
Proof.
  intros [H1 H2 H3 H4 H5] Hn Hz Hu. split.
  - intros x. case_bool_decide; [set_solver by lia|]. rewrite <- H1. set_solver.
  - by rewrite bool_decide_eq_false_2.
  - intros j u Hj. rewrite bool_decide_eq_false_2; [by apply (H3 j)|]. intros E. destruct (H3 j u Hj). rewrite E in *. lia.
  - done.
  - intros x. case_bool_decide; [lia|apply H5].
Qed.

(** The users of an address space are counted in entry [j]. *)
Lemma vm_ok_set U uvm vs pd j x n :
  vm_ok U uvm vs → 0 < U pd → 1 ≤ n → uvm !! j = Some x → refcount x = -1 ∨ uvm_pgdir x = pd →
  (∀ k v, k ≠ j → counted uvm k v → uvm_pgdir v ≠ pd) →
  vm_ok (λ y, if bool_decide (y = pd) then n else U y) (<[j := mk_uvm pd n]> uvm) vs.
Proof.
  intros [H1 H2 H3 H4 H5] Hu Hn Hj Hx Hno.
  pose proof (counted_insert uvm j x (mk_uvm pd n) Hj) as Hc. simpl in Hc. split.
  - intros y. rewrite H1. case_bool_decide; [subst; lia|done].
  - case_bool_decide as Hz; [|done]. subst. lia.
  - intros k v [(->&->&_)|[Hk Hv]]%Hc; simpl.
    + rewrite bool_decide_eq_true_2 by done. lia.
    + rewrite bool_decide_eq_false_2; [by apply (H3 k)|by eapply Hno].
  - intros k1 k2 v1 v2 [(->&->&_)|[Hk1 Hv1]]%Hc [(->&->&_)|[Hk2 Hv2]]%Hc; simpl; intros E; try done.
    + by destruct (Hno k2 v2).
    + by destruct (Hno k1 v1).
    + by apply (H4 k1 k2 v1 v2).
  - intros y Hy. destruct (decide (y = pd)) as [->|Hne].
    + exists j, (mk_uvm pd n). split; [apply Hc; left; split_and!; [done|done|lia]|done].
    + rewrite bool_decide_eq_false_2 in Hy by done. destruct (H5 y Hy) as (k&v&Hk&<-). exists k, v. split; [|done].
      apply Hc. right. split; [|done]. intros ->. destruct Hk, Hx; congruence.
Qed.

Lemma counted_others U uvm vs pd j u :
  vm_ok U uvm vs → counted uvm j u → uvm_pgdir u = pd → ∀ k v, k ≠ j → counted uvm k v → uvm_pgdir v ≠ pd.
Proof. intros V Hj Hu k v Hk Hv E. apply Hk. eapply (v_one _ _ _ V k j v u); congruence. Qed.

(** The last user of an address space goes; [uvm'] has no count for it any more. *)
Lemma vm_ok_last U uvm uvm' vs pd :
  vm_ok U uvm vs → U pd = 1 →
  (∀ j u, counted uvm' j u ↔ counted uvm j u ∧ uvm_pgdir u ≠ pd) →
  vm_ok (λ x, if bool_decide (x = pd) then U x - 1 else U x) uvm' (vs ∖ {[pd]}).
Proof.
  intros [H1 H2 H3 H4 H5] Hu Hc. split.
  - intros x. case_bool_decide; [subst; split; [set_solver|lia]|]. rewrite <- H1. set_solver.
  - case_bool_decide; [subst; lia|done].
  - intros j u [Hj Hn]%Hc. rewrite bool_decide_eq_false_2 by done. by apply (H3 j).
  - intros j k u v [Hj _]%Hc [Hk _]%Hc. by apply (H4 j k u v).
  - intros x Hx. case_bool_decide; [subst; lia|]. destruct (H5 x Hx) as (k&v&Hk&<-). exists k, v. split; [|done]. by apply Hc.
Qed.

(** [freevm] succeeds on an address space in use, and one user less is counted. *)
Lemma freevm_ok U pd s :
  vm_ok U (uvmrefcount s) (vms s) → 0 < U pd →
  ∃ s', freevm pd s = Some s' ∧ length (uvmrefcount s') = length (uvmrefcount s) ∧
    vm_ok (λ x, if bool_decide (x = pd) then U x - 1 else U x) (uvmrefcount s') (vms s').
Proof.
  intros V Hu. pose proof V as [H1 H2 H3 H4 H5]. assert (pd ≠ 0) as Hz by (intros ->; lia). assert (pd ∈ vms s) as Hin by (by apply H1).
  unfold freevm. destruct (locate_uvmrefcount pd s) as [j|] eqn:El.
  - apply locate_some in El as (u&Hj&Hpd). destruct (H3 _ _ Hj) as [E1 E2]. rewrite Hpd in E1. rewrite (proj1 Hj). simpl.
    rewrite bool_decide_eq_false_2 by lia. case_bool_decide as Hr.
    + eexists. split; [done|]. simpl. rewrite length_insert. split; [done|]. rewrite Hpd.
      eapply vm_ok_ext; [|eapply (vm_ok_set U _ _ pd j u (refcount u - 1)); try done; [lia|apply Hj|by right|by eapply counted_others]].
      intros x. simpl. case_bool_decide; [subst; lia|done].
    + unfold release_vm. simpl. rewrite bool_decide_eq_false_2, bool_decide_eq_true_2 by done. eexists. split; [done|]. simpl.
      rewrite length_insert. split; [done|]. eapply vm_ok_last; [done|lia|]. intros k v.
      rewrite (counted_insert _ _ u _ (proj1 Hj)). simpl. split.
      * intros [(_&_&?)|[Hk Hv]]; [done|]. split; [done|]. intros E. destruct Hk. apply (H4 k j v u); congruence.
      * intros [Hk Hv]. right. split; [|done]. intros ->. destruct Hj, Hk. congruence.
  - pose proof (locate_none pd s El) as Hno. unfold release_vm. rewrite bool_decide_eq_false_2, bool_decide_eq_true_2 by done.
    eexists. split; [done|]. simpl. split; [done|]. eapply vm_ok_last; [done| |].
    + destruct (decide (1 < U pd)) as [Hlt|]; [|lia]. destruct (H5 pd Hlt) as (k&v&Hk&Hv). by destruct (Hno k v).
    + intros k v. split; [|by intros []]. intros Hk. split; [done|by eapply Hno].
Qed.

Lemma omap_length_le {A B} (f : A → option B) l : (length (omap f l) ≤ length l)%nat.
Proof. induction l as [|x l IH]; csimpl; [done|]. destruct (f x); simpl; lia. Qed.

(** There is room to count the users of one more address space. *)
Lemma free_entry s pd :
  table_inv s → vm_inv s → 0 < users s pd → (∀ j u, counted (uvmrefcount s) j u → uvm_pgdir u ≠ pd) →
  ∃ j u, list_find (λ u, refcount u = -1) (uvmrefcount s) = Some (j, u).
Proof.
  intros I [V Hl] Hu Hno. destruct (list_find _ _) as [[j u]|] eqn:Ef; [by exists j, u|exfalso].
  apply list_find_None in Ef. set (pds := uvm_pgdir <$> uvmrefcount s).
  assert (NoDup (pd :: pds)) as Hnd.
  { apply list.NoDup_cons. split.
    - intros (u&Hu'&Hin)%list_elem_of_fmap. apply list_elem_of_lookup in Hin as [j Hj].
      apply (Hno j u); [split; [done|]|done]. by eapply Forall_lookup_1 in Ef.
    - apply NoDup_alt. intros j k x Hj Hk. unfold pds in *. rewrite list_lookup_fmap in Hj, Hk.
      apply fmap_Some in Hj as (u&Hu'&->). apply fmap_Some in Hk as (v&Hv&E).
      eapply (v_one _ _ _ V j k u v); [split|split|]; try done; by eapply Forall_lookup_1 in Ef. }
  assert (pd :: pds ⊆ omap vm_of (ptable s)) as Hsub.
  { intros x Hx. apply list_elem_of_omap. assert (0 < users s x) as (i&p&Hp&Hv)%users_pos.
    { apply elem_of_cons in Hx as [->|(u&->&Hin)%list_elem_of_fmap]; [done|]. apply list_elem_of_lookup in Hin as [j Hj].
      destruct (v_entry _ _ _ V j u) as [E1 E2]; [split; [done|by eapply Forall_lookup_1 in Ef]|]. lia. }
    exists p. split; [by eapply list_elem_of_lookup_2|done]. }
  apply NoDup_submseteq in Hsub; [|done]. apply submseteq_length in Hsub. simpl in Hsub.
  pose proof (omap_length_le vm_of (ptable s)). rewrite (t_len _ I) in *. unfold pds in Hsub. rewrite length_fmap in Hsub. lia.
Qed.

(** [clone] counts one user more. *)
Lemma share_vm_ok s pd :
  table_inv s → vm_inv s → 0 < users s pd →
  length (uvmrefcount (share_vm pd s)) = NPROC ∧ vms (share_vm pd s) = vms s ∧ ftable (share_vm pd s) = ftable s ∧
  vm_ok (λ x, if bool_decide (x = pd) then users s x + 1 else users s x) (uvmrefcount (share_vm pd s)) (vms s).
Proof.
  intros I W Hu. pose proof W as [V Hl]. unfold share_vm. destruct (locate_uvmrefcount pd s) as [j|] eqn:El.
  - apply locate_some in El as (u&Hj&Hpd). destruct (v_entry _ _ _ V _ _ Hj) as [E1 E2]. rewrite Hpd in E1. simpl. rewrite length_alter.
    split_and!; try done. rewrite (list_alter_insert _ _ _ u (proj1 Hj)). simpl. rewrite Hpd.
    eapply vm_ok_ext; [|eapply (vm_ok_set _ _ _ pd j u (1 + refcount u) V); try done; [lia|apply Hj|by right|by eapply counted_others]].
    intros x. simpl. case_bool_decide; [subst; lia|done].
  - pose proof (locate_none pd s El) as Hno. destruct (free_entry s pd I W Hu Hno) as (j&x&Ef). unfold allocate_uvmrefcount. rewrite Ef.
    apply list_find_Some in Ef as (Hj&Hx&_). simpl. rewrite length_insert. split_and!; try done.
    eapply vm_ok_ext; [|eapply (vm_ok_set _ _ _ pd j x 2 V); try done; [by left|intros k v _; by apply Hno]].
    intros y. simpl. case_bool_decide; [subst|done]. destruct (decide (1 < users s pd)) as [Hlt|]; [|lia].
    destruct (v_single _ _ _ V pd Hlt) as (k&v&Hk&Hv). by destruct (Hno k v).
Qed.

(** * The events *)

Lemma vm_inv_fields s s' :
  (∀ pd, users s' pd = users s pd) → uvmrefcount s' = uvmrefcount s → vms s' = vms s → vm_inv s → vm_inv s'.
Proof. intros E1 E2 E3 [V L]. split; rewrite E2; [|done]. rewrite E3. by eapply vm_ok_ext. Qed.

Lemma vm_inv_same s s' : same_res s s' → vm_inv s → vm_inv s'.
Proof. intros [E1 E2 E3 _]. apply vm_inv_fields; try done. intros pd. by apply users_view. Qed.

(** A slot changes and keeps its address space. *)
Lemma users_alter s s' i f pd :
  ptable s' = alter f i (ptable s) → (∀ p, ptable s !! i = Some p → vm_of (f p) = vm_of p) → users s' pd = users s pd.
Proof.
  intros E H. unfold users. rewrite E. destruct (ptable s !! i) as [p|] eqn:Hp; [|by rewrite alter_none].
  rewrite (list_alter_insert _ _ _ p Hp), (total_insert _ _ _ p) by done. unfold uses. rewrite (H p) by done. lia.
Qed.

Lemma uses_none pd p : vm_of p = None → uses pd p = 0.
Proof. intros E. unfold uses. by rewrite E. Qed.
Lemma uses_some pd x p : vm_of p = Some x → uses pd p = if bool_decide (pd = x) then 1 else 0.
Proof. intros E. unfold uses. rewrite E. repeat case_bool_decide; simpl; congruence. Qed.

(** Slot [np] gets the address space [pd], and the caller [i] goes on. *)
Lemma users_born s s' i np q f g pd x :
  ptable s' = alter g i (alter f np (ptable s)) → ptable s !! np = Some q → vm_of q = None → vm_of (f q) = Some pd →
  (∀ p, vm_of (g p) = vm_of p) → users s' x = if bool_decide (x = pd) then users s x + 1 else users s x.
Proof.
  intros E Hq Hn Hf Hg. rewrite (users_alter (upd np f s) s' i g x E) by auto.
  rewrite (users_insert s (upd np f s) np q (f q) x) by (done || by apply list_alter_insert).
  rewrite (uses_none x q Hn), (uses_some x pd (f q) Hf). case_bool_decide; lia.
Qed.

Lemma embryo_vm s i p np q :
  claim_inv s → ptable s !! i = Some p → creates (kctx p) = Some np → ptable s !! np = Some q → vm_of q = None.
Proof.
  intros N Hp Cp Hq. destruct (n_new _ N _ _ _ Hp Cp) as (_&q0&Hq0&Sq). assert (q0 = q) as -> by congruence.
  unfold vm_of, has_vm. by rewrite Sq.
Qed.

Lemma fork_vm s i p np pd s' :
  kinv s → vm_inv s → ptable s !! i = Some p → kctx p = K_fork np → pd ∉ vms s → fork i np pd s = Some s' → vm_inv s'.
Proof.
  intros K W Hp Hk Hpd E. unfold fork in E. rewrite Hp in E. simpl in E. destruct (ptable s !! np) as [q|] eqn:Hq; simpl in E; [|done].
  pose proof (embryo_vm s i p np q (k_claim _ K) Hp ltac:(by rewrite Hk) Hq) as Hn. case_bool_decide as Hz.
  - injection E as <-. eapply (vm_inv_fields s); [|done..]. intros x.
    rewrite (users_alter (upd np (λ p, { p with pgdir := 0; kstack := 0; state := UNUSED }) s) _ i (goto (K_ret (-1)))) by done.
    eapply users_alter; [done|]. intros r Hr. assert (r = q) as -> by congruence. by rewrite Hn.
  - destruct (dup_files _ _ _) as [[l t]|] eqn:Ed; simpl in E; [|done]. injection E as <-. destruct W as [V L]. split; [|done]. simpl.
    assert (users s pd = 0) as Hu.
    { pose proof (users_nonneg s pd). destruct (decide (0 < users s pd)) as [Hlt|]; [|lia]. by apply (v_live _ _ _ V) in Hlt. }
    eapply vm_ok_ext; [|by eapply (vm_ok_new (users s) _ _ pd)]. intros x.
    erewrite (users_born s _ i np q) by done. 
    simpl. case_bool_decide; [subst; lia|done].
Qed.

Lemma clone_vm s i p np fn stack arg s' :
  kinv s → vm_inv s → ptable s !! i = Some p → live p → kctx p = K_clone np fn stack arg →
  clone i np fn stack arg s = Some s' → vm_inv s'.
Proof.
  intros K W Hp Lp Hk E. unfold clone in E. rewrite Hp in E. simpl in E. destruct (ptable s !! np) as [q|] eqn:Hq; simpl in E; [|done].
  pose proof (embryo_vm s i p np q (k_claim _ K) Hp ltac:(by rewrite Hk) Hq) as Hn.
  destruct (dup_files _ _ _) as [[l t]|] eqn:Ed; simpl in E; [|done]. injection E as <-.
  assert (vm_of p = Some (pgdir p)) as Hv by (unfold vm_of, has_vm; by destruct Lp as [-> |[-> | ->]]).
  destruct (share_vm_ok s (pgdir p)) as (S1&S2&S3&S4); [apply K|done|exact (users_lookup s i p _ Hp Hv)|].
  destruct (share_vm_frame (pgdir p) s) as (F1&_). split; [|done]. simpl. rewrite S2.
  eapply vm_ok_ext; [|exact S4]. intros x. erewrite (users_born s _ i np q); simpl; rewrite ?F1; done.
Qed.

Lemma wait_vm s c i p s' :
  vm_inv s → runs s c i p → kctx p ≠ K_exit → wait c i s = Some s' → vm_inv s'.
Proof.
  intros W R Hx E. unfold wait in E. pose proof R as (_&Hp&_). rewrite Hp in E. cbn [mbind option_bind] in E.
  destruct (wait_scan _ _ _ _) as [b [k|]] eqn:Ew.
  - apply wait_scan_found in Ew as (q&_&Hq&_&Hz). rewrite Nat.sub_0_r in Hq. rewrite Hq in E. cbn [mbind option_bind] in E.
    assert (vm_of q = Some (pgdir q)) as Hv by (unfold vm_of, has_vm; by rewrite Hz).
    destruct W as [V L]. destruct (freevm_ok (users s) (pgdir q) s V) as (s1&Ef&L1&V1); [exact (users_lookup s k q _ Hq Hv)|].
    rewrite Ef in E. simpl in E. injection E as <-. destruct (freevm_frame _ _ _ Ef) as (F1&_). split; [|simpl; congruence]. simpl.
    eapply vm_ok_ext; [|exact V1]. intros x. erewrite (users_alter (upd k reap s1) _ i) by done.
    rewrite (users_insert s (upd k reap s1) k q (reap q)); [|simpl; rewrite F1; by apply list_alter_insert|done].
    rewrite (uses_none x (reap q)), (uses_some x (pgdir q) q) by done. case_bool_decide; lia.
  - destruct (negb b || killed p); injection E as <-.
    + eapply vm_inv_same; [|done]. by eapply same_res_goto.
    + eapply vm_inv_same; [|done]. by eapply same_res_sleep.
Qed.

Lemma exec_vm s c i p im s' :
  kinv s → vm_inv s → runs s c i p → kctx p ≠ K_exit → services_ok (E_exec im) s → exec i im s = Some s' → vm_inv s'.
Proof.
  intros K W R Hx Hok E. unfold exec in E. pose proof R as (_&Hp&Hs). rewrite Hp in E. simpl in E.
  destruct im as [im|]; [|injection E as <-; eapply vm_inv_same; [by eapply same_res_goto|done]]. destruct Hok as [Hz Hnew].
  destruct (switchuvm _ _) as [s1|] eqn:E1; simpl in E; [|done]. apply switchuvm_some in E1 as [-> _].
  match type of E with freevm _ ?x ≫= _ = _ => set (s1 := x) in * end.
  assert (vm_of p = Some (pgdir p)) as Hv by (unfold vm_of, has_vm; by rewrite Hs).
  pose proof (users_lookup s i p _ Hp Hv) as Hu. destruct W as [V L].
  assert (users s (im_pgdir im) = 0) as Hu0.
  { pose proof (users_nonneg s (im_pgdir im)). destruct (decide (0 < users s (im_pgdir im))) as [Hlt|]; [|lia]. by apply (v_live _ _ _ V) in Hlt. }
  assert (pgdir p ≠ im_pgdir im) as Hne by (intros E'; rewrite E' in Hu; lia).
  destruct (freevm_ok (λ x, if bool_decide (x = im_pgdir im) then 1 else users s x) (pgdir p) s1) as (s2&Ef&L2&V2).
  { by apply vm_ok_new. }
  { by rewrite bool_decide_eq_false_2. }
  rewrite Ef in E. simpl in E. injection E as <-. destruct (freevm_frame _ _ _ Ef) as (F1&_). split; [|simpl; by rewrite L2]. simpl.
  eapply vm_ok_ext; [|exact V2]. intros x. erewrite (users_alter s2 _ i) by done. unfold users. rewrite F1. simpl.
  rewrite (list_alter_insert _ _ _ p Hp), (total_insert _ _ _ p) by done. fold (users s x).
  rewrite (uses_some x (pgdir p) p Hv), (uses_some x (im_pgdir im)) by (unfold vm_of, has_vm; simpl; by rewrite Hs).
  repeat case_bool_decide; subst; lia || congruence.
Qed.

Lemma exit_vm s i s' : vm_inv s → exit i s = Some s' → vm_inv s'.
Proof.
  intros W E. unfold exit in E. destruct (ptable s !! i) as [p|] eqn:Hp; simpl in E; [|done]. case_bool_decide; [done|].
  destruct (close_files _ _); simpl in E; [|done]. injection E as <-. eapply (vm_inv_fields s); try done. intros x. by eapply users_alter.
Qed.

Lemma files_vm s i f t v s' :
  (∀ p, vm_of (f p) = vm_of p) → vm_inv s → return_value i v { upd i f s with ftable := t } = Some s' → vm_inv s'.
Proof.
  intros Hf W [= <-]. eapply (vm_inv_fields s); try done. intros x. erewrite (users_alter (upd i f s) _ i) by done.
  by eapply users_alter.
Qed.

Lemma syscall_vm s c i p k s' : vm_inv s → runs s c i p → kctx p ≠ K_exit → syscall c i k s = Some s' → vm_inv s'.
Proof.
  intros W R Hx E. destruct (plain_call k) eqn:Hk; [eapply vm_inv_same; [by eapply plain_call_res|done]|].
  pose proof R as (_&Hp&_). destruct k; try done; simpl in E.
  - by eapply exit_vm.
  - by eapply wait_vm.
  - unfold sys_dup in E. rewrite Hp in E. simpl in E. destruct (argfd _ _ _) as [[fd' j]|]; [|eapply vm_inv_same; [by eapply same_res_return|done]].
    destruct (fdalloc _ _) as [[fd'' l]|]; [|eapply vm_inv_same; [by eapply same_res_return|done]].
    destruct (filedup _ _) as [t|]; simpl in E; [|done]. by eapply files_vm in E.
  - unfold sys_close in E. destruct (argfd _ _ _) as [[fd' j]|]; [|eapply vm_inv_same; [by eapply same_res_return|done]].
    destruct (fileclose _ _) as [[t ?]|]; simpl in E; [|done]. by eapply files_vm in E.
  - unfold sys_open in E. rewrite Hp in E. simpl in E. destruct (filealloc _) as [[j t]|]; [|eapply vm_inv_same; [by eapply same_res_return|done]].
    destruct (fdalloc _ _) as [[fd'' l]|]; [by eapply files_vm in E|]. destruct (fileclose _ _) as [[t' ?]|]; simpl in E; [|done].
    injection E as <-. eapply (vm_inv_fields s); try done. intros x. by eapply users_alter.
Qed.

Lemma continue_vm s c i p pd s' :
  kinv s → vm_inv s → runs s c i p → pd ∉ vms s → continue c i pd s = Some s' → vm_inv s'.
Proof.
  intros K W R Hpd E. unfold continue in E. pose proof R as (_&Hp&Hs). rewrite Hp in E. simpl in E.
  destruct (kctx p) as [| | |v|k|k|np|np fn stack arg| |t0 n| | |] eqn:Hk.
  all: try (injection E as <-; done).
  all: assert (kctx p ≠ K_exit ∨ kctx p = K_exit) as [Hx|Hx] by (rewrite Hk; (by left) || by right); try congruence.
  - unfold trap_check in E. rewrite Hp in E. simpl in E. destruct (killed p); [by eapply exit_vm|].
    injection E as <-. eapply vm_inv_same; [by eapply same_res_goto|done].
  - injection E as <-. eapply vm_inv_same; [by eapply same_res_goto|done].
  - unfold trap_return in E. rewrite Hp in E. simpl in E.
    assert (vm_inv (upd i (λ p, { p with tf := { tf p with tf_eax := v }; kctx := K_user }) s)) as W1.
    { eapply (vm_inv_fields s); try done. intros x. by eapply users_alter. }
    destruct (killed p); [by eapply exit_vm|]. by injection E as <-.
  - injection E as <-. eapply vm_inv_same; [eapply same_res_yield; [done|]|done]. rewrite Hk. right. split; [done|].
    pose proof (l_point _ _ _ (runs_local _ _ _ _ K R) (runs_live _ _ _ _ R)) as Hpt. unfold kpoint_ok in Hpt. rewrite Hk in Hpt. by destruct k.
  - injection E as <-. eapply (vm_inv_fields s); try done. intros x. by eapply users_alter.
  - by eapply fork_vm.
  - eapply clone_vm; try done. by eapply runs_live.
  - by eapply wait_vm.
  - eapply vm_inv_same; [by eapply same_res_loop|done].
  - eapply vm_inv_same; [by eapply same_res_exit|done].
Qed.

Lemma handle_vm stcf c e s s' :
  kinv s → vm_inv s → enabled c e s = true → services_ok e s → handle stcf c e s = Some s' → vm_inv s'.
Proof.
  intros K W He Hok E. unfold enabled in He. destruct (cpus s !! c) as [x|] eqn:Hx; [|done].
  assert (myproc c s = cpu_proc x) as Hm by (unfold myproc; by rewrite Hx).
  unfold handle in E. rewrite Hm in E. destruct (cpu_proc x) as [i|] eqn:Hi.
  - destruct (runs_intro s c i K Hm) as [p R]. pose proof R as (_&Hp&_). destruct e; try done; rewrite ?Hp in E; rewrite ?Hp in He; simpl in E, He.
    + destruct (killed p) eqn:Hkl; [destruct (kctx p) eqn:Hk|];
        try solve [eapply vm_inv_same; [eapply same_res_timer; [done|done| |done]; rewrite ?Hk; auto|done]].
      unfold timer in E. destruct (timer_runs s c i p K R) as (p'&R'&Ek&Ec). pose proof R' as (_&Hp'&_).
      rewrite Hp' in E. simpl in E. rewrite Ec, Hk, Ek, Hkl in E. eapply exit_vm; [|done]. eapply vm_inv_same; [apply same_res_tick|done].
    + destruct (kctx p) eqn:Hk; try done. destruct (killed p); [by eapply exit_vm|]. eapply syscall_vm; try done. by rewrite Hk.
    + eapply exit_vm; [|done]. eapply (vm_inv_fields s); try done. intros y. by eapply users_alter.
    + by eapply continue_vm.
    + eapply exec_vm; try done.
      by destruct (kctx p).
    + injection E as <-. eapply vm_inv_same; [eapply same_res_kernel; [done|]|done]. by destruct (kctx p).
  - destruct e; try done; [eapply vm_inv_same; [by eapply same_res_scheduler|done]|]. injection E as <-. eapply vm_inv_same; [apply same_res_tick|done].
Qed.

Lemma boot_vm stack pd root ncpu s : userinit stack pd root (pinit ncpu) = Some s → vm_inv s.
Proof.
  intros E. destruct (userinit_cases _ _ _ _ _ E) as (np&p&Hn&Et&_&_&_&Ev&Hpd&Ep&Eu&_&Es&_).
  split; [|by rewrite Eu]. rewrite Ev, Eu.
  assert (∀ x, users s x = if bool_decide (x = pd) then 1 else 0) as Hu.
  { intros x. unfold users. rewrite Et, (total_insert _ _ _ no_proc) by (by apply lookup_replicate).
    rewrite total_replicate, (uses_none x no_proc), (uses_some x pd p) by (done || unfold vm_of, has_vm; by rewrite Es, Ep). lia. }
  eapply vm_ok_ext; [exact Hu|]. rewrite <- (right_id_L ∅ (∪) {[pd]}). apply (vm_ok_new (λ _, 0)); [|set_solver|done|done].
  split; [set_solver|done| | |lia].
  - intros j u [Hj Hr]. by apply lookup_replicate in Hj as [-> _].
  - intros j k u v [Hj Hr]. by apply lookup_replicate in Hj as [-> _].
Qed.

Lemma reachable_vm stcf ncpu s : reachable stcf ncpu s → vm_inv s.
Proof.
  induction 1 as [stack pd root s E|c e s s' R IH He Hs E]; [by eapply boot_vm|]. eapply handle_vm; try done. by eapply reachable_kinv.
Qed.
