(* ===== verification/XvFiles.v ===== *)
(** The reference counts of open files: the count of a file is the number of
    descriptors that refer to it, over all processes. *)

From stdpp Require Import base option list numbers gmap.
From coqutil Require Import Datatypes.RecordSettersUsingExistingGetters.
From Stdlib Require Import ZArith Lia.
From S2P Require Import Prelude Counting XvProc XvInv XvLife XvReach XvVm.
Local Open Scope Z_scope.

(** * Counting descriptors *)

Definition is_fd (j : nat) (o : option nat) : Z := Z.b2z (bool_decide (o = Some j)).
Definition held (j : nat) (l : list (option nat)) : Z := total (is_fd j) l.
Global Arguments held : simpl never.
Definition refs (s : kernel) (j : nat) : Z := total (λ p, held j (ofile p)) (ptable s).

Lemma held_nonneg j l : 0 ≤ held j l.
Proof. apply total_nonneg. intros o. apply b2z_range. Qed.

Lemma held_skip j l : held j (None :: l) = held j l.
Proof. done. Qed.
Lemma held_cons j k l : held j (Some k :: l) = (if bool_decide (j = k) then 1 else 0) + held j l.
Proof.
  unfold held at 1, is_fd. simpl. change (total _ l) with (held j l). repeat case_bool_decide; simpl; congruence || lia.
Qed.

Lemma held_none j l : Forall (λ o, o = None) l → held j l = 0.
Proof. induction 1 as [|o l -> _ IH]; [done|]. by rewrite held_skip. Qed.

Lemma held_in j l fd : l !! fd = Some (Some j) → 0 < held j l.
Proof.
  intros H. pose proof (total_lookup (is_fd j) l fd _ (λ t, proj1 (b2z_range _)) H) as Hle.
  unfold is_fd in Hle at 1. rewrite bool_decide_eq_true_2 in Hle by done. unfold held. simpl in Hle. lia.
Qed.

Lemma held_refs s i p j : ptable s !! i = Some p → held j (ofile p) ≤ refs s j.
Proof. intros H. apply (total_lookup (λ p, held j (ofile p)) _ i p); [intros; apply held_nonneg|done]. Qed.

(** * The file table *)

Section ftable.
Implicit Types (C : nat → Z) (t : list file).

Definition refs_ok C t : Prop := ∀ j f, t !! j = Some f → ref f = C j.
Definition bump (j : nat) (d : Z) C : nat → Z := λ k, if bool_decide (k = j) then C k + d else C k.

Lemma refs_ok_ext C C' t : (∀ j, C' j = C j) → refs_ok C t → refs_ok C' t.
Proof. intros E H j f Hf. rewrite E. by apply H. Qed.

Lemma refs_ok_insert C t j f f' d :
  refs_ok C t → t !! j = Some f → ref f' = ref f + d → refs_ok (bump j d C) (<[j := f']> t).
Proof.
  intros H Hj Hr k x Hx. unfold bump. apply list_lookup_insert_Some in Hx as [(->&<-&_)|[Hne Hx]].
  - rewrite bool_decide_eq_true_2 by done. rewrite Hr. f_equal. by apply H.
  - rewrite bool_decide_eq_false_2 by done. by apply H.
Qed.

Lemma filedup_ok C t j :
  refs_ok C t → is_Some (t !! j) → 0 < C j → ∃ t', filedup j t = Some t' ∧ length t' = length t ∧ refs_ok (bump j 1 C) t'.
Proof.
  intros H [f Hf] Hc. unfold filedup. rewrite Hf. simpl. rewrite bool_decide_eq_false_2 by (rewrite (H j f Hf); lia).
  eexists. split; [done|]. rewrite length_insert. split; [done|]. eapply refs_ok_insert; [done|done|]. simpl. lia.
Qed.

(** The file is closed exactly when its last reference goes. *)
Lemma fileclose_ok C t j :
  refs_ok C t → is_Some (t !! j) → 0 < C j →
  ∃ t' r, fileclose j t = Some (t', r) ∧ length t' = length t ∧ refs_ok (bump j (-1) C) t' ∧ (is_Some r ↔ C j = 1).
Proof.
  intros H [f Hf] Hc. pose proof (H j f Hf) as Hr. unfold fileclose. rewrite Hf. simpl. rewrite bool_decide_eq_false_2 by lia.
  case_bool_decide; do 2 eexists; (split; [done|]); rewrite length_insert; (split; [done|]); (split; [eapply refs_ok_insert; [done|done|]; simpl; lia|]).
  - split; [by intros []|lia].
  - split; [lia|eauto].
Qed.

Lemma filealloc_ok C t j t' :
  refs_ok C t → filealloc t = Some (j, t') →
  C j = 0 ∧ is_Some (t !! j) ∧ length t' = length t ∧ refs_ok (bump j 1 C) t'.
Proof.
  intros H. unfold filealloc. destruct (list_find _ _) as [[k f]|] eqn:E; [|done]. intros [= <- <-].
  apply list_find_Some in E as (Hf&Hr&_). rewrite length_insert. split_and!; [by rewrite <- (H k f Hf)|done|done|].
  eapply refs_ok_insert; [done|done|]. simpl. lia.
Qed.

Definition valid_fds t (l : list (option nat)) : Prop := ∀ j, Some j ∈ l → is_Some (t !! j).

Lemma valid_length t t' l : length t' = length t → valid_fds t l → valid_fds t' l.
Proof. intros E H j Hj. apply lookup_lt_is_Some. rewrite E. by apply lookup_lt_is_Some, H. Qed.

Lemma close_files_ok C t l :
  refs_ok C t → valid_fds t l → (∀ j, held j l ≤ C j) →
  ∃ t', close_files l t = Some t' ∧ length t' = length t ∧ refs_ok (λ j, C j - held j l) t'.
Proof.
  revert C t. induction l as [|[j|] l IH]; intros C t H Hv Hc; simpl.
  - exists t. split_and!; [done|done|]. eapply refs_ok_ext, H. intros k. unfold held. simpl. lia.
  - pose proof (Hc j) as Hj. rewrite held_cons, bool_decide_eq_true_2 in Hj by done. pose proof (held_nonneg j l) as Hn.
    destruct (fileclose_ok C t j) as (t1&r&E1&L1&H1&_); [done|apply Hv; by left|lia|]. rewrite E1. simpl.
    destruct (IH (bump j (-1) C) t1) as (t2&E2&L2&H2); [done| | |].
    + eapply valid_length; [done|]. intros k Hk. apply Hv. by right.
    + intros k. specialize (Hc k). rewrite held_cons in Hc. unfold bump. case_bool_decide; lia.
    + exists t2. split_and!; [done|congruence|]. eapply refs_ok_ext, H2. intros k. cbn beta. rewrite held_cons. unfold bump.
      case_bool_decide; lia.
  - destruct (IH C t) as (t2&E2&L2&H2); [done| | |].
    + intros k Hk. apply Hv. by right.
    + done.
    + by exists t2.
Qed.

Lemma dup_files_ok C t from to :
  refs_ok C t → valid_fds t from → (∀ j, Some j ∈ from → 0 < C j) → length from = length to → Forall (λ o, o = None) to →
  ∃ t', dup_files from to t = Some (from, t') ∧ length t' = length t ∧ refs_ok (λ j, C j + held j from) t'.
Proof.
  revert C t to. induction from as [|[j|] from IH]; intros C t [|o to] H Hv Hc Hl Ho; simpl in *; try lia.
  - exists t. split_and!; [done|done|]. eapply refs_ok_ext, H. intros k. unfold held. simpl. lia.
  - apply Forall_cons_1 in Ho as [_ Ho]. destruct (filedup_ok C t j) as (t1&E1&L1&H1); [done|apply Hv; by left|apply Hc; by left|].
    rewrite E1. simpl. destruct (IH (bump j 1 C) t1 to) as (t2&E2&L2&H2); [done|..].
    + eapply valid_length; [done|]. intros k Hk. apply Hv. by right.
    + intros k Hk. unfold bump. specialize (Hc k ltac:(by right)). case_bool_decide; lia.
    + lia.
    + done.
    + rewrite E2. simpl. exists t2. split_and!; [done|congruence|]. eapply refs_ok_ext, H2. intros k. cbn beta. rewrite held_cons. unfold bump.
      case_bool_decide; lia.
  - apply Forall_cons_1 in Ho as [-> Ho]. destruct (IH C t to) as (t2&E2&L2&H2); [done|..].
    + intros k Hk. apply Hv. by right.
    + intros k Hk. apply Hc. by right.
    + lia.
    + done.
    + rewrite E2. simpl. by exists t2.
Qed.

End ftable.

(** * The invariant *)

Record file_inv (s : kernel) : Prop := {
  fi_refs : refs_ok (refs s) (ftable s);
  fi_valid : ∀ i p, ptable s !! i = Some p → valid_fds (ftable s) (ofile p);
  fi_closed : ∀ i p, ptable s !! i = Some p → may_open p = false → Forall (λ o, o = None) (ofile p);
}.

Lemma refs_view s s' j : view <$> ptable s' = view <$> ptable s → refs s' j = refs s j.
Proof.
  intros E. pose (g := λ v : option Z * bool * list (option nat), held j v.2).
  assert (∀ l, total (λ p, held j (ofile p)) l = total g (view <$> l)) as Hg.
  { intros l. rewrite <- total_view. by apply total_ext. }
  unfold refs. by rewrite !Hg, E.
Qed.

Lemma view_lookup s s' i p' :
  view <$> ptable s' = view <$> ptable s → ptable s' !! i = Some p' → ∃ p, ptable s !! i = Some p ∧ view p' = view p.
Proof.
  intros E H. apply (f_equal (lookup i)) in E. rewrite !list_lookup_fmap, H in E. simpl in E.
  destruct (ptable s !! i) as [p|]; [|done]. exists p. split; [done|]. by apply (inj Some) in E.
Qed.

Lemma file_inv_same s s' : same_res s s' → file_inv s → file_inv s'.
Proof.
  intros [E _ _ Ef] [F1 F2 F3]. split; rewrite ?Ef.
  - eapply refs_ok_ext; [|done]. intros j. by apply refs_view.
  - intros i p' H. destruct (view_lookup _ _ _ _ E H) as (p&Hp&Hv). injection Hv as _ _ ->. by eapply F2.
  - intros i p' H. destruct (view_lookup _ _ _ _ E H) as (p&Hp&Hv). injection Hv as _ -> ->. by eapply F3.
Qed.

(** One slot and the file table change. *)
Lemma file_inv_slot s s' i f p :
  ptable s' = alter f i (ptable s) → ptable s !! i = Some p → file_inv s → length (ftable s') = length (ftable s) →
  refs_ok (λ j, refs s j + held j (ofile (f p)) - held j (ofile p)) (ftable s') → valid_fds (ftable s) (ofile (f p)) →
  (may_open (f p) = false → Forall (λ o, o = None) (ofile (f p))) → file_inv s'.
Proof.
  intros E Hp [F1 F2 F3] L H1 H2 H3. rewrite (list_alter_insert f i _ p Hp) in E. split; rewrite ?E.
  - eapply refs_ok_ext; [|done]. intros j. unfold refs. rewrite E, (total_insert _ _ _ p) by done. lia.
  - intros k q Hq. eapply valid_length; [done|]. apply list_lookup_insert_Some in Hq as [(->&<-&_)|[_ Hq]]; [done|by eapply F2].
  - intros k q Hq. apply list_lookup_insert_Some in Hq as [(->&<-&_)|[_ Hq]]; [done|by eapply F3].
Qed.

(** A slot changes and keeps its open files. *)
Lemma file_inv_keep s s' i f :
  ptable s' = alter f i (ptable s) → ftable s' = ftable s →
  (∀ p, ptable s !! i = Some p → ofile (f p) = ofile p ∧ (may_open p = true → may_open (f p) = true ∨ Forall (λ o, o = None) (ofile p))) →
  file_inv s → file_inv s'.
Proof.
  intros E Ef H F. destruct (ptable s !! i) as [p|] eqn:Hp.
  - destruct (H p) as [H1 H2]; [done|]. eapply (file_inv_slot s s' i f p); try done; rewrite ?Ef, ?H1; [done| |by eapply fi_valid|].
    + eapply refs_ok_ext, (fi_refs _ F). intros j. cbn beta. lia.
    + intros Hm. destruct (may_open p) eqn:Ho; [|by eapply fi_closed]. destruct H2; [done|congruence|done].
  - rewrite alter_none in E by done. split; rewrite ?Ef, ?E.
    + eapply refs_ok_ext, (fi_refs _ F). intros j. unfold refs. by rewrite E.
    + apply F.
    + apply F.
Qed.

Lemma exit_files s i p :
  file_inv s → ptable s !! i = Some p → initproc s ≠ Some i → ∃ s', exit i s = Some s' ∧ file_inv s'.
Proof.
  intros F Hp Hi. unfold exit. rewrite Hp. simpl. rewrite bool_decide_eq_false_2 by done.
  destruct (close_files_ok (refs s) (ftable s) (ofile p)) as (t&E&L&H); [apply F|by eapply fi_valid|intros j; by eapply held_refs|].
  rewrite E. simpl. eexists. split; [done|]. assert (Forall (λ o, o = None) ((λ _, None) <$> ofile p : list (option nat))) as Hn.
  { apply Forall_fmap, Forall_true. done. }
  eapply (file_inv_slot s _ i _ p); try done.
  - eapply refs_ok_ext, H. intros j. simpl. rewrite (held_none j ((λ _, None) <$> _)) by done. lia.
  - simpl. intros j Hj. rewrite Forall_forall in Hn. by apply Hn in Hj.
Qed.

Lemma exit_file_inv s i s' : file_inv s → exit i s = Some s' → file_inv s'.
Proof.
  intros F E. assert (∃ p, ptable s !! i = Some p ∧ initproc s ≠ Some i) as (p&Hp&Hi).
  { unfold exit in E. destruct (ptable s !! i) as [p|]; simpl in E; [|done]. case_bool_decide; [done|]. eauto. }
  destruct (exit_files s i p F Hp Hi) as (s1&E1&F1). congruence.
Qed.

(** * Creating a process *)

(** The files of a new process: those of the caller. *)
Lemma child_files s i p np q :
  kinv s → file_inv s → ptable s !! i = Some p → creates (kctx p) = Some np → ptable s !! np = Some q →
  ∃ t, dup_files (ofile p) (ofile q) (ftable s) = Some (ofile p, t) ∧ length t = length (ftable s) ∧
       refs_ok (λ j, refs s j + held j (ofile p)) t ∧ Forall (λ o, o = None) (ofile q).
Proof.
  intros K F Hp Cp Hq. destruct (n_new _ (k_claim _ K) _ _ _ Hp Cp) as (_&q0&Hq0&Sq). assert (q0 = q) as -> by congruence.
  assert (Forall (λ o, o = None) (ofile q)) as Hn by (eapply fi_closed; [done..|]; unfold may_open; by rewrite Sq).
  destruct (dup_files_ok (refs s) (ftable s) (ofile p) (ofile q)) as (t&E&L&H); [apply F|by eapply fi_valid| | |done|].
  - intros j Hj. apply list_elem_of_lookup in Hj as [fd Hfd]. apply held_in in Hfd. pose proof (held_refs s i p j Hp). lia.
  - rewrite (l_files _ _ _ (t_loc _ (k_table _ K) i p Hp)), (l_files _ _ _ (t_loc _ (k_table _ K) np q Hq)). done.
  - by exists t.
Qed.

(** The new process gets them, and the caller goes on. *)
Lemma file_inv_born s s' i p np q f g :
  ptable s' = alter g i (alter f np (ptable s)) → file_inv s → ptable s !! np = Some q → Forall (λ o, o = None) (ofile q) →
  ptable s !! i = Some p → ofile (f q) = ofile p → may_open (f q) = true →
  length (ftable s') = length (ftable s) → refs_ok (λ j, refs s j + held j (ofile p)) (ftable s') →
  (∀ p', ofile (g p') = ofile p') → (∀ p', may_open p' = true → may_open (g p') = true) → file_inv s'.
Proof.
  intros E F Hq Hn Hp Ho Hm L H G1 G2. pose (s1 := { upd np f s with ftable := ftable s' }).
  eapply (file_inv_keep s1 s' i g); [exact E|done|auto|]. eapply (file_inv_slot s s1 np f q); try done.
  - eapply refs_ok_ext, H. intros j. cbn beta. rewrite Ho, (held_none j (ofile q)) by done. lia.
  - rewrite Ho. by eapply fi_valid.
  - congruence.
Qed.

Lemma may_open_goto p k : k ≠ K_exit → may_open p = true → may_open (goto k p) = true.
Proof. intros Hk. unfold may_open. simpl. destruct (state p); try done; by destruct k. Qed.

Lemma fork_files s i p np pd s' :
  kinv s → file_inv s → ptable s !! i = Some p → kctx p = K_fork np → fork i np pd s = Some s' → file_inv s'.
Proof.
  intros K F Hp Hk E. unfold fork in E. rewrite Hp in E. simpl in E. destruct (ptable s !! np) as [q|] eqn:Hq; simpl in E; [|done].
  destruct (child_files s i p np q) as (t&Ed&L&H&Hn); [done..|by rewrite Hk|done|]. case_bool_decide.
  - injection E as <-. eapply (file_inv_keep (upd np (λ p, { p with pgdir := 0; kstack := 0; state := UNUSED }) s)); [done|done| |].
    + intros x Hx. split; [done|]. intros Hm. left. by apply may_open_goto.
    + eapply (file_inv_keep s); [done|done| |done]. intros x Hx. split; [done|]. intros _. right. congruence.
  - rewrite Ed in E. simpl in E. injection E as <-. eapply (file_inv_born s _ i p np q); [done|done|done|done|done| | |done|done|done|].
    + done.
    + destruct (n_new _ (k_claim _ K) i p np Hp) as (_&q0&Hq0&Sq); [by rewrite Hk|]. assert (q0 = q) as -> by congruence.
      unfold may_open. simpl. by rewrite (l_embryo _ _ _ (t_loc _ (k_table _ K) np q Hq) Sq).
    + intros x Hm. by apply may_open_goto.
Qed.

Lemma clone_files s i p np fn stack arg s' :
  kinv s → file_inv s → ptable s !! i = Some p → kctx p = K_clone np fn stack arg → clone i np fn stack arg s = Some s' → file_inv s'.
Proof.
  intros K F Hp Hk E. unfold clone in E. rewrite Hp in E. simpl in E. destruct (ptable s !! np) as [q|] eqn:Hq; simpl in E; [|done].
  destruct (child_files s i p np q) as (t&Ed&L&H&Hn); [done..|by rewrite Hk|done|].
  rewrite Ed in E. simpl in E. injection E as <-. destruct (share_vm_frame (pgdir p) s) as (F1&_).
  eapply (file_inv_born s _ i p np q); [simpl; by rewrite F1|done|done|done|done| | |done|done|done|].
  - done.
  - destruct (n_new _ (k_claim _ K) i p np Hp) as (_&q0&Hq0&Sq); [by rewrite Hk|]. assert (q0 = q) as -> by congruence.
    unfold may_open. simpl. by rewrite (l_embryo _ _ _ (t_loc _ (k_table _ K) np q Hq) Sq).
  - intros x. unfold may_open. simpl. by destruct (state x).
Qed.

(** * System calls *)

Lemma wait_files s c i p s' : file_inv s → runs s c i p → kctx p ≠ K_exit → wait c i s = Some s' → file_inv s'.
Proof.
  intros F R Hx E. unfold wait in E. pose proof R as (_&Hp&_). rewrite Hp in E. cbn [mbind option_bind] in E.
  destruct (wait_scan _ _ _ _) as [b [k|]] eqn:Ew.
  - apply wait_scan_found in Ew as (q&_&Hq&_&Hz). rewrite Nat.sub_0_r in Hq. rewrite Hq in E. cbn [mbind option_bind] in E.
    destruct (freevm _ _) as [s1|] eqn:Ef; simpl in E; [|done]. injection E as <-. destruct (freevm_frame _ _ _ Ef) as (F1&_&_&_&F5).
    eapply (file_inv_keep (upd k reap s1)); [done|done| |].
    + intros x _. split; [done|]. intros Hm. left. by apply may_open_goto.
    + eapply (file_inv_keep s); [simpl; by rewrite F1|done| |done]. intros x Hx'. simplify_eq. split; [done|]. unfold may_open. by rewrite Hz.
  - destruct (negb b || killed p); injection E as <-.
    + eapply file_inv_same; [|done]. by eapply same_res_goto.
    + eapply file_inv_same; [|done]. by eapply same_res_sleep.
Qed.

Lemma exec_files s c i p im s' :
  file_inv s → runs s c i p → kctx p ≠ K_exit → exec i im s = Some s' → file_inv s'.
Proof.
  intros F R Hx E. unfold exec in E. pose proof R as (_&Hp&Hs). rewrite Hp in E. simpl in E.
  destruct im as [im|]; [|injection E as <-; eapply file_inv_same; [by eapply same_res_goto|done]].
  destruct (switchuvm _ _) as [s1|] eqn:E1; simpl in E; [|done]. apply switchuvm_some in E1 as [-> _].
  destruct (freevm _ _) as [s2|] eqn:Ef; simpl in E; [|done]. injection E as <-. destruct (freevm_frame _ _ _ Ef) as (F1&_&_&_&F5).
  eapply (file_inv_keep s2); [done|done| |].
  - intros x _. split; [done|]. intros Hm. left. by apply may_open_goto.
  - eapply (file_inv_keep s); [by rewrite F1|done| |done]. intros x Hx'. split; [done|]. intros Hm. by left.
Qed.

Lemma fdalloc_some j l fd l' : fdalloc j l = Some (fd, l') → l !! fd = Some None ∧ l' = <[fd := Some j]> l.
Proof.
  unfold fdalloc. destruct (list_find _ _) as [[k o]|] eqn:E; [|done]. intros [= <- <-]. apply list_find_Some in E as (H&->&_). done.
Qed.

Lemma held_insert j l fd o o' : l !! fd = Some o → held j (<[fd := o']> l) = held j l - is_fd j o + is_fd j o'.
Proof. intros H. unfold held. by rewrite (total_insert _ _ _ o). Qed.

Lemma is_fd_none j : is_fd j None = 0.
Proof. done. Qed.
Lemma is_fd_eq j k : is_fd j (Some k) = if bool_decide (j = k) then 1 else 0.
Proof. unfold is_fd. repeat case_bool_decide; simpl; congruence. Qed.

Lemma argfd_some i fd s n j p :
  ptable s !! i = Some p → argfd i fd s = Some (n, j) → ofile p !! n = Some (Some j).
Proof.
  intros Hp. unfold argfd. rewrite Hp. simpl. destruct fd as [fd|]; simpl; [|done]. destruct (_ || _); [done|].
  destruct (ofile p !! Z.to_nat fd) as [[k|]|] eqn:E; simpl; [|done|done]. by intros [= <- <-].
Qed.

Lemma refs_ok_alter C t j g : (∀ f, ref (g f) = ref f) → refs_ok C t → refs_ok C (alter g j t).
Proof.
  intros Hg H k f Hf. rewrite list_lookup_alter in Hf. case_decide; [subst|by apply H].
  destruct (t !! k) as [x|] eqn:Hx; simpl in Hf; [|done]. injection Hf as <-. rewrite Hg. by apply H.
Qed.

Section descriptors.
Context (s : kernel) (c i : nat) (p : proc) (K : kinv s) (F : file_inv s) (R : runs s c i p) (Hx : kctx p ≠ K_exit).

(** The descriptor [fd] of the caller changes from [o] to [o']. *)
Lemma file_inv_fd fd o o' t f v :
  ofile p !! fd = Some o → ofile (f p) = <[fd := o']> (ofile p) → state (f p) = state p → kctx (f p) = kctx p → length t = length (ftable s) →
  refs_ok (λ j, refs s j - is_fd j o + is_fd j o') t → (∀ j, o' = Some j → is_Some (ftable s !! j)) →
  ∃ s', return_value i v { upd i f s with ftable := t } = Some s' ∧ file_inv s'.
Proof.
  intros Ho E1 E2 E3 L H V. eexists. split; [done|]. destruct R as (_&Hp&Hs).
  eapply (file_inv_keep { upd i f s with ftable := t }); [done|done| |].
  { intros x _. split; [done|]. intros Hm. left. by apply may_open_goto. }
  eapply (file_inv_slot s _ i f p); [done|done|done|done| | |].
  - eapply refs_ok_ext, H. intros j. cbn beta. rewrite E1, (held_insert _ _ _ o) by done. lia.
  - intros j. rewrite E1. intros Hj. apply list_elem_of_lookup in Hj as [k Hk].
    apply list_lookup_insert_Some in Hk as [(_&->&_)|[_ Hk]]; [by apply V|].
    apply (fi_valid _ F i p Hp). apply list_elem_of_lookup. eauto.
  - unfold may_open. rewrite E2, Hs, E3. by destruct (kctx p).
Qed.

Lemma return_files v : ∃ s', return_value i v s = Some s' ∧ file_inv s'.
Proof. eexists. split; [done|]. eapply file_inv_same; [|done]. by eapply same_res_goto. Qed.

Lemma fd_valid n j : ofile p !! n = Some (Some j) → is_Some (ftable s !! j) ∧ 0 < refs s j.
Proof.
  intros H. destruct R as (_&Hp&_). split; [eapply (fi_valid _ F i p Hp), list_elem_of_lookup; eauto|].
  apply held_in in H. pose proof (held_refs s i p j Hp). lia.
Qed.

Lemma dup_call fd : ∃ s', sys_dup i fd s = Some s' ∧ file_inv s'.
Proof.
  unfold sys_dup. pose proof R as (_&Hp&_). rewrite Hp. simpl. destruct (argfd i fd s) as [[n j]|] eqn:Ea; [|apply return_files].
  destruct (fdalloc j (ofile p)) as [[m l]|] eqn:Ef; [|apply return_files]. apply fdalloc_some in Ef as [Hm ->].
  apply (argfd_some _ _ _ _ _ p Hp) in Ea. destruct (fd_valid n j Ea) as [V P].
  destruct (filedup_ok (refs s) (ftable s) j) as (t&Et&L&H); [apply F|done|done|]. rewrite Et. simpl.
  eapply (file_inv_fd m None (Some j)); [done|done|done|done|done| |by intros ? [= <-]].
  eapply refs_ok_ext, H. intros k. unfold bump. rewrite is_fd_eq, is_fd_none. case_bool_decide; lia.
Qed.

Lemma close_call fd : ∃ s', sys_close i fd s = Some s' ∧ file_inv s'.
Proof.
  unfold sys_close. pose proof R as (_&Hp&_). destruct (argfd i fd s) as [[n j]|] eqn:Ea; [|apply return_files].
  apply (argfd_some _ _ _ _ _ p Hp) in Ea. destruct (fd_valid n j Ea) as [V P].
  destruct (fileclose_ok (refs s) (ftable s) j) as (t&r&Et&L&H&_); [apply F|done|done|]. rewrite Et. simpl.
  eapply (file_inv_fd n (Some j) None); [done|done|done|done|done| |done].
  eapply refs_ok_ext, H. intros k. unfold bump. rewrite is_fd_eq, is_fd_none. case_bool_decide; lia.
Qed.

Lemma open_call ip omode : ∃ s', sys_open i ip omode s = Some s' ∧ file_inv s'.
Proof.
  unfold sys_open. pose proof R as (_&Hp&_). rewrite Hp. simpl. destruct (filealloc (ftable s)) as [[j t]|] eqn:Ea; [|apply return_files].
  destruct (filealloc_ok (refs s) _ _ _ (fi_refs _ F) Ea) as (Z0&V&L&H). destruct (fdalloc j (ofile p)) as [[m l]|] eqn:Ef.
  - apply fdalloc_some in Ef as [Hm ->]. eapply (file_inv_fd m None (Some j)); [done|done|done|done|by etrans; [apply length_alter|]| |by intros ? [= <-]].
    apply refs_ok_alter; [done|]. eapply refs_ok_ext, H. intros k. unfold bump. rewrite is_fd_eq, is_fd_none. case_bool_decide; lia.
  - destruct (fileclose_ok (bump j 1 (refs s)) t j) as (t2&r&Et&L2&H2&_); [done| | |].
    + apply lookup_lt_is_Some. rewrite L. by apply lookup_lt_is_Some.
    + unfold bump. rewrite bool_decide_eq_true_2 by done. lia.
    + rewrite Et. simpl. eexists. split; [done|]. eapply (file_inv_slot s _ i _ p); [done|done|done|simpl; congruence| | |].
      * eapply refs_ok_ext, H2. intros k. unfold bump. simpl. repeat case_bool_decide; lia.
      * exact (fi_valid _ F i p Hp).
      * intros Hm. eapply (fi_closed _ F i p Hp). destruct R as (_&_&Hs). unfold may_open in *. simpl in Hm. rewrite Hs in *. done.
Qed.

End descriptors.

(** * Every reachable state *)

Lemma syscall_files s c i p k s' :
  file_inv s → runs s c i p → kctx p ≠ K_exit → syscall c i k s = Some s' → file_inv s'.
Proof.
  intros F R Hx E. destruct (plain_call k) eqn:Hk; [eapply file_inv_same; [by eapply plain_call_res|done]|].
  destruct k as [| |  | | | | | | | | | | |fd|fd|ip om|]; try done; simpl in E.
  - by eapply exit_file_inv.
  - by eapply wait_files.
  - destruct (dup_call s c i p F R Hx fd) as (s1&E1&F1). congruence.
  - destruct (close_call s c i p F R Hx fd) as (s1&E1&F1). congruence.
  - destruct (open_call s c i p F R Hx ip om) as (s1&E1&F1). congruence.
Qed.

Lemma trap_return_files s i v :
  file_inv s → file_inv (upd i (λ p, { p with tf := { tf p with tf_eax := v }; kctx := K_user }) s).
Proof.
  intros F. eapply (file_inv_keep s); [done|done| |done]. intros x _. split; [done|]. intros Hm. left.
  unfold may_open in *. simpl. by destruct (state x).
Qed.

Lemma continue_files s c i p pd s' :
  kinv s → file_inv s → runs s c i p → continue c i pd s = Some s' → file_inv s'.
Proof.
  intros K F R E. unfold continue in E. pose proof R as (_&Hp&Hs). rewrite Hp in E. simpl in E.
  destruct (kctx p) as [| | |v|k|k|np|np fn stack arg| |t0 n| | |] eqn:Hk.
  all: try (injection E as <-; done).
  all: assert (kctx p ≠ K_exit ∨ kctx p = K_exit) as [Hx|Hx] by (rewrite Hk; (by left) || by right); try congruence.
  - unfold trap_check in E. rewrite Hp in E. simpl in E. destruct (killed p); [by eapply exit_file_inv|].
    injection E as <-. eapply file_inv_same; [by eapply same_res_goto|done].
  - injection E as <-. eapply file_inv_same; [by eapply same_res_goto|done].
  - unfold trap_return in E. rewrite Hp in E. simpl in E. pose proof (trap_return_files s i v F) as F1.
    destruct (killed p); [by eapply exit_file_inv|]. by injection E as <-.
  - injection E as <-. eapply file_inv_same; [eapply same_res_yield; [done|]|done]. rewrite Hk. right. split; [done|].
    pose proof (l_point _ _ _ (runs_local _ _ _ _ K R) (runs_live _ _ _ _ R)) as Hpt. unfold kpoint_ok in Hpt. rewrite Hk in Hpt. by destruct k.
  - injection E as <-. eapply (file_inv_keep s); [done|done| |done]. intros x Hx'. assert (x = p) as -> by congruence. split; [done|].
    intros _. left. unfold may_open. simpl. rewrite Hs.
    pose proof (l_point _ _ _ (runs_local _ _ _ _ K R) (runs_live _ _ _ _ R)) as Hpt. unfold kpoint_ok in Hpt. rewrite Hk in Hpt. by destruct k.
  - by eapply fork_files.
  - by eapply clone_files.
  - by eapply wait_files.
  - eapply file_inv_same; [by eapply same_res_loop|done].
  - eapply file_inv_same; [by eapply same_res_exit|done].
Qed.

Lemma handle_files stcf c e s s' :
  kinv s → file_inv s → enabled c e s = true → handle stcf c e s = Some s' → file_inv s'.
Proof.
  intros K F He E. unfold enabled in He. destruct (cpus s !! c) as [x|] eqn:Hx; [|done].
  assert (myproc c s = cpu_proc x) as Hm by (unfold myproc; by rewrite Hx).
  unfold handle in E. rewrite Hm in E. destruct (cpu_proc x) as [i|] eqn:Hi.
  - destruct (runs_intro s c i K Hm) as [p R]. pose proof R as (_&Hp&_). destruct e; try done; rewrite ?Hp in E; rewrite ?Hp in He; simpl in E, He.
    + destruct (killed p) eqn:Hkl; [destruct (kctx p) eqn:Hk|];
        try solve [eapply file_inv_same; [eapply same_res_timer; [done|done| |done]; rewrite ?Hk; auto|done]].
      unfold timer in E. destruct (timer_runs s c i p K R) as (p'&R'&Ek&Ec). pose proof R' as (_&Hp'&_).
      rewrite Hp' in E. simpl in E. rewrite Ec, Hk, Ek, Hkl in E. eapply exit_file_inv; [|done]. eapply file_inv_same; [apply same_res_tick|done].
    + destruct (kctx p) eqn:Hk; try done. destruct (killed p); [by eapply exit_file_inv|]. eapply syscall_files; try done. by rewrite Hk.
    + eapply exit_file_inv; [|done]. eapply (file_inv_keep s); [done|done| |done]. intros y _. split; [done|]. by left.
    + by eapply continue_files.
    + eapply exec_files; try done. by destruct (kctx p).
    + injection E as <-. eapply file_inv_same; [eapply same_res_kernel; [done|]|done]. by destruct (kctx p).
  - destruct e; try done; [eapply file_inv_same; [by eapply same_res_scheduler|done]|]. injection E as <-. eapply file_inv_same; [apply same_res_tick|done].
Qed.

Lemma boot_files stack pd root ncpu s : userinit stack pd root (pinit ncpu) = Some s → file_inv s.
Proof.
  intros E. destruct (userinit_cases _ _ _ _ _ E) as (np&p&Hn&Et&_&_&_&_&_&_&_&Ef&_&_&_&_&_&Eo&_).
  assert (∀ i q, ptable s !! i = Some q → Forall (λ o, o = None) (ofile q)) as Hnone.
  { intros i q Hq. rewrite Et in Hq. apply list_lookup_insert_Some in Hq as [(_&<-&_)|[_ Hq]]; [rewrite Eo; by apply Forall_replicate|].
    apply lookup_replicate in Hq as [-> _]. by apply Forall_replicate. }
  split.
  - intros j f Hf. rewrite Ef in Hf. apply lookup_replicate in Hf as [-> _]. simpl. symmetry. unfold refs.
    rewrite Et, (total_insert _ _ _ no_proc) by (by apply lookup_replicate). rewrite total_replicate, Eo. change (ofile no_proc) with (replicate NOFILE (@None nat)).
    rewrite (held_none j (replicate NOFILE None)) by (by apply Forall_replicate). lia.
  - intros i q Hq j Hj. apply Hnone in Hq. rewrite Forall_forall in Hq. by apply Hq in Hj.
  - intros i q Hq _. by eapply Hnone.
Qed.

Lemma reachable_files stcf ncpu s : reachable stcf ncpu s → file_inv s.
Proof.
  induction 1 as [stack pd root s E|c e s s' R IH He Hs E]; [by eapply boot_files|]. eapply handle_files; try done. by eapply reachable_kinv.
Qed.
