(* ===== verification/XvPanic.v ===== *)
(** The panics of the kernel code: which events can reach one. *)

From stdpp Require Import base option list numbers gmap.
From coqutil Require Import Datatypes.RecordSettersUsingExistingGetters.
From Stdlib Require Import ZArith Lia.
From S2P Require Import Prelude Counting XvProc XvInv XvLife XvReach XvVm XvFiles.
Local Open Scope Z_scope.

(** The first process ends: [exit] panics. *)
Definition init_exits (c : nat) (e : event) (s : kernel) : Prop :=
  ∃ i p, myproc c s = Some i ∧ initproc s = Some i ∧ ptable s !! i = Some p ∧
    (killed p = true ∨ e = E_syscall S_exit ∨ e = E_fault).

(** The next process would get a number that does not fit. *)
Definition pids_exhausted (e : event) (s : kernel) : Prop :=
  nextpid s = 2147483647 ∧
  match e with E_syscall (S_fork _) | E_syscall (S_clone _ _ _ _) => True | _ => False end.

Lemma is_Some_bind {A B} (m : option A) (f : A → option B) :
  is_Some m → (∀ x, m = Some x → is_Some (f x)) → is_Some (m ≫= f).
Proof. intros [x ->] H. by apply H. Qed.

Lemma used_switchuvm s i p : ptable s !! i = Some p → kstack p ≠ 0 → pgdir p ≠ 0 → switchuvm i s = Some s.
Proof. intros Hp Hk Hv. unfold switchuvm. rewrite Hp. simpl. by rewrite !bool_decide_eq_false_2. Qed.

Lemma live_vm s i p : kinv s → ptable s !! i = Some p → live p → kstack p ≠ 0 ∧ pgdir p ≠ 0.
Proof.
  intros K Hp Lp. pose proof (t_loc _ (k_table _ K) _ _ Hp) as L. split; [|by apply (l_vm _ _ _ L), live_used].
  apply (l_stack _ _ _ L). by apply live_cases in Lp as (?&_).
Qed.

Lemma scheduler_runs stcf c s : kinv s → is_Some (cpus s !! c) → is_Some (scheduler stcf c s).
Proof.
  intros K [x Hx]. unfold scheduler, scheduler_stcf, scheduler_rr. destruct stcf.
  - destruct (stcf_pick s) as [best|] eqn:Eb; [|done]. apply stcf_pick_runnable in Eb as (p&Hp&Hs). fold (clear_skip best s).
    destruct (live_vm s best p K Hp) as [H1 H2]; [unfold live; auto|]. rewrite <- (clear_skip_best best) in Hp.
    rewrite (used_switchuvm _ best p); done.
  - rewrite Hx. simpl. destruct (next_runnable _ _) as [i|] eqn:En; [|done]. apply next_runnable_drop in En as (p&Hp&Hs&_).
    destruct (live_vm s i p K Hp) as [H1 H2]; [unfold live; auto|]. rewrite (used_switchuvm _ i p); done.
Qed.

Section running.
Context (s : kernel) (c i : nat) (p : proc) (K : kinv s) (W : vm_inv s) (F : file_inv s) (R : runs s c i p).

Lemma vm_of_live q : live q → vm_of q = Some (pgdir q).
Proof. intros [E|[E|E]]; unfold vm_of, has_vm; by rewrite E. Qed.

Lemma exit_runs : initproc s ≠ Some i → is_Some (exit i s).
Proof. intros Hi. destruct R as (_&Hp&_). destruct (exit_files s i p F Hp Hi) as (s'&E&_). eauto. Qed.

Lemma wait_runs : is_Some (wait c i s).
Proof.
  unfold wait. pose proof R as (_&Hp&_). rewrite Hp. cbn [mbind option_bind]. destruct (wait_scan _ _ _ _) as [b [k|]] eqn:Ew.
  - apply wait_scan_found in Ew as (q&_&Hq&_&Hz). rewrite Nat.sub_0_r in Hq. rewrite Hq. cbn [mbind option_bind].
    assert (vm_of q = Some (pgdir q)) as Hv by (unfold vm_of, has_vm; by rewrite Hz).
    destruct (freevm_ok (users s) (pgdir q) s (vi_ok _ W)) as (s1&Ef&_); [exact (users_lookup s k q _ Hq Hv)|]. by rewrite Ef.
  - by destruct (negb b || killed p).
Qed.

Lemma exec_runs im : services_ok (E_exec im) s → is_Some (exec i im s).
Proof.
  intros Hok. unfold exec. pose proof R as (_&Hp&Hs). rewrite Hp. simpl. destruct im as [im|]; [|done]. destruct Hok as [Hz Hnew].
  destruct (runs_vm s c i p K R) as [_ Hk]. pose proof (vi_ok _ W) as V.
  pose proof (users_lookup s i p _ Hp (vm_of_live p (runs_live _ _ _ _ R))) as Hu.
  erewrite (used_switchuvm _ i); [|simpl; by rewrite list_lookup_alter_eq, Hp|done|done]. simpl.
  assert (users s (im_pgdir im) = 0) as Hu0.
  { pose proof (users_nonneg s (im_pgdir im)). destruct (decide (0 < users s (im_pgdir im))) as [Hlt|]; [|lia]. by apply (v_live _ _ _ V) in Hlt. }
  match goal with |- is_Some (freevm _ ?s1 ≫= _) => destruct (freevm_ok (λ x, if bool_decide (x = im_pgdir im) then 1 else users s x) (pgdir p) s1) as (s2&Ef&_) end.
  - by apply vm_ok_new.
  - case_bool_decide; lia.
  - by rewrite Ef.
Qed.

Lemma fork_runs np pd : kctx p = K_fork np → is_Some (fork i np pd s).
Proof.
  intros Hk. unfold fork. pose proof R as (_&Hp&_). rewrite Hp. simpl.
  destruct (n_new _ (k_claim _ K) i p np Hp) as (_&q&Hq&_); [by rewrite Hk|]. rewrite Hq. simpl. case_bool_decide; [done|].
  destruct (child_files s i p np q) as (t&Ed&_); [done..|by rewrite Hk|done|]. by rewrite Ed.
Qed.

Lemma clone_runs np fn stack arg : kctx p = K_clone np fn stack arg → is_Some (clone i np fn stack arg s).
Proof.
  intros Hk. unfold clone. pose proof R as (_&Hp&_). rewrite Hp. simpl.
  destruct (n_new _ (k_claim _ K) i p np Hp) as (_&q&Hq&_); [by rewrite Hk|]. rewrite Hq. simpl.
  destruct (child_files s i p np q) as (t&Ed&_); [done..|by rewrite Hk|done|]. by rewrite Ed.
Qed.

Lemma allocproc_runs stack : nextpid s ≠ 2147483647 → is_Some (allocproc stack s).
Proof.
  intros Hn. unfold allocproc. destruct (list_find _ _) as [[np q]|]; [|done]. rewrite bool_decide_eq_false_2 by done. by case_bool_decide.
Qed.

Lemma syscall_runs k :
  kctx p ≠ K_exit → (k = S_exit → initproc s ≠ Some i) → ¬ pids_exhausted (E_syscall k) s → is_Some (syscall c i k s).
Proof.
  intros Hx Hi Hn. pose proof R as (_&Hp&_).
  destruct k as [stack|stack fn us arg| | |n| |n ns|n| |t|ok|t ok| |fd|fd|ip om|]; simpl.
  - apply is_Some_bind; [apply allocproc_runs; intros E; by apply Hn|]. by intros [[np|] s1] _.
  - apply is_Some_bind; [apply allocproc_runs; intros E; by apply Hn|]. by intros [[np|] s1] _.
  - apply exit_runs. auto.
  - apply wait_runs.
  - unfold sys_kill. destruct n; [|done]. by destruct (kill _ _).
  - unfold sys_getpid. by rewrite Hp.
  - unfold sys_sbrk, growproc. rewrite Hp. simpl. destruct n as [n|]; [|done]. destruct (_ && _); simpl; [done|].
    destruct (runs_vm s c i p K R) as [Hv Hk]. case_bool_decide.
    + by rewrite (used_switchuvm _ i p).
    + erewrite (used_switchuvm _ i); [|simpl; by rewrite list_lookup_alter_eq, Hp|done|done]. done.
  - unfold sys_sleep, sleep_loop. destruct n as [n|]; [|done]. case_bool_decide; [done|]. simpl. rewrite list_lookup_alter_eq, Hp. simpl.
    case_bool_decide; [|done]. by destruct (killed p).
  - done.
  - unfold sys_remain. rewrite Hp. simpl. destruct t; [|done]. do 2 (case_bool_decide; [done|]). done.
  - unfold sys_exec. by destruct ok.
  - unfold sys_exec2. rewrite Hp. simpl. destruct t; [|done]. case_bool_decide; [done|]. destruct ok; simpl; [|done]. by case_bool_decide.
  - done.
  - destruct (dup_call s c i p F R Hx fd) as (s1&E1&_). eauto.
  - destruct (close_call s c i p F R Hx fd) as (s1&E1&_). eauto.
  - destruct (open_call s c i p F R Hx ip om) as (s1&E1&_). eauto.
  - done.
Qed.

Lemma continue_runs pd : (killed p = true → initproc s ≠ Some i) → is_Some (continue c i pd s).
Proof.
  intros Hi. unfold continue. pose proof R as (_&Hp&_). rewrite Hp. simpl.
  destruct (kctx p) as [| | |v|k|k|np|np fn stack arg| |t0 n| | |] eqn:Hk; try done.
  - unfold trap_check. rewrite Hp. simpl. destruct (killed p); [|done]. by apply exit_runs, Hi.
  - unfold trap_return. rewrite Hp. simpl. destruct (killed p) eqn:Hkl; [|done].
    edestruct exit_files as (s'&E&_); [apply (trap_return_files s i v F)|simpl; by rewrite list_lookup_alter_eq, Hp|by apply Hi|]. by exists s'.
  - by apply fork_runs.
  - by apply clone_runs.
  - apply wait_runs.
  - unfold sleep_loop. rewrite Hp. simpl. case_bool_decide; [|done]. by destruct (killed p).
  - unfold exit_zombie. by rewrite Hp.
Qed.

Lemma timer_returns stcf : (killed p = true → initproc s ≠ Some i) → is_Some (timer stcf c i s).
Proof.
  intros Hi. unfold timer. destruct (timer_runs s c i p K R) as (p'&R'&Ek&Ec). pose proof R' as (_&Hp'&_).
  rewrite Hp'. simpl. rewrite Ec, Ek. destruct (kctx p); try (by destruct stcf). destruct (killed p); [|by destruct stcf].
  edestruct (exit_files (timer_tick c s) i p') as (s'&E&_); [eapply file_inv_same; [apply same_res_tick|done]|done| |by rewrite E].
  unfold timer_tick. case_bool_decide; by apply Hi.
Qed.

End running.

Lemma handle_runs stcf c e s :
  kinv s → vm_inv s → file_inv s → enabled c e s = true → services_ok e s →
  ¬ init_exits c e s → ¬ pids_exhausted e s → is_Some (handle stcf c e s).
Proof.
  intros K W F He Hok Hn Hx. unfold enabled in He. destruct (cpus s !! c) as [x|] eqn:Hc; [|done].
  assert (myproc c s = cpu_proc x) as Hm by (unfold myproc; by rewrite Hc).
  unfold handle. rewrite Hm. destruct (cpu_proc x) as [i|] eqn:Hi; [|by destruct e; try done; apply scheduler_runs].
  destruct (runs_intro s c i K Hm) as [p R]. pose proof R as (_&Hp&_). rewrite Hp in He. simpl in He.
  assert (killed p = true ∨ e = E_syscall S_exit ∨ e = E_fault → initproc s ≠ Some i) as Hend.
  { intros H Hinit. apply Hn. exists i, p. auto. }
  destruct e as [| |k| |pd|im|a]; try done; rewrite ?Hp; simpl.
  - apply (timer_returns s c i p); auto.
  - destruct (kctx p) eqn:Hk; try done. destruct (killed p) eqn:Hkl; [apply (exit_runs s c i p); auto|].
    apply (syscall_runs s c i p); auto; [congruence|]. intros ->. auto.
  - destruct (exit_files (upd i (λ p, { p with killed := true }) s) i { p with killed := true }) as (s'&E&_); [| |simpl; apply Hend; auto|by exists s'].
    + eapply (file_inv_keep s); [done|done| |done]. intros y _. split; [done|]. by left.
    + simpl. by rewrite list_lookup_alter_eq, Hp.
  - apply (continue_runs s c i p); auto.
  - by apply (exec_runs s c i p).
Qed.
