(* ===== verification/XvFair.v ===== *)
(** The round-robin scheduler is fair: a runnable process keeps waiting only
    while the position of a processor in the table has not passed it. A process
    that sleeps for clock ticks is woken by the clock alone. Some runs serve as
    examples. *)

From stdpp Require Import base option list numbers gmap.
From coqutil Require Import Datatypes.RecordSettersUsingExistingGetters.
From Stdlib Require Import ZArith Lia.
From S2P Require Import Prelude XvProc XvInv XvLife XvReach.
Local Open Scope Z_scope.

Lemma run_app stcf l1 l2 s : run stcf (l1 ++ l2) s = run stcf l1 s ≫= run stcf l2.
Proof. revert s. induction l1 as [|[c e] l1 IH]; intros s; [done|]. simpl. destruct (_ && _); [|done]. destruct (handle _ _ _ _); simpl; auto. Qed.

Lemma run_step_reachable stcf ncpu c e s s' :
  reachable stcf ncpu s → enabled c e s && bool_decide (services_ok e s) = true → handle stcf c e s = Some s' → reachable stcf ncpu s'.
Proof. intros R [He Hs]%andb_true_iff E. apply bool_decide_eq_true in Hs. by eapply reach_event. Qed.

Lemma run_reachable stcf ncpu l s s' : reachable stcf ncpu s → run stcf l s = Some s' → reachable stcf ncpu s'.
Proof.
  revert s. induction l as [|[c e] l IH]; intros s R E; simpl in E; [by simplify_eq|]. destruct (_ && _) eqn:Ho; [|done].
  destruct (handle _ _ _ _) as [s1|] eqn:E1; simpl in E; [|done]. eapply IH; [|done]. by eapply run_step_reachable.
Qed.

(** * What one event leaves alone *)

Section steady.
(** A property of processes that wait: for a processor, or for clock ticks. *)
Context (Q : proc → Prop).
Context (Q_waits : ∀ p, Q p → state p = RUNNABLE ∨ state p = SLEEPING).
Context (Q_wake : ∀ ch p, ch ≠ Some ch_ticks → Q p → Q (wake ch p)).
Context (Q_parent : ∀ x p, Q p → Q (set_parent x p)).

(** The processes with the property, other than the running process [i], keep
    it, and no processor moves its position in the table. *)
Record steady (i : nat) (s s' : kernel) : Prop := {
  st_run : ∀ j q, j ≠ i → ptable s !! j = Some q → Q q → ∃ q', ptable s' !! j = Some q' ∧ Q q';
  st_rr : ∀ c, rr_next <$> cpus s' !! c = rr_next <$> cpus s !! c;
}.

Lemma steady_refl i s : steady i s s.
Proof. split; eauto. Qed.
Lemma steady_trans i s1 s2 s3 : steady i s1 s2 → steady i s2 s3 → steady i s1 s3.
Proof.
  intros [A1 A2] [B1 B2]. split; [|congruence]. intros j q Hj Hq Hs. destruct (A1 j q Hj Hq Hs) as (q'&Hq'&Hs'). eauto.
Qed.
#[local] Instance steady_preorder i : PreOrder (steady i).
Proof. split; [exact (steady_refl i)|exact (steady_trans i)]. Qed.

Lemma steady_fields i s s' : ptable s' = ptable s → cpus s' = cpus s → steady i s s'.
Proof. intros E1 E2. split; rewrite ?E1, ?E2; eauto. Qed.

Lemma steady_upd i k f s : (k ≠ i → ∀ p, ptable s !! k = Some p → Q p → Q (f p)) → steady i s (upd k f s).
Proof.
  intros H. split; [|done]. intros j q Hj Hq Hs. simpl. rewrite list_lookup_alter. case_decide; [subst|eauto]. rewrite Hq. simpl. eauto.
Qed.
Lemma steady_self i f s : steady i s (upd i f s).
Proof. by apply steady_upd. Qed.

Lemma steady_fmap i f s : (∀ p, Q p → Q (f p)) → steady i s { s with ptable ::= fmap f }.
Proof. intros H. split; [|done]. intros j q Hj Hq Hs. simpl. rewrite list_lookup_fmap, Hq. simpl. eauto. Qed.

Lemma steady_wakeup1 i ch s : ch ≠ Some ch_ticks → steady i s (wakeup1 ch s).
Proof. intros Hch. apply steady_fmap. auto. Qed.

Lemma steady_sched i c s : steady i s (sched c s).
Proof.
  split; [eauto|]. intros c'. unfold sched, set_cpu. simpl. rewrite list_lookup_alter. case_decide; [subst|done]. by destruct (cpus s !! c').
Qed.

Lemma steady_tick i c s : (c = 0%nat → ∀ p, Q p → Q (notify p)) → steady i s (timer_tick c s).
Proof.
  intros H. unfold timer_tick. case_bool_decide; [|done]. etransitivity; [|by apply steady_fmap, H]. by apply steady_fields.
Qed.

Lemma steady_yield i c k s : steady i s (yield c i k s).
Proof. unfold yield. etransitivity; [|apply steady_sched]. apply steady_self. Qed.
Lemma steady_sleep i c ch k s : steady i s (sleep c i ch k s).
Proof. unfold sleep. etransitivity; [|apply steady_sched]. apply steady_self. Qed.

Lemma steady_exit i s s' : exit i s = Some s' → steady i s s'.
Proof.
  unfold exit. destruct (ptable s !! i); simpl; [|done]. case_bool_decide; [done|]. destruct (close_files _ _); simpl; [|done].
  intros [= <-]. etransitivity; [|apply steady_self]. by apply steady_fields.
Qed.

Lemma steady_reparent i k s j : steady i s (reparent k s j).
Proof.
  unfold reparent. destruct (ptable s !! j); [|done]. case_bool_decide; [|done]. cbn zeta. case_bool_decide.
  - etransitivity; [|apply steady_wakeup1; by destruct (initproc _)]. apply steady_upd. auto.
  - apply steady_upd. auto.
Qed.

Lemma steady_zombie i c s s' : exit_zombie c i s = Some s' → steady i s s'.
Proof.
  intros E. unfold exit_zombie in E. destruct (ptable s !! i) as [p|]; [|done]. cbn [mbind option_bind] in E. apply (inj Some) in E. rewrite <- E.
  etransitivity; [|apply steady_sched]. etransitivity; [|apply steady_self]. etransitivity; [apply (steady_wakeup1 i (ch_proc <$> parent p)); by destruct (parent p)|].
  generalize (seq 0 NPROC) as l, (wakeup1 (ch_proc <$> parent p) s) as s1. induction l as [|j l IH]; intros s1; simpl; [done|].
  etransitivity; [apply steady_reparent|apply IH].
Qed.

Lemma steady_freevm i pd s s' : freevm pd s = Some s' → steady i s s'.
Proof. intros E. destruct (freevm_frame _ _ _ E) as (F1&_&_&F4&_). by apply steady_fields. Qed.

Lemma steady_wait i c s s' : wait c i s = Some s' → steady i s s'.
Proof.
  unfold wait. intros E. destruct (ptable s !! i) as [p|]; [|done]. cbn [mbind option_bind] in E.
  destruct (wait_scan _ _ _ _) as [b [k|]] eqn:Ew.
  - apply wait_scan_found in Ew as (q&_&Hq&_&Hz). rewrite Nat.sub_0_r in Hq. rewrite Hq in E. cbn [mbind option_bind] in E.
    destruct (freevm _ _) as [s1|] eqn:Ef; simpl in E; [|done]. injection E as <-. etransitivity; [by eapply steady_freevm|].
    etransitivity; [|apply steady_self]. apply steady_upd. intros _ r Hr Hq'. destruct (freevm_frame _ _ _ Ef) as (F1&_). rewrite F1 in Hr. simplify_eq. apply Q_waits in Hq' as []; congruence.
  - destruct (negb b || killed p); injection E as <-; [apply steady_self|apply steady_sleep].
Qed.

Lemma steady_allocproc i stack s r s' : allocproc stack s = Some (r, s') → steady i s s'.
Proof.
  intros E. apply allocproc_cases in E as [[_ ->]|(np&q&q'&T)]; [done|]. destruct (a_new _ _ _ _ _ _ T) as (E1&_). split.
  - intros j x Hj Hx Hs. rewrite E1. destruct (decide (j = np)) as [->|]; [|rewrite list_lookup_insert_ne by done; eauto].
    pose proof (a_old _ _ _ _ _ _ T). pose proof (a_free _ _ _ _ _ _ T). apply Q_waits in Hs as []; congruence.
  - intros c. destruct (a_frame _ _ _ _ _ _ T) as (->&_). done.
Qed.

Lemma steady_child i np q s f :
  ptable s !! np = Some q → state q = EMBRYO → steady i s (upd np f s).
Proof. intros Hq Sq. apply steady_upd. intros _ p Hp [H|H]%Q_waits; congruence. Qed.

Lemma steady_fork i p np pd s s' :
  claim_inv s → ptable s !! i = Some p → creates (kctx p) = Some np → fork i np pd s = Some s' → steady i s s'.
Proof.
  intros N Hp Cp E. destruct (n_new _ N _ _ _ Hp Cp) as (_&q&Hq&Sq). unfold fork in E. rewrite Hp, Hq in E. simpl in E. case_bool_decide.
  - injection E as <-. etransitivity; [|apply steady_self]. by eapply steady_child.
  - destruct (dup_files _ _ _) as [[l t]|]; simpl in E; [|done]. injection E as <-. etransitivity; [|apply steady_self].
    match goal with |- steady _ _ (upd _ _ ?x) => transitivity x end; [by apply steady_fields|by eapply steady_child].
Qed.

Lemma steady_clone i p np fn stack arg s s' :
  claim_inv s → ptable s !! i = Some p → creates (kctx p) = Some np → clone i np fn stack arg s = Some s' → steady i s s'.
Proof.
  intros N Hp Cp E. destruct (n_new _ N _ _ _ Hp Cp) as (_&q&Hq&Sq). unfold clone in E. rewrite Hp, Hq in E. simpl in E.
  destruct (dup_files _ _ _) as [[l t]|]; simpl in E; [|done]. injection E as <-. destruct (share_vm_frame (pgdir p) s) as (F1&F2&F3&F4).
  etransitivity; [|apply steady_self]. match goal with |- steady _ _ (upd _ _ ?x) => transitivity x end; [by apply steady_fields|].
  eapply steady_child; [simpl; by rewrite F1|done].
Qed.

Definition kill_slot (p : proc) : proc :=
  { p with killed := true; state := if bool_decide (state p = SLEEPING) then RUNNABLE else state p }.
Definition is_kill (k : call) : bool := match k with S_kill _ => true | _ => false end.

Lemma steady_kill i n s r s' : (∀ p, Q p → Q (kill_slot p)) → kill n s = (r, s') → steady i s s'.
Proof.
  intros H. unfold kill. destruct (list_find _ _) as [[j q]|]; intros [= <- <-]; [|done]. apply steady_upd. intros _ p _. apply H.
Qed.

Lemma steady_return i v s s' : return_value i v s = Some s' → steady i s s'.
Proof. intros [= <-]. apply steady_self. Qed.
Lemma steady_self2 i f g s : steady i s (upd i g (upd i f s)).
Proof. etransitivity; apply steady_self. Qed.
Lemma steady_files i f v t s s' : return_value i v { upd i f s with ftable := t } = Some s' → steady i s s'.
Proof. intros [= <-]. etransitivity; [|apply steady_self]. etransitivity; [apply (steady_self i f)|]. by apply steady_fields. Qed.

Lemma steady_loop i c t0 n s s' : sleep_loop c i t0 n s = Some s' → steady i s s'.
Proof.
  unfold sleep_loop. destruct (ptable s !! i) as [p|]; simpl; [|done]. case_bool_decide; [destruct (killed p)|].
  - apply steady_return.
  - intros [= <-]. apply steady_sleep.
  - intros [= <-]. apply steady_self2.
Qed.

Lemma steady_create i stack (k : nat → kpoint) s s' :
  ('(np, s) ← allocproc stack s;
   match np with None => return_value i (-1) s | Some np => Some (upd i (goto (k np)) s) end) = Some s' → steady i s s'.
Proof.
  destruct (allocproc stack s) as [[r s1]|] eqn:Ea; simpl; [|done]. intros E. etransitivity; [by eapply steady_allocproc|].
  destruct r; injection E as <-; apply steady_self.
Qed.

Lemma steady_syscall i c k s s' : (is_kill k = true → ∀ p, Q p → Q (kill_slot p)) → syscall c i k s = Some s' → steady i s s'.
Proof.
  destruct k as [stack|stack fn us arg| | |n| |n ns|n| |t|ok|t ok| |fd|fd|ip om|]; simpl; intros Hkill E.
  - by eapply (steady_create i stack K_fork).
  - by eapply (steady_create i stack (λ np, K_clone np fn us arg)).
  - by eapply steady_exit.
  - by eapply steady_wait.
  - unfold sys_kill in E. destruct n as [n|]; [|by eapply steady_return]. destruct (kill n s) as [r s1] eqn:Ek.
    etransitivity; [eapply steady_kill; [auto|done]|by eapply steady_return].
  - unfold sys_getpid in E. destruct (ptable s !! i); simpl in E; [|done]. by eapply steady_return.
  - unfold sys_sbrk, growproc in E. destruct (ptable s !! i); simpl in E; [|done]. destruct n as [n|]; [|by eapply steady_return].
    destruct (_ && _); simpl in E; [by eapply steady_return|]. destruct (switchuvm _ _) as [s1|] eqn:E1; simpl in E; [|done].
    apply switchuvm_some in E1 as [-> _]. case_bool_decide; injection E as <-; [apply steady_self|apply steady_self2].
  - unfold sys_sleep in E. destruct n as [n|]; [|by eapply steady_return]. case_bool_decide; [injection E as <-; apply steady_self|].
    etransitivity; [|by eapply steady_loop]. apply steady_self.
  - by eapply steady_return.
  - unfold sys_remain in E. destruct (ptable s !! i); simpl in E; [|done]. destruct t as [t|]; [|by eapply steady_return].
    case_bool_decide; [by eapply steady_return|]. case_bool_decide; injection E as <-; apply steady_self2.
  - unfold sys_exec in E. destruct ok; [injection E as <-; apply steady_self|by eapply steady_return].
  - unfold sys_exec2 in E. destruct (ptable s !! i); simpl in E; [|done]. destruct t as [t|]; [|by eapply steady_return].
    case_bool_decide; [by eapply steady_return|]. destruct ok; simpl in E; [|by eapply steady_return].
    case_bool_decide; injection E as <-; apply steady_self2.
  - injection E as <-. etransitivity; [|apply steady_self]. by apply steady_fields.
  - unfold sys_dup in E. destruct (ptable s !! i); simpl in E; [|done]. destruct (argfd _ _ _) as [[? j]|]; [|by eapply steady_return].
    destruct (fdalloc _ _) as [[? l]|]; [|by eapply steady_return]. destruct (filedup _ _); simpl in E; [|done]. eapply steady_files; exact E.
  - unfold sys_close in E. destruct (argfd _ _ _) as [[? j]|]; [|by eapply steady_return]. destruct (fileclose _ _) as [[t ?]|]; simpl in E; [|done].
    eapply steady_files; exact E.
  - unfold sys_open in E. destruct (ptable s !! i); simpl in E; [|done]. destruct (filealloc _) as [[j t]|]; [|by eapply steady_return].
    destruct (fdalloc _ _) as [[? l]|]; [eapply steady_files; exact E|]. destruct (fileclose _ _) as [[t' ?]|]; simpl in E; [|done].
    injection E as <-. etransitivity; [|apply steady_self]. by apply steady_fields.
  - injection E as <-. apply steady_self.
Qed.

Lemma steady_exec i im s s' : exec i im s = Some s' → steady i s s'.
Proof.
  unfold exec. destruct (ptable s !! i) as [p|]; simpl; [|done]. destruct im as [im|]; [|intros [= <-]; apply steady_self].
  destruct (switchuvm _ _) as [s1|] eqn:E1; simpl; [|done]. apply switchuvm_some in E1 as [-> _].
  destruct (freevm _ _) as [s2|] eqn:Ef; simpl; [|done]. intros [= <-]. etransitivity; [|apply steady_self].
  etransitivity; [|by eapply steady_freevm]. etransitivity; [|apply steady_self]. by apply steady_fields.
Qed.

Lemma steady_continue i c p pd s s' :
  kinv s → runs s c i p → continue c i pd s = Some s' → steady i s s'.
Proof.
  intros K (_&Hp&_) E. unfold continue in E. rewrite Hp in E. simpl in E. pose proof (k_claim _ K) as N.
  destruct (kctx p) as [| | |v|k|k|np|np fn stack arg| |t0 n| | |] eqn:Hk.
  all: try (injection E as <-; first [done|apply steady_self|apply steady_yield]).
  - unfold trap_check in E. rewrite Hp in E. simpl in E. destruct (killed p); [by eapply steady_exit|]. injection E as <-. apply steady_self.
  - unfold trap_return in E. rewrite Hp in E. simpl in E. destruct (killed p); [|injection E as <-; apply steady_self].
    etransitivity; [|by eapply steady_exit]. apply steady_self.
  - eapply steady_fork; try done. by rewrite Hk.
  - eapply steady_clone; try done. by rewrite Hk.
  - by eapply steady_wait.
  - by eapply steady_loop.
  - by eapply steady_zombie.
Qed.

Lemma steady_timer stcf c i s s' : timer stcf c i s = Some s' → steady i (timer_tick c s) s'.
Proof.
  intros E. unfold timer in E. destruct (ptable (timer_tick c s) !! i) as [p'|]; simpl in E; [|done].
  destruct (kctx p'); [destruct (killed p'); [by eapply steady_exit|]|..]; destruct stcf; injection E as <-; done || apply steady_yield.
Qed.

(** Only the scheduler moves a position, and only it, the clock and [kill] end a
    wait. *)
Lemma handle_steady stcf c e s s' :
  (∀ k, e = E_syscall k → is_kill k = true → ∀ p, Q p → Q (kill_slot p)) →
  (e = E_timer → c = 0%nat → ∀ p, Q p → Q (notify p)) →
  kinv s → enabled c e s = true → handle stcf c e s = Some s' → e ≠ E_schedule →
  (∀ j q, ptable s !! j = Some q → Q q → ∃ q', ptable s' !! j = Some q' ∧ Q q') ∧
  ∀ d, rr_next <$> cpus s' !! d = rr_next <$> cpus s !! d.
Proof.
  intros Qk Qn K He E Hns. unfold enabled in He. destruct (cpus s !! c) as [x|] eqn:Hx; [|done].
  assert (myproc c s = cpu_proc x) as Hm by (unfold myproc; by rewrite Hx).
  unfold handle in E. rewrite Hm in E. destruct (cpu_proc x) as [i|] eqn:Hi.
  - destruct (runs_intro s c i K Hm) as [p R]. pose proof R as (_&Hp&Hs).
    assert (steady i s s') as [H1 H2].
    2:{ split; [|done]. intros j q Hq HQ. eapply H1; [|done|done]. intros ->. apply Q_waits in HQ as []; congruence. }
    destruct e as [| |k| |pd|im|a]; try done; rewrite ?Hp in E; simpl in E.
    + etransitivity; [apply (steady_tick i c); auto|by eapply steady_timer].
    + destruct (killed p); [by eapply steady_exit|]. eapply steady_syscall; [|done]. by apply Qk.
    + etransitivity; [|by eapply steady_exit]. apply steady_self.
    + by eapply steady_continue.
    + by eapply steady_exec.
    + injection E as <-. destruct a; [apply steady_sleep|by apply steady_wakeup1|apply steady_self].
  - destruct e; try done. injection E as <-. destruct (steady_tick (length (ptable s)) c s) as [H1 H2]; [auto|]. split; [|done].
    intros j q Hq HQ. eapply H1; [|done|done]. apply lookup_lt_Some in Hq. lia.
Qed.

End steady.

Definition runnable (p : proc) : Prop := state p = RUNNABLE.

Lemma handle_runnable stcf c e s s' :
  kinv s → enabled c e s = true → handle stcf c e s = Some s' → e ≠ E_schedule →
  (∀ j q, ptable s !! j = Some q → runnable q → ∃ q', ptable s' !! j = Some q' ∧ runnable q') ∧
  ∀ d, rr_next <$> cpus s' !! d = rr_next <$> cpus s !! d.
Proof.
  apply handle_steady; unfold runnable.
  - auto.
  - intros ch p _ Hs. unfold wake. by case_match.
  - done.
  - intros _ _ _ p Hs. unfold kill_slot. simpl. by case_bool_decide.
  - intros _ _ p Hs. unfold notify. by rewrite bool_decide_eq_false_2 by congruence.
Qed.

(** * The position of a processor *)

(** How many dispatches of a processor at position [r] can come before slot [i]. *)
Definition distance (r i : nat) : nat := if bool_decide (r ≤ i)%nat then (i - r)%nat else (i + 1 + (NPROC - r))%nat.

Lemma next_runnable_None n l : next_runnable n (drop n l) = None → ∀ j q, (n ≤ j)%nat → l !! j = Some q → state q ≠ RUNNABLE.
Proof.
  remember (drop n l) as k eqn:Ek. revert n Ek. induction k as [|p k IH]; intros n Ek E j q Hj Hq.
  - assert (length l ≤ n)%nat by (apply (f_equal length) in Ek; rewrite length_drop in Ek; simpl in Ek; lia).
    apply lookup_lt_Some in Hq. lia.
  - assert (l !! n = Some p) as Hn by (by rewrite <- (Nat.add_0_r n), <- lookup_drop, <- Ek). simpl in E. case_bool_decide as Hs; [done|].
    destruct (decide (j = n)) as [->|]; [congruence|]. eapply (IH (S n)); [|done| |done]; [|lia].
    by rewrite <- Nat.add_1_r, <- drop_drop, <- Ek.
Qed.

(** A dispatch takes the process of slot [i] or comes closer to it. *)
Lemma scheduler_rr_closer c s s' x i p :
  table_inv s → cpus s !! c = Some x → (rr_next x ≤ NPROC)%nat → ptable s !! i = Some p → state p = RUNNABLE →
  scheduler_rr c s = Some s' →
  myproc c s' = Some i ∨
  (∃ p', ptable s' !! i = Some p' ∧ state p' = RUNNABLE) ∧
  ∃ x', cpus s' !! c = Some x' ∧ (rr_next x' ≤ NPROC)%nat ∧ (distance (rr_next x') i < distance (rr_next x) i)%nat.
Proof.
  intros I Hx Hr Hp Hs E. unfold scheduler_rr in E. rewrite Hx in E. simpl in E. pose proof (lookup_lt_Some _ _ _ Hp) as Hi. rewrite (t_len _ I) in Hi.
  destruct (next_runnable _ _) as [j|] eqn:En.
  - apply next_runnable_drop in En as (q&Hq&Sq&Hle&Hb). destruct (switchuvm _ _) as [s2|] eqn:E2; simpl in E; [|done].
    apply switchuvm_some in E2 as [-> _]. injection E as <-. pose proof (lookup_lt_Some _ _ _ Hq) as Hj. rewrite (t_len _ I) in Hj.
    assert (∀ y, cpus (upd j y (set_cpu c (λ _, mk_cpu (Some j) (S j)) s)) !! c = Some (mk_cpu (Some j) (S j))) as Hc.
    { intros y. unfold set_cpu. simpl. by rewrite list_lookup_alter_eq, Hx. }
    destruct (decide (j = i)) as [->|Hne]; [left; unfold myproc; by rewrite Hc|right].
    split; [exists p; simpl; by rewrite list_lookup_alter_ne|]. eexists. split; [apply Hc|]. simpl. split; [unfold NPROC in *; lia|].
    assert (¬ (rr_next x ≤ i < j)%nat) as Hno by (intros Hlt; exact (Hb i p Hlt Hp Hs)).
    unfold distance, NPROC in *. repeat case_bool_decide; lia.
  - injection E as <-. right. split; [by exists p|]. eexists. unfold set_cpu. simpl. rewrite list_lookup_alter_eq, Hx. split; [done|]. simpl.
    split; [lia|]. assert (¬ (rr_next x ≤ i)%nat) as Hno by (intros Hle; by eapply (next_runnable_None _ _ En i p)).
    unfold distance, NPROC in *. repeat case_bool_decide; lia.
Qed.

(** The position of another processor does not move. *)
Lemma scheduler_rr_other c d s s' i p :
  d ≠ c → ptable s !! i = Some p → state p = RUNNABLE → scheduler_rr c s = Some s' →
  cpus s' !! d = cpus s !! d ∧ (myproc c s' = Some i ∨ ∃ p', ptable s' !! i = Some p' ∧ state p' = RUNNABLE).
Proof.
  intros Hd Hp Hs E. unfold scheduler_rr in E. destruct (cpus s !! c) as [x|] eqn:Hx; simpl in E; [|done].
  destruct (next_runnable _ _) as [j|].
  - destruct (switchuvm _ _) as [s2|] eqn:E2; simpl in E; [|done]. apply switchuvm_some in E2 as [-> _]. injection E as <-.
    split; [simpl; by rewrite list_lookup_alter_ne|]. destruct (decide (j = i)) as [->|Hne].
    + left. unfold myproc, set_cpu. simpl. by rewrite list_lookup_alter_eq, Hx.
    + right. exists p. simpl. by rewrite list_lookup_alter_ne.
  - injection E as <-. split; [simpl; by rewrite list_lookup_alter_ne|]. right. by exists p.
Qed.

(** The dispatches of processor [c] in a list of events. *)
Definition is_schedule (e : event) : bool := match e with E_schedule => true | _ => false end.
Definition dispatches (c : nat) (l : list (nat * event)) : nat :=
  length (filter (λ x, x.1 = c ∧ is_schedule x.2 = true) l).

(** In the course of [l] some processor starts to run the process of slot [i]. *)
Definition dispatched (i : nat) (l : list (nat * event)) (s : kernel) : Prop :=
  ∃ l1 d l2 s1 s2, l = l1 ++ (d, E_schedule) :: l2 ∧ run false l1 s = Some s1 ∧ scheduler false d s1 = Some s2 ∧ myproc d s2 = Some i.

Lemma dispatched_cons i c e l s s1 :
  enabled c e s && bool_decide (services_ok e s) = true → handle false c e s = Some s1 → dispatched i l s1 → dispatched i ((c, e) :: l) s.
Proof.
  intros Ho E (l1&d&l2&s2&s3&->&E1&E2&E3). exists ((c, e) :: l1), d, l2, s2, s3. split_and!; try done. simpl. by rewrite Ho, E.
Qed.

Lemma rr_bound ncpu l s s' c x i p :
  reachable false ncpu s → cpus s !! c = Some x → (rr_next x ≤ NPROC)%nat → ptable s !! i = Some p → state p = RUNNABLE →
  run false l s = Some s' → dispatched i l s ∨ (dispatches c l ≤ distance (rr_next x) i)%nat.
Proof.
  revert s x p. induction l as [|[d e] l IH]; intros s x p R Hx Hr Hp Hs E; [right; unfold dispatches; simpl; lia|].
  simpl in E. destruct (_ && _) eqn:Ho; [|done]. destruct (handle _ _ _ _) as [s1|] eqn:E1; simpl in E; [|done].
  pose proof (run_step_reachable _ _ _ _ _ _ R Ho E1) as R1. pose proof (reachable_kinv _ _ _ R) as K.
  assert (e = E_schedule ∨ e ≠ E_schedule) as [-> |Hne] by (destruct e; auto).
  - simpl in E1. change (scheduler false d s) with (scheduler_rr d s) in E1. destruct (decide (d = c)) as [->|Hd].
    + destruct (scheduler_rr_closer c s s1 x i p (k_table _ K) Hx Hr Hp Hs E1) as [Hm|((p'&Hp'&Hs')&x'&Hx'&Hr'&Hlt)].
      { left. exists [], c, l, s, s1. split_and!; done. }
      destruct (IH s1 x' p' R1 Hx' Hr' Hp' Hs' E) as [Hd|Hle]; [left; by eapply dispatched_cons|right].
      unfold dispatches in *. rewrite filter_cons_True by done. simpl. lia.
    + destruct (scheduler_rr_other d c s s1 i p) as [Hx' [Hm|(p'&Hp'&Hs')]]; [done..| |].
      { left. exists [], d, l, s, s1. split_and!; done. }
      rewrite Hx in Hx'. destruct (IH s1 x p' R1 Hx' Hr Hp' Hs' E) as [Hd'|Hle]; [left; by eapply dispatched_cons|right].
      unfold dispatches in *. rewrite filter_cons_False by (by intros []). done.
  - apply andb_true_iff in Ho as Ho'. destruct (handle_runnable _ _ _ _ _ K (proj1 Ho') E1 Hne) as [H1 H2].
    destruct (H1 i p Hp Hs) as (p'&Hp'&Hs'). specialize (H2 c). rewrite Hx in H2. destruct (cpus s1 !! c) as [x'|] eqn:Hx'; [|done].
    injection H2 as H2. destruct (IH s1 x' p' R1 Hx' ltac:(by rewrite H2) Hp' Hs' E) as [Hd|Hle]; [left; by eapply dispatched_cons|right].
    unfold dispatches in *. rewrite filter_cons_False by (by destruct e; intros []). by rewrite <- H2.
Qed.

(** Positions stay inside the table. *)
Lemma position_bound ncpu s : reachable false ncpu s → ∀ c x, cpus s !! c = Some x → (rr_next x ≤ NPROC)%nat.
Proof.
  induction 1 as [stack pd root s E|c e s s' R IH He Hs E]; intros d x Hx.
  - destruct (userinit_cases _ _ _ _ _ E) as (_&_&_&_&_&_&Ec&_). rewrite Ec in Hx. apply lookup_replicate in Hx as [-> _]. simpl. lia.
  - pose proof (reachable_kinv _ _ _ R) as K. assert (e = E_schedule ∨ e ≠ E_schedule) as [-> |Hne] by (destruct e; auto).
    + simpl in E. unfold scheduler_rr in E. destruct (cpus s !! c) as [y|] eqn:Hy; simpl in E; [|done].
      destruct (next_runnable _ _) as [j|] eqn:En.
      * apply next_runnable_drop in En as (q&Hq&_). apply lookup_lt_Some in Hq. rewrite (t_len _ (k_table _ K)) in Hq.
        destruct (switchuvm _ _) as [s2|] eqn:E2; simpl in E; [|done]. apply switchuvm_some in E2 as [-> _]. injection E as <-.
        simpl in Hx. rewrite list_lookup_alter in Hx. case_decide; [subst; rewrite Hy in Hx; injection Hx as <-; simpl; lia|by eapply IH].
      * injection E as <-. simpl in Hx. rewrite list_lookup_alter in Hx. case_decide; [subst; rewrite Hy in Hx; injection Hx as <-; simpl; lia|by eapply IH].
    + destruct (handle_runnable _ _ _ _ _ K He E Hne) as [_ H2]. specialize (H2 d). rewrite Hx in H2. destruct (cpus s !! d) as [y|] eqn:Hy; [|done].
      injection H2 as ->. by eapply IH.
Qed.

Lemma distance_bound r i : (i < NPROC → r ≤ NPROC → distance r i ≤ NPROC)%nat.
Proof. unfold distance, NPROC. case_bool_decide; lia. Qed.

(** How long [sleep] takes: a process that sleeps for clock ticks is woken by the
    clock alone. *)

(** The process sleeps in [sys_sleep] with a count of [k]. *)
Definition asleep (k : Z) (p : proc) : Prop := state p = SLEEPING ∧ chan p = Some ch_ticks ∧ sleepticks p = k.

Lemma asleep_waits k p : asleep k p → state p = RUNNABLE ∨ state p = SLEEPING.
Proof. intros (?&_). auto. Qed.
Lemma asleep_wake k ch p : ch ≠ Some ch_ticks → asleep k p → asleep k (wake ch p).
Proof.
  intros Hch (H1&H2&H3). unfold wake. rewrite H1, H2. rewrite bool_decide_eq_true_2, bool_decide_eq_false_2 by congruence. done.
Qed.
Lemma asleep_parent k x p : asleep k p → asleep k (set_parent x p).
Proof. done. Qed.

Lemma notify_asleep k p : 0 < k < 2147483648 → asleep k p → asleep (k - 1) (notify p).
Proof.
  intros Hk (H1&H2&H3). unfold notify. rewrite H1, H2, H3, !bool_decide_eq_true_2, bool_decide_eq_false_2 by (done || lia). simpl.
  split_and!; [done|done|]. simpl. apply s32_id. lia.
Qed.
Lemma notify_wakes p : asleep 0 p → state (notify p) = RUNNABLE.
Proof. intros (H1&H2&H3). unfold notify. by rewrite H1, H2, H3, !bool_decide_eq_true_2. Qed.

(** The scheduler leaves sleepers alone. *)
Lemma scheduler_asleep stcf c s s' k i p :
  scheduler stcf c s = Some s' → ptable s !! i = Some p → asleep k p → ∃ p', ptable s' !! i = Some p' ∧ asleep k p'.
Proof.
  intros E Hp Ha. destruct stcf; simpl in E.
  - unfold scheduler_stcf in E. destruct (stcf_pick s) as [best|] eqn:Eb; [|simplify_eq; eauto]. fold (clear_skip best s) in E.
    apply stcf_pick_runnable in Eb as (q&Hq&Sq). destruct (switchuvm _ _) as [s2|] eqn:E2; simpl in E; [|done].
    apply switchuvm_some in E2 as [-> _]. injection E as <-. assert (best ≠ i) as Hne by (intros ->; destruct Ha; congruence).
    simpl. rewrite list_lookup_alter_ne by done. unfold clear_skip. destruct (skip_target s) as [t|]; [|eauto]. case_bool_decide; [|eauto].
    simpl. rewrite list_lookup_alter. case_decide; [subst|eauto]. rewrite Hp. simpl. eauto.
  - unfold scheduler_rr in E. destruct (cpus s !! c) as [x|]; simpl in E; [|done]. destruct (next_runnable _ _) as [j|] eqn:En; [|simplify_eq; eauto].
    apply next_runnable_drop in En as (q&Hq&Sq&_). destruct (switchuvm _ _) as [s2|] eqn:E2; simpl in E; [|done].
    apply switchuvm_some in E2 as [-> _]. injection E as <-. assert (j ≠ i) as Hne by (intros ->; destruct Ha; congruence).
    simpl. rewrite list_lookup_alter_ne by done. eauto.
Qed.

(** A tick of the clock: a timer interrupt of processor 0. *)
Definition is_tick (x : nat * event) : bool := bool_decide (x.1 = 0%nat) && match x.2 with E_timer => true | _ => false end.
Definition clock_ticks (l : list (nat * event)) : Z := Z.of_nat (length (filter (λ x, is_tick x = true) l)).
Definition kills (x : nat * event) : bool := match x.2 with E_syscall k => is_kill k | _ => false end.

Lemma clock_ticks_cons x l : clock_ticks (x :: l) = (if is_tick x then 1 else 0) + clock_ticks l.
Proof.
  unfold clock_ticks. destruct (is_tick x) eqn:E; [rewrite filter_cons_True by done; simpl; lia|]. rewrite filter_cons_False by congruence. lia.
Qed.
Lemma clock_ticks_nonneg l : 0 ≤ clock_ticks l.
Proof. unfold clock_ticks. lia. Qed.

(** What a tick does to a slot whose process does not run. *)
Lemma tick_slot stcf s s' i p (Q : proc → Prop) :
  kinv s → enabled 0 E_timer s = true → handle stcf 0 E_timer s = Some s' → ptable s !! i = Some p → state p ≠ RUNNING → Q (notify p) →
  ∃ p', ptable s' !! i = Some p' ∧ Q p'.
Proof.
  intros K He E Hp Hs HQ. unfold enabled in He. destruct (cpus s !! 0%nat) as [x|] eqn:Hx; [|done].
  assert (myproc 0 s = cpu_proc x) as Hm by (unfold myproc; by rewrite Hx). unfold handle in E. rewrite Hm in E.
  assert (ptable (timer_tick 0 s) !! i = Some (notify p)) as Ht by (simpl; by rewrite list_lookup_fmap, Hp).
  destruct (cpu_proc x) as [j|]; [|injection E as <-; eauto]. destruct (runs_intro s 0 j K Hm) as (q&_&Hq&Hr).
  apply (st_run Q j _ _ (steady_timer Q stcf 0 j s s' E) i (notify p)); try done. intros ->. congruence.
Qed.

Lemma handle_asleep stcf c e s s' i p k :
  kinv s → enabled c e s = true → handle stcf c e s = Some s' → is_tick (c, e) = false → kills (c, e) = false →
  ptable s !! i = Some p → asleep k p → ∃ p', ptable s' !! i = Some p' ∧ asleep k p'.
Proof.
  intros K He E Ht Hk Hp Ha. assert (e = E_schedule ∨ e ≠ E_schedule) as [-> |Hne] by (destruct e; auto).
  - by eapply scheduler_asleep.
  - eapply (handle_steady (asleep k) (asleep_waits k) (asleep_wake k) (asleep_parent k) stcf c e s s'); try done.
    + intros k0 -> H0. unfold kills in Hk. simpl in Hk. congruence.
    + intros -> ->. done.
Qed.

Lemma run_asleep stcf ncpu l s s' i p k :
  reachable stcf ncpu s → run stcf l s = Some s' → forallb (negb ∘ kills) l = true →
  ptable s !! i = Some p → asleep k p → k < 2147483648 → clock_ticks l ≤ k →
  ∃ p', ptable s' !! i = Some p' ∧ asleep (k - clock_ticks l) p'.
Proof.
  revert s p k. induction l as [|[c e] l IH]; intros s p k R E Hk Hp Ha Hb Hl; simpl in E.
  - injection E as <-. exists p. change (clock_ticks []) with 0. by rewrite Z.sub_0_r.
  - simpl in Hk. apply andb_true_iff in Hk as [Hk1 Hk]. rewrite clock_ticks_cons in *. pose proof (clock_ticks_nonneg l).
    destruct (_ && _) eqn:Ho; [|done]. destruct (handle _ _ _ _) as [s1|] eqn:E1; simpl in E; [|done].
    pose proof (run_step_reachable _ _ _ _ _ _ R Ho E1) as R1. pose proof (reachable_kinv _ _ _ R) as K. apply andb_true_iff in Ho as [He _].
    destruct (is_tick (c, e)) eqn:Ht.
    + unfold is_tick in Ht. simpl in Ht. apply andb_true_iff in Ht as [->%bool_decide_eq_true Ht]. destruct e; try done.
      destruct (tick_slot stcf s s1 i p (asleep (k - 1))) as (p1&Hp1&Ha1); try done.
      * destruct Ha; congruence.
      * apply notify_asleep; [lia|done].
      * destruct (IH s1 p1 (k - 1) R1 E Hk Hp1 Ha1) as (p'&Hp'&Ha'); [lia|lia|]. exists p'. split; [done|].
        by replace (k - (1 + clock_ticks l)) with (k - 1 - clock_ticks l) by lia.
    + destruct (handle_asleep stcf c e s s1 i p k K He E1 Ht) as (p1&Hp1&Ha1); [by destruct (kills (c, e))|done|done|]. by eapply IH.
Qed.

(** Runs of the xv6 kernel on two processors, used as examples. *)

(** The kernel after [userinit] on two processors, and a run in which the first
    process forks and waits for its child. *)
Definition booted : kernel := default (pinit 2) (userinit 4096 8192 1 (pinit 2)).
Definition fork_run : list (nat * event) :=
  [(0%nat, E_schedule); (0%nat, E_continue 1); (0%nat, E_syscall (S_fork 12288)); (0%nat, E_continue 16384); (0%nat, E_continue 1)].
Definition forked (stcf : bool) : kernel := default booted (run stcf fork_run booted).

Lemma booted_reachable stcf : reachable stcf 2 booted.
Proof. apply (reach_boot stcf 2 4096 8192 1). vm_compute. reflexivity. Qed.

Lemma run_from_boot stcf l s : run stcf l booted = Some s → reachable stcf 2 s.
Proof. intros E. eapply run_reachable; [apply booted_reachable|exact E]. Qed.

Lemma forked_reachable stcf : reachable stcf 2 (forked stcf).
Proof. apply (run_from_boot stcf fork_run). destruct stcf; vm_compute; reflexivity. Qed.

(** The child of [fork_run] runs. *)
Definition child_run : list (nat * event) := fork_run ++ [(0%nat, E_schedule); (0%nat, E_continue 1)].
Definition child_runs : kernel := default booted (run true child_run booted).

Lemma child_reachable : reachable true 2 child_runs.
Proof. apply (run_from_boot true child_run). vm_compute. reflexivity. Qed.
