(* ===== verification/XvTheorems.v ===== *)
(** What the process management of the xv6 kernel guarantees. *)

From stdpp Require Import base option list numbers gmap.
From coqutil Require Import Datatypes.RecordSettersUsingExistingGetters.
From Stdlib Require Import ZArith Lia.
From S2P Require Import Prelude Counting XvProc XvInv XvLife XvReach XvVm XvFiles XvPanic XvFair.
Local Open Scope Z_scope.

(** * The process table *)

(** C6: In every reachable state the processes have different numbers; a process
    is RUNNING exactly when a processor runs it, and then only one does; every
    process other than the first one has a parent that lives; and no process
    sleeps in [wait] while a child of it is a zombie. *)
Theorem process_table_invariant stcf ncpu s :
  reachable stcf ncpu s →
  (∀ i j p q, ptable s !! i = Some p → ptable s !! j = Some q → state p ≠ UNUSED → state q ≠ UNUSED → pid p = pid q → i = j) ∧
  (∀ i p, ptable s !! i = Some p → state p = RUNNING ↔ ∃ c, myproc c s = Some i) ∧
  (∀ c d i, myproc c s = Some i → myproc d s = Some i → c = d) ∧
  (∀ i p, ptable s !! i = Some p → used p → initproc s ≠ Some i →
     ∃ j q, parent p = Some j ∧ ptable s !! j = Some q ∧ live q) ∧
  (∀ i p j q, ptable s !! i = Some p → state p = SLEEPING → kctx p = K_woken K_wait →
     ptable s !! j = Some q → parent q = Some i → state q ≠ ZOMBIE).
Proof.
  intros R. destruct (reachable_kinv _ _ _ R) as [[] _ C]. split_and!; try done.
  - intros i p Hp. split.
    + intros Hs. apply (c_cpu _ C). by exists p.
    + intros [c Hc]. destruct (c_run _ C c i Hc) as (q&Hq&Hs). congruence.
  - apply (c_one _ C).
  - intros i p j q Hp Hs Hk. by apply (t_wait i p).
Qed.
Lemma process_table_invariant_witness :
  (∀ c d i, myproc c (forked true) = Some i → myproc d (forked true) = Some i → c = d) ∧
  pid <$> ptable (forked true) !! 1%nat = Some 2.
Proof.
  split; [|vm_compute; reflexivity].
  destruct (process_table_invariant true 2 (forked true) (forked_reachable true)) as (_&_&H&_). exact H.
Defined.


(** * Resources *)



(** The first process opens a file, duplicates the descriptor and forks. *)
Definition files_run : list (nat * event) :=
  [(0%nat, E_schedule); (0%nat, E_continue 1); (0%nat, E_syscall (S_open 7 2)); (0%nat, E_continue 1);
   (0%nat, E_syscall (S_dup (Some 0))); (0%nat, E_continue 1); (0%nat, E_syscall (S_fork 12288)); (0%nat, E_continue 16384)].
Definition with_files : kernel := default booted (run true files_run booted).



(** * Scheduling *)

(** C12: The round-robin scheduler starves nobody: a process that is RUNNABLE is
    dispatched, by some processor, before any one processor has passed through
    its scheduler [NPROC + 1] times more, whatever else happens meanwhile. *)
Theorem rr_dispatches ncpu s l s' c i p :
  reachable false ncpu s → ptable s !! i = Some p → state p = RUNNABLE →
  run false l s = Some s' → (NPROC < dispatches c l)%nat → is_Some (cpus s !! c) → dispatched i l s.
Proof.
  intros R Hp Hs E Hn [x Hx]. pose proof (position_bound _ _ R c x Hx) as Hr.
  destruct (rr_bound ncpu l s s' c x i p R Hx Hr Hp Hs E) as [Hd|Hle]; [done|].
  assert (i < NPROC)%nat as Hi by (rewrite <- (t_len _ (k_table _ (reachable_kinv _ _ _ R))); by eapply lookup_lt_Some).
  pose proof (distance_bound (rr_next x) i Hi Hr). lia.
Qed.

(** Processor 0 alone: the parent and the child take turns. *)
Definition turns : list (nat * event) :=
  [(0%nat, E_schedule); (0%nat, E_continue 1); (0%nat, E_timer); (0%nat, E_schedule); (0%nat, E_schedule); (0%nat, E_continue 1);
   (0%nat, E_timer)].
Definition many_turns : list (nat * event) := mjoin (replicate 40 turns).

Lemma rr_dispatches_witness : dispatched 0 many_turns (forked false) ∧ state <$> ptable (forked false) !! 0%nat = Some RUNNABLE.
Proof.
  split; [|vm_compute; reflexivity].
  assert (∃ s', run false many_turns (forked false) = Some s') as [s' E] by (eexists; vm_compute; reflexivity).
  assert (∃ p, ptable (forked false) !! 0%nat = Some p ∧ state p = RUNNABLE) as (p&Hp&Hs) by (eexists; split; vm_compute; reflexivity).
  apply (rr_dispatches 2 (forked false) many_turns s' 0 0 p (forked_reachable false) Hp Hs E).
  - apply Nat.ltb_lt. vm_compute. reflexivity.
  - eexists. vm_compute. reflexivity.
Defined.

(** The processes the STCF scheduler chooses from: those that no [give_cpu] asks
    to pass over, or all runnable ones when there are no others. *)
Definition candidate (s : kernel) (j : nat) (q : proc) : Prop :=
  considered (pass1 (skip_target s)) (ptable s) j q ∨
  (∀ k r, ¬ considered (pass1 (skip_target s)) (ptable s) k r) ∧ considered everyone (ptable s) j q.

Lemma scheduler_stcf_state c s s' i x :
  scheduler_stcf c s = Some s' → cpus s !! c = Some x → stcf_pick s = Some i →
  myproc c s' = Some i ∧ skip_target s' = (if bool_decide (skip_target s = Some i) then Some i else None) ∧
  (∀ j, j ≠ i → ptable s' !! j = ptable (clear_skip i s) !! j) ∧
  ptable s' !! i = (λ p, { p with state := RUNNING; t_last_scheduled := s32 (ticks s) }) <$> ptable s !! i.
Proof.
  intros E Hx Hi. unfold scheduler_stcf in E. rewrite Hi in E. fold (clear_skip i s) in E.
  destruct (switchuvm _ _) as [s2|] eqn:E2; simpl in E; [|done]. apply switchuvm_some in E2 as [-> _]. injection E as <-. split_and!.
  - unfold myproc. simpl. by rewrite clear_skip_cpus, list_lookup_alter_eq, Hx.
  - simpl. unfold clear_skip. destruct (skip_target s) as [t|] eqn:Et; [|done]. case_bool_decide; simpl; rewrite ?Et; repeat case_bool_decide; congruence.
  - intros j Hj. simpl. by rewrite list_lookup_alter_ne.
  - simpl. rewrite list_lookup_alter_eq, clear_skip_best. destruct (ptable s !! i); simpl; [|done]. do 2 f_equal.
    unfold ticks_now, clear_skip. simpl. destruct (skip_target s); [case_bool_decide|]; done.
Qed.

(** C10: The STCF scheduler of an idle processor runs a candidate with the least
    remaining time, and among those the one with the highest process number; it
    records the tick count at which the process starts.  It stays idle only
    when no process is RUNNABLE. *)
Theorem stcf_dispatches_least ncpu s c :
  reachable true ncpu s → enabled c E_schedule s = true →
  ∃ s', handle true c E_schedule s = Some s' ∧
  match myproc c s' with
  | None => s' = s ∧ ∀ j q, ptable s !! j = Some q → state q ≠ RUNNABLE
  | Some i => ∃ p, candidate s i p ∧
      ptable s' !! i = Some ({ p with state := RUNNING; t_last_scheduled := s32 (ticks s) }) ∧
      ∀ j q, candidate s j q → t_remain p < t_remain q ∨ t_remain p = t_remain q ∧ pid q ≤ pid p
  end.
Proof.
  intros R He. pose proof (reachable_kinv _ _ _ R) as K. unfold enabled in He. destruct (cpus s !! c) as [x|] eqn:Hx; [|done].
  destruct (cpu_proc x) eqn:Hc; [done|]. destruct (scheduler_runs true c s K) as [s' E]; [by rewrite Hx|]. exists s'. split; [done|].
  simpl in E. pose proof (stcf_pick_spec s) as H. destruct (stcf_pick s) as [i|] eqn:Ei.
  - destruct (scheduler_stcf_state c s s' i x E Hx Ei) as (->&_&_&Ht). destruct H as (p&H). exists p.
    assert (ptable s !! i = Some p) as Hp by (by destruct H as [[[? _] _]|[_ [[? _] _]]]). split_and!; [|by rewrite Ht, Hp|].
    + destruct H as [[H _]|[Hn [H _]]]; [by left|by right].
    + intros j q Hq. apply better_false. destruct H as [[Hi H]|[Hn [_ H]]], Hq as [Hq|[Hn' Hq]]; eauto.
      * by destruct (Hn' i p).
      * by destruct (Hn j q).
  - unfold scheduler_stcf in E. rewrite Ei in E. injection E as <-. unfold myproc. rewrite Hx. simpl. rewrite Hc. done.
Qed.
Lemma stcf_dispatches_least_witness :
  ∃ s', handle true 1 E_schedule (forked true) = Some s' ∧ myproc 1 s' = Some 1%nat.
Proof.
  destruct (stcf_dispatches_least 2 (forked true) 1 (forked_reachable true)) as (s'&E&_); [vm_compute; reflexivity|].
  exists s'. split; [exact E|]. vm_compute in E. injection E as <-. reflexivity.
Defined.

(** The kernel when the running process [i] has asked to be passed over and is
    back in the scheduler. *)
Definition gave_cpu (c i : nat) (s : kernel) : kernel :=
  yield c i (K_ret 0) (upd i (λ p, { p with skip_once := true; kctx := K_yield (K_ret 0) }) { s with skip_target := Some i }).

Lemma gave_cpu_slot c i s p :
  ptable s !! i = Some p → ∃ p', ptable (gave_cpu c i s) !! i = Some p' ∧ state p' = RUNNABLE ∧ skip_once p' = true.
Proof.
  intros Hp. unfold gave_cpu, yield. simpl. rewrite !list_lookup_alter_eq, Hp. simpl. eexists. split; [done|].
  split; [done|]. unfold stcf_account_before_switch. simpl. by case_bool_decide.
Qed.

Lemma gave_cpu_picks c i s j q :
  ptable s !! j = Some q → j ≠ i → state q = RUNNABLE → skip_once q = false → ∃ k, stcf_pick (gave_cpu c i s) = Some k ∧ k ≠ i.
Proof.
  intros Hq Hj Sq Kq. assert (considered (pass1 (Some i)) (ptable (gave_cpu c i s)) j q) as Hc.
  { split_and!; [unfold gave_cpu, yield; simpl; by rewrite !list_lookup_alter_ne|done|].
    unfold pass1. rewrite Kq, bool_decide_eq_false_2 by congruence. done. }
  pose proof (stcf_pick_spec (gave_cpu c i s)) as H. change (skip_target (gave_cpu c i s)) with (Some i) in H.
  destruct (stcf_pick (gave_cpu c i s)) as [k|]; [|by destruct (H j q (proj1 Hc))].
  destruct H as (r&[[(_&_&Hk) _]|[Hn _]]); [|by destruct (Hn j q)]. exists k. split; [done|]. intros ->.
  unfold pass1 in Hk. rewrite bool_decide_eq_true_2, andb_false_r in Hk by done. done.
Qed.

Lemma clear_skip_target best s t :
  skip_target s = Some t → best ≠ t → ptable (clear_skip best s) !! t = (λ p, { p with skip_once := false }) <$> ptable s !! t.
Proof. intros Et Hne. unfold clear_skip. rewrite Et, bool_decide_eq_true_2 by done. simpl. by rewrite list_lookup_alter_eq. Qed.

(** The first two steps of the caller. *)
Lemma gave_cpu_run c i s p pd l :
  myproc c s = Some i → ptable s !! i = Some p → kctx p = K_user → killed p = false → pd ∉ vms s →
  run true ((c, E_syscall S_give_cpu) :: (c, E_continue pd) :: l) s = run true l (gave_cpu c i s).
Proof.
  intros Hm Hp Hk Hkl Hpd. assert (∃ cx, cpus s !! c = Some cx ∧ cpu_proc cx = Some i) as (cx&Hx&Hxi).
  { unfold myproc in Hm. destruct (cpus s !! c); [eauto|done]. }
  set (s1 := upd i (λ p, { p with skip_once := true; kctx := K_yield (K_ret 0) }) { s with skip_target := Some i }).
  assert (ptable s1 !! i = Some { p with skip_once := true; kctx := K_yield (K_ret 0) }) as Hp1 by (simpl; by rewrite list_lookup_alter_eq, Hp).
  assert (enabled c (E_syscall S_give_cpu) s && bool_decide (services_ok (E_syscall S_give_cpu) s) = true) as H1.
  { unfold enabled. rewrite Hx, Hxi, Hp. simpl. by rewrite Hk. }
  assert (handle true c (E_syscall S_give_cpu) s = Some s1) as E1 by (simpl; rewrite Hm, Hp; simpl; by rewrite Hkl).
  assert (enabled c (E_continue pd) s1 && bool_decide (services_ok (E_continue pd) s1) = true) as H2.
  { unfold enabled. change (cpus s1) with (cpus s). rewrite Hx, Hxi, Hp1. simpl. by rewrite bool_decide_eq_true_2. }
  assert (handle true c (E_continue pd) s1 = Some (gave_cpu c i s)) as E2.
  { simpl. change (myproc c s1) with (myproc c s). rewrite Hm. unfold continue. by rewrite Hp1. }
  cbn [run]. rewrite H1, E1. cbn [mbind option_bind]. rewrite H2, E2. done.
Qed.

(** A process that calls [give_cpu] while another process is RUNNABLE that
    has no pending request of its own is not the one its processor runs next:
    the processor switches to another process, the caller stays RUNNABLE, and
    its request is used up. *)
Theorem give_cpu_passes ncpu s c i p j q pd :
  reachable true ncpu s → myproc c s = Some i → ptable s !! i = Some p → kctx p = K_user → killed p = false → pd ∉ vms s →
  ptable s !! j = Some q → j ≠ i → state q = RUNNABLE → skip_once q = false →
  ∃ s' k p', run true [(c, E_syscall S_give_cpu); (c, E_continue pd); (c, E_schedule)] s = Some s' ∧
    k ≠ i ∧ myproc c s' = Some k ∧ ptable s' !! i = Some p' ∧ state p' = RUNNABLE ∧ skip_once p' = false ∧ skip_target s' = None.
Proof.
  intros R Hm Hp Hk Hkl Hpd Hq Hj Sq Kq. assert (run true [(c, E_syscall S_give_cpu); (c, E_continue pd)] s = Some (gave_cpu c i s)) as E2.
  { by rewrite (gave_cpu_run c i s p). }
  pose proof (run_reachable _ _ _ _ _ R E2) as R2. destruct (cpus s !! c) as [cx|] eqn:Hx; [|unfold myproc in Hm; by rewrite Hx in Hm].
  assert (cpus (gave_cpu c i s) !! c = Some (mk_cpu None (rr_next cx))) as Hx2 by (simpl; by rewrite list_lookup_alter_eq, Hx).
  destruct (scheduler_runs true c (gave_cpu c i s)) as [s3 E3]; [by eapply reachable_kinv|by rewrite Hx2|].
  destruct (gave_cpu_picks c i s j q Hq Hj Sq Kq) as (k&Ek&Hki). destruct (gave_cpu_slot c i s p Hp) as (p'&Hp'&Sp'&_).
  destruct (scheduler_stcf_state c (gave_cpu c i s) s3 k _ E3 Hx2 Ek) as (Hm3&Hst&Hoth&_).
  exists s3, k, ({ p' with skip_once := false }). split_and!; try done.
  - rewrite (gave_cpu_run c i s p) by done. cbn [run]. unfold enabled. rewrite Hx2. cbn [cpu_proc]. cbn [handle]. rewrite E3. done.
  - rewrite Hoth by congruence. by rewrite (clear_skip_target k (gave_cpu c i s) i), Hp'.
  - rewrite Hst. change (skip_target (gave_cpu c i s)) with (Some i). by rewrite bool_decide_eq_false_2 by congruence.
Qed.
Lemma give_cpu_passes_witness :
  ∃ s', run true [(0%nat, E_syscall S_give_cpu); (0%nat, E_continue 3); (0%nat, E_schedule)] child_runs = Some s' ∧ myproc 0 s' = Some 0%nat.
Proof.
  pose proof child_reachable as R.
  assert (∃ p, ptable child_runs !! 1%nat = Some p ∧ kctx p = K_user ∧ killed p = false) as (p&Hp&Hk&Hkl) by (eexists; split_and!; vm_compute; reflexivity).
  assert (∃ q, ptable child_runs !! 0%nat = Some q ∧ state q = RUNNABLE ∧ skip_once q = false) as (q&Hq&Sq&Kq) by (eexists; split_and!; vm_compute; reflexivity).
  assert (myproc 0 child_runs = Some 1%nat) as Hm by (vm_compute; reflexivity).
  assert (3 ∉ vms child_runs) as Hv by (apply (bool_decide_eq_false (3 ∈ vms child_runs)); vm_compute; reflexivity).
  assert (0 ≠ 1)%nat as Hne by discriminate.
  destruct (give_cpu_passes 2 child_runs 0 1 p 0 q 3 R Hm Hp Hk Hkl Hv Hq Hne Sq Kq) as (s'&k&_&E&_).
  exists s'. split; [exact E|]. vm_compute in E. injection E as <-. reflexivity.
Defined.
