(* ===== verification/XvCalls.v ===== *)
(** What [sleep], [wait], [kill] and the timer do to processes, in every
    reachable state of the xv6 kernel. *)

From stdpp Require Import base option list numbers gmap.
From coqutil Require Import Datatypes.RecordSettersUsingExistingGetters.
From Stdlib Require Import ZArith Lia.
From S2P Require Import Prelude Counting XvProc XvInv XvLife XvReach XvVm XvFiles XvPanic XvFair.
Local Open Scope Z_scope.

(** * sleep *)

Lemma account_sleepticks now p : sleepticks (stcf_account_before_switch now p) = sleepticks p.
Proof. unfold stcf_account_before_switch. by case_bool_decide. Qed.
Lemma account_chan now p : chan (stcf_account_before_switch now p) = chan p.
Proof. unfold stcf_account_before_switch. by case_bool_decide. Qed.

(** The state after the call: the process sleeps with a count of [n]. *)
Lemma sys_sleep_asleep c i s p n s1 :
  ptable s !! i = Some p → killed p = false → 0 < n < 2147483648 → sys_sleep c i (Some n) s = Some s1 →
  ∃ p1, ptable s1 !! i = Some p1 ∧ asleep n p1.
Proof.
  intros Hp Hk Hn E. unfold sys_sleep in E. rewrite bool_decide_eq_false_2 in E by lia. unfold sleep_loop in E. simpl in E.
  rewrite list_lookup_alter_eq, Hp in E. simpl in E. rewrite Z.sub_diag, (u32_id 0), (u32_id n), bool_decide_eq_true_2, Hk in E by lia.
  injection E as <-. simpl. rewrite !list_lookup_alter_eq, Hp. simpl. eexists. split; [done|].
  split_and!; [done| |]; simpl; [by rewrite account_chan|by rewrite account_sleepticks].
Qed.

(** A process that calls [sleep(n)] is woken by the clock at the tick number
    [n + 1] after the call and not before: through any run of the kernel with at
    most [n] ticks it stays SLEEPING, and the next tick makes it RUNNABLE, as
    long as no process calls [kill] meanwhile. *)
Theorem sleep_wakes_on_tick stcf ncpu s c i p n s1 l s2 :
  reachable stcf ncpu s → myproc c s = Some i → ptable s !! i = Some p → kctx p = K_user → killed p = false → 0 < n < 2147483648 →
  handle stcf c (E_syscall (S_sleep (Some n))) s = Some s1 →
  run stcf l s1 = Some s2 → forallb (negb ∘ kills) l = true → clock_ticks l ≤ n →
  (state <$> ptable s2 !! i = Some SLEEPING) ∧
  (∀ s3, clock_ticks l = n → enabled 0 E_timer s2 = true → handle stcf 0 E_timer s2 = Some s3 →
     state <$> ptable s3 !! i = Some RUNNABLE).
Proof.
  intros R Hm Hp Hk Hkl Hn E1 E2 Hno Hl. simpl in E1. rewrite Hm, Hp in E1. simpl in E1. rewrite Hkl in E1.
  assert (reachable stcf ncpu s1) as R1.
  { assert (∃ y, cpus s !! c = Some y ∧ cpu_proc y = Some i) as (y&Hy&Hyi) by (unfold myproc in Hm; destruct (cpus s !! c); [eauto|done]).
    apply (reach_event stcf ncpu c (E_syscall (S_sleep (Some n))) s); [done| |done|simpl; by rewrite Hm, Hp; simpl; rewrite Hkl].
    unfold enabled. rewrite Hy, Hyi, Hp. simpl. by rewrite Hk. }
  destruct (sys_sleep_asleep c i s p n s1 Hp Hkl Hn E1) as (p1&Hp1&Ha1).
  destruct (run_asleep stcf ncpu l s1 s2 i p1 n R1 E2 Hno Hp1 Ha1) as (p2&Hp2&Ha2); [lia|done|].
  split; [rewrite Hp2; simpl; f_equal; apply Ha2|]. intros s3 Ht He E3. rewrite Ht, Z.sub_diag in Ha2.
  pose proof (reachable_kinv _ _ _ (run_reachable _ _ _ _ _ R1 E2)) as K2.
  destruct (tick_slot stcf s2 s3 i p2 runnable) as (p3&Hp3&Hr); try done; [destruct Ha2; congruence|by apply notify_wakes|].
  rewrite Hp3. simpl. by rewrite Hr.
Qed.

(** The child of the example sleeps for two ticks. *)
Definition two_ticks : list (nat * event) := [(0%nat, E_timer); (1%nat, E_timer); (0%nat, E_timer)].
Definition slept : kernel := default booted (handle true 0 (E_syscall (S_sleep (Some 2))) child_runs).
Definition slept2 : kernel := default booted (run true two_ticks slept).
Definition slept3 : kernel := default booted (handle true 0 E_timer slept2).

Lemma sleep_wakes_on_tick_witness :
  state <$> ptable slept2 !! 1%nat = Some SLEEPING ∧ state <$> ptable slept3 !! 1%nat = Some RUNNABLE.
Proof.
  assert (∃ p, ptable child_runs !! 1%nat = Some p ∧ kctx p = K_user ∧ killed p = false) as (p&Hp&Hk&Hkl) by (eexists; split_and!; vm_compute; reflexivity).
  assert (myproc 0 child_runs = Some 1%nat) as Hm by (vm_compute; reflexivity).
  assert (handle true 0 (E_syscall (S_sleep (Some 2))) child_runs = Some slept) as E1 by (vm_compute; reflexivity).
  assert (run true two_ticks slept = Some slept2) as E2 by (vm_compute; reflexivity).
  assert (handle true 0 E_timer slept2 = Some slept3) as E3 by (vm_compute; reflexivity).
  destruct (sleep_wakes_on_tick true 2 child_runs 0 1 p 2 slept two_ticks slept2 child_reachable Hm Hp Hk Hkl) as [H1 H2];
    [lia|exact E1|exact E2|reflexivity|vm_compute; discriminate|].
  split; [exact H1|]. apply H2; [vm_compute; reflexivity|vm_compute; reflexivity|exact E3].
Defined.

(** * wait *)


(** The child ends, and its parent runs. *)
Definition zombie_run : list (nat * event) :=
  child_run ++ [(0%nat, E_syscall S_exit); (0%nat, E_continue 1); (0%nat, E_schedule); (0%nat, E_continue 1)].
Definition zombie_child : kernel := default booted (run true zombie_run booted).


(** * kill *)

(** The end of [trap] and the start of [exit] leave user code behind. *)
Lemma exit_leaves i s s' : exit i s = Some s' → ∃ p', ptable s' !! i = Some p' ∧ kctx p' = K_exit.
Proof.
  unfold exit. destruct (ptable s !! i) as [p|] eqn:Hp; simpl; [|done]. case_bool_decide; [done|]. destruct (close_files _ _); simpl; [|done].
  intros [= <-]. simpl. rewrite list_lookup_alter_eq, Hp. simpl. eauto.
Qed.

(** The point at which process [i] is. *)
Definition point (i : nat) (s : kernel) : option kpoint := kctx <$> ptable s !! i.

Lemma point_exit i s s' : exit i s = Some s' → point i s' ≠ Some K_user.
Proof. intros E. destruct (exit_leaves _ _ _ E) as (p'&Hp'&Hk). unfold point. rewrite Hp'. simpl. congruence. Qed.

Lemma point_upd i f s : (∀ p, kctx (f p) ≠ K_user) → point i (upd i f s) ≠ Some K_user.
Proof. intros H. unfold point. simpl. rewrite list_lookup_alter_eq. destruct (ptable s !! i); simpl; [|done]. intros [= E]. by apply (H p). Qed.

Lemma point_sched c i s : point i (sched c s) = point i s.
Proof. done. Qed.
Lemma point_yield c i k s : k ≠ K_user → point i (yield c i k s) ≠ Some K_user.
Proof. intros H. unfold yield. rewrite point_sched. by apply point_upd. Qed.
Lemma point_sleep c i ch k s : point i (sleep c i ch k s) ≠ Some K_user.
Proof. unfold sleep. rewrite point_sched. by apply point_upd. Qed.

(** Waking and adopting processes does not move them. *)
Lemma points_upd i f s : (∀ p, kctx (f p) = kctx p) → kctx <$> ptable (upd i f s) = kctx <$> ptable s.
Proof.
  intros H. apply list_eq. intros j. simpl. rewrite !list_lookup_fmap, list_lookup_alter. case_decide; [|done]. subst.
  destruct (ptable s !! j); simpl; [|done]. by rewrite H.
Qed.
Lemma points_wakeup1 ch s : kctx <$> ptable (wakeup1 ch s) = kctx <$> ptable s.
Proof.
  apply list_eq. intros j. simpl. rewrite !list_lookup_fmap. destruct (ptable s !! j); simpl; [|done]. unfold wake. by case_match.
Qed.
Lemma points_reparent i s j : kctx <$> ptable (reparent i s j) = kctx <$> ptable s.
Proof.
  unfold reparent. destruct (ptable s !! j); [|done]. case_bool_decide; [|done]. cbn zeta. case_bool_decide; rewrite ?points_wakeup1; by apply points_upd.
Qed.
Lemma points_fold i s l : kctx <$> ptable (foldl (reparent i) s l) = kctx <$> ptable s.
Proof. revert s. induction l as [|j l IH]; intros s; [done|]. simpl. by rewrite IH, points_reparent. Qed.

Lemma point_keep i f s : (∀ p, kctx (f p) = kctx p) → point i (upd i f s) = point i s.
Proof. intros H. unfold point. by rewrite <- !list_lookup_fmap, points_upd. Qed.
Lemma point_others i ch s l : point i (foldl (reparent i) (wakeup1 ch s) l) = point i s.
Proof. unfold point. by rewrite <- !list_lookup_fmap, points_fold, points_wakeup1. Qed.
Lemma account_point now p : kctx (stcf_account_before_switch now p) = kctx p.
Proof. unfold stcf_account_before_switch. by case_bool_decide. Qed.

Lemma point_zombie c i p s s' :
  ptable s !! i = Some p → kctx p = K_exit → exit_zombie c i s = Some s' → point i s' ≠ Some K_user.
Proof.
  intros Hp Hk E. unfold exit_zombie in E. rewrite Hp in E. cbn [mbind option_bind] in E. apply (inj Some) in E. rewrite <- E. clear E s'.
  rewrite point_sched, point_keep by (intros q; apply account_point). rewrite point_others. unfold point. rewrite Hp. simpl. rewrite Hk. done.
Qed.

Lemma point_wait c i s s' : wait c i s = Some s' → point i s' ≠ Some K_user.
Proof.
  unfold wait. destruct (ptable s !! i) as [p|]; [|done]. cbn [mbind option_bind]. destruct (wait_scan _ _ _ _) as [b [k|]].
  - destruct (ptable s !! k); [|done]. cbn [mbind option_bind]. destruct (freevm _ _); simpl; [|done]. intros [= <-]. by apply point_upd.
  - destruct (negb b || killed p); intros [= <-]; [by apply point_upd|apply point_sleep].
Qed.

Lemma point_loop c i t0 n s s' : sleep_loop c i t0 n s = Some s' → point i s' ≠ Some K_user.
Proof.
  unfold sleep_loop. destruct (ptable s !! i) as [p|]; simpl; [|done]. case_bool_decide; [destruct (killed p)|]; intros [= <-];
    [by apply point_upd|apply point_sleep|by apply point_upd].
Qed.

Lemma point_fork i np pd s s' : fork i np pd s = Some s' → point i s' ≠ Some K_user.
Proof.
  unfold fork. destruct (ptable s !! i); simpl; [|done]. destruct (ptable s !! np); simpl; [|done]. case_bool_decide.
  - intros [= <-]. by apply point_upd.
  - destruct (dup_files _ _ _) as [[l t]|]; simpl; [|done]. intros [= <-]. by apply point_upd.
Qed.
Lemma point_clone i np fn stack arg s s' : clone i np fn stack arg s = Some s' → point i s' ≠ Some K_user.
Proof.
  unfold clone. destruct (ptable s !! i); simpl; [|done]. destruct (ptable s !! np); simpl; [|done].
  destruct (dup_files _ _ _) as [[l t]|]; simpl; [|done]. intros [= <-]. by apply point_upd.
Qed.
Lemma point_exec i im s s' : exec i im s = Some s' → point i s' ≠ Some K_user.
Proof.
  unfold exec. destruct (ptable s !! i); simpl; [|done]. destruct im; [|intros [= <-]; by apply point_upd].
  destruct (switchuvm _ _); simpl; [|done]. destruct (freevm _ _); simpl; [|done]. intros [= <-]. by apply point_upd.
Qed.

Lemma point_continue c i p pd s s' :
  kinv s → runs s c i p → killed p = true → kctx p ≠ K_forkret → kctx p ≠ K_user → continue c i pd s = Some s' → point i s' ≠ Some K_user.
Proof.
  intros K Rn Hkl Hf Hu E. pose proof Rn as (_&Hp&_). unfold continue in E. rewrite Hp in E. simpl in E.
  pose proof (l_point _ _ _ (runs_local _ _ _ _ K Rn) (runs_live _ _ _ _ Rn)) as Hpt. unfold kpoint_ok in Hpt.
  destruct (kctx p) as [| | |v|k|k|np|np fn stack arg| |t0 n| | |] eqn:Hk; try done.
  - unfold trap_check in E. rewrite Hp in E. simpl in E. rewrite Hkl in E. by eapply point_exit.
  - unfold trap_return in E. rewrite Hp in E. simpl in E. rewrite Hkl in E. by eapply point_exit.
  - injection E as <-. apply point_yield. by destruct k.
  - injection E as <-. apply point_upd. simpl. by destruct k.
  - by eapply point_fork.
  - by eapply point_clone.
  - by eapply point_wait.
  - by eapply point_loop.
  - injection E as <-. unfold point. rewrite Hp. simpl. congruence.
  - by eapply point_zombie.
  - injection E as <-. unfold point. rewrite Hp. simpl. congruence.
Qed.

(** A killed process does not get back to user code: whatever event happens on
    the processor that runs it, afterwards it is in the kernel, on its way to
    [exit]; the one exception is a process that was just created and has not
    been in user code yet. *)
Theorem killed_leaves_user_code stcf ncpu s c i p e s' :
  reachable stcf ncpu s → myproc c s = Some i → ptable s !! i = Some p → killed p = true → kctx p ≠ K_forkret →
  enabled c e s = true → handle stcf c e s = Some s' → point i s' ≠ Some K_user.
Proof.
  intros R Hm Hp Hkl Hf He E. pose proof (reachable_kinv _ _ _ R) as K. destruct (runs_intro s c i K Hm) as [p0 Rn].
  assert (p0 = p) as -> by (destruct Rn as (_&?&_); congruence). unfold handle in E. rewrite Hm in E.
  unfold enabled in He. assert (∃ y, cpus s !! c = Some y ∧ cpu_proc y = Some i) as (y&Hy&Hyi) by (unfold myproc in Hm; destruct (cpus s !! c); [eauto|done]).
  rewrite Hy, Hyi, Hp in He. destruct e as [| |k| |pd|im|a]; try done; rewrite ?Hp in E; simpl in E, He.
  - unfold timer in E. destruct (timer_runs s c i p K Rn) as (p'&(_&Hp'&_)&Ek&Ec). rewrite Hp' in E. simpl in E. rewrite Ec, Ek, Hkl in E.
    destruct (kctx p) eqn:Hk; [by eapply point_exit|..];
      (destruct stcf; injection E as <-; [unfold point; rewrite Hp'; simpl; congruence|by apply point_yield]).
  - destruct (kctx p); try done. rewrite Hkl in E. by eapply point_exit.
  - by eapply point_exit.
  - eapply point_continue; try done. by destruct (kctx p).
  - by eapply point_exec.
  - injection E as <-. destruct a; [apply point_sleep| |by apply point_upd].
    unfold point, kernel_code, wakeup. rewrite <- list_lookup_fmap, points_wakeup1, list_lookup_fmap, Hp. simpl. by destruct (kctx p).
Qed.

(** The child kills itself. *)
Definition killed_child : kernel := default booted (run true (child_run ++ [(0%nat, E_syscall (S_kill (Some 2)))]) booted).

Lemma killed_leaves_user_code_witness :
  ∃ s', handle true 0 (E_continue 1) killed_child = Some s' ∧ point 1 s' ≠ Some K_user.
Proof.
  assert (reachable true 2 killed_child) as R by (apply (run_from_boot true (child_run ++ [(0%nat, E_syscall (S_kill (Some 2)))])); vm_compute; reflexivity).
  assert (∃ p, ptable killed_child !! 1%nat = Some p ∧ killed p = true ∧ kctx p = K_ret 0) as (p&Hp&Hkl&Hk) by (eexists; split_and!; vm_compute; reflexivity).
  assert (myproc 0 killed_child = Some 1%nat) as Hm by (vm_compute; reflexivity).
  assert (∃ s', handle true 0 (E_continue 1) killed_child = Some s') as [s' E] by (eexists; vm_compute; reflexivity).
  exists s'. split; [exact E|]. apply (killed_leaves_user_code true 2 killed_child 0 1 p (E_continue 1) s' R Hm Hp Hkl); [congruence|vm_compute; reflexivity|exact E].
Defined.

(** * The timer under STCF *)

(** The STCF kernel does not preempt: a timer interrupt leaves a process that
    was not killed on its processor, whatever the remaining times of the
    processes that wait for it. *)
Theorem stcf_timer_keeps_process ncpu s c i p s' :
  reachable true ncpu s → myproc c s = Some i → ptable s !! i = Some p → killed p = false → handle true c E_timer s = Some s' →
  myproc c s' = Some i ∧ state <$> ptable s' !! i = Some RUNNING.
Proof.
  intros R Hm Hp Hkl E. pose proof (reachable_kinv _ _ _ R) as K. destruct (runs_intro s c i K Hm) as [p0 Rn].
  assert (p0 = p) as -> by (destruct Rn as (_&?&_); congruence). simpl in E. rewrite Hm in E. unfold timer in E.
  destruct (timer_runs s c i p K Rn) as (p'&(Hm'&Hp'&Hs')&Ek&Ec). rewrite Hp' in E. simpl in E. rewrite Ek, Hkl in E.
  assert (s' = timer_tick c s) as -> by (by destruct (kctx p'); injection E as <-). split; [done|]. rewrite Hp'. simpl. by rewrite Hs'.
Qed.
Lemma stcf_timer_keeps_process_witness : ∃ s', handle true 0 E_timer child_runs = Some s' ∧ myproc 0 s' = Some 1%nat.
Proof.
  assert (∃ p, ptable child_runs !! 1%nat = Some p ∧ killed p = false) as (p&Hp&Hkl) by (eexists; split_and!; vm_compute; reflexivity).
  assert (myproc 0 child_runs = Some 1%nat) as Hm by (vm_compute; reflexivity).
  assert (∃ s', handle true 0 E_timer child_runs = Some s') as [s' E] by (eexists; vm_compute; reflexivity).
  exists s'. split; [exact E|]. apply (stcf_timer_keeps_process 2 child_runs 0 1 p s' child_reachable Hm Hp Hkl E).
Defined.
