(* ===== verification/XvLocks.v ===== *)
(** The spin locks of the xv6 kernel (spinlock.c), used by several processors at
    once, and the order in which the kernel takes [tickslock] and
    [ptable.lock]. *)

From stdpp Require Import base option list numbers sets.
From coqutil Require Import Datatypes.RecordSettersUsingExistingGetters.
From Stdlib Require Import ZArith Lia.
From S2P Require Import Prelude XvProc.
Local Open Scope Z_scope.

(** * Locks and processors *)

(** A lock, without the call stack it records for debugging. *)
Record spinlock := mk_lock { locked : bool; lk_cpu : option nat }.
Definition initlock : spinlock := mk_lock false None.

Inductive instr := Acquire (l : nat) | Release (l : nat).

(** A processor: the nesting depth of [pushcli], the saved and the current
    interrupt flag, the lock it spins on, and the lock operations ahead of it.
    [held] lists the locks it has taken; the code does not use it. *)
Record core := mk_core { ncli : Z; intena : bool; eflags_if : bool; spinning : option nat; todo : list instr; held_locks : list nat }.
Record smp := mk_smp { locks : list spinlock; cores : list core }.

Definition pushcli (x : core) : core :=
  { x with eflags_if := false; intena := if bool_decide (ncli x = 0) then eflags_if x else intena x; ncli ::= Z.add 1 }.

Definition popcli (x : core) : option core :=
  if eflags_if x then None
  else
    let x := { x with ncli ::= Z.pred } in
    if bool_decide (ncli x < 0) then None
    else if bool_decide (ncli x = 0) && intena x then Some ({ x with eflags_if := true }) else Some x.

Definition holding (c : nat) (lk : spinlock) (x : core) : option (bool * core) :=
  let x := pushcli x in
  let r := locked lk && bool_decide (lk_cpu lk = Some c) in
  x ← popcli x; Some (r, x).

(** [acquire] up to its loop. *)
Definition acquire_enter (c l : nat) (lk : spinlock) (x : core) : option core :=
  let x := pushcli x in
  '(r, x) ← holding c lk x;
  if r : bool then None else Some ({ x with spinning := Some l }).

(** One turn of its loop; the rest of [acquire] belongs to the turn that gets
    the lock. *)
Definition acquire_spin (c l : nat) (lk : spinlock) (x : core) : spinlock * core :=
  if locked lk then (lk, x) else (mk_lock true (Some c), { x with spinning := None; held_locks ::= cons l }).

Definition release (c l : nat) (lk : spinlock) (x : core) : option (spinlock * core) :=
  '(r, x) ← holding c lk x;
  if r : bool then x ← popcli x; Some (mk_lock false None, { x with held_locks ::= filter (λ k, k ≠ l) }) else None.

(** One step of processor [c]. *)
Definition core_step (c : nat) (s : smp) : option smp :=
  x ← cores s !! c;
  match spinning x, todo x with
  | Some l, _ =>
      lk ← locks s !! l;
      let '(lk, x) := acquire_spin c l lk x in Some (mk_smp (<[l := lk]> (locks s)) (<[c := x]> (cores s)))
  | None, Acquire l :: t =>
      lk ← locks s !! l; x ← acquire_enter c l lk x;
      Some (mk_smp (locks s) (<[c := { x with todo := t }]> (cores s)))
  | None, Release l :: t =>
      lk ← locks s !! l; '(lk, x) ← release c l lk x;
      Some (mk_smp (<[l := lk]> (locks s)) (<[c := { x with todo := t }]> (cores s)))
  | None, [] => Some s
  end.

(** An interleaving: the processors that step, in order. *)
Fixpoint interleave (l : list nat) (s : smp) : option smp :=
  match l with
  | [] => Some s
  | c :: l => core_step c s ≫= interleave l
  end.

(** Processors with their code and interrupt flags, and [n] free locks. *)
Definition boot_smp (n : nat) (ps : list (bool * list instr)) : smp :=
  mk_smp (replicate n initlock) ((λ '(f, p), mk_core 0 false f None p []) <$> ps).

(** * The lock operations of kernel code *)

Definition tickslock : nat := 0.
Definition ptable_lock : nat := 1.

(** [ticks_now], and [stcf_account_before_switch] of a process that was
    dispatched by the STCF scheduler. *)
Definition ticks_now_locks : list instr := [Acquire tickslock; Release tickslock].
Definition sleep_proc_notify_locks : list instr := [Acquire ptable_lock; Release ptable_lock].
Definition timer_locks : list instr := Acquire tickslock :: sleep_proc_notify_locks ++ [Release tickslock].
(** The lock is passed to the scheduler of the processor, which releases it. *)
Definition yield_locks : list instr := Acquire ptable_lock :: ticks_now_locks ++ [Release ptable_lock].

(** * What locks guarantee *)

(** The interrupt flag [f] with which the processor started; [n] is the number of
    calls of [pushcli] it is in. *)
Record cli_ok (f : bool) (n : nat) (x : core) : Prop := {
  cli_depth : ncli x = Z.of_nat n;
  cli_off : (0 < n)%nat → eflags_if x = false ∧ intena x = f;
  cli_on : n = 0%nat → eflags_if x = f;
}.

Lemma pushcli_ok f n x : cli_ok f n x → cli_ok f (S n) (pushcli x).
Proof.
  intros [H1 H2 H3]. split; simpl; [rewrite H1; lia| |lia]. intros _. split; [done|]. rewrite H1. case_bool_decide.
  - apply H3. lia.
  - apply H2. lia.
Qed.

(** [popcli] does not panic after a [pushcli], and undoes it. *)
Lemma popcli_ok f n x :
  cli_ok f (S n) x → ∃ x', popcli x = Some x' ∧ cli_ok f n x' ∧ spinning x' = spinning x ∧ todo x' = todo x ∧ held_locks x' = held_locks x.
Proof.
  intros [H1 H2 H3]. destruct H2 as [E1 E2]; [lia|]. unfold popcli. rewrite E1. simpl. rewrite H1, bool_decide_eq_false_2 by lia.
  rewrite E2. case_bool_decide; simpl; [destruct f|]; eexists; (split; [done|]); (split; [|done]);
    split; simpl; rewrite ?H1; auto; lia.
Qed.

Lemma holding_ok f n c lk x :
  cli_ok f n x → ∃ x', holding c lk x = Some (locked lk && bool_decide (lk_cpu lk = Some c), x') ∧ cli_ok f n x' ∧
    spinning x' = spinning x ∧ todo x' = todo x ∧ held_locks x' = held_locks x.
Proof.
  intros H. destruct (popcli_ok f n (pushcli x) (pushcli_ok _ _ _ H)) as (x'&E&H'&F). unfold holding. rewrite E. simpl. by exists x'.
Qed.

(** The nesting depth of a processor. *)
Definition depth (x : core) : nat := (length (held_locks x) + if spinning x then 1 else 0)%nat.

(** [fs] are the interrupt flags at the start. *)
Record smp_inv (fs : list bool) (s : smp) : Prop := {
  s_cli : ∀ c x f, cores s !! c = Some x → fs !! c = Some f → cli_ok f (depth x) x;
  s_len : length fs = length (cores s);
  s_own : ∀ c x l, cores s !! c = Some x → l ∈ held_locks x ↔ locks s !! l = Some (mk_lock true (Some c));
  s_lock : ∀ l lk, locks s !! l = Some lk → lk = initlock ∨ ∃ c, lk = mk_lock true (Some c) ∧ (c < length (cores s))%nat;
  s_nodup : ∀ c x, cores s !! c = Some x → NoDup (held_locks x);
  s_spin : ∀ c x l, cores s !! c = Some x → spinning x = Some l → l ∉ held_locks x ∧ is_Some (locks s !! l);
}.

Lemma filter_absent (l : nat) (ks : list nat) : l ∉ ks → filter (λ k, k ≠ l) ks = ks.
Proof.
  induction ks as [|k ks IH]; intros Hn; [done|]. apply not_elem_of_cons in Hn as [Hk Hn]. rewrite filter_cons_True by done. by rewrite IH.
Qed.
Lemma length_filter_ne (l : nat) (ks : list nat) : NoDup ks → l ∈ ks → S (length (filter (λ k, k ≠ l) ks)) = length ks.
Proof.
  induction 1 as [|k ks Hk Hnd IH]; [by intros ?%elem_of_nil|]. destruct (decide (k = l)) as [->|Hne]; intros Hin.
  - rewrite filter_cons_False by auto. by rewrite filter_absent.
  - rewrite filter_cons_True by done. simpl. f_equal. apply IH. apply elem_of_cons in Hin as [|]; [congruence|done].
Qed.

Section step.
Context (fs : list bool) (s : smp) (I : smp_inv fs s).
Context (c l : nat) (y : core) (lk : spinlock) (Hx : cores s !! c = Some y) (Hl : locks s !! l = Some lk).

Lemma core_flag : ∃ f, fs !! c = Some f ∧ cli_ok f (depth y) y.
Proof.
  assert (is_Some (fs !! c)) as [f Hf]; [|exists f; split; [done|by eapply s_cli]].
  apply lookup_lt_is_Some. rewrite (s_len _ _ I). by eapply lookup_lt_Some.
Qed.

(** Processor [c] changes lock [l]. *)
Lemma smp_update lk' y' :
  (∀ f, fs !! c = Some f → cli_ok f (depth y') y') → NoDup (held_locks y') →
  (∀ k, k ≠ l → k ∈ held_locks y' ↔ k ∈ held_locks y) → (l ∈ held_locks y' ↔ lk' = mk_lock true (Some c)) →
  (∀ k, spinning y' = Some k → k ∉ held_locks y' ∧ is_Some (locks s !! k)) →
  lk' = lk ∨ (lk' = initlock ∨ lk' = mk_lock true (Some c)) ∧ (∀ d, d ≠ c → lk ≠ mk_lock true (Some d)) →
  smp_inv fs (mk_smp (<[l := lk']> (locks s)) (<[c := y']> (cores s))).
Proof.
  intros H1 H2 H3 H4 H5 H6. pose proof I as [I1 I2 I3 I4 I5 I6]. pose proof (lookup_lt_Some _ _ _ Hl) as Hlt.
  split; simpl.
  - intros d z f Hy Hf. apply list_lookup_insert_Some in Hy as [(->&<-&_)|[_ Hy]]; eauto.
  - by rewrite length_insert.
  - intros d z k Hy. apply list_lookup_insert_Some in Hy as [(->&<-&_)|[Hd Hy]]; destruct (decide (k = l)) as [->|Hk].
    + rewrite list_lookup_insert_eq by done. rewrite H4. split; congruence.
    + rewrite list_lookup_insert_ne by done. rewrite H3 by done. by apply I3.
    + rewrite list_lookup_insert_eq by done. rewrite (I3 d z l Hy), Hl. destruct H6 as [-> |[[-> | ->] H6]].
      * done.
      * split; [|done]. intros [= E]. by destruct (H6 d).
      * split; [intros [= E]; by destruct (H6 d)|congruence].
    + rewrite list_lookup_insert_ne by done. by apply I3.
  - intros k lk0 Hk. rewrite length_insert. apply list_lookup_insert_Some in Hk as [(->&<-&_)|[_ Hk]]; [|by apply (I4 k)].
    destruct H6 as [-> |[[-> | ->] _]]; [by apply (I4 k)|by left|right]. exists c. split; [done|]. by eapply lookup_lt_Some.
  - intros d z Hy. apply list_lookup_insert_Some in Hy as [(->&<-&_)|[_ Hy]]; eauto.
  - intros d z k Hy Hs. assert (spinning z = Some k → k ∉ held_locks z ∧ is_Some (locks s !! k)) as Ht.
    { apply list_lookup_insert_Some in Hy as [(->&<-&_)|[_ Hy]]; [by apply H5|by eapply I6]. }
    destruct (Ht Hs) as [Hn [lk0 Hk]]. split; [done|]. apply lookup_lt_is_Some. rewrite length_insert. by eapply lookup_lt_Some.
Qed.

Lemma held_own : l ∈ held_locks y ↔ lk = mk_lock true (Some c).
Proof. rewrite (s_own _ _ I c y l Hx), Hl. split; congruence. Qed.

Lemma holding_spec : locked lk && bool_decide (lk_cpu lk = Some c) = true ↔ l ∈ held_locks y.
Proof.
  rewrite held_own, andb_true_iff, bool_decide_eq_true. destruct lk as [b o]. simpl. split; [intros [-> ->]; done|]. by intros [= -> ->].
Qed.

(** [acquire] does not panic when the processor does not have the lock. *)
Lemma enter_ok t :
  spinning y = None → l ∉ held_locks y →
  ∃ y', acquire_enter c l lk y = Some y' ∧ spinning y' = Some l ∧ held_locks y' = held_locks y ∧
    smp_inv fs (mk_smp (locks s) (<[c := { y' with todo := t }]> (cores s))).
Proof.
  intros Hs Hn. destruct core_flag as (f&Hf&H). destruct (holding_ok f (S (depth y)) c lk (pushcli y)) as (x1&E&H1&F1&F2&F3); [by apply pushcli_ok|].
  unfold acquire_enter. rewrite E. simpl. destruct (locked lk && _) eqn:Er; [by apply holding_spec in Er|]. eexists. split; [done|].
  split; [done|]. split; [done|]. rewrite <- (list_insert_id (locks s) l lk Hl) at 1. apply smp_update; simpl; rewrite ?F3; simpl; try done.
  - intros f' Hf'. assert (f' = f) as -> by congruence. unfold depth in *. simpl. rewrite ?F3. simpl. rewrite Hs in H1. destruct H1 as [A1 A2 A3].
    replace (length (held_locks y) + 1)%nat with (S (length (held_locks y) + 0)) by lia. by split.
  - by eapply s_nodup.
  - apply held_own.
  - intros k [= <-]. eauto.
  - by left.
Qed.

(** A turn of the loop of [acquire]. *)
Lemma spin_ok :
  spinning y = Some l → let '(lk', y') := acquire_spin c l lk y in smp_inv fs (mk_smp (<[l := lk']> (locks s)) (<[c := y']> (cores s))).
Proof.
  intros Hs. unfold acquire_spin. destruct (s_spin _ _ I c y l Hx Hs) as [Hn _]. destruct core_flag as (f&Hf&H).
  destruct (locked lk) eqn:El; [by rewrite (list_insert_id _ _ _ Hl), (list_insert_id _ _ _ Hx); destruct s|].
  assert (lk = initlock) as Elk by (destruct (s_lock _ _ I l lk Hl) as [|(d&->&_)]; done).
  apply smp_update; simpl.
  - intros f' Hf'. assert (f' = f) as -> by congruence. unfold depth in *. simpl. rewrite Hs in H. destruct H as [A1 A2 A3].
    replace (S (length (held_locks y) + 0)) with (length (held_locks y) + 1)%nat by lia. by split.
  - apply NoDup_cons_2; [done|by eapply s_nodup].
  - intros k Hk. rewrite elem_of_cons. naive_solver.
  - rewrite elem_of_cons. naive_solver.
  - done.
  - right. split; [by right|]. intros d _. by rewrite Elk.
Qed.

(** [release] does not panic when the processor has the lock. *)
Lemma release_ok t :
  spinning y = None → l ∈ held_locks y →
  ∃ y', release c l lk y = Some (initlock, y') ∧ spinning y' = None ∧ held_locks y' = filter (λ k, k ≠ l) (held_locks y) ∧
    smp_inv fs (mk_smp (<[l := initlock]> (locks s)) (<[c := { y' with todo := t }]> (cores s))).
Proof.
  intros Hs Hin. destruct core_flag as (f&Hf&H). destruct (holding_ok f (depth y) c lk y H) as (x1&E&H1&F1&F2&F3).
  unfold release. rewrite E. simpl. rewrite (proj2 holding_spec Hin).
  assert (depth y = S (length (filter (λ k, k ≠ l) (held_locks y)))) as Hd.
  { unfold depth. rewrite Hs, <- (length_filter_ne l (held_locks y)); [lia|by eapply s_nodup|done]. }
  rewrite Hd in H1. destruct (popcli_ok f _ x1 H1) as (x2&E2&H2&G1&G2&G3). rewrite E2. simpl. eexists. split; [done|]. simpl.
  split; [congruence|]. split; [congruence|]. apply smp_update; simpl; rewrite ?G3, ?F3.
  - intros f' Hf'. assert (f' = f) as -> by congruence. unfold depth. simpl. rewrite ?G3, ?F3, ?G1, ?F1, ?Hs. destruct H2 as [A1 A2 A3].
    replace (length (filter (λ k, k ≠ l) (held_locks y)) + 0)%nat with (length (filter (λ k, k ≠ l) (held_locks y))) by lia. by split.
  - apply list.NoDup_filter. by eapply s_nodup.
  - intros k Hk. rewrite list_elem_of_filter. naive_solver.
  - rewrite list_elem_of_filter. split; [by intros []|done].
  - congruence.
  - right. split; [by left|]. intros d Hd'. apply held_own in Hin. congruence.
Qed.

(** The panics of [acquire] and [release]. *)
Lemma enter_panics : l ∈ held_locks y → acquire_enter c l lk y = None.
Proof.
  intros Hin. destruct core_flag as (f&_&H). destruct (holding_ok f _ c lk (pushcli y) (pushcli_ok _ _ _ H)) as (x1&E&_).
  unfold acquire_enter. rewrite E. simpl. by rewrite (proj2 holding_spec Hin).
Qed.
Lemma release_panics : l ∉ held_locks y → release c l lk y = None.
Proof.
  intros Hn. destruct core_flag as (f&_&H). destruct (holding_ok f _ c lk y H) as (x1&E&_).
  unfold release. rewrite E. simpl. destruct (locked lk && _) eqn:Er; [by apply holding_spec in Er|done].
Qed.

End step.

Lemma core_step_inv fs s c s' : smp_inv fs s → core_step c s = Some s' → smp_inv fs s'.
Proof.
  intros I E. unfold core_step in E. destruct (cores s !! c) as [x|] eqn:Hx; simpl in E; [|done].
  destruct (spinning x) as [l|] eqn:Hs.
  - destruct (locks s !! l) as [lk|] eqn:Hl; simpl in E; [|done]. pose proof (spin_ok fs s I c l x lk Hx Hl Hs) as H.
    destruct (acquire_spin c l lk x) as [lk' x']. by injection E as <-.
  - destruct (todo x) as [|[l|l] t] eqn:Ht; [by injection E as <-|..]; (destruct (locks s !! l) as [lk|] eqn:Hl; simpl in E; [|done]);
      destruct (decide (l ∈ held_locks x)) as [Hin|Hn].
    + by rewrite (enter_panics fs s I c l x lk Hx Hl Hin) in E.
    + destruct (enter_ok fs s I c l x lk Hx Hl t Hs Hn) as (x'&E'&_&_&I'). rewrite E' in E. by injection E as <-.
    + destruct (release_ok fs s I c l x lk Hx Hl t Hs Hin) as (x'&E'&_&_&I'). rewrite E' in E. by injection E as <-.
    + by rewrite (release_panics fs s I c l x lk Hx Hl Hn) in E.
Qed.

Lemma interleave_inv fs l s s' : smp_inv fs s → interleave l s = Some s' → smp_inv fs s'.
Proof.
  revert s. induction l as [|c l IH]; intros s I E; simpl in E; [by injection E as <-|].
  destruct (core_step c s) as [s1|] eqn:E1; simpl in E; [|done]. eapply IH; [by eapply core_step_inv|done].
Qed.

Lemma boot_smp_inv n ps : smp_inv (fst <$> ps) (boot_smp n ps).
Proof.
  assert (∀ c x, cores (boot_smp n ps) !! c = Some x → ∃ f p, ps !! c = Some (f, p) ∧ x = mk_core 0 false f None p []) as Hc.
  { intros c x. simpl. rewrite list_lookup_fmap. destruct (ps !! c) as [[f p]|]; simpl; [|done]. intros [= <-]. eauto. }
  split.
  - intros c x f Hx Hf. destruct (Hc c x Hx) as (f'&p&Hp&->). rewrite list_lookup_fmap, Hp in Hf. injection Hf as <-. split; unfold depth; simpl; [done|lia|done].
  - simpl. by rewrite !length_fmap.
  - intros c x l Hx. destruct (Hc c x Hx) as (f&p&_&->). simpl. split; [by intros ?%elem_of_nil|]. by intros [? _]%lookup_replicate.
  - intros l lk Hl. simpl in Hl. apply lookup_replicate in Hl as [-> _]. by left.
  - intros c x Hx. destruct (Hc c x Hx) as (f&p&_&->). apply NoDup_nil_2.
  - intros c x l Hx. by destruct (Hc c x Hx) as (f&p&_&->).
Qed.

(** * Lock orders *)

(** The code takes locks in the order [rank], releases only what it has, and ends
    without a lock. *)
Fixpoint ordered (rank : nat → nat) (held : list nat) (t : list instr) : bool :=
  match t with
  | [] => bool_decide (held = [])
  | Acquire l :: t => forallb (λ h, Nat.ltb (rank h) (rank l)) held && ordered rank (l :: held) t
  | Release l :: t => bool_decide (l ∈ held) && ordered rank (filter (λ k, k ≠ l) held) t
  end.

(** What is ahead of a processor, the lock it waits for included. *)
Definition ahead (x : core) : list instr := match spinning x with Some l => Acquire l :: todo x | None => todo x end.

Definition disciplined (rank : nat → nat) (s : smp) : Prop :=
  ∀ c x, cores s !! c = Some x → ordered rank (held_locks x) (ahead x) = true ∧
    ∀ l, (Acquire l ∈ ahead x ∨ Release l ∈ ahead x) → is_Some (locks s !! l).

Definition finished (s : smp) : Prop := ∀ c x, cores s !! c = Some x → ahead x = [].

Section order.
Context (rank : nat → nat) (fs : list bool).

(** Processor [c] steps; the others keep their state. *)
Lemma disciplined_update s ls c x' :
  disciplined rank s → length ls = length (locks s) → ordered rank (held_locks x') (ahead x') = true →
  (∀ l, (Acquire l ∈ ahead x' ∨ Release l ∈ ahead x') → is_Some (locks s !! l)) →
  disciplined rank (mk_smp ls (<[c := x']> (cores s))).
Proof.
  intros D L H1 H2 d x Hx. simpl in *. assert (∀ l, is_Some (locks s !! l) → is_Some (ls !! l)) as Hl.
  { intros l. rewrite !lookup_lt_is_Some, L. done. }
  apply list_lookup_insert_Some in Hx as [(->&<-&_)|[_ Hx]]; [auto|]. destruct (D d x Hx). auto.
Qed.

(** Code that follows the order does not panic. *)
Lemma step_disciplined s c :
  smp_inv fs s → disciplined rank s → (c < length (cores s))%nat → ∃ s', core_step c s = Some s' ∧ disciplined rank s'.
Proof.
  intros I D [x Hx]%lookup_lt_is_Some. unfold core_step. rewrite Hx. simpl. destruct (D c x Hx) as [O V]. unfold ahead in O, V.
  destruct (spinning x) as [l|] eqn:Hs.
  - destruct (V l) as [lk Hl]; [left; by left|]. rewrite Hl. simpl. unfold acquire_spin. destruct (locked lk).
    + eexists. split; [done|]. apply disciplined_update; [done|by rewrite length_insert|..]; unfold ahead; by rewrite Hs.
    + eexists. split; [done|]. apply disciplined_update; [done|by rewrite length_insert|..]; unfold ahead; simpl.
      * simpl in O. apply andb_true_iff in O as [_ O]. done.
      * intros k Hk. apply V. rewrite !elem_of_cons. tauto.
  - destruct (todo x) as [|[l|l] t] eqn:Ht; [by exists s|..]; simpl in O.
    + destruct (V l) as [lk Hl]; [left; by left|]. rewrite Hl. simpl. apply andb_true_iff in O as [O1 O2].
      assert (l ∉ held_locks x) as Hn.
      { intros Hin. apply forallb_forall with (x := l) in O1; [apply Nat.ltb_lt in O1; lia|by apply list_elem_of_In]. }
      destruct (enter_ok fs s I c l x lk Hx Hl t Hs Hn) as (x'&E'&F1&F2&_). rewrite E'. simpl. eexists. split; [done|].
      apply disciplined_update; [done|done|..]; unfold ahead; simpl; rewrite F1; simpl; rewrite ?F2; [by rewrite O1|].
      intros k Hk. apply V. done.
    + destruct (V l) as [lk Hl]; [right; by left|]. rewrite Hl. simpl. apply andb_true_iff in O as [O1%bool_decide_eq_true O2].
      destruct (release_ok fs s I c l x lk Hx Hl t Hs O1) as (x'&E'&F1&F2&_). rewrite E'. simpl. eexists. split; [done|].
      apply disciplined_update; [done|by rewrite length_insert|..]; unfold ahead; simpl; rewrite F1, ?F2; [done|].
      intros k Hk. apply V. rewrite !elem_of_cons. tauto.
Qed.

(** The work ahead of the processors. *)
Definition weight (x : core) : nat := (2 * length (todo x) + if spinning x then 1 else 0)%nat.
Definition work (s : smp) : nat := sum_list_with weight (cores s).

Lemma work_insert s ls c x x' :
  cores s !! c = Some x → (weight x' < weight x)%nat → (work (mk_smp ls (<[c := x']> (cores s))) < work s)%nat.
Proof.
  unfold work. simpl. generalize (cores s). intros l. revert c. induction l as [|y l IH]; intros [|c] Hx Hw; simpl in *; try done.
  - injection Hx as ->. lia.
  - specialize (IH c Hx Hw). lia.
Qed.

(** A processor that has something to do and does not wait for a lock that is
    taken does some of its work. *)
Lemma step_works s c x :
  smp_inv fs s → disciplined rank s → cores s !! c = Some x → ahead x ≠ [] →
  (∀ l, spinning x = Some l → locks s !! l = Some initlock) → ∃ s', core_step c s = Some s' ∧ (work s' < work s)%nat.
Proof.
  intros I D Hx Ha Hf. destruct (step_disciplined s c I D) as (s'&E&_); [by eapply lookup_lt_Some|]. exists s'. split; [done|].
  unfold core_step in E. rewrite Hx in E. simpl in E. destruct (spinning x) as [l|] eqn:Hs.
  - rewrite (Hf l eq_refl) in E. simpl in E. injection E as <-. apply (work_insert _ _ _ x); [done|]. unfold weight. simpl. rewrite Hs. lia.
  - unfold ahead in Ha. rewrite Hs in Ha. destruct (todo x) as [|[l|l] t] eqn:Ht; [done|..];
      (destruct (locks s !! l) as [lk|] eqn:Hl; simpl in E; [|done]); destruct (decide (l ∈ held_locks x)) as [Hin|Hn].
    + by rewrite (enter_panics fs s I c l x lk Hx Hl Hin) in E.
    + destruct (enter_ok fs s I c l x lk Hx Hl t Hs Hn) as (x'&E'&F1&_). rewrite E' in E. injection E as <-.
      apply (work_insert _ _ _ x); [done|]. unfold weight. simpl. rewrite F1, Hs, Ht. simpl. lia.
    + destruct (release_ok fs s I c l x lk Hx Hl t Hs Hin) as (x'&E'&F1&_). rewrite E' in E. injection E as <-.
      apply (work_insert _ _ _ x); [done|]. unfold weight. simpl. rewrite F1, Hs, Ht. simpl. lia.
    + by rewrite (release_panics fs s I c l x lk Hx Hl Hn) in E.
Qed.

(** The lock a processor waits for has a higher rank than those it has. *)
Lemma held_below s c x l k :
  disciplined rank s → cores s !! c = Some x → l ∈ held_locks x → spinning x = Some k → (rank l < rank k)%nat.
Proof.
  intros D Hx Hl Hs. destruct (D c x Hx) as [O _]. unfold ahead in O. rewrite Hs in O. simpl in O. apply andb_true_iff in O as [O _].
  apply forallb_forall with (x := l) in O; [by apply Nat.ltb_lt in O|by apply list_elem_of_In].
Qed.

Lemma held_ahead s c x l : disciplined rank s → cores s !! c = Some x → l ∈ held_locks x → ahead x ≠ [].
Proof.
  intros D Hx Hl E. destruct (D c x Hx) as [O _]. rewrite E in O. simpl in O. apply bool_decide_eq_true in O. rewrite O in Hl. by apply elem_of_nil in Hl.
Qed.

(** Following the locks from a processor leads to one that can work. *)
Lemma some_works s (top : nat) :
  smp_inv fs s → disciplined rank s → (∀ l, is_Some (locks s !! l) → (rank l < top)%nat) → ¬ finished s →
  ∃ c s', core_step c s = Some s' ∧ (work s' < work s)%nat.
Proof.
  intros I D Htop Hnf.
  assert (∀ n c x l, (top - rank l < n)%nat → cores s !! c = Some x → ahead x ≠ [] → spinning x = Some l →
    ∃ c s', core_step c s = Some s' ∧ (work s' < work s)%nat) as Hchain.
  { induction n as [|n IH]; intros c x l Hn Hx Ha Hs; [lia|]. destruct (s_spin _ _ I c x l Hx Hs) as [_ [lk Hl]].
    destruct (s_lock _ _ I l lk Hl) as [-> |(d&->&Hd)].
    - exists c. apply (step_works s c x); try done. intros k Hk. congruence.
    - apply lookup_lt_is_Some in Hd as [y Hy]. assert (l ∈ held_locks y) as Hin by (by apply (s_own _ _ I d y l Hy)).
      pose proof (held_ahead s d y l D Hy Hin) as Hay. destruct (spinning y) as [k|] eqn:Hk.
      + pose proof (held_below s d y l k D Hy Hin Hk). destruct (s_spin _ _ I d y k Hy Hk) as [_ Hv]. specialize (Htop k Hv).
        apply (IH d y k); try done. lia.
      + exists d. apply (step_works s d y); try done. intros k' Hk'. congruence. }
  assert (∃ c x, cores s !! c = Some x ∧ ahead x ≠ []) as (c&x&Hx&Ha).
  { destruct (decide (Exists (λ x, ahead x ≠ []) (cores s))) as [He|Hne].
    - apply Exists_exists in He as (x&Hin&Ha). apply list_elem_of_lookup in Hin as [c Hx]. eauto.
    - exfalso. apply Hnf. intros c x Hx. destruct (ahead x) eqn:E; [done|]. exfalso. apply Hne, Exists_exists. exists x.
      split; [apply list_elem_of_lookup; eauto|by rewrite E]. }
  destruct (spinning x) as [l|] eqn:Hs; [by apply (Hchain (S (top - rank l)) c x l); [lia|..]|].
  exists c. apply (step_works s c x); try done. intros l Hl. congruence.
Qed.

Lemma step_length c s s' : core_step c s = Some s' → length (locks s') = length (locks s).
Proof.
  unfold core_step. destruct (cores s !! c) as [x|]; simpl; [|done]. destruct (spinning x) as [l|].
  - destruct (locks s !! l); simpl; [|done]. destruct (acquire_spin _ _ _ _). intros [= <-]. simpl. by rewrite length_insert.
  - destruct (todo x) as [|[l|l] t]; [by intros [= <-]|..]; (destruct (locks s !! l); simpl; [|done]).
    + destruct (acquire_enter _ _ _ _); simpl; [|done]. by intros [= <-].
    + destruct (release _ _ _ _) as [[lk x']|]; simpl; [|done]. intros [= <-]. simpl. by rewrite length_insert.
Qed.

Lemma interleave_length l s s' : interleave l s = Some s' → length (locks s') = length (locks s).
Proof.
  revert s. induction l as [|c l IH]; intros s E; simpl in E; [by injection E as <-|].
  destruct (core_step c s) as [s1|] eqn:E1; simpl in E; [|done]. rewrite (IH s1 E). by eapply step_length.
Qed.

(** Code that follows a common order can always be run to its end. *)
Lemma order_completes s (top : nat) :
  smp_inv fs s → disciplined rank s → (∀ l, is_Some (locks s !! l) → (rank l < top)%nat) → ∃ l s', interleave l s = Some s' ∧ finished s'.
Proof.
  remember (work s) as w eqn:Hw. revert s Hw. induction (lt_wf w) as [w _ IH]. intros s -> I D Htop.
  destruct (decide (Forall (λ x, ahead x = []) (cores s))) as [Hf|Hnf].
  - exists [], s. split; [done|]. intros c x Hx. by eapply Forall_lookup_1 in Hf.
  - destruct (some_works s top I D Htop) as (c&s1&E1&Hlt).
    { intros Hfin. apply Hnf, Forall_lookup_2. exact Hfin. }
    assert (c < length (cores s))%nat as Hc.
    { unfold core_step in E1. destruct (cores s !! c) eqn:Hx; [by eapply lookup_lt_Some|done]. }
    destruct (step_disciplined s c I D Hc) as (s1'&E1'&D1). assert (s1' = s1) as -> by congruence.
    destruct (IH (work s1) Hlt s1 eq_refl) as (l&s'&E&F); [by eapply core_step_inv|done| |].
    + intros k. rewrite lookup_lt_is_Some, (step_length c s s1 E1), <- lookup_lt_is_Some. apply Htop.
    + exists (c :: l), s'. split; [|done]. simpl. by rewrite E1.
Qed.

Lemma interleave_disciplined l s s' :
  smp_inv fs s → disciplined rank s → interleave l s = Some s' → disciplined rank s'.
Proof.
  revert s. induction l as [|c l IH]; intros s I D E; simpl in E; [by injection E as <-|].
  destruct (core_step c s) as [s1|] eqn:E1; simpl in E; [|done].
  assert (c < length (cores s))%nat as Hc.
  { unfold core_step in E1. destruct (cores s !! c) eqn:Hx; [by eapply lookup_lt_Some|done]. }
  destruct (step_disciplined s c I D Hc) as (s1'&E1'&D1). assert (s1' = s1) as -> by congruence.
  eapply IH; [by eapply core_step_inv|done|done].
Qed.

End order.

(** What the spin locks of the xv6 kernel guarantee, and the order in which the
    STCF kernel takes [tickslock] and [ptable.lock]. *)

(** C36: Whatever lock operations the processors perform and however they
    interleave, as long as none panics: a lock is held by at most one processor;
    a processor that holds or waits for a lock has interrupts disabled; and one
    that does neither has them as they were before its first lock. *)
Theorem spinlocks_exclude n ps l s :
  interleave l (boot_smp n ps) = Some s →
  (∀ c d x y k, cores s !! c = Some x → cores s !! d = Some y → k ∈ held_locks x → k ∈ held_locks y → c = d) ∧
  (∀ c x f p, cores s !! c = Some x → ps !! c = Some (f, p) →
     (held_locks x ≠ [] ∨ spinning x ≠ None → eflags_if x = false) ∧
     (held_locks x = [] → spinning x = None → eflags_if x = f)).
Proof.
  intros E. destruct (interleave_inv _ _ _ _ (boot_smp_inv n ps) E) as [I1 I2 I3 _ _ _]. split.
  - intros c d x y k Hx Hy H1 H2. apply (I3 c x k Hx) in H1. apply (I3 d y k Hy) in H2. congruence.
  - intros c x f p Hx Hp. destruct (I1 c x f Hx) as [_ H1 H2]; [by rewrite list_lookup_fmap, Hp|]. unfold depth in *. split.
    + intros [Hh|Hs]; apply H1; [destruct (held_locks x); [done|simpl; lia]|destruct (spinning x); [lia|done]].
    + intros Hh Hs. apply H2. by rewrite Hh, Hs.
Qed.
Definition two_yields : smp := boot_smp 2 [(true, yield_locks); (true, yield_locks)].
Lemma spinlocks_exclude_witness :
  ∃ s, interleave [0; 0; 1; 1; 0; 0; 0]%nat two_yields = Some s ∧
  ∀ c d x y k, cores s !! c = Some x → cores s !! d = Some y → k ∈ held_locks x → k ∈ held_locks y → c = d.
Proof.
  assert (∃ s, interleave [0; 0; 1; 1; 0; 0; 0]%nat two_yields = Some s) as [s E] by (eexists; vm_compute; reflexivity).
  exists s. split; [exact E|]. apply (spinlocks_exclude 2 [(true, yield_locks); (true, yield_locks)] [0; 0; 1; 1; 0; 0; 0]%nat s E).
Defined.

(** The locks of a program. *)
Definition lock_of (i : instr) : nat := match i with Acquire l => l | Release l => l end.

Lemma boot_disciplined rank n ps :
  Forall (λ x, ordered rank [] x.2 = true ∧ Forall (λ i, lock_of i < n)%nat x.2) ps → disciplined rank (boot_smp n ps).
Proof.
  intros H c x Hx. simpl in Hx. rewrite list_lookup_fmap in Hx. destruct (ps !! c) as [[f p]|] eqn:Hp; [|done]. injection Hx as <-.
  eapply Forall_lookup_1 in H as [H1 H2]; [|done]. split; [done|]. unfold ahead. simpl in *. rewrite Forall_forall in H2.
  intros l Hl. exists initlock. apply lookup_replicate. split; [done|]. destruct Hl as [Hl|Hl]; by apply H2 in Hl.
Qed.

(** C37: Locks taken in a common order do not deadlock: if every processor takes
    its locks in increasing order of some rank, releases only what it holds and
    ends without a lock, then after any interleaving the processors can still be
    scheduled so that all of them come to their end. *)
Theorem lock_order_completes rank n ps l s :
  Forall (λ x, ordered rank [] x.2 = true ∧ Forall (λ i, lock_of i < n)%nat x.2) ps →
  interleave l (boot_smp n ps) = Some s → ∃ l' s', interleave l' s = Some s' ∧ finished s'.
Proof.
  intros H E. pose proof (boot_smp_inv n ps) as I0. pose proof (boot_disciplined rank n ps H) as D0.
  apply (order_completes rank (fst <$> ps) s (S (sum_list_with rank (seq 0 n)))).
  - by eapply interleave_inv.
  - by eapply interleave_disciplined.
  - intros k Hk%lookup_lt_is_Some. rewrite (interleave_length _ _ _ E) in Hk. simpl in Hk. rewrite length_replicate in Hk.
    apply Nat.lt_succ_r, sum_list_with_in, elem_of_seq. lia.
Qed.
Lemma lock_order_completes_witness :
  ∃ s l' s', interleave [0; 0; 1; 1; 0]%nat two_yields = Some s ∧ interleave l' s = Some s' ∧ finished s'.
Proof.
  assert (∃ s, interleave [0; 0; 1; 1; 0]%nat two_yields = Some s) as [s E] by (eexists; vm_compute; reflexivity).
  destruct (lock_order_completes (λ l, 1 - l)%nat 2 [(true, yield_locks); (true, yield_locks)] [0; 0; 1; 1; 0]%nat s) as (l'&s'&H);
    [|exact E|by exists s, l', s'].
  repeat constructor.
Defined.

(** Processor 0 handles a timer interrupt while processor 1 gives up its
    process. *)
Definition timer_and_yield : smp := boot_smp 2 [(true, timer_locks); (true, yield_locks)].
Definition deadlocked : smp := default timer_and_yield (interleave [0; 0; 1; 1; 0; 1]%nat timer_and_yield).

(** The STCF kernel takes [tickslock] and [ptable.lock] in both orders: the
    timer interrupt wakes sleepers while it holds [tickslock], and a process that
    gives up its processor reads the tick count while it holds [ptable.lock].  No
    order of the locks fits both, and on two processors there is an interleaving
    after which both wait for each other, with interrupts disabled, and no
    further execution changes anything. *)
Theorem timer_yield_deadlock :
  (∀ rank, ¬ (ordered rank [] timer_locks = true ∧ ordered rank [] yield_locks = true)) ∧
  interleave [0; 0; 1; 1; 0; 1]%nat timer_and_yield = Some deadlocked ∧
  (∀ c x, cores deadlocked !! c = Some x → spinning x ≠ None ∧ eflags_if x = false) ∧
  (∀ l, Forall (λ c, c < 2)%nat l → interleave l deadlocked = Some deadlocked).
Proof.
  split_and!.
  - intros rank [H1 H2]. simpl in H1, H2. unfold tickslock, ptable_lock in *. rewrite !andb_true_r in *.
    apply Nat.ltb_lt in H1, H2. lia.
  - vm_compute. reflexivity.
  - intros [|[|c]] x; vm_compute; intros [= <-]; done.
  - assert (core_step 0 deadlocked = Some deadlocked) as E0 by (vm_compute; reflexivity).
    assert (core_step 1 deadlocked = Some deadlocked) as E1 by (vm_compute; reflexivity).
    induction l as [|c l IH]; [intros _; reflexivity|]. intros [Hc Hl]%Forall_cons_1. cbn [interleave]. destruct c as [|[|c]]; [rewrite E0|rewrite E1|lia]; cbn [mbind option_bind]; exact (IH Hl).
Qed.
