(* ===== verification/XvKalloc.v ===== *)
(** The page allocator of the xv6 kernel (kalloc.c): a list of free pages that is
    threaded through the pages themselves. *)

From stdpp Require Import base option list numbers gmap.
From coqutil Require Import Datatypes.RecordSettersUsingExistingGetters.
From Stdlib Require Import ZArith Lia.
From S2P Require Import Prelude.
Local Open Scope Z_scope.

Definition PGSIZE : Z := 4096.
Definition KERNBASE : Z := 2147483648.
Definition PHYSTOP : Z := 234881024.

(** [mem] is the first word of each page, where a free page keeps the link to the
    next one; the rest of a page plays no role.  The locks around the two
    functions make each of them one step. *)
Record kmem := mk_kmem { freelist : Z; mem : gmap Z Z }.

Section kalloc.
(** The end of the kernel in memory, which the linker sets. *)
Context (kernel_end : Z).

Definition kfree (v : Z) (s : kmem) : option kmem :=
  if bool_decide (v mod PGSIZE ≠ 0) || bool_decide (v < kernel_end) || bool_decide (PHYSTOP ≤ u32 (v - KERNBASE)) then None
  else
    let s := { s with mem ::= <[v := 16843009]> } in   (* memset(v, 1, PGSIZE) *)
    Some ({ s with mem ::= <[v := freelist s]>; freelist := v }).

Definition kalloc (s : kmem) : Z * kmem :=
  let r := freelist s in
  (r, if bool_decide (r ≠ 0) then { s with freelist := mem s !!! r } else s).

(** [freerange], with [fuel] turns of its loop. *)
Fixpoint freerange_loop (fuel : nat) (p vend : Z) (s : kmem) : option kmem :=
  if bool_decide (p + PGSIZE ≤ vend) then
    match fuel with
    | O => None
    | S fuel => s ← kfree p s; freerange_loop fuel (p + PGSIZE) vend s
    end
  else Some s.
Definition PGROUNDUP (a : Z) : Z := Z.land (u32 (a + PGSIZE - 1)) (Z.lnot (PGSIZE - 1)).
Definition freerange (vstart vend : Z) (s : kmem) : option kmem :=
  let p := PGROUNDUP vstart in freerange_loop (Z.to_nat ((vend - p) / PGSIZE)) p vend s.

Definition kinit1 (vstart vend : Z) : option kmem := freerange vstart vend (mk_kmem 0 ∅).
Definition kinit2 (vstart vend : Z) (s : kmem) : option kmem := freerange vstart vend s.

(** * The free list *)

Definition is_page (v : Z) : Prop := v mod PGSIZE = 0 ∧ kernel_end ≤ v ∧ u32 (v - KERNBASE) < PHYSTOP.

(** The pages on the list that starts at [r]. *)
Fixpoint chain (m : gmap Z Z) (r : Z) (l : list Z) : Prop :=
  match l with
  | [] => r = 0
  | v :: l => r = v ∧ ∃ n, m !! v = Some n ∧ chain m n l
  end.

Lemma chain_other m r l v x : v ∉ l → chain m r l → chain (<[v := x]> m) r l.
Proof.
  revert r. induction l as [|w l IH]; intros r Hn H; simpl in *; [done|]. apply not_elem_of_cons in Hn as [Hne Hn].
  destruct H as (->&n&Hm&H). split; [done|]. exists n. rewrite lookup_insert_ne by done. auto.
Qed.

(** The allocator with free pages [l] while the pages [used] are handed out. *)
Record kmem_ok (l : list Z) (used : gset Z) (s : kmem) : Prop := {
  ko_chain : chain (mem s) (freelist s) l;
  ko_nodup : NoDup l;
  ko_free : ∀ v, v ∈ l → is_page v ∧ v ∉ used;
  ko_used : ∀ v, v ∈ used → is_page v;
}.

Context (end_pos : 0 < kernel_end).

Lemma kfree_ok l used s v :
  kmem_ok l used s → v ∈ used → ∃ s', kfree v s = Some s' ∧ kmem_ok (v :: l) (used ∖ {[v]}) s'.
Proof.
  intros [K1 K2 K3 K4] Hv. destruct (K4 v Hv) as (P1&P2&P3). unfold kfree. rewrite !bool_decide_eq_false_2 by lia. simpl.
  assert (v ∉ l) as Hn by (intros Hl; by destruct (K3 v Hl)). eexists. split; [done|]. split; simpl.
  - split; [done|]. exists (freelist s). rewrite lookup_insert_eq. split; [done|]. apply chain_other; [done|]. by apply chain_other.
  - by apply NoDup_cons_2.
  - intros w. rewrite elem_of_cons. intros [-> |Hw]; [split; [done|set_solver]|]. destruct (K3 w Hw). split; [done|set_solver].
  - intros w Hw. apply K4. set_solver.
Qed.

(** [kalloc] hands out a page that nobody has, or fails when there is none. *)
Lemma kalloc_ok l used s :
  kmem_ok l used s →
  match l with
  | [] => kalloc s = (0, s)
  | v :: l' => ∃ s', kalloc s = (v, s') ∧ v ∉ used ∧ is_page v ∧ kmem_ok l' ({[v]} ∪ used) s'
  end.
Proof.
  intros [K1 K2 K3 K4]. unfold kalloc. destruct l as [|v l]; simpl in K1; [by rewrite K1|]. destruct K1 as (->&n&Hm&Hc).
  apply list.NoDup_cons in K2 as [Hn Hnd]. destruct (K3 v) as [P Hu]; [by left|]. destruct (P) as (_&P2&_).
  rewrite bool_decide_eq_true_2 by lia. eexists. split; [done|]. split_and!; [done|done|]. split; simpl.
  - by rewrite (lookup_total_correct _ _ _ Hm).
  - done.
  - intros w Hw. destruct (K3 w) as [? ?]; [by right|]. split; [done|]. set_solver.
  - intros w Hw. apply elem_of_union in Hw as [->%elem_of_singleton|Hw]; [done|by apply K4].
Qed.

(** A page that is handed out can be written. *)
Lemma write_ok l used s v x : kmem_ok l used s → v ∈ used → kmem_ok l used (mk_kmem (freelist s) (<[v := x]> (mem s))).
Proof. intros [K1 K2 K3 K4] Hv. split; simpl; try done. apply chain_other; [|done]. intros Hl. by destruct (K3 v Hl). Qed.

(** * Runs of clients *)

(** What the kernel does with pages: allocate, free one it has, write to it. *)
Inductive page_op := P_alloc | P_free (v : Z) | P_write (v x : Z).

(** A run, with the pages that are handed out; [None] is a panic or a use of a page
    that is not handed out. *)
Definition page_step (o : page_op) (x : gset Z * kmem) : option (gset Z * kmem) :=
  let '(used, s) := x in
  match o with
  | P_alloc => let '(v, s) := kalloc s in Some (if bool_decide (v = 0) then used else {[v]} ∪ used, s)
  | P_free v => if bool_decide (v ∈ used) then s ← kfree v s; Some (used ∖ {[v]}, s) else None
  | P_write v w => if bool_decide (v ∈ used) then Some (used, mk_kmem (freelist s) (<[v := w]> (mem s))) else None
  end.
Fixpoint page_run (l : list page_op) (x : gset Z * kmem) : option (gset Z * kmem) :=
  match l with [] => Some x | o :: l => page_step o x ≫= page_run l end.

(** The clients keep to the pages they have. *)
Fixpoint proper (l : list page_op) (x : gset Z * kmem) : bool :=
  match l with
  | [] => true
  | o :: l =>
      match o with P_alloc => true | P_free v | P_write v _ => bool_decide (v ∈ x.1) end &&
      match page_step o x with Some x => proper l x | None => true end
  end.

Lemma page_step_ok o l used s :
  kmem_ok l used s → match o with P_alloc => true | P_free v | P_write v _ => bool_decide (v ∈ used) end = true →
  ∃ l' used' s', page_step o (used, s) = Some (used', s') ∧ kmem_ok l' used' s' ∧
    (length l' + size used' = length l + size used)%nat.
Proof.
  intros K Hp. destruct o as [|v|v w]; cbn [page_step].
  - pose proof (kalloc_ok l used s K) as H. destruct l as [|v l].
    + rewrite H. exists [], used, s. done.
    + destruct H as (s'&E&Hn&(_&P&_)&K'). rewrite E. rewrite bool_decide_eq_false_2 by lia. exists l, ({[v]} ∪ used), s'.
      split; [done|]. split; [done|]. rewrite size_union by set_solver. rewrite size_singleton. simpl. lia.
  - apply bool_decide_eq_true in Hp as Hv. rewrite Hp. destruct (kfree_ok l used s v K Hv) as (s'&E&K'). rewrite E. simpl.
    exists (v :: l), (used ∖ {[v]}), s'. split; [done|]. split; [done|]. rewrite size_difference by set_solver. rewrite size_singleton. simpl.
    assert (0 < size used)%nat; [|lia]. apply Nat.neq_0_lt_0. rewrite size_non_empty_iff. set_solver.
  - apply bool_decide_eq_true in Hp as Hv. rewrite Hp. exists l, used. eexists. split; [done|]. split; [|done]. by apply write_ok.
Qed.

Lemma page_run_ok ops l used s :
  kmem_ok l used s → proper ops (used, s) = true →
  ∃ l' used' s', page_run ops (used, s) = Some (used', s') ∧ kmem_ok l' used' s' ∧ (length l' + size used' = length l + size used)%nat.
Proof.
  revert l used s. induction ops as [|o ops IH]; intros l used s K Hp; [exists l, used, s; done|].
  cbn [proper] in Hp. apply andb_true_iff in Hp as [Ho Hp]. cbn [fst] in Ho.
  destruct (page_step_ok o l used s K Ho) as (l1&u1&s1&E1&K1&S1). rewrite E1 in Hp. destruct (IH l1 u1 s1 K1 Hp) as (l2&u2&s2&E2&K2&S2).
  exists l2, u2, s2. cbn [page_run]. rewrite E1. split; [done|]. split; [done|lia].
Qed.

(** * Starting *)

(** The [n] pages from [p] on. *)
Definition pages (p : Z) (n : nat) : list Z := (λ k, p + Z.of_nat k * PGSIZE) <$> seq 0 n.

Lemma pages_cons p n : pages p (S n) = p :: pages (p + PGSIZE) n.
Proof.
  unfold pages. cbn [seq]. rewrite fmap_cons. f_equal; [lia|]. rewrite <- fmap_S_seq, <- list_fmap_compose. apply list_fmap_ext. intros i k _. simpl. lia.
Qed.

Lemma freerange_ok n p vend l used s :
  (vend - p) / PGSIZE = Z.of_nat n → kmem_ok l used s → (∀ v, v ∈ pages p n → v ∈ used) → NoDup (pages p n) →
  ∃ s', freerange_loop n p vend s = Some s' ∧ kmem_ok (reverse (pages p n) ++ l) (used ∖ list_to_set (pages p n)) s'.
Proof.
  revert p l used s. induction n as [|n IH]; intros p l used s Hn K Hu Hnd.
  - unfold pages. simpl. assert (¬ p + PGSIZE ≤ vend) as Hb.
    { intros Hle. assert (1 ≤ (vend - p) / PGSIZE); [|lia]. apply Z.div_le_lower_bound; unfold PGSIZE in *; lia. }
    rewrite bool_decide_eq_false_2 by done. exists s. split; [done|]. by rewrite difference_empty_L.
  - rewrite pages_cons in *. assert (p + PGSIZE ≤ vend) as Hb.
    { assert (PGSIZE * 1 ≤ vend - p); [|lia]. apply Z.lt_le_incl in end_pos. etransitivity; [|apply (Z.mul_div_le (vend - p) PGSIZE); done]. rewrite Hn. unfold PGSIZE. lia. }
    simpl. rewrite bool_decide_eq_true_2 by done. destruct (kfree_ok l used s p K) as (s1&E1&K1); [apply Hu; by left|].
    rewrite E1. simpl. apply list.NoDup_cons in Hnd as [Hp Hnd].
    destruct (IH (p + PGSIZE) (p :: l) (used ∖ {[p]}) s1) as (s2&E2&K2); [|exact K1| |done|].
    + replace (vend - (p + PGSIZE)) with (vend - p + -1 * PGSIZE) by lia. rewrite Z.div_add by done. lia.
    + intros v Hv. apply elem_of_difference. split; [apply Hu; by right|]. intros ->%elem_of_singleton. done.
    + exists s2. split; [done|]. rewrite reverse_cons, <- app_assoc. simpl.
      replace (used ∖ ({[p]} ∪ list_to_set (pages (p + PGSIZE) n))) with (used ∖ {[p]} ∖ list_to_set (pages (p + PGSIZE) n)) by set_solver. done.
Qed.

Lemma pages_nodup p n : NoDup (pages p n).
Proof. unfold pages. apply NoDup_fmap_2; [|apply NoDup_seq]. intros i j. unfold PGSIZE. lia. Qed.
Lemma length_pages p n : length (pages p n) = n.
Proof. unfold pages. by rewrite length_fmap, length_seq. Qed.

(** The first free list has all pages of the range. *)
Lemma kinit1_ok vstart vend n :
  (vend - PGROUNDUP vstart) / PGSIZE = Z.of_nat n → Forall is_page (pages (PGROUNDUP vstart) n) →
  ∃ s, kinit1 vstart vend = Some s ∧ kmem_ok (reverse (pages (PGROUNDUP vstart) n)) ∅ s.
Proof.
  intros Hn Hp. unfold kinit1, freerange. rewrite Hn, Nat2Z.id. set (p := PGROUNDUP vstart) in *.
  destruct (freerange_ok n p vend [] (list_to_set (pages p n)) (mk_kmem 0 ∅)) as (s&E&K); [done| | |apply pages_nodup|].
  - split; [done|apply NoDup_nil_2|by intros v ?%elem_of_nil|]. intros v Hv. apply elem_of_list_to_set in Hv. by eapply Forall_forall in Hp.
  - intros v Hv. by apply elem_of_list_to_set.
  - exists s. split; [done|]. by rewrite app_nil_r, difference_diag_L in K.
Qed.

(** C40: The page allocator never hands out a page twice: after [kinit1] on a range
    of [n] pages of memory, through every sequence of allocations, writes to
    pages and frees in which the kernel uses only pages it has, nothing panics,
    the next [kalloc] returns a page of the range that is not handed out, and it
    fails exactly when all [n] pages are. *)
Theorem kalloc_exclusive vstart vend n ops :
  (vend - PGROUNDUP vstart) / PGSIZE = Z.of_nat n → Forall is_page (pages (PGROUNDUP vstart) n) →
  ∃ s0, kinit1 vstart vend = Some s0 ∧
  (proper ops (∅, s0) = true →
   ∃ used s, page_run ops (∅, s0) = Some (used, s) ∧ (kalloc s).1 ∉ used ∧
     ((kalloc s).1 = 0 ↔ size used = n) ∧ ((kalloc s).1 ≠ 0 → is_page (kalloc s).1)).
Proof.
  intros Hn Hp. destruct (kinit1_ok vstart vend n Hn Hp) as (s0&E0&K0). exists s0. split; [done|]. intros Hops.
  destruct (page_run_ok ops _ _ s0 K0 Hops) as (l&used&s&E&K&S). exists used, s. split; [done|].
  rewrite length_reverse, length_pages, size_empty, Nat.add_0_r in S. pose proof (kalloc_ok l used s K) as H. destruct l as [|v l].
  - rewrite H. simpl in *. split_and!; [|done|done]. intros H0. destruct (ko_used _ _ _ K 0 H0) as (_&?&_). lia.
  - destruct H as (s'&E'&Hv&P&_). rewrite E'. simpl in *. split_and!; [done| |done]. destruct P as (_&?&_). split; intros ?; [lia|].
    assert (size used < n)%nat by lia. lia.
Qed.

End kalloc.

(** Eight pages after a kernel that ends at 0x80107000. *)
Lemma kalloc_exclusive_witness :
  ∃ s0, kinit1 2148560896 2148560896 (2148560896 + 32768) = Some s0 ∧
  ∃ used s, page_run 2148560896 [P_alloc; P_alloc; P_write 2148589568 7; P_free 2148585472] (∅, s0) = Some (used, s) ∧ (kalloc s).1 ∉ used.
Proof.
  destruct (kalloc_exclusive 2148560896 ltac:(lia) 2148560896 (2148560896 + 32768) 8
              [P_alloc; P_alloc; P_write 2148589568 7; P_free 2148585472]) as (s0&E0&H).
  - vm_compute. reflexivity.
  - unfold pages. apply Forall_fmap, Forall_seq. intros j Hj. assert (PGROUNDUP 2148560896 = 2148560896) as E by (vm_compute; reflexivity).
    unfold is_page, compose, PGSIZE, KERNBASE, PHYSTOP. rewrite E, Z_mod_plus_full, u32_id by lia. split; [reflexivity|]. lia.
  - exists s0. split; [exact E0|]. destruct H as (used&s&E&Hn&_); [|by exists used, s]. vm_compute in E0. injection E0 as <-. vm_compute. reflexivity.
Defined.
