(* ===== verification/XvLog.v ===== *)
(** The write-ahead log of the xv6 file system (log.c), on a disk whose power can
    fail between any two block writes. *)

From stdpp Require Import base option list numbers gmap.
From coqutil Require Import Datatypes.RecordSettersUsingExistingGetters.
From Stdlib Require Import ZArith Lia.
From S2P Require Import Prelude.
Local Open Scope Z_scope.

Global Arguments set {R E} getter {Setter} fieldUpdater r /.
Global Arguments tset {R E} t {Setter} _ /.
Global Arguments const {E} newValue _ /.

(** * The disk and the block cache *)

Definition MAXOPBLOCKS : Z := 10.
Definition LOGSIZE : Z := MAXOPBLOCKS * 3.

(** A block, as the words it holds. *)
Abbreviation block := (list Z).
Definition WORDS : nat := 128.

(** The log in memory; [lh] lists the blocks of the header, its length is [n]. *)
Record log := mk_log { start : nat; size : Z; outstanding : Z; committing : bool; lh : list nat }.

(** [dirty] are the buffers with B_DIRTY, which stay in the cache; every other
    buffer has the contents of the disk.  [power] is the number of block writes
    before the power fails. *)
Record machine := mk_machine { disk : gmap nat block; dirty : gmap nat block; lg : log; power : nat }.

Inductive outcome (A : Type) :=
  | Done (x : A) (s : machine)
  | Crashed (d : gmap nat block)   (* the power failed; what the disk holds *)
  | Panicked.
Global Arguments Done {A} x s.
Global Arguments Crashed {A} d.
Global Arguments Panicked {A}.

Definition DM (A : Type) : Type := machine → outcome A.
#[global] Instance DM_ret : MRet DM := λ A x s, Done x s.
#[global] Instance DM_bind : MBind DM := λ A B f m s,
  match m s with Done x s => f x s | Crashed d => Crashed d | Panicked => Panicked end.
Definition read {A} (f : machine → A) : DM A := λ s, Done (f s) s.
Definition update (f : machine → machine) : DM () := λ s, Done tt (f s).
Definition panic {A} : DM A := λ _, Panicked.

Definition bread (b : nat) : DM block := read (λ s, default (disk s !!! b) (dirty s !! b)).

(** [bwrite] of a buffer with contents [x]. *)
Definition bwrite (b : nat) (x : block) : DM () :=
  λ s, match power s with
       | O => Crashed (disk s)
       | S k => Done tt { s with disk ::= <[b := x]>; dirty ::= delete b; power := k }
       end.

Fixpoint for_each {A} (f : nat → A → DM ()) (i : nat) (l : list A) : DM () :=
  match l with
  | [] => mret tt
  | x :: l => f i x ;; for_each f (S i) l
  end.

(** * The log *)

(** The words of a header: [n], then the block numbers. *)
Fixpoint put_words (i : nat) (l : list nat) (hb : block) : block :=
  match l with
  | [] => hb
  | b :: l => put_words (S i) l (<[i := Z.of_nat b]> hb)
  end.
Definition encode_head (l : list nat) (hb : block) : block := put_words 1 l (<[0%nat := Z.of_nat (length l)]> hb).
Definition decode_head (hb : block) : list nat := Z.to_nat <$> take (Z.to_nat (hb !!! 0%nat)) (drop 1 hb).

Definition set_lh (l : list nat) : DM () := update (λ s, { s with lg := { lg s with lh := l } }).

Definition install_trans : DM () :=
  l ← read (lh ∘ lg); st ← read (start ∘ lg);
  for_each (λ tail b, lbuf ← bread (st + tail + 1); bwrite b lbuf) 0 l.

Definition read_head : DM () :=
  st ← read (start ∘ lg); buf ← bread st; set_lh (decode_head buf).

Definition write_head : DM () :=
  st ← read (start ∘ lg); l ← read (lh ∘ lg); buf ← bread st; bwrite st (encode_head l buf).

Definition recover_from_log : DM () :=
  read_head ;; install_trans ;; set_lh [] ;; write_head.

(** [begin_op]: whether the caller gets in; otherwise it sleeps and tries again. *)
Definition begin_op : DM bool :=
  g ← read lg;
  if committing g then mret false
  else if bool_decide (Z.of_nat (length (lh g)) + (outstanding g + 1) * MAXOPBLOCKS > LOGSIZE) then mret false
  else update (λ s, { s with lg := { lg s with outstanding ::= Z.add 1 } }) ;; mret true.

Definition write_log : DM () :=
  l ← read (lh ∘ lg); st ← read (start ∘ lg);
  for_each (λ tail b, from ← bread b; bwrite (st + tail + 1) from) 0 l.

Definition commit : DM () :=
  l ← read (lh ∘ lg);
  if bool_decide (l = []) then mret tt
  else write_log ;; write_head ;; install_trans ;; set_lh [] ;; write_head.

Definition end_op : DM () :=
  update (λ s, { s with lg := { lg s with outstanding ::= Z.pred } }) ;;
  g ← read lg;
  if committing g then panic
  else if bool_decide (outstanding g = 0) then
    update (λ s, { s with lg := { lg s with committing := true } }) ;;
    commit ;;
    update (λ s, { s with lg := { lg s with committing := false } })
  else mret tt.

(** [log_write] of block [b], whose buffer the caller has filled with [x]. *)
Definition log_write (b : nat) (x : block) : DM () :=
  g ← read lg;
  if bool_decide (LOGSIZE ≤ Z.of_nat (length (lh g))) || bool_decide (size g - 1 ≤ Z.of_nat (length (lh g))) then panic
  else if bool_decide (outstanding g < 1) then panic
  else update (λ s, { s with lg := { lg s with lh ::= λ l, if bool_decide (b ∈ l) then l else l ++ [b] }; dirty ::= <[b := x]> }).

(** [initlog]: the log after the machine is switched on with disk [d]. *)
Definition power_on (st : nat) (sz : Z) (d : gmap nat block) (k : nat) : machine := mk_machine d ∅ (mk_log st sz 0 false []) k.
Definition initlog (st : nat) (sz : Z) (d : gmap nat block) (k : nat) : outcome () := recover_from_log (power_on st sz d k).

(** * Sequences of operations *)

(** The file system's calls, in the order in which they take the lock of the
    log; commits happen inside the [end_op] of the last active operation. *)
Inductive log_op := L_begin | L_write (b : nat) (x : block) | L_end.

Definition log_step (o : log_op) : DM () :=
  match o with L_begin => begin_op ;; mret tt | L_write b x => log_write b x | L_end => end_op end.
Fixpoint log_run (l : list log_op) : DM () :=
  match l with [] => mret tt | o :: l => log_step o ;; log_run l end.
