(* ===== verification/XvBio.v ===== *)
(** The block cache of xv6 (bio.c, and the request to the disk of ide.c): buffers
    in the order of their last use, shared by processes that read, change and
    write blocks. *)

From stdpp Require Import base option list numbers gmap sets.
From coqutil Require Import Datatypes.RecordSettersUsingExistingGetters.
From Stdlib Require Import ZArith Lia.
From S2P Require Import Prelude Counting XvLog.
Local Open Scope Z_scope.

(** * The cache *)

Definition NBUF : nat := 30.
Global Arguments NBUF : simpl never.

(** A device and a block number. *)
Abbreviation bkey := (nat * nat)%type.

Record buf := mk_buf { b_key : bkey; b_valid : bool; b_dirty : bool; b_lock : option nat; refcnt : Z; b_data : block }.

(** [order] is the list through the buffers, most recently used first, by their
    index in the array; the lock of the cache makes a pass over it one step.
    [havedisk1] is what [ideinit] found. *)
Record bcache := mk_bcache { slots : list buf; order : list nat; havedisk1 : bool; bdisk : gmap bkey block }.

Definition set_buf (i : nat) (f : buf → buf) (s : bcache) : bcache := { s with slots ::= alter f i }.

Definition binit (d1 : bool) (d : gmap bkey block) : bcache :=
  mk_bcache (replicate NBUF (mk_buf (0, 0)%nat false false None 0 [])) (reverse (seq 0 NBUF)) d1 d.

(** The sleep lock of a buffer is held by the process of that pid. *)
Definition holdingsleep (pid : nat) (b : buf) : bool := bool_decide (b_lock b = Some pid).
Definition acquiresleep (pid : nat) (b : buf) : option buf :=
  match b_lock b with Some _ => None | None => Some { b with b_lock := Some pid } end.
Definition releasesleep (b : buf) : buf := { b with b_lock := None }.

(** [bget] up to [acquiresleep]; [None] is its panic. *)
Definition bget (k : bkey) (s : bcache) : option (nat * bcache) :=
  match list_find (λ i, b_key <$> slots s !! i = Some k) (order s) with
  | Some (_, i) => Some (i, set_buf i (λ b, { b with refcnt ::= Z.add 1 }) s)
  | None =>
      match list_find (λ i, (λ b, (refcnt b, b_dirty b)) <$> slots s !! i = Some (0, false)) (reverse (order s)) with
      | Some (_, i) => Some (i, set_buf i (λ b, { b with b_key := k; b_valid := false; b_dirty := false; refcnt := 1 }) s)
      | None => None
      end
  end.

(** [iderw] and the interrupt that ends the request: the buffer and the block of
    the disk become the same. The three tests at its start panic. *)
Definition iderw (pid i : nat) (s : bcache) : option bcache :=
  b ← slots s !! i;
  if negb (holdingsleep pid b) then None
  else if b_valid b && negb (b_dirty b) then None
  else if negb (bool_decide ((b_key b).1 = 0%nat)) && negb (havedisk1 s) then None
  else if b_dirty b
  then Some ({ set_buf i (λ b, { b with b_dirty := false; b_valid := true }) s with bdisk ::= <[b_key b := b_data b]> })
  else Some (set_buf i (λ b, { b with b_data := bdisk s !!! b_key b; b_valid := true }) s).

(** The rest of [bget] and [bread] once the lock of the buffer is free. *)
Definition bread_locked (pid i : nat) (s : bcache) : option bcache :=
  b ← slots s !! i;
  b ← acquiresleep pid b;
  let s := set_buf i (const b) s in
  if b_valid b then Some s else iderw pid i s.

(** The holder of the buffer fills it with [y] and calls [bwrite]. *)
Definition bwrite_buf (pid i : nat) (y : block) (s : bcache) : option bcache :=
  b ← slots s !! i;
  if negb (holdingsleep pid b) then None else iderw pid i (set_buf i (λ b, { b with b_data := y; b_dirty := true }) s).

(** The holder fills it and leaves the writing to the log, which marks it. *)
Definition mark_dirty (i : nat) (y : block) (s : bcache) : option bcache :=
  b ← slots s !! i;
  Some (set_buf i (λ b, { b with b_data := y; b_dirty := true }) s).

(** [brelse] gives the lock up first, and drops the reference afterwards. *)
Definition brelse_unlock (pid i : nat) (s : bcache) : option bcache :=
  b ← slots s !! i;
  if negb (holdingsleep pid b) then None else Some (set_buf i releasesleep s).

Definition brelse_drop (i : nat) (s : bcache) : option bcache :=
  b ← slots s !! i;
  let s := set_buf i (λ b, { b with refcnt ::= Z.pred }) s in
  Some (if bool_decide (refcnt b - 1 = 0) then { s with order ::= λ l, i :: filter (λ j, j ≠ i) l } else s).

(** * Processes that use it *)

(** Where a process is in its use of a block: in [bread], after it, in [brelse]. *)
Inductive use := Waiting | Holding | Leaving.
Global Instance use_eq_dec : EqDecision use.
Proof. solve_decision. Defined.

Record bhandle := mk_handle { h_pid : nat; h_key : bkey; h_slot : nat; h_use : use }.
Record session := mk_session { cache : bcache; handles : list bhandle }.

Inductive bop :=
  | B_get (pid : nat) (k : bkey)      (* a call of bread finds its buffer *)
  | B_lock (n : nat)                  (* and gets its lock, when it is free *)
  | B_mark (n : nat) (y : block)
  | B_write (n : nat) (y : block)
  | B_unlock (n : nat)
  | B_drop (n : nat).

Definition slot_free (s : session) (h : bhandle) : bool := bool_decide (b_lock <$> slots (cache s) !! h_slot h = Some None).

(** Whether a process can take the step: its call is at that point. *)
Definition b_enabled (o : bop) (s : session) : bool :=
  match o with
  | B_get _ k => bool_decide (k.1 ≠ 0)%nat
  | B_lock n => match handles s !! n with Some h => bool_decide (h_use h = Waiting) && slot_free s h | None => false end
  | B_mark n _ | B_write n _ | B_unlock n => bool_decide (h_use <$> handles s !! n = Some Holding)
  | B_drop n => bool_decide (h_use <$> handles s !! n = Some Leaving)
  end.

Definition set_use (n : nat) (u : use) (l : list bhandle) : list bhandle := alter (λ h, mk_handle (h_pid h) (h_key h) (h_slot h) u) n l.

(** [None]: the kernel panics. *)
Definition b_step (o : bop) (s : session) : option session :=
  match o with
  | B_get pid k => '(i, c) ← bget k (cache s); Some (mk_session c (handles s ++ [mk_handle pid k i Waiting]))
  | B_lock n =>
      h ← handles s !! n; c ← bread_locked (h_pid h) (h_slot h) (cache s);
      Some (mk_session c (set_use n Holding (handles s)))
  | B_mark n y => h ← handles s !! n; c ← mark_dirty (h_slot h) y (cache s); Some (mk_session c (handles s))
  | B_write n y => h ← handles s !! n; c ← bwrite_buf (h_pid h) (h_slot h) y (cache s); Some (mk_session c (handles s))
  | B_unlock n =>
      h ← handles s !! n; c ← brelse_unlock (h_pid h) (h_slot h) (cache s);
      Some (mk_session c (set_use n Leaving (handles s)))
  | B_drop n => h ← handles s !! n; c ← brelse_drop (h_slot h) (cache s); Some (mk_session c (delete n (handles s)))
  end.

Inductive b_reachable (d : gmap bkey block) : session → Prop :=
  | b_boot : b_reachable d (mk_session (binit true d) [])
  | b_next o s s' : b_reachable d s → b_enabled o s = true → b_step o s = Some s' → b_reachable d s'.

(** The contents of a block: those of its buffer if it has a valid one. *)
Definition buffer_of (k : bkey) (s : bcache) : option buf :=
  snd <$> list_find (λ b, b_key b = k ∧ b_valid b = true) (slots s).
Definition contents (s : bcache) (k : bkey) : block :=
  match buffer_of k s with Some b => b_data b | None => bdisk s !!! k end.

(** * The invariant *)

Definition refers (i : nat) (h : bhandle) : Z := Z.b2z (bool_decide (h_slot h = i)).
Definition holds (i : nat) (h : bhandle) : Z := Z.b2z (bool_decide (h_slot h = i ∧ h_use h = Holding)).

(** At most one buffer for a block. *)
Definition one_buffer (l : list buf) : Prop :=
  ∀ i j b b', l !! i = Some b → l !! j = Some b' → b_key b = b_key b' → (b_key b).1 ≠ 0%nat → i = j.

(** A buffer, with the disk. *)
Record buf_ok (d : gmap bkey block) (b : buf) : Prop := {
  bf_clean : b_valid b = true → b_dirty b = false → b_data b = d !!! b_key b;
  bf_dirty : b_dirty b = true → b_valid b = true;
  bf_used : b_valid b = true → (b_key b).1 ≠ 0%nat;
}.

(** The buffer of a call. *)
Record serves (b : buf) (h : bhandle) : Prop := {
  sv_key : b_key b = h_key h;
  sv_used : (h_key h).1 ≠ 0%nat;
  sv_held : h_use h = Holding → b_lock b = Some (h_pid h) ∧ b_valid b = true;
}.

Record bio_ok (s : session) : Prop := {
  bo_len : length (slots (cache s)) = NBUF;
  bo_disk1 : havedisk1 (cache s) = true;
  bo_order : ∀ i, i ∈ order (cache s) ↔ (i < NBUF)%nat;
  bo_nodup : NoDup (order (cache s));
  bo_one : one_buffer (slots (cache s));
  bo_buf : ∀ i b, slots (cache s) !! i = Some b → buf_ok (bdisk (cache s)) b;
  bo_ref : ∀ i b, slots (cache s) !! i = Some b → refcnt b = total (refers i) (handles s);
  bo_lock : ∀ i b, slots (cache s) !! i = Some b → Z.b2z (bool_decide (is_Some (b_lock b))) = total (holds i) (handles s);
  bo_handle : ∀ h, h ∈ handles s → ∃ b, slots (cache s) !! h_slot h = Some b ∧ serves b h;
}.

Lemma refers_nonneg i h : 0 ≤ refers i h.
Proof. apply b2z_range. Qed.

Lemma holds_nonneg i h : 0 ≤ holds i h.
Proof. apply b2z_range. Qed.

(** * Contents *)

Lemma contents_valid s i b :
  one_buffer (slots s) → slots s !! i = Some b → b_valid b = true → (b_key b).1 ≠ 0%nat → contents s (b_key b) = b_data b.
Proof.
  intros U Hb Hv Hk. unfold contents, buffer_of. destruct (list_find _ _) as [[j b']|] eqn:E.
  - simpl. apply list_find_Some in E as (Hj&[Hk' _]&_). assert (i = j) as <- by (by apply (U i j b b')). congruence.
  - exfalso. apply list_find_None in E. eapply Forall_lookup_1 in E; [|done]. by apply E.
Qed.

Lemma contents_none s k :
  (∀ i b, slots s !! i = Some b → b_key b = k → b_valid b = false) → contents s k = bdisk s !!! k.
Proof.
  intros H. unfold contents, buffer_of. destruct (list_find _ _) as [[j b]|] eqn:E; [|done].
  apply list_find_Some in E as (Hj&[Hk Hv]&_). rewrite (H j b Hj Hk) in Hv. done.
Qed.

Lemma contents_cases s k :
  (∃ i b, slots s !! i = Some b ∧ b_key b = k ∧ b_valid b = true) ∨ (∀ i b, slots s !! i = Some b → b_key b = k → b_valid b = false).
Proof.
  destruct (decide (Exists (λ b, b_key b = k ∧ b_valid b = true) (slots s))) as [He|Hn].
  - left. apply Exists_exists in He as (b&Hb&?). apply list_elem_of_lookup in Hb as [i Hi]. naive_solver.
  - right. intros i b Hi Hk. destruct (b_valid b) eqn:Hv; [|done]. exfalso. apply Hn, Exists_exists. exists b.
    split; [by eapply list_elem_of_lookup_2|done].
Qed.

(** Buffer [i] changes from [b] to [b']. *)
Section change.
Context (s s' : bcache) (i : nat) (b b' : buf).
Context (Hs : slots s' = <[i := b']> (slots s)) (Hb : slots s !! i = Some b).
Context (U : one_buffer (slots s)) (U' : one_buffer (slots s')).

Lemma contents_changed k : b_key b' = k → b_valid b' = true → k.1 ≠ 0%nat → contents s' k = b_data b'.
Proof. intros <- Hv Hk. apply (contents_valid s' i); try done. rewrite Hs. apply list_lookup_insert_eq. by eapply lookup_lt_Some. Qed.

Lemma contents_dropped k :
  k.1 ≠ 0%nat → b_key b = k → (b_key b' = k → b_valid b' = false) → contents s' k = bdisk s' !!! k.
Proof.
  intros Hk Hkb Hv. apply contents_none. intros j c Hj Hc. rewrite Hs in Hj. apply list_lookup_insert_Some in Hj as [(->&<-&_)|[Hne Hj]]; [auto|].
  exfalso. apply Hne. apply (U i j b c); congruence.
Qed.

Lemma contents_kept k :
  k.1 ≠ 0%nat → (b_key b = k → b_valid b = false) → (b_key b' = k → b_valid b' = false) → bdisk s' !!! k = bdisk s !!! k →
  contents s' k = contents s k.
Proof.
  intros Hk H1 H2 Hd. destruct (contents_cases s k) as [(j&c&Hj&Hc&Hv)|Hn].
  - assert (i ≠ j) as Hne by (intros ->; assert (c = b) as -> by congruence; rewrite H1 in Hv; done).
    subst k. rewrite (contents_valid s j c) by done. apply (contents_valid s' j c); try done. rewrite Hs. by rewrite list_lookup_insert_ne.
  - rewrite (contents_none s k Hn), <- Hd. apply contents_none. intros j c Hj Hc. rewrite Hs in Hj.
    apply list_lookup_insert_Some in Hj as [(->&<-&_)|[_ Hj]]; [auto|by eapply Hn].
Qed.

(** The buffer keeps its block and its data. *)
Lemma contents_same k :
  k.1 ≠ 0%nat → b_key b' = b_key b → b_valid b' = b_valid b → b_data b' = b_data b → bdisk s' = bdisk s → contents s' k = contents s k.
Proof.
  intros Hk E1 E2 E3 E4. destruct (decide (b_key b = k)) as [<-|Hne].
  - destruct (b_valid b) eqn:Hv.
    + rewrite (contents_changed (b_key b)) by congruence. rewrite E3. symmetry. by apply (contents_valid s i).
    + apply contents_kept; congruence.
  - apply contents_kept; congruence.
Qed.

End change.

(** * Every step keeps the invariant *)

(** A step changes buffer [i] from [b] to [b'], the block of that buffer on the
    disk, and the calls at that buffer. *)
Record changes (s s' : session) (i : nat) (b b' : buf) : Prop := {
  ch_old : slots (cache s) !! i = Some b;
  ch_slots : slots (cache s') = <[i := b']> (slots (cache s));
  ch_disk1 : havedisk1 (cache s') = havedisk1 (cache s);
  ch_order : (∀ j, j ∈ order (cache s') ↔ j ∈ order (cache s)) ∧ NoDup (order (cache s'));
  ch_key : b_key b' = b_key b ∨ ∀ j c, slots (cache s) !! j = Some c → b_key c ≠ b_key b';
  ch_buf : buf_ok (bdisk (cache s')) b';
  ch_disk : ∀ k, k ≠ b_key b → bdisk (cache s') !!! k = bdisk (cache s) !!! k;
  ch_moved : b_key b' ≠ b_key b → bdisk (cache s') = bdisk (cache s);
  ch_ref : ∀ j, total (refers j) (handles s') = total (refers j) (handles s) + (if decide (j = i) then refcnt b' - refcnt b else 0);
  ch_lock : ∀ j, total (holds j) (handles s') = total (holds j) (handles s) +
    (if decide (j = i) then Z.b2z (bool_decide (is_Some (b_lock b'))) - Z.b2z (bool_decide (is_Some (b_lock b))) else 0);
  ch_handle : ∀ h, h ∈ handles s' → if decide (h_slot h = i) then serves b' h else h ∈ handles s;
}.

Lemma changes_one s s' i b b' : bio_ok s → changes s s' i b b' → one_buffer (slots (cache s')).
Proof.
  intros I H j j' c c' Hj Hj' Hk Hz. rewrite (ch_slots _ _ _ _ _ H) in Hj, Hj'. pose proof (ch_old _ _ _ _ _ H) as Hb.
  apply list_lookup_insert_Some in Hj as [(->&<-&_)|[Hne Hj]]; apply list_lookup_insert_Some in Hj' as [(?&<-&_)|[Hne' Hj']]; subst; try done.
  - destruct (ch_key _ _ _ _ _ H) as [E|E]; [|by destruct (E _ _ Hj')]. apply (bo_one _ I _ _ b c' Hb Hj'); congruence.
  - destruct (ch_key _ _ _ _ _ H) as [E|E]; [|by destruct (E _ _ Hj)]. apply (bo_one _ I _ _ c b Hj Hb); congruence.
  - by apply (bo_one _ I _ _ c c' Hj Hj').
Qed.

Lemma changes_buf s s' i b b' j c :
  bio_ok s → changes s s' i b b' → slots (cache s) !! j = Some c → i ≠ j → buf_ok (bdisk (cache s')) c.
Proof.
  intros I H Hj Hne. destruct (bo_buf _ I _ _ Hj) as [H1 H2 H3]. split; try done. intros Hv Hd. rewrite (H1 Hv Hd). symmetry.
  apply (ch_disk _ _ _ _ _ H). intros E. apply Hne, (bo_one _ I _ _ b c (ch_old _ _ _ _ _ H) Hj); [done|]. rewrite <- E. auto.
Qed.

Lemma changes_ok s s' i b b' : bio_ok s → changes s s' i b b' → bio_ok s'.
Proof.
  intros I H. pose proof (ch_slots _ _ _ _ _ H) as Hs. pose proof (ch_old _ _ _ _ _ H) as Hb.
  assert (∀ j c, slots (cache s') !! j = Some c → j = i ∧ c = b' ∨ j ≠ i ∧ slots (cache s) !! j = Some c) as Hl.
  { intros j c Hj. rewrite Hs in Hj. apply list_lookup_insert_Some in Hj as [(->&<-&_)|[? ?]]; auto. }
  split.
  - rewrite Hs, length_insert. apply (bo_len _ I).
  - rewrite (ch_disk1 _ _ _ _ _ H). apply (bo_disk1 _ I).
  - intros j. rewrite (proj1 (ch_order _ _ _ _ _ H)). apply (bo_order _ I).
  - apply (ch_order _ _ _ _ _ H).
  - by eapply changes_one.
  - intros j c [[-> ->]|[Hne Hj]]%Hl; [apply (ch_buf _ _ _ _ _ H)|by eapply changes_buf].
  - intros j c Hj. rewrite (ch_ref _ _ _ _ _ H). destruct (Hl j c Hj) as [[-> ->]|[Hne Hj']].
    + rewrite decide_True by done. pose proof (bo_ref _ I _ _ Hb). lia.
    + rewrite decide_False by done. pose proof (bo_ref _ I _ _ Hj'). lia.
  - intros j c Hj. rewrite (ch_lock _ _ _ _ _ H). destruct (Hl j c Hj) as [[-> ->]|[Hne Hj']].
    + rewrite decide_True by done. pose proof (bo_lock _ I _ _ Hb). lia.
    + rewrite decide_False by done. pose proof (bo_lock _ I _ _ Hj'). lia.
  - intros h Hh. apply (ch_handle _ _ _ _ _ H) in Hh. rewrite Hs. case_decide as Hi.
    + rewrite Hi, list_lookup_insert_eq by (by eapply lookup_lt_Some). eauto.
    + rewrite list_lookup_insert_ne by done. by apply (bo_handle _ I).
Qed.

Lemma alter_twice (f g : buf → buf) i (l : list buf) b : l !! i = Some b → alter f i (alter g i l) = <[i := f (g b)]> l.
Proof.
  intros H. rewrite (list_alter_insert g _ _ b), (list_alter_insert f _ _ (g b)), list_insert_insert_eq; try done.
  apply list_lookup_insert_eq. by eapply lookup_lt_Some.
Qed.

Lemma set_use_insert n u l h : l !! n = Some h → set_use n u l = <[n := mk_handle (h_pid h) (h_key h) (h_slot h) u]> l.
Proof. apply (list_alter_insert (λ h, mk_handle (h_pid h) (h_key h) (h_slot h) u)). Qed.

Lemma elem_of_set_use n u l h h' :
  l !! n = Some h → h' ∈ set_use n u l → h' = mk_handle (h_pid h) (h_key h) (h_slot h) u ∨ ∃ m, m ≠ n ∧ l !! m = Some h'.
Proof.
  intros H. rewrite (set_use_insert _ _ _ _ H). intros [m Hm]%list_elem_of_lookup.
  apply list_lookup_insert_Some in Hm as [(_&<-&_)|[? ?]]; eauto.
Qed.

Lemma refers_set_use n u l h i : l !! n = Some h → total (refers i) (set_use n u l) = total (refers i) l.
Proof. intros H. rewrite (set_use_insert _ _ _ _ H), (total_insert _ _ _ h _ H). unfold refers. simpl. lia. Qed.

Lemma holds_set_use n u l h i :
  l !! n = Some h →
  total (holds i) (set_use n u l) =
    total (holds i) l + (if decide (i = h_slot h) then Z.b2z (bool_decide (u = Holding)) - Z.b2z (bool_decide (h_use h = Holding)) else 0).
Proof.
  intros H. rewrite (set_use_insert _ _ _ _ H), (total_insert _ _ _ h _ H). unfold holds. simpl. case_decide as Hi.
  - subst i. repeat case_bool_decide; simpl; try lia; naive_solver.
  - rewrite !bool_decide_eq_false_2 by naive_solver. lia.
Qed.

Section steps.
Context (s : session) (I : bio_ok s).

Lemma serves_same b b' h : serves b h → b_key b' = b_key b → b_lock b' = b_lock b → (b_valid b = true → b_valid b' = true) → serves b' h.
Proof. intros [H1 H2 H3] E1 E2 E3. split; [congruence|done|]. intros Hu. destruct (H3 Hu). split; [congruence|auto]. Qed.

Lemma served n h : handles s !! n = Some h → ∃ b, slots (cache s) !! h_slot h = Some b ∧ serves b h.
Proof. intros H. eapply (bo_handle _ I), list_elem_of_lookup_2, H. Qed.

Lemma served_by h b i : h ∈ handles s → h_slot h = i → slots (cache s) !! i = Some b → serves b h.
Proof. intros Hh <- Hb. destruct (bo_handle _ I _ Hh) as (b'&Hb'&Hs). by simplify_eq. Qed.

(** A buffer in use is not recycled. *)
Lemma unused i b h : slots (cache s) !! i = Some b → refcnt b = 0 → h ∈ handles s → h_slot h ≠ i.
Proof.
  intros Hb Hr [n Hn]%list_elem_of_lookup <-. pose proof (total_lookup _ _ n h (refers_nonneg (h_slot h)) Hn) as Hl.
  rewrite <- (bo_ref _ I _ _ Hb), Hr in Hl. unfold refers in Hl. rewrite bool_decide_eq_true_2 in Hl by done. simpl in Hl. lia.
Qed.

(** Its lock has no holder when it is free. *)
Lemma unheld i b h : slots (cache s) !! i = Some b → b_lock b = None → h ∈ handles s → h_slot h = i → h_use h ≠ Holding.
Proof.
  intros Hb Hl Hh Hi Hu. destruct (served_by h b i Hh Hi Hb) as [_ _ H]. destruct (H Hu) as [E _]. congruence.
Qed.

(** And no other holder when it is held. *)
Lemma sole_holder n m h h' :
  handles s !! n = Some h → handles s !! m = Some h' → m ≠ n → h_slot h' = h_slot h → h_use h = Holding → h_use h' ≠ Holding.
Proof.
  intros Hn Hm Hne Hs Hu Hu'. destruct (served _ _ Hn) as (b&Hb&_).
  pose proof (total_lookup_2 _ _ m n h' h (holds_nonneg (h_slot h)) Hne Hm Hn) as Hl. rewrite <- (bo_lock _ I _ _ Hb) in Hl.
  pose proof (b2z_range (bool_decide (is_Some (b_lock b)))). unfold holds in Hl. rewrite !bool_decide_eq_true_2 in Hl by done. simpl in Hl. lia.
Qed.

(** The step of a holder that changes only its buffer and the block of it. *)
Lemma holder_changes c i b b' :
  slots (cache s) !! i = Some b → slots c = <[i := b']> (slots (cache s)) → order c = order (cache s) →
  havedisk1 c = havedisk1 (cache s) → b_key b' = b_key b → b_lock b' = b_lock b → refcnt b' = refcnt b → b_valid b' = true →
  buf_ok (bdisk c) b' → (∀ k, k ≠ b_key b → bdisk c !!! k = bdisk (cache s) !!! k) → changes s (mk_session c (handles s)) i b b'.
Proof.
  intros Hb Hs Ho H1 Hk Hl Hr Hv Hok Hd. split; simpl; try done.
  - rewrite Ho. split; [done|apply (bo_nodup _ I)].
  - by left.
  - intros j. rewrite Hr. case_decide; lia.
  - intros j. rewrite Hl. case_decide; lia.
  - intros h Hh. case_decide; [|done]. eapply serves_same; [by eapply served_by| | |]; done.
Qed.

End steps.

(** * What a step does to the contents of the blocks *)

(** Marking and writing set the contents of the block of the call; the other
    steps, and every other block, leave them. *)
Definition effect (o : bop) (s : session) (k : bkey) : block :=
  match o with
  | B_mark n y | B_write n y => if bool_decide (h_key <$> handles s !! n = Some k) then y else contents (cache s) k
  | _ => contents (cache s) k
  end.

Definition stepped (o : bop) (s s' : session) : Prop :=
  ∃ i b b', changes s s' i b b' ∧ ∀ k, (k.1 ≠ 0)%nat → contents (cache s') k = effect o s k.

Section stepping.
Context (s : session) (I : bio_ok s).

(** Only the counts, the lock or the order change. *)
Lemma quiet_stepped o s' i b b' :
  changes s s' i b b' → b_key b' = b_key b → b_valid b' = b_valid b → b_data b' = b_data b → bdisk (cache s') = bdisk (cache s) →
  (∀ k, effect o s k = contents (cache s) k) → stepped o s s'.
Proof.
  intros H E1 E2 E3 E4 He. exists i, b, b'. split; [done|]. intros k Hk. rewrite He.
  eapply (contents_same _ _ i b b'); try done; [apply H|apply H|apply (bo_one _ I)|by eapply changes_one].
Qed.

(** The holder of the block sets it. *)
Lemma set_stepped o n h y s' b b' :
  changes s s' (h_slot h) b b' → handles s !! n = Some h → (o = B_mark n y ∨ o = B_write n y) →
  b_key b = h_key h → b_key b' = b_key b → b_valid b' = true → b_data b' = y → stepped o s s'.
Proof.
  intros H Hn Ho E0 E1 E2 E3. exists (h_slot h), b, b'. split; [done|]. intros k Hk.
  assert (effect o s k = if bool_decide (h_key h = k) then y else contents (cache s) k) as ->.
  { destruct Ho as [-> | ->]; simpl; rewrite Hn; simpl; repeat case_bool_decide; naive_solver. }
  pose proof (changes_one _ _ _ _ _ I H). case_bool_decide as E.
  - rewrite <- E3. eapply (contents_changed _ _ (h_slot h) b b'); try done; try apply H. congruence.
  - eapply (contents_kept _ _ (h_slot h) b b'); try done; try apply H; try apply (bo_one _ I); congruence.
Qed.

Lemma get_hit_stepped pid k i b :
  (k.1 ≠ 0)%nat → slots (cache s) !! i = Some b → b_key b = k →
  stepped (B_get pid k) s (mk_session (set_buf i (λ b, { b with refcnt ::= Z.add 1 }) (cache s)) (handles s ++ [mk_handle pid k i Waiting])).
Proof.
  intros Hk Hb E. apply (quiet_stepped _ _ i b ({ b with refcnt ::= Z.add 1 })); try done. split; simpl; try done.
  - by rewrite (list_alter_insert _ _ _ b).
  - split; [done|apply (bo_nodup _ I)].
  - by left.
  - destruct (bo_buf _ I _ _ Hb). split; done.
  - intros j. rewrite total_app. simpl. unfold refers at 2. simpl. repeat case_decide; repeat case_bool_decide; simpl; lia || congruence.
  - intros j. rewrite total_app. simpl. unfold holds at 2. simpl. rewrite bool_decide_eq_false_2 by naive_solver. case_decide; simpl; lia.
  - intros h [Hh| ->%list_elem_of_singleton]%elem_of_app; simpl.
    + case_decide; [|done]. eapply serves_same; [by eapply served_by| | |]; done.
    + rewrite decide_True by done. split; simpl; done.
Qed.

Lemma recycle_contents pid k i b s' b' k' :
  changes s s' i b b' → b_dirty b = false → b_valid b' = false → b_key b' = k → bdisk (cache s') = bdisk (cache s) → (k'.1 ≠ 0)%nat →
  contents (cache s') k' = effect (B_get pid k) s k'.
Proof.
  intros H Hd Hv E Ed Hk'. simpl. pose proof (changes_one _ _ _ _ _ I H) as U. pose proof (ch_old _ _ _ _ _ H) as Hb.
  destruct (decide (b_key b = k' ∧ b_valid b = true)) as [[<- Hvb]|Hn].
  - rewrite (contents_valid (cache s) i b) by (done || apply (bo_one _ I)).
    rewrite (bf_clean _ _ (bo_buf _ I _ _ Hb) Hvb Hd), <- Ed.
    eapply (contents_dropped _ _ i b b'); try done; try apply H; apply (bo_one _ I).
  - eapply (contents_kept _ _ i b b'); try done; try (by rewrite Ed); try apply H; try apply (bo_one _ I).
    intros <-. destruct (b_valid b); [|done]. by destruct Hn.
Qed.

Lemma get_recycle_stepped pid k i b :
  (k.1 ≠ 0)%nat → slots (cache s) !! i = Some b → refcnt b = 0 → b_dirty b = false →
  (∀ j c, slots (cache s) !! j = Some c → b_key c ≠ k) →
  stepped (B_get pid k) s (mk_session (set_buf i (λ b, { b with b_key := k; b_valid := false; b_dirty := false; refcnt := 1 }) (cache s))
    (handles s ++ [mk_handle pid k i Waiting])).
Proof.
  intros Hk Hb Hr Hd Hnew. set (b' := { b with b_key := k; b_valid := false; b_dirty := false; refcnt := 1 }).
  set (s' := mk_session _ _). enough (changes s s' i b b') as H.
  { exists i, b, b'. split; [done|]. intros k' Hk'. by eapply recycle_contents. }
  split; simpl; try done.
  - by rewrite (list_alter_insert _ _ _ b).
  - split; [done|apply (bo_nodup _ I)].
  - by right.
  - rewrite Hr. intros j. rewrite total_app. simpl. unfold refers at 2. simpl. repeat case_decide; repeat case_bool_decide; simpl; lia || congruence.
  - intros j. rewrite total_app. simpl. unfold holds at 2. simpl. rewrite bool_decide_eq_false_2 by naive_solver. case_decide; simpl; lia.
  - intros h [Hh| ->%list_elem_of_singleton]%elem_of_app; simpl.
    + rewrite decide_False; [done|]. by eapply unused.
    + rewrite decide_True by done. split; simpl; done.
Qed.

(** ** The calls of a process *)

Lemma use_changes n h u c b b' :
  handles s !! n = Some h → slots (cache s) !! h_slot h = Some b → slots c = <[h_slot h := b']> (slots (cache s)) → order c = order (cache s) →
  havedisk1 c = havedisk1 (cache s) → b_key b' = b_key b → refcnt b' = refcnt b → (b_valid b = true → b_valid b' = true) → buf_ok (bdisk c) b' →
  bdisk c = bdisk (cache s) →
  Z.b2z (bool_decide (is_Some (b_lock b'))) - Z.b2z (bool_decide (is_Some (b_lock b))) = Z.b2z (bool_decide (u = Holding)) - Z.b2z (bool_decide (h_use h = Holding)) →
  (u = Holding → b_lock b' = Some (h_pid h) ∧ b_valid b' = true) → (∀ m h', m ≠ n → handles s !! m = Some h' → h_slot h' = h_slot h → h_use h' ≠ Holding) →
  changes s (mk_session c (set_use n u (handles s))) (h_slot h) b b'.
Proof.
  intros Hn Hb Hs Ho H1 Hk Hr Hv Hok Hd Hl Hu Hother. split; simpl; try done.
  - rewrite Ho. split; [done|apply (bo_nodup _ I)].
  - by left.
  - intros k _. by rewrite Hd.
  - intros j. rewrite (refers_set_use _ _ _ h), Hr by done. clear. case_decide; lia.
  - intros j. by rewrite (holds_set_use _ _ _ h), Hl by done.
  - intros h' [->|(m&Hm&Hh')]%(elem_of_set_use _ _ _ h); simpl; [| |done].
    + rewrite decide_True by done. destruct (served_by s I h b (h_slot h)) as [E1 E2 _]; [by eapply list_elem_of_lookup_2|done|done|].
      split; simpl; [congruence|done|done].
    + destruct (decide (h_slot h' = h_slot h)); [|by eapply list_elem_of_lookup_2]. destruct (served_by s I h' b (h_slot h)) as [E1 E2 _]; [by eapply list_elem_of_lookup_2|done|done|].
      split; [congruence|done|]. intros Hu'. by destruct (Hother m h').
Qed.

Lemma lock_stepped n h :
  handles s !! n = Some h → h_use h = Waiting → slot_free s h = true → ∃ s', b_step (B_lock n) s = Some s' ∧ stepped (B_lock n) s s'.
Proof.
  intros Hn Hw Hf. destruct (served s I _ _ Hn) as (b&Hb&[E1 E2 _]). apply bool_decide_eq_true in Hf. rewrite Hb in Hf. injection Hf as Hf.
  simpl. rewrite Hn. simpl. unfold bread_locked, acquiresleep. rewrite Hb. simpl. rewrite Hf. simpl.
  assert (∀ m h', m ≠ n → handles s !! m = Some h' → h_slot h' = h_slot h → h_use h' ≠ Holding) as Ho.
  { intros m h' _ Hm Hi. eapply (unheld s I (h_slot h) b); [done|done|by eapply list_elem_of_lookup_2|done]. }
  destruct (b_valid b) eqn:Hv; simpl.
  - eexists. split; [done|]. apply (quiet_stepped _ _ (h_slot h) b ({ b with b_lock := Some (h_pid h) })); try done.
    eapply use_changes; try done.
    + simpl. by rewrite (list_alter_insert _ _ _ b), Hv by done.
    + destruct (bo_buf _ I _ _ Hb). split; done.
    + rewrite Hf, Hw. done.
  - destruct (b_dirty b) eqn:Hd; [apply (bf_dirty _ _ (bo_buf _ I _ _ Hb)) in Hd; congruence|].
    unfold iderw, holdingsleep. simpl. rewrite list_lookup_alter_eq, Hb. simpl.
    rewrite bool_decide_eq_true_2, (bo_disk1 _ I), andb_false_r by done. simpl.
    set (b' := mk_buf (b_key b) true false (Some (h_pid h)) (refcnt b) (bdisk (cache s) !!! b_key b)).
    eexists. split; [done|]. exists (h_slot h), b, b'.
    match goal with |- changes _ ?s' _ _ _ ∧ _ => enough (changes s s' (h_slot h) b b') as H end.
    { split; [done|]. intros k Hk. simpl effect. pose proof (changes_one _ _ _ _ _ I H) as U. destruct (decide (b_key b = k)) as [<-|Hne].
      - erewrite (contents_changed _ _ (h_slot h) b b'); try done; [|apply H].
        symmetry. apply contents_none. intros j c Hj Hc. assert (h_slot h = j) as <-; [|congruence].
        apply (bo_one _ I _ _ b c); congruence.
      - eapply (contents_kept _ _ (h_slot h) b b'); try done; [apply H|apply (bo_one _ I)]. }
    eapply use_changes; try done.
    + simpl. by rewrite (alter_twice _ _ _ _ b).
    + split; simpl; congruence.
    + by rewrite Hf, Hw.
Qed.


Lemma mark_stepped n h y :
  handles s !! n = Some h → h_use h = Holding → ∃ s', b_step (B_mark n y) s = Some s' ∧ stepped (B_mark n y) s s'.
Proof.
  intros Hn Hu. destruct (served s I _ _ Hn) as (b&Hb&[E1 E2 E3]). destruct (E3 Hu) as [Hl Hv].
  simpl. rewrite Hn. simpl. unfold mark_dirty. rewrite Hb. simpl. eexists. split; [done|].
  apply (set_stepped _ n h y _ b ({ b with b_data := y; b_dirty := true })); auto.
  apply holder_changes; try done.
  - simpl. by rewrite (list_alter_insert _ _ _ b).
  - split; simpl; congruence.
Qed.

Lemma write_stepped n h y :
  handles s !! n = Some h → h_use h = Holding → ∃ s', b_step (B_write n y) s = Some s' ∧ stepped (B_write n y) s s'.
Proof.
  intros Hn Hu. destruct (served s I _ _ Hn) as (b&Hb&[E1 E2 E3]). destruct (E3 Hu) as [Hl Hv].
  simpl. rewrite Hn. simpl. unfold bwrite_buf, iderw, holdingsleep. rewrite Hb. simpl. rewrite bool_decide_eq_true_2 by done. simpl.
  rewrite list_lookup_alter_eq, Hb. simpl. rewrite Hl, bool_decide_eq_true_2, andb_false_r, (bo_disk1 _ I), andb_false_r by done. simpl.
  eexists. split; [done|].
  apply (set_stepped _ n h y _ b ({ b with b_data := y; b_dirty := false; b_valid := true })); auto.
  apply holder_changes; try done.
  - simpl. by rewrite (alter_twice _ _ _ _ b).
  - simpl. by rewrite (bo_disk1 _ I).
  - split; simpl; [|done|congruence]. intros _ _. by rewrite lookup_total_insert_eq.
  - intros k Hk. simpl. by rewrite lookup_total_insert_ne.
Qed.

Lemma unlock_stepped n h :
  handles s !! n = Some h → h_use h = Holding → ∃ s', b_step (B_unlock n) s = Some s' ∧ stepped (B_unlock n) s s'.
Proof.
  intros Hn Hu. destruct (served s I _ _ Hn) as (b&Hb&[E1 E2 E3]). destruct (E3 Hu) as [Hl Hv].
  simpl. rewrite Hn. simpl. unfold brelse_unlock, holdingsleep. rewrite Hb. simpl. rewrite bool_decide_eq_true_2 by done. simpl.
  eexists. split; [done|]. apply (quiet_stepped _ _ (h_slot h) b (releasesleep b)); try done. apply use_changes; try done.
  - simpl. by rewrite (list_alter_insert _ _ _ b).
  - destruct (bo_buf _ I _ _ Hb). split; done.
  - by rewrite Hl, Hu.
  - intros m h' Hm Hh' Hs. by eapply (sole_holder s I n m h h').
Qed.

Lemma move_front (i : nat) l : NoDup l → i ∈ l → (∀ j, j ∈ i :: filter (λ j, j ≠ i) l ↔ j ∈ l) ∧ NoDup (i :: filter (λ j, j ≠ i) l).
Proof.
  intros Hn Hi. split.
  - intros j. rewrite elem_of_cons, list_elem_of_filter. destruct (decide (j = i)); naive_solver.
  - apply list.NoDup_cons. rewrite list_elem_of_filter. split; [naive_solver|by apply list.NoDup_filter].
Qed.

Lemma drop_stepped n h :
  handles s !! n = Some h → h_use h = Leaving → ∃ s', b_step (B_drop n) s = Some s' ∧ stepped (B_drop n) s s'.
Proof.
  intros Hn Hu. destruct (served s I _ _ Hn) as (b&Hb&[E1 E2 E3]).
  simpl. rewrite Hn. simpl. unfold brelse_drop. rewrite Hb. simpl. eexists. split; [done|].
  set (o := if bool_decide (refcnt b - 1 = 0) then h_slot h :: filter (λ j, j ≠ h_slot h) (order (cache s)) else order (cache s)).
  match goal with |- stepped _ _ (mk_session ?c ?l) =>
    assert (c = mk_bcache (alter (λ b, { b with refcnt ::= Z.pred }) (h_slot h) (slots (cache s))) o (havedisk1 (cache s)) (bdisk (cache s))) as ->
      by (unfold o; by case_bool_decide) end.
  apply (quiet_stepped _ _ (h_slot h) b ({ b with refcnt ::= Z.pred })); try done. split; simpl; try done.
  - by rewrite (list_alter_insert _ _ _ b).
  - pose proof (bo_nodup _ I). unfold o. case_bool_decide; [|done]. apply move_front; [done|]. apply (bo_order _ I).
    rewrite <- (bo_len _ I). by eapply lookup_lt_Some.
  - by left.
  - destruct (bo_buf _ I _ _ Hb). split; done.
  - intros j. rewrite (total_delete _ _ n h Hn). unfold refers at 2. repeat case_decide; repeat case_bool_decide; simpl; lia || congruence.
  - intros j. rewrite (total_delete _ _ n h Hn). unfold holds at 2. rewrite Hu, bool_decide_eq_false_2 by naive_solver.
    case_decide; simpl; lia.
  - intros h' Hh'. assert (h' ∈ handles s) as Hin by (eapply elem_of_sublist; [done|apply sublist_delete]).
    case_decide; [|done]. eapply serves_same; [by eapply served_by| | |]; done.
Qed.

(** [bget] fails only when it may recycle no buffer. *)
Lemma get_stepped pid k :
  (k.1 ≠ 0)%nat →
  match b_step (B_get pid k) s with
  | Some s' => stepped (B_get pid k) s s'
  | None => ∀ i b, slots (cache s) !! i = Some b → b_key b ≠ k ∧ (refcnt b ≠ 0 ∨ b_dirty b = true)
  end.
Proof.
  intros Hk. simpl. unfold bget.
  assert (∀ i b, slots (cache s) !! i = Some b → i ∈ order (cache s)) as Hin.
  { intros i b Hb. apply (bo_order _ I). rewrite <- (bo_len _ I). by eapply lookup_lt_Some. }
  destruct (list_find _ (order (cache s))) as [[m i]|] eqn:E1; simpl.
  { apply list_find_Some in E1 as (_&(b&Hb&Hkb)%fmap_Some&_). by apply (get_hit_stepped pid k i b). }
  assert (∀ i b, slots (cache s) !! i = Some b → b_key b ≠ k) as Hnew.
  { intros i b Hb Hkb. apply list_find_None in E1. eapply Forall_forall in E1; [|by eapply Hin]. apply E1. rewrite Hb. simpl. by f_equal. }
  destruct (list_find _ (reverse (order (cache s)))) as [[m i]|] eqn:E2; simpl.
  - apply list_find_Some in E2 as (_&(b&Hb&E)%fmap_Some&_). injection E as Hr Hd. by apply (get_recycle_stepped pid k i b).
  - intros i b Hb. split; [by eapply Hnew|]. destruct (decide (refcnt b = 0)) as [Hr|]; [|by left]. right.
    destruct (b_dirty b) eqn:Hd; [done|]. exfalso. apply list_find_None in E2. eapply Forall_forall in E2; [|apply elem_of_reverse; by eapply Hin].
    apply E2. rewrite Hb. simpl. congruence.
Qed.

Lemma step_stepped o :
  b_enabled o s = true →
  match b_step o s with
  | Some s' => stepped o s s'
  | None => ∃ pid k, o = B_get pid k ∧ ∀ i b, slots (cache s) !! i = Some b → b_key b ≠ k ∧ (refcnt b ≠ 0 ∨ b_dirty b = true)
  end.
Proof.
  assert (∀ s', b_step o s = Some s' ∧ stepped o s s' → match b_step o s with Some s' => stepped o s s' | None => False end) as Hs.
  { intros s' [-> ?]. done. }
  destruct o as [pid k|n|n y|n y|n|n]; cbn [b_enabled]; intros He.
  - apply bool_decide_eq_true in He. pose proof (get_stepped pid k He) as H. destruct (b_step _ s); [done|]. eauto.
  - destruct (handles s !! n) as [h|] eqn:Hn; [|done]. apply andb_true_iff in He as [Hw%bool_decide_eq_true Hf].
    destruct (lock_stepped n h Hn Hw Hf) as (s'&H). apply Hs in H. by destruct (b_step _ s).
  - apply bool_decide_eq_true, fmap_Some in He as (h&Hn&Hu). destruct (mark_stepped n h y Hn (eq_sym Hu)) as (s'&H). apply Hs in H. by destruct (b_step _ s).
  - apply bool_decide_eq_true, fmap_Some in He as (h&Hn&Hu). destruct (write_stepped n h y Hn (eq_sym Hu)) as (s'&H). apply Hs in H. by destruct (b_step _ s).
  - apply bool_decide_eq_true, fmap_Some in He as (h&Hn&Hu). destruct (unlock_stepped n h Hn (eq_sym Hu)) as (s'&H). apply Hs in H. by destruct (b_step _ s).
  - apply bool_decide_eq_true, fmap_Some in He as (h&Hn&Hu). destruct (drop_stepped n h Hn (eq_sym Hu)) as (s'&H). apply Hs in H. by destruct (b_step _ s).
Qed.

End stepping.

(** * Sessions *)

Lemma boot_ok d : bio_ok (mk_session (binit true d) []).
Proof.
  split; unfold binit; cbn [cache handles slots order havedisk1 bdisk]; try done.
  - intros i. rewrite elem_of_reverse, elem_of_seq. lia.
  - rewrite reverse_Permutation. apply NoDup_seq.
  - intros i j b b' [-> _]%lookup_replicate [-> _]%lookup_replicate. done.
  - intros i b [-> _]%lookup_replicate. split; simpl; done.
  - intros i b [-> _]%lookup_replicate. done.
  - intros i b [-> _]%lookup_replicate. done.
  - intros h Hh. by apply not_elem_of_nil in Hh.
Qed.

Lemma b_reachable_ok d s : b_reachable d s → bio_ok s.
Proof.
  induction 1 as [|o s s' _ IH He Hs]; [apply boot_ok|]. pose proof (step_stepped s IH o He) as H. rewrite Hs in H.
  destruct H as (i&b&b'&H&_). by eapply changes_ok.
Qed.


(** ** Runs *)

Definition b_run (os : list bop) (s : session) : option session :=
  foldl (λ r o, s ← r; if b_enabled o s then b_step o s else None) (Some s) os.

Lemma b_run_reachable d os s : b_run os (mk_session (binit true d) []) = Some s → b_reachable d s.
Proof.
  revert s. induction os as [|o os IH] using rev_ind; intros s; unfold b_run.
  - intros [= <-]. constructor.
  - rewrite foldl_app. simpl. intros (s'&H&Hs)%bind_Some. destruct (b_enabled o s') eqn:He; [|done].
    eapply b_next; [by apply IH|done|done].
Qed.

(** Two processes share block 7: the second waits until the first has changed
    and released it. *)
Definition sharing : list bop :=
  [B_get 1 (1, 7); B_lock 0; B_get 2 (1, 7); B_mark 0 [5%Z]; B_unlock 0; B_lock 1]%nat.

Definition shared : session :=
  match b_run sharing (mk_session (binit true ∅) []) with Some s => s | None => mk_session (binit true ∅) [] end.

