(* ===== verification/XvLogTheorems.v ===== *)
(** The log of the xv6 file system survives crashes: what recovery finds after a
    power failure at any point is the contents at a commit. The theorems about
    the log come last. *)

From stdpp Require Import base option list numbers gmap.
From coqutil Require Import Datatypes.RecordSettersUsingExistingGetters.
From Stdlib Require Import ZArith Lia.
From S2P Require Import Prelude XvLog.
Local Open Scope Z_scope.

(** * Reasoning about crashes *)

(** Started in [s], [m] does not panic; if it returns, [Q] holds, and whenever the
    power fails, [R] holds of the disk. *)
Definition cwp {A} (m : DM A) (Q : A → machine → Prop) (R : gmap nat block → Prop) (s : machine) : Prop :=
  match m s with Done x s' => Q x s' | Crashed d => R d | Panicked => False end.

Section cwp.
Context (R : gmap nat block → Prop).

Lemma cwp_ret {A} (x : A) (Q : A → machine → Prop) s : Q x s → cwp (mret x) Q R s.
Proof. done. Qed.
Lemma cwp_bind {A B} (m : DM A) (f : A → DM B) Q s : cwp m (λ x, cwp (f x) Q R) R s → cwp (m ≫= f) Q R s.
Proof. unfold cwp, mbind, DM_bind. by destruct (m s). Qed.
Lemma cwp_read {A} (f : machine → A) Q s : Q (f s) s → cwp (read f) Q R s.
Proof. done. Qed.
Lemma cwp_update f Q s : Q tt (f s) → cwp (update f) Q R s.
Proof. done. Qed.
Lemma cwp_bread b Q s : Q (default (disk s !!! b) (dirty s !! b)) s → cwp (bread b) Q R s.
Proof. done. Qed.
Lemma cwp_bwrite b x Q s :
  R (disk s) → (∀ k, Q tt (mk_machine (<[b := x]> (disk s)) (delete b (dirty s)) (lg s) k)) → cwp (bwrite b x) Q R s.
Proof. intros HR HQ. unfold cwp, bwrite. destruct (power s); [done|apply HQ]. Qed.
Lemma cwp_mono {A} (m : DM A) (P Q : A → machine → Prop) s : cwp m P R s → (∀ x s', P x s' → Q x s') → cwp m Q R s.
Proof. unfold cwp. destruct (m s); auto. Qed.

Lemma cwp_weaken {A} (m : DM A) (Q : A → machine → Prop) (R' : gmap nat block → Prop) s :
  cwp m Q R' s → (∀ d, R' d → R d) → cwp m Q R s.
Proof. unfold cwp. destruct (m s); auto. Qed.

(** A loop, with an invariant on the number of turns. *)
Lemma cwp_for_each {A} (f : nat → A → DM ()) (I : nat → machine → Prop) l i s :
  I i s → (∀ j x s, l !! j = Some x → I (i + j)%nat s → cwp (f (i + j)%nat x) (λ _, I (S (i + j))) R s) →
  cwp (for_each f i l) (λ _, I (i + length l)%nat) R s.
Proof.
  revert i s. induction l as [|x l IH]; intros i s Hi Hf; simpl.
  - by rewrite Nat.add_0_r.
  - apply cwp_bind. pose proof (Hf 0%nat x s eq_refl) as H0. rewrite Nat.add_0_r in H0. eapply cwp_mono; [by apply H0|].
    intros u s' H'. rewrite <- Nat.add_succ_comm. apply IH; [done|].
      intros j y s1 Hy. rewrite Nat.add_succ_comm. by apply (Hf (S j)).
Qed.

End cwp.

Ltac cwp_step :=
  lazymatch goal with
  | |- cwp (_ ≫= _) _ _ _ => apply cwp_bind
  | |- cwp (mret _) _ _ _ => apply cwp_ret
  | |- cwp (read _) _ _ _ => apply cwp_read
  | |- cwp (update _) _ _ _ => apply cwp_update
  | |- cwp (bread _) _ _ _ => apply cwp_bread
  end.
Ltac cwp_steps := repeat (cwp_step; cbn beta).

(** * The header *)

Lemma length_put_words i l hb : length (put_words i l hb) = length hb.
Proof. revert i hb. induction l as [|b l IH]; intros i hb; simpl; [done|]. by rewrite IH, length_insert. Qed.

Lemma put_words_below i l hb j : (j < i)%nat → put_words i l hb !! j = hb !! j.
Proof.
  revert i hb. induction l as [|b l IH]; intros i hb Hj; simpl; [done|]. rewrite IH by lia. by rewrite list_lookup_insert_ne by lia.
Qed.

Lemma put_words_at i l hb j b :
  (i + length l ≤ length hb)%nat → l !! j = Some b → put_words i l hb !! (i + j)%nat = Some (Z.of_nat b).
Proof.
  revert i hb j. induction l as [|c l IH]; intros i hb [|j] Hl Hj; simpl in *; try done.
  - injection Hj as ->. rewrite put_words_below by lia. rewrite Nat.add_0_r. apply list_lookup_insert_eq. lia.
  - rewrite <- Nat.add_succ_comm. apply IH; [rewrite length_insert; lia|done].
Qed.

Lemma decode_encode l hb : length hb = WORDS → (length l < WORDS)%nat → decode_head (encode_head l hb) = l.
Proof.
  intros Hh Hl. unfold decode_head, encode_head. set (hb1 := <[0%nat := _]> hb). set (w := put_words 1 l hb1).
  assert (length hb1 = WORDS) as Hh1 by (unfold hb1; by rewrite length_insert).
  assert (w !! 0%nat = Some (Z.of_nat (length l))) as Hn.
  { unfold w. rewrite put_words_below by lia. apply list_lookup_insert_eq. unfold WORDS in *. lia. }
  rewrite (list_lookup_total_correct _ _ _ Hn), Nat2Z.id. apply list_eq. intros j. rewrite list_lookup_fmap.
  destruct (decide (j < length l)%nat) as [Hj|Hj].
  - apply lookup_lt_is_Some in Hj as [b Hb]. pose proof (lookup_lt_Some _ _ _ Hb). rewrite lookup_take_lt by done. rewrite lookup_drop.
    unfold w. rewrite (put_words_at 1 l hb1 j b) by (done || unfold WORDS in *; lia). simpl. by rewrite Nat2Z.id, Hb.
  - rewrite lookup_take_ge by lia. simpl. symmetry. apply lookup_ge_None. lia.
Qed.

Lemma length_encode l hb : length (encode_head l hb) = length hb.
Proof. unfold encode_head. by rewrite length_put_words, length_insert. Qed.

(** * Disks *)

Section log.
(** The log area: the header at [st] and [sz - 1] blocks after it. *)
Context (st : nat) (sz : Z).

Definition home (b : nat) : Prop := (b < st)%nat ∨ Z.of_nat st + sz ≤ Z.of_nat b.

(** Recovery from disk [d] gives the contents [H] of the home blocks. *)
Record durable (H : nat → block) (d : gmap nat block) : Prop := {
  du_head : length (d !!! st) = WORDS;
  du_home : ∀ i b, decode_head (d !!! st) !! i = Some b → home b;
  du_fits : Z.of_nat (length (decode_head (d !!! st))) < sz;
  du_log : ∀ i b, decode_head (d !!! st) !! i = Some b → d !!! (st + i + 1)%nat = H b;
  du_rest : ∀ b, home b → b ∉ decode_head (d !!! st) → d !!! b = H b;
}.

Lemma home_not_log b i : home b → Z.of_nat i + 1 < sz → b ≠ (st + i + 1)%nat.
Proof. unfold home. lia. Qed.
Lemma home_not_head b : 0 < sz → home b → b ≠ st.
Proof. unfold home. lia. Qed.

Lemma lookup_other {K} `{Countable K} (d : gmap K block) b b' x : b ≠ b' → <[b := x]> d !!! b' = d !!! b'.
Proof. intros Hne. by rewrite lookup_total_insert_ne. Qed.

(** Writing the logged contents of a block to its home. *)
Lemma durable_install H d b i :
  durable H d → decode_head (d !!! st) !! i = Some b → durable H (<[b := H b]> d) ∧ <[b := H b]> d !!! st = d !!! st.
Proof.
  intros [D1 D2 D3 D4 D5] Hb. pose proof (D2 i b Hb) as Hh. assert (0 < sz) as Hz by lia.
  assert (<[b := H b]> d !!! st = d !!! st) as Es by (apply lookup_other; by apply home_not_head). split; [|done].
  split; rewrite ?Es; [done|done|done| |].
  - intros j c Hc. rewrite lookup_other; [by apply D4|]. apply home_not_log; [done|]. apply lookup_lt_Some in Hc. lia.
  - intros c Hc Hn. rewrite lookup_other; [by apply D5|]. intros <-. apply Hn. by eapply list_elem_of_lookup_2.
Qed.

(** Clearing the header once every block is at home. *)
Lemma durable_clear H d :
  durable H d → 0 < sz → (∀ b, home b → d !!! b = H b) →
  durable H (<[st := encode_head [] (d !!! st)]> d) ∧ decode_head (<[st := encode_head [] (d !!! st)]> d !!! st) = [].
Proof.
  intros D Hz Hh. assert (decode_head (<[st := encode_head [] (d !!! st)]> d !!! st) = []) as Ed.
  { rewrite lookup_total_insert_eq. apply decode_encode; [apply D|unfold WORDS; simpl; lia]. }
  split; [|done]. split; rewrite ?Ed; try done.
  - rewrite lookup_total_insert_eq, length_encode. apply D.
  - intros b Hb _. rewrite lookup_other; [by apply Hh|]. by apply not_eq_sym, home_not_head.
Qed.

(** * The machine between operations *)

(** The contents of block [b] as the file system sees it. *)
Definition view (s : machine) (b : nat) : block := default (disk s !!! b) (dirty s !! b).

Record log_ok (s : machine) : Prop := {
  lo_start : start (lg s) = st;
  lo_size : size (lg s) = sz;
  lo_fits : Z.of_nat (length (lh (lg s))) < sz ∧ (length (lh (lg s)) < WORDS)%nat;
  lo_dirty : ∀ b, is_Some (dirty s !! b) ↔ b ∈ lh (lg s);
  lo_home : ∀ b, b ∈ lh (lg s) → home b;
}.

(** The installed blocks are those of the first [i] entries. *)
Record installing (H : nat → block) (g : log) (i : nat) (s : machine) : Prop := {
  in_log : lg s = g;
  in_durable : durable H (disk s);
  in_head : decode_head (disk s !!! st) = lh g;
  in_done : ∀ j b, (j < i)%nat → lh g !! j = Some b → disk s !!! b = H b;
  in_dirty : ∀ b, is_Some (dirty s !! b) → ∃ j, (i ≤ j)%nat ∧ lh g !! j = Some b;
}.

Lemma install_trans_ok H g s Q :
  start g = st → installing H g 0 s → (∀ s', installing H g (length (lh g)) s' → Q tt s') → cwp install_trans Q (durable H) s.
Proof.
  intros Est I HQ. unfold install_trans. cwp_steps. pose proof (in_log _ _ _ _ I) as El. simpl. rewrite El, Est.
  apply (cwp_mono _ _ (λ _, installing H g (0 + length (lh g)))); [|intros [] s' Hs'; by apply HQ].
  apply (cwp_for_each (durable H) _ (installing H g) (lh g) 0); [done|]. clear s I El. intros j b s Hb I. simpl in *.
  destruct I as [I1 I2 I3 I4 I5]. cwp_steps. apply cwp_bwrite; [done|]. intros k.
  assert (Z.of_nat j + 1 < sz) as Hj by (pose proof (du_fits _ _ I2) as Hf; rewrite I3 in Hf; apply lookup_lt_Some in Hb; lia).
  assert (dirty s !! (st + j + 1)%nat = None) as En.
  { apply eq_None_not_Some. intros Hd. destruct (I5 _ Hd) as (i&_&Hi). rewrite <- I3 in Hi. by eapply home_not_log; [by eapply du_home|done|]. }
  rewrite En. simpl. rewrite <- I3 in Hb. rewrite (du_log _ _ I2 j b Hb).
  destruct (durable_install H (disk s) b j I2 Hb) as [D Es]. split; simpl.
  - done.
  - done.
  - by rewrite Es.
  - intros i c Hi Hc. destruct (decide (c = b)) as [->|Hne]; [by rewrite lookup_total_insert_eq|]. rewrite lookup_other by congruence.
    destruct (decide (i = j)) as [->|]; [congruence|]. apply (I4 i); [lia|done].
  - intros c [x Hc]. apply lookup_delete_Some in Hc as [Hne Hc]. destruct (I5 c ltac:(eauto)) as (i&Hi&Hic). exists i. split; [|done].
    destruct (decide (i = j)) as [->|]; [congruence|lia].
Qed.

(** The log is empty, and every block is at home. *)
Record clean (H : nat → block) (s : machine) : Prop := {
  cl_durable : durable H (disk s);
  cl_head : decode_head (disk s !!! st) = [];
  cl_dirty : dirty s = ∅;
}.

(** The end of a commit and of a recovery. *)
Lemma clear_ok H g s Q :
  start g = st → 0 < sz → installing H g (length (lh g)) s →
  (∀ s', lg s' = { g with lh := [] } → clean H s' → Q tt s') → cwp (set_lh [] ;; write_head) Q (durable H) s.
Proof.
  intros Est Hz [I1 I2 I3 I4 I5] HQ. unfold set_lh, write_head. cwp_steps. simpl. rewrite I1, Est. cwp_steps.
  assert (dirty s = ∅) as Ed.
  { apply map_empty. intros b. apply eq_None_not_Some. intros Hb. destruct (I5 b Hb) as (j&Hj&Hl). apply lookup_lt_Some in Hl. lia. }
  apply cwp_bwrite; [done|]. intros k. simpl. rewrite Ed, lookup_empty. simpl.
  destruct (durable_clear H (disk s) I2 Hz) as [D E].
  { intros b Hb. destruct (decide (b ∈ lh g)) as [Hin|Hn]; [|apply (du_rest _ _ I2); [done|by rewrite I3]].
    apply list_elem_of_lookup in Hin as [j Hj]. apply (I4 j); [by eapply lookup_lt_Some|done]. }
  apply HQ; [simpl; by rewrite Est|]. split; simpl; [done|done|]. by rewrite delete_empty.
Qed.

(** Recovery: it succeeds with the contents [H], and when the power fails in the
    middle the disk still recovers to [H]. *)
Lemma recover_ok H s Q :
  durable H (disk s) → dirty s = ∅ → start (lg s) = st →
  (∀ s', lg s' = { lg s with lh := [] } → clean H s' → Q tt s') → cwp recover_from_log Q (durable H) s.
Proof.
  intros D Ed Est HQ. assert (0 < sz) as Hz by (pose proof (du_fits _ _ D); lia).
  unfold recover_from_log, read_head, set_lh. cwp_steps. simpl. rewrite Est. cwp_steps. rewrite Ed, lookup_empty. simpl.
  eapply (install_trans_ok H { lg s with lh := decode_head (disk s !!! st) }); [done| |].
  - split; simpl; [by rewrite Est|done|done|intros; lia|]. intros b [x Hx]. by rewrite lookup_empty in Hx.
  - intros s1 I1. eapply (clear_ok H { lg s with lh := decode_head (disk s !!! st) }); [done|done|exact I1|]. intros s2 E2 C2. apply HQ; [by rewrite E2|done].
Qed.

(** * Commits *)

(** The blocks of the first [i] entries are in the log. *)
Record logging (C V : nat → block) (g : log) (m : gmap nat block) (i : nat) (s : machine) : Prop := {
  lw_log : lg s = g;
  lw_dirty : dirty s = m;
  lw_durable : durable C (disk s);
  lw_head : decode_head (disk s !!! st) = [];
  lw_view : ∀ b, home b → view s b = V b;
  lw_done : ∀ j b, (j < i)%nat → lh g !! j = Some b → disk s !!! (st + j + 1)%nat = V b;
}.

Lemma write_log_ok C V g m s Q :
  start g = st → Z.of_nat (length (lh g)) < sz → (∀ b, b ∈ lh g → home b) → (∀ b, is_Some (m !! b) → home b) →
  logging C V g m 0 s → (∀ s', logging C V g m (length (lh g)) s' → Q tt s') → cwp write_log Q (durable C) s.
Proof.
  intros Est Hf Hh Hm I HQ. unfold write_log. cwp_steps. pose proof (lw_log _ _ _ _ _ _ I) as El. simpl. rewrite El, Est.
  apply (cwp_mono _ _ (λ _, logging C V g m (0 + length (lh g)))); [|intros [] s' Hs'; by apply HQ].
  apply (cwp_for_each (durable C) _ (logging C V g m) (lh g) 0); [done|]. clear s I El. intros j b s Hb I. simpl in *.
  destruct I as [I1 I2 I3 I4 I5 I6]. cwp_steps. apply cwp_bwrite; [done|]. intros k.
  assert (Z.of_nat j + 1 < sz) as Hj by (apply lookup_lt_Some in Hb; lia).
  assert (home b) as Hhb by (by eapply Hh, list_elem_of_lookup_2).
  change (default (disk s !!! b) (dirty s !! b)) with (view s b). rewrite (I5 b Hhb).
  assert (dirty s !! (st + j + 1)%nat = None) as En.
  { rewrite I2. apply eq_None_not_Some. intros Hd%Hm. by eapply home_not_log. }
  assert (∀ x, <[(st + j + 1)%nat := x]> (disk s) !!! st = disk s !!! st) as Es by (intros x; apply lookup_other; lia).
  assert (∀ x c, home c → <[(st + j + 1)%nat := x]> (disk s) !!! c = disk s !!! c) as Eh by (intros x c Hc; apply lookup_other, not_eq_sym, home_not_log; done).
  split; simpl; rewrite ?Es.
  - done.
  - rewrite <- I2. by apply delete_id.
  - destruct I3 as [D1 D2 D3 D4 D5]. split; rewrite ?Es; [done|done|done| |]; rewrite I4 in *; [done|]. intros c Hc Hn. rewrite Eh by done. by apply D5.
  - done.
  - intros c Hc. unfold view. simpl. rewrite Eh, lookup_delete_ne by (done || apply not_eq_sym, home_not_log; done). by apply I5.
  - intros i c Hi Hc. destruct (decide (i = j)) as [->|Hne].
    + rewrite lookup_total_insert_eq. congruence.
    + rewrite lookup_other by lia. apply (I6 i); [lia|done].
Qed.

(** The write of the header commits. *)
Lemma write_head_ok C V g m s Q :
  start g = st → Z.of_nat (length (lh g)) < sz → (length (lh g) < WORDS)%nat → (∀ b, b ∈ lh g → home b) → (∀ b, is_Some (m !! b) ↔ b ∈ lh g) →
  logging C V g m (length (lh g)) s → (∀ s', installing V g 0 s' → Q tt s') →
  cwp write_head Q (durable C) s.
Proof.
  intros Est Hf Hw Hh Hm [I1 I2 I3 I4 I5 I6] HQ. unfold write_head. cwp_steps. simpl. rewrite I1, Est. cwp_steps.
  apply cwp_bwrite; [done|]. intros k. assert (0 < sz) as Hz by lia.
  assert (dirty s !! st = None) as En by (rewrite I2; apply eq_None_not_Some; intros Hd%Hm%Hh; by eapply home_not_head).
  rewrite En. simpl. set (d := <[st := _]> (disk s)).
  assert (decode_head (d !!! st) = lh g) as Ed by (unfold d; rewrite lookup_total_insert_eq; apply decode_encode; [apply I3|done]).
  assert (∀ c, c ≠ st → d !!! c = disk s !!! c) as Eo by (intros c Hc; unfold d; by apply lookup_other, not_eq_sym).
  apply HQ. split; simpl; [done| |done|lia|].
  - split; rewrite ?Ed.
    + unfold d. rewrite lookup_total_insert_eq, length_encode. apply I3.
    + intros i b Hb. by eapply Hh, list_elem_of_lookup_2.
    + done.
    + intros i b Hb. rewrite Eo by lia. apply (I6 i b); [by eapply lookup_lt_Some|done].
    + intros b Hb Hn. rewrite Eo by (by apply home_not_head). rewrite <- (I5 b Hb). unfold view.
      assert (dirty s !! b = None) as -> by (rewrite I2; apply eq_None_not_Some; by rewrite Hm). done.
  - intros b [x Hx]. apply lookup_delete_Some in Hx as [_ Hx]. rewrite I2 in Hx. assert (b ∈ lh g) as Hin by (apply Hm; eauto).
    apply list_elem_of_lookup in Hin as [j Hj]. exists j. split; [lia|done].
Qed.

Lemma commit_ok C V s Q :
  log_ok s → durable C (disk s) → decode_head (disk s !!! st) = [] → (∀ b, home b → view s b = V b) → lh (lg s) ≠ [] →
  (∀ s', lg s' = { lg s with lh := [] } → clean V s' → Q tt s') → cwp commit Q (λ d, durable C d ∨ durable V d) s.
Proof.
  intros [L1 L2 [L3 L3'] L4 L5] D Eh Hv Hne HQ. unfold commit. cwp_steps. simpl. rewrite bool_decide_eq_false_2 by done. cwp_step.
  eapply cwp_weaken; [eapply (write_log_ok C V (lg s) (dirty s)); try done|by left].
  - intros b Hb. by apply L5, L4.
  - split; try done. intros; lia.
  - intros s1 I1. cwp_step. eapply cwp_weaken; [eapply (write_head_ok C V (lg s) (dirty s)); try done|by left].
    intros s2 I2. cwp_step. eapply cwp_weaken; [eapply (install_trans_ok V (lg s)); try done|by right].
    intros s3 I3. eapply cwp_weaken; [eapply (clear_ok V (lg s)); try done|by right]. lia.
Qed.

Lemma durable_ext H H' d : (∀ b, home b → H b = H' b) → durable H d → durable H' d.
Proof.
  intros E [D1 D2 D3 D4 D5]. split; try done.
  - intros i b Hb. rewrite <- E; [by eapply D4|by eapply D2].
  - intros b Hb Hn. rewrite <- E by done. by apply D5.
Qed.

(** * The specification *)

(** The contents at the last commit and now, the blocks written since, and the
    number of active operations. *)
Record spec := mk_spec { committed : nat → block; current : nat → block; touched : list nat; active : Z }.

(** [None] is a panic. *)
Definition spec_op (o : log_op) (a : spec) : option spec :=
  match o with
  | L_begin =>
      Some (if bool_decide (Z.of_nat (length (touched a)) + (active a + 1) * MAXOPBLOCKS > LOGSIZE) then a
            else mk_spec (committed a) (current a) (touched a) (active a + 1))
  | L_write b x =>
      if bool_decide (LOGSIZE ≤ Z.of_nat (length (touched a))) || bool_decide (sz - 1 ≤ Z.of_nat (length (touched a))) ||
         bool_decide (active a < 1) then None
      else Some (mk_spec (committed a) (λ c, if bool_decide (c = b) then x else current a c)
                   (if bool_decide (b ∈ touched a) then touched a else touched a ++ [b]) (active a))
  | L_end =>
      Some (if bool_decide (active a - 1 = 0) then mk_spec (current a) (current a) [] 0
            else mk_spec (committed a) (current a) (touched a) (active a - 1))
  end.
Fixpoint spec_run (l : list log_op) (a : spec) : option spec :=
  match l with [] => Some a | o :: l => spec_op o a ≫= spec_run l end.

(** The machine is in a state of the specification. *)
Record represents (a : spec) (s : machine) : Prop := {
  re_ok : log_ok s;
  re_idle : committing (lg s) = false;
  re_touched : lh (lg s) = touched a;
  re_active : outstanding (lg s) = active a;
  re_durable : durable (committed a) (disk s);
  re_head : decode_head (disk s !!! st) = [];
  re_view : ∀ b, home b → view s b = current a b;
}.

(** What the file system may log: blocks outside the log. *)
Definition op_ok (o : log_op) : Prop := match o with L_write b _ => home b | _ => True end.

Lemma begin_ok a s : represents a s → cwp (begin_op ;; mret tt) (λ _ s', ∃ a', spec_op L_begin a = Some a' ∧ represents a' s') (λ _, False) s.
Proof.
  intros [R1 R2 R3 R4 R5 R6 R7]. unfold begin_op. cwp_steps. rewrite R2, R3, R4. simpl. case_bool_decide as Hb; cwp_steps; eexists; (split; [done|]).
  - by split.
  - destruct R1 as [L1 L2 L3 L4 L5]. split; simpl; [by split|done|done|by rewrite R4, Z.add_comm|done|done|exact R7].
Qed.

Lemma log_write_ok a s b x :
  represents a s → home b →
  match log_write b x s with
  | Done _ s' => ∃ a', spec_op (L_write b x) a = Some a' ∧ represents a' s'
  | Crashed _ => False
  | Panicked => spec_op (L_write b x) a = None
  end.
Proof.
  intros [R1 R2 R3 R4 R5 R6 R7] Hb. destruct R1 as [L1 L2 [L3 L3'] L4 L5]. unfold log_write, mbind, DM_bind, read. simpl. rewrite R3, R4, L2.
  case_bool_decide as H1; [done|]. case_bool_decide as H2; [done|]. simpl. case_bool_decide as H3; [done|]. eexists. split; [done|].
  split; simpl; try done.
  - split; simpl; [done|done| | |].
    + rewrite R3 in *. case_bool_decide; rewrite ?length_app; simpl; unfold LOGSIZE, MAXOPBLOCKS, WORDS in *; lia.
    + intros c. rewrite lookup_insert_is_Some', L4, R3. case_bool_decide as Hin; [|rewrite elem_of_app, list_elem_of_singleton]; split; intros H; naive_solver.
    + intros c. case_bool_decide; [apply L5|]. rewrite elem_of_app, list_elem_of_singleton. intros [Hc| ->]; [by apply L5|done].
  - by rewrite R3.
  - intros c Hc. unfold view. simpl. case_bool_decide as Hcb; [subst; by rewrite lookup_insert_eq|].
    rewrite lookup_insert_ne by done. by apply R7.
Qed.

Lemma end_ok a s :
  represents a s →
  cwp end_op (λ _ s', ∃ a', spec_op L_end a = Some a' ∧ represents a' s')
    (λ d, durable (committed a) d ∨ ∃ a', spec_op L_end a = Some a' ∧ durable (committed a') d) s.
Proof.
  intros [R1 R2 R3 R4 R5 R6 R7]. unfold end_op. cwp_steps. simpl. rewrite R2, R4. rewrite <- Z.sub_1_r. case_bool_decide as Hz.
  2:{ cwp_steps. eexists. split; [done|]. destruct R1 as [L1 L2 L3 L4 L5]. by split; simpl; [split|..]; rewrite ?R4. }
  cwp_steps. set (s1 := mk_machine _ _ _ _). destruct R1 as [L1 L2 [L3 L3'] L4 L5].
  destruct (decide (lh (lg s) = [])) as [He|Hne].
  - unfold commit. cwp_steps. simpl. rewrite bool_decide_eq_true_2 by done. cwp_steps. eexists. split; [done|].
    assert (∀ b, dirty s !! b = None) as Hd by (intros b; apply eq_None_not_Some; rewrite L4, He; apply not_elem_of_nil).
    assert (∀ b, home b → committed a b = current a b) as Hc.
    { intros b Hb. rewrite <- (R7 b Hb). unfold view. rewrite Hd. simpl. symmetry. apply (du_rest _ _ R5 b Hb). rewrite R6. apply not_elem_of_nil. }
    split; simpl; [by split|done|by rewrite He|lia|by eapply durable_ext|done|exact R7].
  - eapply cwp_weaken; [eapply (commit_ok (committed a) (current a) s1); [by split|done|done|exact R7|done|]|].
    + intros s2 E2 [C1 C2 C3]. cwp_steps. eexists. split; [done|]. split; simpl; rewrite ?E2; simpl; try done.
      * split; simpl; rewrite ?E2; simpl; [done|done|unfold WORDS; lia| |by intros b ?%elem_of_nil].
        intros b. rewrite C3, lookup_empty, elem_of_nil. split; [by intros []|done].
      * intros b Hb. unfold view. simpl. rewrite C3, lookup_empty. simpl. apply (du_rest _ _ C1 b Hb). rewrite C2. apply not_elem_of_nil.
    + intros d [Hd|Hd]; [by left|right]. eexists. split; [done|]. done.
Qed.

(** The log implements the specification; when the power fails, the disk recovers
    to the contents at the last commit, or at the one that was under way. *)
Lemma log_step_ok o a s :
  represents a s → op_ok o →
  match log_step o s with
  | Done _ s' => ∃ a', spec_op o a = Some a' ∧ represents a' s'
  | Crashed d => durable (committed a) d ∨ ∃ a', spec_op o a = Some a' ∧ durable (committed a') d
  | Panicked => spec_op o a = None
  end.
Proof.
  intros R Hok. destruct o as [|b x|]; simpl.
  - pose proof (begin_ok a s R) as H. unfold cwp in H. by destruct ((begin_op ;; mret tt) s).
  - pose proof (log_write_ok a s b x R Hok) as H. by destruct (log_write b x s).
  - pose proof (end_ok a s R) as H. unfold cwp in H. by destruct (end_op s).
Qed.

Lemma log_run_ok l a s :
  represents a s → Forall op_ok l →
  match log_run l s with
  | Done _ s' => ∃ a', spec_run l a = Some a' ∧ represents a' s'
  | Crashed d => ∃ l1 o l2 a1, l = l1 ++ o :: l2 ∧ spec_run l1 a = Some a1 ∧
      (durable (committed a1) d ∨ ∃ a2, spec_op o a1 = Some a2 ∧ durable (committed a2) d)
  | Panicked => spec_run l a = None
  end.
Proof.
  revert a s. induction l as [|o l IH]; intros a s R Hl; [simpl; eauto|]. apply Forall_cons_1 in Hl as [Ho Hl].
  cbn [log_run]. unfold mbind, DM_bind. pose proof (log_step_ok o a s R Ho) as H. destruct (log_step o s) as [u s1|d|].
  - destruct H as (a1&E1&R1). specialize (IH a1 s1 R1 Hl). destruct (log_run l s1) as [u' s2|d|].
    + destruct IH as (a2&E2&R2). exists a2. simpl. by rewrite E1.
    + destruct IH as (l1&o'&l2&a2&->&E2&H2). exists (o :: l1), o', l2, a2. simpl. by rewrite E1.
    + simpl. by rewrite E1.
  - exists [], o, l, a. done.
  - simpl. by rewrite H.
Qed.

(** The specification of a disk that recovers to [H]. *)
Definition recovered (H : nat → block) : spec := mk_spec H H [] 0.

Lemma clean_represents H s : lg s = mk_log st sz 0 false [] → 0 < sz → clean H s → represents (recovered H) s.
Proof.
  intros El Hz [C1 C2 C3]. split; rewrite ?El; simpl; try done.
  - split; rewrite ?El; simpl; [done|done|unfold WORDS; lia| |by intros b ?%elem_of_nil].
    intros b. rewrite C3, lookup_empty, elem_of_nil. split; [by intros []|done].
  - intros b Hb. unfold view. rewrite C3, lookup_empty. simpl. apply (du_rest _ _ C1 b Hb). rewrite C2. apply not_elem_of_nil.
Qed.

Lemma initlog_ok H d k :
  durable H d →
  match initlog st sz d k with Done _ s => represents (recovered H) s | Crashed d' => durable H d' | Panicked => False end.
Proof.
  intros D. pose proof (recover_ok H (power_on st sz d k) (λ _ s, represents (recovered H) s) D eq_refl eq_refl) as C.
  unfold cwp in C. unfold initlog. apply C. intros s' E' C'. apply clean_represents; [done|pose proof (du_fits _ _ D); lia|done].
Qed.

(** Switching the machine on again after each power failure. *)
Fixpoint reboot (ks : list nat) (d : gmap nat block) : gmap nat block :=
  match ks with
  | [] => d
  | k :: ks => reboot ks (match initlog st sz d k with Done _ s => disk s | Crashed d => d | Panicked => d end)
  end.

Lemma reboot_durable H ks d : durable H d → durable H (reboot ks d).
Proof.
  revert d. induction ks as [|k ks IH]; intros d D; [done|]. simpl. apply IH. pose proof (initlog_ok H d k D) as C.
  destruct (initlog st sz d k) as [u s|d'|]; [by apply re_durable in C|done|done].
Qed.

(** * Power that is enough *)

Lemma for_each_power {A} (f : nat → A → DM ()) l i s :
  (∀ j x s, (0 < power s)%nat → ∃ s', f j x s = Done tt s' ∧ S (power s') = power s ∧ lg s' = lg s) →
  (length l ≤ power s)%nat → ∃ s', for_each f i l s = Done tt s' ∧ (power s' + length l = power s)%nat ∧ lg s' = lg s.
Proof.
  intros Hf. revert i s. induction l as [|x l IH]; intros i s Hl; simpl in *; [exists s; split_and!; [done|lia|done]|].
  destruct (Hf i x s) as (s1&E1&P1&G1); [lia|]. destruct (IH (S i) s1) as (s2&E2&P2&G2); [lia|].
  exists s2. unfold mbind, DM_bind. rewrite E1. split_and!; [done|lia|congruence].
Qed.

(** A recovery writes every logged block and the header. *)
Lemma initlog_done d k : (length (decode_head (d !!! st)) < k)%nat → ∃ s, initlog st sz d k = Done tt s.
Proof.
  intros Hk. unfold initlog, recover_from_log, read_head, install_trans, set_lh, write_head.
  unfold mbind, DM_bind, read, update, bread. simpl. rewrite lookup_empty. simpl.
  match goal with |- context [for_each ?f 0 ?l ?s] => destruct (for_each_power f l 0 s) as (s1&E1&P1&G1) end.
  - intros j x s Hs. unfold bwrite. simpl. destruct (power s) as [|n]; [lia|]. eexists. done.
  - simpl. lia.
  - rewrite E1. simpl in *. unfold bwrite. simpl. destruct (power s1) as [|n]; [lia|]. eauto.
Qed.

(** * The size of transactions *)

(** Calls of the operations that are active: [K_write i b x] is a [log_write] of the
    one at position [i] of the list of what each may still write. *)
Inductive op_call := K_begin | K_write (i b : nat) (x : block) | K_end (i : nat).
Definition op_of (k : op_call) : log_op := match k with K_begin => L_begin | K_write _ b x => L_write b x | K_end _ => L_end end.

(** Every operation calls [log_write] at most [MAXOPBLOCKS] times. *)
Fixpoint modest (l : list op_call) (left : list nat) (a : spec) : bool :=
  match l with
  | [] => true
  | k :: l =>
      match k with
      | K_begin =>
          match spec_op L_begin a with
          | Some a' => modest l (if bool_decide (active a' = active a) then left else left ++ [Z.to_nat MAXOPBLOCKS]) a'
          | None => true
          end
      | K_write i b x =>
          match left !! i with
          | Some (S n) => match spec_op (L_write b x) a with Some a' => modest l (<[i := n]> left) a' | None => true end
          | _ => false
          end
      | K_end i =>
          match left !! i with
          | Some _ => match spec_op L_end a with Some a' => modest l (delete i left) a' | None => true end
          | None => false
          end
      end
  end.

Lemma sum_list_insert (l : list nat) i n m : l !! i = Some n → (sum_list (<[i := m]> l) + n = sum_list l + m)%nat.
Proof. revert i. induction l as [|x l IH]; intros [|i] Hi; simpl in *; try done; [injection Hi as ->; lia|]. specialize (IH i Hi). lia. Qed.
Lemma sum_list_delete (l : list nat) i n : l !! i = Some n → (sum_list (delete i l) + n = sum_list l)%nat.
Proof. revert i. induction l as [|x l IH]; intros [|i] Hi; simpl in *; try done; [injection Hi as ->; lia|]. specialize (IH i Hi). lia. Qed.
Lemma sum_list_bound (l : list nat) m : Forall (λ n, n ≤ m)%nat l → (sum_list l ≤ length l * m)%nat.
Proof. induction 1; simpl; lia. Qed.

(** What is written and what may still be written fits. *)
Record room (left : list nat) (a : spec) : Prop := {
  ro_fits : Z.of_nat (length (touched a)) + Z.of_nat (sum_list left) ≤ LOGSIZE;
  ro_active : active a = Z.of_nat (length left);
  ro_each : Forall (λ n, n ≤ Z.to_nat MAXOPBLOCKS)%nat left;
}.

Lemma modest_runs l left a : LOGSIZE < sz → room left a → modest l left a = true → is_Some (spec_run (op_of <$> l) a).
Proof.
  intros Hz. revert left a. induction l as [|k l IH]; intros left a [F A E] M; [done|]. simpl in *. destruct k as [|i b x|i]; simpl in *.
  - destruct (bool_decide (_ > LOGSIZE)) eqn:Hb; simpl in *; [rewrite bool_decide_eq_true_2 in M by done; by eapply IH|].
    apply bool_decide_eq_false in Hb. rewrite bool_decide_eq_false_2 in M by lia. eapply IH; [|done]. pose proof (sum_list_bound left _ E) as Hs.
    unfold LOGSIZE, MAXOPBLOCKS in *. split; simpl.
    + rewrite sum_list_with_app. change (Z.to_nat 10) with 10%nat in *. simpl. unfold LOGSIZE, MAXOPBLOCKS. lia.
    + rewrite length_app. simpl. lia.
    + apply Forall_app. split; [done|]. apply Forall_singleton; unfold MAXOPBLOCKS; lia.
  - destruct (left !! i) as [[|n]|] eqn:Hn; try done.
    pose proof (sum_list_insert left i (S n) n Hn) as Hs. pose proof (lookup_lt_Some _ _ _ Hn) as Hi.
    rewrite !bool_decide_eq_false_2 in * by lia. simpl in *. eapply IH; [|exact M]. split; simpl.
    + case_bool_decide; rewrite ?length_app; simpl; lia.
    + by rewrite length_insert.
    + apply Forall_insert; [done|]. eapply Forall_lookup_1 in E; [|exact Hn]. simpl in E. lia.
  - destruct (left !! i) as [n|] eqn:Hn; [|done]. pose proof (sum_list_delete left i n Hn) as Hs.
    pose proof (length_delete left i ltac:(eauto)) as Hd. pose proof (lookup_lt_Some _ _ _ Hn).
    destruct (bool_decide (active a - 1 = 0)) eqn:Ez; simpl in *; (eapply IH; [|exact M]).
    + apply bool_decide_eq_true in Ez. assert (delete i left = []) as -> by (apply nil_length_inv; lia). split; simpl; [unfold LOGSIZE, MAXOPBLOCKS; lia|done|done].
    + split; simpl; [lia|lia|]. by apply Forall_delete.
Qed.

End log.

(** What the log of the xv6 file system guarantees. *)

(** A disk as mkfs makes it: an empty log of [LOGSIZE] blocks at block 2. *)
Definition fresh_disk : gmap nat block := {[2%nat := replicate WORDS 0]}.
Definition fresh (b : nat) : block := fresh_disk !!! b.

Lemma fresh_durable sz : 0 < sz → durable 2 sz fresh fresh_disk.
Proof.
  intros Hz. assert (fresh_disk !!! 2%nat = replicate WORDS 0) as E by reflexivity.
  assert (decode_head (replicate WORDS 0) = []) as Ed by reflexivity. split; rewrite E, ?Ed; [done|done|simpl; lia|done|done].
Qed.

(** C1: The log makes the operations of the file system atomic with respect to
    power failures.  On a disk that recovers to the contents [H], any sequence of
    [begin_op], [log_write] and [end_op] behaves as its specification: reads see
    the latest write, and a commit happens when the last active operation ends.
    If the power fails after any number of block writes, during recovery or during
    a commit, then the disk recovers to the contents committed by a prefix of the
    sequence. *)
Theorem log_crash_safe st sz H d k ops :
  durable st sz H d → Forall (op_ok st sz) ops →
  match (recover_from_log ;; log_run ops) (power_on st sz d k) with
  | Done _ s => ∃ a, spec_run sz ops (recovered H) = Some a ∧ represents st sz a s
  | Crashed d' => ∃ l1 l2 a, ops = l1 ++ l2 ∧ spec_run sz l1 (recovered H) = Some a ∧ durable st sz (committed a) d'
  | Panicked => spec_run sz ops (recovered H) = None
  end.
Proof.
  intros D Hops. unfold mbind, DM_bind. pose proof (initlog_ok st sz H d k D) as H0. unfold initlog in H0.
  destruct (recover_from_log (power_on st sz d k)) as [u s|d'|]; [|exists [], ops; eexists; split_and!; done|done].
  pose proof (log_run_ok st sz ops _ s H0 Hops) as H1. destruct (log_run ops s) as [u' s'|d'|]; [done| |done].
  destruct H1 as (l1&o&l2&a1&->&E1&[Hd|(a2&E2&Hd)]); [by exists l1, (o :: l2), a1|].
  exists (l1 ++ [o]), l2, a2. split_and!; [by rewrite <- app_assoc| |done].
  clear -E1 E2. generalize dependent (recovered H). induction l1 as [|p l1 IH]; intros a E1; simpl in *; [simplify_eq; by rewrite E2|].
  destruct (spec_op sz p a); simpl in *; [by apply IH|done].
Qed.

(** One operation writes two blocks; the power fails while they are installed. *)
Definition two_writes : list log_op := [L_begin; L_write 50 [1]; L_write 60 [2]; L_end].
Definition torn_disk : gmap nat block :=
  match (recover_from_log ;; log_run two_writes) (power_on 2 30 fresh_disk 5) with Crashed d => d | _ => ∅ end.

Lemma two_writes_ok : Forall (op_ok 2 30) two_writes.
Proof. repeat first [apply Forall_nil_2|apply Forall_cons_2]; try exact I; right; simpl; lia. Qed.

Lemma log_crash_safe_witness :
  torn_disk !!! 50%nat = [1] ∧ torn_disk !!! 60%nat = [] ∧
  ∃ l1 l2 a, two_writes = l1 ++ l2 ∧ spec_run 30 l1 (recovered fresh) = Some a ∧ durable 2 30 (committed a) torn_disk.
Proof.
  split; [vm_compute; reflexivity|]. split; [vm_compute; reflexivity|].
  assert ((recover_from_log ;; log_run two_writes) (power_on 2 30 fresh_disk 5) = Crashed torn_disk) as E by (vm_compute; reflexivity).
  pose proof (log_crash_safe 2 30 fresh fresh_disk 5 two_writes (fresh_durable 30 ltac:(lia)) two_writes_ok) as H.
  rewrite E in H. exact H.
Defined.

Lemma crash_durable st sz H d k ops d' :
  durable st sz H d → Forall (op_ok st sz) ops → (recover_from_log ;; log_run ops) (power_on st sz d k) = Crashed d' →
  ∃ H', durable st sz H' d'.
Proof.
  intros D Hops. unfold mbind, DM_bind. pose proof (initlog_ok st sz H d k D) as H0. unfold initlog in H0.
  destruct (recover_from_log _) as [u s|d0|]; [|intros [= <-]; eauto|done]. intros E.
  pose proof (log_run_ok st sz ops _ s H0 Hops) as H1. rewrite E in H1. destruct H1 as (?&?&?&?&_&_&[?|(?&_&?)]); eauto.
Qed.

(** C38: Recovery ends and is stable: however often the power fails during
    recovery, and after however many block writes, the next recovery with power
    for the logged blocks and the header completes, with every block outside the
    log holding the recovered contents and an empty log. *)
Theorem log_recovers st sz H d ks k :
  durable st sz H d → (length (decode_head (reboot st sz ks d !!! st)) < k)%nat →
  ∃ s, initlog st sz (reboot st sz ks d) k = Done tt s ∧
    (∀ b, home st sz b → disk s !!! b = H b) ∧ decode_head (disk s !!! st) = [].
Proof.
  intros D Hk. pose proof (reboot_durable st sz H ks d D) as D'. destruct (initlog_done st sz (reboot st sz ks d) k Hk) as [s E].
  exists s. split; [done|]. pose proof (initlog_ok st sz H _ k D') as R. rewrite E in R. split; [|apply R].
  intros b Hb. apply (du_rest _ _ _ _ (re_durable _ _ _ _ R) b Hb). rewrite (re_head _ _ _ _ R). apply not_elem_of_nil.
Qed.
Lemma log_recovers_witness :
  ∃ s, initlog 2 30 (reboot 2 30 [0; 1]%nat torn_disk) 9 = Done tt s ∧ disk s !!! 50%nat = [1] ∧ disk s !!! 60%nat = [2].
Proof.
  destruct (crash_durable 2 30 fresh fresh_disk 5 two_writes torn_disk (fresh_durable 30 ltac:(lia)) two_writes_ok) as [H D]; [vm_compute; reflexivity|].
  destruct (log_recovers 2 30 H torn_disk [0; 1]%nat 9 D) as (s&E&_); [vm_compute; lia|].
  exists s. split; [exact E|]. vm_compute in E. injection E as <-. split; reflexivity.
Defined.


(** Three operations that write [MAXOPBLOCKS] different blocks each. *)
Definition three_operations : list op_call :=
  [K_begin; K_begin; K_begin] ++ ((λ b, K_write (b / 10) (100 + b) []) <$> seq 0 30) ++ [K_end 0; K_end 0; K_end 0].

Lemma three_operations_ok sz : sz ≤ 50 → Forall (op_ok 2 sz) (op_of <$> three_operations).
Proof.
  intros Hz. apply Forall_fmap, Forall_app. split; [by repeat constructor|]. apply Forall_app. split; [|by repeat constructor].
  apply Forall_fmap, Forall_forall. intros b Hb. right. lia.
Qed.


(** The log that mkfs lays out, of [LOGSIZE] blocks with the header, is one
    block short of what [begin_op] lets in: three operations that keep to
    [MAXOPBLOCKS] are admitted together, and the last [log_write] of them
    panics. *)
Theorem log_overflows k :
  modest LOGSIZE three_operations [] (recovered fresh) = true ∧ Forall (op_ok 2 LOGSIZE) (op_of <$> three_operations) ∧
  (recover_from_log ;; log_run (op_of <$> three_operations)) (power_on 2 LOGSIZE fresh_disk (S k)) = Panicked.
Proof.
  split; [vm_compute; reflexivity|]. split; [apply three_operations_ok; discriminate|]. reflexivity.
Qed.
