(* ===== verification/XvSh.v ===== *)
(** The shell of xv6 (sh.c, with the string functions of ulib.c it uses): the
    parser, which works on offsets into the line, and the execution of the parsed
    command as the processes it makes and the descriptors they have. *)

From stdpp Require Import base option list numbers.
From Stdlib Require Import Strings.Byte ZArith Lia.
From S2P Require Import Prelude CString XvProc.

Definition MAXARGS : nat := 10.
Global Arguments MAXARGS : simpl never.

(** * Commands *)

(** The structs of a parsed command; [W] is how it refers to a word of the line:
    a start and an end offset after parsing, and its text when it runs. *)
Inductive cmd (W : Type) :=
  | EXEC (argv : list W)
  | REDIR (c : cmd W) (file : W) (mode : Z) (fd : nat)
  | PIPE (left right : cmd W)
  | LIST (left right : cmd W)
  | BACK (c : cmd W).
Global Arguments EXEC {W} _.
Global Arguments REDIR {W} _ _ _ _.
Global Arguments PIPE {W} _ _.
Global Arguments LIST {W} _ _.
Global Arguments BACK {W} _.

Fixpoint cmd_map {V W : Type} (f : V → W) (c : cmd V) : cmd W :=
  match c with
  | EXEC argv => EXEC (f <$> argv)
  | REDIR c file mode fd => REDIR (cmd_map f c) (f file) mode fd
  | PIPE l r => PIPE (cmd_map f l) (cmd_map f r)
  | LIST l r => LIST (cmd_map f l) (cmd_map f r)
  | BACK c => BACK (cmd_map f c)
  end.

Definition O_RDONLY : Z := 0.
Definition O_WRONLY : Z := 1.
Definition O_CREATE : Z := 512.

(** * Tokens *)

(** [strchr] of ulib.c as a test; it does not find the terminating NUL. *)
Definition strchr (s : cstr) (c : byte) : bool := bool_decide (c ∈ s).

Definition whitespace : cstr := [" "%byte; x09; x0d; x0a; x0b].
Definition symbols : cstr := cs "<|>&;()".

Definition is_ws (c : byte) : Prop := strchr whitespace c = true.
Definition is_word (c : byte) : Prop := strchr whitespace c = false ∧ strchr symbols c = false.
Global Instance is_ws_dec c : Decision (is_ws c).
Proof. unfold is_ws. apply _. Defined.
Global Instance is_word_dec c : Decision (is_word c).
Proof. unfold is_word. apply _. Defined.

(** The byte at an offset; the line ends with a NUL. *)
Definition char_at (buf : cstr) (s : nat) : byte := default NUL (buf !! s).

(** The loops that move the offset over white space and over a word. *)
Definition skip_ws (buf : cstr) (s : nat) : nat := s + length (take_while is_ws (drop s buf)).
Definition skip_word (buf : cstr) (s : nat) : nat := s + length (take_while is_word (drop s buf)).

(** The kind of the token, where it starts and ends, and the new offset. *)
Definition gettoken (buf : cstr) (s : nat) : byte * nat * nat * nat :=
  let q := skip_ws buf s in
  let c := char_at buf q in
  let '(ret, eq) :=
    if decide (c = NUL) then (NUL, q)
    else if strchr (cs "|();&<") c then (c, S q)
    else if decide (c = ">"%byte) then
      if decide (char_at buf (S q) = ">"%byte) then ("+"%byte, S (S q)) else (">"%byte, S q)
    else ("a"%byte, skip_word buf q) in
  (ret, q, eq, skip_ws buf eq).

Definition peek (buf : cstr) (s : nat) (toks : cstr) : bool * nat :=
  let s := skip_ws buf s in
  (negb (bool_decide (char_at buf s = NUL)) && strchr toks (char_at buf s), s).

Global Arguments gettoken : simpl never.
Global Arguments peek : simpl never.
Global Arguments cs : simpl never.

(** * The parser *)

(** A parser returns, or panics, which ends the process. *)
Inductive result (A : Type) := Ok (a : A) | Panic (why : cstr) | NoFuel.
Global Arguments Ok {A} _.
Global Arguments Panic {A} _.
Global Arguments NoFuel {A}.

Definition rbind {A B} (m : result A) (f : A → result B) : result B :=
  match m with Ok a => f a | Panic why => Panic why | NoFuel => NoFuel end.

Abbreviation span := (nat * nat)%type.
Abbreviation parsed := (result (cmd span * nat)).

(** [parseexec] keeps a pointer to its execcmd, which [parseredirs] wraps: the
    stores go to the command at the bottom of the redirections. *)
Fixpoint push_arg {W} (w : W) (c : cmd W) : cmd W :=
  match c with
  | EXEC argv => EXEC (argv ++ [w])
  | REDIR c file mode fd => REDIR (push_arg w c) file mode fd
  | c => c
  end.

Definition redirect {W} (tok : byte) (c : cmd W) (w : W) : cmd W :=
  if decide (tok = "<"%byte) then REDIR c w O_RDONLY 0
  else if decide (tok = ">"%byte) then REDIR c w (Z.lor O_WRONLY O_CREATE) 1
  else if decide (tok = "+"%byte) then REDIR c w (Z.lor O_WRONLY O_CREATE) 1
  else c.

Section parser.
Context (buf : cstr).

Fixpoint parseredirs (fuel : nat) (c : cmd span) (s : nat) : parsed :=
  match fuel with
  | O => NoFuel
  | S fuel =>
      let '(found, s) := peek buf s (cs "<>") in
      if found then
        let '(tok, _, _, s) := gettoken buf s in
        let '(t, q, eq, s) := gettoken buf s in
        if decide (t = "a"%byte) then parseredirs fuel (redirect tok c (q, eq)) s
        else Panic (cs "missing file for redirection")
      else Ok (c, s)
  end.

(** The loop of [parseexec] over the arguments. *)
Fixpoint parseargs (fuel : nat) (ret : cmd span) (argc : nat) (s : nat) : parsed :=
  match fuel with
  | O => NoFuel
  | S fuel' =>
      let '(found, s) := peek buf s (cs "|)&;") in
      if found then Ok (ret, s)
      else
        let '(tok, q, eq, s) := gettoken buf s in
        if decide (tok = NUL) then Ok (ret, s)
        else if decide (tok = "a"%byte) then
          let ret := push_arg (q, eq) ret in
          let argc := S argc in
          if decide (MAXARGS ≤ argc) then Panic (cs "too many args")
          else rbind (parseredirs fuel' ret s) (λ '(ret, s), parseargs fuel' ret argc s)
        else Panic (cs "syntax")
  end.

(** The loop of [parseline] over the ampersands. *)
Fixpoint parseback (fuel : nat) (c : cmd span) (s : nat) : parsed :=
  match fuel with
  | O => NoFuel
  | S fuel =>
      let '(found, s) := peek buf s (cs "&") in
      if found then let '(_, _, _, s) := gettoken buf s in parseback fuel (BACK c) s
      else Ok (c, s)
  end.

Fixpoint parseline (fuel : nat) (s : nat) : parsed :=
  match fuel with
  | O => NoFuel
  | S fuel =>
      rbind (parsepipe fuel s) (λ '(c, s),
      rbind (parseback fuel c s) (λ '(c, s),
      let '(found, s) := peek buf s (cs ";") in
      if found then
        let '(_, _, _, s) := gettoken buf s in
        rbind (parseline fuel s) (λ '(d, s), Ok (LIST c d, s))
      else Ok (c, s)))
  end
with parsepipe (fuel : nat) (s : nat) : parsed :=
  match fuel with
  | O => NoFuel
  | S fuel =>
      rbind (parseexec fuel s) (λ '(c, s),
      let '(found, s) := peek buf s (cs "|") in
      if found then
        let '(_, _, _, s) := gettoken buf s in
        rbind (parsepipe fuel s) (λ '(d, s), Ok (PIPE c d, s))
      else Ok (c, s))
  end
with parseblock (fuel : nat) (s : nat) : parsed :=
  match fuel with
  | O => NoFuel
  | S fuel =>
      let '(found, s) := peek buf s (cs "(") in
      if negb found then Panic (cs "parseblock")
      else
        let '(_, _, _, s) := gettoken buf s in
        rbind (parseline fuel s) (λ '(c, s),
        let '(found, s) := peek buf s (cs ")") in
        if negb found then Panic (cs "syntax - missing )")
        else
          let '(_, _, _, s) := gettoken buf s in
          parseredirs fuel c s)
  end
with parseexec (fuel : nat) (s : nat) : parsed :=
  match fuel with
  | O => NoFuel
  | S fuel =>
      let '(found, s) := peek buf s (cs "(") in
      if found then parseblock fuel s
      else rbind (parseredirs fuel (EXEC []) s) (λ '(ret, s), parseargs fuel ret 0 s)
  end.

End parser.

(** [nulterminate] writes a NUL at the end of every word. *)
Fixpoint nulterminate (c : cmd span) (mem : list byte) : list byte :=
  match c with
  | EXEC argv => foldl (λ mem w, <[w.2 := NUL]> mem) mem argv
  | REDIR c file _ _ => <[file.2 := NUL]> (nulterminate c mem)
  | PIPE l r | LIST l r => nulterminate r (nulterminate l mem)
  | BACK c => nulterminate c mem
  end.

(** The command, and the line with the words terminated. Four calls deep per
    byte, and one turn of a loop per byte, is enough fuel. *)
Definition parsecmd (buf : cstr) : result (cmd span * list byte) :=
  rbind (parseline buf (4 * length buf + 4) 0) (λ '(c, s),
  let '(_, s) := peek buf s [] in
  if decide (s ≠ length buf) then Panic (cs "syntax")
  else Ok (c, nulterminate c (buf ++ [NUL]))).

(** The string a pointer into the line stands for. *)
Definition string_at (mem : list byte) (w : span) : cstr := take_while (.≠ NUL) (drop w.1 mem).

(** * Running a command *)

(** A descriptor table; open files are numbered. *)
Abbreviation fdt := (list (option nat)).

(** What a process of the shell does: leave, run a program, fork a child and wait
    before it goes on, fork the two sides of a pipe and wait for both, or fork a
    child and leave. *)
Inductive task (T : Type) :=
  | T_exit
  | T_exec (argv : list cstr) (fds : T)
  | T_message (m : cstr)
  | T_list (child rest : task T)
  | T_pipe (left right : task T)
  | T_back (child : task T).
Global Arguments T_exit {T}.
Global Arguments T_exec {T} _ _.
Global Arguments T_message {T} _.
Global Arguments T_list {T} _ _.
Global Arguments T_pipe {T} _ _.
Global Arguments T_back {T} _.

Definition fd_close (fd : nat) (t : fdt) : fdt := <[fd := None]> t.
Definition fd_dup (fd : nat) (t : fdt) : fdt :=
  match t !! fd with
  | Some (Some j) => match fdalloc j t with Some (_, t) => t | None => t end
  | _ => t
  end.

Section run.
(** Whether a file can be opened with a mode; [fork] succeeds. *)
Context (can_open : cstr → Z → bool).

(** [n] is the number of the next open file. *)
Fixpoint runcmd (c : cmd cstr) (t : fdt) (n : nat) : task fdt * nat :=
  match c with
  | EXEC [] => (T_exit, n)
  | EXEC argv => (T_exec argv t, n)
  | REDIR c file mode fd =>
      let t := fd_close fd t in
      match (if can_open file mode then fdalloc n t else None) with
      | None => (T_message (cs "open " ++ file ++ cs " failed"), n)
      | Some (_, t) => runcmd c t (S n)
      end
  | LIST l r =>
      let '(a, n) := runcmd l t n in
      let '(b, n) := runcmd r t n in
      (T_list a b, n)
  | PIPE l r =>
      match ('(p0, t) ← fdalloc n t; '(p1, t) ← fdalloc (S n) t; Some (p0, p1, t)) with
      | None => (T_message (cs "pipe"), n)
      | Some (p0, p1, t) =>
          let '(a, n) := runcmd l (fd_close p1 (fd_close p0 (fd_dup p1 (fd_close 1 t)))) (S (S n)) in
          let '(b, n) := runcmd r (fd_close p1 (fd_close p0 (fd_dup p0 (fd_close 0 t)))) n in
          (T_pipe a b, n)
      end
  | BACK c => let '(a, n) := runcmd c t n in (T_back a, n)
  end.

End run.

(** * The main loop *)

(** [gets]: the bytes stored and the input left. *)
Fixpoint gets (max : nat) (input : list byte) : list byte * list byte :=
  match max, input with
  | S (S max), c :: input =>
      if decide (c = NEWLINE ∨ c = x0d) then ([c], input)
      else let '(l, input) := gets (S max) input in (c :: l, input)
  | _, _ => ([], input)
  end.

Inductive sh_action := Chdir (path : cstr) | Run (c : result (cmd cstr)).

Definition parse_texts (buf : cstr) : result (cmd cstr) :=
  rbind (parsecmd buf) (λ '(c, mem), Ok (cmd_map (string_at mem) c)).

(** [main] after the descriptors are open: what it does with its input. *)
Fixpoint sh_main (fuel : nat) (input : list byte) : list sh_action :=
  match fuel with
  | O => []
  | S fuel =>
      let '(l, input) := gets 100 input in
      let buf := take_while (.≠ NUL) l in
      match buf with
      | [] => []
      | _ =>
          if decide (take 3 buf = cs "cd ") then Chdir (drop 3 (removelast buf)) :: sh_main fuel input
          else Run (parse_texts buf) :: sh_main fuel input
      end
  end.
