(* ===== verification/XvShParse.v ===== *)
(** The parser of the xv6 shell against a grammar: a lexer that cuts a line into
    tokens, a grammar over tokens with the command each sentence stands for, and
    the proof that [parsecmd] accepts exactly the sentences of the grammar, with
    that command, and otherwise stops with a message. *)

From stdpp Require Import base option list numbers sets.
From Stdlib Require Import Strings.Byte ZArith Lia.
From S2P Require Import Prelude CString XvProc XvSh.

(** * Tokens *)

Inductive token := Sym (c : byte) | Append | Word (w : cstr).

Definition flush (w : cstr) : list token := match w with [] => [] | _ => [Word w] end.

(** The tokens of [s], after the bytes [w] of a word. *)
Fixpoint lex_from (w : cstr) (s : cstr) : list token :=
  match s with
  | [] => flush w
  | c :: s' =>
      if strchr whitespace c then flush w ++ lex_from [] s'
      else if strchr symbols c then
        flush w ++
        match s' with
        | d :: s'' => if decide (c = ">"%byte ∧ d = ">"%byte) then Append :: lex_from [] s'' else Sym c :: lex_from [] s'
        | [] => [Sym c]
        end
      else lex_from (w ++ [c]) s'
  end.
Definition lex : cstr → list token := lex_from [].

(** * The grammar *)

Inductive redir_kind := Input | Output | OutputAppend.

Definition kind_byte (k : redir_kind) : byte :=
  match k with Input => "<" | Output => ">" | OutputAppend => "+" end%byte.
Definition kind_token (k : redir_kind) : token :=
  match k with Input => Sym "<"%byte | Output => Sym ">"%byte | OutputAppend => Append end.

(** The parts of a simple command. *)
Inductive item (W : Type) := Arg (w : W) | Redir (k : redir_kind) (w : W).
Global Arguments Arg {W} _.
Global Arguments Redir {W} _ _.

Definition item_map {V W} (f : V → W) (i : item V) : item W :=
  match i with Arg w => Arg (f w) | Redir k w => Redir k (f w) end.
Definition item_tokens (i : item cstr) : list token :=
  match i with Arg w => [Word w] | Redir k w => [kind_token k; Word w] end.
Definition apply_item {W} (c : cmd W) (i : item W) : cmd W :=
  match i with Arg w => push_arg w c | Redir k w => redirect (kind_byte k) c w end.
Definition is_arg {W} (i : item W) : bool := match i with Arg _ => true | Redir _ _ => false end.
Definition argc {W} (l : list (item W)) : nat := length (filter is_arg l).

Inductive level := Line | Amp | Pipe | Exec.

(** The sentences of each level with their commands. *)
Inductive sentence : level → list token → cmd cstr → Prop :=
  | s_simple l : (argc l < MAXARGS)%nat → sentence Exec (l ≫= item_tokens) (foldl apply_item (EXEC []) l)
  | s_block ts c l : sentence Line ts c → argc l = 0%nat →
      sentence Exec (Sym "("%byte :: ts ++ Sym ")"%byte :: (l ≫= item_tokens)) (foldl apply_item c l)
  | s_exec ts c : sentence Exec ts c → sentence Pipe ts c
  | s_pipe ts c us d : sentence Exec ts c → sentence Pipe us d → sentence Pipe (ts ++ Sym "|"%byte :: us) (PIPE c d)
  | s_plain ts c : sentence Pipe ts c → sentence Amp ts c
  | s_back ts c : sentence Amp ts c → sentence Amp (ts ++ [Sym "&"%byte]) (BACK c)
  | s_last ts c : sentence Amp ts c → sentence Line ts c
  | s_list ts c us d : sentence Amp ts c → sentence Line us d → sentence Line (ts ++ Sym ";"%byte :: us) (LIST c d).

(** * The lexer and [gettoken] *)

Lemma lex_skip s : lex (drop_while is_ws s) = lex s.
Proof.
  induction s as [|c s IH]; [done|]. simpl. case_decide as H; [|done]. rewrite IH. unfold lex. simpl. unfold is_ws in H. by rewrite H.
Qed.

Lemma lex_from_app acc w s : Forall is_word w → lex_from acc (w ++ s) = lex_from (acc ++ w) s.
Proof.
  revert acc. induction w as [|c w IH]; intros acc H; [by rewrite app_nil_r|]. apply Forall_cons_1 in H as [[H1 H2] H]. simpl.
  rewrite H1, H2, IH by done. by rewrite <- app_assoc.
Qed.

Lemma lex_from_stop acc s : (∀ c, head s = Some c → ¬ is_word c) → lex_from acc s = flush acc ++ lex s.
Proof.
  intros H. destruct s as [|c s]; [by rewrite app_nil_r|]. specialize (H c eq_refl). unfold lex, is_word in *. simpl.
  destruct (strchr whitespace c); [done|]. destruct (strchr symbols c); [done|]. by destruct H.
Qed.

Lemma lex_word w s : w ≠ [] → Forall is_word w → (∀ c, head s = Some c → ¬ is_word c) → lex (w ++ s) = Word w :: lex s.
Proof. intros Hw Hf Hs. unfold lex at 1. rewrite lex_from_app, lex_from_stop by done. by destruct w. Qed.

Lemma symbol_cases c : strchr symbols c = true → strchr (cs "|();&<") c = false → c = ">"%byte.
Proof. destruct c; vm_compute; congruence. Qed.

Lemma not_symbol c : strchr symbols c = false → strchr (cs "|();&<") c = false.
Proof. destruct c; vm_compute; congruence. Qed.

(** ** Offsets *)

Section lexing.
Context (buf : cstr) (buf_string : no_nul buf).

Definition toks (s : nat) : list token := lex (drop s buf).
Definition slice (w : span) : cstr := take (w.2 - w.1) (drop w.1 buf).

(** A span is a word that is not part of a longer one. *)
Record is_span (w : span) : Prop := {
  sp_range : (w.1 < w.2 ≤ length buf)%nat;
  sp_word : Forall is_word (slice w);
  sp_stop : ∀ c, buf !! w.2 = Some c → ¬ is_word c;
}.

Lemma drop_skip (P : byte → Prop) `{∀ c, Decision (P c)} s :
  drop (s + length (take_while P (drop s buf))) buf = drop_while P (drop s buf).
Proof. rewrite <- drop_drop. rewrite <- (take_drop_while P (drop s buf)) at 2. apply drop_app_length. Qed.

Lemma skip_bound (P : byte → Prop) `{∀ c, Decision (P c)} s :
  (s ≤ length buf → s + length (take_while P (drop s buf)) ≤ length buf)%nat.
Proof.
  intros Hs. pose proof (f_equal length (take_drop_while P (drop s buf))) as E. rewrite length_app, length_drop in E. lia.
Qed.

Lemma head_drop s : head (drop s buf) = buf !! s.
Proof. assert (drop s buf !! 0%nat = buf !! s) as <- by (rewrite lookup_drop; f_equal; lia). by destruct (drop s buf). Qed.

Lemma toks_skip s : toks (skip_ws buf s) = toks s.
Proof. unfold toks, skip_ws. rewrite (drop_skip is_ws). apply lex_skip. Qed.

Lemma skip_ws_stop s c : buf !! skip_ws buf s = Some c → ¬ is_ws c.
Proof.
  rewrite <- head_drop. unfold skip_ws. rewrite (drop_skip is_ws). destruct (drop_while is_ws (drop s buf)) as [|d l] eqn:E; [done|].
  intros [= <-]. by apply drop_while_head in E.
Qed.

Lemma char_at_nul s : (s ≤ length buf)%nat → char_at buf s = NUL → s = length buf.
Proof.
  intros Hs. unfold char_at. destruct (buf !! s) as [c|] eqn:E; simpl.
  - intros ->. exfalso. apply buf_string. by eapply list_elem_of_lookup_2.
  - intros _. apply lookup_ge_None in E. lia.
Qed.

Definition token_kind (t : token) : byte :=
  match t with Sym c => c | Append => "+"%byte | Word _ => "a"%byte end.

Lemma word_token q c :
  buf !! q = Some c → is_word c →
  toks q = Word (slice (q, skip_word buf q)) :: toks (skip_word buf q) ∧ is_span (q, skip_word buf q).
Proof.
  intros Hq Hc. pose proof (lookup_lt_Some _ _ _ Hq) as Hlt. unfold skip_word.
  set (w := take_while is_word (drop q buf)). assert (slice (q, q + length w)%nat = w) as Hsl.
  { unfold slice, w. simpl. replace (q + length (take_while is_word (drop q buf)) - q)%nat with (length (take_while is_word (drop q buf))) by lia.
    rewrite <- (take_drop_while is_word (drop q buf)) at 2. by rewrite take_app_length. }
  assert (w ≠ []) as Hw.
  { unfold w. pose proof (head_drop q) as E. rewrite Hq in E. destruct (drop q buf) as [|d l]; [done|]. injection E as ->.
    simpl. by rewrite decide_True. }
  assert (∀ c, buf !! (q + length w)%nat = Some c → ¬ is_word c) as Hstop.
  { intros d. rewrite <- head_drop. unfold w. rewrite (drop_skip is_word).
    destruct (drop_while is_word (drop q buf)) as [|e l] eqn:E; [done|]. intros [= <-]. by apply drop_while_head in E. }
  pose proof (take_while_all is_word (drop q buf)) as Hall. fold w in Hall. split.
  - assert (drop q buf = w ++ drop (q + length w) buf) as E by (unfold w; rewrite (drop_skip is_word); symmetry; apply take_drop_while).
    rewrite Hsl. unfold toks at 1. rewrite E. rewrite lex_word; [done|done|done|]. intros d. rewrite head_drop. apply Hstop.
  - split; simpl; [|by rewrite Hsl|exact Hstop]. split; [destruct w; simpl in *; [done|lia]|]. apply (skip_bound is_word). lia.
Qed.

Lemma symbol_token q c :
  buf !! q = Some c → strchr whitespace c = false → strchr symbols c = true →
  toks q = (if decide (c = ">"%byte ∧ char_at buf (S q) = ">"%byte) then Append :: toks (S (S q)) else Sym c :: toks (S q)).
Proof.
  intros Hq Hw Hs. unfold toks. rewrite (drop_S _ _ _ Hq). unfold lex at 1. simpl. rewrite Hw, Hs. simpl. unfold char_at.
  pose proof (head_drop (S q)) as E. destruct (drop (S q) buf) as [|d l] eqn:Hd; simpl in E; rewrite <- E; simpl.
  - rewrite decide_False; [done|]. by intros [_ ?].
  - case_decide; [|done]. f_equal.
    assert (drop (S (S q)) buf = l) as ->; [|done]. replace (S (S q)) with (S q + 1)%nat by lia. rewrite <- drop_drop, Hd. done.
Qed.

(** What is known of a token found at a span. *)
Definition found (t : token) (w : span) : Prop :=
  match t with Sym c => strchr symbols c = true | Append => True | Word v => is_span w ∧ v = slice w end.

(** What a call of [gettoken] at [s] finds: the next token. *)
Definition takes (s : nat) (r : byte * nat * nat * nat) : Prop :=
  let '(ret, q, eq, s') := r in
  match toks s with
  | [] => ret = NUL ∧ toks s' = [] ∧ (s ≤ s' ≤ length buf)%nat
  | t :: ts =>
      ret = token_kind t ∧ ret ≠ NUL ∧ toks s' = ts ∧ (s < s' ≤ length buf)%nat ∧
      found t (q, eq)
  end.

Lemma skip_ws_bound s : (s ≤ length buf → s ≤ skip_ws buf s ≤ length buf)%nat.
Proof. intros Hs. pose proof (skip_bound is_ws s Hs). unfold skip_ws. lia. Qed.

Lemma after_token eq : (eq ≤ length buf)%nat → toks (skip_ws buf eq) = toks eq ∧ (eq ≤ skip_ws buf eq ≤ length buf)%nat.
Proof. intros H. split; [apply toks_skip|by apply skip_ws_bound]. Qed.

Lemma gettoken_spec s : (s ≤ length buf)%nat → takes s (gettoken buf s).
Proof.
  intros Hs. unfold gettoken, takes. rewrite <- (toks_skip s). pose proof (skip_ws_bound s Hs) as Hb. set (q := skip_ws buf s) in *.
  destruct (decide (char_at buf q = NUL)) as [Hn|Hn].
  { apply char_at_nul in Hn; [|lia]. destruct (after_token q) as [-> ?]; [lia|]. rewrite Hn in *. unfold toks. rewrite drop_all. simpl. split_and!; (done || lia). }
  unfold char_at in Hn |- *. destruct (buf !! q) as [c|] eqn:Hq; [|done]. simpl in *. pose proof (lookup_lt_Some _ _ _ Hq) as Hlt.
  pose proof (skip_ws_stop s c Hq) as Hws. unfold is_ws in Hws. apply not_true_is_false in Hws.
  destruct (strchr symbols c) eqn:Hsym.
  - rewrite (symbol_token q c Hq Hws Hsym). destruct (strchr (cs "|();&<") c) eqn:Hc1.
    { rewrite decide_False by (intros [-> _]; done). destruct (after_token (S q)) as [-> ?]; [lia|].
      by split_and!; try lia. }
    assert (c = ">"%byte) as ->.
    { by apply symbol_cases. }
    rewrite (decide_True (P := ">"%byte = ">"%byte)) by done. unfold char_at. destruct (decide (default NUL (buf !! S q) = ">"%byte)) as [Hd|Hd].
    + rewrite decide_True by done. destruct (buf !! S q) as [d|] eqn:Hq2; [|done]. apply lookup_lt_Some in Hq2.
      destruct (after_token (S (S q))) as [-> ?]; [lia|]. by split_and!; try lia.
    + rewrite decide_False by (by intros [_ ?]). destruct (after_token (S q)) as [-> ?]; [lia|]. by split_and!; try lia.
  - assert (is_word c) as Hw by done. destruct (word_token q c Hq Hw) as [-> Hsp]. pose proof (sp_range _ Hsp) as Hr. simpl in Hr.
    assert (strchr (cs "|();&<") c = false) as ->.
    { by apply not_symbol. }
    rewrite decide_False by (intros ->; done). destruct (after_token (skip_word buf q)) as [-> ?]; [lia|].
    by split_and!; try lia.
Qed.

Lemma gettoken_cons s t ts :
  toks s = t :: ts → (s ≤ length buf)%nat →
  ∃ q eq s', gettoken buf s = (token_kind t, q, eq, s') ∧ token_kind t ≠ NUL ∧ toks s' = ts ∧ (s < s' ≤ length buf)%nat ∧ found t (q, eq).
Proof.
  intros Ht Hs. pose proof (gettoken_spec s Hs) as G. destruct (gettoken buf s) as [[[ret q] eq] s']. unfold takes in G. rewrite Ht in G.
  destruct G as (->&G). exists q, eq, s'. done.
Qed.

Lemma gettoken_nil s :
  toks s = [] → (s ≤ length buf)%nat → ∃ q eq s', gettoken buf s = (NUL, q, eq, s') ∧ toks s' = [] ∧ (s ≤ s' ≤ length buf)%nat.
Proof.
  intros Ht Hs. pose proof (gettoken_spec s Hs) as G. destruct (gettoken buf s) as [[[ret q] eq] s']. unfold takes in G. rewrite Ht in G.
  destruct G as (->&G). exists q, eq, s'. done.
Qed.

(** Whether the next token starts with one of [l]. *)
Definition starts (l : cstr) (ts : list token) : bool :=
  match ts with Sym c :: _ => strchr l c | Append :: _ => strchr l ">"%byte | _ => false end.

Lemma peek_spec s l :
  (s ≤ length buf)%nat → forallb (strchr symbols) l = true →
  peek buf s l = (starts l (toks s), skip_ws buf s) ∧ toks (skip_ws buf s) = toks s ∧ (s ≤ skip_ws buf s ≤ length buf)%nat.
Proof.
  intros Hs Hl. rewrite forallb_forall in Hl. split_and!; [|apply toks_skip|by apply skip_ws_bound..]. unfold peek. f_equal. rewrite <- (toks_skip s).
  pose proof (skip_ws_bound s Hs) as Hb. set (q := skip_ws buf s) in *. unfold char_at. destruct (buf !! q) as [c|] eqn:Hq; simpl.
  - rewrite bool_decide_eq_false_2 by (intros ->; apply buf_string; by eapply list_elem_of_lookup_2). simpl.
    pose proof (skip_ws_stop s c Hq) as Hws. unfold is_ws in Hws. apply not_true_is_false in Hws. destruct (strchr symbols c) eqn:Hsym.
    + rewrite (symbol_token q c Hq Hws Hsym). case_decide as Hd; [|done]. by destruct Hd as [-> _].
    + destruct (word_token q c Hq ltac:(done)) as [-> _]. simpl. unfold strchr. apply bool_decide_eq_false_2. intros Hc%list_elem_of_In%Hl. congruence.
  - apply lookup_ge_None in Hq. unfold toks. rewrite drop_ge by lia. done.
Qed.

End lexing.

(** * Words of commands *)

Fixpoint words {W} (c : cmd W) : list W :=
  match c with
  | EXEC argv => argv
  | REDIR c w _ _ => words c ++ [w]
  | PIPE l r | LIST l r => words l ++ words r
  | BACK c => words c
  end.
Definition item_word {W} (i : item W) : W := match i with Arg w | Redir _ w => w end.

Lemma words_push {W} (P : W → Prop) w c : P w → Forall P (words c) → Forall P (words (push_arg w c)).
Proof.
  intros Hw. induction c; simpl; rewrite ?Forall_app; try done; [intros; by rewrite Forall_singleton|naive_solver].
Qed.

Lemma words_items {W} (P : W → Prop) l c : Forall P (words c) → Forall (λ i, P (item_word i)) l → Forall P (words (foldl apply_item c l)).
Proof.
  revert c. induction l as [|i l IH]; intros c Hc Hl; [done|]. apply Forall_cons_1 in Hl as [Hi Hl]. apply IH; [|done].
  destruct i as [w|k w]; [by apply words_push|]. destruct k; simpl; by rewrite Forall_app, Forall_singleton.
Qed.

Lemma map_push {V W} (f : V → W) w c : cmd_map f (push_arg w c) = push_arg (f w) (cmd_map f c).
Proof. induction c; simpl; try done; [by rewrite fmap_app|congruence]. Qed.

Lemma map_items {V W} (f : V → W) l c : cmd_map f (foldl apply_item c l) = foldl apply_item (cmd_map f c) (item_map f <$> l).
Proof.
  revert c. induction l as [|i l IH]; intros c; [done|]. simpl. rewrite IH. f_equal. destruct i as [w|k w]; [apply map_push|by destruct k].
Qed.

Lemma argc_map {V W} (f : V → W) l : argc (item_map f <$> l) = argc l.
Proof. unfold argc. induction l as [|[w|k w] l IH]; simpl; rewrite ?filter_cons; simpl; naive_solver. Qed.

Lemma argc_app {W} (l k : list (item W)) : argc (l ++ k) = (argc l + argc k)%nat.
Proof. unfold argc. by rewrite filter_app, length_app. Qed.

(** * What the parser accepts is in the grammar *)

Section sound.
Context (buf : cstr) (buf_string : no_nul buf).
Local Abbreviation toks := (toks buf).
Local Abbreviation slice := (slice buf).
Local Abbreviation es := (length buf).

Definition texts (l : list (item span)) : list token := (item_map slice <$> l) ≫= item_tokens.

Lemma texts_cons i l : texts (i :: l) = item_tokens (item_map slice i) ++ texts l.
Proof. done. Qed.

Lemma texts_app l k : texts (l ++ k) = texts l ++ texts k.
Proof. unfold texts. by rewrite fmap_app, bind_app. Qed.

(** The result of a parser that adds items to the command [c]. *)
Definition adds (c : cmd span) (s : nat) (ok : list (item span) → Prop) (r : parsed) : Prop :=
  match r with
  | NoFuel => False
  | Panic _ => True
  | Ok (c', s') =>
      (s ≤ s' ≤ es)%nat ∧ ∃ l, ok l ∧ Forall (λ i, is_span buf (item_word i)) l ∧ c' = foldl apply_item c l ∧ toks s = texts l ++ toks s'
  end.

(** And of one that reads a command. *)
Definition reads (lv : level) (s : nat) (r : parsed) : Prop :=
  match r with
  | NoFuel => False
  | Panic _ => True
  | Ok (c, s') =>
      (s ≤ s' ≤ es)%nat ∧ Forall (is_span buf) (words c) ∧ ∃ ts, toks s = ts ++ toks s' ∧ sentence lv ts (cmd_map slice c)
  end.

Lemma kind_word t w : token_kind t = "a"%byte → found buf t w → ∃ v, t = Word v.
Proof. destruct t as [c| |v]; simpl; [intros ->|done|eauto]. done. Qed.

Lemma starts_redir t ts w : starts (cs "<>") (t :: ts) = true → found buf t w → ∃ k, t = kind_token k ∧ token_kind t = kind_byte k.
Proof.
  destruct t as [c| |v]; [|by exists OutputAppend|done]. intros H _. simpl in H.
  assert (c = "<"%byte ∨ c = ">"%byte) as [-> | ->] by (destruct c; vm_compute in H |- *; auto; done); [by exists Input|by exists Output].
Qed.

Lemma starts_sym l c ts : starts l ts = true → l = [c] → c ≠ ">"%byte → ∃ ts', ts = Sym c :: ts'.
Proof.
  intros H -> Hc. unfold starts, strchr in H. destruct ts as [|[x| |] ts]; [done| | |done]; apply bool_decide_eq_true, list_elem_of_singleton in H; naive_solver.
Qed.

Ltac peek_at := match goal with |- context [peek buf ?s ?l] => destruct (peek_spec buf buf_string s l) as (->&?E&?B); [lia|done|] end.

Lemma redirs_sound fuel c s : (s ≤ es)%nat → (es - s < fuel)%nat → adds c s (λ l, argc l = 0%nat) (parseredirs buf fuel c s).
Proof.
  revert c s. induction fuel as [|fuel IH]; intros c s Hs Hf; [lia|]. cbn [parseredirs]. peek_at.
  destruct (starts (cs "<>") (toks s)) eqn:Est; [|simpl; split; [lia|]; exists []; by rewrite E].
  destruct (toks s) as [|t ts] eqn:Et; [done|].
  destruct (gettoken_cons buf buf_string (skip_ws buf s) t ts) as (q0&eq0&s2&->&_&E2&B2&F); [done|lia|].
  destruct (starts_redir t ts _ Est F) as (k&->&->).
  destruct ts as [|u us]; [destruct (gettoken_nil buf buf_string s2) as (q&eq&s3&->&_); [done|lia|]; done|].
  destruct (gettoken_cons buf buf_string s2 u us) as (q&eq&s3&->&_&E3&B3&F3); [done|lia|]. case_decide as Hk; [|done].
  destruct (kind_word u _ Hk F3) as [v ->]. destruct F3 as [Hsp ->].
  specialize (IH (redirect (kind_byte k) c (q, eq)) s3 ltac:(lia) ltac:(lia)). destruct (parseredirs _ _ _ _) as [[c' s']| |]; [|done|done].
  destruct IH as (B'&l&Hl&Hw&->&E'). split; [lia|]. exists (Redir k (q, eq) :: l). split_and!; [done|by constructor|done|].
  rewrite Et, texts_cons. simpl. congruence.
Qed.

Lemma args_sound fuel c n s :
  (s ≤ es)%nat → (es - s < fuel)%nat → (n < MAXARGS)%nat → adds c s (λ l, n + argc l < MAXARGS)%nat (parseargs buf fuel c n s).
Proof.
  revert c n s. induction fuel as [|fuel IH]; intros c n s Hs Hf Hn; [lia|]. cbn [parseargs]. peek_at.
  destruct (starts (cs "|)&;") (toks s)) eqn:Est.
  { simpl. split; [lia|]. exists []. rewrite E. split_and!; [change (argc []) with 0%nat; lia|done|done|done]. }
  destruct (toks s) as [|t ts] eqn:Et.
  { destruct (gettoken_nil buf buf_string (skip_ws buf s)) as (q&eq&s2&->&E2&B2); [done|lia|]. simpl. split; [lia|].
    exists []. rewrite E2, Et. split_and!; [change (argc []) with 0%nat; lia|done|done|done]. }
  destruct (gettoken_cons buf buf_string (skip_ws buf s) t ts) as (q&eq&s2&->&Hnul&E2&B2&F); [done|lia|].
  rewrite decide_False by done. case_decide as Hk; [|done]. destruct (kind_word t _ Hk F) as [v ->]. destruct F as [Hsp ->].
  case_decide as Hm; [done|]. pose proof (redirs_sound fuel (push_arg (q, eq) c) s2 ltac:(lia) ltac:(lia)) as R.
  destruct (parseredirs _ _ _ _) as [[c1 s3]| |]; [|done|done]. destruct R as (B3&l1&Hl1&Hw1&->&E3). cbn [rbind].
  specialize (IH (foldl apply_item (push_arg (q, eq) c) l1) (S n) s3 ltac:(lia) ltac:(lia) ltac:(lia)).
  destruct (parseargs _ _ _ _ _) as [[c' s']| |]; [|done|done]. destruct IH as (B'&l&Hl&Hw&->&E').
  split; [lia|]. exists (Arg (q, eq) :: l1 ++ l). split_and!.
  - change (Arg (q, eq) :: l1 ++ l) with ([Arg (q, eq)] ++ l1 ++ l). rewrite !argc_app, Hl1. change (argc [Arg (q, eq)]) with 1%nat. lia.
  - constructor; [done|]. by apply Forall_app.
  - simpl. by rewrite foldl_app.
  - rewrite Et, texts_cons, texts_app. simpl. rewrite <- app_assoc. congruence.
Qed.

Lemma back_sound fuel c s ts0 s0 :
  (s ≤ es)%nat → (es - s < fuel)%nat → (s0 ≤ s)%nat → Forall (is_span buf) (words c) → toks s0 = ts0 ++ toks s → sentence Amp ts0 (cmd_map slice c) →
  reads Amp s0 (parseback buf fuel c s).
Proof.
  revert c s ts0. induction fuel as [|fuel IH]; intros c s ts0 Hs Hf H0 Hw Ht Hc; [lia|]. cbn [parseback]. peek_at.
  destruct (starts (cs "&") (toks s)) eqn:Est; [|simpl; split_and!; [lia|lia|done|]; exists ts0; by rewrite E].
  destruct (starts_sym _ "&"%byte _ Est) as [ts Et]; [done|done|]. rewrite Et in E.
  destruct (gettoken_cons buf buf_string (skip_ws buf s) _ ts E ltac:(lia)) as (q&eq&s2&->&_&E2&B2&F).
  apply (IH (BACK c) s2 (ts0 ++ [Sym "&"%byte])); [lia|lia|lia|done|rewrite Ht, Et, E2, <- app_assoc; done|]. by constructor.
Qed.

Section level.
Context (fuel : nat).
Context (line_ok : ∀ s, (s ≤ es)%nat → (4 * (es - s) + 4 ≤ fuel)%nat → reads Line s (parseline buf fuel s)).
Context (pipe_ok : ∀ s, (s ≤ es)%nat → (4 * (es - s) + 3 ≤ fuel)%nat → reads Pipe s (parsepipe buf fuel s)).
Context (exec_ok : ∀ s, (s ≤ es)%nat → (4 * (es - s) + 2 ≤ fuel)%nat → reads Exec s (parseexec buf fuel s)).
Context (block_ok : ∀ s, (s ≤ es)%nat → (4 * (es - s) + 1 ≤ fuel)%nat → reads Exec s (parseblock buf fuel s)).

Lemma line_sound s : (s ≤ es)%nat → (4 * (es - s) + 4 ≤ S fuel)%nat → reads Line s (parseline buf (S fuel) s).
Proof.
  intros Hs Hf. cbn [parseline]. pose proof (pipe_ok s Hs ltac:(lia)) as P. destruct (parsepipe _ _ _) as [[c s1]| |]; [|done|done].
  destruct P as (B1&W1&ts1&E1&S1). cbn [rbind].
  pose proof (back_sound fuel c s1 ts1 s ltac:(lia) ltac:(lia) ltac:(lia) W1 E1 ltac:(by constructor)) as A.
  destruct (parseback _ _ _ _) as [[d s2]| |]; [|done|done]. destruct A as (B2&W2&ts2&E2&S2). cbn [rbind]. peek_at.
  destruct (starts (cs ";") (toks s2)) eqn:Est; [|simpl; split_and!; [lia|lia|done|]; exists ts2; rewrite E; split; [done|by constructor]].
  destruct (starts_sym _ ";"%byte _ Est) as [ts Et]; [done|done|]. rewrite Et in E.
  destruct (gettoken_cons buf buf_string (skip_ws buf s2) _ ts E ltac:(lia)) as (q&eq&s3&->&_&E3&B3&_).
  pose proof (line_ok s3 ltac:(lia) ltac:(lia)) as L. destruct (parseline _ _ _) as [[e s4]| |]; [|done|done].
  destruct L as (B4&W4&ts4&E4&S4). cbn [rbind reads]. split_and!; [lia|lia|by apply Forall_app|].
  exists (ts2 ++ Sym ";"%byte :: ts4). split; [rewrite E2, Et, <- app_assoc; simpl; congruence|]. by constructor.
Qed.

Lemma pipe_sound s : (s ≤ es)%nat → (4 * (es - s) + 3 ≤ S fuel)%nat → reads Pipe s (parsepipe buf (S fuel) s).
Proof.
  intros Hs Hf. cbn [parsepipe]. pose proof (exec_ok s Hs ltac:(lia)) as P. destruct (parseexec _ _ _) as [[c s2]| |]; [|done|done].
  destruct P as (B2&W2&ts2&E2&S2). cbn [rbind]. peek_at.
  destruct (starts (cs "|") (toks s2)) eqn:Est; [|simpl; split_and!; [lia|lia|done|]; exists ts2; rewrite E; split; [done|by constructor]].
  destruct (starts_sym _ "|"%byte _ Est) as [ts Et]; [done|done|]. rewrite Et in E.
  destruct (gettoken_cons buf buf_string (skip_ws buf s2) _ ts E ltac:(lia)) as (q&eq&s3&->&_&E3&B3&_).
  pose proof (pipe_ok s3 ltac:(lia) ltac:(lia)) as L. destruct (parsepipe _ _ _) as [[e s4]| |]; [|done|done].
  destruct L as (B4&W4&ts4&E4&S4). cbn [rbind reads]. split_and!; [lia|lia|by apply Forall_app|].
  exists (ts2 ++ Sym "|"%byte :: ts4). split; [rewrite E2, Et, <- app_assoc; simpl; congruence|]. by constructor.
Qed.

Lemma block_sound s : (s ≤ es)%nat → (4 * (es - s) + 1 ≤ S fuel)%nat → reads Exec s (parseblock buf (S fuel) s).
Proof.
  intros Hs Hf. cbn [parseblock]. peek_at. destruct (starts (cs "(") (toks s)) eqn:Est; [|done]. cbn [negb].
  destruct (starts_sym _ "("%byte _ Est) as [ts Et]; [done|done|]. rewrite Et in E.
  destruct (gettoken_cons buf buf_string (skip_ws buf s) _ ts E ltac:(lia)) as (q&eq&s1&->&_&E1&B1&_).
  pose proof (line_ok s1 ltac:(lia) ltac:(lia)) as P. destruct (parseline _ _ _) as [[c s2]| |]; [|done|done].
  destruct P as (B2&W2&ts2&E2&S2). cbn [rbind]. peek_at. destruct (starts (cs ")") (toks s2)) eqn:Est2; [|done]. cbn [negb].
  destruct (starts_sym _ ")"%byte _ Est2) as [us Eu]; [done|done|]. rewrite Eu in E0.
  destruct (gettoken_cons buf buf_string (skip_ws buf s2) _ us E0 ltac:(lia)) as (q'&eq'&s3&->&_&E3&B3&_).
  pose proof (redirs_sound fuel c s3 ltac:(lia) ltac:(lia)) as R. destruct (parseredirs _ _ _ _) as [[d s4]| |]; [|done|done].
  destruct R as (B4&l&Hl&Hw&->&E4). split_and!; [lia|lia|by apply words_items|].
  exists (Sym "("%byte :: ts2 ++ Sym ")"%byte :: texts l). split.
  - rewrite Et, <- E1, E2, Eu, <- E3, E4. simpl. by rewrite <- !app_assoc.
  - rewrite map_items. constructor; [done|by rewrite argc_map].
Qed.

Lemma exec_sound s : (s ≤ es)%nat → (4 * (es - s) + 2 ≤ S fuel)%nat → reads Exec s (parseexec buf (S fuel) s).
Proof.
  intros Hs Hf. cbn [parseexec]. peek_at. destruct (starts (cs "(") (toks s)) eqn:Est.
  { pose proof (block_ok (skip_ws buf s) ltac:(lia) ltac:(lia)) as P. destruct (parseblock _ _ _) as [[c s2]| |]; [|done|done].
    destruct P as (B2&W2&P). rewrite E in P. split_and!; [lia|lia|done|done]. }
  pose proof (redirs_sound fuel (EXEC []) (skip_ws buf s) ltac:(lia) ltac:(lia)) as R. destruct (parseredirs _ _ _ _) as [[d s4]| |]; [|done|done].
  destruct R as (B4&l&Hl&Hw&->&E4). cbn [rbind].
  pose proof (args_sound fuel (foldl apply_item (EXEC []) l) 0 s4 ltac:(lia) ltac:(lia) ltac:(unfold MAXARGS; lia)) as A.
  destruct (parseargs _ _ _ _ _) as [[c s5]| |]; [|done|done]. destruct A as (B5&k&Hk&Hwk&->&E5).
  rewrite <- foldl_app. split_and!; [lia|lia|apply words_items; [done|by apply Forall_app]|].
  exists (texts (l ++ k)). split; [rewrite texts_app, <- app_assoc; congruence|].
  rewrite map_items. constructor. rewrite argc_map, argc_app. lia.
Qed.

End level.

Lemma parser_sound fuel s :
  (s ≤ es)%nat →
  ((4 * (es - s) + 4 ≤ fuel)%nat → reads Line s (parseline buf fuel s)) ∧ ((4 * (es - s) + 3 ≤ fuel)%nat → reads Pipe s (parsepipe buf fuel s)) ∧
  ((4 * (es - s) + 2 ≤ fuel)%nat → reads Exec s (parseexec buf fuel s)) ∧ ((4 * (es - s) + 1 ≤ fuel)%nat → reads Exec s (parseblock buf fuel s)).
Proof.
  revert s. induction fuel as [|fuel IH]; intros s Hs; [lia|].
  assert (∀ s, (s ≤ es)%nat → (4 * (es - s) + 4 ≤ fuel)%nat → reads Line s (parseline buf fuel s)) as H1 by (intros; by apply IH).
  assert (∀ s, (s ≤ es)%nat → (4 * (es - s) + 3 ≤ fuel)%nat → reads Pipe s (parsepipe buf fuel s)) as H2 by (intros; by apply IH).
  assert (∀ s, (s ≤ es)%nat → (4 * (es - s) + 2 ≤ fuel)%nat → reads Exec s (parseexec buf fuel s)) as H3 by (intros; by apply IH).
  assert (∀ s, (s ≤ es)%nat → (4 * (es - s) + 1 ≤ fuel)%nat → reads Exec s (parseblock buf fuel s)) as H4 by (intros; by apply IH).
  split_and!; intros Hf; [by apply line_sound|by apply pipe_sound|by apply exec_sound|by apply block_sound].
Qed.

(** * The parser accepts the grammar *)

(** The tokens that may come after a sentence of a level. *)
Definition follows (lv : level) (ts : list token) : bool :=
  match ts with
  | [] => true
  | Sym c :: _ => strchr (match lv with Line => cs ")" | Amp | Pipe => cs ");&" | Exec => cs ");&|" end) c
  | _ => false
  end.

Lemma follows_exec ts : follows Exec ts = true → starts (cs "<>") ts = false ∧ starts (cs "(") ts = false ∧ (ts = [] ∨ starts (cs "|)&;") ts = true).
Proof. destruct ts as [|[c| |] ts]; [auto| |done|done]. destruct c; vm_compute; auto; done. Qed.

Lemma follows_pipe ts : follows Pipe ts = true → follows Exec ts = true ∧ starts (cs "|") ts = false.
Proof. destruct ts as [|[c| |] ts]; [done| |done|done]. destruct c; vm_compute; auto; done. Qed.

Lemma follows_line ts : follows Line ts = true → follows Amp ts = true ∧ starts (cs "&") ts = false ∧ starts (cs ";") ts = false.
Proof. destruct ts as [|[c| |] ts]; [done| |done|done]. destruct c; vm_compute; auto; done. Qed.

Lemma starts_kind k ts : starts (cs "<>") (kind_token k :: ts) = true ∧ starts (cs "(") (kind_token k :: ts) = false.
Proof. by destruct k. Qed.

Lemma kind_token_byte k : token_kind (kind_token k) = kind_byte k.
Proof. by destruct k. Qed.

(** One turn of [parseredirs] on a redirection, and its end. *)
Lemma redirs_step fuel ret s k w ts :
  (s ≤ es)%nat → toks s = kind_token k :: Word w :: ts →
  ∃ v s', parseredirs buf (S fuel) ret s = parseredirs buf fuel (redirect (kind_byte k) ret v) s' ∧ slice v = w ∧ toks s' = ts ∧ (s < s' ≤ es)%nat.
Proof.
  intros Hs Ht. cbn [parseredirs]. peek_at. rewrite Ht in E. rewrite Ht, (proj1 (starts_kind k _)).
  destruct (gettoken_cons buf buf_string _ _ _ E ltac:(lia)) as (q0&eq0&s2&->&_&E2&B2&_).
  destruct (gettoken_cons buf buf_string _ _ _ E2 ltac:(lia)) as (q&eq&s3&->&_&E3&B3&F). destruct F as [_ ->].
  rewrite decide_True by done. rewrite kind_token_byte. exists (q, eq), s3. split_and!; [done|done|done|lia|lia].
Qed.

Lemma redirs_stop fuel ret s : (s ≤ es)%nat → starts (cs "<>") (toks s) = false → parseredirs buf (S fuel) ret s = Ok (ret, skip_ws buf s).
Proof. intros Hs Hn. cbn [parseredirs]. peek_at. by rewrite Hn. Qed.

Lemma items_complete l fuel f2 ret n s rest :
  (s ≤ es)%nat → (es - s < fuel)%nat → (es - s < f2)%nat → toks s = (l ≫= item_tokens) ++ rest → follows Exec rest = true → (n + argc l < MAXARGS)%nat →
  ∃ k s', rbind (parseredirs buf fuel ret s) (λ '(ret, s), parseargs buf f2 ret n s) = Ok (foldl apply_item ret k, s') ∧
    item_map slice <$> k = l ∧ toks s' = rest ∧ (s ≤ s' ≤ es)%nat.
Proof.
  revert fuel f2 ret n s. induction l as [|[w|k w] l IH]; intros fuel f2 ret n s Hs Hf Hf2 Ht Hr Hn; (destruct fuel as [|fuel]; [lia|]).
  - simpl in Ht. destruct (follows_exec rest Hr) as (N1&_&N2). rewrite <- Ht in N1, N2. rewrite redirs_stop by done. cbn [rbind].
    destruct f2 as [|f2]; [lia|]. cbn [parseargs]. pose proof (skip_ws_bound buf s Hs) as B. pose proof (toks_skip buf s) as E1.
    set (s1 := skip_ws buf s) in *. peek_at. rewrite E1 in *. destruct N2 as [N2|N2].
    + rewrite N2 in *. simpl. destruct (gettoken_nil buf buf_string _ E ltac:(lia)) as (q&eq&s2&->&E2&B2). simpl.
      exists [], s2. split_and!; [done|done|congruence|lia|lia].
    + rewrite N2. exists [], (skip_ws buf s1). split_and!; [done|done|congruence|lia|lia].
  - simpl in Ht. rewrite redirs_stop by (done || by rewrite Ht). cbn [rbind].
    destruct f2 as [|f2]; [lia|]. cbn [parseargs]. pose proof (skip_ws_bound buf s Hs) as B. pose proof (toks_skip buf s) as E1.
    set (s1 := skip_ws buf s) in *. peek_at. rewrite E1, Ht in *. simpl.
    destruct (gettoken_cons buf buf_string _ _ _ E ltac:(lia)) as (q&eq&s2&->&_&E2&B2&F). destruct F as [_ ->]. simpl.
    change (Arg (slice (q, eq)) :: l) with ([Arg (slice (q, eq))] ++ l) in Hn. rewrite argc_app in Hn.
    change (argc [Arg (slice (q, eq))]) with 1%nat in Hn. rewrite decide_False by lia.
    destruct (IH f2 f2 (push_arg (q, eq) ret) (S n) s2) as (k&s'&->&Hk&E'&B'); [lia..|done|done|lia|].
    exists (Arg (q, eq) :: k), s'. split_and!; [done|simpl; by rewrite <- Hk|done|lia|lia].
  - simpl in Ht. destruct (redirs_step fuel ret s k w _ Hs Ht) as (v&s2&->&<-&E2&B2).
    destruct (IH fuel f2 (redirect (kind_byte k) ret v) n s2) as (k'&s'&->&Hk&E'&B'); [lia..|done|done|done|].
    exists (Redir k v :: k'), s'. split_and!; [done|simpl; by rewrite <- Hk|done|lia|lia].
Qed.

Lemma redirs_complete l fuel ret s rest :
  (s ≤ es)%nat → (es - s < fuel)%nat → toks s = (l ≫= item_tokens) ++ rest → follows Exec rest = true → argc l = 0%nat →
  ∃ k s', parseredirs buf fuel ret s = Ok (foldl apply_item ret k, s') ∧ item_map slice <$> k = l ∧ toks s' = rest ∧ (s ≤ s' ≤ es)%nat.
Proof.
  revert fuel ret s. induction l as [|[w|k w] l IH]; intros fuel ret s Hs Hf Ht Hr Hn; [|done|]; (destruct fuel as [|fuel]; [lia|]).
  - simpl in Ht. destruct (follows_exec rest Hr) as (N1&_). rewrite <- Ht in N1. rewrite redirs_stop by done.
    exists [], (skip_ws buf s). pose proof (skip_ws_bound buf s Hs). split_and!; [done|done|by rewrite (toks_skip buf s)|lia|lia].
  - simpl in Ht. destruct (redirs_step fuel ret s k w _ Hs Ht) as (v&s2&->&<-&E2&B2).
    destruct (IH fuel (redirect (kind_byte k) ret v) s2) as (k'&s'&->&Hk&E'&B'); [lia|lia|done|done|done|].
    exists (Redir k v :: k'), s'. split_and!; [done|simpl; by rewrite <- Hk|done|lia|lia].
Qed.

(** The parser of a level, run on a sentence of it. *)
Definition accepts (lv : level) (ts : list token) (c : cmd cstr) : Prop :=
  ∀ fuel s rest, (s ≤ es)%nat → (4 * (es - s) + match lv with Line => 4 | Amp | Pipe => 3 | Exec => 2 end ≤ fuel)%nat →
  toks s = ts ++ rest → follows lv rest = true →
  ∃ c' s', cmd_map slice c' = c ∧ toks s' = rest ∧ (s ≤ s' ≤ es)%nat ∧
    match lv with
    | Line => parseline buf fuel s = Ok (c', s')
    | Amp => ∃ f2, (es - s' < f2)%nat ∧ rbind (parsepipe buf fuel s) (λ '(c, s), parseback buf fuel c s) = parseback buf f2 c' s'
    | Pipe => parsepipe buf fuel s = Ok (c', s')
    | Exec => parseexec buf fuel s = Ok (c', s')
    end.

Lemma simple_accepted l : (argc l < MAXARGS)%nat → accepts Exec (l ≫= item_tokens) (foldl apply_item (EXEC []) l).
Proof.
  intros Hl fuel s rest Hs Hf Ht Hr. destruct fuel as [|fuel]; [lia|]. cbn [parseexec]. peek_at.
  assert (starts (cs "(") (toks s) = false) as ->.
  { rewrite Ht. destruct l as [|[w|k w] l]; simpl; [by apply follows_exec|done|by destruct k]. }
  rewrite Ht in E. destruct (items_complete l fuel fuel (EXEC []) 0 (skip_ws buf s) rest ltac:(lia) ltac:(lia) ltac:(lia) E Hr ltac:(lia)) as (k&s'&E'&<-&Er&B').
  exists (foldl apply_item (EXEC []) k), s'. split_and!; [by rewrite map_items|done|lia|lia|done].
Qed.

Lemma block_accepted ts c l :
  accepts Line ts c → argc l = 0%nat → accepts Exec (Sym "("%byte :: ts ++ Sym ")"%byte :: (l ≫= item_tokens)) (foldl apply_item c l).
Proof.
  intros IH Hl fuel s rest Hs Hf Ht Hr. destruct fuel as [|[|fuel]]; [lia|lia|].
  rewrite <- app_comm_cons, <- app_assoc, <- app_comm_cons in Ht. cbn [parseexec]. peek_at.
  rewrite Ht in E |- *. cbn [parseblock]. change (starts (cs "(") _) with true. cbn [parseblock]. peek_at. rewrite E in *. cbn [negb].
  change (starts (cs "(") _) with true. cbn [negb]. destruct (gettoken_cons buf buf_string _ _ _ E0 ltac:(lia)) as (q&eq&s1&->&_&E1&B1&_).
  destruct (IH fuel s1 _ ltac:(lia) ltac:(simpl; lia) E1 eq_refl) as (c'&s2&<-&E2&B2&->). cbn [rbind]. peek_at.
  rewrite E2 in *. change (starts (cs ")") _) with true. cbn [negb]. destruct (gettoken_cons buf buf_string _ _ _ E3 ltac:(lia)) as (q'&eq'&s3&->&_&E4&B4&_).
  destruct (redirs_complete l fuel c' s3 rest ltac:(lia) ltac:(lia) E4 Hr Hl) as (k&s'&->&<-&Er&B').
  exists (foldl apply_item c' k), s'. split_and!; [by rewrite map_items|done|lia|lia|done].
Qed.

Lemma pipe_accepted ts c us d : accepts Exec ts c → accepts Pipe us d → accepts Pipe (ts ++ Sym "|"%byte :: us) (PIPE c d).
Proof.
  intros IH1 IH2 fuel s rest Hs Hf Ht Hr. destruct fuel as [|fuel]; [lia|]. cbn [parsepipe]. rewrite <- app_assoc in Ht.
  destruct (IH1 fuel s _ Hs ltac:(simpl; lia) Ht eq_refl) as (c'&s1&<-&E1&B1&->). cbn [rbind]. peek_at. rewrite E1 in *.
  change (starts (cs "|") _) with true. cbn [negb]. destruct (gettoken_cons buf buf_string _ _ _ E ltac:(lia)) as (q&eq&s2&->&_&E2&B2&_).
  destruct (IH2 fuel s2 rest ltac:(lia) ltac:(simpl; lia) E2 Hr) as (d'&s3&<-&E3&B3&->). cbn [rbind]. exists (PIPE c' d'), s3. split_and!; [done|done|lia|lia|done].
Qed.

Lemma exec_accepted ts c : accepts Exec ts c → accepts Pipe ts c.
Proof.
  intros IH fuel s rest Hs Hf Ht Hr. destruct fuel as [|fuel]; [lia|]. cbn [parsepipe]. destruct (follows_pipe rest Hr) as [Hr1 Hr2].
  destruct (IH fuel s rest Hs ltac:(simpl; lia) Ht Hr1) as (c'&s1&<-&E1&B1&->). cbn [rbind]. peek_at. rewrite E1 in *. rewrite Hr2.
  exists c', (skip_ws buf s1). split_and!; [done|done|lia|lia|done].
Qed.

Lemma plain_accepted ts c : accepts Pipe ts c → accepts Amp ts c.
Proof.
  intros IH fuel s rest Hs Hf Ht Hr. destruct (IH fuel s rest Hs Hf Ht Hr) as (c'&s1&<-&E1&B1&->). exists c', s1.
  split_and!; [done|done|lia|lia|]. exists fuel. split; [lia|done].
Qed.

Lemma back_accepted ts c : accepts Amp ts c → accepts Amp (ts ++ [Sym "&"%byte]) (BACK c).
Proof.
  intros IH fuel s rest Hs Hf Ht Hr. rewrite <- app_assoc in Ht.
  destruct (IH fuel s _ Hs Hf Ht eq_refl) as (c'&s1&<-&E1&B1&[|f2]&Hf2&->); [lia|]. cbn [parseback]. peek_at. rewrite E1 in *.
  change (starts (cs "&") _) with true. cbn [negb]. destruct (gettoken_cons buf buf_string _ _ _ E ltac:(lia)) as (q&eq&s2&->&_&E2&B2&_).
  exists (BACK c'), s2. split_and!; [done|done|lia|lia|]. exists f2. split; [lia|done].
Qed.

(** The first half of [parseline]. *)
Lemma amp_accepted ts c fuel s rest :
  accepts Amp ts c → (s ≤ es)%nat → (4 * (es - s) + 3 ≤ fuel)%nat → toks s = ts ++ rest → follows Amp rest = true → starts (cs "&") rest = false →
  ∃ c' s1 s', parsepipe buf fuel s = Ok (c', s1) ∧ ∃ d, parseback buf fuel c' s1 = Ok (d, s') ∧ cmd_map slice d = c ∧ toks s' = rest ∧ (s ≤ s' ≤ es)%nat.
Proof.
  intros IH Hs Hf Ht Hr Hn. destruct (IH fuel s rest Hs Hf Ht Hr) as (d&s2&<-&E2&B2&[|f2]&Hf2&E); [lia|].
  destruct (parsepipe buf fuel s) as [[c' s1]|m|]; cbn [rbind] in E.
  - exists c', s1, (skip_ws buf s2). split; [done|]. exists d. pose proof (skip_ws_bound buf s2 ltac:(lia)). rewrite (toks_skip buf).
    split_and!; [|done|done|lia|lia]. rewrite E. cbn [parseback]. peek_at. by rewrite E2, Hn.
  - cbn [parseback] in E. destruct (peek_spec buf buf_string s2 (cs "&")) as (P&_); [lia|done|]. by rewrite P, E2, Hn in E.
  - cbn [parseback] in E. destruct (peek_spec buf buf_string s2 (cs "&")) as (P&_); [lia|done|]. by rewrite P, E2, Hn in E.
Qed.

Lemma last_accepted ts c : accepts Amp ts c → accepts Line ts c.
Proof.
  intros IH fuel s rest Hs Hf Ht Hr. destruct fuel as [|fuel]; [lia|]. cbn [parseline]. destruct (follows_line rest Hr) as (H1&H2&H3).
  destruct (amp_accepted ts c fuel s rest IH Hs ltac:(lia) Ht H1 H2) as (c'&s1&s2&->&d&E&<-&E2&B2). cbn [rbind]. rewrite E. cbn [rbind]. peek_at.
  rewrite E2 in *. rewrite H3. exists d, (skip_ws buf s2). split_and!; [done|done|lia|lia|done].
Qed.

Lemma list_accepted ts c us d : accepts Amp ts c → accepts Line us d → accepts Line (ts ++ Sym ";"%byte :: us) (LIST c d).
Proof.
  intros IH1 IH2 fuel s rest Hs Hf Ht Hr. destruct fuel as [|fuel]; [lia|]. cbn [parseline]. rewrite <- app_assoc in Ht.
  destruct (amp_accepted ts c fuel s _ IH1 Hs ltac:(lia) Ht eq_refl eq_refl) as (c'&s1&s2&->&d'&E&<-&E2&B2). cbn [rbind]. rewrite E. cbn [rbind]. peek_at.
  rewrite E2 in *. change (starts (cs ";") _) with true. cbn [negb]. destruct (gettoken_cons buf buf_string _ _ _ E0 ltac:(lia)) as (q&eq&s3&->&_&E3&B3&_).
  destruct (IH2 fuel s3 rest ltac:(lia) ltac:(simpl; lia) E3 Hr) as (e&s4&<-&E4&B4&->). cbn [rbind]. exists (LIST d' e), s4. split_and!; [done|done|lia|lia|done].
Qed.

Lemma sentence_accepted lv ts c : sentence lv ts c → accepts lv ts c.
Proof.
  induction 1; eauto using simple_accepted, block_accepted, exec_accepted, pipe_accepted, plain_accepted, back_accepted, last_accepted, list_accepted.
Qed.

(** * The strings of the command *)

Lemma nulterminate_words c mem : nulterminate c mem = foldl (λ mem w, <[w.2 := NUL]> mem) mem (words c).
Proof. revert mem. induction c; intros mem; simpl; rewrite ?foldl_app; simpl; congruence. Qed.

(** The bytes of words stay, and a NUL stays. *)
Record kept (mem : list byte) : Prop := {
  kp_len : length mem = S es;
  kp_word : ∀ i c, buf !! i = Some c → is_word c → mem !! i = Some c;
}.

Lemma terminate_spec l mem :
  Forall (is_span buf) l → kept mem →
  let mem' := foldl (λ mem (w : span), <[w.2 := NUL]> mem) mem l in
  kept mem' ∧ (∀ i, mem !! i = Some NUL → mem' !! i = Some NUL) ∧ ∀ w, w ∈ l → mem' !! w.2 = Some NUL.
Proof.
  revert mem. induction l as [|w l IH]; intros mem Hl K; [split_and!; [done|done|]; by intros w ?%elem_of_nil|].
  apply Forall_cons_1 in Hl as [Hw Hl]. destruct K as [K1 K2]. destruct Hw as [Hr _ Hstop].
  destruct (IH (<[w.2 := NUL]> mem) Hl) as (K'&N'&W').
  { split; [by rewrite length_insert|]. intros i c Hi Hc. rewrite list_lookup_insert_ne; [by apply K2|]. intros <-. by apply (Hstop c). }
  assert ((<[w.2 := NUL]> mem) !! w.2 = Some NUL) as Hnul by (apply list_lookup_insert_eq; lia).
  simpl. split_and!; [done| |].
  - intros i Hi. apply N'. destruct (decide (w.2 = i)) as [<-|Hne]; [done|by rewrite list_lookup_insert_ne].
  - intros v [-> |Hv]%elem_of_cons; [by apply N'|by apply W'].
Qed.

Lemma string_slice mem w : is_span buf w → kept mem → mem !! w.2 = Some NUL → string_at mem w = slice w.
Proof.
  intros [Hr Hw _] [K1 K2] Hn. unfold string_at. destruct w as [q eq]. simpl in *.
  assert (take (eq - q) (drop q mem) = slice (q, eq)) as Es.
  { unfold XvShParse.slice. simpl. apply list_eq. intros i. destruct (decide (i < eq - q)%nat) as [Hi|Hi].
    - rewrite !lookup_take_lt, !lookup_drop by done. destruct (lookup_lt_is_Some_2 buf (q + i)) as [c Hc]; [lia|]. rewrite Hc. apply K2; [done|].
      eapply Forall_lookup_1; [exact Hw|]. unfold XvShParse.slice. simpl. rewrite lookup_take_lt, lookup_drop by done. exact Hc.
    - rewrite !lookup_take_ge by lia. done. }
  rewrite <- (take_drop (eq - q) (drop q mem)), Es, drop_drop. replace (q + (eq - q))%nat with eq by lia.
  rewrite (drop_S _ _ _ Hn). apply take_while_app_stop; [|by intros ?]. apply Forall_forall. intros c Hc ->. apply buf_string.
  unfold XvShParse.slice in Hc. simpl in Hc. by eapply subseteq_drop, subseteq_take.
Qed.

Lemma cmd_map_ext {V W} (f g : V → W) c : Forall (λ w, f w = g w) (words c) → cmd_map f c = cmd_map g c.
Proof.
  induction c; simpl; rewrite ?Forall_app, ?Forall_singleton; intros H; f_equal; try naive_solver. by apply Forall_fmap_ext_1.
Qed.

Lemma nulterminate_strings c :
  Forall (is_span buf) (words c) → cmd_map (string_at (nulterminate c (buf ++ [NUL]))) c = cmd_map slice c.
Proof.
  intros Hw. rewrite nulterminate_words. destruct (terminate_spec (words c) (buf ++ [NUL]) Hw) as (K&_&N).
  { split; [rewrite length_app; simpl; lia|]. intros i ch Hi _. by apply lookup_app_l_Some. }
  apply cmd_map_ext, Forall_forall. intros w Hin. apply string_slice; [by eapply Forall_forall in Hw|done|by apply N].
Qed.

Lemma toks_end s : (s ≤ es)%nat → toks s = [] ↔ skip_ws buf s = es.
Proof.
  intros Hs. rewrite <- (toks_skip buf s). pose proof (skip_ws_bound buf s Hs) as Hb. split; [|intros ->; unfold XvShParse.toks; by rewrite drop_all].
  destruct (buf !! skip_ws buf s) as [c|] eqn:Hq; [|apply lookup_ge_None in Hq; lia]. intros Hnil. exfalso.
  pose proof (skip_ws_stop buf s c Hq) as Hws. apply not_true_is_false in Hws. destruct (strchr symbols c) eqn:Hsym.
  - rewrite (symbol_token buf _ c Hq Hws Hsym) in Hnil. by case_decide.
  - by destruct (word_token buf _ c Hq ltac:(done)) as [E _]; rewrite E in Hnil.
Qed.

End sound.

Lemma parse_texts_sentence buf : no_nul buf → (∀ c, parse_texts buf = Ok c ↔ sentence Line (lex buf) c) ∧ parse_texts buf ≠ NoFuel.
Proof.
  intros Hb. unfold parse_texts, parsecmd. pose proof (proj1 (parser_sound buf Hb (4 * length buf + 4) 0 ltac:(lia)) ltac:(lia)) as P.
  assert (toks buf 0 = lex buf) as E0 by (unfold toks; by rewrite drop_0).
  destruct (parseline buf (4 * length buf + 4) 0) as [[c s]|m|] eqn:Ep; cbn [rbind]; [|split; [|done]|done].
  - destruct P as (B&Hw&ts&Et&Hs). rewrite E0 in Et. destruct (peek_spec buf Hb s []) as (->&E&B'); [lia|done|].
    destruct (decide (skip_ws buf s ≠ length buf)) as [Hne|Heq]; cbn [rbind]; (split; [|done]).
    + intros d. split; [done|]. intros Hd. exfalso. apply Hne, (toks_end buf); [lia|].
      destruct (sentence_accepted buf Hb _ _ _ Hd (4 * length buf + 4) 0 []) as (c'&s'&_&Hs'&_&E'); [lia|simpl; lia|by rewrite app_nil_r|done|]. congruence.
    + apply dec_stable in Heq. apply (toks_end buf) in Heq; [|lia]. rewrite Heq, app_nil_r in Et. subst ts. rewrite (nulterminate_strings buf Hb) by done.
      intros d. split; [by intros [= <-]|]. intros Hd.
      destruct (sentence_accepted buf Hb _ _ _ Hd (4 * length buf + 4) 0 []) as (c'&s'&<-&_&_&E'); [lia|simpl; lia|by rewrite app_nil_r|done|]. congruence.
  - intros d. split; [done|]. intros Hd. exfalso.
    destruct (sentence_accepted buf Hb _ _ _ Hd (4 * length buf + 4) 0 []) as (c'&s'&_&_&_&E'); [lia|simpl; lia|by rewrite app_nil_r|done|]. congruence.
Qed.

(** C18: The parser of the xv6 shell implements its grammar. For every line,
    [parsecmd] terminates, and it returns a command exactly when the tokens of
    the line form a sentence: commands joined by [;], followed by any number of
    [&], with [|] between the stages of a pipeline and parentheses around a line,
    and redirections anywhere in a simple command of fewer than [MAXARGS] words.
    The command is the one of the sentence, and after [nulterminate] its pointers
    into the line are the strings of the words. *)
Theorem sh_parses_grammar buf : no_nul buf → (∀ c, parse_texts buf = Ok c ↔ sentence Line (lex buf) c) ∧ parse_texts buf ≠ NoFuel.
Proof. apply parse_texts_sentence. Qed.

Lemma sh_parses_grammar_witness :
  sentence Line (lex (cs "(ls; wc < in) > out | grep x & ; echo a >> b"))
    (LIST (BACK (PIPE (REDIR (LIST (EXEC [cs "ls"]) (REDIR (EXEC [cs "wc"]) (cs "in") 0 0)) (cs "out") 513 1) (EXEC [cs "grep"; cs "x"])))
       (REDIR (EXEC [cs "echo"; cs "a"]) (cs "b") 513 1)).
Proof. apply (proj1 (sh_parses_grammar (cs "(ls; wc < in) > out | grep x & ; echo a >> b") ltac:(by apply no_nul_cs))). vm_compute. reflexivity. Defined.
