(* ===== verification/XvShRun.v ===== *)
(** The commands of the xv6 shell as they run: the closing, duplicating and
    opening of descriptors in [runcmd] has the effect a redirection and a pipe are
    meant to have, and the main loop ends with its input. *)

From stdpp Require Import base option list numbers.
From Stdlib Require Import Strings.Byte ZArith Lia.
From S2P Require Import Prelude CString XvProc XvSh XvShParse.

(** * Standard input, output and error *)

(** A process with only these three descriptors. *)
Definition stdio := (nat * nat * nat)%type.
Definition table (f : stdio) : fdt := let '(i, o, e) := f in [Some i; Some o; Some e] ++ replicate (NOFILE - 3) None.

Fixpoint task_map {T U} (f : T → U) (t : task T) : task U :=
  match t with
  | T_exit => T_exit
  | T_exec argv fds => T_exec argv (f fds)
  | T_message m => T_message m
  | T_list a b => T_list (task_map f a) (task_map f b)
  | T_pipe a b => T_pipe (task_map f a) (task_map f b)
  | T_back a => T_back (task_map f a)
  end.

(** Redirections of input and output only. *)
Fixpoint inout (c : cmd cstr) : Prop :=
  match c with
  | EXEC _ => True
  | REDIR c _ _ fd => (fd ≤ 1)%nat ∧ inout c
  | PIPE l r | LIST l r => inout l ∧ inout r
  | BACK c => inout c
  end.

Lemma inout_push w c : inout c → inout (push_arg w c).
Proof. induction c; simpl; naive_solver. Qed.

Lemma inout_items l c : inout c → inout (foldl apply_item c l).
Proof.
  revert c. induction l as [|[w|k w] l IH]; intros c Hc; [done|apply IH; by apply inout_push|]. apply IH. destruct k; simpl; (split; [lia|done]).
Qed.

Lemma inout_sentence lv ts c : sentence lv ts c → inout c.
Proof. induction 1; simpl; auto using inout_items; by apply inout_items. Qed.

Section plain.
Context (can_open : cstr → Z → bool).

(** What a command means: a redirection replaces the input or the output by a
    file, a pipe joins the output of its left side to the input of its right side. *)
Fixpoint plain (c : cmd cstr) (f : stdio) (n : nat) : task stdio * nat :=
  let '(i, o, e) := f in
  match c with
  | EXEC [] => (T_exit, n)
  | EXEC argv => (T_exec argv f, n)
  | REDIR c file mode fd =>
      if can_open file mode then plain c (match fd with O => (n, o, e) | _ => (i, n, e) end) (S n)
      else (T_message (cs "open " ++ file ++ cs " failed"), n)
  | LIST l r => let '(a, n) := plain l f n in let '(b, n) := plain r f n in (T_list a b, n)
  | PIPE l r =>
      let '(a, m) := plain l (i, S n, e) (S (S n)) in
      let '(b, m) := plain r (n, o, e) m in
      (T_pipe a b, m)
  | BACK c => let '(a, n) := plain c f n in (T_back a, n)
  end.

Lemma table_input i o e n : fdalloc n (fd_close 0 (table (i, o, e))) = Some (0%nat, table (n, o, e)).
Proof. reflexivity. Qed.

Lemma table_output i o e n : fdalloc n (fd_close 1 (table (i, o, e))) = Some (1%nat, table (i, n, e)).
Proof. reflexivity. Qed.

(** The table with both ends of a pipe, and the tables of the two sides. *)
Definition piped (f : stdio) (n : nat) : fdt := let '(i, o, e) := f in [Some i; Some o; Some e; Some n; Some (S n)] ++ replicate (NOFILE - 5) None.

Lemma table_pipe f n : ('(p0, t) ← fdalloc n (table f); '(p1, t) ← fdalloc (S n) t; Some (p0, p1, t)) = Some (3%nat, 4%nat, piped f n).
Proof. by destruct f as [[i o] e]. Qed.

Lemma piped_left i o e n : fd_close 4 (fd_close 3 (fd_dup 4 (fd_close 1 (piped (i, o, e) n)))) = table (i, S n, e).
Proof. reflexivity. Qed.

Lemma piped_right i o e n : fd_close 4 (fd_close 3 (fd_dup 3 (fd_close 0 (piped (i, o, e) n)))) = table (n, o, e).
Proof. reflexivity. Qed.

Lemma runcmd_plain c f n : inout c → runcmd can_open c (table f) n = (λ r, (task_map table r.1, r.2)) (plain c f n).
Proof.
  revert f n. induction c as [argv|c IH w mode fd|l IHl r IHr|l IHl r IHr|c IH]; intros [[i o] e] n; cbn [inout].
  - intros _. by destruct argv.
  - intros [Hfd Hc]. cbn [runcmd plain]. destruct (can_open w mode); [|done]. destruct fd as [|[|fd]]; [| |lia].
    + rewrite table_input. by apply IH.
    + rewrite table_output. by apply IH.
  - intros [Hl Hr]. cbn [runcmd plain]. rewrite table_pipe, piped_left, piped_right, IHl by done.
    destruct (plain l (i, S n, e) (S (S n))) as [a m]. cbn [fst snd]. rewrite IHr by done. by destruct (plain r (n, o, e) m).
  - intros [Hl Hr]. cbn [runcmd plain]. rewrite IHl by done. destruct (plain l (i, o, e) n) as [a m]. cbn [fst snd]. rewrite IHr by done.
    by destruct (plain r (i, o, e) m).
  - intros Hc. cbn [runcmd plain]. rewrite IH by done. by destruct (plain c (i, o, e) n).
Qed.

End plain.



(** * The main loop *)

Lemma gets_length max input l rest : gets max input = (l, rest) → input = l ++ rest ∧ (l = [] → input = [] ∨ (max ≤ 1)%nat).
Proof.
  revert max l rest. induction input as [|c input IH]; intros [|[|max]] l rest; simpl; [naive_solver lia..|].
  case_decide; [intros [= <- <-]; done|]. destruct (gets (S max) input) as [l' rest'] eqn:E. intros [= <- <-]. destruct (IH _ _ _ E) as [-> _]. done.
Qed.

(** One turn per byte is enough: more fuel changes nothing. *)
Lemma sh_main_enough fuel k input : (length input < fuel)%nat → sh_main (fuel + k) input = sh_main fuel input.
Proof.
  revert input. induction fuel as [|fuel IH]; intros input Hf; [lia|]. cbn [Nat.add sh_main].
  destruct (gets 100 input) as [l rest] eqn:E. destruct (gets_length _ _ _ _ E) as [Ei Hl].
  destruct l as [|c l]; [done|]. rewrite Ei, length_app in Hf. simpl in Hf. rewrite IH by lia. done.
Qed.
