(* ===== verification/XvPipe.v ===== *)
(** Pipes of xv6 (pipe.c): a ring of 512 bytes between processes that write and
    processes that read, which sleep while it is full or empty. A step runs one
    call from where it holds the lock to where it releases it, in [sleep] or by
    returning. *)

From stdpp Require Import base option list numbers.
From coqutil Require Import Datatypes.RecordSettersUsingExistingGetters.
From Stdlib Require Import Strings.Byte ZArith Lia.
From S2P Require Import Prelude XvProc.
Local Open Scope Z_scope.

Definition PIPESIZE : Z := 512.

Record pipe := mk_pipe { pdata : list byte; nread : Z; nwrite : Z; readopen : bool; writeopen : bool }.

(** [pipealloc], on a page with the bytes [junk]. *)
Definition pipealloc (junk : list byte) : pipe := mk_pipe junk 0 0 true true.

Definition pipe_full (p : pipe) : bool := bool_decide (nwrite p = u32 (nread p + PIPESIZE)).
Definition pipe_empty (p : pipe) : bool := bool_decide (nread p = nwrite p).

(** [p->data[p->nwrite++ % PIPESIZE] = c] *)
Definition put_byte (c : byte) (p : pipe) : pipe :=
  { p with pdata ::= <[Z.to_nat (nwrite p mod PIPESIZE) := c]>; nwrite ::= λ n, u32 (n + 1) }.

(** [p->data[p->nread++ % PIPESIZE]] *)
Definition get_byte (p : pipe) : byte * pipe :=
  (default NUL (pdata p !! Z.to_nat (nread p mod PIPESIZE)), { p with nread ::= λ n, u32 (n + 1) }).

(** How a call of [pipewrite] releases the lock: it has written everything, it
    gives up, or it sleeps on [nwrite] with the bytes left to write. *)
Inductive write_end := W_done | W_fail | W_sleep (rest : list byte).

Fixpoint pipewrite (bytes : list byte) (killed : bool) (p : pipe) : write_end * pipe :=
  match bytes with
  | [] => (W_done, p)
  | c :: rest =>
      if pipe_full p then
        if negb (readopen p) || killed then (W_fail, p) else (W_sleep bytes, p)
      else pipewrite rest killed (put_byte c p)
  end.

(** The copying loop of [piperead]. *)
Fixpoint copy_out (n : nat) (p : pipe) : list byte * pipe :=
  match n with
  | O => ([], p)
  | S n =>
      if pipe_empty p then ([], p)
      else let '(c, p) := get_byte p in let '(l, p) := copy_out n p in (c :: l, p)
  end.

(** [piperead] returns bytes, fails, or sleeps on [nread]. *)
Inductive read_end := R_bytes (l : list byte) | R_fail | R_sleep.

Definition piperead (n : nat) (killed : bool) (p : pipe) : read_end * pipe :=
  if pipe_empty p && writeopen p then (if killed then R_fail else R_sleep, p)
  else let '(l, p) := copy_out n p in (R_bytes l, p).

Definition pipeclose (writable : bool) (p : pipe) : pipe :=
  if writable then { p with writeopen := false } else { p with readopen := false }.

(** ** The two files of a pipe *)

Definition pipe_file (writes : bool) (obj : nat) (f : file) : file :=
  { f with f_type := FD_PIPE; readable := negb writes; writable := writes; f_obj := obj }.

(** [pipealloc] on the table of open files; [obj] is the page [kalloc] found for
    the pipe. The outer [option] is a panic of [fileclose]. *)
Definition pipealloc_files (obj : option nat) (t : list file) : option (option (nat * nat) * list file) :=
  match filealloc t with
  | None => Some (None, t)
  | Some (f0, t) =>
      match filealloc t with
      | None => '(t, _) ← fileclose f0 t; Some (None, t)
      | Some (f1, t) =>
          match obj with
          | None => '(t, _) ← fileclose f0 t; '(t, _) ← fileclose f1 t; Some (None, t)
          | Some o => Some (Some (f0, f1), alter (pipe_file true o) f1 (alter (pipe_file false o) f0 t))
          end
      end
  end.

(** [sys_pipe] once its argument is checked: the descriptors, the descriptor table
    of the process and the table of open files. *)
Definition sys_pipe (obj : option nat) (l : list (option nat)) (t : list file) : option (option (nat * nat) * list (option nat) * list file) :=
  '(r, t) ← pipealloc_files obj t;
  match r with
  | None => Some (None, l, t)
  | Some (rf, wf) =>
      match fdalloc rf l with
      | None => '(t, _) ← fileclose rf t; '(t, _) ← fileclose wf t; Some (None, l, t)
      | Some (fd0, l0) =>
          match fdalloc wf l0 with
          | None => '(t, _) ← fileclose rf t; '(t, _) ← fileclose wf t; Some (None, <[fd0 := None]> l0, t)
          | Some (fd1, l1) => Some (Some (fd0, fd1), l1, t)
          end
      end
  end.

(** * Processes that use it *)

Inductive pipe_call :=
  | C_write (rest : list byte) (asleep : bool)
  | C_read (n : nat) (asleep : bool)
  | C_over.

(** [wakeup(&p->nread)] and [wakeup(&p->nwrite)]. *)
Definition wake_readers (c : pipe_call) : pipe_call := match c with C_read n _ => C_read n false | c => c end.
Definition wake_writers (c : pipe_call) : pipe_call := match c with C_write l _ => C_write l false | c => c end.

(** [sent] and [received] record the bytes that went in and came out. *)
Record channel := mk_channel { the_pipe : pipe; calls : list pipe_call; sent : list byte; received : list byte }.

(** The bytes a call of [pipewrite] put in before it released the lock. *)
Definition written (l : list byte) (p p' : pipe) : list byte := take (Z.to_nat (u32 (nwrite p' - nwrite p))) l.

Definition run_call (i : nat) (killed : bool) (s : channel) : channel :=
  let p := the_pipe s in
  match calls s !! i with
  | Some (C_write l false) =>
      let '(e, p') := pipewrite l killed p in
      let sent' := sent s ++ written l p p' in
      match e with
      | W_done => mk_channel p' (<[i := C_over]> (wake_readers <$> calls s)) sent' (received s)
      | W_fail => mk_channel p' (<[i := C_over]> (calls s)) sent' (received s)
      | W_sleep rest => mk_channel p' (<[i := C_write rest true]> (wake_readers <$> calls s)) sent' (received s)
      end
  | Some (C_read n false) =>
      let '(e, p') := piperead n killed p in
      match e with
      | R_bytes l => mk_channel p' (<[i := C_over]> (wake_writers <$> calls s)) (sent s) (received s ++ l)
      | R_fail => mk_channel p' (<[i := C_over]> (calls s)) (sent s) (received s)
      | R_sleep => mk_channel p' (<[i := C_read n true]> (calls s)) (sent s) (received s)
      end
  | _ => s
  end.

Inductive chan_op :=
  | O_write (l : list byte)          (* a process calls write *)
  | O_read (n : nat)
  | O_run (i : nat) (killed : bool)  (* a call that is not asleep goes on *)
  | O_kill (i : nat)                 (* kill wakes the process of a call *)
  | O_close (writable : bool).       (* the last descriptor of an end is closed *)

Definition is_writer (c : pipe_call) : bool := match c with C_write _ _ => true | _ => false end.
Definition is_reader (c : pipe_call) : bool := match c with C_read _ _ => true | _ => false end.

(** A call needs a descriptor of its end, which keeps the end open; [kills] tells
    whether processes may be killed. *)
Definition chan_enabled (kills : bool) (o : chan_op) (s : channel) : bool :=
  match o with
  | O_write _ => writeopen (the_pipe s)
  | O_read _ => readopen (the_pipe s)
  | O_close true => writeopen (the_pipe s) && negb (existsb is_writer (calls s))
  | O_close false => readopen (the_pipe s) && negb (existsb is_reader (calls s))
  | O_run _ killed => kills || negb killed
  | O_kill _ => kills
  end.

Definition chan_step (o : chan_op) (s : channel) : channel :=
  match o with
  | O_write l => { s with calls ::= λ cs, cs ++ [C_write l false] }
  | O_read n => { s with calls ::= λ cs, cs ++ [C_read n false] }
  | O_run i killed => run_call i killed s
  | O_kill i => { s with calls ::= alter (λ c, wake_readers (wake_writers c)) i }
  | O_close w => mk_channel (pipeclose w (the_pipe s)) ((if w then wake_readers else wake_writers) <$> calls s) (sent s) (received s)
  end.

Inductive chan_reachable (kills : bool) (junk : list byte) : channel → Prop :=
  | chan_new : chan_reachable kills junk (mk_channel (pipealloc junk) [] [] [])
  | chan_next o s : chan_reachable kills junk s → chan_enabled kills o s = true → chan_reachable kills junk (chan_step o s).

(** * The ring *)

(** The bytes in the pipe, oldest first. *)
Definition in_pipe (p : pipe) : list byte :=
  (λ k, default NUL (pdata p !! Z.to_nat ((nread p + Z.of_nat k) mod PIPESIZE))) <$> seq 0 (Z.to_nat (u32 (nwrite p - nread p))).

Record pipe_ok (p : pipe) : Prop := {
  po_data : length (pdata p) = Z.to_nat PIPESIZE;
  po_read : 0 ≤ nread p < 2 ^ 32;
  po_write : 0 ≤ nwrite p < 2 ^ 32;
  po_count : u32 (nwrite p - nread p) ≤ PIPESIZE;
}.

Ltac mods := unfold u32, to_unsigned, PIPESIZE in *; change (2 ^ 32) with 4294967296 in *; Z.to_euclidean_division_equations; lia.

Section ring.
Context (p : pipe) (ok : pipe_ok p).

Lemma length_in_pipe : length (in_pipe p) = Z.to_nat (u32 (nwrite p - nread p)).
Proof. unfold in_pipe. by rewrite length_fmap, length_seq. Qed.

Lemma count_range : 0 ≤ u32 (nwrite p - nread p) ≤ PIPESIZE.
Proof. destruct ok as [_ _ _ H]. split; [|done]. apply Z.mod_pos_bound. lia. Qed.

Lemma empty_count : pipe_empty p = bool_decide (in_pipe p = []).
Proof.
  apply bool_decide_ext. rewrite <- length_zero_iff_nil, length_in_pipe. pose proof count_range. destruct ok. split; intros; mods.
Qed.

Lemma full_count : pipe_full p = bool_decide (length (in_pipe p) = Z.to_nat PIPESIZE).
Proof. apply bool_decide_ext. rewrite length_in_pipe. pose proof count_range. destruct ok. split; intros; mods. Qed.

Lemma put_count c : pipe_full p = false → u32 (nwrite (put_byte c p) - nread p) = u32 (nwrite p - nread p) + 1.
Proof. rewrite full_count, bool_decide_eq_false, length_in_pipe. simpl. pose proof count_range. destruct ok. intros. mods. Qed.

Lemma put_ok c : pipe_full p = false → pipe_ok (put_byte c p).
Proof.
  intros Hf. pose proof (put_count c Hf) as Hc. rewrite full_count, bool_decide_eq_false, length_in_pipe in Hf. pose proof count_range.
  destruct ok. split; [simpl; by rewrite length_insert|done| |].
  - simpl. apply (to_unsigned_range 32). lia.
  - change (nread (put_byte c p)) with (nread p). rewrite Hc. lia.
Qed.

Lemma put_in_pipe c : pipe_full p = false → in_pipe (put_byte c p) = in_pipe p ++ [c].
Proof.
  intros Hf. pose proof (put_count c Hf) as Hc. rewrite full_count, bool_decide_eq_false, length_in_pipe in Hf. pose proof count_range as Hr.
  destruct ok as [H1 H2 H3 H4]. unfold in_pipe at 1. change (nread (put_byte c p)) with (nread p). rewrite Hc, Z2Nat.inj_add, Nat.add_comm by lia.
  change (Z.to_nat 1 + ?n)%nat with (S n). rewrite seq_S, fmap_app. f_equal.
  - apply list_fmap_ext. intros k j [-> Hk]%lookup_seq. simpl. f_equal. apply list_lookup_insert_ne. mods.
  - simpl. f_equal. rewrite Z2Nat.id by lia.
    replace ((nread p + u32 (nwrite p - nread p)) mod PIPESIZE) with (nwrite p mod PIPESIZE) by mods.
    rewrite list_lookup_insert_eq; [done|]. rewrite H1. mods.
Qed.

Lemma get_count : pipe_empty p = false → u32 (nwrite p - nread (get_byte p).2) = u32 (nwrite p - nread p) - 1.
Proof. rewrite empty_count, bool_decide_eq_false, <- length_zero_iff_nil, length_in_pipe. simpl. pose proof count_range. destruct ok. intros. mods. Qed.

Lemma get_ok : pipe_empty p = false → pipe_ok (get_byte p).2.
Proof.
  intros Hf. pose proof (get_count Hf) as Hc. pose proof count_range. destruct ok. split; [done| |done|].
  - simpl. apply (to_unsigned_range 32). lia.
  - change (nwrite (get_byte p).2) with (nwrite p). rewrite Hc. lia.
Qed.

Lemma get_in_pipe : pipe_empty p = false → in_pipe p = (get_byte p).1 :: in_pipe (get_byte p).2.
Proof.
  intros Hf. pose proof (get_count Hf) as Hc. rewrite empty_count, bool_decide_eq_false, <- length_zero_iff_nil, length_in_pipe in Hf.
  pose proof count_range as Hr. destruct ok as [H1 H2 H3 H4]. unfold in_pipe at 2. change (nwrite (get_byte p).2) with (nwrite p). rewrite Hc.
  unfold in_pipe. replace (Z.to_nat (u32 (nwrite p - nread p))) with (S (Z.to_nat (u32 (nwrite p - nread p) - 1))) by lia.
  cbn [seq]. rewrite fmap_cons. f_equal; [simpl; by rewrite Z.add_0_r|]. rewrite <- fmap_S_seq, <- list_fmap_compose.
  apply list_fmap_ext. intros k j _. simpl. do 3 f_equal. mods.
Qed.

End ring.

(** * The calls *)

Lemma pipewrite_spec l killed p e p' :
  pipe_ok p → pipewrite l killed p = (e, p') →
  pipe_ok p' ∧ readopen p' = readopen p ∧ writeopen p' = writeopen p ∧ nread p' = nread p ∧
  ∃ k, (k ≤ length l)%nat ∧ in_pipe p' = in_pipe p ++ take k l ∧
    match e with
    | W_done => k = length l
    | W_fail => pipe_full p' = true ∧ (readopen p = false ∨ killed = true)
    | W_sleep rest => pipe_full p' = true ∧ readopen p = true ∧ rest = drop k l ∧ rest ≠ []
    end.
Proof.
  revert p. induction l as [|c l IH]; intros p ok; cbn [pipewrite].
  - intros [= <- <-]. split_and!; [done..|]. exists 0%nat. by rewrite app_nil_r.
  - destruct (pipe_full p) eqn:Hf.
    + destruct (negb (readopen p) || killed) eqn:Hr; intros [= <- <-]; (split_and!; [done..|]; exists 0%nat; rewrite app_nil_r).
      * apply orb_true_iff in Hr as [Hr|Hr]; [apply negb_true_iff in Hr|]; split_and!; auto; simpl; lia.
      * apply orb_false_iff in Hr as [Hr _]. apply negb_false_iff in Hr. split_and!; auto; simpl; lia.
    + intros E. destruct (IH _ (put_ok p ok c Hf) E) as (H1&H2&H3&H4&k&Hk&Hin&He). split_and!; [done..|].
      exists (S k). rewrite Hin, (put_in_pipe p ok c Hf), <- app_assoc. split_and!; [simpl; lia|done|]. destruct e; simpl; [lia|done|done].
Qed.

Lemma written_spec l p p' k :
  pipe_ok p → pipe_ok p' → nread p' = nread p → (k ≤ length l)%nat → in_pipe p' = in_pipe p ++ take k l → written l p p' = take k l.
Proof.
  intros ok ok' Hr Hk Hin. unfold written. f_equal. apply (f_equal length) in Hin. rewrite length_app, length_take, !length_in_pipe, Hr in Hin.
  pose proof (count_range p ok). pose proof (count_range p' ok') as Hc. rewrite Hr in Hc. destruct ok, ok'. mods.
Qed.

Lemma copy_out_spec n p :
  pipe_ok p →
  pipe_ok (copy_out n p).2 ∧ readopen (copy_out n p).2 = readopen p ∧ writeopen (copy_out n p).2 = writeopen p ∧
  (copy_out n p).1 = take n (in_pipe p) ∧ in_pipe p = (copy_out n p).1 ++ in_pipe (copy_out n p).2.
Proof.
  revert p. induction n as [|n IH]; intros p ok; cbn [copy_out]; [done|]. destruct (pipe_empty p) eqn:He.
  - rewrite (empty_count p ok) in He. apply bool_decide_eq_true in He. simpl. by rewrite He.
  - pose proof (get_ok p ok He) as ok'. pose proof (get_in_pipe p ok He) as Hin. destruct (get_byte p) as [c p1] eqn:Eg. simpl in ok', Hin.
    assert (readopen p1 = readopen p ∧ writeopen p1 = writeopen p) as [E1 E2] by (injection Eg as _ <-; done).
    destruct (IH p1 ok') as (K1&K2&K3&K4&K5). destruct (copy_out n p1) as [l p2]. simpl in *. rewrite Hin. split_and!; [done|congruence..| |].
    + simpl. by rewrite K4.
    + simpl. by rewrite K5.
Qed.

(** * Every step keeps the stream *)

(** What holds of a call in progress. *)
Definition call_ok (kills : bool) (p : pipe) (c : pipe_call) : Prop :=
  match c with
  | C_write l a => writeopen p = true ∧ (a = true → length (in_pipe p) = Z.to_nat PIPESIZE ∧ readopen p = true)
  | C_read n a => readopen p = true ∧ (a = true → kills = false → in_pipe p = [] ∧ writeopen p = true)
  | C_over => True
  end.

Record chan_ok (kills : bool) (s : channel) : Prop := {
  co_pipe : pipe_ok (the_pipe s);
  co_stream : sent s = received s ++ in_pipe (the_pipe s);
  co_calls : Forall (call_ok kills (the_pipe s)) (calls s);
}.

Lemma calls_map kills p p' f l :
  (∀ c, call_ok kills p c → call_ok kills p' (f c)) → Forall (call_ok kills p) l → Forall (call_ok kills p') (f <$> l).
Proof. intros H Hl. apply Forall_fmap. eapply Forall_impl; [|exact Hl]. intros c Hc. by apply H. Qed.

(** After bytes went in, with the readers woken. *)
Lemma grown_calls kills p p' k l c :
  readopen p' = readopen p → writeopen p' = writeopen p → in_pipe p' = in_pipe p ++ take k l → pipe_ok p → pipe_ok p' →
  call_ok kills p c → call_ok kills p' (wake_readers c).
Proof.
  intros E1 E2 Hin ok ok' Hc. destruct c as [l' a|n a|]; simpl in *; [|naive_solver congruence|done]. destruct Hc as [Ho Ha].
  split; [congruence|]. intros Hl. destruct (Ha Hl) as [Hlen Hopen]. split; [|congruence]. rewrite Hin, length_app, Hlen.
  pose proof (length_in_pipe p') as Hp. pose proof (count_range p' ok'). rewrite Hin, length_app, Hlen in Hp. unfold PIPESIZE in *. lia.
Qed.

(** After bytes came out, with the writers woken. *)
Lemma shrunk_calls kills p p' l c :
  readopen p' = readopen p → writeopen p' = writeopen p → in_pipe p = l ++ in_pipe p' → call_ok kills p c → call_ok kills p' (wake_writers c).
Proof.
  intros E1 E2 Hin Hc. destruct c as [l' a|n a|]; simpl in *; [naive_solver congruence| |done]. destruct Hc as [Ho Ha].
  split; [congruence|]. intros Hl Hk. destruct (Ha Hl Hk) as [He Hopen]. rewrite Hin in He. apply app_nil in He as [_ He]. split; [done|congruence].
Qed.

Lemma run_write_ok kills i l killed s :
  chan_ok kills s → (kills || negb killed) = true → calls s !! i = Some (C_write l false) → chan_ok kills (run_call i killed s).
Proof.
  intros [ok Hst Hcs] Hk Hi. unfold run_call. rewrite Hi. destruct (pipewrite l killed (the_pipe s)) as [e p'] eqn:E.
  destruct (pipewrite_spec _ _ _ _ _ ok E) as (ok'&Er&Ew&Hn&k&Hk'&Hin&He). pose proof (written_spec l _ p' k ok ok' Hn Hk' Hin) as Hw.
  assert (Forall (call_ok kills p') (wake_readers <$> calls s)) as Hwake.
  { eapply calls_map; [|exact Hcs]. intros c. by eapply grown_calls. }
  pose proof (Forall_lookup_1 _ _ _ _ Hcs Hi) as [Hopen _]. rewrite Hw. destruct e as [| |rest]; (split; simpl; [done|by rewrite Hst, Hin, app_assoc|]).
  - by apply Forall_insert.
  - apply Forall_insert; [|done]. destruct He as [Hf Hor]. rewrite (full_count p' ok') in Hf. apply bool_decide_eq_true in Hf.
    eapply Forall_impl; [|exact Hcs]. intros c Hc. destruct c as [l' a|n a|]; simpl in *; [|destruct Hc as [Ho Ha]|done].
    + split; [naive_solver congruence|]. intros Ha. split; [done|]. destruct Hc as [_ Hc]. destruct (Hc Ha). congruence.
    + split; [congruence|]. intros Ha' Hk2. destruct Hor as [Hor| ->]; [congruence|]. subst. done.
  - apply Forall_insert; [done|]. destruct He as (Hf&Ho&->&_). rewrite (full_count p' ok') in Hf. apply bool_decide_eq_true in Hf. simpl. split; [congruence|].
    intros _. split; [done|congruence].
Qed.

Lemma run_read_ok kills i n killed s :
  chan_ok kills s → calls s !! i = Some (C_read n false) → chan_ok kills (run_call i killed s).
Proof.
  intros [ok Hst Hcs] Hi. unfold run_call. rewrite Hi. unfold piperead. pose proof (Forall_lookup_1 _ _ _ _ Hcs Hi) as [Hopen _].
  destruct (pipe_empty (the_pipe s) && writeopen (the_pipe s)) eqn:Hb.
  - apply andb_true_iff in Hb as [He Hwo]. rewrite (empty_count _ ok) in He. apply bool_decide_eq_true in He.
    destruct killed; (split; simpl; [done|done|]; apply Forall_insert; [done|]); done.
  - destruct (copy_out_spec n (the_pipe s) ok) as (ok'&Er&Ew&_&Hin). destruct (copy_out n (the_pipe s)) as [l p']. simpl in *.
    split; simpl; [done|by rewrite Hst, Hin, app_assoc|]. apply Forall_insert; [|done]. eapply calls_map; [|exact Hcs]. intros c. by eapply shrunk_calls.
Qed.

Lemma close_calls kills (w : bool) p l :
  Forall (call_ok kills p) l → existsb (if w then is_writer else is_reader) l = false →
  Forall (call_ok kills (pipeclose w p)) ((if w then wake_readers else wake_writers) <$> l).
Proof.
  intros Hl Hn. apply Forall_fmap, Forall_lookup. intros i c Hi. pose proof (Forall_lookup_1 _ _ _ _ Hl Hi) as Ho.
  apply list_elem_of_lookup_2 in Hi as Hc. assert ((if w then is_writer c else is_reader c) = false) as Hc'.
  { apply not_true_is_false. intros Ht. apply not_true_iff_false in Hn. apply Hn, existsb_exists. exists c. split; [by apply list_elem_of_In|by destruct w]. }
  destruct w, c as [l' a|n a|]; try done; simpl in *; naive_solver.
Qed.

Lemma chan_step_ok kills o s : chan_ok kills s → chan_enabled kills o s = true → chan_ok kills (chan_step o s).
Proof.
  intros [ok Hst Hcs] He. destruct o as [l|n|i killed|i|w].
  - split; simpl; [done|done|]. apply Forall_app. split; [done|]. apply Forall_singleton. done.
  - split; simpl; [done|done|]. apply Forall_app. split; [done|]. apply Forall_singleton. done.
  - destruct (calls s !! i) as [[l [|]|n [|]|]|] eqn:Hi; try (simpl; unfold run_call; by rewrite Hi).
    + by apply (run_write_ok kills i l killed).
    + by apply (run_read_ok kills i n killed).
  - split; simpl; [done|done|]. apply Forall_alter; [done|]. intros c Hi Hc. destruct c as [l a|n a|]; simpl in *; naive_solver.
  - simpl in He. split; simpl; [by destruct w, ok|by destruct w|]. apply close_calls; [done|]. destruct w; apply andb_true_iff in He as [_ He]; by apply negb_true_iff in He.
Qed.

Lemma chan_reachable_ok kills junk s : length junk = Z.to_nat PIPESIZE → chan_reachable kills junk s → chan_ok kills s.
Proof.
  intros Hj. induction 1 as [|o s _ IH He]; [|by apply chan_step_ok]. split; simpl; [|done|done]. by split; simpl.
Qed.

(** ** Runs *)

Definition chan_run (kills : bool) (os : list chan_op) (s : channel) : option channel :=
  foldl (λ r o, s ← r; if chan_enabled kills o s then Some (chan_step o s) else None) (Some s) os.

Lemma chan_run_reachable kills junk os s :
  chan_run kills os (mk_channel (pipealloc junk) [] [] []) = Some s → chan_reachable kills junk s.
Proof.
  revert s. induction os as [|o os IH] using rev_ind; intros s; unfold chan_run.
  - intros [= <-]. constructor.
  - rewrite foldl_app. simpl. intros (s'&H&Hs)%bind_Some. destruct (chan_enabled kills o s') eqn:He; [|done].
    injection Hs as <-. apply chan_next; [by apply IH|done].
Qed.

(** A page of memory. *)
Definition a_page : list byte := replicate (Z.to_nat PIPESIZE) x01.

(** A writer of 600 bytes fills the pipe and sleeps; a reader takes 100 and the
    writer goes on. *)
Definition two_calls : list chan_op :=
  [O_read 100; O_run 0 false; O_write (replicate 600 x41); O_run 1 false; O_run 0 false; O_run 1 false].

(** C22: A pipe is a first-in first-out stream of bytes. Whatever the calls of
    readers and writers and their interleaving, the bytes that came out are the
    first of the bytes that went in, in order, and the rest, at most [PIPESIZE],
    is in the pipe, also when the 32-bit counters wrap around. A read takes the
    first bytes there are and returns none only at the end of the stream. A writer
    sleeps only while the pipe is full and has a reader; a reader sleeps only while
    it is empty and has a writer, unless processes are killed. *)
Theorem pipe_stream kills junk s :
  length junk = Z.to_nat PIPESIZE → chan_reachable kills junk s →
  let p := the_pipe s in
  sent s = received s ++ in_pipe p ∧ Z.of_nat (length (in_pipe p)) ≤ PIPESIZE ∧
  (∀ n killed, match (piperead n killed p).1 with
    | R_bytes l => l = take n (in_pipe p) ∧ (l = [] → n = 0%nat ∨ in_pipe p = [] ∧ writeopen p = false)
    | R_sleep | R_fail => in_pipe p = [] ∧ writeopen p = true end) ∧
  (∀ i l, calls s !! i = Some (C_write l true) → Z.of_nat (length (in_pipe p)) = PIPESIZE ∧ readopen p = true) ∧
  (∀ i n, calls s !! i = Some (C_read n true) → kills = false → in_pipe p = [] ∧ writeopen p = true).
Proof.
  intros Hj Hr p. destruct (chan_reachable_ok kills junk s Hj Hr) as [ok Hst Hcs]. fold p in ok, Hst, Hcs. split_and!; [done| | | |].
  - rewrite length_in_pipe. pose proof (count_range p ok). lia.
  - intros n killed. unfold piperead. rewrite (empty_count p ok). destruct (bool_decide (in_pipe p = []) && writeopen p) eqn:Hb.
    + apply andb_true_iff in Hb as [He%bool_decide_eq_true Hw]. by destruct killed.
    + destruct (copy_out_spec n p ok) as (_&_&_&Hl&_). destruct (copy_out n p) as [l p']. simpl in *. split; [done|].
      intros ->. destruct n as [|n]; [by left|]. right. destruct (in_pipe p); [|done]. split; [done|]. by apply andb_false_iff in Hb as [Hb|Hb].
  - intros i l Hi. destruct (Forall_lookup_1 _ _ _ _ Hcs Hi) as [_ H]. destruct (H eq_refl) as [-> H']. split; [|done]. done.
  - intros i n Hi Hk. destruct (Forall_lookup_1 _ _ _ _ Hcs Hi) as [_ H]. auto.
Qed.

Definition after_two_calls : channel :=
  match chan_run false two_calls (mk_channel (pipealloc a_page) [] [] []) with Some s => s | None => mk_channel (pipealloc a_page) [] [] [] end.

Lemma pipe_stream_witness :
  chan_run false two_calls (mk_channel (pipealloc a_page) [] [] []) = Some after_two_calls ∧
  length (received after_two_calls) = 100%nat ∧ sent after_two_calls = received after_two_calls ++ in_pipe (the_pipe after_two_calls).
Proof.
  assert (chan_run false two_calls (mk_channel (pipealloc a_page) [] [] []) = Some after_two_calls) as Hr by (vm_compute; reflexivity).
  split; [exact Hr|]. split; [vm_compute; reflexivity|].
  assert (length a_page = Z.to_nat PIPESIZE) as Hj by (vm_compute; reflexivity).
  destruct (pipe_stream false a_page after_two_calls Hj (chan_run_reachable false a_page two_calls after_two_calls Hr)) as [H _]. exact H.
Defined.

(** A writer that is killed after it filled the pipe returns without waking the
    reader, which sleeps although the pipe is full. *)
Lemma killed_writer_forgets_reader :
  ∃ s, chan_reachable true a_page s ∧ calls s !! 0%nat = Some (C_read 1 true) ∧ length (in_pipe (the_pipe s)) = 512%nat.
Proof.
  set (os := [O_read 1; O_run 0 false; O_write (replicate 513 x41); O_run 1 true]).
  destruct (chan_run true os (mk_channel (pipealloc a_page) [] [] [])) as [s|] eqn:E; [|vm_compute in E; done].
  exists s. split; [by eapply chan_run_reachable|]. vm_compute in E. injection E as <-. split; vm_compute; reflexivity.
Qed.

(** * Making a pipe *)

(** The same files are open, with the same contents. *)
Definition same_open (t t' : list file) : Prop :=
  ∀ j, match t !! j, t' !! j with Some f, Some f' => ref f' = ref f ∧ (ref f ≠ 0 → f' = f) | None, None => True | _, _ => False end.

Lemma filealloc_spec t j t1 : filealloc t = Some (j, t1) → ∃ f, t !! j = Some f ∧ ref f = 0 ∧ t1 = <[j := { f with ref := 1 }]> t.
Proof.
  unfold filealloc. destruct (list_find _ t) as [[k f]|] eqn:E; [|done]. intros [= <- <-]. apply list_find_Some in E as (H&Hr&_). eauto.
Qed.

Lemma fileclose_last t j f : t !! j = Some f → ref f = 1 → fileclose j t = Some (<[j := { f with ref := 0; f_type := FD_NONE }]> t, Some f).
Proof. intros H Hr. unfold fileclose. rewrite H. simpl. rewrite Hr. rewrite !bool_decide_eq_false_2 by lia. done. Qed.

Lemma fdalloc_spec j l fd l' : fdalloc j l = Some (fd, l') → l !! fd = Some None ∧ l' = <[fd := Some j]> l.
Proof. unfold fdalloc. destruct (list_find _ l) as [[k o]|] eqn:E; [|done]. intros [= <- <-]. by apply list_find_Some in E as (H&->&_). Qed.

(** Closing the two files gives the free entries back. *)
Lemma close_both t t' f0 f1 a b a' b' :
  f0 ≠ f1 → t !! f0 = Some a → t !! f1 = Some b → ref a = 0 → ref b = 0 → t' !! f0 = Some a' → t' !! f1 = Some b' → ref a' = 1 → ref b' = 1 →
  (∀ j, j ≠ f0 → j ≠ f1 → t' !! j = t !! j) →
  ∃ t2, ('(t, _) ← fileclose f0 t'; '(t, _) ← fileclose f1 t; Some t) = Some t2 ∧ same_open t t2.
Proof.
  intros Hne Ha Hb Ra Rb Ha' Hb' Ra' Rb' Ho. rewrite (fileclose_last _ _ _ Ha' Ra'). simpl.
  rewrite (fileclose_last _ f1 b') by (rewrite ?list_lookup_insert_ne; done). simpl. eexists. split; [done|]. intros j.
  destruct (decide (j = f1)) as [->|H1].
  { rewrite list_lookup_insert_eq, Hb; [|rewrite length_insert; by eapply lookup_lt_Some]. simpl. split; [congruence|lia]. }
  rewrite list_lookup_insert_ne by done. destruct (decide (j = f0)) as [->|H0].
  { rewrite list_lookup_insert_eq, Ha by (by eapply lookup_lt_Some). simpl. split; [congruence|lia]. }
  rewrite list_lookup_insert_ne, Ho by done. by destruct (t !! j).
Qed.

(** The files [f0] and [f1] were free and are the two ends of a pipe. *)
Definition new_pipe (t t' : list file) (f0 f1 : nat) : Prop :=
  f0 ≠ f1 ∧ ∃ a b o, t !! f0 = Some a ∧ ref a = 0 ∧ t !! f1 = Some b ∧ ref b = 0 ∧
    t' !! f0 = Some (pipe_file false o (mk_file (f_type a) 1 (readable a) (writable a) (f_obj a) (f_off a))) ∧
    t' !! f1 = Some (pipe_file true o (mk_file (f_type b) 1 (readable b) (writable b) (f_obj b) (f_off b))) ∧
    ∀ j, j ≠ f0 → j ≠ f1 → t' !! j = t !! j.

Lemma pipealloc_files_spec obj t :
  ∃ r t', pipealloc_files obj t = Some (r, t') ∧ match r with None => same_open t t' | Some (f0, f1) => new_pipe t t' f0 f1 end.
Proof.
  unfold pipealloc_files. destruct (filealloc t) as [[f0 t1]|] eqn:E0.
  2: { exists None, t. split; [done|]. intros j. by destruct (t !! j). }
  destruct (filealloc_spec _ _ _ E0) as (a&Ha&Ra&->). pose proof (lookup_lt_Some _ _ _ Ha) as La.
  destruct (filealloc (<[f0 := _]> t)) as [[f1 t2]|] eqn:E1.
  2: { rewrite (fileclose_last _ f0 (mk_file (f_type a) 1 (readable a) (writable a) (f_obj a) (f_off a))) by (by rewrite ?list_lookup_insert_eq).
       simpl. eexists None, _. split; [done|]. intros j. rewrite list_insert_insert_eq. destruct (decide (j = f0)) as [->|Hj].
       - rewrite list_lookup_insert_eq, Ha by done. simpl. split; [done|lia].
       - rewrite list_lookup_insert_ne by done. by destruct (t !! j). }
  destruct (filealloc_spec _ _ _ E1) as (b&Hb&Rb&->).
  assert (f0 ≠ f1) as Hne by (intros ->; rewrite list_lookup_insert_eq in Hb by done; by injection Hb as <-).
  rewrite list_lookup_insert_ne in Hb by done. pose proof (lookup_lt_Some _ _ _ Hb) as Lb. destruct obj as [o|].
  - eexists (Some (f0, f1)), _. split; [done|]. split; [done|]. exists a, b, o. split_and!; try done.
    + rewrite list_lookup_alter_ne, list_lookup_alter_eq, list_lookup_insert_ne, list_lookup_insert_eq by done. done.
    + rewrite list_lookup_alter_eq, list_lookup_alter_ne, list_lookup_insert_eq by (rewrite ?length_insert; done). done.
    + intros j H0 H1. rewrite !list_lookup_alter_ne, !list_lookup_insert_ne by done. done.
  - destruct (close_both t (<[f1 := { b with ref := 1 }]> (<[f0 := { a with ref := 1 }]> t)) f0 f1 a b ({ a with ref := 1 }) ({ b with ref := 1 }))
      as (t2&E&S); try done.
    + rewrite list_lookup_insert_ne, list_lookup_insert_eq by done. done.
    + rewrite list_lookup_insert_eq; [done|]. by rewrite length_insert.
    + intros j H0 H1. rewrite !list_lookup_insert_ne by done. done.
    + exists None, t2. split; [|done]. simpl in E |- *. apply bind_Some in E as ([t3 x3]&->&E). simpl. apply bind_Some in E as ([t4 x4]&->&E). simpl. congruence.
Qed.

(** [pipe] does not panic; it gives two free descriptors the ends of a new pipe,
    or fails and leaves the open files and the descriptors as they were. *)
Lemma sys_pipe_spec obj l t :
  ∃ r l' t', sys_pipe obj l t = Some (r, l', t') ∧
  match r with
  | None => l' = l ∧ same_open t t'
  | Some (fd0, fd1) => ∃ rf wf, new_pipe t t' rf wf ∧ fd0 ≠ fd1 ∧ l !! fd0 = Some None ∧ l !! fd1 = Some None ∧ l' = <[fd1 := Some wf]> (<[fd0 := Some rf]> l)
  end.
Proof.
  unfold sys_pipe. destruct (pipealloc_files_spec obj t) as (r&t1&->&H). simpl. destruct r as [[rf wf]|]; [|by exists None, l, t1].
  assert (∃ t2, ('(t, _) ← fileclose rf t1; '(t, _) ← fileclose wf t; Some t) = Some t2 ∧ same_open t t2) as (t2&E&S).
  { destruct H as (Hne&a&b&o&Ha&Ra&Hb&Rb&Ha'&Hb'&Ho). by eapply close_both. }
  apply bind_Some in E as ([t3 x3]&E3&E). apply bind_Some in E as ([t4 x4]&E4&E). injection E as ->.
  destruct (fdalloc rf l) as [[fd0 l0]|] eqn:F0; [|rewrite E3; simpl; rewrite E4; by eexists None, l, _].
  destruct (fdalloc_spec _ _ _ _ F0) as [L0 ->]. pose proof (lookup_lt_Some _ _ _ L0) as Lt.
  destruct (fdalloc wf _) as [[fd1 l1]|] eqn:F1.
  - destruct (fdalloc_spec _ _ _ _ F1) as [L1 ->].
    assert (fd0 ≠ fd1) as Hne by (intros ->; by rewrite list_lookup_insert_eq in L1 by done). rewrite list_lookup_insert_ne in L1 by done.
    eexists (Some (fd0, fd1)), _, _. split; [done|]. by exists rf, wf.
  - rewrite E3. simpl. rewrite E4. eexists None, _, _. split; [done|]. split; [|done]. rewrite list_insert_insert_eq. by apply list_insert_id.
Qed.
