(* ===== verification/XvPage.v ===== *)
(** Page tables of xv6 (vm.c): page directories and page tables as words in
    physical pages, their walk, and the operations on address spaces: mapping,
    growing, shrinking, copying, loading and releasing them.

    A page in use is a table of 1024 words or 4096 bytes of data, whichever it was
    filled as; to use it as the other kind is a fault. The page allocator is an
    interface, [PageAllocator], that [XvKalloc] implements. *)

From stdpp Require Import base option list numbers gmap sets.
From coqutil Require Import Datatypes.RecordSettersUsingExistingGetters.
From Stdlib Require Import Strings.Byte ZArith Lia.
From S2P Require Import Prelude XvKalloc.
Local Open Scope Z_scope.

(** * The page allocator *)

(** A page of memory the allocator hands out, by its kernel address. *)
Definition page_addr (v : Z) : Prop := v mod PGSIZE = 0 ∧ KERNBASE < v < KERNBASE + PHYSTOP.

(** [allocated used a]: in state [a] the pages [used] are handed out. *)
Class PageAllocator (A : Type) := {
  alloc_page : A → Z * A;
  free_page : Z → A → option A;
  allocated : gset Z → A → Prop;
  alloc_law used a : allocated used a →
    alloc_page a = (0, a) ∨
    ∃ v a', alloc_page a = (v, a') ∧ page_addr v ∧ v ∉ used ∧ allocated ({[v]} ∪ used) a';
  free_law used a v : allocated used a → v ∈ used → ∃ a', free_page v a = Some a' ∧ allocated (used ∖ {[v]}) a';
  allocated_page used a v : allocated used a → v ∈ used → page_addr v;
}.

(** * Addresses and entries *)

Definition NPDENTRIES : nat := 1024.
Definition NPTENTRIES : nat := 1024.
Global Arguments NPDENTRIES : simpl never.
Global Arguments NPTENTRIES : simpl never.
Definition PTE_P : Z := 1.
Definition PTE_W : Z := 2.
Definition PTE_U : Z := 4.
Definition EXTMEM : Z := 1048576.
Definition KERNLINK : Z := KERNBASE + EXTMEM.
Definition DEVSPACE : Z := 4261412864.

Definition PDX (va : Z) : nat := Z.to_nat (Z.land (Z.shiftr va 22) 1023).
Definition PTX (va : Z) : nat := Z.to_nat (Z.land (Z.shiftr va 12) 1023).
Definition PGADDR (d t o : Z) : Z := u32 (Z.lor (Z.lor (Z.shiftl d 22) (Z.shiftl t 12)) o).
Definition PGROUNDDOWN (a : Z) : Z := Z.land a (Z.lnot (PGSIZE - 1)).
Definition PTE_ADDR (e : Z) : Z := Z.land e (Z.lnot 4095).
Definition PTE_FLAGS (e : Z) : Z := Z.land e 4095.
Definition V2P (a : Z) : Z := u32 (a - KERNBASE).
Definition P2V (a : Z) : Z := u32 (a + KERNBASE).

Definition has (flag e : Z) : bool := bool_decide (Z.land e flag ≠ 0).

(** * Memory *)

Inductive page := Table (l : list Z) | Data (l : list byte).

(** A page filled with zeros by [memset]. *)
Definition zero_table : list Z := replicate NPTENTRIES 0.
Definition zero_page : list byte := replicate (Z.to_nat PGSIZE) NUL.

Lemma lookup_zero_table k : zero_table !! k = if decide (k < NPTENTRIES)%nat then Some 0 else None.
Proof. unfold zero_table. case_decide; [by apply lookup_replicate_2|apply lookup_replicate_None; lia]. Qed.

Lemma lookup_zero_page k : zero_page !! k = if decide (k < Z.to_nat PGSIZE)%nat then Some NUL else None.
Proof. unfold zero_page. case_decide; [by apply lookup_replicate_2|apply lookup_replicate_None; lia]. Qed.

Lemma length_zero_page : length zero_page = Z.to_nat PGSIZE.
Proof. apply length_replicate. Qed.

Global Opaque zero_table zero_page.

Section vm.
Context {A : Type} `{PageAllocator A}.

Record vmem := mk_vmem { heap : A; frames : gmap Z page }.
Abbreviation M := (ST vmem).

Definition kallocM : M Z := λ s, let '(v, a) := alloc_page (heap s) in Some (v, mk_vmem a (frames s)).
Definition kfreeM (v : Z) : M () := λ s, a ← free_page v (heap s); Some ((), mk_vmem a (delete v (frames s))).

Definition set_frame (v : Z) (p : page) : M () := λ s, Some ((), mk_vmem (heap s) (<[v := p]> (frames s))).
Definition read_table (v : Z) : M (list Z) := λ s, match frames s !! v with Some (Table l) => Some (l, s) | _ => None end.
Definition read_data (v : Z) : M (list byte) := λ s, match frames s !! v with Some (Data l) => Some (l, s) | _ => None end.

(** An entry is a page with a table and an index. *)
Definition read_pte (p : Z * nat) : M Z := l ← read_table p.1; lift (l !! p.2).
Definition write_pte (p : Z * nat) (e : Z) : M () := l ← read_table p.1; set_frame p.1 (Table (<[p.2 := e]> l)).

(** * Walking and mapping *)

Definition walkpgdir (pgdir va : Z) (alloc : bool) : M (option (Z * nat)) :=
  pde ← read_pte (pgdir, PDX va);
  if has PTE_P pde then mret (Some (P2V (PTE_ADDR pde), PTX va))
  else if negb alloc then mret None
  else
    pgtab ← kallocM;
    if decide (pgtab = 0) then mret None
    else
      set_frame pgtab (Table zero_table);;
      write_pte (pgdir, PDX va) (Z.lor (V2P pgtab) (Z.lor PTE_P (Z.lor PTE_W PTE_U)));;
      mret (Some (pgtab, PTX va)).

(** The loop of [mappages]; a present entry is its panic. *)
Fixpoint map_loop (fuel : nat) (pgdir a last pa perm : Z) : M Z :=
  match fuel with
  | O => fault
  | S fuel =>
      r ← walkpgdir pgdir a true;
      match r with
      | None => mret (-1)
      | Some p =>
          e ← read_pte p;
          if has PTE_P e then fault
          else
            write_pte p (Z.lor pa (Z.lor perm PTE_P));;
            if decide (a = last) then mret 0
            else map_loop fuel pgdir (u32 (a + PGSIZE)) last (u32 (pa + PGSIZE)) perm
      end
  end.
Definition mappages (pgdir va size pa perm : Z) : M Z :=
  let a := PGROUNDDOWN va in
  let last := PGROUNDDOWN (u32 (va + size - 1)) in
  map_loop (S (Z.to_nat ((last - a) / PGSIZE))) pgdir a last pa perm.

(** * Releasing *)

(** The loop of [deallocuvm] from address [a] on. *)
Fixpoint dealloc_loop (fuel : nat) (pgdir a oldsz : Z) : M () :=
  if decide (a < oldsz) then
    match fuel with
    | O => fault
    | S fuel =>
        r ← walkpgdir pgdir a false;
        match r with
        | None => dealloc_loop fuel pgdir (u32 (PGADDR (Z.of_nat (PDX a) + 1) 0 0 - PGSIZE + PGSIZE)) oldsz
        | Some p =>
            e ← read_pte p;
            (if has PTE_P e then
               if decide (PTE_ADDR e = 0) then fault
               else kfreeM (P2V (PTE_ADDR e));; write_pte p 0
             else mret ());;
            dealloc_loop fuel pgdir (u32 (a + PGSIZE)) oldsz
        end
    end
  else mret ().
Definition deallocuvm (pgdir oldsz newsz : Z) : M Z :=
  if decide (oldsz ≤ newsz) then mret oldsz
  else
    let a := PGROUNDUP newsz in
    dealloc_loop (Z.to_nat ((oldsz - a) / PGSIZE + 1)) pgdir a oldsz;;
    mret newsz.

(** The loop of [freevm] over the directory, from entry [i] on. *)
Fixpoint free_tables (n i : nat) (pgdir : Z) : M () :=
  match n with
  | O => mret ()
  | S n =>
      pde ← read_pte (pgdir, i);
      (if has PTE_P pde then kfreeM (P2V (PTE_ADDR pde)) else mret ());;
      free_tables n (S i) pgdir
  end.

(** [freevm] once the reference count has reached zero. *)
Definition freevm_pages (pgdir : Z) : M () :=
  if decide (pgdir = 0) then fault
  else
    deallocuvm pgdir KERNBASE 0;;
    free_tables NPDENTRIES 0 pgdir;;
    kfreeM pgdir.

(** * The kernel part *)

(** [data] is the address of the kernel's data, which the linker sets. *)
Definition kmap (data : Z) : list (Z * Z * Z * Z) :=
  [(KERNBASE, 0, EXTMEM, PTE_W);
   (KERNLINK, V2P KERNLINK, V2P data, 0);
   (data, V2P data, PHYSTOP, PTE_W);
   (DEVSPACE, DEVSPACE, 0, PTE_W)].

Fixpoint map_kernel (pgdir : Z) (l : list (Z * Z * Z * Z)) : M Z :=
  match l with
  | [] => mret pgdir
  | (virt, phys_start, phys_end, perm) :: l =>
      r ← mappages pgdir virt (u32 (phys_end - phys_start)) phys_start perm;
      if decide (r < 0) then freevm_pages pgdir;; mret 0 else map_kernel pgdir l
  end.

Definition setupkvm (data : Z) : M Z :=
  pgdir ← kallocM;
  if decide (pgdir = 0) then mret 0
  else
    set_frame pgdir (Table zero_table);;
    if decide (DEVSPACE < P2V PHYSTOP) then fault else map_kernel pgdir (kmap data).

(** * User memory *)

Definition inituvm (pgdir : Z) (init : list byte) : M () :=
  if decide (PGSIZE ≤ Z.of_nat (length init)) then fault
  else
    mem ← kallocM;
    if decide (mem = 0) then fault
    else
      set_frame mem (Data zero_page);;
      mappages pgdir 0 PGSIZE (V2P mem) (Z.lor PTE_W PTE_U);;
      set_frame mem (Data (init ++ drop (length init) zero_page)).

Fixpoint alloc_loop (fuel : nat) (pgdir a oldsz newsz : Z) : M Z :=
  if decide (a < newsz) then
    match fuel with
    | O => fault
    | S fuel =>
        mem ← kallocM;
        if decide (mem = 0) then deallocuvm pgdir newsz oldsz;; mret 0
        else
          set_frame mem (Data zero_page);;
          r ← mappages pgdir a PGSIZE (V2P mem) (Z.lor PTE_W PTE_U);
          if decide (r < 0) then deallocuvm pgdir newsz oldsz;; kfreeM mem;; mret 0
          else alloc_loop fuel pgdir (u32 (a + PGSIZE)) oldsz newsz
    end
  else mret newsz.
Definition allocuvm (pgdir oldsz newsz : Z) : M Z :=
  if decide (KERNBASE ≤ newsz) then mret 0
  else if decide (newsz < oldsz) then mret oldsz
  else
    let a := PGROUNDUP oldsz in
    alloc_loop (Z.to_nat ((newsz - a) / PGSIZE + 1)) pgdir a oldsz newsz.

Definition clearpteu (pgdir uva : Z) : M () :=
  r ← walkpgdir pgdir uva false;
  match r with
  | None => fault
  | Some p => e ← read_pte p; write_pte p (Z.land e (Z.lnot PTE_U))
  end.

(** The loop of [copyuvm], which fills the directory [d]. *)
Fixpoint copy_loop (fuel : nat) (pgdir d i sz : Z) : M Z :=
  if decide (i < sz) then
    match fuel with
    | O => fault
    | S fuel =>
        r ← walkpgdir pgdir i false;
        match r with
        | None => fault
        | Some p =>
            e ← read_pte p;
            if negb (has PTE_P e) then fault
            else
              mem ← kallocM;
              if decide (mem = 0) then freevm_pages d;; mret 0
              else
                bytes ← read_data (P2V (PTE_ADDR e));
                set_frame mem (Data bytes);;
                r ← mappages d i PGSIZE (V2P mem) (PTE_FLAGS e);
                if decide (r < 0) then kfreeM mem;; freevm_pages d;; mret 0
                else copy_loop fuel pgdir d (u32 (i + PGSIZE)) sz
        end
    end
  else mret d.
Definition copyuvm (data pgdir sz : Z) : M Z :=
  d ← setupkvm data;
  if decide (d = 0) then mret 0 else copy_loop (Z.to_nat (sz / PGSIZE + 1)) pgdir d 0 sz.

(** The page of a user address; a missing page table is a null pointer that is
    read. *)
Definition uva2ka (pgdir uva : Z) : M (option Z) :=
  r ← walkpgdir pgdir uva false;
  match r with
  | None => fault
  | Some p =>
      e ← read_pte p;
      if negb (has PTE_P e) then mret None
      else if negb (has PTE_U e) then mret None
      else mret (Some (P2V (PTE_ADDR e)))
  end.

(** The loop of [copyout]; every round copies a byte at least. *)
Fixpoint copyout_loop (fuel : nat) (pgdir va : Z) (buf : list byte) : M Z :=
  match buf with
  | [] => mret 0
  | _ =>
      match fuel with
      | O => fault
      | S fuel =>
          let va0 := PGROUNDDOWN va in
          pa0 ← uva2ka pgdir va0;
          match pa0 with
          | None => mret (-1)
          | Some ka =>
              let n := Z.to_nat (Z.min (PGSIZE - (va - va0)) (Z.of_nat (length buf))) in
              let off := Z.to_nat (va - va0) in
              old ← read_data ka;
              set_frame ka (Data (take off old ++ take n buf ++ drop (off + n) old));;
              copyout_loop fuel pgdir (u32 (va0 + PGSIZE)) (drop n buf)
          end
      end
  end.
Definition copyout (pgdir va : Z) (buf : list byte) : M Z := copyout_loop (length buf) pgdir va buf.

(** [loaduvm], from page [i] on; [readi off n] are the bytes that [readi] reads. *)
Fixpoint load_loop (fuel : nat) (pgdir addr : Z) (readi : Z → Z → list byte) (offset sz i : Z) : M Z :=
  if decide (i < sz) then
    match fuel with
    | O => fault
    | S fuel =>
        r ← walkpgdir pgdir (u32 (addr + i)) false;
        match r with
        | None => fault
        | Some p =>
            e ← read_pte p;
            let n := if decide (sz - i < PGSIZE) then sz - i else PGSIZE in
            let bytes := readi (u32 (offset + i)) n in
            old ← read_data (P2V (PTE_ADDR e));
            set_frame (P2V (PTE_ADDR e)) (Data (bytes ++ drop (length bytes) old));;
            if decide (Z.of_nat (length bytes) ≠ n) then mret (-1)
            else load_loop fuel pgdir addr readi offset sz (u32 (i + PGSIZE))
        end
    end
  else mret 0.
Definition loaduvm (pgdir addr : Z) (readi : Z → Z → list byte) (offset sz : Z) : M Z :=
  if decide (addr mod PGSIZE ≠ 0) then fault else load_loop (Z.to_nat (sz / PGSIZE + 1)) pgdir addr readi offset sz 0.

End vm.
Global Arguments vmem : clear implicits.
