(* ===== verification/XvPageInv.v ===== *)
(** Address spaces of xv6 as abstract maps: [vspace R pd sp s] says that memory [s]
    is made of the pages of the address space [sp] with directory [pd] and of
    the other pages [R]. Every operation on page tables is specified by what it
    does to [sp]; that it leaves [R] alone is part of the specification. *)

From stdpp Require Import base option list numbers gmap sets.
From coqutil Require Import Datatypes.RecordSettersUsingExistingGetters.
From Stdlib Require Import Strings.Byte ZArith Lia.
From S2P Require Import Prelude XvKalloc XvPage.
Local Open Scope Z_scope.

(** * Addresses *)

(** The number of the page of an address. *)
Definition vpn (va : Z) : nat := Z.to_nat (va / PGSIZE).
Definition UPAGES : nat := Z.to_nat (KERNBASE / PGSIZE).
Global Arguments vpn : simpl never.
Global Arguments UPAGES : simpl never.

Ltac zmods := unfold u32, to_unsigned, vpn, PGSIZE, KERNBASE, PHYSTOP in *; change (2 ^ 32) with 4294967296 in *; Z.to_euclidean_division_equations; lia.

Lemma PDX_vpn va : 0 ≤ va < 2 ^ 32 → PDX va = (vpn va / NPDENTRIES)%nat ∧ (vpn va / NPDENTRIES < NPDENTRIES)%nat.
Proof.
  intros Hva. unfold PDX, NPDENTRIES. change 1023 with (Z.ones 10). rewrite Z.land_ones, Z.shiftr_div_pow2 by lia.
  change (2 ^ 22) with 4194304. change (2 ^ 10) with 1024. assert (Z.of_nat (vpn va / 1024) = va / 4194304) as E.
  { rewrite Nat2Z.inj_div. unfold vpn. rewrite Z2Nat.id by (apply Z.div_pos; unfold PGSIZE; lia). unfold PGSIZE. by rewrite Z.div_div by lia. }
  change (2 ^ 32) with 4294967296 in Hva. assert (0 ≤ va / 4194304 < 1024) by (Z.to_euclidean_division_equations; lia).
  rewrite Z.mod_small by done. lia.
Qed.

Lemma PTX_vpn va : 0 ≤ va < 2 ^ 32 → PTX va = (vpn va mod NPTENTRIES)%nat.
Proof.
  intros Hva. unfold PTX, NPTENTRIES. change 1023 with (Z.ones 10). rewrite Z.land_ones, Z.shiftr_div_pow2 by lia.
  change (2 ^ 12) with PGSIZE. change (2 ^ 10) with (Z.of_nat 1024). rewrite <- (Nat2Z.id (vpn va mod 1024)), Nat2Z.inj_mod. unfold vpn.
  rewrite Z2Nat.id; [done|]. apply Z.div_pos; unfold PGSIZE; lia.
Qed.

(** ** Entries *)

Lemma land_present e : Z.land e PTE_P = e mod 2.
Proof. apply (Z.land_ones e 1). lia. Qed.

Lemma has_present e : has PTE_P e = bool_decide (e mod 2 = 1).
Proof. unfold has. rewrite land_present. apply bool_decide_ext. Z.to_euclidean_division_equations. lia. Qed.

Lemma flags_mod e : PTE_FLAGS e = e mod PGSIZE.
Proof. unfold PTE_FLAGS. change 4095 with (Z.ones 12). rewrite Z.land_ones by lia. done. Qed.

Lemma addr_mod e : PTE_ADDR e = e - e mod PGSIZE.
Proof.
  unfold PTE_ADDR. rewrite <- Z.ldiff_land, <- flags_mod. unfold PTE_FLAGS.
  rewrite (Z.sub_nocarry_ldiff e (Z.land e 4095)) by (apply Z.bits_inj'; intros n Hn; rewrite !Z.ldiff_spec, Z.land_spec, Z.bits_0; by destruct (Z.testbit e n), (Z.testbit 4095 n)).
  apply Z.bits_inj'. intros n Hn. rewrite !Z.ldiff_spec, Z.land_spec. by destruct (Z.testbit e n), (Z.testbit 4095 n).
Qed.

Lemma rounddown_mod a : PGROUNDDOWN a = a - a mod PGSIZE.
Proof. apply addr_mod. Qed.

(** An entry is the address of a page plus flags. *)
Lemma lor_flags pa f : pa mod PGSIZE = 0 → 0 ≤ f < PGSIZE → Z.lor pa f = pa + f.
Proof.
  intros Hp Hf. rewrite <- (Z.add_lor_land pa f). assert (Z.land pa f = 0) as ->; [|lia].
  rewrite <- (Z.mod_small f PGSIZE Hf), <- flags_mod. unfold PTE_FLAGS. rewrite (Z.land_comm f), Z.land_assoc.
  change (Z.land pa 4095) with (PTE_FLAGS pa). by rewrite flags_mod, Hp.
Qed.

Lemma entry_addr pa f : pa mod PGSIZE = 0 → 0 ≤ f < PGSIZE → PTE_ADDR (pa + f) = pa ∧ PTE_FLAGS (pa + f) = f.
Proof. intros Hp Hf. rewrite addr_mod, flags_mod. unfold PGSIZE in *. Z.to_euclidean_division_equations. lia. Qed.

Lemma entry_present pa f : pa mod PGSIZE = 0 → has PTE_P (pa + f) = bool_decide (f mod 2 = 1).
Proof. intros Hp. rewrite has_present. apply bool_decide_ext. unfold PGSIZE in *. Z.to_euclidean_division_equations. lia. Qed.

Lemma lor_present f : 0 ≤ f < PGSIZE → (Z.lor f PTE_P) mod 2 = 1 ∧ 0 ≤ Z.lor f PTE_P < PGSIZE.
Proof.
  intros Hf. split.
  - rewrite <- Z.bit0_mod, Z.lor_spec. by rewrite orb_true_r.
  - split; [apply Z.lor_nonneg; unfold PTE_P; lia|]. destruct (decide (f = 0)) as [-> |]; [by vm_compute|].
    apply Z.log2_lt_cancel. rewrite Z.log2_lor by (unfold PTE_P; lia). change (Z.log2 PTE_P) with 0. change (Z.log2 PGSIZE) with 12.
    assert (Z.log2 f < 12); [|lia]. apply Z.log2_lt_pow2; [lia|]. change (2 ^ 12) with PGSIZE. lia.
Qed.

(** ** Pages of memory *)

Lemma page_phys v : page_addr v → V2P v = v - KERNBASE ∧ V2P v mod PGSIZE = 0 ∧ 0 < V2P v < PHYSTOP ∧ P2V (V2P v) = v.
Proof.
  intros [H1 H2]. assert (V2P v = v - KERNBASE) as E by (unfold V2P; apply u32_id; unfold KERNBASE, PHYSTOP in *; lia).
  rewrite E. split_and!; [done| |lia|lia|].
  - unfold PGSIZE, KERNBASE in *. Z.to_euclidean_division_equations. lia.
  - unfold P2V. rewrite Z.sub_add. apply u32_id. unfold KERNBASE, PHYSTOP in *. lia.
Qed.

Lemma entry_page v f : page_addr v → 0 ≤ f < PGSIZE → P2V (PTE_ADDR (V2P v + f)) = v ∧ PTE_ADDR (V2P v + f) ≠ 0.
Proof. intros Hv Hf. destruct (page_phys v Hv) as (E&Hm&Hr&Ep). destruct (entry_addr (V2P v) f Hm Hf) as [-> _]. split; [done|lia]. Qed.

(** * Address spaces *)

(** A page of user memory: where it is, the flags of its entry, what it holds. *)
Record uent := mk_uent { uframe : Z; uflags : Z; ubytes : list byte }.

(** The page tables, by directory index, and the mappings, by page number: those of
    the kernel as their entries, those of the user as pages. *)
Record space := mk_space { tabs : gmap nat Z; kern : gmap nat Z; user : gmap nat uent }.

Definition entry (sp : space) (n : nat) : Z :=
  match user sp !! n with Some u => V2P (uframe u) + uflags u | None => default 0 (kern sp !! n) end.

Definition dir_entry (sp : space) (i : nat) : Z := match tabs sp !! i with Some t => V2P t + 7 | None => 0 end.
Definition dir_of (sp : space) : list Z := dir_entry sp <$> seq 0 NPDENTRIES.
Definition tab_of (sp : space) (i : nat) : list Z := (λ j, entry sp (i * NPTENTRIES + j)) <$> seq 0 NPTENTRIES.

(** The pages of an address space. *)
Definition owns (pd : Z) (sp : space) (v : Z) : Prop :=
  v = pd ∨ (∃ i, tabs sp !! i = Some v) ∨ ∃ n u, user sp !! n = Some u ∧ uframe u = v.

(** An entry of user memory. *)
Record uent_ok (u : uent) : Prop := {
  ue_len : length (ubytes u) = Z.to_nat PGSIZE;
  ue_flags : 0 ≤ uflags u < PGSIZE;
  ue_present : uflags u mod 2 = 1;
}.

Section vspace.
Context {A : Type} `{PageAllocator A}.
Abbreviation vmem := (vmem A).

Record vspace (R : gmap Z page) (pd : Z) (sp : space) (s : vmem) : Prop := {
  vs_heap : allocated (dom (frames s)) (heap s);
  vs_dir : frames s !! pd = Some (Table (dir_of sp));
  vs_tab : ∀ i t, tabs sp !! i = Some t → (i < NPDENTRIES)%nat ∧ t ≠ pd ∧ frames s !! t = Some (Table (tab_of sp i));
  vs_tab_inj : ∀ i j t, tabs sp !! i = Some t → tabs sp !! j = Some t → i = j;
  vs_user : ∀ n u, user sp !! n = Some u → (n < UPAGES)%nat ∧ is_Some (tabs sp !! (n / NPDENTRIES)%nat) ∧
    frames s !! uframe u = Some (Data (ubytes u)) ∧ uent_ok u;
  vs_user_inj : ∀ n m u w, user sp !! n = Some u → user sp !! m = Some w → uframe u = uframe w → n = m;
  vs_kern : ∀ n e, kern sp !! n = Some e → (UPAGES ≤ n)%nat ∧ is_Some (tabs sp !! (n / NPDENTRIES)%nat) ∧ e mod 2 = 1;
  vs_rest : ∀ v, ¬ owns pd sp v → frames s !! v = R !! v;
  vs_own : ∀ v, owns pd sp v → R !! v = None;
}.

Lemma lookup_dir sp i : (i < NPDENTRIES)%nat → dir_of sp !! i = Some (dir_entry sp i).
Proof. intros Hi. unfold dir_of. by rewrite list_lookup_fmap, lookup_seq_lt. Qed.

Lemma lookup_tab sp n : tab_of sp (n / NPDENTRIES) !! (n mod NPTENTRIES)%nat = Some (entry sp n).
Proof.
  unfold tab_of. rewrite list_lookup_fmap, lookup_seq_lt by (apply Nat.mod_upper_bound; unfold NPTENTRIES; lia). simpl. do 2 f_equal.
  unfold NPDENTRIES, NPTENTRIES. pose proof (Nat.div_mod n 1024 ltac:(lia)). lia.
Qed.

Section walk.
Context (R : gmap Z page) (pd : Z) (sp : space) (s : vmem) (V : vspace R pd sp s).

Lemma in_use v p : frames s !! v = Some p → page_addr v.
Proof. intros Hv. eapply allocated_page; [apply V|]. by apply elem_of_dom. Qed.

Lemma no_table n : tabs sp !! (n / NPDENTRIES)%nat = None → entry sp n = 0.
Proof.
  intros Hn. unfold entry. destruct (user sp !! n) as [u|] eqn:Hu.
  - destruct (vs_user _ _ _ _ V n u Hu) as (_&[t Ht]&_). congruence.
  - destruct (kern sp !! n) as [e|] eqn:He; [|done]. destruct (vs_kern _ _ _ _ V n e He) as (_&[t Ht]&_). congruence.
Qed.

Lemma entry_user n u : user sp !! n = Some u → entry sp n = V2P (uframe u) + uflags u ∧ page_addr (uframe u) ∧ has PTE_P (entry sp n) = true.
Proof.
  intros Hu. destruct (vs_user _ _ _ _ V n u Hu) as (_&_&Hf&[_ Hfl Hp]). pose proof (in_use _ _ Hf) as Ha.
  assert (entry sp n = V2P (uframe u) + uflags u) as E by (unfold entry; by rewrite Hu). split_and!; [done|done|].
  rewrite E, entry_present by apply (page_phys _ Ha). by apply bool_decide_eq_true.
Qed.

Lemma entry_absent n : user sp !! n = None → kern sp !! n = None → entry sp n = 0.
Proof. intros Hu Hk. unfold entry. by rewrite Hu, Hk. Qed.

Lemma user_kern n u : user sp !! n = Some u → kern sp !! n = None.
Proof.
  intros Hu. destruct (kern sp !! n) as [e|] eqn:He; [|done]. destruct (vs_user _ _ _ _ V n u Hu) as (?&_). destruct (vs_kern _ _ _ _ V n e He) as (?&_). lia.
Qed.

Lemma read_dir i : (i < NPDENTRIES)%nat → read_pte (pd, i) s = Some (dir_entry sp i, s).
Proof. intros Hi. unfold read_pte, mbind, ST_bind, read_table, lift. simpl. rewrite (vs_dir _ _ _ _ V). by rewrite lookup_dir. Qed.

Lemma read_entry n t : tabs sp !! (n / NPDENTRIES)%nat = Some t → read_pte (t, n mod NPTENTRIES)%nat s = Some (entry sp n, s).
Proof.
  intros Ht. destruct (vs_tab _ _ _ _ V _ _ Ht) as (_&_&Hf). unfold read_pte, mbind, ST_bind, read_table, lift. simpl. by rewrite Hf, lookup_tab.
Qed.

Lemma dir_entry_table i t : tabs sp !! i = Some t → has PTE_P (dir_entry sp i) = true ∧ P2V (PTE_ADDR (dir_entry sp i)) = t.
Proof.
  intros Ht. destruct (vs_tab _ _ _ _ V _ _ Ht) as (_&_&Hf). pose proof (in_use _ _ Hf) as Ha. unfold dir_entry. rewrite Ht.
  rewrite entry_present by apply (page_phys _ Ha). split; [done|]. apply (entry_page t 7 Ha). unfold PGSIZE. lia.
Qed.

Lemma dir_entry_none i : tabs sp !! i = None → has PTE_P (dir_entry sp i) = false.
Proof. intros Ht. unfold dir_entry. by rewrite Ht. Qed.

(** [walkpgdir] without allocation. *)
Lemma walk_spec va :
  0 ≤ va < 2 ^ 32 →
  walkpgdir pd va false s = Some ((λ t, (t, vpn va mod NPTENTRIES)%nat) <$> tabs sp !! (vpn va / NPDENTRIES)%nat, s).
Proof.
  intros Hva. destruct (PDX_vpn va Hva) as [Ed Hd]. unfold walkpgdir. rewrite Ed, PTX_vpn by done.
  erewrite bind_run by (by apply read_dir). destruct (tabs sp !! (vpn va / NPDENTRIES)%nat) as [t|] eqn:Ht.
  - destruct (dir_entry_table _ _ Ht) as [-> ->]. done.
  - by rewrite dir_entry_none.
Qed.

End walk.

(** ** Allocation *)

Lemma kalloc_spec (s : vmem) :
  allocated (dom (frames s)) (heap s) →
  wp kallocM (λ v s', v = 0 ∧ s' = s ∨
    v ≠ 0 ∧ page_addr v ∧ frames s !! v = None ∧ frames s' = frames s ∧ allocated ({[v]} ∪ dom (frames s)) (heap s')) s.
Proof.
  intros Ha. unfold wp, kallocM. destruct (alloc_law _ _ Ha) as [E|(v&a&E&Hp&Hn&Ha')]; rewrite E; [left; by destruct s|right].
  split; [destruct Hp as [_ ?]; unfold KERNBASE in *; lia|]. split_and!; [done|by apply not_elem_of_dom|done|done].
Qed.

Lemma kfree_spec (s : vmem) v p :
  allocated (dom (frames s)) (heap s) → frames s !! v = Some p →
  wp (kfreeM v) (λ _ s', frames s' = delete v (frames s) ∧ allocated (dom (frames s')) (heap s')) s.
Proof.
  intros Ha Hv. unfold wp, kfreeM. destruct (free_law _ _ v Ha) as (a'&->&Ha'); [by apply elem_of_dom|]. simpl. split; [done|].
  rewrite dom_delete_L. done.
Qed.

Lemma set_frame_heap (s : vmem) v p p' :
  allocated (dom (frames s)) (heap s) → frames s !! v = Some p → allocated (dom (<[v := p']> (frames s))) (heap s).
Proof. intros Ha Hv. rewrite dom_insert_L, subseteq_union_1_L; [done|]. apply singleton_subseteq_l, elem_of_dom. by exists p. Qed.

Lemma insert_fmap_seq {B} (f g : nat → B) n i : (i < n)%nat → (∀ j, j ≠ i → g j = f j) → <[i := g i]> (f <$> seq 0 n) = g <$> seq 0 n.
Proof.
  intros Hi Hj. apply list_eq. intros j. destruct (decide (j = i)) as [->|Hne].
  - rewrite list_lookup_insert_eq by (by rewrite length_fmap, length_seq). by rewrite list_lookup_fmap, lookup_seq_lt.
  - rewrite list_lookup_insert_ne, !list_lookup_fmap by done. destruct (decide (j < n)%nat); [rewrite lookup_seq_lt by done; simpl; by rewrite Hj|].
    by rewrite lookup_seq_ge by lia.
Qed.

(** [walkpgdir] makes a missing page table. *)
Lemma walk_alloc_spec R pd sp (s : vmem) va :
  vspace R pd sp s → 0 ≤ va < 2 ^ 32 →
  wp (walkpgdir pd va true) (λ r s',
    r = None ∧ s' = s ∨
    ∃ t sp', r = Some (t, vpn va mod NPTENTRIES)%nat ∧ tabs sp' !! (vpn va / NPDENTRIES)%nat = Some t ∧
      kern sp' = kern sp ∧ user sp' = user sp ∧ vspace R pd sp' s') s.
Proof.
  intros V Hva. destruct (PDX_vpn va Hva) as [Ed Hd]. unfold walkpgdir. rewrite Ed, PTX_vpn by done. set (i := (vpn va / NPDENTRIES)%nat) in *.
  apply wp_bind. eapply wp_intro; [by eapply read_dir|]. destruct (tabs sp !! i) as [t|] eqn:Ht.
  { destruct (dir_entry_table R pd sp s V i t Ht) as [-> ->]. apply wp_ret. right. exists t, sp. done. }
  rewrite (dir_entry_none sp) by done. apply wp_bind. eapply wp_mono; [apply kalloc_spec, V|]. simpl.
  intros t s1 [[-> ->]|(Hnz&Hp&Hnone&Hfr&Ha)]; [rewrite decide_True by done; apply wp_ret; by left|]. rewrite decide_False by done.
  assert (t ≠ pd) as Hpd by (intros ->; pose proof (vs_dir _ _ _ _ V); congruence).
  assert (¬ owns pd sp t) as Hno.
  { intros [->|[[j Hj]|(n&u&Hu&<-)]]; [done| |].
    - destruct (vs_tab _ _ _ _ V _ _ Hj) as (_&_&?). congruence.
    - destruct (vs_user _ _ _ _ V _ _ Hu) as (_&_&?&_). congruence. }
  set (sp' := mk_space (<[i := t]> (tabs sp)) (kern sp) (user sp)). assert (tabs sp' = <[i := t]> (tabs sp)) as Et by done.
  assert (∀ v, owns pd sp' v ↔ owns pd sp v ∨ v = t) as Howns.
  { intros v. unfold owns. rewrite Et. split.
    - intros [->|[[j Hj]|Hu]]; [auto| |auto]. apply lookup_insert_Some in Hj as [[_ <-]|[_ Hj]]; eauto 6.
    - intros [[->|[[j Hj]|Hu]]| ->]; [auto| |auto|right; left; exists i; by rewrite lookup_insert_eq].
      right; left. exists j. rewrite lookup_insert_ne; [done|]. intros <-. congruence. }
  unfold write_pte. unfold wp, mbind, ST_bind, set_frame, read_table, mret, ST_ret. simpl. rewrite lookup_insert_ne, Hfr, (vs_dir _ _ _ _ V) by done.
  right. exists t, sp'. split_and!; [done|by rewrite Et, lookup_insert_eq|done|done|].
  assert (Z.lor (V2P t) (Z.lor PTE_P (Z.lor PTE_W PTE_U)) = dir_entry sp' i) as ->.
  { unfold dir_entry. rewrite Et, lookup_insert_eq. apply (lor_flags _ 7); [apply (page_phys t Hp)|]. unfold PGSIZE. lia. }
  assert (<[i := dir_entry sp' i]> (dir_of sp) = dir_of sp') as ->.
  { apply (insert_fmap_seq (dir_entry sp) (dir_entry sp')); [done|]. intros j Hj. unfold dir_entry. by rewrite Et, lookup_insert_ne. }
  split; rewrite ?Et; simpl; try apply V.
  - rewrite !dom_insert_L, union_assoc_L, (union_comm_L {[pd]}), <- union_assoc_L, (subseteq_union_1_L {[pd]}); [done|].
    apply singleton_subseteq_l, elem_of_dom. rewrite (vs_dir _ _ _ _ V). by eexists.
  - by rewrite lookup_insert_eq.
  - intros j t' Hj. apply lookup_insert_Some in Hj as [[<- <-]|[Hne Hj]].
    + split_and!; [done|done|]. rewrite lookup_insert_ne, lookup_insert_eq by done. do 2 f_equal. symmetry. apply list_eq. intros k.
      unfold tab_of. rewrite list_lookup_fmap. destruct (decide (k < NPTENTRIES)%nat) as [Hk|Hk].
      * rewrite lookup_seq_lt, lookup_zero_table, decide_True by done. simpl. f_equal. apply (no_table R pd sp s V). rewrite <- Ht. f_equal. unfold NPTENTRIES, NPDENTRIES in *.
        rewrite Nat.div_add_l, Nat.div_small by lia. lia.
      * rewrite lookup_seq_ge, lookup_zero_table, decide_False by lia. done.
    + destruct (vs_tab _ _ _ _ V _ _ Hj) as (H1&H2&H3). split_and!; [done|done|]. rewrite !lookup_insert_ne; [done| |done]. congruence.
  - intros j k t' Hj Hk. destruct (decide (i = j)) as [<-|Hj'], (decide (i = k)) as [<-|Hk']; simplify_map_eq;
      [done|exfalso; apply Hno; right; left; eauto..|by eapply (vs_tab_inj _ _ _ _ V)].
  - intros n u Hu. destruct (vs_user _ _ _ _ V n u Hu) as (H1&H2&H3&H4). split_and!; [done| | |done].
    + destruct (decide (i = n / NPDENTRIES)%nat) as [<-|]; [rewrite lookup_insert_eq; by eexists|by rewrite lookup_insert_ne].
    + pose proof (vs_dir _ _ _ _ V). rewrite !lookup_insert_ne; [done|congruence..].
  - intros n e He. destruct (vs_kern _ _ _ _ V n e He) as (H1&H2&H3). split_and!; [done| |done].
    destruct (decide (i = n / NPDENTRIES)%nat) as [<-|]; [rewrite lookup_insert_eq; by eexists|by rewrite lookup_insert_ne].
  - intros v Hv. rewrite Howns in Hv. rewrite !lookup_insert_ne; [apply (vs_rest _ _ _ _ V); tauto|by intros ->; tauto|]. intros <-. apply Hv. left. by left.
  - intros v [Hv| ->]%Howns; [by apply (vs_own _ _ _ _ V)|]. by rewrite <- (vs_rest _ _ _ _ V).
Qed.

(** ** Changing the mapping of one page *)

Section update.
Context (R : gmap Z page) (pd : Z) (sp : space) (s : vmem) (V : vspace R pd sp s).
Context (n : nat) (t : Z) (Ht : tabs sp !! (n / NPDENTRIES)%nat = Some t).
Context (sp' : space) (Htabs : tabs sp' = tabs sp).
Context (Hsame : ∀ m, m ≠ n → user sp' !! m = user sp !! m ∧ kern sp' !! m = kern sp !! m).

Lemma entry_same m : m ≠ n → entry sp' m = entry sp m.
Proof. intros Hm. destruct (Hsame m Hm) as [E1 E2]. unfold entry. by rewrite E1, E2. Qed.

Lemma tab_same i : i ≠ (n / NPDENTRIES)%nat → tab_of sp' i = tab_of sp i.
Proof.
  intros Hi. unfold tab_of. apply list_fmap_ext. intros k j [-> Hk]%lookup_seq. apply entry_same. intros E. apply Hi.
  rewrite <- E. unfold NPTENTRIES, NPDENTRIES in *. rewrite Nat.div_add_l, Nat.div_small by lia. lia.
Qed.

Lemma dir_same : dir_of sp' = dir_of sp.
Proof. unfold dir_of, dir_entry. by rewrite Htabs. Qed.

Lemma write_entry (s1 : vmem) :
  frames s1 !! t = frames s !! t →
  write_pte (t, n mod NPTENTRIES)%nat (entry sp' n) s1 = Some ((), mk_vmem (heap s1) (<[t := Table (tab_of sp' (n / NPDENTRIES))]> (frames s1))).
Proof.
  intros E. destruct (vs_tab _ _ _ _ V _ _ Ht) as (_&_&Hf). unfold write_pte, mbind, ST_bind, read_table, set_frame. simpl. rewrite E, Hf. do 4 f_equal.
  f_equal. pose proof (Nat.div_mod n 1024 ltac:(lia)) as Hdm.
  replace (entry sp' n) with (entry sp' (n / NPDENTRIES * NPTENTRIES + n mod NPTENTRIES)) by (f_equal; unfold NPTENTRIES, NPDENTRIES; lia).
  apply (insert_fmap_seq (λ j, entry sp (n / NPDENTRIES * NPTENTRIES + j)) (λ j, entry sp' (n / NPDENTRIES * NPTENTRIES + j))).
  - apply Nat.mod_upper_bound. unfold NPTENTRIES. lia.
  - intros j Hj. apply entry_same. intros E'. apply Hj. unfold NPTENTRIES, NPDENTRIES in *. lia.
Qed.

(** The page of the old mapping may go, and a page outside the address space may
    come in. *)
Lemma vs_update R' (s' : vmem) :
  allocated (dom (frames s')) (heap s') →
  frames s' !! t = Some (Table (tab_of sp' (n / NPDENTRIES))) →
  (∀ v, v ≠ t → (∀ u, user sp !! n = Some u → v ≠ uframe u) → frames s' !! v = frames s !! v) →
  (∀ u, user sp' !! n = Some u → (n < UPAGES)%nat ∧ uent_ok u ∧ frames s' !! uframe u = Some (Data (ubytes u)) ∧
    (∀ m w, m ≠ n → user sp !! m = Some w → uframe w ≠ uframe u)) →
  (∀ e, kern sp' !! n = Some e → (UPAGES ≤ n)%nat ∧ e mod 2 = 1) →
  (∀ v, ¬ owns pd sp' v → frames s' !! v = R' !! v) → (∀ v, owns pd sp' v → R' !! v = None) →
  vspace R' pd sp' s'.
Proof.
  intros Ha Hft Hkeep Huser Hkern Hrest Hown. pose proof (vs_tab _ _ _ _ V _ _ Ht) as (_&Htpd&Hfr).
  assert (∀ v p, frames s !! v = Some (Table p) → ∀ u, user sp !! n = Some u → v ≠ uframe u) as Hnd.
  { intros v p Hv u Hu ->. destruct (vs_user _ _ _ _ V n u Hu) as (_&_&?&_). congruence. }
  split; try done; rewrite ?dir_same, ?Htabs.
  - rewrite Hkeep; [apply V|done|]. eapply Hnd, V.
  - intros i t' Hi. destruct (vs_tab _ _ _ _ V _ _ Hi) as (H1&H2&H3). split_and!; [done|done|]. destruct (decide (i = n / NPDENTRIES)%nat) as [->|Hne].
    + assert (t' = t) as -> by congruence. done.
    + rewrite tab_same by done. rewrite Hkeep; [done| |by eapply Hnd]. intros ->. by apply Hne, (vs_tab_inj _ _ _ _ V _ _ t).
  - apply V.
  - intros m u Hu. destruct (decide (m = n)) as [->|Hm]; [destruct (Huser u Hu) as (?&?&?&_); split_and!; try done; rewrite Ht; by eexists|].
    rewrite (proj1 (Hsame m Hm)) in Hu. destruct (vs_user _ _ _ _ V m u Hu) as (H1&H2&H3&H4). split_and!; try done.
    rewrite Hkeep; [done|congruence|]. intros w Hw E. by apply Hm, (vs_user_inj _ _ _ _ V m n u w).
  - intros m k u w Hu Hw E. destruct (decide (m = n)) as [->|Hm], (decide (k = n)) as [->|Hk]; try done.
    + exfalso. rewrite (proj1 (Hsame k Hk)) in Hw. destruct (Huser u Hu) as (_&_&_&Hx). by apply (Hx k w).
    + exfalso. rewrite (proj1 (Hsame m Hm)) in Hu. destruct (Huser w Hw) as (_&_&_&Hx). by apply (Hx m u).
    + rewrite (proj1 (Hsame m Hm)) in Hu. rewrite (proj1 (Hsame k Hk)) in Hw. by eapply (vs_user_inj _ _ _ _ V).
  - intros m e He. destruct (decide (m = n)) as [->|Hm]; [destruct (Hkern e He); split_and!; try done; rewrite Ht; by eexists|].
    rewrite (proj2 (Hsame m Hm)) in He. by apply (vs_kern _ _ _ _ V).
Qed.

End update.

Lemma owns_user pd sp n u : user sp !! n = Some u → owns pd sp (uframe u).
Proof. intros. right; right; eauto. Qed.

Section mapping.
Context (R : gmap Z page) (pd : Z) (sp : space) (s : vmem) (n : nat) (t : Z).
Context (Ht : tabs sp !! (n / NPDENTRIES)%nat = Some t).

(** A page of data from outside becomes user memory. *)
Lemma map_user_spec u :
  vspace (<[uframe u := Data (ubytes u)]> R) pd sp s → R !! uframe u = None → (n < UPAGES)%nat → user sp !! n = None → uent_ok u →
  wp (write_pte (t, n mod NPTENTRIES)%nat (V2P (uframe u) + uflags u))
    (λ _ s', vspace R pd (mk_space (tabs sp) (kern sp) (<[n := u]> (user sp))) s') s.
Proof.
  intros V HR Hn Hu Hok. set (sp' := mk_space _ _ _).
  assert (∀ m, m ≠ n → user sp' !! m = user sp !! m ∧ kern sp' !! m = kern sp !! m) as Hsame by (intros m Hm; simpl; by rewrite lookup_insert_ne).
  assert (entry sp' n = V2P (uframe u) + uflags u) as <- by (unfold entry; simpl; by rewrite lookup_insert_eq).
  eapply wp_intro; [by eapply (write_entry _ _ _ _ V n t Ht sp' Hsame s)|].
  assert (¬ owns pd sp (uframe u)) as Hno by (intros Ho; apply (vs_own _ _ _ _ V) in Ho; by rewrite lookup_insert_eq in Ho).
  assert (frames s !! uframe u = Some (Data (ubytes u))) as Hfu by (rewrite (vs_rest _ _ _ _ V) by done; by rewrite lookup_insert_eq).
  pose proof (vs_tab _ _ _ _ V _ _ Ht) as (_&_&Hft). assert (uframe u ≠ t) as Hut by congruence.
  assert (∀ v, owns pd sp' v ↔ owns pd sp v ∨ v = uframe u) as Howns.
  { intros v. unfold owns. simpl. setoid_rewrite lookup_insert_Some. split; [|intros [[?|[?|(m&w&Hw&?)]]| ->]; eauto 8].
    - naive_solver.
    - right; right. exists m, w. split; [|done]. right. split; [|done]. intros ->. congruence. }
  eapply (vs_update _ _ _ _ V n t Ht sp'); try done; simpl.
  - eapply set_frame_heap; [apply V|done].
  - by rewrite lookup_insert_eq.
  - intros v Hv _. by rewrite lookup_insert_ne.
  - intros w Hw. rewrite lookup_insert_eq in Hw. injection Hw as <-. split_and!; [done|done|by rewrite lookup_insert_ne|].
    intros m w _ Hw E. apply Hno. rewrite <- E. by eapply owns_user.
  - intros e He. exfalso. destruct (vs_kern _ _ _ _ V n e He). lia.
  - intros v Hv. rewrite Howns in Hv. rewrite lookup_insert_ne; [|intros <-; apply Hv; left; right; left; eauto].
    rewrite (vs_rest _ _ _ _ V) by tauto. apply lookup_insert_ne. intros <-. tauto.
  - intros v [Hv| ->]%Howns; [|done]. apply (vs_own _ _ _ _ V) in Hv. by apply lookup_insert_None in Hv as [? _].
Qed.

Lemma map_kern_spec e :
  vspace R pd sp s → (UPAGES ≤ n)%nat → e mod 2 = 1 →
  wp (write_pte (t, n mod NPTENTRIES)%nat e) (λ _ s', vspace R pd (mk_space (tabs sp) (<[n := e]> (kern sp)) (user sp)) s') s.
Proof.
  intros V Hn He. set (sp' := mk_space _ _ _).
  assert (∀ m, m ≠ n → user sp' !! m = user sp !! m ∧ kern sp' !! m = kern sp !! m) as Hsame by (intros m Hm; simpl; by rewrite lookup_insert_ne).
  assert (user sp !! n = None) as Hu by (destruct (user sp !! n) as [u|] eqn:Hu; [destruct (vs_user _ _ _ _ V n u Hu); lia|done]).
  assert (entry sp' n = e) as Ee by (unfold entry; simpl; by rewrite Hu, lookup_insert_eq).
  pose proof (write_entry _ _ _ _ V n t Ht sp' Hsame s eq_refl) as W. rewrite Ee in W. eapply wp_intro; [exact W|]. pose proof (vs_tab _ _ _ _ V _ _ Ht) as (_&_&Hft).
  eapply (vs_update _ _ _ _ V n t Ht sp'); try done; simpl.
  - eapply set_frame_heap; [apply V|done].
  - by rewrite lookup_insert_eq.
  - intros v Hv _. by rewrite lookup_insert_ne.
  - intros w Hw. congruence.
  - intros e' He'. rewrite lookup_insert_eq in He'. by injection He' as <-.
  - intros v Hv. rewrite lookup_insert_ne; [by apply (vs_rest _ _ _ _ V)|]. intros <-. apply Hv. right; left; eauto.
  - intros v Hv. by apply (vs_own _ _ _ _ V).
Qed.

(** A page of user memory is freed and its entry cleared. *)
Lemma unmap_spec u :
  vspace R pd sp s → user sp !! n = Some u →
  wp (kfreeM (uframe u);; write_pte (t, n mod NPTENTRIES)%nat 0) (λ _ s', vspace R pd (mk_space (tabs sp) (kern sp) (delete n (user sp))) s') s.
Proof.
  intros V Hu. set (sp' := mk_space _ _ _). destruct (vs_user _ _ _ _ V n u Hu) as (Hn&_&Hf&Hok).
  assert (∀ m, m ≠ n → user sp' !! m = user sp !! m ∧ kern sp' !! m = kern sp !! m) as Hsame by (intros m Hm; simpl; by rewrite lookup_delete_ne).
  assert (kern sp !! n = None) as Hk by (by eapply user_kern).
  assert (entry sp' n = 0) as <- by (unfold entry; simpl; by rewrite lookup_delete_eq, Hk).
  pose proof (vs_tab _ _ _ _ V _ _ Ht) as (_&_&Hft). assert (uframe u ≠ t) as Hut by congruence.
  apply wp_bind. eapply wp_mono; [eapply kfree_spec; [apply V|exact Hf]|]. intros _ s1 [Hs1 Ha1]. cbn beta.
  eapply wp_intro; [eapply (write_entry _ _ _ _ V n t Ht sp' Hsame s1); by rewrite Hs1, lookup_delete_ne|].
  assert (∀ v, owns pd sp v ↔ owns pd sp' v ∨ v = uframe u) as Howns.
  { intros v. unfold owns. simpl. setoid_rewrite lookup_delete_Some. split; [|naive_solver].
    intros [?|[?|(m&w&Hw&<-)]]; [eauto..|]. destruct (decide (m = n)) as [->|]; [right; congruence|left; right; right; eauto 6]. }
  eapply (vs_update _ _ _ _ V n t Ht sp'); try done; simpl.
  - eapply set_frame_heap; [done|]. by rewrite Hs1, lookup_delete_ne.
  - by rewrite lookup_insert_eq.
  - intros v Hv Hvu. rewrite lookup_insert_ne, Hs1, lookup_delete_ne by (done || intros <-; by apply (Hvu u)). done.
  - intros w Hw. by rewrite lookup_delete_eq in Hw.
  - intros e He. congruence.
  - intros v Hv. rewrite lookup_insert_ne, Hs1; [|intros <-; apply Hv; right; left; eauto]. destruct (decide (v = uframe u)) as [->|Hvu].
    + rewrite lookup_delete_eq. symmetry. apply (vs_own _ _ _ _ V). by eapply owns_user.
    + rewrite lookup_delete_ne by done. apply (vs_rest _ _ _ _ V). rewrite Howns. tauto.
  - intros v Hv. apply (vs_own _ _ _ _ V), Howns. by left.
Qed.

(** The flags of a page of user memory change. *)
Lemma reflag_spec u f :
  vspace R pd sp s → user sp !! n = Some u → 0 ≤ f < PGSIZE → f mod 2 = 1 →
  wp (write_pte (t, n mod NPTENTRIES)%nat (V2P (uframe u) + f))
    (λ _ s', vspace R pd (mk_space (tabs sp) (kern sp) (<[n := mk_uent (uframe u) f (ubytes u)]> (user sp))) s') s.
Proof.
  intros V Hu Hf Hp. set (u' := mk_uent _ _ _). set (sp' := mk_space _ _ _). destruct (vs_user _ _ _ _ V n u Hu) as (Hn&_&Hfr&Hok).
  assert (∀ m, m ≠ n → user sp' !! m = user sp !! m ∧ kern sp' !! m = kern sp !! m) as Hsame by (intros m Hm; simpl; by rewrite lookup_insert_ne).
  assert (entry sp' n = V2P (uframe u) + f) as <- by (unfold entry; simpl; by rewrite lookup_insert_eq).
  pose proof (vs_tab _ _ _ _ V _ _ Ht) as (_&_&Hft). assert (uframe u ≠ t) as Hut by congruence.
  eapply wp_intro; [by eapply (write_entry _ _ _ _ V n t Ht sp' Hsame s)|].
  assert (∀ v, owns pd sp' v ↔ owns pd sp v) as Howns.
  { intros v. unfold owns. simpl. setoid_rewrite lookup_insert_Some. split; (intros [?|[?|(m&w&Hw&<-)]]; [eauto..|]); [naive_solver|].
    destruct (decide (m = n)) as [->|]; [|eauto 8]. right; right. exists n, u'. simpl. split; [by left|congruence]. }
  eapply (vs_update _ _ _ _ V n t Ht sp'); try done; simpl.
  - eapply set_frame_heap; [apply V|done].
  - by rewrite lookup_insert_eq.
  - intros v Hv _. by rewrite lookup_insert_ne.
  - intros w Hw. rewrite lookup_insert_eq in Hw. injection Hw as <-. destruct Hok. split_and!; [done|done|by rewrite lookup_insert_ne|].
    intros m w Hm Hw E. by apply Hm, (vs_user_inj _ _ _ _ V m n w u).
  - intros e He. destruct (vs_kern _ _ _ _ V n e He). lia.
  - intros v Hv. rewrite Howns in Hv. rewrite lookup_insert_ne; [by apply (vs_rest _ _ _ _ V)|]. intros <-. apply Hv. right; left; eauto.
  - intros v Hv%Howns. by apply (vs_own _ _ _ _ V).
Qed.

(** The contents of a page of user memory change. *)
Lemma rebytes_spec u b :
  vspace R pd sp s → user sp !! n = Some u → length b = Z.to_nat PGSIZE →
  wp (set_frame (uframe u) (Data b)) (λ _ s', vspace R pd (mk_space (tabs sp) (kern sp) (<[n := mk_uent (uframe u) (uflags u) b]> (user sp))) s') s.
Proof.
  intros V Hu Hb. set (u' := mk_uent _ _ _). set (sp' := mk_space _ _ _). destruct (vs_user _ _ _ _ V n u Hu) as (Hn&_&Hfr&Hok).
  assert (∀ m, m ≠ n → user sp' !! m = user sp !! m ∧ kern sp' !! m = kern sp !! m) as Hsame by (intros m Hm; simpl; by rewrite lookup_insert_ne).
  pose proof (vs_tab _ _ _ _ V _ _ Ht) as (_&_&Hft). assert (t ≠ uframe u) as Hut by congruence.
  eapply wp_intro; [done|].
  assert (∀ v, owns pd sp' v ↔ owns pd sp v) as Howns.
  { intros v. unfold owns. simpl. setoid_rewrite lookup_insert_Some. split; (intros [?|[?|(m&w&Hw&<-)]]; [eauto..|]); [naive_solver|].
    destruct (decide (m = n)) as [->|]; [|eauto 8]. right; right. exists n, u'. simpl. split; [by left|congruence]. }
  eapply (vs_update _ _ _ _ V n t Ht sp'); try done; simpl.
  - eapply set_frame_heap; [apply V|done].
  - rewrite lookup_insert_ne, Hft by done. do 2 f_equal. apply list_fmap_ext. intros k j _. unfold entry. simpl.
    destruct (decide (n = (n / NPDENTRIES * NPTENTRIES + j)%nat)) as [<-|]; [by rewrite lookup_insert_eq, Hu|by rewrite lookup_insert_ne].
  - intros v Hv Hvu. rewrite lookup_insert_ne; [done|]. intros <-. by apply (Hvu u).
  - intros w Hw. rewrite lookup_insert_eq in Hw. injection Hw as <-. destruct Hok. split_and!; [done|done|by rewrite lookup_insert_eq|].
    intros m w Hm Hw E. by apply Hm, (vs_user_inj _ _ _ _ V m n w u).
  - intros e He. destruct (vs_kern _ _ _ _ V n e He). lia.
  - intros v Hv. rewrite Howns in Hv. rewrite lookup_insert_ne; [by apply (vs_rest _ _ _ _ V)|]. intros <-. apply Hv. by eapply owns_user.
  - intros v Hv%Howns. by apply (vs_own _ _ _ _ V).
Qed.

End mapping.
End vspace.
