(* ===== verification/XvPageOps.v ===== *)
(** The operations on address spaces of xv6 against [vspace]: mapping pages,
    releasing them, and building the kernel part of an address space. *)

From stdpp Require Import base option list numbers gmap sets.
From coqutil Require Import Datatypes.RecordSettersUsingExistingGetters.
From Stdlib Require Import Strings.Byte ZArith Lia.
From S2P Require Import Prelude XvKalloc XvPage XvPageInv.
Local Open Scope Z_scope.

(** The address of a page, and the pages that addresses below a size take. *)
Abbreviation page_at n := (Z.of_nat n * PGSIZE).
Definition npages (sz : Z) : nat := Z.to_nat ((sz + PGSIZE - 1) / PGSIZE).
Global Arguments npages : simpl never.

Lemma vpn_page n : vpn (page_at n) = n.
Proof. unfold vpn. rewrite Z.div_mul by done. lia. Qed.

Lemma npages_spec sz n : 0 ≤ sz → page_at n < sz ↔ (n < npages sz)%nat.
Proof. intros Hs. unfold npages, PGSIZE. split; intros Hn; Z.to_euclidean_division_equations; lia. Qed.

Lemma npages_user sz : 0 ≤ sz ≤ KERNBASE → (npages sz ≤ UPAGES)%nat.
Proof. intros Hs. unfold npages, UPAGES, PGSIZE, KERNBASE in *. Z.to_euclidean_division_equations. lia. Qed.

Lemma npages_kern : npages KERNBASE = UPAGES.
Proof. unfold npages, UPAGES. f_equal. Qed.

Lemma roundup_page sz : 0 ≤ sz ≤ KERNBASE → PGROUNDUP sz = page_at (npages sz).
Proof.
  intros Hs. unfold PGROUNDUP. rewrite u32_id by (unfold PGSIZE, KERNBASE in *; lia).
  change (Z.land (sz + PGSIZE - 1) (Z.lnot (PGSIZE - 1))) with (PGROUNDDOWN (sz + PGSIZE - 1)). rewrite rounddown_mod. unfold npages, PGSIZE, KERNBASE in *.
  Z.to_euclidean_division_equations. lia.
Qed.

Lemma rounddown_page n k : 0 ≤ k < PGSIZE → PGROUNDDOWN (page_at n + k) = page_at n.
Proof. intros Hk. rewrite rounddown_mod. unfold PGSIZE in *. Z.to_euclidean_division_equations. lia. Qed.

Lemma page_range n : (n < Z.to_nat 1048576)%nat → 0 ≤ page_at n < 2 ^ 32.
Proof. intros Hn. unfold PGSIZE. change (2 ^ 32) with 4294967296. lia. Qed.

Lemma upages_small n : (n < UPAGES)%nat → (n < Z.to_nat 1048576)%nat.
Proof. unfold UPAGES, KERNBASE, PGSIZE. change (2147483648 / 4096) with 524288. lia. Qed.

Lemma page_user n : (n < UPAGES)%nat → 0 ≤ page_at n ∧ page_at n + PGSIZE ≤ KERNBASE.
Proof. unfold UPAGES, KERNBASE, PGSIZE. change (2147483648 / 4096) with 524288. lia. Qed.

Lemma next_page n : (n < Z.to_nat 1048575)%nat → u32 (page_at n + PGSIZE) = page_at (S n).
Proof. intros Hn. rewrite u32_id; unfold PGSIZE; lia. Qed.

Section ops.
Context {A : Type} `{PageAllocator A}.
Abbreviation vmem := (vmem A).

(** ** Pages outside the address space *)

Lemma vs_adopt R pd sp (s s' : vmem) v p :
  vspace R pd sp s → frames s !! v = None → frames s' = <[v := p]> (frames s) → allocated ({[v]} ∪ dom (frames s)) (heap s') →
  vspace (<[v := p]> R) pd sp s' ∧ R !! v = None.
Proof.
  intros V Hv Hs Ha. assert (∀ w q, frames s !! w = Some q → frames s' !! w = Some q) as Hkeep.
  { intros w q Hw. rewrite Hs, lookup_insert_ne; [done|congruence]. }
  assert (¬ owns pd sp v) as Hno.
  { intros [->|[[i Hi]|(n&u&Hu&<-)]]; [pose proof (vs_dir _ _ _ _ V); congruence| |].
    - destruct (vs_tab _ _ _ _ V _ _ Hi) as (_&_&?). congruence.
    - destruct (vs_user _ _ _ _ V _ _ Hu) as (_&_&?&_). congruence. }
  split; [|by rewrite <- (vs_rest _ _ _ _ V)]. destruct V as [V1 V2 V3 V4 V5 V6 V7 V8 V9]. split; try done.
  - by rewrite Hs, dom_insert_L.
  - auto.
  - intros i t Hi. destruct (V3 i t Hi) as (?&?&?). auto.
  - intros n u Hu. destruct (V5 n u Hu) as (?&?&?&?). auto.
  - intros w Hw. rewrite Hs. destruct (decide (v = w)) as [->|]; [by rewrite !lookup_insert_eq|rewrite !lookup_insert_ne by done; auto].
  - intros w Hw. rewrite lookup_insert_ne; [auto|]. intros ->. done.
Qed.

(** A page outside is freed. *)
Lemma vs_drop R pd sp (s : vmem) v p :
  vspace (<[v := p]> R) pd sp s → R !! v = None → wp (kfreeM v) (λ _ s', vspace R pd sp s') s.
Proof.
  intros V HR. assert (¬ owns pd sp v) as Hno by (intros Ho; apply (vs_own _ _ _ _ V) in Ho; by rewrite lookup_insert_eq in Ho).
  eapply wp_mono; [eapply (kfree_spec s v p); [apply V|]|].
  { rewrite (vs_rest _ _ _ _ V) by done. by rewrite lookup_insert_eq. }
  intros _ s' [Hs Ha]. assert (∀ w q, frames s !! w = Some q → w ≠ v → frames s' !! w = Some q) as Hkeep.
  { intros w q Hw Hne. by rewrite Hs, lookup_delete_ne. }
  destruct V as [V1 V2 V3 V4 V5 V6 V7 V8 V9]. split; try done.
  - apply Hkeep; [done|]. intros ->. apply Hno. by left.
  - intros i t Hi. destruct (V3 i t Hi) as (?&?&?). split_and!; [done|done|]. apply Hkeep; [done|]. intros ->. apply Hno. right; left; eauto.
  - intros n u Hu. destruct (V5 n u Hu) as (?&?&?&?). split_and!; [done|done| |done]. apply Hkeep; [done|]. intros <-. apply Hno. by eapply owns_user.
  - intros w Hw. rewrite Hs. destruct (decide (v = w)) as [->|]; [by rewrite lookup_delete_eq, HR|]. rewrite lookup_delete_ne, V8 by done. by rewrite lookup_insert_ne.
  - intros w Hw%V9. by apply lookup_insert_None in Hw as [? _].
Qed.

(** ** Mapping *)

Lemma mappages_user R pd sp (s : vmem) n v b perm :
  vspace (<[v := Data b]> R) pd sp s → R !! v = None → page_addr v → (n < UPAGES)%nat → user sp !! n = None →
  0 ≤ perm < PGSIZE → length b = Z.to_nat PGSIZE →
  wp (mappages pd (page_at n) PGSIZE (V2P v) perm) (λ r s',
    r = 0 ∧ (∃ tb, vspace R pd (mk_space tb (kern sp) (<[n := mk_uent v (Z.lor perm PTE_P) b]> (user sp))) s') ∨ r = -1 ∧ s' = s) s.
Proof.
  intros V HR Hv Hn Hu Hp Hb. pose proof (page_range n (upages_small n Hn)) as Hr. unfold mappages.
  assert (PGROUNDDOWN (page_at n) = page_at n) as -> by (rewrite <- (Z.add_0_r (page_at n)) at 1; apply rounddown_page; unfold PGSIZE; lia).
  assert (PGROUNDDOWN (u32 (page_at n + PGSIZE - 1)) = page_at n) as ->.
  { rewrite u32_id by (pose proof (page_user n Hn); unfold PGSIZE, KERNBASE in *; lia).
    replace (page_at n + PGSIZE - 1) with (page_at n + (PGSIZE - 1)) by lia. apply rounddown_page. unfold PGSIZE. lia. }
  rewrite Z.sub_diag. change (Z.to_nat (0 / PGSIZE)) with 0%nat. cbn [map_loop]. apply wp_bind. eapply wp_mono; [by eapply walk_alloc_spec|].
  intros r s1 [[-> ->]|(t&sp1&->&Ht&Hk&Hus&V1)]; cbn beta iota; [apply wp_ret; by right|]. rewrite vpn_page in *.
  apply wp_bind. eapply wp_intro; [by eapply read_entry|]. cbn beta. rewrite (entry_absent sp1 n); [|congruence|].
  2: { destruct (kern sp1 !! n) eqn:E; [destruct (vs_kern _ _ _ _ V1 n _ E); lia|done]. }
  change (has PTE_P 0) with false. cbn iota. apply wp_bind. destruct (lor_present perm Hp) as [Hodd Hfl].
  rewrite lor_flags by (done || apply (page_phys v Hv)).
  eapply wp_mono; [eapply (map_user_spec R pd sp1 s1 n t Ht (mk_uent v (Z.lor perm PTE_P) b)); cbn [uframe ubytes]; [done|done|done|by rewrite Hus|by constructor]|].
  intros [] s2 V2. cbn beta. rewrite decide_True by done. apply wp_ret. left. split; [done|]. exists (tabs sp1). by rewrite <- Hk, <- Hus.
Qed.

Lemma map_loop_S fuel pd a last pa perm :
  map_loop (S fuel) pd a last pa perm =
    r ← walkpgdir pd a true;
    match r with
    | None => mret (-1)
    | Some p =>
        e ← read_pte p;
        if has PTE_P e then fault
        else
          write_pte p (Z.lor pa (Z.lor perm PTE_P));;
          if decide (a = last) then mret 0 else map_loop fuel pd (u32 (a + PGSIZE)) last (u32 (pa + PGSIZE)) perm
    end.
Proof. done. Qed.

(** The loop of [mappages] over a range of kernel pages. *)
Lemma map_loop_kern R pd perm k : 0 ≤ perm < PGSIZE → ∀ n pa sp (s : vmem),
  vspace R pd sp s → (UPAGES ≤ n)%nat → (n + k < Z.to_nat 1048576)%nat → (∀ m, (n ≤ m ≤ n + k)%nat → kern sp !! m = None) →
  pa mod PGSIZE = 0 → 0 ≤ pa → pa + page_at k < 2 ^ 32 →
  wp (map_loop (S k) pd (page_at n) (page_at (n + k)) pa perm) (λ r s',
    (r = 0 ∨ r = -1) ∧ ∃ tb kn, vspace R pd (mk_space tb kn (user sp)) s' ∧
      (r = 0 → ∀ m, kn !! m = if decide (n ≤ m ≤ n + k)%nat then Some (pa + page_at (m - n) + Z.lor perm PTE_P) else kern sp !! m)) s.
Proof.
  intros Hp. destruct (lor_present perm Hp) as [Hodd Hfl].
  induction k as [|k IH]; intros n pa sp s V Hn Hnk Hfree Hpa Hpa0 Hpk;
    (rewrite map_loop_S; apply wp_bind; eapply wp_mono; [apply walk_alloc_spec; [exact V|apply page_range; lia]|];
     intros r s1 [[-> ->]|(t&sp1&->&Ht&Hk&Hus&V1)]; cbn beta iota; [apply wp_ret; split; [by right|]; exists (tabs sp), (kern sp); by destruct sp|];
     rewrite vpn_page in *; apply wp_bind; eapply wp_intro; [by eapply read_entry|]; cbn beta;
     rewrite (entry_absent sp1 n) by
       (first [rewrite Hk; apply Hfree; lia | destruct (user sp1 !! n) eqn:E; [destruct (vs_user _ _ _ _ V1 n _ E); lia|done]]);
     change (has PTE_P 0) with false; cbn iota; apply wp_bind;
     rewrite lor_flags by done;
     eapply wp_mono; [apply (map_kern_spec R pd sp1 s1 n t Ht (pa + Z.lor perm PTE_P)); [done|done|unfold PGSIZE in *; Z.to_euclidean_division_equations; lia]|];
     intros [] s2 V2; cbn beta).
  - rewrite decide_True by (f_equal; lia). apply wp_ret. split; [by left|]. exists (tabs sp1), (<[n := pa + Z.lor perm PTE_P]> (kern sp1)).
    rewrite <- Hus. split; [done|]. intros _ m. rewrite Hk. case_decide.
    + assert (m = n) as -> by lia. rewrite lookup_insert_eq. f_equal. rewrite Nat.sub_diag. lia.
    + rewrite lookup_insert_ne; [done|lia].
  - rewrite decide_False by (unfold PGSIZE; lia). rewrite next_page by lia. rewrite u32_id by (unfold PGSIZE in *; lia).
    replace (n + S k)%nat with (S n + k)%nat by lia. eapply wp_mono.
    { apply (IH (S n)); [exact V2|lia|lia| |unfold PGSIZE in *; Z.to_euclidean_division_equations; lia|unfold PGSIZE; lia|unfold PGSIZE in *; lia].
      intros m Hm. cbn [kern]. rewrite lookup_insert_ne, Hk by lia. apply Hfree. lia. }
    cbn [user kern]. intros r s' (Hr&tb&kn&V'&Hkn). split; [done|]. exists tb, kn. rewrite <- Hus. split; [done|].
    intros E m. rewrite (Hkn E m). clear Hkn. destruct (decide (m = n)) as [->|].
    + rewrite decide_False, decide_True, lookup_insert_eq by lia. f_equal. rewrite Nat.sub_diag. lia.
    + rewrite lookup_insert_ne, Hk by done. destruct (decide (S n ≤ m ≤ S n + k)%nat).
      * rewrite decide_True by lia. f_equal. unfold PGSIZE. lia.
      * rewrite decide_False by lia. done.
Qed.

(** ** Releasing user memory *)

(** User memory without the pages from [n] to [N]. *)
Definition cut (n N : nat) (us : gmap nat uent) : gmap nat uent := filter (λ mu, ¬ (n ≤ mu.1 < N)%nat) us.

Lemma lookup_cut n N us m : cut n N us !! m = if decide (n ≤ m < N)%nat then None else us !! m.
Proof.
  unfold cut. rewrite map_lookup_filter. destruct (us !! m) as [u|]; simpl; [|by case_decide].
  case_decide as E; [rewrite option_guard_False; [done|simpl; tauto]|by rewrite option_guard_True].
Qed.

Lemma cut_all us : (∀ m u, us !! m = Some u → (m < UPAGES)%nat) → cut 0 UPAGES us = ∅.
Proof.
  intros Hu. apply map_eq. intros m. rewrite lookup_cut, lookup_empty. case_decide as E; [done|].
  destruct (us !! m) as [u|] eqn:Hm; [|done]. apply Hu in Hm. lia.
Qed.

Lemma cut_none n N us : (∀ m, (n ≤ m < N)%nat → us !! m = None) → cut n N us = us.
Proof. intros Hn. apply map_eq. intros m. rewrite lookup_cut. case_decide; [by rewrite Hn|done]. Qed.

Lemma cut_step n n' N us : (n ≤ n')%nat → (∀ m, (n ≤ m < n')%nat → (m < N)%nat → us !! m = None) → cut n N us = cut n' N us.
Proof.
  intros Hn Hno. apply map_eq. intros m. rewrite !lookup_cut. destruct (decide (n' ≤ m < N)%nat); [by rewrite decide_True by lia|].
  destruct (decide (n ≤ m < N)%nat); [|done]. rewrite Hno by lia. done.
Qed.

Lemma cut_delete n N us : (n < N)%nat → cut (S n) N (delete n us) = cut n N us.
Proof.
  intros HN. apply map_eq. intros m. rewrite !lookup_cut. destruct (decide (m = n)) as [->|].
  - rewrite decide_False, decide_True, lookup_delete_eq by lia. done.
  - rewrite lookup_delete_ne by done. repeat case_decide; (done || lia).
Qed.

(** The next directory entry. *)
Lemma next_dir n : (n < UPAGES)%nat →
  u32 (PGADDR (Z.of_nat (PDX (page_at n)) + 1) 0 0 - PGSIZE + PGSIZE) = page_at (S (n / NPDENTRIES) * NPDENTRIES).
Proof.
  intros Hn. destruct (PDX_vpn (page_at n)) as [-> _]; [by apply page_range, upages_small|]. rewrite vpn_page.
  unfold PGADDR. change (Z.shiftl 0 12) with 0. rewrite !Z.lor_0_r, Z.shiftl_mul_pow2 by lia.
  assert (n / NPDENTRIES < 512)%nat as Hd.
  { apply Nat.Div0.div_lt_upper_bound. pose proof (page_user n Hn). unfold NPDENTRIES, KERNBASE, PGSIZE in *. lia. }
  change (2 ^ 22) with 4194304. rewrite (u32_id (_ * _)) by (change (2 ^ 32) with 4294967296; lia).
  rewrite u32_id; unfold PGSIZE, NPDENTRIES in *; change (2 ^ 32) with 4294967296; lia.
Qed.

Lemma dealloc_loop_spec R pd oldsz : 0 ≤ oldsz ≤ KERNBASE → ∀ fuel n sp (s : vmem),
  vspace R pd sp s → (npages oldsz - n ≤ fuel)%nat →
  wp (dealloc_loop fuel pd (page_at n) oldsz) (λ _ s', vspace R pd (mk_space (tabs sp) (kern sp) (cut n (npages oldsz) (user sp))) s') s.
Proof.
  intros Ho. pose proof (npages_user oldsz Ho) as HU. induction fuel as [|fuel IH]; intros n sp s V Hf.
  { cbn [dealloc_loop]. rewrite decide_False by (rewrite npages_spec; lia). apply wp_ret. rewrite cut_none by lia. by destruct sp. }
  cbn [dealloc_loop]. case_decide as Hn; rewrite npages_spec in Hn by lia; [|apply wp_ret; rewrite cut_none by lia; by destruct sp].
  assert (n < UPAGES)%nat as Hu by lia. apply wp_bind. eapply wp_intro; [eapply walk_spec; [exact V|by apply page_range, upages_small]|]. cbn beta.
  rewrite vpn_page. destruct (tabs sp !! (n / NPDENTRIES)%nat) as [t|] eqn:Ht; cbn [fmap option_fmap option_map].
  - apply wp_bind. eapply wp_intro; [by eapply read_entry|]. cbn beta. rewrite next_page by (apply upages_small in Hu; pose proof (page_user n ltac:(lia)); unfold PGSIZE, KERNBASE in *; lia).
    destruct (user sp !! n) as [u|] eqn:Hun.
    + destruct (entry_user R pd sp s V n u Hun) as (Ee&Hpu&->). destruct (vs_user _ _ _ _ V n u Hun) as (_&_&_&[_ Hfl _]).
      destruct (entry_page _ _ Hpu Hfl) as [E1 E2]. rewrite Ee, decide_False, E1 by done. apply wp_bind.
      eapply wp_mono; [by eapply unmap_spec|]. intros [] s1 V1. cbn beta in V1 |- *. eapply wp_mono; [apply (IH (S n)); [exact V1|lia]|].
      intros [] s2 V2. cbn [tabs kern user] in V2. by rewrite cut_delete in V2 by lia.
    + rewrite entry_absent; [|done|]. 2: { destruct (kern sp !! n) eqn:E; [destruct (vs_kern _ _ _ _ V n _ E); lia|done]. }
      change (has PTE_P 0) with false. cbn iota. apply wp_bind, wp_ret. eapply wp_mono; [apply (IH (S n)); [exact V|lia]|].
      intros [] s2 V2. cbn beta in V2 |- *. rewrite (cut_step n (S n)); [done|lia|]. intros m Hm _. by replace m with n by lia.
  - rewrite next_dir by done. eapply wp_mono; [apply IH; [exact V|]|].
    { pose proof (Nat.mul_succ_div_gt n NPDENTRIES ltac:(unfold NPDENTRIES; lia)). lia. }
    intros [] s2 V2. cbn beta in V2 |- *. rewrite (cut_step n (S (n / NPDENTRIES) * NPDENTRIES)); [done| |].
    + pose proof (Nat.mul_succ_div_gt n NPDENTRIES ltac:(unfold NPDENTRIES; lia)). lia.
    + intros m Hm _. destruct (user sp !! m) as [u|] eqn:Hum; [|done]. destruct (vs_user _ _ _ _ V m u Hum) as (_&[t' Ht']&_).
      assert (m / NPDENTRIES = n / NPDENTRIES)%nat; [|congruence]. symmetry. apply (Nat.div_unique m NPDENTRIES _ (m - n / NPDENTRIES * NPDENTRIES)); [lia|].
      pose proof (Nat.Div0.mul_div_le n NPDENTRIES). lia.
Qed.

(** Shrinking a process: the pages above its new size are gone. *)
Lemma deallocuvm_spec R pd sp (s : vmem) oldsz newsz :
  vspace R pd sp s → 0 ≤ newsz → 0 ≤ oldsz ≤ KERNBASE →
  wp (deallocuvm pd oldsz newsz) (λ r s', r = Z.min oldsz newsz ∧
    vspace R pd (mk_space (tabs sp) (kern sp) (cut (npages newsz) (npages oldsz) (user sp))) s') s.
Proof.
  intros V Hn Ho. unfold deallocuvm. case_decide as Hle.
  - apply wp_ret. split; [lia|]. rewrite cut_none; [by destruct sp|]. intros m Hm. exfalso. rewrite <- !npages_spec in Hm by lia.
    pose proof (npages_spec newsz m). pose proof (npages_spec oldsz m). lia.
  - rewrite roundup_page by lia. apply wp_bind. eapply wp_mono; [apply dealloc_loop_spec; [done|exact V|]|].
    + unfold npages, PGSIZE. Z.to_euclidean_division_equations. lia.
    + intros [] s' V'. apply wp_ret. split; [lia|done].
Qed.

(** ** Releasing an address space *)

(** The page tables from directory entry [i] on are left. *)
Record tables_left (R : gmap Z page) (pd : Z) (sp : space) (i : nat) (s : vmem) : Prop := {
  tl_heap : allocated (dom (frames s)) (heap s);
  tl_dir : frames s !! pd = Some (Table (dir_of sp));
  tl_tab : ∀ j t, (i ≤ j)%nat → tabs sp !! j = Some t → t ≠ pd ∧ is_Some (frames s !! t);
  tl_inj : ∀ j k t, tabs sp !! j = Some t → tabs sp !! k = Some t → j = k;
  tl_rest : ∀ v, v ≠ pd → (∀ j, (i ≤ j)%nat → tabs sp !! j ≠ Some v) → frames s !! v = R !! v;
}.

Lemma free_tables_spec R pd sp k : R !! pd = None → (∀ i t, tabs sp !! i = Some t → R !! t = None) → ∀ i (s : vmem),
  tables_left R pd sp i s → (i + k = NPDENTRIES)%nat → wp (free_tables k i pd) (λ _ s', tables_left R pd sp NPDENTRIES s') s.
Proof.
  intros Hpd HR. induction k as [|k IH]; intros i s T Hi; cbn [free_tables].
  { apply wp_ret. by replace NPDENTRIES with i by lia. }
  apply wp_bind. eapply wp_intro.
  { unfold read_pte, mbind, ST_bind, read_table, lift. cbn [fst snd]. rewrite (tl_dir _ _ _ _ _ T). rewrite lookup_dir by lia. done. }
  cbn beta. apply wp_bind. destruct (tabs sp !! i) as [t|] eqn:Ht.
  - destruct (tl_tab _ _ _ _ _ T i t ltac:(lia) Ht) as (Htp&p&Hp). assert (page_addr t) as Hpt by (eapply allocated_page; [apply T|by apply elem_of_dom]).
    assert (has PTE_P (dir_entry sp i) = true ∧ P2V (PTE_ADDR (dir_entry sp i)) = t) as [-> ->].
    { unfold dir_entry. rewrite Ht, entry_present by apply (page_phys _ Hpt). split; [done|]. apply (entry_page t 7 Hpt). unfold PGSIZE. lia. }
    eapply wp_mono; [eapply kfree_spec; [apply T|exact Hp]|]. intros [] s1 [Hs1 Ha1]. cbn beta. apply IH; [|lia].
    destruct T as [T1 T2 T3 T4 T5]. split; [done|by rewrite Hs1, lookup_delete_ne| |done|].
    + intros j t' Hj Ht'. destruct (T3 j t' ltac:(lia) Ht') as [? ?]. split; [done|]. rewrite Hs1, lookup_delete_ne; [done|].
      intros <-. assert (j = i) by (by eapply T4). lia.
    + intros v Hv Hno. rewrite Hs1. destruct (decide (t = v)) as [<-|Hne]; [rewrite lookup_delete_eq; symmetry; by eapply HR|].
      rewrite lookup_delete_ne by done. apply T5; [done|]. intros j Hj. destruct (decide (j = i)) as [->|]; [congruence|]. apply Hno. lia.
  - rewrite dir_entry_none by done. cbn iota. apply wp_ret. apply IH; [|lia]. destruct T as [T1 T2 T3 T4 T5]. split; try done.
    + intros j t' Hj. apply T3. lia.
    + intros v Hv Hno. apply T5; [done|]. intros j Hj. destruct (decide (j = i)) as [->|]; [congruence|]. apply Hno. lia.
Qed.

(** [freevm] gives back every page of an address space, and no other. *)
Lemma freevm_spec R pd sp (s : vmem) :
  vspace R pd sp s → wp (freevm_pages pd) (λ _ s', frames s' = R ∧ allocated (dom R) (heap s')) s.
Proof.
  intros V. unfold freevm_pages. assert (pd ≠ 0) as Hnz.
  { destruct (in_use R pd sp s V pd _ (vs_dir _ _ _ _ V)) as [_ ?]. unfold KERNBASE in *. lia. }
  rewrite decide_False by done. apply wp_bind. eapply wp_mono; [apply (deallocuvm_spec R pd sp s KERNBASE 0 V); unfold KERNBASE; lia|].
  intros r s1 [_ V1]. cbn beta. change (npages 0) with 0%nat in V1. rewrite npages_kern in V1.
  rewrite cut_all in V1 by (intros m u Hu; by apply (vs_user _ _ _ _ V m u)). set (sp1 := mk_space _ _ _) in V1.
  assert (R !! pd = None) as Hpd by (apply (vs_own _ _ _ _ V); by left). apply wp_bind. eapply wp_mono.
  { apply (free_tables_spec R pd sp1 NPDENTRIES Hpd); [|split|done]; [| |apply V1|..].
    - intros i t Ht. apply (vs_own _ _ _ _ V1). right; left; eauto.
    - apply V1.
    - intros j t _ Ht. destruct (vs_tab _ _ _ _ V1 j t Ht) as (_&?&?). eauto.
    - apply V1.
    - intros v Hv Hno. apply (vs_rest _ _ _ _ V1). intros [?|[[j Hj]|(n&u&Hu&_)]]; [done|by eapply (Hno j ltac:(lia))|].
      unfold sp1 in Hu. cbn [user] in Hu. by rewrite lookup_empty in Hu. }
  intros [] s2 T. cbn beta. eapply wp_mono; [eapply kfree_spec; [apply T|apply T]|]. intros [] s3 [Hs3 Ha3].
  assert (frames s3 = R) as E; [|by rewrite E in *]. rewrite Hs3. apply map_eq. intros v. destruct (decide (pd = v)) as [<-|Hne]; [by rewrite lookup_delete_eq|].
  rewrite lookup_delete_ne by done. apply T; [done|]. intros j Hj Ht. apply (vs_tab _ _ _ _ V1) in Ht as [? _]. lia.
Qed.

(** ** The kernel part *)

(** The entry that every address space has for a page of the kernel. *)
Definition kernel_entry (data : Z) (n : nat) : option Z :=
  let a := page_at n in
  if decide (KERNBASE ≤ a < KERNLINK) then Some (a - KERNBASE + 3)
  else if decide (KERNLINK ≤ a < data) then Some (a - KERNBASE + 1)
  else if decide (data ≤ a < KERNBASE + PHYSTOP) then Some (a - KERNBASE + 3)
  else if decide (DEVSPACE ≤ a < 2 ^ 32) then Some (a + 3)
  else None.

Lemma mappages_kern R pd sp (s : vmem) va size pa perm :
  vspace R pd sp s → va mod PGSIZE = 0 → size mod PGSIZE = 0 → pa mod PGSIZE = 0 → KERNBASE ≤ va → 0 < size → va + size ≤ 2 ^ 32 →
  0 ≤ pa → pa + size ≤ 2 ^ 32 → 0 ≤ perm < PGSIZE → (∀ m, va ≤ page_at m < va + size → kern sp !! m = None) →
  wp (mappages pd va size pa perm) (λ r s',
    (r = 0 ∨ r = -1) ∧ ∃ tb kn, vspace R pd (mk_space tb kn (user sp)) s' ∧
      (r = 0 → ∀ m, kn !! m = if decide (va ≤ page_at m < va + size) then Some (pa + (page_at m - va) + Z.lor perm PTE_P) else kern sp !! m)) s.
Proof.
  intros V Hva Hsz Hpa Hkb Hs Hend Hpa0 Hpe Hperm Hfree. change (2 ^ 32) with 4294967296 in *.
  assert (∃ n, va = page_at n) as [n ->] by (exists (Z.to_nat (va / PGSIZE)); unfold KERNBASE, PGSIZE in *; Z.to_euclidean_division_equations; lia).
  assert (∃ k, size = page_at (S k)) as [k ->] by (exists (Z.to_nat (size / PGSIZE - 1)); unfold PGSIZE in *; Z.to_euclidean_division_equations; lia).
  unfold mappages. rewrite (u32_id (_ + _ - 1)) by (unfold PGSIZE, KERNBASE in *; lia).
  replace (page_at n + page_at (S k) - 1) with (page_at (n + k) + (PGSIZE - 1)) by (unfold PGSIZE; lia). rewrite rounddown_page by (unfold PGSIZE; lia).
  assert (PGROUNDDOWN (page_at n) = page_at n) as -> by (rewrite <- (Z.add_0_r (page_at n)) at 1; apply rounddown_page; unfold PGSIZE; lia).
  replace ((page_at (n + k) - page_at n) / PGSIZE) with (Z.of_nat k) by (unfold PGSIZE; Z.to_euclidean_division_equations; lia). rewrite Nat2Z.id.
  assert (∀ m, page_at n ≤ page_at m < page_at n + page_at (S k) ↔ (n ≤ m ≤ n + k)%nat) as Hm by (intros m; unfold PGSIZE; lia).
  eapply wp_mono; [apply map_loop_kern; try done|].
  - unfold UPAGES, KERNBASE, PGSIZE in *. change (2147483648 / 4096) with 524288. lia.
  - unfold PGSIZE in *. lia.
  - intros m Hmm. by apply Hfree, Hm.
  - unfold PGSIZE in *. change (2 ^ 32) with 4294967296. lia.
  - intros r s' (Hr&tb&kn&V'&Hkn). split; [done|]. exists tb, kn. split; [done|]. intros E m. rewrite (Hkn E m).
    destruct (decide (n ≤ m ≤ n + k)%nat) as [D|D]; rewrite <- Hm in D; [rewrite decide_True by done|by rewrite decide_False]. f_equal. unfold PGSIZE. rewrite Hm in D. lia.
Qed.

(** One entry of [kmap]: mapped, or the address space is gone. *)
Lemma map_kernel_step R pd sp (s : vmem) va start end_ perm l (Q : Z → vmem → Prop) :
  vspace R pd sp s → va mod PGSIZE = 0 → u32 (end_ - start) mod PGSIZE = 0 → start mod PGSIZE = 0 → KERNBASE ≤ va →
  0 < u32 (end_ - start) → va + u32 (end_ - start) ≤ 2 ^ 32 → 0 ≤ start → start + u32 (end_ - start) ≤ 2 ^ 32 → 0 ≤ perm < PGSIZE →
  (∀ m, va ≤ page_at m < va + u32 (end_ - start) → kern sp !! m = None) →
  (∀ s', frames s' = R → allocated (dom R) (heap s') → Q 0 s') →
  (∀ tb kn s', vspace R pd (mk_space tb kn (user sp)) s' →
    (∀ m, kn !! m = if decide (va ≤ page_at m < va + u32 (end_ - start)) then Some (start + (page_at m - va) + Z.lor perm PTE_P) else kern sp !! m) →
    wp (map_kernel pd l) Q s') →
  wp (map_kernel pd ((va, start, end_, perm) :: l)) Q s.
Proof.
  intros V ?????????? HQ Hl. cbn [map_kernel]. apply wp_bind. eapply wp_mono; [by apply mappages_kern|].
  intros r s' (Hr&tb&kn&V'&Hkn). cbn beta. destruct Hr as [-> | ->].
  - rewrite decide_False by lia. by eapply Hl; [|apply Hkn].
  - rewrite decide_True by lia. apply wp_bind. eapply wp_mono; [by eapply freevm_spec|]. intros [] s2 [??]. apply wp_ret. by apply HQ.
Qed.

Lemma empty_space pd (s s' : vmem) :
  frames s !! pd = None → frames s' = <[pd := Table zero_table]> (frames s) → allocated ({[pd]} ∪ dom (frames s)) (heap s') →
  vspace (frames s) pd (mk_space ∅ ∅ ∅) s'.
Proof.
  intros Hpd Hs Ha. assert (∀ v, owns pd (mk_space ∅ ∅ ∅) v ↔ v = pd) as Ho.
  { intros v. unfold owns. cbn [tabs user]. setoid_rewrite lookup_empty. naive_solver. }
  split; cbn [tabs kern user]; try (intros *; by rewrite ?lookup_empty).
  - by rewrite Hs, dom_insert_L.
  - rewrite Hs, lookup_insert_eq. apply (f_equal (λ l, Some (Table l))), list_eq. intros k. unfold dir_of. rewrite lookup_zero_table, list_lookup_fmap.
    unfold NPDENTRIES, NPTENTRIES. case_decide; [rewrite lookup_seq_lt by lia; done|rewrite lookup_seq_ge by lia; done].
  - intros v Hv. rewrite Ho in Hv. by rewrite Hs, lookup_insert_ne.
  - by intros v ->%Ho.
Qed.

(** The kernel's data starts at a page between its text and the end of memory. *)
Definition data_ok (data : Z) : Prop := data mod PGSIZE = 0 ∧ KERNLINK < data < KERNBASE + PHYSTOP.

Ltac kmap_arith := unfold kernel_entry, V2P, P2V, u32, to_unsigned, KERNLINK, EXTMEM, DEVSPACE, KERNBASE, PHYSTOP, PGSIZE in *;
  change (2 ^ 32) with 4294967296 in *; Z.to_euclidean_division_equations; lia.

Ltac kmap_entry := unfold KERNLINK, EXTMEM, KERNBASE, PHYSTOP, DEVSPACE in *; repeat case_decide; try done; try (f_equal; lia); exfalso; lia.

Lemma map_kernel_spec R pd (s : vmem) data :
  vspace R pd (mk_space ∅ ∅ ∅) s → data_ok data → pd ≠ 0 →
  wp (map_kernel pd (kmap data)) (λ r s',
    r = 0 ∧ frames s' = R ∧ allocated (dom R) (heap s') ∨
    r = pd ∧ ∃ tb kn, vspace R pd (mk_space tb kn ∅) s' ∧ ∀ m, kn !! m = kernel_entry data m) s.
Proof.
  intros V [Hal Hd] Hnz. unfold kmap.
  assert (V2P KERNLINK = EXTMEM) as El by done. assert (V2P data = data - KERNBASE) as Ed by kmap_arith. rewrite El, Ed.
  assert (u32 (EXTMEM - 0) = EXTMEM) as E1 by done. assert (u32 (data - KERNBASE - EXTMEM) = data - KERNLINK) as E2 by kmap_arith.
  assert (u32 (PHYSTOP - (data - KERNBASE)) = KERNBASE + PHYSTOP - data) as E3 by kmap_arith. assert (u32 (0 - DEVSPACE) = 2 ^ 32 - DEVSPACE) as E4 by done.
  apply (map_kernel_step R pd _ s _ _ _ _ _ _ V); rewrite ?E1; try done; try kmap_arith; [by left|]. cbn [kern user]. intros tb1 kn1 s1 V1 K1.
  assert (∀ m, kn1 !! m = if decide (page_at m < KERNLINK) then kernel_entry data m else None) as K1'.
  { intros m. rewrite K1, lookup_empty. unfold kernel_entry. change (Z.lor PTE_W PTE_P) with 3. kmap_entry. }
  clear K1.
  apply (map_kernel_step R pd _ s1 _ _ _ _ _ _ V1); rewrite ?E2; try done; try kmap_arith; [intros m Hm; cbn [kern]; rewrite K1', decide_False by lia; done|by left|].
  cbn [kern user]. intros tb2 kn2 s2 V2 K2.
  assert (∀ m, kn2 !! m = if decide (page_at m < data) then kernel_entry data m else None) as K2'.
  { intros m. rewrite K2, K1'. unfold kernel_entry. change (Z.lor 0 PTE_P) with 1. kmap_entry. }
  clear K2 K1'.
  apply (map_kernel_step R pd _ s2 _ _ _ _ _ _ V2); rewrite ?E3; try done; try kmap_arith; [intros m Hm; cbn [kern]; rewrite K2', decide_False by lia; done|by left|].
  cbn [kern user]. intros tb3 kn3 s3 V3 K3.
  assert (∀ m, kn3 !! m = if decide (page_at m < KERNBASE + PHYSTOP) then kernel_entry data m else None) as K3'.
  { intros m. rewrite K3, K2'. unfold kernel_entry. change (Z.lor PTE_W PTE_P) with 3. kmap_entry. }
  clear K3 K2'.
  apply (map_kernel_step R pd _ s3 _ _ _ _ _ _ V3); rewrite ?E4; try done; try kmap_arith; [intros m Hm; cbn [kern]; rewrite K3', decide_False by (unfold DEVSPACE, KERNBASE, PHYSTOP in *; lia); done|by left|].
  cbn [kern user]. intros tb4 kn4 s4 V4 K4. apply wp_ret. right. split; [done|]. exists tb4, kn4. split; [done|].
  intros m. rewrite K4, K3'. unfold kernel_entry. change (Z.lor PTE_W PTE_P) with 3. change (2 ^ 32) with 4294967296. kmap_entry.
Qed.

(** [setupkvm] makes an address space with the kernel and no user memory, or fails
    and gives back every page. *)
Lemma setupkvm_spec (s : vmem) data :
  allocated (dom (frames s)) (heap s) → data_ok data →
  wp (setupkvm data) (λ r s',
    r = 0 ∧ frames s' = frames s ∧ allocated (dom (frames s)) (heap s') ∨
    r ≠ 0 ∧ ∃ tb kn, vspace (frames s) r (mk_space tb kn ∅) s' ∧ ∀ m, kn !! m = kernel_entry data m) s.
Proof.
  intros Ha Hd. unfold setupkvm. apply wp_bind. eapply wp_mono; [by apply kalloc_spec|].
  intros pd s1 [[-> ->]|(Hnz&Hp&Hnone&Hfr&Ha')]; cbn beta; [rewrite decide_True by done; apply wp_ret; by left|]. rewrite decide_False by done.
  apply wp_bind. eapply wp_intro; [done|]. cbn beta. rewrite decide_False by (vm_compute; congruence).
  eapply wp_mono; [apply map_kernel_spec; [eapply (empty_space pd s)|done|done]|]; cbn [frames heap]; [done|by rewrite Hfr|done|].
  intros r s' [?|(->&tb&kn&?&?)]; [by left|right]. eauto 6.
Qed.

End ops.
