(* ===== verification/XvPageUser.v ===== *)
(** User memory of xv6: growing it, copying it to a child, writing to it from the
    kernel, loading a program into it. *)

From stdpp Require Import base option list numbers gmap sets.
From coqutil Require Import Datatypes.RecordSettersUsingExistingGetters.
From Stdlib Require Import Strings.Byte ZArith Lia.
From S2P Require Import Prelude XvKalloc XvPage XvPageInv XvPageOps.
Local Open Scope Z_scope.

(** User memory with pages of zeros, writable by the user, from page [n] to [N]. *)
Definition grown (n N : nat) (us us' : gmap nat uent) : Prop :=
  ∀ m, if decide (n ≤ m < N)%nat then ∃ v, us' !! m = Some (mk_uent v 7 zero_page) else us' !! m = us !! m.

(** The byte at a user address. *)
Definition mem_at (sp : space) (a : Z) : option byte := u ← user sp !! vpn a; ubytes u !! Z.to_nat (a mod PGSIZE).

(** The bytes that [readi] of fs.c reads of a file; none where it returns -1. *)
Definition file_read (content : list byte) (off n : Z) : list byte :=
  if decide (Z.of_nat (length content) < off ∨ u32 (off + n) < off) then [] else take (Z.to_nat n) (drop (Z.to_nat off) content).

Lemma length_file_read content off n : Z.of_nat (length (file_read content off n)) ≤ Z.max 0 n.
Proof. unfold file_read. case_decide; [simpl; lia|]. rewrite length_take. lia. Qed.

(** The first [n] pages of user memory copied: the same flags and bytes in other
    pages. *)
Definition copied (n : nat) (us us' : gmap nat uent) : Prop :=
  ∀ m, if decide (m < n)%nat then ∃ u v, us !! m = Some u ∧ us' !! m = Some (mk_uent v (uflags u) (ubytes u)) else us' !! m = None.

Lemma lor_odd f : f mod 2 = 1 → Z.lor f PTE_P = f.
Proof.
  intros Hf. apply Z.bits_inj'. intros k Hk. rewrite Z.lor_spec. unfold PTE_P. destruct (decide (k = 0)) as [->|].
  - rewrite !Z.bit0_odd. change (Z.odd 1) with true. rewrite orb_true_r. rewrite Zmod_odd in Hf. by destruct (Z.odd f).
  - rewrite (Z.bits_above_log2 1) by (simpl; lia). apply orb_false_r.
Qed.

Section user.
Context {A : Type} `{PageAllocator A}.
Abbreviation vmem := (vmem A).

Lemma fresh_page R pd sp (s s1 : vmem) v p :
  vspace R pd sp s → frames s !! v = None → frames s1 = frames s → allocated ({[v]} ∪ dom (frames s)) (heap s1) →
  wp (set_frame v p) (λ _ s', vspace (<[v := p]> R) pd sp s') s1 ∧ R !! v = None.
Proof.
  intros V Hv Hf Ha. destruct (vs_adopt R pd sp s (mk_vmem (heap s1) (<[v := p]> (frames s1))) v p V Hv) as [V' HR]; [by rewrite Hf|done|].
  split; [|done]. by eapply wp_intro.
Qed.

(** ** Growing *)

Lemma alloc_loop_spec R pd oldsz newsz : 0 ≤ oldsz → oldsz ≤ newsz < KERNBASE → ∀ fuel n tb kn us us0 (s : vmem),
  vspace R pd (mk_space tb kn us) s → (npages newsz - n ≤ fuel)%nat → (npages oldsz ≤ n)%nat → (n ≤ npages newsz)%nat → grown (npages oldsz) n us0 us →
  (∀ m, (npages oldsz ≤ m < npages newsz)%nat → us0 !! m = None) →
  wp (alloc_loop fuel pd (page_at n) oldsz newsz) (λ r s', ∃ tb' us', vspace R pd (mk_space tb' kn us') s' ∧
    (r = newsz ∧ grown (npages oldsz) (npages newsz) us0 us' ∨ r = 0 ∧ us' = us0)) s.
Proof.
  intros Ho Hn. pose proof (npages_user newsz ltac:(lia)) as HU. induction fuel as [|fuel IH]; intros n tb kn us us0 s V Hf Hon HnN Hg Hfree.
  { cbn [alloc_loop]. rewrite decide_False by (rewrite npages_spec; lia). apply wp_ret. exists tb, us. split; [done|left]. split; [done|].
    by replace (npages newsz) with n by lia. }
  assert (∀ m, (n ≤ m < npages newsz)%nat → us !! m = None) as Hempty.
  { intros m Hm. specialize (Hg m). rewrite decide_False in Hg by lia. rewrite Hg. apply Hfree. lia. }
  assert (cut (npages oldsz) (npages newsz) us = us0) as Hcut.
  { apply map_eq. intros m. rewrite lookup_cut. specialize (Hg m). destruct (decide (npages oldsz ≤ m < npages newsz)%nat) as [D|D]; [symmetry; by apply Hfree|]. by rewrite decide_False in Hg by lia. }
  cbn [alloc_loop]. case_decide as Hlt; rewrite npages_spec in Hlt by lia.
  2: { apply wp_ret. exists tb, us. split; [done|left]. split; [done|]. by replace (npages newsz) with n by lia. }
  apply wp_bind. eapply wp_mono; [apply kalloc_spec, V|]. intros v s1 [[-> ->]|(Hnz&Hp&Hnone&Hfr&Ha)]; cbn beta.
  { rewrite decide_True by done. apply wp_bind. eapply wp_mono; [apply (deallocuvm_spec R pd _ s newsz oldsz V); lia|].
    intros r s2 [_ V2]. apply wp_ret. cbn [tabs kern user] in V2. rewrite Hcut in V2. eauto 8. }
  rewrite decide_False by done. destruct (fresh_page R pd _ s s1 v (Data zero_page) V Hnone Hfr Ha) as [W HR].
  apply wp_bind. eapply wp_mono; [exact W|]. intros [] s2 V2. cbn beta. apply wp_bind.
  eapply wp_mono; [apply (mappages_user R pd _ s2 n v zero_page (Z.lor PTE_W PTE_U) V2 HR Hp); [lia|by apply Hempty; lia|by vm_compute|apply length_zero_page]|].
  cbn [kern user]. intros r s3 [(->&tb'&V3)|[-> ->]]; cbn beta.
  - rewrite decide_False by lia. rewrite next_page by (pose proof (page_user n ltac:(lia)); unfold PGSIZE, KERNBASE in *; lia).
    eapply IH; [exact V3|lia|lia|lia| |done]. intros m. specialize (Hg m). destruct (decide (m = n)) as [->|Hne].
    + rewrite decide_True by lia. exists v. by rewrite lookup_insert_eq.
    + rewrite lookup_insert_ne by done. destruct (decide (npages oldsz ≤ m < n)%nat); [rewrite decide_True by lia|rewrite decide_False by lia]; done.
  - rewrite decide_True by lia. apply wp_bind. eapply wp_mono; [apply (deallocuvm_spec _ pd _ s2 newsz oldsz V2); lia|].
    intros r s4 [_ V4]. cbn [tabs kern user] in V4. rewrite Hcut in V4. apply wp_bind. eapply wp_mono; [by eapply vs_drop|].
    intros [] s5 V5. apply wp_ret. eauto 8.
Qed.

Lemma allocuvm_spec R pd tb kn us (s : vmem) oldsz newsz :
  vspace R pd (mk_space tb kn us) s → 0 ≤ oldsz ≤ newsz → (∀ m, (npages oldsz ≤ m < npages newsz)%nat → us !! m = None) →
  wp (allocuvm pd oldsz newsz) (λ r s', ∃ tb' us', vspace R pd (mk_space tb' kn us') s' ∧
    (r = newsz ∧ grown (npages oldsz) (npages newsz) us us' ∨ r = 0 ∧ us' = us)) s.
Proof.
  intros V Hsz Hfree. unfold allocuvm. case_decide as Hk; [apply wp_ret; eauto 8|]. rewrite decide_False by lia. rewrite roundup_page by lia.
  assert (npages oldsz ≤ npages newsz)%nat by (unfold npages, PGSIZE; Z.to_euclidean_division_equations; lia).
  eapply alloc_loop_spec; [lia|lia|exact V| |lia|lia| |done].
  - unfold npages, PGSIZE. Z.to_euclidean_division_equations. lia.
  - intros m. by rewrite decide_False by lia.
Qed.

(** ** Copying *)

Definition footprint (pd : Z) (sp : space) : gset Z :=
  list_to_set (pd :: (snd <$> map_to_list (tabs sp)) ++ ((λ nu, uframe nu.2) <$> map_to_list (user sp))).

Lemma elem_footprint pd sp v : v ∈ footprint pd sp ↔ owns pd sp v.
Proof.
  unfold footprint, owns. rewrite elem_of_list_to_set, elem_of_cons, elem_of_app, !list_elem_of_fmap. f_equiv. f_equiv; split.
  - intros ([i t]&->&Hi%elem_of_map_to_list). eauto.
  - intros [i Hi%elem_of_map_to_list]. by exists (i, v).
  - intros ([n u]&->&Hn%elem_of_map_to_list). eauto.
  - intros (n&u&Hn%elem_of_map_to_list&<-). by exists (n, u).
Qed.

(** An address space is the same in any memory that has its pages. *)
Lemma vs_extend R pd sp (s s' : vmem) :
  vspace R pd sp s → frames s ⊆ frames s' → allocated (dom (frames s')) (heap s') → ∃ R', vspace R' pd sp s'.
Proof.
  intros [V1 V2 V3 V4 V5 V6 V7 V8 V9] Hsub Ha. exists (filter (λ vp, vp.1 ∉ footprint pd sp) (frames s')).
  assert (∀ v p, frames s !! v = Some p → frames s' !! v = Some p) as Hk by (intros v p Hv; by eapply lookup_weaken).
  split; try done; [by apply Hk| | | |].
  - intros i t Hi. destruct (V3 i t Hi) as (?&?&?). auto.
  - intros n u Hu. destruct (V5 n u Hu) as (?&?&?&?). auto.
  - intros v Hv. rewrite map_lookup_filter. destruct (frames s' !! v); [|done]. simpl. rewrite option_guard_True; [done|]. by rewrite elem_footprint.
  - intros v Hv. rewrite map_lookup_filter. destruct (frames s' !! v); [|done]. simpl. rewrite option_guard_False; [done|]. rewrite elem_footprint. tauto.
Qed.

Lemma vs_outside R pd sp (s : vmem) : vspace R pd sp s → R ⊆ frames s.
Proof.
  intros V. apply map_subseteq_spec. intros v p Hv. rewrite (vs_rest _ _ _ _ V); [done|]. intros Ho. apply (vs_own _ _ _ _ V) in Ho. congruence.
Qed.

Section copy.
Context (R : gmap Z page) (pd : Z) (sp : space) (s0 : vmem) (V0 : vspace R pd sp s0).
Context (sz : Z) (Hsz : 0 ≤ sz ≤ KERNBASE) (Hall : ∀ m, (m < npages sz)%nat → is_Some (user sp !! m)).

(** Nothing of the copy is left. *)
Definition undone (s : vmem) : Prop := frames s = frames s0 ∧ allocated (dom (frames s0)) (heap s).

Lemma undo_copy d sp' (s : vmem) : vspace (frames s0) d sp' s → wp (freevm_pages d;; mret 0) (λ r s', r = 0 ∧ undone s') s.
Proof. intros V. apply wp_bind. eapply wp_mono; [by eapply freevm_spec|]. intros [] s' [??]. by apply wp_ret. Qed.

Lemma copy_loop_spec d : ∀ fuel n tb kn us (s : vmem),
  vspace (frames s0) d (mk_space tb kn us) s → (npages sz - n ≤ fuel)%nat → (n ≤ npages sz)%nat → copied n (user sp) us →
  wp (copy_loop fuel pd d (page_at n) sz) (λ r s', r = 0 ∧ undone s' ∨
    r = d ∧ ∃ tb' us', vspace (frames s0) d (mk_space tb' kn us') s' ∧ copied (npages sz) (user sp) us') s.
Proof.
  pose proof (npages_user sz Hsz) as HU. induction fuel as [|fuel IH]; intros n tb kn us s V Hf HnN Hc.
  { cbn [copy_loop]. rewrite decide_False by (rewrite npages_spec; lia). apply wp_ret. replace (npages sz) with n by lia. eauto 8. }
  cbn [copy_loop]. case_decide as Hlt; rewrite npages_spec in Hlt by lia; [|apply wp_ret; replace (npages sz) with n by lia; eauto 8].
  destruct (vs_extend R pd sp s0 s V0 (vs_outside _ _ _ _ V) ltac:(apply V)) as [R' VP]. destruct (Hall n Hlt) as [u Hu].
  destruct (vs_user _ _ _ _ VP n u Hu) as (Hn&[t Ht]&Hfu&[Hlen Hfl Hodd]).
  apply wp_bind. eapply wp_intro; [eapply walk_spec; [exact VP|by apply page_range, upages_small]|]. cbn beta. rewrite vpn_page, Ht. cbn [fmap option_fmap option_map].
  apply wp_bind. eapply wp_intro; [by eapply read_entry|]. cbn beta. destruct (entry_user R' pd sp s VP n u Hu) as (Ee&Hpu&->). cbn [negb].
  destruct (entry_page _ _ Hpu Hfl) as [E1 _]. destruct (entry_addr (V2P (uframe u)) (uflags u)) as [_ E2]; [apply (page_phys _ Hpu)|done|].
  rewrite Ee, E1, E2. apply wp_bind. eapply wp_mono; [apply kalloc_spec, V|]. intros v s1 [[-> ->]|(Hnz&Hp&Hnone&Hfr&Ha)]; cbn beta.
  { rewrite decide_True by done. eapply wp_mono; [by eapply undo_copy|]. auto. }
  rewrite decide_False by done. apply wp_bind. eapply wp_intro; [unfold read_data; by rewrite Hfr, Hfu|]. cbn beta.
  destruct (fresh_page _ d _ s s1 v (Data (ubytes u)) V Hnone Hfr Ha) as [W HR].
  apply wp_bind. eapply wp_mono; [exact W|]. intros [] s2 V2. cbn beta. apply wp_bind. eapply wp_mono.
  { apply (mappages_user _ d _ s2 n v (ubytes u) (uflags u) V2 HR Hp); [done| |done|done]. specialize (Hc n). by rewrite decide_False in Hc by lia. }
  cbn [kern user]. intros r s3 [(->&tb'&V3)|[-> ->]]; cbn beta.
  - rewrite decide_False by lia. rewrite next_page by (pose proof (page_user n Hn); unfold PGSIZE, KERNBASE in *; lia).
    eapply IH; [exact V3|lia|lia|]. intros m. specialize (Hc m). destruct (decide (m = n)) as [->|Hne].
    + rewrite decide_True, lookup_insert_eq by lia. exists u, v. by rewrite lor_odd.
    + rewrite lookup_insert_ne by done. destruct (decide (m < n)%nat); [rewrite decide_True by lia|rewrite decide_False by lia]; done.
  - rewrite decide_True by lia. apply wp_bind. eapply wp_mono; [by eapply vs_drop|]. intros [] s4 V4. cbn beta.
    eapply wp_mono; [by eapply undo_copy|]. auto.
Qed.

(** [copyuvm]: the child's memory, in pages of its own, or every page given back;
    the pages of the parent, and all others, are as they were. *)
Lemma copyuvm_spec data : data_ok data →
  wp (copyuvm data pd sz) (λ r s', r = 0 ∧ undone s' ∨
    r ≠ 0 ∧ ∃ tb kn us, vspace (frames s0) r (mk_space tb kn us) s' ∧ (∀ m, kn !! m = kernel_entry data m) ∧ copied (npages sz) (user sp) us) s0.
Proof.
  intros Hd. unfold copyuvm. apply wp_bind. eapply wp_mono; [apply setupkvm_spec; [apply V0|done]|].
  intros d s [(->&?&?)|(Hnz&tb&kn&V&Hk)]; cbn beta; [rewrite decide_True by done; apply wp_ret; by left|]. rewrite decide_False by done.
  eapply wp_mono; [apply (copy_loop_spec d _ 0 tb kn ∅ s V)|].
  - unfold npages, PGSIZE. Z.to_euclidean_division_equations. lia.
  - lia.
  - intros m. by rewrite decide_False, lookup_empty by lia.
  - intros r s' [?|(->&tb'&us'&V'&Hc)]; [by left|right]. split; [done|]. eauto 8.
Qed.

End copy.

(** ** Writing to user memory *)

(** [b] written at address [va]; the pages and their flags stay. *)
Record written (va : Z) (b : list byte) (sp sp' : space) : Prop := {
  wr_tabs : tabs sp' = tabs sp;
  wr_kern : kern sp' = kern sp;
  wr_pages : ∀ m, (λ u, (uframe u, uflags u)) <$> user sp' !! m = (λ u, (uframe u, uflags u)) <$> user sp !! m;
  wr_bytes : ∀ a, 0 ≤ a → mem_at sp' a = if decide (va ≤ a < va + Z.of_nat (length b)) then b !! Z.to_nat (a - va) else mem_at sp a;
}.

Lemma written_nil va sp : written va [] sp sp.
Proof. split; try done. intros a _. rewrite decide_False; [done|simpl; lia]. Qed.

Lemma written_app va b1 b2 sp sp1 sp2 :
  written va b1 sp sp1 → written (va + Z.of_nat (length b1)) b2 sp1 sp2 → written va (b1 ++ b2) sp sp2.
Proof.
  intros [A1 A2 A3 A4] [B1 B2 B3 B4]. split; [congruence|congruence|congruence|]. intros a Ha. rewrite B4, A4, length_app by done.
  destruct (decide (va + Z.of_nat (length b1) ≤ a < va + Z.of_nat (length b1) + Z.of_nat (length b2))) as [D|D].
  - rewrite decide_True by lia. rewrite lookup_app_r by lia. f_equal. lia.
  - destruct (decide (va ≤ a < va + Z.of_nat (length b1))) as [E|E]; [|by rewrite decide_False by lia].
    rewrite decide_True by lia. rewrite lookup_app_l by lia. done.
Qed.

Lemma written_page sp n u off b :
  user sp !! n = Some u → length (ubytes u) = Z.to_nat PGSIZE → Z.of_nat off + Z.of_nat (length b) ≤ PGSIZE →
  written (page_at n + Z.of_nat off) b sp (mk_space (tabs sp) (kern sp) (<[n := mk_uent (uframe u) (uflags u) (patch off b (ubytes u))]> (user sp))).
Proof.
  intros Hu Hl Hb. split; cbn [tabs kern user]; try done.
  - intros m. destruct (decide (n = m)) as [<-|]; [by rewrite lookup_insert_eq, Hu|by rewrite lookup_insert_ne].
  - intros a Ha. unfold mem_at. cbn [user]. assert (page_at n ≤ a < page_at n + PGSIZE ↔ vpn a = n) as Hpage by (unfold vpn, PGSIZE; split; intros; Z.to_euclidean_division_equations; lia).
    destruct (decide (n = vpn a)) as [E|E].
    + rewrite E, lookup_insert_eq, <- E, Hu. simpl. rewrite lookup_patch by lia. assert (a mod PGSIZE = a - page_at n) as Em by (symmetry in E; apply Hpage in E; unfold PGSIZE in *; Z.to_euclidean_division_equations; lia).
      rewrite Em. symmetry in E. apply Hpage in E. destruct (decide (page_at n + Z.of_nat off ≤ a < page_at n + Z.of_nat off + Z.of_nat (length b))) as [D|D].
      * rewrite decide_True by lia. f_equal. lia.
      * rewrite decide_False by lia. done.
    + rewrite lookup_insert_ne by done. rewrite decide_False; [done|]. intros D. apply E. symmetry. apply Hpage. lia.
Qed.

(** The user may use the page. *)
Definition accessible (sp : space) (n : nat) : bool := match user sp !! n with Some u => has PTE_U (uflags u) | None => false end.

Lemma accessible_written va b sp sp' n : written va b sp sp' → accessible sp' n = accessible sp n.
Proof. intros [_ _ Hp _]. specialize (Hp n). unfold accessible. destruct (user sp' !! n), (user sp !! n); cbn in Hp; congruence. Qed.

Lemma has_user pa f : pa mod PGSIZE = 0 → 0 ≤ f < PGSIZE → has PTE_U (pa + f) = has PTE_U f.
Proof.
  intros Hm Hf. rewrite <- lor_flags by done. unfold has. rewrite Z.land_lor_distr_l.
  assert (Z.land pa PTE_U = 0) as ->; [|done]. change PTE_U with (Z.land 4095 4). rewrite Z.land_assoc. change 4095 with (Z.ones 12).
  rewrite Z.land_ones by lia. change (2 ^ 12) with PGSIZE. by rewrite Hm.
Qed.

Lemma uva2ka_spec R pd sp (s : vmem) n :
  vspace R pd sp s → (n < UPAGES)%nat → is_Some (tabs sp !! (n / NPDENTRIES)%nat) →
  uva2ka pd (page_at n) s = Some (if accessible sp n then uframe <$> user sp !! n else None, s).
Proof.
  intros V Hn [t Ht]. unfold uva2ka. erewrite bind_run by (by eapply walk_spec, page_range, upages_small). rewrite vpn_page, Ht. cbn [fmap option_fmap option_map].
  erewrite bind_run by (by eapply read_entry). unfold accessible. destruct (user sp !! n) as [u|] eqn:Hu.
  - destruct (entry_user R pd sp s V n u Hu) as (Ee&Hpu&->). destruct (vs_user _ _ _ _ V n u Hu) as (_&_&_&[_ Hfl _]). cbn [negb].
    destruct (entry_page _ _ Hpu Hfl) as [E1 _]. rewrite Ee, E1, has_user by (done || apply (page_phys _ Hpu)). by destruct (has PTE_U (uflags u)).
  - rewrite entry_absent; [done|done|]. destruct (kern sp !! n) eqn:E; [destruct (vs_kern _ _ _ _ V n _ E); lia|done].
Qed.

(** Bytes written into a page of user memory through its kernel address. *)
Lemma write_page_spec {B} R pd sp (s : vmem) n u off b (K : ST vmem B) (Q : B → vmem → Prop) :
  vspace R pd sp s → user sp !! n = Some u → Z.of_nat off + Z.of_nat (length b) ≤ PGSIZE →
  (∀ sp' s', vspace R pd sp' s' → written (page_at n + Z.of_nat off) b sp sp' → wp K Q s') →
  wp (old ← read_data (uframe u); set_frame (uframe u) (Data (patch off b old));; K) Q s.
Proof.
  intros V Hu Hb HK. destruct (vs_user _ _ _ _ V n u Hu) as (_&[t Ht]&Hfu&[Hlen _ _]). apply wp_bind. eapply wp_intro; [unfold read_data; by rewrite Hfu|].
  cbn beta. apply wp_bind. eapply wp_mono; [by eapply rebytes_spec; [exact Ht|exact V|exact Hu|rewrite length_patch; lia]|]. intros [] s1 V1. cbn beta in V1 |- *.
  eapply HK; [exact V1|]. by apply written_page.
Qed.

Lemma copyout_unfold fuel pd va buf n off cnt :
  buf ≠ [] → va = page_at n + Z.of_nat off → Z.of_nat off < PGSIZE → cnt = Nat.min (Z.to_nat PGSIZE - off) (length buf) →
  copyout_loop (A := A) (S fuel) pd va buf = (pa0 ← uva2ka pd (page_at n); match pa0 with None => mret (-1) | Some ka =>
    old ← read_data ka; set_frame ka (Data (patch off (take cnt buf) old));; copyout_loop fuel pd (u32 (page_at n + PGSIZE)) (drop cnt buf) end).
Proof.
  intros Hne Eva Hoff Hc. assert (PGROUNDDOWN va = page_at n) as Er by (rewrite Eva; apply rounddown_page; lia).
  assert (length (take cnt buf) = cnt) as Hl by (rewrite length_take; lia). unfold patch. rewrite Hl. destruct buf; [done|]. cbn [copyout_loop]. rewrite Er.
  replace (Z.to_nat (va - page_at n)) with off by lia. replace (Z.to_nat (_ `min` _)) with cnt by lia. done.
Qed.

Lemma copyout_loop_spec R pd fuel : ∀ va buf sp (s : vmem),
  vspace R pd sp s → 0 ≤ va → va + Z.of_nat (length buf) ≤ KERNBASE → (length buf ≤ fuel)%nat →
  (∀ a, va ≤ a < va + Z.of_nat (length buf) → is_Some (tabs sp !! (vpn a / NPDENTRIES)%nat)) →
  wp (copyout_loop fuel pd va buf) (λ r s', ∃ k sp', (k ≤ length buf)%nat ∧ vspace R pd sp' s' ∧ written va (take k buf) sp sp' ∧
    (∀ a, va ≤ a < va + Z.of_nat k → accessible sp (vpn a) = true) ∧
    (r = 0 ∧ k = length buf ∨ r = -1 ∧ (k < length buf)%nat ∧ accessible sp (vpn (va + Z.of_nat k)) = false)) s.
Proof.
  induction fuel as [|fuel IH]; intros va buf sp s V Hva Hend Hf Htab; (destruct (decide (buf = [])) as [->|Hne];
    [apply wp_ret; exists 0%nat, sp; split_and!; [simpl; lia|done|apply written_nil|lia|by left]|]).
  { destruct buf; [done|simpl in Hf; lia]. }
  set (n := vpn va). set (off := Z.to_nat (va mod PGSIZE)). assert (va = page_at n + Z.of_nat off ∧ Z.of_nat off < PGSIZE) as [Eva Hoff].
  { unfold n, off, vpn, PGSIZE. Z.to_euclidean_division_equations. lia. }
  assert (0 < length buf)%nat as Hpos by (destruct buf; [done|simpl; lia]).
  assert (n < UPAGES)%nat as Hn by (unfold UPAGES, KERNBASE, PGSIZE in *; change (2147483648 / 4096) with 524288; lia).
  remember (Nat.min (Z.to_nat PGSIZE - off) (length buf)) as cnt eqn:Ec. rewrite (copyout_unfold fuel pd va buf n off cnt) by done.
  apply wp_bind. eapply wp_intro; [eapply uva2ka_spec; [exact V|done|apply Htab; lia]|]. cbn beta. destruct (accessible sp n) eqn:Hacc.
  2: { apply wp_ret. exists 0%nat, sp. split_and!; [lia|done|apply written_nil|lia|right]. split_and!; [done|lia|]. by rewrite Z.add_0_r. }
  assert (∃ u, user sp !! n = Some u) as [u Hu] by (unfold accessible in Hacc; destruct (user sp !! n); [eauto|done]). rewrite Hu. cbn [fmap option_fmap option_map].
  assert (length (take cnt buf) = cnt) as Hcnt by (rewrite length_take; lia). eapply (write_page_spec R pd sp s n u off); [exact V|done|lia|].
  rewrite <- Eva. intros sp1 s1 V1 W1.
  assert (∀ a, va ≤ a < va + Z.of_nat cnt → accessible sp (vpn a) = true) as Hacc1.
  { intros a Ha. assert (vpn a = n) as ->; [|done]. unfold vpn, PGSIZE in *. Z.to_euclidean_division_equations. lia. } destruct (decide (drop cnt buf = [])) as [Ed|Ed].
  { rewrite Ed. assert (cnt = length buf) as E by (apply (f_equal length) in Ed; rewrite length_drop in Ed; simpl in Ed; lia).
    destruct fuel; cbn [copyout_loop]; apply wp_ret; exists cnt, sp1; (split_and!; [lia|done|by rewrite E, take_ge in *|done|by left]). }
  assert (cnt < length buf)%nat as Hlt by (destruct (decide (cnt < length buf)%nat); [done|]; destruct Ed; apply drop_ge; lia).
  assert (page_at n + PGSIZE = va + Z.of_nat cnt) as En by lia. rewrite u32_id by (unfold KERNBASE in *; lia). rewrite En.
  eapply wp_mono; [apply IH; [exact V1|lia|rewrite length_drop; lia|rewrite length_drop; lia|]|].
  { intros a Ha. rewrite (wr_tabs _ _ _ _ W1). apply Htab. rewrite length_drop in Ha. lia. }
  intros r s2 (k&sp2&Hk&V2&W2&Ha2&Hr). rewrite length_drop in *. exists (cnt + k)%nat, sp2. split_and!; [lia|done| | |].
  - rewrite <- (take_take_drop buf cnt k). eapply written_app; [exact W1|]. by rewrite Hcnt.
  - intros a Ha. destruct (decide (a < va + Z.of_nat cnt)); [apply Hacc1; lia|]. rewrite <- (accessible_written _ _ _ _ _ W1). apply Ha2. lia.
  - destruct Hr as [[-> ->]|(->&Hk'&Ha)]; [left; split; [done|lia]|right]. rewrite (accessible_written _ _ _ _ _ W1) in Ha. split_and!; [done|lia|].
    rewrite <- Ha. do 2 f_equal. lia.
Qed.

(** Nothing is copied to the kernel's addresses. *)
Lemma copyout_kernel R pd sp (s : vmem) fuel va buf pa f :
  vspace R pd sp s → 0 ≤ va < 2 ^ 32 → buf ≠ [] → kern sp !! vpn va = Some (pa + f) → pa mod PGSIZE = 0 → 0 ≤ f < 4 →
  copyout_loop (S fuel) pd va buf s = Some (-1, s).
Proof.
  intros V Hva Hne Hk Hpa Hf. destruct (vs_kern _ _ _ _ V _ _ Hk) as (Hn&[t Ht]&Hodd).
  assert (PGROUNDDOWN va = page_at (vpn va)) as Er by (rewrite rounddown_mod; unfold vpn, PGSIZE; Z.to_euclidean_division_equations; lia).
  assert (0 ≤ page_at (vpn va) < 2 ^ 32) as Hr by (unfold vpn, PGSIZE; Z.to_euclidean_division_equations; lia).
  assert (entry sp (vpn va) = pa + f) as Ee.
  { unfold entry. rewrite Hk. destruct (user sp !! vpn va) eqn:Hu; [destruct (vs_user _ _ _ _ V _ _ Hu); lia|done]. }
  assert (uva2ka pd (page_at (vpn va)) s = Some (None, s)) as E.
  { unfold uva2ka. erewrite bind_run by (by eapply walk_spec). rewrite vpn_page, Ht. cbn [fmap option_fmap option_map].
    erewrite bind_run by (by eapply read_entry). rewrite Ee. destruct (negb (has PTE_P (pa + f))); [done|].
    rewrite has_user by (done || unfold PGSIZE; lia). assert (has PTE_U f = false) as ->; [|done].
    assert (f = 0 ∨ f = 1 ∨ f = 2 ∨ f = 3) as [-> |[-> |[-> | ->]]] by lia; done. }
  destruct buf; [done|]. cbn [copyout_loop]. rewrite Er. by erewrite bind_run by exact E.
Qed.

Lemma ldiff_le f m : 0 ≤ f → Z.ldiff f m ≤ f.
Proof.
  intros Hf. assert (Z.land (Z.ldiff f m) (Z.land f m) = 0) as E by (by rewrite (Z.land_comm f), Z.land_assoc, Z.land_ldiff, Z.land_0_l).
  apply Z.add_nocarry_lor in E. rewrite Z.lor_ldiff_and in E. assert (0 ≤ Z.land f m) by (apply Z.land_nonneg; lia). lia.
Qed.

(** [clearpteu]: the user may no longer use the page. *)
Lemma clearpteu_spec R pd sp (s : vmem) n u :
  vspace R pd sp s → user sp !! n = Some u →
  wp (clearpteu pd (page_at n)) (λ _ s',
    vspace R pd (mk_space (tabs sp) (kern sp) (<[n := mk_uent (uframe u) (Z.land (uflags u) (Z.lnot PTE_U)) (ubytes u)]> (user sp))) s') s.
Proof.
  intros V Hu. destruct (vs_user _ _ _ _ V n u Hu) as (Hn&[t Ht]&_&[_ Hfl Hodd]). destruct (entry_user R pd sp s V n u Hu) as (Ee&Hpu&_).
  unfold clearpteu. apply wp_bind. eapply wp_intro; [eapply walk_spec; [exact V|by apply page_range, upages_small]|]. cbn beta. rewrite vpn_page, Ht.
  cbn [fmap option_fmap option_map]. apply wp_bind. eapply wp_intro; [by eapply read_entry|]. cbn beta. rewrite Ee.
  destruct (page_phys _ Hpu) as (_&Hm&_&_).
  assert (0 ≤ Z.land (uflags u) (Z.lnot PTE_U) < PGSIZE ∧ Z.land (uflags u) (Z.lnot PTE_U) mod 2 = 1) as [Hr Ho].
  { rewrite <- Z.ldiff_land. split.
    - split; [apply Z.ldiff_nonneg; lia|]. pose proof (ldiff_le (uflags u) PTE_U ltac:(lia)). lia.
    - rewrite Zmod_odd in Hodd |- *. rewrite <- Z.bit0_odd, Z.ldiff_spec, Z.bit0_odd. change (Z.testbit PTE_U 0) with false. by destruct (Z.odd (uflags u)). }
  assert (Z.land (V2P (uframe u) + uflags u) (Z.lnot PTE_U) = V2P (uframe u) + Z.land (uflags u) (Z.lnot PTE_U)) as ->; [|by eapply reflag_spec].
  rewrite <- !lor_flags by done. rewrite Z.land_lor_distr_l. f_equal.
  apply Z.bits_inj'. intros k Hk. rewrite Z.land_spec, Z.lnot_spec by done. destruct (decide (k = 2)) as [->|Hne].
  - rewrite andb_false_r. symmetry. rewrite (Z.div_mod (V2P (uframe u)) PGSIZE), Hm, Z.add_0_r, Z.mul_comm by done. change PGSIZE with (2 ^ 12).
    rewrite Z.mul_pow2_bits_low by lia. done.
  - unfold PTE_U. change 4 with (2 ^ 2). rewrite Z.pow2_bits_false by lia. apply andb_true_r.
Qed.

(** ** Loading a program *)

Lemma file_read_eq content off n :
  Z.of_nat (length content) < 2 ^ 31 → 0 ≤ off < 2 ^ 32 → 0 ≤ n < 2 ^ 31 → file_read content off n = take (Z.to_nat n) (drop (Z.to_nat off) content).
Proof.
  intros Hc Ho Hn. unfold file_read. change (2 ^ 32) with 4294967296 in *. change (2 ^ 31) with 2147483648 in *. case_decide as D; [|done].
  rewrite drop_ge, take_nil; [done|]. destruct D as [D|D]; [lia|]. destruct (decide (Z.of_nat (length content) < off)); [lia|]. rewrite u32_id in D by lia. lia.
Qed.

Section load.
Context (R : gmap Z page) (pd : Z) (sp0 : space) (a0 : nat) (content : list byte) (offset sz : Z).
Context (Hc : Z.of_nat (length content) < 2 ^ 31) (Hoff : 0 ≤ offset < 2 ^ 32) (Hsz : 0 ≤ sz) (Hend : page_at a0 + sz ≤ KERNBASE).
Context (Hpages : ∀ m, (m < npages sz)%nat → is_Some (user sp0 !! (a0 + m)%nat)).

(** What is read of the file up to [i]. *)
Definition loaded (i : Z) : list byte := take (Z.to_nat (Z.min i sz)) (drop (Z.to_nat offset) content).

Lemma loaded_step i : 0 ≤ i < sz → Z.of_nat (length (loaded i)) = i →
  loaded i ++ file_read content (u32 (offset + i)) (if decide (sz - i < PGSIZE) then sz - i else PGSIZE) = loaded (i + PGSIZE).
Proof.
  intros Hi Hl. change (2 ^ 32) with 4294967296 in *. change (2 ^ 31) with 2147483648 in *. assert (offset + i < 4294967296) as Hlt.
  { unfold loaded in Hl. rewrite length_take, length_drop in Hl. lia. }
  rewrite u32_id, file_read_eq by (try case_decide; unfold PGSIZE in *; lia). unfold loaded.
  replace (Z.to_nat (offset + i)) with (Z.to_nat offset + Z.to_nat i)%nat by lia. rewrite <- drop_drop, Z.min_l by lia.
  rewrite take_take_drop. f_equal. unfold PGSIZE in *. case_decide; lia.
Qed.

Lemma load_loop_spec fuel : ∀ k sp (s : vmem),
  vspace R pd sp s → written (page_at a0) (loaded (page_at k)) sp0 sp → Z.of_nat (length (loaded (page_at k))) = Z.min (page_at k) sz →
  (npages sz - k ≤ fuel)%nat →
  wp (load_loop fuel pd (page_at a0) (file_read content) offset sz (page_at k)) (λ r s', ∃ i sp', 0 ≤ i ∧ vspace R pd sp' s' ∧
    written (page_at a0) (loaded i) sp0 sp' ∧
    (r = 0 ∧ sz ≤ i ∧ Z.of_nat (length (loaded i)) = sz ∨ r = -1 ∧ Z.of_nat (length (loaded i)) < Z.min i sz)) s.
Proof.
  assert (∀ k, (k < npages sz)%nat → (a0 + k < UPAGES)%nat) as HU.
  { intros k Hk. rewrite <- npages_spec in Hk by done. unfold UPAGES, KERNBASE, PGSIZE in *. change (2147483648 / 4096) with 524288. lia. }
  induction fuel as [|fuel IH]; intros k sp s V W Hl Hf.
  { cbn [load_loop]. assert (¬ page_at k < sz) by (rewrite npages_spec; lia). rewrite decide_False by done. apply wp_ret. exists (page_at k), sp.
    split_and!; [unfold PGSIZE; lia|done|done|left; split_and!; lia]. }
  cbn [load_loop]. destruct (decide (page_at k < sz)) as [Hlt|Hge].
  2: { apply wp_ret. exists (page_at k), sp. split_and!; [unfold PGSIZE; lia|done|done|left; split_and!; lia]. }
  pose proof (proj1 (npages_spec sz k Hsz) Hlt) as Hk. specialize (HU k Hk). destruct (page_user _ HU) as [_ Hpu].
  assert (∃ u, user sp !! (a0 + k)%nat = Some u) as [u Hu].
  { destruct (Hpages k Hk) as [w Hw]. pose proof (wr_pages _ _ _ _ W (a0 + k)%nat) as E. rewrite Hw in E. destruct (user sp !! (a0 + k)%nat); [eauto|done]. }
  destruct (vs_user _ _ _ _ V _ u Hu) as (_&[t Ht]&Hfu&[Hlen Hfl Hodd]).
  assert (u32 (page_at a0 + page_at k) = page_at (a0 + k)) as -> by (rewrite u32_id; unfold PGSIZE, KERNBASE in *; lia).
  apply wp_bind. eapply wp_intro; [eapply walk_spec; [exact V|by apply page_range, upages_small]|]. cbn beta. rewrite vpn_page, Ht. cbn [fmap option_fmap option_map].
  apply wp_bind. eapply wp_intro; [by eapply read_entry|]. cbn beta. destruct (entry_user R pd sp s V _ u Hu) as (Ee&Hpa&_).
  destruct (entry_page _ _ Hpa Hfl) as [E1 _]. rewrite Ee, E1. cbv zeta.
  pose proof (loaded_step (page_at k) ltac:(unfold PGSIZE in *; lia) ltac:(lia)) as Hstep.
  set (n := if decide (sz - page_at k < PGSIZE) then sz - page_at k else PGSIZE) in *. set (bytes := file_read content (u32 (offset + page_at k)) n) in *.
  assert (Z.of_nat (length bytes) ≤ n ∧ n ≤ PGSIZE ∧ n = Z.min (page_at (S k)) sz - page_at k) as (Hb&Hn&En).
  { pose proof (length_file_read content (u32 (offset + page_at k)) n). unfold bytes, n. unfold n in *. clear - Hlt H0. unfold PGSIZE in *. destruct (decide (sz - Z.of_nat k * 4096 < 4096)); lia. }
  apply (write_page_spec R pd sp s (a0 + k) u 0); [exact V|done|lia|]. intros sp1 s1 V1 W1.
  assert (written (page_at a0) (loaded (page_at (S k))) sp0 sp1) as W2.
  { replace (page_at (S k)) with (page_at k + PGSIZE) by (unfold PGSIZE; lia). rewrite <- Hstep. eapply written_app; [exact W|].
    replace (page_at a0 + Z.of_nat (length (loaded (page_at k)))) with (page_at (a0 + k) + Z.of_nat 0) by (rewrite Hl, Z.min_l by lia; unfold PGSIZE; lia). done. }
  assert (length (loaded (page_at (S k))) = length (loaded (page_at k)) + length bytes)%nat as Hl2.
  { replace (page_at (S k)) with (page_at k + PGSIZE) by (unfold PGSIZE; lia). by rewrite <- Hstep, length_app. }
  destruct (decide (Z.of_nat (length bytes) ≠ n)) as [Hshort|Hfull].
  - apply wp_ret. exists (page_at (S k)), sp1. split_and!; [unfold PGSIZE; lia|done|done|right]. split; [done|lia].
  - apply dec_stable in Hfull. rewrite next_page by (unfold PGSIZE, KERNBASE in *; lia). apply (IH _ sp1); [done|done|lia|lia].
Qed.

End load.

(** [loaduvm] puts the bytes of the file into memory, or fails when the file is too
    short. *)
Lemma loaduvm_spec R pd sp (s : vmem) addr content offset sz :
  vspace R pd sp s → addr mod PGSIZE = 0 → 0 ≤ addr → Z.of_nat (length content) < 2 ^ 31 → 0 ≤ offset < 2 ^ 32 → 0 ≤ sz → addr + sz ≤ KERNBASE →
  (∀ m, page_at m < addr + sz → is_Some (user sp !! m)) →
  wp (loaduvm pd addr (file_read content) offset sz) (λ r s', ∃ b sp', vspace R pd sp' s' ∧ written addr b sp sp' ∧ Z.of_nat (length b) ≤ sz ∧
    (r = 0 ∧ Z.of_nat (length b) = sz ∧ b = take (Z.to_nat sz) (drop (Z.to_nat offset) content) ∨
     r = -1 ∧ 0 < sz ∧ Z.of_nat (length content) < offset + sz)) s.
Proof.
  intros V Ha Ha0 Hc Ho Hsz Hend Hpages. unfold loaduvm. rewrite decide_False by lia.
  assert (∃ n, addr = page_at n) as [n ->] by (exists (Z.to_nat (addr / PGSIZE)); unfold PGSIZE in *; Z.to_euclidean_division_equations; lia).
  eapply wp_mono; [apply (load_loop_spec R pd sp n content offset sz Hc Ho Hsz Hend) with (k := 0%nat) (sp := sp); [|exact V| | |]|].
  - intros m Hm. apply Hpages. rewrite <- npages_spec in Hm by done. unfold PGSIZE in *. lia.
  - unfold loaded. replace (Z.to_nat (page_at 0 `min` sz)) with 0%nat by lia. rewrite take_0. apply written_nil.
  - unfold loaded. rewrite length_take. lia.
  - unfold npages, PGSIZE. Z.to_euclidean_division_equations. lia.
  - unfold loaded. intros r s' (i&sp'&Hi&V'&W&Hr). eexists _, sp'. split_and!; [done|exact W|rewrite length_take; lia|].
    destruct Hr as [(->&Hi2&Hl)|(->&Hl)]; [left|right; split; [done|]; split; [lia|]].
    + rewrite Z.min_r in * by lia. done.
    + rewrite length_take, length_drop in Hl. lia.
Qed.

End user.
