(* ===== verification/XvExec.v ===== *)
(** The loading part of [exec] of xv6 (exec.c): from the file of a program and
    its arguments to a new address space with the program, its stack and the
    arguments on it. What follows, the commit to the new image, is [exec] of
    [XvProc]. *)

From stdpp Require Import base option list numbers gmap sets.
From coqutil Require Import Datatypes.RecordSettersUsingExistingGetters.
From Stdlib Require Import Strings.Byte ZArith Lia.
From S2P Require Import Prelude CString XvProc XvKalloc XvPage XvPageInv XvPageOps XvPageUser.
Local Open Scope Z_scope.

(** * Words in bytes *)

(** A little-endian number, and the four bytes of one. *)
Fixpoint le_num (l : list byte) : Z := match l with [] => 0 | b :: l => Z.of_N (Byte.to_N b) + 256 * le_num l end.
Definition byte_of (z : Z) : byte := default NUL (Byte.of_N (Z.to_N (z mod 256))).
Definition le32 (z : Z) : list byte := [byte_of z; byte_of (Z.shiftr z 8); byte_of (Z.shiftr z 16); byte_of (Z.shiftr z 24)].

(** The field of [n] bytes at offset [off] of a structure. *)
Definition field (off n : nat) (l : list byte) : Z := le_num (take n (drop off l)).

Definition ELF_MAGIC : Z := 1179403647.
Definition ELF_PROG_LOAD : Z := 1.
Definition MAXARG : Z := 32.

(** [struct elfhdr] and [struct proghdr]. *)
Definition sizeof_elfhdr : Z := 52.
Definition elf_magic : list byte → Z := field 0 4.
Definition elf_entry : list byte → Z := field 24 4.
Definition elf_phoff : list byte → Z := field 28 4.
Definition elf_phnum : list byte → Z := field 44 2.
Definition sizeof_proghdr : Z := 32.
Definition ph_type : list byte → Z := field 0 4.
Definition ph_off : list byte → Z := field 4 4.
Definition ph_vaddr : list byte → Z := field 8 4.
Definition ph_filesz : list byte → Z := field 16 4.
Definition ph_memsz : list byte → Z := field 20 4.

(** * The loader *)

(** The calls of [exec] to the file system. *)
Inductive fs_call := Begin_op | End_op | Ilock | Iunlockput.

(** The part of the path after the last slash. *)
Fixpoint last_from (s last : cstr) : cstr :=
  match s with [] => last | c :: s => last_from s (if decide (c = SLASH) then s else last) end.

Section exec.
Context {A : Type} `{PageAllocator A}.

Record xst := mk_xst { vm : vmem A; calls : list fs_call }.
Abbreviation M := (ST xst).

Definition on_vm {B} (m : ST (vmem A) B) : M B := λ s, '(a, v) ← m (vm s); Some (a, mk_xst v (calls s)).
Definition fs (c : fs_call) : M () := λ s, Some ((), mk_xst (vm s) (calls s ++ [c])).

(** The loop over the program headers, with [n] of them left. *)
Fixpoint load_segments (ip : list byte) (pgdir : Z) (n : nat) (off sz : Z) : ST (vmem A) (option Z) :=
  match n with
  | O => mret (Some sz)
  | S n =>
      let ph := file_read ip off sizeof_proghdr in
      let next := u32 (off + sizeof_proghdr) in
      if decide (Z.of_nat (length ph) ≠ sizeof_proghdr) then mret None
      else if decide (ph_type ph ≠ ELF_PROG_LOAD) then load_segments ip pgdir n next sz
      else if decide (ph_memsz ph < ph_filesz ph) then mret None
      else if decide (u32 (ph_vaddr ph + ph_memsz ph) < ph_vaddr ph) then mret None
      else
        sz ← allocuvm pgdir sz (u32 (ph_vaddr ph + ph_memsz ph));
        if decide (sz = 0) then mret None
        else if decide (ph_vaddr ph mod PGSIZE ≠ 0) then mret None
        else
          r ← loaduvm pgdir (ph_vaddr ph) (file_read ip) (ph_off ph) (ph_filesz ph);
          if decide (r < 0) then mret None else load_segments ip pgdir n next sz
  end.

(** The loop that pushes the arguments, with the addresses so far. *)
Fixpoint push_args (pgdir : Z) (argv : list cstr) (sp : Z) (ptrs : list Z) : ST (vmem A) (option (Z * list Z)) :=
  match argv with
  | [] => mret (Some (sp, ptrs))
  | arg :: argv =>
      if decide (MAXARG ≤ Z.of_nat (length ptrs)) then mret None
      else
        let sp := Z.land (u32 (sp - (Z.of_nat (length arg) + 1))) (Z.lnot 3) in
        r ← copyout pgdir sp (arg ++ [NUL]);
        if decide (r < 0) then mret None else push_args pgdir argv sp (ptrs ++ [sp])
  end.

(** The label [bad]. *)
Definition bad (pgdir : Z) (ip : bool) : M (option image) :=
  (if decide (pgdir ≠ 0) then on_vm (freevm_pages pgdir) else mret ());;
  (if ip then fs Iunlockput;; fs End_op else mret ());;
  mret None.

(** From the stack on. *)
Definition setup_stack (pgdir entry sz : Z) (path : cstr) (argv : list cstr) : M (option image) :=
  let sz := PGROUNDUP sz in
  sz ← on_vm (allocuvm pgdir sz (u32 (sz + 2 * PGSIZE)));
  if decide (sz = 0) then bad pgdir false
  else
    on_vm (clearpteu pgdir (u32 (sz - 2 * PGSIZE)));;
    r ← on_vm (push_args pgdir argv sz []);
    match r with
    | None => bad pgdir false
    | Some (sp, ptrs) =>
        let argc := Z.of_nat (length ptrs) in
        let ustack := [4294967295; argc; u32 (sp - (argc + 1) * 4)] ++ ptrs ++ [0] in
        let sp := u32 (sp - (3 + argc + 1) * 4) in
        r ← on_vm (copyout pgdir sp (concat (le32 <$> ustack)));
        if decide (r < 0) then bad pgdir false
        else mret (Some (mk_image pgdir sz entry sp (last_from path path)))
    end.

(** [namei] is the file a path names; [data] is where the linker puts the kernel's
    data. *)
Definition exec_image (namei : cstr → option (list byte)) (data : Z) (path : cstr) (argv : list cstr) : M (option image) :=
  fs Begin_op;;
  match namei path with
  | None => fs End_op;; mret None
  | Some ip =>
      fs Ilock;;
      let elf := file_read ip 0 sizeof_elfhdr in
      if decide (Z.of_nat (length elf) ≠ sizeof_elfhdr) then bad 0 true
      else if decide (elf_magic elf ≠ ELF_MAGIC) then bad 0 true
      else
        pgdir ← on_vm (setupkvm data);
        if decide (pgdir = 0) then bad 0 true
        else
          r ← on_vm (load_segments ip pgdir (Z.to_nat (elf_phnum elf)) (elf_phoff elf) 0);
          match r with
          | None => bad pgdir true
          | Some sz =>
              fs Iunlockput;;
              fs End_op;;
              setup_stack pgdir (elf_entry elf) sz path argv
          end
  end.

End exec.
Global Arguments xst : clear implicits.

(** * What a program's memory is *)

(** Memory as bytes from address 0 on, in whole pages. *)
Definition grow_to (sz : Z) (mem : list byte) : list byte :=
  mem ++ replicate (Z.to_nat (page_at (npages sz)) - length mem) NUL.

(** The segments of the program, each over what is there. *)
Fixpoint flat_load (ip : list byte) (n : nat) (off sz : Z) (mem : list byte) : option (Z * list byte) :=
  match n with
  | O => Some (sz, mem)
  | S n =>
      let ph := take 32 (drop (Z.to_nat off) ip) in
      let next := u32 (off + 32) in
      let top := ph_vaddr ph + ph_memsz ph in
      if decide (length ph ≠ 32%nat) then None
      else if decide (ph_type ph ≠ ELF_PROG_LOAD) then flat_load ip n next sz mem
      else if decide (ph_memsz ph < ph_filesz ph ∨ KERNBASE ≤ top ∨ top = 0 ∧ sz = 0 ∨ ph_vaddr ph mod PGSIZE ≠ 0 ∨
                      Z.of_nat (length ip) < ph_off ph + ph_filesz ph ∧ ph_filesz ph ≠ 0) then None
      else
        let sz := Z.max sz top in
        flat_load ip n next sz
          (patch (Z.to_nat (ph_vaddr ph)) (take (Z.to_nat (ph_filesz ph)) (drop (Z.to_nat (ph_off ph)) ip)) (grow_to sz mem))
  end.

(** The arguments, from [sp] down to [base] at the lowest. *)
Fixpoint flat_push (base : Z) (argv : list cstr) (sp : Z) (ptrs : list Z) (mem : list byte) : option (Z * list Z * list byte) :=
  match argv with
  | [] => Some (sp, ptrs, mem)
  | arg :: argv =>
      let sp := (sp - (Z.of_nat (length arg) + 1)) / 4 * 4 in
      if decide (MAXARG ≤ Z.of_nat (length ptrs) ∨ sp < base) then None
      else flat_push base argv sp (ptrs ++ [sp]) (patch (Z.to_nat sp) (arg ++ [NUL]) mem)
  end.

(** The stack above memory of size [sz], with a page below it that the program may
    not use: the size, the stack pointer and the memory. *)
Definition flat_stack (sz : Z) (mem : list byte) (argv : list cstr) : option (Z * Z * list byte) :=
  let sz := page_at (npages sz) + 2 * PGSIZE in
  if decide (KERNBASE ≤ sz) then None
  else
    '(sp, ptrs, mem) ← flat_push (sz - PGSIZE) argv sz [] (grow_to sz mem);
    let argc := Z.of_nat (length ptrs) in
    let ustack := [4294967295; argc; sp - (argc + 1) * 4] ++ ptrs ++ [0] in
    let sp := sp - (3 + argc + 1) * 4 in
    if decide (sp < sz - PGSIZE) then None else Some (sz, sp, patch (Z.to_nat sp) (concat (le32 <$> ustack)) mem).

(** The size, the stack pointer and the memory of a program when it starts. *)
Definition flat_exec (ip : list byte) (argv : list cstr) : option (Z * Z * list byte) :=
  let elf := take 52 ip in
  if decide (length elf ≠ 52%nat ∨ elf_magic elf ≠ ELF_MAGIC) then None
  else '(sz, mem) ← flat_load ip (Z.to_nat (elf_phnum elf)) (elf_phoff elf) 0 []; flat_stack sz mem argv.
