(* ===== verification/XvExecInv.v ===== *)
(** The loader of xv6 against the memory that a program is to have: what [exec]
    builds page by page in an address space is [flat_exec] of the file and the
    arguments. *)

From stdpp Require Import base option list numbers gmap sets.
From coqutil Require Import Datatypes.RecordSettersUsingExistingGetters.
From Stdlib Require Import Strings.Byte ZArith Lia.
From S2P Require Import Prelude CString XvProc XvKalloc XvPage XvPageInv XvPageOps XvPageUser XvExec.
Local Open Scope Z_scope.

Lemma le_num_bound l : 0 ≤ le_num l < 256 ^ Z.of_nat (length l).
Proof.
  induction l as [|b l IH]; [done|]. cbn [le_num length]. rewrite Nat2Z.inj_succ, Z.pow_succ_r by lia. pose proof (Byte.to_N_bounded b). lia.
Qed.

Lemma field_bound off n l : 0 ≤ field off n l < 256 ^ Z.of_nat n.
Proof.
  unfold field. pose proof (le_num_bound (take n (drop off l))) as [? Hl]. split; [done|]. eapply Z.lt_le_trans; [exact Hl|].
  apply Z.pow_le_mono_r; [lia|]. rewrite length_take. lia.
Qed.

Lemma length_concat_le32 l : length (concat (le32 <$> l)) = (4 * length l)%nat.
Proof. induction l as [|z l IH]; [done|]. rewrite fmap_cons. cbn [concat length]. rewrite length_app, IH. simpl. lia. Qed.

Lemma land3 z : Z.land z (Z.lnot 3) = z / 4 * 4.
Proof.
  change 3 with (Z.ones 2). rewrite <- Z.ldiff_land, Z.ldiff_ones_r by lia. rewrite Z.shiftl_mul_pow2, Z.shiftr_div_pow2 by lia. done.
Qed.

Section image.
Context {A : Type} `{PageAllocator A}.
Abbreviation vmem := (vmem A).

(** User memory of size [sz] with the bytes [mem]. *)
Record user_image (sz : Z) (mem : list byte) (sp : space) : Prop := {
  ui_size : 0 ≤ sz < KERNBASE;
  ui_len : Z.of_nat (length mem) = page_at (npages sz);
  ui_mem : ∀ a, 0 ≤ a → mem_at sp a = mem !! Z.to_nat a;
}.

Lemma mem_at_page sp m u : user sp !! m = Some u → mem_at sp (page_at m) = ubytes u !! 0%nat.
Proof. intros Hu. unfold mem_at. rewrite vpn_page, Hu. simpl. by rewrite Z_mod_mult. Qed.

Lemma ui_pages R pd sp (s : vmem) sz mem m :
  vspace R pd sp s → user_image sz mem sp → is_Some (user sp !! m) ↔ (m < npages sz)%nat.
Proof.
  intros V [_ Hl Hm]. assert (0 ≤ page_at m) as H0 by (unfold PGSIZE; lia). specialize (Hm (page_at m) H0). split.
  - intros [u Hu]. rewrite (mem_at_page sp m u Hu) in Hm. destruct (vs_user _ _ _ _ V m u Hu) as (_&_&_&[Hb _ _]).
    destruct (ubytes u) as [|b l]; [unfold PGSIZE in Hb; simpl length in Hb; lia|]. symmetry in Hm. apply lookup_lt_Some in Hm. unfold PGSIZE in *. lia.
  - intros Hlt. destruct (lookup_lt_is_Some_2 mem (Z.to_nat (page_at m))) as [b Hb]; [unfold PGSIZE in *; lia|]. rewrite Hb in Hm.
    unfold mem_at in Hm. rewrite vpn_page in Hm. destruct (user sp !! m); [eauto|done].
Qed.

Lemma ui_empty tb kn : user_image 0 [] (mk_space tb kn ∅).
Proof. split; [done|done|]. intros a _. unfold mem_at. cbn [user]. by rewrite lookup_empty. Qed.

Lemma ui_grow R pd sp (s : vmem) sz sz' mem sp' :
  vspace R pd sp s → user_image sz mem sp → sz ≤ sz' < KERNBASE → grown (npages sz) (npages sz') (user sp) (user sp') → user_image sz' (grow_to sz' mem) sp'.
Proof.
  intros V I Hsz Hg. pose proof (λ m, ui_pages R pd sp s sz mem m V I) as Hpg. destruct I as [Hs Hl Hm].
  assert (npages sz ≤ npages sz')%nat as HN by (unfold npages, PGSIZE; Z.to_euclidean_division_equations; lia).
  split; [lia|unfold grow_to; rewrite length_app, length_replicate; unfold PGSIZE in *; lia|]. intros a Ha. specialize (Hg (vpn a)).
  assert (page_at (vpn a) ≤ a < page_at (vpn a) + PGSIZE) as Hva by (unfold vpn, PGSIZE; Z.to_euclidean_division_equations; lia). unfold grow_to.
  destruct (decide (npages sz ≤ vpn a < npages sz')%nat) as [D|D].
  - destruct Hg as [v Hv]. unfold mem_at. rewrite Hv. simpl. rewrite lookup_zero_page, decide_True by (unfold PGSIZE; Z.to_euclidean_division_equations; lia).
    rewrite lookup_app_r by (unfold PGSIZE in *; lia). symmetry. apply lookup_replicate_2. unfold PGSIZE in *. lia.
  - assert (mem_at sp' a = mem_at sp a) as -> by (unfold mem_at; by rewrite Hg). rewrite Hm by done. destruct (decide (vpn a < npages sz)%nat).
    + by rewrite lookup_app_l by (unfold PGSIZE in *; lia).
    + rewrite !lookup_ge_None_2; [done| |]; rewrite ?length_app, ?length_replicate; unfold PGSIZE in *; lia.
Qed.

Lemma ui_write sz mem sp va b sp' :
  user_image sz mem sp → written va b sp sp' → 0 ≤ va → va + Z.of_nat (length b) ≤ Z.of_nat (length mem) → user_image sz (patch (Z.to_nat va) b mem) sp'.
Proof.
  intros [Hs Hl Hm] W Hva Hb. split; [done|by rewrite length_patch by lia|]. intros a Ha. rewrite (wr_bytes _ _ _ _ W a Ha), lookup_patch by lia.
  destruct (decide (va ≤ a < va + Z.of_nat (length b))) as [D|D]; [rewrite decide_True by lia; f_equal; lia|rewrite decide_False by lia; by apply Hm].
Qed.

Lemma grow_same sz mem sp : user_image sz mem sp → grow_to sz mem = mem.
Proof. intros [_ Hl _]. unfold grow_to. replace (_ - _)%nat with 0%nat by lia. apply app_nil_r. Qed.

(** Pages with the flags of user memory. *)
Definition plain_pages (sp : space) : Prop := ∀ m u, user sp !! m = Some u → uflags u = 7.

Lemma plain_grown n N sp sp' : plain_pages sp → grown n N (user sp) (user sp') → plain_pages sp'.
Proof. intros Hp Hg m u Hu. specialize (Hg m). case_decide; [destruct Hg as [v Hv]; rewrite Hv in Hu; by injection Hu as <-|]. rewrite Hg in Hu. eauto. Qed.

Lemma plain_written va b sp sp' : plain_pages sp → written va b sp sp' → plain_pages sp'.
Proof.
  intros Hp W m u Hu. pose proof (wr_pages _ _ _ _ W m) as E. rewrite Hu in E. destruct (user sp !! m) as [w|] eqn:Hw; [|done].
  cbn in E. injection E as _ ->. eauto.
Qed.

Lemma alloc_image R pd sp (s : vmem) sz mem top :
  vspace R pd sp s → user_image sz mem sp → plain_pages sp → 0 ≤ top →
  wp (allocuvm pd sz top) (λ r s', ∃ sp', vspace R pd sp' s' ∧ kern sp' = kern sp ∧
    (r = 0 ∨ r = Z.max sz top ∧ top < KERNBASE ∧ user_image r (grow_to r mem) sp' ∧ plain_pages sp')) s.
Proof.
  intros V I Hp Ht. destruct (decide (top < sz)) as [Hlt|Hge].
  - pose proof (ui_size _ _ _ I). unfold allocuvm. rewrite decide_False, decide_True by lia. apply wp_ret. exists sp. split_and!; [done|done|right].
    rewrite (grow_same sz mem sp I). split_and!; [lia|lia|done|done].
  - destruct (decide (KERNBASE ≤ top)) as [Hk|Hk].
    { unfold allocuvm. rewrite decide_True by done. apply wp_ret. exists sp. auto. }
    destruct sp as [tb kn us]. eapply wp_mono; [apply (allocuvm_spec R pd tb kn us s sz top V)|].
    + pose proof (ui_size _ _ _ I). lia.
    + intros m Hm. destruct (us !! m) eqn:E; [|done]. exfalso. assert (m < npages sz)%nat; [|lia]. apply (ui_pages R pd _ s sz mem m V I). simpl. eauto.
    + intros r s' (tb'&us'&V'&Hr). exists (mk_space tb' kn us'). split_and!; [done|done|]. destruct Hr as [[-> Hg]|[-> _]]; [right|by left].
      split_and!; [lia|lia|eapply ui_grow; [exact V|done|lia|done]|by eapply plain_grown].
Qed.

(** ** The segments *)

Lemma u32_range z : 0 ≤ u32 z < 2 ^ 32.
Proof. unfold u32, to_unsigned. apply Z.mod_pos_bound. done. Qed.

Lemma field4 off l : 0 ≤ field off 4 l < 2 ^ 32.
Proof. pose proof (field_bound off 4 l) as Hb. change (256 ^ Z.of_nat 4) with (2 ^ 32) in Hb. exact Hb. Qed.

Lemma load_image R pd sp (s : vmem) sz mem addr ip off n :
  vspace R pd sp s → user_image sz mem sp → plain_pages sp → addr mod PGSIZE = 0 → 0 ≤ addr → Z.of_nat (length ip) < 2 ^ 31 → 0 ≤ off < 2 ^ 32 →
  0 ≤ n → addr + n ≤ sz →
  wp (loaduvm pd addr (file_read ip) off n) (λ r s', ∃ sp', vspace R pd sp' s' ∧ kern sp' = kern sp ∧
    (r = 0 ∧ (n = 0 ∨ off + n ≤ Z.of_nat (length ip)) ∧ plain_pages sp' ∧
       user_image sz (patch (Z.to_nat addr) (take (Z.to_nat n) (drop (Z.to_nat off) ip)) mem) sp' ∨
     r = -1)) s.
Proof.
  intros V I Hp Ha Ha0 Hip Hoff Hn Htop. pose proof (ui_size _ _ _ I) as Hsz.
  eapply wp_mono; [apply (loaduvm_spec R pd sp s addr ip off n V); try done; [lia|]|].
  - intros m Hm. apply (ui_pages R pd sp s sz mem m V I). apply npages_spec; lia.
  - intros r s' (b&sp'&V'&W&Hb&Hr). exists sp'. split_and!; [done|apply W|]. destruct Hr as [(->&Hl&->)|(->&_&_)]; [left|by right].
    split_and!; [done| |by eapply plain_written|].
    + rewrite length_take, length_drop in Hl. lia.
    + eapply ui_write; [done|done|lia|]. rewrite (ui_len _ _ _ I), Hl. unfold npages, PGSIZE. Z.to_euclidean_division_equations. lia.
Qed.

Lemma load_fails R pd kn (F : option (Z * list byte)) sp (s : vmem) :
  vspace R pd sp s → kern sp = kn →
  wp (mret None) (λ r s', ∃ sp', vspace R pd sp' s' ∧ kern sp' = kn ∧
    match r with None => True | Some sz' => ∃ mem', F = Some (sz', mem') ∧ user_image sz' mem' sp' ∧ plain_pages sp' end) s.
Proof. intros V Hk. apply wp_ret. eauto. Qed.

Lemma load_segments_spec R pd ip n : Z.of_nat (length ip) < 2 ^ 31 → ∀ off sz mem sp (s : vmem),
  vspace R pd sp s → user_image sz mem sp → plain_pages sp → 0 ≤ off < 2 ^ 32 →
  wp (load_segments ip pd n off sz) (λ r s', ∃ sp', vspace R pd sp' s' ∧ kern sp' = kern sp ∧
    match r with
    | None => True
    | Some sz' => ∃ mem', flat_load ip n off sz mem = Some (sz', mem') ∧ user_image sz' mem' sp' ∧ plain_pages sp'
    end) s.
Proof.
  intros Hip. induction n as [|n IH]; intros off sz mem sp s V I Hp Hoff; cbn [load_segments flat_load]; [apply wp_ret; exists sp; split_and!; [done|done|by exists mem]|].
  assert (0 ≤ sizeof_proghdr < 2 ^ 31) as H32 by done. rewrite (file_read_eq ip off sizeof_proghdr Hip Hoff H32). change (Z.to_nat sizeof_proghdr) with 32%nat. unfold sizeof_proghdr.
  set (ph := take 32 (drop (Z.to_nat off) ip)). pose proof (u32_range (off + 32)) as Hnext.
  cbv zeta. destruct (decide (Z.of_nat (length ph) ≠ 32)) as [_|Hl]; [by eapply load_fails|]. rewrite (decide_False (P := length ph ≠ 32%nat)) in * by lia.
  destruct (decide (ph_type ph ≠ ELF_PROG_LOAD)) as [Ht|Ht]; [by apply IH|].
  destruct (decide (ph_memsz ph < ph_filesz ph)) as [_|Hmf]; [by eapply load_fails|].
  pose proof (field4 8 ph : 0 ≤ ph_vaddr ph < 2 ^ 32) as Hva. pose proof (field4 20 ph : 0 ≤ ph_memsz ph < 2 ^ 32) as Hms.
  pose proof (field4 4 ph : 0 ≤ ph_off ph < 2 ^ 32) as Hpo. pose proof (field4 16 ph : 0 ≤ ph_filesz ph < 2 ^ 32) as Hfs.
  destruct (decide (u32 (ph_vaddr ph + ph_memsz ph) < ph_vaddr ph)) as [_|Hov]; [by eapply load_fails|].
  assert (u32 (ph_vaddr ph + ph_memsz ph) = ph_vaddr ph + ph_memsz ph) as Etop.
  { unfold u32, to_unsigned in *. change (2 ^ 32) with 4294967296 in *. Z.to_euclidean_division_equations. lia. }
  rewrite Etop. set (top := ph_vaddr ph + ph_memsz ph) in *. apply wp_bind.
  eapply wp_mono; [apply (alloc_image R pd sp s sz mem top V I Hp); lia|]. intros r s1 (sp1&V1&Hk1&Hr). cbn beta.
  destruct (decide (r = 0)) as [_|Hr0]; [by eapply load_fails|]. destruct Hr as [?|(->&Htk&I1&Hp1)]; [done|].
  destruct (decide (ph_vaddr ph mod PGSIZE ≠ 0)) as [_|Hal]; [by eapply load_fails|]. apply dec_stable in Hal. apply wp_bind.
  eapply wp_mono; [apply (load_image R pd sp1 s1 _ _ (ph_vaddr ph) ip (ph_off ph) (ph_filesz ph) V1 I1 Hp1); (done || lia)|].
  intros r s2 (sp2&V2&Hk2&Hr). cbn beta. destruct Hr as [(->&Hlen&Hp2&I2)| ->]; [|rewrite decide_True by lia; eapply load_fails; [done|congruence]].
  rewrite (decide_False (P := 0 < 0)) by lia. rewrite (decide_False (P := _ ∨ _)) by (intros [?|[?|[?|[?|?]]]]; lia).
  eapply wp_mono; [eapply (IH _ _ _ sp2); [exact V2|exact I2|exact Hp2|exact Hnext]|]. intros r s3 (sp3&V3&Hk3&Hr). exists sp3. split_and!; [done|congruence|done].
Qed.

(** ** The stack *)

Section stack.
Context (R : gmap Z page) (pd data : Z) (g : nat).
Abbreviation sz := (page_at (S (S g))).
Abbreviation base := (page_at (S g)).

(** Memory up to the top of the stack; the page [g] below the stack is off limits. *)
Record stack_image (mem : list byte) (sp : space) : Prop := {
  si_image : user_image sz mem sp;
  si_access : ∀ m, accessible sp m = bool_decide (m < S (S g) ∧ m ≠ g)%nat;
  si_kern : ∀ m, kern sp !! m = kernel_entry data m;
}.

Lemma npages_stack : npages sz = S (S g).
Proof. unfold npages, PGSIZE. Z.to_euclidean_division_equations. lia. Qed.

Lemma si_written mem sp va b sp' :
  stack_image mem sp → written va b sp sp' → 0 ≤ va → va + Z.of_nat (length b) ≤ sz → stack_image (patch (Z.to_nat va) b mem) sp'.
Proof.
  intros [I Ha Hk] W Hva Hb. split.
  - eapply ui_write; [done|done|done|]. rewrite (ui_len _ _ _ I), npages_stack. done.
  - intros m. by rewrite (accessible_written _ _ _ _ _ W).
  - intros m. by rewrite (wr_kern _ _ _ _ W).
Qed.

Lemma copyout_stack sp (s : vmem) mem va b :
  vspace R pd sp s → stack_image mem sp → 0 ≤ va → va mod 4 = 0 → base - 4 < va + Z.of_nat (length b) ≤ sz →
  wp (copyout pd va b) (λ r s', ∃ sp', vspace R pd sp' s' ∧
    (r = 0 ∧ base ≤ va ∧ stack_image (patch (Z.to_nat va) b mem) sp' ∨ r = -1)) s.
Proof.
  intros V S0 Hva Hal Hb. pose proof (ui_size _ _ _ (si_image _ _ S0)) as Hsz. unfold copyout.
  eapply wp_mono; [apply (copyout_loop_spec R pd _ va b sp s V Hva); [lia|lia|]|].
  - intros a Ha. assert (is_Some (user sp !! vpn a)) as [u Hu].
    { apply (ui_pages R pd sp s sz mem (vpn a) V (si_image _ _ S0)). rewrite npages_stack. unfold vpn, PGSIZE in *. Z.to_euclidean_division_equations. lia. }
    by destruct (vs_user _ _ _ _ V _ _ Hu) as (_&?&_).
  - intros r s' (k&sp'&Hk&V'&W&Hacc&Hr). exists sp'. split; [done|]. destruct Hr as [[-> ->]|(->&_)]; [left|by right].
    rewrite take_ge in W by done. split_and!; [done| |eapply si_written; [done|done|done|lia]].
    destruct (decide (base ≤ va)) as [|Hlt]; [done|]. exfalso. specialize (Hacc (base - 4)). rewrite (si_access _ _ S0) in Hacc.
    assert (vpn (base - 4) = g) as E by (unfold vpn, PGSIZE; Z.to_euclidean_division_equations; lia). rewrite E in Hacc.
    rewrite bool_decide_eq_false_2 in Hacc by tauto. discriminate Hacc. unfold PGSIZE in *. Z.to_euclidean_division_equations. lia.
Qed.

(** A stack pointer that wrapped around is an address of the kernel's devices. *)
Lemma copyout_wrapped sp (s : vmem) mem va b :
  vspace R pd sp s → stack_image mem sp → data_ok data → DEVSPACE ≤ va < 2 ^ 32 → b ≠ [] → copyout pd va b s = Some (-1, s).
Proof.
  intros V S0 [_ Hd] Hva Hb. unfold copyout. destruct b as [|c b]; [done|]. cbn [length]. assert (page_at (vpn va) ≤ va < page_at (vpn va) + PGSIZE) as Hp.
  { unfold vpn, PGSIZE, DEVSPACE in *. Z.to_euclidean_division_equations. lia. }
  apply (copyout_kernel R pd sp s (length b) va (c :: b) (page_at (vpn va)) 3); [done|unfold DEVSPACE in *; lia|done| |by rewrite Z_mod_mult|lia].
  rewrite (si_kern _ _ S0). unfold kernel_entry, KERNLINK, EXTMEM, DEVSPACE, KERNBASE, PHYSTOP, PGSIZE in *. change (2 ^ 32) with 4294967296 in *.
  rewrite !decide_False by lia. rewrite decide_True; [done|]. unfold vpn, PGSIZE in *. Z.to_euclidean_division_equations. lia.
Qed.

(** Where the next argument goes: [flat_push] takes it below the stack exactly
    when the address is below the stack or wraps around. *)
Lemma next_sp sp n : 0 ≤ sp < KERNBASE → 0 ≤ n ≤ 2 ^ 24 → let va := Z.land (u32 (sp - n)) (Z.lnot 3) in
  va mod 4 = 0 ∧ (0 ≤ va ∧ va = (sp - n) / 4 * 4 ∨ DEVSPACE ≤ va < 2 ^ 32 ∧ (sp - n) / 4 * 4 < 0).
Proof.
  intros Hsp Hn va. unfold va. rewrite land3. unfold u32, to_unsigned, DEVSPACE, KERNBASE in *. change (2 ^ 32) with 4294967296. change (2 ^ 24) with 16777216 in *.
  Z.to_euclidean_division_equations. lia.
Qed.

Lemma push_args_spec : data_ok data → ∀ argv sp ptrs mem spc (s : vmem),
  vspace R pd spc s → stack_image mem spc → base ≤ sp ≤ sz → sp mod 4 = 0 → Z.of_nat (length ptrs) ≤ MAXARG →
  Forall (λ arg, Z.of_nat (length arg) < 2 ^ 24) argv →
  wp (push_args pd argv sp ptrs) (λ r s', ∃ spc', vspace R pd spc' s' ∧
    match r with
    | None => True
    | Some (sp', ptrs') => ∃ mem', flat_push base argv sp ptrs mem = Some (sp', ptrs', mem') ∧ stack_image mem' spc' ∧ base ≤ sp' ≤ sz ∧ sp' mod 4 = 0 ∧
        Z.of_nat (length ptrs') ≤ MAXARG
    end) s.
Proof.
  intros Hd. induction argv as [|arg argv IH]; intros sp ptrs mem spc s V S0 Hsp Hal Hptrs Hlen; cbn [push_args flat_push].
  { apply wp_ret. exists spc. split; [done|]. by exists mem. }
  apply Forall_cons in Hlen as [Harg Hlen]. destruct (decide (MAXARG ≤ Z.of_nat (length ptrs))) as [_|Hmax]; [apply wp_ret; eauto|].
  assert (0 ≤ base) as Hb0 by (unfold PGSIZE; lia). pose proof (ui_size _ _ _ (si_image _ _ S0)) as Hsz.
  destruct (next_sp sp (Z.of_nat (length arg) + 1)) as [Hva4 Hva]; [lia|lia|]. cbv zeta. set (va := Z.land _ _) in *.
  apply wp_bind. destruct Hva as [[Hva Eva]|[Hva Hneg]].
  - eapply wp_mono; [apply (copyout_stack spc s mem va (arg ++ [NUL]) V S0 Hva Hva4)|].
    { rewrite length_app. simpl length. clear Hptrs Hmax. unfold PGSIZE in *. Z.to_euclidean_division_equations. lia. }
    intros r s1 (spc1&V1&Hr). cbn beta. destruct Hr as [(->&Hbase&S1)| ->]; [|rewrite decide_True by lia; apply wp_ret; eauto].
    rewrite (decide_False (P := 0 < 0)) by lia. rewrite <- Eva. rewrite decide_False by lia.
    eapply (IH va _ _ spc1); [exact V1|exact S1| |done| |done].
    + split; [done|]. clear Hptrs Hmax. Z.to_euclidean_division_equations. lia.
    + rewrite length_app. simpl length. lia.
  - eapply wp_intro; [by eapply copyout_wrapped; [| | | |destruct arg]|]. cbn beta. rewrite decide_True by lia. apply wp_ret. eauto.
Qed.

End stack.

(** ** The whole loader *)

Lemma wp_on_vm {B} (m : ST vmem B) (Q : B → xst A → Prop) (s : xst A) :
  wp m (λ a v, Q a (mk_xst v (calls s))) (vm s) → wp (on_vm m) Q s.
Proof. unfold wp, on_vm. destruct (m (vm s)) as [[a v]|]; done. Qed.

(** Failed, with the pages [R] in use. *)
Definition failed (R : gmap Z page) (s : xst A) : Prop := frames (vm s) = R ∧ allocated (dom R) (heap (vm s)).

Lemma bad_spec R pd sp (s : xst A) ip :
  vspace R pd sp (vm s) →
  wp (bad pd ip) (λ r s', r = None ∧ failed R s' ∧ calls s' = calls s ++ (if ip then [Iunlockput; End_op] else [])) s.
Proof.
  intros V. assert (pd ≠ 0) as Hnz by (destruct (in_use R pd sp _ V pd _ (vs_dir _ _ _ _ V)) as [_ ?]; unfold KERNBASE in *; lia).
  unfold bad. rewrite decide_True by done. apply wp_bind, wp_on_vm. eapply wp_mono; [by eapply freevm_spec|]. intros [] v [Hf Ha]. cbn beta. apply wp_bind.
  destruct ip; (eapply wp_intro; [done|]); apply wp_ret; (split_and!; [done|by split|]); simpl; [by rewrite <- app_assoc|by rewrite app_nil_r].
Qed.

Lemma bad_early (s : xst A) :
  allocated (dom (frames (vm s))) (heap (vm s)) →
  wp (bad 0 true) (λ r s', r = None ∧ failed (frames (vm s)) s' ∧ calls s' = calls s ++ [Iunlockput; End_op]) s.
Proof. intros Ha. unfold wp, bad. simpl. split_and!; [done|by split|by rewrite <- app_assoc]. Qed.

Lemma guard_image sz mem sp g u :
  user_image sz mem sp → user sp !! g = Some u → ∀ f, user_image sz mem (mk_space (tabs sp) (kern sp) (<[g := mk_uent (uframe u) f (ubytes u)]> (user sp))).
Proof.
  intros [Hs Hl Hm] Hu f. split; [done|done|]. intros a Ha. rewrite <- Hm by done. unfold mem_at. cbn [user].
  destruct (decide (g = vpn a)) as [E|E]; [rewrite <- E, lookup_insert_eq, Hu; done|by rewrite lookup_insert_ne].
Qed.

Section exec.
Context (R : gmap Z page) (data : Z) (Hd : data_ok data).
Context (argv : list cstr) (Hargs : Forall (λ arg, Z.of_nat (length arg) < 2 ^ 24) argv).

(** What [exec] hands to the commit. *)
Definition built (flat : option (Z * Z * list byte)) (entry : Z) (path : cstr) (r : option image) (s : xst A) : Prop :=
  match r with
  | None => failed R s
  | Some im => ∃ g mem sp, flat = Some (im_sz im, im_sp im, mem) ∧ im_sz im = page_at (S (S g)) ∧ im_entry im = entry ∧ im_last im = last_from path path ∧
      vspace R (im_pgdir im) sp (vm s) ∧ stack_image data g mem sp
  end.

(** The page below the stack. *)
Lemma clear_guard pd sp (s : vmem) g mem :
  vspace R pd sp s → user_image (page_at (S (S g))) mem sp → plain_pages sp → (∀ m, kern sp !! m = kernel_entry data m) →
  wp (clearpteu pd (page_at g)) (λ _ s', ∃ sp', vspace R pd sp' s' ∧ stack_image data g mem sp') s.
Proof.
  intros V I Hp Hk. assert (∀ m, is_Some (user sp !! m) ↔ (m < S (S g))%nat) as Hpg by (intros m; rewrite (ui_pages R pd sp s _ mem m V I); by rewrite npages_stack).
  destruct (proj2 (Hpg g) ltac:(lia)) as [u Hu]. eapply wp_mono; [by apply (clearpteu_spec R pd sp s g u)|]. intros [] s' V'. eexists. split; [exact V'|].
  split; [by apply guard_image| |done]. intros m. unfold accessible. cbn [user]. destruct (decide (g = m)) as [<-|Hne].
  - rewrite lookup_insert_eq, bool_decide_eq_false_2 by tauto. cbn [uflags]. by rewrite (Hp g u Hu).
  - rewrite lookup_insert_ne by done. specialize (Hpg m). destruct (user sp !! m) as [w|] eqn:Hw.
    + rewrite (Hp m w Hw). rewrite bool_decide_eq_true_2; [done|]. split; [by apply Hpg|done].
    + rewrite bool_decide_eq_false_2; [done|]. intros [Hm%Hpg _]. by destruct Hm.
Qed.

Lemma setup_stack_spec pd entry sz mem sp path (s : xst A) :
  vspace R pd sp (vm s) → user_image sz mem sp → plain_pages sp → (∀ m, kern sp !! m = kernel_entry data m) →
  wp (setup_stack pd entry sz path argv) (λ r s', calls s' = calls s ∧ built (flat_stack sz mem argv) entry path r s') s.
Proof.
  intros V I Hp Hk. pose proof (ui_size _ _ _ I) as Hsz. unfold setup_stack, flat_stack. rewrite roundup_page by lia. set (g := npages sz).
  pose proof (npages_user sz ltac:(lia)) as HU. assert (page_at g ≤ KERNBASE) as Hg by (unfold g, npages, KERNBASE, PGSIZE in *; Z.to_euclidean_division_equations; lia).
  assert (page_at g + 2 * PGSIZE = page_at (S (S g))) as -> by (unfold PGSIZE; lia).
  rewrite u32_id by (unfold PGSIZE, KERNBASE in *; lia). apply wp_bind, wp_on_vm. cbv zeta.
  destruct (decide (KERNBASE ≤ page_at (S (S g)))) as [Hbig|Hsmall].
  { unfold allocuvm. rewrite decide_True by done. apply wp_ret. cbn beta. rewrite decide_True by done. eapply wp_mono; [by eapply bad_spec|].
    intros r s' (->&Hf&Hc). rewrite app_nil_r in Hc. done. }
  assert (npages (page_at g) = g) as Eg by (unfold npages, PGSIZE; Z.to_euclidean_division_equations; lia).
  assert (user_image (page_at g) mem sp) as I0 by (destruct I as [_ Hl Hm]; split; [unfold PGSIZE in *; lia|by rewrite Eg|done]).
  eapply wp_mono; [apply (alloc_image R pd sp _ (page_at g) mem (page_at (S (S g))) V I0 Hp); unfold PGSIZE; lia|].
  intros r v1 (sp1&V1&Hk1&Hr). cbn beta. destruct (decide (r = 0)) as [->|Hr0].
  { eapply wp_mono; [by eapply bad_spec|]. intros r s' (->&Hf&Hc). rewrite app_nil_r in Hc. done. }
  destruct Hr as [?|(Er&_&I1&Hp1)]; [done|]. rewrite Z.max_r in Er by (unfold PGSIZE; lia). subst r.
  assert (u32 (page_at (S (S g)) - 2 * PGSIZE) = page_at g) as -> by (rewrite u32_id; unfold PGSIZE, KERNBASE in *; lia).
  assert (page_at (S (S g)) - PGSIZE = page_at (S g)) as -> by (unfold PGSIZE; lia).
  apply wp_bind, wp_on_vm. eapply wp_mono; [apply (clear_guard pd sp1 v1 g _ V1 I1 Hp1); intros m; by rewrite Hk1|]. intros [] v2 (sp2&V2&S2). cbn beta.
  apply wp_bind, wp_on_vm. eapply wp_mono; [apply (push_args_spec R pd data g Hd argv (page_at (S (S g))) [] _ sp2 v2 V2 S2)|].
  { unfold PGSIZE. lia. } { unfold PGSIZE. Z.to_euclidean_division_equations. lia. } { done. } { done. }
  intros r v3 (sp3&V3&Hr). cbn beta. destruct r as [[sp' ptrs]|].
  2: { eapply wp_mono; [by eapply bad_spec|]. intros r s' (->&Hf&Hc). rewrite app_nil_r in Hc. done. }
  destruct Hr as (mem'&->&S3&Hsp&Hal&Hptrs). cbn [mbind option_bind]. assert (PGSIZE ≤ page_at (S g)) as Hlow by (unfold PGSIZE; lia). unfold MAXARG in Hptrs.
  rewrite !u32_id by (unfold PGSIZE, KERNBASE in *; lia). set (ustack := [4294967295; _; _] ++ ptrs ++ [0]). set (sp4 := sp' - (3 + Z.of_nat (length ptrs) + 1) * 4) in *.
  assert (Z.of_nat (length (concat (le32 <$> ustack))) = (3 + Z.of_nat (length ptrs) + 1) * 4) as Hlen.
  { rewrite length_concat_le32. unfold ustack. rewrite !length_app. simpl length. lia. }
  apply wp_bind, wp_on_vm. eapply wp_mono; [apply (copyout_stack R pd data g sp3 v3 mem' sp4 (concat (le32 <$> ustack)) V3 S3)|].
  { unfold sp4, PGSIZE in *. lia. } { unfold sp4. clear - Hal. Z.to_euclidean_division_equations. lia. } { rewrite Hlen. unfold sp4. lia. }
  intros r v4 (sp5&V4&Hr). cbn beta. destruct Hr as [(->&Hb&S4)| ->].
  - rewrite (decide_False (P := 0 < 0)) by lia. rewrite decide_False by lia. apply wp_ret. split; [done|]. exists g, (patch (Z.to_nat sp4) (concat (le32 <$> ustack)) mem'), sp5.
    done.
  - rewrite (decide_True (P := -1 < 0)) by lia. eapply wp_mono; [by eapply bad_spec|]. intros r s' (->&Hf&Hc). rewrite app_nil_r in Hc. done.
Qed.

Lemma exec_image_spec namei path (s : xst A) :
  allocated (dom R) (heap (vm s)) → frames (vm s) = R → (∀ ip, namei path = Some ip → Z.of_nat (length ip) < 2 ^ 31) →
  wp (exec_image namei data path argv) (λ r s',
    calls s' = calls s ++ (if namei path then [Begin_op; Ilock; Iunlockput; End_op] else [Begin_op; End_op]) ∧
    built (namei path ≫= λ ip, flat_exec ip argv) (elf_entry (take 52 (default [] (namei path)))) path r s') s.
Proof.
  intros Ha HR Hip. unfold exec_image. apply wp_bind. eapply wp_intro; [done|]. cbn beta. destruct (namei path) as [ip|].
  2: { apply wp_bind. eapply wp_intro; [done|]. apply wp_ret. split; [simpl; by rewrite <- app_assoc|]. by split. }
  specialize (Hip ip eq_refl). apply wp_bind. eapply wp_intro; [done|]. cbn [mbind option_bind default calls vm]. unfold flat_exec. cbv zeta.
  rewrite (file_read_eq ip 0 sizeof_elfhdr Hip) by done. change (Z.to_nat sizeof_elfhdr) with 52%nat. change (Z.to_nat 0) with 0%nat. rewrite drop_0. set (elf := take 52 ip).
  destruct (decide (Z.of_nat (length elf) ≠ sizeof_elfhdr)) as [_|Hl].
  { eapply wp_mono; [by apply bad_early; cbn [vm]; rewrite HR|]. intros r s' (->&Hf&Hc). cbn [vm calls] in *. rewrite HR in Hf. split; [by rewrite Hc, <- !app_assoc|done]. }
  destruct (decide (elf_magic elf ≠ ELF_MAGIC)) as [_|Hm].
  { eapply wp_mono; [by apply bad_early; cbn [vm]; rewrite HR|]. intros r s' (->&Hf&Hc). cbn [vm calls] in *. rewrite HR in Hf. split; [by rewrite Hc, <- !app_assoc|done]. }
  rewrite (decide_False (P := _ ∨ _)) by (unfold sizeof_elfhdr in *; intros [?|?]; [lia|done]).
  apply wp_bind, wp_on_vm. eapply wp_mono; [apply setupkvm_spec; [cbn [vm]; by rewrite HR|done]|]. cbn [vm calls]. rewrite HR.
  intros pd v1 [(->&Hf&Hv)|(Hnz&tb&kn&V1&Hk)]; cbn beta.
  { rewrite decide_True by done. eapply wp_mono; [apply bad_early; cbn [vm]; by rewrite Hf|]. intros r s' (->&Hf'&Hc). cbn [vm calls] in *. rewrite Hf in Hf'.
    split; [by rewrite Hc, <- !app_assoc|done]. }
  rewrite decide_False by done. apply wp_bind, wp_on_vm. cbn [vm calls].
  eapply wp_mono; [apply (load_segments_spec R pd ip _ Hip _ 0 [] _ v1 V1 (ui_empty tb kn)); [|apply (field4 28)]|].
  { intros m u Hu. cbn [user] in Hu. by rewrite lookup_empty in Hu. }
  intros r v2 (sp2&V2&Hk2&Hr). cbn beta. destruct r as [sz|].
  2: { eapply wp_mono; [by eapply bad_spec|]. intros r s' (->&Hf&Hc). cbn [calls] in *. split; [by rewrite Hc, <- !app_assoc|done]. }
  destruct Hr as (mem&->&I2&Hp2). cbn [mbind option_bind]. apply wp_bind. eapply wp_intro; [done|]. apply wp_bind. eapply wp_intro; [done|]. cbn beta.
  eapply wp_mono; [by eapply (setup_stack_spec pd _ sz mem sp2); [exact V2|exact I2|exact Hp2|intros m; rewrite Hk2]|].
  intros r s' [Hc Hb]. cbn [calls vm] in *. split; [by rewrite Hc, <- !app_assoc|done].
Qed.

End exec.

End image.
