(* ===== verification/XvPageTheorems.v ===== *)
(** What the page tables and the loader of xv6 guarantee, for every page allocator
    with the interface [PageAllocator]; that [kalloc] and [kfree] are one. *)

From stdpp Require Import base option list numbers gmap sets.
From coqutil Require Import Datatypes.RecordSettersUsingExistingGetters.
From Stdlib Require Import Strings.Byte ZArith Lia.
From S2P Require Import Prelude CString XvProc XvKalloc XvPage XvPageInv XvPageOps XvPageUser XvExec XvExecInv.
Local Open Scope Z_scope.

(** * The allocator *)

Section kalloc.
Context (kernel_end : Z) (Hend : KERNBASE < kernel_end).

(** The pages [used] are handed out, and no page is above the 32-bit addresses. *)
Definition kmem_allocated (used : gset Z) (s : kmem) : Prop :=
  ∃ l, kmem_ok kernel_end l used s ∧ (∀ v, v ∈ l ∨ v ∈ used → v < 2 ^ 32).

Lemma is_page_addr v : is_page kernel_end v → v < 2 ^ 32 → page_addr v.
Proof.
  intros (Hm&He&Hp) Hv. split; [done|]. unfold u32, to_unsigned in Hp. change (2 ^ 32) with 4294967296 in *. unfold KERNBASE, PHYSTOP in *.
  rewrite Z.mod_small in Hp by lia. lia.
Qed.

Lemma kmem_alloc_law used s : kmem_allocated used s →
  kalloc s = (0, s) ∨ ∃ v s', kalloc s = (v, s') ∧ page_addr v ∧ v ∉ used ∧ kmem_allocated ({[v]} ∪ used) s'.
Proof.
  intros (l&K&Hl). assert (0 < kernel_end) as Hpos by (unfold KERNBASE in *; lia). pose proof (kalloc_ok kernel_end Hpos l used s K) as Hk. destruct l as [|v l]; [by left|right].
  destruct Hk as (s'&E&Hn&Hp&K'). exists v, s'. split_and!; [done|apply is_page_addr; [done|apply Hl; left; by left]|done|]. exists l. split; [done|].
  intros w [Hw|[->%elem_of_singleton|Hw]%elem_of_union]; apply Hl; [left; by right|left; by left|by right].
Qed.

Lemma kmem_free_law used s v : kmem_allocated used s → v ∈ used → ∃ s', kfree kernel_end v s = Some s' ∧ kmem_allocated (used ∖ {[v]}) s'.
Proof.
  intros (l&K&Hl) Hv. assert (0 < kernel_end) as Hpos by (unfold KERNBASE in *; lia). destruct (kfree_ok kernel_end Hpos l used s v K Hv) as (s'&E&K'). exists s'. split; [done|]. exists (v :: l). split; [done|].
  intros w [[->|Hw]%elem_of_cons|[Hw _]%elem_of_difference]; apply Hl; auto.
Qed.

Lemma kmem_page_law used s v : kmem_allocated used s → v ∈ used → page_addr v.
Proof. intros (l&K&Hl) Hv. apply is_page_addr; [by apply (ko_used _ _ _ _ K)|apply Hl; by right]. Qed.

#[refine] Instance kalloc_pages : PageAllocator kmem := {|
  alloc_page := kalloc;
  free_page := kfree kernel_end;
  allocated := kmem_allocated;
|}.
Proof. all: [> exact kmem_alloc_law | exact kmem_free_law | exact kmem_page_law]. Defined.

End kalloc.

(** * Theorems *)

Section theorems.
Context {A : Type} `{PageAllocator A}.

(** C13: [copyuvm] gives a child the memory of its parent: from a parent with all
    pages of its size mapped, it either returns a directory whose address space,
    made only of pages that were free, has the kernel's mappings and at every
    user address below the size the byte and the flags of the parent, or it
    returns 0 and every page it took is free again. In both cases the parent's
    address space and all other pages in use are as before. *)
Theorem fork_copies_memory R pd sp (s : vmem A) sz data :
  vspace R pd sp s → 0 ≤ sz ≤ KERNBASE → (∀ m, (m < npages sz)%nat → is_Some (user sp !! m)) → data_ok data →
  ∃ r s', copyuvm data pd sz s = Some (r, s') ∧
    (∀ v p, frames s !! v = Some p → frames s' !! v = Some p) ∧ (∃ R', vspace R' pd sp s') ∧
    (r = 0 ∧ frames s' = frames s ∨
     r ≠ 0 ∧ ∃ sp', vspace (frames s) r sp' s' ∧ (∀ m, kern sp' !! m = kernel_entry data m) ∧
       ∀ a, 0 ≤ a → (uflags <$> user sp' !! vpn a, mem_at sp' a) = if decide (vpn a < npages sz)%nat then (uflags <$> user sp !! vpn a, mem_at sp a) else (None, None)).
Proof.
  intros V Hsz Hall Hd. destruct (wp_elim _ _ _ (copyuvm_spec R pd sp s V sz Hsz Hall data Hd)) as (r&s'&E&Hr). exists r, s'. split; [done|].
  assert (frames s ⊆ frames s' ∧ allocated (dom (frames s')) (heap s')) as [Hsub Ha].
  { destruct Hr as [(_&Hf&Ha)|(_&tb&kn&us&V'&_)]; [by rewrite Hf|]. split; [by eapply vs_outside|apply V']. }
  split_and!; [intros v p Hv; by eapply lookup_weaken|by eapply vs_extend|]. destruct Hr as [(->&Hf&_)|(Hnz&tb&kn&us&V'&Hk&Hc)]; [by left|right]. split; [done|].
  exists (mk_space tb kn us). split_and!; [done|done|]. intros a Ha0. unfold mem_at. cbn [user]. specialize (Hc (vpn a)). case_decide.
  - destruct Hc as (u&v&Hu&Hv). by rewrite Hu, Hv.
  - by rewrite Hc.
Qed.

(** C23: [allocuvm] grows the memory of a process and [deallocuvm] takes it back: when
    the pages between two sizes are not mapped, [allocuvm] either returns the new
    size with zero-filled pages that the user may write added and nothing else
    changed, and then [deallocuvm] gives the old memory again, or it returns 0
    with the memory as it was. Pages outside of the address space are as before;
    [freevm] leaves exactly them in use. *)
Theorem growing_and_shrinking R pd tb kn us (s : vmem A) oldsz newsz :
  vspace R pd (mk_space tb kn us) s → 0 ≤ oldsz ≤ newsz → (∀ m, (npages oldsz ≤ m < npages newsz)%nat → us !! m = None) →
  ∃ r s' tb' us', allocuvm pd oldsz newsz s = Some (r, s') ∧ vspace R pd (mk_space tb' kn us') s' ∧
    (r = newsz ∧ (∀ m, if decide (npages oldsz ≤ m < npages newsz)%nat then ∃ v, us' !! m = Some (mk_uent v 7 zero_page) else us' !! m = us !! m) ∧
       (∃ s2, deallocuvm pd newsz oldsz s' = Some (oldsz, s2) ∧ vspace R pd (mk_space tb' kn us) s2) ∨
     r = 0 ∧ us' = us) ∧
    ∃ s3, freevm_pages pd s' = Some ((), s3) ∧ frames s3 = R.
Proof.
  intros V Hsz Hfree. destruct (wp_elim _ _ _ (allocuvm_spec R pd tb kn us s oldsz newsz V Hsz Hfree)) as (r&s'&E&tb'&us'&V'&Hr).
  destruct (wp_elim _ _ _ (freevm_spec R pd _ s' V')) as ([]&s3&E3&Hf3&_). exists r, s', tb', us'. split_and!; [done|done| |by exists s3].
  destruct Hr as [[-> Hg]|Hr]; [left|by right]. split_and!; [done|done|].
  assert (newsz < KERNBASE) as Hk by (unfold allocuvm in E; case_decide; [injection E as <- _; unfold KERNBASE in *; lia|lia]).
  destruct (wp_elim _ _ _ (deallocuvm_spec R pd _ s' newsz oldsz V' ltac:(lia) ltac:(lia))) as (r2&s2&E2&Hr2&V2). rewrite Z.min_r in Hr2 by lia. subst r2.
  exists s2. split; [done|]. cbn [tabs kern user] in V2. assert (cut (npages oldsz) (npages newsz) us' = us) as Hc; [|by rewrite Hc in V2].
  apply map_eq. intros m. rewrite lookup_cut. specialize (Hg m). case_decide; [symmetry; by apply Hfree|done].
Qed.

(** C14: [exec] builds the image that the file and the arguments describe, or fails
    without a trace: for a file below 2 GB and arguments below 16 MB it returns;
    it takes and gives back the lock of the inode and its log operation once. When
    it has built an image, [flat_exec] succeeds with the same size, stack pointer
    and entry point, and the new address space, made of pages that were free, has
    at each user address the byte that [flat_exec] has there and lets the user
    use all of its pages except the one below the stack. When it fails, the pages
    in use are those from before. *)
Theorem exec_builds_image namei data path argv (s : xst A) :
  allocated (dom (frames (vm s))) (heap (vm s)) → data_ok data →
  (∀ ip, namei path = Some ip → Z.of_nat (length ip) < 2 ^ 31) → Forall (λ arg, Z.of_nat (length arg) < 2 ^ 24) argv →
  ∃ r s', exec_image namei data path argv s = Some (r, s') ∧
    calls s' = calls s ++ (if namei path then [Begin_op; Ilock; Iunlockput; End_op] else [Begin_op; End_op]) ∧
    match r with
    | None => frames (vm s') = frames (vm s)
    | Some im => ∃ ip mem sp, namei path = Some ip ∧ flat_exec ip argv = Some (im_sz im, im_sp im, mem) ∧
        im_entry im = elf_entry ip ∧ im_last im = last_from path path ∧
        vspace (frames (vm s)) (im_pgdir im) sp (vm s') ∧ (∀ m, kern sp !! m = kernel_entry data m) ∧
        (∀ a, 0 ≤ a → mem_at sp a = mem !! Z.to_nat a) ∧
        (∀ a, 0 ≤ a → accessible sp (vpn a) = bool_decide (a < im_sz im ∧ ¬ im_sz im - 2 * PGSIZE ≤ a < im_sz im - PGSIZE))
    end.
Proof.
  intros Ha Hd Hip Hargs. destruct (wp_elim _ _ _ (exec_image_spec (frames (vm s)) data Hd argv Hargs namei path s Ha eq_refl Hip)) as (r&s'&E&Hc&Hb).
  exists r, s'. split_and!; [done|done|]. destruct r as [im|]; [|by destruct Hb]. destruct Hb as (g&mem&sp&Hf&Hsz&He&Hla&V&[I Hacc Hk]).
  destruct (namei path) as [ip|]; [|done]. exists ip, mem, sp. cbn [mbind option_bind default] in Hf, He. split_and!; try done.
  - rewrite He. unfold elf_entry, field. rewrite skipn_firstn_comm, take_take. done.
  - apply I.
  - intros a Ha0. rewrite Hacc. apply bool_decide_ext. rewrite Hsz. unfold vpn, PGSIZE. Z.to_euclidean_division_equations. lia.
Qed.

End theorems.

(** * Witnesses *)

(** After a kernel that ends at 0x80107000, three pages are in use and two free: a
    directory, one page table, and one page of user memory. *)
#[local] Instance ex_alloc : PageAllocator kmem := kalloc_pages 2148560896 eq_refl.
Definition ex_space : space := mk_space {[0%nat := 2148569088]} ∅ {[0%nat := mk_uent 2148573184 7 zero_page]}.
Definition ex_frames : gmap Z page :=
  <[2148564992 := Table (dir_of ex_space)]> (<[2148569088 := Table (tab_of ex_space 0)]> {[2148573184 := Data zero_page]}).
Definition ex_mem : vmem kmem := mk_vmem (mk_kmem 2148577280 {[2148577280 := 2148581376; 2148581376 := 0]}) ex_frames.

Lemma ex_allocated : allocated (dom (frames ex_mem)) (heap ex_mem).
Proof.
  exists [2148577280; 2148581376]. assert (dom (frames ex_mem) = {[2148564992; 2148569088; 2148573184]}) as ->.
  { unfold ex_mem, ex_frames. cbn [frames]. rewrite !dom_insert_L, dom_singleton_L. set_solver. }
  split.
  - split; [vm_compute; eauto 10| |..].
    + apply NoDup_cons_2; [set_solver|]. apply NoDup_singleton.
    + intros v Hv. rewrite !elem_of_cons in Hv. destruct Hv as [->|[->|Hv%elem_of_nil]]; [..|done]; (split; [by vm_compute|set_solver]).
    + intros v Hv. rewrite !elem_of_union, !elem_of_singleton in Hv. destruct Hv as [[->| ->]| ->]; by vm_compute.
  - intros v [Hv|Hv].
    + rewrite !elem_of_cons in Hv. destruct Hv as [->|[->|Hv%elem_of_nil]]; done.
    + rewrite !elem_of_union, !elem_of_singleton in Hv. destruct Hv as [[->| ->]| ->]; done.
Qed.

Lemma ex_vspace : vspace ∅ 2148564992 ex_space ex_mem.
Proof.
  assert (∀ v, owns 2148564992 ex_space v ↔ v = 2148564992 ∨ v = 2148569088 ∨ v = 2148573184) as Ho.
  { intros v. unfold owns, ex_space. cbn [tabs user]. setoid_rewrite lookup_singleton_Some. naive_solver. }
  assert (tabs ex_space = {[0%nat := 2148569088]}) as Et by done. assert (user ex_space = {[0%nat := mk_uent 2148573184 7 zero_page]}) as Eu by done.
  split; unfold ex_mem, ex_frames; cbn [frames]; rewrite ?Et, ?Eu.
  - apply ex_allocated.
  - by rewrite lookup_insert_eq.
  - intros i t [<- <-]%lookup_singleton_Some. split_and!; [unfold NPDENTRIES; lia|done|]. by rewrite lookup_insert_ne, lookup_insert_eq.
  - by intros i j t [<- _]%lookup_singleton_Some [<- _]%lookup_singleton_Some.
  - intros n u [<- <-]%lookup_singleton_Some. split_and!; [rewrite <- npages_kern; apply npages_spec; done|by eexists|by rewrite !lookup_insert_ne, lookup_singleton_eq|].
    split; [apply length_zero_page|done|done].
  - by intros n m u w [<- _]%lookup_singleton_Some [<- _]%lookup_singleton_Some.
  - intros n e He. by apply (lookup_empty_Some n e) in He.
  - intros v Hv. rewrite Ho in Hv. rewrite !lookup_insert_ne, lookup_singleton_ne, lookup_empty by (intros <-; apply Hv; eauto). done.
  - intros v _. apply lookup_empty.
Qed.

Lemma fork_copies_memory_witness : ∃ r s', copyuvm 2148564992 2148564992 4096 ex_mem = Some (r, s') ∧ ∃ R', vspace R' 2148564992 ex_space s'.
Proof.
  destruct (fork_copies_memory ∅ 2148564992 ex_space ex_mem 4096 2148564992) as (r&s'&E&_&V&_); [exact ex_vspace|split; discriminate| |split; [reflexivity|split; reflexivity]|exists r, s'; split; [exact E|exact V]].
  intros m Hm. change (npages 4096) with 1%nat in Hm. replace m with 0%nat by lia. exists (mk_uent 2148573184 7 zero_page). reflexivity.
Defined.

Lemma growing_and_shrinking_witness :
  ∃ r s', allocuvm 2148564992 4096 12288 ex_mem = Some (r, s') ∧ ∃ s3, freevm_pages 2148564992 s' = Some ((), s3) ∧ frames s3 = ∅.
Proof.
  destruct (growing_and_shrinking ∅ 2148564992 {[0%nat := 2148569088]} ∅ {[0%nat := mk_uent 2148573184 7 zero_page]} ex_mem 4096 12288)
    as (r&s'&tb&us&E&_&_&F); [exact ex_vspace|split; discriminate| |exists r, s'; split; [exact E|exact F]].
  intros m Hm. change (npages 4096) with 1%nat in Hm. apply lookup_singleton_ne. lia.
Defined.

(** A program of one segment: four bytes of code. *)
Definition ex_file : list byte :=
  concat (le32 <$> [1179403647; 0; 0; 0; 196610; 1; 0; 52; 0; 0; 2097204; 1; 0;
                    1; 84; 0; 0; 4; 4; 5; 4096; 4276545]).

Lemma exec_builds_image_witness :
  ∃ r s', exec_image (λ _, Some ex_file) 2148564992 (cs "/cat") [cs "cat"; cs "README"] (mk_xst ex_mem []) = Some (r, s') ∧
    calls s' = [Begin_op; Ilock; Iunlockput; End_op].
Proof.
  destruct (exec_builds_image (λ _, Some ex_file) 2148564992 (cs "/cat") [cs "cat"; cs "README"] (mk_xst ex_mem [])) as (r&s'&E&Hc&_).
  - exact ex_allocated.
  - split; [reflexivity|split; reflexivity].
  - intros ip Hip. injection Hip as <-. reflexivity.
  - repeat constructor.
  - exists r, s'. split; [exact E|exact Hc].
Defined.

(** The image of the program: the code, two pages above it, and on the stack the
    arguments below their strings. *)
Example ex_image : (λ x, (x.1, take 4 x.2, drop 12240 x.2)) <$> flat_exec ex_file [cs "cat"; cs "README"] =
  Some (12288, 12252, le32 4276545, replicate 12 NUL ++ concat (le32 <$> [4294967295; 2; 12264; 12284; 12276; 0]) ++ cs "README" ++ [NUL; NUL] ++ cs "cat" ++ [NUL]).
Proof. vm_compute. reflexivity. Qed.
