(* ===== verification/XvFs.v ===== *)
(** The file system of xv6 (fs.c): allocation of blocks, inodes and their
    content, directories, path names. The calls of one process, between the
    begin and the end of a transaction, run on the blocks that the block cache
    and the log promise: [bread] gives the last contents that were logged.

    A buffer or an inode that is locked twice is a deadlock, modelled as a fault
    like a panic. *)

From stdpp Require Import base option list numbers gmap sets.
From coqutil Require Import Datatypes.RecordSettersUsingExistingGetters Word.LittleEndianList.
From Stdlib Require Import Strings.Byte ZArith Lia.
From S2P Require Import Prelude CString.
Local Open Scope Z_scope.

(** * Formats *)

Definition ROOTINO : Z := 1.
Definition BSIZE : Z := 512.
Definition NDIRECT : nat := 12.
Definition NINDIRECT : nat := 128.
Definition MAXFILE : Z := 140.
Definition IPB : Z := 8.
Definition BPB : Z := 4096.
Definition DIRSIZ : nat := 14.
Definition NINODE : nat := 50.
Definition NDEV : Z := 10.
Definition T_DIR : Z := 1.
Definition T_FILE : Z := 2.
Definition T_DEV : Z := 3.

Record superblock := mk_sb { sb_size : Z; nblocks : Z; ninodes : Z; nlog : Z; logstart : Z; inodestart : Z; bmapstart : Z }.

Record dinode := mk_dinode { d_type : Z; d_major : Z; d_minor : Z; d_nlink : Z; d_size : Z; d_addrs : list Z }.
Definition sizeof_dinode : nat := 64.

(** The number of [n] bytes at offset [off]. *)
Definition num_at (off n : nat) (l : list byte) : Z := le_combine (take n (drop off l)).
Definition s16 : Z → Z := to_signed 16.

Definition enc_dinode (d : dinode) : list byte :=
  le_split 2 (d_type d) ++ le_split 2 (d_major d) ++ le_split 2 (d_minor d) ++ le_split 2 (d_nlink d) ++ le_split 4 (d_size d) ++
  concat (le_split 4 <$> d_addrs d).
Definition dec_dinode (l : list byte) : dinode :=
  mk_dinode (s16 (num_at 0 2 l)) (s16 (num_at 2 2 l)) (s16 (num_at 4 2 l)) (s16 (num_at 6 2 l)) (num_at 8 4 l)
    ((λ k, num_at (12 + 4 * k) 4 l) <$> seq 0 (S NDIRECT)).

(** Inode number [k] of a block. *)
Definition dinode_at (k : nat) (l : list byte) : dinode := dec_dinode (take sizeof_dinode (drop (sizeof_dinode * k) l)).
Definition set_dinode (k : nat) (d : dinode) (l : list byte) : list byte := patch (sizeof_dinode * k) (enc_dinode d) l.

(** A block as an array of numbers. *)
Definition word (k : nat) (l : list byte) : Z := num_at (4 * k) 4 l.
Definition set_word (k : nat) (w : Z) (l : list byte) : list byte := patch (4 * k) (le_split 4 w) l.

(** The bit of a block in a block of the bitmap. *)
Definition test_bit (bi : Z) (l : list byte) : bool :=
  bool_decide (Z.land (num_at (Z.to_nat (bi / 8)) 1 l) (Z.shiftl 1 (bi mod 8)) ≠ 0).
Definition set_bit (bi : Z) (l : list byte) : list byte :=
  patch (Z.to_nat (bi / 8)) (le_split 1 (Z.lor (num_at (Z.to_nat (bi / 8)) 1 l) (Z.shiftl 1 (bi mod 8)))) l.
Definition clear_bit (bi : Z) (l : list byte) : list byte :=
  patch (Z.to_nat (bi / 8)) (le_split 1 (Z.land (num_at (Z.to_nat (bi / 8)) 1 l) (Z.lnot (Z.shiftl 1 (bi mod 8))))) l.

Definition zero_block : list byte := replicate (Z.to_nat BSIZE) NUL.

(** * State *)

(** An entry of the inode cache: a reference count and a copy of an inode. *)
Record inode := mk_inode { inum : Z; ref : Z; valid : bool; locked : bool; din : dinode }.

(** The disk, the buffers that are locked, the transactions that are open, the
    blocks they logged, and the inode cache. *)
Record fss := mk_fss {
  sb : superblock;
  disk : gmap Z (list byte);
  held : gset Z;
  outstanding : nat;
  logged : gset Z;
  icache : list inode;
}.
Abbreviation M := (ST fss).

Definition bread (b : Z) : M (list byte) := λ s,
  if decide (b ∈ held s) then None
  else data ← disk s !! b; Some (data, { s with held ::= λ h, {[b]} ∪ h }).
Definition brelse (b : Z) : M () := λ s,
  if decide (b ∈ held s) then Some ((), { s with held ::= λ h, h ∖ {[b]} }) else None.

(** [log_write] of a buffer with its new contents. *)
Definition log_write (b : Z) (data : list byte) : M () := λ s,
  if decide (b ∉ held s ∨ outstanding s = 0%nat) then None
  else Some ((), { s with disk ::= <[b := data]>; logged ::= λ l, {[b]} ∪ l }).

Definition begin_op : M () := modify (λ s, { s with outstanding ::= S; logged := if decide (outstanding s = 0%nat) then ∅ else logged s }).
Definition end_op : M () := modify (λ s, { s with outstanding ::= Nat.pred }).

Definition IBLOCK (i : Z) (b : superblock) : Z := i / IPB + inodestart b.
Definition BBLOCK (b : Z) (x : superblock) : Z := b / BPB + bmapstart x.

Definition readsb : M superblock :=
  l ← bread 1;
  brelse 1;;
  mret (mk_sb (word 0 l) (word 1 l) (word 2 l) (word 3 l) (word 4 l) (word 5 l) (word 6 l)).
Definition iinit : M () := b ← readsb; modify (λ s, { s with sb := b }).

(** * Blocks *)

Definition bzero (bno : Z) : M () := bread bno;; log_write bno zero_block;; brelse bno.

(** The inner loop of [balloc] over the bits of a block, with [n] of them left. *)
Fixpoint find_bit (n : nat) (size b bi : Z) (data : list byte) : option Z :=
  match n with
  | O => None
  | S n => if decide (b + bi < size) then if test_bit bi data then find_bit n size b (bi + 1) data else Some bi else None
  end.

Fixpoint balloc_loop (fuel : nat) (b : Z) : M Z :=
  x ← gets sb;
  if decide (b < sb_size x) then
    match fuel with
    | O => fault
    | S fuel =>
        data ← bread (BBLOCK b x);
        match find_bit (Z.to_nat BPB) (sb_size x) b 0 data with
        | Some bi =>
            log_write (BBLOCK b x) (set_bit bi data);;
            brelse (BBLOCK b x);;
            bzero (b + bi);;
            mret (b + bi)
        | None => brelse (BBLOCK b x);; balloc_loop fuel (b + BPB)
        end
    end
  else fault.
Definition balloc : M Z := x ← gets sb; balloc_loop (Z.to_nat (sb_size x / BPB + 1)) 0.

Definition bfree (b : Z) : M () :=
  x ← gets sb;
  data ← bread (BBLOCK b x);
  let bi := b mod BPB in
  if test_bit bi data then log_write (BBLOCK b x) (clear_bit bi data);; brelse (BBLOCK b x) else fault.

(** * Inodes *)

(** An inode in the cache is named by its position. *)
Definition read_inode (i : nat) : M inode := λ s, ip ← icache s !! i; Some (ip, s).
Definition upd_inode (i : nat) (f : inode → inode) : M () := modify (λ s, { s with icache ::= alter f i }).
Definition upd_din (i : nat) (f : dinode → dinode) : M () := upd_inode i (λ ip, { ip with din ::= f }).

Definition iget (n : Z) : M nat := λ s,
  match list_find (λ ip, 0 < ref ip ∧ inum ip = n) (icache s) with
  | Some (i, _) => Some (i, { s with icache ::= alter (λ ip, { ip with ref ::= λ r, r + 1 }) i })
  | None =>
      match list_find (λ ip, ref ip = 0) (icache s) with
      | Some (i, _) => Some (i, { s with icache ::= alter (λ ip, { ip with inum := n; ref := 1; valid := false }) i })
      | None => None
      end
  end.

Definition idup (i : nat) : M nat := upd_inode i (λ ip, { ip with ref ::= λ r, r + 1 });; mret i.

(** The loop of [ialloc] from inode [n] on. *)
Fixpoint ialloc_loop (fuel : nat) (type n : Z) : M nat :=
  x ← gets sb;
  if decide (n < ninodes x) then
    match fuel with
    | O => fault
    | S fuel =>
        data ← bread (IBLOCK n x);
        if decide (d_type (dinode_at (Z.to_nat (n mod IPB)) data) = 0) then
          log_write (IBLOCK n x) (set_dinode (Z.to_nat (n mod IPB)) (mk_dinode type 0 0 0 0 (replicate (S NDIRECT) 0)) data);;
          brelse (IBLOCK n x);;
          iget n
        else brelse (IBLOCK n x);; ialloc_loop fuel type (n + 1)
    end
  else fault.
Definition ialloc (type : Z) : M nat := x ← gets sb; ialloc_loop (Z.to_nat (ninodes x)) type 1.

Definition iupdate (i : nat) : M () :=
  x ← gets sb;
  ip ← read_inode i;
  data ← bread (IBLOCK (inum ip) x);
  log_write (IBLOCK (inum ip) x) (set_dinode (Z.to_nat (inum ip mod IPB)) (din ip) data);;
  brelse (IBLOCK (inum ip) x).

Definition ilock (i : nat) : M () :=
  x ← gets sb;
  ip ← read_inode i;
  if decide (ref ip < 1) then fault
  else if locked ip then fault
  else
    upd_inode i (λ ip, { ip with locked := true });;
    if valid ip then mret ()
    else
      data ← bread (IBLOCK (inum ip) x);
      upd_inode i (λ ip, { ip with din := dinode_at (Z.to_nat (inum ip mod IPB)) data });;
      brelse (IBLOCK (inum ip) x);;
      upd_inode i (λ ip, { ip with valid := true });;
      ip ← read_inode i;
      if decide (d_type (din ip) = 0) then fault else mret ().

Definition iunlock (i : nat) : M () :=
  ip ← read_inode i;
  if negb (locked ip) || bool_decide (ref ip < 1) then fault else upd_inode i (λ ip, { ip with locked := false }).

(** * Content *)

Definition addr (k : nat) (d : dinode) : Z := d_addrs d !!! k.
Definition set_addr (k : nat) (a : Z) (d : dinode) : dinode := { d with d_addrs ::= <[k := a]> }.

(** [bmap] in the block of numbers [ind]. *)
Definition bmap_indirect (ind bn : Z) : M Z :=
  data ← bread ind;
  if decide (word (Z.to_nat bn) data = 0) then
    a ← balloc;
    log_write ind (set_word (Z.to_nat bn) a data);;
    brelse ind;;
    mret a
  else
    brelse ind;;
    mret (word (Z.to_nat bn) data).

Definition bmap (i : nat) (bn : Z) : M Z :=
  ip ← read_inode i;
  if decide (bn < Z.of_nat NDIRECT) then
    if decide (addr (Z.to_nat bn) (din ip) = 0) then
      a ← balloc;
      upd_din i (set_addr (Z.to_nat bn) a);;
      mret a
    else mret (addr (Z.to_nat bn) (din ip))
  else
    let bn := bn - Z.of_nat NDIRECT in
    if decide (bn < Z.of_nat NINDIRECT) then
      ind ← (if decide (addr NDIRECT (din ip) = 0) then a ← balloc; upd_din i (set_addr NDIRECT a);; mret a else mret (addr NDIRECT (din ip)));
      bmap_indirect ind bn
    else fault.

(** The loop of [itrunc] over the direct blocks from [k] on, [n] of them. *)
Fixpoint free_direct (n k i : nat) : M () :=
  match n with
  | O => mret ()
  | S n =>
      ip ← read_inode i;
      (if decide (addr k (din ip) = 0) then mret () else bfree (addr k (din ip));; upd_din i (set_addr k 0));;
      free_direct n (S k) i
  end.

(** The loop over the blocks that the indirect block [data] names. *)
Fixpoint free_indirect (n k : nat) (data : list byte) : M () :=
  match n with
  | O => mret ()
  | S n => (if decide (word k data = 0) then mret () else bfree (word k data));; free_indirect n (S k) data
  end.

(** The indirect block and the blocks it names. *)
Definition free_ind (i : nat) : M () :=
  ip ← read_inode i;
  let ind := addr NDIRECT (din ip) in
  if decide (ind = 0) then mret ()
  else
    data ← bread ind;
    free_indirect NINDIRECT 0 data;;
    brelse ind;;
    bfree ind;;
    upd_din i (set_addr NDIRECT 0).

Definition itrunc (i : nat) : M () :=
  free_direct NDIRECT 0 i;;
  free_ind i;;
  upd_din i (λ d, { d with d_size := 0 });;
  iupdate i.

Definition iput (i : nat) : M () :=
  ip ← read_inode i;
  if locked ip then fault
  else
    upd_inode i (λ ip, { ip with locked := true });;
    (if valid ip && bool_decide (d_nlink (din ip) = 0) && bool_decide (ref ip = 1) then
       itrunc i;;
       upd_din i (λ d, { d with d_type := 0 });;
       iupdate i;;
       upd_inode i (λ ip, { ip with valid := false })
     else mret ());;
    upd_inode i (λ ip, { ip with locked := false });;
    upd_inode i (λ ip, { ip with ref ::= λ r, r - 1 }).

Definition iunlockput (i : nat) : M () := iunlock i;; iput i.

Record stat := mk_stat { st_ino : Z; st_type : Z; st_nlink : Z; st_size : Z }.
Definition stati (i : nat) : M stat :=
  ip ← read_inode i; mret (mk_stat (inum ip) (d_type (din ip)) (d_nlink (din ip)) (d_size (din ip))).

Section devices.
(** The device switch: what reading a number of bytes from a device, or writing
    some, returns; [None] is a device without the function, or -1. *)
Context (dev_read : Z → option (Z → option (list byte))) (dev_write : Z → option (list byte → Z)).

(** The loop of [readi] with [n] bytes left. *)
Fixpoint read_loop (fuel : nat) (i : nat) (off n : Z) : M (list byte) :=
  if decide (0 < n) then
    match fuel with
    | O => fault
    | S fuel =>
        b ← bmap i (off / BSIZE);
        data ← bread b;
        let m := Z.min n (BSIZE - off mod BSIZE) in
        brelse b;;
        rest ← read_loop fuel i (off + m) (n - m);
        mret (take (Z.to_nat m) (drop (Z.to_nat (off mod BSIZE)) data) ++ rest)
    end
  else mret [].

(** [readi]: the bytes read; [None] is -1. *)
Definition readi (i : nat) (off n : Z) : M (option (list byte)) :=
  ip ← read_inode i;
  let d := din ip in
  if decide (d_type d = T_DEV) then
    if decide (d_major d < 0 ∨ NDEV ≤ d_major d) then mret None
    else mret (match dev_read (d_major d) with None => None | Some f => f n end)
  else if decide (d_size d < off ∨ u32 (off + n) < off) then mret None
  else
    let n := if decide (d_size d < u32 (off + n)) then d_size d - off else n in
    l ← read_loop (Z.to_nat n) i off n; mret (Some l).

Fixpoint write_loop (fuel : nat) (i : nat) (src : list byte) (off : Z) : M Z :=
  match src with
  | [] => mret off
  | _ =>
      match fuel with
      | O => fault
      | S fuel =>
          b ← bmap i (off / BSIZE);
          data ← bread b;
          let m := Z.min (Z.of_nat (length src)) (BSIZE - off mod BSIZE) in
          log_write b (patch (Z.to_nat (off mod BSIZE)) (take (Z.to_nat m) src) data);;
          brelse b;;
          write_loop fuel i (drop (Z.to_nat m) src) (off + m)
      end
  end.

Definition writei (i : nat) (src : list byte) (off : Z) : M Z :=
  ip ← read_inode i;
  let d := din ip in
  let n := Z.of_nat (length src) in
  if decide (d_type d = T_DEV) then
    if decide (d_major d < 0 ∨ NDEV ≤ d_major d) then mret (-1)
    else mret (match dev_write (d_major d) with None => -1 | Some f => f src end)
  else if decide (d_size d < off ∨ u32 (off + n) < off) then mret (-1)
  else if decide (MAXFILE * BSIZE < u32 (off + n)) then mret (-1)
  else
    off ← write_loop (length src) i src off;
    ip ← read_inode i;
    (if decide (0 < n ∧ d_size (din ip) < off) then upd_din i (λ d, { d with d_size := off });; iupdate i else mret ());;
    mret n.

(** * Directories *)

Definition sizeof_dirent : Z := 16.
Definition de_inum (l : list byte) : Z := num_at 0 2 l.
Definition de_name (l : list byte) : list byte := drop 2 l.
Definition enc_dirent (n : Z) (name : cstr) : list byte := le_split 2 n ++ strncpy_bytes name DIRSIZ.

Definition namecmp (s t : list byte) : bool := strncmp_eq s t DIRSIZ.

(** The loop of [dirlookup] from offset [off] on. *)
Fixpoint dirlookup_loop (fuel : nat) (dp : nat) (name : cstr) (off : Z) : M (option (nat * Z)) :=
  ip ← read_inode dp;
  if decide (off < d_size (din ip)) then
    match fuel with
    | O => fault
    | S fuel =>
        r ← readi dp off sizeof_dirent;
        match r with
        | None => fault
        | Some de =>
            if decide (Z.of_nat (length de) ≠ sizeof_dirent) then fault
            else if decide (de_inum de = 0) then dirlookup_loop fuel dp name (off + sizeof_dirent)
            else if namecmp name (de_name de) then i ← iget (de_inum de); mret (Some (i, off))
            else dirlookup_loop fuel dp name (off + sizeof_dirent)
        end
    end
  else mret None.
Definition dirlookup (dp : nat) (name : cstr) : M (option (nat * Z)) :=
  ip ← read_inode dp;
  if decide (d_type (din ip) ≠ T_DIR) then fault
  else dirlookup_loop (Z.to_nat (d_size (din ip) / sizeof_dirent + 1)) dp name 0.

(** The offset of the first free entry, or the end. *)
Fixpoint free_entry (fuel : nat) (dp : nat) (off : Z) : M Z :=
  ip ← read_inode dp;
  if decide (off < d_size (din ip)) then
    match fuel with
    | O => fault
    | S fuel =>
        r ← readi dp off sizeof_dirent;
        match r with
        | None => fault
        | Some de =>
            if decide (Z.of_nat (length de) ≠ sizeof_dirent) then fault
            else if decide (de_inum de = 0) then mret off else free_entry fuel dp (off + sizeof_dirent)
        end
    end
  else mret off.

Definition dirlink (dp : nat) (name : cstr) (n : Z) : M Z :=
  r ← dirlookup dp name;
  match r with
  | Some (i, _) => iput i;; mret (-1)
  | None =>
      ip ← read_inode dp;
      off ← free_entry (Z.to_nat (d_size (din ip) / sizeof_dirent + 1)) dp 0;
      r ← writei dp (enc_dirent n name) off;
      if decide (r ≠ sizeof_dirent) then fault else mret 0
  end.

(** * Paths *)

(** The first element of a path, cut to the size of a name, and the rest. *)
Definition skipelem (path : cstr) : option (cstr * cstr) :=
  match drop_while (.= SLASH) path with
  | [] => None
  | p => Some (take DIRSIZ (take_while (.≠ SLASH) p), drop_while (.= SLASH) (drop_while (.≠ SLASH) p))
  end.

(** The loop of [namex]; [None] is a null pointer. *)
Fixpoint namex_loop (fuel : nat) (i : nat) (path : cstr) (parent : bool) : M (option (nat * cstr)) :=
  match skipelem path with
  | None => if parent then iput i;; mret None else mret (Some (i, []))
  | Some (name, path) =>
      match fuel with
      | O => fault
      | S fuel =>
          ilock i;;
          ip ← read_inode i;
          if decide (d_type (din ip) ≠ T_DIR) then iunlockput i;; mret None
          else if parent && bool_decide (path = []) then iunlock i;; mret (Some (i, name))
          else
            next ← dirlookup i name;
            match next with
            | None => iunlockput i;; mret None
            | Some (j, _) => iunlockput i;; namex_loop fuel j path parent
            end
      end
  end.
Definition namex (cwd : nat) (path : cstr) (parent : bool) : M (option (nat * cstr)) :=
  i ← (if decide (head path = Some SLASH) then iget ROOTINO else idup cwd);
  namex_loop (length path) i path parent.

Definition namei (cwd : nat) (path : cstr) : M (option nat) := r ← namex cwd path false; mret (fst <$> r).
Definition nameiparent (cwd : nat) (path : cstr) : M (option (nat * cstr)) := namex cwd path true.

End devices.
