(* ===== verification/XvFsInv.v ===== *)
(** The formats of the xv6 file system on disk, which are read back as they were
    written; its invariant: every inode owns its blocks, and a block is marked in
    the bitmap exactly when it is in use; and the allocation of blocks, which
    keeps it. *)

From stdpp Require Import base option list numbers gmap sets.
From coqutil Require Import Datatypes.RecordSettersUsingExistingGetters Word.LittleEndianList Byte.
From Stdlib Require Import Strings.Byte ZArith Lia.
From S2P Require Import Prelude CString XvFs.
Local Open Scope Z_scope.

(** * Numbers *)

Lemma length_le n z : length (le_split n z) = n.
Proof. apply length_le_split. Qed.

Lemma slice_patch {A} off n (b l : list A) : (off + n ≤ length l)%nat → length b = n → take n (drop off (patch off b l)) = b.
Proof.
  intros Hl Hb. unfold patch. rewrite drop_app_length' by (rewrite length_take; lia). by rewrite take_app_length'.
Qed.

Lemma slice_patch_other {A} off n off' (b l : list A) :
  (off + length b ≤ length l)%nat → (off + length b ≤ off' ∨ off' + n ≤ off)%nat → take n (drop off' (patch off b l)) = take n (drop off' l).
Proof.
  intros Hl Ho. apply list_eq. intros i. destruct (decide (i < n)%nat) as [Hi|Hi].
  - rewrite !lookup_take_lt, !lookup_drop, lookup_patch by lia. by rewrite decide_False by lia.
  - by rewrite !lookup_take_ge by lia.
Qed.

Lemma num_at_patch off n v l : (off + n ≤ length l)%nat → num_at off n (patch off (le_split n v) l) = v mod 2 ^ (Z.of_nat n * 8).
Proof. intros Hl. unfold num_at. rewrite slice_patch; [apply le_combine_split|done|apply length_le]. Qed.

Lemma num_at_other off n off' n' v l :
  (off + n ≤ length l)%nat → (off + n ≤ off' ∨ off' + n' ≤ off)%nat → num_at off' n' (patch off (le_split n v) l) = num_at off' n' l.
Proof. intros Hl Ho. unfold num_at. rewrite slice_patch_other; rewrite ?length_le; done. Qed.

Lemma num_at_app (l1 l2 l3 : list byte) off n : length l1 = off → length l2 = n → num_at off n (l1 ++ l2 ++ l3) = le_combine l2.
Proof. intros <- <-. unfold num_at. rewrite drop_app_length. by rewrite take_app_length. Qed.

Lemma num_at_bound off n l : 0 ≤ num_at off n l < 2 ^ (8 * Z.of_nat n).
Proof.
  unfold num_at. pose proof (le_combine_bound (take n (drop off l))) as [? Hb]. split; [done|]. eapply Z.lt_le_trans; [exact Hb|].
  apply Z.pow_le_mono_r; [lia|]. rewrite length_take. lia.
Qed.

(** * Arrays *)

Lemma word_set k w l : (4 * k + 4 ≤ length l)%nat → 0 ≤ w < 2 ^ 32 → word k (set_word k w l) = w.
Proof. intros Hl Hw. unfold word, set_word. rewrite num_at_patch by done. by apply Z.mod_small. Qed.

Lemma word_set_other k k' w l : (4 * k + 4 ≤ length l)%nat → k ≠ k' → word k' (set_word k w l) = word k' l.
Proof. intros Hl Hk. unfold word, set_word. apply num_at_other; lia. Qed.

Lemma length_set_word k w l : (4 * k + 4 ≤ length l)%nat → length (set_word k w l) = length l.
Proof. intros Hl. apply length_patch. by rewrite length_le. Qed.

Lemma word_zero k : word k zero_block = 0.
Proof.
  unfold word, num_at, zero_block. rewrite drop_replicate, take_replicate. generalize (min 4 (Z.to_nat BSIZE - 4 * k)). intros n.
  induction n as [|n IH]; [done|]. change (le_combine (replicate (S n) NUL)) with (Z.lor 0 (Z.shiftl (le_combine (replicate n NUL)) 8)). by rewrite IH.
Qed.

Lemma slice_concat {A} (f : A → list byte) n l k x : (∀ y, length (f y) = n) → l !! k = Some x → take n (drop (n * k) (concat (f <$> l))) = f x.
Proof.
  intros Hf. revert k. induction l as [|y l IH]; intros [|k] Hk; simplify_eq/=.
  - rewrite Nat.mul_0_r, drop_0. by rewrite take_app_length'.
  - rewrite Nat.mul_succ_r, Nat.add_comm, <- drop_drop, drop_app_length' by done. by apply IH.
Qed.

(** * Inodes *)

(** The fields are in their ranges. *)
Record dinode_ok (d : dinode) : Prop := {
  do_type : - 2 ^ 15 ≤ d_type d < 2 ^ 15;
  do_major : - 2 ^ 15 ≤ d_major d < 2 ^ 15;
  do_minor : - 2 ^ 15 ≤ d_minor d < 2 ^ 15;
  do_nlink : - 2 ^ 15 ≤ d_nlink d < 2 ^ 15;
  do_size : 0 ≤ d_size d < 2 ^ 32;
  do_addrs : length (d_addrs d) = S NDIRECT;
  do_addr : Forall (λ a, 0 ≤ a < 2 ^ 32) (d_addrs d);
}.

Lemma length_concat_le l : length (concat (le_split 4 <$> l)) = (4 * length l)%nat.
Proof. induction l as [|z l IH]; [done|]. rewrite fmap_cons. cbn [concat length]. rewrite length_app, IH, length_le. lia. Qed.

Lemma length_enc d : dinode_ok d → length (enc_dinode d) = sizeof_dinode.
Proof. intros Hd. unfold enc_dinode. rewrite !length_app, !length_le, length_concat_le, (do_addrs _ Hd). done. Qed.

Lemma s16_le z : - 2 ^ 15 ≤ z < 2 ^ 15 → s16 (le_combine (le_split 2 z)) = z.
Proof.
  intros Hz. rewrite le_combine_split. unfold s16, to_signed. change (Z.of_nat 2 * 8) with 16. change (2 ^ 16) with 65536. change (2 ^ (16 - 1)) with 32768.
  change (2 ^ 15) with 32768 in Hz. rewrite Zplus_mod_idemp_l. rewrite Z.mod_small by lia. lia.
Qed.

Lemma dec_enc d : dinode_ok d → dec_dinode (enc_dinode d) = d.
Proof.
  intros [H1 H2 H3 H4 H5 H6 H7]. destruct d as [ty ma mi nl sz ad]. cbn [d_type d_major d_minor d_nlink d_size d_addrs] in *. unfold dec_dinode, enc_dinode.
  cbn [d_type d_major d_minor d_nlink d_size d_addrs]. set (A := concat _).
  assert (∀ off n l1 l2 l3 l, l = l1 ++ l2 ++ l3 → length l1 = off → length l2 = n → num_at off n l = le_combine l2) as Hn by (intros; subst l; by apply num_at_app).
  f_equal.
  - rewrite (Hn 0 2 [] (le_split 2 ty) (le_split 2 ma ++ le_split 2 mi ++ le_split 2 nl ++ le_split 4 sz ++ A))%nat; [by apply s16_le|done|done|apply length_le].
  - rewrite (Hn 2 2 (le_split 2 ty) (le_split 2 ma) (le_split 2 mi ++ le_split 2 nl ++ le_split 4 sz ++ A))%nat; [by apply s16_le|done|apply length_le|apply length_le].
  - rewrite (Hn 4 2 (le_split 2 ty ++ le_split 2 ma) (le_split 2 mi) (le_split 2 nl ++ le_split 4 sz ++ A))%nat; [by apply s16_le|by rewrite <- !app_assoc|by rewrite length_app, !length_le|apply length_le].
  - rewrite (Hn 6 2 (le_split 2 ty ++ le_split 2 ma ++ le_split 2 mi) (le_split 2 nl) (le_split 4 sz ++ A))%nat; [by apply s16_le|by rewrite <- !app_assoc|by rewrite !length_app, !length_le|apply length_le].
  - rewrite (Hn 8 4 (le_split 2 ty ++ le_split 2 ma ++ le_split 2 mi ++ le_split 2 nl) (le_split 4 sz) A)%nat; [|by rewrite <- !app_assoc|by rewrite !length_app, !length_le|apply length_le].
    rewrite le_combine_split. by apply Z.mod_small.
  - apply list_eq. intros k. rewrite list_lookup_fmap. destruct (decide (k < S NDIRECT)%nat) as [Hk|Hk].
    + rewrite lookup_seq_lt by done. rewrite Nat.add_0_l. cbn [fmap option_fmap option_map]. destruct (lookup_lt_is_Some_2 ad k) as [a Ha]; [lia|]. rewrite Ha. f_equal. unfold num_at.
      rewrite !app_assoc. rewrite <- drop_drop, drop_app_length' by (rewrite !length_app, !length_le; done). unfold A. rewrite (slice_concat (le_split 4) 4 ad k a); [|intros; apply length_le|done].
      rewrite le_combine_split. apply Z.mod_small. by eapply Forall_lookup_1 in Ha; [|exact H7].
    + rewrite lookup_seq_ge by lia. symmetry. apply lookup_ge_None_2. lia.
Qed.

Lemma dinode_at_set k d l : dinode_ok d → (sizeof_dinode * k + sizeof_dinode ≤ length l)%nat → dinode_at k (set_dinode k d l) = d.
Proof. intros Hd Hl. unfold dinode_at, set_dinode. rewrite slice_patch; [by apply dec_enc|done|by apply length_enc]. Qed.

Lemma dinode_at_other k k' d l :
  dinode_ok d → (sizeof_dinode * k + sizeof_dinode ≤ length l)%nat → k ≠ k' → dinode_at k' (set_dinode k d l) = dinode_at k' l.
Proof. intros Hd Hl Hk. unfold dinode_at, set_dinode. rewrite slice_patch_other; [done|by rewrite length_enc|rewrite length_enc by done; unfold sizeof_dinode; lia]. Qed.

Lemma length_set_dinode k d l : dinode_ok d → (sizeof_dinode * k + sizeof_dinode ≤ length l)%nat → length (set_dinode k d l) = length l.
Proof. intros Hd Hl. apply length_patch. by rewrite length_enc. Qed.

(** * Bits *)

Lemma test_bit_spec bi l : test_bit bi l = Z.testbit (num_at (Z.to_nat (bi / 8)) 1 l) (bi mod 8).
Proof.
  unfold test_bit. set (w := num_at _ _ _). assert (0 ≤ bi mod 8) as Hk by (apply Z.mod_pos_bound; lia). rewrite Z.shiftl_1_l.
  destruct (Z.testbit w (bi mod 8)) eqn:E.
  - apply bool_decide_eq_true. intros H0. assert (Z.testbit (Z.land w (2 ^ (bi mod 8))) (bi mod 8) = false) as Hf by (by rewrite H0, Z.testbit_0_l).
    rewrite Z.land_spec, E, Z.pow2_bits_true in Hf by done. done.
  - apply bool_decide_eq_false. intros H0. apply H0. apply Z.bits_inj'. intros k Hk'. rewrite Z.land_spec, Z.bits_0.
    destruct (decide (k = bi mod 8)) as [->|]; [by rewrite E|]. rewrite Z.pow2_bits_false by done. apply andb_false_r.
Qed.

(** Setting and clearing a bit as one change of a byte. *)
Definition put_bit (v : bool) (bi : Z) (l : list byte) : list byte := if v then set_bit bi l else clear_bit bi l.

Lemma test_put_bit v bi bj l :
  0 ≤ bi < 8 * Z.of_nat (length l) → 0 ≤ bj → test_bit bj (put_bit v bi l) = if decide (bj = bi) then v else test_bit bj l.
Proof.
  intros Hi Hj. rewrite !test_bit_spec. set (w := num_at (Z.to_nat (bi / 8)) 1 l).
  assert (0 ≤ bi mod 8 < 8 ∧ 0 ≤ bj mod 8 < 8) as [Hki Hkj] by (split; apply Z.mod_pos_bound; lia).
  assert (∃ x, put_bit v bi l = patch (Z.to_nat (bi / 8)) (le_split 1 x) l ∧ ∀ k, 0 ≤ k → Z.testbit x k = if decide (k = bi mod 8) then v else Z.testbit w k) as (x&Ex&Hx).
  { destruct v; eexists; (split; [reflexivity|]); intros k Hk; fold w; rewrite Z.shiftl_1_l.
    - rewrite Z.lor_spec. case_decide as D; [rewrite D, Z.pow2_bits_true by lia; apply orb_true_r|rewrite Z.pow2_bits_false by done; apply orb_false_r].
    - rewrite Z.land_spec, Z.lnot_spec by done. case_decide as D; [rewrite D, Z.pow2_bits_true by lia; apply andb_false_r|rewrite Z.pow2_bits_false by done; apply andb_true_r]. }
  rewrite Ex. assert (Z.to_nat (bi / 8) + 1 ≤ length l)%nat as Hl by (Z.to_euclidean_division_equations; lia). destruct (decide (bj / 8 = bi / 8)) as [Eq|Eq].
  - rewrite Eq, num_at_patch by done. change (Z.of_nat 1 * 8) with 8. rewrite Z.mod_pow2_bits_low by lia. rewrite Hx by lia. fold w.
    destruct (decide (bj = bi)) as [->|Hne]; [by rewrite decide_True|rewrite decide_False; [done|]]. intros Em. apply Hne.
    rewrite (Z.div_mod bj 8), (Z.div_mod bi 8) by lia. lia.
  - rewrite num_at_other; [by rewrite decide_False by congruence|done|]. Z.to_euclidean_division_equations. lia.
Qed.

Lemma length_put_bit v bi l : 0 ≤ bi < 8 * Z.of_nat (length l) → length (put_bit v bi l) = length l.
Proof. intros Hi. destruct v; apply length_patch; rewrite length_le; Z.to_euclidean_division_equations; lia. Qed.

(** The invariant of the xv6 file system on disk: every inode owns its blocks,
    and a block is marked in the bitmap exactly when it is part of the layout,
    owned, or on its way to or from an inode. *)

(** * Inodes with their blocks *)

(** The blocks in order, and the block that lists those after the first twelve. *)
Record ainode := mk_ainode {
  a_type : Z; a_major : Z; a_minor : Z; a_nlink : Z; a_size : Z;
  a_blocks : list Z; a_ind : option Z;
}.

Definition addrs_of (a : ainode) : list Z := ((λ k, default 0 (a_blocks a !! k)) <$> seq 0 NDIRECT) ++ [default 0 (a_ind a)].
Definition dinode_of (a : ainode) : dinode := mk_dinode (a_type a) (a_major a) (a_minor a) (a_nlink a) (a_size a) (addrs_of a).
Definition own (a : ainode) : list Z := a_blocks a ++ option_list (a_ind a).
Definition owned (T : gmap Z ainode) : gset Z := map_fold (λ _ a acc, list_to_set (own a) ∪ acc) ∅ T.

Lemma elem_of_owned T b : b ∈ owned T ↔ ∃ n a, T !! n = Some a ∧ b ∈ own a.
Proof.
  unfold owned. induction T as [|n a T Hn IH] using map_ind.
  - rewrite map_fold_empty. split; [set_solver|]. intros (?&?&He&_). by rewrite lookup_empty in He.
  - rewrite map_fold_insert_L; [|set_solver|done]. rewrite elem_of_union, elem_of_list_to_set, IH. setoid_rewrite lookup_insert_Some. split.
    + intros [Hb|(m&c&Hc&Hb)]; [eauto 6|]. exists m, c. split; [|done]. right. split; [congruence|done].
    + intros (m&c&[[<- <-]|[_ Hc]]&Hb); eauto.
Qed.

Lemma owned_insert T n a a' : T !! n = Some a → owned (<[n := a']> T) ∪ list_to_set (own a) = owned T ∪ list_to_set (own a') ∪ list_to_set (own a).
Proof.
  intros Ha. apply set_eq. intros b. rewrite !elem_of_union, !elem_of_list_to_set, !elem_of_owned. setoid_rewrite lookup_insert_Some. split.
  - intros [(m&c&[[<- <-]|[Hne Hc]]&Hb)|Hb]; eauto 8.
  - intros [[(m&c&Hc&Hb)|Hb]|Hb]; [|eauto 8|eauto]. destruct (decide (n = m)) as [<-|]; [right; congruence|left; eauto 8].
Qed.

Lemma addr_of k a : (k < NDIRECT)%nat → addr k (dinode_of a) = default 0 (a_blocks a !! k).
Proof.
  intros Hk. unfold addr, dinode_of, addrs_of. cbn [d_addrs]. apply list_lookup_total_correct. rewrite lookup_app_l by (by rewrite length_fmap, length_seq).
  by rewrite list_lookup_fmap, lookup_seq_lt.
Qed.

Lemma addr_ind a : addr NDIRECT (dinode_of a) = default 0 (a_ind a).
Proof.
  unfold addr, dinode_of, addrs_of. cbn [d_addrs]. apply list_lookup_total_correct. rewrite lookup_app_r by (by rewrite length_fmap, length_seq).
  by rewrite length_fmap, length_seq, Nat.sub_diag.
Qed.

(** * The layout *)

(** The first block after the bitmap. *)
Definition dstart (x : superblock) : Z := bmapstart x + sb_size x / BPB + 1.

Record layout (x : superblock) : Prop := {
  ly_start : 2 ≤ inodestart x;
  ly_inodes : 1 < ninodes x ≤ 65536;
  ly_bmap : inodestart x + ninodes x / IPB < bmapstart x;
  ly_data : dstart x ≤ sb_size x < 2 ^ 31;
}.

Section layout.
Context (x : superblock) (L : layout x).

Lemma iblock_range n : 0 ≤ n < ninodes x → inodestart x ≤ IBLOCK n x < bmapstart x.
Proof. intros Hn. destruct L. unfold IBLOCK, IPB in *. Z.to_euclidean_division_equations. lia. Qed.

Lemma bblock_range b : 0 ≤ b < sb_size x → bmapstart x ≤ BBLOCK b x < dstart x.
Proof. intros Hb. destruct L. unfold BBLOCK, dstart, BPB in *. Z.to_euclidean_division_equations. lia. Qed.

Lemma dstart_pos : 0 < bmapstart x < dstart x.
Proof. destruct L. unfold dstart, IPB, BPB in *. Z.to_euclidean_division_equations. lia. Qed.

Lemma iblock_inj n m : 0 ≤ n → 0 ≤ m → IBLOCK n x = IBLOCK m x → n mod IPB = m mod IPB → n = m.
Proof. unfold IBLOCK, IPB. intros. Z.to_euclidean_division_equations. lia. Qed.

Lemma bblock_inj b c : 0 ≤ b → 0 ≤ c → BBLOCK b x = BBLOCK c x → b mod BPB = c mod BPB → b = c.
Proof. unfold BBLOCK, BPB. intros. Z.to_euclidean_division_equations. lia. Qed.

End layout.

(** * The invariant *)

Record ainode_ok (x : superblock) (a : ainode) : Prop := {
  ao_type : a_type a ≠ 0 ∧ - 2 ^ 15 ≤ a_type a < 2 ^ 15;
  ao_major : - 2 ^ 15 ≤ a_major a < 2 ^ 15;
  ao_minor : - 2 ^ 15 ≤ a_minor a < 2 ^ 15;
  ao_nlink : - 2 ^ 15 ≤ a_nlink a < 2 ^ 15;
  ao_size : 0 ≤ a_size a ≤ BSIZE * Z.of_nat (length (a_blocks a));
  ao_len : Z.of_nat (length (a_blocks a)) ≤ MAXFILE;
  ao_ind : (NDIRECT < length (a_blocks a))%nat → is_Some (a_ind a);
  ao_range : ∀ b, b ∈ own a → dstart x ≤ b < sb_size x;
  ao_nodup : NoDup (own a);
}.

(** [ex] is an inode whose copy on disk is out of date; the blocks [P] are marked
    in the bitmap without an owner. *)
Record fs_inv (ex : option Z) (T : gmap Z ainode) (P : gset Z) (s : fss) : Prop := {
  fi_layout : layout (sb s);
  fi_disk : ∀ b, 0 ≤ b < sb_size (sb s) → ∃ l, disk s !! b = Some l ∧ length l = Z.to_nat BSIZE;
  fi_held : held s ⊆ owned T ∪ P;
  fi_inodes : ∀ n l, 1 ≤ n < ninodes (sb s) → ex ≠ Some n → disk s !! IBLOCK n (sb s) = Some l →
    match T !! n with
    | Some a => dinode_at (Z.to_nat (n mod IPB)) l = dinode_of a
    | None => d_type (dinode_at (Z.to_nat (n mod IPB)) l) = 0
    end;
  fi_table : ∀ n a, T !! n = Some a → 1 ≤ n < ninodes (sb s) ∧ ainode_ok (sb s) a;
  fi_ind : ∀ n a b l, T !! n = Some a → a_ind a = Some b → disk s !! b = Some l →
    ∀ k, (k < NINDIRECT)%nat → word k l = default 0 (a_blocks a !! (NDIRECT + k)%nat);
  fi_disjoint : ∀ n m a c b, T !! n = Some a → T !! m = Some c → b ∈ own a → b ∈ own c → n = m;
  fi_pending : ∀ b, b ∈ P → dstart (sb s) ≤ b < sb_size (sb s) ∧ b ∉ owned T;
  fi_bits : ∀ b l, 0 ≤ b < sb_size (sb s) → disk s !! BBLOCK b (sb s) = Some l →
    (test_bit (b mod BPB) l = true ↔ b < dstart (sb s) ∨ b ∈ owned T ∪ P);
}.

Lemma dinode_of_ok x a : layout x → ainode_ok x a → dinode_ok (dinode_of a).
Proof.
  intros L [A1 A2 A3 A4 A5 A6 A7 A8 A9]. split; cbn [dinode_of d_type d_major d_minor d_nlink d_size d_addrs]; try tauto.
  - unfold BSIZE, MAXFILE in *. lia.
  - assert (∀ b, b ∈ own a → 0 ≤ b < 2 ^ 32) as Hb.
    { intros b Hb. apply A8 in Hb. pose proof (dstart_pos x L). destruct L. lia. }
    unfold addrs_of. apply Forall_app. split.
    + apply Forall_fmap, Forall_forall. intros k _. simpl. destruct (a_blocks a !! k) as [b|] eqn:E; simpl; [|done].
      apply Hb. unfold own. rewrite elem_of_app. left. by eapply list_elem_of_lookup_2.
    + apply Forall_singleton. destruct (a_ind a) as [b|] eqn:E; simpl; [|done]. apply Hb. unfold own. rewrite E, elem_of_app. right. simpl. by left.
Qed.

(** Blocks that are free. *)
Definition room (T : gmap Z ainode) (P : gset Z) (x : superblock) : Z := sb_size x - dstart x - Z.of_nat (size (owned T ∪ P)).

(** The block layer of the xv6 file system: reading and logging blocks, and the
    allocation of blocks, against the invariant. *)

(** * Buffers *)

(** A block logged with new contents, and a buffer locked. *)
Definition wrote (b : Z) (l : list byte) (s : fss) : fss := mk_fss (sb s) (<[b := l]> (disk s)) (held s) (outstanding s) ({[b]} ∪ logged s) (icache s).
Definition hold (b : Z) (s : fss) : fss := mk_fss (sb s) (disk s) ({[b]} ∪ held s) (outstanding s) (logged s) (icache s).

Section buffers.
Context (b : Z) (s : fss) (Hh : b ∉ held s).

Lemma bread_run l : disk s !! b = Some l → bread b s = Some (l, hold b s).
Proof. intros Hb. unfold bread. rewrite decide_False by done. rewrite Hb. simpl. reflexivity. Qed.

Lemma brelse_run : brelse b (hold b s) = Some ((), s).
Proof.
  unfold brelse, hold. cbn [held]. rewrite decide_True by set_solver. assert (({[b]} ∪ held s) ∖ {[b]} = held s) as E by set_solver.
  change (Some ((), mk_fss (sb s) (disk s) (({[b]} ∪ held s) ∖ {[b]}) (outstanding s) (logged s) (icache s)) = Some ((), s)). rewrite E. by destruct s.
Qed.

Lemma log_write_run l' : outstanding s ≠ 0%nat → log_write b l' (hold b s) = Some ((), hold b (wrote b l' s)).
Proof. intros Ho. unfold log_write, hold. cbn [held outstanding]. rewrite decide_False; [done|]. intros [Hn|Hn]; [set_solver|done]. Qed.

End buffers.

Lemma update_run {B} b l' s (k : M B) : b ∉ held s → outstanding s ≠ 0%nat → (log_write b l';; brelse b;; k) (hold b s) = k (wrote b l' s).
Proof.
  intros Hh Ho. erewrite bind_run by (by apply log_write_run). by erewrite bind_run by (by apply brelse_run).
Qed.

(** A computation that logs only blocks of [W] and changes nothing else but
    maybe the inode cache. *)
Record frame (W : gset Z) (s s' : fss) : Prop := {
  fr_sb : sb s' = sb s;
  fr_held : held s' = held s;
  fr_op : outstanding s' = outstanding s;
  fr_logged : logged s' ⊆ W ∪ logged s;
  fr_disk : ∀ b, b ∉ W → disk s' !! b = disk s !! b;
}.

Lemma fs_frame_refl W s : frame W s s.
Proof. split; try done. set_solver. Qed.

Lemma fs_frame_trans W s s1 s2 : frame W s s1 → frame W s1 s2 → frame W s s2.
Proof. intros [A1 A2 A3 A4 A5] [B1 B2 B3 B4 B5]. split; [congruence..|set_solver|]. intros b Hb. rewrite B5, A5 by done. done. Qed.

Lemma fs_frame_mono W W' s s' : frame W s s' → W ⊆ W' → frame W' s s'.
Proof. intros [A1 A2 A3 A4 A5] Hw. split; [done..|set_solver|]. intros b Hb. apply A5. set_solver. Qed.

Lemma fs_frame_wrote W b l s : b ∈ W → frame W s (wrote b l s).
Proof. intros Hb. split; try done; cbn [logged disk wrote]; [set_solver|]. intros c Hc. apply lookup_insert_ne. set_solver. Qed.

(** * The invariant under changes of blocks *)

Section changes.
Context (ex : option Z) (T : gmap Z ainode) (P : gset Z) (s : fss) (I : fs_inv ex T P s).
Abbreviation x := (sb s).

Lemma free_or_owned_range b : b ∈ owned T ∪ P → dstart x ≤ b < sb_size x.
Proof.
  rewrite elem_of_union, elem_of_owned. intros [(n&a&Ha&Hb)|Hb]; [|by apply (fi_pending _ _ _ _ I)].
  destruct (fi_table _ _ _ _ I n a Ha) as [_ Hok]. by apply (ao_range _ _ Hok).
Qed.

Lemma meta_not_held b : b < dstart x → b ∉ held s.
Proof. intros Hb Hh. apply (fi_held _ _ _ _ I), free_or_owned_range in Hh. lia. Qed.

(** A block that holds data may have any contents. *)
Lemma inv_write_data b l :
  dstart x ≤ b < sb_size x → (∀ n a, T !! n = Some a → a_ind a ≠ Some b) → length l = Z.to_nat BSIZE → fs_inv ex T P (wrote b l s).
Proof.
  intros Hb Hind Hl. pose proof (dstart_pos x (fi_layout _ _ _ _ I)) as Hd. destruct I as [I1 I2 I3 I4 I5 I6 I7 I8 I9].
  split; cbn [wrote sb disk held]; try done.
  - intros c Hc. destruct (decide (b = c)) as [<-|]; [rewrite lookup_insert_eq; eauto|rewrite lookup_insert_ne by done; auto].
  - intros n c Hn He. rewrite lookup_insert_ne by (pose proof (iblock_range x I1 n ltac:(lia)); lia). by apply I4.
  - intros n a c l' Ha Hc. rewrite lookup_insert_ne by (intros ->; by apply (Hind n a)). by eapply I6.
  - intros c l' Hc. rewrite lookup_insert_ne by (pose proof (bblock_range x I1 c Hc); lia). by apply I9.
Qed.

(** A bit of the bitmap changes with the set of blocks in use. *)
Lemma inv_put_bit P' b v l :
  dstart x ≤ b < sb_size x → b ∉ owned T → disk s !! BBLOCK b x = Some l → (∀ c, c ≠ b → c ∈ P' ↔ c ∈ P) → (b ∈ P' ↔ v = true) → held s ⊆ owned T ∪ P' →
  fs_inv ex T P' (wrote (BBLOCK b x) (put_bit v (b mod BPB) l) s).
Proof.
  intros Hb Hno Hl HP Hv Hh. pose proof (dstart_pos x (fi_layout _ _ _ _ I)) as Hd. pose proof (fi_layout _ _ _ _ I) as L.
  pose proof (bblock_range x L b ltac:(lia)) as Hr. destruct I as [I1 I2 I3 I4 I5 I6 I7 I8 I9].
  assert (length l = Z.to_nat BSIZE) as Hlen by (destruct (I2 (BBLOCK b x)) as (l'&E&?); [lia|congruence]).
  assert (∀ c, 0 ≤ c mod BPB < 8 * Z.of_nat (length l)) as Hbit.
  { intros c. rewrite Hlen. unfold BPB, BSIZE. pose proof (Z.mod_pos_bound c 4096 ltac:(lia)). lia. }
  split; cbn [wrote sb disk held]; try done.
  - intros c Hc. destruct (decide (BBLOCK b x = c)) as [<-|]; [rewrite lookup_insert_eq; eexists; split; [done|by rewrite length_put_bit]|rewrite lookup_insert_ne by done; auto].
  - intros n c Hn He. rewrite lookup_insert_ne by (pose proof (iblock_range x I1 n ltac:(lia)); lia). by apply I4.
  - intros n a c l' Ha Hc. rewrite lookup_insert_ne; [by eapply I6|]. destruct (I5 n a Ha) as [_ Hok]. intros E. pose proof (ao_range _ _ Hok c) as Hcr.
    unfold own in Hcr. rewrite Hc, elem_of_app in Hcr. specialize (Hcr (or_intror (list_elem_of_here _ _))). lia.
  - intros c Hc. destruct (decide (c = b)) as [->|Hne]; [done|]. apply I8. by apply HP.
  - intros c l' Hc. destruct (decide (BBLOCK b x = BBLOCK c x)) as [E|E].
    + rewrite <- E, lookup_insert_eq. intros [= <-]. rewrite test_put_bit by (try apply Hbit; apply Z.mod_pos_bound; done). destruct (decide (c mod BPB = b mod BPB)) as [Em|Em].
      * assert (c = b) as -> by (apply (bblock_inj x); [lia|lia|done|done]). rewrite <- Hv. rewrite elem_of_union. split; [auto|]. intros [?|[?|?]]; [lia|done|done].
      * assert (c ≠ b) as Hne by congruence. rewrite (I9 c l Hc) by (by rewrite <- E). rewrite !elem_of_union, HP by done. done.
    + rewrite lookup_insert_ne by done. intros Hl'. rewrite (I9 c l' Hc Hl'). destruct (decide (c = b)) as [->|Hne]; [done|]. rewrite !elem_of_union, HP by done. done.
Qed.

End changes.

(** * Allocation *)

Lemma find_bit_spec n size b data : ∀ bi,
  match find_bit n size b bi data with
  | Some bj => bi ≤ bj < bi + Z.of_nat n ∧ b + bj < size ∧ test_bit bj data = false
  | None => ∀ bj, bi ≤ bj < bi + Z.of_nat n → b + bj < size → test_bit bj data = true
  end.
Proof.
  induction n as [|n IH]; intros bi; cbn [find_bit]; [intros; lia|]. case_decide as Hlt; [|intros; lia]. destruct (test_bit bi data) eqn:Et.
  - specialize (IH (bi + 1)). destruct (find_bit n size b (bi + 1) data) as [bj|]; [destruct IH as (?&?&?); split_and!; [lia|lia|done|done]|].
    intros bj Hbj Hs. destruct (decide (bj = bi)) as [->|]; [done|]. apply IH; lia.
  - split_and!; [lia|lia|lia|done].
Qed.

Lemma room_free T P x : 0 < room T P x → ∃ c, dstart x ≤ c < sb_size x ∧ c ∉ owned T ∪ P.
Proof.
  unfold room. intros Hr. set (U := owned T ∪ P) in *. set (n := Z.to_nat (sb_size x - dstart x)). set (l := (λ k, dstart x + Z.of_nat k) <$> seq 0 n).
  destruct (decide (Forall (λ c, c ∈ U) l)) as [Hall|Hn].
  - exfalso. assert (NoDup l) as Hnd by (apply NoDup_fmap_2; [intros i j; lia|apply NoDup_seq]).
    assert (size (list_to_set l : gset Z) ≤ size U)%nat as Hs.
    { apply subseteq_size. intros c Hc. apply elem_of_list_to_set in Hc. rewrite Forall_forall in Hall. by apply Hall. }
    rewrite size_list_to_set in Hs by done. unfold l in Hs. rewrite length_fmap, length_seq in Hs. lia.
  - rewrite <- Exists_Forall_neg in Hn by (intros; destruct (decide (x0 ∈ U)); auto). apply Exists_exists in Hn as (c&Hc&Hnc). exists c. split; [|done].
    apply list_elem_of_fmap in Hc as (k&->&Hk%elem_of_seq). lia.
Qed.

Section alloc.
Context (ex : option Z) (T : gmap Z ainode) (P : gset Z) (s : fss) (I : fs_inv ex T P s) (Hop : outstanding s ≠ 0%nat).
Abbreviation x := (sb s).

(** A free block is now in use, filled with zeros. *)
Definition allocated_block (b : Z) (s' : fss) : Prop :=
  dstart x ≤ b < sb_size x ∧ b ∉ owned T ∪ P ∧ fs_inv ex T ({[b]} ∪ P) s' ∧ disk s' !! b = Some zero_block ∧
  frame {[b; BBLOCK b x]} s s' ∧ icache s' = icache s.

Lemma alloc_step b l :
  0 ≤ b < sb_size x → disk s !! BBLOCK b x = Some l → test_bit (b mod BPB) l = false →
  wp (bzero b) (λ _ s', allocated_block b s') (wrote (BBLOCK b x) (set_bit (b mod BPB) l) s).
Proof.
  intros Hb Hl Ht. assert (¬ (b < dstart x ∨ b ∈ owned T ∪ P)) as Hfree.
  { rewrite <- (fi_bits _ _ _ _ I b l Hb Hl). congruence. }
  assert (b ∉ owned T ∪ P ∧ dstart x ≤ b) as [Hno Hd] by (split; [tauto|lia]). set (s1 := wrote _ _ s).
  assert (fs_inv ex T ({[b]} ∪ P) s1) as I1.
  { apply (inv_put_bit ex T P s I _ b true l); [lia|set_solver|done|set_solver|set_solver|]. pose proof (fi_held _ _ _ _ I). set_solver. }
  assert (b ∉ held s1) as Hh by (pose proof (fi_held _ _ _ _ I) as Hh; cbn [s1 wrote held]; set_solver).
  destruct (fi_disk _ _ _ _ I1 b) as (l0&Hl0&_); [done|]. unfold bzero. eapply wp_intro.
  { erewrite bind_run by (by apply bread_run). erewrite bind_run by (by apply log_write_run). by apply brelse_run. }
  split_and!; [lia|lia|done| |cbn [wrote disk]; by rewrite lookup_insert_eq| |done].
  - apply (inv_write_data _ _ _ s1 I1 b); [cbn [s1 wrote sb]; lia| |apply length_replicate]. intros n a Ha Hi. apply Hno, elem_of_union_l, elem_of_owned. exists n, a. split; [done|].
    unfold own. rewrite Hi, elem_of_app. right. simpl. by left.
  - eapply fs_frame_trans; [apply (fs_frame_wrote _ (BBLOCK b x)); set_solver|apply fs_frame_wrote; set_solver].
Qed.

Lemma balloc_loop_spec fuel : ∀ k, 0 ≤ k → sb_size x / BPB < k + Z.of_nat fuel →
  (∀ c, 0 ≤ c < sb_size x → c < BPB * k → c < dstart x ∨ c ∈ owned T ∪ P) → 0 < room T P x →
  wp (balloc_loop fuel (BPB * k)) (λ b s', allocated_block b s') s.
Proof.
  induction fuel as [|fuel IH]; intros k Hk Hf Hall Hroom.
  all: destruct (room_free T P x Hroom) as (c&Hc&Hnc); assert (BPB * k ≤ c) as Hkc by (pose proof (dstart_pos x (fi_layout _ _ _ _ I)); destruct (decide (c < BPB * k)); [|lia];
    destruct (Hall c) as [?|?]; [lia|done|lia|done]).
  { unfold BPB in *. Z.to_euclidean_division_equations. lia. }
  cbn [balloc_loop]. apply wp_bind, wp_gets. rewrite decide_True by lia. pose proof (bblock_range x (fi_layout _ _ _ _ I) (BPB * k) ltac:(unfold BPB in *; lia)) as Hr.
  assert (0 ≤ BBLOCK (BPB * k) x < sb_size x) as Hbb.
  { pose proof (ly_data _ (fi_layout _ _ _ _ I)). pose proof (ly_start _ (fi_layout _ _ _ _ I)). pose proof (dstart_pos x (fi_layout _ _ _ _ I)). lia. }
  destruct (fi_disk _ _ _ _ I _ Hbb) as (l&Hl&Hlen). assert (BBLOCK (BPB * k) x ∉ held s) as Hh by (eapply meta_not_held; [exact I|lia]).
  apply wp_bind. eapply wp_intro; [by apply bread_run|]. cbn beta.
  pose proof (find_bit_spec (Z.to_nat BPB) (sb_size x) (BPB * k) l 0) as Hfb. destruct (find_bit _ _ _ _ _) as [bi|].
  - destruct Hfb as (Hbi&Hlt&Ht). assert ((BPB * k + bi) mod BPB = bi) as Em by (unfold BPB in *; Z.to_euclidean_division_equations; lia).
    assert (BBLOCK (BPB * k + bi) x = BBLOCK (BPB * k) x) as Eb by (unfold BBLOCK, BPB in *; Z.to_euclidean_division_equations; lia).
    unfold wp. rewrite update_run by done. apply (wp_bind (bzero _)). replace (set_bit bi l) with (set_bit ((BPB * k + bi) mod BPB) l) by (by rewrite Em). rewrite <- Eb. eapply wp_mono; [apply alloc_step|].
    + unfold BPB in *. lia.
    + by rewrite Eb.
    + by rewrite Em.
    + intros [] s' Ha. apply wp_ret. exact Ha.
  - apply wp_bind. eapply wp_intro; [by apply brelse_run|]. cbn beta. replace (BPB * k + BPB) with (BPB * (k + 1)) by lia. apply IH; [lia|lia| |done].
    intros c' Hc' Hlt. destruct (decide (c' < BPB * k)); [by apply Hall|]. assert (BBLOCK c' x = BBLOCK (BPB * k) x) as Eb by (unfold BBLOCK, BPB in *; Z.to_euclidean_division_equations; lia).
    apply (fi_bits _ _ _ _ I c' l Hc'); [by rewrite Eb|]. apply Hfb; unfold BPB in *; Z.to_euclidean_division_equations; lia.
Qed.

Lemma balloc_spec : 0 < room T P x → wp balloc (λ b s', allocated_block b s') s.
Proof.
  intros Hroom. unfold balloc. apply wp_bind, wp_gets. replace 0 with (BPB * 0) by lia. apply balloc_loop_spec; [lia| |intros; unfold BPB in *; lia|done].
  pose proof (ly_data _ (fi_layout _ _ _ _ I)). pose proof (dstart_pos x (fi_layout _ _ _ _ I)). assert (0 ≤ sb_size x / BPB) by (apply Z.div_pos; unfold BPB; lia). lia.
Qed.

(** A block in use without an owner is freed. *)
Lemma bfree_spec b :
  b ∈ P → b ∉ held s → wp (bfree b) (λ _ s', fs_inv ex T (P ∖ {[b]}) s' ∧ frame {[BBLOCK b x]} s s' ∧ icache s' = icache s) s.
Proof.
  intros Hb Hh. destruct (fi_pending _ _ _ _ I b Hb) as [Hr Hno]. pose proof (dstart_pos x (fi_layout _ _ _ _ I)) as Hd.
  pose proof (ly_start _ (fi_layout _ _ _ _ I)) as Hst. pose proof (bblock_range x (fi_layout _ _ _ _ I) b ltac:(lia)) as Hbr.
  destruct (fi_disk _ _ _ _ I (BBLOCK b x)) as (l&Hl&Hlen); [lia|]. assert (BBLOCK b x ∉ held s) as Hhb by (eapply meta_not_held; [exact I|lia]).
  unfold bfree. apply wp_bind, wp_gets. apply wp_bind. eapply wp_intro; [by apply bread_run|]. cbv zeta beta.
  assert (test_bit (b mod BPB) l = true) as -> by (apply (fi_bits _ _ _ _ I b l); [lia|done|set_solver]).
  eapply wp_intro; [erewrite bind_run by (by apply log_write_run); by apply brelse_run|]. split_and!; [|apply fs_frame_wrote; set_solver|done].
  apply (inv_put_bit ex T P s I _ b false l); [lia|done|done|set_solver|set_solver|]. pose proof (fi_held _ _ _ _ I). set_solver.
Qed.

End alloc.
