(* ===== verification/XvFsInode.v ===== *)
(** The inodes of the xv6 file system against the invariant: changes of the table
    of inodes, the mapping from positions in a file to blocks, and truncation. *)

From stdpp Require Import base option list numbers gmap sets.
From coqutil Require Import Datatypes.RecordSettersUsingExistingGetters.
From Stdlib Require Import Strings.Byte ZArith Lia.
From S2P Require Import Prelude CString XvFs XvFsInv.
Local Open Scope Z_scope.

Abbreviation blocks_set a := (list_to_set (own a) : gset Z).

(** * Changes of the table *)

Section table.
Context (ex : option Z) (T : gmap Z ainode) (P : gset Z) (s : fss) (I : fs_inv ex T P s).
Abbreviation x := (sb s).

Lemma own_not_pending n a b : T !! n = Some a → b ∈ own a → b ∉ P.
Proof. intros Ha Hb Hp. apply (fi_pending _ _ _ _ I) in Hp as [_ Hp]. apply Hp, elem_of_owned. eauto. Qed.

Lemma retable_union n a a' :
  T !! n = Some a → (∀ b, b ∈ own a' → b ∈ own a ∨ b ∈ P) → owned (<[n := a']> T) ∪ ((P ∪ blocks_set a) ∖ blocks_set a') = owned T ∪ P.
Proof.
  intros Ha Hin. apply set_eq. intros b. rewrite !elem_of_union, elem_of_difference, !elem_of_union, !elem_of_list_to_set, !elem_of_owned. setoid_rewrite lookup_insert_Some. split.
  - intros [(m&c&[[<- <-]|[_ Hc]]&Hb)|[[Hp|Hb] _]]; eauto 6. destruct (Hin b Hb); eauto 6.
  - intros [(m&c&Hc&Hb)|Hp]; destruct (decide (b ∈ own a')) as [Hb'|Hb']; [left; eauto 8| |left; eauto 8|auto].
    destruct (decide (n = m)) as [<-|]; [right; split; [right; congruence|done]|left; eauto 8].
Qed.

(** An inode takes blocks in use without an owner and gives up others. *)
Lemma inv_retable n a a' :
  T !! n = Some a → ex = None ∨ ex = Some n → ainode_ok x a' → (∀ b, b ∈ own a' → b ∈ own a ∨ b ∈ P) →
  (∀ b l, a_ind a' = Some b → disk s !! b = Some l → ∀ k, (k < NINDIRECT)%nat → word k l = default 0 (a_blocks a' !! (NDIRECT + k)%nat)) →
  fs_inv (Some n) (<[n := a']> T) ((P ∪ blocks_set a) ∖ blocks_set a') s.
Proof.
  intros Ha He Hok Hin Hw. pose proof (own_not_pending n a) as Hnp. destruct (fi_table _ _ _ _ I n a Ha) as [Hn Hoka].
  pose proof (retable_union n a a' Ha Hin) as HU.
  assert (∀ m c b, m ≠ n → T !! m = Some c → b ∈ own c → b ∉ own a' ∧ b ∉ own a) as Hother.
  { intros m c b Hm Hc Hb. split; intros Hb'; [destruct (Hin b Hb') as [Hb''|Hp]|].
    - by apply Hm, (fi_disjoint _ _ _ _ I m n c a b).
    - apply (fi_pending _ _ _ _ I) in Hp as [_ Hp]. apply Hp, elem_of_owned. eauto.
    - by apply Hm, (fi_disjoint _ _ _ _ I m n c a b). }
  destruct I as [I1 I2 I3 I4 I5 I6 I7 I8 I9]. split; try done.
  - by rewrite HU.
  - intros m l Hm Hex Hl. rewrite lookup_insert_ne by congruence. apply I4; [done| |done]. destruct He as [-> | ->]; [done|congruence].
  - intros m c [[<- <-]|[_ Hc]]%lookup_insert_Some; [done|eauto].
  - intros m c b l [[<- <-]|[_ Hc]]%lookup_insert_Some Hb Hl; [by eapply Hw|by eapply I6].
  - intros m1 m2 c1 c2 b [[<- <-]|[Hm1 Hc1]]%lookup_insert_Some [[<- <-]|[Hm2 Hc2]]%lookup_insert_Some Hb1 Hb2; [done| | |by eapply I7].
    + by destruct (Hother m2 c2 b (not_eq_sym Hm2) Hc2 Hb2).
    + by destruct (Hother m1 c1 b (not_eq_sym Hm1) Hc1 Hb1).
  - intros b [Hb Hb']%elem_of_difference. rewrite elem_of_list_to_set in Hb'. split.
    + apply elem_of_union in Hb as [Hb|Hb%elem_of_list_to_set]; [by apply I8|by apply (ao_range _ _ Hoka)].
    + rewrite elem_of_owned. intros (m&c&[[<- <-]|[Hm Hc]]%lookup_insert_Some&Hc'); [done|]. apply elem_of_union in Hb as [Hb|Hb%elem_of_list_to_set].
      * apply I8 in Hb as [_ Hb]. apply Hb, elem_of_owned. eauto.
      * by destruct (Hother m c b (not_eq_sym Hm) Hc Hc').
  - intros b l Hb Hl. rewrite HU. auto.
Qed.

(** All blocks of an inode are taken from it. *)
Definition a_empty (a : ainode) : ainode := mk_ainode (a_type a) (a_major a) (a_minor a) (a_nlink a) 0 [] None.

Lemma inv_park n a : T !! n = Some a → ex = None ∨ ex = Some n → fs_inv (Some n) (<[n := a_empty a]> T) (P ∪ blocks_set a) s.
Proof.
  intros Ha He. destruct (fi_table _ _ _ _ I n a Ha) as [_ Hok]. pose proof (inv_retable n a (a_empty a) Ha He) as H.
  replace ((P ∪ blocks_set a) ∖ blocks_set (a_empty a)) with (P ∪ blocks_set a) in H by (cbn; set_solver). apply H; [|by intros b []%elem_of_nil|done].
  destruct Hok as [A1 A2 A3 A4 A5 A6 A7 A8 A9]. split; cbn [a_empty a_type a_major a_minor a_nlink a_size a_blocks a_ind]; try done.
  - cbn [length]. lia.
  - by intros b []%elem_of_nil.
  - apply NoDup_nil_2.
Qed.

(** An inode without blocks takes blocks. *)
Lemma inv_unpark n a0 a' Q :
  T !! n = Some a0 → own a0 = [] → ex = None ∨ ex = Some n → ainode_ok x a' → P = Q ∪ blocks_set a' → blocks_set a' ## Q →
  (∀ b l, a_ind a' = Some b → disk s !! b = Some l → ∀ k, (k < NINDIRECT)%nat → word k l = default 0 (a_blocks a' !! (NDIRECT + k)%nat)) →
  fs_inv (Some n) (<[n := a']> T) Q s.
Proof.
  intros Ha Hown He Hok HP Hdisj Hw. pose proof (inv_retable n a0 a' Ha He Hok) as H. rewrite Hown in H.
  replace ((P ∪ list_to_set []) ∖ blocks_set a') with Q in H by (cbn; set_solver). apply H; [|done]. intros b Hb. right. rewrite HP. apply elem_of_union_r. by apply elem_of_list_to_set.
Qed.

(** A field of an inode changes, and no block. *)
Lemma inv_meta n a a' :
  T !! n = Some a → ex = None ∨ ex = Some n → ainode_ok x a' → a_blocks a' = a_blocks a → a_ind a' = a_ind a → fs_inv (Some n) (<[n := a']> T) P s.
Proof.
  intros Ha He Hok Eb Ei. assert (own a' = own a) as Eo by (unfold own; congruence).
  pose proof (inv_retable n a a' Ha He Hok) as H. rewrite Eo in H. replace ((P ∪ blocks_set a) ∖ blocks_set a) with P in H.
  - apply H; [auto|]. intros b l Hb Hl k Hk. rewrite Eb. rewrite Ei in Hb. by eapply (fi_ind _ _ _ _ I).
  - apply set_eq. intros b. rewrite elem_of_difference, elem_of_union, elem_of_list_to_set. pose proof (own_not_pending n a b Ha). tauto.
Qed.

(** The copy of an inode on disk is brought up to date. *)
Lemma inv_write_inode n d l :
  ex = None ∨ ex = Some n → 1 ≤ n < ninodes x → dinode_ok d → disk s !! IBLOCK n x = Some l →
  match T !! n with Some a => d = dinode_of a | None => d_type d = 0 end →
  fs_inv None T P (wrote (IBLOCK n x) (set_dinode (Z.to_nat (n mod IPB)) d l) s).
Proof.
  intros He Hn Hd Hl Hm. pose proof (dstart_pos x (fi_layout _ _ _ _ I)) as Hdp. pose proof (fi_layout _ _ _ _ I) as L.
  pose proof (iblock_range x L n ltac:(lia)) as Hr. pose proof (ly_start _ L). pose proof (ly_data _ L).
  destruct (fi_disk _ _ _ _ I (IBLOCK n x)) as (l'&El&Hlen); [lia|]. rewrite Hl in El. injection El as <-.
  assert (∀ m, (sizeof_dinode * Z.to_nat (m mod IPB) + sizeof_dinode ≤ length l)%nat) as Hk.
  { intros m. rewrite Hlen. unfold sizeof_dinode, BSIZE, IPB. pose proof (Z.mod_pos_bound m 8 ltac:(lia)). lia. }
  pose proof (free_or_owned_range _ _ _ _ I) as Hrange. destruct I as [I1 I2 I3 I4 I5 I6 I7 I8 I9]. split; cbn [wrote sb disk held]; try done.
  - intros b Hb. destruct (decide (IBLOCK n x = b)) as [<-|]; [rewrite lookup_insert_eq; eexists; split; [done|by rewrite length_set_dinode]|rewrite lookup_insert_ne by done; auto].
  - intros m l' Hm' _. destruct (decide (IBLOCK n x = IBLOCK m x)) as [E|E].
    + rewrite <- E, lookup_insert_eq. intros [= <-]. destruct (decide (n = m)) as [<-|Hne].
      * rewrite dinode_at_set by done. done.
      * rewrite dinode_at_other; [|done|done|]. { apply I4; [done| |by rewrite <- E]. destruct He as [-> | ->]; [done|congruence]. }
        intros Ek. apply Hne, (iblock_inj x); [lia|lia|done|]. pose proof (Z.mod_pos_bound n IPB ltac:(done)). pose proof (Z.mod_pos_bound m IPB ltac:(done)). lia.
    + rewrite lookup_insert_ne by done. intros Hl'. apply I4; [done| |done]. destruct He as [-> | ->]; [done|]. intros [= ->]. done.
  - intros m a b l' Ha Hb. rewrite lookup_insert_ne; [by eapply I6|]. assert (b ∈ owned T ∪ P) as Hbo.
    { apply elem_of_union_l, elem_of_owned. exists m, a. split; [done|]. unfold own. rewrite Hb, elem_of_app. right. by left. }
    apply Hrange in Hbo. lia.
  - intros b l' Hb. rewrite lookup_insert_ne by (pose proof (bblock_range x I1 b Hb); lia). by apply I9.
Qed.

End table.

(** * The cache *)

Definition set_cache (C : list inode) (s : fss) : fss := mk_fss (sb s) (disk s) (held s) (outstanding s) (logged s) C.

Lemma upd_inode_run i f s ip : icache s !! i = Some ip → upd_inode i f s = Some ((), set_cache (<[i := f ip]> (icache s)) s).
Proof. intros Hi. unfold upd_inode, modify. rewrite <- (list_alter_insert f i (icache s) ip Hi). reflexivity. Qed.

Lemma read_inode_run i s ip : icache s !! i = Some ip → read_inode i s = Some (ip, s).
Proof. intros Hi. unfold read_inode. by rewrite Hi. Qed.

Lemma inv_cache ex T P s C : fs_inv ex T P s → fs_inv ex T P (set_cache C s).
Proof. intros [I1 I2 I3 I4 I5 I6 I7 I8 I9]. split; done. Qed.

Lemma frame_cache W s s' C : frame W s s' → frame W s (set_cache C s').
Proof. intros [A1 A2 A3 A4 A5]. split; done. Qed.

(** The entry of the cache with another copy of its inode. *)
Definition put_din (d : dinode) (ip : inode) : inode := mk_inode (inum ip) (ref ip) (valid ip) (locked ip) d.

Lemma upd_din_run i f s ip : icache s !! i = Some ip → upd_din i f s = Some ((), set_cache (<[i := put_din (f (din ip)) ip]> (icache s)) s).
Proof. intros Hi. unfold upd_din. by rewrite (upd_inode_run _ _ _ ip Hi). Qed.

(** * From positions to blocks *)

Definition a_append (b : Z) (a : ainode) : ainode :=
  mk_ainode (a_type a) (a_major a) (a_minor a) (a_nlink a) (a_size a) (a_blocks a ++ [b]) (a_ind a).
Definition a_set_ind (b : Z) (a : ainode) : ainode :=
  mk_ainode (a_type a) (a_major a) (a_minor a) (a_nlink a) (a_size a) (a_blocks a) (Some b).

Lemma lookup_addrs a k : addrs_of a !! k = if decide (k < NDIRECT)%nat then Some (default 0 (a_blocks a !! k)) else if decide (k = NDIRECT) then Some (default 0 (a_ind a)) else None.
Proof.
  unfold addrs_of. case_decide as D; [rewrite lookup_app_l by (by rewrite length_fmap, length_seq); by rewrite list_lookup_fmap, lookup_seq_lt|].
  rewrite lookup_app_r by (rewrite length_fmap, length_seq; lia). rewrite length_fmap, length_seq. case_decide as E; [by rewrite E, Nat.sub_diag|].
  apply lookup_ge_None_2. simpl. lia.
Qed.

Lemma length_addrs a : length (addrs_of a) = S NDIRECT.
Proof. unfold addrs_of. by rewrite length_app, length_fmap, length_seq. Qed.

Lemma set_addr_of k b a : set_addr k b (dinode_of a) = mk_dinode (a_type a) (a_major a) (a_minor a) (a_nlink a) (a_size a) (<[k := b]> (addrs_of a)).
Proof. reflexivity. Qed.

Lemma dinode_append b a : (length (a_blocks a) < NDIRECT)%nat → dinode_of (a_append b a) = set_addr (length (a_blocks a)) b (dinode_of a).
Proof.
  intros Hl. rewrite set_addr_of. unfold dinode_of. cbn [a_append a_type a_major a_minor a_nlink a_size]. f_equal. apply list_eq. intros k. rewrite lookup_addrs. cbn [a_append a_blocks a_ind].
  destruct (decide (k = length (a_blocks a))) as [->|Hne].
  - rewrite list_lookup_insert_eq by (rewrite length_addrs; lia). rewrite decide_True, lookup_app_r, Nat.sub_diag by lia. done.
  - rewrite list_lookup_insert_ne, lookup_addrs by done. repeat case_decide; try done. f_equal. f_equal. destruct (decide (k < length (a_blocks a))%nat).
    + by rewrite lookup_app_l.
    + rewrite !lookup_ge_None_2; [done|lia|rewrite length_app; simpl; lia].
Qed.

Lemma dinode_append_ind b a : (NDIRECT ≤ length (a_blocks a))%nat → dinode_of (a_append b a) = dinode_of a.
Proof.
  intros Hl. unfold dinode_of. cbn [a_append a_type a_major a_minor a_nlink a_size]. f_equal. apply list_eq. intros k. rewrite !lookup_addrs. cbn [a_append a_blocks a_ind].
  case_decide; [|done]. by rewrite lookup_app_l by lia.
Qed.

Lemma dinode_set_ind b a : dinode_of (a_set_ind b a) = set_addr NDIRECT b (dinode_of a).
Proof. reflexivity. Qed.

Section bmap.
Context (ex : option Z) (T : gmap Z ainode) (P : gset Z) (s : fss) (I : fs_inv ex T P s).
Context (n : Z) (a : ainode) (Ha : T !! n = Some a).
Context (i : nat) (ip : inode) (Hi : icache s !! i = Some ip) (Hdin : din ip = dinode_of a).
Abbreviation x := (sb s).

Lemma block_pos b : b ∈ own a → 0 < b.
Proof.
  intros Hb. destruct (fi_table _ _ _ _ I n a Ha) as [_ Hok]. apply (ao_range _ _ Hok) in Hb. pose proof (dstart_pos x (fi_layout _ _ _ _ I)). lia.
Qed.

Lemma in_blocks k b : a_blocks a !! k = Some b → b ∈ own a.
Proof. intros Hk. unfold own. rewrite elem_of_app. left. by eapply list_elem_of_lookup_2. Qed.

Lemma in_ind b : a_ind a = Some b → b ∈ own a.
Proof. intros Hb. unfold own. rewrite Hb, elem_of_app. right. by left. Qed.

Lemma own_block b : b ∈ own a → ∃ l, disk s !! b = Some l ∧ length l = Z.to_nat BSIZE.
Proof.
  intros Hb. destruct (fi_table _ _ _ _ I n a Ha) as [_ Hok]. apply (ao_range _ _ Hok) in Hb. apply (fi_disk _ _ _ _ I).
  pose proof (dstart_pos x (fi_layout _ _ _ _ I)). lia.
Qed.

(** A block that the file has. *)
Lemma bmap_read bn b : 0 ≤ bn → a_blocks a !! Z.to_nat bn = Some b → held s = ∅ → bmap i bn s = Some (b, s).
Proof.
  intros Hbn Hb Hh. pose proof (block_pos b (in_blocks _ _ Hb)) as Hpos. pose proof (lookup_lt_Some _ _ _ Hb) as Hlt.
  destruct (fi_table _ _ _ _ I n a Ha) as [_ Hok]. pose proof (ao_len _ _ Hok) as Hlen. unfold MAXFILE in Hlen.
  unfold bmap. erewrite bind_run by (by apply read_inode_run). rewrite Hdin. case_decide as Hd.
  - rewrite addr_of by (unfold NDIRECT in *; lia). rewrite Hb. simpl. by rewrite decide_False by lia.
  - cbv zeta. rewrite decide_True by (unfold NDIRECT, NINDIRECT in *; lia). rewrite addr_ind. destruct (ao_ind _ _ Hok) as [j Hj]; [unfold NDIRECT in *; lia|]. rewrite Hj. simpl.
    pose proof (block_pos j (in_ind j Hj)). rewrite decide_False by lia. destruct (own_block j (in_ind j Hj)) as (l&Hl&_).
    erewrite bind_run by done. unfold bmap_indirect. erewrite bind_run by (apply bread_run; [by rewrite Hh|exact Hl]).
    assert (word (Z.to_nat (bn - Z.of_nat NDIRECT)) l = b) as ->.
    { rewrite (fi_ind _ _ _ _ I n a j l Ha Hj Hl) by (unfold NDIRECT, NINDIRECT in *; lia).
      replace (NDIRECT + Z.to_nat (bn - Z.of_nat NDIRECT))%nat with (Z.to_nat bn) by (unfold NDIRECT in *; lia). by rewrite Hb. }
    rewrite decide_False by lia. by erewrite bind_run by (apply brelse_run; by rewrite Hh).
Qed.


End bmap.

(** ** New blocks *)

Lemma room_alloc T P x b : b ∉ owned T ∪ P → room T ({[b]} ∪ P) x = room T P x - 1.
Proof.
  intros Hb. unfold room. replace (owned T ∪ ({[b]} ∪ P)) with ({[b]} ∪ (owned T ∪ P)) by set_solver. rewrite size_union by set_solver. rewrite size_singleton. lia.
Qed.

Lemma append_ok x a b :
  ainode_ok x a → b ∉ own a → dstart x ≤ b < sb_size x → Z.of_nat (length (a_blocks a)) < MAXFILE → ((NDIRECT ≤ length (a_blocks a))%nat → is_Some (a_ind a)) →
  ainode_ok x (a_append b a).
Proof.
  intros [A1 A2 A3 A4 A5 A6 A7 A8 A9] Hb Hr Hl Hi. split; cbn [a_append a_type a_major a_minor a_nlink a_size a_blocks a_ind]; try done.
  - rewrite length_app. cbn [length]. unfold BSIZE in *. lia.
  - rewrite length_app. cbn [length]. lia.
  - rewrite length_app. cbn [length]. intros. apply Hi. lia.
  - intros c. unfold own. cbn [a_append a_blocks a_ind]. rewrite !elem_of_app, list_elem_of_singleton. intros [[Hc| ->]|Hc]; [|done|]; apply A8; unfold own; rewrite elem_of_app; auto.
  - unfold own in *. cbn [a_append a_blocks a_ind]. apply NoDup_app in A9 as (N1&N2&N3). rewrite elem_of_app in Hb. apply NoDup_app. split_and!; [apply NoDup_app; split_and!| |].
    + done.
    + intros c Hc ->%list_elem_of_singleton. tauto.
    + apply NoDup_singleton.
    + intros c [Hc| ->%list_elem_of_singleton]%elem_of_app; [auto|tauto].
    + done.
Qed.

Lemma set_ind_ok x a j : ainode_ok x a → a_ind a = None → j ∉ own a → dstart x ≤ j < sb_size x → ainode_ok x (a_set_ind j a).
Proof.
  intros [A1 A2 A3 A4 A5 A6 A7 A8 A9] Hn Hj Hr. split; cbn [a_set_ind a_type a_major a_minor a_nlink a_size a_blocks a_ind]; try done.
  - intros c. unfold own in *. cbn [a_set_ind a_blocks a_ind]. rewrite elem_of_app. intros [Hc|Hc]; [apply A8, elem_of_app; auto|]. cbn in Hc. apply list_elem_of_singleton in Hc as ->. done.
  - unfold own in *. cbn [a_set_ind a_blocks a_ind]. rewrite Hn in *. cbn in *. rewrite app_nil_r in *. rewrite NoDup_app. split_and!; [done| |apply NoDup_singleton]. intros c Hc ->%list_elem_of_singleton. done.
Qed.

Lemma elem_own_append b c a : c ∈ own (a_append b a) ↔ c = b ∨ c ∈ own a.
Proof. unfold own. cbn [a_append a_blocks a_ind]. rewrite !elem_of_app, list_elem_of_singleton. tauto. Qed.

Lemma elem_own_ind j c a : a_ind a = None → c ∈ own (a_set_ind j a) ↔ c = j ∨ c ∈ own a.
Proof. intros Hn. unfold own. rewrite Hn. cbn [a_set_ind a_blocks a_ind]. rewrite !elem_of_app. cbn. rewrite list_elem_of_singleton, elem_of_nil. tauto. Qed.

Section grow.
Context (ex : option Z) (T : gmap Z ainode) (P : gset Z) (b : Z) (s : fss) (I : fs_inv ex T ({[b]} ∪ P) s) (Hb : b ∉ owned T ∪ P).
Context (n : Z) (a : ainode) (Ha : T !! n = Some a) (He : ex = None ∨ ex = Some n).
Abbreviation x := (sb s).

Lemma grow_pending a' : (∀ c, c ∈ own a' ↔ c = b ∨ c ∈ own a) → (({[b]} ∪ P) ∪ blocks_set a) ∖ blocks_set a' = P.
Proof.
  intros Ho. apply set_eq. intros c. rewrite elem_of_difference, !elem_of_union, elem_of_singleton, !elem_of_list_to_set, Ho.
  assert (c ∈ own a → c ∉ P) as Hd by (intros Hc Hp; by apply (own_not_pending _ _ _ _ I n a c Ha Hc), elem_of_union_r). assert (c ∈ P → c ≠ b) by (intros Hp ->; apply Hb; set_solver). tauto.
Qed.

Lemma fresh_own : b ∉ own a.
Proof. intros Hc. apply Hb, elem_of_union_l, elem_of_owned. eauto. Qed.

Lemma fresh_range : dstart x ≤ b < sb_size x.
Proof. apply (fi_pending _ _ _ _ I). set_solver. Qed.

Lemma room_grow a' : (∀ c, c ∈ own a' ↔ c = b ∨ c ∈ own a) → room (<[n := a']> T) P x = room T P x - 1.
Proof.
  intros Ho. rewrite <- (room_alloc T P x b Hb). unfold room. do 3 f_equal. rewrite <- (retable_union T ({[b]} ∪ P) n a a' Ha), (grow_pending a' Ho); [done|].
  intros c. rewrite Ho. set_solver.
Qed.

(** The block becomes the next direct block. *)
Lemma inv_append : (length (a_blocks a) < NDIRECT)%nat → fs_inv (Some n) (<[n := a_append b a]> T) P s.
Proof.
  intros Hl. destruct (fi_table _ _ _ _ I n a Ha) as [_ Hok]. rewrite <- (grow_pending (a_append b a)) by (intros; apply elem_own_append).
  eapply inv_retable; [exact I|done|done| | |].
  - apply append_ok; [done|apply fresh_own|apply fresh_range|unfold NDIRECT, MAXFILE in *; lia|lia].
  - intros c. rewrite elem_own_append. set_solver.
  - intros j l Hj Hlj k Hk. cbn [a_append a_ind a_blocks] in *. rewrite (fi_ind _ _ _ _ I n a j l Ha Hj Hlj k Hk). f_equal.
    rewrite !lookup_ge_None_2; [done|rewrite length_app; cbn [length]; lia|lia].
Qed.

(** The block becomes the indirect block. *)
Lemma inv_set_ind : a_ind a = None → disk s !! b = Some zero_block → fs_inv (Some n) (<[n := a_set_ind b a]> T) P s.
Proof.
  intros Hn Hz. destruct (fi_table _ _ _ _ I n a Ha) as [_ Hok]. rewrite <- (grow_pending (a_set_ind b a)) by (intros; by apply elem_own_ind).
  eapply inv_retable; [exact I|done|done| | |].
  - apply set_ind_ok; [done|done|apply fresh_own|apply fresh_range].
  - intros c. rewrite elem_own_ind by done. set_solver.
  - intros j l Hj Hlj k Hk. cbn [a_set_ind a_ind a_blocks] in *. injection Hj as <-. rewrite Hz in Hlj. injection Hlj as <-. rewrite word_zero.
    rewrite lookup_ge_None_2; [done|]. destruct (decide (NDIRECT < length (a_blocks a))%nat) as [Hlt|]; [|lia]. destruct (ao_ind _ _ Hok Hlt). congruence.
Qed.

(** The block becomes the next of the indirect ones. *)
Lemma inv_append_ind j l :
  a_ind a = Some j → disk s !! j = Some l → (NDIRECT ≤ length (a_blocks a))%nat → Z.of_nat (length (a_blocks a)) < MAXFILE →
  fs_inv (Some n) (<[n := a_append b a]> T) P (wrote j (set_word (length (a_blocks a) - NDIRECT) b l) s).
Proof.
  intros Hj Hl Hlen Hmax. destruct (fi_table _ _ _ _ I n a Ha) as [Hn Hok]. pose proof (inv_park _ _ _ _ I n a Ha He) as I1. pose proof fresh_range as Hr.
  assert (j ∈ own a) as Hjo by (unfold own; rewrite Hj, elem_of_app; right; by left). pose proof (ao_range _ _ Hok j Hjo) as Hjr. pose proof (dstart_pos x (fi_layout _ _ _ _ I)) as Hd.
  pose proof (ly_data _ (fi_layout _ _ _ _ I)) as Hsz. destruct (fi_disk _ _ _ _ I j) as (l'&El&Hll); [lia|]. rewrite Hl in El. injection El as <-.
  assert (∀ k, (k < NINDIRECT)%nat → (4 * k + 4 ≤ length l)%nat) as Hk4 by (intros k Hk; rewrite Hll; unfold NINDIRECT, BSIZE in *; lia).
  set (k0 := (length (a_blocks a) - NDIRECT)%nat). assert (k0 < NINDIRECT)%nat as Hk0 by (unfold k0, NINDIRECT, NDIRECT, MAXFILE in *; lia).
  assert (fs_inv (Some n) (<[n := a_empty a]> T) (({[b]} ∪ P) ∪ blocks_set a) (wrote j (set_word k0 b l) s)) as I2.
  { apply (inv_write_data _ _ _ s I1 j); [done| |by rewrite length_set_word by auto]. intros m c [[<- <-]|[Hm Hc]]%lookup_insert_Some Hci; [done|].
    apply Hm. apply (fi_disjoint _ _ _ _ I n m a c j); [done|done|done|]. unfold own. rewrite Hci, elem_of_app. right. by left. }
  rewrite <- (insert_insert_eq T n (a_append b a) (a_empty a)). eapply (inv_unpark _ _ _ _ I2 n (a_empty a)); [by rewrite lookup_insert_eq|done|by right| | | |].
  - apply append_ok; [done|apply fresh_own|done|done|intros _; eauto].
  - apply set_eq. intros c. rewrite !elem_of_union, elem_of_singleton, !elem_of_list_to_set, elem_own_append. tauto.
  - intros c. rewrite elem_of_list_to_set, elem_own_append. intros [->|Hc] Hp; [apply Hb; set_solver|]. by apply (own_not_pending _ _ _ _ I n a c Ha Hc), elem_of_union_r.
  - intros j' l' Hj' Hl' k Hk. cbn [a_append a_ind a_blocks wrote disk] in *. rewrite Hj in Hj'. injection Hj' as <-. rewrite lookup_insert_eq in Hl'. injection Hl' as <-.
    destruct (decide (k = k0)) as [->|Hne].
    + rewrite word_set by (auto || lia). rewrite lookup_app_r by (unfold k0; lia). replace (_ - _)%nat with 0%nat by (unfold k0; lia). done.
    + rewrite word_set_other by auto. rewrite (fi_ind _ _ _ _ I n a j l Ha Hj Hl k Hk). f_equal. destruct (decide (NDIRECT + k < length (a_blocks a))%nat).
      * by rewrite lookup_app_l.
      * rewrite !lookup_ge_None_2; [done|rewrite length_app; cbn [length]; unfold k0 in *; lia|lia].
Qed.

End grow.

(** A buffer is locked and unlocked. *)
Definition unhold (b : Z) (s : fss) : fss := mk_fss (sb s) (disk s) (held s ∖ {[b]}) (outstanding s) (logged s) (icache s).

Lemma hold_unhold b s : b ∈ held s → hold b (unhold b s) = s.
Proof.
  intros Hb. unfold hold, unhold. cbn [sb disk held outstanding logged icache]. replace ({[b]} ∪ held s ∖ {[b]}) with (held s); [by destruct s|].
  apply set_eq. intros c. rewrite elem_of_union, elem_of_difference, elem_of_singleton. destruct (decide (c = b)); set_solver.
Qed.

Lemma inv_hold ex T P s b : fs_inv ex T P s → b ∈ owned T ∪ P → fs_inv ex T P (hold b s).
Proof. intros [I1 I2 I3 I4 I5 I6 I7 I8 I9] Hb. split; try done. cbn [hold held]. set_solver. Qed.

Lemma inv_unhold ex T P s b : fs_inv ex T P s → fs_inv ex T P (unhold b s).
Proof. intros [I1 I2 I3 I4 I5 I6 I7 I8 I9]. split; try done. cbn [unhold held]. set_solver. Qed.

(** The blocks written besides a new block of the file. *)
Definition ind_set (x : superblock) (a : ainode) : gset Z := match a_ind a with Some j => {[j; BBLOCK j x]} | None => ∅ end.

(** [a'] and state [s']: the file of [a] with the block [b] added at its end. *)
Record appended (T : gmap Z ainode) (P : gset Z) (n : Z) (a : ainode) (i : nat) (ip : inode) (s : fss) (b : Z) (a' : ainode) (s' : fss) : Prop := {
  ap_blocks : a_blocks a' = a_blocks a ++ [b];
  ap_meta : a_empty a' = a_empty a ∧ a_size a' = a_size a;
  ap_ind : is_Some (a_ind a) → a_ind a' = a_ind a;
  ap_inv : fs_inv (Some n) (<[n := a']> T) P s';
  ap_zero : disk s' !! b = Some zero_block;
  ap_cache : icache s' = <[i := put_din (dinode_of a') ip]> (icache s);
  ap_frame : frame ({[b; BBLOCK b (sb s)]} ∪ ind_set (sb s) a') s s';
  ap_data : ∀ c, c ∈ a_blocks a → disk s' !! c = disk s !! c;
  ap_room : room (<[n := a']> T) P (sb s) = room T P (sb s) - 1 - (if decide (a_ind a' = a_ind a) then 0 else 1);
}.

Section append.
Context (ex : option Z) (T : gmap Z ainode) (P : gset Z) (s : fss) (I : fs_inv ex T P s) (Hop : outstanding s ≠ 0%nat) (Hheld : held s = ∅).
Context (n : Z) (a : ainode) (Ha : T !! n = Some a) (He : ex = None ∨ ex = Some n).
Context (i : nat) (ip : inode) (Hi : icache s !! i = Some ip) (Hdin : din ip = dinode_of a).
Abbreviation x := (sb s).
Abbreviation len := (length (a_blocks a)).

Lemma append_direct : (len < NDIRECT)%nat → 0 < room T P x → wp (bmap i (Z.of_nat len)) (λ b s', appended T P n a i ip s b (a_append b a) s') s.
Proof.
  intros Hl Hroom. unfold bmap. apply wp_bind. eapply wp_intro; [by apply read_inode_run|]. cbn beta. rewrite Hdin, Nat2Z.id.
  rewrite (decide_True (P := Z.of_nat len < Z.of_nat NDIRECT)) by lia. rewrite addr_of by done. rewrite lookup_ge_None_2 by lia. cbn [default from_option]. rewrite decide_True by done.
  apply wp_bind. eapply wp_mono; [by apply (balloc_spec _ _ _ _ I Hop)|]. intros b s1 (Hr&Hb&I1&Hz&F&Ec). cbn beta. apply wp_bind. eapply wp_intro; [apply (upd_din_run i _ s1 ip); by rewrite Ec|].
  apply wp_ret. pose proof (fr_sb _ _ _ F) as Es. split; try done.
  - apply inv_cache. by eapply (inv_append _ _ _ _ _ I1).
  - cbn [set_cache icache]. rewrite Ec, Hdin. by rewrite dinode_append.
  - apply frame_cache. eapply fs_frame_mono; [exact F|set_solver].
  - intros c Hc. cbn [set_cache disk]. apply (fr_disk _ _ _ F). assert (c ∈ own a) as Hco by (unfold own; rewrite elem_of_app; by left).
    destruct (fi_table _ _ _ _ I n a Ha) as [_ Hok]. pose proof (ao_range _ _ Hok c Hco). pose proof (bblock_range x (fi_layout _ _ _ _ I) b ltac:(pose proof (dstart_pos x (fi_layout _ _ _ _ I)); lia)).
    rewrite elem_of_union, !elem_of_singleton. intros [->| ->]; [|lia]. apply Hb, elem_of_union_l, elem_of_owned. eauto.
  - cbn [a_append a_ind]. rewrite decide_True by done. rewrite <- Es. rewrite (room_grow _ _ _ _ _ I1 Hb n a Ha He (a_append b a)) by (intros; apply elem_own_append). lia.
Qed.

Lemma append_indirect j :
  a_ind a = Some j → (NDIRECT ≤ len)%nat → Z.of_nat len < MAXFILE → 0 < room T P x →
  wp (bmap_indirect j (Z.of_nat len - Z.of_nat NDIRECT)) (λ b s', appended T P n a i ip s b (a_append b a) s') s.
Proof.
  intros Hj Hl Hmax Hroom. assert (j ∈ own a) as Hjo by (unfold own; rewrite Hj, elem_of_app; right; by left).
  assert (j ∈ owned T) as HjT by (apply elem_of_owned; eauto). destruct (own_block _ _ _ _ I n a Ha j Hjo) as (l&Hlj&_).
  unfold bmap_indirect. apply wp_bind. eapply wp_intro; [apply bread_run; [by rewrite Hheld|exact Hlj]|]. cbn beta.
  replace (Z.to_nat (Z.of_nat len - Z.of_nat NDIRECT)) with (len - NDIRECT)%nat by lia.
  rewrite (fi_ind _ _ _ _ I n a j l Ha Hj Hlj) by (unfold NDIRECT, NINDIRECT, MAXFILE in *; lia). rewrite lookup_ge_None_2 by lia. cbn [default from_option]. rewrite decide_True by done.
  apply wp_bind. eapply wp_mono; [apply (balloc_spec _ _ _ _ (inv_hold _ _ _ _ j I ltac:(set_solver)) Hop Hroom)|].
  intros b s1 (Hr&Hb&I1&Hz&F&Ec). cbn beta. assert (j ∈ held s1) as Hjh by (rewrite (fr_held _ _ _ F); cbn [hold held]; set_solver).
  assert (b ≠ j) as Hbj by (intros ->; apply Hb; set_solver). pose proof (fr_sb _ _ _ F) as Es. cbn [hold sb] in *.
  assert (BBLOCK b x < dstart x) as Hbm by (apply (bblock_range x (fi_layout _ _ _ _ I)); pose proof (dstart_pos x (fi_layout _ _ _ _ I)); lia).
  pose proof (free_or_owned_range _ _ _ _ I j ltac:(set_solver)) as Hjr.
  assert (disk s1 !! j = Some l) as Hl1 by (rewrite (fr_disk _ _ _ F); [done|]; rewrite elem_of_union, !elem_of_singleton; lia).
  eapply wp_intro.
  { rewrite <- (hold_unhold j s1 Hjh) at 1. rewrite update_run; [done|cbn [unhold held]; set_solver|]. cbn [unhold outstanding]. by rewrite (fr_op _ _ _ F). }
  pose proof (inv_unhold _ _ _ _ j I1) as I2. split; try done.
  - by eapply (inv_append_ind _ _ _ _ _ I2).
  - cbn [wrote disk]. rewrite lookup_insert_ne by done. done.
  - cbn [wrote icache unhold]. rewrite Ec, dinode_append_ind by done. rewrite <- Hdin. symmetry. apply list_insert_id. cbn [hold icache]. rewrite Hi. by destruct ip.
  - unfold ind_set. cbn [a_append a_ind]. rewrite Hj. split; cbn [wrote unhold sb held outstanding logged disk].
    + done.
    + rewrite (fr_held _ _ _ F). cbn [hold held]. rewrite Hheld. set_solver.
    + by rewrite (fr_op _ _ _ F).
    + pose proof (fr_logged _ _ _ F) as HL. cbn [hold logged] in HL. clear - HL. set_solver.
    + intros c Hc. rewrite lookup_insert_ne by set_solver. rewrite (fr_disk _ _ _ F) by set_solver. done.
  - intros c Hc. assert (c ∈ own a) as Hco by (unfold own; rewrite elem_of_app; by left). destruct (fi_table _ _ _ _ I n a Ha) as [_ Hok]. pose proof (ao_range _ _ Hok c Hco).
    assert (c ≠ j) as Hcj. { intros ->. pose proof (ao_nodup _ _ Hok) as Hnd. unfold own in Hnd. rewrite Hj in Hnd. apply NoDup_app in Hnd as (_&Hnd&_). apply (Hnd j Hc). by left. }
    cbn [wrote unhold disk]. rewrite lookup_insert_ne by done. rewrite (fr_disk _ _ _ F); [done|]. rewrite elem_of_union, !elem_of_singleton. intros [->| ->]; [|lia]. apply Hb, elem_of_union_l, elem_of_owned. eauto.
  - cbn [a_append a_ind]. rewrite decide_True by done. rewrite <- Es. rewrite (room_grow _ _ _ _ _ I1 Hb n a Ha He (a_append b a)) by (intros; apply elem_own_append). lia.
Qed.

End append.

(** The block after the last one of a file is allocated. *)
Lemma bmap_append ex T P s n a i ip :
  fs_inv ex T P s → outstanding s ≠ 0%nat → held s = ∅ → T !! n = Some a → ex = None ∨ ex = Some n → icache s !! i = Some ip → din ip = dinode_of a →
  Z.of_nat (length (a_blocks a)) < MAXFILE → (if decide (a_ind a = None) then 1 else 0) < room T P (sb s) →
  wp (bmap i (Z.of_nat (length (a_blocks a)))) (λ b s', ∃ a', appended T P n a i ip s b a' s') s.
Proof.
  intros I Hop Hh Ha He Hi Hdin Hmax Hroom. assert (0 < room T P (sb s)) as Hroom0 by (case_decide; lia). destruct (decide (length (a_blocks a) < NDIRECT)%nat) as [Hd|Hd].
  { eapply wp_mono; [apply (append_direct ex T P s I Hop Hh n a Ha He i ip Hi Hdin Hd); lia|]. intros b s' Hap. by exists (a_append b a). }
  unfold bmap. apply wp_bind. eapply wp_intro; [by apply read_inode_run|]. cbn beta zeta. rewrite Hdin, addr_ind.
  rewrite (decide_False (P := Z.of_nat _ < Z.of_nat NDIRECT)) by lia. rewrite (decide_True (P := _ < Z.of_nat NINDIRECT)) by (unfold NINDIRECT, NDIRECT, MAXFILE in *; lia).
  destruct (a_ind a) as [j|] eqn:Hj.
  - cbn [default from_option id]. assert (0 < j) by (apply (block_pos _ _ _ _ I n a Ha); unfold own; rewrite Hj, elem_of_app; right; by left).
    rewrite decide_False by lia. apply wp_bind, wp_ret. eapply wp_mono; [apply (append_indirect ex T P s I Hop Hh n a Ha He i ip Hi Hdin j Hj); lia|]. intros b s' Hap. by exists (a_append b a).
  - rewrite decide_True in Hroom by done. cbn [default from_option id]. rewrite decide_True by done. apply wp_bind, wp_bind. eapply wp_mono; [apply (balloc_spec _ _ _ _ I Hop); lia|].
    intros j s1 (Hr&Hb&I1&Hz&F&Ec). cbn beta. pose proof (fr_sb _ _ _ F) as Es. apply wp_bind. eapply wp_intro; [apply (upd_din_run i _ s1 ip); by rewrite Ec|]. apply wp_ret.
    set (a1 := a_set_ind j a). set (ip1 := put_din (dinode_of a1) ip). set (s2 := set_cache _ s1).
    assert (fs_inv (Some n) (<[n := a1]> T) P s2) as I2 by (apply inv_cache; by eapply (inv_set_ind _ _ _ _ _ I1)).
    assert (room (<[n := a1]> T) P (sb s) = room T P (sb s) - 1) as Hroom1.
    { rewrite <- Es. rewrite (room_grow _ _ _ _ _ I1 Hb n a Ha He a1) by (intros; by apply elem_own_ind). done. }
    assert (icache s2 = <[i := ip1]> (icache s)) as Ec2 by (unfold s2, ip1; cbn [set_cache icache]; by rewrite Ec, Hdin).
    eapply wp_mono; [apply (append_indirect (Some n) (<[n := a1]> T) P s2 I2) with (n := n) (a := a1) (i := i) (ip := ip1) (j := j)|]; try done.
    + unfold s2. cbn [set_cache outstanding]. by rewrite (fr_op _ _ _ F).
    + unfold s2. cbn [set_cache held]. by rewrite (fr_held _ _ _ F).
    + by rewrite lookup_insert_eq.
    + by right.
    + rewrite Ec2. apply list_lookup_insert_eq. by eapply lookup_lt_Some.
    + cbn [a1 a_set_ind a_blocks]. lia.
    + change (sb s2) with (sb s1). rewrite Es. lia.
    + intros b s' [B1 B2 B3 B4 B5 B6 B7 B8 B9]. exists (a_append b a1). rewrite insert_insert_eq in B4, B9. change (sb s2) with (sb s1) in *. rewrite Es in *.
      split; try done.
      * rewrite Hj. intros []. done.
      * rewrite B6, Ec2, list_insert_insert_eq. done.
      * eapply fs_frame_trans; [|exact B7]. apply frame_cache. eapply fs_frame_mono; [exact F|]. unfold ind_set. cbn [a_append a1 a_set_ind a_ind]. set_solver.
      * intros c Hc. rewrite B8 by done. unfold s2. cbn [set_cache disk]. apply (fr_disk _ _ _ F). assert (c ∈ own a) as Hco by (unfold own; rewrite elem_of_app; by left).
        destruct (fi_table _ _ _ _ I n a Ha) as [_ Hok]. pose proof (ao_range _ _ Hok c Hco). pose proof (dstart_pos _ (fi_layout _ _ _ _ I)). pose proof (bblock_range _ (fi_layout _ _ _ _ I) j ltac:(lia)).
        rewrite elem_of_union, !elem_of_singleton. intros [->| ->]; [|lia]. apply Hb, elem_of_union_l, elem_of_owned. eauto.
      * rewrite B9, Hroom1. cbn [a_append a1 a_set_ind a_ind]. rewrite decide_True by done. rewrite decide_False by congruence. lia.
Qed.

(** Files of xv6 as bytes: what [readi] and [writei] do, in terms of the bytes of
    the blocks of a file. *)

(** * Lists of blocks *)

Lemma length_concat {A} n (ll : list (list A)) : Forall (λ y, length y = n) ll → length (concat ll) = (n * length ll)%nat.
Proof.
  intros Hll. induction Hll as [|y l' Hy Hl IH]; [symmetry; apply Nat.mul_0_r|]. cbn [concat length]. rewrite length_app, IH, Hy. lia.
Qed.

Lemma concat_split {A} n (ll : list (list A)) k y :
  Forall (λ y, length y = n) ll → ll !! k = Some y → concat ll = concat (take k ll) ++ y ++ concat (drop (S k) ll) ∧ length (concat (take k ll)) = (n * k)%nat.
Proof.
  intros Hll Hk. split.
  - rewrite <- (take_drop_middle ll k y Hk) at 1. by rewrite concat_app.
  - rewrite (length_concat n) by (by apply Forall_take). rewrite length_take. apply lookup_lt_Some in Hk. f_equal. lia.
Qed.

Lemma slice_block {A} n (ll : list (list A)) k y o m :
  Forall (λ y, length y = n) ll → ll !! k = Some y → (o + m ≤ n)%nat → take m (drop (n * k + o) (concat ll)) = take m (drop o y).
Proof.
  intros Hll Hk Ho. destruct (concat_split n ll k y Hll Hk) as [-> Hl]. assert (length y = n) as Hy by (pose proof (Forall_lookup_1 _ _ _ _ Hll Hk) as Hy; exact Hy).
  rewrite drop_app_ge by lia. replace (n * k + o - _)%nat with o by lia. rewrite drop_app_le by lia. rewrite take_app_le; [done|]. rewrite length_drop. lia.
Qed.

Lemma patch_app {A} o (b p y q : list A) : (o + length b ≤ length y)%nat → patch (length p + o) b (p ++ y ++ q) = p ++ patch o b y ++ q.
Proof.
  intros Ho. unfold patch. rewrite take_app_add, <- !app_assoc. f_equal. rewrite take_app_le by lia. f_equal. f_equal.
  rewrite <- Nat.add_assoc, <- drop_drop, drop_app_length. rewrite drop_app_le by lia. done.
Qed.

Lemma patch_block {A} n (ll : list (list A)) k y o b :
  Forall (λ y, length y = n) ll → ll !! k = Some y → (o + length b ≤ n)%nat → concat (<[k := patch o b y]> ll) = patch (n * k + o) b (concat ll).
Proof.
  intros Hll Hk Ho. destruct (concat_split n ll k y Hll Hk) as [-> Hl]. assert (length y = n) as Hy by (pose proof (Forall_lookup_1 _ _ _ _ Hll Hk) as Hy; exact Hy). rewrite <- Hl, patch_app by lia.
  rewrite insert_take_drop by (by eapply lookup_lt_Some). by rewrite concat_app.
Qed.

Lemma patch_patch {A} off (b1 b2 l : list A) :
  (off + length b1 + length b2 ≤ length l)%nat → patch (off + length b1) b2 (patch off b1 l) = patch off (b1 ++ b2) l.
Proof.
  intros Hl. apply list_eq. intros k. rewrite !lookup_patch; rewrite ?length_patch, ?length_app; try lia.
  destruct (decide (off ≤ k < off + (length b1 + length b2))%nat) as [D|D].
  - destruct (decide (off + length b1 ≤ k < off + length b1 + length b2)%nat); [rewrite lookup_app_r by lia; f_equal; lia|].
    rewrite decide_True, lookup_app_l by lia. done.
  - rewrite !decide_False by lia. done.
Qed.

Lemma patch_app_l {A} off (b l q : list A) : (off + length b ≤ length l)%nat → patch off b (l ++ q) = patch off b l ++ q.
Proof. intros Hl. exact (patch_app off b [] l q Hl). Qed.

Lemma patch_nil {A} off (l : list A) : patch off [] l = l.
Proof. unfold patch. rewrite Nat.add_0_r. apply take_drop. Qed.

(** * The bytes of a file *)

Definition blk (s : fss) (b : Z) : list byte := default [] (disk s !! b).
Definition fbytes (s : fss) (a : ainode) : list byte := concat (blk s <$> a_blocks a).

(** Blocks that [n] bytes take. *)
Definition nblk (n : Z) : Z := (n + BSIZE - 1) / BSIZE.

(** Blocks that are missing for a file of [n] bytes. *)
Definition need (a : ainode) (n : Z) : Z :=
  if decide (nblk n ≤ Z.of_nat (length (a_blocks a))) then 0 else nblk n - Z.of_nat (length (a_blocks a)) + (if decide (a_ind a = None) then 1 else 0).

Lemma need_mono a n m : nblk n ≤ nblk m → need a n ≤ need a m.
Proof. intros H. unfold need. repeat case_decide; lia. Qed.

(** What is missing after a part has been written. *)
Lemma need_next a a1 n fin r r' :
  nblk n ≤ nblk fin → Z.of_nat (length (a_blocks a1)) = Z.max (Z.of_nat (length (a_blocks a))) (nblk n) → (is_Some (a_ind a) → a_ind a1 = a_ind a) →
  (nblk n ≤ Z.of_nat (length (a_blocks a)) → a_blocks a1 = a_blocks a ∧ a_ind a1 = a_ind a) → r - (nblk n - Z.of_nat (length (a_blocks a))) `max` 0 - (if decide (a_ind a1 = a_ind a) then 0 else 1) ≤ r' →
  need a fin ≤ r → need a1 fin ≤ r'.
Proof.
  intros Hn Hl Hi Hid Hr Hneed. destruct (decide (nblk n ≤ Z.of_nat (length (a_blocks a)))) as [Hle|Hgt].
  - destruct (Hid Hle) as [Eb Ei]. rewrite decide_True in Hr by done. replace (need a1 fin) with (need a fin) by (unfold need; by rewrite Eb, Ei). lia.
  - unfold need in *. rewrite Hl. rewrite decide_False in Hneed by lia. assert (a_ind a1 = a_ind a ∨ a_ind a = None ∧ is_Some (a_ind a1)) as Hc by (destruct (a_ind a) as [j|]; [left; auto|destruct (a_ind a1); eauto]).
    destruct (decide (a_ind a1 = a_ind a)) as [E|E], (decide (a_ind a = None)) as [E2|E2], (decide (a_ind a1 = None)) as [E3|E3], (decide (nblk fin ≤ _)) as [E4|E4]; try lia; exfalso; destruct Hc as [?|[? [? ?]]]; congruence.
Qed.

Section read.
Context (ex : option Z) (T : gmap Z ainode) (P : gset Z) (s : fss) (I : fs_inv ex T P s) (Hh : held s = ∅).
Context (n : Z) (a : ainode) (Ha : T !! n = Some a).
Abbreviation len := (length (a_blocks a)).

Lemma blk_length : Forall (λ y, length y = Z.to_nat BSIZE) (blk s <$> a_blocks a).
Proof.
  apply Forall_fmap, Forall_forall. intros b Hb. simpl. unfold blk. destruct (own_block _ _ _ _ I n a Ha b) as (l&->&Hl); [|done]. unfold own. rewrite elem_of_app. by left.
Qed.

Lemma length_fbytes : length (fbytes s a) = (Z.to_nat BSIZE * len)%nat.
Proof. unfold fbytes. rewrite (length_concat (Z.to_nat BSIZE)) by apply blk_length. by rewrite length_fmap. Qed.

Lemma read_loop_spec i ip fuel : icache s !! i = Some ip → din ip = dinode_of a → ∀ off m,
  0 ≤ off → 0 ≤ m → off + m ≤ BSIZE * Z.of_nat len → (Z.to_nat m ≤ fuel)%nat →
  read_loop fuel i off m s = Some (take (Z.to_nat m) (drop (Z.to_nat off) (fbytes s a)), s).
Proof.
  intros Hi Hd. induction fuel as [|fuel IH]; intros off m Ho Hm Hend Hf.
  { cbn [read_loop]. rewrite decide_False by lia. replace (Z.to_nat m) with 0%nat by lia. by rewrite take_0. }
  cbn [read_loop]. case_decide as Hpos; [|replace (Z.to_nat m) with 0%nat by lia; by rewrite take_0].
  set (k := Z.to_nat (off / BSIZE)). set (o := Z.to_nat (off mod BSIZE)). set (c := Z.min m (BSIZE - off mod BSIZE)).
  assert (off = BSIZE * Z.of_nat k + Z.of_nat o ∧ Z.of_nat o < BSIZE ∧ (k < len)%nat ∧ 0 < c ∧ Z.of_nat o + c ≤ BSIZE ∧ c ≤ m) as (Eoff&Ho2&Hk&Hc0&Hc&Hcm).
  { unfold k, o, c, BSIZE in *. Z.to_euclidean_division_equations. lia. }
  destruct (lookup_lt_is_Some_2 (a_blocks a) k Hk) as [b Hb]. destruct (own_block _ _ _ _ I n a Ha b) as (l&Hl&_); [by eapply in_blocks|].
  erewrite bind_run by (eapply (bmap_read _ _ _ _ I n a Ha i ip Hi Hd); [apply Z.div_pos; done|exact Hb|done]).
  erewrite bind_run by (apply bread_run; [by rewrite Hh|exact Hl]). cbv zeta. erewrite bind_run by (apply brelse_run; by rewrite Hh).
  erewrite bind_run by (apply IH; lia). unfold mret, ST_ret. do 2 f_equal. fold c. fold o.
  replace (Z.to_nat off) with (Z.to_nat BSIZE * k + o)%nat by (unfold BSIZE in *; lia).
  replace (take (Z.to_nat c) (drop o l)) with (take (Z.to_nat c) (drop (Z.to_nat BSIZE * k + o) (fbytes s a))).
  2: { unfold fbytes. erewrite slice_block; [|apply blk_length|rewrite list_lookup_fmap, Hb; done|unfold BSIZE in *; lia]. unfold blk. by rewrite Hl. }
  replace (Z.to_nat (off + c)) with (Z.to_nat BSIZE * k + o + Z.to_nat c)%nat by (unfold BSIZE in *; lia).
  replace (Z.to_nat m) with (Z.to_nat c + Z.to_nat (m - c))%nat by lia.
  generalize (Z.to_nat BSIZE * k + o)%nat. intros D. rewrite <- drop_drop. apply take_take_drop.
Qed.

End read.

(** * Writing *)

Definition bitmap_blocks (x : superblock) : gset Z := list_to_set ((λ k, bmapstart x + Z.of_nat k) <$> seq 0 (Z.to_nat (dstart x - bmapstart x))).

Lemma elem_bitmap x b : b ∈ bitmap_blocks x ↔ bmapstart x ≤ b < dstart x.
Proof.
  unfold bitmap_blocks. rewrite elem_of_list_to_set, list_elem_of_fmap. split.
  - intros (k&->&Hk%elem_of_seq). lia.
  - intros Hb. exists (Z.to_nat (b - bmapstart x)). split; [lia|]. apply elem_of_seq. lia.
Qed.

(** The blocks that a write from [off] to [fin] logs: those of the range, the
    indirect block, and the bitmap. *)
Definition touched (x : superblock) (a : ainode) (off fin : Z) : gset Z :=
  list_to_set (take (Z.to_nat (nblk fin - off / BSIZE)) (drop (Z.to_nat (off / BSIZE)) (a_blocks a))) ∪ list_to_set (option_list (a_ind a)) ∪ bitmap_blocks x.

Lemma touched_mono x a a' off off' fin fin' :
  0 ≤ off → off / BSIZE ≤ off' / BSIZE → nblk fin' ≤ nblk fin → a_blocks a `prefix_of` a_blocks a' → (is_Some (a_ind a) → a_ind a' = a_ind a) →
  touched x a off' fin' ⊆ touched x a' off fin.
Proof.
  intros H0 Ho Hf [k Hk] Hi. unfold touched. apply union_mono; [apply union_mono|done].
  - rewrite Hk. intros b. rewrite !elem_of_list_to_set, !list_elem_of_lookup. intros [j Hj]. assert (0 ≤ off / BSIZE) by (apply Z.div_pos; done).
    exists (j + Z.to_nat (off' / BSIZE) - Z.to_nat (off / BSIZE))%nat. apply lookup_take_Some in Hj as [Hj Hlt]. rewrite lookup_drop in Hj.
    rewrite lookup_take_lt by lia. rewrite lookup_drop. rewrite lookup_app_l; [rewrite <- Hj; f_equal; lia|]. apply lookup_lt_Some in Hj. lia.
  - destruct (a_ind a) as [j|] eqn:Ej; [by rewrite Hi by done|]. cbn. set_solver.
Qed.

(** The inode [n] in cache entry [i] has gone from [a] to [a'] by a write up to
    [fin]. *)
Record grew (T : gmap Z ainode) (P : gset Z) (n : Z) (a : ainode) (i : nat) (ip : inode) (s : fss) (off fin : Z) (a' : ainode) (s' : fss) : Prop := {
  gr_meta : a_empty a' = a_empty a ∧ a_size a' = a_size a;
  gr_prefix : a_blocks a `prefix_of` a_blocks a';
  gr_len : Z.of_nat (length (a_blocks a')) = Z.max (Z.of_nat (length (a_blocks a))) (nblk fin);
  gr_ind : is_Some (a_ind a) → a_ind a' = a_ind a;
  gr_id : nblk fin ≤ Z.of_nat (length (a_blocks a)) → a' = a;
  gr_inv : fs_inv (Some n) (<[n := a']> T) P s';
  gr_cache : icache s' = <[i := put_din (dinode_of a') ip]> (icache s);
  gr_frame : frame (touched (sb s) a' off fin) s s';
  gr_room : room T P (sb s) - (nblk fin - Z.of_nat (length (a_blocks a))) `max` 0 - (if decide (a_ind a' = a_ind a) then 0 else 1) ≤ room (<[n := a']> T) P (sb s);
}.

Definition zeros (k : Z) : list byte := replicate (Z.to_nat (BSIZE * k)) NUL.

Lemma inv_weaken ex T P s n : ex = None ∨ ex = Some n → fs_inv ex T P s → fs_inv (Some n) T P s.
Proof.
  intros He [I1 I2 I3 I4 I5 I6 I7 I8 I9]. split; try done. intros m l Hm Hne. apply I4; [done|]. destruct He as [-> | ->]; done.
Qed.

Section write.
Context (T : gmap Z ainode) (P : gset Z) (n : Z).

Lemma get_block ex s a i ip off :
  fs_inv ex T P s → ex = None ∨ ex = Some n → T !! n = Some a → icache s !! i = Some ip → din ip = dinode_of a → held s = ∅ → outstanding s ≠ 0%nat →
  0 ≤ off → off / BSIZE ≤ Z.of_nat (length (a_blocks a)) → off < MAXFILE * BSIZE →
  need a (off + 1) ≤ room T P (sb s) →
  wp (bmap i (off / BSIZE)) (λ b s', ∃ a', grew T P n a i ip s off (off + 1) a' s' ∧ a_blocks a' !! Z.to_nat (off / BSIZE) = Some b ∧
    fbytes s' a' = fbytes s a ++ zeros (Z.of_nat (length (a_blocks a')) - Z.of_nat (length (a_blocks a)))) s.
Proof.
  intros I He Ha Hi Hd Hh Hop Ho Hlen Hmax Hroom. assert (nblk (off + 1) = off / BSIZE + 1) as En by (unfold nblk, BSIZE in *; Z.to_euclidean_division_equations; lia).
  assert (0 ≤ off / BSIZE) as Hq by (apply Z.div_pos; done).
  destruct (decide (off / BSIZE < Z.of_nat (length (a_blocks a)))) as [Hlt|Hge].
  - destruct (lookup_lt_is_Some_2 (a_blocks a) (Z.to_nat (off / BSIZE))) as [b Hb]; [lia|]. eapply wp_intro; [by eapply (bmap_read _ _ _ _ I n a Ha i ip Hi Hd)|].
    exists a. split_and!; [|done|unfold zeros; rewrite Z.sub_diag; by rewrite app_nil_r]. split; try done.
    + lia.
    + rewrite insert_id by done. by eapply inv_weaken.
    + symmetry. apply list_insert_id. rewrite Hi, <- Hd. by destruct ip.
    + apply fs_frame_refl.
    + rewrite insert_id by done. rewrite decide_True by done. lia.
  - assert (off / BSIZE = Z.of_nat (length (a_blocks a))) as Eq by lia. rewrite Eq. eapply wp_mono; [apply (bmap_append ex T P s n a i ip I Hop Hh Ha He Hi Hd)|].
    { unfold MAXFILE, BSIZE in *. Z.to_euclidean_division_equations. lia. } { revert Hroom. unfold need. rewrite decide_False by lia. case_decide; lia. }
    intros b s' (a'&[B1 [B2 B2'] B3 B4 B5 B6 B7 B8 B9]). exists a'. assert (length (a_blocks a') = S (length (a_blocks a))) as El by (rewrite B1, length_app; simpl; lia). split_and!.
    + split; try done.
      * rewrite B1. by apply prefix_app_r.
      * lia.
      * lia.
      * eapply fs_frame_mono; [exact B7|].
        destruct (fi_table _ _ _ _ B4 n a') as [_ Hok']; [by rewrite lookup_insert_eq|]. rewrite (fr_sb _ _ _ B7) in Hok'.
        assert (∀ c, c ∈ own a' → BBLOCK c (sb s) ∈ bitmap_blocks (sb s)) as Hbb.
        { intros c Hc. apply elem_bitmap. apply (bblock_range _ (fi_layout _ _ _ _ I)). apply (ao_range _ _ Hok') in Hc. pose proof (dstart_pos _ (fi_layout _ _ _ _ I)). lia. }
        assert (b ∈ own a') as Hbo by (unfold own; rewrite B1, !elem_of_app; left; right; by left).
        unfold touched. rewrite En, Eq, B1. replace (Z.of_nat (length (a_blocks a)) + 1 - Z.of_nat (length (a_blocks a))) with 1 by lia. rewrite Nat2Z.id, drop_app_length. cbn [Z.to_nat Pos.to_nat Pos.iter_op take list_to_set].
        unfold ind_set. destruct (a_ind a') as [j|] eqn:Ej; [|pose proof (Hbb b Hbo); cbn; set_solver]. assert (j ∈ own a') as Hjo by (unfold own; rewrite Ej, elem_of_app; right; by left).
        pose proof (Hbb b Hbo). pose proof (Hbb j Hjo). cbn. set_solver.
      * rewrite B9. lia.
    + rewrite B1, Nat2Z.id. apply list_lookup_middle. done.
    + unfold fbytes. rewrite B1, fmap_app, concat_app. f_equal.
      * f_equal. apply list_fmap_ext. intros k c Hc. unfold blk. rewrite B8; [done|]. by eapply list_elem_of_lookup_2.
      * cbn. unfold blk. rewrite B5. cbn. rewrite app_nil_r. unfold zeros, zero_block. f_equal. rewrite length_app. cbn [length]. unfold BSIZE. lia.
Qed.

End write.

(** A block of data is written. *)
Lemma write_block ex T P s n a k b l' :
  fs_inv ex T P s → T !! n = Some a → a_blocks a !! k = Some b → length l' = Z.to_nat BSIZE →
  fs_inv ex T P (wrote b l' s) ∧ fbytes (wrote b l' s) a = concat (<[k := l']> (blk s <$> a_blocks a)).
Proof.
  intros I Ha Hb Hl. destruct (fi_table _ _ _ _ I n a Ha) as [_ Hok]. assert (b ∈ own a) as Hbo by (by eapply in_blocks). split.
  - apply inv_write_data; [done|by apply (ao_range _ _ Hok)| |done]. intros m c Hc Hi. assert (b ∈ own c) as Hbc by (unfold own; rewrite Hi, elem_of_app; right; by left).
    assert (n = m) as <- by (by eapply (fi_disjoint _ _ _ _ I n m a c b)). rewrite Ha in Hc. injection Hc as <-.
    pose proof (ao_nodup _ _ Hok) as Hnd. unfold own in Hnd. rewrite Hi in Hnd. apply NoDup_app in Hnd as (_&Hnd&_). apply (Hnd b); [by eapply list_elem_of_lookup_2|by left].
  - unfold fbytes. f_equal. apply list_eq. intros j. rewrite list_lookup_fmap. destruct (decide (j = k)) as [->|Hne].
    + rewrite list_lookup_insert_eq by (rewrite length_fmap; by eapply lookup_lt_Some). rewrite Hb. cbn. unfold blk. cbn [wrote disk]. by rewrite lookup_insert_eq.
    + rewrite list_lookup_insert_ne by done. rewrite list_lookup_fmap. destruct (a_blocks a !! j) as [c|] eqn:Hc; [|done]. cbn. unfold blk. cbn [wrote disk].
      rewrite lookup_insert_ne; [done|]. intros <-. apply Hne. pose proof (ao_nodup _ _ Hok) as Hnd. apply NoDup_app in Hnd as (Hnd&_&_). by eapply NoDup_lookup.
Qed.

Lemma grew_refl ex T P n a i ip s off :
  fs_inv ex T P s → ex = None ∨ ex = Some n → T !! n = Some a → icache s !! i = Some ip → din ip = dinode_of a → nblk off ≤ Z.of_nat (length (a_blocks a)) →
  grew T P n a i ip s off off a s.
Proof.
  intros I He Ha Hi Hd Hn. split; try done.
  - lia.
  - rewrite insert_id by done. by eapply inv_weaken.
  - symmetry. apply list_insert_id. rewrite Hi, <- Hd. by destruct ip.
  - apply fs_frame_refl.
  - rewrite insert_id by done. rewrite decide_True by done. lia.
Qed.

Lemma grew_trans T P n a i ip s off a1 s1 b l' off1 fin a2 s2 :
  grew T P n a i ip s off (off + 1) a1 s1 → icache s !! i = Some ip → a_blocks a1 !! Z.to_nat (off / BSIZE) = Some b → 0 ≤ off → off < off1 ≤ fin →
  grew (<[n := a1]> T) P n a1 i (put_din (dinode_of a1) ip) (wrote b l' s1) off1 fin a2 s2 → grew T P n a i ip s off fin a2 s2.
Proof.
  intros [A1 A2 A3 A4 A0 A5 A6 A7 A8] Hi Hb Ho Hf [B1 B2 B3 B4 B0 B5 B6 B7 B8]. rewrite insert_insert_eq in B5, B8. cbn [wrote sb icache] in *. rewrite (fr_sb _ _ _ A7) in *.
  assert (nblk (off + 1) ≤ nblk fin) as Hn by (unfold nblk, BSIZE; Z.to_euclidean_division_equations; lia).
  assert (off / BSIZE ≤ off1 / BSIZE) as Hq by (apply Z.div_le_mono; [done|lia]). assert (off / BSIZE + 1 ≤ nblk fin) as Hq2 by (unfold nblk, BSIZE; Z.to_euclidean_division_equations; lia).
  assert (is_Some (a_ind a) → a_ind a2 = a_ind a) as Hind by (intros H; rewrite B4 by (by rewrite A4); auto).
  split; try done.
  - destruct A1, B1. split; congruence.
  - by trans (a_blocks a1).
  - rewrite B3, A3. lia.
  - intros Hle. rewrite B0, A0; [done|lia|rewrite A3; lia].
  - rewrite B6, A6, list_insert_insert_eq. done.
  - eapply fs_frame_trans; [eapply fs_frame_mono; [exact A7|by apply touched_mono]|]. eapply fs_frame_trans; [apply (fs_frame_wrote _ b l')|eapply fs_frame_mono; [exact B7|apply touched_mono; (done || auto)]].
    unfold touched. apply elem_of_union_l, elem_of_union_l, elem_of_list_to_set. assert (0 ≤ off / BSIZE) by (apply Z.div_pos; done).
    apply (list_elem_of_lookup_2 _ 0%nat). rewrite lookup_take_lt by lia. rewrite lookup_drop, Nat.add_0_r. by eapply prefix_lookup_Some.
  - assert (a_ind a1 = a_ind a ∨ a_ind a = None) as Hc by (destruct (a_ind a); [left; auto|by right]). assert (a_ind a2 = a_ind a1 ∨ a_ind a1 = None) as Hc' by (destruct (a_ind a1); [left; auto|by right]).
    rewrite A3 in B8. destruct (decide (a_ind a1 = a_ind a)) as [E1|E1], (decide (a_ind a2 = a_ind a1)) as [E2|E2], (decide (a_ind a2 = a_ind a)) as [E3|E3]; try lia; exfalso; destruct Hc, Hc'; congruence.
Qed.

Lemma write_loop_spec P n i fuel : ∀ ex T s a ip src off,
  fs_inv ex T P s → ex = None ∨ ex = Some n → T !! n = Some a → icache s !! i = Some ip → din ip = dinode_of a → held s = ∅ → outstanding s ≠ 0%nat →
  0 ≤ off ≤ BSIZE * Z.of_nat (length (a_blocks a)) → off + Z.of_nat (length src) ≤ MAXFILE * BSIZE → (length src ≤ fuel)%nat →
  need a (off + Z.of_nat (length src)) ≤ room T P (sb s) →
  wp (write_loop fuel i src off) (λ off' s', off' = off + Z.of_nat (length src) ∧ ∃ a', grew T P n a i ip s off off' a' s' ∧
    fbytes s' a' = patch (Z.to_nat off) src (fbytes s a ++ zeros (Z.of_nat (length (a_blocks a')) - Z.of_nat (length (a_blocks a))))) s.
Proof.
  induction fuel as [|fuel IH]; intros ex T s a ip src off I He Ha Hi Hd Hh Hop Ho Hmax Hf Hroom; (destruct src as [|c0 src0] eqn:Esrc;
    [apply wp_ret; split; [simpl; lia|]; exists a; rewrite Z.sub_diag; unfold zeros; cbn; rewrite app_nil_r, patch_nil; split; [|done];
     eapply grew_refl; [done..|unfold nblk, BSIZE in *; Z.to_euclidean_division_equations; lia]|rewrite <- Esrc in * ]).
  { rewrite Esrc in Hf. simpl in Hf. lia. }
  assert (0 < length src)%nat as Hpos by (rewrite Esrc; simpl; lia).
  assert (write_loop (S fuel) i src off = (b ← bmap i (off / BSIZE); data ← bread b;
    let m := Z.min (Z.of_nat (length src)) (BSIZE - off mod BSIZE) in
    log_write b (patch (Z.to_nat (off mod BSIZE)) (take (Z.to_nat m) src) data);; brelse b;; write_loop fuel i (drop (Z.to_nat m) src) (off + m))) as -> by (by rewrite Esrc).
  clear Esrc c0 src0. set (m := Z.min (Z.of_nat (length src)) (BSIZE - off mod BSIZE)). set (k := Z.to_nat (off / BSIZE)). set (o := Z.to_nat (off mod BSIZE)).
  assert (0 < m ∧ m ≤ Z.of_nat (length src) ∧ Z.of_nat o + m ≤ BSIZE ∧ off = BSIZE * Z.of_nat k + Z.of_nat o ∧ off / BSIZE = Z.of_nat k) as (Hm0&Hms&Hmo&Eoff&Ek).
  { unfold m, k, o, BSIZE in *. Z.to_euclidean_division_equations. lia. }
  assert (nblk (off + 1) = Z.of_nat k + 1 ∧ nblk (off + 1) ≤ nblk (off + Z.of_nat (length src)) ∧ (k ≤ length (a_blocks a))%nat) as (Hn1&Hn2&Hk).
  { unfold nblk, BSIZE in *. Z.to_euclidean_division_equations. lia. }
  apply wp_bind. eapply wp_mono; [eapply (get_block T P n ex s a i ip off); try done; [lia|lia|lia|etrans; [by apply need_mono|done]]|]. rewrite Ek, Nat2Z.id.
  intros b s1 (a1&G1&Hb&Hby1). cbn beta. destruct (fi_table _ _ _ _ (gr_inv _ _ _ _ _ _ _ _ _ _ _ G1) n a1) as [_ Hok1]; [by rewrite lookup_insert_eq|].
  pose proof (gr_frame _ _ _ _ _ _ _ _ _ _ _ G1) as F1. assert (held s1 = ∅) as Hh1 by (by rewrite (fr_held _ _ _ F1)). assert (outstanding s1 ≠ 0%nat) as Hop1 by (by rewrite (fr_op _ _ _ F1)).
  destruct (own_block _ _ _ _ (gr_inv _ _ _ _ _ _ _ _ _ _ _ G1) n a1 ltac:(by rewrite lookup_insert_eq) b) as (l&Hl&Hll); [by eapply in_blocks|].
  apply wp_bind. eapply wp_intro; [apply bread_run; [by rewrite Hh1|exact Hl]|]. cbv zeta beta. unfold wp. rewrite update_run by (done || by rewrite Hh1).
  assert (length (take (Z.to_nat m) src) = Z.to_nat m) as Htk by (rewrite length_take; lia).
  destruct (write_block _ _ P s1 n a1 k b (patch o (take (Z.to_nat m) src) l) (gr_inv _ _ _ _ _ _ _ _ _ _ _ G1)) as [I2 Hby2]; [by rewrite lookup_insert_eq|done|rewrite length_patch; [done|rewrite Htk, Hll; unfold BSIZE in *; lia]|].
  set (s2 := wrote b _ s1) in *. set (ip1 := put_din (dinode_of a1) ip). pose proof (gr_len _ _ _ _ _ _ _ _ _ _ _ G1) as Hlen1.
  assert (fbytes s2 a1 = patch (Z.to_nat off) (take (Z.to_nat m) src) (fbytes s1 a1)) as Hby.
  { rewrite Hby2. unfold fbytes. replace l with (blk s1 b) by (unfold blk; by rewrite Hl). erewrite patch_block; [|eapply blk_length; [exact (gr_inv _ _ _ _ _ _ _ _ _ _ _ G1)|by rewrite lookup_insert_eq]|rewrite list_lookup_fmap, Hb; done|rewrite Htk; unfold BSIZE in *; lia].
    f_equal. unfold BSIZE in *. lia. }
  eapply wp_mono; [eapply (IH (Some n) (<[n := a1]> T) s2 a1 ip1 (drop (Z.to_nat m) src) (off + m)); try done|].
  - by right.
  - by rewrite lookup_insert_eq.
  - cbn [s2 wrote icache]. rewrite (gr_cache _ _ _ _ _ _ _ _ _ _ _ G1). apply list_lookup_insert_eq. by eapply lookup_lt_Some.
  - unfold BSIZE in *. lia.
  - rewrite length_drop. lia.
  - rewrite length_drop. lia.
  - rewrite length_drop. replace (off + m + Z.of_nat (length src - Z.to_nat m)) with (off + Z.of_nat (length src)) by lia. cbn [s2 wrote sb]. rewrite (fr_sb _ _ _ F1).
    apply (need_next a a1 (off + 1) _ (room T P (sb s))); [lia|by rewrite Hlen1|apply G1|intros Hle; by rewrite (gr_id _ _ _ _ _ _ _ _ _ _ _ G1 Hle)|apply G1|done].
  - intros off' s' (->&a'&G2&Hby'). rewrite length_drop in *. replace (off + m + Z.of_nat (length src - Z.to_nat m)) with (off + Z.of_nat (length src)) in * by lia. split; [done|]. exists a'.
    assert (grew T P n a i ip s off (off + Z.of_nat (length src)) a' s') as G3 by (eapply grew_trans; [exact G1|done|by rewrite Ek, Nat2Z.id|lia| |exact G2]; lia).
    split; [done|]. pose proof (gr_len _ _ _ _ _ _ _ _ _ _ _ G3) as Hlen3. rewrite Hby', Hby, Hby1. set (z1 := zeros (Z.of_nat (length (a_blocks a1)) - _)). set (z2 := zeros (_ - Z.of_nat (length (a_blocks a1)))).
    assert (length (fbytes s a ++ z1) = (Z.to_nat BSIZE * length (a_blocks a1))%nat) as HL1.
    { rewrite length_app, (length_fbytes _ _ _ _ I n a Ha). unfold z1, zeros. rewrite length_replicate. unfold BSIZE. lia. }
    rewrite <- patch_app_l by (rewrite Htk, HL1; unfold BSIZE in *; lia).
    replace (zeros (Z.of_nat (length (a_blocks a')) - Z.of_nat (length (a_blocks a)))) with (z1 ++ z2) by (unfold z1, z2, zeros; rewrite <- replicate_add; f_equal; unfold BSIZE; lia).
    replace (Z.to_nat (off + m)) with (Z.to_nat off + length (take (Z.to_nat m) src))%nat by lia. rewrite app_assoc. rewrite patch_patch, take_drop; [done|].
    rewrite length_app, HL1, length_take, length_drop. unfold z2, zeros. rewrite length_replicate. unfold nblk, BSIZE in *. Z.to_euclidean_division_equations. lia.
Qed.
