(* ===== verification/XvFsIo.v ===== *)
(** Files of xv6 as sequences of bytes: what [readi], [writei] and [itrunc] do to
    the file of an inode, and that they leave every other file alone. *)

From stdpp Require Import base option list numbers gmap sets.
From coqutil Require Import Datatypes.RecordSettersUsingExistingGetters.
From Stdlib Require Import Strings.Byte ZArith Lia.
From S2P Require Import Prelude CString XvFs XvFsInv XvFsInode.
Local Open Scope Z_scope.

(** * Files *)

Record afile := mk_afile { f_type : Z; f_major : Z; f_minor : Z; f_nlink : Z; f_data : list byte }.

Definition content (s : fss) (a : ainode) : list byte := take (Z.to_nat (a_size a)) (fbytes s a).
Definition file_of (s : fss) (a : ainode) : afile := mk_afile (a_type a) (a_major a) (a_minor a) (a_nlink a) (content s a).
Definition files (T : gmap Z ainode) (s : fss) : gmap Z afile := file_of s <$> T.

Lemma fbytes_ext s s' a : (∀ b, b ∈ a_blocks a → disk s' !! b = disk s !! b) → fbytes s' a = fbytes s a.
Proof.
  intros H. unfold fbytes. f_equal. apply list_eq. intros k. rewrite !list_lookup_fmap. destruct (a_blocks a !! k) as [b|] eqn:Hb; [|done]. cbn. unfold blk.
  by rewrite H by (by eapply list_elem_of_lookup_2).
Qed.

Lemma file_of_ext s s' a : (∀ b, b ∈ a_blocks a → disk s' !! b = disk s !! b) → file_of s' a = file_of s a.
Proof. intros H. unfold file_of, content. by rewrite (fbytes_ext s s'). Qed.

(** A write of blocks that no file has. *)
Lemma files_ext T s s' : (∀ n a b, T !! n = Some a → b ∈ own a → disk s' !! b = disk s !! b) → files T s' = files T s.
Proof.
  intros H. apply map_eq. intros n. unfold files. rewrite !lookup_fmap. destruct (T !! n) as [a|] eqn:Ha; [|done]. cbn. f_equal. apply file_of_ext.
  intros b Hb. apply (H n a); [done|]. unfold own. rewrite elem_of_app. by left.
Qed.

(** A change of one inode and of its blocks only. *)
Lemma files_insert ex T P s s' n a' W :
  fs_inv ex (<[n := a']> T) P s' → frame W s s' → (∀ b, b ∈ W → b ∈ own a' ∨ b < dstart (sb s) ∨ b ∈ P) →
  files (<[n := a']> T) s' = <[n := file_of s' a']> (files T s).
Proof.
  intros I F HW. unfold files. rewrite fmap_insert. apply map_eq. intros m. destruct (decide (n = m)) as [<-|Hne]; [by rewrite !lookup_insert_eq|].
  rewrite !lookup_insert_ne by done. rewrite !lookup_fmap. destruct (T !! m) as [c|] eqn:Hc; [|done]. cbn. f_equal. apply file_of_ext. intros b Hb. apply (fr_disk _ _ _ F). intros Hw.
  assert ((<[n := a']> T) !! m = Some c) as Hc' by (by rewrite lookup_insert_ne). assert (b ∈ own c) as Hbc by (unfold own; rewrite elem_of_app; by left).
  destruct (fi_table _ _ _ _ I m c Hc') as [_ Hok]. pose proof (ao_range _ _ Hok b Hbc) as Hr. rewrite (fr_sb _ _ _ F) in Hr. destruct (HW b Hw) as [Ho|[Ho|Ho]]; [|lia|].
  - apply Hne. eapply (fi_disjoint _ _ _ _ I n m a' c b); [by rewrite lookup_insert_eq|done..].
  - by apply (own_not_pending _ _ _ _ I m c b Hc' Hbc).
Qed.

(** * Parts of a range that was written *)

Lemma take_patch {A} off (b l : list A) k : (off + length b ≤ k ≤ length l)%nat → take k (patch off b l) = patch off b (take k l).
Proof.
  intros Hk. rewrite <- (take_drop k l) at 1. rewrite patch_app_l by (rewrite length_take; lia). apply take_app_length'. rewrite length_patch; rewrite length_take; lia.
Qed.

Lemma take_patch_end {A} off (b l q : list A) k :
  (off ≤ k ≤ off + length b)%nat → (k ≤ length l)%nat → take (off + length b) (patch off b (l ++ q)) = patch off b (take k l).
Proof.
  intros Hk Hl. unfold patch. rewrite (drop_ge (take k l)) by (rewrite length_take; lia). rewrite app_nil_r, app_assoc, take_app_length' by (rewrite length_app, length_take, length_app; lia).
  rewrite take_app_le, take_take by lia. do 2 f_equal. lia.
Qed.

(** * Writing an inode back *)

Lemma iupdate_run ex T P s n i ip :
  fs_inv ex T P s → ex = None ∨ ex = Some n → 1 ≤ n < ninodes (sb s) → icache s !! i = Some ip → inum ip = n → dinode_ok (din ip) →
  match T !! n with Some a => din ip = dinode_of a | None => d_type (din ip) = 0 end → outstanding s ≠ 0%nat →
  ∃ l, iupdate i s = Some ((), wrote (IBLOCK n (sb s)) l s) ∧ fs_inv None T P (wrote (IBLOCK n (sb s)) l s).
Proof.
  intros I He Hn Hi <- Hok Hm Hop. pose proof (fi_layout _ _ _ _ I) as L. pose proof (iblock_range _ L (inum ip) ltac:(lia)) as Hr. pose proof (dstart_pos _ L). pose proof (ly_data _ L). pose proof (ly_start _ L).
  destruct (fi_disk _ _ _ _ I (IBLOCK (inum ip) (sb s))) as (l&Hl&_); [lia|].
  assert (IBLOCK (inum ip) (sb s) ∉ held s) as Hh by (eapply meta_not_held; [exact I|lia]).
  exists (set_dinode (Z.to_nat (inum ip mod IPB)) (din ip) l). split; [|by eapply inv_write_inode].
  unfold iupdate. rewrite (bind_run _ _ s (sb s) s) by done. erewrite bind_run by (by apply read_inode_run). erewrite bind_run by (by apply bread_run).
  erewrite bind_run by (by apply log_write_run). by apply brelse_run.
Qed.

Lemma files_iblock ex T P s n l : fs_inv ex T P s → 1 ≤ n < ninodes (sb s) → files T (wrote (IBLOCK n (sb s)) l s) = files T s.
Proof.
  intros I Hn. apply files_ext. intros m a b Ha Hb. cbn [wrote disk]. apply lookup_insert_ne. intros E. destruct (fi_table _ _ _ _ I m a Ha) as [_ Hok].
  pose proof (ao_range _ _ Hok b Hb). pose proof (iblock_range _ (fi_layout _ _ _ _ I) n ltac:(lia)). pose proof (dstart_pos _ (fi_layout _ _ _ _ I)). lia.
Qed.

(** The copy on disk was not touched. *)
Lemma inv_restore T P n s s' W : fs_inv None T P s → fs_inv (Some n) T P s' → frame W s s' → (1 ≤ n < ninodes (sb s) → IBLOCK n (sb s) ∉ W) → fs_inv None T P s'.
Proof.
  intros I [J1 J2 J3 J4 J5 J6 J7 J8 J9] F HW. split; try done. intros m l Hm _ Hl. destruct (decide (m = n)) as [->|Hne]; [|apply J4; [done|congruence|done]].
  rewrite (fr_sb _ _ _ F) in *. apply (fi_inodes _ _ _ _ I); [done|done|]. by rewrite <- (fr_disk _ _ _ F) by auto.
Qed.

Section io.
Context (ex : option Z) (T : gmap Z ainode) (P : gset Z) (s : fss) (n : Z) (a : ainode) (Ha : T !! n = Some a).
Context (i : nat) (ip : inode) (Hi : icache s !! i = Some ip) (Hin : inum ip = n) (Hd : din ip = dinode_of a) (Hh : held s = ∅) (Ht : a_type a ≠ T_DEV).

Lemma size_bound : fs_inv ex T P s → 0 ≤ a_size a ≤ MAXFILE * BSIZE ∧ Z.of_nat (length (content s a)) = a_size a.
Proof.
  intros I. destruct (fi_table _ _ _ _ I n a Ha) as [_ Hok]. pose proof (ao_size _ _ Hok). pose proof (ao_len _ _ Hok). split; [unfold BSIZE, MAXFILE in *; lia|].
  unfold content. rewrite length_take, (length_fbytes _ _ _ _ I n a Ha). unfold BSIZE, MAXFILE in *. lia.
Qed.

(** [readi] gives the bytes of the file in the range, as many as there are. *)
Lemma readi_run dev_read off m :
  fs_inv ex T P s → 0 ≤ off < 2 ^ 32 → 0 ≤ m < 2 ^ 32 →
  readi dev_read i off m s =
    Some (if decide (off ≤ Z.of_nat (length (content s a)) ∧ off + m < 2 ^ 32) then Some (take (Z.to_nat m) (drop (Z.to_nat off) (content s a))) else None, s).
Proof.
  intros I Ho Hm. destruct (size_bound I) as [Hs ->]. destruct (fi_table _ _ _ _ I n a Ha) as [_ Hok]. pose proof (ao_size _ _ Hok) as Hsz.
  unfold readi. erewrite bind_run by (by apply read_inode_run). rewrite Hd. cbv zeta. cbn [dinode_of d_type d_size]. rewrite (decide_False (P := a_type a = T_DEV)) by done.
  assert (a_size a < off ∨ u32 (off + m) < off ↔ ¬ (off ≤ a_size a ∧ off + m < 2 ^ 32)) as Hc.
  { unfold u32, to_unsigned, MAXFILE, BSIZE in *. change (2 ^ 32) with 4294967296 in *. Z.to_euclidean_division_equations. lia. }
  destruct (decide (off ≤ a_size a ∧ off + m < 2 ^ 32)) as [D|D]; [rewrite decide_False by tauto|by rewrite decide_True by tauto].
  assert (u32 (off + m) = off + m) as -> by (apply u32_id; lia).
  set (k := if decide (a_size a < off + m) then a_size a - off else m). assert (k = Z.min m (a_size a - off)) as Ek by (unfold k; case_decide; lia).
  erewrite bind_run by (eapply (read_loop_spec _ _ _ _ I Hh n a Ha i ip _ Hi Hd); lia). unfold mret, ST_ret. do 3 f_equal.
  unfold content. rewrite skipn_firstn_comm, take_take. f_equal. lia.
Qed.

Lemma writei_fail dev_write src off :
  fs_inv ex T P s → 0 ≤ off < 2 ^ 32 → Z.of_nat (length src) < 2 ^ 32 → a_size a < off ∨ MAXFILE * BSIZE < off + Z.of_nat (length src) →
  writei dev_write i src off s = Some (-1, s).
Proof.
  intros I Ho Hl Hbad. destruct (size_bound I) as [Hs _]. unfold writei. erewrite bind_run by (by apply read_inode_run). rewrite Hd. cbv zeta. cbn [dinode_of d_type d_size].
  rewrite (decide_False (P := a_type a = T_DEV)) by done. case_decide as C1; [done|]. rewrite decide_True; [done|].
  unfold u32, to_unsigned, MAXFILE, BSIZE in *. change (2 ^ 32) with 4294967296 in *. Z.to_euclidean_division_equations. lia.
Qed.

(** What a write of [src] at [off] leaves. *)
Record stored (src : list byte) (off : Z) (a' : ainode) (s' : fss) : Prop := {
  st_inv : fs_inv None (<[n := a']> T) P s';
  st_files : files (<[n := a']> T) s' = <[n := mk_afile (a_type a) (a_major a) (a_minor a) (a_nlink a) (patch (Z.to_nat off) src (content s a))]> (files T s);
  st_cache : icache s' = <[i := put_din (dinode_of a') ip]> (icache s);
  st_frame : frame ({[IBLOCK n (sb s)]} ∪ touched (sb s) a' off (off + Z.of_nat (length src))) s s';
  st_room : room T P (sb s) - (nblk (off + Z.of_nat (length src)) - Z.of_nat (length (a_blocks a))) `max` 0 - (if decide (a_ind a' = a_ind a) then 0 else 1)
            ≤ room (<[n := a']> T) P (sb s);
  st_len : Z.of_nat (length (a_blocks a')) = Z.max (Z.of_nat (length (a_blocks a))) (nblk (off + Z.of_nat (length src)));
  st_meta : a_empty a' = a_empty a;
  st_ind : is_Some (a_ind a) → a_ind a' = a_ind a;
  st_id : nblk (off + Z.of_nat (length src)) ≤ Z.of_nat (length (a_blocks a)) → a_blocks a' = a_blocks a ∧ a_ind a' = a_ind a;
}.

Lemma stored_files src off a' s' s1 W :
  fs_inv None (<[n := a']> T) P s' → frame W s s' → (∀ b, b ∈ W → b ∈ own a' ∨ b < dstart (sb s)) → a_empty a' = a_empty a → content s1 a' = patch (Z.to_nat off) src (content s a) →
  fbytes s' a' = fbytes s1 a' →
  files (<[n := a']> T) s' = <[n := mk_afile (a_type a) (a_major a) (a_minor a) (a_nlink a) (patch (Z.to_nat off) src (content s a))]> (files T s).
Proof.
  intros I F HW Hm <- Eb. erewrite files_insert; [|exact I|exact F|intros b Hb; destruct (HW b Hb); auto]. f_equal. injection Hm as E1 E2 E3 E4. unfold file_of, content. congruence.
Qed.

Lemma touched_own x c o f b : layout x → b ∈ touched x c o f → b ∈ own c ∨ bmapstart x ≤ b < dstart x.
Proof.
  intros L. unfold touched, own. rewrite !elem_of_union, elem_bitmap, elem_of_app, !elem_of_list_to_set. intros [[Hb|Hb]|Hb]; [|auto..].
  left. left. rewrite list_elem_of_lookup in *. destruct Hb as [k Hb]. apply lookup_take_Some in Hb as [Hb _]. rewrite lookup_drop in Hb. eauto.
Qed.

Context (I : fs_inv None T P s) (Hop : outstanding s ≠ 0%nat).
Abbreviation fin off src := (off + Z.of_nat (length src)).

(** The write did not go beyond the end of the file. *)
Lemma stored_within src off s1 a1 :
  0 ≤ off → off ≤ a_size a → src = [] ∨ fin off src ≤ a_size a → grew T P n a i ip s off (fin off src) a1 s1 →
  fbytes s1 a1 = patch (Z.to_nat off) src (fbytes s a ++ zeros (Z.of_nat (length (a_blocks a1)) - Z.of_nat (length (a_blocks a)))) → stored src off a1 s1.
Proof.
  intros Ho Hos Hle [G1 G2 G3 G4 G0 G5 G6 G7 G8] Hb. destruct (fi_table _ _ _ _ I n a Ha) as [Hn Hok]. pose proof (ao_size _ _ Hok) as Hsz. pose proof (fi_layout _ _ _ _ I) as L.
  assert (nblk (fin off src) ≤ Z.of_nat (length (a_blocks a))) as Hnb by (destruct Hle as [-> | ?]; cbn [length] in *; unfold nblk, BSIZE in *; Z.to_euclidean_division_equations; lia).
  pose proof (G0 Hnb) as ->. rewrite Z.sub_diag in Hb. unfold zeros in Hb. cbn in Hb. rewrite app_nil_r in Hb.
  assert (fs_inv None (<[n := a]> T) P s1) as I1.
  { rewrite insert_id in * by done. eapply (inv_restore _ _ n); [exact I|done|exact G7|]. intros _ Hw. pose proof (iblock_range _ L n ltac:(lia)).
    pose proof (dstart_pos _ L). apply (touched_own _ _ _ _ _ L) in Hw as [Hw|Hw]; [apply (ao_range _ _ Hok) in Hw; lia|lia]. }
  split; try done.
  - eapply stored_files; [done|exact G7| |done| |done]; [intros b Hw; apply (touched_own _ _ _ _ _ L) in Hw as [Hw|Hw]; [by left|right; lia]|].
    pose proof (length_fbytes _ _ _ _ I n a Ha) as Hlf. unfold content. rewrite Hb. destruct Hle as [-> | Hle]; [by rewrite !patch_nil|]. apply take_patch. unfold BSIZE in *. lia.
  - eapply fs_frame_mono; [exact G7|]. set_solver.
Qed.

(** The write made the file longer. *)
Lemma stored_beyond src off s1 a1 :
  0 ≤ off → off ≤ a_size a → src ≠ [] → a_size a < fin off src → fin off src ≤ MAXFILE * BSIZE → grew T P n a i ip s off (fin off src) a1 s1 →
  fbytes s1 a1 = patch (Z.to_nat off) src (fbytes s a ++ zeros (Z.of_nat (length (a_blocks a1)) - Z.of_nat (length (a_blocks a)))) →
  wp (upd_din i (λ d, { d with d_size := fin off src });; iupdate i) (λ _ s', ∃ a', stored src off a' s') s1.
Proof.
  intros Ho Hos Hne Hlt Hmax [[G1 G1'] G2 G3 G4 G0 G5 G6 G7 G8] Hb. destruct (fi_table _ _ _ _ I n a Ha) as [Hn Hok]. pose proof (ao_size _ _ Hok) as Hsz. pose proof (fi_layout _ _ _ _ I) as L.
  pose proof (fr_sb _ _ _ G7) as Es. destruct (fi_table _ _ _ _ G5 n a1) as [_ Hok1]; [by rewrite lookup_insert_eq|].
  set (a' := mk_ainode (a_type a1) (a_major a1) (a_minor a1) (a_nlink a1) (fin off src) (a_blocks a1) (a_ind a1)).
  assert (ainode_ok (sb s1) a') as Hok'. { destruct Hok1 as [A1 A2 A3 A4 A5 A6 A7 A8 A9]. split; try done. cbn [a' a_size a_blocks]. rewrite G3. unfold nblk, BSIZE in *. Z.to_euclidean_division_equations. lia. }
  assert (icache s1 !! i = Some (put_din (dinode_of a1) ip)) as Hi1 by (rewrite G6; apply list_lookup_insert_eq; by eapply lookup_lt_Some).
  pose proof (inv_meta _ _ _ _ G5 n a1 a' ltac:(by rewrite lookup_insert_eq) ltac:(by right) Hok' eq_refl eq_refl) as I2. rewrite insert_insert_eq in I2.
  apply wp_bind. eapply wp_intro; [by apply upd_din_run|]. cbn beta. rewrite G6, list_insert_insert_eq. set (ip' := put_din _ (put_din (dinode_of a1) ip)).
  assert (ip' = put_din (dinode_of a') ip) as Eip by done. set (s2 := set_cache _ s1). assert (fs_inv (Some n) (<[n := a']> T) P s2) as I3 by (by apply inv_cache).
  destruct (iupdate_run _ _ _ s2 n i ip' I3) as (l&Hr&I4); [by right|cbn [s2 set_cache sb]; by rewrite Es|cbn [s2 set_cache icache]; apply list_lookup_insert_eq; by eapply lookup_lt_Some|done|by apply (dinode_of_ok (sb s1) a'); [apply (fi_layout _ _ _ _ I3)|]|
    by rewrite lookup_insert_eq, Eip|cbn [s2 set_cache outstanding]; by rewrite (fr_op _ _ _ G7)|].
  eapply wp_intro; [exact Hr|]. exists a'. cbn [s2 set_cache sb] in *. rewrite Es in *. set (W := {[IBLOCK n (sb s)]} ∪ touched (sb s) a' off (fin off src)).
  assert (frame W s (wrote (IBLOCK n (sb s)) l s2)) as F2.
  { apply (fs_frame_trans _ _ s2); [apply frame_cache; eapply fs_frame_mono; [exact G7|apply union_subseteq_r]|apply fs_frame_wrote, elem_of_union_l; by apply elem_of_singleton]. }
  split; try done; cycle 1.
  - unfold room. replace (owned (<[n:=a']> T)) with (owned (<[n:=a1]> T)); [exact G8|]. apply set_eq. intros b. rewrite !elem_of_owned. setoid_rewrite lookup_insert_Some. split; intros (m&c&[[<- <-]|?]&?); eauto 8.
  - intros Hle. cbn [a' a_blocks a_ind]. by rewrite (G0 Hle).
  - pose proof (iblock_range _ L n ltac:(lia)) as Hib. pose proof (dstart_pos _ L). eapply (stored_files _ _ _ _ s1); [done|exact F2| |exact G1| |].
    + intros b. unfold W. rewrite elem_of_union, elem_of_singleton. intros [->|Hw]; [right; lia|]. apply (touched_own _ _ _ _ _ L) in Hw as [Hw|Hw]; [by left|right; lia].
    + pose proof (length_fbytes _ _ _ _ I n a Ha) as Hlf. unfold content. cbn [a' a_size]. change (fbytes s1 a') with (fbytes s1 a1). rewrite Hb.
      replace (Z.to_nat (fin off src)) with (Z.to_nat off + length src)%nat by lia. apply take_patch_end; unfold BSIZE in *; lia.
    + apply fbytes_ext. intros b Hbb. cbn [wrote disk s2 set_cache]. apply lookup_insert_ne. intros E. assert (b ∈ own a') as Hbo by (unfold own; rewrite elem_of_app; by left).
      apply (ao_range _ _ Hok') in Hbo. lia.
Qed.

(** [writei] replaces the bytes of the range, makes the file longer if it has to,
    and leaves the other files as they were. *)
Lemma writei_spec dev_write src off :
  0 ≤ off ≤ a_size a → fin off src ≤ MAXFILE * BSIZE →
  need a (fin off src) ≤ room T P (sb s) →
  wp (writei dev_write i src off) (λ r s', r = Z.of_nat (length src) ∧ ∃ a', stored src off a' s') s.
Proof.
  intros Ho Hmax Hroom. destruct (fi_table _ _ _ _ I n a Ha) as [_ Hok]. pose proof (ao_size _ _ Hok) as Hsz. pose proof (ao_len _ _ Hok) as Hlen.
  unfold writei. apply wp_bind. eapply wp_intro; [by apply read_inode_run|]. cbn beta. rewrite Hd. cbv zeta. cbn [dinode_of d_type d_size]. rewrite (decide_False (P := a_type a = T_DEV)) by done.
  rewrite u32_id by (unfold MAXFILE, BSIZE in *; lia). rewrite decide_False by lia. rewrite decide_False by lia.
  apply wp_bind. eapply wp_mono; [apply (write_loop_spec P n i (length src) None T s a ip src off I); (done || auto || lia)|].
  intros off' s1 (->&a1&G&Hb). cbn beta. assert (icache s1 !! i = Some (put_din (dinode_of a1) ip)) as Hi1 by (rewrite (gr_cache _ _ _ _ _ _ _ _ _ _ _ G); apply list_lookup_insert_eq; by eapply lookup_lt_Some).
  apply wp_bind. eapply wp_intro; [by apply read_inode_run|]. cbn [put_din din dinode_of d_size]. destruct (gr_meta _ _ _ _ _ _ _ _ _ _ _ G) as [_ ->]. apply wp_bind. destruct (decide (0 < _ ∧ _)) as [C|C].
  - eapply wp_mono; [eapply stored_beyond; try done; [lia|lia|intros Esrc; rewrite Esrc in C; cbn [length] in C; lia|lia]|]. intros [] s' Hs'. apply wp_ret. done.
  - apply wp_ret, wp_ret. split; [done|]. exists a1. eapply stored_within; try done; [lia|lia|]. destruct src; [by left|right; cbn [length] in *; lia].
Qed.

End io.

(** [itrunc]: a file loses its content, and every block it had is free again. *)

Section trunc.
Context (T : gmap Z ainode) (P : gset Z) (n : Z) (a : ainode) (x : superblock) (Hok : ainode_ok x a) (HP : ∀ b, b ∈ own a → b ∉ P) (i : nat) (ip : inode) (Hin : inum ip = n).
Abbreviation T1 := (<[n := a_empty a]> T).

(** The blocks from position [k] on. *)
Definition rest (k : nat) : list Z := drop k (a_blocks a) ++ option_list (a_ind a).
Abbreviation pending k := (P ∪ list_to_set (rest k)).

Lemma rest_next k b : a_blocks a !! k = Some b → rest k = b :: rest (S k).
Proof. intros Hb. unfold rest. by rewrite (drop_S _ _ _ Hb). Qed.

Lemma rest_end k : a_blocks a !! k = None → rest k = rest (S k).
Proof. intros Hb. unfold rest. apply lookup_ge_None in Hb. by rewrite !drop_ge by lia. Qed.

Lemma NoDup_rest k : NoDup (rest k).
Proof.
  pose proof (ao_nodup _ _ Hok) as Hnd. unfold own in Hnd. rewrite <- (take_drop k (a_blocks a)), <- app_assoc in Hnd. by apply NoDup_app in Hnd as (_&_&?).
Qed.

Lemma pending_next k b : a_blocks a !! k = Some b → pending k ∖ {[b]} = pending (S k).
Proof.
  intros Hb. assert (b ∉ P) as HbP by (apply HP; unfold own; rewrite elem_of_app; left; by eapply list_elem_of_lookup_2). pose proof (NoDup_rest k) as Hnd. rewrite (rest_next k b Hb) in *. apply NoDup_cons in Hnd as [Hnd _]. cbn [list_to_set]. apply set_eq. intros c.
  rewrite elem_of_difference, !elem_of_union, elem_of_singleton, elem_of_list_to_set. destruct (decide (c = b)) as [->|]; tauto.
Qed.

(** The copy of the inode after [k] direct blocks. *)
Definition din_at (k : nat) : dinode := mk_dinode (a_type a) (a_major a) (a_minor a) (a_nlink a) (a_size a) (replicate k 0 ++ drop k (addrs_of a)).

Lemma din_at_addr k : (k < S NDIRECT)%nat → addr k (din_at k) = addr k (dinode_of a).
Proof.
  intros Hk. unfold addr, din_at, dinode_of. cbn [d_addrs]. rewrite !list_lookup_total_alt. rewrite lookup_app_r by (rewrite length_replicate; lia).
  rewrite length_replicate, Nat.sub_diag, lookup_drop. by rewrite Nat.add_0_r.
Qed.

Lemma zero_next k (l : list Z) : (k < length l)%nat → <[k := 0]> (replicate k 0 ++ drop k l) = replicate (S k) 0 ++ drop (S k) l.
Proof.
  intros Hk. destruct (lookup_lt_is_Some_2 l k Hk) as [b Hb]. rewrite (drop_S _ _ _ Hb), insert_app_r_alt by (rewrite length_replicate; lia).
  by rewrite length_replicate, Nat.sub_diag, replicate_S_end, <- app_assoc.
Qed.

Lemma din_at_next k : (k < S NDIRECT)%nat → set_addr k 0 (din_at k) = din_at (S k).
Proof. intros Hk. unfold din_at. rewrite <- zero_next by (rewrite length_addrs; done). done. Qed.

Lemma din_at_skip k : (k < S NDIRECT)%nat → addr k (dinode_of a) = 0 → din_at k = din_at (S k).
Proof.
  intros Hk H0. unfold din_at. rewrite <- zero_next by (by rewrite length_addrs). rewrite list_insert_id; [done|].
  rewrite lookup_app_r, length_replicate, Nat.sub_diag, lookup_drop, Nat.add_0_r by (rewrite length_replicate; lia).
  destruct (lookup_lt_is_Some_2 (addrs_of a) k) as [b Hb]; [by rewrite length_addrs|]. unfold addr in H0. cbn [dinode_of d_addrs] in H0. rewrite (list_lookup_total_correct _ _ _ Hb) in H0. congruence.
Qed.

Lemma free_direct_spec m : ∀ k s, (k + m = NDIRECT)%nat → sb s = x → fs_inv (Some n) T1 (pending k) s → icache s !! i = Some (put_din (din_at k) ip) → held s = ∅ → outstanding s ≠ 0%nat →
  wp (free_direct m k i) (λ _ s', fs_inv (Some n) T1 (pending NDIRECT) s' ∧ frame (bitmap_blocks x) s s' ∧ icache s' = <[i := put_din (din_at NDIRECT) ip]> (icache s)) s.
Proof.
  induction m as [|m IH]; intros k s Hk Es I Hi Hh Hop.
  { assert (k = NDIRECT) as -> by lia. apply wp_ret. split_and!; [done|apply fs_frame_refl|by rewrite list_insert_id]. }
  cbn [free_direct]. apply wp_bind. eapply wp_intro; [by apply read_inode_run|]. cbn [put_din din]. rewrite din_at_addr by lia. rewrite addr_of by lia.
  destruct (a_blocks a !! k) as [b|] eqn:Hb; cbn [default from_option].
  - assert (b ∈ own a) as Hbo by (unfold own; rewrite elem_of_app; left; by eapply list_elem_of_lookup_2). pose proof (ao_range _ _ Hok b Hbo) as Hr. pose proof (fi_layout _ _ _ _ I) as L. rewrite Es in L.
    pose proof (dstart_pos _ L). rewrite (decide_False (P := b = 0)) by lia.
    apply wp_bind, wp_bind. eapply wp_mono; [apply (bfree_spec _ _ _ _ I Hop b); [rewrite (rest_next k b Hb); set_solver|set_solver]|]. intros [] s1 (I1&F1&E1). cbn beta.
    eapply wp_intro; [apply (upd_din_run i _ s1 (put_din (din_at k) ip)); by rewrite E1|]. cbn beta. cbn [put_din din]. rewrite din_at_next by lia. rewrite (pending_next k b Hb) in I1.
    set (s2 := set_cache _ s1). eapply wp_mono; [apply (IH (S k) s2)|]; cbn [s2 set_cache sb held outstanding icache]; try done.
    + lia.
    + by rewrite (fr_sb _ _ _ F1).
    + by apply inv_cache.
    + rewrite E1. apply list_lookup_insert_eq. by eapply lookup_lt_Some.
    + by rewrite (fr_held _ _ _ F1).
    + by rewrite (fr_op _ _ _ F1).
    + intros [] s' (I'&F'&E'). split_and!; [done| |cbn [s2 set_cache icache] in E'; by rewrite E', E1, list_insert_insert_eq].
      apply (fs_frame_trans _ _ s2); [|done]. apply frame_cache. eapply fs_frame_mono; [exact F1|]. rewrite Es. intros c ->%elem_of_singleton. apply elem_bitmap, bblock_range; [done|lia].
  - rewrite decide_True by done. apply wp_bind, wp_ret. cbn beta. apply IH; try done; [lia|by rewrite <- rest_end|]. rewrite <- din_at_skip; [done|lia|]. rewrite addr_of by lia. by rewrite Hb.
Qed.

Lemma free_indirect_spec j data m : a_ind a = Some j → (∀ k, (k < NINDIRECT)%nat → word k data = default 0 (a_blocks a !! (NDIRECT + k)%nat)) → ∀ k s,
  (k + m = NINDIRECT)%nat → sb s = x → fs_inv (Some n) T1 (pending (NDIRECT + k)) s → held s = {[j]} → outstanding s ≠ 0%nat →
  wp (free_indirect m k data) (λ _ s', fs_inv (Some n) T1 (pending (NDIRECT + NINDIRECT)) s' ∧ frame (bitmap_blocks x) s s' ∧ icache s' = icache s) s.
Proof.
  intros Hj Hw. induction m as [|m IH]; intros k s Hk Es I Hh Hop.
  { assert (k = NINDIRECT) as -> by lia. apply wp_ret. split_and!; [done|apply fs_frame_refl|done]. }
  cbn [free_indirect]. rewrite Hw by lia. replace (NDIRECT + S k)%nat with (S (NDIRECT + k)) in IH by lia. destruct (a_blocks a !! (NDIRECT + k)%nat) as [b|] eqn:Hb; cbn [default from_option].
  - assert (b ∈ own a) as Hbo by (unfold own; rewrite elem_of_app; left; by eapply list_elem_of_lookup_2). pose proof (ao_range _ _ Hok b Hbo) as Hr. pose proof (fi_layout _ _ _ _ I) as L. rewrite Es in L.
    pose proof (dstart_pos _ L). rewrite (decide_False (P := b = 0)) by lia. assert (b ≠ j) as Hbj.
    { intros ->. pose proof (NoDup_rest (NDIRECT + k)) as Hnd. rewrite (rest_next _ _ Hb) in Hnd. apply NoDup_cons in Hnd as [Hnd _]. apply Hnd. unfold rest. rewrite Hj, elem_of_app. right. by left. }
    apply wp_bind. eapply wp_mono; [apply (bfree_spec _ _ _ _ I Hop b); [rewrite (rest_next _ b Hb); set_solver|set_solver]|]. intros [] s1 (I1&F1&E1). cbn beta.
    rewrite (pending_next _ b Hb) in I1. eapply wp_mono; [apply (IH (S k) s1)|]; try done.
    + lia.
    + by rewrite (fr_sb _ _ _ F1).
    + by rewrite (fr_held _ _ _ F1).
    + by rewrite (fr_op _ _ _ F1).
    + intros [] s' (I'&F'&E'). split_and!; [done| |congruence].
      apply (fs_frame_trans _ _ s1); [|done]. eapply fs_frame_mono; [exact F1|]. rewrite Es. intros c ->%elem_of_singleton. apply elem_bitmap, bblock_range; [done|lia].
  - rewrite decide_True by done. apply wp_bind, wp_ret. cbn beta. apply IH; try done; [lia|]. replace (NDIRECT + S k)%nat with (S (NDIRECT + k)) by lia. by rewrite <- rest_end.
Qed.

Lemma free_ind_spec s :
  sb s = x → fs_inv (Some n) T1 (pending NDIRECT) s → icache s !! i = Some (put_din (din_at NDIRECT) ip) → held s = ∅ → outstanding s ≠ 0%nat →
  (∀ j l, a_ind a = Some j → disk s !! j = Some l → ∀ k, (k < NINDIRECT)%nat → word k l = default 0 (a_blocks a !! (NDIRECT + k)%nat)) →
  wp (free_ind i) (λ _ s', fs_inv (Some n) T1 P s' ∧ frame (bitmap_blocks x) s s' ∧ icache s' = <[i := put_din (din_at (S NDIRECT)) ip]> (icache s)) s.
Proof.
  intros Es I Hi Hh Hop Hw. pose proof (fi_layout _ _ _ _ I) as L. rewrite Es in L. pose proof (dstart_pos _ L) as Hdp. pose proof (ao_len _ _ Hok) as Hlen.
  unfold free_ind. apply wp_bind. eapply wp_intro; [by apply read_inode_run|]. cbn [put_din din]. cbv zeta. rewrite din_at_addr by lia. rewrite addr_ind. destruct (a_ind a) as [j|] eqn:Hj; cbn [default from_option].
  - assert (j ∈ own a) as Hjo by (unfold own; rewrite Hj, elem_of_app; right; by left). pose proof (ao_range _ _ Hok j Hjo) as Hr. rewrite (decide_False (P := j = 0)) by lia.
    assert (j ∈ pending NDIRECT) as Hjp by (unfold rest; rewrite Hj, elem_of_union, elem_of_list_to_set, elem_of_app; right; right; by left).
    destruct (fi_disk _ _ _ _ I j) as (l&Hl&_); [rewrite Es; lia|]. apply wp_bind. eapply wp_intro; [apply bread_run; [by rewrite Hh|exact Hl]|]. cbn beta.
    apply wp_bind. eapply wp_mono; [apply (free_indirect_spec j l NINDIRECT Hj (Hw j l eq_refl Hl) 0 (hold j s)); try done|].
    + apply inv_hold; [done|set_solver].
    + cbn [hold held]. rewrite Hh. set_solver.
    + intros [] s1 (I1&F1&E1). cbn beta. assert (held s1 = {[j]}) as Hh1 by (rewrite (fr_held _ _ _ F1); cbn [hold held]; rewrite Hh; set_solver).
      assert (brelse j s1 = Some ((), unhold j s1)) as Hbr by (rewrite <- (hold_unhold j s1) at 1 by set_solver; apply brelse_run; cbn [unhold held]; set_solver).
      apply wp_bind. eapply wp_intro; [exact Hbr|]. cbn beta.
      assert (rest (NDIRECT + NINDIRECT) = [j]) as Er by (unfold rest; rewrite Hj, drop_ge; [done|unfold NDIRECT, NINDIRECT, MAXFILE in *; lia]).
      rewrite Er in I1. apply wp_bind. eapply wp_mono; [apply (bfree_spec _ _ _ (unhold j s1) (inv_unhold _ _ _ _ j I1)); [cbn [unhold outstanding]; by rewrite (fr_op _ _ _ F1)|set_solver|cbn [unhold held]; set_solver]|].
      intros [] s2 (I2&F2&E2). cbn beta. eapply wp_intro; [apply (upd_din_run i _ s2 (put_din (din_at NDIRECT) ip)); rewrite E2; cbn [unhold icache]; by rewrite E1|].
      cbn [unhold icache sb] in *. split_and!.
      * apply inv_cache. replace ((P ∪ list_to_set [j]) ∖ {[j]}) with P in I2; [done|]. pose proof (HP j Hjo). cbn [list_to_set]. set_solver.
      * apply frame_cache. destruct F1 as [A1 A2 A3 A4 A5], F2 as [B1 B2 B3 B4 B5]. cbn [unhold hold sb held outstanding logged disk] in *. assert ({[BBLOCK j (sb s1)]} ⊆ bitmap_blocks x) as HW.
        { rewrite A1, Es. intros c ->%elem_of_singleton. apply elem_bitmap, bblock_range; [done|lia]. }
        split; [congruence| |congruence|clear - A4 B4 HW; set_solver|].
        { rewrite B2, A2, Hh. set_solver. }
        { intros c Hc. rewrite B5, A5 by set_solver. done. }
      * cbn [set_cache icache put_din din]. rewrite E2, E1. rewrite din_at_next by lia. done.
  - rewrite decide_True by done. assert (rest NDIRECT = []) as Er.
    { unfold rest. rewrite Hj, app_nil_r. apply drop_ge. destruct (decide (NDIRECT < length (a_blocks a))%nat) as [Hlt|]; [|lia]. destruct (ao_ind _ _ Hok Hlt). congruence. }
    apply wp_ret. rewrite Er in I. split_and!; [|apply fs_frame_refl|].
    + by replace (P ∪ list_to_set []) with P in I by (cbn [list_to_set]; set_solver).
    + rewrite <- din_at_skip; [by rewrite list_insert_id|lia|]. by rewrite addr_ind, Hj.
Qed.

End trunc.

(** * Truncation *)

Lemma room_empty ex T P s n a x : fs_inv ex T P s → T !! n = Some a → room (<[n := a_empty a]> T) P x = room T P x + Z.of_nat (length (own a)).
Proof.
  intros I Ha. destruct (fi_table _ _ _ _ I n a Ha) as [_ Hok]. pose proof (retable_union T P n a (a_empty a) Ha ltac:(by intros b []%elem_of_nil)) as HU. unfold room. rewrite <- HU.
  replace (owned (<[n:=a_empty a]> T) ∪ (P ∪ list_to_set (own a)) ∖ list_to_set (own (a_empty a))) with (list_to_set (own a) ∪ (owned (<[n:=a_empty a]> T) ∪ P)) by (cbn; set_solver).
  rewrite (size_union (list_to_set (own a))); [rewrite size_list_to_set by apply (ao_nodup _ _ Hok); lia|]. intros b Hb Hb'. apply elem_of_list_to_set in Hb. apply elem_of_union in Hb' as [Hb'|Hb'].
  - apply elem_of_owned in Hb' as (m&c&Hc&Hbc). apply lookup_insert_Some in Hc as [[<- <-]|[Hne Hc]]; [by apply elem_of_nil in Hbc|]. apply Hne. by eapply (fi_disjoint _ _ _ _ I).
  - by apply (own_not_pending _ _ _ _ I n a b Ha Hb).
Qed.

Section itrunc.
Context (T : gmap Z ainode) (P : gset Z) (s : fss) (ex : option Z) (I : fs_inv ex T P s) (n : Z) (a : ainode) (Ha : T !! n = Some a) (He : ex = None ∨ ex = Some n).
Context (i : nat) (ip : inode) (Hi : icache s !! i = Some ip) (Hin : inum ip = n) (Hd : din ip = dinode_of a) (Hh : held s = ∅) (Hop : outstanding s ≠ 0%nat).

Record truncated (s' : fss) : Prop := {
  tr_inv : fs_inv None (<[n := a_empty a]> T) P s';
  tr_files : files (<[n := a_empty a]> T) s' = <[n := mk_afile (a_type a) (a_major a) (a_minor a) (a_nlink a) []]> (files T s);
  tr_cache : icache s' = <[i := put_din (dinode_of (a_empty a)) ip]> (icache s);
  tr_frame : frame ({[IBLOCK n (sb s)]} ∪ bitmap_blocks (sb s)) s s';
}.

(** [itrunc] leaves an empty file and gives back all its blocks. *)
Lemma itrunc_spec : wp (itrunc i) (λ _ s', truncated s') s.
Proof.
  destruct (fi_table _ _ _ _ I n a Ha) as [Hn Hok]. pose proof (fi_layout _ _ _ _ I) as L. assert (∀ b, b ∈ own a → b ∉ P) as HP by (intros b; apply (own_not_pending _ _ _ _ I n a b Ha)).
  unfold itrunc. apply wp_bind. eapply wp_mono; [apply (free_direct_spec T P n a (sb s) Hok HP i ip Hin NDIRECT 0 s); try done|].
  { replace (rest a 0) with (own a) by done. by eapply inv_park. }
  { rewrite Hi. f_equal. destruct ip; cbn in *. by rewrite Hd. }
  intros [] s1 (I1&F1&E1). cbn beta. pose proof (fr_sb _ _ _ F1) as Es1.
  apply wp_bind. eapply wp_mono; [apply (free_ind_spec T P n a (sb s) Hok HP i ip Hin s1); try done|].
  { rewrite E1. apply list_lookup_insert_eq. by eapply lookup_lt_Some. } { by rewrite (fr_held _ _ _ F1). } { by rewrite (fr_op _ _ _ F1). }
  { intros j l Hj Hl. eapply (fi_ind _ _ _ _ I n a j l Ha Hj). rewrite <- (fr_disk _ _ _ F1); [done|]. rewrite elem_bitmap. assert (j ∈ own a) as Hjo by (unfold own; rewrite Hj, elem_of_app; right; by left).
    apply (ao_range _ _ Hok) in Hjo. lia. }
  intros [] s2 (I2&F2&E2). cbn beta. rewrite E1, list_insert_insert_eq in E2. pose proof (fs_frame_trans _ _ _ _ F1 F2) as F. pose proof (fr_sb _ _ _ F) as Es.
  assert (i < length (icache s))%nat as Hlt by (by eapply lookup_lt_Some). apply wp_bind. eapply wp_intro; [apply (upd_din_run i _ s2 (put_din (din_at a (S NDIRECT)) ip)); rewrite E2; by apply list_lookup_insert_eq|].
  cbn beta. rewrite E2, list_insert_insert_eq. set (ip' := put_din _ _). assert (ip' = put_din (dinode_of (a_empty a)) ip) as Eip.
  { unfold ip', put_din, din_at, dinode_of. cbn [inum ref valid locked din]. f_equal. }
  set (s3 := set_cache _ s2). destruct (iupdate_run _ _ _ s3 n i ip' (inv_cache _ _ _ _ _ I2)) as (l&Hr&I4).
  { by right. } { cbn [s3 set_cache sb]. by rewrite Es. } { cbn [s3 set_cache icache]. by apply list_lookup_insert_eq. } { done. }
  { rewrite Eip. apply (dinode_of_ok (sb s)); [done|]. destruct (fi_table _ _ _ _ I2 n (a_empty a)) as [_ ?]; [by rewrite lookup_insert_eq|congruence]. }
  { by rewrite lookup_insert_eq, Eip. } { cbn [s3 set_cache outstanding]. by rewrite (fr_op _ _ _ F). }
  eapply wp_intro; [exact Hr|]. cbn [s3 set_cache sb] in *. rewrite Es in *.
  assert (frame ({[IBLOCK n (sb s)]} ∪ bitmap_blocks (sb s)) s (wrote (IBLOCK n (sb s)) l s3)) as F3.
  { apply (fs_frame_trans _ _ s3); [apply frame_cache; eapply fs_frame_mono; [exact F|apply union_subseteq_r]|apply fs_frame_wrote, elem_of_union_l; by apply elem_of_singleton]. }
  split; [done| |cbn [wrote icache s3 set_cache]; by rewrite Eip|done].
  erewrite files_insert; [done|exact I4|exact F3|]. intros b. rewrite elem_of_union, elem_of_singleton, elem_bitmap. pose proof (iblock_range _ L n ltac:(lia)). pose proof (dstart_pos _ L). intros [->|?]; right; left; lia.
Qed.

End itrunc.

(** * Removal *)

Lemma owned_delete T n a0 : T !! n = Some a0 → own a0 = [] → owned (delete n T) = owned T.
Proof.
  intros Ha Ho. apply set_eq. intros b. rewrite !elem_of_owned. setoid_rewrite lookup_delete_Some. split; [intros (m&c&[_ Hc]&Hb); eauto|].
  intros (m&c&Hc&Hb). exists m, c. split; [|done]. split; [|done]. intros <-. rewrite Ha in Hc. injection Hc as <-. rewrite Ho in Hb. by apply elem_of_nil in Hb.
Qed.

Lemma inv_delete ex T P s n a0 : fs_inv ex T P s → T !! n = Some a0 → own a0 = [] → ex = None ∨ ex = Some n → fs_inv (Some n) (delete n T) P s.
Proof.
  intros [I1 I2 I3 I4 I5 I6 I7 I8 I9] Ha Ho He. pose proof (owned_delete T n a0 Ha Ho) as Eo. split; rewrite ?Eo; try done.
  - intros m l Hm Hne Hl. rewrite lookup_delete_ne by congruence. apply I4; [done| |done]. destruct He as [-> | ->]; congruence.
  - intros m c [_ Hc]%lookup_delete_Some. auto.
  - intros m c b l [_ Hc]%lookup_delete_Some. eauto.
  - intros m k c d b [_ Hc]%lookup_delete_Some [_ Hd]%lookup_delete_Some. eauto.
Qed.
