(* ===== verification/XvFsCache.v ===== *)
(** The inode cache of xv6: at most one entry per inode, reference counts, and
    copies that agree with the disk; new inodes, and changes of an inode that is
    locked. *)

From stdpp Require Import base option list numbers gmap sets.
From coqutil Require Import Datatypes.RecordSettersUsingExistingGetters.
From Stdlib Require Import Strings.Byte ZArith Lia.
From S2P Require Import Prelude CString XvFs XvFsInv XvFsInode XvFsIo.
Local Open Scope Z_scope.

(** * Reference counts *)

(** The references to inode [n]. *)
Definition refs (C : list inode) (n : Z) : Z := match list_find (λ ip, 0 < ref ip ∧ inum ip = n) C with Some (_, ip) => ref ip | None => 0 end.

Record cache_wf (C : list inode) : Prop := {
  cw_uniq : ∀ i j ip jp, C !! i = Some ip → C !! j = Some jp → 0 < ref ip → 0 < ref jp → inum ip = inum jp → i = j;
  cw_ref : ∀ i ip, C !! i = Some ip → 0 ≤ ref ip;
  cw_free : ∀ i ip, C !! i = Some ip → ref ip = 0 → locked ip = false;
}.

Section refs.
Context (C : list inode) (W : cache_wf C).

Lemma refs_entry i ip : C !! i = Some ip → 0 < ref ip → refs C (inum ip) = ref ip.
Proof.
  intros Hi Hr. unfold refs. destruct (list_find _ C) as [[j jp]|] eqn:E.
  - apply list_find_Some in E as (Hj&[Hjr Hjn]&_). assert (i = j) as <- by (by eapply (cw_uniq _ W)). congruence.
  - apply list_find_None in E. rewrite Forall_lookup in E. destruct (E i ip Hi). done.
Qed.

Lemma refs_pos n : 0 < refs C n → ∃ i ip, C !! i = Some ip ∧ inum ip = n ∧ ref ip = refs C n.
Proof. unfold refs. destruct (list_find _ C) as [[j jp]|] eqn:E; [|lia]. apply list_find_Some in E as (Hj&[Hjr Hjn]&_). eauto. Qed.

Lemma refs_nonneg n : 0 ≤ refs C n.
Proof. unfold refs. destruct (list_find _ C) as [[j jp]|] eqn:E; [|lia]. apply list_find_Some in E as (Hj&[Hjr Hjn]&_). lia. Qed.

Lemma refs_zero n i ip : refs C n = 0 → C !! i = Some ip → inum ip = n → ref ip = 0.
Proof. intros Hz Hi <-. pose proof (cw_ref _ W i ip Hi). destruct (decide (0 < ref ip)); [|lia]. rewrite (refs_entry i ip) in Hz by done. lia. Qed.

End refs.

(** [k] references: an entry with as many, or none. *)
Lemma refs_spec C n k :
  cache_wf C → (0 < k ∧ ∃ i ip, C !! i = Some ip ∧ inum ip = n ∧ ref ip = k) ∨ (k = 0 ∧ ∀ i ip, C !! i = Some ip → inum ip = n → ref ip = 0) → refs C n = k.
Proof.
  intros W [(Hk&i&ip&Hi&<-&<-)|[-> Hz]]; [by eapply refs_entry|]. pose proof (refs_nonneg C n). destruct (decide (0 < refs C n)) as [Hp|]; [|lia].
  destruct (refs_pos C n Hp) as (i&ip&Hi&Hn&Hr). rewrite <- Hr. by eapply Hz.
Qed.

Lemma lookup_upd (C : list inode) i ip' j jp : <[i := ip']> C !! j = Some jp → (j = i ∧ jp = ip') ∨ (j ≠ i ∧ C !! j = Some jp).
Proof. rewrite list_lookup_insert_Some. naive_solver. Qed.

Section update.
Context (C : list inode) (W : cache_wf C) (i : nat) (ip ip' : inode) (Hi : C !! i = Some ip).

Lemma upd_at : <[i := ip']> C !! i = Some ip'.
Proof. apply list_lookup_insert_eq. by eapply lookup_lt_Some. Qed.

Lemma wf_upd : 0 ≤ ref ip' → (ref ip' = 0 → locked ip' = false) → (0 < ref ip' → ∀ j jp, C !! j = Some jp → 0 < ref jp → inum jp = inum ip' → j = i) → cache_wf (<[i := ip']> C).
Proof.
  intros Hr Hl Hu. destruct W as [W1 W2 W3]. split.
  - intros j k jp kp Hj Hk Hjr Hkr E. apply lookup_upd in Hj as [[-> ->]|[Hj Hj']], Hk as [[-> ->]|[Hk Hk']]; [done|symmetry; by eapply Hu|by eapply Hu|by eapply W1].
  - intros j jp Hj. apply lookup_upd in Hj as [[-> ->]|[_ Hj]]; eauto.
  - intros j jp Hj. apply lookup_upd in Hj as [[-> ->]|[_ Hj]]; eauto.
Qed.

(** The entry goes on to stand for its inode. *)
Lemma wf_same : 0 < ref ip → inum ip' = inum ip → 0 ≤ ref ip' → (ref ip' = 0 → locked ip' = false) → cache_wf (<[i := ip']> C).
Proof. intros Hr En Hr' Hl. apply wf_upd; [done|done|]. intros _ j jp Hj Hjr E. eapply (cw_uniq _ W j i jp ip); congruence. Qed.

Lemma refs_same m : cache_wf (<[i := ip']> C) → 0 < ref ip → inum ip' = inum ip → 0 ≤ ref ip' → refs (<[i := ip']> C) m = if decide (m = inum ip) then ref ip' else refs C m.
Proof.
  intros W' Hr En Hr'. apply refs_spec; [done|]. case_decide as E.
  - destruct (decide (0 < ref ip')); [left; split; [done|exists i, ip'; split_and!; [apply upd_at|congruence|done]]|right; split; [lia|]].
    intros j jp Hj Hjn. apply lookup_upd in Hj as [[-> ->]|[Hne Hj]]; [lia|]. pose proof (cw_ref _ W j jp Hj). destruct (decide (0 < ref jp)); [|lia]. destruct Hne. eapply (cw_uniq _ W j i jp ip); congruence.
  - pose proof (refs_nonneg C m). destruct (decide (0 < refs C m)) as [Hp|]; [left; split; [done|]|right; split; [lia|]].
    + destruct (refs_pos C m Hp) as (j&jp&Hj&Hjn&Hjr). exists j, jp. split_and!; [|done|done]. rewrite list_lookup_insert_ne; [done|]. intros <-. congruence.
    + intros j jp Hj Hjn. apply lookup_upd in Hj as [[-> ->]|[Hne Hj]]; [congruence|]. eapply (refs_zero C W m); [lia|done|done].
Qed.

(** A free entry is taken for another inode. *)
Lemma wf_fresh : ref ip = 0 → refs C (inum ip') = 0 → ref ip' = 1 → locked ip' = false → cache_wf (<[i := ip']> C).
Proof. intros H0 Hz Hr Hl. apply wf_upd; [lia|done|]. intros _ j jp Hj Hjr E. pose proof (refs_zero C W _ j jp Hz Hj E). lia. Qed.

Lemma refs_fresh m : cache_wf (<[i := ip']> C) → ref ip = 0 → refs C (inum ip') = 0 → ref ip' = 1 → refs (<[i := ip']> C) m = if decide (m = inum ip') then 1 else refs C m.
Proof.
  intros W' H0 Hz Hr. apply refs_spec; [done|]. case_decide as E.
  - left. split; [done|]. exists i, ip'. split_and!; [apply upd_at|done|done].
  - pose proof (refs_nonneg C m). destruct (decide (0 < refs C m)) as [Hp|]; [left; split; [done|]|right; split; [lia|]].
    + destruct (refs_pos C m Hp) as (j&jp&Hj&Hjn&Hjr). exists j, jp. split_and!; [|done|done]. rewrite list_lookup_insert_ne; [done|]. intros <-. rewrite Hi in Hj. injection Hj as <-. lia.
    + intros j jp Hj Hjn. apply lookup_upd in Hj as [[-> ->]|[Hne Hj]]; [congruence|]. eapply (refs_zero C W m); [lia|done|done].
Qed.

End update.

(** * Entries and their inodes *)

(** Entry [i] stands for inode [n]. *)
Definition handle (C : list inode) (i : nat) (n : Z) : Prop := ∃ ip, C !! i = Some ip ∧ inum ip = n ∧ 0 < ref ip.
Definition loaded (C : list inode) (i : nat) (n : Z) : Prop := ∃ ip, C !! i = Some ip ∧ inum ip = n ∧ 0 < ref ip ∧ valid ip = true.
Definition is_locked (C : list inode) (i : nat) : bool := match C !! i with Some ip => locked ip | None => false end.

(** The copies agree with the table of inodes. *)
Definition copies_ok (T : gmap Z ainode) (C : list inode) : Prop :=
  ∀ i ip, C !! i = Some ip → 0 < ref ip → ∃ a, T !! inum ip = Some a ∧ (valid ip = true → din ip = dinode_of a).

(** The inodes in use. *)
Definition inuse (C : list inode) : gset Z := list_to_set (inum <$> filter (λ ip, 0 < ref ip) C).

Lemma elem_inuse C n : cache_wf C → n ∈ inuse C ↔ 0 < refs C n.
Proof.
  intros W. unfold inuse. rewrite elem_of_list_to_set, list_elem_of_fmap. setoid_rewrite list_elem_of_filter. split.
  - intros (ip&->&Hr&Hi). apply list_elem_of_lookup in Hi as [i Hi]. by rewrite (refs_entry C W i ip).
  - intros Hp. destruct (refs_pos C n Hp) as (i&ip&Hi&<-&Hr). exists ip. split_and!; [done|lia|by eapply list_elem_of_lookup_2].
Qed.

Lemma filter_all {A} (Q : A → Prop) `{∀ y, Decision (Q y)} l : Forall Q l → filter Q l = l.
Proof. induction 1; [done|]. by rewrite filter_cons_True, IHForall. Qed.

Lemma free_slot C : cache_wf C → (size (inuse C) < length C)%nat → ∃ i ip, C !! i = Some ip ∧ ref ip = 0.
Proof.
  intros W Hs. destruct (list_find (λ ip, ref ip = 0) C) as [[i ip]|] eqn:E; [apply list_find_Some in E as (Hi&Hr&_); eauto|]. exfalso.
  apply list_find_None in E. assert (filter (λ ip, 0 < ref ip) C = C) as Ef.
  { apply filter_all. rewrite Forall_lookup in *. intros i ip Hi. pose proof (cw_ref _ W i ip Hi). pose proof (E i ip Hi) as Hn. simpl in Hn. lia. }
  unfold inuse in Hs. rewrite Ef, size_list_to_set, length_fmap in Hs; [lia|]. apply NoDup_alt. intros i j n. rewrite !list_lookup_fmap. intros (ip&Hi&->)%fmap_Some (jp&Hj&En)%fmap_Some.
  rewrite Forall_lookup in E. pose proof (cw_ref _ W i ip Hi). pose proof (cw_ref _ W j jp Hj). pose proof (E i ip Hi) as Hn. pose proof (E j jp Hj) as Hn'. simpl in *. eapply (cw_uniq _ W i j ip jp); (done || lia).
Qed.

(** * The file system between two calls *)

Record fs_ok (T : gmap Z ainode) (s : fss) : Prop := {
  fo_inv : fs_inv None T ∅ s;
  fo_held : held s = ∅;
  fo_wf : cache_wf (icache s);
  fo_copies : copies_ok T (icache s);
}.

(** The cache goes from [C] to [C'], with [dr n] more references to inode [n]
    and the locks [dl] changed. *)
Record evolves (C C' : list inode) (dr : Z → Z) (dl : nat → option bool) : Prop := {
  ev_refs : ∀ m, refs C' m = refs C m + dr m;
  ev_handle : ∀ i m, handle C i m → 0 < refs C' m → handle C' i m;
  ev_loaded : ∀ i m, loaded C i m → 0 < refs C' m → loaded C' i m;
  ev_lock : ∀ i, is_locked C' i = default (is_locked C i) (dl i);
  ev_len : length C' = length C;
}.

Definition one (n m : Z) : Z := if decide (m = n) then 1 else 0.
Definition nobody : nat → option bool := λ _, None.
Definition only (i : nat) (b : bool) : nat → option bool := λ j, if decide (j = i) then Some b else None.

Section entry.
Context (C : list inode) (W : cache_wf C) (i : nat) (ip ip' : inode) (Hi : C !! i = Some ip).
Abbreviation C' := (<[i := ip']> C).

Lemma is_locked_upd j : is_locked C' j = if decide (j = i) then locked ip' else is_locked C j.
Proof. unfold is_locked. case_decide as E; [subst; by rewrite (upd_at _ _ ip)|by rewrite list_lookup_insert_ne]. Qed.

Lemma handle_same : 0 < ref ip → inum ip' = inum ip → cache_wf C' → ∀ j m, handle C j m → 0 < refs C' m → handle C' j m.
Proof.
  intros Hr En W' j m (jp&Hj&<-&Hjr) Hp. destruct (decide (j = i)) as [->|Hne]; [|exists jp; by rewrite list_lookup_insert_ne]. rewrite Hi in Hj. injection Hj as <-.
  exists ip'. split_and!; [by eapply upd_at|done|]. destruct (refs_pos _ _ Hp) as (k&kp&Hk&Hkn&Hkr). apply lookup_upd in Hk as [[-> ->]|[Hki Hk]]; [lia|].
  destruct Hki. eapply (cw_uniq _ W k i kp ip); (done || lia).
Qed.

(** An update of the entry of inode [n]. *)
Lemma evolve_same d b : 0 < ref ip → inum ip' = inum ip → ref ip' = ref ip + d → 0 ≤ ref ip' → locked ip' = default (locked ip) b → (ref ip' = 0 → locked ip' = false) →
  (0 < ref ip' → valid ip = true → valid ip' = true) →
  cache_wf C' ∧ evolves C C' (λ m, if decide (m = inum ip) then d else 0) (λ j, if decide (j = i) then b else None).
Proof.
  intros Hr En Ed Hp El Hf Hv. assert (cache_wf C') as W' by (by eapply wf_same). split; [done|]. split.
  - intros m. rewrite (refs_same C W i ip ip' Hi m W' Hr En Hp). case_decide as E; [|lia]. subst m. rewrite (refs_entry C W i ip Hi Hr). lia.
  - by apply handle_same.
  - intros j m (jp&Hj&Hjn&Hjr&Hjv) Hm. destruct (handle_same Hr En W' j m) as (kp&Hk&Hkn&Hkr); [by exists jp|done|]. exists kp. split_and!; [done..|].
    apply lookup_upd in Hk as [[-> ->]|[Hne Hk]]; [apply Hv; [done|congruence]|congruence].
  - intros j. rewrite is_locked_upd. case_decide as E; [|done]. subst j. unfold is_locked. by rewrite Hi.
  - apply length_insert.
Qed.

Lemma copies_upd T : copies_ok T C → (0 < ref ip' → ∃ a, T !! inum ip' = Some a ∧ (valid ip' = true → din ip' = dinode_of a)) → copies_ok T C'.
Proof. intros H H' j jp Hj Hr. apply lookup_upd in Hj as [[-> ->]|[_ Hj]]; [auto|by eapply H]. Qed.

End entry.

Lemma ok_cache T s C : fs_ok T s → cache_wf C → copies_ok T C → fs_ok T (set_cache C s).
Proof. intros [O1 O2 O3 O4] W K. split; try done. by apply inv_cache. Qed.

Lemma alter_cache i f s ip : icache s !! i = Some ip → { s with icache ::= alter f i } = set_cache (<[i := f ip]> (icache s)) s.
Proof. intros Hi. rewrite <- (list_alter_insert f i (icache s) ip Hi). reflexivity. Qed.

(** A free entry comes to stand for inode [n]. *)
Lemma evolve_fresh C i ip ip' : cache_wf C → C !! i = Some ip → ref ip = 0 → refs C (inum ip') = 0 → ref ip' = 1 → locked ip' = false →
  cache_wf (<[i := ip']> C) ∧ evolves C (<[i := ip']> C) (one (inum ip')) nobody.
Proof.
  intros W Hi H0 Hz Hr Hl. assert (cache_wf (<[i := ip']> C)) as W' by (by eapply wf_fresh). split; [done|]. split.
  - intros m. rewrite (refs_fresh C W i ip ip' Hi m W' H0 Hz Hr). unfold one. case_decide as E; [subst; lia|lia].
  - intros j m (jp&Hj&<-&Hjr) _. exists jp. split_and!; [|done|done]. rewrite list_lookup_insert_ne; [done|]. intros <-. rewrite Hi in Hj. injection Hj as <-. lia.
  - intros j m (jp&Hj&<-&Hjr&Hjv) _. exists jp. split_and!; [|done|done|done]. rewrite list_lookup_insert_ne; [done|]. intros <-. rewrite Hi in Hj. injection Hj as <-. lia.
  - intros j. rewrite (is_locked_upd _ _ ip) by done. cbn. case_decide as E; [|done]. subst j. unfold is_locked. rewrite Hi, Hl. symmetry. by eapply (cw_free _ W).
  - apply length_insert.
Qed.

Section calls.
Context (T : gmap Z ainode) (s : fss) (O : fs_ok T s).
Abbreviation C := (icache s).

(** [iget] gives an entry of the inode: the one it has, or a free one. *)
Lemma iget_spec n : is_Some (T !! n) → n ∈ inuse C ∨ (size (inuse C) < length C)%nat →
  ∃ i C', iget n s = Some (i, set_cache C' s) ∧ fs_ok T (set_cache C' s) ∧ evolves C C' (one n) nobody ∧ handle C' i n.
Proof.
  intros [a Ha] Hfree. destruct O as [O1 O2 O3 O4]. unfold iget. destruct (list_find _ C) as [[i ip]|] eqn:E.
  - apply list_find_Some in E as (Hi&[Hr Hn]&_). set (ip' := mk_inode (inum ip) (ref ip + 1) (valid ip) (locked ip) (din ip)).
    destruct (evolve_same C O3 i ip ip' Hi 1 None) as [W' [E1 E2 E2' E3 E4]]; try done; [cbn; lia|cbn; lia|].
    exists i, (<[i := ip']> C). split_and!.
    + by rewrite (alter_cache _ _ _ ip Hi).
    + apply ok_cache; [done|done|]. apply copies_upd; [done|]. intros _. by apply (O4 i ip).
    + split; [|done|done| |done]; [intros m; rewrite E1; unfold one; by rewrite Hn|intros j; rewrite E3; by case_decide].
    + exists ip'. split_and!; [by eapply upd_at|done|cbn; lia].
  - assert (refs C n = 0) as Hz by (unfold refs; by rewrite E). destruct Hfree as [Hu|Hs]; [apply elem_inuse in Hu; [lia|done]|].
    destruct (free_slot C O3 Hs) as (k&kp&Hk&Hkr). destruct (list_find (λ ip, ref ip = 0) C) as [[i ip]|] eqn:E'; [|apply list_find_None in E'; rewrite Forall_lookup in E'; by destruct (E' k kp Hk)].
    apply list_find_Some in E' as (Hi&Hr&_). set (ip' := mk_inode n 1 false (locked ip) (din ip)). destruct (evolve_fresh C i ip ip') as [W' Ev]; try done; [by apply (cw_free _ O3 i ip)|].
    exists i, (<[i := ip']> C). split_and!; [|apply ok_cache; [done|done|]|done|].
    + by rewrite (alter_cache _ _ _ ip Hi).
    + apply copies_upd; [done|]. intros _. exists a. split; [done|]. done.
    + exists ip'. split_and!; [by eapply upd_at|done|done].
Qed.

Lemma idup_spec i n : handle C i n →
  ∃ C', idup i s = Some (i, set_cache C' s) ∧ fs_ok T (set_cache C' s) ∧ evolves C C' (one n) nobody ∧ handle C' i n.
Proof.
  intros (ip&Hi&Hn&Hr). destruct O as [O1 O2 O3 O4]. set (ip' := mk_inode (inum ip) (ref ip + 1) (valid ip) (locked ip) (din ip)).
  destruct (evolve_same C O3 i ip ip' Hi 1 None) as [W' [E1 E2 E2' E3 E4]]; try done; [cbn; lia|cbn; lia|]. exists (<[i := ip']> C). split_and!.
  - unfold idup. erewrite bind_run by (by apply upd_inode_run). done.
  - apply ok_cache; [done|done|]. apply copies_upd; [done|]. intros _. by apply (O4 i ip).
  - split; [|done|done| |done]; [intros m; rewrite E1; unfold one; by rewrite Hn|intros j; rewrite E3; by case_decide].
  - exists ip'. split_and!; [by eapply upd_at|done|cbn; lia].
Qed.

(** Entry [i] is locked, with a copy of the inode [a]. *)
Definition opened (C : list inode) (i : nat) (n : Z) (a : ainode) : Prop :=
  ∃ ip, C !! i = Some ip ∧ inum ip = n ∧ 0 < ref ip ∧ locked ip = true ∧ valid ip = true ∧ din ip = dinode_of a.

(** [ilock] reads the inode when the entry has no copy. *)
Lemma ilock_spec i n : handle C i n → is_locked C i = false →
  ∃ C' a, T !! n = Some a ∧ ilock i s = Some ((), set_cache C' s) ∧ fs_ok T (set_cache C' s) ∧ evolves C C' (λ _, 0) (only i true) ∧ opened C' i n a.
Proof.
  intros (ip&Hi&Hn&Hr) Hl. unfold is_locked in Hl. rewrite Hi in Hl. destruct O as [O1 O2 O3 O4]. destruct (O4 i ip Hi Hr) as (a&Ha&Hv). rewrite Hn in Ha.
  destruct (fi_table _ _ _ _ O1 n a Ha) as [Hrange Hok]. pose proof (fi_layout _ _ _ _ O1) as L. pose proof (iblock_range _ L n ltac:(lia)) as Hib. pose proof (dstart_pos _ L). pose proof (ly_start _ L). pose proof (ly_data _ L).
  set (ip' := mk_inode (inum ip) (ref ip) true true (dinode_of a)). exists (<[i := ip']> C), a.
  destruct (evolve_same C O3 i ip ip' Hi 0 (Some true)) as [W' [E1 E2 E2' E3 E4]]; try done; [cbn; lia|cbn; lia|cbn; lia|].
  split_and!; [done| |apply ok_cache; [done|done|apply copies_upd; [done|]; intros _; exists a; split; [cbn; congruence|done]]| |by exists ip'; split_and!; [by eapply upd_at|..]].
  - unfold ilock. rewrite (bind_run _ _ s (sb s) s) by done. erewrite bind_run by (by apply read_inode_run). rewrite decide_False by lia. rewrite Hl. erewrite bind_run by (by apply upd_inode_run).
    destruct (valid ip) eqn:Ev; [unfold mret, ST_ret, ip'; rewrite <- Hv by done; rewrite <- Ev; by destruct ip|].
    destruct (fi_disk _ _ _ _ O1 (IBLOCK n (sb s))) as (l&Hdl&_); [lia|]. pose proof (fi_inodes _ _ _ _ O1 n l Hrange ltac:(done) Hdl) as Hino. rewrite Ha in Hino.
    set (ip1 := mk_inode (inum ip) (ref ip) (valid ip) true (din ip)). set (s1 := set_cache (<[i := ip1]> C) s). set (ip2 := mk_inode (inum ip) (ref ip) (valid ip) true (dinode_of a)).
    rewrite Hn. erewrite bind_run by (apply (bread_run _ s1); [cbn [s1 set_cache held]; by rewrite O2|exact Hdl]).
    erewrite bind_run by (apply (upd_inode_run i _ (hold _ s1) ip1); by eapply upd_at). cbn beta. cbn [ip1 inum]. rewrite Hn, Hino. cbn [s1 hold set_cache icache]. rewrite list_insert_insert_eq.
    set (s2 := set_cache (<[i := ip2]> C) s).
    change (set_cache _ (hold _ _)) with (hold (IBLOCK n (sb s)) s2). erewrite bind_run by (apply brelse_run; cbn [s2 set_cache held]; by rewrite O2).
    erewrite bind_run by (apply (upd_inode_run i _ s2 ip2); by eapply upd_at). cbn [s2 set_cache icache]. rewrite list_insert_insert_eq.
    erewrite bind_run by (apply read_inode_run; by eapply upd_at). cbn. rewrite decide_False by apply (ao_type _ _ Hok). done.
  - split; [|done|done| |done]; [intros m; rewrite E1; by case_decide|intros j; rewrite E3; unfold only; by case_decide].
Qed.

Lemma iunlock_spec i n a : opened C i n a →
  ∃ C', iunlock i s = Some ((), set_cache C' s) ∧ fs_ok T (set_cache C' s) ∧ evolves C C' (λ _, 0) (only i false) ∧ handle C' i n ∧
    (∃ ip, C' !! i = Some ip ∧ valid ip = true ∧ din ip = dinode_of a).
Proof.
  intros (ip&Hi&Hn&Hr&Hl&Hv&Hd). destruct O as [O1 O2 O3 O4]. set (ip' := mk_inode (inum ip) (ref ip) (valid ip) false (din ip)). exists (<[i := ip']> C).
  destruct (evolve_same C O3 i ip ip' Hi 0 (Some false)) as [W' [E1 E2 E2' E3 E4]]; try done; [cbn; lia|cbn; lia|]. split_and!.
  - unfold iunlock. erewrite bind_run by (by apply read_inode_run). rewrite Hl. cbn. rewrite bool_decide_eq_false_2 by lia. by rewrite (upd_inode_run _ _ _ ip Hi).
  - apply ok_cache; [done|done|apply copies_upd; [done|]]. intros _. by apply (O4 i ip).
  - split; [|done|done| |done]; [intros m; rewrite E1; by case_decide|intros j; rewrite E3; unfold only; by case_decide].
  - exists ip'. split_and!; [by eapply upd_at|done|done].
  - exists ip'. split_and!; [by eapply upd_at|done|done].
Qed.

(** [iput] of an inode that has a name, or is used elsewhere. *)
Lemma iput_keep i n ip : C !! i = Some ip → inum ip = n → 0 < ref ip → locked ip = false → valid ip = false ∨ d_nlink (din ip) ≠ 0 ∨ ref ip ≠ 1 →
  ∃ C', iput i s = Some ((), set_cache C' s) ∧ fs_ok T (set_cache C' s) ∧ evolves C C' (λ m, - one n m) nobody.
Proof.
  intros Hi Hn Hr Hl Hk. destruct O as [O1 O2 O3 O4]. set (ip' := mk_inode (inum ip) (ref ip - 1) (valid ip) (locked ip) (din ip)). exists (<[i := ip']> C).
  destruct (evolve_same C O3 i ip ip' Hi (-1) None) as [W' [E1 E2 E2' E3 E4]]; try done; [cbn; lia|]. split_and!.
  - unfold iput. erewrite bind_run by (by apply read_inode_run). rewrite Hl. erewrite bind_run by (by apply upd_inode_run).
    replace (valid ip && bool_decide (d_nlink (din ip) = 0) && bool_decide (ref ip = 1)) with false.
    2: { symmetry. rewrite !andb_false_iff, !bool_decide_eq_false. tauto. }
    rewrite (bind_run _ _ _ () _) by done. erewrite bind_run by (apply upd_inode_run; by eapply upd_at). cbn [set_cache icache]. rewrite list_insert_insert_eq.
    rewrite (upd_inode_run i _ _ (mk_inode (inum ip) (ref ip) (valid ip) false (din ip))) by (by eapply upd_at). cbn [set_cache icache]. rewrite list_insert_insert_eq. unfold ip'. by rewrite Hl.
  - apply ok_cache; [done|done|apply copies_upd; [done|]]. intros _. by apply (O4 i ip).
  - split; [|done|done| |done]; [intros m; rewrite E1; unfold one; rewrite Hn; case_decide; lia|intros j; rewrite E3; by case_decide].
Qed.

Lemma iput_linked i n a : handle C i n → is_locked C i = false → T !! n = Some a → a_nlink a ≠ 0 ∨ refs C n ≠ 1 →
  ∃ C', iput i s = Some ((), set_cache C' s) ∧ fs_ok T (set_cache C' s) ∧ evolves C C' (λ m, - one n m) nobody.
Proof.
  intros (ip&Hi&Hn&Hr) Hl Ha Hk. unfold is_locked in Hl. rewrite Hi in Hl. apply (iput_keep i n ip); try done. destruct (fo_copies _ _ O i ip Hi Hr) as (c&Hc&Hd). rewrite Hn, Ha in Hc. injection Hc as <-.
  destruct (valid ip) eqn:Ev; [|by left]. right. rewrite Hd by done. cbn [dinode_of d_nlink]. destruct Hk as [Hk|Hk]; [by left|right]. by rewrite <- Hn, (refs_entry C (fo_wf _ _ O) i ip Hi Hr) in Hk.
Qed.

(** [iput] of the last reference to an inode without a name: the file is gone,
    and its blocks are free. *)
Lemma iput_free i n ip a :
  C !! i = Some ip → inum ip = n → locked ip = false → valid ip = true → d_nlink (din ip) = 0 → ref ip = 1 → T !! n = Some a → outstanding s ≠ 0%nat →
  wp (iput i) (λ _ s', fs_ok (delete n T) s' ∧ files (delete n T) s' = delete n (files T s) ∧ evolves C (icache s') (λ m, - one n m) nobody ∧
    frame ({[IBLOCK n (sb s)]} ∪ bitmap_blocks (sb s)) s s' ∧ room (delete n T) ∅ (sb s) = room T ∅ (sb s) + Z.of_nat (length (own a))) s.
Proof.
  intros Hi Hn Hl Hv Hnl Hr Ha Hop. destruct O as [O1 O2 O3 O4]. destruct (O4 i ip Hi ltac:(lia)) as (a'&Ha'&Hd). rewrite Hn, Ha in Ha'. injection Ha' as <-. specialize (Hd Hv).
  destruct (fi_table _ _ _ _ O1 n a Ha) as [Hrange Hok]. pose proof (fi_layout _ _ _ _ O1) as L. assert (i < length C)%nat as Hlt by (by eapply lookup_lt_Some).
  unfold iput. apply wp_bind. eapply wp_intro; [by apply read_inode_run|]. cbn beta. rewrite Hl. apply wp_bind. eapply wp_intro; [by apply upd_inode_run|]. cbn beta.
  rewrite Hv, Hnl, Hr. cbn [andb bool_decide decide_rel]. set (ip1 := mk_inode (inum ip) (ref ip) (valid ip) true (din ip)). set (s1 := set_cache (<[i := ip1]> C) s).
  rewrite !bool_decide_true by done. cbn [andb]. apply wp_bind, wp_bind.
  eapply wp_mono; [apply (itrunc_spec T ∅ s1 None (inv_cache _ _ _ _ _ O1) n a Ha (or_introl eq_refl) i ip1); try done; by eapply upd_at|].
  intros [] s2 [R1 R2 R3 R4]. cbn beta. cbn [s1 set_cache icache sb] in R2, R3, R4. rewrite list_insert_insert_eq in R3. pose proof (fr_sb _ _ _ R4) as Es2. cbn [set_cache sb] in Es2.
  apply wp_bind. eapply wp_intro; [apply upd_din_run; rewrite R3; by eapply upd_at|]. cbn beta. rewrite R3, list_insert_insert_eq. set (ip2 := put_din _ _). set (s3 := set_cache _ s2).
  assert (fs_inv (Some n) (delete n (<[n := a_empty a]> T)) ∅ s3) as I3 by (apply inv_cache; eapply inv_delete; [exact R1|by rewrite lookup_insert_eq|done|by left]).
  rewrite delete_insert_eq in I3. destruct (iupdate_run _ _ _ s3 n i ip2 I3) as (l&Hrun&I4).
  { by right. } { cbn [s3 set_cache sb]. by rewrite Es2. } { cbn [s3 set_cache icache]. by eapply upd_at. } { done. }
  { destruct (fi_table _ _ _ _ R1 n (a_empty a)) as [_ Hok2]; [by rewrite lookup_insert_eq|]. destruct (dinode_of_ok _ _ (fi_layout _ _ _ _ R1) Hok2) as [D1 D2 D3 D4 D5 D6 D7]. by split. }
  { by rewrite lookup_delete_eq. } { cbn [s3 set_cache outstanding]. by rewrite (fr_op _ _ _ R4). }
  apply wp_bind. eapply wp_intro; [exact Hrun|]. cbn beta. cbn [s3 set_cache sb] in *. rewrite Es2 in *. set (s4 := wrote _ l _).
  assert (icache s4 = <[i := ip2]> C) as E4 by done. eapply wp_intro; [apply (upd_inode_run i _ s4 ip2); rewrite E4; by eapply upd_at|]. cbn beta. rewrite E4, list_insert_insert_eq.
  apply wp_bind. eapply wp_intro; [apply upd_inode_run; cbn [set_cache icache]; by eapply upd_at|]. cbn beta. cbn [set_cache icache]. rewrite list_insert_insert_eq.
  eapply wp_intro; [apply upd_inode_run; cbn [set_cache icache]; by eapply upd_at|]. cbn beta. cbn [set_cache icache]. rewrite list_insert_insert_eq.
  match goal with |- context [set_cache (<[i := ?q]> C) (set_cache _ (set_cache _ s4))] => set (ip3 := q) end. change (set_cache _ (set_cache _ (set_cache _ s4))) with (set_cache (<[i := ip3]> C) s4). change (sb s1) with (sb s) in *.
  assert (frame ({[IBLOCK n (sb s)]} ∪ bitmap_blocks (sb s)) s (set_cache (<[i := ip3]> C) s4)) as F.
  { apply frame_cache, (fs_frame_trans _ _ s3); [|apply fs_frame_wrote; set_solver]. apply frame_cache. destruct R4 as [A1 A2 A3 A4 A5]. by split. }
  assert (ref ip3 = ref ip - 1) as E3r by done. assert (locked ip3 = false) as E3l by done.
  destruct (evolve_same C O3 i ip ip3 Hi (-1) None) as [W' [E1 E2 E2' E3 E5]]; [lia|done|lia|lia|done|done|lia|]. split_and!.
  - split; [by apply inv_cache|by rewrite (fr_held _ _ _ F)|done|]. intros j jp Hj Hjr. apply lookup_upd in Hj as [[-> ->]|[Hne Hj]]; [lia|].
    destruct (O4 j jp Hj Hjr) as (c&Hc&Hcd). exists c. split; [|done]. rewrite lookup_delete_ne; [done|]. intros E. apply Hne. eapply (cw_uniq _ O3 j i jp ip); (done || lia || congruence).
  - unfold files. rewrite <- fmap_delete. apply map_fmap_ext. intros m c [_ Hc]%lookup_delete_Some. apply file_of_ext. intros b Hb. apply (fr_disk _ _ _ F).
    destruct (fi_table _ _ _ _ O1 m c Hc) as [_ Hokc]. assert (b ∈ own c) as Hbo by (unfold own; rewrite elem_of_app; by left). apply (ao_range _ _ Hokc) in Hbo.
    pose proof (iblock_range _ L n ltac:(lia)). pose proof (dstart_pos _ L). rewrite elem_of_union, elem_of_singleton, elem_bitmap. lia.
  - split; [|done|done| |done]; [intros m; rewrite E1; unfold one; rewrite Hn; case_decide; lia|intros j; rewrite E3; by case_decide].
  - done.
  - rewrite <- (room_empty None T ∅ s n a (sb s) O1 Ha). unfold room. do 4 f_equal. rewrite <- (owned_delete (<[n := a_empty a]> T) n (a_empty a)); [by rewrite delete_insert_eq|by rewrite lookup_insert_eq|done].
Qed.

End calls.

(** * Changes of an inode that is locked *)

Section locked.
Context (T : gmap Z ainode) (s : fss) (O : fs_ok T s) (i : nat) (n : Z) (a : ainode) (D : opened (icache s) i n a) (Ha : T !! n = Some a).
Abbreviation C := (icache s).

(** The entry has the copy of a new version of the inode. *)
Lemma retable_ok s' ip a' :
  C !! i = Some ip → inum ip = n → 0 < ref ip → fs_inv None (<[n := a']> T) ∅ s' → held s' = ∅ → icache s' = <[i := put_din (dinode_of a') ip]> C →
  fs_ok (<[n := a']> T) s' ∧ evolves C (icache s') (λ _, 0) nobody ∧ opened (icache s') i n a'.
Proof.
  intros Hi Hn Hr I' Hh Ec. destruct O as [O1 O2 O3 O4]. destruct D as (ip0&Hi0&_&_&Hl&Hv&_). rewrite Hi in Hi0. injection Hi0 as <-. set (ip' := put_din (dinode_of a') ip) in *.
  destruct (evolve_same C O3 i ip ip' Hi 0 None) as [W' [E1 E2 E2' E3 E4]]; [done|done|cbn; lia|cbn; lia|done|cbn; lia|done|]. rewrite Ec. split_and!.
  - split; [done|done|by rewrite Ec|]. rewrite Ec. intros j jp Hj Hjr. apply lookup_upd in Hj as [[-> ->]|[Hne Hj]].
    + exists a'. cbn [ip' put_din inum din]. split; [by rewrite Hn, lookup_insert_eq|done].
    + destruct (O4 j jp Hj Hjr) as (c&Hc&Hcd). exists c. split; [|done]. rewrite lookup_insert_ne; [done|]. intros E. apply Hne. eapply (cw_uniq _ O3 j i jp ip); (done || congruence).
  - split; [|done|done| |done]; [intros m; rewrite E1; by case_decide|intros j; rewrite E3; by case_decide].
  - exists ip'. split_and!; [by eapply upd_at|done..].
Qed.

(** [writei] on a locked inode. *)
Lemma writei_ok dev_write src off :
  a_type a ≠ T_DEV → outstanding s ≠ 0%nat → 0 ≤ off ≤ a_size a → off + Z.of_nat (length src) ≤ MAXFILE * BSIZE →
  need a (off + Z.of_nat (length src)) ≤ room T ∅ (sb s) →
  wp (writei dev_write i src off) (λ r s', r = Z.of_nat (length src) ∧ ∃ a' ip, C !! i = Some ip ∧ stored T ∅ s n a i ip src off a' s' ∧
    fs_ok (<[n := a']> T) s' ∧ evolves C (icache s') (λ _, 0) nobody ∧ opened (icache s') i n a') s.
Proof.
  intros Ht Hop Ho Hmax Hroom. pose proof D as (ip&Hi&Hn&Hr&Hl&Hv&Hd). destruct O as [O1 O2 O3 O4].
  eapply wp_mono; [apply (writei_spec T ∅ s n a Ha i ip Hi Hn Hd O2 Ht O1 Hop); done|]. intros r s' [-> [a' St]]. split; [done|]. exists a', ip. split; [done|]; split; [done|].
  apply (retable_ok s' ip a'); [done|done|done|by apply (st_inv _ _ _ _ _ _ _ _ _ _ _ St)| |by apply (st_cache _ _ _ _ _ _ _ _ _ _ _ St)]. by rewrite (fr_held _ _ _ (st_frame _ _ _ _ _ _ _ _ _ _ _ St)).
Qed.

End locked.

(** * Several calls *)

Lemma evolves_refl C : evolves C C (λ _, 0) nobody.
Proof. split; try done. intros m. lia. Qed.

Lemma evolves_ext C C' dr dr' dl dl' : evolves C C' dr dl → (∀ m, dr' m = dr m) → (∀ j, default (is_locked C j) (dl' j) = default (is_locked C j) (dl j)) → evolves C C' dr' dl'.
Proof. intros [E1 E2 E3 E4 E5] Hr Hl. split; [intros m; by rewrite E1, Hr|done|done|intros j; by rewrite E4, Hl|done]. Qed.

Definition then_ (dl dl' : nat → option bool) : nat → option bool := λ j, match dl' j with Some b => Some b | None => dl j end.

Lemma handle_refs C i n : cache_wf C → handle C i n → 0 < refs C n.
Proof. intros W (ip&Hi&<-&Hr). by rewrite (refs_entry C W i ip). Qed.

Lemma loaded_handle C i n : loaded C i n → handle C i n.
Proof. intros (ip&Hi&Hn&Hr&_). by exists ip. Qed.

Lemma evolves_trans C C1 C2 dr dr' dl dl' :
  cache_wf C → evolves C C1 dr dl → evolves C1 C2 dr' dl' → (∀ m, 0 < refs C m → 0 < refs C2 m → 0 < refs C1 m) → evolves C C2 (λ m, dr m + dr' m) (then_ dl dl').
Proof.
  intros W [A1 A2 A3 A4 A5] [B1 B2 B3 B4 B5] H. split.
  - intros m. rewrite B1, A1. lia.
  - intros i m Hh Hm. pose proof (handle_refs C i m W Hh). auto.
  - intros i m Hh Hm. pose proof (handle_refs C i m W (loaded_handle _ _ _ Hh)). auto.
  - intros j. rewrite B4, A4. unfold then_. by destruct (dl' j).
  - congruence.
Qed.

Lemma handle_inj C i n m : handle C i n → handle C i m → n = m.
Proof. intros (ip&Hi&<-&_) (ip'&Hi'&<-&_). congruence. Qed.

Lemma opened_loaded C i n a : opened C i n a → loaded C i n ∧ is_locked C i = true.
Proof. intros (ip&Hi&Hn&Hr&Hl&Hv&_). split; [by exists ip|]. unfold is_locked. by rewrite Hi. Qed.

Section more.
Context (T : gmap Z ainode) (s : fss) (O : fs_ok T s).
Abbreviation C := (icache s).

Lemma opened_intro i n a : T !! n = Some a → loaded C i n → is_locked C i = true → opened C i n a.
Proof.
  intros Ha (ip&Hi&Hn&Hr&Hv) Hl. unfold is_locked in Hl. rewrite Hi in Hl. destruct (fo_copies _ _ O i ip Hi Hr) as (c&Hc&Hd). exists ip. split_and!; try done. rewrite Hd by done. congruence.
Qed.

Lemma iunlockput_keep i n a : opened C i n a → T !! n = Some a → a_nlink a ≠ 0 ∨ refs C n ≠ 1 →
  ∃ C', iunlockput i s = Some ((), set_cache C' s) ∧ fs_ok T (set_cache C' s) ∧ evolves C C' (λ m, - one n m) (only i false).
Proof.
  intros D Ha Hk. destruct (iunlock_spec T s O i n a D) as (C1&R1&O1&E1&H1&_). unfold iunlockput. rewrite (bind_run _ _ _ _ _ R1).
  destruct (iput_linked T (set_cache C1 s) O1 i n a) as (C2&R2&O2&E2); [done|by rewrite (ev_lock _ _ _ _ E1); unfold only; rewrite decide_True|done|cbn [set_cache icache]; by rewrite (ev_refs _ _ _ _ E1), Z.add_0_r|].
  exists C2. split_and!; [done|done|]. eapply evolves_ext; [apply (evolves_trans _ _ _ _ _ _ _ (fo_wf _ _ O) E1 E2); intros m Hm _; by rewrite (ev_refs _ _ _ _ E1), Z.add_0_r|done|done].
Qed.

End more.

(** New inodes of xv6, and changes of the link count: [ialloc], and [iupdate]
    after a change of an inode that is locked. *)

(** * New inodes *)

Definition a_new (type : Z) : ainode := mk_ainode type 0 0 0 0 [] None.

Lemma owned_new T n a0 : T !! n = None → own a0 = [] → owned (<[n := a0]> T) = owned T.
Proof.
  intros Ha Ho. rewrite <- (owned_delete (<[n := a0]> T) n a0); [by rewrite delete_insert_id|by rewrite lookup_insert_eq|done].
Qed.

Lemma inv_new T P s n a0 :
  fs_inv None T P s → T !! n = None → own a0 = [] → 1 ≤ n < ninodes (sb s) → ainode_ok (sb s) a0 → a_ind a0 = None → fs_inv (Some n) (<[n := a0]> T) P s.
Proof.
  intros [I1 I2 I3 I4 I5 I6 I7 I8 I9] Ha Ho Hn Hok Hi. pose proof (owned_new T n a0 Ha Ho) as Eo. split; rewrite ?Eo; try done.
  - intros m l Hm Hne Hl. rewrite lookup_insert_ne by congruence. by apply I4.
  - intros m c [[<- <-]|[_ Hc]]%lookup_insert_Some; auto.
  - intros m c b l [[<- <-]|[_ Hc]]%lookup_insert_Some; [congruence|eauto].
  - intros m k c d b [[<- <-]|[_ Hc]]%lookup_insert_Some [[<- <-]|[_ Hd]]%lookup_insert_Some; rewrite ?Ho; [done|by intros ?%elem_of_nil|by intros ? ?%elem_of_nil|eauto].
Qed.

Lemma new_ok x type : type ≠ 0 → - 2 ^ 15 ≤ type < 2 ^ 15 → ainode_ok x (a_new type).
Proof. intros H0 Hr. split; cbn; try done; try lia; [by intros b []%elem_of_nil|apply NoDup_nil_2]. Qed.

Section ialloc.
Context (T : gmap Z ainode) (s : fss) (O : fs_ok T s) (Hop : outstanding s ≠ 0%nat) (type : Z) (Ht : type ≠ 0) (Htr : - 2 ^ 15 ≤ type < 2 ^ 15).
Context (Hslot : (size (inuse (icache s)) < length (icache s))%nat).

(** An inode that was free is in use, without a name. *)
Record created (n0 : Z) (i : nat) (n : Z) (s' : fss) : Prop := {
  cr_least : n0 ≤ n < ninodes (sb s) ∧ T !! n = None ∧ ∀ m, n0 ≤ m < n → T !! m ≠ None;
  cr_ok : fs_ok (<[n := a_new type]> T) s';
  cr_files : files (<[n := a_new type]> T) s' = <[n := mk_afile type 0 0 0 []]> (files T s);
  cr_cache : evolves (icache s) (icache s') (one n) nobody;
  cr_handle : handle (icache s') i n;
  cr_frame : frame {[IBLOCK n (sb s)]} s s';
  cr_room : room (<[n := a_new type]> T) ∅ (sb s) = room T ∅ (sb s);
}.

Lemma ialloc_here n l : 1 ≤ n < ninodes (sb s) → T !! n = None → disk s !! IBLOCK n (sb s) = Some l →
  wp (iget n) (λ i s', ∀ n0, n0 ≤ n → (∀ m, n0 ≤ m < n → T !! m ≠ None) → created n0 i n s')
    (wrote (IBLOCK n (sb s)) (set_dinode (Z.to_nat (n mod IPB)) (mk_dinode type 0 0 0 0 (replicate (S NDIRECT) 0)) l) s).
Proof.
  intros Hn Hf Hl. destruct O as [O1 O2 O3 O4]. pose proof (new_ok (sb s) type Ht Htr) as Hok. pose proof (inv_new T ∅ s n (a_new type) O1 Hf eq_refl Hn Hok eq_refl) as I1.
  assert (mk_dinode type 0 0 0 0 (replicate (S NDIRECT) 0) = dinode_of (a_new type)) as -> by done. set (s1 := wrote _ _ s). set (T' := <[n := a_new type]> T).
  assert (fs_inv None T' ∅ s1) as I2 by (eapply inv_write_inode; [exact I1|by right|done|by eapply dinode_of_ok; [apply (fi_layout _ _ _ _ O1)|]|done|unfold T'; by rewrite lookup_insert_eq]).
  assert (fs_ok T' s1) as O5.
  { split; [done|done|done|]. intros i ip Hi Hr. destruct (O4 i ip Hi Hr) as (c&Hc&Hv). exists c. split; [|done]. unfold T'. rewrite lookup_insert_ne by congruence. done. }
  destruct (iget_spec T' s1 O5 n) as (i&C'&R&O6&E&H); [exists (a_new type); unfold T'; by rewrite lookup_insert_eq|by right|]. eapply wp_intro; [exact R|]. intros n0 Hn0 Hall. split; try done.
  - split; [lia|done].
  - change (files (<[n:=a_new type]> T) (set_cache C' s1)) with (files T' s1). unfold s1. rewrite (files_iblock _ _ _ _ _ _ I1 Hn). unfold T', files. rewrite fmap_insert. done.
  - apply frame_cache, fs_frame_wrote. set_solver.
  - unfold room. by rewrite owned_new.
Qed.

Lemma ialloc_loop_spec fuel : ∀ n0, 1 ≤ n0 → ninodes (sb s) - n0 ≤ Z.of_nat fuel → (∃ n, n0 ≤ n < ninodes (sb s) ∧ T !! n = None) →
  wp (ialloc_loop fuel type n0) (λ i s', ∃ n, created n0 i n s') s.
Proof.
  destruct O as [O1 O2 _ _]. pose proof (fi_layout _ _ _ _ O1) as L. pose proof (ly_start _ L). pose proof (ly_data _ L). pose proof (dstart_pos _ L).
  induction fuel as [|fuel IH]; intros n0 Hn0 Hf Hex; cbn [ialloc_loop]; apply wp_bind, wp_gets; [destruct Hex as (n&Hn&_); lia|].
  rewrite decide_True by (destruct Hex as (n&Hn&_); lia). assert (n0 < ninodes (sb s)) as Hlt by (destruct Hex as (n&Hn&_); lia). pose proof (iblock_range _ L n0 ltac:(lia)) as Hib.
  destruct (fi_disk _ _ _ _ O1 (IBLOCK n0 (sb s))) as (l&Hl&_); [lia|]. apply wp_bind. eapply wp_intro; [apply bread_run; [by rewrite O2|exact Hl]|]. cbn beta.
  pose proof (fi_inodes _ _ _ _ O1 n0 l ltac:(lia) ltac:(done) Hl) as Hd. destruct (T !! n0) as [a|] eqn:Ha.
  - destruct (fi_table _ _ _ _ O1 n0 a Ha) as [_ Hok]. rewrite Hd. cbn [dinode_of d_type]. rewrite decide_False by apply (ao_type _ _ Hok). apply wp_bind. eapply wp_intro; [apply brelse_run; by rewrite O2|]. cbn beta.
    eapply wp_mono; [apply IH; [lia|lia|]|].
    + destruct Hex as (n&Hn&Hnone). exists n. split; [|done]. destruct (decide (n = n0)) as [->|]; [congruence|lia].
    + intros i s' (n&[[A1 [A2 A3]] A4 A5 A6 A7 A8 A9]). exists n. split; try done. split; [lia|]. split; [done|]. intros m Hm. destruct (decide (m = n0)) as [->|]; [congruence|]. apply A3. lia.
  - rewrite decide_True by done. unfold wp. rewrite update_run by (done || by rewrite O2). eapply wp_mono; [apply (ialloc_here n0 l); [lia|done|done]|]. intros i s' Hc. exists n0. apply Hc; [lia|]. intros m Hm. lia.
Qed.

(** [ialloc] takes the first inode that is free. *)
Lemma ialloc_spec : (∃ n, 1 ≤ n < ninodes (sb s) ∧ T !! n = None) → wp (ialloc type) (λ i s', ∃ n, created 1 i n s') s.
Proof. intros Hex. unfold ialloc. apply wp_bind, wp_gets. apply ialloc_loop_spec; [lia| |done]. destruct Hex as (n&Hn&_). lia. Qed.

End ialloc.

(** * Changes of an inode *)

(** The same inode with other numbers. *)
Definition a_meta (type major minor nlink : Z) (a : ainode) : ainode := mk_ainode type major minor nlink (a_size a) (a_blocks a) (a_ind a).

Section meta.
Context (T : gmap Z ainode) (s : fss) (O : fs_ok T s) (Hop : outstanding s ≠ 0%nat) (i : nat) (n : Z) (a : ainode) (D : opened (icache s) i n a) (Ha : T !! n = Some a).
Abbreviation C := (icache s).

Record changed (a' : ainode) (s' : fss) : Prop := {
  cg_ok : fs_ok (<[n := a']> T) s';
  cg_files : files (<[n := a']> T) s' = <[n := mk_afile (a_type a') (a_major a') (a_minor a') (a_nlink a') (content s a)]> (files T s);
  cg_cache : evolves C (icache s') (λ _, 0) nobody;
  cg_opened : opened (icache s') i n a';
  cg_frame : frame {[IBLOCK n (sb s)]} s s';
  cg_room : room (<[n := a']> T) ∅ (sb s) = room T ∅ (sb s);
}.

Lemma update_spec f major minor nlink : let a' := a_meta (a_type a) major minor nlink a in
  f (dinode_of a) = dinode_of a' → ainode_ok (sb s) a' → wp (upd_din i f;; iupdate i) (λ _ s', changed a' s') s.
Proof.
  intros a' Hf Hok'. pose proof D as (ip&Hi&Hn&Hr&Hl&Hv&Hd). destruct O as [O1 O2 O3 O4]. destruct (fi_table _ _ _ _ O1 n a Ha) as [Hrange Hok]. pose proof (fi_layout _ _ _ _ O1) as L.
  pose proof (inv_meta _ _ _ _ O1 n a a' Ha ltac:(by left) Hok' eq_refl eq_refl) as I1.
  apply wp_bind. eapply wp_intro; [by apply upd_din_run|]. cbn beta. rewrite Hd, Hf. set (ip' := put_din _ ip). set (s1 := set_cache _ s).
  destruct (iupdate_run _ _ _ s1 n i ip' (inv_cache _ _ _ _ _ I1)) as (l&Hrun&I2); [by right|done|by eapply upd_at|done|by eapply dinode_of_ok|by rewrite lookup_insert_eq|done|].
  eapply wp_intro; [exact Hrun|]. set (s2 := wrote _ l s1).
  assert (frame {[IBLOCK n (sb s)]} s s2) as F by (apply (fs_frame_trans _ _ s1); [apply frame_cache, fs_frame_refl|apply fs_frame_wrote; set_solver]). destruct (retable_ok T s O i n a D s2 ip a' Hi Hn Hr I2 O2 eq_refl) as (O5&E5&D5). split; try done.
  - erewrite (files_insert _ _ _ s s2 n a' {[IBLOCK n (sb s)]}); [|exact I2|exact F|].
    + unfold file_of. do 2 f_equal. unfold content. cbn [a' a_meta a_size]. f_equal. apply (fbytes_ext s s2 a). intros b Hb. cbn [s2 s1 wrote set_cache disk]. apply lookup_insert_ne. intros E.
      assert (b ∈ own a) as Hbo by (unfold own; rewrite elem_of_app; by left). apply (ao_range _ _ Hok) in Hbo. pose proof (iblock_range _ L n ltac:(lia)). pose proof (dstart_pos _ L). cbn [s1 set_cache sb] in E. lia.
    + intros b ->%elem_of_singleton. right. left. pose proof (iblock_range _ L n ltac:(lia)). pose proof (dstart_pos _ L). lia.
  - unfold room. do 2 f_equal. replace (owned (<[n:=a']> T)) with (owned T); [done|]. apply set_eq. intros b. rewrite !elem_of_owned. setoid_rewrite lookup_insert_Some. split.
    + intros (m&c&Hc&Hb). destruct (decide (n = m)) as [<-|Hne]; [exists n, a'; split; [by left|]; rewrite Ha in Hc; injection Hc as <-; done|eauto 8].
    + intros (m&c&[[<- <-]|[_ Hc]]&Hb); eauto.
Qed.

End meta.
