(* ===== verification/XvFsDir.v ===== *)
(** Directories of xv6 as lists of names with inodes: what [dirlookup] finds and
    what [dirlink] adds; and [namex], which follows a path through them and
    returns one reference, or none. *)

From stdpp Require Import base option list numbers gmap sets.
From coqutil Require Import Datatypes.RecordSettersUsingExistingGetters Word.LittleEndianList.
From Stdlib Require Import Strings.Byte ZArith Lia.
From S2P Require Import Prelude CString XvFs XvFsInv XvFsInode XvFsIo XvFsCache.
Local Open Scope Z_scope.

(** * Names in directories *)

(** The entries of a directory. *)
Definition dents (l : list byte) : list (list byte) := (λ k, take 16 (drop (16 * k) l)) <$> seq 0 (length l / 16).

Definition de_str (de : list byte) : cstr := take_while (.≠ NUL) (de_name de).
Definition matches (name : cstr) (de : list byte) : Prop := de_inum de ≠ 0 ∧ de_str de = take DIRSIZ name.
#[global] Instance matches_dec name de : Decision (matches name de) := _.

Definition dir_find (name : cstr) (l : list byte) : option (nat * list byte) := list_find (matches name) (dents l).

(** The index of the entry that [dirlink] fills: a free one, or one after the end. *)
Definition dir_slot (l : list byte) : nat := match list_find (λ de, de_inum de = 0) (dents l) with Some (k, _) => k | None => length l / 16 end.
Definition dir_add (name : cstr) (n : Z) (l : list byte) : list byte := patch (16 * dir_slot l) (enc_dirent n name) l.

Lemma strncmp_take s t n : strncmp_eq s t n = bool_decide (take_while (.≠ NUL) (take n s) = take_while (.≠ NUL) (take n t)).
Proof.
  revert s t. induction n as [|n IH]; intros s t; [by rewrite !take_0|]. cbn [strncmp_eq]. cbv zeta.
  destruct s as [|c s], t as [|d t]; cbn [hd tl take take_while]; repeat case_decide; simplify_eq; try done; try (symmetry; by apply bool_decide_eq_false_2).
  all: try (rewrite IH; apply bool_decide_ext; split; [by intros ->|by intros [=]]).
  all: symmetry; apply bool_decide_eq_false_2; congruence.
Qed.

Lemma take_while_no_nul s : no_nul s → take_while (.≠ NUL) s = s.
Proof. intros H. apply take_while_id, Forall_forall. intros c Hc ->. done. Qed.

Lemma name_no_nul_take s n : no_nul s → no_nul (take n s).
Proof. intros H Hc. apply H. rewrite <- (take_drop n s), elem_of_app. by left. Qed.

Lemma namecmp_spec name de : no_nul name → length de = 16%nat → namecmp name (de_name de) = bool_decide (de_str de = take DIRSIZ name).
Proof.
  intros Hn Hl. unfold namecmp, de_str. rewrite strncmp_take, (take_while_no_nul (take _ name)) by (by apply name_no_nul_take).
  rewrite (take_ge (de_name de)) by (unfold de_name; rewrite length_drop, Hl; done). apply bool_decide_ext. split; congruence.
Qed.

Lemma de_str_enc n name : no_nul name → de_str (enc_dirent n name) = take DIRSIZ name.
Proof.
  intros Hn. unfold de_str, enc_dirent, de_name. rewrite drop_app_length' by (by rewrite length_le_split). unfold strncpy_bytes.
  destruct (DIRSIZ - length name)%nat as [|k] eqn:E; [cbn [replicate]; rewrite app_nil_r; by apply take_while_no_nul, name_no_nul_take|]. cbn [replicate].
  apply take_while_app_stop; [|intros H; by apply H]. apply Forall_forall. intros c Hc ->. by apply (name_no_nul_take name DIRSIZ Hn).
Qed.

Lemma length_enc_dirent n name : length (enc_dirent n name) = 16%nat.
Proof. unfold enc_dirent. by rewrite length_app, length_le_split, length_strncpy_bytes. Qed.

Lemma de_inum_enc n name : 0 ≤ n < 2 ^ 16 → de_inum (enc_dirent n name) = n.
Proof. intros Hn. unfold de_inum, num_at, enc_dirent. rewrite drop_0, take_app_length' by (by rewrite length_le_split). rewrite le_combine_split. by apply Z.mod_small. Qed.

(** * Looking names up *)

Lemma lookup_dents l k : (k < length l / 16)%nat → dents l !! k = Some (take 16 (drop (16 * k) l)) ∧ length (take 16 (drop (16 * k) l)) = 16%nat.
Proof.
  intros Hk. split; [unfold dents; rewrite list_lookup_fmap, lookup_seq_lt by done; done|].
  assert (16 * (length l / 16) ≤ length l)%nat by (apply Nat.Div0.mul_div_le). rewrite length_take, length_drop. lia.
Qed.

Lemma length_dents l : length (dents l) = (length l / 16)%nat.
Proof. unfold dents. by rewrite length_fmap, length_seq. Qed.

(** ** A directory with one more entry *)

Section concat16.
Context {A : Type} (ll : list (list A)) (H16 : Forall (λ y, length y = 16%nat) ll).

Lemma take_concat k : (k ≤ length ll)%nat → take (16 * k) (concat ll) = concat (take k ll).
Proof.
  intros Hk. rewrite <- (take_drop k ll) at 1. rewrite concat_app. apply take_app_length'. rewrite (length_concat 16) by (by apply Forall_take). rewrite length_take. lia.
Qed.

Lemma drop_concat k : drop (16 * k) (concat ll) = concat (drop k ll).
Proof.
  destruct (decide (k ≤ length ll)%nat) as [Hk|Hk].
  - rewrite <- (take_drop k ll) at 1. rewrite concat_app. apply drop_app_length'. rewrite (length_concat 16) by (by apply Forall_take). rewrite length_take. lia.
  - rewrite (drop_ge ll), drop_ge by (rewrite ?(length_concat 16) by done; lia). done.
Qed.

End concat16.

Lemma concat_dents l : (length l `mod` 16 = 0)%nat → concat (dents l) = l.
Proof.
  intros H. unfold dents. assert (∀ k (l : list byte), length l = (16 * k)%nat → concat ((λ j, take 16 (drop (16 * j) l)) <$> seq 0 k) = l) as G.
  { clear. induction k as [|k IH]; intros l Hl; [destruct l; [done|simpl in Hl; lia]|]. cbn [seq fmap list_fmap concat]. rewrite drop_0.
    trans (take 16 l ++ drop 16 l); [f_equal|apply take_drop]. rewrite <- (IH (drop 16 l)) by (rewrite length_drop; lia). f_equal.
    rewrite <- (fmap_S_seq 0 k), <- list_fmap_compose. apply list_fmap_ext. intros i j _. unfold compose.
    rewrite !drop_drop. do 2 f_equal. lia. }
  apply G. pose proof (Nat.Div0.div_mod (length l) 16). lia.
Qed.

Lemma dents_concat ll : Forall (λ y, length y = 16%nat) ll → dents (concat ll) = ll.
Proof.
  intros H. unfold dents. rewrite (length_concat 16) by done. rewrite Nat.mul_comm, Nat.div_mul by lia. apply list_eq. intros k. rewrite list_lookup_fmap. destruct (ll !! k) as [y|] eqn:Hk.
  - rewrite lookup_seq_lt by (by eapply lookup_lt_Some). change (Some (take 16 (drop (16 * k) (concat ll))) = Some y). f_equal. rewrite drop_concat by done. rewrite (drop_S _ _ _ Hk). cbn. rewrite Forall_lookup in H. by rewrite take_app_length' by (symmetry; by eapply H).
  - rewrite lookup_seq_ge; [done|]. by apply lookup_ge_None.
Qed.

Lemma dents_length l : Forall (λ y, length y = 16%nat) (dents l).
Proof. apply Forall_lookup. intros k y Hk. pose proof (lookup_lt_Some _ _ _ Hk) as Hl. rewrite length_dents in Hl. destruct (lookup_dents l k Hl) as [E ?]. congruence. Qed.

Lemma dents_patch l k e : (length l `mod` 16 = 0)%nat → (k ≤ length l / 16)%nat → length e = 16%nat → dents (patch (16 * k) e l) = take k (dents l) ++ e :: drop (S k) (dents l).
Proof.
  intros Hl Hk He. pose proof (dents_length l) as HF. rewrite <- (concat_dents l Hl) at 1. unfold patch. rewrite He, take_concat by (done || by rewrite length_dents).
  replace (16 * k + 16)%nat with (16 * S k)%nat by lia. rewrite drop_concat by done. change (e ++ concat (drop (S k) (dents l))) with (concat (e :: drop (S k) (dents l))). rewrite <- concat_app. apply dents_concat.
  apply Forall_app. split; [by apply Forall_take|]. constructor; [done|by apply Forall_drop].
Qed.

Lemma slot_bound l : (dir_slot l ≤ length l / 16)%nat.
Proof. unfold dir_slot. destruct (list_find _ _) as [[k de]|] eqn:E; [|lia]. apply list_find_Some in E as (E&_). apply lookup_lt_Some in E. rewrite length_dents in E. lia. Qed.

Lemma dents_add name m l : (length l `mod` 16 = 0)%nat → dents (dir_add name m l) = take (dir_slot l) (dents l) ++ enc_dirent m name :: drop (S (dir_slot l)) (dents l).
Proof.
  intros Hl. apply dents_patch; [done|apply slot_bound|apply length_enc_dirent].
Qed.

Lemma find_skip {A} (Q : A → Prop) `{∀ y, Decision (Q y)} (l k : list A) y z : ¬ Q y → ¬ Q z → list_find Q (l ++ y :: k) = list_find Q (l ++ z :: k).
Proof. intros Hy Hz. induction l as [|c l IH]; cbn; [by rewrite !decide_False|by rewrite IH]. Qed.

Lemma find_last {A} (Q : A → Prop) `{∀ y, Decision (Q y)} (l : list A) y : ¬ Q y → list_find Q (l ++ [y]) = list_find Q l.
Proof. intros Hy. induction l as [|c l IH]; cbn; [by rewrite decide_False|by rewrite IH]. Qed.

(** The entry that is replaced, if there is one, was free. *)
Lemma slot_free l : match dents l !! dir_slot l with Some de => de_inum de = 0 | None => dir_slot l = length (dents l) end.
Proof.
  rewrite length_dents. unfold dir_slot. destruct (list_find _ _) as [[k de]|] eqn:E; [apply list_find_Some in E as (->&?&_); done|]. by rewrite lookup_ge_None_2 by (by rewrite length_dents).
Qed.

(** The name is found where it was added, and every other name where it was. *)
Lemma dir_find_add name m l name' : (length l `mod` 16 = 0)%nat → no_nul name → 0 < m < 2 ^ 16 → dir_find name l = None →
  dir_find name' (dir_add name m l) = if decide (take DIRSIZ name' = take DIRSIZ name) then Some (dir_slot l, enc_dirent m name) else dir_find name' l.
Proof.
  intros Hl Hn Hm Hf. unfold dir_find in *. rewrite dents_add by done. apply list_find_None in Hf. pose proof (slot_bound l) as Hb. pose proof (slot_free l) as Hfree.
  assert (length (take (dir_slot l) (dents l)) = dir_slot l) as Hlen by (rewrite length_take, length_dents; lia). assert (matches name' (enc_dirent m name) ↔ take DIRSIZ name' = take DIRSIZ name) as Hmat.
  { unfold matches. rewrite de_inum_enc, de_str_enc by (done || lia). split; [by intros [_ ->]|]. intros ->. split; [lia|done]. }
  case_decide as E.
  - rewrite list_find_app_r.
    + cbn. rewrite decide_True by (by apply Hmat). cbn. by rewrite Hlen.
    + apply list_find_None, Forall_take. eapply Forall_impl; [exact Hf|]. intros de. unfold matches. by rewrite E.
  - destruct (dents l !! dir_slot l) as [de|] eqn:Hde.
    + rewrite (find_skip _ _ _ _ de), <- (drop_S _ _ _ Hde), take_drop; [done|tauto|]. intros [? _]. done.
    + rewrite Hfree at 2. rewrite drop_ge, find_last by (lia || tauto). rewrite Hfree, firstn_all. done.
Qed.

Section lookup.
Context (T : gmap Z ainode) (s : fss) (O : fs_ok T s) (dp : nat) (n : Z) (a : ainode) (Ha : T !! n = Some a).
Context (D : opened (icache s) dp n a) (Ht : a_type a = T_DIR) (H16 : (length (content s a) `mod` 16 = 0)%nat).
Abbreviation l := (content s a).

Lemma read_dirent dev_read k : (k < length l / 16)%nat → readi dev_read dp (sizeof_dirent * Z.of_nat k) sizeof_dirent s = Some (Some (take 16 (drop (16 * k) l)), s).
Proof.
  intros Hk. destruct D as (ip&Hi&Hn&_&_&_&Hd). destruct (size_bound None T ∅ s n a Ha (fo_inv _ _ O)) as [Hs Hl].
  assert (16 * (length l / 16) ≤ length l)%nat as Hle by (apply Nat.Div0.mul_div_le). unfold sizeof_dirent, MAXFILE, BSIZE in *.
  erewrite (readi_run None T ∅ s n a Ha dp ip Hi Hd (fo_held _ _ O)); [|by rewrite Ht|by apply O|lia|lia].
  rewrite decide_True by lia. do 5 f_equal. lia.
Qed.

Lemma size_content : a_size a = Z.of_nat (length l) ∧ length l = (16 * (length l / 16))%nat ∧ Z.of_nat (length l) ≤ 71680.
Proof.
  destruct (size_bound None T ∅ s n a Ha (fo_inv _ _ O)) as [Hs Hl]. pose proof (Nat.Div0.div_mod (length l) 16). unfold MAXFILE, BSIZE in *. lia.
Qed.

(** The entry to find, from entry [k] on. *)
Lemma dirlookup_loop_run dev_read name fuel : no_nul name → ∀ k, (k ≤ length l / 16)%nat → (length l / 16 < k + fuel)%nat →
  dirlookup_loop dev_read fuel dp name (sizeof_dirent * Z.of_nat k) s =
    match list_find (matches name) (drop k (dents l)) with
    | Some (j, de) => (i ← iget (de_inum de); mret (Some (i, sizeof_dirent * Z.of_nat (k + j)))) s
    | None => Some (None, s)
    end.
Proof.
  intros Hnul. destruct size_content as (Hsz&Hdiv&_). pose proof D as (ip&Hi&Hn&_&_&_&Hd). induction fuel as [|fuel IH]; intros k Hk Hf; [lia|].
  cbn [dirlookup_loop]. erewrite bind_run by (by apply read_inode_run). rewrite Hd. cbn [dinode_of d_size]. rewrite Hsz. case_decide as Hlt.
  - assert (k < length l / 16)%nat as Hk' by (unfold sizeof_dirent in *; lia). destruct (lookup_dents l k Hk') as [Hde Hl16]. erewrite bind_run by (by apply read_dirent).
    cbv beta iota. rewrite Hl16. rewrite (decide_False (P := Z.of_nat 16 ≠ sizeof_dirent)) by (unfold sizeof_dirent; lia). rewrite (drop_S _ _ _ Hde).
    replace (sizeof_dirent * Z.of_nat k + sizeof_dirent) with (sizeof_dirent * Z.of_nat (S k)) by (unfold sizeof_dirent; lia).
    cbn [list_find]. set (de := take 16 _) in *.
    rewrite namecmp_spec by done. destruct (decide (de_inum de = 0)) as [Hz|Hz].
    + rewrite IH by lia. rewrite decide_False by (intros [? _]; done). destruct (list_find _ (drop (S k) _)) as [[j e]|]; [|done]. cbn. by replace (k + S j)%nat with (S (k + j)) by lia.
    + case_bool_decide as Hc.
      * rewrite decide_True by done. cbn. by rewrite Nat.add_0_r.
      * rewrite IH by lia. rewrite decide_False by (intros [_ ?]; done). destruct (list_find _ (drop (S k) _)) as [[j e]|]; [|done]. cbn. by replace (k + S j)%nat with (S (k + j)) by lia.
  - assert (k = length l / 16)%nat as -> by (unfold sizeof_dirent in *; lia). rewrite drop_ge by (by rewrite length_dents). done.
Qed.

(** [dirlookup] finds the entry of the name. *)
Lemma dirlookup_run dev_read name : no_nul name →
  dirlookup dev_read dp name s =
    match dir_find name l with
    | Some (k, de) => (i ← iget (de_inum de); mret (Some (i, sizeof_dirent * Z.of_nat k))) s
    | None => Some (None, s)
    end.
Proof.
  intros Hnul. destruct size_content as (Hsz&Hdiv&_). pose proof D as (ip&Hi&Hn&_&_&_&Hd). unfold dirlookup. erewrite bind_run by (by apply read_inode_run). rewrite Hd. cbn [dinode_of d_type d_size].
  rewrite decide_False by (intros H; by apply H). pose proof (dirlookup_loop_run dev_read name (Z.to_nat (a_size a / sizeof_dirent + 1)) Hnul 0) as H. rewrite drop_0 in H. apply H; [lia|].
  rewrite Hsz. unfold sizeof_dirent. change 16 with (Z.of_nat 16). rewrite <- Nat2Z.inj_div. lia.
Qed.

(** [free_entry] is the place for another one. *)
Lemma free_entry_run dev_read fuel : ∀ k, (k ≤ length l / 16)%nat → (length l / 16 < k + fuel)%nat →
  free_entry dev_read fuel dp (sizeof_dirent * Z.of_nat k) s =
    Some (sizeof_dirent * Z.of_nat (match list_find (λ de, de_inum de = 0%Z) (drop k (dents l)) with Some (j, _) => k + j | None => length l / 16 end)%nat, s).
Proof.
  destruct size_content as (Hsz&Hdiv&_). pose proof D as (ip&Hi&Hn&_&_&_&Hd). induction fuel as [|fuel IH]; intros k Hk Hf; [lia|].
  cbn [free_entry]. erewrite bind_run by (by apply read_inode_run). rewrite Hd. cbn [dinode_of d_size]. rewrite Hsz. case_decide as Hlt.
  - assert (k < length l / 16)%nat as Hk' by (unfold sizeof_dirent in *; lia). destruct (lookup_dents l k Hk') as [Hde Hl16]. erewrite bind_run by (by apply read_dirent).
    cbv beta iota. rewrite Hl16. rewrite (decide_False (P := Z.of_nat 16 ≠ sizeof_dirent)) by (unfold sizeof_dirent; lia). rewrite (drop_S _ _ _ Hde).
    replace (sizeof_dirent * Z.of_nat k + sizeof_dirent) with (sizeof_dirent * Z.of_nat (S k)) by (unfold sizeof_dirent; lia). cbn [list_find].
    destruct (decide (de_inum _ = 0)) as [Hz|Hz]; [by rewrite Nat.add_0_r|]. rewrite IH by lia. destruct (list_find _ (drop (S k) _)) as [[j e]|]; [|done]. cbn. by replace (k + S j)%nat with (S (k + j)) by lia.
  - assert (k = length l / 16)%nat as -> by (unfold sizeof_dirent in *; lia). rewrite drop_ge by (by rewrite length_dents). done.
Qed.

End lookup.

(** * Adding names *)

Section link.
Context (T : gmap Z ainode) (s : fss) (O : fs_ok T s) (dp : nat) (n : Z) (a : ainode) (Ha : T !! n = Some a).
Context (D : opened (icache s) dp n a) (Ht : a_type a = T_DIR) (H16 : (length (content s a) `mod` 16 = 0)%nat).
Context (dev_read : Z → option (Z → option (list byte))) (dev_write : Z → option (list byte → Z)) (name : cstr) (Hnul : no_nul name).
Abbreviation l := (content s a).
Abbreviation C := (icache s).

(** What [dirlink] leaves: the directory with one more entry. *)
Record linked (m : Z) (a' : ainode) (s' : fss) : Prop := {
  lk_ok : fs_ok (<[n := a']> T) s';
  lk_files : files (<[n := a']> T) s' = <[n := mk_afile (a_type a) (a_major a) (a_minor a) (a_nlink a) (dir_add name m l)]> (files T s);
  lk_cache : evolves C (icache s') (λ _, 0) nobody;
  lk_opened : opened (icache s') dp n a';
  lk_frame : frame ({[IBLOCK n (sb s)]} ∪ touched (sb s) a' (16 * Z.of_nat (dir_slot l)) (16 * Z.of_nat (dir_slot l) + 16)) s s';
  lk_room : room T ∅ (sb s) - 2 ≤ room (<[n := a']> T) ∅ (sb s);
  lk_meta : a_empty a' = a_empty a;
}.

Lemma dirlink_spec m :
  dir_find name l = None → outstanding s ≠ 0%nat → 16 * Z.of_nat (dir_slot l) + 16 ≤ MAXFILE * BSIZE → 2 ≤ room T ∅ (sb s) →
  wp (dirlink dev_read dev_write dp name m) (λ r s', r = 0 ∧ ∃ a', linked m a' s') s.
Proof.
  intros Hf Hop Hmax Hroom. destruct (size_content T s O n a Ha H16) as (Hsz&Hdiv&_). pose proof (slot_bound l) as Hslot. destruct (fi_table _ _ _ _ (fo_inv _ _ O) n a Ha) as [_ Hok]. pose proof (ao_size _ _ Hok) as Hs2.
  unfold dirlink. apply wp_bind. eapply wp_intro; [rewrite (dirlookup_run T s O dp n a Ha D Ht H16 dev_read name Hnul), Hf; done|]. cbv beta iota.
  pose proof D as (ip&Hi&_&_&_&_&Hd). apply wp_bind. eapply wp_intro; [by apply read_inode_run|]. cbn beta. apply wp_bind.
  eapply wp_intro; [rewrite Hd; apply (free_entry_run T s O dp n a Ha D Ht H16 dev_read _ 0); [apply Nat.le_0_l|]; cbn [dinode_of d_size]; rewrite Hsz; unfold sizeof_dirent; change 16 with (Z.of_nat 16); rewrite <- Nat2Z.inj_div; lia|].
  cbn beta. rewrite drop_0. change (match list_find _ (dents l) with Some _ => _ | None => _ end) with (dir_slot l). apply wp_bind.
  eapply wp_mono; [apply (writei_ok T s O dp n a D Ha dev_write (enc_dirent m name) (sizeof_dirent * Z.of_nat (dir_slot l))); rewrite ?length_enc_dirent; unfold sizeof_dirent in *|].
  - by rewrite Ht.
  - done.
  - lia.
  - lia.
  - assert (nblk (16 * Z.of_nat (dir_slot l) + Z.of_nat 16) ≤ Z.of_nat (length (a_blocks a)) + 1) by (unfold nblk, BSIZE in *; Z.to_euclidean_division_equations; lia). unfold need. repeat case_decide; lia.
  - intros r s' (->&a'&ip'&Hi'&St&O'&E'&D'). cbn beta. rewrite length_enc_dirent in *. rewrite (decide_False (P := Z.of_nat 16 ≠ sizeof_dirent)) by (unfold sizeof_dirent; lia). apply wp_ret. split; [done|]. exists a'. destruct St as [S1 S2 S3 S4 S5 S6 S7 S8 S9].
    split; try done.
    + rewrite S2. do 2 f_equal. unfold dir_add, sizeof_dirent. f_equal. lia.
    + rewrite length_enc_dirent in S4. exact S4.
    + rewrite length_enc_dirent in S5. unfold sizeof_dirent in S5. assert (nblk (16 * Z.of_nat (dir_slot l) + Z.of_nat 16) ≤ Z.of_nat (length (a_blocks a)) + 1) by (unfold nblk, BSIZE in *; Z.to_euclidean_division_equations; lia). revert S5. case_decide; lia.
Qed.

End link.

(** Path names of xv6: [namex] follows a path through the directories and
    returns one reference, or none. *)

(** * Paths *)

Definition names (path : cstr) : list cstr := take DIRSIZ <$> strtok_all SLASH path.

(** The tree as the path sees it: the inode the names lead to, or the directory
    that should have the last of them. *)
Fixpoint walk (V : gmap Z afile) (parent : bool) (n : Z) (p : list cstr) : option (Z * cstr) :=
  match p with
  | [] => if parent then None else Some (n, [])
  | name :: rest =>
      f ← V !! n;
      if decide (f_type f = T_DIR) then
        if parent && bool_decide (rest = []) then Some (n, name)
        else '(_, de) ← dir_find name (f_data f); walk V parent (de_inum de) rest
      else None
  end.

(** Directories hold whole entries, which name inodes that are in use. *)
Definition dirs_ok (V : gmap Z afile) : Prop :=
  ∀ d f, V !! d = Some f → f_type f = T_DIR → (length (f_data f) `mod` 16 = 0)%nat ∧
    ∀ k de, dents (f_data f) !! k = Some de → de_inum de ≠ 0 → ∃ g, V !! de_inum de = Some g ∧ 0 < f_nlink g.

Lemma strtok_skip p : strtok_all SLASH (drop_while (.= SLASH) p) = strtok_all SLASH p.
Proof. induction p as [|c p IH]; [done|]. cbn [drop_while]. case_decide as E; [|done]. by rewrite IH, E, strtok_all_delim. Qed.

(** A path that does not start with a slash. *)
Lemma strtok_head c p : c ≠ SLASH → strtok_all SLASH (c :: p) = take_while (.≠ SLASH) (c :: p) :: strtok_all SLASH (drop_while (.≠ SLASH) (c :: p)).
Proof.
  intros Hc. set (t := take_while (.≠ SLASH) (c :: p)). set (q := drop_while (.≠ SLASH) (c :: p)). assert (t ++ q = c :: p) as <- by apply take_drop_while.
  assert (t ≠ []) as Ht by (unfold t; cbn; by rewrite decide_True). assert (Forall (.≠ SLASH) t) as Hf by apply take_while_all. destruct q as [|d q'] eqn:Eq.
  - rewrite app_nil_r. by apply strtok_all_single.
  - pose proof (drop_while_head (.≠ SLASH) (c :: p) d q' Eq) as Hd. destruct (decide (d = SLASH)) as [->|]; [|by destruct Hd]. by rewrite strtok_all_cons, strtok_all_delim.
Qed.

Lemma skipelem_spec path :
  match skipelem path with
  | None => strtok_all SLASH path = []
  | Some (name, p) => ∃ t r, strtok_all SLASH path = t :: r ∧ name = take DIRSIZ t ∧ strtok_all SLASH p = r ∧ (p = [] ↔ r = []) ∧ (length p < length path)%nat ∧
      (no_nul path → no_nul name ∧ no_nul p)
  end.
Proof.
  unfold skipelem. rewrite <- (strtok_skip path). assert (∀ (Q : byte → Prop) `{∀ c, Decision (Q c)} l, (length (drop_while Q l) ≤ length l)%nat ∧ (no_nul l → no_nul (take_while Q l) ∧ no_nul (drop_while Q l))) as Hd.
  { intros Q HQ l. pose proof (take_drop_while Q l) as El. split; [apply (f_equal length) in El; rewrite length_app in El; lia|]. intros Hl. rewrite <- El in Hl. by apply no_nul_app. }
  destruct (Hd (.= SLASH) _ path) as [Hlen Hnul]. destruct (drop_while (.= SLASH) path) as [|c p] eqn:E; [done|]. pose proof (drop_while_head (.= SLASH) path c p E) as Hc. rewrite strtok_head by done.
  destruct (Hd (.≠ SLASH) _ (c :: p)) as [_ Hnul2]. set (t := take_while _ (c :: p)) in *. set (q := drop_while _ (c :: p)) in *. destruct (Hd (.= SLASH) _ q) as [Hlen3 Hnul3].
  exists t, (strtok_all SLASH q). split_and!; [done|done|apply strtok_skip| | |].
  - rewrite <- (strtok_skip q). destruct (drop_while (.= SLASH) q) as [|d z] eqn:Ez; [done|]. split; [done|]. by rewrite strtok_head by (by apply (drop_while_head (.= SLASH) q d z Ez)).
  - assert (length q < length (c :: p))%nat; [|lia]. unfold q. cbn [drop_while]. rewrite decide_True by done. pose proof (Hd (.≠ SLASH) _ p) as [? _]. cbn [length]. lia.
  - intros Hn. destruct (Hnul Hn) as [_ Hn2]. destruct (Hnul2 Hn2) as [Hn3 Hn4]. split; [by apply name_no_nul_take|]. by apply Hnul3.
Qed.

(** * Following a path *)

Lemma lookup_files T s n a : T !! n = Some a → files T s !! n = Some (file_of s a).
Proof. intros Ha. unfold files. by rewrite lookup_fmap, Ha. Qed.

Lemma lookup_files_inv T s n f : files T s !! n = Some f → ∃ a, T !! n = Some a ∧ f = file_of s a.
Proof. unfold files. rewrite lookup_fmap. destruct (T !! n) as [a|]; [|done]. intros [= <-]. eauto. Qed.

Section walk.
Context (T : gmap Z ainode) (s : fss) (O : fs_ok T s) (K : dirs_ok (files T s)) (U : ∀ j, is_locked (icache s) j = false).
Context (Hroom : (size (inuse (icache s)) + 2 ≤ length (icache s))%nat) (dev_read : Z → option (Z → option (list byte))) (parent : bool).
Abbreviation C0 := (icache s).
Abbreviation V := (files T s).

(** The state of the walk: one reference to [n] more, nothing locked. *)
Record walking (C : list inode) (i : nat) (n : Z) : Prop := {
  wk_ok : fs_ok T (set_cache C s);
  wk_cache : evolves C0 C (one n) nobody;
  wk_handle : handle C i n;
  wk_live : ∃ a, T !! n = Some a ∧ (0 < a_nlink a ∨ 0 < refs C0 n);
}.

(** The end of the walk. *)
Definition walked (w : option (Z * cstr)) (r : option (nat * cstr)) (C : list inode) : Prop :=
  match r, w with
  | Some (i, name), Some (n, name') => name = name' ∧ walking C i n
  | None, None => fs_ok T (set_cache C s) ∧ evolves C0 C (λ _, 0) nobody
  | _, _ => False
  end.

Lemma walking_slot C i n : walking C i n → (size (inuse C) < length C)%nat.
Proof.
  intros [O1 E _ _]. rewrite (ev_len _ _ _ _ E). assert (inuse C ⊆ {[n]} ∪ inuse C0) as Hsub.
  { intros m. rewrite elem_of_union, elem_of_singleton, !elem_inuse by (apply O || apply O1). rewrite (ev_refs _ _ _ _ E). unfold one. case_decide; [by left|right; lia]. }
  apply subseteq_size in Hsub. pose proof (size_union_alt {[n]} (inuse C0)) as Hs. assert (size (inuse C0 ∖ {[n]}) ≤ size (inuse C0))%nat by (apply subseteq_size; set_solver). rewrite size_singleton in Hs. lia.
Qed.

(** Dropping the reference of the walk. *)
Lemma walking_drop C C1 i n : walking C i n → fs_ok T (set_cache C1 s) → evolves C C1 (λ _, 0) (only i true) → loaded C1 i n →
  ∃ C', iunlockput i (set_cache C1 s) = Some ((), set_cache C' s) ∧ fs_ok T (set_cache C' s) ∧ evolves C0 C' (λ _, 0) nobody.
Proof.
  intros [OC E _ (a&Ha&Hl)] O1 E1 L1. assert (is_locked C1 i = true) as Hlk by (rewrite (ev_lock _ _ _ _ E1); unfold only; by rewrite decide_True).
  assert (∀ m, refs C1 m = refs C0 m + one n m) as Hr1 by (intros m; rewrite (ev_refs _ _ _ _ E1), (ev_refs _ _ _ _ E); lia).
  destruct (iunlockput_keep T (set_cache C1 s) O1 i n a) as (C2&R2&O2&E2); [by eapply opened_intro|done| |].
  { cbn [set_cache icache]. rewrite Hr1. unfold one. rewrite decide_True by done. destruct Hl; [left; lia|right; lia]. }
  exists C2. split_and!; [done|done|]. assert (∀ m, 0 ≤ one n m) as Hone by (intros m; unfold one; case_decide; lia).
  eapply evolves_ext; [eapply evolves_trans; [apply O|exact E|eapply evolves_trans; [apply OC|exact E1|exact E2|]|]|..].
  - intros m Hm _. cbn [set_cache icache] in *. rewrite (ev_refs _ _ _ _ E1). lia.
  - intros m Hm _. rewrite (ev_refs _ _ _ _ E). pose proof (Hone m). lia.
  - intros m. cbn beta. lia.
  - intros j. rewrite U. unfold then_, only, nobody. case_decide; done.
Qed.

(** One step to the entry of a name. *)
Lemma walking_step C C1 i n name k de a : walking C i n → fs_ok T (set_cache C1 s) → evolves C C1 (λ _, 0) (only i true) → loaded C1 i n → T !! n = Some a → a_type a = T_DIR →
  dir_find name (content s a) = Some (k, de) →
  ∃ j C2 C3, iget (de_inum de) (set_cache C1 s) = Some (j, set_cache C2 s) ∧ iunlockput i (set_cache C2 s) = Some ((), set_cache C3 s) ∧ walking C3 j (de_inum de).
Proof.
  intros Wk O1 E1 L1 Ha Ht Hf. pose proof (walking_slot C i n Wk) as Hslot. destruct Wk as [OC E Hh (a'&Ha'&Hl)]. rewrite Ha in Ha'. injection Ha' as <-. set (m := de_inum de).
  apply list_find_Some in Hf as (Hde&[Hz _]&_). destruct (K n _ (lookup_files T s n a Ha) Ht) as [_ Hk]. destruct (Hk k de Hde Hz) as (g&Hg&Hgn). apply lookup_files_inv in Hg as (b&Hb&->). fold m in Hb.
  assert (inuse C1 = inuse C) as Eu by (apply set_eq; intros q; rewrite !elem_inuse by (apply OC || apply O1); by rewrite (ev_refs _ _ _ _ E1), Z.add_0_r).
  destruct (iget_spec T (set_cache C1 s) O1 m) as (j&C2&R2&O2&E2&H2); [by exists b|right; cbn [set_cache icache]; rewrite Eu, (ev_len _ _ _ _ E1); done|]. cbn [set_cache icache] in E2.
  assert (∀ q, refs C2 q = refs C0 q + one n q + one m q) as Hr2 by (intros q; rewrite (ev_refs _ _ _ _ E2), (ev_refs _ _ _ _ E1), (ev_refs _ _ _ _ E); lia).
  assert (∀ p q, 0 ≤ one p q) as Hone by (intros p q; unfold one; case_decide; lia). assert (one n n = 1 ∧ one m m = 1) as [Hn1 Hm1] by (unfold one; by rewrite !decide_True).
  assert (∀ q, 0 ≤ refs C0 q) as Hr0 by (intros q; apply refs_nonneg). pose proof (Hr0 n). pose proof (Hr0 m). pose proof (Hone m n). pose proof (Hone n m).
  assert (loaded C2 i n) as L2 by (apply (ev_loaded _ _ _ _ E2); [done|rewrite Hr2; lia]). assert (is_locked C2 i = true) as Hlk by (rewrite (ev_lock _ _ _ _ E2); cbn; rewrite (ev_lock _ _ _ _ E1); unfold only; by rewrite decide_True).
  destruct (iunlockput_keep T (set_cache C2 s) O2 i n a) as (C3&R3&O3&E3); [by eapply opened_intro|done|cbn [set_cache icache]; rewrite Hr2; destruct Hl; [left; lia|right; lia]|]. cbn [set_cache icache] in E3.
  exists j, C2, C3. split_and!; [done|done|]. assert (∀ q, refs C3 q = refs C0 q + one m q) as Hr3 by (intros q; rewrite (ev_refs _ _ _ _ E3), Hr2; lia). split; [done| | |].
  - eapply evolves_ext; [eapply evolves_trans; [apply O|exact E|eapply evolves_trans; [apply OC|exact E1|eapply evolves_trans; [apply O1|exact E2|exact E3|]|]|]|..].
    + intros q Hq _. rewrite (ev_refs _ _ _ _ E2). pose proof (Hone m q). cbn [set_cache icache] in Hq. lia.
    + intros q Hq _. rewrite (ev_refs _ _ _ _ E1). cbn [set_cache icache] in Hq. lia.
    + intros q Hq _. rewrite (ev_refs _ _ _ _ E). pose proof (Hone n q). lia.
    + intros q. cbn beta. lia.
    + intros q. rewrite U. unfold then_, only, nobody. case_decide; done.
  - apply (ev_handle _ _ _ _ E3); [done|rewrite Hr3; lia].
  - exists b. split; [done|]. left. done.
Qed.

(** The path has come to its end. *)
Lemma walking_end C i n : walking C i n →
  ∃ r C', (if parent then iput i;; mret None else mret (Some (i, []))) (set_cache C s) = Some (r, set_cache C' s) ∧ walked (walk V parent n []) r C'.
Proof.
  intros Wk. cbn [walk]. destruct parent; [|exists (Some (i, [])), C; split; [done|]; split; done]. destruct Wk as [OC E Hh (a&Ha&Hl)]. assert (one n n = 1) as H1 by (unfold one; by rewrite decide_True).
  pose proof (refs_nonneg C0 n).
  destruct (iput_linked T (set_cache C s) OC i n a) as (C'&R&O'&E'); [done|cbn [set_cache icache]; rewrite (ev_lock _ _ _ _ E); apply U|done|cbn [set_cache icache]; rewrite (ev_refs _ _ _ _ E); destruct Hl; [left; lia|right; lia]|].
  exists None, C'. rewrite (bind_run _ _ _ _ _ R). split; [done|]. split; [done|]. eapply evolves_ext; [eapply evolves_trans; [apply O|exact E|exact E'|]|intros m; cbn beta; lia|done].
  intros m Hm _. rewrite (ev_refs _ _ _ _ E). unfold one. case_decide; lia.
Qed.

Lemma namex_loop_spec fuel : ∀ path C i n, (length path ≤ fuel)%nat → no_nul path → walking C i n →
  ∃ r C', namex_loop dev_read fuel i path parent (set_cache C s) = Some (r, set_cache C' s) ∧ walked (walk V parent n (names path)) r C'.
Proof.
  induction fuel as [|fuel IH]; intros path C i n Hf Hnul Wk; cbn [namex_loop]; pose proof (skipelem_spec path) as Hs; destruct (skipelem path) as [[name p]|] eqn:Es.
  1: destruct Hs as (t&r&_&_&_&_&Hlen&_); lia.
  1, 3: unfold names; rewrite Hs; by apply walking_end.
  destruct Hs as (t&r&Et&->&Er&Hnil&Hlen&Hn). destruct (Hn Hnul) as [Hnn Hnp]. clear Hn. unfold names. rewrite Et, fmap_cons. cbn [walk].
  rewrite (bool_decide_ext (take DIRSIZ <$> r = []) (p = [])) by (rewrite Hnil; by destruct r).
  destruct (ilock_spec T (set_cache C s) (wk_ok _ _ _ Wk) i n (wk_handle _ _ _ Wk)) as (C1&a&Ha&R1&O1&E1&D1); [cbn [set_cache icache]; rewrite (ev_lock _ _ _ _ (wk_cache _ _ _ Wk)); apply U|].
  cbn [set_cache icache] in *. destruct (opened_loaded _ _ _ _ D1) as [L1 _]. pose proof D1 as (ip&Hi&_&_&_&_&Hd). rewrite (bind_run _ _ _ _ _ R1). rewrite (lookup_files T s n a Ha). cbn [mbind option_bind file_of f_type f_data].
  rewrite (bind_run _ _ _ _ _ (read_inode_run i (set_cache C1 s) ip Hi)). rewrite Hd. cbn [dinode_of d_type]. destruct (decide (a_type a = T_DIR)) as [Ht|Ht].
  - rewrite (decide_False (P := a_type a ≠ T_DIR)) by (intros H; by apply H). destruct (parent && bool_decide (p = [])) eqn:Ep.
    + destruct (iunlock_spec T (set_cache C1 s) O1 i n a D1) as (C2&R2&O2&E2&H2&_). cbn [set_cache icache] in *. exists (Some (i, take DIRSIZ t)), C2. rewrite (bind_run _ _ _ _ _ R2). split; [done|]. split; [done|].
      destruct Wk as [OC E Hh Hl]. split; [done| |done|done]. eapply evolves_ext; [eapply evolves_trans; [apply O|exact E|eapply evolves_trans; [apply OC|exact E1|exact E2|]|]|..].
      * intros m Hm _. rewrite (ev_refs _ _ _ _ E1). cbn [set_cache icache] in Hm. lia.
      * intros m Hm _. rewrite (ev_refs _ _ _ _ E). unfold one. case_decide; lia.
      * intros m. cbn beta. lia.
      * intros j. rewrite U. unfold then_, only, nobody. case_decide; done.
    + destruct (K n _ (lookup_files T s n a Ha) Ht) as [H16 _]. pose proof (dirlookup_run T (set_cache C1 s) O1 i n a Ha D1 Ht H16 dev_read _ Hnn) as Hlook. change (content (set_cache C1 s) a) with (content s a) in Hlook.
      destruct (dir_find (take DIRSIZ t) (content s a)) as [[k de]|] eqn:Hfind.
      * destruct (walking_step C C1 i n _ k de a Wk O1 E1 L1 Ha Ht Hfind) as (j&C2&C3&R2&R3&Wk3). rewrite (bind_run _ _ _ _ _ R2) in Hlook. rewrite (bind_run _ _ _ _ _ Hlook). cbv beta iota. rewrite (bind_run _ _ _ _ _ R3).
        cbn [mbind option_bind]. destruct (IH p C3 j (de_inum de)) as (r'&C'&Rr&Hw); [lia|done|done|]. exists r', C'. split; [done|]. unfold names in Hw. rewrite Er in Hw. done.
      * rewrite (bind_run _ _ _ _ _ Hlook). cbv beta iota. destruct (walking_drop C C1 i n Wk O1 E1 L1) as (C'&R'&O'&E'). exists None, C'. rewrite (bind_run _ _ _ _ _ R'). done.
  - rewrite decide_True by done. destruct (walking_drop C C1 i n Wk O1 E1 L1) as (C'&R'&O'&E'). exists None, C'. rewrite (bind_run _ _ _ _ _ R'). done.
Qed.

(** [namex] starts at the root or in the directory of the process. *)
Lemma namex_spec cwd c path f :
  no_nul path → handle C0 cwd c → V !! ROOTINO = Some f → 0 < f_nlink f →
  ∃ r C', namex dev_read cwd path parent s = Some (r, set_cache C' s) ∧
    walked (walk V parent (if decide (head path = Some SLASH) then ROOTINO else c) (names path)) r C'.
Proof.
  intros Hnul Hcwd Hroot Hfn. unfold namex. apply lookup_files_inv in Hroot as (a&Ha&->). case_decide as Hs.
  - destruct (iget_spec T s O ROOTINO) as (i&C1&R1&O1&E1&H1); [by exists a|right; lia|]. rewrite (bind_run _ _ _ _ _ R1). apply namex_loop_spec; [lia|done|].
    split; [done|done|done|]. exists a. split; [done|by left].
  - destruct (idup_spec T s O cwd c Hcwd) as (C1&R1&O1&E1&H1). rewrite (bind_run _ _ _ _ _ R1). apply namex_loop_spec; [lia|done|]. split; [done|done|done|].
    destruct Hcwd as (ip&Hi&<-&Hr). destruct (fo_copies _ _ O cwd ip Hi Hr) as (b&Hb&_). exists b. split; [done|right]. by rewrite (refs_entry _ (fo_wf _ _ O) cwd ip Hi Hr).
Qed.

End walk.
