(* ===== verification/XvFsCalls.v ===== *)
(** The system calls of xv6 on files and directories (sysfile.c) and on the
    inodes of open files (file.c), as computations on the file system. Paths are
    the strings that the system call fetched, the current directory of the
    process is an entry of the inode cache. *)

From stdpp Require Import base option list numbers gmap sets.
From coqutil Require Import Datatypes.RecordSettersUsingExistingGetters.
From Stdlib Require Import Strings.Byte ZArith Lia.
From S2P Require Import Prelude CString XvFs.
Local Open Scope Z_scope.

Definition MAXOPBLOCKS : Z := 10.

Definition O_RDONLY : Z := 0.
Definition O_WRONLY : Z := 1.
Definition O_RDWR : Z := 2.
Definition O_CREATE : Z := 512.

Section calls.
Context (dev_read : Z → option (Z → option (list byte))) (dev_write : Z → option (list byte → Z)).

(** * Open files *)

(** A file that is open on an inode. *)
Record ofile := mk_ofile { o_ip : nat; o_off : Z; o_readable : bool; o_writable : bool }.

Definition filestat (f : ofile) : M stat := ilock (o_ip f);; st ← stati (o_ip f); iunlock (o_ip f);; mret st.

(** [fileread]: the bytes, and the file with its offset. *)
Definition fileread (f : ofile) (n : Z) : M (option (list byte) * ofile) :=
  if negb (o_readable f) then mret (None, f)
  else
    ilock (o_ip f);;
    r ← readi dev_read (o_ip f) (o_off f) (u32 n);
    let f := match r with Some l => { f with o_off ::= λ off, u32 (off + Z.of_nat (length l)) } | None => f end in
    iunlock (o_ip f);;
    mret (r, f).

Definition max_write : Z := (MAXOPBLOCKS - 1 - 1 - 2) / 2 * 512.

(** A turn of the loop of [filewrite]: a transaction. *)
Definition write_chunk (f : ofile) (src : list byte) : M (Z * ofile) :=
  begin_op;;
  ilock (o_ip f);;
  r ← writei dev_write (o_ip f) src (o_off f);
  let f := if decide (0 < r) then { f with o_off ::= λ off, u32 (off + r) } else f in
  iunlock (o_ip f);;
  end_op;;
  mret (r, f).

(** The loop with the bytes left; the result says whether all were written. *)
Fixpoint filewrite_loop (fuel : nat) (f : ofile) (src : list byte) : M (bool * ofile) :=
  match src with
  | [] => mret (true, f)
  | _ =>
      match fuel with
      | O => fault
      | S fuel =>
          let n1 := Z.min (Z.of_nat (length src)) max_write in
          '(r, f) ← write_chunk f (take (Z.to_nat n1) src);
          if decide (r < 0) then mret (false, f)
          else if decide (r ≠ n1) then fault
          else filewrite_loop fuel f (drop (Z.to_nat r) src)
      end
  end.
Definition filewrite (f : ofile) (src : list byte) : M (Z * ofile) :=
  if negb (o_writable f) then mret (-1, f)
  else
    '(all, f) ← filewrite_loop (length src) f src;
    mret (if all : bool then Z.of_nat (length src) else -1, f).

(** The part of [fileclose] for an inode. *)
Definition close_inode (i : nat) : M () := begin_op;; iput i;; end_op.

(** * Links *)

Definition add_link (k : Z) : dinode → dinode := λ d, { d with d_nlink ::= λ c, s16 (c + k) }.

Section cwd.
Context (cwd : nat).

Definition link_bad (i : nat) : M Z :=
  ilock i;;
  upd_din i (add_link (-1));;
  iupdate i;;
  iunlockput i;;
  end_op;;
  mret (-1).

Definition sys_link (old new : cstr) : M Z :=
  begin_op;;
  r ← namei dev_read cwd old;
  match r with
  | None => end_op;; mret (-1)
  | Some i =>
      ilock i;;
      ip ← read_inode i;
      if decide (d_type (din ip) = T_DIR) then iunlockput i;; end_op;; mret (-1)
      else
        upd_din i (add_link 1);;
        iupdate i;;
        iunlock i;;
        p ← nameiparent dev_read cwd new;
        match p with
        | None => link_bad i
        | Some (dp, name) =>
            ilock dp;;
            r ← dirlink dev_read dev_write dp name (inum ip);
            if decide (r < 0) then iunlockput dp;; link_bad i
            else
              iunlockput dp;;
              iput i;;
              end_op;;
              mret 0
        end
  end.

(** The loop of [isdirempty] from offset [off] on. *)
Fixpoint isdirempty_loop (fuel : nat) (dp : nat) (off : Z) : M bool :=
  ip ← read_inode dp;
  if decide (off < d_size (din ip)) then
    match fuel with
    | O => fault
    | S fuel =>
        r ← readi dev_read dp off sizeof_dirent;
        match r with
        | None => fault
        | Some de =>
            if decide (Z.of_nat (length de) ≠ sizeof_dirent) then fault
            else if decide (de_inum de ≠ 0) then mret false
            else isdirempty_loop fuel dp (off + sizeof_dirent)
        end
    end
  else mret true.
Definition isdirempty (dp : nat) : M bool :=
  ip ← read_inode dp;
  isdirempty_loop (Z.to_nat (d_size (din ip) / sizeof_dirent + 1)) dp (2 * sizeof_dirent).

Definition unlink_bad (dp : nat) : M Z := iunlockput dp;; end_op;; mret (-1).

Definition sys_unlink (path : cstr) : M Z :=
  begin_op;;
  r ← nameiparent dev_read cwd path;
  match r with
  | None => end_op;; mret (-1)
  | Some (dp, name) =>
      ilock dp;;
      if namecmp name (cs ".") || namecmp name (cs "..") then unlink_bad dp
      else
        r ← dirlookup dev_read dp name;
        match r with
        | None => unlink_bad dp
        | Some (i, off) =>
            ilock i;;
            ip ← read_inode i;
            if decide (d_nlink (din ip) < 1) then fault
            else
              empty ← (if decide (d_type (din ip) = T_DIR) then isdirempty i else mret true);
              if negb empty then iunlockput i;; unlink_bad dp
              else
                r ← writei dev_write dp (replicate (Z.to_nat sizeof_dirent) NUL) off;
                if decide (r ≠ sizeof_dirent) then fault
                else
                  (if decide (d_type (din ip) = T_DIR) then upd_din dp (add_link (-1));; iupdate dp else mret ());;
                  iunlockput dp;;
                  upd_din i (add_link (-1));;
                  iupdate i;;
                  iunlockput i;;
                  end_op;;
                  mret 0
        end
  end.

(** * Creation *)

(** The entries of a new directory. *)
Definition create_dots (i dp : nat) : M () :=
  upd_din dp (add_link 1);;
  iupdate dp;;
  ip ← read_inode i;
  pp ← read_inode dp;
  r ← dirlink dev_read dev_write i (cs ".") (inum ip);
  if decide (r < 0) then fault
  else
    r ← dirlink dev_read dev_write i (cs "..") (inum pp);
    if decide (r < 0) then fault else mret ().

Definition create (path : cstr) (type major minor : Z) : M (option nat) :=
  r ← nameiparent dev_read cwd path;
  match r with
  | None => mret None
  | Some (dp, name) =>
      ilock dp;;
      r ← dirlookup dev_read dp name;
      match r with
      | Some (i, _) =>
          iunlockput dp;;
          ilock i;;
          ip ← read_inode i;
          if decide (type = T_FILE ∧ d_type (din ip) = T_FILE) then mret (Some i)
          else iunlockput i;; mret None
      | None =>
          i ← ialloc type;
          ilock i;;
          upd_din i (λ d, { d with d_major := s16 major; d_minor := s16 minor; d_nlink := 1 });;
          iupdate i;;
          (if decide (type = T_DIR) then create_dots i dp else mret ());;
          ip ← read_inode i;
          r ← dirlink dev_read dev_write dp name (inum ip);
          if decide (r < 0) then fault
          else
            iunlockput dp;;
            mret (Some i)
      end
  end.

(** [sys_open]; [fd] is the descriptor that the file table and the process have
    free, if they have one. *)
Definition sys_open (path : cstr) (omode : Z) (fd : option Z) : M (option (Z * ofile)) :=
  begin_op;;
  r ← (if decide (Z.land omode O_CREATE ≠ 0) then create path T_FILE 0 0
       else
         r ← namei dev_read cwd path;
         match r with
         | None => mret None
         | Some i =>
             ilock i;;
             ip ← read_inode i;
             if decide (d_type (din ip) = T_DIR ∧ omode ≠ O_RDONLY) then iunlockput i;; mret None
             else mret (Some i)
         end);
  match r, fd with
  | None, _ => end_op;; mret None
  | Some i, None => iunlockput i;; end_op;; mret None
  | Some i, Some fd =>
      iunlock i;;
      end_op;;
      mret (Some (fd, mk_ofile i 0 (bool_decide (Z.land omode O_WRONLY = 0))
        (bool_decide (Z.land omode O_WRONLY ≠ 0) || bool_decide (Z.land omode O_RDWR ≠ 0))))
  end.

Definition sys_mkdir (path : cstr) : M Z :=
  begin_op;;
  r ← create path T_DIR 0 0;
  match r with
  | None => end_op;; mret (-1)
  | Some i => iunlockput i;; end_op;; mret 0
  end.

Definition sys_mknod (path : cstr) (major minor : Z) : M Z :=
  begin_op;;
  r ← create path T_DEV major minor;
  match r with
  | None => end_op;; mret (-1)
  | Some i => iunlockput i;; end_op;; mret 0
  end.

(** [sys_chdir]: the result and the new current directory. *)
Definition sys_chdir (path : cstr) : M (Z * nat) :=
  begin_op;;
  r ← namei dev_read cwd path;
  match r with
  | None => end_op;; mret (-1, cwd)
  | Some i =>
      ilock i;;
      ip ← read_inode i;
      if decide (d_type (din ip) ≠ T_DIR) then iunlockput i;; end_op;; mret (-1, cwd)
      else
        iunlock i;;
        iput cwd;;
        end_op;;
        mret (0, i)
  end.

End cwd.
End calls.
