(* ===== verification/XvFsRw.v ===== *)
(** Reading and writing open files of xv6: [fileread] gives the bytes at the
    offset, [filewrite] stores its bytes in transactions that the log holds. *)

From stdpp Require Import base option list numbers gmap sets.
From coqutil Require Import Datatypes.RecordSettersUsingExistingGetters.
From Stdlib Require Import Strings.Byte ZArith Lia.
From S2P Require Import Prelude CString XvFs XvFsInv XvFsInode XvFsIo XvFsCache XvFsCalls.
Local Open Scope Z_scope.

(** * Transactions *)

Definition with_log (o : nat) (l : gset Z) (s : fss) : fss := mk_fss (sb s) (disk s) (held s) o l (icache s).

Lemma ok_log T s o l : fs_ok T s → fs_ok T (with_log o l s).
Proof. intros [[I1 I2 I3 I4 I5 I6 I7 I8 I9] O2 O3 O4]. split; try done. Qed.

Lemma begin_run s : begin_op s = Some ((), with_log (S (outstanding s)) (if decide (outstanding s = 0%nat) then ∅ else logged s) s).
Proof. done. Qed.
Lemma end_run s : end_op s = Some ((), with_log (Nat.pred (outstanding s)) (logged s) s).
Proof. done. Qed.

Lemma size_union_le (A B : gset Z) : (size (A ∪ B) ≤ size A + size B)%nat.
Proof. rewrite size_union_alt. assert (size (B ∖ A) ≤ size B)%nat by (apply subseteq_size; set_solver). lia. Qed.

Lemma size_of_list (l : list Z) : (size (list_to_set l : gset Z) ≤ length l)%nat.
Proof. induction l as [|b l IH]; [done|]. cbn [list_to_set length]. pose proof (size_union_le {[b]} (list_to_set l)). rewrite size_singleton in *. lia. Qed.

(** The blocks of a transaction. *)
Lemma size_touched x a off fin : 0 ≤ off → off ≤ fin → bmapstart x ≤ dstart x →
  Z.of_nat (size (touched x a off fin)) ≤ (nblk fin - off / BSIZE) + 1 + (dstart x - bmapstart x).
Proof.
  intros H0 Hf Hd.
  unfold touched. set (X := list_to_set (take _ _)). set (Y := list_to_set (option_list _)). pose proof (size_union_le (X ∪ Y) (bitmap_blocks x)). pose proof (size_union_le X Y).
  assert (size X ≤ Z.to_nat (nblk fin - off / BSIZE))%nat by (unfold X; etrans; [apply size_of_list|]; rewrite length_take; lia).
  assert (size Y ≤ 1)%nat by (unfold Y; etrans; [apply size_of_list|]; destruct (a_ind a); cbn; lia).
  assert (size (bitmap_blocks x) ≤ Z.to_nat (dstart x - bmapstart x))%nat by (unfold bitmap_blocks; etrans; [apply size_of_list|]; rewrite length_fmap, length_seq; lia).
  assert (off / BSIZE ≤ nblk fin) by (unfold nblk, BSIZE; Z.to_euclidean_division_equations; lia). lia.
Qed.

(** * Reading *)

Lemma advance i off r w k : { mk_ofile i off r w with o_off ::= λ off, u32 (off + k) } = mk_ofile i (u32 (off + k)) r w.
Proof. done. Qed.

Section open.
Context (T : gmap Z ainode) (s : fss) (O : fs_ok T s) (i : nat) (n : Z) (a : ainode) (H : handle (icache s) i n) (Hl : is_locked (icache s) i = false) (Ha : T !! n = Some a) (Ht : a_type a ≠ T_DEV).
Abbreviation C := (icache s).

(** [fileread] from the offset of the file. *)
Lemma fileread_run dev_read off w m : 0 ≤ off ≤ a_size a → 0 ≤ m < 2 ^ 31 →
  let l := take (Z.to_nat m) (drop (Z.to_nat off) (content s a)) in
  ∃ C', fileread dev_read (mk_ofile i off true w) m s = Some ((Some l, mk_ofile i (off + Z.of_nat (length l)) true w), set_cache C' s) ∧
    fs_ok T (set_cache C' s) ∧ evolves C C' (λ _, 0) nobody.
Proof.
  intros Ho Hm l. destruct (ilock_spec T s O i n H Hl) as (C1&a'&Ha'&R1&O1&E1&D1). rewrite Ha in Ha'. injection Ha' as <-. pose proof D1 as (ip&Hi&_&_&_&_&Hd).
  destruct (iunlock_spec T (set_cache C1 s) O1 i n a D1) as (C2&R2&O2&E2&H2&_). destruct (size_bound None T ∅ s n a Ha (fo_inv _ _ O)) as [Hsz Hlen].
  exists C2. split_and!; [|done|].
  - unfold fileread. cbn [o_readable negb o_ip o_off]. rewrite (bind_run _ _ _ _ _ R1). rewrite u32_id by lia.
    erewrite (bind_run _ _ (set_cache C1 s)) by (eapply (readi_run None T ∅ (set_cache C1 s) n a Ha i ip Hi Hd); [apply O|done|apply O1|unfold MAXFILE, BSIZE in *; lia|lia]).
    change (content (set_cache C1 s) a) with (content s a). rewrite decide_True by (unfold MAXFILE, BSIZE in *; lia). fold l. cbv zeta.
    assert (Z.of_nat (length l) ≤ a_size a - off) as Hll by (unfold l; rewrite length_take, length_drop; lia). cbn [o_ip]. rewrite advance, u32_id by (unfold MAXFILE, BSIZE in *; lia).
    cbn [o_ip]. rewrite (bind_run _ _ _ _ _ R2). done.
  - eapply evolves_ext; [eapply evolves_trans; [apply O|exact E1|exact E2|]|done|].
    + intros m' Hm' _. rewrite (ev_refs _ _ _ _ E1). lia.
    + intros j. unfold then_, only, nobody. case_decide as E; [|done]. cbn. subst j. by rewrite Hl.
Qed.

(** * Writing *)

(** The bytes [src] are stored at [off], in one transaction. *)
Record chunk (off : Z) (src : list byte) (a' : ainode) (s' : fss) : Prop := {
  ck_ok : fs_ok (<[n := a']> T) s';
  ck_files : files (<[n := a']> T) s' = <[n := mk_afile (a_type a) (a_major a) (a_minor a) (a_nlink a) (patch (Z.to_nat off) src (content s a))]> (files T s);
  ck_cache : evolves C (icache s') (λ _, 0) nobody;
  ck_op : outstanding s' = 0%nat;
  ck_sb : sb s' = sb s;
  ck_logged : logged s' ⊆ {[IBLOCK n (sb s)]} ∪ touched (sb s) a' off (off + Z.of_nat (length src));
  ck_room : room T ∅ (sb s) - (nblk (off + Z.of_nat (length src)) - Z.of_nat (length (a_blocks a))) `max` 0 - (if decide (a_ind a' = a_ind a) then 0 else 1)
            ≤ room (<[n := a']> T) ∅ (sb s);
  ck_len : Z.of_nat (length (a_blocks a')) = Z.max (Z.of_nat (length (a_blocks a))) (nblk (off + Z.of_nat (length src)));
  ck_ind : is_Some (a_ind a) → a_ind a' = a_ind a;
  ck_id : nblk (off + Z.of_nat (length src)) ≤ Z.of_nat (length (a_blocks a)) → a_blocks a' = a_blocks a ∧ a_ind a' = a_ind a;
  ck_meta : a_empty a' = a_empty a;
}.

Context (dev_write : Z → option (list byte → Z)) (Hop : outstanding s = 0%nat) (off : Z) (Ho : 0 ≤ off ≤ a_size a).

(** Two calls that lock and unlock the same entry. *)
Lemma evolves_lock_unlock C1 C2 C3 : cache_wf C1 → evolves C C1 (λ _, 0) (only i true) → evolves C1 C2 (λ _, 0) nobody → evolves C2 C3 (λ _, 0) (only i false) → evolves C C3 (λ _, 0) nobody.
Proof.
  intros W1 E1 E2 E3. eapply evolves_ext; [eapply evolves_trans; [apply O|exact E1|eapply evolves_trans; [exact W1|exact E2|exact E3|]|]|done|].
  - intros m Hm _. rewrite (ev_refs _ _ _ _ E2). lia.
  - intros m Hm _. rewrite (ev_refs _ _ _ _ E1). lia.
  - intros j. unfold then_, only, nobody. case_decide as E; [|done]. cbn. subst j. by rewrite Hl.
Qed.

Lemma write_chunk_spec src r : (0 < length src)%nat → off + Z.of_nat (length src) ≤ MAXFILE * BSIZE →
  need a (off + Z.of_nat (length src)) ≤ room T ∅ (sb s) →
  wp (write_chunk dev_write (mk_ofile i off r true) src) (λ '(c, f) s', c = Z.of_nat (length src) ∧ f = mk_ofile i (off + c) r true ∧ ∃ a', chunk off src a' s') s.
Proof.
  intros Hpos Hmax Hroom. unfold write_chunk. cbn [o_ip o_off]. apply wp_bind. eapply wp_intro; [apply begin_run|]. cbn beta. rewrite Hop. rewrite decide_True by done. set (s0 := with_log 1 ∅ s).
  assert (fs_ok T s0) as O0 by (by apply ok_log). destruct (ilock_spec T s0 O0 i n H Hl) as (C1&a0&Ha0&R1&O1&E1&D1). rewrite Ha in Ha0. injection Ha0 as <-.
  apply wp_bind. eapply wp_intro; [exact R1|]. cbn beta. apply wp_bind.
  eapply wp_mono; [apply (writei_ok T (set_cache C1 s0) O1 i n a D1 Ha dev_write src off); (done || lia)|]. intros c s2 (->&a'&ip&Hi&St&O2&E2&D2). cbn beta zeta.
  rewrite decide_True by lia. rewrite advance, u32_id by (unfold MAXFILE, BSIZE in *; lia). cbn [o_ip].
  destruct (iunlock_spec _ s2 O2 i n a' D2) as (C3&R3&O3&E3&_). apply wp_bind. eapply wp_intro; [exact R3|]. cbn beta. apply wp_bind. eapply wp_intro; [apply end_run|]. cbn beta. apply wp_ret.
  split; [done|]. split; [done|]. exists a'. destruct St as [S1 S2 S3 S4 S5 S6 S7 S8 S9]. cbn [s0 set_cache with_log sb] in *. split; try done.
  - by apply ok_log.
  - eapply (evolves_lock_unlock C1 (icache s2)); [apply O1|done..].
  - cbn [set_cache outstanding with_log]. by rewrite (fr_op _ _ _ S4).
  - cbn [with_log set_cache sb]. by rewrite (fr_sb _ _ _ S4).
  - cbn [with_log set_cache logged]. pose proof (fr_logged _ _ _ S4) as Hlg. cbn [with_log set_cache logged] in Hlg. clear - Hlg. set_solver.
Qed.

(** A write beyond the largest file does nothing. *)
Lemma write_chunk_fail src r : MAXFILE * BSIZE < off + Z.of_nat (length src) → Z.of_nat (length src) < 2 ^ 32 →
  wp (write_chunk dev_write (mk_ofile i off r true) src) (λ '(c, f) s', c = -1 ∧ f = mk_ofile i off r true ∧
    fs_ok T s' ∧ files T s' = files T s ∧ evolves C (icache s') (λ _, 0) nobody ∧ outstanding s' = 0%nat ∧ sb s' = sb s) s.
Proof.
  intros Hmax Hlen. destruct (size_bound None T ∅ s n a Ha (fo_inv _ _ O)) as [Hsz _]. unfold write_chunk. cbn [o_ip o_off]. apply wp_bind. eapply wp_intro; [apply begin_run|]. cbn beta. rewrite Hop. rewrite decide_True by done. set (s0 := with_log 1 ∅ s).
  assert (fs_ok T s0) as O0 by (by apply ok_log). destruct (ilock_spec T s0 O0 i n H Hl) as (C1&a0&Ha0&R1&O1&E1&D1). rewrite Ha in Ha0. injection Ha0 as <-.
  apply wp_bind. eapply wp_intro; [exact R1|]. cbn beta. apply wp_bind. pose proof D1 as (ip&Hi&_&_&_&_&Hd).
  eapply wp_intro; [apply (writei_fail None T ∅ (set_cache C1 s0) n a Ha i ip Hi Hd); [done|apply O1|unfold MAXFILE, BSIZE in *; lia|done|by right]|]. cbn beta zeta. rewrite decide_False by lia. cbn [o_ip].
  destruct (iunlock_spec _ _ O1 i n a D1) as (C3&R3&O3&E3&_). apply wp_bind. eapply wp_intro; [exact R3|]. cbn beta. apply wp_bind. eapply wp_intro; [apply end_run|]. cbn beta. apply wp_ret.
  split_and!; try done; [by apply ok_log|]. eapply (evolves_lock_unlock C1 C1); [apply O1|done|apply evolves_refl|done].
Qed.

End open.

(** The bytes that [filewrite] stores of [n]: all, or whole chunks up to the
    largest file. *)
Definition stored_len (off n : Z) : Z := if decide (off + n ≤ MAXFILE * BSIZE) then n else max_write * ((MAXFILE * BSIZE - off) / max_write).

Record filewritten (T : gmap Z ainode) (s : fss) (n : Z) (a : ainode) (off : Z) (src : list byte) (a' : ainode) (s' : fss) : Prop := {
  fw_ok : fs_ok (<[n := a']> T) s';
  fw_files : files (<[n := a']> T) s' = <[n := mk_afile (a_type a) (a_major a) (a_minor a) (a_nlink a) (patch (Z.to_nat off) src (content s a))]> (files T s);
  fw_cache : evolves (icache s) (icache s') (λ _, 0) nobody;
  fw_op : outstanding s' = 0%nat;
  fw_sb : sb s' = sb s;
  fw_room : room T ∅ (sb s) - need a (off + Z.of_nat (length src)) ≤ room (<[n := a']> T) ∅ (sb s);
}.

Lemma content_files T s n a : T !! n = Some a → f_data <$> files T s !! n = Some (content s a).
Proof. intros Ha. unfold files. by rewrite lookup_fmap, Ha. Qed.

(** Nothing is written. *)
Lemma filewritten_nil T s s' n a off : fs_ok T s' → files T s' = files T s → T !! n = Some a → evolves (icache s) (icache s') (λ _, 0) nobody → outstanding s' = 0%nat → sb s' = sb s →
  filewritten T s n a off [] a s'.
Proof.
  intros O' Hf Ha E Hop Hs. split; rewrite ?insert_id by done; try done; [|unfold need; repeat case_decide; lia]. rewrite Hf, patch_nil, insert_id; [done|]. unfold files. by rewrite lookup_fmap, Ha.
Qed.

Lemma patch_twice {A} off (b1 b2 l : list A) : (off ≤ length l)%nat → patch (off + length b1) b2 (patch off b1 l) = patch off (b1 ++ b2) l.
Proof.
  intros Hl. unfold patch. assert (length (take off l ++ b1) = (off + length b1)%nat) as Hlen by (rewrite length_app, length_take; lia). rewrite (app_assoc (take off l) b1 (drop _ l)).
  rewrite (take_app_length' (take off l ++ b1)), drop_app_ge, Hlen, drop_drop, <- !app_assoc, length_app by lia. do 4 f_equal. lia.
Qed.

Lemma chunk_content T s n a off src a' s' :
  fs_ok T s → T !! n = Some a → 0 ≤ off ≤ a_size a → chunk T s n a off src a' s' → content s' a' = patch (Z.to_nat off) src (content s a) ∧ a_size a' = Z.max (a_size a) (off + Z.of_nat (length src)).
Proof.
  intros O Ha Ho K. destruct (size_bound None T ∅ s n a Ha (fo_inv _ _ O)) as [_ Hlen]. pose proof (ck_files _ _ _ _ _ _ _ _ K) as Hf.
  assert (content s' a' = patch (Z.to_nat off) src (content s a)) as Hc.
  { pose proof (content_files (<[n := a']> T) s' n a' ltac:(by rewrite lookup_insert_eq)) as Hd. rewrite Hf, lookup_insert_eq in Hd. by injection Hd. }
  split; [done|]. destruct (size_bound None (<[n := a']> T) ∅ s' n a') as [_ <-]; [by rewrite lookup_insert_eq|apply K|]. rewrite Hc. unfold patch. rewrite !length_app, length_take, length_drop. lia.
Qed.

(** One chunk, then the rest. *)
Lemma filewritten_trans T s n a off src1 a1 s1 src2 a2 s2 :
  fs_ok T s → T !! n = Some a → 0 ≤ off ≤ a_size a → chunk T s n a off src1 a1 s1 → filewritten (<[n := a1]> T) s1 n a1 (off + Z.of_nat (length src1)) src2 a2 s2 →
  filewritten T s n a off (src1 ++ src2) a2 s2.
Proof.
  intros O Ha Ho K [F1 F2 F3 F4 F5 F6]. destruct (chunk_content _ _ _ _ _ _ _ _ O Ha Ho K) as [Hc _]. destruct (size_bound None T ∅ s n a Ha (fo_inv _ _ O)) as [_ Hlen].
  destruct K as [K1 K2 K3 K4 K5 K6 K7 K8 K9 K9' K10]. rewrite insert_insert_eq in F1, F2.
  split; [done| | |done|congruence|].
  - rewrite F2, K2, insert_insert_eq, Hc. injection K10 as -> -> -> ->. do 2 f_equal. replace (Z.to_nat (off + Z.of_nat (length src1))) with (Z.to_nat off + length src1)%nat by lia. apply patch_twice. lia.
  - eapply evolves_ext; [eapply evolves_trans; [apply O|exact K3|exact F3|]|done|done]. intros m Hm _. rewrite (ev_refs _ _ _ _ K3). lia.
  - rewrite insert_insert_eq, K5 in F6. set (fin := off + Z.of_nat (length (src1 ++ src2))). replace (off + Z.of_nat (length src1) + Z.of_nat (length src2)) with fin in F6 by (unfold fin; rewrite length_app; lia).
    assert (nblk (off + Z.of_nat (length src1)) ≤ nblk fin) as Hnb by (unfold nblk, fin; rewrite length_app; apply Z.div_le_mono; unfold BSIZE; lia).
    pose proof (need_next a a1 _ fin (need a fin) _ Hnb K8 K9 K9' (Z.le_refl _) (Z.le_refl _)). lia.
Qed.

(** What the loop promises. *)
Definition loop_post (i : nat) (n : Z) (r : bool) (T : gmap Z ainode) (s : fss) (a : ainode) (off : Z) (src : list byte) (res : bool * ofile) (s' : fss) : Prop :=
  let k := stored_len off (Z.of_nat (length src)) in
  res = (bool_decide (off + Z.of_nat (length src) ≤ MAXFILE * BSIZE), mk_ofile i (off + k) r true) ∧ ∃ a', filewritten T s n a off (take (Z.to_nat k) src) a' s'.

Lemma loop_nil i n r T s a off : fs_ok T s → T !! n = Some a → outstanding s = 0%nat → off ≤ MAXFILE * BSIZE → loop_post i n r T s a off [] (true, mk_ofile i off r true) s.
Proof.
  intros O Ha Hop Ho. unfold loop_post. cbn [length]. assert (stored_len off (Z.of_nat 0) = 0) as -> by (unfold stored_len; rewrite decide_True; [done|lia]). rewrite bool_decide_eq_true_2 by lia.
  rewrite Z.add_0_r. split; [done|]. exists a. apply filewritten_nil; (done || apply evolves_refl).
Qed.

Lemma stored_len_step off n : 0 ≤ off → 0 ≤ n → let n1 := Z.min n max_write in off + n1 ≤ MAXFILE * BSIZE →
  stored_len off n = n1 + stored_len (off + n1) (n - n1) ∧ 0 ≤ stored_len (off + n1) (n - n1) ≤ n - n1.
Proof.
  intros Ho Hn n1 Hf. unfold stored_len, n1 in *. assert (max_write = 1536) as E by done. rewrite E in *. unfold MAXFILE, BSIZE in *. repeat case_decide; try lia; Z.to_euclidean_division_equations; lia.
Qed.

Lemma filewrite_loop_spec dev_write i n r fuel : ∀ T s a off src,
  fs_ok T s → handle (icache s) i n → is_locked (icache s) i = false → T !! n = Some a → a_type a ≠ T_DEV → outstanding s = 0%nat → 0 ≤ off ≤ a_size a → (length src ≤ fuel)%nat → Z.of_nat (length src) < 2 ^ 31 →
  need a (off + stored_len off (Z.of_nat (length src))) ≤ room T ∅ (sb s) →
  wp (filewrite_loop dev_write fuel (mk_ofile i off r true) src) (loop_post i n r T s a off src) s.
Proof.
  induction fuel as [|fuel IH]; intros T s a off src O H Hl Ha Ht Hop Ho Hf H31 Hroom; destruct (size_bound None T ∅ s n a Ha (fo_inv _ _ O)) as [Hsz Hcl];
    (destruct src as [|c0 src0] eqn:Esrc; [apply wp_ret, loop_nil; (done || lia)|rewrite <- Esrc in *]).
  { rewrite Esrc in Hf. cbn in Hf. lia. }
  assert (0 < length src)%nat as Hpos by (rewrite Esrc; cbn; lia). set (len := Z.of_nat (length src)) in *. set (n1 := Z.min len max_write).
  assert (filewrite_loop dev_write (S fuel) (mk_ofile i off r true) src = ('(r, f) ← write_chunk dev_write (mk_ofile i off r true) (take (Z.to_nat n1) src);
     if decide (r < 0) then mret (false, f) else if decide (r ≠ n1) then fault else filewrite_loop dev_write fuel f (drop (Z.to_nat r) src))) as -> by (unfold n1, len; by rewrite Esrc).
  clear Esrc c0 src0. assert (max_write = 1536) as Emax by done. assert (0 < n1 ≤ len ∧ n1 ≤ max_write) as Hn1 by lia.
  assert (length (take (Z.to_nat n1) src) = Z.to_nat n1) as Htk by (rewrite length_take; lia). apply wp_bind. destruct (decide (off + n1 ≤ MAXFILE * BSIZE)) as [Hfit|Hfit].
  - destruct (stored_len_step off len) as [Ek Hk]; [lia|lia|done|]. fold n1 in Ek, Hk.
    assert (nblk (off + n1) ≤ nblk (off + stored_len off len)) as Hnb by (unfold nblk; apply Z.div_le_mono; unfold BSIZE; lia).
    eapply wp_mono; [apply (write_chunk_spec T s O i n a H Hl Ha Ht dev_write Hop off Ho (take (Z.to_nat n1) src) r); rewrite Htk, ?Z2Nat.id by lia; [lia|lia|etrans; [by apply need_mono|done]]|].
    intros [c f] s1 (->&->&a1&K). rewrite Htk, Z2Nat.id in * by lia. cbn beta iota. rewrite decide_False by lia. rewrite (decide_False (P := n1 ≠ n1)) by (intros E; by apply E).
    destruct (chunk_content _ _ _ _ _ _ _ _ O Ha Ho K) as [_ Hs1]. rewrite Htk, Z2Nat.id in Hs1 by lia. assert (Z.of_nat (length (drop (Z.to_nat n1) src)) = len - n1) as Hdl by (rewrite length_drop; lia).
    eapply wp_mono; [apply (IH (<[n := a1]> T) s1 a1 (off + n1) (drop (Z.to_nat n1) src))|].
    + apply K.
    + apply (ev_handle _ _ _ _ (ck_cache _ _ _ _ _ _ _ _ K)); [done|]. rewrite (ev_refs _ _ _ _ (ck_cache _ _ _ _ _ _ _ _ K)), Z.add_0_r. eapply handle_refs; [apply O|done].
    + by rewrite (ev_lock _ _ _ _ (ck_cache _ _ _ _ _ _ _ _ K)).
    + by rewrite lookup_insert_eq.
    + pose proof (ck_meta _ _ _ _ _ _ _ _ K) as Em. injection Em as -> _ _ _. done.
    + apply K.
    + lia.
    + rewrite length_drop. lia.
    + lia.
    + rewrite Hdl, (ck_sb _ _ _ _ _ _ _ _ K). replace (off + n1 + stored_len (off + n1) (len - n1)) with (off + stored_len off len) by lia.
      apply (need_next a a1 (off + n1) _ (room T ∅ (sb s))); [done|..|done]; pose proof K as [K1 K2 K3 K4 K5 K6 K7 K8 K9 K9' K10]; rewrite Htk, Z2Nat.id in * by lia; done.
    + intros res s' [-> [a' Hw]]. unfold loop_post. fold len. rewrite Hdl in *. split; [f_equal; [apply bool_decide_ext; lia|f_equal; lia]|]. exists a'.
      pose proof (filewritten_trans T s n a off (take (Z.to_nat n1) src) a1 s1 (take (Z.to_nat (stored_len (off + n1) (len - n1))) (drop (Z.to_nat n1) src)) a' s' O Ha Ho K) as Htr.
      rewrite Htk, Z2Nat.id in Htr by lia. rewrite take_take_drop in Htr. replace (Z.to_nat n1 + Z.to_nat (stored_len (off + n1) (len - n1)))%nat with (Z.to_nat (stored_len off len)) in Htr by lia. by apply Htr.
  - eapply wp_mono; [apply (write_chunk_fail T s O i n a H Hl Ha Ht dev_write Hop off Ho (take (Z.to_nat n1) src) r); rewrite Htk; lia|]. intros [c f] s' (->&->&O'&Ef&E'&Hop'&Es'). cbn beta iota. rewrite decide_True by lia. apply wp_ret.
    unfold loop_post. fold len. assert (stored_len off len = 0) as -> by (unfold stored_len; rewrite decide_False by lia; rewrite Z.div_small by lia; lia). rewrite bool_decide_eq_false_2 by lia. rewrite Z.add_0_r. split; [done|].
    exists a. by apply filewritten_nil.
Qed.
