(* ===== verification/XvFsOps.v ===== *)
(** The calls of xv6 that change directories, against maps of files: creation,
    links and their removal. *)

From stdpp Require Import base option list numbers gmap sets.
From coqutil Require Import Datatypes.RecordSettersUsingExistingGetters.
From Stdlib Require Import Strings.Byte ZArith Lia.
From S2P Require Import Prelude CString XvFs XvFsInv XvFsInode XvFsIo XvFsCache XvFsDir XvFsCalls XvFsRw.
Local Open Scope Z_scope.

(** * Steps of a call *)

(** From [T] and [s] to [T'] and [s']: [dr] more references, the locks [dl]
    changed, at most [k] blocks taken, and nothing logged but the bitmap, the
    blocks [D] and [y] more. *)
Record moves (T : gmap Z ainode) (s : fss) (T' : gmap Z ainode) (s' : fss) (D : gset Z) (y : nat) (dr : Z → Z) (dl : nat → option bool) (k : Z) : Prop := {
  mv_ok : fs_ok T' s';
  mv_cache : evolves (icache s) (icache s') dr dl;
  mv_frame : ∃ Y, (size Y ≤ y)%nat ∧ frame (bitmap_blocks (sb s) ∪ D ∪ Y) s s';
  mv_room : room T ∅ (sb s) - k ≤ room T' ∅ (sb s);
}.

Section moves.
Context (T : gmap Z ainode) (s : fss) (T' : gmap Z ainode) (s' : fss) (D : gset Z) (y : nat) (dr : Z → Z) (dl : nat → option bool) (k : Z).
Context (M : moves T s T' s' D y dr dl k).

Lemma mv_sb : sb s' = sb s.
Proof. destruct (mv_frame _ _ _ _ _ _ _ _ _ M) as (Y&_&F). apply F. Qed.
Lemma mv_op : outstanding s' = outstanding s.
Proof. destruct (mv_frame _ _ _ _ _ _ _ _ _ M) as (Y&_&F). apply F. Qed.

(** An entry stays where it is as long as somebody refers to it. *)
Lemma mv_handle i n : handle (icache s) i n → 0 < refs (icache s) n + dr n → handle (icache s') i n.
Proof. intros H Hp. apply (ev_handle _ _ _ _ (mv_cache _ _ _ _ _ _ _ _ _ M)); [done|]. by rewrite (ev_refs _ _ _ _ (mv_cache _ _ _ _ _ _ _ _ _ M)). Qed.
Lemma mv_loaded i n : loaded (icache s) i n → 0 < refs (icache s) n + dr n → loaded (icache s') i n.
Proof. intros H Hp. apply (ev_loaded _ _ _ _ (mv_cache _ _ _ _ _ _ _ _ _ M)); [done|]. by rewrite (ev_refs _ _ _ _ (mv_cache _ _ _ _ _ _ _ _ _ M)). Qed.

End moves.

Lemma moves_trans T s T1 s1 T2 s2 D D' y y' dr dr' dl dl' k k' :
  fs_ok T s → moves T s T1 s1 D y dr dl k → moves T1 s1 T2 s2 D' y' dr' dl' k' → (∀ m, 0 < refs (icache s) m → 0 < refs (icache s) m + dr m + dr' m → 0 < refs (icache s) m + dr m) →
  moves T s T2 s2 (D ∪ D') (y + y') (λ m, dr m + dr' m) (then_ dl dl') (k + k').
Proof.
  intros O M1 M2 H. pose proof (mv_sb _ _ _ _ _ _ _ _ _ M1) as Es. destruct M1 as [A1 A2 (Y&Hy&A3) A4], M2 as [B1 B2 (Y'&Hy'&B3) B4]. rewrite Es in B3, B4. split; [done| | |lia].
  - eapply evolves_trans; [apply O|done|done|]. intros m Hm Hm2. rewrite (ev_refs _ _ _ _ B2), (ev_refs _ _ _ _ A2) in *. auto.
  - exists (Y ∪ Y'). split; [pose proof (size_union_le Y Y'); lia|]. eapply fs_frame_trans; eapply fs_frame_mono; [exact A3| |exact B3|]; clear; set_solver.
Qed.

(** Only the cache changes. *)
Lemma moves_cache T s C' dr dl : fs_ok T (set_cache C' s) → evolves (icache s) C' dr dl → moves T s T (set_cache C' s) ∅ 0 dr dl 0.
Proof. intros O E. split; [done|done| |cbn; lia]. exists ∅. split; [by rewrite size_empty|]. apply frame_cache, fs_frame_refl. Qed.

Lemma moves_refl T s : fs_ok T s → moves T s T s ∅ 0 (λ _, 0) nobody 0.
Proof. intros O. split; [done|apply evolves_refl| |lia]. exists ∅. split; [by rewrite size_empty|apply fs_frame_refl]. Qed.

(** Equal in effect. *)
Lemma moves_ext T s T' s' D D' y y' dr dr' dl dl' k k' :
  moves T s T' s' D y dr dl k → D ⊆ D' → (y ≤ y')%nat → (∀ m, dr' m = dr m) → (∀ j, default (is_locked (icache s) j) (dl' j) = default (is_locked (icache s) j) (dl j)) → k ≤ k' →
  moves T s T' s' D' y' dr' dl' k'.
Proof.
  intros [A1 A2 (Y&Hy&A3) A4] HD Hyy Hr Hl Hk. split; [done|by eapply evolves_ext|exists Y; split; [lia|]|lia]. eapply fs_frame_mono; [exact A3|]. clear - HD. set_solver.
Qed.

Lemma room_nonneg T P s ex : fs_inv ex T P s → 0 ≤ room T P (sb s).
Proof.
  intros I. unfold room. set (x := sb s). pose proof (ly_data _ (fi_layout _ _ _ _ I)) as Hd. set (l := (λ k, dstart x + Z.of_nat k) <$> seq 0 (Z.to_nat (sb_size x - dstart x))).
  assert (owned T ∪ P ⊆ list_to_set l) as Hsub.
  { intros b Hb. pose proof (free_or_owned_range _ _ _ _ I b Hb) as Hr. fold x in Hr. apply elem_of_list_to_set, list_elem_of_fmap. exists (Z.to_nat (b - dstart x)). split; [lia|]. apply elem_of_seq. lia. }
  apply subseteq_size in Hsub. rewrite size_list_to_set in Hsub by (apply NoDup_fmap_2; [intros i j; lia|apply NoDup_seq]). unfold l in Hsub. rewrite length_fmap, length_seq in Hsub. fold x in Hd. lia.
Qed.

(** * The parts of the calls *)

Definition with_data (l : list byte) (f : afile) : afile := mk_afile (f_type f) (f_major f) (f_minor f) (f_nlink f) l.
Definition with_nlink (k : Z) (f : afile) : afile := mk_afile (f_type f) (f_major f) (f_minor f) k (f_data f).

(** The first two of three computations. *)
Lemma wp_then {S B} (m1 m2 : ST S ()) (k : ST S B) P Q s : wp (m1;; m2) P s → (∀ s', P () s' → wp k Q s') → wp (m1;; m2;; k) Q s.
Proof.
  unfold wp, mbind, ST_bind. destruct (m1 s) as [[[] s1]|]; [|done]. destruct (m2 s1) as [[[] s2]|]; [|done]. intros H HQ. apply (HQ s2 H).
Qed.

(** The blocks that a write of one directory entry logs. *)
Lemma touched_entry x a k : ∃ Y, (size Y ≤ 2)%nat ∧ touched x a (16 * Z.of_nat k) (16 * Z.of_nat k + 16) ⊆ bitmap_blocks x ∪ Y.
Proof.
  unfold touched. set (A := list_to_set (take _ _)). set (B := list_to_set (option_list _)). exists (A ∪ B). split; [|set_solver]. pose proof (size_union_le A B).
  assert (size A ≤ 1)%nat; [unfold A|assert (size B ≤ 1)%nat; [unfold B; etrans; [apply size_of_list|]; destruct (a_ind a); cbn; lia|lia]].
  assert (nblk (16 * Z.of_nat k + 16) - 16 * Z.of_nat k / BSIZE = 1) as -> by (unfold nblk, BSIZE; Z.to_euclidean_division_equations; lia).
  etrans; [apply size_of_list|]. rewrite length_take. lia.
Qed.

Section parts.
Context (T : gmap Z ainode) (s : fss) (O : fs_ok T s) (i : nat) (n : Z) (f : afile) (Hf : files T s !! n = Some f).
Abbreviation C := (icache s).

Lemma ilock_moves : handle C i n → is_locked C i = false → ∃ C', ilock i s = Some ((), set_cache C' s) ∧ moves T s T (set_cache C' s) ∅ 0 (λ _, 0) (only i true) 0 ∧ loaded C' i n.
Proof.
  intros H Hl. destruct (ilock_spec T s O i n H Hl) as (C'&a&_&R&O'&E&D). exists C'. split_and!; [done|by apply moves_cache|by eapply opened_loaded].
Qed.

Context (Hld : loaded C i n) (Hlk : is_locked C i = true).

Lemma opened_file : ∃ a, T !! n = Some a ∧ f = file_of s a ∧ opened C i n a.
Proof. destruct (lookup_files_inv _ _ _ _ Hf) as (a&Ha&->). exists a. split_and!; [done|done|by eapply opened_intro]. Qed.

Lemma iunlock_moves : ∃ C', iunlock i s = Some ((), set_cache C' s) ∧ moves T s T (set_cache C' s) ∅ 0 (λ _, 0) (only i false) 0.
Proof. destruct opened_file as (a&Ha&_&D). destruct (iunlock_spec T s O i n a D) as (C'&R&O'&E&_). exists C'. split; [done|by apply moves_cache]. Qed.

Lemma iunlockput_moves : f_nlink f ≠ 0 ∨ refs C n ≠ 1 → ∃ C', iunlockput i s = Some ((), set_cache C' s) ∧ moves T s T (set_cache C' s) ∅ 0 (λ m, - one n m) (only i false) 0.
Proof.
  intros Hk. destruct opened_file as (a&Ha&->&D). destruct (iunlockput_keep T s O i n a D Ha Hk) as (C'&R&O'&E). exists C'. split; [done|by apply moves_cache].
Qed.

(** The last reference to a file without a name. *)
Lemma iunlockput_frees : f_nlink f = 0 → refs C n = 1 → outstanding s ≠ 0%nat →
  wp (iunlockput i) (λ _ s', moves T s (delete n T) s' {[IBLOCK n (sb s)]} 0 (λ m, - one n m) (only i false) 0 ∧ files (delete n T) s' = delete n (files T s)) s.
Proof.
  intros Hn Hr Hop. destruct opened_file as (a&Ha&->&D). destruct (iunlock_spec T s O i n a D) as (C1&R1&O1&E1&(ip1&Hi1&Hin1&Hr1)&(ip2&Hi2&Hv&Hd)). rewrite Hi1 in Hi2. injection Hi2 as <-.
  unfold iunlockput. apply wp_bind. eapply wp_intro; [exact R1|]. cbn beta. assert (locked ip1 = false) as Hl1 by (pose proof (ev_lock _ _ _ _ E1 i) as H; unfold is_locked, only in H; rewrite Hi1, decide_True in H by done; done).
  assert (ref ip1 = 1) as Hr1' by (rewrite <- (refs_entry C1 (fo_wf _ _ O1) i ip1 Hi1 Hr1), Hin1, (ev_refs _ _ _ _ E1); lia).
  eapply wp_mono; [apply (iput_free T (set_cache C1 s) O1 i n ip1 a); try done; by rewrite Hd|]. intros [] s' (O'&F'&E'&Fr&Hroom). split; [|done]. split; [done| | |cbn [set_cache sb] in Hroom; lia].
  - eapply evolves_ext; [eapply evolves_trans; [apply O|exact E1|exact E'|]|done|]; [intros m Hm _; rewrite (ev_refs _ _ _ _ E1); lia|done].
  - exists ∅. split; [by rewrite size_empty|]. cbn [set_cache sb] in Fr. eapply fs_frame_mono; [|apply union_subseteq_l]. rewrite (union_comm_L (bitmap_blocks _)). destruct Fr as [A1 A2 A3 A4 A5]. by split.
Qed.

(** A change of the numbers of the inode. *)
Lemma update_moves g major minor nlink : outstanding s ≠ 0%nat → (∀ a, f = file_of s a → g (dinode_of a) = dinode_of (a_meta (a_type a) major minor nlink a)) →
  - 2 ^ 15 ≤ major < 2 ^ 15 → - 2 ^ 15 ≤ minor < 2 ^ 15 → - 2 ^ 15 ≤ nlink < 2 ^ 15 →
  wp (upd_din i g;; iupdate i) (λ _ s', ∃ T', moves T s T' s' {[IBLOCK n (sb s)]} 0 (λ _, 0) nobody 0 ∧ files T' s' = <[n := mk_afile (f_type f) major minor nlink (f_data f)]> (files T s)) s.
Proof.
  intros Hop Hg H1 H2 H3. destruct opened_file as (a&Ha&E&D). specialize (Hg a E). rewrite E in *. destruct (fi_table _ _ _ _ (fo_inv _ _ O) n a Ha) as [_ Hok]. pose proof Hok as [A1 A2 A3 A4 A5 A6 A7 A8 A9].
  eapply wp_mono; [apply (update_spec T s O Hop i n a D Ha g major minor nlink Hg); by split|].
  intros [] s' [B1 B2 B3 B4 B5 B6]. eexists. split; [|exact B2]. split; [done|done| |lia]. exists ∅. split; [by rewrite size_empty|]. eapply fs_frame_mono; [exact B5|]. set_solver.
Qed.

Lemma s16_range z : - 2 ^ 15 ≤ s16 z < 2 ^ 15.
Proof. unfold s16, to_signed. change (2 ^ 15) with 32768. change (2 ^ (16 - 1)) with 32768. change (2 ^ 16) with 65536. pose proof (Z.mod_pos_bound (z + 32768) 65536 ltac:(lia)). lia. Qed.

Lemma add_link_moves k : outstanding s ≠ 0%nat →
  wp (upd_din i (add_link k);; iupdate i) (λ _ s', ∃ T', moves T s T' s' {[IBLOCK n (sb s)]} 0 (λ _, 0) nobody 0 ∧ files T' s' = <[n := with_nlink (s16 (f_nlink f + k)) f]> (files T s)) s.
Proof.
  intros Hop. destruct opened_file as (a&Ha&E&D). destruct (fi_table _ _ _ _ (fo_inv _ _ O) n a Ha) as [_ [A1 A2 A3 A4 A5 A6 A7 A8 A9]].
  apply (update_moves (add_link k) (f_major f) (f_minor f)); [done| |by rewrite E|by rewrite E|apply s16_range]. intros b Hb. rewrite Hb. done.
Qed.

Context (dev_read : Z → option (Z → option (list byte))) (dev_write : Z → option (list byte → Z)).
Context (Ht : f_type f = T_DIR) (H16 : (length (f_data f) `mod` 16 = 0)%nat) (Hop : outstanding s ≠ 0%nat).

(** The directory has no entry for the name yet. *)
Lemma dirlink_moves name m : no_nul name → dir_find name (f_data f) = None → 16 * Z.of_nat (dir_slot (f_data f)) + 16 ≤ MAXFILE * BSIZE → 2 ≤ room T ∅ (sb s) →
  wp (dirlink dev_read dev_write i name m) (λ r s', r = 0 ∧ ∃ T', moves T s T' s' {[IBLOCK n (sb s)]} 2 (λ _, 0) nobody 2 ∧
    files T' s' = <[n := with_data (dir_add name m (f_data f)) f]> (files T s)) s.
Proof.
  intros Hnul Hnew Hmax Hroom. destruct opened_file as (a&Ha&E&D). rewrite E in *. cbn [file_of f_data f_type] in *.
  eapply wp_mono; [apply (dirlink_spec T s O i n a Ha D Ht H16 dev_read dev_write name Hnul m); done|]. intros r s' [-> (a'&[A1 A2 A3 A4 A5 A6 A7])]. split; [done|]. eexists. split; [|exact A2].
  split; [done|done| |lia]. destruct (touched_entry (sb s) a' (dir_slot (content s a))) as (Y&Hy&Hsub). exists Y. split; [done|]. eapply fs_frame_mono; [exact A5|]. revert Hsub. generalize (touched (sb s) a' (16 * Z.of_nat (dir_slot (content s a))) (16 * Z.of_nat (dir_slot (content s a)) + 16)). clear. set_solver.
Qed.

(** The entry at index [k] is cleared. *)
Lemma erase_moves k : (k < length (f_data f) / 16)%nat →
  wp (writei dev_write i (replicate (Z.to_nat sizeof_dirent) NUL) (sizeof_dirent * Z.of_nat k)) (λ r s', r = sizeof_dirent ∧ ∃ T', moves T s T' s' {[IBLOCK n (sb s)]} 2 (λ _, 0) nobody 0 ∧
    files T' s' = <[n := with_data (patch (16 * k) (replicate 16 NUL) (f_data f)) f]> (files T s)) s.
Proof.
  intros Hk. destruct opened_file as (a&Ha&E&D). rewrite E in *. cbn [file_of f_data f_type] in *. destruct (size_content T s O n a Ha H16) as (Hsz&Hdiv&Hb). destruct (fi_table _ _ _ _ (fo_inv _ _ O) n a Ha) as [_ Hok].
  pose proof (ao_size _ _ Hok) as Hs2. pose proof (room_nonneg _ _ _ _ (fo_inv _ _ O)) as Hr0. unfold sizeof_dirent.
  assert (nblk (16 * Z.of_nat k + Z.of_nat 16) ≤ Z.of_nat (length (a_blocks a))) as Hnb by (unfold nblk, BSIZE in *; Z.to_euclidean_division_equations; lia).
  eapply wp_mono; [apply (writei_ok T s O i n a D Ha dev_write _ (16 * Z.of_nat k)); rewrite ?length_replicate|].
  - rewrite Ht. done.
  - done.
  - lia.
  - unfold MAXFILE, BSIZE. lia.
  - change (Z.of_nat (Z.to_nat 16)) with (Z.of_nat 16). unfold need. rewrite decide_True by done. done.
  - intros r s' (->&a'&ip&Hi&St&O'&E'&D'). rewrite length_replicate. split; [done|]. destruct St as [S1 S2 S3 S4 S5 S6 S7 S8 S9]. rewrite length_replicate in *. eexists. split.
    + split; [exact O'|done| |]. 
      * destruct (touched_entry (sb s) a' k) as (Y&Hy&Hsub). exists Y. split; [done|]. eapply fs_frame_mono; [exact S4|]. change (Z.of_nat (Z.to_nat 16)) with 16. clear - Hsub. set_solver.
      * change (Z.of_nat (Z.to_nat 16)) with (Z.of_nat 16) in *. destruct (S9 Hnb) as [_ Ei]. rewrite decide_True in S5 by done. lia.
    + rewrite S2. replace (Z.to_nat (16 * Z.of_nat k)) with (16 * k)%nat by lia. done.
Qed.

End parts.

(** * The start of a call *)

(** No inode is locked, the tree is well formed, and the cache has free entries. *)
Record ready (T : gmap Z ainode) (s : fss) (cwd : nat) (c : Z) : Prop := {
  rd_ok : fs_ok T s;
  rd_dirs : dirs_ok (files T s);
  rd_unlocked : ∀ j, is_locked (icache s) j = false;
  rd_slots : (size (inuse (icache s)) + 3 ≤ length (icache s))%nat;
  rd_cwd : handle (icache s) cwd c;
  rd_root : ∃ f, files T s !! ROOTINO = Some f ∧ 0 < f_nlink f;
}.

(** The directory in which a path starts. *)
Definition start (c : Z) (path : cstr) : Z := if decide (head path = Some SLASH) then ROOTINO else c.

Lemma walk_dir V p : ∀ n d name, walk V true n p = Some (d, name) → name ∈ p ∧ ∃ f, V !! d = Some f ∧ f_type f = T_DIR.
Proof.
  induction p as [|q p IH]; intros n d name; cbn [walk]; [done|]. destruct (V !! n) as [f|] eqn:Hf; [|done]. cbn [mbind option_bind]. case_decide as Ht; [|done]. cbn [andb]. case_bool_decide as Hp.
  - intros [= <- <-]. split; [by left|eauto].
  - destruct (dir_find q (f_data f)) as [[k de]|]; [|done]. cbn. intros H. apply IH in H as [H1 H2]. split; [by right|done].
Qed.

Lemma names_no_nul path name : no_nul path → name ∈ names path → no_nul name.
Proof.
  intros Hn Hin. apply list_elem_of_fmap in Hin as (t&->&Ht). apply name_no_nul_take. pose proof (strtok_all_no_nul SLASH path Hn) as H. rewrite Forall_forall in H. by apply H.
Qed.

Section paths.
Context (T : gmap Z ainode) (s : fss) (cwd : nat) (c : Z) (G : ready T s cwd c) (dev_read : Z → option (Z → option (list byte))) (path : cstr) (Hnul : no_nul path).
Abbreviation V := (files T s).
Abbreviation C := (icache s).

(** [nameiparent]: a reference to the directory of the last name. *)
Lemma nameiparent_moves : ∃ r C', nameiparent dev_read cwd path s = Some (r, set_cache C' s) ∧
  match r, walk V true (start c path) (names path) with
  | Some (i, name), Some (d, name') => name = name' ∧ no_nul name ∧ moves T s T (set_cache C' s) ∅ 0 (one d) nobody 0 ∧ handle C' i d ∧
      ∃ f, V !! d = Some f ∧ f_type f = T_DIR ∧ (0 < f_nlink f ∨ 0 < refs C d)
  | None, None => moves T s T (set_cache C' s) ∅ 0 (λ _, 0) nobody 0
  | _, _ => False
  end.
Proof.
  destruct G as [G1 G2 G3 G4 G5 (rf&Hrf&Hrn)]. destruct (namex_spec T s G1 G2 G3 ltac:(lia) dev_read true cwd c path rf Hnul G5 Hrf Hrn) as (r&C'&R&W). exists r, C'. split; [done|]. unfold walked in W. fold (start c path) in W.
  destruct r as [[i name]|], (walk V true _ _) as [[d name']|] eqn:Ew; try done.
  - destruct W as [-> [W1 W2 W3 (a&Ha&Hl)]]. destruct (walk_dir _ _ _ _ _ Ew) as [Hin (f&Hf&Ht)]. split_and!; [done|by eapply names_no_nul|by apply moves_cache|done|]. exists f. split_and!; [done|done|].
    pose proof (lookup_files T s d a Ha) as Hf'. rewrite Hf in Hf'. injection Hf' as ->. done.
  - destruct W as [W1 W2]. by apply moves_cache.
Qed.

(** [namei]: a reference to the file. *)
Lemma namei_moves : ∃ r C', namei dev_read cwd path s = Some (r, set_cache C' s) ∧
  match r, walk V false (start c path) (names path) with
  | Some i, Some (n, _) => moves T s T (set_cache C' s) ∅ 0 (one n) nobody 0 ∧ handle C' i n ∧ ∃ f, V !! n = Some f ∧ (0 < f_nlink f ∨ 0 < refs C n)
  | None, None => moves T s T (set_cache C' s) ∅ 0 (λ _, 0) nobody 0
  | _, _ => False
  end.
Proof.
  destruct G as [G1 G2 G3 G4 G5 (rf&Hrf&Hrn)]. destruct (namex_spec T s G1 G2 G3 ltac:(lia) dev_read false cwd c path rf Hnul G5 Hrf Hrn) as (r&C'&R&W). exists (fst <$> r), C'. split; [unfold namei; by rewrite (bind_run _ _ _ _ _ R)|].
  unfold walked in W. fold (start c path) in W. destruct r as [[i name]|], (walk V false _ _) as [[d name']|] eqn:Ew; try done.
  - destruct W as [-> [W1 W2 W3 (a&Ha&Hl)]]. cbn. split_and!; [by apply moves_cache|done|]. exists (file_of s a). split; [by apply lookup_files|done].
  - destruct W as [W1 W2]. by apply moves_cache.
Qed.

End paths.

(** The side conditions of [moves_trans] and [moves_ext]. *)
Ltac moves_side :=
  try solve [ done | lia | clear; set_solver | intros ?; cbn beta; lia | intros ?; unfold then_, only, nobody; repeat case_decide; done ].

(** ** New inodes *)

Lemma one_nonneg n m : 0 ≤ one n m.
Proof. unfold one. case_decide; lia. Qed.
Lemma one_self n : one n n = 1.
Proof. unfold one. by rewrite decide_True. Qed.
Lemma one_other n m : m ≠ n → one n m = 0.
Proof. intros H. unfold one. by rewrite decide_False. Qed.

(** A reference takes at most one entry. *)
Lemma inuse_one C C' d : cache_wf C → cache_wf C' → (∀ m, refs C' m = refs C m + one d m) → (size (inuse C') ≤ size (inuse C) + 1)%nat.
Proof.
  intros W W' H. assert (inuse C' ⊆ {[d]} ∪ inuse C) as Hsub.
  { intros m. rewrite elem_of_union, elem_of_singleton, !elem_inuse by done. rewrite H. unfold one. case_decide; [by left|right; lia]. }
  apply subseteq_size in Hsub. pose proof (size_union_le {[d]} (inuse C)). rewrite size_singleton in *. lia.
Qed.

Lemma ialloc_moves T s type : fs_ok T s → outstanding s ≠ 0%nat → type ≠ 0 → - 2 ^ 15 ≤ type < 2 ^ 15 → (size (inuse (icache s)) < length (icache s))%nat → (∃ n, 1 ≤ n < ninodes (sb s) ∧ T !! n = None) →
  wp (ialloc type) (λ i s', ∃ n T', 1 ≤ n < ninodes (sb s) ∧ T !! n = None ∧ (∀ m, 1 ≤ m < n → T !! m ≠ None) ∧ moves T s T' s' {[IBLOCK n (sb s)]} 0 (one n) nobody 0 ∧
    handle (icache s') i n ∧ files T' s' = <[n := mk_afile type 0 0 0 []]> (files T s)) s.
Proof.
  intros O Hop Ht Htr Hslot Hex. eapply wp_mono; [by apply (ialloc_spec T s O Hop type Ht Htr Hslot)|]. intros i s' (n&[(A1&A2&A3) A4 A5 A6 A7 A8 A9]). exists n. eexists. split_and!; try done; try lia.
  split; [done|done| |lia]. exists ∅. split; [by rewrite size_empty|]. eapply fs_frame_mono; [exact A8|]. set_solver.
Qed.

(** ** New entries *)

Lemma length_dir_add name m l : (length l `mod` 16 = 0)%nat → (length (dir_add name m l) `mod` 16 = 0 ∧ length (dir_add name m l) ≤ length l + 16)%nat.
Proof.
  intros Hl. pose proof (slot_bound l) as Hs. assert (length l = 16 * (length l / 16))%nat as Hd by (pose proof (Nat.Div0.div_mod (length l) 16); lia).
  unfold dir_add, patch. rewrite !length_app, length_take, length_drop, length_enc_dirent. rewrite Nat.min_l by lia.
  destruct (decide (dir_slot l = length l / 16)%nat) as [E|E].
  - replace (16 * dir_slot l + (16 + (length l - (16 * dir_slot l + 16))))%nat with (0 + (dir_slot l + 1) * 16)%nat by lia. rewrite Nat.Div0.mod_add. split; [done|lia].
  - replace (16 * dir_slot l + (16 + (length l - (16 * dir_slot l + 16))))%nat with (length l) by lia. split; [done|lia].
Qed.

Section entries.
Context (T : gmap Z ainode) (s : fss) (O : fs_ok T s) (Hop : outstanding s ≠ 0%nat) (dp i : nat) (d n : Z) (f : afile) (Hf : files T s !! d = Some f).
Context (dev_read : Z → option (Z → option (list byte))) (dev_write : Z → option (list byte → Z)).
Context (Ld : loaded (icache s) dp d) (Ln : loaded (icache s) i n) (Kd : is_locked (icache s) dp = true) (Ht : f_type f = T_DIR).

(** The end of [create]: the entry in the directory, which is let go. *)
Lemma finish_moves name : (length (f_data f) `mod` 16 = 0)%nat → no_nul name → dir_find name (f_data f) = None → 16 * Z.of_nat (dir_slot (f_data f)) + 16 ≤ MAXFILE * BSIZE → 2 ≤ room T ∅ (sb s) →
  f_nlink f ≠ 0 ∨ refs (icache s) d ≠ 1 →
  wp (ip ← read_inode i; r ← dirlink dev_read dev_write dp name (inum ip); if decide (r < 0) then fault else iunlockput dp;; mret (Some i))
    (λ r s', r = Some i ∧ ∃ T', moves T s T' s' {[IBLOCK d (sb s)]} 2 (λ m, - one d m) (only dp false) 2 ∧ files T' s' = <[d := with_data (dir_add name n (f_data f)) f]> (files T s)) s.
Proof.
  intros H16 Hnul Hnew Hmax Hroom Hlive. pose proof Ln as (ip&Hi&<-&_). apply wp_bind. eapply wp_intro; [by apply read_inode_run|]. cbn beta. apply wp_bind.
  eapply wp_mono; [by apply (dirlink_moves T s O dp d f Hf Ld Kd dev_read dev_write Ht H16 Hop name (inum ip))|]. intros r s1 (->&T1&M1&F1). cbn beta. rewrite decide_False by lia.
  pose proof (mv_ok _ _ _ _ _ _ _ _ _ M1) as O1. pose proof (mv_cache _ _ _ _ _ _ _ _ _ M1) as E1. pose proof (handle_refs _ _ _ (fo_wf _ _ O) (loaded_handle _ _ _ Ld)) as Hp.
  destruct (iunlockput_moves T1 s1 O1 dp d (with_data (dir_add name (inum ip) (f_data f)) f)) as (C2&R2&M2); [by rewrite F1, lookup_insert_eq|apply (mv_loaded _ _ _ _ _ _ _ _ _ M1); [done|lia]|by rewrite (ev_lock _ _ _ _ E1)|cbn; by rewrite (ev_refs _ _ _ _ E1), Z.add_0_r|].
  apply wp_bind. eapply wp_intro; [exact R2|]. cbn beta. apply wp_ret. split; [done|]. exists T1. split; [|exact F1].
  eapply moves_ext; [eapply (moves_trans _ _ _ s1); [done|exact M1|exact M2|]|..]; moves_side.
Qed.

Lemma dir_find_nil name : dir_find name [] = None.
Proof. done. Qed.

(** The entries of a new directory. *)
Lemma dots_moves g : files T s !! n = Some g → f_type g = T_DIR → f_data g = [] → is_locked (icache s) i = true → n ≠ d → 1 ≤ n < 2 ^ 16 → 4 ≤ room T ∅ (sb s) →
  wp (create_dots dev_read dev_write i dp) (λ _ s', ∃ T', moves T s T' s' {[IBLOCK n (sb s); IBLOCK d (sb s)]} 4 (λ _, 0) nobody 4 ∧
    files T' s' = <[n := with_data (dir_add (cs "..") d (dir_add (cs ".") n [])) g]> (<[d := with_nlink (s16 (f_nlink f + 1)) f]> (files T s))) s.
Proof.
  intros Hg Htg Hdg Kn Hne Hn16 Hroom. unfold create_dots. pose proof (handle_refs _ _ _ (fo_wf _ _ O) (loaded_handle _ _ _ Ld)) as Hpd. pose proof (handle_refs _ _ _ (fo_wf _ _ O) (loaded_handle _ _ _ Ln)) as Hpn.
  eapply wp_then; [by apply (add_link_moves T s O dp d f Hf Ld Kd)|]. intros s1 (T1&M1&F1). pose proof (mv_ok _ _ _ _ _ _ _ _ _ M1) as O1. pose proof (mv_cache _ _ _ _ _ _ _ _ _ M1) as E1. pose proof (mv_sb _ _ _ _ _ _ _ _ _ M1) as Es1.
  assert (loaded (icache s1) i n ∧ loaded (icache s1) dp d) as [Ln1 Ld1] by (split; apply (mv_loaded _ _ _ _ _ _ _ _ _ M1); (done || lia)). pose proof Ln1 as (ip&Hi&Hin&_). pose proof Ld1 as (pp&Hp&Hpn2&_).
  apply wp_bind. eapply wp_intro; [by apply read_inode_run|]. cbn beta. apply wp_bind. eapply wp_intro; [by apply read_inode_run|]. cbn beta. rewrite Hin, Hpn2. pose proof (mv_room _ _ _ _ _ _ _ _ _ M1) as Hr1.
  apply wp_bind. eapply wp_mono; [apply (dirlink_moves T1 s1 O1 i n g); try done|].
  { by rewrite F1, lookup_insert_ne. } { by rewrite (ev_lock _ _ _ _ E1). } { by rewrite Hdg. } { by rewrite (mv_op _ _ _ _ _ _ _ _ _ M1). } { by apply no_nul_cs. } { by rewrite Hdg. } { by rewrite Hdg. } { rewrite Es1. lia. }
  intros r s2 (->&T2&M2&F2). cbn beta. rewrite decide_False by lia. rewrite Hdg in F2. pose proof (mv_ok _ _ _ _ _ _ _ _ _ M2) as O2. pose proof (mv_cache _ _ _ _ _ _ _ _ _ M2) as E2. pose proof (mv_sb _ _ _ _ _ _ _ _ _ M2) as Es2. rewrite Es1 in *.
  assert (∀ m, refs (icache s2) m = refs (icache s) m) as Hr2 by (intros m; rewrite (ev_refs _ _ _ _ E2), (ev_refs _ _ _ _ E1); lia). destruct (length_dir_add (cs ".") n []) as [H16 Hlen]; [done|].
  pose proof (mv_room _ _ _ _ _ _ _ _ _ M2) as Hr3. rewrite Es1 in Hr3. apply wp_bind. eapply wp_mono; [apply (dirlink_moves T2 s2 O2 i n (with_data (dir_add (cs ".") n []) g)); try done|].
  { by rewrite F2, lookup_insert_eq. } { apply (mv_loaded _ _ _ _ _ _ _ _ _ M2); [done|rewrite (ev_refs _ _ _ _ E1); lia]. } { by rewrite (ev_lock _ _ _ _ E2), (ev_lock _ _ _ _ E1). }
  { by rewrite (mv_op _ _ _ _ _ _ _ _ _ M2), (mv_op _ _ _ _ _ _ _ _ _ M1). } { by apply no_nul_cs. } { cbn [with_data f_data]. rewrite dir_find_add; [by rewrite decide_False|done|by apply no_nul_cs|lia|done]. }
  { cbn [with_data f_data]. pose proof (slot_bound (dir_add (cs ".") n [])) as Hsl. cbn [length] in Hlen. assert (length (dir_add (cs ".") n []) / 16 ≤ 16 / 16)%nat as Hd by (apply Nat.Div0.div_le_mono; lia). change (16 / 16)%nat with 1%nat in Hd.
    unfold MAXFILE, BSIZE. lia. }
  { rewrite Es2. lia. }
  intros r s3 (->&T3&M3&F3). cbn beta. rewrite decide_False by lia. apply wp_ret. exists T3. rewrite Es2 in M3. split.
  - eapply moves_ext; [eapply (moves_trans _ _ _ s1); [done|exact M1|eapply (moves_trans _ _ _ s2); [done|exact M2|exact M3|]|]|..]; moves_side.
  - rewrite F3, F2, F1. cbn [with_data f_data]. by rewrite insert_insert_eq.
Qed.

End entries.

(** * Creation *)

(** The files after a creation in the directory [f], of inode [d]. *)
Definition with_new (V : gmap Z afile) (d : Z) (name : cstr) (f : afile) (type major minor n : Z) : gmap Z afile :=
  let f' := if decide (type = T_DIR) then with_nlink (s16 (f_nlink f + 1)) f else f in
  <[d := with_data (dir_add name n (f_data f)) f']>
    (<[n := mk_afile type (s16 major) (s16 minor) 1 (if decide (type = T_DIR) then dir_add (cs "..") d (dir_add (cs ".") n []) else [])]> V).

Section create.
Context (T : gmap Z ainode) (s : fss) (cwd : nat) (c : Z) (G : ready T s cwd c) (Hop : outstanding s ≠ 0%nat).
Context (dev_read : Z → option (Z → option (list byte))) (dev_write : Z → option (list byte → Z)) (path : cstr) (Hnul : no_nul path).
Context (d : Z) (name : cstr) (f : afile) (Hw : walk (files T s) true (start c path) (names path) = Some (d, name)) (Hd : files T s !! d = Some f).
Abbreviation V := (files T s).
Abbreviation C := (icache s).

(** The rest of [create] once the new inode has been written. *)
Definition create_rest (type : Z) (dp i : nat) : M (option nat) :=
  (if decide (type = T_DIR) then create_dots dev_read dev_write i dp else mret ());;
  ip ← read_inode i;
  r ← dirlink dev_read dev_write dp name (inum ip);
  if decide (r < 0) then fault else iunlockput dp;; mret (Some i).

(** The new inode [n], in entry [i], and its directory in entry [dp], both locked. *)
Record born (type major minor : Z) (dp i : nat) (n : Z) (T' : gmap Z ainode) (s' : fss) : Prop := {
  bn_free : 1 ≤ n < ninodes (sb s) ∧ V !! n = None ∧ ∀ m, 1 ≤ m < n → V !! m ≠ None;
  bn_moves : moves T s T' s' {[IBLOCK n (sb s)]} 0 (λ m, one d m + one n m) (then_ (only dp true) (only i true)) 0;
  bn_files : files T' s' = <[n := mk_afile type (s16 major) (s16 minor) 1 []]> V;
  bn_dir : loaded (icache s') dp d;
  bn_new : loaded (icache s') i n;
  bn_ne : dp ≠ i;
  bn_live : f_type f = T_DIR ∧ no_nul name ∧ (0 < f_nlink f ∨ 0 < refs C d);
}.

Lemma lookup_none n : files T s !! n = None ↔ T !! n = None.
Proof. unfold files. rewrite lookup_fmap. by destruct (T !! n). Qed.

(** The name is new. *)
Lemma create_born type major minor Q :
  dir_find name (f_data f) = None → type ≠ 0 → - 2 ^ 15 ≤ type < 2 ^ 15 → (∃ n, 1 ≤ n < ninodes (sb s) ∧ V !! n = None) →
  (∀ dp i n T' s', born type major minor dp i n T' s' → wp (create_rest type dp i) Q s') → wp (create dev_read dev_write cwd path type major minor) Q s.
Proof.
  intros Hnew Ht Htr Hex HQ. pose proof (rd_ok _ _ _ _ G) as O. destruct (nameiparent_moves T s cwd c G dev_read path Hnul) as (r&C1&R1&H1). rewrite Hw in H1. destruct r as [[dp name']|]; [|done].
  destruct H1 as (->&Hnn&M1&Hh1&f'&Hf'&Htd&Hlive). rewrite Hd in Hf'. injection Hf' as <-. unfold create. apply wp_bind. eapply wp_intro; [exact R1|]. cbv beta iota. set (s1 := set_cache C1 s) in *.
  pose proof (mv_ok _ _ _ _ _ _ _ _ _ M1) as O1. destruct (ilock_moves T s1 O1 dp d Hh1) as (C2&R2&M2&L2); [rewrite (ev_lock _ _ _ _ (mv_cache _ _ _ _ _ _ _ _ _ M1)); apply G|].
  apply wp_bind. eapply wp_intro; [exact R2|]. cbn beta. set (s2 := set_cache C2 s1) in *. pose proof (mv_ok _ _ _ _ _ _ _ _ _ M2) as O2.
  assert (is_locked C2 dp = true) as K2 by (rewrite (ev_lock _ _ _ _ (mv_cache _ _ _ _ _ _ _ _ _ M2)); unfold only; by rewrite decide_True).
  assert (∀ m, refs C2 m = refs C m + one d m) as Hr2 by (intros m; pose proof (ev_refs _ _ _ _ (mv_cache _ _ _ _ _ _ _ _ _ M2) m) as E2; pose proof (ev_refs _ _ _ _ (mv_cache _ _ _ _ _ _ _ _ _ M1) m) as E1; cbn [s2 s1 set_cache icache] in *; lia).
  destruct (opened_file T s2 O2 dp d f Hd L2 K2) as (a&Ha&Ef&D2). destruct (rd_dirs _ _ _ _ G d f Hd Htd) as [H16 _].
  assert (dirlookup dev_read dp name s2 = Some (None, s2)) as Hlook.
  { rewrite (dirlookup_run T s2 O2 dp d a Ha D2); [|by rewrite Ef in Htd|by rewrite Ef in H16|done]. by rewrite Ef in Hnew; cbn [file_of f_data] in Hnew; rewrite Hnew. }
  apply wp_bind. eapply wp_intro; [exact Hlook|]. cbv beta iota. apply wp_bind.
  eapply wp_mono; [apply (ialloc_moves T s2 type O2); [done|done|done| |setoid_rewrite lookup_none in Hex; exact Hex]|].
  { pose proof (inuse_one C C2 d (fo_wf _ _ O) (fo_wf _ _ O2) Hr2) as Hin. pose proof (rd_slots _ _ _ _ G). pose proof (ev_len _ _ _ _ (mv_cache _ _ _ _ _ _ _ _ _ M2)) as E2. pose proof (ev_len _ _ _ _ (mv_cache _ _ _ _ _ _ _ _ _ M1)) as E1. cbn [s2 s1 set_cache icache] in *. lia. }
  intros i s3 (n&T3&Hn&Hfree&Hleast&M3&H3&F3). cbn beta.
  pose proof (mv_ok _ _ _ _ _ _ _ _ _ M3) as O3. pose proof (refs_nonneg C d) as Hpd. pose proof (one_self d) as H1d. pose proof (one_nonneg n d) as Hnd.
  assert (n ≠ d) as Hne by (intros ->; congruence). assert (loaded (icache s3) dp d) as L3 by (apply (mv_loaded _ _ _ _ _ _ _ _ _ M3); [done|cbn [s2 set_cache icache]; rewrite Hr2; lia]).
  assert (dp ≠ i) as Hdi by (intros ->; apply Hne; by eapply handle_inj, loaded_handle). assert (∀ j, is_locked (icache s3) j = bool_decide (j = dp)) as K3.
  { intros j. rewrite (ev_lock _ _ _ _ (mv_cache _ _ _ _ _ _ _ _ _ M3)). cbn. rewrite (ev_lock _ _ _ _ (mv_cache _ _ _ _ _ _ _ _ _ M2)). unfold only. case_decide as E; [by rewrite bool_decide_eq_true_2|].
    cbn. rewrite (ev_lock _ _ _ _ (mv_cache _ _ _ _ _ _ _ _ _ M1)). cbn. rewrite (rd_unlocked _ _ _ _ G). by rewrite bool_decide_eq_false_2. }
  destruct (ilock_moves T3 s3 O3 i n H3) as (C4&R4&M4&L4); [rewrite K3; apply bool_decide_eq_false_2; congruence|]. apply wp_bind. eapply wp_intro; [exact R4|]. cbn beta. set (s4 := set_cache C4 s3) in *.
  pose proof (mv_ok _ _ _ _ _ _ _ _ _ M4) as O4. assert (files T3 s4 !! n = Some (mk_afile type 0 0 0 [])) as Hf4 by (change (files T3 s4) with (files T3 s3); by rewrite F3, lookup_insert_eq).
  assert (is_locked (icache s4) i = true) as K4 by (rewrite (ev_lock _ _ _ _ (mv_cache _ _ _ _ _ _ _ _ _ M4)); unfold only; by rewrite decide_True).
  eapply wp_then; [apply (update_moves T3 s4 O4 i n _ Hf4 L4 K4 _ (s16 major) (s16 minor) 1); try apply s16_range; [by rewrite (mv_op _ _ _ _ _ _ _ _ _ M4), (mv_op _ _ _ _ _ _ _ _ _ M3)| |lia]|].
  { intros a' Ha'. unfold dinode_of, a_meta. injection Ha' as Et _ _ _ _. done. }
  intros s5 (T5&M5&F5). apply (HQ dp i n T5 s5).
  pose proof (mv_sb _ _ _ _ _ _ _ _ _ M3) as Es3. cbn [s4 s2 s1 set_cache sb] in *. rewrite Es3 in M5. assert (∀ m, refs (icache s3) m = refs C m + one d m + one n m) as Hr3 by (intros m; rewrite (ev_refs _ _ _ _ (mv_cache _ _ _ _ _ _ _ _ _ M3)); cbn [s2 set_cache icache]; rewrite Hr2; done).
  assert (∀ m, refs C4 m = refs C m + one d m + one n m) as Hr4 by (intros m; pose proof (ev_refs _ _ _ _ (mv_cache _ _ _ _ _ _ _ _ _ M4) m) as E4; cbn [s4 set_cache icache] in E4; rewrite E4, Hr3; lia).
  split.
  - setoid_rewrite lookup_none. done.
  - eapply moves_ext; [eapply (moves_trans _ _ _ s1); [done|exact M1|eapply (moves_trans _ _ _ s2); [done|exact M2|eapply (moves_trans _ _ _ s3); [done|exact M3|eapply (moves_trans _ _ _ s4); [done|exact M4|exact M5|]|]|]|]|..].
    all: try (intros m Hm _; pose proof (one_nonneg d m); pose proof (one_nonneg n m); cbn [s2 s1 set_cache icache] in *; lia).
    + clear. set_solver.
    + lia.
    + intros m. cbn beta. lia.
    + intros j. rewrite (rd_unlocked _ _ _ _ G). unfold then_, only, nobody. repeat case_decide; done.
    + lia.
  - rewrite F5. change (files T3 s4) with (files T3 s3). by rewrite F3, insert_insert_eq.
  - apply (mv_loaded _ _ _ _ _ _ _ _ _ M5); [|cbn [s4 set_cache icache]; rewrite Hr4; lia]. apply (mv_loaded _ _ _ _ _ _ _ _ _ M4); [done|rewrite Hr3; lia].
  - apply (mv_loaded _ _ _ _ _ _ _ _ _ M5); [done|]. cbn [s4 set_cache icache]. rewrite Hr4. pose proof (one_self n). pose proof (one_nonneg d n). pose proof (refs_nonneg C n). lia.
  - done.
  - done.
Qed.

Lemma lock_born dp i n type major minor T' s' j : born type major minor dp i n T' s' → is_locked (icache s') j = bool_decide (j = dp ∨ j = i).
Proof.
  intros B. rewrite (ev_lock _ _ _ _ (mv_cache _ _ _ _ _ _ _ _ _ (bn_moves _ _ _ _ _ _ _ _ B))), (rd_unlocked _ _ _ _ G). unfold then_, only. destruct (decide (j = i)), (decide (j = dp)); cbn; symmetry; (apply bool_decide_eq_true_2; tauto) || (apply bool_decide_eq_false_2; tauto).
Qed.

(** [create] of a name that its directory does not have yet. *)
Lemma create_spec type major minor :
  dir_find name (f_data f) = None → type ≠ 0 → - 2 ^ 15 ≤ type < 2 ^ 15 → (∃ n, 1 ≤ n < ninodes (sb s) ∧ V !! n = None) →
  16 * Z.of_nat (dir_slot (f_data f)) + 16 ≤ MAXFILE * BSIZE → (if decide (type = T_DIR) then 6 else 2) ≤ room T ∅ (sb s) →
  wp (create dev_read dev_write cwd path type major minor) (λ r s', ∃ i n T', r = Some i ∧ (1 ≤ n < ninodes (sb s) ∧ V !! n = None ∧ ∀ m, 1 ≤ m < n → V !! m ≠ None) ∧
    moves T s T' s' {[IBLOCK n (sb s); IBLOCK d (sb s)]} 6 (one n) (only i true) 6 ∧ loaded (icache s') i n ∧ files T' s' = with_new V d name f type major minor n) s.
Proof.
  intros Hnew Ht Htr Hex Hmax Hroom. apply create_born; [done..|]. intros dp i n T1 s1 B. pose proof (lock_born _ _ _ _ _ _ _ _ dp B) as Kd. pose proof (lock_born _ _ _ _ _ _ _ _ i B) as Ki. rewrite bool_decide_eq_true_2 in Kd, Ki by auto.
  destruct B as [Hn M1 F1 Ld Li Hne (Htd&Hnn&Hlive)]. pose proof (mv_ok _ _ _ _ _ _ _ _ _ M1) as O1. pose proof (mv_room _ _ _ _ _ _ _ _ _ M1) as Hr1. pose proof (mv_sb _ _ _ _ _ _ _ _ _ M1) as Es1. pose proof (mv_op _ _ _ _ _ _ _ _ _ M1) as Eo1.
  pose proof (rd_ok _ _ _ _ G) as O. destruct (rd_dirs _ _ _ _ G d f Hd Htd) as [H16 _]. assert (n ≠ d) as Hnd by (intros ->; destruct Hn as (_&Hn&_); congruence).
  assert (∀ m, refs (icache s1) m = refs C m + (one d m + one n m)) as Hrf1 by (intros m; apply (ev_refs _ _ _ _ (mv_cache _ _ _ _ _ _ _ _ _ M1))).
  assert (∀ m, 0 ≤ refs C m) as Hr0 by (intros; apply refs_nonneg). pose proof (one_self d) as Hod. pose proof (one_self n) as Hon. pose proof (one_other n d ltac:(done)) as Hond. pose proof (one_other d n ltac:(done)) as Hodn. pose proof (Hr0 d). pose proof (Hr0 n).
  set (f' := if decide (type = T_DIR) then with_nlink (s16 (f_nlink f + 1)) f else f). set (g := mk_afile type (s16 major) (s16 minor) 1 (if decide (type = T_DIR) then dir_add (cs "..") d (dir_add (cs ".") n []) else [])).
  assert (f_data f' = f_data f ∧ f_type f' = f_type f ∧ (0 < f_nlink f → f_nlink f' ≠ 0)) as (Ed&Et&Enl).
  { unfold f'. case_decide; cbn; split_and!; try done; intros; [|lia]. destruct (lookup_files_inv _ _ _ _ Hd) as (a&Ha&E). destruct (fi_table _ _ _ _ (fo_inv _ _ O) d a Ha) as [_ Hok]. pose proof (ao_nlink _ _ Hok) as Hb.
    rewrite E in *. cbn [file_of f_nlink] in *. unfold s16, to_signed. change (2 ^ (16 - 1)) with 32768. change (2 ^ 16) with 65536. change (2 ^ 15) with 32768 in Hb. Z.to_euclidean_division_equations. lia. }
  assert (∃ T2 s2, (if decide (type = T_DIR) then create_dots dev_read dev_write i dp else mret ()) s1 = Some ((), s2) ∧ moves T1 s1 T2 s2 {[IBLOCK n (sb s); IBLOCK d (sb s)]} 4 (λ _, 0) nobody (if decide (type = T_DIR) then 4 else 0) ∧
    files T2 s2 = <[n := g]> (<[d := f']> V)) as (T2&s2&R2&M2&F2).
  { unfold f', g. destruct (decide (type = T_DIR)) as [Hdir|Hdir].
    - destruct (wp_elim (create_dots dev_read dev_write i dp) (λ _ s', ∃ T', moves T1 s1 T' s' {[IBLOCK n (sb s1); IBLOCK d (sb s1)]} 4 (λ _, 0) nobody 4 ∧
        files T' s' = <[n := with_data (dir_add (cs "..") d (dir_add (cs ".") n [])) (mk_afile type (s16 major) (s16 minor) 1 [])]> (<[d := with_nlink (s16 (f_nlink f + 1)) f]> (files T1 s1))) s1) as ([]&s2&R2&T2&M2&F2).
      + pose proof (fi_layout _ _ _ _ (fo_inv _ _ O)) as L. pose proof (ly_inodes _ L). change (2 ^ 16) with 65536. 
        apply (dots_moves T1 s1 O1); try done; [congruence|by rewrite F1, lookup_insert_ne|by rewrite F1, lookup_insert_eq|lia|rewrite Es1; lia].
      + rewrite Es1 in M2. exists T2, s2. split_and!; [done|done|]. rewrite F2, F1. rewrite (insert_insert_ne _ d n) by done. by rewrite insert_insert_eq.
    - exists T1, s1. split_and!; [done| |].
      + eapply moves_ext; [by apply moves_refl|..]; moves_side.
      + rewrite F1. by rewrite (insert_id V d f). }
  unfold create_rest. apply wp_bind. eapply wp_intro; [exact R2|]. cbn beta.
  pose proof (mv_ok _ _ _ _ _ _ _ _ _ M2) as O2. pose proof (mv_cache _ _ _ _ _ _ _ _ _ M2) as E2. pose proof (mv_sb _ _ _ _ _ _ _ _ _ M2) as Es2. pose proof (mv_room _ _ _ _ _ _ _ _ _ M2) as Hr2. rewrite Es1 in *.
  assert (∀ m, refs (icache s2) m = refs C m + (one d m + one n m)) as Hrf2 by (intros m; rewrite (ev_refs _ _ _ _ E2), Hrf1; lia).
  eapply wp_mono; [apply (finish_moves T2 s2 O2 ltac:(by rewrite (mv_op _ _ _ _ _ _ _ _ _ M2), Eo1) dp i d n f'); try done|].
  { by rewrite F2, lookup_insert_ne, lookup_insert_eq by done. } { apply (mv_loaded _ _ _ _ _ _ _ _ _ M2); [done|rewrite Hrf1; lia]. } { apply (mv_loaded _ _ _ _ _ _ _ _ _ M2); [done|rewrite Hrf1; lia]. }
  { by rewrite (ev_lock _ _ _ _ E2). } { by rewrite Et. } { by rewrite Ed. } { by rewrite Ed. } { by rewrite Ed. } { rewrite Es2. revert Hroom Hr2. case_decide; lia. } { destruct Hlive; [left; auto|right; rewrite Hrf2; lia]. }
  intros r s3 (->&T3&M3&F3). rewrite Es2 in M3. exists i, n, T3. split; [done|]. split; [done|]. split_and!.
  - eapply moves_ext; [eapply (moves_trans _ _ _ s1); [done|exact M1|eapply (moves_trans _ _ _ s2); [done|exact M2|exact M3|]|]|..]; moves_side.
    + intros m Hm _. pose proof (one_nonneg d m). pose proof (one_nonneg n m). lia.
    + intros j. rewrite (rd_unlocked _ _ _ _ G). unfold then_, only, nobody. repeat case_decide; try done; congruence.
  - apply (mv_loaded _ _ _ _ _ _ _ _ _ M3); [apply (mv_loaded _ _ _ _ _ _ _ _ _ M2); [done|rewrite Hrf1; lia]|rewrite Hrf2; lia].
  - rewrite F3, F2, Ed. unfold with_new. fold f' g. rewrite (insert_insert_ne _ d n) by done. rewrite insert_insert_eq. rewrite (insert_insert_ne _ n d) by done. done.
Qed.

End create.

(** [sys_unlink] of xv6: the entry of the name is cleared, and a file that has
    lost its last name and is not open is gone, with all its blocks. *)

(** * Two locked inodes *)

Lemma ready_log T s cwd c o l : ready T s cwd c → ready T (with_log o l s) cwd c.
Proof. intros [G1 G2 G3 G4 G5 G6]. split; try done. by apply ok_log. Qed.

Lemma namecmp_cs name t : no_nul name → no_nul t → (length name ≤ DIRSIZ)%nat → (length t ≤ DIRSIZ)%nat → namecmp name t = bool_decide (name = t).
Proof.
  intros Hn Ht Hln Hlt. unfold namecmp. rewrite strncmp_take, !take_ge by done. by rewrite !take_while_no_nul.
Qed.

Lemma names_short path name : name ∈ names path → (length name ≤ DIRSIZ)%nat.
Proof. intros Hin. apply list_elem_of_fmap in Hin as (t&->&Ht). rewrite length_take. lia. Qed.

(** Directories whose entries from the third on are free. *)
Definition dir_empty (l : list byte) : bool := bool_decide (Forall (λ de, de_inum de = 0) (drop 2 (dents l))).

Section empty.
Context (T : gmap Z ainode) (s : fss) (O : fs_ok T s) (dp : nat) (n : Z) (f : afile) (Hf : files T s !! n = Some f).
Context (L : loaded (icache s) dp n) (K : is_locked (icache s) dp = true) (Ht : f_type f = T_DIR) (H16 : (length (f_data f) `mod` 16 = 0)%nat).

Lemma isdirempty_loop_run dev_read fuel : ∀ k, (length (f_data f) / 16 < k + fuel)%nat →
  isdirempty_loop dev_read fuel dp (sizeof_dirent * Z.of_nat k) s = Some (bool_decide (Forall (λ de, de_inum de = 0) (drop k (dents (f_data f)))), s).
Proof.
  destruct (opened_file T s O dp n f Hf L K) as (a&Ha&E&D). rewrite E in *. cbn [file_of f_data f_type] in *. destruct (size_content T s O n a Ha H16) as (Hsz&Hdiv&_). pose proof D as (ip&Hi&Hn&_&_&_&Hd).
  induction fuel as [|fuel IH]; intros k Hfuel.
  - cbn [isdirempty_loop]. erewrite bind_run by (by apply read_inode_run). rewrite Hd. cbn [dinode_of d_size]. rewrite Hsz. rewrite decide_False by (unfold sizeof_dirent; lia).
    rewrite drop_ge by (rewrite length_dents; lia). rewrite bool_decide_eq_true_2 by constructor. done.
  - cbn [isdirempty_loop]. erewrite bind_run by (by apply read_inode_run). rewrite Hd. cbn [dinode_of d_size]. rewrite Hsz. case_decide as Hlt.
    + assert (k < length (content s a) / 16)%nat as Hk' by (unfold sizeof_dirent in *; lia). destruct (lookup_dents (content s a) k Hk') as [Hde Hl16]. erewrite bind_run by (by apply (read_dirent T s O dp n a Ha D Ht H16)).
      cbv beta iota. rewrite Hl16. rewrite (decide_False (P := Z.of_nat 16 ≠ sizeof_dirent)) by (unfold sizeof_dirent; lia). rewrite (drop_S _ _ _ Hde). set (de := take 16 _).
      destruct (decide (de_inum de ≠ 0)) as [Hz|Hz].
      * rewrite bool_decide_eq_false_2 by (intros H; apply Forall_cons in H as [H _]; done). done.
      * replace (sizeof_dirent * Z.of_nat k + sizeof_dirent) with (sizeof_dirent * Z.of_nat (S k)) by (unfold sizeof_dirent; lia). rewrite IH by lia. do 2 f_equal. apply bool_decide_ext. rewrite Forall_cons.
        destruct (decide (de_inum de = 0)); [tauto|done].
    + rewrite drop_ge by (rewrite length_dents; unfold sizeof_dirent in *; lia). rewrite bool_decide_eq_true_2 by constructor. done.
Qed.

Lemma isdirempty_run dev_read : isdirempty dev_read dp s = Some (dir_empty (f_data f), s).
Proof.
  destruct (opened_file T s O dp n f Hf L K) as (a&Ha&E&D). destruct (size_content T s O n a Ha) as (Hsz&Hdiv&_); [by rewrite E in H16|]. pose proof D as (ip&Hi&Hn&_&_&_&Hd).
  unfold isdirempty. erewrite bind_run by (by apply read_inode_run). rewrite Hd. cbn [dinode_of d_size]. change (2 * sizeof_dirent) with (sizeof_dirent * Z.of_nat 2). apply isdirempty_loop_run.
  rewrite E. cbn [file_of f_data]. rewrite Hsz. unfold sizeof_dirent. change 16 with (Z.of_nat 16). rewrite <- Nat2Z.inj_div. lia.
Qed.

End empty.

(** * Entries *)

Section found.
Context (T : gmap Z ainode) (s : fss) (O : fs_ok T s) (dp : nat) (d : Z) (f : afile) (Hd : files T s !! d = Some f) (V : dirs_ok (files T s)).
Context (L : loaded (icache s) dp d) (K : is_locked (icache s) dp = true) (Ht : f_type f = T_DIR) (Hslot : (size (inuse (icache s)) < length (icache s))%nat).
Context (dev_read : Z → option (Z → option (list byte))) (name : cstr) (Hnn : no_nul name) (k : nat) (de : list byte) (Hfind : dir_find name (f_data f) = Some (k, de)).
Abbreviation m := (de_inum de).

(** A reference to the file of an entry. *)
Lemma found_moves : ∃ i C', dirlookup dev_read dp name s = Some (Some (i, sizeof_dirent * Z.of_nat k), set_cache C' s) ∧ moves T s T (set_cache C' s) ∅ 0 (one m) nobody 0 ∧ handle C' i m ∧
  (∃ g, files T s !! m = Some g ∧ 0 < f_nlink g) ∧ (k < length (f_data f) / 16)%nat.
Proof.
  destruct (opened_file T s O dp d f Hd L K) as (a&Ha&Ef&D). destruct (V d f Hd Ht) as [H16 Hent]. pose proof (dirlookup_run T s O dp d a Ha D ltac:(by rewrite Ef in Ht) ltac:(by rewrite Ef in H16) dev_read name Hnn) as Hlook.
  pose proof Hfind as Hfind'. rewrite Ef in Hfind'. cbn [file_of f_data] in Hfind'. rewrite Hfind' in Hlook. apply list_find_Some in Hfind as (Hk&[Hmz _]&_). destruct (Hent k de Hk Hmz) as (g&Hg&Hgl). pose proof Hg as Hg'. apply lookup_files_inv in Hg' as (b&Hb&_).
  destruct (iget_spec T s O m ltac:(eauto) ltac:(by right)) as (i&C3&R3&O3&E3&H3). rewrite (bind_run _ _ _ _ _ R3) in Hlook. exists i, C3. split_and!; [done|by apply moves_cache|done|eauto|].
  apply lookup_lt_Some in Hk. by rewrite length_dents in Hk.
Qed.

(** A name that the directory has cannot be added; the file is not [d] itself. *)
Lemma dirlink_exists dev_write n : m ≠ d → (∀ j, is_locked (icache s) j = true → j = dp) → ∃ C', dirlink dev_read dev_write dp name n s = Some (-1, set_cache C' s) ∧ moves T s T (set_cache C' s) ∅ 0 (λ _, 0) nobody 0.
Proof.
  intros Hmd Hl. destruct found_moves as (i&C1&R1&M1&H1&(g&Hg&Hgl)&_). unfold dirlink. rewrite (bind_run _ _ _ _ _ R1). cbv beta iota. pose proof (mv_ok _ _ _ _ _ _ _ _ _ M1) as O1. pose proof (mv_cache _ _ _ _ _ _ _ _ _ M1) as E1.
  destruct (lookup_files_inv _ _ _ _ Hg) as (b&Hb&->). destruct (iput_linked T (set_cache C1 s) O1 i m b H1) as (C2&R2&O2&E2); [|done|cbn in Hgl; lia|].
  { rewrite (ev_lock _ _ _ _ E1). cbn. destruct (is_locked (icache s) i) eqn:Ei; [|done]. apply Hl in Ei as ->. destruct Hmd. eapply handle_inj; [exact H1|]. apply loaded_handle, (mv_loaded _ _ _ _ _ _ _ _ _ M1); [done|].
    pose proof (handle_refs _ _ _ (fo_wf _ _ O) (loaded_handle _ _ _ L)). pose proof (one_nonneg m d). lia. }
  rewrite (bind_run _ _ _ _ _ R2). exists C2. split; [done|]. pose proof (moves_cache T (set_cache C1 s) C2 _ nobody O2 E2) as M2. change (set_cache C2 (set_cache C1 s)) with (set_cache C2 s) in M2.
  eapply moves_ext; [eapply (moves_trans _ _ _ (set_cache C1 s)); [done|exact M1|exact M2|]|..]; moves_side. intros x Hx _. pose proof (one_nonneg m x). lia.
Qed.

(** An entry that names the directory itself is the case of [.], which [iput]
    waits for although the caller has it locked. *)
Lemma dirlink_self dev_write n : m = d → dirlink dev_read dev_write dp name n s = None.
Proof.
  intros Hmd. destruct found_moves as (i&C1&R1&M1&H1&_). unfold dirlink. rewrite (bind_run _ _ _ _ _ R1). cbv beta iota. pose proof (mv_cache _ _ _ _ _ _ _ _ _ M1) as E1. pose proof (mv_ok _ _ _ _ _ _ _ _ _ M1) as O1.
  assert (handle C1 dp m) as H2.
  { rewrite Hmd. apply loaded_handle, (mv_loaded _ _ _ _ _ _ _ _ _ M1); [done|]. pose proof (handle_refs _ _ _ (fo_wf _ _ O) (loaded_handle _ _ _ L)). pose proof (one_nonneg m d). lia. }
  destruct H1 as (ip&Hi&Hin&Hr), H2 as (ip2&Hi2&Hin2&Hr2). assert (i = dp) as -> by (eapply (fo_wf _ _ O1); (done || congruence)). assert (locked ip = true) as Hl.
  { pose proof (ev_lock _ _ _ _ E1 dp) as Hk. cbn in Hk. rewrite K in Hk. unfold is_locked in Hk. by rewrite Hi in Hk. }
  unfold mbind at 1, ST_bind. unfold iput. by rewrite (bind_run _ _ _ _ _ (read_inode_run dp (set_cache C1 s) ip Hi)), Hl.
Qed.

End found.

(** * The directory and the file *)

Section unlink.
Context (T : gmap Z ainode) (s : fss) (cwd : nat) (c : Z) (G : ready T s cwd c).
Context (dev_read : Z → option (Z → option (list byte))) (dev_write : Z → option (list byte → Z)) (path : cstr) (Hnul : no_nul path).
Context (d : Z) (name : cstr) (f : afile) (Hw : walk (files T s) true (start c path) (names path) = Some (d, name)) (Hd : files T s !! d = Some f).
Abbreviation V := (files T s).
Abbreviation C := (icache s).

(** The directory of the path, locked. *)
Lemma parent_locked : ∃ dp C1 C2, nameiparent dev_read cwd path s = Some (Some (dp, name), set_cache C1 s) ∧ ilock dp (set_cache C1 s) = Some ((), set_cache C2 s) ∧
  moves T s T (set_cache C2 s) ∅ 0 (one d) (only dp true) 0 ∧ loaded C2 dp d ∧ f_type f = T_DIR ∧ no_nul name ∧ (0 < f_nlink f ∨ 0 < refs C d).
Proof.
  pose proof (rd_ok _ _ _ _ G) as O. destruct (nameiparent_moves T s cwd c G dev_read path Hnul) as (r&C1&R1&H1). rewrite Hw in H1. destruct r as [[dp name']|]; [|done].
  destruct H1 as (->&Hnn&M1&Hh1&f'&Hf'&Htd&Hlive). rewrite Hd in Hf'. injection Hf' as <-. pose proof (mv_ok _ _ _ _ _ _ _ _ _ M1) as O1.
  destruct (ilock_moves T (set_cache C1 s) O1 dp d Hh1) as (C2&R2&M2&L2); [rewrite (ev_lock _ _ _ _ (mv_cache _ _ _ _ _ _ _ _ _ M1)); apply G|].
  exists dp, C1, C2. split_and!; try done. change (set_cache C2 (set_cache C1 s)) with (set_cache C2 s) in M2. eapply moves_ext; [eapply (moves_trans _ _ _ (set_cache C1 s)); [done|exact M1|exact M2|]|..]; moves_side.
Qed.

Context (k : nat) (de : list byte) (Hfind : dir_find name (f_data f) = Some (k, de)).
Abbreviation m := (de_inum de).

(** The file of an entry and its directory, both locked. *)
Lemma entry_locked dp C2 : moves T s T (set_cache C2 s) ∅ 0 (one d) (only dp true) 0 → loaded C2 dp d → f_type f = T_DIR → no_nul name → m ≠ d →
  ∃ i C3 C4, dirlookup dev_read dp name (set_cache C2 s) = Some (Some (i, sizeof_dirent * Z.of_nat k), set_cache C3 s) ∧ ilock i (set_cache C3 s) = Some ((), set_cache C4 s) ∧
    moves T s T (set_cache C4 s) ∅ 0 (λ x, one d x + one m x) (then_ (only dp true) (only i true)) 0 ∧ loaded C4 dp d ∧ loaded C4 i m ∧ i ≠ dp ∧ (∃ g, V !! m = Some g ∧ 0 < f_nlink g) ∧ (k < length (f_data f) / 16)%nat.
Proof.
  intros M2 L2 Htd Hnn Hmd. pose proof (rd_ok _ _ _ _ G) as O. pose proof (mv_ok _ _ _ _ _ _ _ _ _ M2) as O2. pose proof (mv_cache _ _ _ _ _ _ _ _ _ M2) as E2. cbn [set_cache icache] in E2.
  assert (is_locked C2 dp = true) as K2 by (rewrite (ev_lock _ _ _ _ E2); unfold only; by rewrite decide_True).
  destruct (found_moves T (set_cache C2 s) O2 dp d f Hd (rd_dirs _ _ _ _ G) L2 K2 Htd) with (dev_read := dev_read) (name := name) (k := k) (de := de) as (i&C3&Hlook&M3&H3&Hg&Hlt); [|done..|].
  { pose proof (inuse_one C C2 d (fo_wf _ _ O) (fo_wf _ _ O2) (ev_refs _ _ _ _ E2)). pose proof (rd_slots _ _ _ _ G). pose proof (ev_len _ _ _ _ E2). cbn [set_cache icache]. lia. }
  change (set_cache C3 (set_cache C2 s)) with (set_cache C3 s) in *. pose proof (mv_ok _ _ _ _ _ _ _ _ _ M3) as O3. pose proof (mv_cache _ _ _ _ _ _ _ _ _ M3) as E3. cbn [set_cache icache] in E3.
  pose proof (refs_nonneg C d) as Hpd. pose proof (refs_nonneg C m) as Hpm. pose proof (one_self d) as Hod. pose proof (one_self m) as Hom. pose proof (one_nonneg m d) as Hmdn. pose proof (one_nonneg d m) as Hdmn. pose proof (ev_refs _ _ _ _ E2) as Hr2. pose proof (ev_refs _ _ _ _ E3) as Hr3.
  assert (loaded C3 dp d) as L3 by (apply (mv_loaded _ _ _ _ _ _ _ _ _ M3); [done|cbn; rewrite Hr2; lia]).
  assert (i ≠ dp) as Hne by (intros ->; apply Hmd; by eapply handle_inj, loaded_handle).
  assert (is_locked C3 i = false) as K3 by (rewrite (ev_lock _ _ _ _ E3); cbn; rewrite (ev_lock _ _ _ _ E2); unfold only; rewrite decide_False by done; apply G).
  destruct (ilock_moves T (set_cache C3 s) O3 i m H3 K3) as (C4&R4&M4&L4). exists i, C3, C4. split_and!; try done.
  - change (set_cache C4 (set_cache C3 s)) with (set_cache C4 s) in M4. change (set_cache C3 (set_cache C2 s)) with (set_cache C3 s) in M3.
    eapply moves_ext; [eapply (moves_trans _ _ _ (set_cache C2 s)); [done|exact M2|eapply (moves_trans _ _ _ (set_cache C3 s)); [done|exact M3|exact M4|]|]|..]; moves_side.
    intros x Hx _. pose proof (one_nonneg d x). lia.
  - apply (mv_loaded _ _ _ _ _ _ _ _ _ M4); [done|cbn; rewrite Hr3, Hr2; lia].
Qed.

End unlink.

(** The directory without the entry [k]. *)
Definition without_entry (k : nat) (isdir : bool) (f : afile) : afile :=
  with_data (patch (16 * k) (replicate 16 NUL) (f_data f)) (if isdir then with_nlink (s16 (f_nlink f - 1)) f else f).

(** The files with one name less for [g], of inode [m]: the entry [k] of the
    directory [f], of inode [d]. *)
Definition with_less (V : gmap Z afile) (open : Z) (d : Z) (f : afile) (k : nat) (m : Z) (g : afile) : gmap Z afile :=
  let V1 := <[d := without_entry k (bool_decide (f_type g = T_DIR)) f]> V in
  if decide (f_nlink g = 1 ∧ open = 0) then delete m V1 else <[m := with_nlink (f_nlink g - 1) g]> V1.

Section clear.
Context (T : gmap Z ainode) (s : fss) (O : fs_ok T s) (Hop : outstanding s ≠ 0%nat).

(** The directory loses the entry, and a link to it when the file is a
    directory. *)
Lemma erase_entry dev_write dp d f g k : files T s !! d = Some f → loaded (icache s) dp d → is_locked (icache s) dp = true → f_type f = T_DIR → (length (f_data f) `mod` 16 = 0)%nat → (k < length (f_data f) / 16)%nat →
  wp (writei dev_write dp (replicate (Z.to_nat sizeof_dirent) NUL) (sizeof_dirent * Z.of_nat k)) (λ r s1, r = sizeof_dirent ∧
    wp (if decide (f_type g = T_DIR) then upd_din dp (add_link (-1));; iupdate dp else mret ()) (λ _ s', ∃ T', moves T s T' s' {[IBLOCK d (sb s)]} 2 (λ _, 0) nobody 0 ∧
      files T' s' = <[d := without_entry k (bool_decide (f_type g = T_DIR)) f]> (files T s)) s1) s.
Proof.
  intros Hf Ld Kd Ht H16 Hk. eapply wp_mono; [by apply (erase_moves T s O dp d f Hf Ld Kd (λ _, None) dev_write Ht H16 Hop k)|]. intros r s1 (->&T1&M1&F1). split; [done|]. unfold without_entry. case_decide as Hdir.
  - rewrite bool_decide_eq_true_2 by done. pose proof (mv_ok _ _ _ _ _ _ _ _ _ M1) as O1. pose proof (mv_cache _ _ _ _ _ _ _ _ _ M1) as E1. pose proof (handle_refs _ _ _ (fo_wf _ _ O) (loaded_handle _ _ _ Ld)) as Hp.
    eapply wp_mono; [apply (add_link_moves T1 s1 O1 dp d (with_data (patch (16 * k) (replicate 16 NUL) (f_data f)) f))|].
    { by rewrite F1, lookup_insert_eq. } { apply (mv_loaded _ _ _ _ _ _ _ _ _ M1); [done|lia]. } { by rewrite (ev_lock _ _ _ _ E1). } { by rewrite (mv_op _ _ _ _ _ _ _ _ _ M1). }
    intros [] s2 (T2&M2&F2). rewrite (mv_sb _ _ _ _ _ _ _ _ _ M1) in M2. exists T2. split; [|by rewrite F2, F1, insert_insert_eq].
    eapply moves_ext; [eapply (moves_trans _ _ _ s1); [done|exact M1|exact M2|]|..]; moves_side.
  - rewrite bool_decide_eq_false_2 by done. apply wp_ret. eauto.
Qed.

(** One link less for the file, which goes when nobody has it open. *)
Lemma drop_link {B} i m g (K : M B) Q : files T s !! m = Some g → loaded (icache s) i m → is_locked (icache s) i = true → 0 < f_nlink g →
  (∀ T' s', moves T s T' s' {[IBLOCK m (sb s)]} 0 (λ x, - one m x) (only i false) 0 →
     files T' s' = (if decide (f_nlink g = 1 ∧ refs (icache s) m = 1) then delete m (files T s) else <[m := with_nlink (f_nlink g - 1) g]> (files T s)) → wp K Q s') →
  wp (upd_din i (add_link (-1));; iupdate i;; iunlockput i;; K) Q s.
Proof.
  intros Hg Lm Km Hpos HK. eapply wp_then; [by apply (add_link_moves T s O i m g Hg Lm Km)|]. intros s1 (T1&M1&F1). pose proof (mv_ok _ _ _ _ _ _ _ _ _ M1) as O1. pose proof (mv_cache _ _ _ _ _ _ _ _ _ M1) as E1. pose proof (mv_sb _ _ _ _ _ _ _ _ _ M1) as Es1.
  pose proof (handle_refs _ _ _ (fo_wf _ _ O) (loaded_handle _ _ _ Lm)) as Hp.
  assert (s16 (f_nlink g + -1) = f_nlink g - 1) as En.
  { destruct (lookup_files_inv _ _ _ _ Hg) as (a&Ha&E). destruct (fi_table _ _ _ _ (fo_inv _ _ O) m a Ha) as [_ Hok]. pose proof (ao_nlink _ _ Hok) as Hb. rewrite E in *. cbn [file_of f_nlink] in *.
    unfold s16, to_signed. change (2 ^ (16 - 1)) with 32768. change (2 ^ 16) with 65536. change (2 ^ 15) with 32768 in Hb. Z.to_euclidean_division_equations. lia. }
  rewrite En in F1. assert (files T1 s1 !! m = Some (with_nlink (f_nlink g - 1) g)) as Hg1 by (by rewrite F1, lookup_insert_eq). assert (loaded (icache s1) i m) as L1 by (apply (mv_loaded _ _ _ _ _ _ _ _ _ M1); [done|lia]).
  assert (is_locked (icache s1) i = true) as K1 by (by rewrite (ev_lock _ _ _ _ E1)). assert (refs (icache s1) m = refs (icache s) m) as Hr1 by (rewrite (ev_refs _ _ _ _ E1); lia). apply wp_bind.
  destruct (decide (f_nlink g = 1 ∧ refs (icache s) m = 1)) as [[E1' E2']|Hkeep].
  - eapply wp_mono; [apply (iunlockput_frees T1 s1 O1 i m _ Hg1 L1 K1); [cbn; lia|lia|by rewrite (mv_op _ _ _ _ _ _ _ _ _ M1)]|]. intros [] s2 (M2&F2). rewrite Es1 in M2. apply (HK (delete m T1)); [|by rewrite F2, F1, delete_insert_eq].
    eapply moves_ext; [eapply (moves_trans _ _ _ s1); [done|exact M1|exact M2|]|..]; moves_side.
  - destruct (iunlockput_moves T1 s1 O1 i m _ Hg1 L1 K1) as (C2&R2&M2); [cbn; lia|]. eapply wp_intro; [exact R2|]. cbn beta. apply (HK T1); [|done].
    eapply moves_ext; [eapply (moves_trans _ _ _ s1); [done|exact M1|exact M2|]|..]; moves_side.
Qed.

End clear.

(** * Calls *)

(** A whole call: one transaction, from a state without any. *)
Record call (T : gmap Z ainode) (s : fss) (T' : gmap Z ainode) (s' : fss) (D : gset Z) (y : nat) (dr : Z → Z) (dl : nat → option bool) (k : Z) : Prop := {
  ca_ok : fs_ok T' s';
  ca_cache : evolves (icache s) (icache s') dr dl;
  ca_log : ∃ Y, (size Y ≤ y)%nat ∧ logged s' ⊆ bitmap_blocks (sb s) ∪ D ∪ Y;
  ca_room : room T ∅ (sb s) - k ≤ room T' ∅ (sb s);
  ca_op : outstanding s' = 0%nat;
  ca_sb : sb s' = sb s;
}.

Lemma call_moves T s T' s' D y dr dl k : moves T (with_log 1 ∅ s) T' s' D y dr dl k → call T s T' (with_log (Nat.pred (outstanding s')) (logged s') s') D y dr dl k.
Proof.
  intros M. pose proof (mv_op _ _ _ _ _ _ _ _ _ M) as Eo. pose proof (mv_sb _ _ _ _ _ _ _ _ _ M) as Es. destruct M as [A1 A2 (Y&Hy&F) A4]. split; try done.
  - by apply ok_log.
  - exists Y. split; [done|]. pose proof (fr_logged _ _ _ F) as Hl. cbn [with_log logged sb] in *. clear - Hl. set_solver.
  - cbn [with_log outstanding] in *. by rewrite Eo.
Qed.

(** The same, and the rest of the call is [end_op]. *)
Lemma wp_end {A} T s T' s' D y dr dl k (r : A) (Q : A → fss → Prop) : moves T (with_log 1 ∅ s) T' s' D y dr dl k →
  (∀ s'', call T s T' s'' D y dr dl k → files T' s'' = files T' s' → Q r s'') → wp (end_op;; mret r) Q s'.
Proof. intros M H. apply wp_bind. eapply wp_intro; [apply end_run|]. apply wp_ret. apply H; [by apply call_moves|done]. Qed.

(** What [unlink] does to the files. *)
Definition unlink_files (V : gmap Z afile) (open : Z → Z) (c : Z) (path : cstr) : Z * gmap Z afile :=
  match walk V true (start c path) (names path) with
  | None => (-1, V)
  | Some (d, name) =>
      if bool_decide (name = cs ".") || bool_decide (name = cs "..") then (-1, V)
      else
        match f ← V !! d; '(k, de) ← dir_find name (f_data f); g ← V !! de_inum de; Some (f, k, de_inum de, g) with
        | None => (-1, V)
        | Some (f, k, m, g) => if bool_decide (f_type g = T_DIR) && negb (dir_empty (f_data g)) then (-1, V) else (0, with_less V (open m) d f k m g)
        end
  end.

Section sys_unlink.
Context (T : gmap Z ainode) (s : fss) (cwd : nat) (c : Z) (G : ready T s cwd c) (Hop : outstanding s = 0%nat).
Context (dev_read : Z → option (Z → option (list byte))) (dev_write : Z → option (list byte → Z)) (path : cstr) (Hnul : no_nul path).
Abbreviation V := (files T s).
Abbreviation C := (icache s).

(** Directories have one parent, which stays. *)
Definition unlink_ok : Prop := ∀ d name f k de g,
  walk V true (start c path) (names path) = Some (d, name) → name ≠ cs "." → name ≠ cs ".." → V !! d = Some f → dir_find name (f_data f) = Some (k, de) → V !! de_inum de = Some g → f_type g = T_DIR →
  de_inum de ≠ d ∧ (f_nlink f ≠ 1 ∨ 0 < refs C d).

Abbreviation s0 := (with_log 1 ∅ s).
Definition failed (r : Z) (s' : fss) : Prop := r = -1 ∧ call T s T s' ∅ 0 (λ _, 0) nobody 0 ∧ files T s' = V.

Lemma begin_first {A} (K : M A) Q : wp K Q s0 → wp (begin_op;; K) Q s.
Proof. intros H. apply wp_bind. eapply wp_intro; [apply begin_run|]. cbn beta. by rewrite Hop, decide_True. Qed.

Lemma ready0 : ready T s0 cwd c.
Proof. by apply ready_log. Qed.

(** The directory is let go and nothing has changed. *)
Lemma unlink_bad_run dp d f C2 : moves T s0 T (set_cache C2 s0) ∅ 0 (one d) (only dp true) 0 → loaded C2 dp d → V !! d = Some f → 0 < f_nlink f ∨ 0 < refs C d → wp (unlink_bad dp) failed (set_cache C2 s0).
Proof.
  intros M2 L2 Hd Hlive. pose proof (mv_ok _ _ _ _ _ _ _ _ _ M2) as O2. pose proof (mv_cache _ _ _ _ _ _ _ _ _ M2) as E2. cbn [set_cache icache with_log] in E2. pose proof (one_self d). pose proof (refs_nonneg C d).
  destruct (iunlockput_moves T (set_cache C2 s0) O2 dp d f Hd L2) as (C3&R3&M3).
  { cbn [set_cache icache]. rewrite (ev_lock _ _ _ _ E2). unfold only. by rewrite decide_True. }
  { cbn [set_cache icache]. rewrite (ev_refs _ _ _ _ E2). lia. }
  unfold unlink_bad. apply wp_bind. eapply wp_intro; [exact R3|]. cbn beta. eapply (wp_end T s T (set_cache C3 s0) ∅ 0 (λ _, 0) nobody 0); [|by intros s'' Ca F].
  eapply moves_ext; [eapply (moves_trans _ _ _ (set_cache C2 s0)); [apply ready0|exact M2|exact M3|]|..]; moves_side.
  - intros x Hx _. pose proof (one_nonneg d x). cbn [with_log icache]. cbn [with_log icache] in Hx. lia.
  - intros j. cbn [with_log icache]. rewrite (rd_unlocked _ _ _ _ G). unfold then_, only, nobody. repeat case_decide; done.
Qed.

(** The removal of the name. *)
Lemma unlink_done dp i d f k m g C4 : moves T s0 T (set_cache C4 s0) ∅ 0 (λ x, one d x + one m x) (then_ (only dp true) (only i true)) 0 → loaded C4 dp d → loaded C4 i m → i ≠ dp → m ≠ d →
  V !! d = Some f → V !! m = Some g → f_type f = T_DIR → 0 < f_nlink g → (k < length (f_data f) / 16)%nat → 0 < f_nlink f ∨ 0 < refs C d → (f_type g = T_DIR → f_nlink f ≠ 1 ∨ 0 < refs C d) →
  wp (r ← writei dev_write dp (replicate (Z.to_nat sizeof_dirent) NUL) (sizeof_dirent * Z.of_nat k);
      if decide (r ≠ sizeof_dirent) then fault
      else (if decide (f_type g = T_DIR) then upd_din dp (add_link (-1));; iupdate dp else mret ());; iunlockput dp;; upd_din i (add_link (-1));; iupdate i;; iunlockput i;; end_op;; mret 0)
    (λ r s', r = 0 ∧ ∃ T', call T s T' s' {[IBLOCK d (sb s); IBLOCK m (sb s)]} 2 (λ _, 0) nobody 0 ∧ files T' s' = with_less V (refs C m) d f k m g) (set_cache C4 s0).
Proof.
  intros M4 L4d L4m Hip Hmd Hd Hm Htd Hgl Hk Hlive Hstay. set (s4 := set_cache C4 s0) in *. pose proof (mv_ok _ _ _ _ _ _ _ _ _ M4) as O4. pose proof (mv_cache _ _ _ _ _ _ _ _ _ M4) as E4. cbn [s4 set_cache icache with_log] in E4.
  assert (is_locked C4 dp = true ∧ is_locked C4 i = true) as [Kd Ki] by (rewrite !(ev_lock _ _ _ _ E4); unfold then_, only; by repeat case_decide). pose proof (ev_refs _ _ _ _ E4) as Hr4. cbn beta in Hr4.
  destruct (rd_dirs _ _ _ _ G d f Hd Htd) as [H16 _]. pose proof (one_self d) as Hod. pose proof (one_self m) as Hom. pose proof (one_other d m Hmd) as Hodm. pose proof (one_other m d ltac:(done)) as Homd. pose proof (refs_nonneg C d) as Hpd. pose proof (refs_nonneg C m) as Hpm.
  apply wp_bind. eapply wp_mono; [by apply (erase_entry T s4 O4 ltac:(done) dev_write dp d f g k)|]. intros r s5 (->&W5). cbn beta. rewrite decide_False by (intros H; by apply H). apply wp_bind. eapply wp_mono; [exact W5|]. clear W5 s5.
  intros [] s6 (T6&M6&F6). cbn beta. pose proof (mv_ok _ _ _ _ _ _ _ _ _ M6) as O6. pose proof (mv_cache _ _ _ _ _ _ _ _ _ M6) as E6. pose proof (ev_refs _ _ _ _ E6) as Hr6. cbn [s4 set_cache icache] in Hr6. cbn beta in Hr6. set (f' := without_entry k (bool_decide (f_type g = T_DIR)) f) in *.
  destruct (iunlockput_moves T6 s6 O6 dp d f') as (C7&R7&M7).
  { by rewrite F6, lookup_insert_eq. } { apply (mv_loaded _ _ _ _ _ _ _ _ _ M6); [done|cbn; rewrite Hr4; lia]. } { by rewrite (ev_lock _ _ _ _ E6). }
  { rewrite Hr6, Hr4. unfold f', without_entry. cbn. case_bool_decide as Hdir; cbn; [|lia]. destruct (Hstay Hdir) as [Hne|?]; [|lia]. destruct Hlive as [Hl|?]; [left|lia].
    destruct (lookup_files_inv _ _ _ _ Hd) as (a&Ha&E). destruct (fi_table _ _ _ _ (fo_inv _ _ (rd_ok _ _ _ _ G)) d a Ha) as [_ Hok]. pose proof (ao_nlink _ _ Hok) as Hb. rewrite E in *. cbn [file_of f_nlink] in *.
    unfold s16, to_signed. change (2 ^ (16 - 1)) with 32768. change (2 ^ 16) with 65536. change (2 ^ 15) with 32768 in Hb. Z.to_euclidean_division_equations. lia. }
  apply wp_bind. eapply wp_intro; [exact R7|]. cbn beta. set (s7 := set_cache C7 s6) in *. pose proof (mv_ok _ _ _ _ _ _ _ _ _ M7) as O7. pose proof (mv_cache _ _ _ _ _ _ _ _ _ M7) as E7. pose proof (ev_refs _ _ _ _ E7) as Hr7. cbn [s7 set_cache icache] in Hr7. cbn beta in Hr7.
  pose proof (mv_sb _ _ _ _ _ _ _ _ _ M6) as Es6. cbn [s4 set_cache with_log sb] in *.
  eapply (drop_link T6 s7 O7 ltac:(rewrite (mv_op _ _ _ _ _ _ _ _ _ M7), (mv_op _ _ _ _ _ _ _ _ _ M6); done) i m g); [| | |done|].
  { change (files T6 s7) with (files T6 s6). by rewrite F6, lookup_insert_ne. } { apply (mv_loaded _ _ _ _ _ _ _ _ _ M7); [apply (mv_loaded _ _ _ _ _ _ _ _ _ M6); [done|cbn; rewrite Hr4; lia]|rewrite Hr6, Hr4; lia]. }
  { rewrite (ev_lock _ _ _ _ E7). unfold only. rewrite decide_False by done. cbn. by rewrite (ev_lock _ _ _ _ E6). }
  intros T8 s8 M8 F8. assert (sb s7 = sb s) as Es7 by done. rewrite Es7 in M8. eapply (wp_end T s T8 s8 {[IBLOCK d (sb s); IBLOCK m (sb s)]} 2 (λ _, 0) nobody 0).
  - eapply moves_ext; [eapply (moves_trans _ _ _ s4); [apply ready0|exact M4|eapply (moves_trans _ _ _ s6); [done|exact M6|eapply (moves_trans _ _ _ s7); [done|exact M7|exact M8|]|]|]|..]; moves_side.
    + intros x Hx Hx2. pose proof (one_nonneg m x). lia.
    + intros x Hx _. pose proof (one_nonneg d x). pose proof (one_nonneg m x). cbn [with_log icache] in *. lia.
    + intros j. cbn [with_log icache]. rewrite (rd_unlocked _ _ _ _ G). unfold then_, only, nobody. repeat case_decide; done.
  - intros s9 Ca F9. split; [done|]. exists T8. split; [done|]. rewrite F9, F8. change (files T6 s7) with (files T6 s6). rewrite F6. unfold with_less. fold f'. cbn [s7 set_cache icache]. rewrite Hr7, Hr6, Hr4, Hodm, Hom.
    destruct (decide (f_nlink g = 1 ∧ refs C m = 0)) as [H|H]; [rewrite decide_True by lia|rewrite decide_False by lia]; done.
Qed.

(** The call refines the change of the files. *)
Definition unlinked (r : Z) (s' : fss) : Prop :=
  r = fst (unlink_files V (refs C) c path) ∧ ∃ T' D, (size D ≤ 2)%nat ∧ call T s T' s' D 2 (λ _, 0) nobody 0 ∧ files T' s' = snd (unlink_files V (refs C) c path).

Lemma failed_unlinked r s' : (unlink_files V (refs C) c path) = (-1, V) → failed r s' → unlinked r s'.
Proof.
  intros E (->&[A1 A2 (Y&Hy&A3) A4 A5 A6]&F). unfold unlinked. rewrite E. split; [done|]. exists T, ∅. split; [rewrite size_empty; lia|]. split; [|done]. split; try done. exists Y. split; [lia|done].
Qed.

Lemma sys_unlink_spec : unlink_ok → wp (sys_unlink dev_read dev_write cwd path) unlinked s.
Proof.
  intros Hok. unfold sys_unlink. apply begin_first. apply wp_bind. destruct (walk V true (start c path) (names path)) as [[d name]|] eqn:Ew.
  2: { destruct (nameiparent_moves T s0 cwd c ready0 dev_read path Hnul) as (r&C1&R1&H1). change (files T s0) with V in H1. rewrite Ew in H1. destruct r as [[dp name]|]; [done|]. eapply wp_intro; [exact R1|]. cbv beta iota.
    eapply wp_end; [exact H1|]. intros s'' Ca F. apply failed_unlinked; [by unfold unlink_files; rewrite Ew|]. by split. }
  destruct (walk_dir _ _ _ _ _ Ew) as [Hin (f&Hd&Htd)]. destruct (parent_locked T s0 cwd c ready0 dev_read path Hnul d name f Ew Hd) as (dp&C1&C2&R1&R2&M2&L2&_&Hnn&Hlive). change (refs (icache s0) d) with (refs C d) in Hlive.
  eapply wp_intro; [exact R1|]. cbv beta iota. apply wp_bind. eapply wp_intro; [exact R2|]. cbn beta.
  rewrite !namecmp_cs by first [done|by apply no_nul_cs|by eapply names_short|vm_compute; lia]. assert (∀ r s', (unlink_files V (refs C) c path) = (-1, V) → failed r s' → unlinked r s') as Hbad by (intros; by apply failed_unlinked).
  destruct (bool_decide (name = cs ".") || bool_decide (name = cs "..")) eqn:Hdots.
  { eapply wp_mono; [by apply (unlink_bad_run dp d f C2 M2 L2 Hd Hlive)|]. intros r s'. apply Hbad. unfold unlink_files. by rewrite Ew, Hdots. }
  apply wp_bind. destruct (dir_find name (f_data f)) as [[k de]|] eqn:Hfind.
  2: { pose proof (mv_ok _ _ _ _ _ _ _ _ _ M2) as O2. pose proof (mv_cache _ _ _ _ _ _ _ _ _ M2) as E2. destruct (opened_file T (set_cache C2 s0) O2 dp d f Hd L2) as (a&Ha&Ef&D2); [rewrite (ev_lock _ _ _ _ E2); unfold only; by rewrite decide_True|].
    destruct (rd_dirs _ _ _ _ G d f Hd Htd) as [H16 _]. rewrite Ef in Htd, H16, Hfind. cbn [file_of f_type f_data] in *.
    eapply wp_intro; [rewrite (dirlookup_run T (set_cache C2 s0) O2 dp d a Ha D2 Htd H16 dev_read name Hnn), Hfind; done|]. cbv beta iota.
    eapply wp_mono; [by apply (unlink_bad_run dp d f C2 M2 L2 Hd Hlive)|]. intros r s'. apply Hbad. unfold unlink_files. rewrite Ew, Hdots, Hd, Ef. cbn. by rewrite Hfind. }
  pose proof Hdots as Hnd. apply orb_false_iff in Hnd as [Hn1 Hn2]. apply bool_decide_eq_false in Hn1, Hn2. pose proof Hfind as Hf2. apply list_find_Some in Hf2 as (Hk&[Hmz _]&_).
  destruct (rd_dirs _ _ _ _ G d f Hd Htd) as [H16 Hent]. destruct (Hent k de Hk Hmz) as (g&Hg&Hgl). assert (de_inum de ≠ d ∧ (f_type g = T_DIR → f_nlink f ≠ 1 ∨ 0 < refs C d)) as [Hmd Hstay].
  { destruct (decide (f_type g = T_DIR)) as [Hdir|Hdir]; [by destruct (Hok d name f k de g) as [? ?]|]. split; [intros E; rewrite E in Hg; congruence|done]. }
  destruct (entry_locked T s0 cwd c ready0 dev_read d name f Hd k de Hfind dp C2 M2 L2 Htd Hnn Hmd) as (i&C3&C4&R3&R4&M4&L4d&L4m&Hne&_&Hlt). eapply wp_intro; [exact R3|]. cbv beta iota. apply wp_bind. eapply wp_intro; [exact R4|]. cbn beta.
  pose proof (mv_ok _ _ _ _ _ _ _ _ _ M4) as O4. pose proof (mv_cache _ _ _ _ _ _ _ _ _ M4) as E4. assert (is_locked C4 i = true) as K4 by (rewrite (ev_lock _ _ _ _ E4); unfold then_, only; by rewrite decide_True).
  destruct (opened_file T (set_cache C4 s0) O4 i (de_inum de) g Hg L4m K4) as (a&Ha&Eg&ip&Hi&_&_&_&_&Hdin). apply wp_bind. eapply wp_intro; [by apply read_inode_run|]. cbn beta.
  assert (d_nlink (din ip) = f_nlink g ∧ d_type (din ip) = f_type g) as [-> ->] by (rewrite Hdin, Eg; done). rewrite decide_False by lia.
  assert ((unlink_files V (refs C) c path) = if bool_decide (f_type g = T_DIR) && negb (dir_empty (f_data g)) then (-1, V) else (0, with_less V (refs C (de_inum de)) d f k (de_inum de) g)) as Eu by (unfold unlink_files; rewrite Ew, Hdots, Hd; cbn; rewrite Hfind; cbn; by rewrite Hg).
  apply wp_bind. apply (wp_intro _ _ _ (negb (bool_decide (f_type g = T_DIR) && negb (dir_empty (f_data g)))) (set_cache C4 s0)).
  { destruct (decide (f_type g = T_DIR)) as [Hdir|Hdir]; [rewrite bool_decide_eq_true_2 by done|by rewrite bool_decide_eq_false_2 by done]. rewrite (isdirempty_run T (set_cache C4 s0) O4 i (de_inum de) g Hg L4m K4 Hdir); [by rewrite andb_true_l, negb_involutive|by apply (rd_dirs _ _ _ _ G (de_inum de))]. }
  cbn beta. rewrite negb_involutive. destruct (bool_decide (f_type g = T_DIR) && negb (dir_empty (f_data g))) eqn:Hne2.
  - destruct (iunlockput_moves T (set_cache C4 s0) O4 i (de_inum de) g Hg L4m K4) as (C5&R5&M5); [lia|]. apply wp_bind. eapply wp_intro; [exact R5|]. cbn beta. change (set_cache C5 (set_cache C4 s0)) with (set_cache C5 s0) in *.
    eapply wp_mono; [apply (unlink_bad_run dp d f C5); [|apply (mv_loaded _ _ _ _ _ _ _ _ _ M5); [done|]|done|done]|intros r s'; by apply Hbad].
    + eapply moves_ext; [eapply (moves_trans _ _ _ (set_cache C4 s0)); [apply ready0|exact M4|exact M5|]|..]; moves_side.
      * intros x Hx _. pose proof (one_nonneg d x). pose proof (one_nonneg (de_inum de) x). lia.
      * intros j. cbn [with_log icache]. rewrite (rd_unlocked _ _ _ _ G). unfold then_, only, nobody. repeat case_decide; try done; congruence.
    + pose proof (ev_refs _ _ _ _ E4 d) as Hr. cbn beta in Hr. cbn [set_cache icache with_log] in *. rewrite Hr, (one_self d), (one_other (de_inum de) d) by done. pose proof (refs_nonneg C d). lia.
  - eapply wp_mono; [by apply (unlink_done dp i d f k (de_inum de) g C4)|]. intros r s' (->&T'&Ca&F). unfold unlinked. rewrite Eu. split; [done|]. exists T'. eexists. split; [|split; [exact Ca|done]].
    etrans; [apply size_union_le|]. rewrite !size_singleton. done.
Qed.

End sys_unlink.
