(* ===== verification/XvFsLink.v ===== *)
(** [sys_link] of xv6, and the calls that create files, against maps of files. *)

From stdpp Require Import base option list numbers gmap sets.
From coqutil Require Import Datatypes.RecordSettersUsingExistingGetters.
From Stdlib Require Import Strings.Byte ZArith Lia.
From S2P Require Import Prelude CString XvFs XvFsInv XvFsInode XvFsIo XvFsCache XvFsDir XvFsCalls XvFsRw XvFsOps.
Local Open Scope Z_scope.

(** * Links *)

Lemma iput_moves T s i n f : fs_ok T s → files T s !! n = Some f → handle (icache s) i n → is_locked (icache s) i = false → f_nlink f ≠ 0 ∨ refs (icache s) n ≠ 1 →
  ∃ C', iput i s = Some ((), set_cache C' s) ∧ moves T s T (set_cache C' s) ∅ 0 (λ m, - one n m) nobody 0.
Proof.
  intros O Hf H Hl Hk. destruct (lookup_files_inv _ _ _ _ Hf) as (a&Ha&->). destruct (iput_linked T s O i n a H Hl Ha Hk) as (C'&R&O'&E). exists C'. split; [done|by apply moves_cache].
Qed.

Lemma s16_id z : - 2 ^ 15 ≤ z < 2 ^ 15 → s16 z = z.
Proof. unfold s16, to_signed. change (2 ^ (16 - 1)) with 32768. change (2 ^ 16) with 65536. change (2 ^ 15) with 32768. intros. Z.to_euclidean_division_equations. lia. Qed.

(** The directories stay well formed when a file changes that was not one and
    keeps its names. *)
Lemma dirs_ok_nlink V n g k : dirs_ok V → V !! n = Some g → 0 < k → dirs_ok (<[n := with_nlink k g]> V).
Proof.
  intros W Hg Hk d f Hd Ht. assert (∃ f0, V !! d = Some f0 ∧ f_type f0 = T_DIR ∧ f_data f0 = f_data f) as (f0&Hf0&Ht0&E).
  { destruct (decide (d = n)) as [->|Hne]; [|rewrite lookup_insert_ne in Hd by done; eauto]. rewrite lookup_insert_eq in Hd. injection Hd as <-. eauto. }
  rewrite <- E. destruct (W d f0 Hf0 Ht0) as [H16 Hent]. split; [done|]. intros i de Hde Hz. destruct (Hent i de Hde Hz) as (h&Hh&Hl). destruct (decide (de_inum de = n)) as [->|Hne].
  - exists (with_nlink k g). by rewrite lookup_insert_eq.
  - exists h. by rewrite lookup_insert_ne.
Qed.

(** The new name of the file [g], of inode [n]. *)
Definition link_name (V : gmap Z afile) (c : Z) (new : cstr) (n : Z) (g : afile) : Z * gmap Z afile :=
  let V1 := <[n := with_nlink (f_nlink g + 1) g]> V in
  match walk V1 true (start c new) (names new) with
  | None => (-1, V)
  | Some (d, name) =>
      match f ← V1 !! d; Some (f, dir_find name (f_data f)) with
      | Some (f, None) => (0, <[d := with_data (dir_add name n (f_data f)) f]> V1)
      | _ => (-1, V)
      end
  end.

(** What [link] does to the files. *)
Definition link_files (V : gmap Z afile) (c : Z) (old new : cstr) : Z * gmap Z afile :=
  match walk V false (start c old) (names old) with
  | None => (-1, V)
  | Some (n, _) =>
      match V !! n with
      | None => (-1, V)
      | Some g => if decide (f_type g = T_DIR) then (-1, V) else link_name V c new n g
      end
  end.

Section sys_link.
Context (T : gmap Z ainode) (s : fss) (cwd : nat) (c : Z) (G : ready T s cwd c) (Hop : outstanding s = 0%nat) (Hslots : (size (inuse (icache s)) + 4 ≤ length (icache s))%nat).
Context (dev_read : Z → option (Z → option (list byte))) (dev_write : Z → option (list byte → Z)) (old new : cstr) (Hold : no_nul old) (Hnew : no_nul new).
Abbreviation V := (files T s).
Abbreviation C := (icache s).
Abbreviation s0 := (with_log 1 ∅ s).

(** The file has one more link, and the call a reference to it. *)
Record linking (n : Z) (g : afile) (i : nat) (T' : gmap Z ainode) (s' : fss) : Prop := {
  li_moves : moves T s0 T' s' {[IBLOCK n (sb s)]} 0 (one n) nobody 0;
  li_files : files T' s' = <[n := with_nlink (f_nlink g + 1) g]> V;
  li_handle : handle (icache s') i n;
}.

Section file.
Context (n : Z) (g : afile) (Hg : V !! n = Some g) (Hnl : 0 ≤ f_nlink g < 2 ^ 15 - 1) (Hlive : 0 < f_nlink g ∨ 0 < refs C n).

Lemma linking_ready i T' s' : linking n g i T' s' → ready T' s' cwd c.
Proof.
  intros [M F H]. pose proof (mv_cache _ _ _ _ _ _ _ _ _ M) as E. pose proof (mv_ok _ _ _ _ _ _ _ _ _ M) as O'. pose proof (rd_ok _ _ _ _ G) as O. cbn [with_log icache] in E. split.
  - done.
  - rewrite F. apply dirs_ok_nlink; [apply G|done|lia].
  - intros j. rewrite (ev_lock _ _ _ _ E). apply G.
  - pose proof (inuse_one C (icache s') n (fo_wf _ _ O) (fo_wf _ _ O') (ev_refs _ _ _ _ E)). rewrite (ev_len _ _ _ _ E). lia.
  - apply (ev_handle _ _ _ _ E); [apply G|]. rewrite (ev_refs _ _ _ _ E). pose proof (handle_refs _ _ _ (fo_wf _ _ O) (rd_cwd _ _ _ _ G)). pose proof (one_nonneg n c). lia.
  - destruct (rd_root _ _ _ _ G) as (r&Hr&Hrl). rewrite F. destruct (decide (n = ROOTINO)) as [->|Hne]; [rewrite lookup_insert_eq; eexists; split; [done|cbn; lia]|]. exists r. by rewrite lookup_insert_ne.
Qed.

(** The undoing of the link. *)
Lemma link_bad_run i T' s' : linking n g i T' s' → wp (link_bad i) (λ r s'', r = -1 ∧ ∃ T'', call T s T'' s'' {[IBLOCK n (sb s)]} 0 (λ _, 0) nobody 0 ∧ files T'' s'' = V) s'.
Proof.
  intros Li. pose proof (linking_ready _ _ _ Li) as G1. destruct Li as [M F H]. pose proof (mv_ok _ _ _ _ _ _ _ _ _ M) as O1. destruct (ilock_moves T' s' O1 i n H (rd_unlocked _ _ _ _ G1 i)) as (C2&R2&M2&L2).
  unfold link_bad. apply wp_bind. eapply wp_intro; [exact R2|]. cbn beta. set (s2 := set_cache C2 s') in *. pose proof (mv_ok _ _ _ _ _ _ _ _ _ M2) as O2. pose proof (mv_cache _ _ _ _ _ _ _ _ _ M2) as E2. cbn [s2 set_cache icache] in E2.
  assert (is_locked C2 i = true) as K2 by (rewrite (ev_lock _ _ _ _ E2); unfold only; by rewrite decide_True). pose proof (mv_sb _ _ _ _ _ _ _ _ _ M) as Es1. pose proof (mv_cache _ _ _ _ _ _ _ _ _ M) as E1. cbn [with_log icache sb] in *.
  assert (∀ x, refs C2 x = refs C x + one n x) as Hr2 by (intros x; rewrite (ev_refs _ _ _ _ E2), (ev_refs _ _ _ _ E1); lia). pose proof (one_self n) as Hon. pose proof (refs_nonneg C n).
  eapply wp_then; [apply (add_link_moves T' s2 O2 i n (with_nlink (f_nlink g + 1) g)); [change (files T' s2) with (files T' s'); by rewrite F, lookup_insert_eq|done|done|rewrite (mv_op _ _ _ _ _ _ _ _ _ M2), (mv_op _ _ _ _ _ _ _ _ _ M); done]|].
  intros s3 (T3&M3&F3). pose proof (mv_ok _ _ _ _ _ _ _ _ _ M3) as O3. pose proof (mv_cache _ _ _ _ _ _ _ _ _ M3) as E3. change (files T' s2) with (files T' s') in F3. rewrite F, insert_insert_eq in F3.
  assert (with_nlink (s16 (f_nlink (with_nlink (f_nlink g + 1) g) + -1)) (with_nlink (f_nlink g + 1) g) = g) as Eg.
  { cbn. rewrite s16_id by (change (2 ^ 15) with 32768 in *; lia). replace (f_nlink g + 1 + -1) with (f_nlink g) by lia. by destruct g. }
  rewrite Eg in F3. rewrite (insert_id V n g Hg) in F3. destruct (iunlockput_moves T3 s3 O3 i n g) as (C4&R4&M4).
  { by rewrite F3. } { apply (mv_loaded _ _ _ _ _ _ _ _ _ M3); [done|cbn; rewrite Hr2; lia]. } { by rewrite (ev_lock _ _ _ _ E3). } { rewrite (ev_refs _ _ _ _ E3). cbn [s2 set_cache icache]. rewrite Hr2. lia. }
  apply wp_bind. eapply wp_intro; [exact R4|]. cbn beta. assert (sb s2 = sb s) as Es2 by done. rewrite Es2 in M3. eapply (wp_end T s T3 (set_cache C4 s3) {[IBLOCK n (sb s)]} 0 (λ _, 0) nobody 0).
  - eapply moves_ext; [eapply (moves_trans _ _ _ s'); [by apply ok_log, G|exact M|eapply (moves_trans _ _ _ s2); [done|exact M2|eapply (moves_trans _ _ _ s3); [done|exact M3|exact M4|]|]|]|..]; moves_side.
    + intros x Hx _. pose proof (one_nonneg n x). cbn [with_log icache] in *. lia.
    + intros j. cbn [with_log icache]. rewrite (rd_unlocked _ _ _ _ G). unfold then_, only, nobody. repeat case_decide; done.
  - intros s5 Ca F5. split; [done|]. exists T3. split; [done|]. rewrite F5. exact F3.
Qed.

(** From the reference that the path gives to one more link. *)
Lemma link_counted {B} i C1 (K : inode → M B) (bad : M B) Q : moves T s0 T (set_cache C1 s0) ∅ 0 (one n) nobody 0 → handle C1 i n → f_type g ≠ T_DIR →
  (∀ ip T' s', inum ip = n → linking n g i T' s' → wp (K ip) Q s') →
  wp (ilock i;; ip ← read_inode i; if decide (d_type (din ip) = T_DIR) then bad else upd_din i (add_link 1);; iupdate i;; iunlock i;; K ip) Q (set_cache C1 s0).
Proof.
  intros M1 H1 Ht HK. pose proof (mv_ok _ _ _ _ _ _ _ _ _ M1) as O1. pose proof (mv_cache _ _ _ _ _ _ _ _ _ M1) as E1. cbn [with_log icache set_cache] in E1. destruct (ilock_moves T (set_cache C1 s0) O1 i n H1) as (C2&R2&M2&L2); [rewrite (ev_lock _ _ _ _ E1); apply G|].
  apply wp_bind. eapply wp_intro; [exact R2|]. cbn beta. set (s2 := set_cache C2 (set_cache C1 s0)) in *. pose proof (mv_ok _ _ _ _ _ _ _ _ _ M2) as O2. pose proof (mv_cache _ _ _ _ _ _ _ _ _ M2) as E2. cbn [s2 set_cache icache] in E2.
  assert (is_locked C2 i = true) as K2 by (rewrite (ev_lock _ _ _ _ E2); unfold only; by rewrite decide_True). destruct (opened_file T s2 O2 i n g Hg L2 K2) as (a&Ha&Eg&ip&Hi&Hin&_&_&_&Hdin).
  assert (∀ x, refs C2 x = refs C x + one n x) as Hr2 by (intros x; rewrite (ev_refs _ _ _ _ E2), (ev_refs _ _ _ _ E1); lia). pose proof (one_self n) as Hon. pose proof (refs_nonneg C n).
  apply wp_bind. eapply wp_intro; [by apply read_inode_run|]. cbn beta. rewrite decide_False by (rewrite Hdin; cbn; by rewrite Eg in Ht).
  eapply wp_then; [by apply (add_link_moves T s2 O2 i n g Hg L2 K2)|]. intros s3 (T3&M3&F3). pose proof (mv_ok _ _ _ _ _ _ _ _ _ M3) as O3. pose proof (mv_cache _ _ _ _ _ _ _ _ _ M3) as E3. rewrite s16_id in F3 by (change (2 ^ 15) with 32768 in *; lia).
  assert (loaded (icache s3) i n) as L3 by (apply (mv_loaded _ _ _ _ _ _ _ _ _ M3); [done|cbn; rewrite Hr2; lia]). destruct (iunlock_moves T3 s3 O3 i n (with_nlink (f_nlink g + 1) g)) as (C4&R4&M4); [by rewrite F3, lookup_insert_eq|done|by rewrite (ev_lock _ _ _ _ E3)|].
  apply wp_bind. eapply wp_intro; [exact R4|]. cbn beta. assert (sb s2 = sb s) as Es2 by done. rewrite Es2 in M3. apply (HK ip T3 (set_cache C4 s3) Hin). split.
  - eapply moves_ext; [eapply (moves_trans _ _ _ (set_cache C1 s0)); [by apply ok_log, G|exact M1|eapply (moves_trans _ _ _ s2); [done|exact M2|eapply (moves_trans _ _ _ s3); [done|exact M3|exact M4|]|]|]|..]; moves_side.
    intros j. cbn [with_log icache]. rewrite (rd_unlocked _ _ _ _ G). unfold then_, only, nobody. repeat case_decide; done.
  - exact F3.
  - apply (mv_handle _ _ _ _ _ _ _ _ _ M4); [by apply loaded_handle|]. rewrite (ev_refs _ _ _ _ E3). cbn [s2 set_cache icache]. rewrite Hr2. lia.
Qed.

(** The same, of a call that then waits for ever. *)
Lemma link_counted_none {B} i C1 (K : inode → M B) (bad : M B) : moves T s0 T (set_cache C1 s0) ∅ 0 (one n) nobody 0 → handle C1 i n → f_type g ≠ T_DIR →
  (∀ ip T' s', inum ip = n → linking n g i T' s' → K ip s' = None) →
  (ilock i;; ip ← read_inode i; if decide (d_type (din ip) = T_DIR) then bad else upd_din i (add_link 1);; iupdate i;; iunlock i;; K ip) (set_cache C1 s0) = None.
Proof.
  intros M1 H1 Ht HK. pose proof (link_counted i C1 (λ ip s', match K ip s' with None => Some ((), s') | Some _ => None end) fault (λ _ _, True) M1 H1 Ht) as H. specialize (H (λ ip T' s' Hi Li, wp_intro (λ s', match K ip s' with None => Some ((), s') | Some _ => None end) (λ _ _, True) s' () s' ltac:(cbv beta; by rewrite (HK ip T' s' Hi Li)) I)). revert H. unfold wp, mbind, ST_bind.
  destruct (ilock i _) as [[[] s2]|]; [|done]. destruct (read_inode i s2) as [[ip s3]|]; [|done]. case_decide; [done|]. destruct (upd_din i _ s3) as [[[] s4]|]; [|done]. destruct (iupdate i s4) as [[[] s5]|]; [|done]. destruct (iunlock i s5) as [[[] s6]|]; [|done]. by destruct (K ip s6).
Qed.

(** The new name. *)
Abbreviation V1 := (<[n := with_nlink (f_nlink g + 1) g]> V).

(** The new name is not a name of the directory for itself, and there is room
    for it. *)
Definition link_ok : Prop := ∀ d name f,
  walk V1 true (start c new) (names new) = Some (d, name) → V1 !! d = Some f →
  match dir_find name (f_data f) with Some (k, de) => de_inum de ≠ d | None => 16 * Z.of_nat (dir_slot (f_data f)) + 16 ≤ MAXFILE * BSIZE ∧ 2 ≤ room T ∅ (sb s) end.

Definition linked_to (r : Z) (s' : fss) : Prop :=
  r = fst (link_name V c new n g) ∧ ∃ T' D, (size D ≤ 2)%nat ∧ call T s T' s' D 2 (λ _, 0) nobody 2 ∧ files T' s' = snd (link_name V c new n g).

Lemma bad_linked i T' s' : linking n g i T' s' → (link_name V c new n g) = (-1, V) → wp (link_bad i) linked_to s'.
Proof.
  intros Li E. eapply wp_mono; [by eapply link_bad_run|]. intros r s'' (->&T''&[A1 A2 (Y&Hy&A3) A4 A5 A6]&F). unfold linked_to. rewrite E. split; [done|]. exists T'', {[IBLOCK n (sb s)]}. split; [rewrite size_singleton; lia|].
  split; [|done]. split; try done; [|lia]. exists Y. split; [lia|done].
Qed.

(** ** In the directory of the new name *)

Section named.
Context (i : nat) (T1 : gmap Z ainode) (s1 : fss) (Li : linking n g i T1 s1) (Hok : link_ok) (Htg : f_type g ≠ T_DIR).

Lemma linking_stays s2 : moves T1 s1 T1 s2 ∅ 0 (λ _, 0) nobody 0 → files T1 s2 = files T1 s1 → linking n g i T1 s2.
Proof.
  intros M2 F2. destruct Li as [M1 F1 H1]. pose proof (mv_cache _ _ _ _ _ _ _ _ _ M1) as E1. cbn [with_log icache] in E1. split.
  - eapply moves_ext; [eapply (moves_trans _ _ _ s1); [by apply ok_log, G|exact M1|exact M2|]|..]; moves_side.
  - by rewrite F2.
  - apply (mv_handle _ _ _ _ _ _ _ _ _ M2); [done|]. rewrite (ev_refs _ _ _ _ E1), one_self. pose proof (refs_nonneg C n). lia.
Qed.

Context (d : Z) (name : cstr) (f : afile) (Ew : walk V1 true (start c new) (names new) = Some (d, name)) (Hd : V1 !! d = Some f) (Htd : f_type f = T_DIR) (Hnn : no_nul name).
Context (dp : nat) (C3 : list inode) (M3 : moves T1 s1 T1 (set_cache C3 s1) ∅ 0 (one d) (only dp true) 0) (L3 : loaded C3 dp d) (Hlive2 : 0 < f_nlink f ∨ 0 < refs (icache s1) d).
Abbreviation s3 := (set_cache C3 s1).

Lemma named_dir : d ≠ n ∧ files T1 s3 !! d = Some f ∧ is_locked C3 dp = true ∧ (∀ x, refs C3 x = refs C x + one n x + one d x) ∧ (∀ j, is_locked C3 j = true → j = dp) ∧ (0 < f_nlink f ∨ 0 < refs C d) ∧
  (size (inuse C3) < length C3)%nat.
Proof.
  pose proof (linking_ready i T1 s1 Li) as G1. destruct Li as [M1 F1 H1]. pose proof (mv_cache _ _ _ _ _ _ _ _ _ M1) as E1. pose proof (mv_cache _ _ _ _ _ _ _ _ _ M3) as E3. cbn [with_log set_cache icache] in E1, E3.
  assert (d ≠ n) as Hdn by (intros ->; rewrite lookup_insert_eq in Hd; by injection Hd as <-). split_and!.
  - done.
  - change (files T1 s3) with (files T1 s1). by rewrite F1.
  - rewrite (ev_lock _ _ _ _ E3). unfold only. by rewrite decide_True.
  - intros x. rewrite (ev_refs _ _ _ _ E3), (ev_refs _ _ _ _ E1). lia.
  - intros j. rewrite (ev_lock _ _ _ _ E3). unfold only. case_decide; [done|]. cbn. by rewrite (rd_unlocked _ _ _ _ G1).
  - by rewrite (ev_refs _ _ _ _ E1), (one_other n d), Z.add_0_r in Hlive2.
  - pose proof (inuse_one (icache s1) C3 d (fo_wf _ _ (rd_ok _ _ _ _ G1)) (fo_wf _ _ (mv_ok _ _ _ _ _ _ _ _ _ M3)) (ev_refs _ _ _ _ E3)). pose proof (rd_slots _ _ _ _ G1). pose proof (ev_len _ _ _ _ E3). lia.
Qed.

(** The name is taken. *)
Lemma link_taken k de : dir_find name (f_data f) = Some (k, de) →
  wp (r ← dirlink dev_read dev_write dp name n; if decide (r < 0) then iunlockput dp;; link_bad i else iunlockput dp;; iput i;; end_op;; mret 0) linked_to s3.
Proof.
  intros Hfind. pose proof (linking_ready i T1 s1 Li) as G1. destruct named_dir as (Hdn&Hd3&K3&Hr3&Hl3&Hlive3&Hs3). pose proof (mv_ok _ _ _ _ _ _ _ _ _ M3) as O3. pose proof (Hok d name f Ew Hd) as Hself. rewrite Hfind in Hself.
  destruct (dirlink_exists T1 s3 O3 dp d f Hd3 (rd_dirs _ _ _ _ G1) L3 K3 Htd Hs3 dev_read name Hnn k de Hfind dev_write n Hself Hl3) as (C4&R4&M4). apply wp_bind. eapply wp_intro; [exact R4|]. cbn beta. rewrite decide_True by lia.
  pose proof (mv_ok _ _ _ _ _ _ _ _ _ M4) as O4. pose proof (mv_cache _ _ _ _ _ _ _ _ _ M4) as E4. cbn [set_cache icache] in E4. assert (∀ x, refs C4 x = refs C3 x) as Hr4 by (intros x; rewrite (ev_refs _ _ _ _ E4); lia).
  pose proof (one_self d) as Hod. pose proof (one_nonneg n d) as Hond. pose proof (refs_nonneg C d) as Hpd. destruct (iunlockput_moves T1 (set_cache C4 s3) O4 dp d f Hd3) as (C5&R5&M5).
  { apply (mv_loaded _ _ _ _ _ _ _ _ _ M4); [done|cbn; rewrite Hr3; lia]. } { cbn. by rewrite (ev_lock _ _ _ _ E4). } { cbn. rewrite Hr4, Hr3. lia. }
  apply wp_bind. eapply wp_intro; [exact R5|]. cbn beta. eapply (bad_linked i T1); [|unfold link_name; rewrite Ew, Hd; cbn; by rewrite Hfind]. apply linking_stays; [|done].
  eapply moves_ext; [eapply (moves_trans _ _ _ s3); [apply G1|exact M3|eapply (moves_trans _ _ _ (set_cache C4 s3)); [done|exact M4|exact M5|]|]|..]; moves_side.
  - intros x Hx _. pose proof (one_nonneg d x). lia.
  - intros j. rewrite (rd_unlocked _ _ _ _ G1). unfold then_, only, nobody. repeat case_decide; done.
Qed.

(** The name is new. *)
Lemma link_added : dir_find name (f_data f) = None →
  wp (r ← dirlink dev_read dev_write dp name n; if decide (r < 0) then iunlockput dp;; link_bad i else iunlockput dp;; iput i;; end_op;; mret 0) linked_to s3.
Proof.
  intros Hfind. pose proof (linking_ready i T1 s1 Li) as G1. destruct named_dir as (Hdn&Hd3&K3&Hr3&Hl3&Hlive3&Hs3). pose proof (mv_ok _ _ _ _ _ _ _ _ _ M3) as O3. pose proof (Hok d name f Ew Hd) as Hself. rewrite Hfind in Hself. destruct Hself as [Hmax Hroom].
  pose proof Li as [M1 F1 H1]. pose proof (mv_sb _ _ _ _ _ _ _ _ _ M1) as Es1. cbn [with_log sb] in Es1. pose proof (mv_room _ _ _ _ _ _ _ _ _ M1) as Hrm. cbn [with_log sb] in Hrm. destruct (rd_dirs _ _ _ _ G1 d f Hd3 Htd) as [H16 _].
  apply wp_bind. eapply wp_mono; [apply (dirlink_moves T1 s3 O3 dp d f Hd3 L3 K3 dev_read dev_write Htd H16)|].
  { rewrite (mv_op _ _ _ _ _ _ _ _ _ M3), (mv_op _ _ _ _ _ _ _ _ _ M1). done. } { done. } { done. } { done. } { cbn. rewrite Es1. lia. }
  intros r s4 (->&T4&M4&F4). cbn beta. rewrite decide_False by lia. pose proof (mv_ok _ _ _ _ _ _ _ _ _ M4) as O4. pose proof (mv_cache _ _ _ _ _ _ _ _ _ M4) as E4. cbn [set_cache icache] in E4. assert (∀ x, refs (icache s4) x = refs C3 x) as Hr4 by (intros x; rewrite (ev_refs _ _ _ _ E4); lia).
  pose proof (one_self d) as Hod. pose proof (one_self n) as Hon. pose proof (one_other n d Hdn) as Hond. pose proof (one_other d n ltac:(done)) as Hodn. pose proof (refs_nonneg C d) as Hpd. pose proof (refs_nonneg C n) as Hpn. set (f' := with_data (dir_add name n (f_data f)) f) in *.
  destruct (iunlockput_moves T4 s4 O4 dp d f') as (C5&R5&M5). 
  { by rewrite F4, lookup_insert_eq. } { apply (mv_loaded _ _ _ _ _ _ _ _ _ M4); [done|cbn; rewrite Hr3; lia]. } { by rewrite (ev_lock _ _ _ _ E4). } { rewrite Hr4, Hr3. cbn. lia. }
  apply wp_bind. eapply wp_intro; [exact R5|]. cbn beta. set (s5 := set_cache C5 s4) in *. pose proof (mv_ok _ _ _ _ _ _ _ _ _ M5) as O5. pose proof (mv_cache _ _ _ _ _ _ _ _ _ M5) as E5. cbn [s5 set_cache icache] in E5.
  assert (∀ x, refs C5 x = refs C x + one n x) as Hr5 by (intros x; rewrite (ev_refs _ _ _ _ E5), Hr4, Hr3; lia). assert (handle (icache s5) i n) as H5.
  { apply (mv_handle _ _ _ _ _ _ _ _ _ M5); [apply (mv_handle _ _ _ _ _ _ _ _ _ M4); [apply (mv_handle _ _ _ _ _ _ _ _ _ M3); [done|]|]|]; rewrite ?Hr4; cbn [set_cache icache]; rewrite ?Hr3; try lia. rewrite (ev_refs _ _ _ _ (mv_cache _ _ _ _ _ _ _ _ _ M1)). cbn [with_log icache]. lia. }
  assert (files T4 s5 !! n = Some (with_nlink (f_nlink g + 1) g)) as Hn5 by (change (files T4 s5) with (files T4 s4); rewrite F4, lookup_insert_ne by done; change (files T1 s3) with (files T1 s1); by rewrite F1, lookup_insert_eq).
  destruct (iput_moves T4 s5 i n _ O5 Hn5 H5) as (C6&R6&M6); [|left; cbn; lia|].
  { cbn [s5 set_cache icache]. rewrite (ev_lock _ _ _ _ E5). unfold only. case_decide; [done|]. cbn. rewrite (ev_lock _ _ _ _ E4). cbn. destruct (is_locked C3 i) eqn:El; [|done]. by apply Hl3 in El. }
  apply wp_bind. eapply wp_intro; [exact R6|]. cbn beta. change (sb s3) with (sb s1) in M4. rewrite Es1 in M4. eapply (wp_end T s T4 (set_cache C6 s5) {[IBLOCK n (sb s); IBLOCK d (sb s)]} 2 (λ _, 0) nobody 2).
  - eapply moves_ext; [eapply (moves_trans _ _ _ s1); [by apply ok_log, G|exact M1|eapply (moves_trans _ _ _ s3); [apply G1|exact M3|eapply (moves_trans _ _ _ s4); [done|exact M4|eapply (moves_trans _ _ _ s5); [done|exact M5|exact M6|]|]|]|]|..]; moves_side.
    all: try (intros x Hx Hx2; pose proof (one_nonneg n x); pose proof (one_nonneg d x); cbn [with_log icache set_cache] in *; rewrite ?Hr4 in *; lia).
    intros j. cbn [with_log icache]. rewrite (rd_unlocked _ _ _ _ G). unfold then_, only, nobody. repeat case_decide; done.
  - intros s7 Ca F7. unfold linked_to, link_name. rewrite Ew, Hd. cbn [mbind option_bind]. rewrite Hfind. cbn [fst snd]. split; [done|]. exists T4. eexists. split; [|split; [exact Ca|]].
    + etrans; [apply size_union_le|]. by rewrite !size_singleton.
    + rewrite F7. change (files T4 (set_cache C6 s5)) with (files T4 s4). rewrite F4. change (files T1 s3) with (files T1 s1). by rewrite F1.
Qed.

End named.

(** From the counted link to the end. *)
Lemma link_named i T1 s1 : linking n g i T1 s1 → link_ok → f_type g ≠ T_DIR →
  wp (p ← nameiparent dev_read cwd new;
      match p with
      | None => link_bad i
      | Some (dp, name) =>
          ilock dp;; r ← dirlink dev_read dev_write dp name n;
          if decide (r < 0) then iunlockput dp;; link_bad i else iunlockput dp;; iput i;; end_op;; mret 0
      end) linked_to s1.
Proof.
  intros Li Hok Htg. pose proof (linking_ready i T1 s1 Li) as G1. pose proof (li_files _ _ _ _ _ Li) as F1. apply wp_bind. destruct (walk V1 true (start c new) (names new)) as [[d name]|] eqn:Ew.
  - destruct (walk_dir _ _ _ _ _ Ew) as [Hin (f&Hd&Htd)]. destruct (parent_locked T1 s1 cwd c G1 dev_read new Hnew d name f) as (dp&C2&C3&R2&R3&M3&L3&_&Hnn&Hlive2); [by rewrite F1|by rewrite F1|].
    eapply wp_intro; [exact R2|]. cbv beta iota. apply wp_bind. eapply wp_intro; [exact R3|]. cbn beta. destruct (dir_find name (f_data f)) as [[k de]|] eqn:Hfind.
    + by eapply (link_taken i T1 s1 Li Hok Htg d name f).
    + by eapply (link_added i T1 s1 Li Hok Htg d name f).
  - destruct (nameiparent_moves T1 s1 cwd c G1 dev_read new Hnew) as (r&C2&R2&H2). rewrite F1, Ew in H2. destruct r as [[dp name]|]; [done|]. eapply wp_intro; [exact R2|]. cbv beta iota.
    apply (bad_linked i T1); [by eapply linking_stays|unfold link_name; by rewrite Ew].
Qed.

(** A name of the directory for itself: the process waits for the lock that it
    holds. *)
Lemma link_self i T1 s1 d name f k de : linking n g i T1 s1 → f_type g ≠ T_DIR → walk V1 true (start c new) (names new) = Some (d, name) → V !! d = Some f → dir_find name (f_data f) = Some (k, de) → de_inum de = d →
  (p ← nameiparent dev_read cwd new;
      match p with
      | None => link_bad i
      | Some (dp, name) =>
          ilock dp;; r ← dirlink dev_read dev_write dp name n;
          if decide (r < 0) then iunlockput dp;; link_bad i else iunlockput dp;; iput i;; end_op;; mret 0
      end) s1 = None.
Proof.
  intros Li Htg Ew Hd0 Hfind Hself. pose proof (linking_ready i T1 s1 Li) as G1. pose proof (li_files _ _ _ _ _ Li) as F1. destruct (walk_dir _ _ _ _ _ Ew) as [Hin (f'&Hd&Htd)]. assert (d ≠ n) as Hdn by (intros ->; rewrite lookup_insert_eq in Hd; by injection Hd as <-).
  assert (f' = f) as -> by (rewrite lookup_insert_ne in Hd by done; congruence). destruct (parent_locked T1 s1 cwd c G1 dev_read new Hnew d name f) as (dp&C2&C3&R2&R3&M3&L3&_&Hnn&Hlive2); [by rewrite F1|by rewrite F1|].
  rewrite (bind_run _ _ _ _ _ R2). cbv beta iota. rewrite (bind_run _ _ _ _ _ R3). destruct (named_dir i T1 s1 Li Htg d name f Ew Hd Htd dp C3 M3 L3 Hlive2) as (_&Hd3&K3&_&_&_&Hs3).
  unfold mbind at 1, ST_bind. by rewrite (dirlink_self T1 _ (mv_ok _ _ _ _ _ _ _ _ _ M3) dp d f Hd3 (rd_dirs _ _ _ _ G1) L3 K3 Htd Hs3 dev_read name Hnn k de Hfind dev_write n Hself).
Qed.

End file.

Lemma sys_link_spec :
  (∀ n x g, walk V false (start c old) (names old) = Some (n, x) → V !! n = Some g → f_type g ≠ T_DIR → 0 ≤ f_nlink g < 2 ^ 15 - 1 ∧ link_ok n g) →
  wp (sys_link dev_read dev_write cwd old new) (λ r s', r = fst (link_files V c old new) ∧ ∃ T' D, (size D ≤ 2)%nat ∧ call T s T' s' D 2 (λ _, 0) nobody 2 ∧ files T' s' = snd (link_files V c old new)) s.
Proof.
  intros Hok. unfold sys_link. apply begin_first; [done|]. apply wp_bind. assert (ready T s0 cwd c) as G0 by (by apply ready_log). destruct (namei_moves T s0 cwd c G0 dev_read old Hold) as (r&C1&R1&H1). change (files T s0) with V in H1. eapply wp_intro; [exact R1|].
  assert (∀ r' s', failed T s r' s' → (link_files V c old new) = (-1, V) → r' = fst (link_files V c old new) ∧ ∃ T' D, (size D ≤ 2)%nat ∧ call T s T' s' D 2 (λ _, 0) nobody 2 ∧ files T' s' = snd (link_files V c old new)) as Hbad.
  { intros r' s' (->&[A1 A2 (Y&Hy&A3) A4 A5 A6]&F) ->. split; [done|]. exists T, ∅. split; [rewrite size_empty; lia|]. split; [|done]. split; try done; [|lia]. exists Y. split; [lia|done]. }
  unfold link_files in *. destruct r as [i|], (walk V false (start c old) (names old)) as [[n nm]|] eqn:Ew; cbv beta iota; try done.
  2: { eapply wp_end; [exact H1|]. intros s'' Ca F. by apply Hbad. }
  destruct H1 as (M1&H1&g&Hg&Hlive). rewrite Hg in *. change (refs (icache s0) n) with (refs C n) in Hlive. case_decide as Ht.
  - pose proof (mv_ok _ _ _ _ _ _ _ _ _ M1) as O1. pose proof (mv_cache _ _ _ _ _ _ _ _ _ M1) as E1. cbn [set_cache icache with_log] in E1. destruct (ilock_moves T (set_cache C1 s0) O1 i n H1) as (C2&R2&M2&L2); [rewrite (ev_lock _ _ _ _ E1); apply G|].
    apply wp_bind. eapply wp_intro; [exact R2|]. cbn beta. change (set_cache C2 (set_cache C1 s0)) with (set_cache C2 s0) in *. pose proof (mv_ok _ _ _ _ _ _ _ _ _ M2) as O2. pose proof (mv_cache _ _ _ _ _ _ _ _ _ M2) as E2. cbn [set_cache icache] in E2.
    assert (is_locked C2 i = true) as K2 by (rewrite (ev_lock _ _ _ _ E2); unfold only; by rewrite decide_True). destruct (opened_file T (set_cache C2 s0) O2 i n g Hg L2 K2) as (a&Ha&Eg&ip&Hi&Hin&_&_&_&Hdin).
    apply wp_bind. eapply wp_intro; [by apply read_inode_run|]. cbn beta. rewrite decide_True by (rewrite Hdin; cbn; by rewrite Eg in Ht).
    eapply wp_mono; [apply (unlink_bad_run T s cwd c G Hop i n g C2); [|done|done|done]|intros r' s' F'; by apply Hbad].
    eapply moves_ext; [eapply (moves_trans _ _ _ (set_cache C1 s0)); [apply G0|exact M1|exact M2|]|..]; moves_side.
  - destruct (Hok n nm g eq_refl Hg Ht) as [Hnl Hlok]. eapply (link_counted n g Hg Hnl); [exact M1|done|done|]. intros ip T' s' <- Li. by apply (link_named _ g Hg Hnl Hlive i T').
Qed.

Lemma walk_nlink W n g k parent : W !! n = Some g → ∀ ns x, walk (<[n := with_nlink k g]> W) parent x ns = walk W parent x ns.
Proof.
  intros Hg ns. induction ns as [|nm ns IH]; intros x; cbn [walk]; [done|]. destruct (decide (x = n)) as [->|Hne]; [rewrite lookup_insert_eq, Hg|rewrite lookup_insert_ne by done; destruct (W !! x) as [f|]; [|done]]; cbn [mbind option_bind with_nlink f_type f_data].
  all: repeat case_match; try done; destruct (dir_find nm _) as [[j de]|]; [apply IH|done].
Qed.

Lemma sys_link_self n x g d name f k de : walk V false (start c old) (names old) = Some (n, x) → V !! n = Some g → f_type g ≠ T_DIR → 0 ≤ f_nlink g < 2 ^ 15 - 1 →
  walk V true (start c new) (names new) = Some (d, name) → V !! d = Some f → dir_find name (f_data f) = Some (k, de) → de_inum de = d → sys_link dev_read dev_write cwd old new s = None.
Proof.
  intros Ew Hg Ht Hnl Ew2 Hd Hfind Hself. unfold sys_link. rewrite (bind_run _ _ _ _ _ (begin_run s)). rewrite Hop, decide_True by done. assert (ready T s0 cwd c) as G0 by (by apply ready_log). destruct (namei_moves T s0 cwd c G0 dev_read old Hold) as (r&C1&R1&H1). change (files T s0) with V in H1.
  rewrite (bind_run _ _ _ _ _ R1). rewrite Ew in H1. destruct r as [i|]; [|done]. destruct H1 as (M1&H1&g'&Hg'&Hlive). assert (g' = g) as -> by congruence. change (refs (icache s0) n) with (refs C n) in Hlive.
  apply (link_counted_none n g Hg Hnl); [done|done|done|]. intros ip T' s' <- Li. apply (link_self _ g Hg Hnl Hlive i T' s' d name f k de); try done. by rewrite walk_nlink.
Qed.

End sys_link.

(** * Creation *)

(** The number that [ialloc] gives to a new inode. *)
Definition new_inum (V : gmap Z afile) (N : Z) : option Z := snd <$> list_find (λ n, V !! n = None) (Z.of_nat <$> seq 1 (Z.to_nat (N - 1))).

Lemma new_inum_spec V N n : new_inum V N = Some n ↔ 1 ≤ n < N ∧ V !! n = None ∧ ∀ m, 1 ≤ m < n → V !! m ≠ None.
Proof.
  unfold new_inum. rewrite fmap_Some. split.
  - intros ([k n']&E&->). apply list_find_Some in E as (Hk&Hn&Hm). apply list_lookup_fmap_Some in Hk as (k'&->&Hk). apply lookup_seq in Hk as [-> Hlt]. cbn [snd] in *. split_and!; [lia|lia|done|].
    intros m Hr. apply (Hm (Z.to_nat m - 1)%nat m); [|lia]. rewrite list_lookup_fmap, lookup_seq_lt by lia. cbn. f_equal. lia.
  - intros (Hr&Hn&Hm). exists (Z.to_nat n - 1, n)%nat. split; [|done]. apply list_find_Some. split_and!.
    + rewrite list_lookup_fmap, lookup_seq_lt by lia. cbn. f_equal. lia.
    + done.
    + intros j m Hj Hlt. apply list_lookup_fmap_Some in Hj as (j'&->&Hj). apply lookup_seq in Hj as [-> Hj]. apply Hm. lia.
Qed.

(** What [create] does to the files, and the inode that it returns. *)
Definition create_files (V : gmap Z afile) (N c : Z) (path : cstr) (type major minor : Z) : option Z * gmap Z afile :=
  match walk V true (start c path) (names path) with
  | None => (None, V)
  | Some (d, name) =>
      match V !! d with
      | None => (None, V)
      | Some f =>
          match dir_find name (f_data f) with
          | Some (_, de) => (if decide (type = T_FILE ∧ f_type <$> V !! de_inum de = Some T_FILE) then Some (de_inum de) else None, V)
          | None => match new_inum V (N) with Some n => (Some n, with_new V d name f type major minor n) | None => (None, V) end
          end
      end
  end.

Section creation.
Context (T : gmap Z ainode) (s : fss) (cwd : nat) (c : Z) (G : ready T s cwd c) (Hop : outstanding s ≠ 0%nat).
Context (dev_read : Z → option (Z → option (list byte))) (dev_write : Z → option (list byte → Z)) (path : cstr) (Hnul : no_nul path) (type major minor : Z).
Abbreviation V := (files T s).
Abbreviation C := (icache s).

(** A new name needs an inode, and room for what is written. *)
Definition create_ok : Prop := ∀ d name f, walk V true (start c path) (names path) = Some (d, name) → V !! d = Some f → dir_find name (f_data f) = None →
  is_Some (new_inum V (ninodes (sb s))) ∧ 16 * Z.of_nat (dir_slot (f_data f)) + 16 ≤ MAXFILE * BSIZE ∧ (if decide (type = T_DIR) then 6 else 2) ≤ room T ∅ (sb s).

Definition created_as (r : option nat) (s' : fss) : Prop :=
  match r with
  | None => (create_files V (ninodes (sb s)) c path type major minor) = (None, V) ∧ moves T s T s' ∅ 0 (λ _, 0) nobody 0 ∧ files T s' = V
  | Some i => ∃ n T' D, (size D ≤ 2)%nat ∧ (create_files V (ninodes (sb s)) c path type major minor) = (Some n, files T' s') ∧ moves T s T' s' D 6 (one n) (only i true) 6 ∧ loaded (icache s') i n ∧ ∃ g, files T' s' !! n = Some g ∧ 0 < f_nlink g
  end.

(** The name exists. *)
Lemma create_old d name f k de : walk V true (start c path) (names path) = Some (d, name) → V !! d = Some f → dir_find name (f_data f) = Some (k, de) →
  wp (create dev_read dev_write cwd path type major minor) created_as s.
Proof.
  intros Ew Hd Hfind. pose proof (rd_ok _ _ _ _ G) as O. destruct (parent_locked T s cwd c G dev_read path Hnul d name f Ew Hd) as (dp&C1&C2&R1&R2&M2&L2&Htd&Hnn&Hlive). unfold create. apply wp_bind. eapply wp_intro; [exact R1|]. cbv beta iota.
  apply wp_bind. eapply wp_intro; [exact R2|]. cbn beta. pose proof (mv_ok _ _ _ _ _ _ _ _ _ M2) as O2. pose proof (mv_cache _ _ _ _ _ _ _ _ _ M2) as E2. cbn [set_cache icache] in E2.
  assert (is_locked C2 dp = true) as K2 by (rewrite (ev_lock _ _ _ _ E2); unfold only; by rewrite decide_True).
  destruct (found_moves T (set_cache C2 s) O2 dp d f Hd (rd_dirs _ _ _ _ G) L2 K2 Htd) with (dev_read := dev_read) (name := name) (k := k) (de := de) as (i&C3&R3&M3&H3&(g&Hg&Hgl)&_); [|done..|].
  { pose proof (inuse_one C C2 d (fo_wf _ _ O) (fo_wf _ _ O2) (ev_refs _ _ _ _ E2)). pose proof (rd_slots _ _ _ _ G). pose proof (ev_len _ _ _ _ E2). cbn [set_cache icache]. lia. }
  change (set_cache C3 (set_cache C2 s)) with (set_cache C3 s) in *. change (files T (set_cache C2 s)) with V in *. pose proof (mv_ok _ _ _ _ _ _ _ _ _ M3) as O3. pose proof (mv_cache _ _ _ _ _ _ _ _ _ M3) as E3. cbn [set_cache icache] in E3. set (m := de_inum de) in *.
  assert (∀ x, refs C3 x = refs C x + one d x + one m x) as Hr3 by (intros x; rewrite (ev_refs _ _ _ _ E3), (ev_refs _ _ _ _ E2); lia). pose proof (one_self d) as Hod. pose proof (one_self m) as Hom. pose proof (one_nonneg m d) as Homd. pose proof (one_nonneg d m) as Hodm. pose proof (refs_nonneg C d) as Hpd. pose proof (refs_nonneg C m) as Hpm.
  apply wp_bind. eapply wp_intro; [exact R3|]. cbv beta iota. destruct (iunlockput_moves T (set_cache C3 s) O3 dp d f Hd) as (C4&R4&M4).
  { apply (mv_loaded _ _ _ _ _ _ _ _ _ M3); [done|cbn; rewrite (ev_refs _ _ _ _ E2); lia]. } { cbn. by rewrite (ev_lock _ _ _ _ E3). } { cbn. rewrite Hr3. lia. }
  apply wp_bind. eapply wp_intro; [exact R4|]. cbn beta. change (set_cache C4 (set_cache C3 s)) with (set_cache C4 s) in *. pose proof (mv_ok _ _ _ _ _ _ _ _ _ M4) as O4.
  assert (moves T s T (set_cache C4 s) ∅ 0 (one m) nobody 0) as M04.
  { eapply moves_ext; [eapply (moves_trans _ _ _ (set_cache C2 s)); [done|exact M2|eapply (moves_trans _ _ _ (set_cache C3 s)); [done|exact M3|exact M4|]|]|..]; moves_side.
    - intros x Hx Hx2. cbn [set_cache icache] in *. rewrite (ev_refs _ _ _ _ E2) in *. pose proof (one_nonneg m x). lia.
    - intros x Hx _. pose proof (one_nonneg d x). lia.
    - intros j. rewrite (rd_unlocked _ _ _ _ G). unfold then_, only, nobody. repeat case_decide; done. }
  pose proof (mv_cache _ _ _ _ _ _ _ _ _ M04) as E04. cbn [set_cache icache] in E04. assert (handle C4 i m) as H4 by (apply (mv_handle _ _ _ _ _ _ _ _ _ M4); [done|cbn [set_cache icache]; rewrite Hr3; lia]).
  destruct (ilock_moves T (set_cache C4 s) O4 i m H4) as (C5&R5&M5&L5); [cbn; rewrite (ev_lock _ _ _ _ E04); apply G|]. apply wp_bind. eapply wp_intro; [exact R5|]. cbn beta. change (set_cache C5 (set_cache C4 s)) with (set_cache C5 s) in *.
  pose proof (mv_ok _ _ _ _ _ _ _ _ _ M5) as O5. pose proof (mv_cache _ _ _ _ _ _ _ _ _ M5) as E5. cbn [set_cache icache] in E5. assert (is_locked C5 i = true) as K5 by (rewrite (ev_lock _ _ _ _ E5); unfold only; by rewrite decide_True).
  destruct (opened_file T (set_cache C5 s) O5 i m g Hg L5 K5) as (a&Ha&Eg&ip&Hi&_&_&_&_&Hdin). apply wp_bind. eapply wp_intro; [by apply read_inode_run|]. cbn beta. replace (d_type (din ip)) with (f_type g) by (rewrite Hdin, Eg; done).
  assert ((create_files V (ninodes (sb s)) c path type major minor) = (if decide (type = T_FILE ∧ f_type g = T_FILE) then Some m else None, V)) as Ec.
  { unfold create_files. rewrite Ew, Hd, Hfind. fold m. rewrite Hg. cbn. f_equal. destruct (decide (type = T_FILE ∧ f_type g = T_FILE)) as [[? Hx]|Hx]; [by rewrite decide_True by (by rewrite Hx)|]. rewrite decide_False; [done|]. intros [? [= ?]]. by apply Hx. }
  assert (moves T s T (set_cache C5 s) ∅ 0 (one m) (only i true) 0) as M05.
  { eapply moves_ext; [eapply (moves_trans _ _ _ (set_cache C4 s)); [done|exact M04|exact M5|]|..]; moves_side. }
  destruct (decide (type = T_FILE ∧ f_type g = T_FILE)).
  - apply wp_ret. exists m, T, ∅. split_and!; [rewrite size_empty; lia|done| |done|eauto]. eapply moves_ext; [exact M05|..]; moves_side.
  - destruct (iunlockput_moves T (set_cache C5 s) O5 i m g Hg L5 K5) as (C6&R6&M6); [lia|]. apply wp_bind. eapply wp_intro; [exact R6|]. cbn beta. apply wp_ret. split; [done|]. split; [|done].
    eapply moves_ext; [eapply (moves_trans _ _ _ (set_cache C5 s)); [done|exact M05|exact M6|]|..]; moves_side.
    + intros x Hx _. pose proof (one_nonneg m x). lia.
    + intros j. rewrite (rd_unlocked _ _ _ _ G). unfold then_, only, nobody. repeat case_decide; done.
Qed.

Lemma create_full : type ≠ 0 → - 2 ^ 15 ≤ type < 2 ^ 15 → create_ok → wp (create dev_read dev_write cwd path type major minor) created_as s.
Proof.
  intros Ht Htr Hok. destruct (walk V true (start c path) (names path)) as [[d name]|] eqn:Ew.
  - destruct (walk_dir _ _ _ _ _ Ew) as [_ (f&Hd&_)]. destruct (dir_find name (f_data f)) as [[k de]|] eqn:Hfind; [by eapply create_old|]. destruct (Hok d name f Ew Hd Hfind) as ([n0 Hn0]&Hmax&Hroom).
    eapply wp_mono; [apply (create_spec T s cwd c G Hop dev_read dev_write path Hnul d name f Ew Hd type major minor Hfind Ht Htr); [|done|done]|]; [apply new_inum_spec in Hn0 as (?&?&_); eauto|].
    intros r s' (i&n&T'&->&Hn&M&L&F). exists n, T'. eexists. assert (n = n0) as <- by (apply new_inum_spec in Hn; congruence). assert (n ≠ d) as Hne by (intros ->; destruct Hn as (_&Hn&_); congruence). split_and!; [|unfold create_files; by rewrite Ew, Hd, Hfind, Hn0, F|exact M|done|].
    + etrans; [apply size_union_le|]. by rewrite !size_singleton.
    + rewrite F. unfold with_new. cbv zeta. rewrite lookup_insert_ne, lookup_insert_eq by done. eexists. split; [done|]. done.
  - destruct (nameiparent_moves T s cwd c G dev_read path Hnul) as (r&C1&R1&H1). rewrite Ew in H1. destruct r as [[dp name]|]; [done|]. unfold create. apply wp_bind. eapply wp_intro; [exact R1|]. cbv beta iota. apply wp_ret.
    split; [unfold create_files; by rewrite Ew|done].
Qed.

End creation.

(** ** Calls that create *)

(** The inode that [open] finds or creates. *)
Definition open_files (V : gmap Z afile) (N c : Z) (path : cstr) (omode : Z) : option Z * gmap Z afile :=
  if decide (Z.land omode O_CREATE ≠ 0) then create_files V N c path T_FILE 0 0
  else
    match '(n, _) ← walk V false (start c path) (names path); g ← V !! n; Some (n, g) with
    | Some (n, g) => (if decide (f_type g = T_DIR ∧ omode ≠ O_RDONLY) then None else Some n, V)
    | None => (None, V)
    end.

Section sys_create.
Context (T : gmap Z ainode) (s : fss) (cwd : nat) (c : Z) (G : ready T s cwd c) (Hop : outstanding s = 0%nat).
Context (dev_read : Z → option (Z → option (list byte))) (dev_write : Z → option (list byte → Z)) (path : cstr) (Hnul : no_nul path).
Abbreviation V := (files T s).
Abbreviation C := (icache s).
Abbreviation s0 := (with_log 1 ∅ s).

(** The common body of [sys_mkdir] and [sys_mknod]. *)
Lemma make_spec type major minor : type ≠ 0 → - 2 ^ 15 ≤ type < 2 ^ 15 → create_ok T s c path type →
  wp (begin_op;; r ← create dev_read dev_write cwd path type major minor; match r with None => end_op;; mret (-1) | Some i => iunlockput i;; end_op;; mret 0 end)
    (λ r s', r = (if fst (create_files V (ninodes (sb s)) c path type major minor) then 0 else -1) ∧
      ∃ T' D, (size D ≤ 2)%nat ∧ call T s T' s' D 6 (λ _, 0) nobody 6 ∧ files T' s' = snd (create_files V (ninodes (sb s)) c path type major minor)) s.
Proof.
  intros Ht Htr Hok. apply begin_first; [done|]. assert (ready T s0 cwd c) as G0 by (by apply ready_log). apply wp_bind. eapply wp_mono; [by apply (create_full T s0 cwd c G0 ltac:(done) dev_read dev_write path Hnul type major minor)|].
  change (create_files (files T s0) (ninodes (sb s0)) c path type major minor) with (create_files V (ninodes (sb s)) c path type major minor). intros [i|] s1.
  - intros (n&T1&D&HD&E&M1&L1&g&Hg&Hgl). change (create_files (files T s0) (ninodes (sb s0)) c path type major minor) with (create_files V (ninodes (sb s)) c path type major minor) in E. rewrite E. cbn [fst snd]. cbv iota. pose proof (mv_ok _ _ _ _ _ _ _ _ _ M1) as O1. pose proof (mv_cache _ _ _ _ _ _ _ _ _ M1) as E1.
    destruct (iunlockput_moves T1 s1 O1 i n g Hg L1) as (C2&R2&M2); [rewrite (ev_lock _ _ _ _ E1); unfold only; by rewrite decide_True|lia|]. apply wp_bind. eapply wp_intro; [exact R2|]. cbn beta.
    eapply (wp_end T s T1 _ D 6 (λ _, 0) nobody 6); [|intros s2 Ca F; split; [done|]; exists T1, D; split_and!; done].
    eapply moves_ext; [eapply (moves_trans _ _ _ s1); [apply G0|exact M1|exact M2|]|..]; moves_side.
    + intros x Hx _. pose proof (one_nonneg n x). lia.
    + intros j. cbn [with_log icache]. rewrite (rd_unlocked _ _ _ _ G). unfold then_, only, nobody. repeat case_decide; done.
  - intros (E&M1&F1). change (create_files (files T s0) (ninodes (sb s0)) c path type major minor) with (create_files V (ninodes (sb s)) c path type major minor) in E. rewrite E. cbn [fst snd]. cbv iota. eapply (wp_end T s T s1 ∅ 6 (λ _, 0) nobody 6).
    + eapply moves_ext; [exact M1|..]; moves_side.
    + intros s2 Ca F. split; [done|]. exists T, ∅. split_and!; [rewrite size_empty; lia|done|by rewrite F].
Qed.

(** ** Open *)

(** The inode, locked, or nothing. *)
Definition opening (omode : Z) (r : option nat) (s' : fss) : Prop :=
  match r with
  | None => open_files V (ninodes (sb s)) c path omode = (None, V) ∧ moves T s0 T s' ∅ 0 (λ _, 0) nobody 0 ∧ files T s' = V
  | Some i => ∃ n T' D, (size D ≤ 2)%nat ∧ open_files V (ninodes (sb s)) c path omode = (Some n, files T' s') ∧ moves T s0 T' s' D 6 (one n) (only i true) 6 ∧ loaded (icache s') i n ∧
      ∃ g, files T' s' !! n = Some g ∧ (0 < f_nlink g ∨ 0 < refs C n)
  end.

Lemma opening_spec omode : (Z.land omode O_CREATE ≠ 0 → create_ok T s c path T_FILE) →
  wp (if decide (Z.land omode O_CREATE ≠ 0) then create dev_read dev_write cwd path T_FILE 0 0
      else r ← namei dev_read cwd path;
           match r with
           | None => mret None
           | Some i => ilock i;; ip ← read_inode i; if decide (d_type (din ip) = T_DIR ∧ omode ≠ O_RDONLY) then iunlockput i;; mret None else mret (Some i)
           end) (opening omode) s0.
Proof.
  intros Hok. assert (ready T s0 cwd c) as G0 by (by apply ready_log). unfold opening, open_files. destruct (decide (Z.land omode O_CREATE ≠ 0)) as [Hc|Hc].
  { eapply wp_mono; [apply (create_full T s0 cwd c G0 ltac:(done) dev_read dev_write path Hnul T_FILE 0 0); [done|done|by apply Hok]|]. intros [i|] s1; [|done]. intros (n&T'&D&HD&E&M&L&g&Hg&Hl). exists n, T', D. split_and!; try done. exists g. auto. }
  destruct (namei_moves T s0 cwd c G0 dev_read path Hnul) as (r&C1&R1&H1). change (files T s0) with V in *. apply wp_bind. eapply wp_intro; [exact R1|]. destruct r as [i|], (walk V false (start c path) (names path)) as [[n nm]|]; cbv beta iota; try done.
  destruct H1 as (M1&H1&g&Hg&Hlive). cbn [mbind option_bind]. rewrite Hg. cbn [mbind option_bind]. change (refs (icache s0) n) with (refs C n) in Hlive. pose proof (mv_ok _ _ _ _ _ _ _ _ _ M1) as O1. pose proof (mv_cache _ _ _ _ _ _ _ _ _ M1) as E1. cbn [set_cache icache with_log] in E1.
  destruct (ilock_moves T (set_cache C1 s0) O1 i n H1) as (C2&R2&M2&L2); [rewrite (ev_lock _ _ _ _ E1); apply G|]. apply wp_bind. eapply wp_intro; [exact R2|]. cbn beta. change (set_cache C2 (set_cache C1 s0)) with (set_cache C2 s0) in *.
  pose proof (mv_ok _ _ _ _ _ _ _ _ _ M2) as O2. pose proof (mv_cache _ _ _ _ _ _ _ _ _ M2) as E2. cbn [set_cache icache] in E2. assert (is_locked C2 i = true) as K2 by (rewrite (ev_lock _ _ _ _ E2); unfold only; by rewrite decide_True).
  destruct (opened_file T (set_cache C2 s0) O2 i n g Hg L2 K2) as (a&Ha&Eg&ip&Hi&_&_&_&_&Hdin). apply wp_bind. eapply wp_intro; [by apply read_inode_run|]. cbn beta. replace (d_type (din ip)) with (f_type g) by (rewrite Hdin, Eg; done).
  assert (moves T s0 T (set_cache C2 s0) ∅ 0 (one n) (only i true) 0) as M02 by (eapply moves_ext; [eapply (moves_trans _ _ _ (set_cache C1 s0)); [apply G0|exact M1|exact M2|]|..]; moves_side).
  destruct (decide (f_type g = T_DIR ∧ omode ≠ O_RDONLY)).
  - destruct (iunlockput_moves T (set_cache C2 s0) O2 i n g Hg L2 K2) as (C3&R3&M3); [cbn; rewrite (ev_refs _ _ _ _ E2), (ev_refs _ _ _ _ E1), one_self; lia|]. apply wp_bind. eapply wp_intro; [exact R3|]. cbn beta. apply wp_ret. split; [done|]. split; [|done].
    eapply moves_ext; [eapply (moves_trans _ _ _ (set_cache C2 s0)); [apply G0|exact M02|exact M3|]|..]; moves_side.
    + intros x Hx _. pose proof (one_nonneg n x). cbn [with_log icache] in *. lia.
    + intros j. cbn [with_log icache]. rewrite (rd_unlocked _ _ _ _ G). unfold then_, only, nobody. repeat case_decide; done.
  - apply wp_ret. exists n, T, ∅. split_and!; [rewrite size_empty; lia|done| |done|eauto]. eapply moves_ext; [exact M02|..]; moves_side.
Qed.

(** [open]: a file for the inode, with a reference to it. *)
Definition opened_as (omode : Z) (fd : option Z) (r : option (Z * ofile)) (s' : fss) : Prop :=
  ∃ T' D, (size D ≤ 2)%nat ∧ files T' s' = snd (open_files V (ninodes (sb s)) c path omode) ∧
    match r with
    | None => (fd = None ∨ fst (open_files V (ninodes (sb s)) c path omode) = None) ∧ call T s T' s' D 6 (λ _, 0) nobody 6
    | Some (k, o) => ∃ n, fd = Some k ∧ fst (open_files V (ninodes (sb s)) c path omode) = Some n ∧ loaded (icache s') (o_ip o) n ∧ call T s T' s' D 6 (one n) nobody 6 ∧
        o = mk_ofile (o_ip o) 0 (bool_decide (Z.land omode O_WRONLY = 0)) (bool_decide (Z.land omode O_WRONLY ≠ 0) || bool_decide (Z.land omode O_RDWR ≠ 0))
    end.

Lemma sys_open_spec omode fd : (Z.land omode O_CREATE ≠ 0 → create_ok T s c path T_FILE) → wp (sys_open dev_read dev_write cwd path omode fd) (opened_as omode fd) s.
Proof.
  intros Hok. unfold sys_open. apply begin_first; [done|]. assert (ready T s0 cwd c) as G0 by (by apply ready_log). apply wp_bind. eapply wp_mono; [by apply opening_spec|]. intros [i|] s1; cbv beta iota.
  - intros (n&T1&D&HD&E&M1&L1&g&Hg&Hlive). pose proof (mv_ok _ _ _ _ _ _ _ _ _ M1) as O1. pose proof (mv_cache _ _ _ _ _ _ _ _ _ M1) as E1. cbn [with_log icache] in E1. assert (is_locked (icache s1) i = true) as K1 by (rewrite (ev_lock _ _ _ _ E1); unfold only; by rewrite decide_True).
    assert (refs (icache s1) n = refs C n + 1) as Hr1 by (by rewrite (ev_refs _ _ _ _ E1), one_self). pose proof (refs_nonneg C n) as Hpn. unfold opened_as. rewrite E. cbn [fst snd]. destruct fd as [fd|].
    + destruct (iunlock_moves T1 s1 O1 i n g Hg L1 K1) as (C2&R2&M2). apply wp_bind. eapply wp_intro; [exact R2|]. cbn beta. apply wp_bind. eapply wp_intro; [apply end_run|]. cbn beta. apply wp_ret. exists T1, D. split_and!; [done|done|]. exists n. split_and!; try done.
      * cbn [o_ip]. apply (mv_loaded _ _ _ _ _ _ _ _ _ M2); [done|lia].
      * apply call_moves. eapply moves_ext; [eapply (moves_trans _ _ _ s1); [apply G0|exact M1|exact M2|]|..]; moves_side. intros j. cbn [with_log icache]. rewrite (rd_unlocked _ _ _ _ G). unfold then_, only, nobody. repeat case_decide; done.
    + destruct (iunlockput_moves T1 s1 O1 i n g Hg L1 K1) as (C2&R2&M2); [lia|]. apply wp_bind. eapply wp_intro; [exact R2|]. cbn beta. eapply (wp_end T s T1 (set_cache C2 s1) D 6 (λ _, 0) nobody 6).
      * eapply moves_ext; [eapply (moves_trans _ _ _ s1); [apply G0|exact M1|exact M2|]|..]; moves_side.
        -- intros x Hx _. pose proof (one_nonneg n x). cbn [with_log icache] in *. lia.
        -- intros j. cbn [with_log icache]. rewrite (rd_unlocked _ _ _ _ G). unfold then_, only, nobody. repeat case_decide; done.
      * intros s2 Ca F. exists T1, D. split_and!; [done|by rewrite F|by left|done].
  - intros (E&M1&F1). unfold opened_as. rewrite E. cbn [fst snd]. eapply (wp_end T s T s1 ∅ 6 (λ _, 0) nobody 6); [eapply moves_ext; [exact M1|..]; moves_side|]. intros s2 Ca F. exists T, ∅. split_and!; [rewrite size_empty; lia|by rewrite F|by right|done].
Qed.

End sys_create.
