(* ===== verification/XvFsTree.v ===== *)
(** The directory tree of xv6: what the directories and the link counts of the
    inodes have to say about each other, and that the calls keep it so. *)

From stdpp Require Import base option list numbers gmap sets.
From coqutil Require Import Datatypes.RecordSettersUsingExistingGetters.
From Stdlib Require Import Strings.Byte ZArith Lia.
From S2P Require Import Prelude CString XvFs XvFsInv XvFsInode XvFsIo XvFsCache XvFsDir XvFsCalls XvFsRw XvFsOps XvFsLink.
Local Open Scope Z_scope.

(** * Trees *)

(** Directories [dir], link counts [nl], and the inodes that the entries of the
    directories name: entry 0 is the directory itself, entry 1 the one above. *)
Record tree (dir : Z → Prop) (nl : Z → option Z) (slot : Z → nat → option Z) : Prop := {
  tr_slot : ∀ d k m, slot d k = Some m → dir d ∧ is_Some (nl m);
  tr_dots : ∀ d, dir d → slot d 0%nat = Some d ∧ is_Some (slot d 1%nat);
  tr_count : ∀ m c, nl m = Some c → ∃ R : gset (Z * nat), (∀ d k, (d, k) ∈ R ↔ (1 ≤ k)%nat ∧ slot d k = Some m) ∧ c = Z.of_nat (size R);
  tr_up : ∀ d k m, slot d k = Some m → (2 ≤ k)%nat → dir m → slot m 1%nat = Some d ∧ m ≠ d ∧ m ≠ ROOTINO;
  tr_one : ∀ d k d' k' m, slot d k = Some m → slot d' k' = Some m → (2 ≤ k)%nat → (2 ≤ k')%nat → dir m → d = d' ∧ k = k';
  tr_listed : ∀ m p, dir m → m ≠ ROOTINO → slot m 1%nat = Some p → ∃ k, (2 ≤ k)%nat ∧ slot p k = Some m;
  tr_root : dir ROOTINO ∧ slot ROOTINO 1%nat = Some ROOTINO;
}.

(** One element more or less of a count. *)
Lemma count_add (slot slot' : Z → nat → option Z) m d k c :
  (∃ R : gset (Z * nat), (∀ x j, (x, j) ∈ R ↔ (1 ≤ j)%nat ∧ slot x j = Some m) ∧ c = Z.of_nat (size R)) → (1 ≤ k)%nat → slot d k ≠ Some m → slot' d k = Some m →
  (∀ x j, (x, j) ≠ (d, k) → slot' x j = Some m ↔ slot x j = Some m) →
  ∃ R : gset (Z * nat), (∀ x j, (x, j) ∈ R ↔ (1 ≤ j)%nat ∧ slot' x j = Some m) ∧ c + 1 = Z.of_nat (size R).
Proof.
  intros (R&HR&->) Hk Hno Hyes Hsame. exists ({[(d, k)]} ∪ R). split.
  - intros x j. rewrite elem_of_union, elem_of_singleton, HR. destruct (decide ((x, j) = (d, k))) as [E|E]; [injection E as -> ->; tauto|]. rewrite (Hsame x j E). tauto.
  - rewrite size_union, size_singleton; [lia|]. apply disjoint_singleton_l. rewrite HR. tauto.
Qed.

Lemma count_del (slot slot' : Z → nat → option Z) m d k c :
  (∃ R : gset (Z * nat), (∀ x j, (x, j) ∈ R ↔ (1 ≤ j)%nat ∧ slot x j = Some m) ∧ c = Z.of_nat (size R)) → (1 ≤ k)%nat → slot d k = Some m → slot' d k ≠ Some m →
  (∀ x j, (x, j) ≠ (d, k) → slot' x j = Some m ↔ slot x j = Some m) →
  ∃ R : gset (Z * nat), (∀ x j, (x, j) ∈ R ↔ (1 ≤ j)%nat ∧ slot' x j = Some m) ∧ c - 1 = Z.of_nat (size R).
Proof.
  intros (R&HR&->) Hk Hyes Hno Hsame. exists (R ∖ {[(d, k)]}). split.
  - intros x j. rewrite elem_of_difference, elem_of_singleton, HR. destruct (decide ((x, j) = (d, k))) as [E|E]; [injection E as -> ->; tauto|]. rewrite (Hsame x j E). tauto.
  - assert ((d, k) ∈ R) as Hin by (by apply HR). rewrite size_difference, size_singleton by (by apply singleton_subseteq_l). assert (size R ≠ 0)%nat by (apply size_non_empty_iff; set_solver). lia.
Qed.

Lemma count_same (slot slot' : Z → nat → option Z) m c :
  (∃ R : gset (Z * nat), (∀ x j, (x, j) ∈ R ↔ (1 ≤ j)%nat ∧ slot x j = Some m) ∧ c = Z.of_nat (size R)) → (∀ x j, slot' x j = Some m ↔ slot x j = Some m) →
  ∃ R : gset (Z * nat), (∀ x j, (x, j) ∈ R ↔ (1 ≤ j)%nat ∧ slot' x j = Some m) ∧ c = Z.of_nat (size R).
Proof. intros (R&HR&->) Hsame. exists R. split; [|done]. intros x j. by rewrite HR, Hsame. Qed.

Section tree.
Context (dir : Z → Prop) (nl : Z → option Z) (slot : Z → nat → option Z) (W : tree dir nl slot).

(** Every directory has a link. *)
Lemma tree_dir_linked m : dir m → ∃ c, nl m = Some c ∧ 0 < c.
Proof.
  intros Hm. destruct (tr_dots _ _ _ W m Hm) as [H0 [p H1]]. destruct (tr_slot _ _ _ W m 0 m H0) as [_ [c Hc]]. exists c. split; [done|]. destruct (tr_count _ _ _ W m c Hc) as (R&HR&->).
  assert (∃ y, y ∈ R) as [y Hy].
  { destruct (decide (m = ROOTINO)) as [->|Hne].
    - exists (ROOTINO, 1%nat). apply HR. split; [lia|]. apply W.
    - destruct (tr_listed _ _ _ W m p Hm Hne H1) as (k&Hk&Hs). exists (p, k). apply HR. split; [lia|done]. }
  assert (size R ≠ 0)%nat by (apply size_non_empty_iff; set_solver). lia.
Qed.

(** Every entry names a file with a link. *)
Lemma tree_linked d k m : slot d k = Some m → ∃ c, nl m = Some c ∧ 0 < c.
Proof.
  intros Hs. destruct (tr_slot _ _ _ W d k m Hs) as [Hd [c Hc]]. destruct k as [|k].
  - destruct (tr_dots _ _ _ W d Hd) as [H0 _]. rewrite H0 in Hs. injection Hs as ->. by apply tree_dir_linked.
  - exists c. split; [done|]. destruct (tr_count _ _ _ W m c Hc) as (R&HR&->). assert ((d, S k) ∈ R) as Hin by (apply HR; split; [lia|done]). assert (size R ≠ 0)%nat by (apply size_non_empty_iff; set_solver). lia.
Qed.

(** The directory of a subdirectory has more than one. *)
Lemma tree_parent_links d k m c : slot d k = Some m → (2 ≤ k)%nat → dir m → nl d = Some c → 1 < c.
Proof.
  intros Hs Hk Hm Hc. destruct (tr_up _ _ _ W d k m Hs Hk Hm) as (H1&Hmd&Hmr). destruct (tr_count _ _ _ W d c Hc) as (R&HR&->). assert ((m, 1%nat) ∈ R) as Hin by (apply HR; split; [lia|done]). destruct (tr_slot _ _ _ W d k m Hs) as [Hd _].
  assert (∃ y, y ∈ R ∧ y ≠ (m, 1%nat)) as (y&Hy&Hne).
  { destruct (decide (d = ROOTINO)) as [->|Hdr].
    - exists (ROOTINO, 1%nat). split; [|congruence]. apply HR. split; [lia|apply W].
    - destruct (tr_dots _ _ _ W d Hd) as [_ [p Hp]]. destruct (tr_listed _ _ _ W d p Hd Hdr Hp) as (j&Hj&Hsj). exists (p, j). split; [apply HR; split; [lia|done]|]. intros [= -> ->]. lia. }
  assert ({[(m, 1%nat); y]} ⊆ R) as Hsub by (clear - Hin Hy; set_solver). apply subseteq_size in Hsub. rewrite size_union, !size_singleton in Hsub by (clear - Hne; set_solver). lia.
Qed.

(** An empty directory has one. *)
Lemma tree_empty_links d k m : slot d k = Some m → (2 ≤ k)%nat → dir m → (∀ j, (2 ≤ j)%nat → slot m j = None) → nl m = Some 1.
Proof.
  intros Hs Hk Hm He. destruct (tr_slot _ _ _ W d k m Hs) as [_ [c Hc]]. destruct (tr_count _ _ _ W m c Hc) as (R&HR&->). rewrite Hc. destruct (tr_up _ _ _ W d k m Hs Hk Hm) as (_&_&Hmr). assert (R = {[(d, k)]}) as ->; [|by rewrite size_singleton].
  apply set_eq. intros [x j]. rewrite HR, elem_of_singleton. split; [|intros [= -> ->]; split; [lia|done]]. intros [Hj Hx]. destruct (decide (2 ≤ j)%nat) as [Hj2|Hj2].
  - destruct (tr_one _ _ _ W x j d k m) as [-> ->]; done.
  - assert (j = 1)%nat as -> by lia. destruct (tr_slot _ _ _ W x 1 m Hx) as [Hxd _]. destruct (decide (x = ROOTINO)) as [->|Hxr]; [destruct (tr_root _ _ _ W) as [_ Hr]; congruence|].
    destruct (tr_listed _ _ _ W x m Hxd Hxr Hx) as (i&Hi&Hsi). rewrite He in Hsi; done.
Qed.

(** ** Changes *)

Section change.
Context (dir' : Z → Prop) (nl' : Z → option Z) (slot' : Z → nat → option Z).

(** A new inode that is not a directory, without names, or such an inode gone. *)
Lemma tree_count_only n : (∀ x, dir' x ↔ dir x) → (∀ x j, slot' x j = slot x j) → (∀ x, x ≠ n → nl' x = nl x) → nl n = None ∧ nl' n = Some 0 ∨ nl n = Some 0 ∧ nl' n = None → tree dir' nl' slot'.
Proof.
  intros Hd Hs Hn Hc. assert (∀ d k m, slot d k = Some m → m ≠ n) as Hne.
  { intros d k m Hm ->. destruct (tree_linked d k n Hm) as (c&Hnc&Hp). destruct Hc as [[Hc _]|[Hc _]]; [congruence|]. rewrite Hc in Hnc. injection Hnc as <-. lia. }
  split; intros *; rewrite ?Hs, ?Hd.
  - intros Hm. rewrite Hn by (by eapply Hne). by eapply tr_slot.
  - apply W.
  - destruct (decide (m = n)) as [->|Hmn].
    + intros H. destruct Hc as [[_ Hc]|[_ Hc]]; rewrite Hc in H; [|done]. injection H as <-. exists ∅. split; [|by rewrite size_empty]. intros d k. rewrite Hs. split; [set_solver|]. intros [_ Hm]. by destruct (Hne d k n).
    + rewrite Hn by done. intros H. apply (count_same slot); [by apply W|]. intros x j. by rewrite Hs.
  - apply W.
  - apply W.
  - intros H1 H2 H3. destruct (tr_listed _ _ _ W m p H1 H2 H3) as (k&Hk&Hsk). exists k. by rewrite Hs.
  - apply W.
Qed.

(** One more name for a file. *)
Lemma tree_link d k n c : dir d → ¬ dir n → slot d k = None → (2 ≤ k)%nat → nl n = Some c →
  (∀ x, dir' x ↔ dir x) → (∀ x j, slot' x j = if decide ((x, j) = (d, k)) then Some n else slot x j) → (∀ x, nl' x = if decide (x = n) then Some (c + 1) else nl x) → tree dir' nl' slot'.
Proof.
  intros Hdd Hnn Hfree Hk Hc Hd Hs Hn. assert (∀ x j, (j < 2)%nat → slot' x j = slot x j) as Hlow by (intros x j Hj; rewrite Hs, decide_False; [done|intros [= -> ->]; lia]).
  assert (∀ x j m, slot' x j = Some m → (m = n ∧ x = d ∧ j = k) ∨ slot x j = Some m) as Hinv by (intros x j m; rewrite Hs; case_decide as E; [injection E as -> ->; intros [= <-]; by left|by right]).
  assert (∀ x j m, slot x j = Some m → slot' x j = Some m) as Hmono by (intros x j m Hm; rewrite Hs, decide_False; [done|intros [= -> ->]; congruence]).
  split; intros *; rewrite ?Hd.
  - intros [(->&->&->)|Hm]%Hinv; [split; [done|]; rewrite Hn, decide_True by done; eauto|]. destruct (tr_slot _ _ _ W _ _ _ Hm) as [H1 H2]. split; [done|]. rewrite Hn. case_decide; eauto.
  - intros Hx. rewrite !Hlow by lia. by apply W.
  - rewrite Hn. case_decide as E.
    + intros [= <-]. subst m. apply (count_add slot slot' n d k); [by apply W|lia|congruence|by rewrite Hs, decide_True|]. intros x j Hne. by rewrite Hs, decide_False.
    + intros Hm. apply (count_same slot); [by apply W|]. intros x j. split; [intros [(->&_)|H]%Hinv; done|apply Hmono].
  - intros [(->&->&->)|Hm]%Hinv Hj Hdm; [done|]. rewrite Hlow by lia. by eapply W.
  - intros Hm%Hinv Hm'%Hinv Hj Hj' Hdm. destruct Hm as [(->&_)|Hm]; [done|]. destruct Hm' as [(->&_)|Hm']; [done|]. by eapply (tr_one _ _ _ W).
  - intros H1 H2. rewrite Hlow by lia. intros H3. destruct (tr_listed _ _ _ W m p H1 H2 H3) as (j&Hj&Hsj). eauto.
  - rewrite Hlow by lia. apply W.
Qed.

(** One name less for a file. *)
Lemma tree_unlink d k m c : ¬ dir m → slot d k = Some m → (2 ≤ k)%nat → nl m = Some c →
  (∀ x, dir' x ↔ dir x) → (∀ x j, slot' x j = if decide ((x, j) = (d, k)) then None else slot x j) → (∀ x, nl' x = if decide (x = m) then Some (c - 1) else nl x) → tree dir' nl' slot'.
Proof.
  intros Hnn Hent Hk Hc Hd Hs Hn. assert (∀ x j, (j < 2)%nat → slot' x j = slot x j) as Hlow by (intros x j Hj; rewrite Hs, decide_False; [done|intros [= -> ->]; lia]).
  assert (∀ x j y, slot' x j = Some y → slot x j = Some y) as Hinv by (intros x j y; rewrite Hs; by case_decide).
  assert (∀ x j y, slot x j = Some y → y ≠ m → slot' x j = Some y) as Hmono by (intros x j y Hy Hne; rewrite Hs, decide_False; [done|intros [= -> ->]; congruence]).
  split; intros *; rewrite ?Hd.
  - intros Hm%Hinv. destruct (tr_slot _ _ _ W _ _ _ Hm) as [H1 H2]. split; [done|]. rewrite Hn. case_decide; eauto.
  - intros Hx. rewrite !Hlow by lia. by apply W.
  - rewrite Hn. case_decide as E.
    + intros [= <-]. subst m0. apply (count_del slot slot' m d k); [by apply W|lia|done|by rewrite Hs, decide_True|]. intros x j Hne. by rewrite Hs, decide_False.
    + intros Hm. apply (count_same slot); [by apply W|]. intros x j. split; [apply Hinv|intros; by apply Hmono].
  - intros Hm%Hinv Hj Hdm. rewrite Hlow by lia. by eapply W.
  - intros Hm%Hinv Hm'%Hinv Hj Hj' Hdm. by eapply (tr_one _ _ _ W).
  - intros H1 H2. rewrite Hlow by lia. intros H3. destruct (tr_listed _ _ _ W _ p H1 H2 H3) as (j&Hj&Hsj). exists j. split; [done|]. apply Hmono; [done|]. intros ->. done.
  - rewrite Hlow by lia. apply W.
Qed.

(** A new directory. *)
Lemma tree_mkdir d k n c : dir d → nl n = None → slot d k = None → (2 ≤ k)%nat → nl d = Some c →
  (∀ x, dir' x ↔ dir x ∨ x = n) →
  (∀ x j, slot' x j = if decide ((x, j) = (d, k)) then Some n else if decide (x = n) then match j with 0%nat => Some n | 1%nat => Some d | _ => None end else slot x j) →
  (∀ x, nl' x = if decide (x = n) then Some 1 else if decide (x = d) then Some (c + 1) else nl x) → tree dir' nl' slot'.
Proof.
  intros Hdd Hnew Hfree Hk Hc Hd Hs Hn. assert (n ≠ d) as Hnd by congruence. assert (∀ x j, slot x j ≠ Some n) as Hno by (intros x j H; destruct (tr_slot _ _ _ W x j n H) as [_ [? ?]]; congruence).
  assert (¬ dir n) as Hndir by (intros H; destruct (tr_dots _ _ _ W n H) as [H0 _]; by apply Hno in H0). assert (∀ j, slot n j = None) as Hnone by (intros j; destruct (slot n j) eqn:E; [|done]; by destruct (tr_slot _ _ _ W _ _ _ E)).
  assert (∀ x j y, slot' x j = Some y → (y = n ∧ x = d ∧ j = k) ∨ (x = n ∧ j = 0%nat ∧ y = n) ∨ (x = n ∧ j = 1%nat ∧ y = d) ∨ (x ≠ n ∧ slot x j = Some y)) as Hinv.
  { intros x j y. rewrite Hs. case_decide as E; [injection E as -> ->; intros [= <-]; by left|]. case_decide as E2; [|intros H; do 3 right; done]. subst x. destruct j as [|[|j]]; [| |done]; intros [= <-]; [right; by left|do 2 right; by left]. }
  assert (∀ x j y, slot x j = Some y → slot' x j = Some y) as Hmono by (intros x j y Hy; rewrite Hs, decide_False; [|intros [= -> ->]; congruence]; rewrite decide_False; [done|intros ->; by rewrite Hnone in Hy]).
  assert (slot' d k = Some n ∧ slot' n 0%nat = Some n ∧ slot' n 1%nat = Some d) as (Sd&S0&S1).
  { rewrite !Hs. split_and!; [by rewrite decide_True|rewrite decide_False by (intros [=]; congruence); by rewrite decide_True|rewrite decide_False by (intros [=]; congruence); by rewrite decide_True]. }
  split; intros *.
  - assert (∀ y, is_Some (nl y) → is_Some (nl' y)) as Hnl by (intros y Hy; rewrite Hn; repeat case_decide; eauto). assert (is_Some (nl' n)) as Hnn by (rewrite Hn, decide_True by done; eauto).
    intros [(->&->&->)|[(->&->&->)|[(->&->&->)|[Hx Hm]]]]%Hinv; rewrite Hd; try tauto.
    + split; [by right|]. apply Hnl. eauto.
    + destruct (tr_slot _ _ _ W _ _ _ Hm). auto.
  - rewrite Hd. intros [Hx| ->]; [|rewrite S0, S1; eauto]. destruct (tr_dots _ _ _ W _ Hx) as [H0 [p H1]]. split; [by apply Hmono|]. apply Hmono in H1. eauto.
  - rewrite Hn. case_decide as E; [|case_decide as E2].
    + subst m. intros [= <-]. exists {[(d, k)]}. split; [|by rewrite size_singleton]. intros x j. rewrite elem_of_singleton. split; [intros [= -> ->]; split; [lia|done]|]. intros [Hj [(_&->&->)|[(_&->&_)|[(_&_&->)|[_ H]]]]%Hinv]; try done; [lia|by apply Hno in H].
    + subst m. intros [= <-]. apply (count_add slot slot' d n 1); [by apply W|lia|by rewrite Hnone|done|]. intros x j Hne. split; [|apply Hmono]. intros [(->&_)|[(->&->&->)|[(->&->&_)|[_ H]]]]%Hinv; done.
    + intros Hm. apply (count_same slot); [by apply W|]. intros x j. split; [|apply Hmono]. intros [(->&_)|[(->&->&->)|[(->&->&->)|[_ H]]]]%Hinv; done.
  - rewrite Hd. intros [(->&->&->)|[(->&->&->)|[(->&->&->)|[Hx Hm]]]]%Hinv Hj Hdm; try lia.
    + split_and!; [done|done|]. intros ->. apply Hndir, W.
    + destruct Hdm as [Hdm| ->]; [|by apply Hno in Hm]. destruct (tr_up _ _ _ W _ _ _ Hm Hj Hdm) as (H1&H2&H3). split_and!; [by apply Hmono|done|done].
  - rewrite Hd. intros Hm Hm' Hj Hj' Hdm. apply Hinv in Hm as [(->&->&->)|[(->&->&->)|[(->&->&->)|[Hx Hm]]]]; try lia; apply Hinv in Hm' as [(E1&->&->)|[(->&->&E1)|[(->&->&E1)|[Hx' Hm']]]]; try lia; try done.
    + by apply Hno in Hm'.
    + subst m. by apply Hno in Hm.
    + destruct Hdm as [Hdm| ->]; [by eapply (tr_one _ _ _ W)|by apply Hno in Hm].
  - rewrite Hd. intros Hdm Hmr [(->&->&?)|[(->&?&->)|[(->&_&->)|[Hx Hm]]]]%Hinv; try lia; [eauto|]. destruct Hdm as [Hdm| ->]; [|done]. destruct (tr_listed _ _ _ W _ _ Hdm Hmr Hm) as (j&Hj&Hsj). eauto.
  - rewrite Hd. destruct (tr_root _ _ _ W) as [H0 H1]. split; [by left|by apply Hmono].
Qed.

(** An empty directory less. *)
Lemma tree_rmdir d k m c : dir m → slot d k = Some m → (2 ≤ k)%nat → (∀ j, (2 ≤ j)%nat → slot m j = None) → nl d = Some c →
  (∀ x, dir' x ↔ dir x ∧ x ≠ m) → (∀ x j, slot' x j = if decide (x = m ∨ (x, j) = (d, k)) then None else slot x j) → (∀ x, nl' x = if decide (x = m) then None else if decide (x = d) then Some (c - 1) else nl x) →
  tree dir' nl' slot'.
Proof.
  intros Hm Hent Hk He Hc Hd Hs Hn. destruct (tr_up _ _ _ W d k m Hent Hk Hm) as (Hup&Hmd&Hmr). destruct (tr_dots _ _ _ W m Hm) as [Hself _].
  assert (∀ x j y, slot' x j = Some y → x ≠ m ∧ (x, j) ≠ (d, k) ∧ slot x j = Some y) as Hinv by (intros x j y; rewrite Hs; case_decide as E; [done|]; tauto).
  assert (∀ x j y, slot x j = Some y → x ≠ m → (x, j) ≠ (d, k) → slot' x j = Some y) as Hmono by (intros x j y Hy H1 H2; rewrite Hs, decide_False; tauto).
  assert (∀ x j, slot' x j ≠ Some m) as Hno.
  { intros x j (Hx&Hne&H)%Hinv. destruct (tr_slot _ _ _ W _ _ _ H) as [Hxd _]. destruct (decide (2 ≤ j)%nat) as [Hj|Hj]; [destruct (tr_one _ _ _ W x j d k m) as [-> ->]; done|]. destruct j as [|[|j]]; [| |lia].
    - destruct (tr_dots _ _ _ W x Hxd) as [H0 _]. congruence.
    - destruct (decide (x = ROOTINO)) as [->|Hxr]; [destruct (tr_root _ _ _ W) as [_ Hr]; congruence|]. destruct (tr_listed _ _ _ W x m Hxd Hxr H) as (i&Hi&Hsi). rewrite He in Hsi; done. }
  assert (∀ j y, slot m j = Some y → (j = 0%nat ∧ y = m) ∨ (j = 1%nat ∧ y = d)) as Hof.
  { intros [|[|j]] y Hy; [left|right|by rewrite He in Hy by lia]; split; congruence. }
  split; intros *.
  - intros H. pose proof (Hno _ _ : slot' d0 k0 ≠ Some m) as Hnm. apply Hinv in H as H'. destruct H' as (Hx&Hne&H'). destruct (tr_slot _ _ _ W _ _ _ H') as [H1 H2]. rewrite Hd, Hn. split; [done|]. case_decide; [congruence|]; case_decide; eauto.
  - rewrite Hd. intros [Hx Hxm]. destruct (tr_dots _ _ _ W _ Hx) as [H0 [p H1]]. split; [apply Hmono; try done; intros [= _ ?]; lia|]. exists p. apply Hmono; try done. intros [= _ ?]. lia.
  - rewrite Hn. case_decide as E; [done|]. case_decide as E2.
    + subst m0. intros [= <-]. apply (count_del slot slot' d m 1); [by apply W|lia|done|by rewrite Hs, decide_True; [|left]|]. intros x j Hne. split; [by intros (_&_&H)%Hinv|]. intros H. apply Hmono; [done| |intros [= -> ->]; congruence]. intros ->. destruct (Hof j d H) as [[-> ->]|[-> _]]; done.
    + intros Hm0. apply (count_same slot); [by apply W|]. intros x j. split; [by intros (_&_&H)%Hinv|]. intros H. apply Hmono; [done| |intros [= -> ->]; congruence]. intros ->. destruct (Hof j m0 H) as [[-> ->]|[-> ->]]; done.
  - rewrite Hd. intros (Hx&Hne&H)%Hinv Hj [Hdm Hmm]. destruct (tr_up _ _ _ W _ _ _ H Hj Hdm) as (H1&H2&H3). split_and!; try done. apply Hmono; try done. intros [= _ ?]. lia.
  - rewrite Hd. intros (_&_&H)%Hinv (_&_&H')%Hinv Hj Hj' [Hdm _]. by eapply (tr_one _ _ _ W).
  - rewrite Hd. intros [Hdm Hmm] Hr (_&_&H)%Hinv. destruct (tr_listed _ _ _ W _ _ Hdm Hr H) as (j&Hj&Hsj). exists j. split; [done|]. apply Hmono; [done| |intros [= -> ->]; congruence]. intros ->. by rewrite He in Hsj.
  - rewrite Hd. destruct (tr_root _ _ _ W) as [H0 H1]. split; [done|]. apply Hmono; try done. intros [= _ ?]. lia.
Qed.

End change.

End tree.

(** * The tree of the files *)

(** The inode that the entry [k] of a directory names. *)
Definition slotl (l : list byte) (k : nat) : option Z := de ← dents l !! k; if decide (de_inum de = 0) then None else Some (de_inum de).

Definition vdir (V : gmap Z afile) (d : Z) : Prop := ∃ f, V !! d = Some f ∧ f_type f = T_DIR.
Definition vnl (V : gmap Z afile) (m : Z) : option Z := f_nlink <$> V !! m.
Definition vslot (V : gmap Z afile) (d : Z) (k : nat) : option Z := f ← V !! d; if decide (f_type f = T_DIR) then slotl (f_data f) k else None.

Definition dotted (l : list byte) : Prop := (length l `mod` 16 = 0)%nat ∧ de_str <$> dents l !! 0%nat = Some (cs ".") ∧ de_str <$> dents l !! 1%nat = Some (cs "..").

Record tree_ok (V : gmap Z afile) : Prop := {
  to_tree : tree (vdir V) (vnl V) (vslot V);
  to_dots : ∀ d f, V !! d = Some f → f_type f = T_DIR → dotted (f_data f);
}.

Lemma lookup_put {A} (l : list A) k y j : (k ≤ length l)%nat → (take k l ++ y :: drop (S k) l) !! j = if decide (j = k) then Some y else l !! j.
Proof.
  intros Hk. assert (length (take k l) = k) as Hl by (rewrite length_take; lia). case_decide as E.
  - subst j. rewrite lookup_app_r by lia. by rewrite Hl, Nat.sub_diag.
  - destruct (decide (j < k)%nat) as [Hlt|Hge].
    + rewrite lookup_app_l by lia. by rewrite lookup_take_lt.
    + rewrite lookup_app_r by lia. rewrite Hl. destruct (j - k)%nat as [|i] eqn:Ei; [lia|]. change ((y :: drop (S k) l) !! S i) with (drop (S k) l !! i). rewrite lookup_drop. f_equal. lia.
Qed.

Section dirs.
Context (l : list byte) (Hl : (length l `mod` 16 = 0)%nat).

Lemma slotl_add name m k : no_nul name → 0 < m < 2 ^ 16 → slotl (dir_add name m l) k = if decide (k = dir_slot l) then Some m else slotl l k.
Proof.
  intros Hn Hm. unfold slotl. rewrite dents_add by done. rewrite lookup_put by (rewrite length_dents; apply slot_bound). case_decide; [|done]. cbn. rewrite de_inum_enc by lia. by rewrite decide_False by lia.
Qed.

Lemma slotl_free : slotl l (dir_slot l) = None.
Proof. unfold slotl. pose proof (slot_free l) as H. destruct (dents l !! dir_slot l) as [de|]; [|done]. cbn. by rewrite decide_True. Qed.

Lemma slotl_erase k j : (k < length l / 16)%nat → slotl (patch (16 * k) (replicate 16 NUL) l) j = if decide (j = k) then None else slotl l j.
Proof. intros Hk. unfold slotl. rewrite dents_patch by (done || lia). rewrite lookup_put by (rewrite length_dents; lia). by case_decide. Qed.

Lemma slotl_dent k de : dents l !! k = Some de → de_inum de ≠ 0 → slotl l k = Some (de_inum de).
Proof. intros H Hz. unfold slotl. rewrite H. cbn. by rewrite decide_False. Qed.

Context (D : dotted l) (H0 : is_Some (slotl l 0)) (H1 : is_Some (slotl l 1)).

Lemma slot_after_dots : (2 ≤ dir_slot l)%nat.
Proof. pose proof slotl_free as Hf. destruct (dir_slot l) as [|[|k]]; [rewrite Hf in H0; by destruct H0|rewrite Hf in H1; by destruct H1|lia]. Qed.

Lemma find_after_dots name k de : (length name ≤ DIRSIZ)%nat → name ≠ cs "." → name ≠ cs ".." → dir_find name l = Some (k, de) → (2 ≤ k)%nat.
Proof.
  intros Hlen Hn1 Hn2 (Hk&[_ Hs]&_)%list_find_Some. rewrite take_ge in Hs by done. destruct D as (_&D0&D1). destruct k as [|[|k]]; [| |lia]; rewrite Hk in *; cbn in *; congruence.
Qed.

Lemma dotted_add name m : dotted (dir_add name m l).
Proof.
  pose proof slot_after_dots as Hs. destruct D as (_&D0&D1). split; [by apply length_dir_add|]. rewrite dents_add by done. rewrite !lookup_put by (rewrite length_dents; apply slot_bound). by rewrite !decide_False by lia.
Qed.

Lemma dotted_erase k : (2 ≤ k < length l / 16)%nat → dotted (patch (16 * k) (replicate 16 NUL) l).
Proof.
  intros Hk. destruct D as (_&D0&D1). assert (16 * (length l / 16) ≤ length l)%nat by (apply Nat.Div0.mul_div_le). split; [rewrite length_patch; [done|rewrite length_replicate; lia]|].
  rewrite dents_patch by (done || lia). rewrite !lookup_put by (rewrite length_dents; lia). by rewrite !decide_False by lia.
Qed.

End dirs.

Lemma dents_new d n : 0 < n < 2 ^ 16 → dents (dir_add (cs "..") d (dir_add (cs ".") n [])) = [enc_dirent n (cs "."); enc_dirent d (cs "..")].
Proof.
  intros Hn. destruct (length_dir_add (cs ".") n []) as [Hl _]; [done|]. assert (dents (dir_add (cs ".") n []) = [enc_dirent n (cs ".")]) as E by (by rewrite dents_add).
  assert (dir_slot (dir_add (cs ".") n []) = 1%nat) as Es; [|by rewrite dents_add, E, Es].
  unfold dir_slot. rewrite E. cbn [list_find]. rewrite decide_False by (rewrite de_inum_enc by lia; lia). cbn [fmap option_fmap option_map]. rewrite <- length_dents, E. done.
Qed.

Lemma new_dir d n : 0 < n < 2 ^ 16 → 0 < d < 2 ^ 16 →
  dotted (dir_add (cs "..") d (dir_add (cs ".") n [])) ∧ ∀ k, slotl (dir_add (cs "..") d (dir_add (cs ".") n [])) k = match k with 0%nat => Some n | 1%nat => Some d | _ => None end.
Proof.
  intros Hn Hd. unfold dotted, slotl. rewrite dents_new by done. split; [split_and!|].
  - apply length_dir_add. by apply length_dir_add.
  - cbn [lookup list_lookup fmap option_fmap option_map]. by rewrite de_str_enc by (by apply no_nul_cs).
  - cbn [lookup list_lookup fmap option_fmap option_map]. by rewrite de_str_enc by (by apply no_nul_cs).
  - intros [|[|k]]; cbn; [| |done]; rewrite de_inum_enc by lia; by rewrite decide_False by lia.
Qed.

(** ** The files after a change of one *)

Section insert.
Context (V : gmap Z afile) (n : Z) (g : afile).

Lemma vdir_insert x : vdir (<[n := g]> V) x ↔ if decide (x = n) then f_type g = T_DIR else vdir V x.
Proof. unfold vdir. case_decide as E; [subst; rewrite lookup_insert_eq; naive_solver|by rewrite lookup_insert_ne]. Qed.
Lemma vnl_insert x : vnl (<[n := g]> V) x = if decide (x = n) then Some (f_nlink g) else vnl V x.
Proof. unfold vnl. case_decide as E; [by subst; rewrite lookup_insert_eq|by rewrite lookup_insert_ne]. Qed.
Lemma vslot_insert x k : vslot (<[n := g]> V) x k = if decide (x = n) then if decide (f_type g = T_DIR) then slotl (f_data g) k else None else vslot V x k.
Proof. unfold vslot. case_decide as E; [by subst; rewrite lookup_insert_eq|by rewrite lookup_insert_ne]. Qed.
Lemma vdir_delete x : vdir (delete n V) x ↔ vdir V x ∧ x ≠ n.
Proof. unfold vdir. destruct (decide (x = n)) as [->|E]; [rewrite lookup_delete_eq|rewrite lookup_delete_ne by done]; naive_solver. Qed.
Lemma vnl_delete x : vnl (delete n V) x = if decide (x = n) then None else vnl V x.
Proof. unfold vnl. case_decide as E; [by subst; rewrite lookup_delete_eq|by rewrite lookup_delete_ne]. Qed.
Lemma vslot_delete x k : vslot (delete n V) x k = if decide (x = n) then None else vslot V x k.
Proof. unfold vslot. case_decide as E; [by subst; rewrite lookup_delete_eq|by rewrite lookup_delete_ne]. Qed.

End insert.

Lemma vslot_at V d f k : V !! d = Some f → f_type f = T_DIR → vslot V d k = slotl (f_data f) k.
Proof. intros Hd Ht. unfold vslot. rewrite Hd. cbn. by rewrite decide_True. Qed.
Lemma vslot_not V d f k : V !! d = Some f → f_type f ≠ T_DIR → vslot V d k = None.
Proof. intros Hd Ht. unfold vslot. rewrite Hd. cbn. by rewrite decide_False. Qed.
Lemma vslot_none V d k : V !! d = None → vslot V d k = None.
Proof. intros Hd. unfold vslot. by rewrite Hd. Qed.

(** The directories can be walked. *)
Lemma tree_dirs V : tree_ok V → dirs_ok V.
Proof.
  intros [W D] d f Hd Ht. split; [by apply (D d)|]. intros k de Hde Hz. destruct (tree_linked _ _ _ W d k (de_inum de)) as (c&Hc&Hp); [rewrite (vslot_at V d f) by done; by apply slotl_dent|].
  unfold vnl in Hc. apply fmap_Some in Hc as (g&Hg&->). eauto.
Qed.

Lemma tree_root_live V : tree_ok V → ∃ f, V !! ROOTINO = Some f ∧ 0 < f_nlink f.
Proof. intros [W D]. destruct (tr_root _ _ _ W) as [Hr _]. destruct (tree_dir_linked _ _ _ W _ Hr) as (c&Hc&Hp). apply fmap_Some in Hc as (g&Hg&->). eauto. Qed.

(** * The calls keep the tree *)

Lemma tree_ext dir nl slot dir' nl' slot' : tree dir nl slot → (∀ x, dir' x ↔ dir x) → (∀ x, nl' x = nl x) → (∀ x j, slot' x j = slot x j) → tree dir' nl' slot'.
Proof.
  intros W Hd Hn Hs. split; intros *; rewrite ?Hs, ?Hd, ?Hn; try apply W.
  - intros H. apply (count_same slot); [by apply W|]. intros x j. by rewrite Hs.
  - intros H1 H2 H3. destruct (tr_listed _ _ _ W _ _ H1 H2 H3) as (k&Hk&H). exists k. by rewrite Hs.
Qed.

Section keep.
Context (V : gmap Z afile) (W : tree_ok V).
Abbreviation t := (to_tree V W).

Lemma dots_entries d f : V !! d = Some f → f_type f = T_DIR → dotted (f_data f) ∧ is_Some (slotl (f_data f) 0) ∧ is_Some (slotl (f_data f) 1) ∧ vdir V d.
Proof.
  intros Hd Ht. assert (vdir V d) as Hdir by (by exists f). destruct (tr_dots _ _ _ t d Hdir) as [H0 H1]. rewrite (vslot_at V d f) in H0, H1 by done. split_and!; [by apply (to_dots V W d)|rewrite H0; eauto|done|done].
Qed.

(** A file that is not a directory gets other bytes. *)
Lemma tree_data n g l : V !! n = Some g → f_type g ≠ T_DIR → tree_ok (<[n := with_data l g]> V).
Proof.
  intros Hn Ht. split.
  - apply (tree_ext _ _ _ _ _ _ t).
    + intros x. rewrite vdir_insert. case_decide as E; [|done]. subst. cbn. unfold vdir. rewrite Hn. naive_solver.
    + intros x. rewrite vnl_insert. case_decide as E; [|done]. subst. unfold vnl. by rewrite Hn.
    + intros x j. rewrite vslot_insert. case_decide as E; [|done]. subst. cbn. rewrite decide_False by done. by rewrite (vslot_not V n g).
  - intros d f Hd Htd. destruct (decide (d = n)) as [->|Hne]; [rewrite lookup_insert_eq in Hd; injection Hd as <-; done|]. rewrite lookup_insert_ne in Hd by done. by apply (to_dots V W d).
Qed.

(** A file without names goes, or comes. *)
Lemma tree_gone n g : V !! n = Some g → f_type g ≠ T_DIR → f_nlink g = 0 → tree_ok (delete n V).
Proof.
  intros Hn Ht Hl. split.
  - apply (tree_count_only _ _ _ t _ _ _ n).
    + intros x. rewrite vdir_delete. split; [tauto|]. intros Hx. split; [done|]. intros ->. destruct Hx as (f&Hf&?). congruence.
    + intros x j. rewrite vslot_delete. case_decide as E; [|done]. subst. by rewrite (vslot_not V n g).
    + intros x Hx. by rewrite vnl_delete, decide_False.
    + right. rewrite vnl_delete, decide_True by done. unfold vnl. rewrite Hn. cbn. by rewrite Hl.
  - intros d f Hd Htd. apply lookup_delete_Some in Hd as [_ Hd]. by apply (to_dots V W d).
Qed.

Lemma tree_come n g : V !! n = None → f_type g ≠ T_DIR → f_nlink g = 0 → tree_ok (<[n := g]> V).
Proof.
  intros Hn Ht Hl. split.
  - apply (tree_count_only _ _ _ t _ _ _ n).
    + intros x. rewrite vdir_insert. case_decide as E; [|done]. subst. unfold vdir. rewrite Hn. naive_solver.
    + intros x j. rewrite vslot_insert. case_decide as E; [|done]. subst. rewrite decide_False by done. by rewrite vslot_none.
    + intros x Hx. by rewrite vnl_insert, decide_False.
    + left. rewrite vnl_insert, decide_True by done. unfold vnl. rewrite Hn, Hl. done.
  - intros d f Hd Htd. destruct (decide (d = n)) as [->|Hne]; [rewrite lookup_insert_eq in Hd; injection Hd as <-; done|]. rewrite lookup_insert_ne in Hd by done. by apply (to_dots V W d).
Qed.

(** One more name for a file. *)
Lemma tree_more n g d f name : V !! n = Some g → f_type g ≠ T_DIR → V !! d = Some f → f_type f = T_DIR → 0 < n < 2 ^ 16 → no_nul name →
  tree_ok (<[d := with_data (dir_add name n (f_data f)) f]> (<[n := with_nlink (f_nlink g + 1) g]> V)).
Proof.
  intros Hn Htg Hd Htf Hn16 Hnul. destruct (dots_entries d f Hd Htf) as (D&H0&H1&Hdir). pose proof D as [Hl _]. assert (n ≠ d) as Hne by congruence. pose proof (slot_after_dots (f_data f) Hl H0 H1) as Hslot. split.
  - apply (tree_link _ _ _ t _ _ _ d (dir_slot (f_data f)) n (f_nlink g)).
    + done.
    + intros (f'&Hf'&?). congruence.
    + rewrite (vslot_at V d f) by done. apply slotl_free.
    + done.
    + unfold vnl. by rewrite Hn.
    + intros x. rewrite vdir_insert. cbn. destruct (decide (x = d)) as [->|]; [tauto|]. rewrite vdir_insert. cbn. destruct (decide (x = n)) as [->|]; [|done]. split; [done|]. intros (f'&?&?). congruence.
    + intros x j. rewrite !vslot_insert. cbn [with_data with_nlink f_type f_data f_nlink]. rewrite (decide_False (P := f_type g = T_DIR)) by done. rewrite (decide_True (P := f_type f = T_DIR)) by done. destruct (decide (x = d)) as [->|Hxd].
      * rewrite slotl_add by done. destruct (decide (j = dir_slot (f_data f))) as [->|Hj]; [by rewrite decide_True|]. rewrite decide_False by congruence. by rewrite (vslot_at V d f).
      * rewrite (decide_False (P := (x, j) = _)) by congruence. case_decide; [|done]. subst. by rewrite (vslot_not V n g).
    + intros x. rewrite !vnl_insert. cbn. destruct (decide (x = d)) as [->|Hxd]; [|done]. rewrite decide_False by done. unfold vnl. by rewrite Hd.
  - intros x h Hx Hth. destruct (decide (x = d)) as [->|Hxd]; [rewrite lookup_insert_eq in Hx; injection Hx as <-; by apply dotted_add|]. rewrite lookup_insert_ne in Hx by done.
    destruct (decide (x = n)) as [->|Hxn]; [rewrite lookup_insert_eq in Hx; injection Hx as <-; done|]. rewrite lookup_insert_ne in Hx by done. by apply (to_dots V W x).
Qed.

(** A new directory. *)
Lemma tree_newdir n d f name major minor : V !! n = None → V !! d = Some f → f_type f = T_DIR → 0 < n < 2 ^ 16 → 0 < d < 2 ^ 16 → no_nul name →
  tree_ok (<[d := with_data (dir_add name n (f_data f)) (with_nlink (f_nlink f + 1) f)]> (<[n := mk_afile T_DIR major minor 1 (dir_add (cs "..") d (dir_add (cs ".") n []))]> V)).
Proof.
  intros Hn Hd Htf Hn16 Hd16 Hnul. destruct (dots_entries d f Hd Htf) as (D&H0&H1&Hdir). pose proof D as [Hl _]. assert (n ≠ d) as Hne by congruence. pose proof (slot_after_dots (f_data f) Hl H0 H1) as Hslot. destruct (new_dir d n Hn16 Hd16) as [Dn Sn]. split.
  - apply (tree_mkdir _ _ _ t _ _ _ d (dir_slot (f_data f)) n (f_nlink f)).
    + done.
    + unfold vnl. by rewrite Hn.
    + rewrite (vslot_at V d f) by done. apply slotl_free.
    + done.
    + unfold vnl. by rewrite Hd.
    + intros x. rewrite vdir_insert. cbn. destruct (decide (x = d)) as [->|]; [tauto|]. rewrite vdir_insert. cbn. destruct (decide (x = n)) as [->|]; tauto.
    + intros x j. rewrite !vslot_insert. cbn [with_data with_nlink f_type f_data f_nlink]. rewrite (decide_True (P := f_type f = T_DIR)) by done. rewrite (decide_True (P := T_DIR = T_DIR)) by done. destruct (decide (x = d)) as [->|Hxd].
      * rewrite slotl_add by done. destruct (decide (j = dir_slot (f_data f))) as [->|Hj]; [by rewrite decide_True|]. rewrite decide_False by congruence. rewrite decide_False by done. by rewrite (vslot_at V d f).
      * rewrite (decide_False (P := (x, j) = _)) by congruence. case_decide; [|done]. by rewrite Sn.
    + intros x. rewrite !vnl_insert. cbn. destruct (decide (x = d)) as [->|Hxd]; [|done]. by rewrite decide_False.
  - intros x h Hx Hth. destruct (decide (x = d)) as [->|Hxd]; [rewrite lookup_insert_eq in Hx; injection Hx as <-; by apply dotted_add|]. rewrite lookup_insert_ne in Hx by done.
    destruct (decide (x = n)) as [->|Hxn]; [rewrite lookup_insert_eq in Hx; injection Hx as <-; done|]. rewrite lookup_insert_ne in Hx by done. by apply (to_dots V W x).
Qed.

End keep.

(** One name less. *)
Section less.
Context (V : gmap Z afile) (W : tree_ok V) (d : Z) (f : afile) (k : nat) (m : Z) (g : afile).
Context (Hd : V !! d = Some f) (Htf : f_type f = T_DIR) (Hent : slotl (f_data f) k = Some m) (Hk : (2 ≤ k)%nat) (Hm : V !! m = Some g).
Abbreviation t := (to_tree V W).

Lemma slotl_lt l j y : slotl l j = Some y → (j < length l / 16)%nat.
Proof. unfold slotl. intros (de&H&_)%bind_Some. apply lookup_lt_Some in H. by rewrite length_dents in H. Qed.

Lemma tree_less_file : f_type g ≠ T_DIR → tree_ok (<[m := with_nlink (f_nlink g - 1) g]> (<[d := without_entry k false f]> V)).
Proof.
  intros Htg. destruct (dots_entries V W d f Hd Htf) as (D&H0&H1&Hdir). pose proof D as [Hl _]. assert (m ≠ d) as Hne by congruence. pose proof (slotl_lt _ _ _ Hent) as Hlt. split.
  - apply (tree_unlink _ _ _ t _ _ _ d k m (f_nlink g)).
    + intros (f'&Hf'&?). congruence.
    + by rewrite (vslot_at V d f).
    + done.
    + unfold vnl. by rewrite Hm.
    + intros x. rewrite vdir_insert. cbn. destruct (decide (x = m)) as [->|]; [split; [done|]; intros (f'&?&?); congruence|]. rewrite vdir_insert. cbn. destruct (decide (x = d)) as [->|]; tauto.
    + intros x j. rewrite !vslot_insert. cbn [without_entry with_data with_nlink f_type f_data f_nlink]. rewrite (decide_False (P := f_type g = T_DIR)) by done. rewrite (decide_True (P := f_type f = T_DIR)) by done. destruct (decide (x = m)) as [->|Hxm].
      * rewrite decide_False by congruence. by rewrite (vslot_not V m g).
      * destruct (decide (x = d)) as [->|Hxd]; [|rewrite decide_False by congruence; done]. rewrite slotl_erase by done. rewrite (vslot_at V d f) by done. destruct (decide (j = k)) as [->|]; [by rewrite decide_True|by rewrite decide_False by congruence].
    + intros x. rewrite !vnl_insert. cbn. destruct (decide (x = m)) as [->|Hxm]; [done|]. destruct (decide (x = d)) as [->|Hxd]; [|done]. unfold vnl. by rewrite Hd.
  - intros x h Hx Hth. destruct (decide (x = m)) as [->|Hxm]; [rewrite lookup_insert_eq in Hx; injection Hx as <-; done|]. rewrite lookup_insert_ne in Hx by done.
    destruct (decide (x = d)) as [->|Hxd]; [rewrite lookup_insert_eq in Hx; injection Hx as <-; by apply dotted_erase|]. rewrite lookup_insert_ne in Hx by done. by apply (to_dots V W x).
Qed.

Lemma empty_slots l j : dir_empty l = true → (2 ≤ j)%nat → slotl l j = None.
Proof.
  intros He%bool_decide_eq_true Hj. unfold slotl. destruct (dents l !! j) as [de|] eqn:E; [|done]. cbn. rewrite Forall_lookup in He. rewrite decide_True; [done|]. apply (He (j - 2)%nat). rewrite lookup_drop. by replace (2 + (j - 2))%nat with j by lia.
Qed.

Lemma tree_less_dir : f_type g = T_DIR → dir_empty (f_data g) = true → f_nlink g = 1 ∧ m ≠ d ∧ 1 < f_nlink f ∧ (f_nlink f < 2 ^ 15 → tree_ok (delete m (<[d := without_entry k true f]> V))).
Proof.
  intros Htg He. destruct (dots_entries V W d f Hd Htf) as (D&H0&H1&Hdir). pose proof D as [Hl _]. pose proof (slotl_lt _ _ _ Hent) as Hlt. assert (vslot V d k = Some m) as Hs by (by rewrite (vslot_at V d f)). assert (vdir V m) as Hmd by (by exists g).
  assert (∀ j, (2 ≤ j)%nat → vslot V m j = None) as Hno by (intros j Hj; rewrite (vslot_at V m g) by done; by apply empty_slots). pose proof (tree_empty_links _ _ _ t d k m Hs Hk Hmd Hno) as Hn1. unfold vnl in Hn1. rewrite Hm in Hn1. injection Hn1 as Hn1.
  destruct (tr_up _ _ _ t d k m Hs Hk Hmd) as (_&Hne&_). assert (vnl V d = Some (f_nlink f)) as Hdl by (unfold vnl; by rewrite Hd). pose proof (tree_parent_links _ _ _ t d k m _ Hs Hk Hmd Hdl) as Hpl. split_and!; [done|done|done|]. intros Hlim. split.
  - apply (tree_rmdir _ _ _ t _ _ _ d k m (f_nlink f)); try done.
    + intros x. rewrite vdir_delete, vdir_insert. cbn. destruct (decide (x = d)) as [->|]; tauto.
    + intros x j. rewrite vslot_delete, vslot_insert. cbn [without_entry with_data with_nlink f_type f_data f_nlink]. rewrite (decide_True (P := f_type f = T_DIR)) by done. destruct (decide (x = m)) as [->|Hxm]; [by rewrite decide_True by auto|].
      destruct (decide (x = d)) as [->|Hxd]; [|rewrite decide_False by (intros [|]; congruence); done]. rewrite slotl_erase by done. rewrite (vslot_at V d f) by done. destruct (decide (j = k)) as [->|]; [by rewrite decide_True by auto|by rewrite decide_False by (intros [|]; congruence)].
    + intros x. rewrite vnl_delete, vnl_insert. cbn [without_entry with_data with_nlink f_nlink]. rewrite s16_id by (change (2 ^ 15) with 32768 in *; lia). done.
  - intros x h Hx Hth. apply lookup_delete_Some in Hx as [Hxm Hx]. destruct (decide (x = d)) as [->|Hxd]; [rewrite lookup_insert_eq in Hx; injection Hx as <-; by apply dotted_erase|]. rewrite lookup_insert_ne in Hx by done. by apply (to_dots V W x).
Qed.

(** What [unlink] leaves. *)
Lemma tree_less open : f_nlink f < 2 ^ 15 → (f_type g = T_DIR → dir_empty (f_data g) = true ∧ open = 0) → tree_ok (with_less V open d f k m g).
Proof.
  intros Hlim Hdir. unfold with_less. destruct (decide (f_type g = T_DIR)) as [Ht|Ht].
  - rewrite bool_decide_eq_true_2 by done. destruct (Hdir Ht) as [He ->]. destruct (tree_less_dir Ht He) as (->&_&_&Hok). rewrite decide_True by done. by apply Hok.
  - rewrite bool_decide_eq_false_2 by done. pose proof (tree_less_file Ht) as W1. case_decide as E; [|done]. destruct E as [E _]. rewrite E in W1.
    rewrite <- (delete_insert_eq _ m (with_nlink (1 - 1) g)). apply (tree_gone _ W1 m (with_nlink (1 - 1) g)); [by rewrite lookup_insert_eq|done|done].
Qed.

End less.
