(* ===== verification/XvFsSession.v ===== *)
(** A process of xv6 and its file system calls: every sequence of calls does to
    the disk what a map of files and a table of open files say. *)

From stdpp Require Import base option list numbers gmap sets.
From coqutil Require Import Datatypes.RecordSettersUsingExistingGetters.
From Stdlib Require Import Strings.Byte ZArith Lia.
From S2P Require Import Prelude CString XvFs XvFsInv XvFsInode XvFsIo XvFsCache XvFsDir XvFsCalls XvFsRw XvFsOps XvFsLink XvFsTree.
Local Open Scope Z_scope.

(** * Closing and changing the directory *)

(** The directory that a path leads to. *)
Definition chdir_to (V : gmap Z afile) (c : Z) (path : cstr) : option Z := '(n, _) ← walk V false (start c path) (names path); g ← V !! n; if decide (f_type g = T_DIR) then Some n else None.

Section calls.
Context (T : gmap Z ainode) (s : fss) (Hop : outstanding s = 0%nat).
Abbreviation V := (files T s).
Abbreviation C := (icache s).
Abbreviation s0 := (with_log 1 ∅ s).

(** The last reference to a file without names is the end of the file. *)
Lemma close_spec i n g : fs_ok T s → loaded C i n → is_locked C i = false → V !! n = Some g →
  wp (close_inode i) (λ _ s', ∃ T', call T s T' s' {[IBLOCK n (sb s)]} 0 (λ m, - one n m) nobody 0 ∧
    files T' s' = if decide (f_nlink g = 0 ∧ refs C n = 1) then delete n V else V) s.
Proof.
  intros O L Hl Hg. assert (fs_ok T s0) as O0 by (by apply ok_log). unfold close_inode. apply begin_first; [done|]. apply wp_bind. case_decide as E.
  - destruct E as [E1 E2]. destruct (lookup_files_inv _ _ _ _ Hg) as (a&Ha&->). pose proof L as (ip&Hi&Hn&Hr&Hv). destruct (fo_copies _ _ O i ip Hi Hr) as (a'&Ha'&Hd). rewrite Hn, Ha in Ha'. injection Ha' as <-.
    assert (locked ip = false) as Hlk by (unfold is_locked in Hl; by rewrite Hi in Hl). assert (ref ip = 1) as Hr1 by (rewrite <- (refs_entry C (fo_wf _ _ O) i ip Hi Hr); by rewrite Hn).
    eapply wp_mono; [by apply (iput_free T s0 O0 i n ip a); [| | | |rewrite Hd| | |]|]. intros [] s1 (O1&F1&E3&Fr&Hroom). cbn beta. eapply wp_intro; [apply end_run|]. exists (delete n T). split; [|exact F1]. apply call_moves. split; [done|done| |cbn [with_log sb] in *; lia].
    exists ∅. split; [by rewrite size_empty|]. eapply fs_frame_mono; [exact Fr|]. clear. set_solver.
  - destruct (iput_moves T s0 i n g O0 Hg (loaded_handle _ _ _ L) Hl) as (C1&R1&M1).
    { cbn [with_log icache]. destruct (decide (f_nlink g = 0)); [right|by left]. tauto. }
    eapply wp_intro; [exact R1|]. cbn beta. eapply wp_intro; [apply end_run|]. exists T. split; [|done]. apply call_moves. eapply moves_ext; [exact M1|..]; moves_side.
Qed.

(** The directory of the process. *)
Context (cwd : nat) (c : Z) (G : ready T s cwd c) (cf : afile) (Hc : V !! c = Some cf) (Hcl : 0 < f_nlink cf).

Lemma sys_chdir_spec dev_read path : no_nul path →
  wp (sys_chdir dev_read cwd path) (λ '(r, j) s', files T s' = V ∧
    match chdir_to V c path with
    | Some n => r = 0 ∧ handle (icache s') j n ∧ call T s T s' ∅ 0 (λ m, one n m - one c m) nobody 0
    | None => r = -1 ∧ j = cwd ∧ call T s T s' ∅ 0 (λ _, 0) nobody 0
    end) s.
Proof.
  intros Hnul. unfold sys_chdir. apply begin_first; [done|]. assert (ready T s0 cwd c) as G0 by (by apply ready_log). destruct (namei_moves T s0 cwd c G0 dev_read path Hnul) as (r&C1&R1&H1). change (files T s0) with V in *. apply wp_bind. eapply wp_intro; [exact R1|].
  unfold chdir_to. destruct r as [i|], (walk V false (start c path) (names path)) as [[n nm]|]; cbv beta iota; try done.
  2: { eapply wp_end; [exact H1|]. intros s1 Ca F. done. }
  destruct H1 as (M1&H1&g&Hg&Hlive). cbn [mbind option_bind]. rewrite Hg. cbn [mbind option_bind]. change (refs (icache s0) n) with (refs C n) in Hlive. pose proof (mv_ok _ _ _ _ _ _ _ _ _ M1) as O1. pose proof (mv_cache _ _ _ _ _ _ _ _ _ M1) as E1. cbn [set_cache icache with_log] in E1.
  destruct (ilock_moves T (set_cache C1 s0) O1 i n H1) as (C2&R2&M2&L2); [rewrite (ev_lock _ _ _ _ E1); apply G|]. apply wp_bind. eapply wp_intro; [exact R2|]. cbn beta. change (set_cache C2 (set_cache C1 s0)) with (set_cache C2 s0) in *.
  pose proof (mv_ok _ _ _ _ _ _ _ _ _ M2) as O2. pose proof (mv_cache _ _ _ _ _ _ _ _ _ M2) as E2. cbn [set_cache icache] in E2. assert (is_locked C2 i = true) as K2 by (rewrite (ev_lock _ _ _ _ E2); unfold only; by rewrite decide_True).
  destruct (opened_file T (set_cache C2 s0) O2 i n g Hg L2 K2) as (a&Ha&Eg&ip&Hi&_&_&_&_&Hdin). apply wp_bind. eapply wp_intro; [by apply read_inode_run|]. cbn beta. replace (d_type (din ip)) with (f_type g) by (rewrite Hdin, Eg; done).
  assert (∀ x, refs C2 x = refs C x + one n x) as Hr2 by (intros x; rewrite (ev_refs _ _ _ _ E2), (ev_refs _ _ _ _ E1); lia). assert (moves T s0 T (set_cache C2 s0) ∅ 0 (one n) (only i true) 0) as M02 by (eapply moves_ext; [eapply (moves_trans _ _ _ (set_cache C1 s0)); [apply G0|exact M1|exact M2|]|..]; moves_side).
  pose proof (one_self n) as Hon. pose proof (one_self c) as Hoc. pose proof (refs_nonneg C n) as Hpn. destruct (decide (f_type g = T_DIR)) as [Ht|Ht]; [rewrite decide_False by (intros H; by apply H)|rewrite decide_True by done].
  - destruct (iunlock_moves T (set_cache C2 s0) O2 i n g Hg L2 K2) as (C3&R3&M3). apply wp_bind. eapply wp_intro; [exact R3|]. cbn beta. change (set_cache C3 (set_cache C2 s0)) with (set_cache C3 s0) in *. pose proof (mv_ok _ _ _ _ _ _ _ _ _ M3) as O3. pose proof (mv_cache _ _ _ _ _ _ _ _ _ M3) as E3. cbn [set_cache icache] in E3.
    assert (∀ x, refs C3 x = refs C x + one n x) as Hr3 by (intros x; rewrite (ev_refs _ _ _ _ E3), Hr2; lia). assert (moves T s0 T (set_cache C3 s0) ∅ 0 (one n) nobody 0) as M03.
    { eapply moves_ext; [eapply (moves_trans _ _ _ (set_cache C2 s0)); [apply G0|exact M02|exact M3|]|..]; moves_side. intros j. cbn [with_log icache]. rewrite (rd_unlocked _ _ _ _ G). unfold then_, only, nobody. repeat case_decide; done. }
    pose proof (mv_cache _ _ _ _ _ _ _ _ _ M03) as E03. cbn [set_cache icache with_log] in E03. pose proof (handle_refs _ _ _ (fo_wf _ _ (rd_ok _ _ _ _ G)) (rd_cwd _ _ _ _ G)) as Hpc. pose proof (one_nonneg n c) as Hnc.
    destruct (iput_moves T (set_cache C3 s0) cwd c cf O3 Hc) as (C4&R4&M4); [apply (ev_handle _ _ _ _ E03); [apply G|rewrite Hr3; lia]|cbn; rewrite (ev_lock _ _ _ _ E03); apply G|lia|]. apply wp_bind. eapply wp_intro; [exact R4|]. cbn beta. change (set_cache C4 (set_cache C3 s0)) with (set_cache C4 s0) in *.
    apply wp_bind. eapply wp_intro; [apply end_run|]. cbn beta. apply wp_ret. split_and!; [done|done| |].
    + apply (mv_handle _ _ _ _ _ _ _ _ _ M4); [apply (mv_handle _ _ _ _ _ _ _ _ _ M3); [by apply loaded_handle|cbn; rewrite Hr2; lia]|]. cbn [set_cache icache]. rewrite Hr3. unfold one. destruct (decide (n = c)) as [->|Hne]; repeat case_decide; try lia; congruence.
    + apply call_moves. eapply moves_ext; [eapply (moves_trans _ _ _ (set_cache C3 s0)); [apply G0|exact M03|exact M4|]|..]; moves_side. intros x Hx Hx2. pose proof (one_nonneg n x). cbn [with_log icache] in *. lia.
  - destruct (iunlockput_moves T (set_cache C2 s0) O2 i n g Hg L2 K2) as (C3&R3&M3); [cbn; rewrite Hr2; lia|]. apply wp_bind. eapply wp_intro; [exact R3|]. cbn beta. eapply (wp_end T s T _ ∅ 0 (λ _, 0) nobody 0); [|intros s4 Ca F; done].
    eapply moves_ext; [eapply (moves_trans _ _ _ (set_cache C2 s0)); [apply G0|exact M02|exact M3|]|..]; moves_side.
    + intros x Hx _. pose proof (one_nonneg n x). cbn [with_log icache] in *. lia.
    + intros j. cbn [with_log icache]. rewrite (rd_unlocked _ _ _ _ G). unfold then_, only, nobody. repeat case_decide; done.
Qed.

End calls.

(** * Processes *)

Inductive request :=
  | Mkdir (path : cstr)
  | Mknod (path : cstr) (major minor : Z)
  | Link (old new : cstr)
  | Unlink (path : cstr)
  | Chdir (path : cstr)
  | Open (path : cstr) (omode : Z)
  | Close (fd : Z)
  | Read (fd n : Z)
  | Write (fd : Z) (src : list byte).

(** What a call returns: a number, and the bytes of a [read]. *)
Definition answer : Type := Z * option (list byte).

(** The descriptor that [fdalloc] finds. *)
Definition NOFILE : nat := 16.
Definition free_fd {A} (open : gmap Z A) : option Z := snd <$> list_find (λ fd, open !! fd = None) (Z.of_nat <$> seq 0 NOFILE).

(** The file system and a process: its current directory and its open files. *)
Record proc := mk_proc { c_fs : fss; c_cwd : nat; c_open : gmap Z ofile }.

Section run.
Context (dev_read : Z → option (Z → option (list byte))) (dev_write : Z → option (list byte → Z)).

Definition on_fd (pr : proc) (fd : Z) (K : ofile → option (answer * proc)) : option (answer * proc) :=
  match c_open pr !! fd with None => Some ((-1, None), pr) | Some o => K o end.

Definition run (q : request) (pr : proc) : option (answer * proc) :=
  let s := c_fs pr in
  let w := c_cwd pr in
  match q with
  | Mkdir path => '(r, s') ← sys_mkdir dev_read dev_write w path s; Some ((r, None), mk_proc s' w (c_open pr))
  | Mknod path major minor => '(r, s') ← sys_mknod dev_read dev_write w path major minor s; Some ((r, None), mk_proc s' w (c_open pr))
  | Link old new => '(r, s') ← sys_link dev_read dev_write w old new s; Some ((r, None), mk_proc s' w (c_open pr))
  | Unlink path => '(r, s') ← sys_unlink dev_read dev_write w path s; Some ((r, None), mk_proc s' w (c_open pr))
  | Chdir path => '(r, j, s') ← sys_chdir dev_read w path s; Some ((r, None), mk_proc s' j (c_open pr))
  | Open path omode =>
      '(r, s') ← sys_open dev_read dev_write w path omode (free_fd (c_open pr)) s;
      match r with
      | None => Some ((-1, None), mk_proc s' w (c_open pr))
      | Some (fd, o) => Some ((fd, None), mk_proc s' w (<[fd := o]> (c_open pr)))
      end
  | Close fd => on_fd pr fd (λ o, '(_, s') ← close_inode (o_ip o) s; Some ((0, None), mk_proc s' w (delete fd (c_open pr))))
  | Read fd n =>
      on_fd pr fd (λ o, '(r, o', s') ← fileread dev_read o n s;
        Some ((match r with Some l => Z.of_nat (length l) | None => -1 end, r), mk_proc s' w (<[fd := o']> (c_open pr))))
  | Write fd src => on_fd pr fd (λ o, '(r, o', s') ← filewrite dev_write o src s; Some ((r, None), mk_proc s' w (<[fd := o']> (c_open pr))))
  end.

End run.

(** ** What the process sees *)

Record pfile := mk_pfile { p_ino : Z; p_off : Z; p_r : bool; p_w : bool }.
Record view := mk_view { v_files : gmap Z afile; v_cwd : Z; v_open : gmap Z pfile }.

(** The references of the process to an inode. *)
Definition holders (v : view) (m : Z) : Z := one (v_cwd v) m + Z.of_nat (size (filter (λ '(_, p), p_ino p = m) (v_open v))).

Definition on_file (v : view) (fd : Z) (K : pfile → afile → answer * view) : answer * view :=
  match v_open v !! fd with
  | None => ((-1, None), v)
  | Some p => match v_files v !! p_ino p with None => ((-1, None), v) | Some g => K p g end
  end.

Definition with_files (v : view) (V : gmap Z afile) : view := mk_view V (v_cwd v) (v_open v).
Definition with_fd (v : view) (fd : Z) (p : pfile) : view := mk_view (v_files v) (v_cwd v) (<[fd := p]> (v_open v)).

(** The effect of a call on a file system with [N] inodes. *)
Definition effect (N : Z) (q : request) (v : view) : answer * view :=
  let V := v_files v in
  let c := v_cwd v in
  match q with
  | Mkdir path => let '(r, V') := create_files V N c path T_DIR 0 0 in ((if r then 0 else -1, None), with_files v V')
  | Mknod path major minor => let '(r, V') := create_files V N c path T_DEV major minor in ((if r then 0 else -1, None), with_files v V')
  | Link old new => let '(r, V') := link_files V c old new in ((r, None), with_files v V')
  | Unlink path => let '(r, V') := unlink_files V (holders v) c path in ((r, None), with_files v V')
  | Chdir path => match chdir_to V c path with Some n => ((0, None), mk_view V n (v_open v)) | None => ((-1, None), v) end
  | Open path omode =>
      let '(r, V') := open_files V N c path omode in
      match r, free_fd (v_open v) with
      | Some n, Some fd =>
          ((fd, None), with_fd (with_files v V') fd
            (mk_pfile n 0 (bool_decide (Z.land omode O_WRONLY = 0)) (bool_decide (Z.land omode O_WRONLY ≠ 0) || bool_decide (Z.land omode O_RDWR ≠ 0))))
      | _, _ => ((-1, None), with_files v V')
      end
  | Close fd =>
      on_file v fd (λ p g, ((0, None), mk_view (if decide (f_nlink g = 0 ∧ holders v (p_ino p) = 1) then delete (p_ino p) V else V) c (delete fd (v_open v))))
  | Read fd n =>
      on_file v fd (λ p g,
        if p_r p then
          let l := take (Z.to_nat n) (drop (Z.to_nat (p_off p)) (f_data g)) in
          ((Z.of_nat (length l), Some l), with_fd v fd (mk_pfile (p_ino p) (p_off p + Z.of_nat (length l)) (p_r p) (p_w p)))
        else ((-1, None), v))
  | Write fd src =>
      on_file v fd (λ p g,
        if p_w p then
          let k := stored_len (p_off p) (Z.of_nat (length src)) in
          ((if decide (p_off p + Z.of_nat (length src) ≤ MAXFILE * BSIZE) then Z.of_nat (length src) else -1, None),
           with_fd (with_files v (<[p_ino p := with_data (patch (Z.to_nat (p_off p)) (take (Z.to_nat k) src) (f_data g)) g]> V)) fd (mk_pfile (p_ino p) (p_off p + k) (p_r p) (p_w p)))
        else ((-1, None), v))
  end.

(** ** Calls that the file system has room for *)

(** A new name needs a free inode, a directory that can grow, and one that can
    have another link. *)
Definition can_create (V : gmap Z afile) (N c : Z) (path : cstr) (type : Z) : bool :=
  match walk V true (start c path) (names path) with
  | None => true
  | Some (d, name) =>
      match V !! d with
      | None => true
      | Some f =>
          match dir_find name (f_data f) with
          | Some _ => true
          | None => bool_decide (new_inum V N ≠ None) && bool_decide (16 * Z.of_nat (dir_slot (f_data f)) + 16 ≤ MAXFILE * BSIZE) && (bool_decide (type ≠ T_DIR) || bool_decide (f_nlink f < 2 ^ 15 - 1))
          end
      end
  end.

(** The second name of a link is not one of its directory for itself. *)
Definition can_link (V : gmap Z afile) (c : Z) (old new : cstr) : bool :=
  match '(n, _) ← walk V false (start c old) (names old); g ← V !! n; if decide (f_type g = T_DIR) then None else Some (n, g) with
  | None => true
  | Some (n, g) =>
      let V1 := <[n := with_nlink (f_nlink g + 1) g]> V in
      bool_decide (f_nlink g < 2 ^ 15 - 1) &&
      match '(d, name) ← walk V1 true (start c new) (names new); f ← V1 !! d; Some (d, name, f) with
      | None => true
      | Some (d, name, f) =>
          match dir_find name (f_data f) with
          | Some (_, de) => bool_decide (de_inum de ≠ d)
          | None => bool_decide (16 * Z.of_nat (dir_slot (f_data f)) + 16 ≤ MAXFILE * BSIZE)
          end
      end
  end.

(** Directories that are in use are not removed. *)
Definition can_unlink (V : gmap Z afile) (open : Z → Z) (c : Z) (path : cstr) : bool :=
  match '(d, name) ← walk V true (start c path) (names path); f ← V !! d; '(k, de) ← dir_find name (f_data f); g ← V !! de_inum de; Some (name, de_inum de, g) with
  | None => true
  | Some (name, m, g) => bool_decide (name = cs ".") || bool_decide (name = cs "..") || bool_decide (f_type g ≠ T_DIR) || negb (dir_empty (f_data g)) || bool_decide (open m = 0)
  end.

Definition not_device (v : view) (fd : Z) : bool := match p ← v_open v !! fd; v_files v !! p_ino p with Some g => bool_decide (f_type g ≠ T_DEV) | None => true end.

Definition fits (N : Z) (v : view) (q : request) : bool :=
  let V := v_files v in
  let c := v_cwd v in
  match q with
  | Mkdir path => bool_decide (no_nul path) && can_create V N c path T_DIR
  | Mknod path _ _ => bool_decide (no_nul path) && can_create V N c path T_DEV
  | Link old new => bool_decide (no_nul old) && bool_decide (no_nul new) && can_link V c old new
  | Unlink path => bool_decide (no_nul path) && can_unlink V (holders v) c path
  | Chdir path => bool_decide (no_nul path)
  | Open path omode => bool_decide (no_nul path) && (bool_decide (Z.land omode O_CREATE = 0) || can_create V N c path T_FILE)
  | Close _ => true
  | Read fd n => bool_decide (0 ≤ n < 2 ^ 31) && not_device v fd
  | Write fd src => bool_decide (Z.of_nat (length src) < 2 ^ 31) && not_device v fd
  end.

(** The blocks that a call can take. *)
Definition cost (q : request) : Z :=
  match q with
  | Mkdir _ | Mknod _ _ _ | Open _ _ => 6
  | Link _ _ => 2
  | Write _ src => Z.of_nat (length src) / BSIZE + 2
  | _ => 0
  end.

(** * The view is what the process has *)

Lemma holders_insert V c vo fd p m : vo !! fd = None → holders (mk_view V c (<[fd := p]> vo)) m = holders (mk_view V c vo) m + one (p_ino p) m.
Proof.
  intros Hn. unfold holders. cbn [v_cwd v_open]. destruct (decide (p_ino p = m)) as [<-|Hne].
  - rewrite map_filter_insert_True by done. rewrite map_size_insert_None by (by apply map_lookup_filter_None; left). rewrite (one_self (p_ino p)). lia.
  - rewrite map_filter_insert_False by done. rewrite delete_id by done. rewrite (one_other (p_ino p) m) by congruence. lia.
Qed.

Lemma holders_delete V c vo fd p m : vo !! fd = Some p → holders (mk_view V c (delete fd vo)) m = holders (mk_view V c vo) m - one (p_ino p) m.
Proof. intros Hp. rewrite <- (insert_delete_id vo fd p Hp) at 2. rewrite holders_insert by (by rewrite lookup_delete_eq). lia. Qed.

Lemma holders_change V V' c vo fd p p' m : vo !! fd = Some p → p_ino p' = p_ino p → holders (mk_view V' c (<[fd := p']> vo)) m = holders (mk_view V c vo) m.
Proof.
  intros Hp Hi. rewrite <- insert_delete_eq. rewrite holders_insert by (by rewrite lookup_delete_eq). rewrite Hi. change (holders (mk_view V' c (delete fd vo)) m) with (holders (mk_view V c (delete fd vo)) m). rewrite (holders_delete V c vo fd p) by done. lia.
Qed.

Lemma free_fd_spec {A} (open : gmap Z A) fd : free_fd open = Some fd → open !! fd = None ∧ 0 ≤ fd < Z.of_nat NOFILE.
Proof.
  unfold free_fd. rewrite fmap_Some. intros ([k fd']&E&->). apply list_find_Some in E as (Hk&Hn&_). cbn [snd]. split; [done|]. apply list_lookup_fmap_Some in Hk as (k'&->&Hk). apply lookup_seq in Hk as [-> Hlt]. lia.
Qed.

(** An open file and what is seen of it. *)
Definition same_file (C : list inode) (V : gmap Z afile) (o : ofile) (p : pfile) : Prop :=
  loaded C (o_ip o) (p_ino p) ∧ o = mk_ofile (o_ip o) (p_off p) (p_r p) (p_w p) ∧
  ∃ g, V !! p_ino p = Some g ∧ 0 ≤ p_off p ≤ Z.of_nat (length (f_data g)) ∧ (p_w p = true → f_type g ≠ T_DIR).

Record sim (T : gmap Z ainode) (v : view) (pr : proc) : Prop := {
  sm_ok : fs_ok T (c_fs pr);
  sm_idle : outstanding (c_fs pr) = 0%nat;
  sm_files : files T (c_fs pr) = v_files v;
  sm_tree : tree_ok (v_files v);
  sm_len : length (icache (c_fs pr)) = NINODE;
  sm_unlocked : ∀ j, is_locked (icache (c_fs pr)) j = false;
  sm_refs : ∀ m, refs (icache (c_fs pr)) m = holders v m;
  sm_cwd : handle (icache (c_fs pr)) (c_cwd pr) (v_cwd v);
  sm_dir : vdir (v_files v) (v_cwd v);
  sm_open : map_Forall2 (λ _, same_file (icache (c_fs pr)) (v_files v)) (c_open pr) (v_open v);
  sm_fds : ∀ fd, is_Some (v_open v !! fd) → 0 ≤ fd < Z.of_nat NOFILE;
}.

Section sim.
Context (T : gmap Z ainode) (v : view) (pr : proc) (S : sim T v pr).
Abbreviation s := (c_fs pr).
Abbreviation V := (v_files v).

Lemma sim_inuse : (size (inuse (icache s)) ≤ 17)%nat.
Proof.
  assert (inuse (icache s) ⊆ {[v_cwd v]} ∪ list_to_set (p_ino <$> (map_to_list (v_open v)).*2)) as Hsub.
  { intros m. rewrite elem_inuse, (sm_refs _ _ _ S) by apply S. unfold holders. intros Hm. apply elem_of_union. destruct (decide (m = v_cwd v)) as [->|Hne]; [left; set_solver|]. right. rewrite one_other in Hm by done.
    destruct (decide (filter (λ '(_, p), p_ino p = m) (v_open v) = ∅)) as [E|E]; [rewrite E, map_size_empty in Hm; lia|].
    apply map_choose in E as (fd&p&H). apply map_lookup_filter_Some in H as [H E]. apply elem_of_list_to_set, list_elem_of_fmap. exists p. split; [done|]. apply list_elem_of_fmap. exists (fd, p). split; [done|]. by apply elem_of_map_to_list. }
  apply subseteq_size in Hsub. pose proof (size_union_le {[v_cwd v]} (list_to_set (p_ino <$> (map_to_list (v_open v)).*2))) as H1. rewrite size_singleton in H1. pose proof (size_of_list (p_ino <$> (map_to_list (v_open v)).*2)) as H2. rewrite !length_fmap, length_map_to_list in H2.
  assert (size (v_open v) ≤ 16)%nat; [|lia]. rewrite <- (size_dom (D := gset Z)). assert (dom (v_open v) ⊆ list_to_set (Z.of_nat <$> seq 0 NOFILE)) as H3.
  { intros fd. rewrite elem_of_dom. intros H. apply (sm_fds _ _ _ S) in H. apply elem_of_list_to_set, list_elem_of_fmap. exists (Z.to_nat fd). split; [lia|]. apply elem_of_seq. lia. }
  apply subseteq_size in H3. etrans; [exact H3|]. etrans; [apply size_of_list|]. by rewrite length_fmap, length_seq.
Qed.

Lemma sim_ready : ready T s (c_cwd pr) (v_cwd v).
Proof.
  pose proof sim_inuse as Hin. split.
  - apply S.
  - rewrite (sm_files _ _ _ S). apply tree_dirs, S.
  - apply S.
  - rewrite (sm_len _ _ _ S). unfold NINODE. lia.
  - apply S.
  - rewrite (sm_files _ _ _ S). apply tree_root_live, S.
Qed.

(** Files that are held stay and do not become shorter. *)
Definition keeps (V' : gmap Z afile) : Prop :=
  ∀ m g, V !! m = Some g → 0 < holders v m → ∃ g', V' !! m = Some g' ∧ f_type g' = f_type g ∧ (length (f_data g) ≤ length (f_data g'))%nat.

Lemma held_cwd : 0 < holders v (v_cwd v).
Proof. unfold holders. rewrite one_self. lia. Qed.

Lemma held_open fd p : v_open v !! fd = Some p → 0 < holders v (p_ino p).
Proof.
  intros H. unfold holders. pose proof (one_nonneg (v_cwd v) (p_ino p)). assert (size (filter (λ '(_, q), p_ino q = p_ino p) (v_open v)) ≠ 0)%nat; [|lia].
  intros E%map_size_empty_iff. rewrite map_empty in E. specialize (E fd). rewrite map_lookup_filter_None in E. destruct E as [E|E]; [congruence|]. by apply (E p).
Qed.

(** A call that holds as many inodes as before. *)
Lemma sim_kept T' s' D y k V' : call T s T' s' D y (λ _, 0) nobody k → files T' s' = V' → tree_ok V' → keeps V' → sim T' (with_files v V') (mk_proc s' (c_cwd pr) (c_open pr)).
Proof.
  intros Ca F W K. pose proof (ca_cache _ _ _ _ _ _ _ _ _ Ca) as E. assert (∀ m, refs (icache s') m = refs (icache s) m) as Hr by (intros m; rewrite (ev_refs _ _ _ _ E); lia). split; cbn [c_fs c_cwd c_open with_files v_files v_cwd v_open].
  - apply Ca.
  - apply Ca.
  - done.
  - done.
  - rewrite (ev_len _ _ _ _ E). apply S.
  - intros j. rewrite (ev_lock _ _ _ _ E). apply S.
  - intros m. rewrite Hr, (sm_refs _ _ _ S). done.
  - apply (ev_handle _ _ _ _ E); [apply S|]. rewrite Hr, (sm_refs _ _ _ S). apply held_cwd.
  - destruct (sm_dir _ _ _ S) as (f&Hf&Ht). destruct (K _ f Hf held_cwd) as (f'&Hf'&Ht'&_). exists f'. split; [done|]. by rewrite Ht'.
  - pose proof (sm_open _ _ _ S) as Ho. intros fd. specialize (Ho fd). destruct (c_open pr !! fd) as [o|], (v_open v !! fd) as [p|] eqn:Ep; inversion Ho as [? ? Hs|]; subst; constructor.
    destruct Hs as (L&Eo&g&Hg&Hoff&Hw). destruct (K _ g Hg (held_open fd p Ep)) as (g'&Hg'&Ht'&Hl'). split; [apply (ev_loaded _ _ _ _ E); [done|rewrite Hr, (sm_refs _ _ _ S); by eapply held_open]|]. split; [done|].
    exists g'. split_and!; [done|lia|lia|]. by rewrite Ht'.
  - apply S.
Qed.

(** An open file that is still held, of a file that is still there. *)
Lemma same_kept C' V' dr dl o p : evolves (icache s) C' dr dl → same_file (icache s) V o p → 0 < refs C' (p_ino p) →
  (∀ g, V !! p_ino p = Some g → ∃ g', V' !! p_ino p = Some g' ∧ f_type g' = f_type g ∧ (length (f_data g) ≤ length (f_data g'))%nat) → same_file C' V' o p.
Proof.
  intros E (L&Eo&g&Hg&Hoff&Hw) Hp Hk. split; [by apply (ev_loaded _ _ _ _ E)|]. split; [done|]. destruct (Hk g Hg) as (g'&Hg'&Ht'&Hl'). exists g'. split_and!; [done|lia|lia|by rewrite Ht'].
Qed.

(** A call after which the process has other files open. *)
Lemma sim_moved T' s' dr V' c' w' vo co : fs_ok T' s' → outstanding s' = 0%nat → evolves (icache s) (icache s') dr nobody → files T' s' = V' → tree_ok V' → (∀ m, holders (mk_view V' c' vo) m = holders v m + dr m) →
  handle (icache s') w' c' → vdir V' c' → map_Forall2 (λ _, same_file (icache s') V') co vo → (∀ fd, is_Some (vo !! fd) → 0 ≤ fd < Z.of_nat NOFILE) → sim T' (mk_view V' c' vo) (mk_proc s' w' co).
Proof.
  intros O Hop E F W Hh Hc Hd Ho Hf. split; try done; cbn [c_fs].
  - rewrite (ev_len _ _ _ _ E). apply S.
  - intros j. rewrite (ev_lock _ _ _ _ E). apply S.
  - intros m. by rewrite (ev_refs _ _ _ _ E), Hh, (sm_refs _ _ _ S).
Qed.

(** ** Calls that change names *)

Lemma sim_range m g : V !! m = Some g → 0 < m < 2 ^ 16 ∧ f_nlink g < 2 ^ 15.
Proof.
  rewrite <- (sm_files _ _ _ S). intros H. destruct (lookup_files_inv _ _ _ _ H) as (a&Ha&->). destruct (fi_table _ _ _ _ (fo_inv _ _ (sm_ok _ _ _ S)) m a Ha) as [Hr Hok]. pose proof (ly_inodes _ (fi_layout _ _ _ _ (fo_inv _ _ (sm_ok _ _ _ S)))). pose proof (ao_nlink _ _ Hok).
  change (2 ^ 16) with 65536 in *. cbn. lia.
Qed.

Lemma new_range n : new_inum V (ninodes (sb s)) = Some n → V !! n = None ∧ 0 < n < 2 ^ 16.
Proof.
  intros H. apply new_inum_spec in H as (Hr&Hn&_). split; [done|]. pose proof (ly_inodes _ (fi_layout _ _ _ _ (fo_inv _ _ (sm_ok _ _ _ S)))). change (2 ^ 16) with 65536 in *. lia.
Qed.

Lemma tree_with_new d name f type major minor n : V !! d = Some f → f_type f = T_DIR → new_inum V (ninodes (sb s)) = Some n → no_nul name → (type = T_DIR → f_nlink f < 2 ^ 15 - 1) → tree_ok (with_new V d name f type major minor n).
Proof.
  intros Hd Ht Hn Hnul Hlim. destruct (new_range n Hn) as [Hnone Hr]. destruct (sim_range d f Hd) as [Hdr _]. pose proof (sm_tree _ _ _ S) as W. unfold with_new. destruct (decide (type = T_DIR)) as [->|Hne].
  - specialize (Hlim eq_refl). destruct (tree_dir_linked _ _ _ (to_tree _ W) d) as (c&Hc&Hp); [by exists f|]. unfold vnl in Hc. rewrite Hd in Hc. injection Hc as <-. rewrite (s16_id (f_nlink f + 1)) by (change (2 ^ 15) with 32768 in *; lia). by apply tree_newdir.
  - set (g := mk_afile type (s16 major) (s16 minor) 0 []). pose proof (tree_come V W n g Hnone Hne eq_refl) as W1. pose proof (tree_more _ W1 n g d f name) as H. rewrite lookup_insert_eq, insert_insert_eq in H. apply H; try done. rewrite lookup_insert_ne; [done|congruence].
Qed.

Lemma dir_add_longer name m l : (length l `mod` 16 = 0)%nat → (length l ≤ length (dir_add name m l))%nat.
Proof.
  intros Hl. pose proof (slot_bound l) as Hs. assert (length l = 16 * (length l / 16))%nat as Hd by (pose proof (Nat.Div0.div_mod (length l) 16); lia). unfold dir_add, patch. rewrite !length_app, length_take, length_drop, length_enc_dirent. lia.
Qed.

Lemma dir_length d f : V !! d = Some f → f_type f = T_DIR → (length (f_data f) `mod` 16 = 0)%nat.
Proof. intros Hd Ht. by apply (to_dots _ (sm_tree _ _ _ S) d). Qed.

Lemma keeps_new d name f type major minor n : V !! d = Some f → f_type f = T_DIR → V !! n = None → keeps (with_new V d name f type major minor n).
Proof.
  intros Hd Ht Hn m g Hm _. unfold with_new. cbv zeta. pose proof (dir_length d f Hd Ht) as Hl. destruct (decide (m = d)) as [->|Hmd].
  - rewrite Hd in Hm. injection Hm as <-. rewrite lookup_insert_eq. eexists. split; [done|]. split; [by case_decide|]. cbn. by apply dir_add_longer.
  - rewrite !lookup_insert_ne by congruence. eauto.
Qed.

Lemma keeps_refl : keeps V.
Proof. intros m g Hm _. eauto. Qed.

(** [create] keeps the tree. *)
Lemma create_keeps path type major minor : no_nul path → can_create V (ninodes (sb s)) (v_cwd v) path type = true →
  let V' := snd (create_files V (ninodes (sb s)) (v_cwd v) path type major minor) in tree_ok V' ∧ keeps V'.
Proof.
  intros Hnul Hcan V'. subst V'. unfold can_create, create_files in *. pose proof (sm_tree _ _ _ S) as W. destruct (walk V true _ _) as [[d name]|] eqn:Ew; [|split; [done|apply keeps_refl]]. destruct (walk_dir _ _ _ _ _ Ew) as [Hin (f&Hd&Ht)]. rewrite Hd in *.
  destruct (dir_find name (f_data f)) as [[k de]|]; [split; [done|apply keeps_refl]|]. rewrite !andb_true_iff in Hcan. destruct Hcan as [[_ _] Hlim]. destruct (new_inum V (ninodes (sb s))) as [n|] eqn:En; [|split; [done|apply keeps_refl]].
  cbn [snd]. split; [|apply keeps_new; [done|done|by apply (new_range n)]]. apply tree_with_new; try done; [by eapply names_no_nul|]. intros ->. by apply orb_true_iff in Hlim as [Hl|Hl]; apply bool_decide_eq_true in Hl.
Qed.

Lemma can_create_ok path type : can_create V (ninodes (sb s)) (v_cwd v) path type = true → 6 ≤ room T ∅ (sb s) → create_ok T s (v_cwd v) path type.
Proof.
  intros Hcan Hroom d name f Ew Hd Hf. rewrite (sm_files _ _ _ S) in *. unfold can_create in Hcan. rewrite Ew, Hd, Hf in Hcan. rewrite !andb_true_iff in Hcan. destruct Hcan as [[Hn Hs] _]. apply bool_decide_eq_true in Hn, Hs. split_and!; [|done|case_decide; lia].
  destruct (new_inum V (ninodes (sb s))); [eauto|done].
Qed.

End sim.

(** The blocks that a write takes. *)
Lemma need_cost a off k len : 0 ≤ off ≤ a_size a → a_size a ≤ BSIZE * Z.of_nat (length (a_blocks a)) → 0 ≤ k ≤ len → need a (off + k) ≤ len / BSIZE + 2.
Proof.
  intros Ho Hs Hk. assert (nblk (off + k) - Z.of_nat (length (a_blocks a)) ≤ len / BSIZE + 1) as H by (unfold nblk, BSIZE in *; Z.to_euclidean_division_equations; lia).
  assert (0 ≤ len / BSIZE) by (apply Z.div_pos; unfold BSIZE; lia). unfold need. repeat case_decide; lia.
Qed.

Lemma stored_len_range off len : 0 ≤ off ≤ MAXFILE * BSIZE → 0 ≤ len → 0 ≤ stored_len off len ≤ len.
Proof. intros Ho Hl. unfold stored_len. assert (max_write = 1536) as -> by done. unfold MAXFILE, BSIZE in *. case_decide; Z.to_euclidean_division_equations; lia. Qed.

(** * Steps *)

Section step.
Context (dev_read : Z → option (Z → option (list byte))) (dev_write : Z → option (list byte → Z)).
Context (T : gmap Z ainode) (v : view) (pr : proc) (S : sim T v pr).
Abbreviation s := (c_fs pr).
Abbreviation V := (v_files v).
Abbreviation N := (ninodes (sb s)).

(** A call other than [write], which is several transactions, logs the bitmap and
    at most eight blocks. *)
Definition log_small (q : request) (s' : fss) : Prop :=
  match q with Write _ _ => True | _ => logged s' = logged s ∨ ∃ Y, (size Y ≤ 8)%nat ∧ logged s' ⊆ bitmap_blocks (sb s) ∪ Y end.

Lemma call_small q T' s' D y dr dl k : call T s T' s' D y dr dl k → (size D ≤ 2)%nat → (y ≤ 6)%nat → log_small q s'.
Proof.
  intros Ca HD Hy. assert (logged s' = logged s ∨ ∃ Y, (size Y ≤ 8)%nat ∧ logged s' ⊆ bitmap_blocks (sb s) ∪ Y) as H; [|by destruct q]. right. destruct (ca_log _ _ _ _ _ _ _ _ _ Ca) as (Y&HY&Hl). exists (D ∪ Y). pose proof (size_union_le D Y). split; [lia|]. set_solver.
Qed.

(** The call returns, with the answer and the effect that the view tells. *)
Definition steps (q : request) : Prop :=
  ∃ T' pr', run dev_read dev_write q pr = Some (fst (effect N q v), pr') ∧ sim T' (snd (effect N q v)) pr' ∧ room T ∅ (sb s) - cost q ≤ room T' ∅ (sb s) ∧ sb (c_fs pr') = sb s ∧ log_small q (c_fs pr').

Lemma step_make type major minor path r s' : (∃ T' D, (size D ≤ 2)%nat ∧ call T s T' s' D 6 (λ _, 0) nobody 6 ∧ files T' s' = snd (create_files (files T s) N (v_cwd v) path type major minor)) →
  no_nul path → can_create V N (v_cwd v) path type = true → r = fst (create_files V N (v_cwd v) path type major minor) →
  ∃ T', sim T' (with_files v (snd (create_files V N (v_cwd v) path type major minor))) (mk_proc s' (c_cwd pr) (c_open pr)) ∧ room T ∅ (sb s) - 6 ≤ room T' ∅ (sb s) ∧ sb s' = sb s ∧ ∀ q, log_small q s'.
Proof.
  intros (T'&D&HD&Ca&F) Hnul Hcan ->. rewrite (sm_files _ _ _ S) in F. destruct (create_keeps T v pr S path type major minor Hnul Hcan) as [W K]. exists T'. split_and!; [by eapply sim_kept|apply Ca|apply Ca|]. intros q. by eapply call_small.
Qed.

Lemma step_mkdir path : fits N v (Mkdir path) = true → 6 ≤ room T ∅ (sb s) → steps (Mkdir path).
Proof.
  intros [Hnul Hcan]%andb_true_iff Hroom. apply bool_decide_eq_true in Hnul. pose proof (make_spec T s (c_cwd pr) (v_cwd v) (sim_ready T v pr S) (sm_idle _ _ _ S) dev_read dev_write path Hnul T_DIR 0 0 ltac:(done) ltac:(done) (can_create_ok T v pr S path T_DIR Hcan Hroom)) as H.
  apply wp_elim in H as (r&s'&R&Hr&Hs). destruct (step_make T_DIR 0 0 path _ s' Hs Hnul Hcan eq_refl) as (T'&Sm&Hrm&Es&Hlog). rewrite (sm_files _ _ _ S) in Hr. exists T', (mk_proc s' (c_cwd pr) (c_open pr)). cbn [run effect cost]. unfold sys_mkdir. rewrite R. cbn [mbind option_bind].
  destruct (create_files V N (v_cwd v) path T_DIR 0 0) as [o V']. cbn [fst snd] in *. rewrite Hr. split_and!; [done|done|done|done|apply Hlog].
Qed.

Lemma step_mknod path major minor : fits N v (Mknod path major minor) = true → 6 ≤ room T ∅ (sb s) → steps (Mknod path major minor).
Proof.
  intros [Hnul Hcan]%andb_true_iff Hroom. apply bool_decide_eq_true in Hnul. pose proof (make_spec T s (c_cwd pr) (v_cwd v) (sim_ready T v pr S) (sm_idle _ _ _ S) dev_read dev_write path Hnul T_DEV major minor ltac:(done) ltac:(done) (can_create_ok T v pr S path T_DEV Hcan Hroom)) as H.
  apply wp_elim in H as (r&s'&R&Hr&Hs). destruct (step_make T_DEV major minor path _ s' Hs Hnul Hcan eq_refl) as (T'&Sm&Hrm&Es&Hlog). rewrite (sm_files _ _ _ S) in Hr. exists T', (mk_proc s' (c_cwd pr) (c_open pr)). cbn [run effect cost]. unfold sys_mknod. rewrite R. cbn [mbind option_bind].
  destruct (create_files V N (v_cwd v) path T_DEV major minor) as [o V']. cbn [fst snd] in *. rewrite Hr. split_and!; [done|done|done|done|apply Hlog].
Qed.

(** ** Links *)

Lemma link_ok_can n g new : bool_decide (f_nlink g < 2 ^ 15 - 1) &&
      match '(d, name) ← walk (<[n := with_nlink (f_nlink g + 1) g]> V) true (start (v_cwd v) new) (names new); f ← <[n := with_nlink (f_nlink g + 1) g]> V !! d; Some (d, name, f) with
      | None => true
      | Some (d, name, f) => match dir_find name (f_data f) with Some (_, de) => bool_decide (de_inum de ≠ d) | None => bool_decide (16 * Z.of_nat (dir_slot (f_data f)) + 16 ≤ MAXFILE * BSIZE) end
      end = true → 2 ≤ room T ∅ (sb s) → f_nlink g < 2 ^ 15 - 1 ∧ link_ok T s (v_cwd v) new n g.
Proof.
  intros [Hl Hm]%andb_true_iff Hroom. apply bool_decide_eq_true in Hl. split; [done|]. intros d name f Ew Hd. rewrite (sm_files _ _ _ S) in *. rewrite Ew in Hm. cbn [mbind option_bind] in Hm. rewrite Hd in Hm. cbn [mbind option_bind] in Hm.
  destruct (dir_find name (f_data f)) as [[k de]|]; apply bool_decide_eq_true in Hm; done.
Qed.

Lemma link_keeps new n g : V !! n = Some g → f_type g ≠ T_DIR → no_nul new → let V' := snd (link_name V (v_cwd v) new n g) in tree_ok V' ∧ keeps v V'.
Proof.
  intros Hn Htg Hnul V'. subst V'. unfold link_name. cbv zeta. pose proof (sm_tree _ _ _ S) as W. destruct (walk _ true _ _) as [[d name]|] eqn:Ew; [|split; [done|apply keeps_refl]]. destruct (walk_dir _ _ _ _ _ Ew) as [Hin (f&Hd&Ht)]. rewrite Hd. cbn [mbind option_bind].
  destruct (dir_find name (f_data f)) as [[k de]|]; [split; [done|apply keeps_refl]|]. cbn [snd]. assert (n ≠ d) as Hne by (intros ->; rewrite lookup_insert_eq in Hd; by injection Hd as <-). rewrite lookup_insert_ne in Hd by done. split.
  - apply tree_more; try done; [by apply (sim_range T v pr S n g)|by eapply names_no_nul].
  - intros m h Hm _. destruct (decide (m = d)) as [->|Hmd].
    + rewrite Hd in Hm. injection Hm as <-. rewrite lookup_insert_eq. eexists. split_and!; [done|done|]. cbn. by eapply dir_add_longer, dir_length.
    + rewrite lookup_insert_ne by done. destruct (decide (m = n)) as [->|Hmn]; [|rewrite lookup_insert_ne by done; eauto]. rewrite Hn in Hm. injection Hm as <-. rewrite lookup_insert_eq. eexists. split_and!; done.
Qed.

Lemma step_link old new : fits N v (Link old new) = true → 2 ≤ room T ∅ (sb s) → steps (Link old new).
Proof.
  intros [[Hold Hnew]%andb_true_iff Hcan]%andb_true_iff Hroom. apply bool_decide_eq_true in Hold, Hnew. pose proof (sim_inuse T v pr S) as Hin.
  pose proof (sys_link_spec T s (c_cwd pr) (v_cwd v) (sim_ready T v pr S) (sm_idle _ _ _ S)) as H. rewrite (sm_len _ _ _ S) in H. specialize (H ltac:(unfold NINODE; lia) dev_read dev_write old new Hold Hnew). rewrite (sm_files _ _ _ S) in H. unfold can_link in Hcan.
  assert (tree_ok (snd (link_files V (v_cwd v) old new)) ∧ keeps v (snd (link_files V (v_cwd v) old new))) as [W K].
  { unfold link_files. pose proof (sm_tree _ _ _ S) as W. destruct (walk V false _ _) as [[n nm]|]; [|split; [done|apply keeps_refl]]. destruct (V !! n) as [g|] eqn:Hg; [|split; [done|apply keeps_refl]]. case_decide as Ht; [split; [done|apply keeps_refl]|]. by apply link_keeps. }
  apply wp_elim in H as (r&s'&R&->&T'&D&HD&Ca&F).
  - exists T', (mk_proc s' (c_cwd pr) (c_open pr)). cbn [run effect cost]. rewrite R. cbn [mbind option_bind]. destruct (link_files V (v_cwd v) old new) as [o V']. cbn [fst snd] in *. split_and!; [done|by eapply sim_kept|apply Ca|apply Ca|by eapply call_small; [exact Ca|lia|lia]].
  - intros n nm g Ew Hg Ht. rewrite Ew in Hcan. cbn [mbind option_bind] in Hcan. rewrite Hg in Hcan. cbn [mbind option_bind] in Hcan. rewrite decide_False in Hcan by done. destruct (link_ok_can n g new Hcan Hroom) as [Hl Hok]. split; [|done]. split; [|done].
    assert (vnl V n = Some (f_nlink g)) as Hc by (unfold vnl; by rewrite Hg). destruct (tr_count _ _ _ (to_tree _ (sm_tree _ _ _ S)) n _ Hc) as (R&_&->). lia.
Qed.

(** ** Removal *)

Lemma unlink_files_ext W o1 o2 c path : (∀ m, o1 m = o2 m) → unlink_files W o1 c path = unlink_files W o2 c path.
Proof. intros H. unfold unlink_files. destruct (walk W true _ _) as [[d name]|]; [|done]. case_match; [done|]. by destruct (f ← W !! d; _) as [[[[f k] m] g]|]; [rewrite H|]. Qed.

(** The entry that a name has in a directory of the tree. *)
Lemma found_entry path d name f k de : walk V true (start (v_cwd v) path) (names path) = Some (d, name) → V !! d = Some f → dir_find name (f_data f) = Some (k, de) → name ≠ cs "." → name ≠ cs ".." →
  f_type f = T_DIR ∧ slotl (f_data f) k = Some (de_inum de) ∧ (2 ≤ k)%nat.
Proof.
  intros Ew Hd Hf H1 H2. destruct (walk_dir _ _ _ _ _ Ew) as [Hin (f'&Hd'&Ht)]. rewrite Hd in Hd'. injection Hd' as <-. destruct (dots_entries V (sm_tree _ _ _ S) d f Hd Ht) as (D&_). pose proof Hf as Hf'. apply list_find_Some in Hf' as (Hk&[Hz _]&_).
  split_and!; [done|by apply slotl_dent|]. eapply find_after_dots; try done; [apply D|by eapply names_short].
Qed.

Lemma unlink_tree_ok path : unlink_ok T s (v_cwd v) path.
Proof.
  intros d name f k de g. rewrite (sm_files _ _ _ S). intros Ew H1 H2 Hd Hf Hg Htg. destruct (found_entry path d name f k de Ew Hd Hf H1 H2) as (Ht&Hs&Hk). pose proof (to_tree _ (sm_tree _ _ _ S)) as W. assert (vslot V d k = Some (de_inum de)) as Hv by (by rewrite (vslot_at V d f)).
  assert (vdir V (de_inum de)) as Hm by (by exists g). destruct (tr_up _ _ _ W d k _ Hv Hk Hm) as (_&Hne&_). split; [done|]. left. assert (vnl V d = Some (f_nlink f)) as Hc by (unfold vnl; by rewrite Hd). pose proof (tree_parent_links _ _ _ W d k _ _ Hv Hk Hm Hc). lia.
Qed.

Lemma unlink_keeps path : can_unlink V (holders v) (v_cwd v) path = true → let V' := snd (unlink_files V (holders v) (v_cwd v) path) in tree_ok V' ∧ keeps v V'.
Proof.
  intros Hcan V'. subst V'. unfold can_unlink, unlink_files in *. pose proof (sm_tree _ _ _ S) as W. destruct (walk V true _ _) as [[d name]|] eqn:Ew; [|split; [done|apply keeps_refl]]. cbn [mbind option_bind] in Hcan.
  destruct (bool_decide (name = cs ".") || bool_decide (name = cs "..")) eqn:Hdots; [split; [done|apply keeps_refl]|]. destruct (V !! d) as [f|] eqn:Hd; [|split; [done|apply keeps_refl]]. cbn [mbind option_bind] in *.
  destruct (dir_find name (f_data f)) as [[k de]|] eqn:Hf; [|split; [done|apply keeps_refl]]. cbn [mbind option_bind] in *. destruct (V !! de_inum de) as [g|] eqn:Hg; [|split; [done|apply keeps_refl]]. cbn [mbind option_bind] in *. rewrite Hdots in Hcan. cbn [orb] in Hcan.
  apply orb_false_iff in Hdots as [H1%bool_decide_eq_false H2%bool_decide_eq_false]. destruct (found_entry path d name f k de Ew Hd Hf H1 H2) as (Ht&Hs&Hk). destruct (bool_decide (f_type g = T_DIR) && negb (dir_empty (f_data g))) eqn:Hne; [split; [done|apply keeps_refl]|]. cbn [snd].
  assert (f_type g = T_DIR → dir_empty (f_data g) = true ∧ holders v (de_inum de) = 0) as Hdir.
  { intros Htg. rewrite bool_decide_eq_true_2 in Hne by done. cbn in Hne. apply negb_false_iff in Hne. split; [done|]. rewrite Hne in Hcan. rewrite bool_decide_eq_false_2 in Hcan by (intros H; by apply H). cbn in Hcan. by apply bool_decide_eq_true in Hcan. }
  split; [apply tree_less; try done; by apply (sim_range T v pr S d f)|]. assert (de_inum de ≠ d) as Hmd.
  { destruct (decide (f_type g = T_DIR)) as [Htg|Htg]; [|intros E; rewrite E in Hg; congruence]. destruct (unlink_tree_ok path d name f k de g) as [? _]; rewrite ?(sm_files _ _ _ S); done. }
  intros m h Hm Hhold. unfold with_less. destruct (decide (m = de_inum de)) as [->|Hne2].
  - rewrite decide_False by lia. rewrite lookup_insert_eq. rewrite Hg in Hm. injection Hm as <-. eexists. split_and!; done.
  - assert (∃ h', <[d := without_entry k (bool_decide (f_type g = T_DIR)) f]> V !! m = Some h' ∧ f_type h' = f_type h ∧ (length (f_data h) ≤ length (f_data h'))%nat) as (h'&Hh'&Hx).
    { destruct (decide (m = d)) as [->|Hnd]; [|rewrite lookup_insert_ne by done; eauto]. rewrite lookup_insert_eq. rewrite Hd in Hm. injection Hm as <-. eexists. split; [done|]. unfold without_entry. split; [by case_match|]. cbn [with_data f_data]. pose proof (slotl_lt _ _ _ Hs). pose proof (Nat.Div0.mul_div_le (length (f_data f)) 16).
      rewrite length_patch; [done|]. rewrite length_replicate. lia. }
    exists h'. split; [|done]. destruct (decide (f_nlink g = 1 ∧ holders v (de_inum de) = 0)); [by rewrite lookup_delete_ne|by rewrite lookup_insert_ne].
Qed.

Lemma step_unlink path : fits N v (Unlink path) = true → steps (Unlink path).
Proof.
  intros [Hnul Hcan]%andb_true_iff. apply bool_decide_eq_true in Hnul. pose proof (sys_unlink_spec T s (c_cwd pr) (v_cwd v) (sim_ready T v pr S) (sm_idle _ _ _ S) dev_read dev_write path Hnul (unlink_tree_ok path)) as H.
  destruct (unlink_keeps path Hcan) as [W K]. apply wp_elim in H as (r&s'&R&Hr&T'&D&HD&Ca&F). rewrite (sm_files _ _ _ S), (unlink_files_ext V _ (holders v)) in Hr, F by apply S.
  exists T', (mk_proc s' (c_cwd pr) (c_open pr)). cbn [run effect cost]. rewrite R. cbn [mbind option_bind]. destruct (unlink_files V (holders v) (v_cwd v) path) as [o V']. cbn [fst snd] in *. split_and!; [by rewrite Hr|by eapply sim_kept|apply Ca|apply Ca|by eapply call_small; [exact Ca|lia|lia]].
Qed.

(** ** The current directory *)

Lemma step_chdir path : fits N v (Chdir path) = true → steps (Chdir path).
Proof.
  intros Hnul%bool_decide_eq_true. destruct (sm_dir _ _ _ S) as (cf&Hcf&Hct). destruct (tree_dir_linked _ _ _ (to_tree _ (sm_tree _ _ _ S)) (v_cwd v)) as (c&Hc&Hp); [by exists cf|]. unfold vnl in Hc. rewrite Hcf in Hc. injection Hc as <-.
  pose proof (sys_chdir_spec T s (sm_idle _ _ _ S) (c_cwd pr) (v_cwd v) (sim_ready T v pr S) cf) as H. rewrite (sm_files _ _ _ S) in H. specialize (H Hcf Hp dev_read path Hnul). apply wp_elim in H as ([r j]&s'&R&F&H).
  unfold steps. cbn [run effect cost]. rewrite R. cbn [mbind option_bind]. destruct (chdir_to V (v_cwd v) path) as [n|] eqn:Ec.
  - destruct H as (->&Hh&Ca). pose proof (ca_cache _ _ _ _ _ _ _ _ _ Ca) as E. exists T, (mk_proc s' j (c_open pr)). cbn [fst snd]. split_and!; [done| |apply Ca|apply Ca|eapply call_small; [exact Ca|rewrite size_empty; lia|lia]]. assert (∀ m, holders (mk_view V n (v_open v)) m = holders v m + (one n m - one (v_cwd v) m)) as Hho by (intros m; unfold holders; cbn; lia).
    apply (sim_moved T v pr S T s' (λ m, one n m - one (v_cwd v) m)); try done; [apply Ca|apply Ca|apply S| | |apply S].
    + unfold chdir_to in Ec. apply bind_Some in Ec as ([n' nm]&Ew&Ec). apply bind_Some in Ec as (g&Hg&Ec). case_decide; [|done]. injection Ec as <-. by exists g.
    + pose proof (sm_open _ _ _ S) as Ho. intros fd. specialize (Ho fd). destruct (c_open pr !! fd) as [o|], (v_open v !! fd) as [p|] eqn:Ep; inversion Ho as [? ? Hs|]; subst; constructor.
      eapply same_kept; [exact E|exact Hs| |eauto]. rewrite (ev_refs _ _ _ _ E), (sm_refs _ _ _ S), <- Hho. by eapply (held_open (mk_view V n (v_open v)) fd).
  - destruct H as (->&->&Ca). exists T, (mk_proc s' (c_cwd pr) (c_open pr)). cbn [fst snd]. split_and!; [done| |apply Ca|apply Ca|eapply call_small; [exact Ca|rewrite size_empty; lia|lia]]. replace v with (with_files v V) by (by destruct v). eapply sim_kept; [done|done|done|apply S|apply keeps_refl].
Qed.

(** ** Closing *)

Lemma sim_fd fd : match c_open pr !! fd, v_open v !! fd with Some o, Some p => same_file (icache s) V o p | None, None => True | _, _ => False end.
Proof. pose proof (sm_open _ _ _ S fd) as H. by destruct (c_open pr !! fd), (v_open v !! fd); inversion H. Qed.

Lemma step_none q pr' : pr' = pr → run dev_read dev_write q pr = Some (fst (effect N q v), pr') → snd (effect N q v) = v → 0 ≤ cost q → steps q.
Proof. intros -> R E Hc. exists T, pr. rewrite E. split_and!; [done|done|lia|done|]. destruct q; by try left. Qed.

Lemma step_close fd : steps (Close fd).
Proof.
  pose proof (sim_fd fd) as Hfd. destruct (c_open pr !! fd) as [o|] eqn:Eo, (v_open v !! fd) as [p|] eqn:Ep; try done.
  2: { apply (step_none _ pr); cbn [run effect cost]; unfold on_fd, on_file; by rewrite ?Eo, ?Ep. }
  pose proof Hfd as (L&Eofs&g&Hg&Hoff&Hw). pose proof (close_spec T s (sm_idle _ _ _ S) (o_ip o) (p_ino p) g (sm_ok _ _ _ S) L (sm_unlocked _ _ _ S _)) as H. rewrite (sm_files _ _ _ S) in H. specialize (H Hg). apply wp_elim in H as ([]&s'&R&T'&Ca&F).
  rewrite (sm_refs _ _ _ S) in F. pose proof (ca_cache _ _ _ _ _ _ _ _ _ Ca) as E. set (V' := if decide (f_nlink g = 0 ∧ holders v (p_ino p) = 1) then delete (p_ino p) V else V) in *. set (vo := delete fd (v_open v)).
  exists T', (mk_proc s' (c_cwd pr) (delete fd (c_open pr))). cbn [run effect cost]. unfold on_fd, on_file. rewrite Eo, Ep, Hg, R. cbn [mbind option_bind fst snd]. fold V' vo.
  assert (∀ m, holders (mk_view V' (v_cwd v) vo) m = holders v m + - one (p_ino p) m) as Hho.
  { intros m. unfold vo. rewrite (holders_delete V' (v_cwd v) (v_open v) fd p m Ep). unfold holders. cbn. lia. }
  assert (f_nlink g = 0 → f_type g ≠ T_DIR) as Hnd.
  { intros H0 Ht. destruct (tree_dir_linked _ _ _ (to_tree _ (sm_tree _ _ _ S)) (p_ino p)) as (c&Hc&Hp); [by exists g|]. unfold vnl in Hc. rewrite Hg in Hc. injection Hc as <-. lia. }
  assert (∀ m h, V !! m = Some h → 0 < holders (mk_view V' (v_cwd v) vo) m → V' !! m = Some h) as HV.
  { intros m h Hm Hp. unfold V'. destruct (decide (f_nlink g = 0 ∧ holders v (p_ino p) = 1)) as [[E0 E1]|]; [|done]. rewrite lookup_delete_ne; [done|]. intros <-. rewrite Hho, E1, one_self in Hp. lia. }
  split_and!; [done| |cbn; pose proof (ca_room _ _ _ _ _ _ _ _ _ Ca); lia|apply Ca|eapply call_small; [exact Ca|rewrite ?size_singleton, ?size_empty; lia|lia]]. apply (sim_moved T v pr S T' s' (λ m, - one (p_ino p) m)); try done.
  - apply Ca.
  - apply Ca.
  - unfold V'. destruct (decide (f_nlink g = 0 ∧ holders v (p_ino p) = 1)) as [[E0 E1]|]; [|apply S]. apply (tree_gone V (sm_tree _ _ _ S) _ g); auto.
  - apply (ev_handle _ _ _ _ E); [apply S|]. rewrite (ev_refs _ _ _ _ E), (sm_refs _ _ _ S), <- Hho. apply (held_cwd (mk_view V' (v_cwd v) vo)).
  - destruct (sm_dir _ _ _ S) as (cf&Hcf&Hct). exists cf. split; [|done]. apply HV; [done|]. apply (held_cwd (mk_view V' (v_cwd v) vo)).
  - intros x. pose proof (sm_open _ _ _ S x) as Ho. unfold vo. destruct (decide (x = fd)) as [->|Hx]; [rewrite !lookup_delete_eq; constructor|]. rewrite !lookup_delete_ne by done.
    destruct (c_open pr !! x) as [o'|], (v_open v !! x) as [p'|] eqn:Ep'; inversion Ho as [? ? Hs|]; subst; constructor. assert (0 < holders (mk_view V' (v_cwd v) vo) (p_ino p')) as Hpos by (apply (held_open (mk_view V' (v_cwd v) vo) x); cbn; unfold vo; by rewrite lookup_delete_ne).
    eapply same_kept; [exact E|exact Hs|by rewrite (ev_refs _ _ _ _ E), (sm_refs _ _ _ S), <- Hho|]. intros h Hh. exists h. split_and!; [by apply HV|done|done].
  - intros x [p' Hp']. unfold vo in Hp'. apply lookup_delete_Some in Hp' as [_ Hp']. apply (sm_fds _ _ _ S). eauto.
Qed.

(** ** Opening *)

Lemma open_keeps path omode : no_nul path → (Z.land omode O_CREATE ≠ 0 → can_create V N (v_cwd v) path T_FILE = true) → let V' := snd (open_files V N (v_cwd v) path omode) in tree_ok V' ∧ keeps v V'.
Proof.
  intros Hnul Hcan V'. subst V'. unfold open_files. case_decide as Hc; [by apply (create_keeps T v pr S path T_FILE 0 0 Hnul), Hcan|]. pose proof (sm_tree _ _ _ S) as W. case_match; [destruct p|]; (split; [done|apply keeps_refl]).
Qed.

Definition writable (omode : Z) : bool := bool_decide (Z.land omode O_WRONLY ≠ 0) || bool_decide (Z.land omode O_RDWR ≠ 0).

Lemma open_type path omode n V' : open_files V N (v_cwd v) path omode = (Some n, V') → ∃ g, V' !! n = Some g ∧ (writable omode = true → f_type g ≠ T_DIR).
Proof.
  unfold open_files. case_decide as Hc.
  - unfold create_files. destruct (walk V true _ _) as [[d name]|] eqn:Ew; [|done]. destruct (walk_dir _ _ _ _ _ Ew) as [Hin (f&Hd&Ht)]. rewrite Hd. destruct (dir_find name (f_data f)) as [[k de]|].
    + destruct (decide (T_FILE = T_FILE ∧ f_type <$> V !! de_inum de = Some T_FILE)) as [[_ E]|]; [|done]. intros [= <- <-]. apply fmap_Some in E as (g&Hg&Eg). exists g. split; [done|]. by rewrite <- Eg.
    + destruct (new_inum V N) as [n'|] eqn:En; [|done]. intros [= <- <-]. destruct (new_range T v pr S n' En) as [Hnone _]. exists (mk_afile T_FILE (s16 0) (s16 0) 1 []). split; [|done]. unfold with_new. cbv zeta. rewrite lookup_insert_ne by congruence. by rewrite lookup_insert_eq.
  - destruct (walk V false _ _) as [[n' nm]|]; [|done]. cbn [mbind option_bind]. destruct (V !! n') as [g|] eqn:Hg; [|done]. cbn [mbind option_bind]. destruct (decide (f_type g = T_DIR ∧ omode ≠ O_RDONLY)) as [|Hno]; [done|]. intros [= <- <-]. exists g. split; [done|].
    intros Hw Ht. apply Hno. split; [done|]. intros ->. done.
Qed.

Lemma free_fd_same : free_fd (c_open pr) = free_fd (v_open v).
Proof. unfold free_fd. f_equal. apply list_find_ext. intros fd. pose proof (sim_fd fd) as H. by destruct (c_open pr !! fd), (v_open v !! fd). Qed.

Lemma step_open path omode : fits N v (Open path omode) = true → 6 ≤ room T ∅ (sb s) → steps (Open path omode).
Proof.
  intros [Hnul Hcan]%andb_true_iff Hroom. apply bool_decide_eq_true in Hnul. assert (Z.land omode O_CREATE ≠ 0 → can_create V N (v_cwd v) path T_FILE = true) as Hcan' by (intros Hc; rewrite bool_decide_eq_false_2 in Hcan by done; done).
  pose proof (sys_open_spec T s (c_cwd pr) (v_cwd v) (sim_ready T v pr S) (sm_idle _ _ _ S) dev_read dev_write path Hnul omode (free_fd (c_open pr)) (λ Hc, can_create_ok T v pr S path T_FILE (Hcan' Hc) Hroom)) as H.
  destruct (open_keeps path omode Hnul Hcan') as [W K]. pose proof (open_type path omode) as Hty. apply wp_elim in H as (r&s'&R&T'&D&HD&F&H). rewrite (sm_files _ _ _ S) in *. rewrite free_fd_same in *. unfold steps. cbn [run effect cost]. rewrite free_fd_same, R. cbn [mbind option_bind].
  destruct (open_files V N (v_cwd v) path omode) as [on V'] eqn:Eopen. cbn [fst snd] in *. destruct r as [[fd o]|].
  - destruct H as (n&Efd&->&L&Ca&Eo). rewrite Efd. destruct (free_fd_spec _ _ Efd) as [Hfree Hrange]. pose proof (ca_cache _ _ _ _ _ _ _ _ _ Ca) as E. destruct (Hty n V' eq_refl) as (g&Hg&Hw). exists T'. eexists. split; [done|]. split; [|split_and!; [apply Ca|apply Ca|eapply call_small; [exact Ca|lia|lia]]]. set (p := mk_pfile n 0 _ _).
    assert (∀ m, holders (mk_view V' (v_cwd v) (<[fd := p]> (v_open v))) m = holders v m + one n m) as Hho by (intros m; by rewrite holders_insert). unfold with_fd, with_files. cbn [snd v_files v_cwd v_open]. assert (∀ m, 0 ≤ one n m) as Ho by (intros; apply one_nonneg).
    apply (sim_moved T v pr S T' s' (one n)); try done; [apply Ca|apply Ca| | | |].
    + apply (ev_handle _ _ _ _ E); [apply S|]. rewrite (ev_refs _ _ _ _ E), (sm_refs _ _ _ S). pose proof (held_cwd v). specialize (Ho (v_cwd v)). lia.
    + destruct (sm_dir _ _ _ S) as (cf&Hcf&Hct). destruct (K _ cf Hcf (held_cwd v)) as (cf'&Hcf'&Ht'&_). exists cf'. split; [done|congruence].
    + apply map_Forall2_insert_2.
      * split; [done|]. split; [done|]. exists g. cbn. split_and!; [done|lia|lia|done].
      * intros x. pose proof (sm_open _ _ _ S x) as Hx. destruct (c_open pr !! x) as [o'|], (v_open v !! x) as [p'|] eqn:Ep'; inversion Hx as [? ? Hs|]; subst; constructor. pose proof (held_open v x p' Ep') as Hp. eapply same_kept; [exact E|exact Hs| |].
        -- rewrite (ev_refs _ _ _ _ E), (sm_refs _ _ _ S). specialize (Ho (p_ino p')). lia.
        -- intros h Hh. by apply K.
    + intros x [p' Hx]. destruct (decide (x = fd)) as [->|Hne]; [done|]. rewrite lookup_insert_ne in Hx by done. apply (sm_fds _ _ _ S). eauto.
  - destruct H as [Hno Ca]. exists T', (mk_proc s' (c_cwd pr) (c_open pr)). assert (∀ fd' n', ¬ (free_fd (v_open v) = Some fd' ∧ on = Some n')) as Hx by (intros fd' n' [? ?]; destruct Hno; congruence).
    assert (sim T' (with_files v V') (mk_proc s' (c_cwd pr) (c_open pr))) as Sm by (by eapply sim_kept). destruct on as [n|], (free_fd (v_open v)) as [fd|]; cbn [fst snd]; try (by destruct (Hx fd n)); (split_and!; [done|done|apply Ca|apply Ca|eapply call_small; [exact Ca|lia|lia]]).
Qed.

(** ** Reading *)

Lemma step_read fd n : fits N v (Read fd n) = true → steps (Read fd n).
Proof.
  intros [Hn Hdev]%andb_true_iff. apply bool_decide_eq_true in Hn. pose proof (sim_fd fd) as Hfd. destruct (c_open pr !! fd) as [o|] eqn:Eo, (v_open v !! fd) as [p|] eqn:Ep; try done.
  2: { apply (step_none _ pr); cbn [run effect cost]; unfold on_fd, on_file; by rewrite ?Eo, ?Ep. }
  pose proof Hfd as (L&Eofs&g&Hg&Hoff&Hw). unfold not_device in Hdev. rewrite Ep in Hdev. cbn [mbind option_bind] in Hdev. rewrite Hg in Hdev. apply bool_decide_eq_true in Hdev. destruct (p_r p) eqn:Er.
  - unfold steps. cbn [run effect cost]. unfold on_fd, on_file. rewrite Eo, Ep, Hg, Eofs, Er. pose proof Hg as Hg'. rewrite <- (sm_files _ _ _ S) in Hg'. destruct (lookup_files_inv _ _ _ _ Hg') as (a&Ha&Ega). destruct (size_bound None T ∅ s _ a Ha (fo_inv _ _ (sm_ok _ _ _ S))) as [_ Hlen]. rewrite Ega in Hoff, Hdev |- *. cbn [file_of f_data f_type] in *.
    destruct (fileread_run T s (sm_ok _ _ _ S) (o_ip o) (p_ino p) a (loaded_handle _ _ _ L) (sm_unlocked _ _ _ S _) Ha Hdev dev_read (p_off p) (p_w p) n) as (C'&R&O'&E); [lia|done|]. rewrite R. cbn [mbind option_bind]. set (l := take _ _). exists T. eexists. split; [done|]. split; [|cbn; split_and!; [lia|done|by left]].
    set (p' := mk_pfile (p_ino p) (p_off p + Z.of_nat (length l)) true (p_w p)). unfold with_fd. cbn [snd]. assert (∀ m, refs C' m = refs (icache s) m) as Hr by (intros m; rewrite (ev_refs _ _ _ _ E); lia).
    apply (sim_moved T v pr S T (set_cache C' s) (λ _, 0)); try done; [apply S|apply S|apply S| | |apply S| |].
    + intros m. rewrite (holders_change V V (v_cwd v) (v_open v) fd p p' m Ep eq_refl). destruct v. cbn. lia.
    + apply (ev_handle _ _ _ _ E); [apply S|]. rewrite Hr, (sm_refs _ _ _ S). apply held_cwd.
    + apply map_Forall2_insert_2.
      * split; [apply (ev_loaded _ _ _ _ E); [done|rewrite Hr, (sm_refs _ _ _ S); by apply (held_open v fd p)]|]. split; [done|]. exists g. split; [done|]. split; [|done]. cbn [p' p_off]. rewrite Ega. cbn [file_of f_data]. unfold l. rewrite length_take, length_drop. lia.
      * intros x. pose proof (sm_open _ _ _ S x) as Hx. destruct (c_open pr !! x) as [o'|], (v_open v !! x) as [q|] eqn:Ep'; inversion Hx as [? ? Hs|]; subst; constructor. eapply same_kept; [exact E|exact Hs| |eauto]. rewrite Hr, (sm_refs _ _ _ S). by eapply held_open.
    + intros x [q Hx]. destruct (decide (x = fd)) as [->|Hne]; [apply (sm_fds _ _ _ S); eauto|]. rewrite lookup_insert_ne in Hx by done. apply (sm_fds _ _ _ S). eauto.
  - apply (step_none (Read fd n) pr); cbn [run effect cost]; unfold on_fd, on_file; rewrite ?Eo, ?Ep, ?Hg, ?Er; try done. assert (fileread dev_read o n s = Some (None, o, s)) as -> by (by rewrite Eofs). cbn [mbind option_bind]. rewrite insert_id by done. by destruct pr.
Qed.

(** ** Writing *)

Lemma step_write fd src : fits N v (Write fd src) = true → Z.of_nat (length src) / BSIZE + 2 ≤ room T ∅ (sb s) → steps (Write fd src).
Proof.
  intros [H31 Hdev]%andb_true_iff Hroom. apply bool_decide_eq_true in H31. pose proof (sim_fd fd) as Hfd. destruct (c_open pr !! fd) as [o|] eqn:Eo, (v_open v !! fd) as [p|] eqn:Ep; try done.
  2: { apply (step_none _ pr); cbn [run effect cost]; unfold on_fd, on_file; rewrite ?Eo, ?Ep; try done. assert (0 ≤ Z.of_nat (length src) / BSIZE) by (apply Z.div_pos; unfold BSIZE; lia). lia. }
  pose proof Hfd as (L&Eofs&g&Hg&Hoff&Hw). unfold not_device in Hdev. rewrite Ep in Hdev. cbn [mbind option_bind] in Hdev. rewrite Hg in Hdev. apply bool_decide_eq_true in Hdev. destruct (p_w p) eqn:Er.
  - pose proof Hg as Hg'. rewrite <- (sm_files _ _ _ S) in Hg'. destruct (lookup_files_inv _ _ _ _ Hg') as (a&Ha&Ega). destruct (size_bound None T ∅ s _ a Ha (fo_inv _ _ (sm_ok _ _ _ S))) as [Hsz Hlen]. destruct (fi_table _ _ _ _ (fo_inv _ _ (sm_ok _ _ _ S)) _ a Ha) as [_ Hok]. pose proof (ao_size _ _ Hok) as Hsb.
    pose proof Hoff as Hoff2. pose proof Hdev as Hdev2. rewrite Ega in Hoff2, Hdev2. cbn [file_of f_data f_type] in Hoff2, Hdev2. set (k := stored_len (p_off p) (Z.of_nat (length src))). destruct (stored_len_range (p_off p) (Z.of_nat (length src))) as [Hk0 Hk1]; [unfold MAXFILE, BSIZE in *; lia|lia|]. fold k in Hk0, Hk1.
    pose proof (need_cost a (p_off p) k (Z.of_nat (length src)) ltac:(lia) ltac:(lia) ltac:(lia)) as Hneed.
    pose proof (filewrite_loop_spec dev_write (o_ip o) (p_ino p) (p_r p) (length src) T s a (p_off p) src (sm_ok _ _ _ S) (loaded_handle _ _ _ L) (sm_unlocked _ _ _ S _) Ha Hdev2 (sm_idle _ _ _ S) ltac:(lia) ltac:(lia) H31 ltac:(fold k; lia)) as H.
    apply wp_elim in H as (res&s'&R&->&a'&[F1 F2 F3 F4 F5 F6]). fold k in R, F1, F2, F3, F4, F5, F6. assert (length (take (Z.to_nat k) src) = Z.to_nat k) as Htk by (rewrite length_take; lia). rewrite Htk in F6.
    unfold steps. cbn [run effect cost]. unfold on_fd, on_file. rewrite Eo, Ep, Hg, Er. fold k. assert (filewrite dev_write o src s = Some (if decide (p_off p + Z.of_nat (length src) ≤ MAXFILE * BSIZE) then Z.of_nat (length src) else -1, mk_ofile (o_ip o) (p_off p + k) (p_r p) true, s')) as ->.
    { rewrite Eofs. unfold filewrite. cbn [o_writable negb]. rewrite (bind_run _ _ _ _ _ R). cbv beta iota. unfold mret, ST_ret. do 3 f_equal. case_bool_decide; by case_decide. }
    cbn [mbind option_bind fst snd]. exists (<[p_ino p := a']> T). eexists. split; [done|]. split; [|split; [replace (p_off p + Z.of_nat (Z.to_nat k)) with (p_off p + k) in F6 by lia; lia|split; done]].
    set (V' := <[p_ino p := with_data (patch (Z.to_nat (p_off p)) (take (Z.to_nat k) src) (f_data g)) g]> V). assert (files (<[p_ino p := a']> T) s' = V') as F by (rewrite F2; unfold V'; rewrite <- (sm_files _ _ _ S), Ega; done).
    set (p' := mk_pfile (p_ino p) (p_off p + k) (p_r p) true). unfold with_fd, with_files. cbn [v_files v_cwd v_open]. assert (∀ m, refs (icache s') m = refs (icache s) m) as Hr by (intros m; rewrite (ev_refs _ _ _ _ F3); lia).
    assert (length (patch (Z.to_nat (p_off p)) (take (Z.to_nat k) src) (f_data g)) = Z.to_nat (p_off p + k) `max` length (f_data g))%nat as Hpl by (unfold patch; rewrite !length_app, !length_take, length_drop, ?length_take; lia).
    assert (keeps v V') as K.
    { intros m h Hm _. unfold V'. destruct (decide (m = p_ino p)) as [->|Hne]; [|rewrite lookup_insert_ne by done; eauto]. rewrite Hg in Hm. injection Hm as <-. rewrite lookup_insert_eq. eexists. split_and!; [done|done|]. cbn [with_data f_data]. rewrite Hpl. lia. }
    apply (sim_moved T v pr S (<[p_ino p := a']> T) s' (λ _, 0)); try done; [by apply (tree_data V (sm_tree _ _ _ S)), Hw| | | | |].
    + intros m. rewrite (holders_change V V' (v_cwd v) (v_open v) fd p p' m Ep eq_refl). destruct v. cbn. lia.
    + apply (ev_handle _ _ _ _ F3); [apply S|]. rewrite Hr, (sm_refs _ _ _ S). apply held_cwd.
    + destruct (sm_dir _ _ _ S) as (cf&Hcf&Hct). destruct (K _ cf Hcf (held_cwd v)) as (cf'&Hcf'&Ht'&_). exists cf'. split; [done|congruence].
    + apply map_Forall2_insert_2.
      * split; [apply (ev_loaded _ _ _ _ F3); [done|rewrite Hr, (sm_refs _ _ _ S); by apply (held_open v fd p)]|]. split; [done|]. eexists. unfold V'. cbn [p' p_ino p_off]. rewrite lookup_insert_eq. split; [done|]. cbn [with_data f_data f_type]. rewrite Hpl. split; [lia|done].
      * intros x. pose proof (sm_open _ _ _ S x) as Hx. destruct (c_open pr !! x) as [o'|], (v_open v !! x) as [q|] eqn:Ep'; inversion Hx as [? ? Hs|]; subst; constructor. eapply same_kept; [exact F3|exact Hs| |]; [rewrite Hr, (sm_refs _ _ _ S)|intros h Hh; apply K; [done|]]; by eapply held_open.
    + intros x [q Hx]. destruct (decide (x = fd)) as [->|Hne]; [apply (sm_fds _ _ _ S); eauto|]. rewrite lookup_insert_ne in Hx by done. apply (sm_fds _ _ _ S). eauto.
  - apply (step_none (Write fd src) pr); cbn [run effect cost]; unfold on_fd, on_file; rewrite ?Eo, ?Ep, ?Hg, ?Er; try done; [|assert (0 ≤ Z.of_nat (length src) / BSIZE) by (apply Z.div_pos; unfold BSIZE; lia); lia].
    assert (filewrite dev_write o src s = Some (-1, o, s)) as -> by (by rewrite Eofs). cbn [mbind option_bind]. rewrite insert_id by done. by destruct pr.
Qed.

(** Every call that fits. *)
Lemma step_any q : fits N v q = true → cost q ≤ room T ∅ (sb s) → steps q.
Proof.
  destruct q; cbn [cost]; intros Hf Hr; [by apply step_mkdir|by apply step_mknod|by apply step_link|by apply step_unlink|by apply step_chdir|by apply step_open|apply step_close|by apply step_read|by apply step_write].
Qed.

End step.

(** * Sessions *)

Fixpoint run_all (dev_read : Z → option (Z → option (list byte))) (dev_write : Z → option (list byte → Z)) (qs : list request) (pr : proc) : option (list answer * proc) :=
  match qs with
  | [] => Some ([], pr)
  | q :: qs => '(r, pr) ← run dev_read dev_write q pr; '(rs, pr) ← run_all dev_read dev_write qs pr; Some (r :: rs, pr)
  end.

Fixpoint effects (N : Z) (qs : list request) (v : view) : list answer * view :=
  match qs with
  | [] => ([], v)
  | q :: qs => let '(r, v) := effect N q v in let '(rs, v) := effects N qs v in (r :: rs, v)
  end.

Fixpoint fits_all (N : Z) (v : view) (qs : list request) : bool :=
  match qs with
  | [] => true
  | q :: qs => fits N v q && fits_all N (snd (effect N q v)) qs
  end.

Definition costs (qs : list request) : Z := foldr (λ q k, cost q + k) 0 qs.

Lemma cost_nonneg q : 0 ≤ cost q.
Proof. destruct q; cbn; try lia. assert (0 ≤ Z.of_nat (length src) / BSIZE) by (apply Z.div_pos; unfold BSIZE; lia). lia. Qed.

Lemma costs_nonneg qs : 0 ≤ costs qs.
Proof. induction qs as [|q qs IH]; cbn; [done|]. pose proof (cost_nonneg q). unfold costs in IH. lia. Qed.

Lemma session_steps dev_read dev_write qs : ∀ T v pr, let N := ninodes (sb (c_fs pr)) in sim T v pr → fits_all N v qs = true → costs qs ≤ room T ∅ (sb (c_fs pr)) →
  ∃ T' pr', run_all dev_read dev_write qs pr = Some (fst (effects N qs v), pr') ∧ sim T' (snd (effects N qs v)) pr' ∧ sb (c_fs pr') = sb (c_fs pr) ∧ room T ∅ (sb (c_fs pr)) - costs qs ≤ room T' ∅ (sb (c_fs pr')).
Proof.
  induction qs as [|q qs IH]; intros T v pr N S Hf Hc; cbn [run_all effects]; [exists T, pr; split_and!; [done|done|done|cbn; lia]|]. cbn [fits_all] in Hf. apply andb_true_iff in Hf as [Hq Hqs]. change (costs (q :: qs)) with (cost q + costs qs) in *. pose proof (costs_nonneg qs).
  destruct (step_any dev_read dev_write T v pr S q Hq) as (T1&pr1&R1&S1&Hr1&Es&_); [lia|]. fold N in R1, S1. destruct (effect N q v) as [r v1] eqn:Eq. cbn [fst snd] in *. rewrite R1. cbn [mbind option_bind].
  destruct (IH T1 v1 pr1 S1) as (T2&pr2&R2&S2&Es2&Hr2); rewrite ?Es; [done|lia|]. rewrite Es in R2, S2, Es2, Hr2. fold N in R2, S2. exists T2, pr2. rewrite R2. cbn [mbind option_bind]. destruct (effects N qs v1) as [rs v2]. split_and!; [done|done|congruence|lia].
Qed.
