(* ===== verification/XvMkfs.v ===== *)
(** [mkfs], the program that builds the first file system of xv6 (mkfs.c), and
    that the image it writes is one the kernel can run on. *)

From stdpp Require Import base option list numbers gmap sets.
From coqutil Require Import Datatypes.RecordSettersUsingExistingGetters Word.LittleEndianList.
From Stdlib Require Import Strings.Byte ZArith Lia.
From S2P Require Import Prelude CString XvFs XvFsInv XvFsInode XvFsIo XvFsCache XvFsDir XvFsCalls XvFsRw XvFsOps XvFsLink XvFsTree XvFsSession.
Local Open Scope Z_scope.

Module Mkfs.

Definition FSSIZE : Z := 1000.
Definition LOGSIZE : Z := MAXOPBLOCKS * 3.
Definition NINODES : Z := 200.

Definition nbitmap : Z := FSSIZE / (BSIZE * 8) + 1.
Definition ninodeblocks : Z := NINODES / IPB + 1.
Definition nlog : Z := LOGSIZE.
Definition nmeta : Z := 2 + nlog + ninodeblocks + nbitmap.
Definition nblocks : Z := FSSIZE - nmeta.

Definition sb : superblock := mk_sb FSSIZE nblocks NINODES nlog 2 (2 + nlog) (2 + nlog + ninodeblocks).

(** The image, and the first inode and the first block that are free. *)
Record image := mk_image { sects : gmap Z (list byte); freeinode : Z; freeblock : Z }.
Abbreviation K := (ST image).

(** Sectors of the image; a read of one that was never written fails. *)
Definition wsect (sec : Z) (buf : list byte) : K () := modify (λ g, { g with sects ::= <[sec := buf]> }).
Definition rsect (sec : Z) : K (list byte) := λ g, l ← sects g !! sec; Some (l, g).

Definition winode (inum : Z) (d : dinode) : K () :=
  buf ← rsect (IBLOCK inum sb);
  wsect (IBLOCK inum sb) (set_dinode (Z.to_nat (inum mod IPB)) d buf).
Definition rinode (inum : Z) : K dinode :=
  buf ← rsect (IBLOCK inum sb);
  mret (dinode_at (Z.to_nat (inum mod IPB)) buf).

Definition ialloc (type : Z) : K Z :=
  inum ← gets freeinode;
  modify (λ g, { g with freeinode ::= λ n, n + 1 });;
  winode inum (mk_dinode type 0 0 1 0 (replicate (S NDIRECT) 0));;
  mret inum.

(** [freeblock++]. *)
Definition take_block : K Z := b ← gets freeblock; modify (λ g, { g with freeblock ::= λ n, n + 1 });; mret b.

(** The bits of the first [used] blocks. *)
Definition used_bits (used : nat) : list byte := foldl (λ l i, set_bit (Z.of_nat i) l) zero_block (seq 0 used).

Definition balloc (used : Z) : K () :=
  if decide (used < BSIZE * 8) then wsect (bmapstart sb) (used_bits (Z.to_nat used)) else fault.

(** The block number [fbn] of the inode, which gets one when it has none. *)
Definition file_block (d : dinode) (fbn : Z) : K (dinode * Z) :=
  if decide (fbn < Z.of_nat NDIRECT) then
    d ← (if decide (addr (Z.to_nat fbn) d = 0) then b ← take_block; mret (set_addr (Z.to_nat fbn) b d) else mret d);
    mret (d, addr (Z.to_nat fbn) d)
  else
    d ← (if decide (addr NDIRECT d = 0) then b ← take_block; mret (set_addr NDIRECT b d) else mret d);
    ind ← rsect (addr NDIRECT d);
    let k := (Z.to_nat fbn - NDIRECT)%nat in
    ind ← (if decide (word k ind = 0) then b ← take_block; wsect (addr NDIRECT d) (set_word k b ind);; mret (set_word k b ind) else mret ind);
    mret (d, word k ind).

(** The loop of [iappend] over the bytes that are left. *)
Fixpoint iappend_loop (fuel : nat) (d : dinode) (off : Z) (p : list byte) : K (dinode * Z) :=
  match p with
  | [] => mret (d, off)
  | _ =>
      match fuel with
      | O => fault
      | S fuel =>
          let fbn := off / BSIZE in
          if decide (fbn < MAXFILE) then
            '(d, x) ← file_block d fbn;
            let n1 := Z.min (Z.of_nat (length p)) ((fbn + 1) * BSIZE - off) in
            buf ← rsect x;
            wsect x (patch (Z.to_nat (off - fbn * BSIZE)) (take (Z.to_nat n1) p) buf);;
            iappend_loop fuel d (off + n1) (drop (Z.to_nat n1) p)
          else fault
      end
  end.
Definition iappend (inum : Z) (p : list byte) : K () :=
  d ← rinode inum;
  '(d, off) ← iappend_loop (length p) d (d_size d) p;
  winode inum { d with d_size := off }.

(** A file of the host, read a buffer at a time. *)
Fixpoint copy_file (fuel : nat) (inum : Z) (l : list byte) : K () :=
  match l with
  | [] => mret ()
  | _ => match fuel with O => fault | S fuel => iappend inum (take (Z.to_nat BSIZE) l);; copy_file fuel inum (drop (Z.to_nat BSIZE) l) end
  end.

Definition UNDERSCORE : byte := x5f.

(** The name under which a file of the host is stored. *)
Definition stored_name (arg : cstr) : cstr := match arg with c :: rest => if decide (c = UNDERSCORE) then rest else arg | [] => [] end.

Definition add_file (arg : cstr) (l : list byte) : K () :=
  if decide (SLASH ∈ arg) then fault
  else
    inum ← ialloc T_FILE;
    iappend ROOTINO (enc_dirent inum (stored_name arg));;
    copy_file (length l) inum l.

Fixpoint add_files (args : list (cstr * list byte)) : K () :=
  match args with
  | [] => mret ()
  | (arg, l) :: args => add_file arg l;; add_files args
  end.

Definition enc_sb (x : superblock) : list byte := concat (le_split 4 <$> [sb_size x; XvFs.nblocks x; ninodes x; XvFs.nlog x; logstart x; inodestart x; bmapstart x]).

Definition main (args : list (cstr * list byte)) : K () :=
  modify (λ g, { g with freeblock := nmeta });;
  modify (λ g, { g with sects := foldl (λ d i, <[Z.of_nat i := zero_block]> d) (sects g) (seq 0 (Z.to_nat FSSIZE)) });;
  wsect 1 (patch 0 (enc_sb sb) zero_block);;
  rootino ← ialloc T_DIR;
  if decide (rootino ≠ ROOTINO) then fault
  else
    iappend rootino (enc_dirent rootino (cs "."));;
    iappend rootino (enc_dirent rootino (cs ".."));;
    add_files args;;
    d ← rinode rootino;
    let off := (d_size d / BSIZE + 1) * BSIZE in
    winode rootino { d with d_size := off };;
    used ← gets freeblock;
    balloc used.

Definition blank : image := mk_image ∅ 1 0.

(** * The image so far *)

Lemma sb_layout : layout sb.
Proof. split; vm_compute; intuition discriminate. Qed.

(** The bitmap is written last: until then the state is that of a disk with the
    bits of the blocks that have been given out. *)
Definition vs (g : image) : fss := mk_fss sb (<[bmapstart sb := used_bits (Z.to_nat (freeblock g))]> (sects g)) ∅ 0 ∅ [].

Lemma used_bits_S k : used_bits (S k) = set_bit (Z.of_nat k) (used_bits k).
Proof. unfold used_bits. by rewrite seq_S, foldl_app. Qed.

Lemma test_bit_zero b : test_bit b zero_block = false.
Proof.
  unfold test_bit, num_at, zero_block. rewrite drop_replicate, take_replicate. apply bool_decide_eq_false. assert (∀ n, le_combine (replicate n NUL) = 0) as ->; [|by rewrite Z.land_0_l; intros H].
  intros n. induction n as [|n IH]; [done|]. change (le_combine (replicate (S n) NUL)) with (Z.lor 0 (Z.shiftl (le_combine (replicate n NUL)) 8)). by rewrite IH.
Qed.

Lemma used_bits_spec k : (k ≤ 4096)%nat → length (used_bits k) = Z.to_nat BSIZE ∧ ∀ b, 0 ≤ b → test_bit b (used_bits k) = bool_decide (b < Z.of_nat k).
Proof.
  induction k as [|k IH]; intros Hk.
  - split; [apply length_replicate|]. intros b Hb. change (used_bits 0) with zero_block. rewrite test_bit_zero. by rewrite bool_decide_eq_false_2 by lia.
  - destruct IH as [Hl Ht]; [lia|]. rewrite used_bits_S. assert (0 ≤ Z.of_nat k < 8 * Z.of_nat (length (used_bits k))) as Hr by (rewrite Hl; unfold BSIZE; lia). split; [by rewrite (length_put_bit true)|].
    intros b Hb. rewrite (test_put_bit true) by done. rewrite Ht by done. case_decide as E; [by rewrite bool_decide_eq_true_2 by lia|]. apply bool_decide_ext. lia.
Qed.

(** The invariant is about the blocks. *)
Lemma inv_same ex T P s s' : fs_inv ex T P s → XvFs.sb s' = XvFs.sb s → disk s' = disk s → held s' = held s → fs_inv ex T P s'.
Proof. intros [I1 I2 I3 I4 I5 I6 I7 I8 I9] E1 E2 E3. split; rewrite ?E1, ?E2, ?E3; done. Qed.

Record mk_ok (ex : option Z) (T : gmap Z ainode) (g : image) : Prop := {
  mk_inv : fs_inv ex T ∅ (vs g);
  mk_fresh : ∀ b, freeblock g ≤ b < FSSIZE → sects g !! b = Some zero_block;
  mk_range : nmeta ≤ freeblock g ≤ FSSIZE;
  mk_super : sects g !! 1 = Some (patch 0 (enc_sb sb) zero_block);
}.

Definition put (b : Z) (l : list byte) (g : image) : image := mk_image (<[b := l]> (sects g)) (freeinode g) (freeblock g).
Definition next (g : image) : image := mk_image (sects g) (freeinode g) (freeblock g + 1).

Lemma wsect_run b l g : wsect b l g = Some ((), put b l g).
Proof. done. Qed.
Lemma take_block_run g : take_block g = Some (freeblock g, next g).
Proof. done. Qed.
Lemma rsect_run b l g : sects g !! b = Some l → rsect b g = Some (l, g).
Proof. unfold rsect. by intros ->. Qed.

Lemma disk_vs g b : b ≠ bmapstart sb → disk (vs g) !! b = sects g !! b.
Proof. intros Hb. cbn. by rewrite lookup_insert_ne. Qed.

Lemma vs_put b l g ex T P : b ≠ bmapstart sb → fs_inv ex T P (wrote b l (vs g)) → fs_inv ex T P (vs (put b l g)).
Proof. intros Hb I. eapply inv_same; [exact I|done| |done]. cbn. by rewrite insert_insert_ne. Qed.

Section block.
Context (ex : option Z) (T : gmap Z ainode) (g : image) (K : mk_ok ex T g).

Lemma owned_used b : b ∈ owned T ↔ nmeta ≤ b < freeblock g.
Proof.
  pose proof (mk_range _ _ _ K) as Hr. unfold nmeta, FSSIZE in Hr. assert (dstart sb = nmeta) as Ed by done. split.
  - intros Hb. pose proof (free_or_owned_range _ _ _ _ (mk_inv _ _ _ K) b ltac:(set_solver)) as Hrg. cbn [vs XvFs.sb] in Hrg. rewrite Ed in Hrg. split; [lia|]. change (sb_size sb) with 1000 in Hrg.
    assert (nmeta = 59) as En by done. destruct (used_bits_spec (Z.to_nat (freeblock g))) as [_ Ht]; [lia|]. pose proof (fi_bits _ _ _ _ (mk_inv _ _ _ K) b (used_bits (Z.to_nat (freeblock g)))) as Hbits. cbn [vs XvFs.sb disk] in Hbits.
    assert (BBLOCK b sb = bmapstart sb) as Eb by (unfold BBLOCK, BPB; rewrite Z.div_small by lia; done). rewrite Eb, lookup_insert_eq in Hbits. change (sb_size sb) with 1000 in Hbits. rewrite Z.mod_small in Hbits by (unfold BPB; lia). rewrite Ht in Hbits by lia.
    assert (bool_decide (b < Z.of_nat (Z.to_nat (freeblock g))) = true) as Hd by (apply Hbits; [lia|done|right; set_solver]). apply bool_decide_eq_true in Hd. lia.
  - intros Hb. assert (nmeta = 59) as En by done. destruct (used_bits_spec (Z.to_nat (freeblock g))) as [_ Ht]; [lia|]. pose proof (fi_bits _ _ _ _ (mk_inv _ _ _ K) b (used_bits (Z.to_nat (freeblock g)))) as Hbits. cbn [vs XvFs.sb disk] in Hbits.
    assert (BBLOCK b sb = bmapstart sb) as Eb by (unfold BBLOCK, BPB; rewrite Z.div_small by lia; done). rewrite Eb, lookup_insert_eq in Hbits. change (sb_size sb) with 1000 in Hbits. rewrite Z.mod_small in Hbits by (unfold BPB; lia). rewrite Ht in Hbits by lia. rewrite Ed in Hbits.
    destruct Hbits as [Hbits _]; [lia|done|]. destruct Hbits as [H|H]; [by apply bool_decide_eq_true_2; lia|lia|set_solver].
Qed.

(** The next block is given out. *)
Lemma next_block : freeblock g < FSSIZE → fs_inv ex T ({[freeblock g]} ∪ ∅) (vs (next g)) ∧ freeblock g ∉ owned T ∪ ∅ ∧ sects g !! freeblock g = Some zero_block ∧ nmeta ≤ freeblock g.
Proof.
  intros Hlt. pose proof (mk_range _ _ _ K) as Hr. assert (freeblock g ∉ owned T) as Hno by (rewrite owned_used; lia). split_and!; [|set_solver|apply K; lia|lia]. assert (nmeta = 59) as En by done. unfold FSSIZE in *.
  assert (BBLOCK (freeblock g) sb = bmapstart sb) as Eb by (unfold BBLOCK, BPB; rewrite Z.div_small by lia; done).
  pose proof (inv_put_bit _ _ _ _ (mk_inv _ _ _ K) ({[freeblock g]} ∪ ∅) (freeblock g) true (used_bits (Z.to_nat (freeblock g)))) as H. cbn [vs XvFs.sb] in H. rewrite Eb in H. eapply inv_same; [apply H| | |]; try done.
  - change (dstart sb) with 59. change (sb_size sb) with 1000. lia.
  - cbn. by rewrite lookup_insert_eq.
  - set_solver.
  - set_solver.
  - cbn [vs wrote disk next sects freeblock put_bit]. rewrite insert_insert_eq. f_equal. rewrite (Z.mod_small (freeblock g)) by (unfold BPB; lia). replace (Z.to_nat (freeblock g + 1)) with (S (Z.to_nat (freeblock g))) by lia. rewrite used_bits_S. f_equal. lia.
Qed.

End block.

(** * Blocks of a file *)

Definition tight (a : ainode) : Prop := is_Some (a_ind a) ↔ (NDIRECT < length (a_blocks a))%nat.
Definition blocks_for (q : Z) : Z := q + if decide (Z.of_nat NDIRECT < q) then 1 else 0.

Lemma length_own a : tight a → Z.of_nat (length (own a)) = blocks_for (Z.of_nat (length (a_blocks a))).
Proof.
  intros [H1 H2]. unfold own, blocks_for. rewrite length_app. destruct (a_ind a) as [j|]; [change (length (option_list (Some j))) with 1%nat|change (length (option_list (@None Z))) with 0%nat].
  - rewrite decide_True; [lia|]. assert (NDIRECT < length (a_blocks a))%nat by (apply H1; eauto). lia.
  - rewrite decide_False; [lia|]. intros Hlt. destruct H2 as [? ?]; [lia|done].
Qed.

Section file.
Context (T : gmap Z ainode) (n : Z) (g : image) (K : mk_ok (Some n) T g) (a : ainode) (Ha : T !! n = Some a) (Ht : tight a).

(** The inode has the block [b] at [k]. *)
Record got (k : nat) (b : Z) (a' : ainode) (g' : image) : Prop := {
  got_ok : mk_ok (Some n) (<[n := a']> T) g';
  got_at : a_blocks a' !! k = Some b;
  got_bytes : fbytes (vs g') a' = fbytes (vs g) a ++ zeros (Z.of_nat (length (a_blocks a')) - Z.of_nat (length (a_blocks a)));
  got_len : length (a_blocks a') = (length (a_blocks a) `max` S k)%nat;
  got_tight : tight a';
  got_meta : a_empty a' = a_empty a ∧ a_size a' = a_size a;
  got_free : freeblock g' = freeblock g + (Z.of_nat (length (own a')) - Z.of_nat (length (own a))) ∧ freeinode g' = freeinode g;
  got_frame : ∀ c, c ∉ own a' → sects g' !! c = sects g !! c;
  got_own : ∀ c, c ∈ own a → c ∈ own a';
}.

Lemma own_range c : c ∈ own a → nmeta ≤ c < FSSIZE ∧ c ≠ bmapstart sb.
Proof. intros Hc. destruct (fi_table _ _ _ _ (mk_inv _ _ _ K) n a Ha) as [_ Hok]. apply (ao_range _ _ Hok) in Hc. change (XvFs.sb (vs g)) with sb in Hc. change (dstart sb) with 59 in Hc. change (sb_size sb) with 1000 in Hc. change nmeta with 59. change (bmapstart sb) with 58. unfold FSSIZE. lia. Qed.

Lemma own_sect c : c ∈ own a → ∃ l, sects g !! c = Some l ∧ length l = Z.to_nat BSIZE.
Proof. intros Hc. destruct (own_block _ _ _ _ (mk_inv _ _ _ K) n a Ha c Hc) as (l&Hl&Hlen). rewrite disk_vs in Hl by (by apply own_range). eauto. Qed.

Lemma addr_dinode k : (k < NDIRECT)%nat → addr k (dinode_of a) = default 0 (a_blocks a !! k).
Proof. intros Hk. unfold addr. cbn [dinode_of d_addrs]. apply list_lookup_total_correct. rewrite lookup_addrs. by rewrite decide_True. Qed.
Lemma addr_dinode_ind : addr NDIRECT (dinode_of a) = default 0 (a_ind a).
Proof. unfold addr. cbn [dinode_of d_addrs]. apply list_lookup_total_correct. rewrite lookup_addrs. by rewrite decide_False, decide_True by lia. Qed.

(** The file has the block. *)
Lemma block_there k b : a_blocks a !! k = Some b → ∃ a' g', file_block (dinode_of a) (Z.of_nat k) g = Some ((dinode_of a', b), g') ∧ got k b a' g'.
Proof.
  intros Hb. exists a, g. pose proof (lookup_lt_Some _ _ _ Hb) as Hlt. pose proof (mk_inv _ _ _ K) as I. pose proof (block_pos _ _ _ _ I n a Ha b (in_blocks a k b Hb)) as Hpos. destruct (fi_table _ _ _ _ I n a Ha) as [_ Hok]. split.
  - unfold file_block. rewrite Nat2Z.id. case_decide as Hd.
    + rewrite addr_dinode by lia. rewrite Hb. cbn [default]. rewrite decide_False by (cbn; lia). unfold mbind, ST_bind, mret, ST_ret. rewrite addr_dinode by lia. by rewrite Hb.
    + destruct (ao_ind _ _ Hok) as [j Hj]; [lia|]. pose proof (block_pos _ _ _ _ I n a Ha j (in_ind a j Hj)) as Hjp. rewrite addr_dinode_ind, Hj. cbn [default]. rewrite decide_False by (cbn; lia). destruct (own_sect j (in_ind a j Hj)) as (l&Hl&Hlen).
      rewrite (bind_run _ _ g (dinode_of a) g) by done. rewrite addr_dinode_ind, Hj. cbn [default]. rewrite (bind_run _ _ _ _ _ (rsect_run _ _ _ Hl)). cbv zeta. pose proof (ao_len _ _ Hok) as Hmax. unfold MAXFILE in Hmax.
      assert (word (k - NDIRECT) l = b) as Hw. { rewrite (fi_ind _ _ _ _ I n a j l Ha Hj) by (rewrite ?disk_vs by (by apply own_range, in_ind); unfold NDIRECT, NINDIRECT in *; try done; lia). replace (NDIRECT + (k - NDIRECT))%nat with k by lia. by rewrite Hb. }
      rewrite Hw. rewrite decide_False by lia. unfold mbind, ST_bind, mret, ST_ret. by rewrite Hw.
  - split; try done.
    + by rewrite insert_id.
    + rewrite Z.sub_diag. unfold zeros. by rewrite app_nil_r.
    + lia.
    + split; [lia|done].
Qed.

Lemma fbytes_sects g1 c : (∀ b, b ∈ a_blocks c → b ≠ bmapstart sb ∧ sects g1 !! b = sects g !! b) → fbytes (vs g1) c = fbytes (vs g) c.
Proof. intros H. apply fbytes_ext. intros b Hb. destruct (H b Hb) as [Hne E]. by rewrite !disk_vs. Qed.

Lemma fbytes_append g1 b : (∀ c, c ∈ a_blocks a → c ≠ bmapstart sb ∧ sects g1 !! c = sects g !! c) → b ≠ bmapstart sb → sects g1 !! b = Some zero_block → fbytes (vs g1) (a_append b a) = fbytes (vs g) a ++ zeros 1.
Proof.
  intros H Hb Hz. rewrite <- (fbytes_sects g1 a H). unfold fbytes. cbn [a_append a_blocks]. rewrite fmap_app, concat_app. f_equal. cbn. rewrite app_nil_r. unfold blk. rewrite disk_vs, Hz by done. done.
Qed.

Lemma ok_next T' : mk_ok (Some n) T g → fs_inv (Some n) T' ∅ (vs (next g)) → freeblock g < FSSIZE → mk_ok (Some n) T' (next g).
Proof. intros [_ K2 K3 K4] I Hlt. split; [done| |cbn; lia|done]. intros b Hb. apply K2. cbn in Hb. lia. Qed.

(** The next direct block. *)
Lemma block_direct : (length (a_blocks a) < NDIRECT)%nat → freeblock g < FSSIZE → ∃ b a' g', file_block (dinode_of a) (Z.of_nat (length (a_blocks a))) g = Some ((dinode_of a', b), g') ∧ got (length (a_blocks a)) b a' g'.
Proof.
  intros Hlen Hlt. destruct (next_block _ _ _ K Hlt) as (I1&Hno&Hz&Hlo). set (b := freeblock g) in *. set (k := length (a_blocks a)) in *. assert (b ≠ bmapstart sb) as Hbm by (change (bmapstart sb) with 58; change nmeta with 59 in Hlo; lia). exists b, (a_append b a), (next g). split.
  - unfold file_block. rewrite Nat2Z.id, decide_True by lia. rewrite addr_dinode by done. rewrite (lookup_ge_None_2 (a_blocks a)) by done. cbn [default]. rewrite decide_True by done. erewrite bind_run by (erewrite bind_run by apply take_block_run; done).
    unfold mret, ST_ret. rewrite dinode_append by done. do 3 f_equal. rewrite set_addr_of. unfold addr. cbn [d_addrs]. apply list_lookup_total_correct. rewrite list_lookup_insert_eq; [done|]. rewrite length_addrs. fold k. lia.
  - pose proof (inv_append _ _ _ _ _ I1 Hno n a Ha ltac:(by right) Hlen) as I2. split.
    + by apply ok_next.
    + cbn [a_append a_blocks]. by apply list_lookup_middle.
    + cbn [a_append a_blocks]. rewrite length_app. cbn [length]. replace (Z.of_nat (length (a_blocks a) + 1) - Z.of_nat (length (a_blocks a))) with 1 by lia. apply fbytes_append; [|done|done]. intros c Hc. split; [|done]. apply own_range. unfold own. apply elem_of_app. by left.
    + cbn [a_append a_blocks]. rewrite length_app. cbn [length]. fold k. lia.
    + unfold tight in *. cbn [a_append a_blocks a_ind]. rewrite length_app. cbn [length]. fold k. rewrite Ht. fold k. lia.
    + done.
    + split; [|done]. unfold own. cbn [a_append a_blocks a_ind next freeblock]. rewrite !length_app. cbn [length]. lia.
    + done.
    + intros c Hc. apply elem_own_append. by right.
Qed.

(** The next of the indirect blocks. *)
Lemma block_indirect j : a_ind a = Some j → (NDIRECT ≤ length (a_blocks a))%nat → Z.of_nat (length (a_blocks a)) < MAXFILE → freeblock g < FSSIZE →
  let k := (length (a_blocks a) - NDIRECT)%nat in
  ∃ b l g', rsect j g = Some (l, g) ∧ word k l = 0 ∧ (b ← take_block; wsect j (set_word k b l);; mret (set_word k b l)) g = Some (set_word k b l, g') ∧ word k (set_word k b l) = b ∧
    mk_ok (Some n) (<[n := a_append b a]> T) g' ∧ fbytes (vs g') (a_append b a) = fbytes (vs g) a ++ zeros 1 ∧ freeblock g' = freeblock g + 1 ∧ freeinode g' = freeinode g ∧ (∀ c, c ≠ j → sects g' !! c = sects g !! c).
Proof.
  intros Hj Hlen Hmax Hlt k. destruct (next_block _ _ _ K Hlt) as (I1&Hno&Hz&Hlo). set (b := freeblock g) in *. pose proof (mk_inv _ _ _ K) as I. assert (b ≠ bmapstart sb) as Hbm by (change (bmapstart sb) with 58; change nmeta with 59 in Hlo; lia).
  pose proof (in_ind a j Hj) as Hjo. destruct (own_sect j Hjo) as (l&Hl&Hll). destruct (own_range j Hjo) as [Hjr Hjm]. assert (k < NINDIRECT)%nat as Hk by (unfold k, NDIRECT, NINDIRECT, MAXFILE in *; lia). destruct (fi_table _ _ _ _ I n a Ha) as [_ Hok].
  assert (j ≠ b) as Hjb by (intros ->; apply Hno, elem_of_union_l, elem_of_owned; eauto). assert (4 * k + 4 ≤ length l)%nat as Hk4 by (rewrite Hll; unfold NINDIRECT, BSIZE in *; lia).
  exists b, l, (put j (set_word k b l) (next g)). split_and!.
  - by apply rsect_run.
  - rewrite (fi_ind _ _ _ _ I n a j l Ha Hj) by (rewrite ?disk_vs by done; done). by rewrite lookup_ge_None_2 by (unfold k; lia).
  - done.
  - rewrite word_set; [done|done|]. change nmeta with 59 in Hlo. unfold FSSIZE in Hlt. lia.
  - split; [| |cbn; pose proof (mk_range _ _ _ K); lia|cbn; rewrite lookup_insert_ne by (change nmeta with 59 in Hjr; lia); apply K].
    + apply vs_put; [done|]. eapply (inv_append_ind _ _ _ _ _ I1 Hno n a Ha ltac:(by right) j l Hj); [rewrite disk_vs by done; done|done|done].
    + intros c Hc. cbn [put next sects freeblock] in *. rewrite lookup_insert_ne; [apply K; lia|]. intros ->. assert (c ∈ owned T) as Hco by (apply elem_of_owned; eauto). apply (owned_used _ _ _ K) in Hco. lia.
  - apply fbytes_append; [|done|cbn; by rewrite lookup_insert_ne]. intros c Hc. assert (c ∈ own a) as Hco by (unfold own; apply elem_of_app; by left). split; [by apply own_range|]. cbn. rewrite lookup_insert_ne; [done|]. intros ->.
    pose proof (ao_nodup _ _ Hok) as Hnd. unfold own in Hnd. rewrite Hj in Hnd. apply NoDup_app in Hnd as (_&Hnd&_). apply (Hnd c Hc). by left.
  - done.
  - done.
  - intros c Hc. cbn. by rewrite lookup_insert_ne.
Qed.

(** The tail of [file_block], after the indirect block has been found. *)
Lemma indirect_run d j b l g1 g2 : addr NDIRECT d = j → (NDIRECT ≤ length (a_blocks a))%nat → rsect j g1 = Some (l, g1) → let k := (length (a_blocks a) - NDIRECT)%nat in word k l = 0 →
  (b ← take_block; wsect j (set_word k b l);; mret (set_word k b l)) g1 = Some (set_word k b l, g2) → word k (set_word k b l) = b →
  (ind ← rsect (addr NDIRECT d);
   ind ← (if decide (word k ind = 0) then b ← take_block; wsect (addr NDIRECT d) (set_word k b ind);; mret (set_word k b ind) else mret ind);
   mret (d, word k ind)) g1 = Some ((d, b), g2).
Proof. intros E Hlen R1 k Hz R2 Hw. rewrite E, (bind_run _ _ _ _ _ R1). rewrite decide_True by done. rewrite (bind_run _ _ _ _ _ R2). unfold mret, ST_ret. by rewrite Hw. Qed.

End file.

Lemma file_block_spec T n g a k : mk_ok (Some n) T g → T !! n = Some a → tight a → (k ≤ length (a_blocks a))%nat → Z.of_nat k < MAXFILE →
  freeblock g + (blocks_for (Z.of_nat (length (a_blocks a) `max` S k)) - blocks_for (Z.of_nat (length (a_blocks a)))) ≤ FSSIZE →
  ∃ b a' g', file_block (dinode_of a) (Z.of_nat k) g = Some ((dinode_of a', b), g') ∧ got T n g a k b a' g'.
Proof.
  intros K Ha Ht Hk Hmax Hroom. destruct (decide (k < length (a_blocks a))%nat) as [Hlt|Hge].
  { destruct (lookup_lt_is_Some_2 _ _ Hlt) as [b Hb]. exists b. by apply block_there. }
  assert (k = length (a_blocks a)) as -> by lia. replace (length (a_blocks a) `max` S (length (a_blocks a)))%nat with (S (length (a_blocks a))) in Hroom by lia. set (k := length (a_blocks a)) in *. clear Hk Hge. unfold blocks_for in Hroom.
  destruct (decide (k < NDIRECT)%nat) as [Hd|Hd]; [apply block_direct; try done; revert Hroom; repeat case_decide; lia|]. assert (Z.to_nat (Z.of_nat k) = k) as En by lia.
  destruct (a_ind a) as [j|] eqn:Hj.
  - assert (NDIRECT < k)%nat as Hk12 by (apply Ht; eauto). rewrite decide_True in Hroom by lia. rewrite decide_True in Hroom by lia.
    destruct (block_indirect T n g K a Ha j Hj ltac:(lia) Hmax ltac:(lia)) as (b&l&g'&R1&Hz&R2&Hw&K'&Hf&Hfb&Hfi&Hfr). pose proof (block_pos _ _ _ _ (mk_inv _ _ _ K) n a Ha j (in_ind a j Hj)) as Hjp. exists b, (a_append b a), g'. split.
    + unfold file_block. rewrite decide_False by lia. rewrite addr_dinode_ind, Hj. cbn [default]. rewrite decide_False by (cbn; lia). rewrite (bind_run _ _ g (dinode_of a) g) by done. rewrite En. cbv zeta. rewrite dinode_append_ind by (fold k; lia).
      apply (indirect_run a _ j b l g g'); first [done|by rewrite addr_dinode_ind, Hj|fold k; lia].
    + split; try done.
      * cbn [a_append a_blocks]. by apply list_lookup_middle.
      * rewrite Hf. do 2 f_equal. cbn [a_append a_blocks]. rewrite length_app. cbn [length]. lia.
      * cbn [a_append a_blocks]. rewrite length_app. cbn [length]. fold k. lia.
      * unfold tight in *. cbn [a_append a_blocks a_ind]. rewrite length_app. cbn [length]. fold k. rewrite Hj. split; [intros _; lia|intros _; eauto].
      * unfold own. cbn [a_append a_blocks a_ind]. rewrite !length_app. cbn [length]. split; [lia|done].
      * intros c Hc. apply Hfr. intros ->. apply Hc, elem_own_append. right. by apply in_ind.
      * intros c Hc. apply elem_own_append. by right.
  - assert (k = NDIRECT) as Hk12. { destruct (decide (NDIRECT < k)%nat) as [H|]; [|lia]. apply Ht in H as [? ?]. congruence. }
    rewrite decide_True in Hroom by lia. rewrite decide_False in Hroom by lia. destruct (next_block _ _ _ K ltac:(lia)) as (I1&Hno&Hz&Hlo). set (j := freeblock g) in *. assert (j ≠ bmapstart sb) as Hjm by (change (bmapstart sb) with 58; change nmeta with 59 in Hlo; lia). set (a1 := a_set_ind j a).
    pose proof (inv_set_ind _ _ _ _ _ I1 Hno n a Ha ltac:(by right) Hj) as I2. assert (mk_ok (Some n) (<[n := a1]> T) (next g)) as K1 by (apply (ok_next T n g); [done|apply I2; rewrite disk_vs by done; done|lia]).
    destruct (block_indirect (<[n := a1]> T) n (next g) K1 a1) with (j := j) as (b&l&g'&R1&Hzw&R2&Hw&K'&Hf&Hfb&Hfi&Hfr); [by rewrite lookup_insert_eq|done|cbn; fold k; lia|cbn; fold k; lia|cbn; fold j; lia|].
    exists b, (a_append b a1), g'. rewrite insert_insert_eq in K'. split.
    + unfold file_block. rewrite decide_False by lia. rewrite addr_dinode_ind, Hj. cbn [default]. rewrite decide_True by done. erewrite bind_run by (erewrite bind_run by apply take_block_run; done). rewrite En. cbv zeta. rewrite dinode_append_ind by (cbn; fold k; lia). unfold a1. rewrite dinode_set_ind.
      apply (indirect_run a1 _ j b l (next g) g'); first [done|by rewrite <- dinode_set_ind, addr_dinode_ind|cbn; fold k; lia].
    + assert (own (a_append b a1) = a_blocks a ++ [b] ++ [j]) as Eo by (unfold own; cbn [a_append a1 a_set_ind a_blocks a_ind]; by rewrite <- app_assoc). split; try done.
      * cbn [a_append a1 a_set_ind a_blocks]. by apply list_lookup_middle.
      * rewrite Hf. change (fbytes (vs (next g)) a1) with (fbytes (vs (next g)) a). rewrite (fbytes_sects g (next g) a) by (intros c Hc; split; [apply (own_range T n g K a Ha); unfold own; apply elem_of_app; by left|done]). do 2 f_equal. cbn [a_append a1 a_set_ind a_blocks]. rewrite length_app. cbn [length]. lia.
      * cbn [a_append a1 a_set_ind a_blocks]. rewrite length_app. cbn [length]. fold k. lia.
      * unfold tight in *. cbn [a_append a1 a_set_ind a_blocks a_ind]. rewrite length_app. cbn [length]. fold k. split; [intros _; lia|intros _; eauto].
      * rewrite Eo. unfold own. rewrite Hj. rewrite !length_app. cbn [length]. change (length (option_list (@None Z))) with 0%nat. split; [cbn [next freeblock] in Hfb; lia|done].
      * intros c Hc. rewrite Eo in Hc. rewrite Hfr; [done|]. intros ->. apply Hc. rewrite !elem_of_app. right. right. by left.
      * intros c Hc. apply elem_own_append. right. apply elem_own_ind; [done|by right].
Qed.

(** * Appending *)

(** The inode [n] holds [len] more bytes from [off] on. *)
Record grown (T : gmap Z ainode) (n : Z) (g : image) (a : ainode) (off : Z) (p : list byte) (a' : ainode) (g' : image) : Prop := {
  gw_ok : mk_ok (Some n) (<[n := a']> T) g';
  gw_len : Z.of_nat (length (a_blocks a')) = nblk (off + Z.of_nat (length p));
  gw_bytes : ∀ l r, fbytes (vs g) a = l ++ replicate r NUL → length l = Z.to_nat off → ∃ r', fbytes (vs g') a' = (l ++ p) ++ replicate r' NUL;
  gw_tight : tight a';
  gw_meta : a_empty a' = a_empty a ∧ a_size a' = a_size a;
  gw_free : freeblock g' = freeblock g + (Z.of_nat (length (own a')) - Z.of_nat (length (own a))) ∧ freeinode g' = freeinode g;
  gw_frame : ∀ c, c ∉ own a' → sects g' !! c = sects g !! c;
  gw_own : ∀ c, c ∈ own a → c ∈ own a';
}.

Lemma length_bytes T n g a : mk_ok (Some n) T g → T !! n = Some a → length (fbytes (vs g) a) = (512 * length (a_blocks a))%nat.
Proof. intros K Ha. by rewrite (length_fbytes _ _ _ _ (mk_inv _ _ _ K) n a Ha). Qed.

(** A turn of the loop: bytes of one block. *)
Lemma append_turn T n g a off (p : list byte) : mk_ok (Some n) T g → T !! n = Some a → tight a → 0 ≤ off → Z.of_nat (length (a_blocks a)) = nblk off → (0 < length p)%nat → off + Z.of_nat (length p) ≤ MAXFILE * BSIZE →
  off mod BSIZE + Z.of_nat (length p) ≤ BSIZE → freeblock g + (blocks_for (nblk (off + Z.of_nat (length p))) - blocks_for (nblk off)) ≤ FSSIZE →
  ∃ b a' g' l, file_block (dinode_of a) (off / BSIZE) g = Some ((dinode_of a', b), g') ∧ sects g' !! b = Some l ∧
    grown T n g a off p a' (put b (patch (Z.to_nat (off - off / BSIZE * BSIZE)) p l) g').
Proof.
  intros K Ha Ht H0 Hlen Hp Hmax Hfit Hroom. set (k := Z.to_nat (off / BSIZE)). assert (0 ≤ off / BSIZE) as Hq by (apply Z.div_pos; done). assert (off = BSIZE * Z.of_nat k + off mod BSIZE) as Hoff by (unfold k; rewrite Z2Nat.id by done; apply Z.div_mod; done).
  assert (off / BSIZE = Z.of_nat k) as Ek by lia. pose proof (Z.mod_pos_bound off BSIZE ltac:(done)) as Hm. assert (nblk (off + Z.of_nat (length p)) = Z.of_nat (S k)) as En by (unfold nblk, BSIZE in *; Z.to_euclidean_division_equations; lia).
  assert (nblk off ≤ Z.of_nat (S k) ∧ Z.of_nat k ≤ nblk off) as [Hn1 Hn2] by (unfold nblk, BSIZE in *; Z.to_euclidean_division_equations; lia). rewrite Ek.
  assert ((length (a_blocks a) `max` S k)%nat = S k) as Emax by lia. destruct (file_block_spec T n g a k K Ha Ht) as (b&a'&g1&R&[G1 G2 G3 G4 G5 G6 G7 G8 G9]); [lia|unfold MAXFILE, BSIZE in *; lia|rewrite Emax, <- En, Hlen; lia|].
  rewrite Emax in G4. assert (<[n := a']> T !! n = Some a') as Ha' by (by rewrite lookup_insert_eq). pose proof (in_blocks a' k b G2) as Hbo. destruct (own_sect _ _ _ G1 a' Ha' b Hbo) as (l&Hl&Hll). destruct (own_range _ _ _ G1 a' Ha' b Hbo) as [_ Hbm]. exists b, a', g1, l. split_and!; [done|done|].
  set (o := Z.to_nat (off - Z.of_nat k * BSIZE)). assert (o = Z.to_nat (off mod BSIZE)) as Eo by (unfold o; lia). set (l' := patch o p l). assert (o + length p ≤ length l)%nat as Hol by (rewrite Hll; unfold BSIZE in *; lia).
  destruct (write_block _ _ _ _ n a' k b l' (mk_inv _ _ _ G1) Ha' G2) as [I2 F2]; [unfold l'; by rewrite length_patch|]. assert (fbytes (vs (put b l' g1)) a' = fbytes (wrote b l' (vs g1)) a') as Fv by (apply fbytes_ext; intros c Hc; cbn; by rewrite insert_insert_ne).
  assert (Z.to_nat off = 512 * k + o)%nat as Eoff by (unfold BSIZE in *; lia). pose proof (length_bytes T n g a K Ha) as Hlb. split; try done.
  - destruct (own_range _ _ _ G1 a' Ha' b Hbo) as [Hbr _]. split; [by apply vs_put| |apply G1|cbn; rewrite lookup_insert_ne by (change nmeta with 59 in Hbr; lia); apply G1]. intros c Hc. cbn [put sects freeblock] in *. rewrite lookup_insert_ne; [by apply G1|]. intros ->. assert (c ∈ owned (<[n := a']> T)) as Hco by (apply elem_of_owned; eauto). apply (owned_used _ _ _ G1) in Hco. lia.
  - rewrite En, G4. done.
  - rewrite Fv, F2. unfold l'. assert ((blk (vs g1) <$> a_blocks a') !! k = Some l) as Hbk by (rewrite list_lookup_fmap, G2; cbn; f_equal; unfold blk; rewrite disk_vs, Hl by done; done).
    rewrite (patch_block 512 _ k l o p); [|exact (blk_length _ _ _ _ (mk_inv _ _ _ G1) n a' Ha')|exact Hbk|rewrite Hll in Hol; exact Hol]. fold (fbytes (vs g1) a'). intros y r Ey Hy. rewrite G3, <- Eoff, Ey. unfold zeros. rewrite <- app_assoc, <- replicate_add, <- Hy. generalize (r + Z.to_nat (BSIZE * (Z.of_nat (length (a_blocks a')) - Z.of_nat (length (a_blocks a)))))%nat. intros z.
    unfold patch. rewrite take_app_length. rewrite drop_app_ge, drop_replicate by lia. rewrite app_assoc. eauto.
  - intros c Hc. cbn. rewrite lookup_insert_ne by (intros ->; done). by apply G8.
Qed.

Lemma grown_nil T n g a off : mk_ok (Some n) T g → T !! n = Some a → tight a → Z.of_nat (length (a_blocks a)) = nblk off → grown T n g a off [] a g.
Proof.
  intros K Ha Ht Hl. split; try done.
  - by rewrite insert_id.
  - cbn [length]. by rewrite Z.add_0_r.
  - intros l r E _. rewrite app_nil_r. eauto.
  - split; [lia|done].
Qed.

Lemma append_trans T n g a off p1 a1 g1 p2 a2 g2 : 0 ≤ off → grown T n g a off p1 a1 g1 → grown (<[n := a1]> T) n g1 a1 (off + Z.of_nat (length p1)) p2 a2 g2 → grown T n g a off (p1 ++ p2) a2 g2.
Proof.
  intros H0 [A1 A2 A3 A4 [A5 A5'] [A6 A6'] A7 A8] [B1 B2 B3 B4 [B5 B5'] [B6 B6'] B7 B8]. split.
  - by rewrite insert_insert_eq in B1.
  - rewrite length_app. rewrite B2. f_equal. lia.
  - intros l r E Hl. destruct (A3 l r E Hl) as [r1 E1]. destruct (B3 (l ++ p1) r1 E1) as [r2 E2]; [rewrite length_app; lia|]. exists r2. by rewrite app_assoc.
  - done.
  - split; congruence.
  - split; [lia|congruence].
  - intros c Hc. rewrite B7 by done. apply A7. auto.
  - auto.
Qed.

Lemma nblk_mono n m : n ≤ m → nblk n ≤ nblk m.
Proof. intros H. unfold nblk, BSIZE. Z.to_euclidean_division_equations. lia. Qed.
Lemma blocks_for_mono n m : n ≤ m → blocks_for n ≤ blocks_for m.
Proof. intros H. unfold blocks_for. repeat case_decide; lia. Qed.

Lemma iappend_loop_spec n fuel : ∀ T g a off p, mk_ok (Some n) T g → T !! n = Some a → tight a → 0 ≤ off → Z.of_nat (length (a_blocks a)) = nblk off → off + Z.of_nat (length p) ≤ MAXFILE * BSIZE →
  freeblock g + (blocks_for (nblk (off + Z.of_nat (length p))) - blocks_for (nblk off)) ≤ FSSIZE → (length p ≤ fuel)%nat →
  ∃ a' g', iappend_loop fuel (dinode_of a) off p g = Some ((dinode_of a', off + Z.of_nat (length p)), g') ∧ grown T n g a off p a' g'.
Proof.
  induction fuel as [|fuel IH]; intros T g a off p K Ha Ht H0 Hlen Hmax Hroom Hf; (destruct p as [|c0 p0] eqn:Ep; [exists a, g; cbn [length]; rewrite Z.add_0_r; split; [done|by apply grown_nil]|rewrite <- Ep in *]).
  { subst p. cbn in Hf. lia. }
  assert (0 < length p)%nat as Hpos by (rewrite Ep; cbn; lia). set (n1 := Z.min (Z.of_nat (length p)) ((off / BSIZE + 1) * BSIZE - off)).
  assert (iappend_loop (S fuel) (dinode_of a) off p = (if decide (off / BSIZE < MAXFILE) then '(d, x) ← file_block (dinode_of a) (off / BSIZE); buf ← rsect x; wsect x (patch (Z.to_nat (off - off / BSIZE * BSIZE)) (take (Z.to_nat n1) p) buf);; iappend_loop fuel d (off + n1) (drop (Z.to_nat n1) p) else fault)) as -> by (unfold n1; by rewrite Ep).
  clear Ep c0 p0. pose proof (Z.mod_pos_bound off BSIZE ltac:(done)) as Hm. pose proof (Z.div_mod off BSIZE ltac:(done)) as Hdm. assert (0 < n1 ≤ Z.of_nat (length p) ∧ off mod BSIZE + n1 ≤ BSIZE) as [Hn1 Hn2] by (unfold n1, BSIZE in *; lia).
  assert (length (take (Z.to_nat n1) p) = Z.to_nat n1) as Htk by (rewrite length_take; lia). rewrite decide_True by (unfold MAXFILE, BSIZE in *; Z.to_euclidean_division_equations; lia).
  pose proof (blocks_for_mono _ _ (nblk_mono (off + n1) (off + Z.of_nat (length p)) ltac:(lia))) as Hb1. destruct (append_turn T n g a off (take (Z.to_nat n1) p) K Ha Ht H0 Hlen) as (b&a1&g1&l&R&Hl&G1); rewrite ?Htk, ?Z2Nat.id by lia; [lia|lia|lia|lia|].
  rewrite (bind_run _ _ _ _ _ R). cbv beta iota. rewrite (bind_run _ _ _ _ _ (rsect_run _ _ _ Hl)). rewrite (bind_run _ _ _ _ _ (wsect_run _ _ _)). set (g2 := put b _ g1) in *.
  pose proof (gw_len _ _ _ _ _ _ _ _ G1) as Hl1. rewrite Htk, Z2Nat.id in Hl1 by lia. pose proof (gw_free _ _ _ _ _ _ _ _ G1) as [Hfb _]. rewrite (length_own a1), (length_own a), Hl1, Hlen in Hfb by (done || apply G1).
  destruct (IH (<[n := a1]> T) g2 a1 (off + n1) (drop (Z.to_nat n1) p)) as (a2&g3&R3&G3); [apply G1|by rewrite lookup_insert_eq|apply G1|lia|done|rewrite length_drop; lia|rewrite length_drop|rewrite length_drop; lia|].
  { replace (off + n1 + Z.of_nat (length p - Z.to_nat n1)) with (off + Z.of_nat (length p)) by lia. lia. }
  exists a2, g3. split; [replace (off + Z.of_nat (length p)) with (off + n1 + Z.of_nat (length (drop (Z.to_nat n1) p))) by (rewrite length_drop; lia); done|]. rewrite <- (take_drop (Z.to_nat n1) p). eapply append_trans; [done|exact G1|]. by rewrite Htk, Z2Nat.id by lia.
Qed.

(** * The whole image *)

Record whole (T : gmap Z ainode) (g : image) (V : gmap Z afile) : Prop := {
  wh_ok : mk_ok None T g;
  wh_files : files T (vs g) = V;
  wh_shape : ∀ n a, T !! n = Some a → tight a ∧ Z.of_nat (length (a_blocks a)) = nblk (a_size a) ∧ ∃ r, fbytes (vs g) a = content (vs g) a ++ replicate r NUL;
  wh_dom : ∀ n, is_Some (T !! n) ↔ 1 ≤ n < freeinode g;
  wh_inodes : 1 ≤ freeinode g ≤ NINODES;
}.

Lemma iblock_ok n : 1 ≤ n < NINODES → 2 ≤ IBLOCK n sb < bmapstart sb.
Proof. intros Hn. unfold IBLOCK. change (inodestart sb) with 32. change (bmapstart sb) with 58. unfold NINODES, IPB in *. Z.to_euclidean_division_equations. lia. Qed.

Lemma winode_run n d l g : sects g !! IBLOCK n sb = Some l → winode n d g = Some ((), put (IBLOCK n sb) (set_dinode (Z.to_nat (n mod IPB)) d l) g).
Proof. intros Hl. unfold winode. by rewrite (bind_run _ _ _ _ _ (rsect_run _ _ _ Hl)). Qed.

(** The copy of an inode on the disk. *)
Lemma winode_ok ex T g n a : mk_ok ex T g → ex = None ∨ ex = Some n → 1 ≤ n < NINODES → T !! n = Some a →
  ∃ g', winode n (dinode_of a) g = Some ((), g') ∧ mk_ok None T g' ∧ (∀ m c, T !! m = Some c → fbytes (vs g') c = fbytes (vs g) c) ∧ freeblock g' = freeblock g ∧ freeinode g' = freeinode g.
Proof.
  intros [K1 K2 K3 K4] He Hn Ha. pose proof (iblock_ok n Hn) as Hib. destruct (fi_disk _ _ _ _ K1 (IBLOCK n sb)) as (l&Hl&Hlen); [cbn [vs XvFs.sb]; change (bmapstart sb) with 58 in Hib; change (sb_size sb) with 1000; lia|]. rewrite disk_vs in Hl by lia.
  destruct (fi_table _ _ _ _ K1 n a Ha) as [_ Hok]. eexists. split; [by apply winode_run|]. pose proof (inv_write_inode _ _ _ _ K1 n (dinode_of a) l He Hn (dinode_of_ok _ _ sb_layout Hok)) as I. cbn [vs XvFs.sb] in I. rewrite disk_vs in I by lia. rewrite Ha in I. specialize (I Hl eq_refl). split_and!.
  - split; [apply vs_put; [lia|done]| |done|cbn; rewrite lookup_insert_ne by lia; done]. intros b Hb. cbn [put sects freeblock] in *. rewrite lookup_insert_ne; [by apply K2|]. change (bmapstart sb) with 58 in Hib. change nmeta with 59 in K3. lia.
  - intros m c Hc. apply fbytes_sects. intros b Hb. destruct (fi_table _ _ _ _ K1 m c Hc) as [_ Hokc]. assert (b ∈ own c) as Hbo by (unfold own; apply elem_of_app; by left). apply (ao_range _ _ Hokc) in Hbo. cbn [vs XvFs.sb] in Hbo. change (dstart sb) with 59 in Hbo. change (bmapstart sb) with 58 in *.
    split; [lia|]. cbn. rewrite lookup_insert_ne; [done|lia].
  - done.
  - done.
Qed.

Lemma files_bytes T g g' : (∀ m c, T !! m = Some c → fbytes (vs g') c = fbytes (vs g) c) → files T (vs g') = files T (vs g).
Proof. intros H. unfold files. apply map_fmap_ext. intros m c Hc. unfold file_of, content. by rewrite (H m c Hc). Qed.

Definition a_first (type : Z) : ainode := mk_ainode type 0 0 1 0 [] None.

Lemma new_inode_spec T g V type : whole T g V → freeinode g < NINODES → type ≠ 0 → - 2 ^ 15 ≤ type < 2 ^ 15 →
  ∃ T' g', ialloc type g = Some (freeinode g, g') ∧ whole T' g' (<[freeinode g := mk_afile type 0 0 1 []]> V) ∧ freeblock g' = freeblock g ∧ freeinode g' = freeinode g + 1.
Proof.
  intros [K F Sh D Hi] Hlt Ht Htr. set (n := freeinode g) in *. assert (T !! n = None) as Hno by (destruct (T !! n) eqn:E; [|done]; assert (1 ≤ n < n) by (apply D; eauto); lia). set (g1 := mk_image (sects g) (n + 1) (freeblock g)).
  assert (ainode_ok sb (a_first type)) as Hok by (destruct (new_ok sb type Ht Htr) as [A1 A2 A3 A4 A5 A6 A7 A8 A9]; by split). pose proof K as [K1 K2 K3 K3']. pose proof (inv_new T ∅ (vs g) n (a_first type) K1 Hno eq_refl ltac:(cbn; change (ninodes sb) with NINODES; lia) Hok eq_refl) as I1.
  assert (mk_ok (Some n) (<[n := a_first type]> T) g1) as Kn by (split; [eapply inv_same; [exact I1|done..]|exact K2|exact K3|exact K3']). destruct (winode_ok (Some n) (<[n := a_first type]> T) g1 n (a_first type) Kn ltac:(by right) ltac:(lia) ltac:(by rewrite lookup_insert_eq)) as (g2&R&K4&F4&Hfb&Hfi).
  exists (<[n := a_first type]> T), g2. split_and!; [|split|done|done].
  - unfold ialloc. erewrite bind_run by done. erewrite bind_run by done. change (mk_dinode type 0 0 1 0 (replicate (S NDIRECT) 0)) with (dinode_of (a_first type)). by rewrite (bind_run _ _ _ _ _ R).
  - done.
  - rewrite (files_bytes _ _ _ F4). unfold files. rewrite fmap_insert. f_equal. exact F.
  - intros m a Hm. pose proof (F4 m a Hm) as Fm. apply lookup_insert_Some in Hm as [[<- <-]|[_ Hm]].
    + split_and!; [split; [intros [? ?]; done|cbn; lia]|done|]. by exists 0%nat.
    + destruct (Sh m a Hm) as (S1&S2&r&S3). split_and!; [done|done|]. exists r. unfold content in *. rewrite Fm. exact S3.
  - intros m. rewrite Hfi. cbn [g1 freeinode]. rewrite lookup_insert_is_Some, D. fold n. lia.
  - rewrite Hfi. cbn [g1 freeinode]. lia.
Qed.

Definition fblocks (l : nat) : Z := blocks_for (nblk (Z.of_nat l)).

Lemma iappend_spec T g V n f p : whole T g V → V !! n = Some f → Z.of_nat (length (f_data f) + length p) ≤ MAXFILE * BSIZE → freeblock g + (fblocks (length (f_data f) + length p) - fblocks (length (f_data f))) ≤ FSSIZE →
  ∃ T' g', iappend n p g = Some ((), g') ∧ whole T' g' (<[n := with_data (f_data f ++ p) f]> V) ∧ freeblock g' = freeblock g + (fblocks (length (f_data f) + length p) - fblocks (length (f_data f))) ∧ freeinode g' = freeinode g.
Proof.
  intros [K F Sh D Hi] Hf Hmax Hroom. rewrite <- F in Hf. destruct (lookup_files_inv _ _ _ _ Hf) as (a&Ha&->). cbn [file_of f_data] in *. destruct (Sh n a Ha) as (Ht&Hlen&r&Er). destruct (size_bound None T ∅ (vs g) n a Ha (mk_inv _ _ _ K)) as [Hsz Hcl].
  assert (1 ≤ n < NINODES) as Hn by (assert (1 ≤ n < freeinode g) by (apply D; eauto); lia). pose proof (iblock_ok n Hn) as Hib. set (len := length (content (vs g) a)) in *.
  destruct (fi_disk _ _ _ _ (mk_inv _ _ _ K) (IBLOCK n sb)) as (l&Hl&_); [cbn [vs XvFs.sb]; change (bmapstart sb) with 58 in Hib; change (sb_size sb) with 1000; lia|]. pose proof (fi_inodes _ _ _ _ (mk_inv _ _ _ K) n l Hn ltac:(done) Hl) as Hin. rewrite Ha in Hin. rewrite disk_vs in Hl by lia.
  assert (mk_ok (Some n) T g) as K0 by (destruct K as [K1 K2 K3 K4]; split; [eapply inv_weaken; [by left|exact K1]|done|done|done]). unfold fblocks in *. rewrite Nat2Z.inj_add, Hcl in Hmax, Hroom |- *.
  destruct (iappend_loop_spec n (length p) T g a (a_size a) p K0 Ha Ht ltac:(lia) Hlen ltac:(lia) ltac:(lia) ltac:(lia)) as (a1&g1&R1&[G1 G2 G3 G4 [G5 G5'] [G6 G6'] G7 G8]).
  set (off := a_size a + Z.of_nat (length p)) in *. set (a2 := mk_ainode (a_type a1) (a_major a1) (a_minor a1) (a_nlink a1) off (a_blocks a1) (a_ind a1)).
  destruct (fi_table _ _ _ _ (mk_inv _ _ _ G1) n a1 ltac:(by rewrite lookup_insert_eq)) as [_ Hok1]. assert (ainode_ok sb a2) as Hok2.
  { destruct Hok1 as [A1 A2 A3 A4 A5 A6 A7 A8 A9]. split; try done. cbn. rewrite G2. unfold nblk, BSIZE in *. Z.to_euclidean_division_equations. lia. }
  assert (mk_ok (Some n) (<[n := a2]> T) g1) as K2.
  { destruct G1 as [I1 I2 I3 I4]. split; [|done|done|done]. rewrite <- (insert_insert_eq T n a2 a1). eapply (inv_meta _ _ _ _ I1 n a1 a2); try done; [by rewrite lookup_insert_eq|by right]. }
  destruct (winode_ok (Some n) (<[n := a2]> T) g1 n a2 K2 ltac:(by right) Hn ltac:(by rewrite lookup_insert_eq)) as (g3&R3&K3&F3&Hfb&Hfi). exists (<[n := a2]> T), g3. split_and!.
  - unfold iappend. erewrite bind_run by (unfold rinode; rewrite (bind_run _ _ _ _ _ (rsect_run _ _ _ Hl)), Hin; done). change (d_size (dinode_of a)) with (a_size a). rewrite (bind_run _ _ _ _ _ R1). cbv beta iota. exact R3.
  - destruct (G3 _ _ Er ltac:(lia)) as [r1 Er1]. assert (content (vs g1) a2 = content (vs g) a ++ p) as Ec by (unfold content at 1; change (fbytes (vs g1) a2) with (fbytes (vs g1) a1); rewrite Er1, take_app_length'; [done|cbn [a2 a_size]; rewrite length_app; lia]).
    assert (∀ m c, m ≠ n → T !! m = Some c → fbytes (vs g1) c = fbytes (vs g) c) as Hoth.
    { intros m c Hm Hc. apply fbytes_sects. intros b Hb. assert (b ∈ own c) as Hbo by (unfold own; apply elem_of_app; by left). assert (mk_ok (Some m) T g) as Km by (destruct K as [K4 K5 K6 K7]; split; [eapply inv_weaken; [by left|exact K4]|done|done|done]). split; [by apply (own_range T m g Km c Hc)|].
      apply G7. intros Hb2. apply Hm. symmetry. eapply (fi_disjoint _ _ _ _ (mk_inv _ _ _ G1) n m a1 c b); [by rewrite lookup_insert_eq|by rewrite lookup_insert_ne|done|done]. }
    split; [done| | | |by rewrite Hfi, G6'].
    + rewrite (files_bytes _ _ _ F3), <- F. unfold files. rewrite fmap_insert. apply map_eq. intros m. destruct (decide (n = m)) as [<-|Hne].
      * rewrite !lookup_insert_eq. f_equal. unfold file_of, with_data. rewrite Ec. cbn [a2 a_type a_major a_minor a_nlink f_type f_major f_minor f_nlink]. by injection G5 as -> -> -> ->.
      * rewrite !lookup_insert_ne, !lookup_fmap by done. destruct (T !! m) as [c|] eqn:Hc; [|done]. cbn. f_equal. unfold file_of, content. by rewrite (Hoth m c).
    + intros m c Hm. pose proof (F3 m c Hm) as Fm. apply lookup_insert_Some in Hm as [[<- <-]|[Hne Hm]].
      * split_and!; [exact G4|exact G2|]. exists r1. unfold content. rewrite Fm. fold (content (vs g1) a2). rewrite Ec. exact Er1.
      * destruct (Sh m c Hm) as (S1&S2&rc&S3). split_and!; [done|done|]. exists rc. unfold content in *. rewrite Fm, (Hoth m c) by done. exact S3.
    + intros m. rewrite Hfi, G6'. rewrite lookup_insert_is_Some, D. destruct (decide (n = m)) as [<-|]; [|tauto]. assert (1 ≤ n < freeinode g) by (apply D; eauto). tauto.
  - rewrite Hfb, G6. rewrite (length_own a1), (length_own a), G2, Hlen by done. lia.
  - by rewrite Hfi.
Qed.

(** * The files of the host *)

Lemma fblocks_mono n m : (n ≤ m)%nat → fblocks n ≤ fblocks m.
Proof. intros H. apply blocks_for_mono, nblk_mono. lia. Qed.

Lemma copy_file_spec n fuel : ∀ T g V f l, whole T g V → V !! n = Some f → (length l ≤ fuel)%nat → Z.of_nat (length (f_data f) + length l) ≤ MAXFILE * BSIZE → freeblock g + (fblocks (length (f_data f) + length l) - fblocks (length (f_data f))) ≤ FSSIZE →
  ∃ T' g', copy_file fuel n l g = Some ((), g') ∧ whole T' g' (<[n := with_data (f_data f ++ l) f]> V) ∧ freeblock g' = freeblock g + (fblocks (length (f_data f) + length l) - fblocks (length (f_data f))) ∧ freeinode g' = freeinode g.
Proof.
  induction fuel as [|fuel IH]; intros T g V f l W Hf Hl Hmax Hroom; (destruct l as [|c0 l0] eqn:El; [|rewrite <- El in *]).
  1, 3: exists T, g; rewrite app_nil_r; cbn [length]; rewrite Nat.add_0_r; split_and!; [done|by rewrite insert_id by (rewrite Hf; by destruct f)|lia|done].
  { subst l. cbn in Hl. lia. }
  assert (0 < length l)%nat as Hpos by (rewrite El; cbn; lia). assert (copy_file (S fuel) n l = (iappend n (take (Z.to_nat BSIZE) l);; copy_file fuel n (drop (Z.to_nat BSIZE) l))) as -> by (by rewrite El). clear El c0 l0.
  set (h := take (Z.to_nat BSIZE) l). set (q := drop (Z.to_nat BSIZE) l). assert (length h + length q = length l)%nat as Hhq by (unfold h, q; rewrite <- length_app; by rewrite take_drop). assert (0 < length h)%nat as Hh by (unfold h; rewrite length_take; unfold BSIZE; lia).
  pose proof (fblocks_mono (length (f_data f) + length h) (length (f_data f) + length l) ltac:(lia)) as Hm. destruct (iappend_spec T g V n f h W Hf) as (T1&g1&R1&W1&Hfb1&Hfi1); [lia|lia|]. rewrite (bind_run _ _ _ _ _ R1).
  assert (length (f_data (with_data (f_data f ++ h) f)) = length (f_data f) + length h)%nat as Hl1 by (cbn; by rewrite length_app).
  destruct (IH T1 g1 _ (with_data (f_data f ++ h) f) q W1 ltac:(by rewrite lookup_insert_eq) ltac:(lia)) as (T2&g2&R2&W2&Hfb2&Hfi2); rewrite ?Hl1 in *; [lia|rewrite <- Nat.add_assoc, Hhq; lia|].
  exists T2, g2. split_and!; [done| |rewrite Hfb2, Hfb1, <- Nat.add_assoc, Hhq; lia|congruence]. rewrite insert_insert_eq in W2. cbn [with_data f_data f_type f_major f_minor f_nlink] in W2. rewrite <- app_assoc in W2. unfold h, q in W2. by rewrite take_drop in W2.
Qed.

(** The files after the arguments from inode [n] on. *)
Fixpoint with_args (n : Z) (args : list (cstr * list byte)) (V : gmap Z afile) : gmap Z afile :=
  match args with
  | [] => V
  | (arg, l) :: args => with_args (n + 1) args (<[n := mk_afile T_FILE 0 0 1 l]> (alter (λ f, with_data (f_data f ++ enc_dirent n (stored_name arg)) f) ROOTINO V))
  end.

Definition args_blocks (args : list (cstr * list byte)) : Z := foldr (λ '(_, l) k, fblocks (length l) + k) 0 args.

Lemma fblocks_nonneg n : 0 ≤ fblocks n.
Proof. change 0 with (fblocks 0). apply fblocks_mono. lia. Qed.

Lemma add_file_spec T g V rf arg l : whole T g V → V !! ROOTINO = Some rf → freeinode g < NINODES → SLASH ∉ arg → Z.of_nat (length (f_data rf) + 16) ≤ MAXFILE * BSIZE → Z.of_nat (length l) ≤ MAXFILE * BSIZE →
  freeblock g + (fblocks (length (f_data rf) + 16) - fblocks (length (f_data rf))) + fblocks (length l) ≤ FSSIZE →
  ∃ T' g', add_file arg l g = Some ((), g') ∧ whole T' g' (<[freeinode g := mk_afile T_FILE 0 0 1 l]> (<[ROOTINO := with_data (f_data rf ++ enc_dirent (freeinode g) (stored_name arg)) rf]> V)) ∧
    freeblock g' = freeblock g + (fblocks (length (f_data rf) + 16) - fblocks (length (f_data rf))) + fblocks (length l) ∧ freeinode g' = freeinode g + 1.
Proof.
  intros W Hr Hi Hs Hrmax Hlmax Hroom. set (n := freeinode g) in *. pose proof (fblocks_nonneg (length l)) as Hl0. assert (n ≠ ROOTINO) as Hne.
  { pose proof (wh_files _ _ _ W) as F. rewrite <- F in Hr. destruct (lookup_files_inv _ _ _ _ Hr) as (a&Ha&_). assert (1 ≤ ROOTINO < n) by (apply (wh_dom _ _ _ W); eauto). lia. }
  destruct (new_inode_spec T g V T_FILE W Hi ltac:(done) ltac:(done)) as (T1&g1&R1&W1&Hfb1&Hfi1). fold n in R1, W1, Hfi1.
  destruct (iappend_spec T1 g1 _ ROOTINO rf (enc_dirent n (stored_name arg)) W1) as (T2&g2&R2&W2&Hfb2&Hfi2); rewrite ?length_enc_dirent; [by rewrite lookup_insert_ne|lia|lia|]. rewrite length_enc_dirent in Hfb2.
  destruct (copy_file_spec n (length l) T2 g2 _ (mk_afile T_FILE 0 0 1 []) l W2) as (T3&g3&R3&W3&Hfb3&Hfi3); [by rewrite lookup_insert_ne, lookup_insert_eq|lia|cbn; lia|cbn [f_data length Nat.add]; change (fblocks 0) with 0; lia|].
  exists T3, g3. split_and!.
  - unfold add_file. rewrite decide_False by done. rewrite (bind_run _ _ _ _ _ R1), (bind_run _ _ _ _ _ R2). done.
  - cbn [f_data app with_data f_type f_major f_minor f_nlink] in W3. rewrite (insert_insert_ne V ROOTINO n) in W3 by done. by rewrite insert_insert_eq in W3.
  - cbn [f_data length Nat.add] in Hfb3. change (fblocks 0) with 0 in Hfb3. lia.
  - lia.
Qed.

(** ** The root directory *)

(** A directory without free entries. *)
Definition full (l : list byte) : Prop := (length l `mod` 16 = 0)%nat ∧ Forall (λ de, de_inum de ≠ 0) (dents l).

Lemma full_slot l : full l → dir_slot l = (length l / 16)%nat.
Proof. intros [_ H]. unfold dir_slot. destruct (list_find _ _) as [[k de]|] eqn:E; [|done]. apply list_find_Some in E as (Hk&Hz&_). rewrite Forall_lookup in H. by destruct (H k de Hk). Qed.

Lemma full_add l name n : full l → dir_add name n l = l ++ enc_dirent n name.
Proof.
  intros F. pose proof F as [Hm _]. unfold dir_add. rewrite (full_slot l F). assert (16 * (length l / 16) = length l)%nat as -> by (pose proof (Nat.Div0.div_mod (length l) 16); lia). unfold patch. rewrite take_ge, drop_ge by lia. by rewrite app_nil_r.
Qed.

Lemma full_app l name n : full l → 0 < n < 2 ^ 16 → full (l ++ enc_dirent n name).
Proof.
  intros F Hn. rewrite <- (full_add l name n F). pose proof F as [Hm Hf]. split; [by apply length_dir_add|]. rewrite dents_add by done. apply Forall_app. split; [by apply Forall_take|]. constructor; [rewrite de_inum_enc by lia; lia|by apply Forall_drop].
Qed.

Lemma stored_no_nul arg : no_nul arg → no_nul (stored_name arg).
Proof. destruct arg as [|c arg]; [done|]. cbn. case_decide; [|done]. intros Hc Hin. apply Hc. by right. Qed.

Lemma tree_root_dir V : tree_ok V → ∃ rf, V !! ROOTINO = Some rf ∧ f_type rf = T_DIR.
Proof. intros [W _]. destruct (tr_root _ _ _ W) as [(rf&?&?) _]. eauto. Qed.

(** The files can be added one after the other. *)
Lemma add_files_spec args : ∀ T g V rf, whole T g V → V !! ROOTINO = Some rf → tree_ok V → full (f_data rf) → freeinode g + Z.of_nat (length args) ≤ NINODES → Forall (λ '(arg, l), SLASH ∉ arg ∧ no_nul arg ∧ Z.of_nat (length l) ≤ MAXFILE * BSIZE) args →
  Z.of_nat (length (f_data rf) + 16 * length args) ≤ MAXFILE * BSIZE → freeblock g + (fblocks (length (f_data rf) + 16 * length args) - fblocks (length (f_data rf))) + args_blocks args ≤ FSSIZE →
  ∃ T' g' rf', add_files args g = Some ((), g') ∧ whole T' g' (with_args (freeinode g) args V) ∧ tree_ok (with_args (freeinode g) args V) ∧ with_args (freeinode g) args V !! ROOTINO = Some rf' ∧ f_type rf' = T_DIR ∧ full (f_data rf') ∧
    length (f_data rf') = (length (f_data rf) + 16 * length args)%nat ∧ freeinode g' = freeinode g + Z.of_nat (length args) ∧ freeblock g' = freeblock g + (fblocks (length (f_data rf) + 16 * length args) - fblocks (length (f_data rf))) + args_blocks args.
Proof.
  induction args as [|[arg l] args IH]; intros T g V rf W Hr Tr Fu Hi Ha Hmax Hroom; cbn [add_files with_args args_blocks foldr length] in *.
  - destruct (tree_root_dir V Tr) as (rf'&Hr'&Ht). rewrite Hr in Hr'. injection Hr' as <-. exists T, g, rf. rewrite Nat.mul_0_r, Nat.add_0_r. split_and!; try done; lia.
  - apply Forall_cons in Ha as [(Hs&Hnul&Hl) Ha]. fold (args_blocks args) in *. set (n := freeinode g) in *. destruct (tree_root_dir V Tr) as (rf'&Hr'&Ht). rewrite Hr in Hr'. injection Hr' as <-.
    pose proof (fblocks_mono (length (f_data rf) + 16) (length (f_data rf) + 16 * S (length args)) ltac:(lia)) as Hm. assert (0 ≤ args_blocks args) as Hab by (clear; induction args as [|[x l] args IH]; cbn; [done|]; pose proof (fblocks_nonneg (length l)); unfold args_blocks in IH; lia).
    destruct (add_file_spec T g V rf arg l W Hr ltac:(fold n; lia) Hs ltac:(lia) Hl ltac:(lia)) as (T1&g1&R1&W1&Hfb1&Hfi1). fold n in W1, Hfi1. pose proof (wh_inodes _ _ _ W) as Hin. fold n in Hin.
    assert (n ≠ ROOTINO ∧ V !! n = None) as [Hne Hnone].
    { pose proof (wh_files _ _ _ W) as F. rewrite <- F in Hr |- *. destruct (lookup_files_inv _ _ _ _ Hr) as (a&Hra&_). assert (1 ≤ ROOTINO < n) by (apply (wh_dom _ _ _ W); eauto). split; [lia|]. unfold files. rewrite lookup_fmap. destruct (T !! n) eqn:E; [|done]. assert (1 ≤ n < n) by (apply (wh_dom _ _ _ W); eauto). lia. }
    assert (alter (λ f, with_data (f_data f ++ enc_dirent n (stored_name arg)) f) ROOTINO V = <[ROOTINO := with_data (f_data rf ++ enc_dirent n (stored_name arg)) rf]> V) as ->.
    { apply map_eq. intros m. destruct (decide (ROOTINO = m)) as [<-|Hmr]; [by rewrite lookup_alter_eq, lookup_insert_eq, Hr|by rewrite lookup_alter_ne, lookup_insert_ne]. }
    set (rf1 := with_data (f_data rf ++ enc_dirent n (stored_name arg)) rf) in *. set (V1 := <[n := mk_afile T_FILE 0 0 1 l]> (<[ROOTINO := rf1]> V)) in *. assert (0 < n < 2 ^ 16) as Hn16 by (unfold NINODES in *; change (2 ^ 16) with 65536; lia).
    assert (tree_ok V1) as Tr1.
    { pose proof (tree_come V Tr n (mk_afile T_FILE 0 0 0 l) Hnone ltac:(done) eq_refl) as Tc. pose proof (tree_more _ Tc n (mk_afile T_FILE 0 0 0 l) ROOTINO rf (stored_name arg)) as Tm. rewrite lookup_insert_eq, insert_insert_eq, lookup_insert_ne in Tm by done.
      specialize (Tm eq_refl ltac:(done) Hr Ht Hn16 (stored_no_nul arg Hnul)). rewrite full_add in Tm by done. cbn [f_nlink with_nlink f_type f_major f_minor f_data] in Tm. unfold V1. rewrite insert_insert_ne by done. exact Tm. }
    assert (length (f_data rf1) = length (f_data rf) + 16)%nat as Hlen1 by (cbn [rf1 with_data f_data]; by rewrite length_app, length_enc_dirent).
    destruct (IH T1 g1 V1 rf1) as (T2&g2&rf2&R2&W2&Tr2&Hr2&Ht2&Fu2&Hl2&Hfi2&Hfb2); try done.
    + unfold V1. by rewrite lookup_insert_ne, lookup_insert_eq.
    + by apply full_app.
    + lia.
    + lia.
    + rewrite Hlen1, Hfb1. replace (length (f_data rf) + 16 + 16 * length args)%nat with (length (f_data rf) + 16 * S (length args))%nat by lia. lia.
    + rewrite Hfi1 in *. exists T2, g2, rf2. rewrite (bind_run _ _ _ _ _ R1). split_and!; try done; [lia|lia|]. rewrite Hfb2, Hlen1, Hfb1. replace (length (f_data rf) + 16 + 16 * length args)%nat with (length (f_data rf) + 16 * S (length args))%nat by lia. lia.
Qed.

(** * The first image *)

Lemma zero_sects k b : foldl (λ d i, <[Z.of_nat i := zero_block]> d) (∅ : gmap Z (list byte)) (seq 0 k) !! b = if decide (0 ≤ b < Z.of_nat k) then Some zero_block else None.
Proof.
  induction k as [|k IH]; [rewrite decide_False by lia; done|]. rewrite seq_S, foldl_app. cbn [foldl Nat.add]. destruct (decide (b = Z.of_nat k)) as [->|Hne].
  - rewrite lookup_insert_eq. by rewrite decide_True by lia.
  - rewrite lookup_insert_ne by done. rewrite IH. destruct (decide (0 ≤ b < Z.of_nat k)), (decide (0 ≤ b < Z.of_nat (S k))); try done; lia.
Qed.

Definition formatted : image := mk_image (<[1 := patch 0 (enc_sb sb) zero_block]> (foldl (λ d i, <[Z.of_nat i := zero_block]> d) ∅ (seq 0 (Z.to_nat FSSIZE)))) 1 nmeta.

Lemma formatted_sect b : 2 ≤ b < FSSIZE → sects formatted !! b = Some zero_block.
Proof. intros Hb. cbn [formatted sects]. rewrite lookup_insert_ne by lia. rewrite zero_sects. rewrite decide_True; [done|]. unfold FSSIZE in *. lia. Qed.

Lemma zero_dinode k : d_type (dinode_at k zero_block) = 0.
Proof.
  unfold dinode_at, dec_dinode. cbn [d_type]. unfold num_at, zero_block. rewrite drop_replicate, take_replicate, drop_0, take_replicate. generalize (2 `min` (sizeof_dinode `min` (Z.to_nat BSIZE - sizeof_dinode * k)))%nat. intros n. assert (le_combine (replicate n NUL) = 0) as ->; [|done].
  induction n as [|n IH]; [done|]. change (le_combine (replicate (S n) NUL)) with (Z.lor 0 (Z.shiftl (le_combine (replicate n NUL)) 8)). by rewrite IH.
Qed.

Lemma formatted_whole : whole ∅ formatted ∅.
Proof.
  destruct (used_bits_spec 59) as [Hbl Hbt]; [apply Nat.leb_le; done|]. assert (owned ∅ = ∅) as Eo by done. split.
  - split.
    + split; cbn [vs XvFs.sb disk held]; rewrite ?Eo.
      * apply sb_layout.
      * change (sb_size sb) with 1000. intros b Hb. change (bmapstart sb) with 58. destruct (decide (b = 58)) as [->|H58]; [rewrite lookup_insert_eq; eauto|]. rewrite lookup_insert_ne by done. destruct (decide (b = 1)) as [->|H1].
        -- exists (patch 0 (enc_sb sb) zero_block). cbn [formatted sects]. rewrite lookup_insert_eq. split; [done|by vm_compute].
        -- exists zero_block. split; [|apply length_replicate]. destruct (decide (2 ≤ b)); [apply formatted_sect; unfold FSSIZE; lia|]. assert (b = 0) as -> by lia. cbn [formatted sects]. rewrite lookup_insert_ne by done. rewrite zero_sects. by rewrite decide_True by (unfold FSSIZE; lia).
      * apply empty_subseteq.
      * intros n l Hn _. rewrite lookup_empty. change (ninodes sb) with NINODES in Hn. pose proof (iblock_ok n Hn) as Hib. rewrite lookup_insert_ne by lia. change (bmapstart sb) with 58 in Hib. rewrite formatted_sect by (unfold FSSIZE; lia). intros [= <-]. apply zero_dinode.
      * intros n a H. rewrite lookup_empty in H. discriminate H.
      * intros n a b l H. rewrite lookup_empty in H. discriminate H.
      * intros n m a c b H. rewrite lookup_empty in H. discriminate H.
      * intros b H. by apply not_elem_of_empty in H.
      * change (sb_size sb) with 1000. intros b l Hb. assert (BBLOCK b sb = bmapstart sb) as -> by (unfold BBLOCK, BPB; rewrite Z.div_small by lia; done). rewrite lookup_insert_eq. intros [= <-]. rewrite Z.mod_small by (unfold BPB; lia). change (Z.to_nat (freeblock formatted)) with 59%nat. rewrite Hbt by lia.
        rewrite bool_decide_eq_true. change (dstart sb) with 59. set_solver.
    + intros b Hb. apply formatted_sect. change (freeblock formatted) with 59 in Hb. lia.
    + cbn [formatted freeblock]. change nmeta with 59. unfold FSSIZE. lia.
    + cbn [formatted sects]. by rewrite lookup_insert_eq.
  - apply fmap_empty.
  - intros n a H. rewrite lookup_empty in H. discriminate H.
  - intros n. rewrite lookup_empty. cbn [formatted freeinode]. split; [by intros [? ?]|lia].
  - cbn [formatted freeinode]. unfold NINODES. lia.
Qed.

Definition root_dir : list byte := enc_dirent ROOTINO (cs ".") ++ enc_dirent ROOTINO (cs "..").
Definition root_files : gmap Z afile := {[ROOTINO := mk_afile T_DIR 0 0 1 root_dir]}.

Lemma root_dir_add : root_dir = dir_add (cs "..") ROOTINO (dir_add (cs ".") ROOTINO []) ∧ full root_dir.
Proof.
  assert (full []) as F0 by done. pose proof (full_app [] (cs ".") ROOTINO F0 ltac:(done)) as F1. pose proof (full_app _ (cs "..") ROOTINO F1 ltac:(done)) as F2. split; [|exact F2]. rewrite (full_add [] _ _ F0). cbn [app] in *. by rewrite (full_add _ _ _ F1).
Qed.

Lemma root_tree : tree_ok root_files.
Proof.
  destruct root_dir_add as [Er _]. destruct (new_dir ROOTINO ROOTINO ltac:(done) ltac:(done)) as [Hdot Hsl]. rewrite <- Er in Hdot, Hsl.
  assert (∀ x, vdir root_files x ↔ x = ROOTINO) as Hd by (intros x; unfold vdir, root_files; split; [intros (f&H&_); by apply lookup_singleton_Some in H as [<- _]|intros ->; rewrite lookup_singleton_eq; eauto]).
  assert (∀ x, vnl root_files x = if decide (x = ROOTINO) then Some 1 else None) as Hn by (intros x; unfold vnl, root_files; case_decide; [subst; by rewrite lookup_singleton_eq|by rewrite lookup_singleton_ne]).
  assert (∀ x k, vslot root_files x k = if decide (x = ROOTINO ∧ (k < 2)%nat) then Some ROOTINO else None) as Hs.
  { intros x k. unfold vslot, root_files. destruct (decide (x = ROOTINO)) as [->|Hx]; [|rewrite lookup_singleton_ne by done; by rewrite decide_False by tauto]. rewrite lookup_singleton_eq. cbn [mbind option_bind f_type f_data]. rewrite decide_True by done. rewrite Hsl. destruct k as [|[|k]]; [by rewrite decide_True by lia|by rewrite decide_True by lia|by rewrite decide_False by lia]. }
  split; [|intros d f H Ht; unfold root_files in H; apply lookup_singleton_Some in H as [_ <-]; done]. split; intros *; rewrite ?Hs, ?Hd, ?Hn.
  - case_decide; [|done]. intros [= <-]. rewrite decide_True by done. split; [tauto|eauto].
  - intros ->. rewrite !decide_True by lia. eauto.
  - case_decide; [|done]. intros [= <-]. subst m. exists {[(ROOTINO, 1%nat)]}. split; [|by rewrite size_singleton]. intros x k. rewrite elem_of_singleton, Hs. split; [intros [= -> ->]; split; [lia|by rewrite decide_True by lia]|]. intros [Hk H]. case_decide as E; [|done]. destruct E as [-> E]. f_equal. lia.
  - case_decide; [lia|done].
  - case_decide; [lia|done].
  - intros -> H. done.
  - by rewrite decide_True by lia.
Qed.

(** * Padding *)

(** Free entries at the end of a directory. *)
Lemma slotl_pad l r k : (length l `mod` 16 = 0)%nat → (length (l ++ replicate r NUL) `mod` 16 = 0)%nat → slotl (l ++ replicate r NUL) k = slotl l k ∧ ((k < length l / 16)%nat → dents (l ++ replicate r NUL) !! k = dents l !! k).
Proof.
  intros Hl Hlr. assert (length l = 16 * (length l / 16))%nat as Hd by (pose proof (Nat.Div0.div_mod (length l) 16); lia). assert ((k < length l / 16)%nat → dents (l ++ replicate r NUL) !! k = dents l !! k) as Hlow.
  { intros Hk. assert (length l / 16 ≤ length (l ++ replicate r NUL) / 16)%nat by (apply Nat.Div0.div_le_mono; rewrite length_app; lia). destruct (lookup_dents (l ++ replicate r NUL) k) as [-> _]; [lia|]. destruct (lookup_dents l k Hk) as [-> _]. f_equal. rewrite drop_app_le by lia. rewrite take_app_le; [done|]. rewrite length_drop. lia. }
  split; [|done]. destruct (decide (k < length l / 16)%nat) as [Hk|Hk]; [unfold slotl; by rewrite Hlow|]. unfold slotl. rewrite (lookup_ge_None_2 (dents l)) by (rewrite length_dents; lia). destruct (dents (l ++ replicate r NUL) !! k) as [de|] eqn:E; [|done]. cbn.
  unfold dents in E. apply list_lookup_fmap_Some in E as (k'&->&E). apply lookup_seq in E as [-> _]. cbn [Nat.add]. rewrite drop_app_ge by lia. rewrite drop_replicate, take_replicate. rewrite decide_True; [done|]. unfold de_inum, num_at. rewrite drop_0, take_replicate.
  generalize (2 `min` (16 `min` (r - (16 * k - length l))))%nat. intros n. induction n as [|n IH]; [done|]. change (le_combine (replicate (S n) NUL)) with (Z.lor 0 (Z.shiftl (le_combine (replicate n NUL)) 8)). by rewrite IH.
Qed.

Lemma tree_pad V d f r : tree_ok V → V !! d = Some f → f_type f = T_DIR → (length (f_data f ++ replicate r NUL) `mod` 16 = 0)%nat → tree_ok (<[d := with_data (f_data f ++ replicate r NUL) f]> V).
Proof.
  intros W Hd Ht Hm. destruct (dots_entries V W d f Hd Ht) as ((Hl&D0&D1)&H0&H1&Hdir). assert (∀ k, slotl (f_data f ++ replicate r NUL) k = slotl (f_data f) k) as Hs by (intros k; by apply slotl_pad). split.
  - apply (tree_ext _ _ _ _ _ _ (to_tree _ W)).
    + intros x. rewrite vdir_insert. case_decide as E; [|done]. subst. cbn. tauto.
    + intros x. rewrite vnl_insert. case_decide as E; [|done]. subst. unfold vnl. by rewrite Hd.
    + intros x j. rewrite vslot_insert. case_decide as E; [|done]. subst. cbn [with_data f_type f_data]. rewrite decide_True by done. by rewrite Hs, (vslot_at V d f).
  - intros x h Hx Hth. destruct (decide (x = d)) as [->|Hne]; [|rewrite lookup_insert_ne in Hx by done; by apply (to_dots V W x)]. rewrite lookup_insert_eq in Hx. injection Hx as <-. cbn [with_data f_data]. destruct H1 as [m1 H1]. pose proof (slotl_lt _ _ _ H1).
    split; [done|]. destruct (slotl_pad (f_data f) r 0 Hl Hm) as [_ E0]. destruct (slotl_pad (f_data f) r 1 Hl Hm) as [_ E1]. by rewrite E0, E1 by lia.
Qed.

(** The files of the image. *)
Definition image_files (args : list (cstr * list byte)) : gmap Z afile :=
  alter (λ f, with_data (f_data f ++ replicate (512 - length (f_data f) mod 512) NUL) f) ROOTINO (with_args 2 args root_files).

(** What [mkfs] can store: the entries of the root directory must not fill their
    last block. *)
Record storable (args : list (cstr * list byte)) : Prop := {
  st_names : Forall (λ '(arg, l), SLASH ∉ arg ∧ no_nul arg ∧ Z.of_nat (length l) ≤ MAXFILE * BSIZE) args;
  st_inodes : 2 + Z.of_nat (length args) ≤ NINODES;
  st_room : nmeta + fblocks (32 + 16 * length args) + args_blocks args ≤ FSSIZE;
  st_root : ((32 + 16 * length args) `mod` 512 ≠ 0)%nat;
}.

Lemma args_blocks_nonneg args : 0 ≤ args_blocks args.
Proof. induction args as [|[x l] args IH]; cbn; [done|]. pose proof (fblocks_nonneg (length l)). unfold args_blocks in IH. lia. Qed.

(** The size of the root directory becomes that of its blocks. *)
Lemma root_size T g V f : whole T g V → V !! ROOTINO = Some f → (length (f_data f) `mod` 512 ≠ 0)%nat →
  ∃ d T' g', rinode ROOTINO g = Some (d, g) ∧ winode ROOTINO { d with d_size := (d_size d / BSIZE + 1) * BSIZE } g = Some ((), g') ∧ mk_ok None T' g' ∧
    files T' (vs g') = <[ROOTINO := with_data (f_data f ++ replicate (512 - length (f_data f) mod 512) NUL) f]> V ∧ freeblock g' = freeblock g.
Proof.
  intros [K F Sh D Hi] Hf Hmod. rewrite <- F in Hf. destruct (lookup_files_inv _ _ _ _ Hf) as (a&Ha&->). cbn [file_of f_data] in *. destruct (Sh ROOTINO a Ha) as (Ht&Hlen&r&Er). destruct (size_bound None T ∅ (vs g) ROOTINO a Ha (mk_inv _ _ _ K)) as [Hsz Hcl].
  assert (1 ≤ ROOTINO < NINODES) as Hn by done. pose proof (iblock_ok ROOTINO Hn) as Hib. set (len := length (content (vs g) a)) in *. assert (Z.of_nat (len mod 512) = a_size a mod 512) as Hmz by (rewrite Nat2Z.inj_mod, Hcl; done).
  assert ((a_size a / BSIZE + 1) * BSIZE = BSIZE * nblk (a_size a)) as Eoff by (unfold nblk, BSIZE; Z.to_euclidean_division_equations; lia). assert (r = 512 - len mod 512)%nat as ->.
  { assert (length (fbytes (vs g) a) = Z.to_nat BSIZE * length (a_blocks a))%nat as Hlb by (apply (length_bytes T ROOTINO); [|done]; destruct K as [K1 K2 K3 K4]; split; [eapply inv_weaken; [by left|exact K1]|done|done|done]). rewrite Er, length_app, length_replicate in Hlb. fold len in Hlb. unfold nblk, BSIZE in *. Z.to_euclidean_division_equations. lia. }
  destruct (fi_disk _ _ _ _ (mk_inv _ _ _ K) (IBLOCK ROOTINO sb)) as (l&Hl&_); [cbn [vs XvFs.sb]; change (bmapstart sb) with 58 in Hib; change (sb_size sb) with 1000; lia|]. pose proof (fi_inodes _ _ _ _ (mk_inv _ _ _ K) ROOTINO l Hn ltac:(done) Hl) as Hin. rewrite Ha in Hin. rewrite disk_vs in Hl by lia.
  set (a2 := mk_ainode (a_type a) (a_major a) (a_minor a) (a_nlink a) ((a_size a / BSIZE + 1) * BSIZE) (a_blocks a) (a_ind a)). destruct (fi_table _ _ _ _ (mk_inv _ _ _ K) ROOTINO a Ha) as [_ Hok]. assert (ainode_ok sb a2) as Hok2.
  { destruct Hok as [A1 A2 A3 A4 A5 A6 A7 A8 A9]. split; try done. cbn [a2 a_size a_blocks]. rewrite Eoff, Hlen. unfold nblk, BSIZE in *. Z.to_euclidean_division_equations. lia. }
  assert (mk_ok (Some ROOTINO) (<[ROOTINO := a2]> T) g) as K2.
  { destruct K as [I1 I2 I3 I4]. split; [|done|done|done]. eapply (inv_meta _ _ _ _ I1 ROOTINO a a2); try done. by left. }
  destruct (winode_ok (Some ROOTINO) (<[ROOTINO := a2]> T) g ROOTINO a2 K2 ltac:(by right) Hn ltac:(by rewrite lookup_insert_eq)) as (g3&R3&K3&F3&Hfb&Hfi). exists (dinode_of a), (<[ROOTINO := a2]> T), g3. split_and!; [|exact R3|done| |done].
  - unfold rinode. by rewrite (bind_run _ _ _ _ _ (rsect_run _ _ _ Hl)), Hin.
  - rewrite (files_bytes _ _ _ F3), <- F. unfold files. rewrite fmap_insert. f_equal. unfold file_of, with_data. cbn [a2 a_type a_major a_minor a_nlink f_type f_major f_minor f_nlink f_data]. f_equal. rewrite <- Er. unfold content. cbn [a2 a_size]. change (fbytes (vs g) a2) with (fbytes (vs g) a). apply take_ge.
    rewrite Er, length_app, length_replicate. fold len. rewrite Eoff. unfold nblk, BSIZE in *. Z.to_euclidean_division_equations. lia.
Qed.

(** Blocks that are free on the image. *)
Definition free_after (args : list (cstr * list byte)) : Z := FSSIZE - nmeta - fblocks (32 + 16 * length args) - args_blocks args.

(** The image that [mkfs] writes. *)
Record boots (args : list (cstr * list byte)) (T : gmap Z ainode) (g : image) : Prop := {
  bt_inv : fs_inv None T ∅ (mk_fss sb (sects g) ∅ 0 ∅ []);
  bt_super : sects g !! 1 = Some (patch 0 (enc_sb sb) zero_block);
  bt_files : files T (mk_fss sb (sects g) ∅ 0 ∅ []) = image_files args;
  bt_tree : tree_ok (image_files args);
  bt_room : room T ∅ sb = free_after args;
}.

Lemma room_left T g : mk_ok None T g → room T ∅ sb = FSSIZE - freeblock g.
Proof.
  intros K. pose proof (mk_range _ _ _ K) as Hr. unfold room. change (sb_size sb) with FSSIZE. change (dstart sb) with nmeta. assert (owned T ∪ ∅ = list_to_set ((λ k, nmeta + Z.of_nat k) <$> seq 0 (Z.to_nat (freeblock g - nmeta)))) as ->.
  { apply set_eq. intros b. rewrite union_empty_r_L, (owned_used _ _ _ K), elem_of_list_to_set, list_elem_of_fmap. split; [intros Hb; exists (Z.to_nat (b - nmeta)); rewrite elem_of_seq; lia|]. intros (j&->&Hj%elem_of_seq). lia. }
  rewrite size_list_to_set by (apply NoDup_fmap_2; [intros i j E; lia|apply NoDup_seq]). rewrite length_fmap, length_seq. lia.
Qed.

(** The root directory with its two entries. *)
Lemma root_spec : fblocks 32 + nmeta ≤ FSSIZE → ∃ T g1 g2 g, ialloc T_DIR formatted = Some (ROOTINO, g1) ∧ iappend ROOTINO (enc_dirent ROOTINO (cs ".")) g1 = Some ((), g2) ∧ iappend ROOTINO (enc_dirent ROOTINO (cs "..")) g2 = Some ((), g) ∧
  whole T g root_files ∧ freeblock g = nmeta + fblocks 32 ∧ freeinode g = 2.
Proof.
  intros Hroom. destruct (new_inode_spec ∅ formatted ∅ T_DIR formatted_whole ltac:(done) ltac:(done) ltac:(done)) as (T1&g1&R1&W1&Hfb1&Hfi1). change (freeinode formatted) with ROOTINO in *. change (freeblock formatted) with nmeta in *.
  set (f1 := mk_afile T_DIR 0 0 1 []) in *. set (p1 := enc_dirent ROOTINO (cs ".")) in *. set (p2 := enc_dirent ROOTINO (cs "..")). assert (length p1 = 16%nat ∧ length p2 = 16%nat) as [L1 L2] by (split; apply length_enc_dirent). change 32%nat with (16 + 16)%nat in *. pose proof (fblocks_mono 16 (16 + 16) ltac:(lia)) as Hm.
  destruct (iappend_spec T1 g1 _ ROOTINO f1 p1 W1 ltac:(by rewrite lookup_insert_eq)) as (T2&g2&R2&W2&Hfb2&Hfi2); rewrite ?L1; change (length (f_data f1) + 16)%nat with 16%nat; change (fblocks (length (f_data f1))) with 0; [done|lia|]. rewrite insert_insert_eq in W2. rewrite L1 in Hfb2. change (length (f_data f1) + 16)%nat with 16%nat in Hfb2. change (fblocks (length (f_data f1))) with 0 in Hfb2.
  change (with_data (f_data f1 ++ p1) f1) with (mk_afile T_DIR 0 0 1 p1) in W2. set (f2 := mk_afile T_DIR 0 0 1 p1) in *. assert (length (f_data f2) = 16%nat) as L3 by done.
  destruct (iappend_spec T2 g2 _ ROOTINO f2 p2 W2 ltac:(by rewrite lookup_insert_eq)) as (T3&g3&R3&W3&Hfb3&Hfi3); rewrite ?L2, ?L3 in *; [done|lia|]. rewrite insert_insert_eq in W3. exists T3, g1, g2, g3. split_and!; [done|done|done|exact W3|lia|rewrite Hfi3, Hfi2, Hfi1; done].
Qed.

Lemma main_spec args : storable args → ∃ T g, main args blank = Some ((), g) ∧ boots args T g.
Proof.
  intros [S1 S2 S3 S4]. set (k := length args) in *. unfold NINODES in S2. unfold main. erewrite bind_run by done. erewrite bind_run by done. erewrite bind_run by apply wsect_run. change (put 1 _ _) with formatted. pose proof (fblocks_mono 32 (32 + 16 * k) ltac:(lia)) as Hm2. pose proof (args_blocks_nonneg args) as Ha0.
  destruct root_spec as (T3&g1&g2&g3&R1&R2&R3&W3&Hfb3&Hi3); [lia|]. rewrite (bind_run _ _ _ _ _ R1). rewrite decide_False by (intros H; by apply H). rewrite (bind_run _ _ _ _ _ R2), (bind_run _ _ _ _ _ R3). assert (MAXFILE * BSIZE = 71680) as Emax by done.
  assert (length root_dir = 32%nat) as Hrl by (unfold root_dir; rewrite length_app, !length_enc_dirent; done).
  destruct (add_files_spec args T3 g3 root_files (mk_afile T_DIR 0 0 1 root_dir) W3) as (T4&g4&rf&R4&W4&Tr4&Hr4&Ht4&Fu4&Hl4&Hfi4&Hfb4); cbn [f_data] in *; rewrite ?Hrl in *; fold k; [by unfold root_files; rewrite lookup_singleton_eq|apply root_tree|apply root_dir_add|unfold NINODES; lia|done|lia|lia|].
  rewrite (bind_run _ _ _ _ _ R4). rewrite Hi3 in *. fold k in Hl4, Hfb4, Hfi4. destruct (root_size T4 g4 _ rf W4 Hr4) as (d&T5&g5&R5&R6&K5&F5&Hfb5); [by rewrite Hl4|]. rewrite (bind_run _ _ _ _ _ R5). cbv zeta. rewrite (bind_run _ _ _ _ _ R6). erewrite bind_run by done. unfold balloc. rewrite decide_True by (unfold FSSIZE, BSIZE in *; lia).
  exists T5, (put (bmapstart sb) (used_bits (Z.to_nat (freeblock g5))) g5). split; [done|]. assert (image_files args = <[ROOTINO := with_data (f_data rf ++ replicate (512 - length (f_data rf) mod 512) NUL) rf]> (with_args 2 args root_files)) as Ei.
  { apply map_eq. intros m. unfold image_files. destruct (decide (ROOTINO = m)) as [<-|Hmr]; [by rewrite lookup_alter_eq, lookup_insert_eq, Hr4|by rewrite lookup_alter_ne, lookup_insert_ne]. } pose proof (room_left _ _ K5) as Hrm. destruct K5 as [K5 _ _ K6]. split.
  - exact K5.
  - cbn. by rewrite lookup_insert_ne.
  - rewrite Ei. exact F5.
  - rewrite Ei. apply tree_pad; [done|done|done|]. rewrite length_app, length_replicate, Hl4. replace (32 + 16 * k + (512 - (32 + 16 * k) mod 512))%nat with ((32 * ((32 + 16 * k) / 512 + 1)) * 16)%nat; [apply Nat.Div0.mod_mul|]. pose proof (Nat.Div0.div_mod (32 + 16 * k) 512). pose proof (Nat.mod_upper_bound (32 + 16 * k) 512). lia.
  - rewrite Hrm. unfold free_after. fold k. lia.
Qed.

(** * The kernel starts *)

Definition power_on (g : image) : fss := mk_fss (mk_sb 0 0 0 0 0 0 0) (sects g) ∅ 0 ∅ (replicate NINODE (mk_inode 0 0 false false (mk_dinode 0 0 0 0 0 []))).

(** The first process gets its directory from [userinit], and reads the super
    block when it first runs. *)
Definition first_process (dev_read : Z → option (Z → option (list byte))) : M (option nat) := cwd ← namei dev_read 0 (cs "/"); iinit;; mret cwd.

Definition started (g : image) : fss := mk_fss sb (sects g) ∅ 0 ∅ (mk_inode ROOTINO 1 false false (mk_dinode 0 0 0 0 0 []) :: replicate (NINODE - 1) (mk_inode 0 0 false false (mk_dinode 0 0 0 0 0 []))).

Lemma first_process_run dr g : sects g !! 1 = Some (patch 0 (enc_sb sb) zero_block) → first_process dr (power_on g) = Some (Some 0%nat, started g).
Proof.
  intros H. unfold first_process. set (s0 := mk_fss (mk_sb 0 0 0 0 0 0 0) (sects g) ∅ 0 ∅ (icache (started g))). assert (namei dr 0 (cs "/") (power_on g) = Some (Some 0%nat, s0)) as R by (vm_compute; reflexivity). rewrite (bind_run _ _ _ _ _ R).
  assert (readsb s0 = Some (sb, s0)) as R1.
  { unfold readsb. erewrite bind_run; [|unfold bread; rewrite decide_False by (cbn; set_solver); cbn [s0 disk]; rewrite H; reflexivity]. erewrite bind_run; [|unfold brelse; rewrite decide_True by (cbn; set_solver); reflexivity].
    unfold mret, ST_ret. assert (mk_sb (word 0 (patch 0 (enc_sb sb) zero_block)) (word 1 (patch 0 (enc_sb sb) zero_block)) (word 2 (patch 0 (enc_sb sb) zero_block)) (word 3 (patch 0 (enc_sb sb) zero_block)) (word 4 (patch 0 (enc_sb sb) zero_block)) (word 5 (patch 0 (enc_sb sb) zero_block)) (word 6 (patch 0 (enc_sb sb) zero_block)) = sb) as -> by (vm_compute; reflexivity). reflexivity. }
  erewrite bind_run by (unfold iinit; rewrite (bind_run _ _ _ _ _ R1); reflexivity). reflexivity.
Qed.

Lemma boot_sim args T g dr : boots args T g → first_process dr (power_on g) = Some (Some 0%nat, started g) ∧ sim T (mk_view (image_files args) ROOTINO ∅) (mk_proc (started g) 0 ∅).
Proof.
  intros [B1 B2 B3 B4 B5]. split; [by apply first_process_run|]. assert (∀ i ip, icache (started g) !! i = Some ip → locked ip = false ∧ valid ip = false ∧ (ref ip = 0 ∨ i = 0%nat ∧ ref ip = 1 ∧ inum ip = ROOTINO)) as Hc.
  { intros [|i] ip Hi; [injection Hi as <-; tauto|]. cbn [started icache] in Hi. rewrite lookup_cons in Hi. apply lookup_replicate in Hi as [-> _]. tauto. }
  destruct (tree_root_dir _ B4) as (rf&Hr&Ht). assert (handle (icache (started g)) 0 ROOTINO) as Hh by (eexists; split; [reflexivity|done]). assert (cache_wf (icache (started g))) as Hw.
  { split; [intros i j ip jp Hi Hj|intros i ip Hi|intros i ip Hi]; destruct (Hc _ _ Hi) as (?&?&?); [destruct (Hc _ _ Hj) as (?&?&?)| |]; try lia; tauto. }
  split; cbn [c_fs c_cwd c_open v_files v_cwd v_open]; try done.
  - split.
    + by eapply inv_same.
    + done.
    + done.
    + intros i ip Hi Href. destruct (Hc i ip Hi) as (_&Hv&[?|(->&_&->)]); [lia|]. rewrite <- B3 in Hr. destruct (lookup_files_inv _ _ _ _ Hr) as (a&Ha&_). exists a. rewrite Hv. done.
  - intros j. unfold is_locked. destruct (icache (started g) !! j) as [ip|] eqn:E; [|done]. by apply (Hc j).
  - intros m. unfold holders. cbn [v_cwd v_open]. rewrite map_filter_empty, map_size_empty, Z.add_0_r. apply refs_spec; [done|]. unfold one. case_decide as E; [left; split; [done|]; destruct Hh as (ip&Hi&Hn&Hp); exists 0%nat, ip; destruct (Hc _ _ Hi) as (_&_&?); split_and!; [done|congruence|lia]|].
    right. split; [done|]. intros i ip Hi Hn. destruct (Hc i ip Hi) as (_&_&[?|(_&_&?)]); [done|congruence].
  - exists rf. done.
  - apply map_Forall2_empty.
  - intros fd [? ?]. done.
Qed.

End Mkfs.
