(* ===== verification/XvFsTheorems.v ===== *)
(** The xv6 file system from [mkfs] to system calls: sessions of calls on a fresh
    image have the effects that a table of files and directories describes, and
    leave a disk whose link counts and bitmap are right; and single calls. *)

From stdpp Require Import base option list numbers gmap sets.
From coqutil Require Import Datatypes.RecordSettersUsingExistingGetters Word.LittleEndianList.
From Stdlib Require Import Strings.Byte ZArith Lia.
From S2P Require Import Prelude CString XvFs XvFsInv XvFsInode XvFsIo XvFsCache XvFsDir XvFsCalls XvFsRw XvFsOps XvFsLink XvFsTree XvFsSession XvMkfs.
Local Open Scope Z_scope.

Import Mkfs.

(** * Sessions on a fresh image *)

(** What the first process sees. *)
Definition first_view (args : list (cstr * list byte)) : view := mk_view (image_files args) ROOTINO ∅.

Section fresh.
Context (dev_read : Z → option (Z → option (list byte))) (dev_write : Z → option (list byte → Z)).

Lemma fresh_sim args : storable args → ∃ T g, main args blank = Some ((), g) ∧ first_process dev_read (power_on g) = Some (Some 0%nat, started g) ∧ sim T (first_view args) (mk_proc (started g) 0 ∅) ∧ room T ∅ sb = free_after args.
Proof.
  intros (T&g&R&B)%main_spec. destruct (boot_sim args T g dev_read B) as [R2 S]. exists T, g. split; [exact R|]. split; [exact R2|]. split; [exact S|]. apply B.
Qed.

Lemma fresh_session args qs : storable args → fits_all NINODES (first_view args) qs = true → costs qs ≤ free_after args →
  ∃ g T pr, main args blank = Some ((), g) ∧ first_process dev_read (power_on g) = Some (Some 0%nat, started g) ∧ run_all dev_read dev_write qs (mk_proc (started g) 0 ∅) = Some (fst (effects NINODES qs (first_view args)), pr) ∧
    sim T (snd (effects NINODES qs (first_view args))) pr ∧ XvFs.sb (c_fs pr) = sb ∧ free_after args - costs qs ≤ room T ∅ sb.
Proof.
  intros St Hf Hc. destruct (fresh_sim args St) as (T0&g&R1&R2&S0&Hr). destruct (session_steps dev_read dev_write qs T0 _ _ S0) as (T&pr&R3&S&Es&Hr'); [exact Hf|rewrite <- Hr in Hc; exact Hc|]. exists g, T, pr. rewrite Es in Hr'. split; [exact R1|]. split; [exact R2|]. split; [exact R3|]. split; [exact S|]. split; [exact Es|]. rewrite <- Hr. exact Hr'.
Qed.

End fresh.

(** ** The blocks and the links of the disk *)

(** The copy of inode [n] on the disk. *)
Definition disk_inode (s : fss) (n : Z) : option dinode := l ← disk s !! IBLOCK n (XvFs.sb s); Some (dinode_at (Z.to_nat (n mod IPB)) l).

(** The blocks that it names: direct, indirect, and those in the indirect one. *)
Definition disk_blocks (s : fss) (d : dinode) : list Z :=
  let ind := addr NDIRECT d in
  filter (λ b, b ≠ 0) (((λ k, addr k d) <$> seq 0 NDIRECT) ++ [ind] ++ (if decide (ind = 0) then [] else (λ k, word k (default [] (disk s !! ind))) <$> seq 0 NINDIRECT)).

(** Entries of directories after the first, and those that name [n]. *)
Definition entries (V : gmap Z afile) : list (Z * nat) := map_to_list V ≫= λ '(d, f), pair d <$> seq 1 (length (f_data f) / 16).
Definition links (V : gmap Z afile) (n : Z) : nat := length (filter (λ '(d, k), vslot V d k = Some n) (entries V)).

Lemma elem_entries V d k : (d, k) ∈ entries V ↔ ∃ f, V !! d = Some f ∧ (1 ≤ k < 1 + length (f_data f) / 16)%nat.
Proof.
  unfold entries. rewrite list_elem_of_bind. split.
  - intros ([d' f]&H&Hin). apply elem_of_map_to_list in Hin. apply list_elem_of_fmap in H as (j&[= -> ->]&Hj%elem_of_seq). eauto.
  - intros (f&Hd&Hk). exists (d, f). split; [|by apply elem_of_map_to_list]. apply list_elem_of_fmap. exists k. split; [done|]. by apply elem_of_seq.
Qed.

Lemma dir_entries_nodup V : NoDup (entries V).
Proof.
  apply NoDup_bind; [| |apply NoDup_map_to_list].
  - intros [d f] [d' f'] [y k] H1%elem_of_map_to_list H2%elem_of_map_to_list (j&[= -> _]&_)%list_elem_of_fmap (j'&[= -> _]&_)%list_elem_of_fmap. congruence.
  - intros [d f] _. apply NoDup_fmap_2; [intros ? ? [= ->]; done|apply NoDup_seq].
Qed.

Lemma links_count V n f : tree_ok V → V !! n = Some f → f_nlink f = Z.of_nat (links V n).
Proof.
  intros W Hn. destruct (tr_count _ _ _ (to_tree _ W) n (f_nlink f)) as (R&HR&->); [unfold vnl; by rewrite Hn|]. f_equal. unfold links. rewrite <- (size_list_to_set (C := gset (Z * nat))) by (apply NoDup_filter, dir_entries_nodup). f_equal. apply set_eq. intros [d k].
  rewrite HR, elem_of_list_to_set, list_elem_of_filter, elem_entries. split; [|intros (Hv&h&_&Hk); split; [lia|done]]. intros [Hk Hv]. split; [done|]. unfold vslot in Hv. apply bind_Some in Hv as (h&Hd&Hv). exists h. split; [done|]. case_decide; [|done]. apply slotl_lt in Hv. lia.
Qed.

Section disk.
Context (T : gmap Z ainode) (s : fss) (I : fs_inv None T ∅ s).

Lemma disk_inode_spec n : 1 ≤ n < ninodes (XvFs.sb s) → ∃ d, disk_inode s n = Some d ∧ match T !! n with Some a => d = dinode_of a ∧ d_type d ≠ 0 | None => d_type d = 0 end.
Proof.
  intros Hn. pose proof (iblock_range _ (fi_layout _ _ _ _ I) n ltac:(lia)) as Hr. pose proof (ly_data _ (fi_layout _ _ _ _ I)) as Hd. pose proof (ly_start _ (fi_layout _ _ _ _ I)). destruct (fi_disk _ _ _ _ I (IBLOCK n (XvFs.sb s))) as (l&Hl&_).
  { unfold dstart in Hd. unfold IBLOCK, IPB, BPB, BSIZE in *. Z.to_euclidean_division_equations. lia. }
  unfold disk_inode. rewrite Hl. eexists. split; [done|]. pose proof (fi_inodes _ _ _ _ I n l Hn ltac:(done) Hl) as H1. destruct (T !! n) as [a|] eqn:Ha; [|done]. split; [done|]. rewrite H1. destruct (fi_table _ _ _ _ I n a Ha) as [_ Hok]. apply (ao_type _ _ Hok).
Qed.

Lemma disk_blocks_spec n a b : T !! n = Some a → b ∈ disk_blocks s (dinode_of a) ↔ b ∈ own a.
Proof.
  intros Ha. destruct (fi_table _ _ _ _ I n a Ha) as [_ Hok]. pose proof (block_pos _ _ _ _ I n a Ha b) as Hpos. unfold disk_blocks. cbv zeta. rewrite addr_dinode_ind, list_elem_of_filter, !elem_of_app, list_elem_of_singleton, list_elem_of_fmap.
  assert (∀ j, a_ind a = Some j → 0 < j ∧ ∀ k, (k < NINDIRECT)%nat → word k (default [] (disk s !! j)) = default 0 (a_blocks a !! (NDIRECT + k)%nat)) as Hind.
  { intros j Hj. destruct (own_block _ _ _ _ I n a Ha j (in_ind a j Hj)) as (l&Hl&_). split; [by apply (block_pos _ _ _ _ I n a Ha), in_ind|]. intros k Hk. rewrite Hl. by apply (fi_ind _ _ _ _ I n a j l). }
  assert (∀ k, default 0 (a_blocks a !! k) ≠ 0 → default 0 (a_blocks a !! k) ∈ own a) as Hin by (intros k Hk; destruct (a_blocks a !! k) eqn:E; [by eapply in_blocks|done]). split.
  - intros [Hb [(k&->&Hk%elem_of_seq)|[->|H]]].
    + rewrite addr_dinode in * by lia. by apply Hin.
    + destruct (a_ind a) as [j|] eqn:Hj; [by apply in_ind|done].
    + destruct (a_ind a) as [j|] eqn:Hj; [|by apply elem_of_nil in H]. destruct (Hind j eq_refl) as [Hj0 Hw]. cbn [default from_option id] in H. rewrite decide_False in H by lia. apply list_elem_of_fmap in H as (k&->&Hk%elem_of_seq). rewrite Hw in Hb |- * by lia. apply (Hin _ Hb).
  - intros Hb. specialize (Hpos Hb). split; [lia|]. unfold own in Hb. apply elem_of_app in Hb as [Hb|Hb].
    + apply list_elem_of_lookup in Hb as [k Hk]. pose proof (lookup_lt_Some _ _ _ Hk) as Hlt. destruct (decide (k < NDIRECT)%nat) as [Hd|Hd]; [left; exists k; rewrite addr_dinode, Hk by done; split; [done|by apply elem_of_seq; lia]|]. right. right.
      destruct (ao_ind _ _ Hok) as [j Hj]; [lia|]. destruct (Hind j Hj) as [Hj0 Hw]. rewrite Hj. cbn [default from_option id]. rewrite decide_False by lia. apply list_elem_of_fmap. pose proof (ao_len _ _ Hok) as Hl. unfold MAXFILE in Hl. exists (k - NDIRECT)%nat.
      rewrite Hw by (unfold NDIRECT, NINDIRECT in *; lia). replace (NDIRECT + (k - NDIRECT))%nat with k by lia. rewrite Hk. split; [done|]. apply elem_of_seq. unfold NDIRECT, NINDIRECT in *. lia.
    + right. left. destruct (a_ind a) as [j|]; [|by apply elem_of_nil in Hb]. by apply list_elem_of_singleton in Hb.
Qed.

End disk.

(** Inode [n] is in use. *)
Definition in_use (s : fss) (n : Z) (d : dinode) : Prop := 1 ≤ n < NINODES ∧ disk_inode s n = Some d ∧ d_type d ≠ 0.

Section ended.
Context (T : gmap Z ainode) (v : view) (pr : proc) (S : sim T v pr) (Es : XvFs.sb (c_fs pr) = sb).
Abbreviation s := (c_fs pr).

Lemma ended_inv : fs_inv None T ∅ s.
Proof. apply S. Qed.

Lemma in_use_spec n d : in_use s n d ↔ ∃ a, T !! n = Some a ∧ d = dinode_of a.
Proof.
  pose proof ended_inv as I. split.
  - intros (Hn&Hd&Ht). destruct (disk_inode_spec T s I n) as (d'&Hd'&H); [by rewrite Es|]. rewrite Hd in Hd'. injection Hd' as <-. destruct (T !! n) as [a|]; [|done]. exists a. tauto.
  - intros (a&Ha&->). destruct (fi_table _ _ _ _ I n a Ha) as [Hn _]. destruct (disk_inode_spec T s I n Hn) as (d'&Hd'&H). rewrite Ha in H. destruct H as [-> Ht]. rewrite Es in Hn. by split.
Qed.

Lemma ended_links n d : in_use s n d → ∃ f, v_files v !! n = Some f ∧ d_nlink d = f_nlink f ∧ d_nlink d = Z.of_nat (links (v_files v) n).
Proof.
  intros (a&Ha&->)%in_use_spec. exists (file_of s a). assert (v_files v !! n = Some (file_of s a)) as Hf by (rewrite <- (sm_files _ _ _ S); unfold files; by rewrite lookup_fmap, Ha). split_and!; [done|done|]. by rewrite <- (links_count (v_files v) n (file_of s a) (sm_tree _ _ _ S) Hf).
Qed.

Lemma ended_bits b : 0 ≤ b < FSSIZE → ∃ l, disk s !! BBLOCK b sb = Some l ∧ (test_bit (b mod BPB) l = true ↔ b < nmeta ∨ ∃ n d, in_use s n d ∧ b ∈ disk_blocks s d).
Proof.
  pose proof ended_inv as I. intros Hb. assert (BBLOCK b sb = bmapstart sb) as Eb by (unfold BBLOCK, BPB, FSSIZE in *; rewrite Z.div_small by lia; done). destruct (fi_disk _ _ _ _ I (BBLOCK b sb)) as (l&Hl&_); [rewrite Es, Eb; done|]. exists l. split; [done|].
  pose proof (fi_bits _ _ _ _ I b l) as H. rewrite Es in H. rewrite (H Hb Hl). change (dstart sb) with nmeta. rewrite union_empty_r_L, elem_of_owned. split; (intros [?|H']; [by left|right]).
  - destruct H' as (n&a&Ha&Hin). exists n, (dinode_of a). split; [apply in_use_spec; eauto|]. by apply (disk_blocks_spec T s I n).
  - destruct H' as (n&d&(a&Ha&->)%in_use_spec&Hin). exists n, a. split; [done|]. by apply (disk_blocks_spec T s I n).
Qed.

Lemma ended_apart n m d e b : in_use s n d → in_use s m e → b ∈ disk_blocks s d → b ∈ disk_blocks s e → n = m.
Proof.
  pose proof ended_inv as I. intros (a&Ha&->)%in_use_spec (c&Hc&->)%in_use_spec Hb1 Hb2. apply (disk_blocks_spec T s I n) in Hb1; [|done]. apply (disk_blocks_spec T s I m) in Hb2; [|done]. by apply (fi_disjoint _ _ _ _ I n m a c b).
Qed.

End ended.

Section claims.
Context (dev_read : Z → option (Z → option (list byte))) (dev_write : Z → option (list byte → Z)).

(** C4: from the image that [mkfs] builds from any files that it can store, the
    kernel starts its first process in the root directory, and every sequence of
    calls that the disk has room for runs to its end with the answers and the
    effects that the table of files says. *)
Theorem fs_session_refines args qs : storable args → fits_all NINODES (first_view args) qs = true → costs qs ≤ free_after args →
  ∃ g s cwd T pr, main args blank = Some ((), g) ∧ first_process dev_read (power_on g) = Some (Some cwd, s) ∧
    run_all dev_read dev_write qs (mk_proc s cwd ∅) = Some (fst (effects NINODES qs (first_view args)), pr) ∧ sim T (snd (effects NINODES qs (first_view args))) pr.
Proof.
  intros St Hf Hc. destruct (fresh_session dev_read dev_write args qs St Hf Hc) as (g&T&pr&R1&R2&R3&S&_). exists g, (started g), 0%nat, T, pr. split; [exact R1|]. split; [exact R2|]. split; [exact R3|exact S].
Qed.


(** C7: after such a session the bitmap on the disk marks exactly the blocks
    before the data and the blocks of inodes in use, and no block belongs to two
    inodes. *)
Theorem disk_bitmap_right args qs : storable args → fits_all NINODES (first_view args) qs = true → costs qs ≤ free_after args →
  ∃ g s cwd rs pr, main args blank = Some ((), g) ∧ first_process dev_read (power_on g) = Some (Some cwd, s) ∧ run_all dev_read dev_write qs (mk_proc s cwd ∅) = Some (rs, pr) ∧
    ∀ b, 0 ≤ b < FSSIZE → ∃ l, disk (c_fs pr) !! BBLOCK b sb = Some l ∧ (test_bit (b mod BPB) l = true ↔ b < nmeta ∨ ∃ n d, in_use (c_fs pr) n d ∧ b ∈ disk_blocks (c_fs pr) d) ∧
      ∀ n m d e, in_use (c_fs pr) n d → in_use (c_fs pr) m e → b ∈ disk_blocks (c_fs pr) d → b ∈ disk_blocks (c_fs pr) e → n = m.
Proof.
  intros St Hf Hc. destruct (fresh_session dev_read dev_write args qs St Hf Hc) as (g&T&pr&R1&R2&R3&S&Es&_). exists g, (started g), 0%nat, (fst (effects NINODES qs (first_view args))), pr. split; [exact R1|]. split; [exact R2|]. split; [exact R3|].
  intros b Hb. destruct (ended_bits T _ pr S Es b Hb) as (l&Hl&H). exists l. split; [exact Hl|]. split; [exact H|]. intros n m d e. apply (ended_apart T _ pr S Es).
Qed.

End claims.

(** ** A session *)

Definition no_read : Z → option (Z → option (list byte)) := λ _, None.
Definition no_write : Z → option (list byte → Z) := λ _, None.
Definition sample_args : list (cstr * list byte) := [(cs "_cat", cs "ELF")].
Definition sample_calls : list request :=
  [Mkdir (cs "/d"); Chdir (cs "d"); Open (cs "f") (O_CREATE + O_RDWR); Write 0 (cs "hello"); Link (cs "f") (cs "../g"); Open (cs "/g") 0; Read 1 3; Unlink (cs "f"); Close 0; Close 1].

Lemma sample_storable : storable sample_args.
Proof. split; [|done|done|done]. apply Forall_singleton. split_and!; [by apply (bool_decide_eq_true_1 _); vm_compute|by apply (bool_decide_eq_true_1 _); vm_compute|done]. Qed.
Lemma sample_fits : fits_all NINODES (first_view sample_args) sample_calls = true.
Proof. vm_compute. reflexivity. Qed.

Lemma fs_session_refines_witness : ∃ g s cwd T pr, main sample_args blank = Some ((), g) ∧ first_process no_read (power_on g) = Some (Some cwd, s) ∧
    run_all no_read no_write sample_calls (mk_proc s cwd ∅) = Some ([(0, None); (0, None); (0, None); (5, None); (0, None); (1, None); (3, Some (cs "hel")); (0, None); (0, None); (0, None)], pr) ∧ sim T (snd (effects NINODES sample_calls (first_view sample_args))) pr.
Proof. exact (fs_session_refines no_read no_write sample_args sample_calls sample_storable sample_fits ltac:(by vm_compute)). Defined.


Lemma disk_bitmap_right_witness : ∃ g s cwd rs pr, main sample_args blank = Some ((), g) ∧ first_process no_read (power_on g) = Some (Some cwd, s) ∧ run_all no_read no_write sample_calls (mk_proc s cwd ∅) = Some (rs, pr) ∧
    ∀ b, 0 ≤ b < FSSIZE → ∃ l, disk (c_fs pr) !! BBLOCK b sb = Some l ∧ (test_bit (b mod BPB) l = true ↔ b < nmeta ∨ ∃ n d, in_use (c_fs pr) n d ∧ b ∈ disk_blocks (c_fs pr) d) ∧
      ∀ n m d e, in_use (c_fs pr) n d → in_use (c_fs pr) m e → b ∈ disk_blocks (c_fs pr) d → b ∈ disk_blocks (c_fs pr) e → n = m.
Proof. exact (disk_bitmap_right no_read no_write sample_args sample_calls sample_storable sample_fits ltac:(by vm_compute)). Defined.

(** * Single calls *)

Section calls.
Context (dev_read : Z → option (Z → option (list byte))) (dev_write : Z → option (list byte → Z)).
Context (T : gmap Z ainode) (v : view) (pr : proc) (S : sim T v pr).
Abbreviation s := (c_fs pr).
Abbreviation V := (v_files v).

(** C16: bytes written through one descriptor of a file are read back through
    another one at the same offset. *)
Theorem write_read_back fd fd' p p' g src : v_open v !! fd = Some p → v_open v !! fd' = Some p' → fd ≠ fd' → p_ino p' = p_ino p → p_off p' = p_off p → p_w p = true → p_r p' = true →
  V !! p_ino p = Some g → f_type g ≠ T_DEV → p_off p + Z.of_nat (length src) ≤ MAXFILE * BSIZE → Z.of_nat (length src) / BSIZE + 2 ≤ room T ∅ (XvFs.sb s) →
  ∃ pr', run_all dev_read dev_write [Write fd src; Read fd' (Z.of_nat (length src))] pr = Some ([(Z.of_nat (length src), None); (Z.of_nat (length src), Some src)], pr').
Proof.
  intros Hp Hp' Hne Hi Ho Hw Hr Hg Ht Hmax Hroom. assert (MAXFILE * BSIZE = 71680) as Em by done. pose proof (sim_fd T v pr S fd) as Hfd. rewrite Hp in Hfd. destruct (c_open pr !! fd) as [o|]; [|done]. destruct Hfd as (_&_&g0&Hg0&Hoff&_). rewrite Hg in Hg0. injection Hg0 as <-.
  set (N := ninodes (XvFs.sb s)). set (n := Z.of_nat (length src)) in *. assert (stored_len (p_off p) n = n) as Hk by (unfold stored_len; by rewrite decide_True).
  assert (effect N (Write fd src) v = ((n, None), with_fd (with_files v (<[p_ino p := with_data (patch (Z.to_nat (p_off p)) src (f_data g)) g]> V)) fd (mk_pfile (p_ino p) (p_off p + n) (p_r p) (p_w p)))) as E1.
  { cbn [effect]. unfold on_file. rewrite Hp, Hg, Hw. cbv zeta. fold n. rewrite Hk, decide_True by done. rewrite take_ge by lia. done. }
  set (v1 := with_fd _ _ _) in E1. set (l := patch (Z.to_nat (p_off p)) src (f_data g)) in *.
  assert (take (Z.to_nat n) (drop (Z.to_nat (p_off p)) l) = src) as El by (unfold l, patch; rewrite drop_app_length' by (rewrite length_take; lia); apply take_app_length'; lia).
  assert (v_open v1 !! fd' = Some p' ∧ v_files v1 !! p_ino p' = Some (with_data l g)) as [Hp1 Hg1] by (unfold v1; cbn; rewrite lookup_insert_ne by done; split; [done|by rewrite Hi, lookup_insert_eq]).
  assert (fst (effect N (Read fd' n) v1) = (n, Some src)) as E2 by (cbn [effect]; unfold on_file; rewrite Hp1, Hg1, Hr; cbv zeta; cbn [with_data f_data fst]; by rewrite Ho, El).
  destruct (session_steps dev_read dev_write [Write fd src; Read fd' n] T v pr S) as (T'&pr'&R&_).
  - fold N. cbn [fits_all]. rewrite E1. cbn [snd fits]. unfold not_device. rewrite Hp, Hp1. cbn [mbind option_bind]. rewrite Hg, Hg1. rewrite !bool_decide_eq_true_2; [done| | | |]; cbn [with_data f_type]; try done; fold n; change (2 ^ 31) with 2147483648; lia.
  - cbn [costs foldr cost]. fold n. lia.
  - exists pr'. rewrite R. fold N. cbn [effects]. rewrite E1. destruct (effect N (Read fd' n) v1) as [r v2]. cbn [fst] in *. by rewrite E2.
Qed.

Lemma bitmap_size x : dstart x - bmapstart x ≤ 2 → (size (bitmap_blocks x) ≤ 2)%nat.
Proof. intros H. unfold bitmap_blocks. etrans; [apply size_of_list|]. rewrite length_fmap, length_seq. lia. Qed.

(** C17: on a disk whose bitmap has at most two blocks, no call other than [write]
    logs more than [MAXOPBLOCKS] blocks. *)
Theorem calls_fit_log q r pr' : dstart (XvFs.sb s) - bmapstart (XvFs.sb s) ≤ 2 → (∀ fd src, q ≠ Write fd src) → fits (ninodes (XvFs.sb s)) v q = true → cost q ≤ room T ∅ (XvFs.sb s) → run dev_read dev_write q pr = Some (r, pr') →
  logged (c_fs pr') = logged s ∨ Z.of_nat (size (logged (c_fs pr'))) ≤ MAXOPBLOCKS.
Proof.
  intros Hb Hq Hf Hc R. destruct (step_any dev_read dev_write T v pr S q Hf Hc) as (T1&pr1&R1&_&_&_&Hl). rewrite R in R1. injection R1 as _ <-. assert (logged (c_fs pr') = logged s ∨ ∃ Y, (size Y ≤ 8)%nat ∧ logged (c_fs pr') ⊆ bitmap_blocks (XvFs.sb s) ∪ Y) as [?|(Y&HY&Hs)]; [|by left|].
  { destruct q; try exact Hl. by destruct (Hq fd src). }
  right. apply subseteq_size in Hs. pose proof (size_union_le (bitmap_blocks (XvFs.sb s)) Y). pose proof (bitmap_size (XvFs.sb s) Hb). unfold MAXOPBLOCKS. lia.
Qed.


(** C20: a path names, for [namei], the inode that its names lead to from the root
    or the current directory, one after the other in the tables of the
    directories, and none when one of them is missing or not a directory; nothing
    on the disk changes. *)
Theorem path_resolves path : no_nul path →
  ∃ r s', namei dev_read (c_cwd pr) path s = Some (r, s') ∧ disk s' = disk s ∧
    match r, walk V false (start (v_cwd v) path) (names path) with
    | Some i, Some (n, _) => handle (icache s') i n ∧ refs (icache s') n = refs (icache s) n + 1
    | None, None => ∀ m, refs (icache s') m = refs (icache s) m
    | _, _ => False
    end.
Proof.
  intros Hnul. destruct (namei_moves T s (c_cwd pr) (v_cwd v) (sim_ready T v pr S) dev_read path Hnul) as (r&C'&R&H). rewrite (sm_files _ _ _ S) in H. exists r, (set_cache C' s). split; [exact R|]. split; [done|]. destruct r as [i|], (walk V false _ _) as [[n x]|]; try done.
  - destruct H as (M&Hh&_). split; [exact Hh|]. by rewrite (ev_refs _ _ _ _ (mv_cache _ _ _ _ _ _ _ _ _ M)), one_self.
  - intros m. rewrite (ev_refs _ _ _ _ (mv_cache _ _ _ _ _ _ _ _ _ H)). lia.
Qed.

(** [fstat] tells what the table says of the file. *)
Theorem fstat_reports fd o p g : c_open pr !! fd = Some o → v_open v !! fd = Some p → V !! p_ino p = Some g →
  ∃ s', filestat o s = Some (mk_stat (p_ino p) (f_type g) (f_nlink g) (Z.of_nat (length (f_data g))), s') ∧ disk s' = disk s ∧ fs_ok T s'.
Proof.
  clear dev_read dev_write. intros Ho Hp Hg. pose proof (sim_fd T v pr S fd) as Hfd. rewrite Ho, Hp in Hfd. destruct Hfd as (L&_&_). pose proof Hg as Hg'. rewrite <- (sm_files _ _ _ S) in Hg'.
  destruct (ilock_moves T s (sm_ok _ _ _ S) (o_ip o) (p_ino p) (loaded_handle _ _ _ L) (sm_unlocked _ _ _ S _)) as (C1&R1&M1&L1). pose proof (mv_ok _ _ _ _ _ _ _ _ _ M1) as O1. assert (is_locked C1 (o_ip o) = true) as K1 by (rewrite (ev_lock _ _ _ _ (mv_cache _ _ _ _ _ _ _ _ _ M1)); unfold only; by rewrite decide_True).
  destruct (opened_file T (set_cache C1 s) O1 (o_ip o) (p_ino p) g Hg' L1 K1) as (a&Ha&->&ip&Hi&Hin&_&_&_&Hdin). destruct (iunlock_moves T (set_cache C1 s) O1 (o_ip o) (p_ino p) _ Hg' L1 K1) as (C2&R2&M2). exists (set_cache C2 s). split; [|split; [done|exact (mv_ok _ _ _ _ _ _ _ _ _ M2)]].
  destruct (size_bound None T ∅ s _ a Ha (fo_inv _ _ (sm_ok _ _ _ S))) as [_ Hlen]. unfold filestat. rewrite (bind_run _ _ _ _ _ R1). unfold stati. rewrite (bind_run _ _ (set_cache C1 s) (mk_stat (p_ino p) (a_type a) (a_nlink a) (a_size a)) (set_cache C1 s)).
  - rewrite (bind_run _ _ _ _ _ R2). cbn [file_of f_type f_nlink f_data]. change (content (set_cache C1 s) a) with (content s a). by rewrite Hlen.
  - rewrite (bind_run _ _ _ _ _ (read_inode_run (o_ip o) (set_cache C1 s) ip Hi)). by rewrite Hin, Hdin.
Qed.


End calls.

(** ** After a file has been opened twice *)

Definition open_twice : list request := [Open (cs "/f") (O_CREATE + O_RDWR); Open (cs "/f") 0].
Definition open_view : view := snd (effects NINODES open_twice (first_view sample_args)).
Lemma twice_fits : fits_all NINODES (first_view sample_args) open_twice = true.
Proof. vm_compute. reflexivity. Qed.

(** The state of the kernel then. *)
Definition twice_opened (pr : proc) : Prop := ∃ g T, main sample_args blank = Some ((), g) ∧ run_all no_read no_write open_twice (mk_proc (started g) 0 ∅) = Some ([(0, None); (1, None)], pr) ∧ sim T open_view pr ∧ XvFs.sb (c_fs pr) = sb ∧ 900 ≤ room T ∅ sb.

Lemma twice_opened_ex : ∃ pr, twice_opened pr.
Proof.
  destruct (fresh_session no_read no_write sample_args open_twice sample_storable twice_fits ltac:(by vm_compute)) as (g&T&pr&R1&_&R3&S&Es&Hr). exists pr, g, T. split; [exact R1|]. split; [exact R3|]. split; [exact S|]. split; [exact Es|]. refine (Z.le_trans _ _ _ _ Hr). by vm_compute.
Qed.

Lemma write_read_back_witness : ∃ pr pr', twice_opened pr ∧ run_all no_read no_write [Write 0 (cs "hello"); Read 1 5] pr = Some ([(5, None); (5, Some (cs "hello"))], pr').
Proof.
  destruct twice_opened_ex as [pr H]. exists pr. pose proof H as (g&T&_&_&S&Es&Hr). rewrite <- Es in Hr. destruct (write_read_back no_read no_write T open_view pr S 0 1 (mk_pfile 3 0 true true) (mk_pfile 3 0 true false) (mk_afile T_FILE 0 0 1 []) (cs "hello")) as [pr' R]; [vm_compute; reflexivity|vm_compute; reflexivity|done|done|done|done|done|vm_compute; reflexivity|done|by vm_compute|refine (Z.le_trans _ _ _ _ Hr); by vm_compute|].
  exists pr'. split; [exact H|exact R].
Defined.

Lemma calls_fit_log_witness : ∃ pr r pr', twice_opened pr ∧ run no_read no_write (Mkdir (cs "/d")) pr = Some (r, pr') ∧ (logged (c_fs pr') = logged (c_fs pr) ∨ Z.of_nat (size (logged (c_fs pr'))) ≤ MAXOPBLOCKS).
Proof.
  destruct twice_opened_ex as [pr H]. exists pr. pose proof H as (g&T&_&_&S&Es&Hr). rewrite <- Es in Hr. assert (fits (ninodes (XvFs.sb (c_fs pr))) open_view (Mkdir (cs "/d")) = true) as Hf by (rewrite Es; vm_compute; reflexivity). assert (cost (Mkdir (cs "/d")) ≤ room T ∅ (XvFs.sb (c_fs pr))) as Hc by (refine (Z.le_trans _ _ _ _ Hr); by vm_compute).
  destruct (step_any no_read no_write T open_view pr S (Mkdir (cs "/d")) Hf Hc) as (T1&pr1&R1&_). eexists _, pr1. split; [exact H|]. split; [exact R1|]. eapply (calls_fit_log no_read no_write T open_view pr S (Mkdir (cs "/d"))); [rewrite Es; by vm_compute|discriminate|exact Hf|exact Hc|exact R1].
Defined.


Lemma path_resolves_witness : ∃ pr i s', twice_opened pr ∧ namei no_read (c_cwd pr) (cs "/../f") (c_fs pr) = Some (Some i, s') ∧ disk s' = disk (c_fs pr) ∧ handle (icache s') i 3.
Proof.
  destruct twice_opened_ex as [pr H]. exists pr. pose proof H as (g&T&_&_&S&Es&Hr). destruct (path_resolves no_read T open_view pr S (cs "/../f")) as (r&s'&R&Hd&Hm); [by apply (bool_decide_eq_true_1 _); vm_compute|].
  replace (walk (v_files open_view) false (start (v_cwd open_view) (cs "/../f")) (names (cs "/../f"))) with (Some (3, []) : option (Z * cstr)) in Hm by (vm_compute; reflexivity). destruct r as [i|]; [|done]. exists i, s'. split; [exact H|]. split; [exact R|]. split; [exact Hd|apply Hm].
Defined.

